(* ===== verification/_CoqProject ===== *)
-Q . S2P
Prelude.v
Crypto.v
Sha256.v
Codec.v
Consensus.v
Smt.v
P2p.v
State.v
Merkle.v
Transaction.v
Bitcoin.v
Protocol.v
ProtocolRules.v
Worker.v
Ledger.v
Text.v
WorkerEndpoint.v
WorkerService.v
WorkerScheduler.v
Collections.v
Files.v
Keystore.v
Storage.v
Duplex.v
NodeState.v
Economy.v
NodePresence.v
NodePunishment.v
NodeUtxo.v
NodeDividends.v
NodeBitcoin.v
NodePurchase.v
NodeRoots.v
NodeBootstrap.v
NodeEpoch.v
NodeMempool.v
NodeOperations.v
NodeBlocks.v
NodePayload.v
NodeMining.v
MiningSigner.v
NodeReorg.v
NodeChain.v
NodeCore.v
NodeSync.v
NodeReplay.v
NodeAgreement.v
WorkerMining.v
WorkerRuntime.v
Wallet.v
Peers.v
NodeSyncFacts.v
NodeBody.v
NodeConverge.v
MainnetWitness.v
MainnetBootstrap.v
MainnetChain.v
NodeMainnet.v
NodeCheck.v
NodeInvariant.v
Offline.v
Rpc.v
WalletFiles.v
NodeDemo.v
NodeWitness.v
SignerDemo.v
KeystoreDemo.v
WorkerDemo.v
WalletDemo.v
