(* ===== verification/Prelude.v ===== *)
(** * Mutiny Protocol: a verification library

    Mutiny Protocol is a proof-of-work ledger whose right to mine is held by
    numbered Mining Licenses.  The Rust workspace under [src/crates] has library
    crates for the formats and rules of the consensus and one large crate,
    [mutiny-node], for the node, its wallet and its mining workers.  This library
    models both as executable functions and transition systems and proves what
    makes them correct.

    ** How the program fits together

    A node stores one [DevnetState]: licenses, unspent outputs, dividends,
    offenses, Bitcoin headers, the stored blocks and a mempool.  A miner selects
    pending work, searches the tickets of the epoch for one below the target and
    builds a block (NodeMining); the durable signer releases at most one header
    per ticket (MiningSigner).  A node that receives a block validates it against
    its own state (NodeBlocks), which runs the epochs without a block in between
    (NodeEpoch), the transactions (NodeMempool), the operations (NodeOperations)
    and the four authenticated maps (NodeRoots, Smt).  Peers authenticate each
    other (P2p), share a connection between threads (Duplex), and are limited in
    number (Peers); a synchronisation asks for headers and blocks, replays them
    from genesis and keeps the heavier chain (NodeSync), restoring the mempool
    (NodeReorg).  Mining can be handed to workers: a ticket is reserved in a
    ledger on disk (Ledger), sent to an authenticated worker (WorkerEndpoint,
    WorkerService, WorkerScheduler) and the result is judged (WorkerMining,
    WorkerRuntime).  State is saved in generations that survive crashes
    (Storage); wallets hold keys (Keystore, WalletFiles) and pay from the machine
    with the keys (Wallet), over an air gap (Offline) or through a local server
    (Rpc).

    ** Files

    Foundations.
    - Prelude: results, machine integers, bytes, tactics.  Collections: the parts
      of Rust's library on vectors that the node uses, field update.  Text: lines
      and words of text files.  Files: a file system with failing and interrupted
      calls, and the weakest precondition the durable components are verified
      with.
    - Crypto: crates [mutiny-types] and [mutiny-crypto]; the interfaces [Sha2],
      [Ed25519] and [Argon2].  Sha256: an executable instance of the first.

    Library crates.
    - Codec: [mutiny-codec].  Consensus: [mutiny-consensus].  Smt and State:
      [mutiny-state].  Merkle and Transaction: [mutiny-transaction].  Bitcoin:
      [mutiny-bitcoin].  Protocol and ProtocolRules: [mutiny-protocol], its
      formats and its rules.  P2p: [mutiny-p2p].  Duplex: [mutiny-duplex].
      Keystore: [mutiny-keystore].
    - [mutiny-worker]: Worker (lib.rs), Ledger (ledger.rs), WorkerEndpoint
      (endpoint.rs, reference.rs).

    The node, [mutiny-node/src].
    - State and rules: NodeState and Economy (main.rs), NodePresence
      (presence.rs), NodePunishment (punishment.rs), NodeUtxo (main.rs),
      NodeDividends (dividends.rs), NodeBitcoin (bitcoin_headers.rs), NodePurchase
      (bitcoin.rs), NodeRoots (main.rs), NodeBootstrap (bootstrap.rs).
    - Blocks: NodeEpoch, NodeMempool, NodeOperations (main.rs), NodeBlocks and
      NodePayload (blocksync.rs), NodeMining (main.rs), MiningSigner
      (mining_signer.rs).
    - Chains: NodeReorg and NodeSync (blocksync.rs, main.rs); MainnetWitness and
      MainnetBootstrap (mainnet_bootstrap.rs); NodeMainnet (blocksync.rs, main.rs).
    - Disk: Storage (storage.rs).
    - Workers: WorkerService, WorkerScheduler, WorkerMining, WorkerRuntime (the
      files of these names).
    - Users and peers: Wallet, WalletFiles, Offline, Peers (main.rs; the claims
      of dividends.rs are in Wallet), Rpc (rpc.rs).

    Proofs across components.
    - NodeChain: invariants of accepted blocks.  NodeCore: what of a state the
      consensus reads.  NodeAgreement: miner and validator.  NodeReplay,
      NodeSyncFacts, NodeConverge: replay and synchronisation.  NodeBody: what a
      block hash commits to.  MainnetChain: the first block of Mainnet.  NodeCheck
      and NodeInvariant: [check_state].

    Concrete inputs: NodeDemo, NodeWitness, SignerDemo, KeystoreDemo, WorkerDemo
    and WalletDemo apply the theorems to a development chain.

    ** Conventions

    A function keeps its Rust name; a method [T::f] is [T_f].  A function that
    returns [Result<A, E>] returns [result E A] and [?] is [let?].  What a
    function does to [&mut] arguments is returned next to its result, on errors
    too where callers can see it.  Integers are [Z] with the checked, saturating
    and wrapping operations of the source; bytes are lists.  Vectors keep their
    order; a [BTreeMap] or [HashMap] is a [gmap].  Field projections have a prefix
    per record, given at the top of each file.  The three cryptographic libraries
    are classes; nothing assumes that a hash has no collisions.  A theorem that
    needs a hash to commit to its input names the messages that the code hashes,
    as lists computed from the inputs, and has [collides], a decidable statement
    on these lists, as its alternative: two of the named messages are different
    and have one hash.  Nonces, salts, clocks, I/O faults and the order of threads
    are arguments, so theorems hold for all of them.

    ** What the theorems show

    - Consensus: accepted blocks conserve value and the emission schedule and keep
      the chain consistent ([chain_invariant], [accepted_block_effect]); the state
      that is saved loads again ([saved_states_load]); the stored blocks replay to
      the state ([chain_replays]); a block hash determines the block
      ([accepted_block_unique]); the validator takes the miner's block and
      reaches its state ([miner_validator_agree]); the first Mainnet block is
      accepted exactly when it is the one that the node stages from its witness
      ([mainnet_first_block]); Bitcoin payments are what they claim to be
      ([validate_payment_sound]).
    - Refinements: transactions refine a ledger of signed spends
      ([mempool_refines_ledger]), the difficulty word a sliding window
      ([difficulty_controller_refines]), the sparse root a full tree
      ([sparse_root_correct]), a reservation one atomic step
      ([reserve_is_atomic]).
    - Synchronisation: only validated, heavier chains are adopted, whatever a peer
      sends ([sync_keeps_heaviest]); it ends ([sync_terminates]) and an honest
      heavier peer is followed ([sync_catches_up]); a change of the chain
      restores the transactions that still apply
      ([reorg_restores_consistent_mempool]).
    - Connections: handshakes authenticate ([handshake_authenticates]) and
      complete under every schedule ([handshake_completes]), requests get their
      responses and return, live sessions are bounded, the local server acts only
      for the holder of its token.
    - Crashes: storage and the signer over every fault and every point of
      interruption, the ledger of workers over faults and stopped processes
      ([acknowledged_work_survives]).  The ledger does not sync its directory and
      is not claimed to survive a loss of power; the storage does both.  The
      signer gives no two headers of one ticket away, so that it cannot be
      convicted of that offense ([signer_is_never_convicted]); it does not protect
      a license from the other offenses.
    - Workers: no work is sent before it is reserved, results are judged truly,
      cancelled tickets stay dead.
    - Wallets: sealed seeds open, backups bring keys back and restores overwrite
      nothing, payments are mineable, air-gapped payments equal online ones and
      stay within what the operator agreed to.

    ** Fuel and bounds

    Recursion is structural or on a measure where the source allows it; a loop of
    a parser or a cipher consumes its input, whose length is its fuel
    ([skip_items], [chacha20_chunks]), and a loop on a machine integer has its
    number of digits or bits ([write_varuint], [work_units_loop]).  The nonce
    search of the synthetic Bitcoin chain has an argument [fuel] that runs through
    the functions of the Devnet bootstrap; the source stops at [u32::MAX].  Walks
    over stored Bitcoin headers have one round more than there are headers; the
    walk of the Mainnet bootstrap has [fuel] rounds, and a lemma of MainnetChain
    says that 2004 are enough and more change nothing; the loops over
    empty epochs have the number of epochs that pass, and a lemma of NodeEpoch
    says that they fail only where an epoch fails; a synchronisation has a bound
    on its header rounds that the source does not have, and [sync_terminates] says
    that it is never reached when it is larger than the number of headers missing.

    ** Not modelled

    The command line of main.rs and what it prints; sockets, threads and timers of
    the live network in main.rs (its registries and its messages are modelled);
    the address book of peers; the JSON form of the state; the key file of a
    node's identity in main.rs; fixtures that forge evidence or purchases for the
    development network; the tests.  Debug assertions are not there, their
    contents are proved where they matter.  Checked, saturating and wrapping
    arithmetic is modelled as such; plain increments of heights and epochs, which
    no chain brings to [2^64], are increments of [Z]. *)

From Stdlib Require Export ZArith Lia.
From Stdlib Require Import Strings.Byte Strings.String.
Export Strings.String.StringSyntax.
From stdpp Require Export prelude list gmap sorting.

#[global] Open Scope Z_scope.

(** ** Results: Rust's [Result<A, E>] *)

Inductive result (E A : Type) : Type :=
| Ok (a : A)
| Err (e : E).
Arguments Ok {E A} a.
Arguments Err {E A} e.

Declare Scope rust_scope.
Delimit Scope rust_scope with rust.
#[global] Open Scope rust_scope.

(** Rust's [?] operator: the rest of the function runs on [Ok], an [Err] is
    returned at once. *)
Notation "'let?' p := c 'in' k" :=
  (match c with Ok p => k | Err e => Err e end)
  (at level 10, p pattern, c at level 100, k at level 200,
   format "'[v' 'let?'  p  :=  c  'in' '/' k ']'") : rust_scope.

(** Injectivity by lemma: unlike [injection] these do not look inside the
    components. *)
Lemma Ok_inj {E A} (a b : A) : @Ok E A a = Ok b -> a = b.
Proof. congruence. Qed.
Lemma Some_inj {A} (a b : A) : Some a = Some b -> a = b.
Proof. congruence. Qed.
Lemma pair_inj {A B} (a c : A) (b d : B) : (a, b) = (c, d) -> a = c /\ b = d.
Proof. by intros [= -> ->]. Qed.

(** [Result::map_err] *)
Definition map_err {E F A} (f : E -> F) (r : result E A) : result F A :=
  match r with Ok a => Ok a | Err e => Err (f e) end.

(** [Option::ok_or] *)
Definition ok_or {E A} (e : E) (o : option A) : result E A :=
  match o with Some a => Ok a | None => Err e end.

Definition is_ok {E A} (r : result E A) : bool :=
  match r with Ok _ => true | Err _ => false end.

(** ** Bytes *)

Abbreviation byte := Byte.byte.
Abbreviation bytes := (list Byte.byte).

Definition Z_of_byte (b : byte) : Z := Z.of_N (Byte.to_N b).

Definition byte_of_Z (z : Z) : byte :=
  match Byte.of_N (Z.to_N (z mod 256)) with Some b => b | None => Byte.x00 end.

Lemma Z_of_byte_range b : 0 <= Z_of_byte b < 256.
Proof. unfold Z_of_byte. pose proof (Byte.to_N_bounded b). lia. Qed.

Lemma Z_of_byte_of_Z z : Z_of_byte (byte_of_Z z) = z mod 256.
Proof.
  unfold Z_of_byte, byte_of_Z.
  pose proof (Z.mod_pos_bound z 256 ltac:(lia)) as Hb.
  destruct (Byte.of_N (Z.to_N (z mod 256))) as [b|] eqn:E.
  - apply Byte.to_of_N in E. rewrite E. lia.
  - apply Byte.of_N_None_iff in E. lia.
Qed.

Lemma Z_of_byte_inj b c : Z_of_byte b = Z_of_byte c -> b = c.
Proof.
  unfold Z_of_byte. intros H%N2Z.inj.
  pose proof (Byte.of_to_N b) as Hb. rewrite H, Byte.of_to_N in Hb. congruence.
Qed.

Lemma byte_of_Z_of_byte b : byte_of_Z (Z_of_byte b) = b.
Proof.
  apply Z_of_byte_inj. rewrite Z_of_byte_of_Z. apply Z.mod_small, Z_of_byte_range.
Qed.

Lemma Z_of_byte_small z : 0 <= z < 256 -> Z_of_byte (byte_of_Z z) = z.
Proof. intros. rewrite Z_of_byte_of_Z. by apply Z.mod_small. Qed.

#[export] Instance byte_eq_dec : EqDecision byte := Byte.byte_eq_dec.
#[export] Program Instance byte_countable : Countable byte :=
  inj_countable Byte.to_N Byte.of_N _.
Next Obligation. intros b. apply Byte.of_to_N. Qed.

(** ** Fixed-width integers, little and big endian *)

Fixpoint le_bytes (n : nat) (z : Z) : bytes :=
  match n with
  | O => []
  | S n => byte_of_Z z :: le_bytes n (z / 256)
  end.

Fixpoint le_val (bs : bytes) : Z :=
  match bs with
  | [] => 0
  | b :: bs => Z_of_byte b + 256 * le_val bs
  end.

(** [uN::to_be_bytes] and [uN::from_be_bytes] *)
Definition be_bytes (n : nat) (z : Z) : bytes := rev (le_bytes n z).
Definition be_val (bs : bytes) : Z := le_val (rev bs).
Arguments be_bytes : simpl never.
Arguments be_val : simpl never.

Lemma length_le_bytes n z : length (le_bytes n z) = n.
Proof. revert z; induction n; intros; simpl; auto. Qed.

Lemma length_be_bytes n z : length (be_bytes n z) = n.
Proof. unfold be_bytes. by rewrite length_rev, length_le_bytes. Qed.

Lemma le_val_range bs : 0 <= le_val bs < 256 ^ Z.of_nat (length bs).
Proof.
  induction bs as [|b bs IH]; cbn [le_val length]; [lia|].
  pose proof (Z_of_byte_range b).
  rewrite Nat2Z.inj_succ, Z.pow_succ_r by lia. lia.
Qed.

Lemma le_val_le_bytes_mod n z : le_val (le_bytes n z) = z mod 256 ^ Z.of_nat n.
Proof.
  revert z; induction n as [|n IH]; intros z; simpl le_bytes; simpl le_val.
  { by rewrite Z.mod_1_r. }
  rewrite Z_of_byte_of_Z, IH, Nat2Z.inj_succ, Z.pow_succ_r by lia.
  rewrite Z.rem_mul_r by lia. lia.
Qed.

Lemma le_val_le_bytes n z : 0 <= z < 256 ^ Z.of_nat n -> le_val (le_bytes n z) = z.
Proof. intros. rewrite le_val_le_bytes_mod. by apply Z.mod_small. Qed.

Lemma le_bytes_le_val bs : le_bytes (length bs) (le_val bs) = bs.
Proof.
  induction bs as [|b bs IH]; cbn [length le_val le_bytes]; [done|].
  pose proof (Z_of_byte_range b).
  replace (Z_of_byte b + 256 * le_val bs) with (Z_of_byte b + le_val bs * 256) by lia.
  f_equal.
  - apply Z_of_byte_inj. rewrite Z_of_byte_of_Z, Z.mod_add by lia.
    by apply Z.mod_small.
  - by rewrite Z.div_add, Z.div_small, Z.add_0_l by lia.
Qed.

Lemma be_val_be_bytes n z : 0 <= z < 256 ^ Z.of_nat n -> be_val (be_bytes n z) = z.
Proof. intros. unfold be_val, be_bytes. rewrite rev_involutive. by apply le_val_le_bytes. Qed.

Lemma be_bytes_be_val n bs : length bs = n -> be_bytes n (be_val bs) = bs.
Proof.
  intros <-. unfold be_bytes, be_val.
  rewrite <- (length_rev bs), le_bytes_le_val. apply rev_involutive.
Qed.

Lemma be_val_range n bs : length bs = n -> 0 <= be_val bs < 256 ^ Z.of_nat n.
Proof. intros <-. unfold be_val. rewrite <- length_rev. apply le_val_range. Qed.

Lemma be_bytes_inj n x y :
  0 <= x < 256 ^ Z.of_nat n -> 0 <= y < 256 ^ Z.of_nat n ->
  be_bytes n x = be_bytes n y -> x = y.
Proof. intros Hx Hy H. rewrite <- (be_val_be_bytes n x), H by done. by apply be_val_be_bytes. Qed.

Lemma be_val_inj a b : length a = length b -> be_val a = be_val b -> a = b.
Proof.
  intros Hl H. rewrite <- (be_bytes_be_val (length a) a), <- (be_bytes_be_val (length a) b); congruence.
Qed.

Lemma le_val_app a b : le_val (a ++ b) = le_val a + 256 ^ Z.of_nat (length a) * le_val b.
Proof.
  induction a as [|x a IH]; cbn [le_val length app]; [lia|].
  rewrite IH, Nat2Z.inj_succ, Z.pow_succ_r by lia. lia.
Qed.

Lemma be_val_cons x bs : be_val (x :: bs) = Z_of_byte x * 256 ^ Z.of_nat (length bs) + be_val bs.
Proof.
  unfold be_val. simpl. rewrite le_val_app, length_rev. cbn [le_val]. lia.
Qed.

Lemma be_val_app a b : be_val (a ++ b) = be_val a * 256 ^ Z.of_nat (length b) + be_val b.
Proof. unfold be_val. rewrite rev_app_distr, le_val_app, length_rev. lia. Qed.

(** ** Machine-width integers

    A [uN] is a [Z] in range; the wrap-around, checked and saturating
    operations of the Rust standard library are written out. *)

Abbreviation is_u8 z := (0 <= z < 2 ^ 8).
Abbreviation is_u16 z := (0 <= z < 2 ^ 16).
Abbreviation is_u32 z := (0 <= z < 2 ^ 32).
Abbreviation is_u64 z := (0 <= z < 2 ^ 64).
Abbreviation is_u128 z := (0 <= z < 2 ^ 128).

Abbreviation u64_MAX := (2 ^ 64 - 1).

Definition checked_add (w x y : Z) : option Z := if x + y <? 2 ^ w then Some (x + y) else None.
Definition checked_mul (w x y : Z) : option Z := if x * y <? 2 ^ w then Some (x * y) else None.
Definition checked_sub (x y : Z) : option Z := if y <=? x then Some (x - y) else None.
Definition saturating_add (w x y : Z) : Z := Z.min (x + y) (2 ^ w - 1).
Definition saturating_mul (w x y : Z) : Z := Z.min (x * y) (2 ^ w - 1).
Definition saturating_sub (x y : Z) : Z := Z.max (x - y) 0.
(** [uN::try_from] of an unsigned value *)
Definition try_from (w x : Z) : option Z := if x <? 2 ^ w then Some x else None.
(** [uN::checked_shl]: [None] only for an out-of-range shift; high bits are
    dropped. *)
Definition checked_shl (w x s : Z) : option Z :=
  if s <? w then Some (Z.shiftl x s mod 2 ^ w) else None.

#[local] Ltac solve_checked :=
  split; [intros [=]; subst | intros]; try split; try lia; try (f_equal; lia).

Lemma checked_add_Some w x y z : checked_add w x y = Some z <-> z = x + y /\ x + y < 2 ^ w.
Proof. unfold checked_add. destruct (Z.ltb_spec (x + y) (2 ^ w)); solve_checked. Qed.
Lemma checked_add_None w x y : checked_add w x y = None <-> 2 ^ w <= x + y.
Proof. unfold checked_add. destruct (Z.ltb_spec (x + y) (2 ^ w)); solve_checked. Qed.
Lemma checked_mul_Some w x y z : checked_mul w x y = Some z <-> z = x * y /\ x * y < 2 ^ w.
Proof. unfold checked_mul. destruct (Z.ltb_spec (x * y) (2 ^ w)); solve_checked. Qed.
Lemma checked_sub_Some x y z : checked_sub x y = Some z <-> z = x - y /\ y <= x.
Proof. unfold checked_sub. destruct (Z.leb_spec y x); solve_checked. Qed.
Lemma checked_sub_None x y : checked_sub x y = None <-> x < y.
Proof. unfold checked_sub. destruct (Z.leb_spec y x); solve_checked. Qed.

(** Disjoint bit ranges: [|] is addition. *)
Lemma testbit_small a k n : 0 <= a < 2 ^ k -> k <= n -> Z.testbit a n = false.
Proof.
  intros Ha Hn. destruct (Z.eq_dec a 0) as [->|Hne]; [apply Z.testbit_0_l|].
  apply Z.bits_above_log2; [lia|].
  apply Z.lt_le_trans with k; [|done]. apply Z.log2_lt_pow2; lia.
Qed.

Lemma lor_shift_add a b k : 0 <= k -> 0 <= a < 2 ^ k -> Z.lor a (b * 2 ^ k) = a + b * 2 ^ k.
Proof.
  intros Hk Ha. rewrite <- Z.shiftl_mul_pow2 by lia.
  assert (Z.land a (Z.shiftl b k) = 0) as Hd.
  { apply Z.bits_inj'. intros n Hn. rewrite Z.land_spec, Z.bits_0, Z.shiftl_spec by lia.
    destruct (Z.lt_ge_cases n k).
    - by rewrite (Z.testbit_neg_r b), andb_false_r by lia.
    - by rewrite (testbit_small a k). }
  by rewrite <- Z.lxor_lor, <- Z.add_nocarry_lxor.
Qed.

Lemma lor_range w a b : 0 <= w -> 0 <= a < 2 ^ w -> 0 <= b < 2 ^ w -> 0 <= Z.lor a b < 2 ^ w.
Proof.
  intros Hw Ha Hb.
  assert (Z.lor a b = Z.lor a b mod 2 ^ w) as Hm.
  { apply Z.bits_inj'. intros n Hn. destruct (Z.lt_ge_cases n w).
    - by rewrite Z.mod_pow2_bits_low.
    - by rewrite Z.mod_pow2_bits_high, Z.lor_spec, !(testbit_small _ w). }
  rewrite Hm. apply Z.mod_pos_bound. lia.
Qed.

Lemma land_ones_mod z n : 0 <= n -> Z.land z (2 ^ n - 1) = z mod 2 ^ n.
Proof. intros. rewrite <- Z.land_ones, Z.ones_equiv by lia. f_equal; lia. Qed.

(** ** Lexicographic order on byte strings: Rust's [Ord] on [[u8; N]] *)

Fixpoint bytes_ltb (a b : bytes) : bool :=
  match a, b with
  | [], [] => false
  | [], _ :: _ => true
  | _ :: _, [] => false
  | x :: a, y :: b =>
      if Z_of_byte x <? Z_of_byte y then true
      else if Z_of_byte y <? Z_of_byte x then false
      else bytes_ltb a b
  end.

Definition bytes_leb (a b : bytes) : bool := negb (bytes_ltb b a).

(** On arrays of one length the lexicographic order is the numeric order of
    the big-endian values. *)
Lemma bytes_ltb_be_val a b :
  length a = length b -> bytes_ltb a b = (be_val a <? be_val b).
Proof.
  revert b; induction a as [|x a IH]; intros [|y b] Hl; simplify_eq/=; [done|].
  rewrite !be_val_cons, (IH b), Hl by done.
  pose proof (be_val_range _ a eq_refl) as Ha. pose proof (be_val_range _ b eq_refl) as Hb.
  rewrite Hl in Ha. set (P := 256 ^ Z.of_nat (length b)) in *.
  destruct (Z.ltb_spec (Z_of_byte x) (Z_of_byte y)).
  { symmetry. apply Z.ltb_lt. nia. }
  destruct (Z.ltb_spec (Z_of_byte y) (Z_of_byte x)).
  { symmetry. apply Z.ltb_ge. nia. }
  assert (Z_of_byte x = Z_of_byte y) as -> by lia.
  destruct (Z.ltb_spec (be_val a) (be_val b)); symmetry; [apply Z.ltb_lt|apply Z.ltb_ge]; lia.
Qed.

Lemma bytes_ltb_irrefl a : bytes_ltb a a = false.
Proof. rewrite bytes_ltb_be_val by done. apply Z.ltb_irrefl. Qed.

Lemma bytes_ltb_trans a b c :
  bytes_ltb a b = true -> bytes_ltb b c = true -> bytes_ltb a c = true.
Proof.
  revert b c; induction a as [|x a IH]; intros [|y b] [|z c]; simpl; try done.
  destruct (Z.ltb_spec (Z_of_byte x) (Z_of_byte y)), (Z.ltb_spec (Z_of_byte y) (Z_of_byte x)),
    (Z.ltb_spec (Z_of_byte y) (Z_of_byte z)), (Z.ltb_spec (Z_of_byte z) (Z_of_byte y)),
    (Z.ltb_spec (Z_of_byte x) (Z_of_byte z)), (Z.ltb_spec (Z_of_byte z) (Z_of_byte x));
    try done; try lia. apply IH.
Qed.

Lemma bytes_ltb_total a b : bytes_ltb a b = false -> bytes_ltb b a = false -> a = b.
Proof.
  revert b; induction a as [|x a IH]; intros [|y b]; simpl; try done.
  destruct (Z.ltb_spec (Z_of_byte x) (Z_of_byte y)), (Z.ltb_spec (Z_of_byte y) (Z_of_byte x));
    try done.
  intros. f_equal; [apply Z_of_byte_inj; lia | auto].
Qed.

(** Equality tests on byte strings ([==] on slices and arrays) *)
Definition bytes_eqb (a b : bytes) : bool := bool_decide (a = b).

Lemma bytes_eqb_eq a b : bytes_eqb a b = true <-> a = b.
Proof. apply bool_decide_eq_true. Qed.
Lemma bytes_eqb_neq a b : bytes_eqb a b = false <-> a <> b.
Proof. apply bool_decide_eq_false. Qed.
Lemma bytes_eqb_refl a : bytes_eqb a a = true.
Proof. by apply bytes_eqb_eq. Qed.

(** ** Lists *)

Lemma take_app_exact {A} n (a b : list A) : length a = n -> take n (a ++ b) = a.
Proof. intros <-. apply take_app_length. Qed.
Lemma drop_app_exact {A} n (a b : list A) : length a = n -> drop n (a ++ b) = b.
Proof. intros <-. apply drop_app_length. Qed.

Lemma app_inj_len {A} (a b c d : list A) :
  length a = length c -> a ++ b = c ++ d -> a = c /\ b = d.
Proof. intros Hl H. by apply app_inj_1. Qed.

Lemma match_default {A} (o : option A) d :
  match o with Some x => x | None => d end = default d o.
Proof. by destruct o. Qed.

(** The slice [bs[i..j]] of a byte string, for indices in range. *)
Definition slice {A} (i j : nat) (l : list A) : list A := take (j - i) (drop i l).

Lemma length_slice {A} i j (l : list A) :
  (i <= j)%nat -> (j <= length l)%nat -> length (slice i j l) = (j - i)%nat.
Proof. intros. unfold slice. rewrite length_take, length_drop. lia. Qed.

Lemma slice_take_drop {A} i j k (l : list A) :
  (i <= j)%nat -> (j <= k)%nat -> slice i j l ++ slice j k l = slice i k l.
Proof.
  intros. unfold slice. rewrite <- (take_drop (j - i) (take (k - i) (drop i l))).
  rewrite take_take, Nat.min_l by lia. f_equal.
  rewrite skipn_firstn_comm, drop_drop. f_equal; [lia|f_equal; lia].
Qed.

Lemma slice_app_skip {A} k i j (a b : list A) :
  length a = k -> (k <= i)%nat -> slice i j (a ++ b) = slice (i - k) (j - k) b.
Proof.
  intros Hk Hi. unfold slice. rewrite drop_app, (drop_ge a), app_nil_l, Hk by lia.
  f_equal. lia.
Qed.

Lemma slice_app_here {A} j (a b : list A) : length a = j -> slice 0 j (a ++ b) = a.
Proof. intros Hj. unfold slice. rewrite drop_0, Nat.sub_0_r. by apply take_app_exact. Qed.

Lemma slice_whole {A} n (l : list A) : length l = n -> slice 0 n l = l.
Proof. intros <-. unfold slice. rewrite drop_0. apply take_ge. lia. Qed.

Lemma slice_full {A} (l : list A) : slice 0 (length l) l = l.
Proof. unfold slice. rewrite drop_0. apply take_ge. lia. Qed.

(** Bit [j] of byte [q] of a big-endian integer. *)
Lemma be_val_testbit bs q j :
  (q < length bs)%nat -> 0 <= j < 8 ->
  Z.testbit (be_val bs) (8 * (Z.of_nat (length bs) - 1 - Z.of_nat q) + j)
  = Z.testbit (Z_of_byte (nth q bs Byte.x00)) j.
Proof.
  revert q. induction bs as [|x bs IH]; intros q Hq Hj; [simpl in Hq; lia|].
  rewrite be_val_cons. cbn [length] in *. rewrite Nat2Z.inj_succ.
  pose proof (be_val_range _ bs eq_refl) as Hr.
  change 256 with (2 ^ 8) in *. rewrite <- Z.pow_mul_r in * by lia.
  set (n := 8 * Z.of_nat (length bs)) in *.
  destruct q as [|q]; cbn [nth].
  - replace (8 * (Z.succ (Z.of_nat (length bs)) - 1 - Z.of_nat 0) + j) with (j + n) by lia.
    rewrite <- Z.shiftr_spec, Z.shiftr_div_pow2 by lia.
    by rewrite Z.add_comm, Z.div_add, Z.div_small, Z.add_0_l by lia.
  - replace (8 * (Z.succ (Z.of_nat (length bs)) - 1 - Z.of_nat (S q)) + j)
      with (8 * (Z.of_nat (length bs) - 1 - Z.of_nat q) + j) by lia.
    rewrite <- (IH q) by lia.
    assert ((Z_of_byte x * 2 ^ n + be_val bs) mod 2 ^ n = be_val bs) as Hm.
    { by rewrite Z.add_comm, Z.mod_add, Z.mod_small by lia. }
    rewrite <- Hm at 2. by rewrite Z.mod_pow2_bits_low by lia.
Qed.

(** [u8::count_ones] and friends: the number of set bits below [n] *)
Fixpoint count_ones (n : nat) (z : Z) : Z :=
  match n with
  | O => 0
  | S n => Z.b2z (Z.testbit z (Z.of_nat n)) + count_ones n z
  end.

Lemma count_ones_range n z : 0 <= count_ones n z <= Z.of_nat n.
Proof.
  induction n as [|n IH]; cbn [count_ones]; [lia|].
  destruct (Z.testbit z (Z.of_nat n)); simpl Z.b2z; lia.
Qed.

(** ** [num_bigint::BigUint] and 32-byte big-endian integers *)

(** [BigUint::to_bytes_be]: minimal big-endian bytes, one zero byte for zero. *)
Definition to_bytes_be (z : Z) : bytes :=
  if z =? 0 then [Byte.x00] else be_bytes (Z.to_nat (Z.log2 z / 8 + 1)) z.

(** [out[32 - bytes.len()..].copy_from_slice(&bytes)] on a zeroed buffer;
    [None] when the bytes do not fit. *)
Definition to_be32 (value : Z) : option bytes :=
  let bs := to_bytes_be value in
  if (32 <? length bs)%nat then None
  else Some (replicate (32 - length bs) Byte.x00 ++ bs).

Lemma be_val_zeros n bs : be_val (replicate n Byte.x00 ++ bs) = be_val bs.
Proof.
  rewrite be_val_app. replace (be_val (replicate n Byte.x00)) with 0; [lia|].
  induction n as [|n IH]; [done|]. cbn [replicate]. rewrite be_val_cons, <- IH. done.
Qed.

Lemma to_bytes_be_val z : 0 <= z -> be_val (to_bytes_be z) = z.
Proof.
  intros Hz. unfold to_bytes_be. destruct (Z.eqb_spec z 0) as [->|Hne]; [done|].
  apply be_val_be_bytes. pose proof (Z.log2_nonneg z).
  rewrite Z2Nat.id by (pose proof (Z.div_pos (Z.log2 z) 8); lia).
  pose proof (Z.div_mod (Z.log2 z) 8 ltac:(lia)).
  pose proof (Z.mod_pos_bound (Z.log2 z) 8 ltac:(lia)).
  split; [done|]. change 256 with (2 ^ 8). rewrite <- Z.pow_mul_r by lia.
  apply Z.log2_lt_pow2; lia.
Qed.

Lemma to_bytes_be_length z n : 0 <= z < 256 ^ Z.of_nat (S n) -> (length (to_bytes_be z) <= S n)%nat.
Proof.
  intros Hz. unfold to_bytes_be. destruct (Z.eqb_spec z 0) as [->|Hne]; [simpl; lia|].
  rewrite length_be_bytes. change 256 with (2 ^ 8) in Hz. rewrite <- Z.pow_mul_r in Hz by lia.
  assert (Z.log2 z < 8 * Z.of_nat (S n)) by (apply Z.log2_lt_pow2; lia).
  assert (Z.log2 z / 8 < Z.of_nat (S n)) by (apply Z.div_lt_upper_bound; lia).
  pose proof (Z.log2_nonneg z). pose proof (Z.div_pos (Z.log2 z) 8 ltac:(lia) ltac:(lia)). lia.
Qed.

Lemma to_be32_fits z : 0 <= z < 2 ^ 256 -> to_be32 z = Some (be_bytes 32 z).
Proof.
  intros Hz. change (2 ^ 256) with (256 ^ Z.of_nat 32) in Hz.
  unfold to_be32. pose proof (to_bytes_be_length z 31 Hz) as Hl.
  destruct (Nat.ltb_spec 32 (length (to_bytes_be z))); [lia|]. f_equal.
  apply be_val_inj.
  - rewrite length_app, length_replicate, length_be_bytes. lia.
  - rewrite be_val_zeros, to_bytes_be_val, be_val_be_bytes; [done|exact Hz|lia].
Qed.

Lemma to_be32_too_big z : 2 ^ 256 <= z -> to_be32 z = None.
Proof.
  intros Hz. unfold to_be32. destruct (Nat.ltb_spec 32 (length (to_bytes_be z))) as [|Hl]; [done|].
  pose proof (be_val_range _ (to_bytes_be z) eq_refl) as Hr.
  rewrite to_bytes_be_val in Hr by lia.
  assert (256 ^ Z.of_nat (length (to_bytes_be z)) <= 256 ^ 32) by (apply Z.pow_le_mono_r; lia).
  change (256 ^ 32) with (2 ^ 256) in *. lia.
Qed.

(** ** Hexadecimal literals, for concrete inputs *)

Definition hex_digit (c : Ascii.ascii) : Z :=
  let n := Z.of_N (Ascii.N_of_ascii c) in
  if (48 <=? n) && (n <=? 57) then n - 48
  else if (97 <=? n) && (n <=? 102) then n - 87
  else if (65 <=? n) && (n <=? 70) then n - 55 else 0.

Fixpoint hex (s : string) : bytes :=
  match s with
  | String a (String b s) => byte_of_Z (16 * hex_digit a + hex_digit b) :: hex s
  | _ => []
  end.

Arguments hex s%_string.

(** ASCII byte-string literals [b"..."] *)
Definition ascii_bytes (s : string) : bytes :=
  map (fun c => byte_of_Z (Z.of_N (Ascii.N_of_ascii c))) (String.list_ascii_of_string s).
Arguments ascii_bytes s%_string.

(** ** Automation *)

(** [inv_ok] runs a computation that is known to succeed backwards: it splits
    every [let?], guard and option in a hypothesis [... = Ok _]. *)
Ltac inv_ok_step :=
  match goal with
  | H : Ok _ = Ok _ |- _ => apply Ok_inj in H; try subst
  | H : Err _ = Ok _ |- _ => discriminate H
  | H : Some _ = Some _ |- _ => apply Some_inj in H; try subst
  | H : None = Some _ |- _ => discriminate H
  | H : (_, _) = (_, _) |- _ => apply pair_inj in H as [? ?]; try subst
  | H : context [match ?c with Ok _ => _ | Err _ => _ end] |- _ =>
      match type of H with _ = Ok _ => destruct c eqn:?; try discriminate H end
  | H : (if ?b then Err _ else _) = Ok _ |- _ => destruct b eqn:?; [discriminate H|]
  | H : (if ?b then _ else Err _) = Ok _ |- _ => destruct b eqn:?; [|discriminate H]
  | H : match ?o with Some _ => _ | None => Err _ end = Ok _ |- _ =>
      destruct o eqn:?; [|discriminate H]
  | H : match ?p with (_, _) => _ end = Ok _ |- _ => destruct p eqn:?
  | H : map_err _ ?r = Ok _ |- _ => destruct r eqn:?; cbn [map_err] in H; [|discriminate H]
  | H : ok_or _ ?o = Ok _ |- _ => destruct o eqn:?; cbn [ok_or] in H; [|discriminate H]
  end.
Ltac inv_ok := repeat (inv_ok_step; cbn [ok_or map_err] in *).

(** Boolean guards to propositions. *)
Ltac bool_to_prop :=
  repeat match goal with
  | H : _ && _ = true |- _ => apply andb_true_iff in H as [? ?]
  | H : _ || _ = false |- _ => apply orb_false_iff in H as [? ?]
  | H : negb _ = true |- _ => apply negb_true_iff in H
  | H : negb _ = false |- _ => apply negb_false_iff in H
  | H : (_ =? _) = true |- _ => apply Z.eqb_eq in H
  | H : (_ =? _) = false |- _ => apply Z.eqb_neq in H
  | H : (_ <? _) = true |- _ => apply Z.ltb_lt in H
  | H : (_ <? _) = false |- _ => apply Z.ltb_ge in H
  | H : (_ <=? _) = true |- _ => apply Z.leb_le in H
  | H : (_ <=? _) = false |- _ => apply Z.leb_gt in H
  | H : (_ =? _)%nat = true |- _ => apply Nat.eqb_eq in H
  | H : (_ =? _)%nat = false |- _ => apply Nat.eqb_neq in H
  | H : (_ <? _)%nat = true |- _ => apply Nat.ltb_lt in H
  | H : (_ <? _)%nat = false |- _ => apply Nat.ltb_ge in H
  | H : (_ <=? _)%nat = true |- _ => apply Nat.leb_le in H
  | H : (_ <=? _)%nat = false |- _ => apply Nat.leb_gt in H
  | H : bytes_eqb _ _ = true |- _ => apply bytes_eqb_eq in H
  | H : bytes_eqb _ _ = false |- _ => apply bytes_eqb_neq in H
  end.

Create HintDb mutiny.
Create Rewrite HintDb lens.
#[export] Hint Resolve Z_of_byte_range bytes_eqb_refl : mutiny.
#[export] Hint Rewrite length_be_bytes length_le_bytes @length_app @length_nil @length_cons
  @length_take @length_drop @length_rev : lens.

(** Length side conditions. *)
Ltac len := autorewrite with lens in *; simpl length in *; try lia.

(** [slice_norm] evaluates slices of concatenations of 2-, 4-, 8- and 32-byte
    fields. *)
Ltac slice_norm :=
  repeat first
    [ rewrite slice_app_here by len
    | rewrite (slice_app_skip 4) by len; cbn [Nat.sub]
    | rewrite (slice_app_skip 32) by len; cbn [Nat.sub]
    | rewrite (slice_app_skip 8) by len; cbn [Nat.sub]
    | rewrite (slice_app_skip 2) by len; cbn [Nat.sub] ].
