(* ===== verification/Crypto.v ===== *)
(** Crates [mutiny-types] and [mutiny-crypto]: the 32-byte identifier types,
    the domain-separation registry and the hash derivations built on it.

    SHA-256 ([sha2]), Argon2 ([argon2]) and Ed25519 ([ed25519-dalek]) are
    third-party crates.  Each is an interface (a class): the operations the
    workspace calls and the documented facts it relies on.  [Sha256.v] gives a
    concrete instance of the first one. *)

From Stdlib Require Import Strings.Byte Strings.String.
From S2P Require Import Prelude.

(** ** Interfaces of the third-party primitives *)

(** The [sha2] crate: one-shot SHA-256.  [Sha256::new], a sequence of
    [update]s and [finalize] hash the concatenation of the updates. *)
Class Sha2 := {
  sha256 : bytes -> bytes;
  sha256_length : forall m, length (sha256 m) = 32%nat;
}.

(** The [argon2] crate: [Params::new m t p out] accepts or refuses a parameter
    set; [hash_password_into] may fail and otherwise fills the output buffer. *)
Class Argon2 := {
  argon2_params_valid : Z -> Z -> Z -> option Z -> bool;
  argon2id_hash : Z -> Z -> Z -> nat -> bytes -> bytes -> option bytes;
  argon2id_length : forall m t p n pwd salt h,
    argon2id_hash m t p n pwd salt = Some h -> length h = n;
}.

(** The [ed25519-dalek] crate.  [vk_from_bytes] says whether a 32-byte string
    is accepted as a verifying key, [vk_verify] and [vk_verify_strict] are the
    two verification procedures, [sk_public] and [sk_sign] the signing side.
    Signatures made with a key verify under its public key. *)
Class Ed25519 := {
  vk_from_bytes : bytes -> bool;
  vk_verify : bytes -> bytes -> bytes -> bool;
  vk_verify_strict : bytes -> bytes -> bytes -> bool;
  sk_public : bytes -> bytes;
  sk_sign : bytes -> bytes -> bytes;
  sk_public_length : forall sk, length (sk_public sk) = 32%nat;
  sk_sign_length : forall sk m, length (sk_sign sk m) = 64%nat;
  sk_public_valid : forall sk, vk_from_bytes (sk_public sk) = true;
  sk_sign_verify : forall sk m, vk_verify (sk_public sk) m (sk_sign sk m) = true;
  sk_sign_verify_strict : forall sk m, vk_verify_strict (sk_public sk) m (sk_sign sk m) = true;
}.

(** A concrete function for the Ed25519 interface, so that theorems about
    signed objects can be evaluated: a "signature" is the public key followed
    by the first 32 bytes of the message. *)
Definition pad32 (b : bytes) : bytes := take 32 (b ++ replicate 32 Byte.x00).

Lemma pad32_length b : length (pad32 b) = 32%nat.
Proof. unfold pad32. rewrite length_take, length_app, length_replicate. lia. Qed.

Definition ed25519_demo : Ed25519.
Proof.
  refine {|
    vk_from_bytes _ := true;
    vk_verify pk m s := bytes_eqb s (pk ++ pad32 m);
    vk_verify_strict pk m s := bytes_eqb s (pk ++ pad32 m);
    sk_public := pad32;
    sk_sign sk m := pad32 sk ++ pad32 m |}; intros.
  - apply pad32_length.
  - by rewrite length_app, !pad32_length.
  - done.
  - apply bytes_eqb_refl.
  - apply bytes_eqb_refl.
Defined.

(** ** [mutiny-types] *)

(** The types generated by [hash32_type!] ([Hash256], [TxId], [LicenseId], ...)
    all wrap [[u8; 32]]: a byte string of length 32. *)
Abbreviation bytes32 := bytes.
Definition ZERO32 : bytes32 := replicate 32 Byte.x00.
Abbreviation is32 b := (length b = 32%nat).
Abbreviation is64 b := (length b = 64%nat).

Inductive Hex32Error := WrongLength | InvalidHex.

Definition nibble (c : Ascii.ascii) : option Z :=
  let n := Z.of_N (Ascii.N_of_ascii c) in
  if (48 <=? n) && (n <=? 57) then Some (n - 48)
  else if (97 <=? n) && (n <=? 102) then Some (n - 87)
  else if (65 <=? n) && (n <=? 70) then Some (n - 55) else None.

(** [hex::decode]: both cases of digits are accepted, an odd length is not. *)
Fixpoint hex_decode (s : string) : option bytes :=
  match s with
  | EmptyString => Some []
  | String a (String b s) =>
      match nibble a, nibble b, hex_decode s with
      | Some x, Some y, Some r => Some (byte_of_Z (16 * x + y) :: r)
      | _, _, _ => None
      end
  | String _ EmptyString => None
  end.

Definition hex_char (n : Z) : Ascii.ascii :=
  Ascii.ascii_of_N (Z.to_N (if n <? 10 then 48 + n else 87 + n)).

(** [hex::encode] *)
Fixpoint hex_encode (b : bytes) : string :=
  match b with
  | [] => EmptyString
  | x :: b => String (hex_char (Z_of_byte x / 16)) (String (hex_char (Z_of_byte x mod 16)) (hex_encode b))
  end.

Definition from_hex (s : string) : result Hex32Error bytes32 :=
  let? bytes := ok_or InvalidHex (hex_decode s) in
  if negb (length bytes =? 32)%nat then Err WrongLength
  else Ok bytes.

Definition to_hex (h : bytes32) : string := hex_encode h.

(** [Strikes]: amounts of the native coin *)
Definition PER_MUT : Z := 100000000.
Definition Strikes_checked_add (a b : Z) : option Z := checked_add 64 a b.
Definition Strikes_checked_sub (a b : Z) : option Z := checked_sub a b.

(** ** [domains.rs] *)

Module domains.
Local Abbreviation d s := (ascii_bytes s%string).
Definition GENESIS_ID := d "MUTINY-GENESIS-ID-V1".
Definition CONSENSUS_PARAMS := d "MUTINY-CONSENSUS-PARAMS-V1".
Definition EPOCH_SEED := d "MUTINY-EPOCH-SEED-V1".
Definition TICKET_SEED := d "MUTINY-TICKET-SEED-V1".
Definition ARGON2_SALT := d "MUTINY-ARGON2-SALT-V1".
Definition BLOCK_SIGN := d "MUTINY-BLOCK-SIGN-V1".
Definition BLOCK_ID := d "MUTINY-BLOCK-ID-V1".
Definition TX_ID := d "MUTINY-TX-ID-V1".
Definition WTX_ID := d "MUTINY-WTX-ID-V1".
Definition TX_SIGN := d "MUTINY-TX-SIGN-V1".
Definition ADDRESS := d "MUTINY-ADDRESS-V1".
Definition TX_LEAF := d "MUTINY-TX-LEAF-V1".
Definition TX_NODE := d "MUTINY-TX-NODE-V1".
Definition PROTOCOL_OP_ID := d "MUTINY-PROTOCOL-OP-ID-V1".
Definition PROTOCOL_OP_LEAF := d "MUTINY-PROTOCOL-OP-LEAF-V1".
Definition PROTOCOL_OP_NODE := d "MUTINY-PROTOCOL-OP-NODE-V1".
Definition PROTOCOL_OPS_EMPTY := d "MUTINY-PROTOCOL-OPS-EMPTY-V1".
Definition STATE_ROOT := d "MUTINY-STATE-ROOT-V1".
Definition META_ROOT := d "MUTINY-META-ROOT-V1".
Definition UTXO_KEY := d "MUTINY-UTXO-KEY-V1".
Definition UTXO_LEAF := d "MUTINY-UTXO-LEAF-V1".
Definition LICENSE_LEAF := d "MUTINY-LICENSE-LEAF-V1".
Definition EXTERNAL_PAYMENT_LEAF := d "MUTINY-EXTERNAL-PAYMENT-LEAF-V1".
Definition PROTOCOL_STATE_LEAF := d "MUTINY-PROTOCOL-STATE-LEAF-V1".
Definition SMT_EMPTY_LEAF := d "MUTINY-SMT-EMPTY-LEAF-V1".
Definition SMT_NODE := d "MUTINY-SMT-NODE-V1".
Definition LICENSE_ID := d "MUTINY-LICENSE-ID-V1".
Definition BTC_PAYMENT_ID := d "MUTINY-BTC-PAYMENT-ID-V1".
Definition NODE_ID := d "MUTINY-NODE-ID-V1".
Definition P2P_CHECKSUM := d "MUTINY-P2P-CHECKSUM-V1".
Definition PUNISHMENT_EVIDENCE_ID := d "MUTINY-PUNISHMENT-EVIDENCE-ID-V1".
Definition MUT_PAYMENT_ID := d "MUTINY-MUT-PAYMENT-ID-V1".
Definition PROTOCOL_STATE_KEY := d "MUTINY-PROTOCOL-STATE-KEY-V1".
Definition PROTOCOL_OP_SIGN := d "MUTINY-PROTOCOL-OP-SIGN-V1".
Definition ANCHOR_ENTROPY := d "MUTINY-ANCHOR-ENTROPY-V1".
Definition MUT_LICENSE_MANIFEST := d "MUTINY-MUT-LICENSE-MANIFEST-V1".
Definition BLOCK_TEMPLATE_ID := d "MUTINY-BLOCK-TEMPLATE-ID-V1".
Definition P2P_HANDSHAKE := d "MUTINY-P2P-HANDSHAKE-V1".
Definition P2P_HELLO_SIGN := d "MUTINY-P2P-HELLO-SIGN-V1".
Definition P2P_ACK_SIGN := d "MUTINY-P2P-ACK-SIGN-V1".
Definition LORA_ORIGIN_TAG := d "MUTINY-LORA-ORIGIN-TAG-V1".
Definition LORA_OBJECT := d "MUTINY-LORA-OBJECT-V1".
Definition LORA_MESSAGE_ID := d "MUTINY-LORA-MESSAGE-ID-V1".
Definition TREASURY_ID := d "MUTINY-TREASURY-ID-V1".
Definition BTC_MANIFEST := d "MUTINY-BTC-MANIFEST-V1".
Definition BOOTSTRAP_MANIFEST := d "MUTINY-BOOTSTRAP-MANIFEST-V1".
Definition BOOTSTRAP_COMMITMENT := d "MUTINY-BOOTSTRAP-COMMITMENT-V1".
Definition PROTOCOL_FINGERPRINT := d "MUTINY-PROTOCOL-FINGERPRINT-V1".

Definition ALL_DOMAINS : list bytes :=
  [ GENESIS_ID; CONSENSUS_PARAMS; EPOCH_SEED; TICKET_SEED; ARGON2_SALT; BLOCK_SIGN; BLOCK_ID;
    TX_ID; WTX_ID; TX_SIGN; ADDRESS; TX_LEAF; TX_NODE; PROTOCOL_OP_ID; PROTOCOL_OP_LEAF;
    PROTOCOL_OP_NODE; PROTOCOL_OPS_EMPTY; STATE_ROOT; META_ROOT; UTXO_KEY; UTXO_LEAF;
    LICENSE_LEAF; EXTERNAL_PAYMENT_LEAF; PROTOCOL_STATE_LEAF; SMT_EMPTY_LEAF; SMT_NODE;
    LICENSE_ID; BTC_PAYMENT_ID; NODE_ID; P2P_CHECKSUM; PUNISHMENT_EVIDENCE_ID; MUT_PAYMENT_ID;
    PROTOCOL_STATE_KEY; PROTOCOL_OP_SIGN; ANCHOR_ENTROPY; MUT_LICENSE_MANIFEST;
    BLOCK_TEMPLATE_ID; P2P_HANDSHAKE; P2P_HELLO_SIGN; P2P_ACK_SIGN; LORA_ORIGIN_TAG;
    LORA_OBJECT; LORA_MESSAGE_ID; TREASURY_ID; BTC_MANIFEST; BOOTSTRAP_MANIFEST;
    BOOTSTRAP_COMMITMENT; PROTOCOL_FINGERPRINT ].
End domains.

(** ** [mutiny-crypto/src/lib.rs] *)

Inductive CryptoError := InvalidArgon2Params | Argon2Failure.

Section crypto.
Context {SHA : Sha2}.

Definition sha256_domain (domain : bytes) (parts : list bytes) : bytes32 :=
  sha256 (domain ++ concat parts).

Definition block_signing_digest (header_core : bytes) : bytes32 :=
  sha256_domain domains.BLOCK_SIGN [header_core].

Definition block_hash (header : bytes) : bytes32 :=
  sha256_domain domains.BLOCK_ID [header].

Definition anchor_entropy (anchor_epoch : Z) (anchor_license_id : bytes32)
    (anchor_ticket_index : Z) (anchor_argon2_proof : bytes32) : bytes32 :=
  let epoch := be_bytes 8 anchor_epoch in
  let ticket := be_bytes 2 anchor_ticket_index in
  sha256_domain domains.ANCHOR_ENTROPY [epoch; anchor_license_id; ticket; anchor_argon2_proof].

Definition epoch_seed (anchor_entropy : bytes32) (epoch : Z) : bytes32 :=
  sha256_domain domains.EPOCH_SEED [anchor_entropy; be_bytes 8 epoch].

Definition ticket_seed (epoch_seed license_id : bytes32) (ticket_index : Z) : bytes32 :=
  sha256_domain domains.TICKET_SEED [epoch_seed; license_id; be_bytes 2 ticket_index].

Definition ticket_salt (epoch_seed license_id : bytes32) (ticket_index : Z) : bytes32 :=
  sha256_domain domains.ARGON2_SALT [epoch_seed; license_id; be_bytes 2 ticket_index].

Definition mutiny_argon2id `{!Argon2} (ticket_seed ticket_salt : bytes32) : result CryptoError bytes32 :=
  if negb (argon2_params_valid 64 2 1 (Some 32)) then Err InvalidArgon2Params
  else ok_or Argon2Failure (argon2id_hash 64 2 1 32 ticket_seed ticket_salt).

(** [proof < target] on [[u8; 32]] *)
Definition proof_below_target (proof target : bytes32) : bool := bytes_ltb proof target.

Lemma sha256_domain_length d ps : length (sha256_domain d ps) = 32%nat.
Proof. apply sha256_length. Qed.

(** ** Binding

    No theorem assumes that SHA-256 has no collisions: it has, and a
    disjunct that only says so would hold for every hash function.  The
    alternative to "the hashed data agree" is therefore always a collision
    among messages that the program itself hashes: each theorem writes out, as
    functions of its own inputs, the two finite lists of messages, and
    [collides] says that a message of the first and a different message of the
    second have one digest. *)
Definition domain_message (domain : bytes) (parts : list bytes) : bytes := domain ++ concat parts.

Definition collides (xs ys : list bytes) : Prop :=
  exists a b, a ∈ xs /\ b ∈ ys /\ a <> b /\ sha256 a = sha256 b.

(** Whether two lists collide is found by hashing their members. *)
Lemma collides_Exists xs ys :
  collides xs ys <-> Exists (fun a => Exists (fun b => a <> b /\ sha256 a = sha256 b) ys) xs.
Proof.
  rewrite Exists_exists. setoid_rewrite Exists_exists. split.
  - intros (a & b & ? & ? & ?). eauto.
  - intros (a & ? & b & ? & ?). by exists a, b.
Qed.

#[export] Instance collides_dec xs ys : Decision (collides xs ys).
Proof.
  destruct (decide (Exists (fun a => Exists (fun b => a <> b /\ sha256 a = sha256 b) ys) xs)) as [He|He];
    rewrite <- collides_Exists in He; [by left|by right].
Defined.

Lemma collides_mono xs ys xs' ys' : xs ⊆ xs' -> ys ⊆ ys' -> collides xs ys -> collides xs' ys'.
Proof. intros Hx Hy (a & b & ? & ? & ? & ?). exists a, b. auto. Qed.

Lemma collides_sym xs ys : collides xs ys -> collides ys xs.
Proof. intros (a & b & ? & ? & ? & ?). by exists b, a. Qed.

Lemma sha256_inj_or a b : sha256 a = sha256 b -> a = b \/ collides [a] [b].
Proof.
  intros Heq. destruct (decide (a = b)); [by left|right]. exists a, b.
  by rewrite !list_elem_of_singleton.
Qed.

Lemma sha256_domain_inj_or d ps qs :
  sha256_domain d ps = sha256_domain d qs ->
  concat ps = concat qs \/ collides [domain_message d ps] [domain_message d qs].
Proof.
  intros [Heq|?]%sha256_inj_or; [left|by right]. by apply app_inv_head in Heq.
Qed.

Definition prefix_free (ds : list bytes) : bool :=
  forallb (fun d => forallb (fun e => bool_decide (d = e) || negb (bool_decide (d `prefix_of` e))) ds) ds.

Lemma ALL_DOMAINS_prefix_free : prefix_free domains.ALL_DOMAINS = true.
Proof. vm_compute. reflexivity. Qed.

Lemma domains_prefix d e :
  d ∈ domains.ALL_DOMAINS -> e ∈ domains.ALL_DOMAINS -> d `prefix_of` e -> d = e.
Proof.
  intros Hd Hev Hp. pose proof ALL_DOMAINS_prefix_free as Hf. unfold prefix_free in Hf.
  rewrite forallb_forall in Hf. apply list_elem_of_In, Hf in Hd. cbn beta in Hd.
  rewrite forallb_forall in Hd. apply list_elem_of_In, Hd in Hev.
  apply orb_true_iff in Hev as [?%bool_decide_eq_true|Hn]; [done|].
  apply negb_true_iff, bool_decide_eq_false in Hn. done.
Qed.

Lemma sha256_domain_separated d e ps qs :
  d ∈ domains.ALL_DOMAINS -> e ∈ domains.ALL_DOMAINS -> d <> e ->
  sha256_domain d ps = sha256_domain e qs -> collides [domain_message d ps] [domain_message e qs].
Proof.
  intros Hd Hev Hne [Heq|?]%sha256_inj_or; [|done]. destruct Hne.
  destruct (decide (length d <= length e)%nat).
  - apply domains_prefix; [done..|]. exists (drop (length d) e).
    apply (f_equal (take (length d))) in Heq. rewrite take_app_length, take_app_le in Heq by done.
    rewrite Heq at 1. by rewrite take_drop.
  - symmetry. apply domains_prefix; [done..|]. exists (drop (length e) d).
    apply (f_equal (take (length e))) in Heq. rewrite take_app_length, take_app_le in Heq by lia.
    rewrite <- Heq at 1. by rewrite take_drop.
Qed.
End crypto.

(** Membership in the registry and difference of two of its entries. *)
Ltac solve_domain := apply (bool_decide_unpack _); vm_compute; exact I.

#[export] Hint Rewrite @sha256_length @sha256_domain_length : lens.
#[export] Hint Resolve sha256_domain_length : mutiny.

(** Inclusions between lists of messages, element by element; and a collision
    among fewer messages as one among more. *)
Ltac members_at x :=
  repeat match goal with
    | H : ?a ⊆ ?b |- _ => change (forall y, y ∈ a -> y ∈ b) in H; specialize (H x)
    end;
  repeat first [rewrite elem_of_app in * | rewrite elem_of_cons in * | rewrite elem_of_nil in *];
  solve [intuition (subst; auto)].
Ltac solve_messages :=
  match goal with
  | |- ?x ∈ _ => members_at x
  | |- _ ⊆ _ => let x := fresh "x" in intros x; members_at x
  end.
Ltac more_messages H := revert H; apply collides_mono; solve_messages.
