(* ===== verification/Sha256.v ===== *)
(** SHA-256 (FIPS 180-4), executable: a concrete instance of the [Sha2]
    interface.  The model never depends on it; witnesses and the golden vectors
    of the repository's tests evaluate the model at this instance. *)

From S2P Require Import Prelude Crypto.

Definition w32 (z : Z) : Z := Z.land z 0xffffffff.
Definition rotr (x n : Z) : Z := Z.lor (Z.shiftr x n) (w32 (Z.shiftl x (32 - n))).
Definition ch (x y z : Z) : Z := Z.lxor (Z.land x y) (Z.land (Z.lxor x 0xffffffff) z).
Definition maj (x y z : Z) : Z := Z.lxor (Z.lxor (Z.land x y) (Z.land x z)) (Z.land y z).
Definition bsig0 (x : Z) : Z := Z.lxor (Z.lxor (rotr x 2) (rotr x 13)) (rotr x 22).
Definition bsig1 (x : Z) : Z := Z.lxor (Z.lxor (rotr x 6) (rotr x 11)) (rotr x 25).
Definition ssig0 (x : Z) : Z := Z.lxor (Z.lxor (rotr x 7) (rotr x 18)) (Z.shiftr x 3).
Definition ssig1 (x : Z) : Z := Z.lxor (Z.lxor (rotr x 17) (rotr x 19)) (Z.shiftr x 10).

(** Big-endian 32-bit words of a byte string. *)
Fixpoint words (n : nat) (block : bytes) : list Z :=
  match n with
  | O => []
  | S n => be_val (take 4 block) :: words n (drop 4 block)
  end.

(** The round constants and the initial state, as byte strings. *)
Definition K256 : list Z := Eval vm_compute in words 64 (hex "428a2f9871374491b5c0fbcfe9b5dba53956c25b59f111f1923f82a4ab1c5ed5d807aa9812835b01243185be550c7dc372be5d7480deb1fe9bdc06a7c19bf174e49b69c1efbe47860fc19dc6240ca1cc2de92c6f4a7484aa5cb0a9dc76f988da983e5152a831c66db00327c8bf597fc7c6e00bf3d5a7914706ca63511429296727b70a852e1b21384d2c6dfc53380d13650a7354766a0abb81c2c92e92722c85a2bfe8a1a81a664bc24b8b70c76c51a3d192e819d6990624f40e3585106aa07019a4c1161e376c082748774c34b0bcb5391c0cb34ed8aa4a5b9cca4f682e6ff3748f82ee78a5636f84c878148cc7020890befffaa4506cebbef9a3f7c67178f2").

Definition H256 : list Z := Eval vm_compute in words 8 (hex "6a09e667bb67ae853c6ef372a54ff53a510e527f9b05688c1f83d9ab5be0cd19").

(** The message schedule, newest word first. *)
Fixpoint schedule (n : nat) (ws : list Z) : list Z :=
  match n with
  | O => ws
  | S n =>
      let w := w32 (ssig1 (nth 1 ws 0) + nth 6 ws 0 + ssig0 (nth 14 ws 0) + nth 15 ws 0) in
      schedule n (w :: ws)
  end.

Definition round (st : list Z) (kw : Z * Z) : list Z :=
  match st with
  | [a; b; c; d; e; f; g; h] =>
      let t1 := h + bsig1 e + ch e f g + fst kw + snd kw in
      let t2 := bsig0 a + maj a b c in
      [w32 (t1 + t2); a; b; c; w32 (d + t1); e; f; g]
  | _ => st
  end.

Definition compress (st : list Z) (block : bytes) : list Z :=
  let ws := rev (schedule 48 (rev (words 16 block))) in
  let st' := fold_left round (zip K256 ws) st in
  zip_with (fun x y => w32 (x + y)) st st'.

Definition sha_pad (m : bytes) : bytes :=
  let l := Z.of_nat (length m) in
  m ++ [Byte.x80] ++ replicate (Z.to_nat ((55 - l) mod 64)) Byte.x00 ++ be_bytes 8 (8 * l).

Fixpoint blocks (fuel : nat) (st : list Z) (m : bytes) : list Z :=
  match fuel, m with
  | S fuel, _ :: _ => blocks fuel (compress st (take 64 m)) (drop 64 m)
  | _, _ => st
  end.

Definition sha256_digest (m : bytes) : bytes :=
  let p := sha_pad m in
  concat (map (be_bytes 4) (blocks (length p) H256 p)).

Lemma compress_length st b : length st = 8%nat -> length (compress st b) = 8%nat.
Proof.
  intros Hs. unfold compress. rewrite length_zip_with.
  enough (length (fold_left round (zip K256 (rev (schedule 48 (rev (words 16 b))))) st) = 8%nat)
    by lia.
  generalize (zip K256 (rev (schedule 48 (rev (words 16 b))))). intros l.
  revert st Hs. induction l as [|kw l IH]; intros st Hs; simpl; [done|].
  apply IH. unfold round. by do 9 (destruct st as [|? st]; try done).
Qed.

Lemma blocks_length fuel st m : length st = 8%nat -> length (blocks fuel st m) = 8%nat.
Proof.
  revert st m. induction fuel as [|fuel IH]; intros st [|x m] Hs; cbn [blocks]; try done.
  by apply IH, compress_length.
Qed.

Lemma sha256_digest_length m : length (sha256_digest m) = 32%nat.
Proof.
  unfold sha256_digest.
  pose proof (blocks_length (length (sha_pad m)) H256 (sha_pad m) eq_refl) as H.
  destruct (blocks _ _ _) as [|a [|b [|c [|d [|e [|f [|g [|h [|]]]]]]]]]; try done.
Qed.

#[export] Instance sha2_fips : Sha2 :=
  {| sha256 := sha256_digest; sha256_length := sha256_digest_length |}.

(** FIPS 180-4 example. *)
Example sha256_abc :
  sha256 (hex "616263") = hex "ba7816bf8f01cfea414140de5dae2223b00361a396177a9cb410ff61f20015ad".
Proof. vm_compute. reflexivity. Qed.

(** The repository's Pack-A vectors ([pack_a_normal_epoch_vector]). *)
Example pack_a_vectors :
  let lic := map (fun i => byte_of_Z (Z.of_nat i)) (seq 0 32) in
  let prf := map (fun i => byte_of_Z (Z.of_nat i)) (seq 32 32) in
  let l2 := map (fun i => byte_of_Z (Z.of_nat i)) (seq 160 32) in
  let ae := anchor_entropy 12345 lic 17 prf in
  let es := epoch_seed ae 12346 in
  ae = hex "bc2d5215bb3652645efe1c458f0d1701a59f15fbcb90de28940607f75814f074" /\
  es = hex "dc15d46d94897906e2acc59d6c119d25f7151e464eb24b078c09436be73c31a8" /\
  ticket_seed es l2 5 = hex "eebeb06e7347a9854809849ffb7ec882f5a05d2ab66ee2a6850f39ca63f1059e" /\
  ticket_salt es l2 5 = hex "0bb8de31936a38e744768ac62a9951bd97b28055dc3daf19888d34cd3f1f9afe".
Proof. vm_compute. repeat split. Qed.
