(* ===== verification/Codec.v ===== *)
(** Crate [mutiny-codec]: big-endian fixed-width integers and the canonical
    LEB128-style VarUInt.

    A writer [fn write_x(out: &mut Vec<u8>, v)] is a function from the buffer
    to the longer buffer.  A reader [fn read_x(input: &mut &[u8])] returns the
    value and the advanced slice; when it fails the cursor is not modelled (no
    caller in the workspace looks at it after an error). *)

From S2P Require Import Prelude.

Inductive DecodeError :=
| UnexpectedEof
| Overflow
| NonCanonicalVarUInt
| VarUIntTooLong.

#[export] Instance DecodeError_eq_dec : EqDecision DecodeError.
Proof. solve_decision. Defined.

(** ** Writers *)

Definition write_u8 (out : bytes) (value : Z) : bytes := out ++ [byte_of_Z value].
Definition write_u16_be (out : bytes) (value : Z) : bytes := out ++ be_bytes 2 value.
Definition write_u32_be (out : bytes) (value : Z) : bytes := out ++ be_bytes 4 value.
Definition write_u64_be (out : bytes) (value : Z) : bytes := out ++ be_bytes 8 value.
Definition write_u256_be (out : bytes) (value : bytes) : bytes := out ++ value.

(** ** Readers *)

Definition take_n (input : bytes) (n : nat) : result DecodeError (bytes * bytes) :=
  if (length input <? n)%nat then Err UnexpectedEof
  else Ok (take n input, drop n input).

Definition read_u8 (input : bytes) : result DecodeError (Z * bytes) :=
  let? (h, input) := take_n input 1 in Ok (be_val h, input).
Definition read_u16_be (input : bytes) : result DecodeError (Z * bytes) :=
  let? (b, input) := take_n input 2 in Ok (be_val b, input).
Definition read_u32_be (input : bytes) : result DecodeError (Z * bytes) :=
  let? (b, input) := take_n input 4 in Ok (be_val b, input).
Definition read_u64_be (input : bytes) : result DecodeError (Z * bytes) :=
  let? (b, input) := take_n input 8 in Ok (be_val b, input).
Definition read_u256_be (input : bytes) : result DecodeError (bytes * bytes) :=
  take_n input 32.

(** ** VarUInt *)

(** The [loop] of [write_varuint]; a [u64] needs at most ten rounds
    ([write_varuint_step] shows that ten are enough). *)
Fixpoint write_varuint_loop (fuel : nat) (out : bytes) (value : Z) : bytes :=
  match fuel with
  | O => out
  | S fuel =>
      let byte := Z.land value 0x7f in
      let value := Z.shiftr value 7 in
      let byte := if negb (value =? 0) then Z.lor byte 0x80 else byte in
      let out := out ++ [byte_of_Z byte] in
      if value =? 0 then out else write_varuint_loop fuel out value
  end.

Definition write_varuint (out : bytes) (value : Z) : bytes := write_varuint_loop 10 out value.

Definition encode_varuint (value : Z) : bytes := write_varuint [] value.
Arguments write_varuint : simpl never.
Arguments encode_varuint : simpl never.

(** The [loop] of [read_varuint].  The guard [consumed >= 10] ends it, so eleven
    rounds are enough and the fuel never runs out. *)
Fixpoint read_varuint_loop (fuel : nat) (original : bytes) (value shift : Z) (consumed : nat)
    : result DecodeError (Z * nat) :=
  match fuel with
  | O => Err VarUIntTooLong
  | S fuel =>
      if (10 <=? consumed)%nat then Err VarUIntTooLong else
      let? byte := ok_or UnexpectedEof (original !! consumed) in
      let payload := Z.land (Z_of_byte byte) 0x7f in
      if (shift =? 63) && (1 <? payload) then Err Overflow else
      if (63 <? shift) && negb (payload =? 0) then Err Overflow else
      let? shifted := ok_or Overflow (checked_shl 64 payload shift) in
      let value := Z.lor value shifted in
      let consumed := S consumed in
      if Z.land (Z_of_byte byte) 0x80 =? 0 then Ok (value, consumed)
      else read_varuint_loop fuel original value (shift + 7) consumed
  end.

Definition read_varuint (input : bytes) : result DecodeError (Z * bytes) :=
  let original := input in
  let? (value, consumed) := read_varuint_loop 11 original 0 0 0 in
  let canonical := encode_varuint value in
  if negb (bytes_eqb canonical (take consumed original)) then Err NonCanonicalVarUInt
  else Ok (value, drop consumed original).

(** ** The fixed-width readers invert the writers *)

Lemma take_n_app n a rest : length a = n -> take_n (a ++ rest) n = Ok (a, rest).
Proof.
  intros Hl. unfold take_n. rewrite length_app, Hl.
  destruct (Nat.ltb_spec (n + length rest) n); [lia|].
  by rewrite take_app_exact, drop_app_exact.
Qed.

Lemma take_n_ok n input a rest :
  take_n input n = Ok (a, rest) -> input = a ++ rest /\ length a = n.
Proof.
  unfold take_n. intros H. inv_ok. bool_to_prop.
  rewrite take_drop, length_take. split; [done|lia].
Qed.

(** The four integer readers share one shape. *)
Definition read_uint (n : nat) (input : bytes) : result DecodeError (Z * bytes) :=
  let? (b, input) := take_n input n in Ok (be_val b, input).

Lemma read_uint_app n v rest :
  0 <= v < 256 ^ Z.of_nat n -> read_uint n (be_bytes n v ++ rest) = Ok (v, rest).
Proof.
  intros Hv. unfold read_uint. rewrite take_n_app by apply length_be_bytes.
  by rewrite be_val_be_bytes.
Qed.

Lemma read_uint_ok n input v rest :
  read_uint n input = Ok (v, rest) ->
  input = be_bytes n v ++ rest /\ 0 <= v < 256 ^ Z.of_nat n.
Proof.
  unfold read_uint. destruct (take_n input n) as [[b r]|] eqn:E; [|done].
  intros [= <- <-]. apply take_n_ok in E as [-> Hl].
  rewrite be_bytes_be_val by done. split; [done|by apply be_val_range].
Qed.

Lemma be_bytes_1 v : be_bytes 1 v = [byte_of_Z v].
Proof. done. Qed.

Lemma read_u8_app v rest : is_u8 v -> read_u8 (byte_of_Z v :: rest) = Ok (v, rest).
Proof. apply (read_uint_app 1). Qed.
Lemma read_u16_be_app v rest : is_u16 v -> read_u16_be (be_bytes 2 v ++ rest) = Ok (v, rest).
Proof. apply (read_uint_app 2). Qed.
Lemma read_u32_be_app v rest : is_u32 v -> read_u32_be (be_bytes 4 v ++ rest) = Ok (v, rest).
Proof. apply (read_uint_app 4). Qed.
Lemma read_u64_be_app v rest : is_u64 v -> read_u64_be (be_bytes 8 v ++ rest) = Ok (v, rest).
Proof. apply (read_uint_app 8). Qed.
Lemma read_u256_be_app a rest :
  length a = 32%nat -> read_u256_be (a ++ rest) = Ok (a, rest).
Proof. apply take_n_app. Qed.

Lemma read_u8_ok input v rest :
  read_u8 input = Ok (v, rest) -> input = byte_of_Z v :: rest /\ is_u8 v.
Proof. apply (read_uint_ok 1). Qed.
Lemma read_u16_be_ok input v rest :
  read_u16_be input = Ok (v, rest) -> input = be_bytes 2 v ++ rest /\ is_u16 v.
Proof. apply (read_uint_ok 2). Qed.
Lemma read_u32_be_ok input v rest :
  read_u32_be input = Ok (v, rest) -> input = be_bytes 4 v ++ rest /\ is_u32 v.
Proof. apply (read_uint_ok 4). Qed.
Lemma read_u64_be_ok input v rest :
  read_u64_be input = Ok (v, rest) -> input = be_bytes 8 v ++ rest /\ is_u64 v.
Proof. apply (read_uint_ok 8). Qed.
Lemma read_u256_be_ok input a rest :
  read_u256_be input = Ok (a, rest) -> input = a ++ rest /\ length a = 32%nat.
Proof. apply take_n_ok. Qed.

(** ** VarUInt: the writer *)

Lemma write_varuint_loop_app fuel out v :
  write_varuint_loop fuel out v = out ++ write_varuint_loop fuel [] v.
Proof.
  revert out v. induction fuel as [|fuel IH]; intros out v; cbn [write_varuint_loop].
  { by rewrite app_nil_r. }
  destruct (Z.shiftr v 7 =? 0); [done|].
  rewrite IH, (IH ([] ++ _)). by rewrite app_assoc.
Qed.

Lemma write_varuint_app out v : write_varuint out v = out ++ encode_varuint v.
Proof. apply write_varuint_loop_app. Qed.

(** One round of the loop, in arithmetic. *)
Lemma write_varuint_loop_S fuel v :
  0 <= v ->
  write_varuint_loop (S fuel) [] v =
  if v / 128 =? 0 then [byte_of_Z (v mod 128)]
  else byte_of_Z (v mod 128 + 128) :: write_varuint_loop fuel [] (v / 128).
Proof.
  intros Hv. cbn [write_varuint_loop].
  change 0x7f with (2 ^ 7 - 1). rewrite land_ones_mod, Z.shiftr_div_pow2 by lia.
  change (2 ^ 7) with 128. destruct (v / 128 =? 0) eqn:E; cbn [negb]; [done|].
  rewrite write_varuint_loop_app. cbn [app]. f_equal. f_equal.
  change 128 with (1 * 2 ^ 7) at 2. rewrite lor_shift_add; [done|lia|].
  apply Z.mod_pos_bound. lia.
Qed.

(** More fuel does not change the result. *)
Lemma write_varuint_loop_fuel f f' v :
  0 <= v < 2 ^ (7 * Z.of_nat f) -> (1 <= f)%nat -> (f <= f')%nat ->
  write_varuint_loop f [] v = write_varuint_loop f' [] v.
Proof.
  revert f' v. induction f as [|f IH]; intros [|f'] v Hv H1 Hf; try lia.
  rewrite !write_varuint_loop_S by lia.
  destruct (v / 128 =? 0) eqn:E; [done|]. bool_to_prop. f_equal.
  assert (v / 128 < 2 ^ (7 * Z.of_nat f)).
  { apply Z.div_lt_upper_bound; [lia|].
    rewrite Nat2Z.inj_succ in Hv. replace (7 * Z.succ (Z.of_nat f)) with (7 + 7 * Z.of_nat f) in Hv by lia.
    rewrite Z.pow_add_r in Hv by lia. lia. }
  assert (0 < v / 128) by (pose proof (Z.div_pos v 128); lia).
  destruct f as [|f]; [simpl Z.of_nat in *; simpl Z.pow in *; lia|].
  apply IH; lia.
Qed.

(** The loop equation of [write_varuint] on [u64]: the fuel is never
    exhausted. *)
Lemma write_varuint_step v :
  is_u64 v ->
  encode_varuint v =
  if v <? 128 then [byte_of_Z v]
  else byte_of_Z (v mod 128 + 128) :: encode_varuint (v / 128).
Proof.
  intros Hv. unfold encode_varuint, write_varuint at 1.
  rewrite write_varuint_loop_S by lia.
  destruct (Z.ltb_spec v 128).
  - by rewrite Z.div_small, Z.mod_small by lia.
  - assert (1 <= v / 128) by (apply Z.div_le_lower_bound; lia).
    destruct (Z.eqb_spec (v / 128) 0); [lia|]. f_equal.
    apply write_varuint_loop_fuel; [|lia..].
    split; [lia|]. apply Z.div_lt_upper_bound; simpl; lia.
Qed.

Lemma write_varuint_loop_length f v : (length (write_varuint_loop f [] v) <= f)%nat.
Proof.
  revert v. induction f as [|f IH]; intros v; cbn [write_varuint_loop]; [done|].
  destruct (Z.shiftr v 7 =? 0); [simpl; lia|].
  rewrite write_varuint_loop_app. cbn [app length]. specialize (IH (Z.shiftr v 7)). lia.
Qed.

Lemma encode_varuint_length v : (length (encode_varuint v) <= 10)%nat.
Proof. apply write_varuint_loop_length. Qed.

(** ** VarUInt: the reader *)

Lemma payload_low b : 0 <= b < 128 -> Z.land b 0x7f = b /\ Z.land b 0x80 = 0.
Proof.
  intros Hb. change 0x7f with (2 ^ 7 - 1). rewrite land_ones_mod by lia.
  split; [by apply Z.mod_small|]. apply Z.bits_inj'. intros n Hn.
  rewrite Z.land_spec, Z.bits_0. change 0x80 with (2 ^ 7). rewrite Z.pow2_bits_eqb by lia.
  destruct (Z.eqb_spec 7 n); [|by rewrite andb_false_r].
  by rewrite (testbit_small b 7) by lia.
Qed.

Lemma payload_high b : 0 <= b < 128 -> Z.land (b + 128) 0x7f = b /\ Z.land (b + 128) 0x80 <> 0.
Proof.
  intros Hb. change 0x7f with (2 ^ 7 - 1). rewrite land_ones_mod by lia. split.
  - change (2 ^ 7) with 128. replace (b + 128) with (b + 1 * 128) by lia.
    rewrite Z.mod_add, Z.mod_small by lia. done.
  - intros H. apply (f_equal (fun z => Z.testbit z 7)) in H.
    rewrite Z.land_spec, Z.bits_0 in H. change (Z.testbit 0x80 7) with true in H.
    rewrite andb_true_r in H. replace (b + 128) with (b + 1 * 2 ^ 7) in H by lia.
    rewrite Z.testbit_eqb in H by lia.
    rewrite Z.div_add, Z.div_small in H by lia. done.
Qed.

Lemma checked_shl_small v s :
  0 <= s < 64 -> 0 <= v -> v * 2 ^ s < 2 ^ 64 -> checked_shl 64 v s = Some (v * 2 ^ s).
Proof.
  intros Hs Hv Hb. unfold checked_shl. destruct (Z.ltb_spec s 64); [|lia].
  rewrite Z.shiftl_mul_pow2, Z.mod_small by nia. done.
Qed.

(** Reading an encoding that starts at [consumed]: the accumulated low bits and
    the rest of the value are put together. *)
Lemma read_varuint_loop_enc fw v value consumed fuel original rest :
  0 <= v < 2 ^ (7 * Z.of_nat fw) -> (1 <= fw)%nat ->
  (consumed = 0%nat \/ 0 < v) ->
  0 <= value < 2 ^ (7 * Z.of_nat consumed) ->
  value + v * 2 ^ (7 * Z.of_nat consumed) < 2 ^ 64 ->
  drop consumed original = write_varuint_loop fw [] v ++ rest ->
  (11 <= fuel + consumed)%nat ->
  read_varuint_loop fuel original value (7 * Z.of_nat consumed) consumed =
  Ok (value + v * 2 ^ (7 * Z.of_nat consumed),
      (consumed + length (write_varuint_loop fw [] v))%nat).
Proof.
  revert v value consumed fuel. induction fw as [|fw IH];
    intros v value consumed fuel Hv Hfw Hc Hval Hsum Hd Hf; [lia|].
  set (s := 7 * Z.of_nat consumed) in *.
  assert (Hs : 0 <= s < 64).
  { split; [lia|]. destruct Hc as [->|Hc]; [lia|].
    apply Z.nle_gt. intros Hge.
    assert (2 ^ 64 <= 2 ^ s) by (apply Z.pow_le_mono_r; lia). nia. }
  destruct fuel as [|fuel]; [lia|]. cbn [read_varuint_loop].
  destruct (Nat.leb_spec 10 consumed); [lia|].
  rewrite write_varuint_loop_S in Hd |- * by lia.
  pose proof (Z.mod_pos_bound v 128 ltac:(lia)) as Hm.
  pose proof (Z.div_mod v 128 ltac:(lia)) as Hdm.
  assert (H2s : 0 < 2 ^ s) by lia.
  assert (Hle : v mod 128 <= v) by (apply Z.mod_le; lia).
  assert (Hpay : v mod 128 * 2 ^ s <= v * 2 ^ s) by (apply Z.mul_le_mono_nonneg_r; lia).
  assert (H127 : v mod 128 * 2 ^ s <= 127 * 2 ^ s) by (apply Z.mul_le_mono_nonneg_r; lia).
  assert (Hsplit : v * 2 ^ s = v mod 128 * 2 ^ s + v / 128 * (128 * 2 ^ s)).
  { rewrite Hdm at 1. ring. }
  assert (H63 : s = 63 -> v mod 128 <= 1).
  { intros He. rewrite He in *. assert (v < 2) by lia. rewrite Z.mod_small; lia. }
  destruct (Z.eqb_spec (v / 128) 0) as [Hz|Hz].
  - assert (original !! consumed = Some (byte_of_Z (v mod 128))) as Hl.
    { rewrite <- (Nat.add_0_r consumed), <- lookup_drop, Hd. done. }
    rewrite Hl. cbn [ok_or]. rewrite Z_of_byte_small by lia.
    destruct (payload_low (v mod 128) Hm) as [-> ->].
    destruct (Z.eqb_spec s 63), (Z.ltb_spec 1 (v mod 128)), (Z.ltb_spec 63 s); cbn [andb]; try lia.
    all: rewrite checked_shl_small by lia; cbn [ok_or Z.eqb length];
      rewrite lor_shift_add by lia; do 2 f_equal; [|lia].
    all: rewrite Hz in Hdm; do 2 f_equal; lia.
  - assert (original !! consumed = Some (byte_of_Z (v mod 128 + 128))) as Hl.
    { rewrite <- (Nat.add_0_r consumed), <- lookup_drop, Hd. done. }
    rewrite Hl. cbn [ok_or]. rewrite Z_of_byte_small by lia.
    destruct (payload_high (v mod 128) Hm) as [-> Hne].
    apply Z.eqb_neq in Hne. rewrite Hne.
    assert (Hvd : 0 < v / 128) by (pose proof (Z.div_pos v 128); lia).
    assert (Hpow : 2 ^ (7 * Z.of_nat (S consumed)) = 128 * 2 ^ s).
    { replace (7 * Z.of_nat (S consumed)) with (7 + s) by lia. rewrite Z.pow_add_r by lia. done. }
    assert (Hlt : 0 <= v / 128 < 2 ^ (7 * Z.of_nat fw)).
    { split; [lia|]. apply Z.div_lt_upper_bound; [lia|].
      replace (7 * Z.of_nat (S fw)) with (7 + 7 * Z.of_nat fw) in Hv by lia.
      rewrite Z.pow_add_r in Hv by lia. lia. }
    assert (1 <= fw)%nat.
    { destruct fw; [|lia]. change (2 ^ (7 * Z.of_nat 0)) with 1 in Hlt. lia. }
    assert (Hdrop : drop (S consumed) original = write_varuint_loop fw [] (v / 128) ++ rest).
    { replace (S consumed) with (consumed + 1)%nat by lia. by rewrite <- drop_drop, Hd. }
    specialize (IH (v / 128) (value + v mod 128 * 2 ^ s) (S consumed) fuel).
    replace (s + 7) with (7 * Z.of_nat (S consumed)) by lia.
    rewrite Hpow in IH. replace (7 * Z.of_nat (S consumed)) with (s + 7) in IH |- * by lia.
    destruct (Z.eqb_spec s 63), (Z.ltb_spec 1 (v mod 128)), (Z.ltb_spec 63 s); cbn [andb]; try lia.
    all: rewrite checked_shl_small by lia; cbn [ok_or];
      rewrite lor_shift_add by lia.
    all: rewrite IH by (done || lia); cbn [length]; do 2 f_equal; lia.
Qed.

Lemma checked_shl_range v s z : checked_shl 64 v s = Some z -> is_u64 z.
Proof. unfold checked_shl. case_match; [|done]. intros [= <-]. apply Z.mod_pos_bound. lia. Qed.

Lemma read_varuint_loop_range fuel original value shift consumed v n :
  is_u64 value -> read_varuint_loop fuel original value shift consumed = Ok (v, n) -> is_u64 v.
Proof.
  revert value shift consumed. induction fuel as [|fuel IH]; intros value shift consumed Hv;
    cbn [read_varuint_loop]; [done|]. intros H. inv_ok.
  match goal with E : checked_shl 64 _ _ = Some _ |- _ => apply checked_shl_range in E end.
  destruct (Z.land _ 128 =? 0); [inv_ok; by apply lor_range|].
  eapply IH; [|done]. by apply lor_range.
Qed.

Lemma read_varuint_app v rest : is_u64 v -> read_varuint (encode_varuint v ++ rest) = Ok (v, rest).
Proof.
  intros Hv. unfold read_varuint.
  pose proof (read_varuint_loop_enc 10 v 0 0 11 (encode_varuint v ++ rest) rest) as H.
  change (7 * Z.of_nat 0) with 0 in H. change (2 ^ 0) with 1 in H.
  rewrite Z.mul_1_r, Z.add_0_l, Nat.add_0_l in H.
  rewrite H; [|simpl; lia|lia|by left|lia|lia|done|lia].
  change (write_varuint_loop 10 [] v) with (encode_varuint v).
  by rewrite take_app_length, bytes_eqb_refl, drop_app_length.
Qed.

Lemma read_varuint_ok input v rest :
  read_varuint input = Ok (v, rest) -> input = encode_varuint v ++ rest /\ is_u64 v.
Proof.
  unfold read_varuint. intros H. inv_ok. bool_to_prop.
  match goal with E : encode_varuint _ = _ |- _ => rewrite E, take_drop end.
  split; [done|]. eapply read_varuint_loop_range; [|done]. lia.
Qed.

Create Rewrite HintDb codec.
#[export] Hint Rewrite read_u8_app read_u16_be_app read_u32_be_app read_u64_be_app
  read_u256_be_app read_varuint_app using (done || len) : codec.

(** [read_inv] replaces a successful read by the bytes it consumed. *)
Ltac read_inv :=
  repeat match goal with
  | H : read_u8 _ = Ok (_, _) |- _ => apply read_u8_ok in H as [? ?]
  | H : read_u16_be _ = Ok (_, _) |- _ => apply read_u16_be_ok in H as [? ?]
  | H : read_u32_be _ = Ok (_, _) |- _ => apply read_u32_be_ok in H as [? ?]
  | H : read_u64_be _ = Ok (_, _) |- _ => apply read_u64_be_ok in H as [? ?]
  | H : read_u256_be _ = Ok (_, _) |- _ => apply read_u256_be_ok in H as [? ?]
  | H : read_varuint _ = Ok (_, _) |- _ => apply read_varuint_ok in H as [? ?]
  end.

(** [run_reads] evaluates a chain of reads on concatenated encodings. *)
Ltac run_reads := repeat (progress (autorewrite with codec; cbn [map_err ok_or])).

(** [norm_writes] turns a chain of writers into one concatenation. *)
Ltac norm_writes :=
  unfold write_u8, write_u16_be, write_u32_be, write_u64_be, write_u256_be in *;
  rewrite ?write_varuint_app in *; rewrite ?app_nil_l, <- ?app_assoc in *; cbn [app] in *;
  rewrite <- ?app_assoc in *.

(** ** Decoders and their encoders

    [codec dec enc wf]: the decoder reads exactly the encodings of well-formed
    values from the front of the input.  It says at once that every well-formed
    value round-trips, that only one byte string decodes to a given value, and
    that what is decoded is well-formed. *)

Definition codec {E A} (dec : bytes -> result E (A * bytes)) (enc : A -> bytes) (wf : A -> Prop)
    : Prop :=
  forall input a rest, dec input = Ok (a, rest) <-> wf a /\ input = enc a ++ rest.

(** [for _ in 0..n { items.push(dec(input)?) }] *)
Fixpoint read_many {E A} (dec : bytes -> result E (A * bytes)) (n : nat) (input : bytes)
    : result E (list A * bytes) :=
  match n with
  | O => Ok ([], input)
  | S n =>
      let? (a, input) := dec input in
      let? (items, input) := read_many dec n input in
      Ok (a :: items, input)
  end.

(** [for item in items { item.encode(out) }] *)
Definition encode_many {A} (enc : A -> bytes) (items : list A) : bytes := concat (map enc items).

Lemma fold_left_writer {A} (f : bytes -> A -> bytes) (enc : A -> bytes) items out :
  (forall out a, f out a = out ++ enc a) -> fold_left f items out = out ++ encode_many enc items.
Proof.
  intros Hf. revert out. induction items as [|a items IH]; intros out; cbn [fold_left].
  - unfold encode_many. by rewrite app_nil_r.
  - rewrite IH, Hf. unfold encode_many. cbn [map concat]. by rewrite app_assoc.
Qed.

Lemma read_many_codec {E A} (dec : bytes -> result E (A * bytes)) enc wf n :
  codec dec enc wf -> codec (read_many dec n) (encode_many enc) (fun l => length l = n /\ Forall wf l).
Proof.
  intros Hc. induction n as [|n IH]; intros input l rest; cbn [read_many].
  - split; [intros [= <- <-]; by repeat constructor|].
    intros [[Hl _] ->]. by apply nil_length_inv in Hl as ->.
  - split.
    + intros H. inv_ok. apply Hc in Heqr as [? ->].
      match goal with E : read_many _ _ _ = _ |- _ => apply IH in E as [[? ?] ->] end.
      split; [split; [simpl; congruence|by constructor]|].
      unfold encode_many. cbn [map concat]. by rewrite app_assoc.
    + intros [[Hl Hw] ->]. destruct l as [|a l]; [done|]. apply Forall_cons in Hw as [Ha Hw].
      unfold encode_many. cbn [map concat]. rewrite <- app_assoc.
      rewrite (proj2 (Hc _ a (concat (map enc l) ++ rest))) by done.
      rewrite (proj2 (IH _ l rest)); [done|]. split; [split; [simpl in Hl; congruence|done]|done].
Qed.

Lemma encode_varuint_app_inj v v' r r' :
  is_u64 v -> is_u64 v' -> encode_varuint v ++ r = encode_varuint v' ++ r' -> v = v' /\ r = r'.
Proof.
  intros Hv Hv' Heq. pose proof (read_varuint_app v r Hv) as H1.
  rewrite Heq, read_varuint_app in H1 by done. by simplify_eq.
Qed.

Lemma byte_of_Z_inj x y : is_u8 x -> is_u8 y -> byte_of_Z x = byte_of_Z y -> x = y.
Proof. intros Hx Hy Heq%(f_equal Z_of_byte). by rewrite !Z_of_byte_small in Heq. Qed.

Lemma byte_cons_inj x y (l l' : bytes) :
  is_u8 x -> is_u8 y -> byte_of_Z x :: l = byte_of_Z y :: l' -> x = y /\ l = l'.
Proof. intros Hx Hy [= Hb Hl]. split; [by apply byte_of_Z_inj|done]. Qed.

(** [enc_inj] compares two concatenations of encoded fields field by field;
    the ranges of the encoded integers must be in the context. *)
Ltac enc_inj :=
  repeat match goal with
  | H : byte_of_Z _ :: _ = byte_of_Z _ :: _ |- _ =>
      apply byte_cons_inj in H as [? H]; [|lia..]
  | H : encode_varuint _ ++ _ = encode_varuint _ ++ _ |- _ =>
      apply encode_varuint_app_inj in H as [? H]; [|lia..]
  | H : _ ++ _ = _ ++ _ |- _ => apply app_inj_len in H as [? H]; [|by len]
  | H : be_bytes _ _ = be_bytes _ _ |- _ => apply be_bytes_inj in H; [|lia..]
  end.

(** ** Properties *)

(** [read_varuint] accepts exactly the canonical encodings.  It returns [v]
    and the rest of the slice if and only if [v] is a [u64] and the input
    starts with [encode_varuint v]: every value round-trips, every non-minimal,
    over-long or overflowing encoding is refused, and no byte string has two
    readings. *)
Theorem read_varuint_canonical input v rest :
  read_varuint input = Ok (v, rest) <-> is_u64 v /\ input = encode_varuint v ++ rest.
Proof.
  split.
  - by intros [-> ?]%read_varuint_ok.
  - intros [? ->]. by apply read_varuint_app.
Qed.
