(* ===== verification/Consensus.v ===== *)
(** Crate [mutiny-consensus]: the equal-work allocation, the derivation of the
    proof-of-work target and of a mining ticket. *)

From S2P Require Import Prelude Crypto.

Definition W_MAX : Z := 2048.
Definition L_SAT : Z := 65536.
Definition DIFFICULTY_Q32_ONE : Z := 2 ^ 32.

Inductive ConsensusMathError := ZeroAuthorizedCapacity | DoesNotFitU256.
Inductive MiningError := BadTicketIndex | Crypto (e : CryptoError).

(** The binary search of [work_units]: [while lo < hi].  The interval halves, so
    twelve rounds decide an interval inside [1, 2048]
    ([work_units_loop_spec]). *)
Fixpoint work_units_loop (fuel : nat) (n16 rhs lo hi : Z) : Z :=
  match fuel with
  | O => lo
  | S fuel =>
      if lo <? hi then
        let mid := lo + (hi - lo) / 2 in
        let lhs := mid ^ 25 * n16 in
        if rhs <=? lhs then work_units_loop fuel n16 rhs lo mid
        else work_units_loop fuel n16 rhs (mid + 1) hi
      else lo
  end.

Definition work_units (eligible_licenses : Z) : Z :=
  if eligible_licenses =? 0 then 0
  else if L_SAT <=? eligible_licenses then W_MAX
  else
    let n16 := L_SAT ^ 16 in
    let rhs := W_MAX ^ 25 * eligible_licenses ^ 16 in
    work_units_loop 12 n16 rhs 1 W_MAX.

Definition authorized_capacity (eligible_licenses : Z) : Z :=
  eligible_licenses * work_units eligible_licenses.

Definition biguint_to_u256_be (value : Z) : result ConsensusMathError bytes32 :=
  ok_or DoesNotFitU256 (to_be32 value).

Definition derive_target (authorized_capacity correction_q32 : Z)
    : result ConsensusMathError bytes32 :=
  if authorized_capacity =? 0 then Err ZeroAuthorizedCapacity else
  let two256 := Z.shiftl 1 256 in
  let max_u256 := two256 - 1 in
  let base := two256 / authorized_capacity in
  let corrected := Z.shiftr (base * correction_q32) 32 in
  let final_target := if max_u256 <? corrected then max_u256 else corrected in
  biguint_to_u256_be final_target.

Record TicketDerivation := {
  td_anchor_entropy : bytes32;
  td_epoch_seed : bytes32;
  td_ticket_seed : bytes32;
  td_ticket_salt : bytes32;
  td_argon2_proof : bytes32;
  td_winning : bool;
}.

Definition derive_ticket `{!Sha2, !Argon2} (anchor_epoch : Z) (anchor_license_id : bytes32)
    (anchor_ticket_index : Z) (anchor_argon2_proof : bytes32) (epoch : Z) (license_id : bytes32)
    (ticket_index work_units_for_epoch : Z) (target : bytes32) : result MiningError TicketDerivation :=
  if work_units_for_epoch <=? ticket_index then Err BadTicketIndex else
  let ae := anchor_entropy anchor_epoch anchor_license_id anchor_ticket_index anchor_argon2_proof in
  let es := epoch_seed ae epoch in
  let seed := ticket_seed es license_id ticket_index in
  let salt := ticket_salt es license_id ticket_index in
  let? proof := map_err Crypto (mutiny_argon2id seed salt) in
  let winning := proof_below_target proof target in
  Ok {| td_anchor_entropy := ae; td_epoch_seed := es; td_ticket_seed := seed;
        td_ticket_salt := salt; td_argon2_proof := proof; td_winning := winning |}.

(** ** The allocation *)

Section work_units.
(** [W] work units satisfy the consensus inequality for [L] licenses. *)
Definition enough_work (L W : Z) : Prop := W_MAX ^ 25 * L ^ 16 <= W ^ 25 * L_SAT ^ 16.

Lemma enough_work_mono L W W' : 0 <= W <= W' -> enough_work L W -> enough_work L W'.
Proof.
  unfold enough_work. intros HW H. etrans; [exact H|].
  apply Z.mul_le_mono_nonneg_r; [unfold L_SAT; lia|]. by apply Z.pow_le_mono_l.
Qed.

Lemma work_units_loop_S fuel n16 rhs lo hi :
  work_units_loop (S fuel) n16 rhs lo hi =
  if lo <? hi then
    if rhs <=? (lo + (hi - lo) / 2) ^ 25 * n16 then work_units_loop fuel n16 rhs lo (lo + (hi - lo) / 2)
    else work_units_loop fuel n16 rhs (lo + (hi - lo) / 2 + 1) hi
  else lo.
Proof. done. Qed.

Lemma work_units_loop_spec fuel L lo hi :
  1 <= lo <= hi -> hi - lo < 2 ^ Z.of_nat fuel ->
  enough_work L hi -> (forall w, 1 <= w < lo -> ~ enough_work L w) ->
  let W := work_units_loop (S fuel) (L_SAT ^ 16) (W_MAX ^ 25 * L ^ 16) lo hi in
  lo <= W <= hi /\ enough_work L W /\ (forall w, 1 <= w < W -> ~ enough_work L w).
Proof.
  revert lo hi. induction fuel as [|fuel IH]; intros lo hi Hlh Hd Hhi Hlo W.
  all: subst W; rewrite work_units_loop_S; destruct (Z.ltb_spec lo hi) as [Hlt|Hge].
  - change (2 ^ Z.of_nat 0) with 1 in Hd. lia.
  - assert (lo = hi) as -> by lia. split_and!; [lia..|done|done].
  - rewrite Nat2Z.inj_succ, Z.pow_succ_r in Hd by lia.
    assert (lo <= lo + (hi - lo) / 2 < hi /\ 2 * ((hi - lo) / 2) <= hi - lo <= 2 * ((hi - lo) / 2) + 1)
      as [Hmid Hhalf].
    { pose proof (Z.div_mod (hi - lo) 2 ltac:(lia)). pose proof (Z.mod_pos_bound (hi - lo) 2 ltac:(lia)). lia. }
    remember (lo + (hi - lo) / 2) as mid eqn:Emid.
    destruct (Z.leb_spec (W_MAX ^ 25 * L ^ 16) (mid ^ 25 * L_SAT ^ 16)) as [Hm|Hm].
    + fold (enough_work L mid) in Hm. destruct (IH lo mid) as (? & ? & ?); [lia|lia|done|done|]. split_and!; [lia..|done|done].
    + apply Z.lt_nge in Hm. fold (enough_work L mid) in Hm. destruct (IH (mid + 1) hi) as (? & ? & ?); [lia|lia|done| |split_and!; [lia..|done|done]].
      intros w Hw He. apply (enough_work_mono L w mid) in He; [done|lia].
  - assert (lo = hi) as -> by lia. split_and!; [lia..|done|done].
Qed.

Lemma enough_work_max L : 0 <= L <= L_SAT -> enough_work L W_MAX.
Proof.
  intros HL. unfold enough_work. apply Z.mul_le_mono_nonneg_l; [unfold W_MAX; lia|].
  by apply Z.pow_le_mono_l.
Qed.

Lemma work_units_spec L :
  0 < L < L_SAT ->
  1 <= work_units L <= W_MAX /\ enough_work L (work_units L) /\
  (forall w, 1 <= w < work_units L -> ~ enough_work L w).
Proof.
  intros HL. unfold work_units.
  destruct (Z.eqb_spec L 0); [lia|]. destruct (Z.leb_spec L_SAT L); [lia|].
  apply work_units_loop_spec; [done|done| |lia].
  apply enough_work_max. lia.
Qed.
End work_units.

Lemma work_units_sat L : L_SAT <= L -> work_units L = W_MAX.
Proof.
  unfold work_units, L_SAT. intros. destruct (Z.eqb_spec L 0); [lia|].
  destruct (Z.leb_spec 65536 L); [done|lia].
Qed.

Lemma work_units_range L : 0 <= L -> 0 <= work_units L <= W_MAX.
Proof.
  intros HL. destruct (Z.eq_dec L 0) as [->|]; [done|].
  destruct (Z.lt_ge_cases L L_SAT).
  - pose proof (work_units_spec L). lia.
  - by rewrite work_units_sat.
Qed.

(** ** The target *)

Lemma derive_target_ok A C :
  0 < A -> 0 <= C ->
  derive_target A C = Ok (be_bytes 32 (Z.min (2 ^ 256 - 1) (2 ^ 256 / A * C / 2 ^ 32))).
Proof.
  intros HA HC. unfold derive_target, biguint_to_u256_be.
  destruct (Z.eqb_spec A 0); [lia|].
  rewrite Z.shiftl_1_l, Z.shiftr_div_pow2 by lia.
  assert (0 <= 2 ^ 256 / A * C / 2 ^ 32).
  { apply Z.div_pos; [|lia]. apply Z.mul_nonneg_nonneg; [|done]. apply Z.div_pos; lia. }
  remember (2 ^ 256 / A * C / 2 ^ 32) as t eqn:Et. clear Et.
  destruct (Z.ltb_spec (2 ^ 256 - 1) t); rewrite to_be32_fits by lia; cbn [ok_or]; do 2 f_equal; lia.
Qed.

(** ** Properties *)

(** [work_units] computes the documented allocation.  For [0 < L < 65536]
    it is the smallest positive [W] with [W^25 * N^16 >= W_MAX^25 * L^16], it
    lies between 1 and 2048, it is 0 for no license and [W_MAX] from saturation
    on.  The binary search returns within its twelve rounds. *)
Theorem work_units_correct L :
  0 <= L ->
  (L = 0 -> work_units L = 0) /\
  (L_SAT <= L -> work_units L = W_MAX) /\
  (0 < L < L_SAT ->
     1 <= work_units L <= W_MAX /\
     W_MAX ^ 25 * L ^ 16 <= work_units L ^ 25 * L_SAT ^ 16 /\
     forall w, 1 <= w < work_units L -> w ^ 25 * L_SAT ^ 16 < W_MAX ^ 25 * L ^ 16).
Proof.
  intros HL. split_and!.
  - by intros ->.
  - apply work_units_sat.
  - intros Hr. destruct (work_units_spec L Hr) as (? & ? & Hmin). split_and!; [lia..|done|].
    intros w Hw. apply Z.nle_gt. by apply (Hmin w Hw).
Qed.

Lemma work_units_correct_witness :
  work_units 12 = 9 /\ 9 ^ 25 * L_SAT ^ 16 >= W_MAX ^ 25 * 12 ^ 16 /\
  8 ^ 25 * L_SAT ^ 16 < W_MAX ^ 25 * 12 ^ 16.
Proof.
  split; [vm_compute; reflexivity|].
  pose proof (work_units_correct 12 ltac:(lia)) as (_ & _ & H).
  destruct (H ltac:(split; vm_compute; reflexivity)) as (Hr & Hge & Hmin).
  change (work_units 12) with 9 in *. split; [apply Z.le_ge; exact Hge|apply Hmin; lia].
Defined.

(** The allocation is monotone in the number of eligible licenses, so
    admitting a license never lowers the per-license work or the authorized
    capacity, and the capacity of any [u64] license count is below [2^75]: the
    [u128] product of [authorized_capacity] cannot overflow. *)
Theorem work_units_monotone L L' :
  0 <= L <= L' -> L' < 2 ^ 64 ->
  work_units L <= work_units L' /\
  authorized_capacity L <= authorized_capacity L' < 2 ^ 75.
Proof.
  intros HL Hu. assert (work_units L <= work_units L') as Hm.
  { destruct (Z.eq_dec L 0) as [->|]; [apply work_units_range; lia|].
    destruct (Z.lt_ge_cases L' L_SAT).
    - destruct (work_units_spec L) as (Hr & _ & Hmin), (work_units_spec L') as (Hr' & He & _); [lia..|].
      apply Z.nlt_ge. intros Hlt. apply (Hmin (work_units L')); [lia|].
      unfold enough_work in *. etrans; [|exact He].
      apply Z.mul_le_mono_nonneg_l; [unfold W_MAX; lia|]. apply Z.pow_le_mono_l. lia.
    - rewrite (work_units_sat L') by done. apply work_units_range. lia. }
  pose proof (work_units_range L). pose proof (work_units_range L'). unfold W_MAX in *.
  unfold authorized_capacity. split_and!; [done|nia|nia].
Qed.

Lemma work_units_monotone_witness :
  work_units 12 <= work_units 64 /\ authorized_capacity 12 = 108 /\ authorized_capacity 64 = 1600 /\
  authorized_capacity 12 <= authorized_capacity 64.
Proof.
  pose proof (work_units_monotone 12 64 ltac:(lia) ltac:(lia)) as (H1 & H2 & _).
  split_and!; [exact H1|vm_compute; reflexivity|vm_compute; reflexivity|exact H2].
Defined.

(** [derive_target] never fails for a positive capacity; the 32 bytes it
    returns are the big-endian [min(2^256 - 1, floor(floor(2^256/A) * C / 2^32))],
    and a larger capacity never gives an easier target. *)
Theorem derive_target_correct A A' C :
  0 < A <= A' -> 0 <= C ->
  exists t t', derive_target A C = Ok t /\ derive_target A' C = Ok t' /\ length t = 32%nat /\
    be_val t = Z.min (2 ^ 256 - 1) (2 ^ 256 / A * C / 2 ^ 32) /\ be_val t' <= be_val t.
Proof.
  intros HA HC. rewrite !derive_target_ok by lia. eexists _, _.
  split_and!; [done|done|apply length_be_bytes|..].
  all: assert (forall a, 0 < a -> 0 <= 2 ^ 256 / a * C / 2 ^ 32) as Hpos
    by (intros a Ha; apply Z.div_pos; [|lia]; apply Z.mul_nonneg_nonneg; [apply Z.div_pos; lia|done]).
  - apply be_val_be_bytes. pose proof (Hpos A). change (256 ^ Z.of_nat 32) with (2 ^ 256). lia.
  - pose proof (Hpos A). pose proof (Hpos A').
    rewrite !be_val_be_bytes by (change (256 ^ Z.of_nat 32) with (2 ^ 256); lia).
    apply Z.min_le_compat_l, Z.div_le_mono; [lia|]. apply Z.mul_le_mono_nonneg_r; [done|].
    apply Z.div_le_compat_l; lia.
Qed.

Lemma derive_target_correct_witness :
  derive_target 108 DIFFICULTY_Q32_ONE
    = Ok (hex "025ed097b425ed097b425ed097b425ed097b425ed097b425ed097b425ed097b4") /\
  exists t t', derive_target 108 DIFFICULTY_Q32_ONE = Ok t /\
    derive_target 1600 DIFFICULTY_Q32_ONE = Ok t' /\ be_val t' <= be_val t.
Proof.
  split; [vm_compute; reflexivity|].
  destruct (derive_target_correct 108 1600 DIFFICULTY_Q32_ONE) as (t & t' & H1 & H2 & _ & _ & H3);
    [lia|unfold DIFFICULTY_Q32_ONE; lia|]. eauto.
Defined.
