(* ===== verification/Smt.v ===== *)
(** Crate [mutiny-state], part 1: the 256-level sparse Merkle tree that
    authenticates every consensus map, and its compressed proofs.

    [sparse_root] is the level-by-level routine of the source.  The reference
    definition is [smt_ref]: the full binary tree over [2^256] leaves.  The
    theorems say that the routine computes the reference root and that an
    accepted proof is about the tree with that root, unless two of the
    messages that the tree and the proof hash collide. *)

From S2P Require Import Prelude Crypto Sha256.

Definition SMT_DEPTH : nat := 256.

Lemma SMT_DEPTH_256 : Z.of_nat SMT_DEPTH = 256.
Proof. done. Qed.
#[global] Opaque SMT_DEPTH.

Inductive StateError :=
| ProofSiblingCount
| RedundantDefaultSibling
| InvalidLicenseRecord
| InvalidMiningPresenceState
| StateOverflow.

(** Comparison of map entries by key. *)
Definition key_le {A} (a b : Z * A) : Prop := fst a <= fst b.
#[export] Instance key_le_dec {A} : RelDecision (@key_le A) := fun a b => Z.le_dec (fst a) (fst b).

Section smt.
Context {SHA : Sha2}.

Definition smt_node (left right : bytes32) : bytes32 :=
  sha256_domain domains.SMT_NODE [left; right].

(** [out.push(leaf); for i in 0..SMT_DEPTH { out.push(node(out[i], out[i])) }] *)
Definition smt_empty_hashes : list bytes32 :=
  fold_left (fun out i => out ++ [smt_node (nth i out []) (nth i out [])])
    (seq 0 SMT_DEPTH) [sha256_domain domains.SMT_EMPTY_LEAF []].

Definition smt_empty_root : bytes32 := nth SMT_DEPTH smt_empty_hashes [].

(** [(key[depth / 8] >> (7 - (depth % 8))) & 1] *)
Definition key_bit_msb (key : bytes32) (depth : nat) : Z :=
  Z.land (Z.shiftr (Z_of_byte (nth (depth / 8) key Byte.x00)) (7 - Z.of_nat (depth mod 8))) 1.

(** One round of the upward loop at root-depth [depth]. *)
Definition smt_step (key cur sibling : bytes32) (depth : nat) : bytes32 :=
  if key_bit_msb key depth =? 0 then smt_node cur sibling else smt_node sibling cur.

Definition single_leaf_root (key leaf : bytes32) : bytes32 :=
  let empties := smt_empty_hashes in
  fold_left (fun cur depth => smt_step key cur (nth (SMT_DEPTH - 1 - depth) empties []) depth)
    (rev (seq 0 SMT_DEPTH)) leaf.

(** [BTreeMap::iter]: ascending key order. *)
Definition btree_iter {A} (m : gmap Z A) : list (Z * A) := merge_sort key_le (map_to_list m).

(** The body of the inner loop of [sparse_root] on one entry. *)
Definition sparse_entry (level : gmap Z bytes32) (default : bytes32)
    (st : gmap Z bytes32 * gset Z) (entry : Z * bytes32) : gmap Z bytes32 * gset Z :=
  let (next, consumed) := st in
  let (index, value) := entry in
  if decide (index ∈ consumed) then (next, consumed) else
  let sibling_index := Z.lxor index 1 in
  let sibling := match level !! sibling_index with Some s => s | None => default end in
  let is_right := Z.land index 1 =? 1 in
  let parent := if is_right then smt_node sibling value else smt_node value sibling in
  (<[Z.shiftr index 1 := parent]> next, {[sibling_index]} ∪ ({[index]} ∪ consumed)).

Definition sparse_level (empties : list bytes32) (level : gmap Z bytes32) (height : nat)
    : gmap Z bytes32 :=
  fst (fold_left (sparse_entry level (nth height empties [])) (btree_iter level) (∅, ∅)).

Definition sparse_root (entries : gmap bytes32 bytes32) : bytes32 :=
  if decide (entries = ∅) then smt_empty_root else
  let empties := smt_empty_hashes in
  let level0 : gmap Z bytes32 :=
    list_to_map ((fun kv => (be_val (fst kv), snd kv)) <$> map_to_list entries) in
  let level := fold_left (sparse_level empties) (seq 0 SMT_DEPTH) level0 in
  match level !! 0 with Some h => h | None => nth SMT_DEPTH empties [] end.

(** ** Compressed proofs *)

Record CompressedSmtProofV1 := {
  bitmap : bytes32;
  nondefault_siblings : list bytes32;
}.

Definition bitmap_set (bitmap : bytes32) (depth : nat) : bool :=
  Z.land (Z.shiftr (Z_of_byte (nth (depth / 8) bitmap Byte.x00)) (7 - Z.of_nat (depth mod 8))) 1 =? 1.

(** [proof.bitmap.iter().map(|b| b.count_ones()).sum()] *)
Definition bitmap_count (bitmap : bytes32) : Z :=
  fold_right (fun b n => count_ones 8 (Z_of_byte b) + n) 0 bitmap.

(** The decompression loop: [by_depth] collects the explicit siblings, [cursor]
    walks through them. *)
Fixpoint decompress (empties : list bytes32) (proof : CompressedSmtProofV1) (depths : list nat)
    (by_depth : gmap nat bytes32) (cursor : nat) : result StateError (gmap nat bytes32) :=
  match depths with
  | [] => Ok by_depth
  | depth :: depths =>
      if bitmap_set (bitmap proof) depth then
        let sibling := nth cursor (nondefault_siblings proof) [] in
        let default := nth (SMT_DEPTH - 1 - depth) empties [] in
        if bytes_eqb sibling default then Err RedundantDefaultSibling
        else decompress empties proof depths (<[depth := sibling]> by_depth) (S cursor)
      else decompress empties proof depths by_depth cursor
  end.

Definition verify_compressed_proof (key leaf : bytes32) (proof : CompressedSmtProofV1)
    (expected_root : bytes32) : result StateError bool :=
  let expected_count := bitmap_count (bitmap proof) in
  if negb (expected_count =? Z.of_nat (length (nondefault_siblings proof)))
  then Err ProofSiblingCount else
  let empties := smt_empty_hashes in
  let? by_depth := decompress empties proof (seq 0 SMT_DEPTH) ∅ 0 in
  let cur :=
    fold_left (fun cur depth =>
        let sibling :=
          match by_depth !! depth with
          | Some s => s
          | None => nth (SMT_DEPTH - 1 - depth) empties []
          end in
        smt_step key cur sibling depth)
      (rev (seq 0 SMT_DEPTH)) leaf in
  Ok (bytes_eqb cur expected_root).

(** ** The reference tree *)

(** The default hash of an empty subtree of height [h]. *)
Fixpoint empty_at (h : nat) : bytes32 :=
  match h with
  | O => sha256_domain domains.SMT_EMPTY_LEAF []
  | S h => let e := empty_at h in smt_node e e
  end.

(** The hash of node [i] at height [h] of the full tree over [leaves]. *)
Fixpoint smt_ref (leaves : Z -> option bytes32) (h : nat) (i : Z) : bytes32 :=
  match h with
  | O => default (empty_at 0) (leaves i)
  | S h => smt_node (smt_ref leaves h (2 * i)) (smt_ref leaves h (2 * i + 1))
  end.

(** The leaves of a map keyed by 32-byte strings. *)
Definition leaves_of (entries : gmap bytes32 bytes32) (i : Z) : option bytes32 :=
  entries !! be_bytes 32 i.

Lemma smt_empty_hashes_prefix n i :
  (i <= n)%nat ->
  nth i (fold_left (fun out i => out ++ [smt_node (nth i out []) (nth i out [])])
           (seq 0 n) [empty_at 0]) [] = empty_at i.
Proof.
  enough (forall n, let l := fold_left (fun out i => out ++ [smt_node (nth i out []) (nth i out [])])
           (seq 0 n) [empty_at 0] in
           length l = S n /\ forall i, (i <= n)%nat -> nth i l [] = empty_at i) as Hall
    by (intros; by apply Hall).
  clear. intros n. induction n as [|n [IHl IH]].
  - split; [done|]. intros i Hi. by replace i with 0%nat by lia.
  - rewrite seq_S, fold_left_app, Nat.add_0_l. cbn [fold_left].
    set (l := fold_left _ _ _) in *. split; [rewrite length_app; simpl; lia|].
    intros i Hi. destruct (decide (i = S n)) as [->|].
    + rewrite app_nth2, IHl, Nat.sub_diag by lia. cbn [nth]. by rewrite IH.
    + rewrite app_nth1 by lia. apply IH. lia.
Qed.

Lemma smt_empty_hashes_nth i : (i <= SMT_DEPTH)%nat -> nth i smt_empty_hashes [] = empty_at i.
Proof. apply smt_empty_hashes_prefix. Qed.

Lemma smt_node_length a b : length (smt_node a b) = 32%nat.
Proof. apply sha256_domain_length. Qed.

Lemma empty_at_length h : length (empty_at h) = 32%nat.
Proof. destruct h; apply sha256_domain_length. Qed.

(** ** One level of [sparse_root] *)

(** Sibling and parent indices. *)
Lemma lxor_1 i : Z.lxor i 1 = if Z.even i then i + 1 else i - 1.
Proof.
  pose proof (Z.div_mod i 2 ltac:(lia)) as Hd. rewrite Zmod_even in Hd.
  destruct (Z.even i) eqn:E.
  - replace i with (2 * (i / 2)) by lia. apply Z.bits_inj'. intros n Hn.
    rewrite Z.lxor_spec. destruct (Z.eq_dec n 0) as [->|].
    + rewrite Z.testbit_even_0, Z.testbit_odd_0. done.
    + replace n with (Z.succ (n - 1)) by lia.
      rewrite Z.testbit_even_succ, Z.testbit_odd_succ by lia.
      rewrite (testbit_small 1 1) by lia. apply xorb_false_r.
  - replace i with (2 * (i / 2) + 1) by lia.
    replace (2 * (i / 2) + 1 - 1) with (2 * (i / 2)) by lia.
    apply Z.bits_inj'. intros n Hn.
    rewrite Z.lxor_spec. destruct (Z.eq_dec n 0) as [->|].
    + rewrite Z.testbit_even_0, Z.testbit_odd_0. done.
    + replace n with (Z.succ (n - 1)) by lia.
      rewrite Z.testbit_even_succ, Z.testbit_odd_succ by lia.
      rewrite (testbit_small 1 1) by lia. apply xorb_false_r.
Qed.

Lemma land_1 i : Z.land i 1 = i mod 2.
Proof. change 1 with (2 ^ 1 - 1). by rewrite land_ones_mod. Qed.

Lemma shiftr_1 i : Z.shiftr i 1 = i / 2.
Proof. by rewrite Z.shiftr_div_pow2. Qed.

Section level.
Context (level : gmap Z bytes32) (d : bytes32).

Let get (i : Z) : bytes32 := match level !! i with Some s => s | None => d end.
Let parent (i : Z) : bytes32 := smt_node (get (2 * i)) (get (2 * i + 1)).

(** After a prefix [done] of the entries: the consumed indices are the visited
    ones and their siblings, and exactly their parents are computed. *)
Definition level_inv (visited : list (Z * bytes32)) (st : gmap Z bytes32 * gset Z) : Prop :=
  (forall x, x ∈ snd st <-> exists k, k ∈ visited.*1 /\ x / 2 = k / 2) /\
  (forall i, fst st !! i = if decide (i ∈ (fun k => k / 2) <$> visited.*1) then Some (parent i) else None).

Lemma half_sibling x i : (x = Z.lxor i 1 \/ x = i) <-> x / 2 = i / 2.
Proof.
  rewrite lxor_1. pose proof (Z.div_mod x 2 ltac:(lia)). pose proof (Z.div_mod i 2 ltac:(lia)) as Hi.
  pose proof (Z.mod_pos_bound x 2 ltac:(lia)). rewrite Zmod_even in Hi.
  destruct (Z.even i); (split; [|lia]).
  - intros [->| ->]; [|done].
    replace (i + 1) with (1 + i / 2 * 2) by lia. by rewrite Z.div_add.
  - intros [->| ->]; [|done].
    replace (i - 1) with (0 + i / 2 * 2) by lia. by rewrite Z.div_add.
Qed.

Lemma sparse_entry_parent index value :
  level !! index = Some value ->
  (if Z.land index 1 =? 1
   then smt_node (match level !! Z.lxor index 1 with Some s => s | None => d end) value
   else smt_node value (match level !! Z.lxor index 1 with Some s => s | None => d end))
  = parent (index / 2).
Proof.
  intros Hl. unfold parent, get. rewrite land_1, lxor_1, Zmod_even.
  pose proof (Z.div_mod index 2 ltac:(lia)) as Hd. rewrite Zmod_even in Hd.
  destruct (Z.even index); cbn [Z.eqb].
  - replace (2 * (index / 2)) with index by lia. by rewrite Hl.
  - replace (2 * (index / 2) + 1) with index by lia.
    replace (2 * (index / 2)) with (index - 1) by lia. by rewrite Hl.
Qed.

Lemma sparse_entry_inv visited st index value :
  level !! index = Some value -> level_inv visited st ->
  level_inv (visited ++ [(index, value)]) (sparse_entry level d st (index, value)).
Proof.
  intros Hl. destruct st as [next consumed]. intros [Hc Hn]. cbn [fst snd] in *.
  unfold sparse_entry, level_inv. rewrite fmap_app, fmap_app. cbn [fmap list_fmap fst].
  destruct (decide (index ∈ consumed)) as [Hin|Hin]; cbn [fst snd].
  - apply Hc in Hin as (k & Hk & Hhalf). split.
    + intros x. rewrite Hc. split; intros (k' & Hk' & Hx).
      * exists k'. set_solver.
      * apply elem_of_app in Hk' as [?| ->%list_elem_of_singleton]; [by exists k'|].
        exists k. split; [done|congruence].
    + intros i. rewrite Hn. apply decide_ext. rewrite elem_of_app, list_elem_of_singleton.
      split; [by left|]. intros [?| ->]; [done|]. rewrite Hhalf. by apply (list_elem_of_fmap_2 (fun k => k / 2)).
  - split.
    + intros x. rewrite elem_of_union, elem_of_union, !elem_of_singleton, Hc.
      pose proof (half_sibling x index) as Hs. split.
      * intros [?|[?|(k & ? & ?)]]; [exists index; rewrite elem_of_app; split; [set_solver|tauto]..|].
        exists k. set_solver.
      * intros (k & [?| ->%list_elem_of_singleton]%elem_of_app & ?); [right; right; by exists k|tauto].
    + intros i. rewrite sparse_entry_parent, shiftr_1, lookup_insert by done.
      destruct (decide (index / 2 = i)) as [<-|Hne].
      * rewrite decide_True; [done|]. set_solver.
      * rewrite Hn. apply decide_ext. set_solver.
Qed.

Lemma sparse_level_inv todo visited st :
  (forall k v, (k, v) ∈ todo -> level !! k = Some v) -> level_inv visited st ->
  level_inv (visited ++ todo) (fold_left (sparse_entry level d) todo st).
Proof.
  revert visited st. induction todo as [|[k v] todo IH]; intros visited st Hl Hi; cbn [fold_left].
  { by rewrite app_nil_r. }
  replace (visited ++ (k, v) :: todo) with ((visited ++ [(k, v)]) ++ todo) by by rewrite <- app_assoc.
  apply IH; [set_solver|]. apply sparse_entry_inv; [|done]. apply Hl. set_solver.
Qed.

Lemma btree_iter_elem k v : (k, v) ∈ btree_iter level <-> level !! k = Some v.
Proof.
  unfold btree_iter. rewrite <- elem_of_map_to_list.
  by rewrite (merge_sort_Permutation key_le (map_to_list level)).
Qed.

(** The new level, with defaults filled in, is the level above the old one. *)
Lemma sparse_level_get i :
  default (smt_node d d)
    (fst (fold_left (sparse_entry level d) (btree_iter level) (∅, ∅)) !! i)
  = smt_node (default d (level !! (2 * i))) (default d (level !! (2 * i + 1))).
Proof.
  destruct (sparse_level_inv (btree_iter level) [] (∅, ∅)) as [_ Hn].
  { intros k v. apply btree_iter_elem. }
  { split; [set_solver|]. intros j. rewrite decide_False by set_solver. apply lookup_empty. }
  rewrite Hn. cbn [app].
  destruct (decide _) as [Hin|Hin]; [done|]. cbn [default].
  assert (forall x, x / 2 = i -> level !! x = None) as Hno.
  { intros x Hx. destruct (level !! x) as [v|] eqn:E; [|done]. destruct Hin.
    apply btree_iter_elem in E. rewrite <- Hx.
    apply (list_elem_of_fmap_2 (fun k => k / 2)), (list_elem_of_fmap_2 fst _ (x, v)), E. }
  rewrite !Hno; [done|..].
  - replace (2 * i + 1) with (1 + i * 2) by lia. by rewrite Z.div_add.
  - replace (2 * i) with (0 + i * 2) by lia. by rewrite Z.div_add.
Qed.
End level.

(** ** [sparse_root] computes the reference root *)

Lemma smt_ref_ext f g h i :
  (forall j, i * 2 ^ Z.of_nat h <= j < (i + 1) * 2 ^ Z.of_nat h -> f j = g j) ->
  smt_ref f h i = smt_ref g h i.
Proof.
  revert i. induction h as [|h IH]; intros i Hj; cbn [smt_ref].
  - rewrite Hj; [done|]. change (2 ^ Z.of_nat 0) with 1. lia.
  - rewrite Nat2Z.inj_succ, Z.pow_succ_r in Hj by lia.
    assert (0 < 2 ^ Z.of_nat h) by lia.
    f_equal; apply IH; intros j ?; apply Hj; nia.
Qed.

Lemma sparse_levels level0 n :
  (n <= SMT_DEPTH)%nat ->
  forall i, default (empty_at n) (fold_left (sparse_level smt_empty_hashes) (seq 0 n) level0 !! i)
            = smt_ref (fun i => level0 !! i) n i.
Proof.
  induction n as [|n IH]; intros Hn i; [done|].
  rewrite seq_S, fold_left_app, Nat.add_0_l. cbn [fold_left smt_ref].
  unfold sparse_level at 1. rewrite smt_empty_hashes_nth by lia.
  change (empty_at (S n)) with (smt_node (empty_at n) (empty_at n)).
  rewrite sparse_level_get, !IH by lia. done.
Qed.

(** Well-formed entries: [BTreeMap<[u8; 32], [u8; 32]>]. *)
Definition entries_ok (entries : gmap bytes32 bytes32) : Prop :=
  forall k v, entries !! k = Some v -> is32 k /\ is32 v.

Lemma level0_lookup entries i :
  entries_ok entries -> 0 <= i < 2 ^ 256 ->
  (list_to_map ((fun kv => (be_val (fst kv), snd kv)) <$> map_to_list entries) : gmap Z bytes32) !! i
  = entries !! be_bytes 32 i.
Proof.
  intros Hok Hi. set (f := fun kv : bytes * bytes => (be_val (fst kv), snd kv)).
  assert (NoDup ((f <$> map_to_list entries).*1)) as Hnd.
  { rewrite <- list_fmap_compose. apply NoDup_fmap_2_strong; [|apply NoDup_map_to_list].
    intros [k v] [k' v'] Hk Hk' Heq. cbn in Heq.
    apply elem_of_map_to_list in Hk, Hk'. destruct (Hok _ _ Hk), (Hok _ _ Hk').
    apply be_val_inj in Heq; [|congruence]. subst k'. congruence. }
  apply option_eq. intros v. rewrite <- elem_of_list_to_map by done.
  rewrite list_elem_of_fmap. split.
  - intros ([k w] & [= -> ->] & Hk%elem_of_map_to_list). destruct (Hok _ _ Hk).
    by rewrite be_bytes_be_val.
  - intros Hv. exists (be_bytes 32 i, v). split; [|by apply elem_of_map_to_list].
    unfold f. cbn [fst snd]. by rewrite be_val_be_bytes.
Qed.

Lemma smt_ref_empty h i : smt_ref (fun _ => None) h i = empty_at h.
Proof. revert i. induction h as [|h IH]; intros i; cbn [smt_ref]; [done|]. by rewrite !IH. Qed.

Lemma sparse_root_ref entries :
  entries_ok entries -> sparse_root entries = smt_ref (leaves_of entries) SMT_DEPTH 0.
Proof.
  intros Hok. unfold sparse_root. destruct (decide (entries = ∅)) as [->|Hne].
  { unfold smt_empty_root. rewrite smt_empty_hashes_nth by lia.
    rewrite <- (smt_ref_empty SMT_DEPTH 0). apply smt_ref_ext. intros j _.
    unfold leaves_of. by rewrite lookup_empty. }
  rewrite smt_empty_hashes_nth by lia.
  rewrite match_default, sparse_levels by done. apply smt_ref_ext. intros j Hj.
  apply level0_lookup; [done|]. rewrite SMT_DEPTH_256 in Hj. lia.
Qed.

(** ** Paths *)

(** The sibling of the path to leaf [k] at height [h]. *)
Definition path_sibling (leaves : Z -> option bytes32) (k : Z) (h : nat) : bytes32 :=
  smt_ref leaves h (Z.lxor (k / 2 ^ Z.of_nat h) 1).

(** Hashing upwards from height 0: the loop of the verifiers, by height. *)
Fixpoint climb (sib : nat -> bytes32) (k : Z) (leaf : bytes32) (n : nat) : bytes32 :=
  match n with
  | O => leaf
  | S h =>
      let cur := climb sib k leaf h in
      if Z.testbit k (Z.of_nat h) then smt_node (sib h) cur else smt_node cur (sib h)
  end.

Lemma key_bit_msb_testbit key depth :
  is32 key -> (depth < 256)%nat ->
  key_bit_msb key depth = Z.b2z (Z.testbit (be_val key) (255 - Z.of_nat depth)).
Proof.
  intros Hk Hd. unfold key_bit_msb. rewrite land_1.
  set (q := (depth / 8)%nat). set (r := (depth mod 8)%nat).
  assert (depth = 8 * q + r /\ r < 8)%nat as [Hqr Hr].
  { split; [apply Nat.div_mod_eq|]. unfold r. apply Nat.mod_upper_bound. lia. }
  assert (q < 32)%nat by lia.
  pose proof (be_val_testbit key q (7 - Z.of_nat r)) as Hb. rewrite Hk in Hb.
  replace (255 - Z.of_nat depth) with (8 * (Z.of_nat 32 - 1 - Z.of_nat q) + (7 - Z.of_nat r)) by lia.
  rewrite Hb, Z.testbit_spec', Z.shiftr_div_pow2 by lia. done.
Qed.

(** The upward loops of the source are [climb]. *)
Lemma climb_loop key (sibf : nat -> bytes32) leaf :
  is32 key ->
  fold_left (fun cur depth => smt_step key cur (sibf depth) depth) (rev (seq 0 SMT_DEPTH)) leaf
  = climb (fun h => sibf (255 - h)%nat) (be_val key) leaf SMT_DEPTH.
Proof.
  intros Hk. pose proof SMT_DEPTH_256 as HD.
  enough (forall n, (n <= 256)%nat ->
    fold_left (fun cur depth => smt_step key cur (sibf depth) depth) (rev (seq (256 - n) n)) leaf
    = climb (fun h => sibf (255 - h)%nat) (be_val key) leaf n) as Hn.
  { specialize (Hn 256%nat ltac:(lia)). replace SMT_DEPTH with 256%nat by lia. exact Hn. }
  induction n as [|n IH]; intros Hn; [done|].
  replace (seq (256 - S n) (S n)) with ((255 - n)%nat :: seq (256 - n) n).
  2: { replace (256 - S n)%nat with (255 - n)%nat by lia. cbn [seq].
       by replace (S (255 - n)) with (256 - n)%nat by lia. }
  cbn [rev climb]. rewrite fold_left_app, IH by lia. cbn [fold_left]. unfold smt_step.
  rewrite key_bit_msb_testbit by (done || lia).
  replace (255 - Z.of_nat (255 - n)) with (Z.of_nat n) by lia.
  by destruct (Z.testbit _ _).
Qed.

Lemma climb_ref leaves sib k n :
  (forall h, (h < n)%nat -> sib h = path_sibling leaves k h) ->
  climb sib k (smt_ref leaves 0 k) n = smt_ref leaves n (k / 2 ^ Z.of_nat n).
Proof.
  induction n as [|n IH]; intros Hs.
  { cbn [climb]. change (2 ^ Z.of_nat 0) with 1. by rewrite Z.div_1_r. }
  cbn [climb]. rewrite IH by auto. rewrite Hs by lia. unfold path_sibling. cbn [smt_ref].
  replace (2 ^ Z.of_nat (S n)) with (2 ^ Z.of_nat n * 2)
    by (rewrite Nat2Z.inj_succ, Z.pow_succ_r; lia).
  rewrite <- Z.div_div by lia.
  rewrite Z.testbit_eqb by lia. set (q := k / 2 ^ Z.of_nat n).
  pose proof (Z.div_mod q 2 ltac:(lia)) as Hd. rewrite lxor_1. rewrite Zmod_even in *.
  destruct (Z.even q); cbn [Z.eqb]; f_equal; f_equal; lia.
Qed.

(** ** Binding *)

(** The message of an inner node. *)
Definition smt_message (l r : bytes32) : bytes := domain_message domains.SMT_NODE [l; r].

(** The messages hashed on a path, from the leaf upwards. *)
Fixpoint climb_messages (sib : nat -> bytes32) (k : Z) (leaf : bytes32) (n : nat) : list bytes :=
  match n with
  | O => []
  | S h =>
      let cur := climb sib k leaf h in
      (if Z.testbit k (Z.of_nat h) then smt_message (sib h) cur else smt_message cur (sib h))
      :: climb_messages sib k leaf h
  end.

Lemma smt_node_inj_or a b c d :
  length a = length c -> smt_node a b = smt_node c d ->
  (a = c /\ b = d) \/ collides [smt_message a b] [smt_message c d].
Proof.
  intros Hl Heq. apply sha256_domain_inj_or in Heq as [Heq|]; [left|by right]. cbn [concat] in Heq.
  rewrite !app_nil_r in Heq. by apply app_inj_len.
Qed.

Lemma climb_length sib k leaf n : is32 leaf -> is32 (climb sib k leaf n).
Proof.
  intros Hl. destruct n as [|n]; cbn [climb]; [done|].
  destruct (Z.testbit _ _); apply smt_node_length.
Qed.

(** Equal roots along one path: equal leaves and siblings, or two messages of
    the paths collide. *)
Lemma climb_binding sib sib' k leaf leaf' n :
  is32 leaf -> is32 leaf' -> (forall h, (h < n)%nat -> length (sib h) = length (sib' h)) ->
  climb sib k leaf n = climb sib' k leaf' n ->
  (leaf = leaf' /\ forall h, (h < n)%nat -> sib h = sib' h) \/
  collides (climb_messages sib k leaf n) (climb_messages sib' k leaf' n).
Proof.
  intros Hl Hl'. induction n as [|n IH]; intros Hs Heq; cbn [climb climb_messages] in *.
  { left. split; [done|lia]. }
  pose proof (climb_length sib k leaf n Hl). pose proof (climb_length sib' k leaf' n Hl').
  assert ((sib n = sib' n /\ climb sib k leaf n = climb sib' k leaf' n) \/
          collides [if Z.testbit k (Z.of_nat n) then smt_message (sib n) (climb sib k leaf n)
                    else smt_message (climb sib k leaf n) (sib n)]
                   [if Z.testbit k (Z.of_nat n) then smt_message (sib' n) (climb sib' k leaf' n)
                    else smt_message (climb sib' k leaf' n) (sib' n)])
    as [[Hn Hc]|Hc].
  - destruct (Z.testbit _ _); apply smt_node_inj_or in Heq; [naive_solver|auto|naive_solver|congruence].
  - destruct IH as [[? Hh]|Hm]; [auto|done|left|right; more_messages Hm].
    split; [done|]. intros h Hlt. destruct (decide (h = n)) as [->|]; [done|]. apply Hh. lia.
  - right. more_messages Hc.
Qed.

(** ** Decompression *)

Lemma bitmap_set_testbit bm depth :
  is32 bm -> (depth < 256)%nat -> bitmap_set bm depth = Z.testbit (be_val bm) (255 - Z.of_nat depth).
Proof.
  intros Hb Hd. pose proof (key_bit_msb_testbit bm depth Hb Hd) as He.
  unfold key_bit_msb in He. unfold bitmap_set. rewrite He. by destruct (Z.testbit _ _).
Qed.

(** The depths with an explicit sibling, in proof order. *)
Definition set_depths (bm : bytes32) (ds : list nat) : list nat :=
  filter (fun d => bitmap_set bm d = true) ds.

Lemma bitmap_set_cons x bm d : bitmap_set (x :: bm) (8 + d) = bitmap_set bm d.
Proof.
  unfold bitmap_set. replace (8 + d)%nat with (d + 1 * 8)%nat by lia.
  rewrite Nat.div_add, Nat.Div0.mod_add, Nat.add_1_r by lia. done.
Qed.

Lemma bitmap_set_head x bm d :
  (d < 8)%nat -> bitmap_set (x :: bm) d = Z.testbit (Z_of_byte x) (7 - Z.of_nat d).
Proof.
  intros Hd. unfold bitmap_set. rewrite Nat.div_small, Nat.mod_small by done. cbn [nth].
  rewrite land_1, Z.shiftr_div_pow2, <- Z.testbit_spec' by lia. by destruct (Z.testbit _ _).
Qed.

Lemma filter_shift bm x ds :
  length (set_depths (x :: bm) (Nat.add 8 <$> ds)) = length (set_depths bm ds).
Proof.
  unfold set_depths. induction ds as [|d ds IH]; [done|].
  cbn [fmap list_fmap]. rewrite !filter_cons, bitmap_set_cons.
  destruct (decide (bitmap_set bm d = true)); cbn [length]; by rewrite <- IH.
Qed.

Lemma set_depths_head x bm n :
  (n <= 8)%nat ->
  Z.of_nat (length (set_depths (x :: bm) (seq (8 - n) n))) = count_ones n (Z_of_byte x).
Proof.
  induction n as [|n IH]; intros Hn; [done|].
  replace (seq (8 - S n) (S n)) with ((7 - n)%nat :: seq (8 - n) n).
  2: { replace (8 - S n)%nat with (7 - n)%nat by lia. cbn [seq].
       by replace (S (7 - n)) with (8 - n)%nat by lia. }
  unfold set_depths. rewrite filter_cons. fold (set_depths (x :: bm) (seq (8 - n) n)).
  cbn [count_ones]. rewrite <- IH, bitmap_set_head by lia.
  replace (7 - Z.of_nat (7 - n)) with (Z.of_nat n) by lia.
  destruct (Z.testbit _ _); [rewrite decide_True by done|rewrite decide_False by done];
    cbn [length Z.b2z]; lia.
Qed.

(** The popcount of the bitmap is the number of explicit siblings. *)
Lemma bitmap_count_spec bm :
  bitmap_count bm = Z.of_nat (length (set_depths bm (seq 0 (8 * length bm)))).
Proof.
  induction bm as [|x bm IH]; [done|]. cbn [bitmap_count fold_right].
  fold (bitmap_count bm). rewrite IH, <- (set_depths_head x bm 8), <- Nat2Z.inj_add by lia. f_equal.
  cbn [length]. replace (8 * S (length bm))%nat with (8 + 8 * length bm)%nat by lia.
  rewrite seq_app. unfold set_depths at 3. rewrite filter_app, length_app. f_equal.
  replace (0 + 8)%nat with (8 + 0)%nat by lia. rewrite <- fmap_add_seq.
  by rewrite <- (filter_shift bm x).
Qed.

(** What [decompress] returns on a list of depths: the explicit siblings, each
    different from its default. *)
Lemma decompress_ok empties proof ds by_depth cursor bd :
  NoDup ds ->
  decompress empties proof ds by_depth cursor = Ok bd ->
  (forall j d, set_depths (bitmap proof) ds !! j = Some d ->
     bd !! d = Some (nth (cursor + j) (nondefault_siblings proof) []) /\
     nth (cursor + j) (nondefault_siblings proof) [] <> nth (SMT_DEPTH - 1 - d) empties []) /\
  (forall d, d ∉ set_depths (bitmap proof) ds -> bd !! d = by_depth !! d).
Proof.
  revert by_depth cursor. induction ds as [|d ds IH]; intros by_depth cursor Hnd; cbn [decompress].
  { intros [= <-]. split; [|done]. done. }
  apply NoDup_cons in Hnd as [Hd Hnd]. unfold set_depths. rewrite filter_cons.
  fold (set_depths (bitmap proof) ds).
  assert (d ∉ set_depths (bitmap proof) ds) as Hd'
    by (unfold set_depths; rewrite list_elem_of_filter; tauto).
  destruct (bitmap_set (bitmap proof) d) eqn:E.
  - rewrite decide_True by done. intros H. inv_ok. bool_to_prop.
    apply IH in H as [H1 H2]; [|done]. split.
    + intros [|j] d' Hj; cbn in Hj.
      * injection Hj as <-. rewrite Nat.add_0_r, H2, lookup_insert_eq by done. done.
      * apply H1 in Hj. by replace (cursor + S j)%nat with (S cursor + j)%nat by lia.
    + intros d' Hd''. rewrite H2 by set_solver. apply lookup_insert_ne. set_solver.
  - rewrite decide_False by congruence. intros H. by apply IH.
Qed.

Lemma decompress_complete empties proof ds by_depth cursor :
  (forall j d, set_depths (bitmap proof) ds !! j = Some d ->
     nth (cursor + j) (nondefault_siblings proof) [] <> nth (SMT_DEPTH - 1 - d) empties []) ->
  exists bd, decompress empties proof ds by_depth cursor = Ok bd.
Proof.
  revert by_depth cursor. induction ds as [|d ds IH]; intros by_depth cursor Hs; cbn [decompress];
    [eauto|].
  unfold set_depths in Hs. rewrite filter_cons in Hs. fold (set_depths (bitmap proof) ds) in Hs.
  destruct (bitmap_set (bitmap proof) d) eqn:E.
  - rewrite decide_True in Hs by done. pose proof (Hs 0%nat d eq_refl) as H0.
    rewrite Nat.add_0_r in H0. apply bytes_eqb_neq in H0. rewrite H0. apply IH.
    intros j d' Hj. replace (S cursor + j)%nat with (cursor + S j)%nat by lia. by apply Hs.
  - rewrite decide_False in Hs by congruence. by apply IH.
Qed.

(** ** The verifier, in terms of [climb] *)

Definition sibling_at (by_depth : gmap nat bytes32) (depth : nat) : bytes32 :=
  default (empty_at (255 - depth)) (by_depth !! depth).

Lemma climb_ext sib sib' k leaf n :
  (forall h, (h < n)%nat -> sib h = sib' h) -> climb sib k leaf n = climb sib' k leaf n.
Proof.
  induction n as [|n IH]; intros Hs; cbn [climb]; [done|]. rewrite IH, (Hs n) by auto with lia. done.
Qed.

Lemma verify_climb key leaf proof root :
  is32 key ->
  verify_compressed_proof key leaf proof root =
  if negb (bitmap_count (bitmap proof) =? Z.of_nat (length (nondefault_siblings proof)))
  then Err ProofSiblingCount else
  let? bd := decompress smt_empty_hashes proof (seq 0 SMT_DEPTH) ∅ 0 in
  Ok (bytes_eqb (climb (fun h => sibling_at bd (255 - h)) (be_val key) leaf SMT_DEPTH) root).
Proof.
  intros Hk. unfold verify_compressed_proof. destruct (negb _); [done|].
  destruct (decompress _ _ _ _ _) as [bd|e]; [|done]. do 2 f_equal.
  rewrite (climb_loop key (fun depth => match bd !! depth with Some s => s
    | None => nth (SMT_DEPTH - 1 - depth) smt_empty_hashes [] end)) by done.
  apply climb_ext. intros h Hh. pose proof SMT_DEPTH_256. unfold sibling_at.
  rewrite match_default, smt_empty_hashes_nth by lia.
  by replace (SMT_DEPTH - 1 - (255 - h))%nat with (255 - (255 - h))%nat by lia.
Qed.

Lemma smt_ref_length entries h i : entries_ok entries -> is32 (smt_ref (leaves_of entries) h i).
Proof.
  intros Hok. destruct h as [|h]; cbn [smt_ref]; [|apply smt_node_length].
  unfold leaves_of. destruct (entries !! _) as [v|] eqn:E; cbn [default];
    [by apply Hok in E as [_ ?]|apply empty_at_length].
Qed.

(** The root as a climb along the path to any key. *)
Lemma sparse_root_climb entries key :
  entries_ok entries -> is32 key ->
  sparse_root entries
  = climb (path_sibling (leaves_of entries) (be_val key)) (be_val key)
      (default (empty_at 0) (entries !! key)) SMT_DEPTH.
Proof.
  intros Hok Hk. rewrite sparse_root_ref by done.
  replace (default (empty_at 0) (entries !! key)) with (smt_ref (leaves_of entries) 0 (be_val key)).
  2: { cbn [smt_ref]. unfold leaves_of. by rewrite be_bytes_be_val. }
  rewrite climb_ref by done. f_equal. rewrite SMT_DEPTH_256.
  symmetry. apply Z.div_small. by apply (be_val_range 32).
Qed.

(** A proof as the wire format gives it: 32-byte fields. *)
Definition proof_ok (proof : CompressedSmtProofV1) : Prop :=
  is32 (bitmap proof) /\ Forall (fun s => is32 s) (nondefault_siblings proof).

Lemma in_range_32 proof cursor :
  proof_ok proof -> (cursor < length (nondefault_siblings proof))%nat ->
  is32 (nth cursor (nondefault_siblings proof) []).
Proof.
  intros [_ Hs] Hc. rewrite Forall_forall in Hs. apply Hs, list_elem_of_In, nth_In, Hc.
Qed.

(** The cursor never leaves [nondefault_siblings], and the siblings used by an
    accepted proof are exactly the explicit ones. *)
Lemma decompress_siblings proof bd :
  proof_ok proof ->
  bitmap_count (bitmap proof) = Z.of_nat (length (nondefault_siblings proof)) ->
  decompress smt_empty_hashes proof (seq 0 SMT_DEPTH) ∅ 0 = Ok bd ->
  let D := set_depths (bitmap proof) (seq 0 SMT_DEPTH) in
  length D = length (nondefault_siblings proof) /\
  (forall j d, D !! j = Some d ->
     bd !! d = Some (nth j (nondefault_siblings proof) []) /\
     is32 (nth j (nondefault_siblings proof) []) /\
     nth j (nondefault_siblings proof) [] <> empty_at (255 - d)) /\
  (forall d, d ∉ D -> bd !! d = None).
Proof.
  intros Hp Hc Hd D. pose proof SMT_DEPTH_256 as HD.
  assert (length D = length (nondefault_siblings proof)) as Hl.
  { rewrite bitmap_count_spec in Hc. destruct Hp as [Hb _]. rewrite Hb in Hc.
    apply Nat2Z.inj in Hc. rewrite <- Hc. unfold D. by replace SMT_DEPTH with (8 * 32)%nat by lia. }
  apply decompress_ok in Hd as [H1 H2]; [|apply NoDup_seq]. split_and!; [done| |].
  - intros j d Hj. destruct (H1 j d Hj) as [? Hne]. cbn [Nat.add] in *.
    assert (d ∈ D) as Hin by (by apply list_elem_of_lookup_2 in Hj).
    apply list_elem_of_filter in Hin as [_ Hin%elem_of_seq].
    rewrite smt_empty_hashes_nth in Hne by lia.
    replace (SMT_DEPTH - 1 - d)%nat with (255 - d)%nat in Hne by lia.
    split_and!; [done| |done]. apply in_range_32; [done|]. rewrite <- Hl. by eapply lookup_lt_Some.
  - intros d Hin. rewrite H2 by done. apply lookup_empty.
Qed.

Lemma sibling_at_length proof bd d :
  proof_ok proof ->
  bitmap_count (bitmap proof) = Z.of_nat (length (nondefault_siblings proof)) ->
  decompress smt_empty_hashes proof (seq 0 SMT_DEPTH) ∅ 0 = Ok bd -> is32 (sibling_at bd d).
Proof.
  intros Hp Hc Hd. destruct (decompress_siblings proof bd Hp Hc Hd) as (_ & H1 & H2).
  unfold sibling_at. destruct (decide (d ∈ set_depths (bitmap proof) (seq 0 SMT_DEPTH))) as [Hin|Hin].
  - apply list_elem_of_lookup in Hin as [j Hj]. destruct (H1 j d Hj) as (-> & ? & _). done.
  - rewrite H2 by done. apply empty_at_length.
Qed.

(** A depth is explicit exactly when its sibling is not the default one. *)
Lemma bitmap_set_sibling proof bd d :
  proof_ok proof ->
  bitmap_count (bitmap proof) = Z.of_nat (length (nondefault_siblings proof)) ->
  decompress smt_empty_hashes proof (seq 0 SMT_DEPTH) ∅ 0 = Ok bd -> (d < 256)%nat ->
  bitmap_set (bitmap proof) d = true <-> sibling_at bd d <> empty_at (255 - d).
Proof.
  intros Hp Hc Hd Hlt. pose proof SMT_DEPTH_256.
  destruct (decompress_siblings proof bd Hp Hc Hd) as (_ & H1 & H2). unfold sibling_at. split.
  - intros Hb. assert (d ∈ set_depths (bitmap proof) (seq 0 SMT_DEPTH)) as Hin.
    { apply list_elem_of_filter. split; [done|]. apply elem_of_seq. lia. }
    apply list_elem_of_lookup in Hin as [j Hj]. by destruct (H1 j d Hj) as (-> & _ & ?).
  - intros Hne. destruct (bitmap_set (bitmap proof) d) eqn:E; [done|]. destruct Hne.
    rewrite H2; [done|]. unfold set_depths. rewrite list_elem_of_filter. by intros [? _]; congruence.
Qed.

(** ** One-leaf trees *)

Lemma single_leaf_root_climb key leaf :
  is32 key -> single_leaf_root key leaf = climb empty_at (be_val key) leaf SMT_DEPTH.
Proof.
  intros Hk. unfold single_leaf_root.
  rewrite (climb_loop key (fun depth => nth (SMT_DEPTH - 1 - depth) smt_empty_hashes [])) by done.
  apply climb_ext. intros h Hh. pose proof SMT_DEPTH_256. rewrite smt_empty_hashes_nth by lia.
  f_equal. lia.
Qed.

Lemma path_sibling_single key leaf h :
  is32 key -> (h < 256)%nat ->
  path_sibling (leaves_of {[key := leaf]}) (be_val key) h = empty_at h.
Proof.
  intros Hk Hh. unfold path_sibling. rewrite <- (smt_ref_empty h (Z.lxor (be_val key / 2 ^ Z.of_nat h) 1)).
  apply smt_ref_ext. intros j Hj. unfold leaves_of. apply lookup_singleton_None. intros He.
  pose proof (be_val_range 32 key Hk) as Hr. change (256 ^ Z.of_nat 32) with (2 ^ 256) in Hr.
  set (P := 2 ^ Z.of_nat h) in *. assert (0 < P) by (unfold P; lia).
  set (q := be_val key / P) in *. set (s := Z.lxor q 1) in *.
  assert (0 <= q) by (apply Z.div_pos; lia).
  assert (s <> q /\ s / 2 = q / 2) as [Hne Hhalf].
  { split; [unfold s; rewrite lxor_1; destruct (Z.even q); lia|]. apply half_sibling. by left. }
  assert (2 ^ 256 = 2 * (2 ^ (255 - Z.of_nat h) * P)) as Hp.
  { unfold P. rewrite <- Z.pow_add_r, <- Z.pow_succ_r by lia. f_equal. lia. }
  assert (q < 2 * 2 ^ (255 - Z.of_nat h)) by (apply Z.div_lt_upper_bound; lia).
  assert (q / 2 < 2 ^ (255 - Z.of_nat h)) by (apply Z.div_lt_upper_bound; lia).
  pose proof (Z.div_mod s 2 ltac:(lia)). pose proof (Z.mod_pos_bound s 2 ltac:(lia)).
  assert (0 <= q / 2) by (apply Z.div_pos; lia).
  assert (0 <= j < 2 ^ 256) as Hjr by nia.
  assert (j = be_val key) as ->.
  { rewrite He. symmetry. apply be_val_be_bytes. by change (256 ^ Z.of_nat 32) with (2 ^ 256). }
  apply Hne. unfold q. apply Z.div_unique with (be_val key - s * P); lia.
Qed.
(** ** Accepted proofs *)

Lemma verify_accepts key leaf proof root :
  is32 key ->
  verify_compressed_proof key leaf proof root = Ok true <->
  exists bd,
    bitmap_count (bitmap proof) = Z.of_nat (length (nondefault_siblings proof)) /\
    decompress smt_empty_hashes proof (seq 0 SMT_DEPTH) ∅ 0 = Ok bd /\
    climb (fun h => sibling_at bd (255 - h)) (be_val key) leaf SMT_DEPTH = root.
Proof.
  intros Hk. rewrite verify_climb by done. split.
  - destruct (negb _) eqn:Hc; [done|]. destruct (decompress _ _ _ _ _) as [bd|]; [|done].
    intros H. exists bd. bool_to_prop. split_and!; [done..|]. apply bytes_eqb_eq. congruence.
  - intros (bd & Hc & -> & <-). by rewrite Hc, Z.eqb_refl, bytes_eqb_refl.
Qed.

Lemma bitmap_ext a b :
  is32 a -> is32 b -> (forall d, (d < 256)%nat -> bitmap_set a d = bitmap_set b d) -> a = b.
Proof.
  intros Ha Hb Hs. apply be_val_inj; [congruence|]. apply Z.bits_inj'. intros n Hn.
  pose proof (be_val_range 32 a Ha) as Hra. pose proof (be_val_range 32 b Hb) as Hrb.
  change (256 ^ Z.of_nat 32) with (2 ^ 256) in *.
  destruct (Z.lt_ge_cases n 256) as [Hlt|Hge]; [|by rewrite !(testbit_small _ 256)].
  specialize (Hs (Z.to_nat (255 - n)) ltac:(lia)). rewrite !bitmap_set_testbit in Hs by (done || lia).
  by replace (255 - Z.of_nat (Z.to_nat (255 - n))) with n in Hs by lia.
Qed.

(** Two proofs that decompress to the same siblings are the same proof. *)
Lemma proof_ext p1 p2 bd1 bd2 :
  proof_ok p1 -> proof_ok p2 ->
  bitmap_count (bitmap p1) = Z.of_nat (length (nondefault_siblings p1)) ->
  bitmap_count (bitmap p2) = Z.of_nat (length (nondefault_siblings p2)) ->
  decompress smt_empty_hashes p1 (seq 0 SMT_DEPTH) ∅ 0 = Ok bd1 ->
  decompress smt_empty_hashes p2 (seq 0 SMT_DEPTH) ∅ 0 = Ok bd2 ->
  (forall d, (d < 256)%nat -> sibling_at bd1 d = sibling_at bd2 d) -> p1 = p2.
Proof.
  intros Hp1 Hp2 Hc1 Hc2 Hd1 Hd2 Hs.
  assert (bitmap p1 = bitmap p2) as Hb.
  { apply bitmap_ext; [apply Hp1|apply Hp2|]. intros d Hd. apply eq_true_iff_eq.
    rewrite (bitmap_set_sibling p1 bd1), (bitmap_set_sibling p2 bd2), Hs by done. done. }
  destruct (decompress_siblings p1 bd1) as (Hl1 & H1 & _); [done..|].
  destruct (decompress_siblings p2 bd2) as (Hl2 & H2 & _); [done..|].
  rewrite <- Hb in Hl2, H2. destruct p1 as [b1 s1], p2 as [b2 s2]; cbn [bitmap nondefault_siblings] in *.
  subst b2. f_equal. apply nth_ext with [] []; [congruence|]. intros j Hj.
  rewrite <- Hl1 in Hj. apply lookup_lt_is_Some in Hj as [d Hj].
  assert (d < 256)%nat as Hd.
  { apply list_elem_of_lookup_2, list_elem_of_filter in Hj as [_ Hj%elem_of_seq].
    pose proof SMT_DEPTH_256. lia. }
  specialize (Hs d Hd). unfold sibling_at in Hs.
  destruct (H1 j d Hj) as (E1 & _), (H2 j d Hj) as (E2 & _). by rewrite E1, E2 in Hs.
Qed.

(** ** Roots bind maps *)

(** The messages hashed for a map's root along the path of a key. *)
Definition map_messages (m : gmap bytes32 bytes32) (key : bytes32) : list bytes :=
  climb_messages (path_sibling (leaves_of m) (be_val key)) (be_val key) (default (empty_at 0) (m !! key)) SMT_DEPTH.

(** Those the verifier hashes for a proof it can decompress. *)
Definition proof_messages (key leaf : bytes32) (proof : CompressedSmtProofV1) : list bytes :=
  match decompress smt_empty_hashes proof (seq 0 SMT_DEPTH) ∅ 0 with
  | Ok bd => climb_messages (fun h => sibling_at bd (255 - h)) (be_val key) leaf SMT_DEPTH
  | Err _ => []
  end.

Lemma sparse_root_lookup m1 m2 key :
  entries_ok m1 -> entries_ok m2 -> is32 key -> sparse_root m1 = sparse_root m2 ->
  default (empty_at 0) (m1 !! key) = default (empty_at 0) (m2 !! key) \/
  collides (map_messages m1 key) (map_messages m2 key).
Proof.
  intros Hok1 Hok2 Hk Heq. rewrite !(sparse_root_climb _ key) in Heq by done.
  assert (forall m, entries_ok m -> is32 (default (empty_at 0) (m !! key))) as Hl.
  { intros m Hm. pose proof (smt_ref_length m 0 (be_val key) Hm) as Hr. cbn [smt_ref] in Hr.
    unfold leaves_of in Hr. by rewrite be_bytes_be_val in Hr. }
  apply climb_binding in Heq as [[? _]|?]; [by left|by right|by apply Hl..|].
  intros h _. unfold path_sibling. by rewrite !smt_ref_length.
Qed.

(** A map none of whose leaves is the default leaf. *)
Definition no_default_leaf (m : gmap bytes32 bytes32) : Prop :=
  forall k v, m !! k = Some v -> v <> empty_at 0.

Lemma sparse_root_inj m1 m2 :
  entries_ok m1 -> entries_ok m2 -> no_default_leaf m1 -> no_default_leaf m2 ->
  sparse_root m1 = sparse_root m2 ->
  m1 = m2 \/ exists key, key ∈ dom m1 ∪ dom m2 /\ collides (map_messages m1 key) (map_messages m2 key).
Proof.
  intros Hok1 Hok2 Hn1 Hn2 Heq.
  destruct (decide (Forall (fun k => m1 !! k = m2 !! k) (elements (dom m1 ∪ dom m2)))) as [Hall|Hex].
  - left. apply map_eq. intros k. rewrite Forall_forall in Hall.
    destruct (decide (k ∈ dom m1 ∪ dom m2)) as [Hin|Hin]; [by apply Hall, elem_of_elements|].
    apply not_elem_of_union in Hin as [H1%not_elem_of_dom H2%not_elem_of_dom]. congruence.
  - right. apply not_Forall_Exists in Hex; [|apply _]. apply Exists_exists in Hex as (k & Hin & Hne).
    change (m1 !! k <> m2 !! k) in Hne.
    assert (is32 k) as Hk.
    { apply elem_of_elements, elem_of_union in Hin as [[v Hv]%elem_of_dom|[v Hv]%elem_of_dom];
        [by apply Hok1 in Hv as []|by apply Hok2 in Hv as []]. }
    destruct (sparse_root_lookup m1 m2 k Hok1 Hok2 Hk Heq) as [Hd|];
      [|exists k; split; [by apply elem_of_elements|done]].
    destruct (m1 !! k) as [v1|] eqn:E1, (m2 !! k) as [v2|] eqn:E2; cbn [from_option id] in Hd.
    + by rewrite Hd in Hne.
    + by destruct (Hn1 _ _ E1).
    + by destruct (Hn2 _ _ E2).
    + done.
Qed.

(** ** Building a proof *)

Fixpoint bits_val (f : nat -> bool) (n : nat) : Z :=
  match n with
  | O => 0
  | S n => bits_val f n + Z.b2z (f n) * 2 ^ Z.of_nat n
  end.

Lemma bits_val_spec f n :
  0 <= bits_val f n < 2 ^ Z.of_nat n /\
  forall i, (i < n)%nat -> Z.testbit (bits_val f n) (Z.of_nat i) = f i.
Proof.
  induction n as [|n [IHr IH]]; cbn [bits_val]; [split; lia|].
  rewrite Nat2Z.inj_succ, Z.pow_succ_r by lia.
  split; [destruct (f n); cbn [Z.b2z]; lia|]. intros i Hi.
  rewrite <- lor_shift_add, Z.lor_spec, <- Z.shiftl_mul_pow2, Z.shiftl_spec by lia.
  destruct (decide (i = n)) as [->|].
  - rewrite (testbit_small (bits_val f n) (Z.of_nat n)), Z.sub_diag by lia. by destruct (f n).
  - rewrite IH, Z.testbit_neg_r, orb_false_r by lia. done.
Qed.

(** The prover: explicit siblings exactly where they differ from the default. *)
Definition compress_proof (sib : nat -> bytes32) : CompressedSmtProofV1 :=
  let bm := be_bytes 32 (bits_val (fun h => negb (bytes_eqb (sib h) (empty_at h))) 256) in
  {| bitmap := bm;
     nondefault_siblings := (fun d => sib (255 - d)%nat) <$> set_depths bm (seq 0 SMT_DEPTH) |}.

Lemma compress_bitmap sib d :
  (d < 256)%nat ->
  bitmap_set (bitmap (compress_proof sib)) d
  = negb (bytes_eqb (sib (255 - d)%nat) (empty_at (255 - d))).
Proof.
  intros Hd. cbn [compress_proof bitmap].
  destruct (bits_val_spec (fun h => negb (bytes_eqb (sib h) (empty_at h))) 256) as [Hr Hb].
  rewrite bitmap_set_testbit by (apply length_be_bytes || done).
  rewrite be_val_be_bytes by (change (256 ^ Z.of_nat 32) with (2 ^ Z.of_nat 256); exact Hr).
  replace (255 - Z.of_nat d) with (Z.of_nat (255 - d)) by lia. apply Hb. lia.
Qed.

Lemma compress_siblings sib j d :
  set_depths (bitmap (compress_proof sib)) (seq 0 SMT_DEPTH) !! j = Some d ->
  nth j (nondefault_siblings (compress_proof sib)) [] = sib (255 - d)%nat /\
  (d < 256)%nat /\ sib (255 - d)%nat <> empty_at (255 - d).
Proof.
  intros Hj. pose proof SMT_DEPTH_256.
  assert (Hin : d ∈ set_depths (bitmap (compress_proof sib)) (seq 0 SMT_DEPTH))
    by (by apply list_elem_of_lookup_2 in Hj).
  apply list_elem_of_filter in Hin as [Hb Hin%elem_of_seq].
  rewrite compress_bitmap in Hb by lia. bool_to_prop. split_and!; [|lia|done].
  apply nth_lookup_Some. cbn [compress_proof nondefault_siblings].
  rewrite list_lookup_fmap. cbn [compress_proof bitmap] in Hj. by rewrite Hj.
Qed.

Lemma compress_proof_ok sib :
  (forall h, (h < 256)%nat -> is32 (sib h)) -> proof_ok (compress_proof sib).
Proof.
  intros Hs. split; [apply length_be_bytes|]. apply Forall_forall. intros s Hin.
  cbn [compress_proof nondefault_siblings] in Hin.
  apply list_elem_of_fmap in Hin as (d & -> & Hd). apply Hs. lia.
Qed.

Lemma compress_accepted sib key leaf :
  is32 key -> (forall h, (h < 256)%nat -> is32 (sib h)) ->
  verify_compressed_proof key leaf (compress_proof sib) (climb sib (be_val key) leaf SMT_DEPTH)
  = Ok true.
Proof.
  intros Hk Hs. pose proof (compress_proof_ok sib Hs) as Hp. pose proof SMT_DEPTH_256 as HD.
  assert (bitmap_count (bitmap (compress_proof sib))
          = Z.of_nat (length (nondefault_siblings (compress_proof sib)))) as Hc.
  { rewrite bitmap_count_spec, (proj1 Hp). cbn [compress_proof nondefault_siblings bitmap].
    rewrite length_fmap. by replace SMT_DEPTH with (8 * 32)%nat by lia. }
  destruct (decompress_complete smt_empty_hashes (compress_proof sib) (seq 0 SMT_DEPTH) ∅ 0) as [bd Hbd].
  { intros j d Hj. cbn [Nat.add]. destruct (compress_siblings sib j d Hj) as (-> & Hd & Hne).
    rewrite smt_empty_hashes_nth by lia. by replace (SMT_DEPTH - 1 - d)%nat with (255 - d)%nat by lia. }
  apply verify_accepts; [done|]. exists bd. split_and!; [done..|]. apply climb_ext. intros h Hh.
  destruct (decompress_siblings _ bd Hp Hc Hbd) as (_ & H1 & H2). unfold sibling_at.
  assert (exists d, (d < 256)%nat /\ h = (255 - d)%nat) as (d & Hd & ->) by (exists (255 - h)%nat; lia).
  replace (255 - (255 - d))%nat with d by lia.
  destruct (decide (d ∈ set_depths (bitmap (compress_proof sib)) (seq 0 SMT_DEPTH))) as [Hin|Hin].
  - apply list_elem_of_lookup in Hin as [j Hj]. destruct (H1 j d Hj) as (-> & _).
    cbn [default]. by apply (compress_siblings sib j d).
  - rewrite H2 by done. cbn [default]. unfold set_depths in Hin. rewrite list_elem_of_filter in Hin.
    rewrite compress_bitmap in Hin by lia. destruct (bytes_eqb _ _) eqn:E; bool_to_prop; [done|].
    destruct Hin. split; [done|]. apply elem_of_seq. lia.
Qed.

End smt.

(** ** Properties *)

Section properties.
Context {SHA : Sha2}.

(** C33: the level-by-level [sparse_root] computes the root of the full
    256-level binary tree over the map's leaves, for every map of 32-byte keys
    and leaf hashes; on a one-entry map it agrees with [single_leaf_root]. *)
Theorem sparse_root_correct (entries : gmap bytes32 bytes32) key leaf :
  entries_ok entries -> is32 key -> is32 leaf ->
  sparse_root entries = smt_ref (leaves_of entries) SMT_DEPTH 0 /\
  single_leaf_root key leaf = sparse_root {[key := leaf]}.
Proof.
  intros Hok Hk Hl. split; [by apply sparse_root_ref|].
  assert (entries_ok {[key := leaf]}) as Hs by (by intros k v [<- <-]%lookup_singleton_Some).
  rewrite (sparse_root_climb _ key) by done.
  rewrite single_leaf_root_climb, lookup_singleton_eq by done.
  apply climb_ext. intros h Hh. pose proof SMT_DEPTH_256.
  symmetry. apply path_sibling_single; [done|lia].
Qed.

(** Soundness of compressed proofs.  If the verifier accepts a leaf for a
    key under the root of a map, then that leaf is what the map holds at the
    key (the default leaf when the key is absent), unless a message the
    verifier hashes collides with one hashed for the map's root on the path of
    the key. *)
Theorem verify_compressed_proof_sound entries key leaf proof :
  entries_ok entries -> is32 key -> is32 leaf -> proof_ok proof ->
  verify_compressed_proof key leaf proof (sparse_root entries) = Ok true ->
  default (empty_at 0) (entries !! key) = leaf \/
  collides (map_messages entries key) (proof_messages key leaf proof).
Proof.
  intros Hok Hk Hl Hp (bd & Hc & Hd & Hcl)%verify_accepts; [|done]. unfold map_messages, proof_messages. rewrite Hd.
  rewrite (sparse_root_climb entries key Hok Hk) in Hcl.
  apply climb_binding in Hcl as [[? _]|H]; [by left|right; by apply collides_sym|done| |].
  - pose proof (smt_ref_length entries 0 (be_val key) Hok) as Hr. cbn [smt_ref] in Hr.
    unfold leaves_of in Hr. by rewrite be_bytes_be_val in Hr.
  - intros h Hh. unfold path_sibling. rewrite smt_ref_length by done. by eapply sibling_at_length.
Qed.

(** Compressed proofs are not malleable.  Two proofs accepted for one key,
    leaf and root are equal, byte for byte, unless two of the messages the
    verifier hashes for them collide: explicit default siblings, missing siblings and reordered
    siblings are all refused. *)
Theorem verify_compressed_proof_unique key leaf root p1 p2 :
  is32 key -> is32 leaf -> proof_ok p1 -> proof_ok p2 ->
  verify_compressed_proof key leaf p1 root = Ok true ->
  verify_compressed_proof key leaf p2 root = Ok true ->
  p1 = p2 \/ collides (proof_messages key leaf p1) (proof_messages key leaf p2).
Proof.
  intros Hk Hl Hp1 Hp2 (bd1 & Hc1 & Hd1 & H1)%verify_accepts (bd2 & Hc2 & Hd2 & H2)%verify_accepts;
    [|done..]. unfold proof_messages. rewrite Hd1, Hd2.
  rewrite <- H2 in H1. apply climb_binding in H1 as [[_ Hs]|?]; [|by right|done|done|].
  - left. apply (proof_ext p1 p2 bd1 bd2); try done. intros d Hd. pose proof SMT_DEPTH_256.
    specialize (Hs (255 - d)%nat ltac:(lia)). by replace (255 - (255 - d))%nat with d in Hs by lia.
  - intros h Hh. by rewrite (sibling_at_length p1 bd1), (sibling_at_length p2 bd2).
Qed.

(** Completeness of compressed proofs.  For every map and every 32-byte
    key, present or absent, some well-formed proof convinces the verifier of
    exactly the leaf the map holds there. *)
Theorem verify_compressed_proof_complete entries key :
  entries_ok entries -> is32 key ->
  exists proof, proof_ok proof /\
    verify_compressed_proof key (default (empty_at 0) (entries !! key)) proof (sparse_root entries)
    = Ok true.
Proof.
  intros Hok Hk. set (sib := path_sibling (leaves_of entries) (be_val key)).
  assert (forall h, is32 (sib h)) by (intros h; apply smt_ref_length, Hok).
  exists (compress_proof sib). split; [by apply compress_proof_ok|].
  rewrite (sparse_root_climb entries key) by done. by apply compress_accepted.
Qed.
End properties.

#[export] Hint Rewrite @smt_node_length @empty_at_length : lens.
#[global] Opaque smt_empty_hashes.

(** The repository's Pack-C vectors for the default hashes, at the concrete
    SHA-256 ([pack_c_empty_hashes]). *)
Example pack_c_empty_hashes :
  empty_at 0 = hex "0e80585277a6e38f1478afaddb5ffd3251eb946d72234b24f47bb5e5f6f91f49" /\
  empty_at 1 = hex "17e6a00dee7dabc0ed5c8255247247bb8c653470731a78aea92d2343244d7456" /\
  empty_at 8 = hex "9ceed62f9738155788280db867756b23ac2aa5939f791ce6d17fc4dc31858c79".
Proof. vm_compute. repeat split. Qed.

(** ** A concrete two-leaf tree

    The verifier hashes some two thousand times on it; it is run with a small
    shift-and-add checksum in place of SHA-256, which the interface allows. *)

Definition checksum32 (m : bytes) : bytes :=
  be_bytes 32 (fold_left (fun h b => Z.land (Z.shiftl h 5 + h + Z_of_byte b) 0xffffffff) m 7).

Definition sha2_checksum : Sha2 :=
  {| sha256 := checksum32; sha256_length := fun m => length_be_bytes 32 _ |}.

Definition demo_k1 : bytes32 := replicate 32 Byte.x11.
Definition demo_k2 : bytes32 := replicate 31 Byte.x11 ++ [Byte.x13].
Definition demo_v1 : bytes32 := replicate 32 Byte.x01.
Definition demo_v2 : bytes32 := replicate 32 Byte.x02.
Definition demo_map : gmap bytes32 bytes32 := <[demo_k1 := demo_v1]> {[demo_k2 := demo_v2]}.

(** The only explicit sibling of [demo_k1] is at height 1: the leaf
    [demo_v2] and its empty neighbour. *)
Definition demo_proof : CompressedSmtProofV1 :=
  {| bitmap := replicate 31 Byte.x00 ++ [Byte.x02];
     nondefault_siblings := [smt_node (SHA := sha2_checksum) (empty_at (SHA := sha2_checksum) 0) demo_v2] |}.

Lemma demo_map_ok : entries_ok demo_map.
Proof.
  unfold demo_map.
  intros k v [[<- <-]|[_ [<- <-]%lookup_singleton_Some]]%lookup_insert_Some; done.
Qed.

Lemma demo_proof_ok : proof_ok demo_proof.
Proof. split; [done|]. constructor; [apply smt_node_length|constructor]. Qed.

Lemma demo_accepts :
  verify_compressed_proof (SHA := sha2_checksum) demo_k1 demo_v1 demo_proof
    (sparse_root (SHA := sha2_checksum) demo_map)
  = Ok true.
Proof. vm_compute. reflexivity. Qed.

Lemma sparse_root_correct_witness :
  sparse_root demo_map = smt_ref (leaves_of demo_map) SMT_DEPTH 0 /\
  single_leaf_root demo_k1 demo_v1 = sparse_root {[demo_k1 := demo_v1]}.
Proof. exact (sparse_root_correct demo_map demo_k1 demo_v1 demo_map_ok eq_refl eq_refl). Defined.

Lemma verify_compressed_proof_sound_witness :
  default (empty_at (SHA := sha2_checksum) 0) (demo_map !! demo_k1) = demo_v1 \/
  collides (SHA := sha2_checksum) (map_messages (SHA := sha2_checksum) demo_map demo_k1)
    (proof_messages (SHA := sha2_checksum) demo_k1 demo_v1 demo_proof).
Proof.
  exact (verify_compressed_proof_sound demo_map demo_k1 demo_v1 demo_proof
           demo_map_ok eq_refl eq_refl demo_proof_ok demo_accepts).
Defined.

Lemma verify_compressed_proof_unique_witness :
  demo_proof = demo_proof \/
  collides (SHA := sha2_checksum) (proof_messages (SHA := sha2_checksum) demo_k1 demo_v1 demo_proof)
    (proof_messages (SHA := sha2_checksum) demo_k1 demo_v1 demo_proof).
Proof.
  exact (verify_compressed_proof_unique demo_k1 demo_v1 (sparse_root (SHA := sha2_checksum) demo_map) demo_proof demo_proof
           eq_refl eq_refl demo_proof_ok demo_proof_ok demo_accepts demo_accepts).
Defined.

Lemma verify_compressed_proof_complete_witness :
  exists proof, proof_ok proof /\
    verify_compressed_proof demo_k2 (default (empty_at 0) (demo_map !! demo_k2)) proof
      (sparse_root demo_map) = Ok true.
Proof. exact (verify_compressed_proof_complete demo_map demo_k2 demo_map_ok eq_refl). Defined.
