(* ===== verification/P2p.v ===== *)
(** Crate [mutiny-p2p]: frames, their checksum, and the mutually
    authenticated handshake of two nodes.

    A TCP connection is a pair of byte streams.  What a peer does with its
    connection is a [session]: it writes bytes, reads an exact number of bytes
    and ends with a result; [run_session] plays a session against the bytes
    that the other side sends, and [net_step] runs two sessions against each
    other over a queue of bytes in each direction. *)

From Stdlib Require Import Strings.Byte Strings.String.
From S2P Require Import Prelude Crypto Smt.

(** ** Constants *)

Definition P2P_VERSION : Z := 1.
Definition P2P_MAGIC_MAINNET : Z := 0x4D55544D.
Definition P2P_MAGIC_TESTNET : Z := 0x4D555454.
Definition P2P_MAGIC_DEVNET : Z := 0x4D555444.
Definition MAX_P2P_PAYLOAD : Z := Z.shiftl 1 20.
Definition MSG_CHALLENGE : Z := 0x0001.
Definition MSG_HELLO : Z := 0x0002.
Definition MSG_HELLO_ACK : Z := 0x0003.
Definition MSG_PING : Z := 0x0004.
Definition MSG_PONG : Z := 0x0005.
Definition MSG_GET_ADDR : Z := 0x0006.
Definition MSG_ADDR : Z := 0x0007.
Definition MSG_GET_HEADERS : Z := 0x0010.
Definition MSG_HEADERS : Z := 0x0011.
Definition MSG_BLOCK_ANNOUNCE : Z := 0x0012.
Definition MSG_GET_BLOCK : Z := 0x0013.
Definition MSG_BLOCK : Z := 0x0014.
Definition MSG_WINNING_BLOCK : Z := 0x0015.
Definition MSG_TX_ANNOUNCE : Z := 0x0020.
Definition MSG_GET_TX : Z := 0x0021.
Definition MSG_TX : Z := 0x0022.
Definition MSG_DEVNET_TX_RESULT : Z := 0x7F06.
Definition MSG_DEVNET_BLOCK_RESULT : Z := 0x7F10.

Inductive P2pError :=
| Io | BadMagic | BadVersion | BadFlags | PayloadTooLarge | BadChecksum | UnexpectedMessage
| NetworkMismatch | NonceMismatch | BadPublicKey | BadSignature | BadHandshakeLength | BadNodeKey.

(** ** Sessions *)

(** [read_exact] and [write_all] on a stream, and the result of the function. *)
Inductive session (E A : Type) : Type :=
| Done (r : result E A)
| Write (bs : bytes) (k : session E A)
| Read (n : nat) (k : bytes -> session E A).
Arguments Done {E A} r.
Arguments Write {E A} bs k.
Arguments Read {E A} n k.

Fixpoint session_bind {E A B} (s : session E A) (f : A -> session E B) : session E B :=
  match s with
  | Done (Ok a) => f a
  | Done (Err e) => Done (Err e)
  | Write bs k => Write bs (session_bind k f)
  | Read n k => Read n (fun bs => session_bind (k bs) f)
  end.

Notation "'let!' p := c 'in' k" := (session_bind c (fun p => k))
  (at level 10, p pattern, c at level 100, k at level 200,
   format "'[v' 'let!'  p  :=  c  'in' '/' k ']'") : rust_scope.

(** The errors of a session as those of its caller. *)
Fixpoint session_map_err {E F A} (f : E -> F) (s : session E A) : session F A :=
  match s with
  | Done r => Done (map_err f r)
  | Write bs k => Write bs (session_map_err f k)
  | Read n k => Read n (fun bs => session_map_err f (k bs))
  end.

(** A session against the bytes [input] of the other side: its result, what it
    wrote and what it left unread.  Reading past the end of the stream is an
    error ([UnexpectedEof]), which the caller sees as [eof]. *)
Fixpoint play {E A} (eof : E) (s : session E A) (input : bytes) : result E A * bytes * bytes :=
  match s with
  | Done r => (r, [], input)
  | Write bs k => let '(r, out, rest) := play eof k input in (r, bs ++ out, rest)
  | Read n k =>
      if (length input <? n)%nat then (Err eof, [], input)
      else play eof (k (take n input)) (drop n input)
  end.

Abbreviation run_session := (play Io).

Section p2p.
Context {SHA : Sha2}.

(** ** Frames *)

Definition checksum4 (message_type : Z) (payload : bytes) : bytes :=
  take 4 (sha256_domain domains.P2P_CHECKSUM [be_bytes 2 message_type; payload]).

Definition node_id (pk : bytes32) : bytes32 := sha256_domain domains.NODE_ID [pk].

Record Frame := {
  fr_magic : Z;
  fr_version : Z;
  fr_message_type : Z;
  fr_flags : Z;
  fr_request_id : Z;
  fr_payload : bytes;
}.

Definition Frame_new (magic message_type request_id : Z) (payload : bytes) : result P2pError Frame :=
  if MAX_P2P_PAYLOAD <? Z.of_nat (length payload) then Err PayloadTooLarge
  else Ok {| fr_magic := magic; fr_version := P2P_VERSION; fr_message_type := message_type;
             fr_flags := 0; fr_request_id := request_id; fr_payload := payload |}.

Definition Frame_encode (f : Frame) : result P2pError bytes :=
  if MAX_P2P_PAYLOAD <? Z.of_nat (length (fr_payload f)) then Err PayloadTooLarge
  else
    let c := checksum4 (fr_message_type f) (fr_payload f) in
    Ok (be_bytes 4 (fr_magic f) ++ be_bytes 2 (fr_version f) ++ be_bytes 2 (fr_message_type f)
        ++ be_bytes 2 (fr_flags f) ++ be_bytes 4 (Z.of_nat (length (fr_payload f)) mod 2 ^ 32)
        ++ be_bytes 8 (fr_request_id f) ++ c ++ fr_payload f).

Definition Frame_write_to (f : Frame) : session P2pError unit :=
  match Frame_encode f with
  | Ok bs => Write bs (Done (Ok tt))
  | Err e => Done (Err e)
  end.

Definition Frame_read_from (expected_magic : Z) : session P2pError Frame :=
  Read 26 (fun h =>
    let magic := be_val (slice 0 4 h) in
    if negb (magic =? expected_magic) then Done (Err BadMagic)
    else
      let version := be_val (slice 4 6 h) in
      if negb (version =? P2P_VERSION) then Done (Err BadVersion)
      else
        let message_type := be_val (slice 6 8 h) in
        let flags := be_val (slice 8 10 h) in
        if negb (flags =? 0) then Done (Err BadFlags)
        else
          let len := be_val (slice 10 14 h) in
          if MAX_P2P_PAYLOAD <? len then Done (Err PayloadTooLarge)
          else
            let request_id := be_val (slice 14 22 h) in
            let expected := slice 22 26 h in
            Read (Z.to_nat len) (fun payload =>
              if negb (bytes_eqb (checksum4 message_type payload) expected)
              then Done (Err BadChecksum)
              else Done (Ok {| fr_magic := magic; fr_version := version;
                               fr_message_type := message_type; fr_flags := flags;
                               fr_request_id := request_id; fr_payload := payload |}))).

(** ** The handshake *)

Context {ED : Ed25519}.

Record PeerInfo := {
  pi_node_public_key : bytes32;
  pi_node_id : bytes32;
  pi_capabilities : Z;
  pi_selected_version : Z;
}.

(** What both sides sign: network, version, the capabilities, keys and nonces
    of initiator and responder. *)
Definition transcript (network version ca cb : Z) (pa pb na nb : bytes32) : bytes32 :=
  sha256_domain domains.P2P_HANDSHAKE
    [be_bytes 4 network; be_bytes 2 version; be_bytes 4 ca; be_bytes 4 cb; pa; pb; na; nb].

Definition verify (pk digest sig : bytes) : result P2pError unit :=
  if negb (vk_from_bytes pk) then Err BadPublicKey
  else if negb (vk_verify_strict pk digest sig) then Err BadSignature else Ok tt.

Definition hello_digest (t : bytes32) : bytes32 := sha256_domain domains.P2P_HELLO_SIGN [t].
Definition ack_digest (t : bytes32) : bytes32 := sha256_domain domains.P2P_ACK_SIGN [t].

Definition lift {E A} (r : result E A) : session E A := Done r.

(** The nonce that the operating system supplies is an argument. *)
Definition initiator_handshake (key : bytes32) (caps network magic : Z) (na : bytes32) : session P2pError PeerInfo :=
  let pa := sk_public key in
  let c := be_bytes 4 network ++ be_bytes 2 1 ++ be_bytes 2 1 ++ be_bytes 4 caps ++ pa ++ na in
  let! challenge := lift (Frame_new magic MSG_CHALLENGE 1 c) in
  let! _ := Frame_write_to challenge in
  let! f := Frame_read_from magic in
  if negb (fr_message_type f =? MSG_HELLO) || negb (length (fr_payload f) =? 170)%nat
  then Done (Err UnexpectedMessage)
  else
    let p := fr_payload f in
    if negb (be_val (slice 0 4 p) =? network) then Done (Err NetworkMismatch)
    else if negb (be_val (slice 4 6 p) =? 1) then Done (Err BadVersion)
    else
      let cb := be_val (slice 6 10 p) in
      let pb := slice 10 42 p in
      let echoed := slice 42 74 p in
      if negb (bytes_eqb echoed na) then Done (Err NonceMismatch)
      else
        let nb := slice 74 106 p in
        let sig := slice 106 170 p in
        let t := transcript network 1 caps cb pa pb na nb in
        let! _ := lift (verify pb (hello_digest t) sig) in
        let ack := be_bytes 4 network ++ be_bytes 2 1 ++ nb ++ sk_sign key (ack_digest t) in
        let! ack := lift (Frame_new magic MSG_HELLO_ACK 1 ack) in
        let! _ := Frame_write_to ack in
        Done (Ok {| pi_node_public_key := pb; pi_node_id := node_id pb; pi_capabilities := cb;
                    pi_selected_version := 1 |}).

Definition responder_handshake (key : bytes32) (caps network magic : Z) (nb : bytes32) : session P2pError PeerInfo :=
  let! f := Frame_read_from magic in
  if negb (fr_message_type f =? MSG_CHALLENGE) || negb (length (fr_payload f) =? 76)%nat
  then Done (Err UnexpectedMessage)
  else
    let p := fr_payload f in
    if negb (be_val (slice 0 4 p) =? network) then Done (Err NetworkMismatch)
    else
      let min := be_val (slice 4 6 p) in
      let max := be_val (slice 6 8 p) in
      if (1 <? min) || (max <? 1) then Done (Err BadVersion)
      else
        let ca := be_val (slice 8 12 p) in
        let pa := slice 12 44 p in
        if negb (vk_from_bytes pa) then Done (Err BadPublicKey)
        else
          let na := slice 44 76 p in
          let pb := sk_public key in
          let t := transcript network 1 ca caps pa pb na nb in
          let hello := be_bytes 4 network ++ be_bytes 2 1 ++ be_bytes 4 caps ++ pb ++ na ++ nb
                         ++ sk_sign key (hello_digest t) in
          let! hello := lift (Frame_new magic MSG_HELLO (fr_request_id f) hello) in
          let! _ := Frame_write_to hello in
          let! a := Frame_read_from magic in
          if negb (fr_message_type a =? MSG_HELLO_ACK) || negb (length (fr_payload a) =? 102)%nat
          then Done (Err UnexpectedMessage)
          else
            let q := fr_payload a in
            if negb (be_val (slice 0 4 q) =? network) then Done (Err NetworkMismatch)
            else
              let echoed := slice 6 38 q in
              if negb (bytes_eqb echoed nb) then Done (Err NonceMismatch)
              else
                let sig := slice 38 102 q in
                let! _ := lift (verify pa (ack_digest t) sig) in
                Done (Ok {| pi_node_public_key := pa; pi_node_id := node_id pa; pi_capabilities := ca;
                            pi_selected_version := 1 |}).
End p2p.

(** ** Sessions as stream functions *)

Section sessions.
Context {E A B : Type} (eof : E).
Implicit Types (s : session E A) (f : A -> session E B).

Lemma run_bind s f input :
  play eof (session_bind s f) input =
  match play eof s input with
  | (Ok a, out, rest) => let '(r, out', rest') := play eof (f a) rest in (r, out ++ out', rest')
  | (Err e, out, rest) => (Err e, out, rest)
  end.
Proof.
  revert input. induction s as [[a|e]|bs k IH|n k IH]; intros input; cbn [session_bind play].
  - by destruct (play eof (f a) input) as [[r out] rest].
  - done.
  - rewrite IH. destruct (play eof k input) as [[[a|e] out] rest]; [|done].
    destruct (play eof (f a) rest) as [[r out'] rest']. by rewrite app_assoc.
  - destruct (_ <? n)%nat; [done|]. apply IH.
Qed.

(** A session that succeeded ran each of its parts with success. *)
Lemma run_bind_ok s f input b out rest :
  play eof (session_bind s f) input = (Ok b, out, rest) <->
  exists a out1 rest1 out2, play eof s input = (Ok a, out1, rest1) /\
    play eof (f a) rest1 = (Ok b, out2, rest) /\ out = out1 ++ out2.
Proof.
  rewrite run_bind. split.
  - destruct (play eof s input) as [[[a|e] out1] rest1]; [|done].
    destruct (play eof (f a) rest1) as [[r out2] rest2] eqn:Ef. intros [= -> <- <-].
    by exists a, out1, rest1, out2.
  - by intros (a & out1 & rest1 & out2 & -> & -> & ->).
Qed.

Lemma run_seq s f input a out1 rest1 b out2 out rest :
  play eof s input = (Ok a, out1, rest1) -> play eof (f a) rest1 = (Ok b, out2, rest) ->
  out = out1 ++ out2 -> play eof (session_bind s f) input = (Ok b, out, rest).
Proof. intros H1 H2 ->. apply run_bind_ok. by exists a, out1, rest1, out2. Qed.

Lemma run_lift_ok (r : result E A) input a out rest :
  play eof (lift r) input = (Ok a, out, rest) <-> r = Ok a /\ out = [] /\ rest = input.
Proof. cbn. split; [by intros [= -> <- <-]|by intros (-> & -> & ->)]. Qed.
End sessions.

(** ** Two sessions on one connection

    A connection carries a queue of bytes in each direction.  A side writes to
    its outgoing queue and reads from its incoming one; a read waits until all
    the bytes it asks for are there.  The order in which the two sides step is
    not fixed. *)

Section connection.
Context {E A B : Type} (eof : E).

Inductive side_step {X} : session E X * bytes * bytes -> session E X * bytes * bytes -> Prop :=
| side_write bs k i o : side_step (Write bs k, i, o) (k, i, o ++ bs)
| side_read n k i o : (n <= length i)%nat -> side_step (Read n k, i, o) (k (take n i), drop n i, o).

(** Sessions of the two ends, the bytes on their way from the first to the
    second and those on their way back. *)
Abbreviation net := (session E A * session E B * bytes * bytes)%type.

Inductive net_step : net -> net -> Prop :=
| step_a sa sb ab ba sa' ab' ba' :
    side_step (sa, ba, ab) (sa', ba', ab') -> net_step (sa, sb, ab, ba) (sa', sb, ab', ba')
| step_b sa sb ab ba sb' ab' ba' :
    side_step (sb, ab, ba) (sb', ab', ba') -> net_step (sa, sb, ab, ba) (sa, sb', ab', ba').

(** A side that succeeds on the bytes of its queue can run alone. *)
Lemma net_play_a {C} (s : session E C) (k : C -> session E A) sb ab ba c out rest :
  play eof s ba = (Ok c, out, rest) ->
  rtc net_step (session_bind s k, sb, ab, ba) (k c, sb, ab ++ out, rest).
Proof.
  revert ab ba out. induction s as [[c'|e]|bs s IH|n s IH]; intros ab ba out H; cbn [play session_bind] in *.
  - injection H as -> <- <-. by rewrite app_nil_r.
  - done.
  - destruct (play eof s ba) as [[r o] rest'] eqn:Ep. injection H as -> <- ->.
    eapply rtc_l; [apply step_a, side_write|]. rewrite app_assoc. by apply IH.
  - destruct (Nat.ltb_spec (length ba) n); [done|].
    eapply rtc_l; [by apply step_a, side_read|]. by apply IH.
Qed.

Lemma net_play_b {C} sa (s : session E C) (k : C -> session E B) ab ba c out rest :
  play eof s ab = (Ok c, out, rest) ->
  rtc net_step (sa, session_bind s k, ab, ba) (sa, k c, rest, ba ++ out).
Proof.
  revert ab ba out. induction s as [[c'|e]|bs s IH|n s IH]; intros ab ba out H; cbn [play session_bind] in *.
  - injection H as -> <- <-. by rewrite app_nil_r.
  - done.
  - destruct (play eof s ab) as [[r o] rest'] eqn:Ep. injection H as -> <- ->.
    eapply rtc_l; [apply step_b, side_write|]. rewrite app_assoc. by apply IH.
  - destruct (Nat.ltb_spec (length ab) n); [done|].
    eapply rtc_l; [by apply step_b, side_read|]. by apply IH.
Qed.

Lemma net_done (ra : result E A) (rb : result E B) ab ba : nf net_step (Done ra, Done rb, ab, ba).
Proof. intros [c Hc]. inversion Hc as [??????? Hs|??????? Hs]; inversion Hs. Qed.

Lemma side_step_inv {X} (s : session E X) i o c :
  side_step (s, i, o) c ->
  (exists bs k, s = Write bs k /\ c = (k, i, o ++ bs)) \/
  (exists n k, s = Read n k /\ (n <= length i)%nat /\ c = (k (take n i), drop n i, o)).
Proof. inversion 1; subst; [left|right]; eauto 6. Qed.

(** A side only appends to the queue of the other, so their steps commute. *)
Lemma side_step_det {X} (c c1 c2 : session E X * bytes * bytes) :
  side_step c c1 -> side_step c c2 -> c1 = c2.
Proof. by inversion 1; inversion 1; subst. Qed.

Lemma net_diamond_ab sa sb ab ba sa' ab1 ba1 sb' ab2 ba2 :
  side_step (sa, ba, ab) (sa', ba1, ab1) -> side_step (sb, ab, ba) (sb', ab2, ba2) ->
  exists d, net_step (sa', sb, ab1, ba1) d /\ net_step (sa, sb', ab2, ba2) d.
Proof.
  intros [(bs & ka & -> & [= -> -> ->])|(n & ka & -> & Hn & [= -> -> ->])]%side_step_inv
    [(cs & kb & -> & [= -> -> ->])|(m & kb & -> & Hm & [= -> -> ->])]%side_step_inv.
  - eexists. split; [apply step_b, side_write|apply step_a, side_write].
  - exists (ka, kb (take m ab), drop m ab ++ bs, ba). split; [|apply step_a, side_write].
    rewrite <- (take_app_le ab bs m), <- drop_app_le by done. apply step_b, side_read. rewrite length_app. lia.
  - exists (ka (take n ba), kb, ab, drop n ba ++ cs). split; [apply step_b, side_write|].
    rewrite <- (take_app_le ba cs n), <- drop_app_le by done. apply step_a, side_read. rewrite length_app. lia.
  - eexists. split; [by apply step_b, side_read|by apply step_a, side_read].
Qed.

Lemma net_diamond c c1 c2 :
  net_step c c1 -> net_step c c2 -> c1 = c2 \/ exists d, net_step c1 d /\ net_step c2 d.
Proof.
  intros H1 H2. destruct H1 as [sa sb ab ba sa' ab' ba' H1|sa sb ab ba sb' ab' ba' H1].
  - inversion H2 as [??????? H|??????? H]; subst; [left|right; by eapply net_diamond_ab].
    by injection (side_step_det _ _ _ H1 H) as -> -> ->.
  - inversion H2 as [??????? H|??????? H]; subst; [right|left].
    + destruct (net_diamond_ab _ _ _ _ _ _ _ _ _ _ H H1) as (d & ? & ?). by exists d.
    + by injection (side_step_det _ _ _ H1 H) as -> -> ->.
Qed.

(** So one execution to the end decides all of them. *)
Lemma net_step_final c c1 f : rtc net_step c f -> nf net_step f -> net_step c c1 -> rtc net_step c1 f.
Proof.
  intros Hf Hn. revert c1. induction Hf as [f|c c' f Hc Hf IH]; intros c1 H1; [by destruct Hn; exists c1|].
  destruct (net_diamond _ _ _ Hc H1) as [<-|(d & Hd & Hd')]; [done|]. eapply rtc_l; [exact Hd'|]. by apply IH.
Qed.

Lemma net_confluent start f :
  nf net_step f -> rtc net_step start f -> forall c, rtc net_step start c -> rtc net_step c f.
Proof.
  intros Hn Hf c Hc. revert Hf. induction Hc as [c|c c1 c2 H1 _ IH]; [done|].
  intros Hf. apply IH. by eapply net_step_final.
Qed.

(** Every step takes an action off one of the two sessions. *)
Lemma net_terminates c : sn net_step c.
Proof.
  destruct c as [[[sa sb] ab] ba]. revert sb ab ba.
  induction sa as [ra|bs sa IHa|n sa IHa]; intros sb; induction sb as [rb|cs sb IHb|m sb IHb]; intros ab ba;
    constructor; intros c Hc; inversion Hc as [??????? H|??????? H]; subst; inversion H; subst; auto.
Qed.
End connection.

Section frames.
Context {SHA : Sha2}.

Definition frame_wf (f : Frame) : Prop :=
  is_u32 (fr_magic f) /\ fr_version f = P2P_VERSION /\ is_u16 (fr_message_type f) /\ fr_flags f = 0 /\
  is_u64 (fr_request_id f) /\ Z.of_nat (length (fr_payload f)) <= MAX_P2P_PAYLOAD.

Lemma checksum4_length ty p : length (checksum4 ty p) = 4%nat.
Proof. unfold checksum4. rewrite length_take, sha256_domain_length. lia. Qed.
#[local] Hint Rewrite checksum4_length : lens.

Definition frame_bytes (f : Frame) : bytes :=
  be_bytes 4 (fr_magic f) ++ be_bytes 2 (fr_version f) ++ be_bytes 2 (fr_message_type f)
  ++ be_bytes 2 (fr_flags f) ++ be_bytes 4 (Z.of_nat (length (fr_payload f)))
  ++ be_bytes 8 (fr_request_id f) ++ checksum4 (fr_message_type f) (fr_payload f).

Lemma frame_encode_eq f bs :
  Frame_encode f = Ok bs <->
  Z.of_nat (length (fr_payload f)) <= MAX_P2P_PAYLOAD /\ bs = frame_bytes f ++ fr_payload f.
Proof.
  unfold Frame_encode, frame_bytes. change MAX_P2P_PAYLOAD with 1048576.
  destruct (Z.ltb_spec 1048576 (Z.of_nat (length (fr_payload f)))); [split; [done|lia]|].
  rewrite Z.mod_small by lia. rewrite <- !app_assoc.
  split; [by intros <-%Ok_inj|by intros [_ ->]].
Qed.

Lemma frame_bytes_length f : length (frame_bytes f) = 26%nat.
Proof. unfold frame_bytes. rewrite !length_app, !length_be_bytes, checksum4_length. done. Qed.

Lemma run_write_to f bs input :
  Frame_encode f = Ok bs -> run_session (Frame_write_to f) input = (Ok tt, bs, input).
Proof. unfold Frame_write_to. intros ->. cbn. by rewrite app_nil_r. Qed.


Lemma split_header (h : bytes) :
  length h = 26%nat ->
  h = slice 0 4 h ++ slice 4 6 h ++ slice 6 8 h ++ slice 8 10 h ++ slice 10 14 h ++ slice 14 22 h ++ slice 22 26 h.
Proof. intros Hl. rewrite !slice_take_drop by lia. symmetry. by apply slice_whole. Qed.

(** Reading a frame inverts encoding one, and accepts nothing else. *)
Lemma run_read_from magic input f out rest :
  run_session (Frame_read_from magic) input = (Ok f, out, rest) <->
  frame_wf f /\ fr_magic f = magic /\ out = [] /\ input = (frame_bytes f ++ fr_payload f) ++ rest.
Proof.
  unfold Frame_read_from. cbn [play]. split.
  - destruct (Nat.ltb_spec (length input) 26) as [|Hl]; [done|].
    assert (length (take 26 input) = 26%nat) as Hh by (rewrite length_take; lia).
    pose proof (split_header _ Hh) as Hs. pose proof (take_drop 26 input) as Hi.
    revert Hh Hs Hi. generalize (take 26 input) (drop 26 input). intros h tail Hh Hs <-. clear Hl.
    destruct (negb _) eqn:E1; [done|]. destruct (negb _) eqn:E2 in |- *; [done|].
    destruct (negb _) eqn:E3 in |- *; [done|]. destruct (_ <? _) eqn:E4; [done|]. cbn [play].
    destruct (Nat.ltb_spec (length tail) (Z.to_nat (be_val (slice 10 14 h)))) as [|Hl]; [done|].
    destruct (negb _) eqn:E5 in |- *; [done|]. cbn [play]. intros [= <- <- <-]. bool_to_prop.
    assert (forall i j, (i <= j <= 26)%nat -> 0 <= be_val (slice i j h) < 256 ^ Z.of_nat (j - i)) as Hr.
    { intros i j Hij. apply be_val_range. apply length_slice; lia. }
    assert (is_u32 (be_val (slice 0 4 h)) /\ is_u16 (be_val (slice 6 8 h)) /\ is_u32 (be_val (slice 10 14 h)) /\
            is_u64 (be_val (slice 14 22 h))) as (R1 & R2 & R3 & R4) by (split_and!; apply Hr; lia).
    split_and!; try done.
    + unfold frame_wf. cbn [fr_magic fr_version fr_message_type fr_flags fr_request_id fr_payload].
      rewrite length_take. split_and!; try done; lia.
    + unfold frame_bytes. cbn [fr_magic fr_version fr_message_type fr_flags fr_request_id fr_payload].
      rewrite E5, length_take, Nat.min_l, Z2Nat.id by lia.
      rewrite !be_bytes_be_val by (rewrite length_slice; lia).
      rewrite <- Hs, <- app_assoc, take_drop. done.
  - intros ((H1 & H2 & H3 & H4 & H5 & H6) & Hm & -> & ->). rewrite <- app_assoc.
    pose proof (frame_bytes_length f) as Hl.
    destruct (Nat.ltb_spec (length (frame_bytes f ++ fr_payload f ++ rest)) 26); [rewrite length_app in *; lia|].
    rewrite take_app_exact, drop_app_exact by done. clear Hl H.
    unfold frame_bytes. slice_norm. rewrite (slice_whole 4) by apply checksum4_length.
    change MAX_P2P_PAYLOAD with 1048576 in *. rewrite H2, H4, Hm in *.
    rewrite !be_val_be_bytes by (done || (cbn; lia)). rewrite Z.eqb_refl. cbn [negb Z.eqb P2P_VERSION Pos.eqb].
    destruct (Z.ltb_spec 1048576 (Z.of_nat (length (fr_payload f)))); [lia|]. cbn [play].
    rewrite Nat2Z.id. destruct (Nat.ltb_spec (length (fr_payload f ++ rest)) (length (fr_payload f)));
      [rewrite length_app in *; lia|].
    rewrite take_app_length, drop_app_length, bytes_eqb_refl. cbn. destruct f. by cbn in *; subst.
Qed.
End frames.

(** ** The handshake authenticates both sides *)

Section handshake.
Context {SHA : Sha2} {ED : Ed25519}.

(** What a handshake is about. *)
Record Params := {
  hp_network : Z; hp_version : Z; hp_ca : Z; hp_cb : Z;
  hp_pa : bytes32; hp_pb : bytes32; hp_na : bytes32; hp_nb : bytes32;
}.

Definition params_wf (p : Params) : Prop :=
  is_u32 (hp_network p) /\ is_u16 (hp_version p) /\ is_u32 (hp_ca p) /\ is_u32 (hp_cb p) /\
  is32 (hp_pa p) /\ is32 (hp_pb p) /\ is32 (hp_na p) /\ is32 (hp_nb p).

Definition params_transcript (p : Params) : bytes32 :=
  transcript (hp_network p) (hp_version p) (hp_ca p) (hp_cb p) (hp_pa p) (hp_pb p) (hp_na p) (hp_nb p).

Lemma params_transcript_v1 p :
  hp_version p = 1 ->
  transcript (hp_network p) 1 (hp_ca p) (hp_cb p) (hp_pa p) (hp_pb p) (hp_na p) (hp_nb p) = params_transcript p.
Proof. unfold params_transcript. by intros ->. Qed.

(** The signed messages, byte by byte: the transcript of all parameters under
    the handshake domain, and its digest under the domain of the role that
    signs. *)
Definition transcript_message (p : Params) : bytes :=
  domains.P2P_HANDSHAKE ++ be_bytes 4 (hp_network p) ++ be_bytes 2 (hp_version p) ++ be_bytes 4 (hp_ca p)
  ++ be_bytes 4 (hp_cb p) ++ hp_pa p ++ hp_pb p ++ hp_na p ++ hp_nb p.

Definition hello_message (p : Params) : bytes := domains.P2P_HELLO_SIGN ++ sha256 (transcript_message p).
Definition ack_message (p : Params) : bytes := domains.P2P_ACK_SIGN ++ sha256 (transcript_message p).

Lemma params_transcript_eq p : params_transcript p = sha256 (transcript_message p).
Proof.
  unfold params_transcript, transcript, sha256_domain, transcript_message. cbn [concat].
  by rewrite app_nil_r.
Qed.

Lemma hello_digest_eq p : hello_digest (params_transcript p) = sha256 (hello_message p).
Proof.
  unfold hello_digest, sha256_domain, hello_message. cbn [concat]. by rewrite app_nil_r, params_transcript_eq.
Qed.

Lemma ack_digest_eq p : ack_digest (params_transcript p) = sha256 (ack_message p).
Proof.
  unfold ack_digest, sha256_domain, ack_message. cbn [concat]. by rewrite app_nil_r, params_transcript_eq.
Qed.

Lemma transcript_binds p q :
  params_wf p -> params_wf q -> transcript_message p = transcript_message q -> p = q.
Proof.
  intros (P1 & P2 & P3 & P4 & P5 & P6 & P7 & P8) (Q1 & Q2 & Q3 & Q4 & Q5 & Q6 & Q7 & Q8) H.
  unfold transcript_message in H. apply app_inv_head in H.
  apply app_inj_len in H as [H1 H]; [|len]. apply app_inj_len in H as [H2 H]; [|len].
  apply app_inj_len in H as [H3 H]; [|len]. apply app_inj_len in H as [H4 H]; [|len].
  apply app_inj_len in H as [H5 H]; [|len]. apply app_inj_len in H as [H6 H]; [|len].
  apply app_inj_len in H as [H7 H]; [|len].
  apply be_bytes_inj in H1, H2, H3, H4; [|done..]. destruct p, q. cbn in *. by subst.
Qed.

(** Under one role, equal digests mean equal parameters. *)
Lemma role_binds d p q :
  params_wf p -> params_wf q ->
  sha256 (d ++ sha256 (transcript_message p)) = sha256 (d ++ sha256 (transcript_message q)) ->
  p = q \/ collides [d ++ sha256 (transcript_message p); transcript_message p]
                    [d ++ sha256 (transcript_message q); transcript_message q].
Proof.
  intros Hp Hq [H|Hc]%sha256_inj_or; [|right; more_messages Hc].
  apply app_inv_head, sha256_inj_or in H as [H|Hc]; [left; by apply transcript_binds|right; more_messages Hc].
Qed.

(** The messages of the two roles differ. *)
Lemma hello_ack_separated p q :
  sha256 (hello_message p) = sha256 (ack_message q) -> collides [hello_message p] [ack_message q].
Proof.
  intros [H|?]%sha256_inj_or; [|done]. exfalso. unfold hello_message, ack_message in H.
  apply (f_equal (take 14)) in H. vm_compute in H. discriminate H.
Qed.

Lemma verify_ok pk digest sig : verify pk digest sig = Ok tt <-> vk_from_bytes pk = true /\ vk_verify_strict pk digest sig = true.
Proof. unfold verify. destruct (vk_from_bytes pk), (vk_verify_strict pk digest sig); cbn; intuition done. Qed.

(** *** Messages *)

Definition challenge_payload (p : Params) : bytes :=
  be_bytes 4 (hp_network p) ++ be_bytes 2 1 ++ be_bytes 2 1 ++ be_bytes 4 (hp_ca p) ++ hp_pa p ++ hp_na p.

Definition hello_payload (p : Params) (sig : bytes) : bytes :=
  be_bytes 4 (hp_network p) ++ be_bytes 2 1 ++ be_bytes 4 (hp_cb p) ++ hp_pb p ++ hp_na p ++ hp_nb p ++ sig.

Definition ack_payload (p : Params) (sig : bytes) : bytes :=
  be_bytes 4 (hp_network p) ++ be_bytes 2 1 ++ hp_nb p ++ sig.

Definition message (magic ty id : Z) (payload : bytes) : Frame :=
  {| fr_magic := magic; fr_version := P2P_VERSION; fr_message_type := ty; fr_flags := 0;
     fr_request_id := id; fr_payload := payload |}.

Definition wire (f : Frame) : bytes := frame_bytes f ++ fr_payload f.

Lemma message_new magic ty id payload :
  (length payload <= 170)%nat -> Frame_new magic ty id payload = Ok (message magic ty id payload).
Proof.
  intros Hl. unfold Frame_new. change MAX_P2P_PAYLOAD with 1048576.
  destruct (Z.ltb_spec 1048576 (Z.of_nat (length payload))); [lia|done].
Qed.

Lemma message_write magic ty id payload input :
  (length payload <= 170)%nat ->
  run_session (Frame_write_to (message magic ty id payload)) input = (Ok tt, wire (message magic ty id payload), input).
Proof.
  intros Hl. apply run_write_to, frame_encode_eq. split; [|done]. cbn [message fr_payload].
  change MAX_P2P_PAYLOAD with 1048576. lia.
Qed.

Lemma message_read magic ty id payload rest :
  is_u32 magic -> is_u16 ty -> is_u64 id -> (length payload <= 170)%nat ->
  run_session (Frame_read_from magic) (wire (message magic ty id payload) ++ rest)
  = (Ok (message magic ty id payload), [], rest).
Proof.
  intros H1 H2 H3 Hl. apply run_read_from. split_and!; try done. unfold frame_wf. cbn [message fr_magic fr_version
    fr_message_type fr_flags fr_request_id fr_payload]. split_and!; try done; try lia.
  change MAX_P2P_PAYLOAD with 1048576. lia.
Qed.


Lemma challenge_fields p :
  params_wf p ->
  length (challenge_payload p) = 76%nat /\ be_val (slice 0 4 (challenge_payload p)) = hp_network p /\
  be_val (slice 4 6 (challenge_payload p)) = 1 /\ be_val (slice 6 8 (challenge_payload p)) = 1 /\
  be_val (slice 8 12 (challenge_payload p)) = hp_ca p /\ slice 12 44 (challenge_payload p) = hp_pa p /\
  slice 44 76 (challenge_payload p) = hp_na p.
Proof.
  intros (P1 & P2 & P3 & P4 & P5 & P6 & P7 & P8). unfold challenge_payload. split; [len|].
  slice_norm. rewrite slice_whole, !be_val_be_bytes by done. done.
Qed.

Lemma hello_fields p sig :
  params_wf p -> length sig = 64%nat ->
  length (hello_payload p sig) = 170%nat /\ be_val (slice 0 4 (hello_payload p sig)) = hp_network p /\
  be_val (slice 4 6 (hello_payload p sig)) = 1 /\ be_val (slice 6 10 (hello_payload p sig)) = hp_cb p /\
  slice 10 42 (hello_payload p sig) = hp_pb p /\ slice 42 74 (hello_payload p sig) = hp_na p /\
  slice 74 106 (hello_payload p sig) = hp_nb p /\ slice 106 170 (hello_payload p sig) = sig.
Proof.
  intros (P1 & P2 & P3 & P4 & P5 & P6 & P7 & P8) Hs. unfold hello_payload. split; [len|].
  slice_norm. rewrite slice_whole, !be_val_be_bytes by done. done.
Qed.

Lemma ack_fields p sig :
  params_wf p -> length sig = 64%nat ->
  length (ack_payload p sig) = 102%nat /\ be_val (slice 0 4 (ack_payload p sig)) = hp_network p /\
  slice 6 38 (ack_payload p sig) = hp_nb p /\ slice 38 102 (ack_payload p sig) = sig.
Proof.
  intros (P1 & P2 & P3 & P4 & P5 & P6 & P7 & P8) Hs. unfold ack_payload. split; [len|].
  slice_norm. rewrite slice_whole, !be_val_be_bytes by done. done.
Qed.

Definition peer_b (p : Params) : PeerInfo :=
  {| pi_node_public_key := hp_pb p; pi_node_id := node_id (hp_pb p); pi_capabilities := hp_cb p;
     pi_selected_version := 1 |}.
Definition peer_a (p : Params) : PeerInfo :=
  {| pi_node_public_key := hp_pa p; pi_node_id := node_id (hp_pa p); pi_capabilities := hp_ca p;
     pi_selected_version := 1 |}.

Definition challenge_wire (magic : Z) (p : Params) : bytes :=
  wire (message magic MSG_CHALLENGE 1 (challenge_payload p)).
Definition hello_wire (magic : Z) (p : Params) (sig : bytes) : bytes :=
  wire (message magic MSG_HELLO 1 (hello_payload p sig)).
Definition ack_wire (magic : Z) (p : Params) (sig : bytes) : bytes :=
  wire (message magic MSG_HELLO_ACK 1 (ack_payload p sig)).

(** *** The two sides together *)

Lemma honest_ack_verifies key p :
  hp_pa p = sk_public key ->
  verify (hp_pa p) (ack_digest (params_transcript p)) (sk_sign key (ack_digest (params_transcript p))) = Ok tt.
Proof. intros ->. apply verify_ok. split; [apply sk_public_valid|apply sk_sign_verify_strict]. Qed.

Lemma honest_hello_verifies key p :
  hp_pb p = sk_public key ->
  verify (hp_pb p) (hello_digest (params_transcript p)) (sk_sign key (hello_digest (params_transcript p))) = Ok tt.
Proof. intros ->. apply verify_ok. split; [apply sk_public_valid|apply sk_sign_verify_strict]. Qed.

Section scheduled.
Context (ka kb : bytes) (p : Params) (magic : Z).
Context (Hp : params_wf p) (Hm : is_u32 magic) (Hv : hp_version p = 1).
Context (Ha : hp_pa p = sk_public ka) (Hb : hp_pb p = sk_public kb).

(** A side sends a message, or takes the one that waits for it. *)
Lemma initiator_sends (s k : session P2pError PeerInfo) ty payload ab ba :
  (length payload <= 170)%nat ->
  rtc net_step (let! m := lift (Frame_new magic ty 1 payload) in let! _ := Frame_write_to m in k, s, ab, ba)
    (k, s, ab ++ wire (message magic ty 1 payload), ba).
Proof using.
  intros Hl. rewrite message_new by done. cbn [lift session_bind].
  eapply (net_play_a Io _ (fun _ => k)). by apply message_write.
Qed.

Lemma responder_sends (s k : session P2pError PeerInfo) ty payload ab ba :
  (length payload <= 170)%nat ->
  rtc net_step (s, let! m := lift (Frame_new magic ty 1 payload) in let! _ := Frame_write_to m in k, ab, ba)
    (s, k, ab, ba ++ wire (message magic ty 1 payload)).
Proof using.
  intros Hl. rewrite message_new by done. cbn [lift session_bind].
  eapply (net_play_b Io _ _ (fun _ => k)). by apply message_write.
Qed.

Lemma initiator_receives (s : session P2pError PeerInfo) (k : Frame -> session P2pError PeerInfo) ty payload ab :
  is_u16 ty -> (length payload <= 170)%nat ->
  rtc net_step (let! f := Frame_read_from magic in k f, s, ab, wire (message magic ty 1 payload))
    (k (message magic ty 1 payload), s, ab, []).
Proof using Hm.
  intros Ht Hl. rewrite <- (app_nil_r ab) at 2. apply (net_play_a Io).
  rewrite <- (app_nil_r (wire _)). by apply message_read.
Qed.

Lemma responder_receives (s : session P2pError PeerInfo) (k : Frame -> session P2pError PeerInfo) ty payload ba :
  is_u16 ty -> (length payload <= 170)%nat ->
  rtc net_step (s, let! f := Frame_read_from magic in k f, wire (message magic ty 1 payload), ba)
    (s, k (message magic ty 1 payload), [], ba).
Proof using Hm.
  intros Ht Hl. rewrite <- (app_nil_r ba) at 2. apply (net_play_b Io).
  rewrite <- (app_nil_r (wire _)). by apply message_read.
Qed.

(** One execution: challenge, HELLO, ACK. *)
Lemma handshake_schedule :
  rtc net_step
    (initiator_handshake ka (hp_ca p) (hp_network p) magic (hp_na p),
     responder_handshake kb (hp_cb p) (hp_network p) magic (hp_nb p), [], [])
    (Done (Ok (peer_b p)), Done (Ok (peer_a p)), [], []).
Proof using Hp Hm Hv Ha Hb.
  destruct (challenge_fields p Hp) as (Hc & C1 & C2 & C3 & C4 & C5 & C6).
  destruct (hello_fields p (sk_sign kb (hello_digest (params_transcript p))) Hp (sk_sign_length _ _)) as (Hh & F1 & F2 & F3 & F4 & F5 & F6 & F7).
  destruct (ack_fields p (sk_sign ka (ack_digest (params_transcript p))) Hp (sk_sign_length _ _)) as (Hk & A1 & A2 & A3).
  assert (vk_from_bytes (hp_pa p) = true) as Hvk by (rewrite Ha; apply sk_public_valid).
  pose proof (params_transcript_v1 p Hv) as Ht.
  unfold initiator_handshake at 1. rewrite <- Ha. fold (challenge_payload p).
  etrans; [apply initiator_sends; lia|]. rewrite app_nil_l.
  unfold responder_handshake. rewrite <- Hb.
  etrans; [apply responder_receives; (done || lia)|].
  cbn [message fr_message_type fr_payload fr_request_id].
  rewrite Hc, C1, C2, C3, C4, C5, C6, !Z.eqb_refl, Hvk.
  cbn [Z.eqb Z.ltb Z.compare MSG_CHALLENGE negb orb Nat.eqb Pos.eqb Pos.compare Pos.compare_cont].
  rewrite Ht. fold (hello_payload p (sk_sign kb (hello_digest (params_transcript p)))).
  etrans; [apply responder_sends; lia|]. rewrite app_nil_l.
  etrans; [apply initiator_receives; (done || lia)|].
  cbn [message fr_message_type fr_payload].
  rewrite Hh, F1, F2, F3, F4, F5, F6, F7, !Z.eqb_refl, bytes_eqb_refl.
  cbn [Z.eqb MSG_HELLO negb orb Nat.eqb Pos.eqb]. rewrite Ht.
  rewrite (honest_hello_verifies kb p Hb). cbn [lift session_bind]. fold (ack_payload p (sk_sign ka (ack_digest (params_transcript p)))).
  etrans; [apply initiator_sends; lia|]. rewrite app_nil_l.
  etrans; [apply responder_receives; (done || lia)|].
  cbn [message fr_message_type fr_payload]. rewrite Hk, A1, A2, A3, !Z.eqb_refl, bytes_eqb_refl.
  cbn [Z.eqb MSG_HELLO_ACK negb orb Nat.eqb Pos.eqb].
  rewrite (honest_ack_verifies ka p Ha). done.
Qed.
End scheduled.

(** *** What a completed handshake proves *)

(** A session that sends a message first, and succeeds. *)
Lemma run_send magic ty id payload (k : session P2pError PeerInfo) input info out rest :
  (length payload <= 170)%nat ->
  run_session (let! m := lift (Frame_new magic ty id payload) in let! _ := Frame_write_to m in k) input
    = (Ok info, out, rest) ->
  exists out', run_session k input = (Ok info, out', rest) /\ out = wire (message magic ty id payload) ++ out'.
Proof.
  intros Hl H. rewrite message_new in H by done. apply run_bind_ok in H as (m & o & r & o' & H1 & H & ->).
  apply run_lift_ok in H1 as ([= <-] & -> & ->). apply run_bind_ok in H as (u & o1 & r1 & o2 & H1 & H & ->).
  rewrite message_write in H1 by done. injection H1 as <- <- <-. by exists o2.
Qed.

Lemma run_receive magic (k : Frame -> session P2pError PeerInfo) input info out rest :
  run_session (let! f := Frame_read_from magic in k f) input = (Ok info, out, rest) ->
  exists f rest1, run_session (k f) rest1 = (Ok info, out, rest).
Proof.
  intros H. apply run_bind_ok in H as (f & o & r & o' & H1 & H & ->).
  apply run_read_from in H1 as (_ & _ & -> & _). by exists f, r.
Qed.

Lemma run_check (r : result P2pError unit) (k : session P2pError PeerInfo) input info out rest :
  run_session (let! _ := lift r in k) input = (Ok info, out, rest) ->
  r = Ok tt /\ run_session k input = (Ok info, out, rest).
Proof.
  intros H. apply run_bind_ok in H as ([] & o & r1 & o' & H1 & H & ->).
  by apply run_lift_ok in H1 as (-> & -> & ->).
Qed.

Lemma initiator_sound key caps network magic na input info out rest :
  run_session (initiator_handshake key caps network magic na) input = (Ok info, out, rest) ->
  is_u32 network -> is_u32 caps -> is32 na ->
  exists p sig, params_wf p /\ hp_network p = network /\ hp_version p = 1 /\ hp_ca p = caps /\
    hp_pa p = sk_public key /\ hp_na p = na /\ info = peer_b p /\
    verify (hp_pb p) (hello_digest (params_transcript p)) sig = Ok tt /\
    out = challenge_wire magic p ++ ack_wire magic p (sk_sign key (ack_digest (params_transcript p))).
Proof.
  unfold initiator_handshake. intros H Hn Hc Hna.
  apply run_send in H as (out1 & H & ->); [|rewrite !length_app, !length_be_bytes, sk_public_length; lia].
  apply run_receive in H as (f & rest1 & H).
  destruct (negb (fr_message_type f =? MSG_HELLO) || _) eqn:E1; [done|].
  destruct (negb (_ =? network)) eqn:E2; [done|]. destruct (negb (_ =? 1)) eqn:E3; [done|].
  destruct (negb (bytes_eqb _ na)) eqn:E4; [done|]. apply orb_false_iff in E1 as [_ Hl]. bool_to_prop.
  apply run_check in H as [Hv H]. set (q := fr_payload f) in *.
  assert (forall i j, (i <= j <= 170)%nat -> length (slice i j q) = (j - i)%nat) as Hsl
    by (intros i j Hij; apply length_slice; lia).
  apply run_send in H as (out2 & H & ->);
    [|rewrite !length_app, !length_be_bytes, sk_sign_length, (Hsl 74 106)%nat; lia].
  cbn in H. injection H as <- <- _.
  exists {| hp_network := network; hp_version := 1; hp_ca := caps; hp_cb := be_val (slice 6 10 q);
            hp_pa := sk_public key; hp_pb := slice 10 42 q; hp_na := na; hp_nb := slice 74 106 q |},
    (slice 106 170 q).
  split_and!; try done; [|by rewrite app_nil_r].
  unfold params_wf. cbn [hp_network hp_version hp_ca hp_cb hp_pa hp_pb hp_na hp_nb].
  refine (conj Hn (conj _ (conj Hc (conj _ (conj (sk_public_length _) (conj _ (conj Hna _)))))));
    [done|apply (be_val_range 4), (Hsl 6 10)%nat; lia|apply Hsl; lia|apply Hsl; lia].
Qed.

Lemma responder_sound key caps network magic nb input info out rest :
  run_session (responder_handshake key caps network magic nb) input = (Ok info, out, rest) ->
  is_u32 network -> is_u32 caps -> is32 nb ->
  exists p id sig, params_wf p /\ hp_network p = network /\ hp_version p = 1 /\ hp_cb p = caps /\
    hp_pb p = sk_public key /\ hp_nb p = nb /\ info = peer_a p /\
    verify (hp_pa p) (ack_digest (params_transcript p)) sig = Ok tt /\
    out = wire (message magic MSG_HELLO id (hello_payload p (sk_sign key (hello_digest (params_transcript p))))).
Proof.
  unfold responder_handshake. intros H Hn Hc Hnb. apply run_receive in H as (f & rest1 & H).
  destruct (negb (fr_message_type f =? MSG_CHALLENGE) || _) eqn:E1; [done|].
  destruct (negb (_ =? network)) eqn:E2; [done|]. destruct ((1 <? _) || _) eqn:E3; [done|].
  destruct (negb (vk_from_bytes _)) eqn:E4; [done|]. apply orb_false_iff in E1 as [_ Hl]. bool_to_prop.
  set (q := fr_payload f) in *.
  assert (forall i j, (i <= j <= 76)%nat -> length (slice i j q) = (j - i)%nat) as Hsl
    by (intros i j Hij; apply length_slice; lia).
  apply run_send in H as (out1 & H & ->);
    [|rewrite !length_app, !length_be_bytes, sk_public_length, sk_sign_length, (Hsl 44 76)%nat; lia].
  apply run_receive in H as (a & rest2 & H).
  destruct (negb (fr_message_type a =? MSG_HELLO_ACK) || _) eqn:E5; [done|].
  destruct (negb (_ =? network)) eqn:E6; [done|]. destruct (negb (bytes_eqb _ nb)) eqn:E7; [done|].
  apply run_check in H as [Hv H]. cbn in H. injection H as <- <- _.
  exists {| hp_network := network; hp_version := 1; hp_ca := be_val (slice 8 12 q); hp_cb := caps;
            hp_pa := slice 12 44 q; hp_pb := sk_public key; hp_na := slice 44 76 q; hp_nb := nb |},
    (fr_request_id f), (slice 38 102 (fr_payload a)).
  split_and!; try done; [|by rewrite app_nil_r].
  unfold params_wf. cbn [hp_network hp_version hp_ca hp_cb hp_pa hp_pb hp_na hp_nb].
  refine (conj Hn (conj _ (conj _ (conj Hc (conj _ (conj (sk_public_length _) (conj _ Hnb)))))));
    [done|apply (be_val_range 4), (Hsl 8 12)%nat; lia|apply Hsl; lia|apply Hsl; lia].
Qed.

(** C31: two honest nodes complete the handshake, however the network and the
    two threads are scheduled.  Both sides start with nothing sent; a side that
    wants to read waits until the bytes are there.  Every execution is finite,
    and from every state it can reach it goes on to the one final state: both
    sides have succeeded, each knows the other's key, node id and capabilities,
    and no byte is left unread in either direction.  In particular the two
    never wait for each other. *)
Theorem handshake_completes ka kb p magic :
  params_wf p -> is_u32 magic -> hp_version p = 1 -> hp_pa p = sk_public ka -> hp_pb p = sk_public kb ->
  let start := (initiator_handshake ka (hp_ca p) (hp_network p) magic (hp_na p),
                responder_handshake kb (hp_cb p) (hp_network p) magic (hp_nb p), [], []) in
  sn net_step start /\
  forall c, rtc net_step start c -> rtc net_step c (Done (Ok (peer_b p)), Done (Ok (peer_a p)), [], []).
Proof.
  intros Hp Hm Hv Ha Hb start. split; [apply net_terminates|].
  apply net_confluent; [apply net_done|]. by apply handshake_schedule.
Qed.

(** C30: a completed handshake authenticates the peer and the session.
    Whatever bytes arrive, an initiator that succeeds holds a signature of the
    reported key, strictly verified, over the digest of the HELLO message; that
    message is the HELLO domain and the digest of the transcript, which spells
    out network, version, the capabilities, keys and nonces of both sides, its
    own key, capabilities and fresh nonce among them; and all it has sent is its
    challenge and its own signature over the ACK message of the same
    parameters.  A responder that succeeds holds the peer's signature over the
    ACK message and has sent its own over the HELLO message.  The signed digest
    determines all parameters and the role: a signature made in a session with
    any other parameters, or in the other role, has another digest unless the
    messages named here collide. *)
Theorem handshake_authenticates key caps network magic nonce input info out rest :
  is_u32 network -> is_u32 caps -> is32 nonce ->
  (run_session (initiator_handshake key caps network magic nonce) input = (Ok info, out, rest) ->
   exists p sig, params_wf p /\ info = peer_b p /\ hp_network p = network /\ hp_version p = 1 /\
     hp_ca p = caps /\ hp_pa p = sk_public key /\ hp_na p = nonce /\
     vk_from_bytes (hp_pb p) = true /\ vk_verify_strict (hp_pb p) (sha256 (hello_message p)) sig = true /\
     out = challenge_wire magic p ++ ack_wire magic p (sk_sign key (sha256 (ack_message p))) /\
     (forall q, params_wf q -> sha256 (hello_message q) = sha256 (hello_message p) ->
        q = p \/ collides [hello_message q; transcript_message q] [hello_message p; transcript_message p]) /\
     (forall q, sha256 (ack_message q) = sha256 (hello_message p) ->
        collides [ack_message q] [hello_message p])) /\
  (run_session (responder_handshake key caps network magic nonce) input = (Ok info, out, rest) ->
   exists p id sig, params_wf p /\ info = peer_a p /\ hp_network p = network /\ hp_version p = 1 /\
     hp_cb p = caps /\ hp_pb p = sk_public key /\ hp_nb p = nonce /\
     vk_from_bytes (hp_pa p) = true /\ vk_verify_strict (hp_pa p) (sha256 (ack_message p)) sig = true /\
     out = wire (message magic MSG_HELLO id (hello_payload p (sk_sign key (sha256 (hello_message p))))) /\
     (forall q, params_wf q -> sha256 (ack_message q) = sha256 (ack_message p) ->
        q = p \/ collides [ack_message q; transcript_message q] [ack_message p; transcript_message p]) /\
     (forall q, sha256 (hello_message q) = sha256 (ack_message p) ->
        collides [hello_message q] [ack_message p])).
Proof.
  intros Hn Hc H32. split; intros H.
  - apply initiator_sound in H as (p & sig & Hp & H1 & H2 & H3 & H4 & H5 & H6 & Hv & Ho); [|done..].
    rewrite hello_digest_eq in Hv. rewrite ack_digest_eq in Ho. apply verify_ok in Hv as [Hk Hv].
    exists p, sig. split_and!; try done.
    + intros q Hq. by apply role_binds.
    + intros q Heq. by apply collides_sym, hello_ack_separated.
  - apply responder_sound in H as (p & id & sig & Hp & H1 & H2 & H3 & H4 & H5 & H6 & Hv & Ho); [|done..].
    rewrite ack_digest_eq in Hv. rewrite hello_digest_eq in Ho. apply verify_ok in Hv as [Hk Hv].
    exists p, id, sig. split_and!; try done.
    + intros q Hq. by apply role_binds.
    + intros q. apply hello_ack_separated.
Qed.
End handshake.

(** Frames are canonical.  Reading a frame of a network from a stream
    succeeds exactly when the stream starts with the encoding of a version-1
    frame of that network, without flags and within the payload limit; it reads
    exactly those bytes, so a stream of frames parses in one way. *)
Theorem frame_canonical `{SHA : Sha2} magic input f out rest :
  run_session (Frame_read_from magic) input = (Ok f, out, rest) <->
  frame_wf f /\ fr_magic f = magic /\ out = [] /\
  exists bs, Frame_encode f = Ok bs /\ input = bs ++ rest.
Proof.
  rewrite run_read_from. split.
  - intros (Hf & Hm & -> & ->). split_and!; try done. exists (frame_bytes f ++ fr_payload f).
    split; [|done]. apply frame_encode_eq. split; [apply Hf|done].
  - intros (Hf & Hm & -> & bs & [_ ->]%frame_encode_eq & ->). done.
Qed.

(** ** Concrete handshakes *)

#[local] Existing Instance sha2_checksum.
#[local] Existing Instance ed25519_demo.

Definition demo_params : Params :=
  {| hp_network := 7; hp_version := 1; hp_ca := 31; hp_cb := 63; hp_pa := sk_public [Byte.x01];
     hp_pb := sk_public [Byte.x02]; hp_na := pad32 [Byte.x0a]; hp_nb := pad32 [Byte.x0b] |}.

Lemma demo_params_wf : params_wf demo_params.
Proof. unfold params_wf. vm_compute. split_and!; (done || discriminate). Defined.

Lemma handshake_completes_witness :
  rtc net_step
    (initiator_handshake [Byte.x01] 31 7 P2P_MAGIC_DEVNET (pad32 [Byte.x0a]),
     responder_handshake [Byte.x02] 63 7 P2P_MAGIC_DEVNET (pad32 [Byte.x0b]), [], [])
    (Done (Ok (peer_b demo_params)), Done (Ok (peer_a demo_params)), [], []).
Proof.
  apply (handshake_completes [Byte.x01] [Byte.x02] demo_params P2P_MAGIC_DEVNET);
    [exact demo_params_wf|unfold P2P_MAGIC_DEVNET; lia|reflexivity..|apply rtc_refl].
Defined.

Lemma handshake_authenticates_witness : exists p sig,
  peer_b demo_params = peer_b p /\ hp_na p = pad32 [Byte.x0a] /\
  vk_verify_strict (hp_pb p) (sha256 (hello_message p)) sig = true.
Proof.
  pose (from_b := hello_wire P2P_MAGIC_DEVNET demo_params
                    (sk_sign [Byte.x02] (hello_digest (params_transcript demo_params)))).
  destruct (run_session (initiator_handshake [Byte.x01] 31 7 P2P_MAGIC_DEVNET (pad32 [Byte.x0a])) from_b)
    as [[r out] rest] eqn:E.
  assert (r = Ok (peer_b demo_params)) as Hr.
  { change r with (fst (fst (r, out, rest))). rewrite <- E. vm_compute. reflexivity. }
  rewrite Hr in E.
  destruct (handshake_authenticates [Byte.x01] 31 7 P2P_MAGIC_DEVNET (pad32 [Byte.x0a]) from_b
    (peer_b demo_params) out rest ltac:(lia) ltac:(lia)
    eq_refl) as [H _].
  destruct (H E) as (p & sig & _ & H1 & _ & _ & _ & _ & H2 & _ & H3 & _). exists p, sig.
  split; [exact H1|]. split; [exact H2|exact H3].
Defined.
