(* ===== verification/State.v ===== *)
(** Crate [mutiny-state], part 2: the canonical values stored in the
    authenticated maps, their leaves and keys, and the five-part state root.

    Field names of the Rust structs carry a short prefix here, because a
    projection name is global in Rocq: [uv_] for [UtxoValueV1], [lr_] for
    [LicenseRecordV1], [mp_] for [MiningPresenceStateV1], [ts_] for
    [TreasuryStateV1], [da_] for [LicenseDividendAccountV1], [cm_] for
    [ConsensusMetaV1], [bh_] and [bc_] for the Bitcoin header objects. *)

From S2P Require Import Prelude Crypto Sha256 Codec Smt.

Definition LICENSE_RECORD_V1_LEN : nat := 141.
Definition LICENSE_STATUS_PENDING : Z := 0x00.
Definition LICENSE_STATUS_ACTIVE : Z := 0x01.
Definition LICENSE_STATUS_REVOKED : Z := 0x02.
Definition PURCHASE_METHOD_BTC : Z := 0x01.
Definition PURCHASE_METHOD_MUT : Z := 0x02.

Definition PS_CONSUMED_EVIDENCE : Z := 0x0001.
Definition PS_OFFENSE_EVENT : Z := 0x0002.
Definition PS_HISTORICAL_LICENSE_KEY : Z := 0x0003.
Definition PS_DIVIDEND_ACCOUNT : Z := 0x0004.
Definition PS_TREASURY_STATE : Z := 0x0005.
Definition PS_CONSUMED_NATIVE_PAYMENT : Z := 0x0006.
Definition PS_DIFFICULTY_HISTORY : Z := 0x0007.
Definition PS_MINING_PRESENCE_STATE : Z := 0x0008.
Definition PS_BITCOIN_HEADER : Z := 0x0009.
Definition PS_BITCOIN_BEST_CHAIN : Z := 0x000A.

(** ** Values *)

Record UtxoValueV1 := {
  uv_amount_strikes : Z;
  uv_output_type : Z;
  uv_payload : bytes;
  uv_creation_epoch : Z;
  uv_creation_height : Z;
  uv_coinbase : bool;
}.

Definition UtxoValueV1_encode (v : UtxoValueV1) : bytes :=
  let out := [] in
  let out := write_u64_be out (uv_amount_strikes v) in
  let out := write_u8 out (uv_output_type v) in
  let out := write_varuint out (Z.of_nat (length (uv_payload v))) in
  let out := out ++ uv_payload v in
  let out := write_u64_be out (uv_creation_epoch v) in
  let out := write_u64_be out (uv_creation_height v) in
  write_u8 out (Z.b2z (uv_coinbase v)).

Record LicenseRecordV1 := {
  lr_version : Z;
  lr_status : Z;
  lr_purchase_method : Z;
  lr_purchase_id : bytes32;
  lr_owner_public_key : bytes32;
  lr_owner_key_sequence : Z;
  lr_mining_public_key : bytes32;
  lr_mining_key_sequence : Z;
  lr_issued_epoch : Z;
  lr_activation_epoch : Z;
  lr_strike_weight : Z;
  lr_suspended_until_epoch : Z;
  lr_revocation_epoch : Z;
}.

Definition LicenseRecordV1_validate (r : LicenseRecordV1) : result StateError unit :=
  if negb (lr_version r =? 1)
     || negb ((lr_status r =? LICENSE_STATUS_PENDING) || (lr_status r =? LICENSE_STATUS_ACTIVE)
              || (lr_status r =? LICENSE_STATUS_REVOKED))
     || negb ((lr_purchase_method r =? PURCHASE_METHOD_BTC)
              || (lr_purchase_method r =? PURCHASE_METHOD_MUT))
     || (16 <? lr_strike_weight r)
  then Err InvalidLicenseRecord
  else Ok tt.

Definition LicenseRecordV1_encode (r : LicenseRecordV1) : result StateError bytes :=
  let? _ := LicenseRecordV1_validate r in
  let out := [] in
  let out := write_u16_be out (lr_version r) in
  let out := write_u8 out (lr_status r) in
  let out := write_u8 out (lr_purchase_method r) in
  let out := out ++ lr_purchase_id r in
  let out := out ++ lr_owner_public_key r in
  let out := write_u32_be out (lr_owner_key_sequence r) in
  let out := out ++ lr_mining_public_key r in
  let out := write_u32_be out (lr_mining_key_sequence r) in
  let out := write_u64_be out (lr_issued_epoch r) in
  let out := write_u64_be out (lr_activation_epoch r) in
  let out := write_u8 out (lr_strike_weight r) in
  let out := write_u64_be out (lr_suspended_until_epoch r) in
  let out := write_u64_be out (lr_revocation_epoch r) in
  Ok out.

Record MiningPresenceStateV1 := {
  mp_version : Z;
  mp_mining_key_sequence : Z;
  mp_last_presence_epoch : Z;
  mp_last_presence_operation_id : bytes32;
}.

Definition MiningPresenceStateV1_validate (p : MiningPresenceStateV1) : result StateError unit :=
  if negb (mp_version p =? 1) then Err InvalidMiningPresenceState else Ok tt.

Definition MiningPresenceStateV1_encode (p : MiningPresenceStateV1) : result StateError bytes :=
  let? _ := MiningPresenceStateV1_validate p in
  Ok (be_bytes 2 (mp_version p) ++ be_bytes 4 (mp_mining_key_sequence p)
      ++ be_bytes 8 (mp_last_presence_epoch p) ++ mp_last_presence_operation_id p).

Record TreasuryStateV1 := {
  ts_available_strikes : Z;
  ts_reserved_dividend_strikes : Z;
}.

Definition TreasuryStateV1_encode (t : TreasuryStateV1) : bytes :=
  be_bytes 8 (ts_available_strikes t) ++ be_bytes 8 (ts_reserved_dividend_strikes t).

Record LicenseDividendAccountV1 := {
  da_license_id : bytes32;
  da_award_epoch : Z;
  da_claim_deadline_epoch : Z;
  da_claimable_strikes : Z;
}.

Definition LicenseDividendAccountV1_encode (a : LicenseDividendAccountV1) : bytes :=
  da_license_id a ++ be_bytes 8 (da_award_epoch a) ++ be_bytes 8 (da_claim_deadline_epoch a)
  ++ be_bytes 8 (da_claimable_strikes a).

Record ConsensusMetaV1 := {
  cm_block_height : Z;
  cm_eligible_license_count : Z;
  cm_total_licenses_issued : Z;
  cm_difficulty_correction_q32 : Z;
  cm_base_fee_rate_q32 : Z;
  cm_total_issued_strikes : Z;
}.

Definition ConsensusMetaV1_encode (m : ConsensusMetaV1) : bytes :=
  concat (map (be_bytes 8)
    [ cm_block_height m; cm_eligible_license_count m; cm_total_licenses_issued m;
      cm_difficulty_correction_q32 m; cm_base_fee_rate_q32 m; cm_total_issued_strikes m ]).

Record BitcoinHeaderStateV1 := {
  bh_version : Z;
  bh_height : Z;
  bh_raw_header : bytes;
  bh_relative_chainwork : bytes32;
}.

Definition BitcoinHeaderStateV1_validate (h : BitcoinHeaderStateV1) : bool := bh_version h =? 1.

Definition BitcoinHeaderStateV1_encode (h : BitcoinHeaderStateV1) : bytes :=
  be_bytes 2 (bh_version h) ++ be_bytes 4 (bh_height h) ++ bh_raw_header h
  ++ bh_relative_chainwork h.

Record BitcoinBestChainStateV1 := {
  bc_version : Z;
  bc_best_tip_hash_internal : bytes32;
  bc_best_tip_height : Z;
  bc_best_tip_relative_chainwork : bytes32;
}.

Definition BitcoinBestChainStateV1_validate (b : BitcoinBestChainStateV1) : bool :=
  bc_version b =? 1.

Definition BitcoinBestChainStateV1_encode (b : BitcoinBestChainStateV1) : bytes :=
  be_bytes 2 (bc_version b) ++ bc_best_tip_hash_internal b ++ be_bytes 4 (bc_best_tip_height b)
  ++ bc_best_tip_relative_chainwork b.

(** ** Keys, leaves and roots *)

Section hashes.
Context {SHA : Sha2}.

Definition utxo_key (txid : bytes32) (output_index : Z) : bytes32 :=
  let index := be_bytes 2 output_index in
  sha256_domain domains.UTXO_KEY [txid; index].

Definition utxo_leaf (key : bytes32) (value : UtxoValueV1) : bytes32 :=
  sha256_domain domains.UTXO_LEAF [key; UtxoValueV1_encode value].

Definition license_leaf (license_id : bytes32) (record : LicenseRecordV1)
    : result StateError bytes32 :=
  let? encoded := LicenseRecordV1_encode record in
  Ok (sha256_domain domains.LICENSE_LEAF [license_id; encoded]).

Definition external_payment_leaf (payment_id : bytes32) (canonical_value : bytes) : bytes32 :=
  sha256_domain domains.EXTERNAL_PAYMENT_LEAF [payment_id; canonical_value].

Definition protocol_state_key (object_type : Z) (object_id : bytes32) : bytes32 :=
  sha256_domain domains.PROTOCOL_STATE_KEY [be_bytes 2 object_type; object_id].

Definition protocol_state_leaf (key : bytes32) (canonical_value : bytes) : bytes32 :=
  sha256_domain domains.PROTOCOL_STATE_LEAF [key; canonical_value].

Definition ConsensusMetaV1_root (m : ConsensusMetaV1) : bytes32 :=
  sha256_domain domains.META_ROOT [ConsensusMetaV1_encode m].

Definition state_root (utxo_root license_root external_payment_root protocol_state_root
    meta_root : bytes32) : bytes32 :=
  sha256_domain domains.STATE_ROOT
    [utxo_root; license_root; external_payment_root; protocol_state_root; meta_root].

Definition bitcoin_header_protocol_state_root (headers : list (bytes32 * BitcoinHeaderStateV1))
    (best_chain : option BitcoinBestChainStateV1) : bytes32 :=
  let entries : gmap bytes32 bytes32 :=
    fold_left (fun entries '(block_hash_internal, state) =>
        let key := protocol_state_key PS_BITCOIN_HEADER block_hash_internal in
        let leaf := protocol_state_leaf key (BitcoinHeaderStateV1_encode state) in
        <[key := leaf]> entries) headers ∅ in
  let entries :=
    match best_chain with
    | Some best =>
        let key := protocol_state_key PS_BITCOIN_BEST_CHAIN ZERO32 in
        let leaf := protocol_state_leaf key (BitcoinBestChainStateV1_encode best) in
        <[key := leaf]> entries
    | None => entries
    end in
  sparse_root entries.
End hashes.

(** ** Ranges of the Rust field types *)

Definition utxo_wf (v : UtxoValueV1) : Prop :=
  is_u64 (uv_amount_strikes v) /\ is_u8 (uv_output_type v) /\
  Z.of_nat (length (uv_payload v)) < 2 ^ 64 /\
  is_u64 (uv_creation_epoch v) /\ is_u64 (uv_creation_height v).

Definition license_wf (r : LicenseRecordV1) : Prop :=
  is_u16 (lr_version r) /\ is_u8 (lr_status r) /\ is_u8 (lr_purchase_method r) /\
  is32 (lr_purchase_id r) /\ is32 (lr_owner_public_key r) /\ is_u32 (lr_owner_key_sequence r) /\
  is32 (lr_mining_public_key r) /\ is_u32 (lr_mining_key_sequence r) /\
  is_u64 (lr_issued_epoch r) /\ is_u64 (lr_activation_epoch r) /\ is_u8 (lr_strike_weight r) /\
  is_u64 (lr_suspended_until_epoch r) /\ is_u64 (lr_revocation_epoch r).

Definition meta_wf (m : ConsensusMetaV1) : Prop :=
  is_u64 (cm_block_height m) /\ is_u64 (cm_eligible_license_count m) /\
  is_u64 (cm_total_licenses_issued m) /\ is_u64 (cm_difficulty_correction_q32 m) /\
  is_u64 (cm_base_fee_rate_q32 m) /\ is_u64 (cm_total_issued_strikes m).

(** ** The encodings are injective *)

Lemma utxo_encode_inj v w :
  utxo_wf v -> utxo_wf w -> UtxoValueV1_encode v = UtxoValueV1_encode w -> v = w.
Proof.
  destruct v as [a t p e h c], w as [a' t' p' e' h' c'].
  intros (?&?&?&?&?) (?&?&?&?&?) Heq. unfold UtxoValueV1_encode in Heq. simpl in *.
  assert (is_u8 (Z.b2z c) /\ is_u8 (Z.b2z c')) as [? ?] by (destruct c, c'; simpl; lia).
  norm_writes. enc_inj. f_equal; try done. by apply Z.b2z_inj.
Qed.

Lemma license_encode_ok r enc :
  LicenseRecordV1_encode r = Ok enc ->
  enc = be_bytes 2 (lr_version r) ++ byte_of_Z (lr_status r) :: byte_of_Z (lr_purchase_method r)
        :: lr_purchase_id r ++ lr_owner_public_key r ++ be_bytes 4 (lr_owner_key_sequence r)
        ++ lr_mining_public_key r ++ be_bytes 4 (lr_mining_key_sequence r)
        ++ be_bytes 8 (lr_issued_epoch r) ++ be_bytes 8 (lr_activation_epoch r)
        ++ byte_of_Z (lr_strike_weight r) :: be_bytes 8 (lr_suspended_until_epoch r)
        ++ be_bytes 8 (lr_revocation_epoch r).
Proof.
  unfold LicenseRecordV1_encode. destruct (LicenseRecordV1_validate r); [|done].
  intros <-%Ok_inj. by norm_writes.
Qed.

Lemma license_encode_inj r s enc :
  license_wf r -> license_wf s ->
  LicenseRecordV1_encode r = Ok enc -> LicenseRecordV1_encode s = Ok enc -> r = s.
Proof.
  intros (?&?&?&?&?&?&?&?&?&?&?&?&?) (?&?&?&?&?&?&?&?&?&?&?&?&?) ->%license_encode_ok Heq%license_encode_ok.
  enc_inj. destruct r, s; f_equal; assumption.
Qed.

Lemma license_encode_length r enc :
  license_wf r -> LicenseRecordV1_encode r = Ok enc -> length enc = LICENSE_RECORD_V1_LEN.
Proof. intros (?&?&?&?&?&?&?&?&?&?&?&?&?) ->%license_encode_ok. unfold LICENSE_RECORD_V1_LEN. by len. Qed.

Lemma meta_encode_inj m n :
  meta_wf m -> meta_wf n -> ConsensusMetaV1_encode m = ConsensusMetaV1_encode n -> m = n.
Proof.
  intros (?&?&?&?&?&?) (?&?&?&?&?&?). unfold ConsensusMetaV1_encode. cbn [map concat].
  rewrite !app_nil_r. intros Heq. enc_inj. destruct m, n; f_equal; assumption.
Qed.

(** ** Binding of leaves, keys and roots *)

Section binding.
Context {SHA : Sha2}.

(** Splits an equality of two hashed concatenations. *)
#[local] Ltac hash_inj H :=
  apply sha256_domain_inj_or in H as [H|?]; [left|by right]; cbn [concat] in H;
  rewrite ?app_nil_r in H; enc_inj.

Lemma utxo_key_inj_or t t' i i' :
  is32 t -> is32 t' -> is_u16 i -> is_u16 i' ->
  utxo_key t i = utxo_key t' i' -> (t = t' /\ i = i') \/
  collides [domain_message domains.UTXO_KEY [t; be_bytes 2 i]] [domain_message domains.UTXO_KEY [t'; be_bytes 2 i']].
Proof. intros ???? Heq. unfold utxo_key in Heq. hash_inj Heq. done. Qed.

Lemma utxo_leaf_inj_or k k' v v' :
  is32 k -> is32 k' -> utxo_wf v -> utxo_wf v' ->
  utxo_leaf k v = utxo_leaf k' v' -> (k = k' /\ v = v') \/
  collides [domain_message domains.UTXO_LEAF [k; UtxoValueV1_encode v]]
           [domain_message domains.UTXO_LEAF [k'; UtxoValueV1_encode v']].
Proof.
  intros ???? Heq. unfold utxo_leaf in Heq. hash_inj Heq. split; [done|by apply utxo_encode_inj].
Qed.

Lemma license_leaf_inj_or k k' r r' h :
  is32 k -> is32 k' -> license_wf r -> license_wf r' ->
  license_leaf k r = Ok h -> license_leaf k' r' = Ok h -> (k = k' /\ r = r') \/
  exists e e', LicenseRecordV1_encode r = Ok e /\ LicenseRecordV1_encode r' = Ok e' /\
    collides [domain_message domains.LICENSE_LEAF [k; e]] [domain_message domains.LICENSE_LEAF [k'; e']].
Proof.
  intros ????. unfold license_leaf.
  destruct (LicenseRecordV1_encode r) eqn:E1, (LicenseRecordV1_encode r') eqn:E2; try done.
  intros <-%Ok_inj Heq%Ok_inj.
  apply sha256_domain_inj_or in Heq as [Heq|Hc]; [left|apply collides_sym in Hc; right; by eexists _, _].
  cbn [concat] in Heq.
  rewrite !app_nil_r in Heq. enc_inj. subst. split; [done|by eapply license_encode_inj].
Qed.

Lemma external_payment_leaf_inj_or k k' v v' :
  is32 k -> is32 k' ->
  external_payment_leaf k v = external_payment_leaf k' v' -> (k = k' /\ v = v') \/
  collides [domain_message domains.EXTERNAL_PAYMENT_LEAF [k; v]] [domain_message domains.EXTERNAL_PAYMENT_LEAF [k'; v']].
Proof. intros ?? Heq. unfold external_payment_leaf in Heq. hash_inj Heq. done. Qed.

Lemma protocol_state_key_inj_or t t' i i' :
  is_u16 t -> is_u16 t' -> is32 i -> is32 i' ->
  protocol_state_key t i = protocol_state_key t' i' -> (t = t' /\ i = i') \/
  collides [domain_message domains.PROTOCOL_STATE_KEY [be_bytes 2 t; i]]
           [domain_message domains.PROTOCOL_STATE_KEY [be_bytes 2 t'; i']].
Proof. intros ???? Heq. unfold protocol_state_key in Heq. hash_inj Heq. done. Qed.

Lemma protocol_state_leaf_inj_or k k' v v' :
  is32 k -> is32 k' ->
  protocol_state_leaf k v = protocol_state_leaf k' v' -> (k = k' /\ v = v') \/
  collides [domain_message domains.PROTOCOL_STATE_LEAF [k; v]] [domain_message domains.PROTOCOL_STATE_LEAF [k'; v']].
Proof. intros ?? Heq. unfold protocol_state_leaf in Heq. hash_inj Heq. done. Qed.

Lemma meta_root_inj_or m m' :
  meta_wf m -> meta_wf m' -> ConsensusMetaV1_root m = ConsensusMetaV1_root m' ->
  m = m' \/
  collides [domain_message domains.META_ROOT [ConsensusMetaV1_encode m]]
           [domain_message domains.META_ROOT [ConsensusMetaV1_encode m']].
Proof.
  intros ?? Heq. unfold ConsensusMetaV1_root in Heq. hash_inj Heq. by apply meta_encode_inj.
Qed.

Lemma state_root_inj_or u l e p m u' l' e' p' m' :
  is32 u -> is32 u' -> is32 l -> is32 l' -> is32 e -> is32 e' -> is32 p -> is32 p' ->
  state_root u l e p m = state_root u' l' e' p' m' ->
  (u = u' /\ l = l' /\ e = e' /\ p = p' /\ m = m') \/
  collides [domain_message domains.STATE_ROOT [u; l; e; p; m]]
           [domain_message domains.STATE_ROOT [u'; l'; e'; p'; m']].
Proof. intros ???????? Heq. unfold state_root in Heq. hash_inj Heq. done. Qed.

Lemma sparse_root_length m : entries_ok m -> is32 (sparse_root m).
Proof. intros. rewrite sparse_root_ref by done. by apply smt_ref_length. Qed.

(** A leaf of one of the four maps is never the default leaf, short of a
    collision across domains. *)
Lemma leaf_not_default d ps :
  d ∈ domains.ALL_DOMAINS -> d <> domains.SMT_EMPTY_LEAF ->
  sha256_domain d ps = empty_at 0 ->
  collides [domain_message d ps] [domain_message domains.SMT_EMPTY_LEAF []].
Proof.
  intros Hd Hne Heq. eapply (sha256_domain_separated d domains.SMT_EMPTY_LEAF); [done| |done|exact Heq].
  solve_domain.
Qed.
End binding.
