(* ===== verification/Merkle.v ===== *)
(** The Merkle tree loop shared by [merkle_root] of crate [mutiny-transaction]
    and [protocol_operations_root] of crate [mutiny-protocol]: the two functions
    run the same rounds under different node domains.

    The loop builds trees ([mtree]); the root is the hash of a tree over the
    leaves.  When leaves and inner nodes are hashed under different domains,
    equal roots mean equal leaf lists, whatever their lengths, unless two
    messages hashed for the two roots collide. *)

From S2P Require Import Prelude Crypto.

Section merkle.
Context {SHA : Sha2}.

Section domain.
(** The domain of inner nodes. *)
Context (node : bytes).

(** One round: neighbours are hashed, an odd last node is carried up as it is. *)
Fixpoint merkle_level (level : list bytes32) : list bytes32 :=
  match level with
  | a :: b :: level => sha256_domain node [a; b] :: merkle_level level
  | level => level
  end.

(** [while level.len() > 1]; the level shrinks in every round, so the number of
    leaves bounds the number of rounds ([mt_loop_done]). *)
Fixpoint merkle_loop (fuel : nat) (level : list bytes32) : list bytes32 :=
  match fuel with
  | O => level
  | S fuel => if (1 <? length level)%nat then merkle_loop fuel (merkle_level level) else level
  end.

(** The trees [merkle_root] builds, by their shape. *)
Inductive mtree := MLeaf (h : bytes32) | MNode (l r : mtree).

Fixpoint mt_hash (t : mtree) : bytes32 :=
  match t with
  | MLeaf h => h
  | MNode l r => sha256_domain node [mt_hash l; mt_hash r]
  end.

Fixpoint mt_leaves (t : mtree) : list bytes32 :=
  match t with MLeaf h => [h] | MNode l r => mt_leaves l ++ mt_leaves r end.

Fixpoint mt_level (ts : list mtree) : list mtree :=
  match ts with
  | a :: b :: ts => MNode a b :: mt_level ts
  | ts => ts
  end.

Fixpoint mt_loop (fuel : nat) (ts : list mtree) : list mtree :=
  match fuel with
  | O => ts
  | S fuel => if (1 <? length ts)%nat then mt_loop fuel (mt_level ts) else ts
  end.

(** The messages the loop hashes, round by round. *)
Fixpoint merkle_level_messages (level : list bytes32) : list bytes :=
  match level with
  | a :: b :: level => domain_message node [a; b] :: merkle_level_messages level
  | _ => []
  end.

Fixpoint merkle_loop_messages (fuel : nat) (level : list bytes32) : list bytes :=
  match fuel with
  | O => []
  | S fuel =>
      if (1 <? length level)%nat
      then merkle_level_messages level ++ merkle_loop_messages fuel (merkle_level level) else []
  end.

(** The messages hashed for the inner nodes of a tree. *)
Fixpoint mt_messages (t : mtree) : list bytes :=
  match t with
  | MLeaf _ => []
  | MNode l r => domain_message node [mt_hash l; mt_hash r] :: mt_messages l ++ mt_messages r
  end.

(** Induction two elements at a time. *)
Lemma list_pair_ind {A} (P : list A -> Prop) :
  P [] -> (forall a, P [a]) -> (forall a b l, P l -> P (a :: b :: l)) -> forall l, P l.
Proof.
  intros H0 H1 H2 l. enough (P l /\ forall a, P (a :: l)) as [? _] by done.
  induction l as [|b l [IH1 IH2]]; [by split|]. split; [apply IH2|]. intros a. by apply H2.
Qed.

Lemma mt_level_hash ts : map mt_hash (mt_level ts) = merkle_level (map mt_hash ts).
Proof. induction ts as [| |a b l IH] using list_pair_ind; [done..|]. cbn. by rewrite IH. Qed.

Lemma mt_level_leaves ts : concat (map mt_leaves (mt_level ts)) = concat (map mt_leaves ts).
Proof.
  induction ts as [| |a b l IH] using list_pair_ind; [done..|]. cbn. by rewrite IH, app_assoc.
Qed.

Lemma mt_level_length ts : (2 * length (mt_level ts) <= length ts + 1)%nat /\
  (ts <> [] -> mt_level ts <> []).
Proof.
  induction ts as [| |a b l [IH _]] using list_pair_ind; [split; [simpl; lia|done]..|].
  split; [cbn; lia|done].
Qed.

Lemma mt_loop_hash fuel ts : map mt_hash (mt_loop fuel ts) = merkle_loop fuel (map mt_hash ts).
Proof.
  revert ts. induction fuel as [|fuel IH]; intros ts; cbn [mt_loop merkle_loop]; [done|].
  rewrite length_map. destruct (1 <? length ts)%nat; [|done]. by rewrite IH, mt_level_hash.
Qed.

Lemma mt_level_messages ts :
  concat (map mt_messages (mt_level ts)) ⊆
  concat (map mt_messages ts) ++ merkle_level_messages (map mt_hash ts).
Proof. induction ts as [| |a b l IH] using list_pair_ind; cbn; [done|solve_messages|]. solve_messages. Qed.

Lemma mt_loop_messages fuel ts :
  concat (map mt_messages (mt_loop fuel ts)) ⊆
  concat (map mt_messages ts) ++ merkle_loop_messages fuel (map mt_hash ts).
Proof.
  revert ts. induction fuel as [|fuel IH]; intros ts; cbn [mt_loop merkle_loop_messages]; [solve_messages|].
  rewrite length_map. destruct (1 <? length ts)%nat; [|solve_messages].
  specialize (IH (mt_level ts)). rewrite mt_level_hash in IH. pose proof (mt_level_messages ts). solve_messages.
Qed.

(** The loop ends with one tree over the same leaves. *)
Lemma mt_loop_done fuel ts :
  ts <> [] -> (length ts <= fuel)%nat ->
  exists t, mt_loop fuel ts = [t] /\ mt_leaves t = concat (map mt_leaves ts).
Proof.
  revert ts. induction fuel as [|fuel IH]; intros ts Hne Hf.
  { destruct ts; simpl in Hf; [done|lia]. }
  cbn [mt_loop]. destruct (Nat.ltb_spec 1 (length ts)) as [Hlt|Hge].
  - destruct (mt_level_length ts) as [Hl Hn]. destruct (IH (mt_level ts)) as (t & -> & Ht); [auto|lia|].
    exists t. split; [done|]. by rewrite Ht, mt_level_leaves.
  - destruct ts as [|t [|? ?]]; [done| |simpl in Hge; lia]. exists t. split; [done|].
    cbn. by rewrite app_nil_r.
Qed.

Lemma concat_leaves hs : concat (map mt_leaves (map MLeaf hs)) = hs.
Proof. induction hs as [|h hs IH]; cbn; [done|]. by rewrite IH. Qed.

Lemma concat_no_messages hs : concat (map mt_messages (map MLeaf hs)) = [].
Proof. by induction hs. Qed.

Lemma map_hash_leaves hs : map mt_hash (map MLeaf hs) = hs.
Proof. induction hs as [|h hs IH]; cbn; [done|]. by rewrite IH. Qed.

Lemma merkle_loop_tree leaves :
  leaves <> [] -> exists t, nth 0 (merkle_loop (length leaves) leaves) [] = mt_hash t /\ mt_leaves t = leaves /\
    mt_messages t ⊆ merkle_loop_messages (length leaves) leaves.
Proof.
  intros Hne. destruct (mt_loop_done (length leaves) (map MLeaf leaves)) as (t & Hl & Ht).
  { by destruct leaves. }
  { by rewrite length_map. }
  exists t. pose proof (mt_loop_messages (length leaves) (map MLeaf leaves)) as Hm.
  rewrite Hl, map_hash_leaves, concat_no_messages in Hm. cbn [map concat] in Hm. rewrite app_nil_r in Hm.
  apply (f_equal (map mt_hash)) in Hl. rewrite mt_loop_hash, map_hash_leaves in Hl.
  split_and!; [by rewrite Hl|by rewrite Ht, concat_leaves|done].
Qed.

(** The domain of leaves, different from that of nodes. *)
Context (leaf : bytes) (leaf_in : leaf ∈ domains.ALL_DOMAINS) (node_in : node ∈ domains.ALL_DOMAINS)
  (leaf_node : leaf <> node).

(** The leaf hashes of a list of leaf contents, and every message hashed for
    the root over them. *)
Definition merkle_leaves (contents : list (list bytes)) : list bytes32 := map (sha256_domain leaf) contents.

Definition merkle_messages (contents : list (list bytes)) : list bytes :=
  map (domain_message leaf) contents ++
  merkle_loop_messages (length contents) (merkle_leaves contents).

Lemma merkle_leaf_message contents h :
  h ∈ merkle_leaves contents ->
  exists ps, h = sha256_domain leaf ps /\ domain_message leaf ps ∈ map (domain_message leaf) contents.
Proof. intros (ps & -> & Hps)%list_elem_of_fmap. exists ps. split; [done|]. by apply list_elem_of_fmap_2. Qed.

Lemma mt_hash_length t cs : mt_leaves t ⊆ merkle_leaves cs -> is32 (mt_hash t).
Proof.
  destruct t as [h|l r]; cbn; intros Hl; [|apply sha256_domain_length].
  destruct (merkle_leaf_message cs h) as (ps & -> & _); [solve_messages|]. apply sha256_domain_length.
Qed.

(** Equal roots: equal trees. *)
Lemma mt_hash_inj_or cs ds t u :
  mt_leaves t ⊆ merkle_leaves cs -> mt_leaves u ⊆ merkle_leaves ds -> mt_hash t = mt_hash u ->
  t = u \/ collides (map (domain_message leaf) cs ++ mt_messages t)
                    (map (domain_message leaf) ds ++ mt_messages u).
Proof using leaf_in node_in leaf_node.
  revert u. induction t as [h|l IHl r IHr]; intros [h'|l' r']; cbn [mt_leaves mt_hash mt_messages]; intros Ht Hu Heq.
  - left. by rewrite Heq.
  - right. destruct (merkle_leaf_message cs h) as (ps & -> & Hps); [solve_messages|].
    apply sha256_domain_separated in Heq; [|done..]. more_messages Heq.
  - right. destruct (merkle_leaf_message ds h') as (ps & -> & Hps); [solve_messages|].
    apply sha256_domain_separated in Heq; [|done..]. more_messages Heq.
  - apply sha256_domain_inj_or in Heq as [Heq|Hc]; [|right; more_messages Hc]. cbn [concat] in Heq.
    rewrite !app_nil_r in Heq.
    apply app_inj_len in Heq as [H1 H2]; [|by rewrite (mt_hash_length l cs), (mt_hash_length l' ds) by solve_messages].
    apply IHl in H1 as [->|Hc]; [|right; more_messages Hc|solve_messages..].
    apply IHr in H2 as [->|Hc]; [by left|right; more_messages Hc|solve_messages..].
Qed.

Lemma merkle_leaves_inj_or cs ds :
  merkle_leaves cs = merkle_leaves ds ->
  map (@concat _) cs = map (@concat _) ds \/
  collides (map (domain_message leaf) cs) (map (domain_message leaf) ds).
Proof using.
  revert ds. induction cs as [|c cs IH]; intros [|d ds]; cbn; intros Heq; try done; [by left|].
  injection Heq as Hc Hcs. apply sha256_domain_inj_or in Hc as [->|Hc]; [|right; more_messages Hc].
  apply IH in Hcs as [->|Hc]; [by left|right; more_messages Hc].
Qed.

Lemma merkle_leaves_length cs : length (merkle_leaves cs) = length cs.
Proof. apply length_map. Qed.

Lemma merkle_leaves_nonempty cs : cs <> [] -> merkle_leaves cs <> [].
Proof. by destruct cs. Qed.

(** Equal roots: equal leaf contents. *)
Lemma merkle_loop_inj_or cs ds :
  cs <> [] -> ds <> [] ->
  nth 0 (merkle_loop (length cs) (merkle_leaves cs)) [] =
  nth 0 (merkle_loop (length ds) (merkle_leaves ds)) [] ->
  map (@concat _) cs = map (@concat _) ds \/ collides (merkle_messages cs) (merkle_messages ds).
Proof using leaf_in node_in leaf_node.
  intros Hc Hd. unfold merkle_messages.
  rewrite <- !(length_map (sha256_domain leaf)). fold (merkle_leaves cs) (merkle_leaves ds).
  destruct (merkle_loop_tree (merkle_leaves cs)) as (t & -> & Ht & Hmt); [by apply merkle_leaves_nonempty|].
  destruct (merkle_loop_tree (merkle_leaves ds)) as (u & -> & Hu & Hmu); [by apply merkle_leaves_nonempty|].
  intros [Heq|Hcol]%(mt_hash_inj_or cs ds); [|right; more_messages Hcol|by rewrite Ht|by rewrite Hu].
  rewrite <- Ht, <- Hu, Heq in *. destruct (merkle_leaves_inj_or cs ds) as [?|Hcol]; [congruence|by left|].
  right. more_messages Hcol.
Qed.

(** The root of a non-empty list is the digest of a message of the list, under
    the domain of leaves or that of nodes. *)
Lemma merkle_loop_root cs :
  cs <> [] ->
  exists d ps, (d = leaf \/ d = node) /\ domain_message d ps ∈ merkle_messages cs /\
    nth 0 (merkle_loop (length cs) (merkle_leaves cs)) [] = sha256_domain d ps.
Proof.
  intros Hne. unfold merkle_messages.
  rewrite <- (length_map (sha256_domain leaf)). fold (merkle_leaves cs).
  destruct (merkle_loop_tree (merkle_leaves cs)) as ([h|l r] & -> & Ht & Hm); [by apply merkle_leaves_nonempty|..].
  - destruct (merkle_leaf_message cs h) as (ps & -> & Hps); [rewrite <- Ht; cbn; solve_messages|].
    exists leaf, ps. split_and!; [by left|solve_messages|done].
  - exists node, [mt_hash l; mt_hash r]. split_and!; [by right| |done]. cbn [mt_messages] in Hm. solve_messages.
Qed.
End domain.
End merkle.
