(* ===== verification/Transaction.v ===== *)
(** Crate [mutiny-transaction]: the canonical transaction format, identifiers
    and signature digests, the witness checks, the transaction Merkle root and
    the base fee.

    Projections carry a prefix: [to_] for [TxOutput], [cc_] for
    [CoinbaseCommitmentV1], [tc_] for [TransactionCoreV1], [w_] for [WitnessV1],
    [tx_] for [TransactionV1], [pc_] for [PrevoutCommitmentV1], [ms_] for
    [MultisigPayloadV1], [is_] for [IndexedSignatureV1], [el_] for
    [EpochLockedPayloadV1].  [usize] is 64 bits wide. *)

From S2P Require Import Prelude Crypto Sha256 Codec Merkle.

Definition OUTPUT_PUBKEY_HASH : Z := 0x01.
Definition OUTPUT_MULTISIG : Z := 0x02.
Definition OUTPUT_EPOCH_LOCKED : Z := 0x03.
Definition OUTPUT_TREASURY : Z := 0x04.
Definition OUTPUT_LICENSE_PAYMENT : Z := 0x05.
Definition WITNESS_PUBKEY_HASH : Z := 0x01.
Definition WITNESS_MULTISIG : Z := 0x02.
Definition WITNESS_PROTOCOL_AUTH : Z := 0x03.

Inductive TxError :=
| InvalidPublicKey
| InvalidSignature
| AddressMismatch
| InvalidMultisigPolicy
| InvalidMultisigWitness
| EpochLocked
| UnsupportedEpochLockInnerType
| TxOverflow
| MalformedEncoding
| TooManyInputsOrOutputs.

Record TxOutput := { to_amount_strikes : Z; to_output_type : Z; to_payload : bytes }.

Definition TxOutput_encode (o : TxOutput) (out : bytes) : bytes :=
  let out := write_u64_be out (to_amount_strikes o) in
  let out := write_u8 out (to_output_type o) in
  let out := write_varuint out (Z.of_nat (length (to_payload o))) in
  out ++ to_payload o.

Record CoinbaseCommitmentV1 := {
  cc_block_epoch : Z;
  cc_block_height : Z;
  cc_parent_block_hash : bytes32;
  cc_protocol_operations_root : bytes32;
}.

Definition CoinbaseCommitmentV1_encode (c : CoinbaseCommitmentV1) (out : bytes) : bytes :=
  let out := write_u64_be out (cc_block_epoch c) in
  let out := write_u64_be out (cc_block_height c) in
  let out := out ++ cc_parent_block_hash c in
  out ++ cc_protocol_operations_root c.

Inductive TxInput :=
| Outpoint (previous_txid : bytes32) (previous_output_index : Z)
| Coinbase (commitment : CoinbaseCommitmentV1).

Definition TxInput_encode_core (i : TxInput) (out : bytes) : bytes :=
  match i with
  | Outpoint previous_txid previous_output_index =>
      let out := out ++ previous_txid in
      write_u16_be out previous_output_index
  | Coinbase commitment =>
      let out := out ++ ZERO32 in
      let out := write_u16_be out 0xffff in
      CoinbaseCommitmentV1_encode commitment out
  end.

Record TransactionCoreV1 := {
  tc_version : Z;
  tc_network_id : Z;
  tc_valid_from_epoch : Z;
  tc_expiry_epoch : Z;
  tc_inputs : list TxInput;
  tc_outputs : list TxOutput;
}.

Definition TransactionCoreV1_encode (c : TransactionCoreV1) : bytes :=
  let out := [] in
  let out := write_u16_be out (tc_version c) in
  let out := write_u32_be out (tc_network_id c) in
  let out := write_u64_be out (tc_valid_from_epoch c) in
  let out := write_u64_be out (tc_expiry_epoch c) in
  let out := write_varuint out (Z.of_nat (length (tc_inputs c))) in
  let out := fold_left (fun out input => TxInput_encode_core input out) (tc_inputs c) out in
  let out := write_varuint out (Z.of_nat (length (tc_outputs c))) in
  fold_left (fun out output => TxOutput_encode output out) (tc_outputs c) out.

Record WitnessV1 := { w_witness_type : Z; w_payload : bytes }.

Definition WitnessV1_encode (w : WitnessV1) (out : bytes) : bytes :=
  let out := write_u8 out (w_witness_type w) in
  let out := write_varuint out (Z.of_nat (length (w_payload w))) in
  out ++ w_payload w.

Definition WitnessV1_pubkey_hash (public_key signature : bytes) : WitnessV1 :=
  {| w_witness_type := WITNESS_PUBKEY_HASH; w_payload := public_key ++ signature |}.

Definition WitnessV1_protocol_auth (operation_id : bytes32) : WitnessV1 :=
  {| w_witness_type := WITNESS_PROTOCOL_AUTH; w_payload := operation_id |}.

Record TransactionV1 := { tx_core : TransactionCoreV1; tx_witnesses : list WitnessV1 }.

Definition TransactionV1_encode_full (tx : TransactionV1) : bytes :=
  fold_left (fun out w => WitnessV1_encode w out) (tx_witnesses tx)
    (TransactionCoreV1_encode (tx_core tx)).

(** ** Decoding *)

(** The local helpers of [decode_from]. *)
Definition take_vec (input : bytes) (n : Z) : result TxError (bytes * bytes) :=
  if Z.of_nat (length input) <? n then Err MalformedEncoding
  else Ok (take (Z.to_nat n) input, drop (Z.to_nat n) input).

Definition cv {T} (r : result DecodeError T) : result TxError T :=
  map_err (fun _ => MalformedEncoding) r.

(** The loop over the inputs, from index [idx] on. *)
Fixpoint decode_inputs (todo : nat) (idx input_count : Z) (coinbase : bool) (input : bytes)
    : result TxError (list TxInput * bool * bytes) :=
  match todo with
  | O => Ok ([], coinbase, input)
  | S todo =>
      let? (previous_txid, input) := cv (read_u256_be input) in
      let? (previous_output_index, input) := cv (read_u16_be input) in
      if bytes_eqb previous_txid ZERO32 && (previous_output_index =? 0xffff) then
        if negb (input_count =? 1) || negb (idx =? 0) then Err MalformedEncoding else
        let? (block_epoch, input) := cv (read_u64_be input) in
        let? (block_height, input) := cv (read_u64_be input) in
        let? (parent_block_hash, input) := cv (read_u256_be input) in
        let? (protocol_operations_root, input) := cv (read_u256_be input) in
        let commitment := {| cc_block_epoch := block_epoch; cc_block_height := block_height;
          cc_parent_block_hash := parent_block_hash;
          cc_protocol_operations_root := protocol_operations_root |} in
        let? (inputs, coinbase, input) := decode_inputs todo (idx + 1) input_count true input in
        Ok (Coinbase commitment :: inputs, coinbase, input)
      else
        let? (inputs, coinbase, input) := decode_inputs todo (idx + 1) input_count coinbase input in
        Ok (Outpoint previous_txid previous_output_index :: inputs, coinbase, input)
  end.

(** The bodies of the loops over outputs and witnesses. *)
Definition decode_output (input : bytes) : result TxError (TxOutput * bytes) :=
  let? (amount_strikes, input) := cv (read_u64_be input) in
  let? (output_type, input) := cv (read_u8 input) in
  let? (payload_len, input) := cv (read_varuint input) in
  let? payload_len := ok_or MalformedEncoding (try_from 64 payload_len) in
  let? (payload, input) := take_vec input payload_len in
  Ok ({| to_amount_strikes := amount_strikes; to_output_type := output_type;
         to_payload := payload |}, input).

Definition decode_witness (input : bytes) : result TxError (WitnessV1 * bytes) :=
  let? (witness_type, input) := cv (read_u8 input) in
  let? (payload_len, input) := cv (read_varuint input) in
  let? payload_len := ok_or MalformedEncoding (try_from 64 payload_len) in
  let? (payload, input) := take_vec input payload_len in
  Ok ({| w_witness_type := witness_type; w_payload := payload |}, input).

Definition TransactionV1_decode_from (input : bytes) : result TxError (TransactionV1 * bytes) :=
  let? (version, input) := cv (read_u16_be input) in
  let? (network_id, input) := cv (read_u32_be input) in
  let? (valid_from_epoch, input) := cv (read_u64_be input) in
  let? (expiry_epoch, input) := cv (read_u64_be input) in
  let? (input_count, input) := cv (read_varuint input) in
  if 1024 <? input_count then Err TooManyInputsOrOutputs else
  let? (inputs, coinbase, input) := decode_inputs (Z.to_nat input_count) 0 input_count false input in
  let? (output_count, input) := cv (read_varuint input) in
  if 1024 <? output_count then Err TooManyInputsOrOutputs else
  let? (outputs, input) := read_many decode_output (Z.to_nat output_count) input in
  let witness_count := if (coinbase : bool) then 0 else input_count in
  let? (witnesses, input) := read_many decode_witness (Z.to_nat witness_count) input in
  Ok ({| tx_core := {| tc_version := version; tc_network_id := network_id;
           tc_valid_from_epoch := valid_from_epoch; tc_expiry_epoch := expiry_epoch;
           tc_inputs := inputs; tc_outputs := outputs |};
         tx_witnesses := witnesses |}, input).

Definition TransactionV1_decode_full (bs : bytes) : result TxError TransactionV1 :=
  let? (tx, input) := TransactionV1_decode_from bs in
  match input with
  | [] => Ok tx
  | _ => Err MalformedEncoding
  end.

(** ** Identifiers, digests and Merkle root *)

Record PrevoutCommitmentV1 := {
  pc_previous_txid : bytes32;
  pc_previous_output_index : Z;
  pc_amount_strikes : Z;
  pc_output_type : Z;
  pc_payload : bytes;
}.

Definition PrevoutCommitmentV1_encode (p : PrevoutCommitmentV1) : bytes :=
  let out := [] in
  let out := out ++ pc_previous_txid p in
  let out := write_u16_be out (pc_previous_output_index p) in
  let out := write_u64_be out (pc_amount_strikes p) in
  let out := write_u8 out (pc_output_type p) in
  let out := write_varuint out (Z.of_nat (length (pc_payload p))) in
  out ++ pc_payload p.

Section ids.
Context {SHA : Sha2}.

Definition TransactionCoreV1_txid (c : TransactionCoreV1) : bytes32 :=
  sha256_domain domains.TX_ID [TransactionCoreV1_encode c].

Definition TransactionV1_txid (tx : TransactionV1) : bytes32 := TransactionCoreV1_txid (tx_core tx).

Definition TransactionV1_wtxid (tx : TransactionV1) : bytes32 :=
  sha256_domain domains.WTX_ID [TransactionV1_encode_full tx].

Definition TransactionV1_leaf (tx : TransactionV1) : bytes32 :=
  sha256_domain domains.TX_LEAF [TransactionV1_txid tx; TransactionV1_wtxid tx].

Definition TransactionV1_serialized_len (tx : TransactionV1) : Z :=
  Z.of_nat (length (TransactionV1_encode_full tx)).

Definition sighash_all (txid : bytes32) (input_index : Z) (prevout : PrevoutCommitmentV1) : bytes32 :=
  sha256_domain domains.TX_SIGN [txid; be_bytes 2 input_index; PrevoutCommitmentV1_encode prevout].

Definition address_id (public_key : bytes32) : bytes32 := sha256_domain domains.ADDRESS [public_key].

Definition protocol_operations_empty_root : bytes32 := sha256_domain domains.PROTOCOL_OPS_EMPTY [].

Definition merkle_root (leaves : list bytes32) : option bytes32 :=
  match leaves with
  | [] => None
  | _ => Some (nth 0 (merkle_loop domains.TX_NODE (length leaves) leaves) [])
  end.
End ids.

(** ** Witnesses *)

Section witnesses.
Context {SHA : Sha2} {ED : Ed25519}.

Definition verify_pubkey_hash_witness (address digest : bytes32) (witness : WitnessV1)
    : result TxError unit :=
  if negb (w_witness_type witness =? WITNESS_PUBKEY_HASH) || negb (length (w_payload witness) =? 96)%nat
  then Err InvalidSignature else
  let public_key := take 32 (w_payload witness) in
  let signature := drop 32 (w_payload witness) in
  if negb (bytes_eqb (address_id public_key) address) then Err AddressMismatch else
  if negb (vk_from_bytes public_key) then Err InvalidPublicKey else
  if vk_verify public_key digest signature then Ok tt else Err InvalidSignature.

Record MultisigPayloadV1 := { ms_threshold : Z; ms_public_keys : list bytes32 }.

(** [windows(2)]: every adjacent pair is strictly increasing. *)
Fixpoint keys_sorted (keys : list bytes32) : bool :=
  match keys with
  | a :: ((b :: _) as rest) => if bytes_leb b a then false else keys_sorted rest
  | _ => true
  end.

Definition MultisigPayloadV1_validate (p : MultisigPayloadV1) : result TxError unit :=
  let n := Z.of_nat (length (ms_public_keys p)) in
  if (n =? 0) || (16 <? n) || (ms_threshold p =? 0) || (n <? ms_threshold p)
  then Err InvalidMultisigPolicy else
  if keys_sorted (ms_public_keys p) then Ok tt else Err InvalidMultisigPolicy.

Definition MultisigPayloadV1_encode (p : MultisigPayloadV1) : result TxError bytes :=
  let? _ := MultisigPayloadV1_validate p in
  let out := [] in
  let out := write_u8 out (ms_threshold p) in
  let out := write_u8 out (Z.of_nat (length (ms_public_keys p))) in
  Ok (fold_left (fun out key => out ++ key) (ms_public_keys p) out).

Record IndexedSignatureV1 := { is_key_index : Z; is_signature : bytes }.

Definition multisig_witness (signatures : list IndexedSignatureV1) : WitnessV1 :=
  let payload := write_u8 [] (Z.of_nat (length signatures)) in
  let payload := fold_left (fun payload s => write_u8 payload (is_key_index s) ++ is_signature s)
                   signatures payload in
  {| w_witness_type := WITNESS_MULTISIG; w_payload := payload |}.

(** The loop over the signatures; [prev] is the last key index. *)
Fixpoint verify_multisig_loop (keys : list bytes32) (digest : bytes32) (prev : option Z)
    (signatures : list IndexedSignatureV1) : result TxError unit :=
  match signatures with
  | [] => Ok tt
  | item :: signatures =>
      if match prev with Some p => is_key_index item <=? p | None => false end
      then Err InvalidMultisigWitness else
      match keys !! Z.to_nat (is_key_index item) with
      | None => Err InvalidMultisigWitness
      | Some key =>
          if negb (vk_from_bytes key) then Err InvalidPublicKey else
          if negb (vk_verify key digest (is_signature item)) then Err InvalidSignature else
          verify_multisig_loop keys digest (Some (is_key_index item)) signatures
      end
  end.

Definition verify_multisig (payload : MultisigPayloadV1) (digest : bytes32)
    (signatures : list IndexedSignatureV1) : result TxError unit :=
  let? _ := MultisigPayloadV1_validate payload in
  let n := Z.of_nat (length signatures) in
  if (n <? ms_threshold payload) || (Z.of_nat (length (ms_public_keys payload)) <? n)
  then Err InvalidMultisigWitness else
  verify_multisig_loop (ms_public_keys payload) digest None signatures.
End witnesses.

Record EpochLockedPayloadV1 := {
  el_unlock_epoch : Z;
  el_inner_output_type : Z;
  el_inner_payload : bytes;
}.

Definition EpochLockedPayloadV1_validate (p : EpochLockedPayloadV1) : result TxError unit :=
  if (el_inner_output_type p =? OUTPUT_PUBKEY_HASH) || (el_inner_output_type p =? OUTPUT_MULTISIG)
  then Ok tt else Err UnsupportedEpochLockInnerType.

Definition EpochLockedPayloadV1_encode (p : EpochLockedPayloadV1) : result TxError bytes :=
  let? _ := EpochLockedPayloadV1_validate p in
  let out := [] in
  let out := write_u64_be out (el_unlock_epoch p) in
  let out := write_u8 out (el_inner_output_type p) in
  let out := write_varuint out (Z.of_nat (length (el_inner_payload p))) in
  Ok (out ++ el_inner_payload p).

Definition EpochLockedPayloadV1_check_epoch (p : EpochLockedPayloadV1) (candidate_epoch : Z)
    : result TxError unit :=
  if candidate_epoch <? el_unlock_epoch p then Err EpochLocked else Ok tt.

(** ** Fees *)

Definition required_base_fee (rate_q32 tx_weight : Z) : result TxError Z :=
  let? product := ok_or TxOverflow (checked_mul 128 rate_q32 tx_weight) in
  let denom := Z.shiftl 1 32 in
  let? sum := ok_or TxOverflow (checked_add 128 product (denom - 1)) in
  let fee := sum / denom in
  ok_or TxOverflow (try_from 64 fee).

(** ** The transaction format *)

Definition output_wf (o : TxOutput) : Prop :=
  is_u64 (to_amount_strikes o) /\ is_u8 (to_output_type o) /\
  Z.of_nat (length (to_payload o)) < 2 ^ 64.

Definition witness_wf (w : WitnessV1) : Prop :=
  is_u8 (w_witness_type w) /\ Z.of_nat (length (w_payload w)) < 2 ^ 64.

Definition commitment_wf (c : CoinbaseCommitmentV1) : Prop :=
  is_u64 (cc_block_epoch c) /\ is_u64 (cc_block_height c) /\
  is32 (cc_parent_block_hash c) /\ is32 (cc_protocol_operations_root c).

(** The null outpoint is reserved for the coinbase marker. *)
Definition input_wf (i : TxInput) : Prop :=
  match i with
  | Outpoint txid index => is32 txid /\ is_u16 index /\ ~ (txid = ZERO32 /\ index = 0xffff)
  | Coinbase c => commitment_wf c
  end.

Definition is_coinbase (i : TxInput) : bool := match i with Coinbase _ => true | _ => false end.

(** The transactions that have a canonical encoding. *)
Definition tx_wf (tx : TransactionV1) : Prop :=
  let c := tx_core tx in
  is_u16 (tc_version c) /\ is_u32 (tc_network_id c) /\
  is_u64 (tc_valid_from_epoch c) /\ is_u64 (tc_expiry_epoch c) /\
  (length (tc_inputs c) <= 1024)%nat /\ Forall input_wf (tc_inputs c) /\
  (length (tc_outputs c) <= 1024)%nat /\ Forall output_wf (tc_outputs c) /\
  Forall witness_wf (tx_witnesses tx) /\
  if existsb is_coinbase (tc_inputs c)
  then length (tc_inputs c) = 1%nat /\ tx_witnesses tx = []
  else length (tx_witnesses tx) = length (tc_inputs c).

Definition enc_output (o : TxOutput) : bytes := TxOutput_encode o [].
Definition enc_witness (w : WitnessV1) : bytes := WitnessV1_encode w [].
Definition enc_input (i : TxInput) : bytes := TxInput_encode_core i [].

Lemma TxOutput_encode_app o out : TxOutput_encode o out = out ++ enc_output o.
Proof. unfold enc_output, TxOutput_encode. by norm_writes. Qed.
Lemma WitnessV1_encode_app w out : WitnessV1_encode w out = out ++ enc_witness w.
Proof. unfold enc_witness, WitnessV1_encode. by norm_writes. Qed.
Lemma TxInput_encode_app i out : TxInput_encode_core i out = out ++ enc_input i.
Proof.
  unfold enc_input, TxInput_encode_core, CoinbaseCommitmentV1_encode. destruct i; by norm_writes.
Qed.

Lemma cv_ok {T} (r : result DecodeError T) x : cv r = Ok x -> r = Ok x.
Proof. unfold cv, map_err. by destruct r as [|]; intros [=->]. Qed.

Lemma take_vec_app a rest : take_vec (a ++ rest) (Z.of_nat (length a)) = Ok (a, rest).
Proof.
  unfold take_vec. destruct (Z.ltb_spec (Z.of_nat (length (a ++ rest))) (Z.of_nat (length a))); [len|].
  by rewrite Nat2Z.id, take_app_length, drop_app_length.
Qed.

Lemma take_vec_ok input n a rest :
  0 <= n -> take_vec input n = Ok (a, rest) -> input = a ++ rest /\ Z.of_nat (length a) = n.
Proof.
  unfold take_vec. intros Hn H. inv_ok. bool_to_prop. rewrite take_drop. split; [done|]. len.
Qed.

Lemma try_from_small w x : x < 2 ^ w -> try_from w x = Some x.
Proof. unfold try_from. intros. by destruct (Z.ltb_spec x (2 ^ w)); [|lia]. Qed.
Lemma try_from_Some w x y : try_from w x = Some y -> y = x /\ x < 2 ^ w.
Proof. unfold try_from. destruct (Z.ltb_spec x (2 ^ w)); [|done]. intros [= <-]. done. Qed.

#[local] Hint Rewrite try_from_small using lia : codec.

(** [tx_read_inv] runs a successful decoder backwards. *)
Ltac tx_read_inv :=
  inv_ok;
  repeat match goal with
  | H : cv _ = Ok _ |- _ => apply cv_ok in H
  | H : try_from _ _ = Some _ |- _ => apply try_from_Some in H as [? ?]
  end; read_inv; subst;
  repeat match goal with
  | H : take_vec _ _ = Ok _ |- _ => apply take_vec_ok in H as [? ?]; [|lia]
  end; subst.

Lemma decode_output_codec : codec decode_output enc_output output_wf.
Proof.
  intros input o rest. split.
  - unfold decode_output. intros H. tx_read_inv. unfold enc_output, TxOutput_encode. cbn.
    split; [split_and!; cbn; lia|]. norm_writes. done.
  - intros [(? & ? & ?) ->]. unfold decode_output, cv, enc_output, TxOutput_encode.
    norm_writes. run_reads. rewrite take_vec_app. by destruct o.
Qed.

Lemma decode_witness_codec : codec decode_witness enc_witness witness_wf.
Proof.
  intros input w rest. split.
  - unfold decode_witness. intros H. tx_read_inv. unfold enc_witness, WitnessV1_encode. cbn.
    split; [split_and!; cbn; lia|]. norm_writes. done.
  - intros [(? & ?) ->]. unfold decode_witness, cv, enc_witness, WitnessV1_encode.
    norm_writes. run_reads. rewrite take_vec_app. by destruct w.
Qed.

(** The loop over the inputs: a coinbase marker is only accepted as input 0 of 1. *)
Definition coinbase_placed (idx count : Z) (ins : list TxInput) : Prop :=
  forall j, (exists c, ins !! j = Some (Coinbase c)) -> count = 1 /\ idx + Z.of_nat j = 0.

Lemma coinbase_placed_cons idx count i ins :
  coinbase_placed idx count (i :: ins) <->
  (is_coinbase i = true -> count = 1 /\ idx = 0) /\ coinbase_placed (idx + 1) count ins.
Proof.
  split.
  - intros Hp. split.
    + destruct i as [|c]; [done|]. intros _. destruct (Hp 0%nat) as [-> ?]; [by exists c|]. lia.
    + intros j Hj. destruct (Hp (S j) Hj). lia.
  - intros [Hi Hp] [|j] [c Hj]; cbn in Hj.
    + simplify_eq/=. destruct Hi as [-> ->]; [done|]. lia.
    + destruct (Hp j) as [-> ?]; [by exists c|]. lia.
Qed.
Lemma decode_inputs_ok todo idx count cb input ins cb' rest :
  decode_inputs todo idx count cb input = Ok (ins, cb', rest) ->
  length ins = todo /\ Forall input_wf ins /\ input = encode_many enc_input ins ++ rest /\
  coinbase_placed idx count ins /\ cb' = cb || existsb is_coinbase ins.
Proof.
  revert idx cb input ins. induction todo as [|todo IH]; intros idx cb input ins; cbn [decode_inputs].
  { intros [= <- <- <-]. rewrite orb_false_r. by split_and!; try done; intros j [c ?]. }
  destruct (cv (read_u256_be input)) as [[txid in1]|] eqn:E1; [|done].
  destruct (cv (read_u16_be in1)) as [[index in2]|] eqn:E2; [|done].
  apply cv_ok in E1, E2. read_inv. subst.
  destruct (bytes_eqb _ _ && _) eqn:Em; intros H; inv_ok; bool_to_prop; subst.
  all: repeat match goal with H : cv _ = Ok _ |- _ => apply cv_ok in H end; read_inv; subst.
  all: match goal with E : decode_inputs _ _ _ _ _ = _ |- _ =>
         apply IH in E as (? & ? & -> & ? & ->) end.
  - split_and!; [simpl; congruence| | | |by destruct cb].
    + constructor; [|done]. unfold input_wf, commitment_wf. cbn. done.
    + unfold encode_many, enc_input. cbn [map concat TxInput_encode_core].
      unfold CoinbaseCommitmentV1_encode. cbn. norm_writes. done.
    + apply coinbase_placed_cons. split; [done|]. done.
  - split_and!; [simpl; congruence| | | |done].
    + constructor; [|done]. split; [done|]. split; [done|].
      intros [-> ->]. by rewrite bytes_eqb_refl in Em.
    + unfold encode_many, enc_input. cbn [map concat TxInput_encode_core]. norm_writes. done.
    + apply coinbase_placed_cons. done.
Qed.

Lemma decode_inputs_app idx count cb ins rest :
  Forall input_wf ins -> coinbase_placed idx count ins ->
  decode_inputs (length ins) idx count cb (encode_many enc_input ins ++ rest)
  = Ok (ins, cb || existsb is_coinbase ins, rest).
Proof.
  revert idx cb. induction ins as [|i ins IH]; intros idx cb Hw Hp; cbn [length decode_inputs].
  { cbn. by rewrite orb_false_r. }
  apply Forall_cons in Hw as [Hi Hw]. apply coinbase_placed_cons in Hp as [Hc Hp].
  unfold encode_many. cbn [map concat existsb]. fold (encode_many enc_input ins). unfold cv.
  destruct i as [txid index|c]; unfold enc_input; cbn [TxInput_encode_core is_coinbase].
  - destruct Hi as (? & ? & Hn). norm_writes. run_reads.
    assert (bytes_eqb txid ZERO32 && (index =? 65535) = false) as ->.
    { apply andb_false_iff. destruct (bytes_eqb txid ZERO32) eqn:E1; [right|by left].
      apply Z.eqb_neq. intros ->. bool_to_prop. subst. by apply Hn. }
    by rewrite IH.
  - destruct Hc as [-> ->]; [done|]. destruct c as [e h pb po], Hi as (? & ? & ? & ?). cbn in * |-.
    unfold CoinbaseCommitmentV1_encode. cbn [cc_block_epoch cc_block_height cc_parent_block_hash
      cc_protocol_operations_root]. norm_writes.
    rewrite read_u256_be_app by done. cbn [map_err]. rewrite read_u16_be_app by lia. cbn [map_err].
    rewrite bytes_eqb_refl. cbn [andb Z.eqb Pos.eqb negb orb]. run_reads.
    rewrite IH by done. by rewrite orb_true_l, !orb_true_r.
Qed.

Lemma encode_full_eq tx :
  let c := tx_core tx in
  TransactionV1_encode_full tx =
  be_bytes 2 (tc_version c) ++ be_bytes 4 (tc_network_id c) ++ be_bytes 8 (tc_valid_from_epoch c)
  ++ be_bytes 8 (tc_expiry_epoch c) ++ encode_varuint (Z.of_nat (length (tc_inputs c)))
  ++ encode_many enc_input (tc_inputs c) ++ encode_varuint (Z.of_nat (length (tc_outputs c)))
  ++ encode_many enc_output (tc_outputs c) ++ encode_many enc_witness (tx_witnesses tx).
Proof.
  unfold TransactionV1_encode_full, TransactionCoreV1_encode.
  rewrite !(fold_left_writer _ enc_witness) by (intros; apply WitnessV1_encode_app).
  rewrite !(fold_left_writer _ enc_output) by (intros; apply TxOutput_encode_app).
  rewrite !(fold_left_writer _ enc_input) by (intros; apply TxInput_encode_app).
  by norm_writes.
Qed.

Lemma existsb_coinbase (ins : list TxInput) j c :
  ins !! j = Some (Coinbase c) -> existsb is_coinbase ins = true.
Proof.
  intros Hj%list_elem_of_lookup_2%list_elem_of_In. apply existsb_exists. by exists (Coinbase c).
Qed.

(** Where the coinbase marker may stand, for the whole input list. *)
Lemma coinbase_placed_alone ins :
  coinbase_placed 0 (Z.of_nat (length ins)) ins <->
  (existsb is_coinbase ins = true -> length ins = 1%nat).
Proof.
  split.
  - intros Hp Hex. apply existsb_exists in Hex as (i & Hin & Hi).
    apply list_elem_of_In, list_elem_of_lookup in Hin as [j Hj].
    destruct i as [|c]; [done|]. destruct (Hp j) as [? _]; [by exists c|]. lia.
  - intros Hone j [c Hj]. rewrite Hone.
    + split; [done|]. apply lookup_lt_Some in Hj as Hlt. rewrite Hone in Hlt; [lia|].
      by eapply existsb_coinbase.
    + by eapply existsb_coinbase.
Qed.

Lemma decode_from_ok input tx rest :
  TransactionV1_decode_from input = Ok (tx, rest) ->
  tx_wf tx /\ input = TransactionV1_encode_full tx ++ rest.
Proof.
  unfold TransactionV1_decode_from. intros H. tx_read_inv. bool_to_prop.
  repeat match goal with
  | E : read_many decode_output _ _ = _ |- _ =>
      apply (read_many_codec _ _ _ _ decode_output_codec) in E as [[? ?] ->]
  | E : read_many decode_witness _ _ = _ |- _ =>
      apply (read_many_codec _ _ _ _ decode_witness_codec) in E as [[? ?] ->]
  | E : decode_inputs _ _ _ _ _ = _ |- _ =>
      apply decode_inputs_ok in E as (? & ? & -> & Hp & ->)
  end.
  rewrite encode_full_eq. cbn [tx_core tx_witnesses tc_version tc_network_id tc_valid_from_epoch
    tc_expiry_epoch tc_inputs tc_outputs].
  repeat match goal with E : length ?l = Z.to_nat ?z |- _ =>
    is_var z; assert (z = Z.of_nat (length l)) by lia; clear E; subst z end.
  split; [|by rewrite <- !app_assoc].
  unfold tx_wf. cbn [tx_core tx_witnesses tc_version tc_network_id tc_valid_from_epoch
    tc_expiry_epoch tc_inputs tc_outputs].
  pose proof (proj1 (coinbase_placed_alone _) Hp) as Hone.
  do 4 (split; [done|]). split; [lia|]. split; [done|]. split; [lia|]. do 2 (split; [done|]).
  cbn [orb] in *. destruct (existsb is_coinbase _); [split; [auto|by apply nil_length_inv]|lia].
Qed.

Lemma decode_from_app tx rest :
  tx_wf tx -> TransactionV1_decode_from (TransactionV1_encode_full tx ++ rest) = Ok (tx, rest).
Proof.
  intros (? & ? & ? & ? & Hni & Hi & Hno & Ho & Hw & Hc).
  rewrite encode_full_eq. unfold TransactionV1_decode_from, cv. rewrite <- !app_assoc.
  assert (coinbase_placed 0 (Z.of_nat (length (tc_inputs (tx_core tx)))) (tc_inputs (tx_core tx))).
  { apply coinbase_placed_alone. intros E. rewrite E in Hc. by destruct Hc. }
  run_reads. destruct (Z.ltb_spec 1024 (Z.of_nat (length (tc_inputs (tx_core tx))))); [lia|].
  rewrite Nat2Z.id, decode_inputs_app by done. cbn [orb]. run_reads.
  destruct (Z.ltb_spec 1024 (Z.of_nat (length (tc_outputs (tx_core tx))))); [lia|].
  rewrite Nat2Z.id.
  rewrite (proj2 (read_many_codec _ _ _ _ decode_output_codec _ (tc_outputs (tx_core tx))
             (encode_many enc_witness (tx_witnesses tx) ++ rest))) by done.
  rewrite (proj2 (read_many_codec _ _ _ _ decode_witness_codec _ (tx_witnesses tx) rest)).
  - by destruct tx as [[] ?].
  - split; [split; [|done]|done].
    destruct (existsb _ _); [destruct Hc as [_ ->]; done|]. by rewrite Nat2Z.id.
Qed.

(** ** The transaction root *)

Section merkle.
Context {SHA : Sha2}.

Lemma merkle_root_loop leaves :
  leaves <> [] ->
  merkle_root leaves = Some (nth 0 (merkle_loop domains.TX_NODE (length leaves) leaves) []).
Proof. by destruct leaves. Qed.

(** What the root hashes: the full encodings of the transactions, under the
    domain of witness identifiers, the leaves and the inner nodes. *)
Definition tx_leaf_content (tx : TransactionV1) : list bytes := [TransactionV1_txid tx; TransactionV1_wtxid tx].

Definition wtx_message (tx : TransactionV1) : bytes := domain_message domains.WTX_ID [TransactionV1_encode_full tx].

Definition merkle_root_messages (txs : list TransactionV1) : list bytes :=
  map wtx_message txs ++ merkle_messages domains.TX_NODE domains.TX_LEAF (map tx_leaf_content txs).

Lemma tx_leaves txs : map TransactionV1_leaf txs = merkle_leaves domains.TX_LEAF (map tx_leaf_content txs).
Proof. unfold merkle_leaves. by rewrite map_map. Qed.

Lemma wtxid_inj_or tx tx' :
  tx_wf tx -> tx_wf tx' -> TransactionV1_wtxid tx = TransactionV1_wtxid tx' ->
  tx = tx' \/ collides [wtx_message tx] [wtx_message tx'].
Proof.
  intros Hw Hw' [Heq|]%sha256_domain_inj_or; [left|by right]. cbn [concat] in Heq.
  rewrite !app_nil_r in Heq. pose proof (decode_from_app tx [] Hw) as H1.
  rewrite !app_nil_r, Heq in H1. pose proof (decode_from_app tx' [] Hw') as H2.
  rewrite app_nil_r in H2. congruence.
Qed.

Lemma tx_contents_inj_or txs txs' :
  Forall tx_wf txs -> Forall tx_wf txs' ->
  map (@concat _) (map tx_leaf_content txs) = map (@concat _) (map tx_leaf_content txs') ->
  txs = txs' \/ collides (map wtx_message txs) (map wtx_message txs').
Proof.
  intros Hw. revert txs'. induction Hw as [|t txs Ht _ IH]; intros [|t' txs'] Hw' Heq; try done; [by left|].
  apply Forall_cons in Hw' as [Ht' Hw']. cbn [map concat tx_leaf_content] in Heq. injection Heq as H1 H2.
  apply app_inj_len in H1 as [_ H1]; [|unfold TransactionV1_txid, TransactionCoreV1_txid; by len].
  rewrite !app_nil_r in H1. cbn [map].
  apply wtxid_inj_or in H1 as [->|Hc]; [|right; more_messages Hc|done..].
  destruct (IH txs' Hw' H2) as [->|Hc]; [by left|right; more_messages Hc].
Qed.
End merkle.

(** ** Multisignatures *)

Section multisig.
Context {SHA : Sha2} {ED : Ed25519}.

Definition keys_strict (keys : list bytes32) : Prop := StronglySorted (fun a b => bytes_ltb a b = true) keys.

Lemma keys_sorted_strict keys : keys_sorted keys = true <-> keys_strict keys.
Proof.
  unfold keys_strict. split.
  - induction keys as [|a [|b rest] IH]; intros H; [constructor|by repeat constructor|].
    cbn [keys_sorted] in H. unfold bytes_leb in H. destruct (bytes_ltb a b) eqn:E; [|done].
    cbn [negb] in H. specialize (IH H). constructor; [done|]. constructor; [done|].
    apply StronglySorted_inv in IH as [_ IH]. eapply Forall_impl; [exact IH|].
    intros c Hc. by apply (bytes_ltb_trans a b c).
  - induction keys as [|a [|b rest] IH]; intros H; [done..|]. apply StronglySorted_inv in H as [Hs Hf].
    cbn [keys_sorted]. unfold bytes_leb. apply Forall_inv in Hf. rewrite Hf. by apply IH.
Qed.

Lemma keys_strict_NoDup keys : keys_strict keys -> NoDup keys.
Proof.
  induction 1 as [|a keys _ IH Hf]; constructor; [|done]. intros Hin. rewrite Forall_forall in Hf.
  apply Hf in Hin. by rewrite bytes_ltb_irrefl in Hin.
Qed.

(** What the signature loop accepts. *)
Definition sig_ok (keys : list bytes32) (digest : bytes32) (s : IndexedSignatureV1) : Prop :=
  exists key, keys !! Z.to_nat (is_key_index s) = Some key /\ vk_from_bytes key = true /\
    vk_verify key digest (is_signature s) = true.

Definition above (prev : option Z) (s : IndexedSignatureV1) : Prop :=
  match prev with Some p => p < is_key_index s | None => True end.

Lemma verify_multisig_loop_spec keys digest prev sigs :
  verify_multisig_loop keys digest prev sigs = Ok tt <->
  Forall (sig_ok keys digest) sigs /\ Forall (above prev) sigs /\
  StronglySorted (fun a b => is_key_index a < is_key_index b) sigs.
Proof.
  revert prev. induction sigs as [|s sigs IH]; intros prev; cbn [verify_multisig_loop].
  { split; [by repeat constructor|done]. }
  assert (match prev with Some p => is_key_index s <=? p | None => false end = false <-> above prev s) as Hab.
  { destruct prev as [p|]; cbn; [|done]. by rewrite Z.leb_gt. }
  split.
  - destruct (match prev with Some p => _ | None => _ end) eqn:Ep; [done|].
    destruct (keys !! _) as [key|] eqn:Ek; [|done]. intros H. inv_ok. bool_to_prop.
    apply IH in H as (Hok & Hab' & Hs). apply proj1 in Hab. specialize (Hab eq_refl). split_and!.
    + constructor; [by exists key|done].
    + constructor; [done|]. eapply Forall_impl; [exact Hab'|]. intros x Hx. cbn in Hx.
      destruct prev; cbn in *; [lia|done].
    + by constructor.
  - intros (Hok & Ha & Hs). apply Forall_cons in Hok as [(key & -> & -> & ->) Hok].
    apply Forall_cons in Ha as [Ha _]. apply Hab in Ha as ->. cbn [negb].
    apply StronglySorted_inv in Hs as [Hs Hf]. by apply IH.
Qed.

Lemma sigs_index_inj sigs s t :
  StronglySorted (fun a b => is_key_index a < is_key_index b) sigs ->
  s ∈ sigs -> t ∈ sigs -> is_key_index s = is_key_index t -> s = t.
Proof.
  induction 1 as [|a l _ IH Hf]; intros Hs Ht Heq; [set_solver|]. rewrite Forall_forall in Hf.
  apply elem_of_cons in Hs as [->|Hs], Ht as [->|Ht]; [done| | |auto].
  - apply Hf in Ht. lia.
  - apply Hf in Hs. lia.
Qed.

Lemma sigs_NoDup sigs :
  StronglySorted (fun a b => is_key_index a < is_key_index b) sigs -> NoDup sigs.
Proof.
  induction 1 as [|a l _ IH Hf]; constructor; [|done]. intros Hin.
  rewrite Forall_forall in Hf. apply Hf in Hin. lia.
Qed.
End multisig.

(** ** Base fee *)

Lemma required_base_fee_eq rate weight :
  is_u64 rate -> is_u64 weight ->
  let fee := (rate * weight + (2 ^ 32 - 1)) / 2 ^ 32 in
  required_base_fee rate weight = if fee <? 2 ^ 64 then Ok fee else Err TxOverflow.
Proof.
  intros Hr Hw fee. unfold required_base_fee, checked_mul, checked_add, try_from.
  destruct (Z.ltb_spec (rate * weight) (2 ^ 128)); [|nia]. cbn [ok_or]. change (Z.shiftl 1 32) with (2 ^ 32).
  destruct (Z.ltb_spec (rate * weight + (2 ^ 32 - 1)) (2 ^ 128)); [|nia]. cbn [ok_or]. fold fee.
  by destruct (fee <? 2 ^ 64).
Qed.

(** ** Properties *)

(** The transaction format is canonical.  [decode_full] succeeds with [tx]
    exactly on [tx.encode_full()] of a well-formed transaction: every
    well-formed transaction round-trips, the decoder accepts no other byte
    string for it, and whatever it accepts is within the limits of 1024 inputs
    and outputs, has one witness per ordinary input, and has a coinbase marker
    only as its single input. *)
Theorem tx_decode_canonical bs tx :
  TransactionV1_decode_full bs = Ok tx <-> tx_wf tx /\ bs = TransactionV1_encode_full tx.
Proof.
  unfold TransactionV1_decode_full. split.
  - destruct (TransactionV1_decode_from bs) as [[tx' [|]]|] eqn:E; try done. intros [= <-].
    apply decode_from_ok in E as [? ->]. by rewrite app_nil_r.
  - intros [Hw ->]. pose proof (decode_from_app tx [] Hw) as H. rewrite app_nil_r in H. by rewrite H.
Qed.

Section properties.
Context {SHA : Sha2} {ED : Ed25519}.

Lemma merkle_root_inj_or txs txs' :
  txs <> [] -> txs' <> [] -> Forall tx_wf txs -> Forall tx_wf txs' ->
  merkle_root (map TransactionV1_leaf txs) = merkle_root (map TransactionV1_leaf txs') ->
  txs = txs' \/ collides (merkle_root_messages txs) (merkle_root_messages txs').
Proof.
  intros Hne Hne' Hw Hw' Heq.
  assert (forall l, l <> [] -> map TransactionV1_leaf l <> []) as Hmap by (by intros []).
  assert (forall l, l <> [] -> map tx_leaf_content l <> []) as Hmapc by (by intros []).
  rewrite !merkle_root_loop, !tx_leaves, !merkle_leaves_length in Heq by auto. apply Some_inj in Heq.
  unfold merkle_root_messages.
  apply merkle_loop_inj_or in Heq as [Heq|Hc];
    [|right; more_messages Hc|solve_domain|solve_domain|solve_domain|by auto..].
  apply tx_contents_inj_or in Heq as [->|Hc]; [by left|right; more_messages Hc|done..].
Qed.

(** The transaction root of a block commits to its list of transactions.
    Two non-empty lists of well-formed transactions with one Merkle root are
    the same list, witnesses included, unless two of the messages hashed for
    the two roots collide; in particular the promotion of an odd last node does
    not make two lists of different lengths collide. *)
Theorem merkle_root_commits txs txs' :
  txs <> [] -> txs' <> [] -> Forall tx_wf txs -> Forall tx_wf txs' ->
  merkle_root (map TransactionV1_leaf txs) = merkle_root (map TransactionV1_leaf txs') ->
  txs = txs' \/ collides (merkle_root_messages txs) (merkle_root_messages txs').
Proof. apply merkle_root_inj_or. Qed.

(** A multisignature witness is only accepted when at least [threshold]
    different keys of the policy have signed the digest: no key counts twice
    and no signature is accepted under a key outside the policy. *)
Theorem verify_multisig_sound payload digest sigs :
  Forall (fun s => is_u8 (is_key_index s)) sigs ->
  verify_multisig payload digest sigs = Ok tt ->
  exists signers, NoDup signers /\ ms_threshold payload <= Z.of_nat (length signers) /\
    Forall (fun k => k ∈ ms_public_keys payload /\ vk_from_bytes k = true /\
      exists s, s ∈ sigs /\ vk_verify k digest (is_signature s) = true) signers.
Proof.
  intros Hu8 H. unfold verify_multisig, MultisigPayloadV1_validate in H. inv_ok. bool_to_prop.
  apply verify_multisig_loop_spec in H as (Hok & _ & Hs).
  match goal with E : keys_sorted _ = true |- _ => apply keys_sorted_strict, keys_strict_NoDup in E as Hnd end.
  set (keys := ms_public_keys payload) in *.
  set (key_of := fun s => nth (Z.to_nat (is_key_index s)) keys []).
  assert (forall s, s ∈ sigs -> keys !! Z.to_nat (is_key_index s) = Some (key_of s)) as Hkey.
  { intros s Hin. rewrite Forall_forall in Hok. destruct (Hok s Hin) as (k & Hk & _).
    rewrite Hk. f_equal. symmetry. by apply nth_lookup_Some. }
  exists (key_of <$> sigs). split_and!; [|rewrite length_fmap; lia|].
  - apply NoDup_fmap_2_strong.
    + intros s t Hin Hin' Heq. apply Hkey in Hin as Hks. apply Hkey in Hin' as Hkt.
      rewrite <- Heq in Hkt. pose proof (NoDup_lookup _ _ _ _ Hnd Hks Hkt) as Hi.
      rewrite Forall_forall in Hu8. pose proof (Hu8 s Hin). pose proof (Hu8 t Hin').
      apply (sigs_index_inj sigs); [done..|lia].
    + by apply sigs_NoDup.
  - apply Forall_fmap, Forall_forall. intros s Hin. cbn. pose proof (Hkey s Hin) as Hk.
    rewrite Forall_forall in Hok. destruct (Hok s Hin) as (k & Hk' & Hvk & Hv).
    rewrite Hk in Hk'. injection Hk' as <-. split_and!; [by apply list_elem_of_lookup_2 in Hk|done|].
    by exists s.
Qed.

(** A key holder can spend, and only under the right address.  A witness
    made with a signing key is accepted for the address of its public key;
    and every accepted witness carries a 32-byte key that hashes to the
    address together with a 64-byte signature of the digest under that key. *)
Theorem pubkey_hash_witness_correct sk digest address w :
  (address = address_id (sk_public sk) ->
   w = WitnessV1_pubkey_hash (sk_public sk) (sk_sign sk digest) ->
   verify_pubkey_hash_witness address digest w = Ok tt) /\
  (verify_pubkey_hash_witness address digest w = Ok tt ->
   exists pk sig, w = WitnessV1_pubkey_hash pk sig /\ is32 pk /\ is64 sig /\
     address_id pk = address /\ vk_from_bytes pk = true /\ vk_verify pk digest sig = true).
Proof.
  unfold verify_pubkey_hash_witness. split.
  - intros -> ->. cbn [w_witness_type w_payload WitnessV1_pubkey_hash].
    rewrite length_app, sk_public_length, sk_sign_length. cbn [negb orb Nat.add Nat.eqb].
    rewrite take_app_exact, drop_app_exact by apply sk_public_length.
    rewrite bytes_eqb_refl, sk_public_valid, sk_sign_verify. done.
  - intros H. inv_ok. bool_to_prop.
    exists (take 32 (w_payload w)), (drop 32 (w_payload w)). split_and!; try done; [|by len..].
    unfold WitnessV1_pubkey_hash. rewrite take_drop. destruct w; cbn in *. by f_equal.
Qed.

(** The message [sighash_all] hashes. *)
Definition sighash_message (txid : bytes32) (i : Z) (p : PrevoutCommitmentV1) : bytes :=
  domain_message domains.TX_SIGN [txid; be_bytes 2 i; PrevoutCommitmentV1_encode p].

(** The signature digest covers everything that is spent: two equal
    [sighash_all] digests have the same transaction id, input index and
    previous output (outpoint, amount, type and payload), unless the two
    messages collide. *)
Theorem sighash_all_binds txid txid' i i' p p' :
  is32 txid -> is32 txid' -> is_u16 i -> is_u16 i' ->
  is32 (pc_previous_txid p) -> is32 (pc_previous_txid p') ->
  is_u16 (pc_previous_output_index p) -> is_u16 (pc_previous_output_index p') ->
  is_u64 (pc_amount_strikes p) -> is_u64 (pc_amount_strikes p') ->
  is_u8 (pc_output_type p) -> is_u8 (pc_output_type p') ->
  Z.of_nat (length (pc_payload p)) < 2 ^ 64 -> Z.of_nat (length (pc_payload p')) < 2 ^ 64 ->
  sighash_all txid i p = sighash_all txid' i' p' ->
  (txid = txid' /\ i = i' /\ p = p') \/ collides [sighash_message txid i p] [sighash_message txid' i' p'].
Proof.
  intros ?????????????? Heq. apply sha256_domain_inj_or in Heq as [Heq|]; [left|by right].
  unfold PrevoutCommitmentV1_encode in Heq. cbn [concat] in Heq. rewrite !app_nil_r in Heq.
  norm_writes. enc_inj. split_and!; [done..|]. destruct p, p'; f_equal; assumption.
Qed.
End properties.

(** [required_base_fee] is the exact ceiling of [rate * weight / 2^32] for
    every pair of [u64] arguments: the [u128] intermediate never overflows, the
    result is the least fee that covers the weight, and the only error is a fee
    that does not fit in 64 bits. *)
Theorem required_base_fee_ceiling rate weight :
  is_u64 rate -> is_u64 weight ->
  (forall fee, required_base_fee rate weight = Ok fee <->
     is_u64 fee /\ rate * weight <= fee * 2 ^ 32 /\ (fee - 1) * 2 ^ 32 < rate * weight) /\
  (required_base_fee rate weight = Err TxOverflow <-> (2 ^ 64 - 1) * 2 ^ 32 < rate * weight) /\
  (required_base_fee rate weight <> Err TxOverflow -> exists fee, required_base_fee rate weight = Ok fee).
Proof.
  intros Hr Hw. rewrite required_base_fee_eq by done. set (p := rate * weight).
  assert (0 <= p) by (unfold p; nia). set (q := (p + (2 ^ 32 - 1)) / 2 ^ 32).
  assert (p <= q * 2 ^ 32 /\ (q - 1) * 2 ^ 32 < p /\ 0 <= q) as (H1 & H2 & H3).
  { unfold q. pose proof (Z.div_mod (p + (2 ^ 32 - 1)) (2 ^ 32) ltac:(lia)).
    pose proof (Z.mod_pos_bound (p + (2 ^ 32 - 1)) (2 ^ 32) ltac:(lia)).
    pose proof (Z.div_pos (p + (2 ^ 32 - 1)) (2 ^ 32) ltac:(lia) ltac:(lia)). lia. }
  clearbody p q. destruct (Z.ltb_spec q (2 ^ 64)); split_and!; try done; try by eauto.
  all: split; intros Hx; inv_ok; try done; try (f_equal; lia); try lia.
Qed.

(** ** Concrete transactions: the repository's Pack-B vectors *)

Definition byte_range (a n : nat) : bytes := map (fun i => byte_of_Z (Z.of_nat i)) (seq a n).

Definition b1_core : TransactionCoreV1 :=
  {| tc_version := 1; tc_network_id := 0x4d555401; tc_valid_from_epoch := 12346;
     tc_expiry_epoch := 12410; tc_inputs := [Outpoint (byte_range 0x40 32) 2];
     tc_outputs := [{| to_amount_strikes := 999990000; to_output_type := OUTPUT_PUBKEY_HASH;
       to_payload := hex "b6b7fa4d26a59625a92fb1218f041b1230ebd53650024eca30d04974531ba5d9" |}] |}.

Definition b1_witness : WitnessV1 :=
  WitnessV1_pubkey_hash (hex "79b5562e8fe654f94078b112e8a98ba7901f853ae695bed7e0e3910bad049664")
    (hex "fbf9d0690edd01981e82f4a24180b87137c76d486ff4c51eea52a71accc8e0a9b8f834ee08dbacb4b44ded67badb7c77378b2c1a035ae16d479c7b443a903b02").

Definition b1_tx : TransactionV1 := {| tx_core := b1_core; tx_witnesses := [b1_witness] |}.

Definition b1_coinbase : TransactionV1 :=
  {| tx_core := {| tc_version := 1; tc_network_id := 0x4d555401; tc_valid_from_epoch := 12346;
       tc_expiry_epoch := 0;
       tc_inputs := [Coinbase {| cc_block_epoch := 12346; cc_block_height := 100;
         cc_parent_block_hash := byte_range 0xc0 32;
         cc_protocol_operations_root := protocol_operations_empty_root |}];
       tc_outputs := [{| to_amount_strikes := 800000000; to_output_type := OUTPUT_PUBKEY_HASH;
         to_payload := hex "b6b7fa4d26a59625a92fb1218f041b1230ebd53650024eca30d04974531ba5d9" |}] |};
     tx_witnesses := [] |}.

Definition b1_prevout : PrevoutCommitmentV1 :=
  {| pc_previous_txid := byte_range 0x40 32; pc_previous_output_index := 2;
     pc_amount_strikes := 1000000000; pc_output_type := OUTPUT_PUBKEY_HASH;
     pc_payload := address_id (hex "79b5562e8fe654f94078b112e8a98ba7901f853ae695bed7e0e3910bad049664") |}.

Example pack_b_vectors :
  TransactionCoreV1_encode b1_core = hex "00014d555401000000000000303a000000000000307a01404142434445464748494a4b4c4d4e4f505152535455565758595a5b5c5d5e5f000201000000003b9aa2f00120b6b7fa4d26a59625a92fb1218f041b1230ebd53650024eca30d04974531ba5d9" /\
  TransactionV1_txid b1_tx = hex "ce16cf9dd894b62240b8f869b07790803ffc2b5a9cd0d43ee159c35ae25e3228" /\
  sighash_all (TransactionV1_txid b1_tx) 0 b1_prevout
    = hex "890c9a9aee98b00b90c75bf50f8bdc0ec8d752ba1bfea04f3fd78d192e4a7e25" /\
  TransactionV1_serialized_len b1_tx = 198 /\
  TransactionV1_leaf b1_tx = hex "e3fcd26d6ac792feb61466f0b43262d1dd54abe82d1f3f9c2307c1342dccf923" /\
  TransactionV1_leaf b1_coinbase = hex "bc729af1fc6ab9e9d6bc213e6f184882e5b04779310dbae5fcda04aae37b2434" /\
  merkle_root [TransactionV1_leaf b1_coinbase; TransactionV1_leaf b1_tx]
    = Some (hex "6c8413905395b8ec33e0f9130f82dd3b9fc4bd449ed3ffecbba6ee4dfeedd109") /\
  TransactionV1_decode_full (TransactionV1_encode_full b1_coinbase) = Ok b1_coinbase /\
  required_base_fee 5368709120 198 = Ok 248.
Proof. vm_compute. repeat split. Qed.

Lemma b1_txs_wf : Forall tx_wf [b1_coinbase; b1_tx].
Proof. repeat constructor; vm_compute; intuition congruence. Qed.

Lemma merkle_root_commits_witness : [b1_coinbase; b1_tx] = [b1_coinbase; b1_tx] \/
  collides (merkle_root_messages [b1_coinbase; b1_tx]) (merkle_root_messages [b1_coinbase; b1_tx]).
Proof.
  exact (merkle_root_commits [b1_coinbase; b1_tx] [b1_coinbase; b1_tx] ltac:(done) ltac:(done)
           b1_txs_wf b1_txs_wf eq_refl).
Defined.

Definition demo_policy : MultisigPayloadV1 :=
  {| ms_threshold := 2;
     ms_public_keys := [replicate 32 Byte.x01; replicate 32 Byte.x02; replicate 32 Byte.x03] |}.
Definition demo_sig (b : Byte.byte) (i : Z) : IndexedSignatureV1 :=
  {| is_key_index := i; is_signature := sk_sign (Ed25519 := ed25519_demo) (replicate 32 b) ZERO32 |}.

Lemma verify_multisig_sound_witness :
  exists signers, NoDup signers /\ 2 <= Z.of_nat (length signers) /\
    Forall (fun k => k ∈ ms_public_keys demo_policy /\ vk_from_bytes (Ed25519 := ed25519_demo) k = true /\
      exists s, s ∈ [demo_sig Byte.x01 0; demo_sig Byte.x03 2] /\
        vk_verify (Ed25519 := ed25519_demo) k ZERO32 (is_signature s) = true) signers.
Proof.
  apply (verify_multisig_sound (ED := ed25519_demo) demo_policy ZERO32
           [demo_sig Byte.x01 0; demo_sig Byte.x03 2]).
  - repeat constructor; vm_compute; congruence.
  - vm_compute. reflexivity.
Defined.

Lemma pubkey_hash_witness_correct_witness :
  verify_pubkey_hash_witness (ED := ed25519_demo) (address_id (pad32 [Byte.x07])) ZERO32
    (WitnessV1_pubkey_hash (pad32 [Byte.x07]) (pad32 [Byte.x07] ++ pad32 ZERO32)) = Ok tt.
Proof.
  exact (proj1 (pubkey_hash_witness_correct (ED := ed25519_demo) [Byte.x07] ZERO32
    (address_id (pad32 [Byte.x07]))
    (WitnessV1_pubkey_hash (pad32 [Byte.x07]) (pad32 [Byte.x07] ++ pad32 ZERO32))) eq_refl eq_refl).
Defined.

Lemma sighash_all_binds_witness :
  (ZERO32 = ZERO32 /\ 3 = 3 /\ b1_prevout = b1_prevout) \/
  collides [sighash_message ZERO32 3 b1_prevout] [sighash_message ZERO32 3 b1_prevout].
Proof.
  apply (sighash_all_binds ZERO32 ZERO32 3 3 b1_prevout b1_prevout); try reflexivity; try lia;
    split; reflexivity || discriminate.
Defined.

Lemma required_base_fee_ceiling_witness :
  required_base_fee 5368709120 198 = Ok 248 /\
  (required_base_fee (2 ^ 63) (2 ^ 63) = Err TxOverflow <-> (2 ^ 64 - 1) * 2 ^ 32 < 2 ^ 63 * 2 ^ 63).
Proof.
  split.
  - apply (proj1 (required_base_fee_ceiling 5368709120 198 ltac:(lia) ltac:(lia)) 248). lia.
  - exact (proj1 (proj2 (required_base_fee_ceiling (2 ^ 63) (2 ^ 63) ltac:(lia) ltac:(lia)))).
Defined.
