(* ===== verification/Bitcoin.v ===== *)
(** Crate [mutiny-bitcoin]: parsing of Bitcoin transactions, compact targets,
    the Mainnet retarget and median-time-past rules, header chains and the SPV
    payment check.

    A [BitcoinHeader] is its 80 raw bytes.  The parser keeps the whole byte
    string and a cursor, as the source does; [usize] is 64 bits wide.
    Projections: [bo_] for [BitcoinTxOutput], [pt_] for
    [ParsedBitcoinTransaction], [sp_] for [BitcoinSpvProofV1], [vp_] for
    [ValidatedBitcoinPayment]. *)

From S2P Require Import Prelude Crypto Sha256.

Definition REQUIRED_CONFIRMATIONS : nat := 6.
Definition ANCHOR_CONTEXT_HEADERS : nat := 11.
Definition CANONICAL_MANIFEST_SCRIPT_LEN : nat := 34.

Inductive BitcoinError :=
| Truncated
| BadCompactSize
| BadTransaction
| PaymentOutputMissing
| ManifestOutputMissing
| WrongTreasuryScript
| Underpayment
| BadManifestCommitment
| BadMerkleProof
| InsufficientConfirmations
| NonContiguousHeaders
| BadCompactTarget
| BadProofOfWork
| UntrustedHeaderAnchor
| UnexpectedDifficulty
| BadAnchorContextLength
| AnchorNotRetargetBoundary
| FixtureMiningExhausted
| MedianTimePastViolation
| ArithmeticOverflow.

Record BitcoinTxOutput := { bo_value_sats : Z; bo_script_pubkey : bytes }.
Record ParsedBitcoinTransaction := { pt_txid_internal : bytes32; pt_outputs : list BitcoinTxOutput }.
Abbreviation BitcoinHeader := bytes (only parsing).

Record BitcoinSpvProofV1 := {
  sp_raw_transaction : bytes;
  sp_payment_output_index : Z;
  sp_manifest_output_index : Z;
  sp_tx_index : Z;
  sp_merkle_branch : list bytes32;
  sp_headers : list BitcoinHeader;
  sp_containing_block_height : Z;
}.

Record ValidatedBitcoinPayment := {
  vp_txid_internal : bytes32;
  vp_containing_block_hash_internal : bytes32;
  vp_containing_block_height : Z;
  vp_sixth_confirmation_hash_internal : bytes32;
  vp_sixth_confirmation_height : Z;
  vp_sixth_confirmation_timestamp : Z;
  vp_payment_output_index : Z;
  vp_paid_sats : Z;
}.

(** ** Headers *)

Definition previous_block_internal (h : BitcoinHeader) : bytes32 := slice 4 36 h.
Definition merkle_root_internal (h : BitcoinHeader) : bytes32 := slice 36 68 h.
Definition timestamp (h : BitcoinHeader) : Z := le_val (slice 68 72 h).
Definition bits (h : BitcoinHeader) : Z := le_val (slice 72 76 h).

(** ** The cursor *)

Definition btc_take (bs : bytes) (cursor n : Z) : result BitcoinError (bytes * Z) :=
  let? end_ := ok_or Truncated (checked_add 64 cursor n) in
  if Z.of_nat (length bs) <? end_ then Err Truncated
  else Ok (slice (Z.to_nat cursor) (Z.to_nat end_) bs, end_).

Definition usize_from_u64 (v : Z) : result BitcoinError Z := ok_or BadTransaction (try_from 64 v).

(** The value, its encoding and the advanced cursor. *)
Definition read_compact_size (bs : bytes) (cursor : Z) : result BitcoinError (Z * bytes * Z) :=
  let? (head, cursor) := btc_take bs cursor 1 in
  let? first := ok_or Truncated (hd_error head) in
  let f := Z_of_byte first in
  if f <=? 0xfc then Ok (f, [first], cursor) else
  if f =? 0xfd then
    let? (raw, cursor) := btc_take bs cursor 2 in
    let v := le_val raw in
    if v <? 0xfd then Err BadCompactSize else Ok (v, byte_of_Z 0xfd :: raw, cursor) else
  if f =? 0xfe then
    let? (raw, cursor) := btc_take bs cursor 4 in
    let v := le_val raw in
    if v <=? 0xffff then Err BadCompactSize else Ok (v, byte_of_Z 0xfe :: raw, cursor)
  else
    let? (raw, cursor) := btc_take bs cursor 8 in
    let v := le_val raw in
    if v <=? 0xffffffff then Err BadCompactSize else Ok (v, byte_of_Z 0xff :: raw, cursor).

(** ** Transactions *)

(** The loop over the inputs; [stripped] grows by the legacy bytes. *)
Fixpoint parse_inputs (n : nat) (bs : bytes) (cursor : Z) (stripped : bytes)
    : result BitcoinError (bytes * Z) :=
  match n with
  | O => Ok (stripped, cursor)
  | S n =>
      let? (outpoint, cursor) := btc_take bs cursor 36 in
      let stripped := stripped ++ outpoint in
      let? (script_len, script_enc, cursor) := read_compact_size bs cursor in
      let stripped := stripped ++ script_enc in
      let? script_len := usize_from_u64 script_len in
      let? (script, cursor) := btc_take bs cursor script_len in
      let stripped := stripped ++ script in
      let? (sequence, cursor) := btc_take bs cursor 4 in
      parse_inputs n bs cursor (stripped ++ sequence)
  end.

Fixpoint parse_outputs (n : nat) (bs : bytes) (cursor : Z) (stripped : bytes)
    : result BitcoinError (list BitcoinTxOutput * bytes * Z) :=
  match n with
  | O => Ok ([], stripped, cursor)
  | S n =>
      let? (value_bytes, cursor) := btc_take bs cursor 8 in
      let stripped := stripped ++ value_bytes in
      let value_sats := le_val value_bytes in
      let? (script_len, script_enc, cursor) := read_compact_size bs cursor in
      let stripped := stripped ++ script_enc in
      let? script_len := usize_from_u64 script_len in
      let? (script, cursor) := btc_take bs cursor script_len in
      let stripped := stripped ++ script in
      let? (outputs, stripped, cursor) := parse_outputs n bs cursor stripped in
      Ok ({| bo_value_sats := value_sats; bo_script_pubkey := script |} :: outputs, stripped, cursor)
  end.

(** [for _ in 0..items]: every round reads at least one byte, so the length of
    the input bounds the rounds that can succeed; with the fuel used up and
    items left the next read would be past the end. *)
Fixpoint skip_items (fuel : nat) (items : Z) (bs : bytes) (cursor : Z) : result BitcoinError Z :=
  if items <=? 0 then Ok cursor else
  match fuel with
  | O => Err Truncated
  | S fuel =>
      let? (len, _, cursor) := read_compact_size bs cursor in
      let? len := usize_from_u64 len in
      let? (_, cursor) := btc_take bs cursor len in
      skip_items fuel (items - 1) bs cursor
  end.

Fixpoint skip_witnesses (n : nat) (bs : bytes) (cursor : Z) : result BitcoinError Z :=
  match n with
  | O => Ok cursor
  | S n =>
      let? (items, _, cursor) := read_compact_size bs cursor in
      let? items := usize_from_u64 items in
      let? cursor := skip_items (length bs) items bs cursor in
      skip_witnesses n bs cursor
  end.

Section hashing.
Context {SHA : Sha2}.

Definition double_sha256 (bs : bytes) : bytes32 := sha256 (sha256 bs).

Definition hash_internal (h : BitcoinHeader) : bytes32 := double_sha256 h.

(** Hash bytes are displayed in reverse order ([hex_lower] is [hex_encode]). *)
Definition display_hex_from_internal (hash : bytes32) : String.string := hex_encode (rev hash).
Definition hash_display_hex (h : BitcoinHeader) : String.string := hex_encode (rev (hash_internal h)).

Definition parse_transaction (bs : bytes) : result BitcoinError ParsedBitcoinTransaction :=
  let cursor := 0 in
  let? (version, cursor) := btc_take bs cursor 4 in
  let stripped := version in
  let segwit :=
    bool_decide (bs !! Z.to_nat cursor = Some Byte.x00) &&
    match bs !! Z.to_nat (cursor + 1) with
    | Some f => negb (Z_of_byte f =? 0)
    | None => false
    end in
  let? cursor :=
    if (segwit : bool) then let? (_, cursor) := btc_take bs cursor 2 in Ok cursor else Ok cursor in
  let? (vin_count, vin_enc, cursor) := read_compact_size bs cursor in
  if (vin_count =? 0) || (saturating_add 64 (Z.of_nat (length bs) / 41) 1 <? vin_count)
  then Err BadTransaction else
  let stripped := stripped ++ vin_enc in
  let? n_in := usize_from_u64 vin_count in
  let? (stripped, cursor) := parse_inputs (Z.to_nat n_in) bs cursor stripped in
  let? (vout_count, vout_enc, cursor) := read_compact_size bs cursor in
  if (vout_count =? 0) || (saturating_add 64 (Z.of_nat (length bs) / 9) 1 <? vout_count)
  then Err BadTransaction else
  let stripped := stripped ++ vout_enc in
  let? n_out := usize_from_u64 vout_count in
  let? (outputs, stripped, cursor) := parse_outputs (Z.to_nat n_out) bs cursor stripped in
  let? cursor := if (segwit : bool) then skip_witnesses (Z.to_nat n_in) bs cursor else Ok cursor in
  let? (lock_time, cursor) := btc_take bs cursor 4 in
  let stripped := stripped ++ lock_time in
  if negb (cursor =? Z.of_nat (length bs)) then Err BadTransaction else
  Ok {| pt_txid_internal := double_sha256 stripped; pt_outputs := outputs |}.

(** [OP_RETURN] and a direct push of 32 bytes. *)
Definition canonical_manifest_script (manifest_hash : bytes32) : bytes :=
  byte_of_Z 0x6a :: byte_of_Z 0x20 :: manifest_hash.

Fixpoint merkle_root_from_branch (leaf_internal : bytes32) (index : Z) (branch : list bytes32)
    : bytes32 :=
  match branch with
  | [] => leaf_internal
  | sibling :: branch =>
      let pair := if Z.land index 1 =? 0 then leaf_internal ++ sibling else sibling ++ leaf_internal in
      merkle_root_from_branch (double_sha256 pair) (Z.shiftr index 1) branch
  end.
End hashing.

(** ** Compact targets *)

Definition compact_target_be (bits : Z) : result BitcoinError bytes32 :=
  let exponent := Z.shiftr bits 24 in
  let mantissa := Z.land bits 0x007fffff in
  if (mantissa =? 0) || negb (Z.land bits 0x00800000 =? 0) || (exponent =? 0) || (32 <? exponent)
  then Err BadCompactTarget else
  let mant := [byte_of_Z (Z.shiftr mantissa 16); byte_of_Z (Z.shiftr mantissa 8); byte_of_Z mantissa] in
  if exponent <=? 3 then
    let shifted := Z.shiftr mantissa (8 * (3 - exponent)) in
    Ok (replicate 28 Byte.x00 ++ be_bytes 4 shifted)
  else
    let? start := ok_or BadCompactTarget (checked_sub 32 exponent) in
    let count := Z.min (32 - start) 3 in
    Ok (replicate (Z.to_nat start) Byte.x00 ++ take (Z.to_nat count) mant
        ++ replicate (Z.to_nat (32 - start - count)) Byte.x00).

Definition BITCOIN_MAINNET_POW_LIMIT_BITS : Z := 0x1d00ffff.
Definition BITCOIN_MAINNET_TARGET_SPACING_SECONDS : Z := 600.
Definition BITCOIN_MAINNET_RETARGET_INTERVAL : Z := 2016.
Definition BITCOIN_MAINNET_TARGET_TIMESPAN_SECONDS : Z := 1209600.
Definition BITCOIN_MAINNET_RETARGET_MIN_TIMESPAN_SECONDS : Z :=
  BITCOIN_MAINNET_TARGET_TIMESPAN_SECONDS / 4.
Definition BITCOIN_MAINNET_RETARGET_MAX_TIMESPAN_SECONDS : Z :=
  BITCOIN_MAINNET_TARGET_TIMESPAN_SECONDS * 4.
Definition BITCOIN_MAINNET_MTP_WINDOW : nat := 11.

Definition biguint_to_be32 (value : Z) : result BitcoinError bytes32 :=
  ok_or ArithmeticOverflow (to_be32 value).

Definition compact_bits_from_biguint (target : Z) : result BitcoinError Z :=
  if target =? 0 then Err BadCompactTarget else
  let bs := to_bytes_be target in
  let size := Z.of_nat (length bs) in
  let mantissa :=
    if size <=? 3 then
      let value := fold_left (fun value byte => Z.lor (Z.shiftl value 8) (Z_of_byte byte)) bs 0 in
      Z.shiftl value (8 * (3 - size))
    else
      Z.lor (Z.lor (Z.shiftl (Z_of_byte (nth 0 bs Byte.x00)) 16)
                   (Z.shiftl (Z_of_byte (nth 1 bs Byte.x00)) 8)) (Z_of_byte (nth 2 bs Byte.x00)) in
  let? (mantissa, size) :=
    if negb (Z.land mantissa 0x00800000 =? 0) then
      let? size := ok_or ArithmeticOverflow (checked_add 64 size 1) in
      Ok (Z.shiftr mantissa 8, size)
    else Ok (mantissa, size) in
  if 255 <? size then Err ArithmeticOverflow else
  Ok (Z.lor (Z.shiftl size 24) (Z.land mantissa 0x007fffff)).

Definition compact_bits_from_target_be (target : bytes32) : result BitcoinError Z :=
  compact_bits_from_biguint (be_val target).

Definition canonical_compact_target_be (bits : Z) : result BitcoinError bytes32 :=
  let? target := compact_target_be bits in
  let? back := compact_bits_from_target_be target in
  if negb (back =? bits) then Err BadCompactTarget else Ok target.

Definition validate_mainnet_target_bits (bits : Z) : result BitcoinError bytes32 :=
  let? target := canonical_compact_target_be bits in
  let? pow_limit := compact_target_be BITCOIN_MAINNET_POW_LIMIT_BITS in
  if bytes_ltb pow_limit target then Err BadCompactTarget else Ok target.

Definition bitcoin_header_work_be (bits : Z) : result BitcoinError bytes32 :=
  let? target := canonical_compact_target_be bits in
  let target := be_val target in
  let numerator := Z.shiftl 1 256 in
  let work := numerator / (target + 1) in
  biguint_to_be32 work.

Definition add_chainwork_be (parent_relative_chainwork header_work : bytes32)
    : result BitcoinError bytes32 :=
  biguint_to_be32 (be_val parent_relative_chainwork + be_val header_work).

Definition bitcoin_mainnet_retarget_bits (old_bits first_period_timestamp last_period_timestamp : Z)
    : result BitcoinError Z :=
  let? old_target := validate_mainnet_target_bits old_bits in
  let? pow_limit := compact_target_be BITCOIN_MAINNET_POW_LIMIT_BITS in
  let old_target := be_val old_target in
  let pow_limit := be_val pow_limit in
  let elapsed_signed := last_period_timestamp - first_period_timestamp in
  let elapsed := Z.min (Z.max elapsed_signed BITCOIN_MAINNET_RETARGET_MIN_TIMESPAN_SECONDS)
                   BITCOIN_MAINNET_RETARGET_MAX_TIMESPAN_SECONDS in
  let target := old_target * elapsed / BITCOIN_MAINNET_TARGET_TIMESPAN_SECONDS in
  let target := if pow_limit <? target then pow_limit else target in
  compact_bits_from_biguint target.

Definition expected_mainnet_bits (next_height parent_bits first_period_timestamp parent_timestamp : Z)
    : result BitcoinError Z :=
  let? _ := validate_mainnet_target_bits parent_bits in
  if negb (next_height mod BITCOIN_MAINNET_RETARGET_INTERVAL =? 0) then Ok parent_bits
  else bitcoin_mainnet_retarget_bits parent_bits first_period_timestamp parent_timestamp.

(** [sort_unstable] on integers: the sorted permutation. *)
Definition median_timestamp_11 (previous_timestamps : list Z) : Z :=
  nth (BITCOIN_MAINNET_MTP_WINDOW / 2) (merge_sort Z.le previous_timestamps) 0.

Definition validate_mainnet_mtp (candidate_timestamp : Z) (previous_timestamps : list Z)
    : result BitcoinError unit :=
  if candidate_timestamp <=? median_timestamp_11 previous_timestamps
  then Err MedianTimePastViolation else Ok tt.

(** ** Header rules and payments *)

Section headers.
Context {SHA : Sha2}.

Definition header_meets_mainnet_pow (header : BitcoinHeader) : result BitcoinError bool :=
  let? target := validate_mainnet_target_bits (bits header) in
  let hash_number := rev (hash_internal header) in
  Ok (bytes_leb hash_number target).

Definition validate_mainnet_header_rules (header : BitcoinHeader) (next_height parent_bits
    first_period_timestamp parent_timestamp : Z) (previous_timestamps : list Z)
    : result BitcoinError bytes32 :=
  let? expected_bits :=
    expected_mainnet_bits next_height parent_bits first_period_timestamp parent_timestamp in
  if negb (bits header =? expected_bits) then Err UnexpectedDifficulty else
  let? _ := validate_mainnet_mtp (timestamp header) previous_timestamps in
  let? pow := header_meets_mainnet_pow header in
  if negb pow then Err BadProofOfWork else
  bitcoin_header_work_be (bits header).

Definition header_meets_pow (header : BitcoinHeader) : result BitcoinError bool :=
  let? target := compact_target_be (bits header) in
  let hash_number := rev (hash_internal header) in
  Ok (bytes_leb hash_number target).

(** [for header in headers { if !header_meets_pow(header)? { .. } }] *)
Fixpoint check_pow (headers : list BitcoinHeader) : result BitcoinError unit :=
  match headers with
  | [] => Ok tt
  | header :: headers =>
      let? pow := header_meets_pow header in
      if negb pow then Err BadProofOfWork else check_pow headers
  end.

(** [for pair in headers.windows(2)] *)
Fixpoint check_links (headers : list BitcoinHeader) : result BitcoinError unit :=
  match headers with
  | a :: ((b :: _) as rest) =>
      if negb (bytes_eqb (previous_block_internal b) (hash_internal a)) then Err NonContiguousHeaders
      else check_links rest
  | _ => Ok tt
  end.

Definition validate_header_chain (headers : list BitcoinHeader) : result BitcoinError unit :=
  if (length headers <? REQUIRED_CONFIRMATIONS)%nat then Err InsufficientConfirmations else
  let? _ := check_pow headers in
  check_links headers.

Fixpoint check_bits (expected_bits : Z) (headers : list BitcoinHeader) : result BitcoinError unit :=
  match headers with
  | [] => Ok tt
  | header :: headers =>
      if negb (bits header =? expected_bits) then Err UnexpectedDifficulty
      else check_bits expected_bits headers
  end.

Definition validate_fixed_header_chain (headers : list BitcoinHeader)
    (trusted_previous_block_internal : bytes32) (expected_bits : Z) : result BitcoinError unit :=
  if (length headers <? REQUIRED_CONFIRMATIONS)%nat then Err InsufficientConfirmations else
  if negb (bytes_eqb (previous_block_internal (nth 0 headers [])) trusted_previous_block_internal)
  then Err UntrustedHeaderAnchor else
  let? _ := check_bits expected_bits headers in
  validate_header_chain headers.

Definition validate_anchor_context (headers : list BitcoinHeader)
    (trusted_previous_block_internal : bytes32) (expected_bits anchor_height : Z)
    : result BitcoinError unit :=
  if negb (length headers =? ANCHOR_CONTEXT_HEADERS)%nat then Err BadAnchorContextLength else
  if negb (anchor_height mod 2016 =? 0) then Err AnchorNotRetargetBoundary else
  if negb (bytes_eqb (previous_block_internal (nth 0 headers [])) trusted_previous_block_internal)
  then Err UntrustedHeaderAnchor else
  let? _ := check_bits expected_bits headers in
  validate_header_chain headers.

Definition median_time_past_11 (headers : list BitcoinHeader) : result BitcoinError Z :=
  if negb (length headers =? ANCHOR_CONTEXT_HEADERS)%nat then Err BadAnchorContextLength else
  let times := map timestamp headers in
  Ok (nth (ANCHOR_CONTEXT_HEADERS / 2) (merge_sort Z.le times) 0).

Definition validate_payment (proof : BitcoinSpvProofV1) (expected_manifest_hash : bytes32)
    (treasury_script_pubkey : bytes) (required_sats : Z)
    : result BitcoinError ValidatedBitcoinPayment :=
  let? _ := validate_header_chain (sp_headers proof) in
  let? parsed := parse_transaction (sp_raw_transaction proof) in
  let root := merkle_root_from_branch (pt_txid_internal parsed) (sp_tx_index proof)
                (sp_merkle_branch proof) in
  if negb (bytes_eqb root (merkle_root_internal (nth 0 (sp_headers proof) [])))
  then Err BadMerkleProof else
  let? payment :=
    ok_or PaymentOutputMissing (pt_outputs parsed !! Z.to_nat (sp_payment_output_index proof)) in
  if negb (bytes_eqb (bo_script_pubkey payment) treasury_script_pubkey)
  then Err WrongTreasuryScript else
  if bo_value_sats payment <? required_sats then Err Underpayment else
  let? manifest :=
    ok_or ManifestOutputMissing (pt_outputs parsed !! Z.to_nat (sp_manifest_output_index proof)) in
  let expected_manifest_script := canonical_manifest_script expected_manifest_hash in
  if negb (bo_value_sats manifest =? 0)
     || negb (bytes_eqb (bo_script_pubkey manifest) expected_manifest_script)
  then Err BadManifestCommitment else
  let sixth := nth (REQUIRED_CONFIRMATIONS - 1) (sp_headers proof) [] in
  let? sixth_height := ok_or ArithmeticOverflow
    (checked_add 32 (sp_containing_block_height proof) (Z.of_nat REQUIRED_CONFIRMATIONS - 1)) in
  Ok {| vp_txid_internal := pt_txid_internal parsed;
        vp_containing_block_hash_internal := hash_internal (nth 0 (sp_headers proof) []);
        vp_containing_block_height := sp_containing_block_height proof;
        vp_sixth_confirmation_hash_internal := hash_internal sixth;
        vp_sixth_confirmation_height := sixth_height;
        vp_sixth_confirmation_timestamp := timestamp sixth;
        vp_payment_output_index := sp_payment_output_index proof;
        vp_paid_sats := bo_value_sats payment |}.

(** The nonce search of [mine_easy_header], from [nonce] on.  [fuel] bounds the
    number of nonces tried; the [loop] of the source runs with [2^32 - nonce]. *)
Fixpoint mine_loop (fuel : nat) (prefix : bytes) (nonce : Z) : result BitcoinError BitcoinHeader :=
  match fuel with
  | O => Err FixtureMiningExhausted
  | S fuel =>
      let header := prefix ++ le_bytes 4 nonce in
      let? pow := header_meets_pow header in
      if (pow : bool) then Ok header else
      if nonce =? 2 ^ 32 - 1 then Err FixtureMiningExhausted else
      mine_loop fuel prefix ((nonce + 1) mod 2 ^ 32)
  end.

Definition mine_easy_header (fuel : nat) (previous_block_internal merkle_root_internal : bytes32)
    (timestamp bits nonce_start : Z) : result BitcoinError BitcoinHeader :=
  let prefix := le_bytes 4 1 ++ previous_block_internal ++ merkle_root_internal
                ++ le_bytes 4 timestamp ++ le_bytes 4 bits in
  mine_loop fuel prefix nonce_start.
End headers.

(** ** Reading at a cursor *)

Definition at_cursor (pre : bytes) : Z := Z.of_nat (length pre).

Lemma btc_take_app pre a rest :
  Z.of_nat (length (pre ++ a ++ rest)) < 2 ^ 64 ->
  btc_take (pre ++ a ++ rest) (at_cursor pre) (Z.of_nat (length a)) = Ok (a, at_cursor (pre ++ a)).
Proof.
  intros Hl. unfold btc_take, at_cursor. rewrite !length_app in *.
  replace (checked_add 64 _ _) with (Some (Z.of_nat (length pre) + Z.of_nat (length a)))
    by (symmetry; apply checked_add_Some; lia).
  cbn [ok_or]. destruct (Z.ltb_spec (Z.of_nat (length pre + (length a + length rest)))
    (Z.of_nat (length pre) + Z.of_nat (length a))); [lia|].
  rewrite <- Nat2Z.inj_add, !Nat2Z.id. do 2 f_equal. unfold slice.
  rewrite drop_app_length. replace (length pre + length a - length pre)%nat with (length a) by lia.
  apply take_app_length.
Qed.

(** Bitcoin's CompactSize encoding. *)
Definition compact_enc (v : Z) : bytes :=
  if v <? 0xfd then [byte_of_Z v]
  else if v <=? 0xffff then byte_of_Z 0xfd :: le_bytes 2 v
  else if v <=? 0xffffffff then byte_of_Z 0xfe :: le_bytes 4 v
  else byte_of_Z 0xff :: le_bytes 8 v.

Lemma compact_enc_length v : (1 <= length (compact_enc v))%nat.
Proof. unfold compact_enc. repeat case_match; cbn; lia. Qed.

(** The width and the least value of each prefix byte. *)
Definition compact_width (x : Z) : Z := if x =? 0xfd then 2 else if x =? 0xfe then 4 else 8.
Definition compact_min (x : Z) : Z :=
  if x =? 0xfd then 0xfd else if x =? 0xfe then 0x10000 else 0x100000000.

Lemma read_compact_size_head pre x tail :
  is_u8 x -> Z.of_nat (length (pre ++ byte_of_Z x :: tail)) < 2 ^ 64 ->
  let bs := pre ++ byte_of_Z x :: tail in
  let cursor := at_cursor (pre ++ [byte_of_Z x]) in
  read_compact_size bs (at_cursor pre) =
  if x <=? 0xfc then Ok (x, [byte_of_Z x], cursor) else
  let? (raw, cursor) := btc_take bs cursor (compact_width x) in
  if le_val raw <? compact_min x then Err BadCompactSize else Ok (le_val raw, byte_of_Z x :: raw, cursor).
Proof.
  intros Hx Hl bs cursor. unfold read_compact_size, compact_width, compact_min.
  pose proof (btc_take_app pre [byte_of_Z x] tail Hl) as Ht.
  change (Z.of_nat (length [byte_of_Z x])) with 1 in Ht. change ([byte_of_Z x] ++ tail) with (byte_of_Z x :: tail) in Ht.
  fold bs in Ht. rewrite Ht. clear Ht. cbn [ok_or hd_error]. rewrite Z_of_byte_small by done. fold cursor.
  destruct (x <=? 0xfc) eqn:E1; [done|]. bool_to_prop.
  destruct (Z.eqb_spec x 0xfd) as [->|]; [done|].
  destruct (Z.eqb_spec x 0xfe) as [->|]; [|assert (x = 0xff) as -> by lia].
  all: cbn [Z.eqb Pos.eqb]; destruct (btc_take _ _ _) as [[raw c]|]; [|done].
  - destruct (Z.leb_spec (le_val raw) 0xffff), (Z.ltb_spec (le_val raw) 0x10000); lia || done.
  - destruct (Z.leb_spec (le_val raw) 0xffffffff), (Z.ltb_spec (le_val raw) 0x100000000); lia || done.
Qed.

Lemma read_compact_size_wide pre x n v rest :
  0xfc < x < 0x100 -> compact_width x = Z.of_nat n -> compact_min x <= v < 256 ^ Z.of_nat n ->
  Z.of_nat (length (pre ++ byte_of_Z x :: le_bytes n v ++ rest)) < 2 ^ 64 ->
  read_compact_size (pre ++ byte_of_Z x :: le_bytes n v ++ rest) (at_cursor pre)
  = Ok (v, byte_of_Z x :: le_bytes n v, at_cursor (pre ++ byte_of_Z x :: le_bytes n v)).
Proof.
  intros Hx Hw Hv Hl. rewrite read_compact_size_head by (done || lia).
  destruct (Z.leb_spec x 0xfc); [lia|].
  pose proof (btc_take_app (pre ++ [byte_of_Z x]) (le_bytes n v) rest) as Ht.
  rewrite length_le_bytes, <- !app_assoc, <- Hw in Ht. cbn [app] in Ht. rewrite Ht by done.
  assert (0 <= compact_min x) by (unfold compact_min; repeat case_match; lia).
  rewrite le_val_le_bytes by lia. by destruct (Z.ltb_spec v (compact_min x)); [lia|].
Qed.

Lemma read_compact_size_app pre v rest :
  is_u64 v -> Z.of_nat (length (pre ++ compact_enc v ++ rest)) < 2 ^ 64 ->
  read_compact_size (pre ++ compact_enc v ++ rest) (at_cursor pre)
  = Ok (v, compact_enc v, at_cursor (pre ++ compact_enc v)).
Proof.
  intros Hv Hl. unfold compact_enc in *.
  destruct (Z.ltb_spec v 0xfd); [|destruct (Z.leb_spec v 0xffff); [|destruct (Z.leb_spec v 0xffffffff)]].
  - cbn [app] in *. rewrite read_compact_size_head by (done || lia).
    by destruct (Z.leb_spec v 0xfc); [|lia].
  - apply (read_compact_size_wide pre 0xfd 2 v rest); try done; cbn; lia.
  - apply (read_compact_size_wide pre 0xfe 4 v rest); try done; cbn; lia.
  - apply (read_compact_size_wide pre 0xff 8 v rest); try done; cbn; lia.
Qed.

(** ** The transaction format *)

Record btc_input := { bi_outpoint : bytes; bi_script : bytes; bi_sequence : bytes }.
Record btc_tx := {
  bt_version : bytes;
  bt_inputs : list btc_input;
  bt_outputs : list BitcoinTxOutput;
  bt_witnesses : list (list bytes);
  bt_lock_time : bytes;
}.

Definition ser_var (b : bytes) : bytes := compact_enc (Z.of_nat (length b)) ++ b.
Definition ser_in (i : btc_input) : bytes := bi_outpoint i ++ ser_var (bi_script i) ++ bi_sequence i.
Definition ser_out (o : BitcoinTxOutput) : bytes :=
  le_bytes 8 (bo_value_sats o) ++ ser_var (bo_script_pubkey o).
Definition ser_stack (st : list bytes) : bytes :=
  compact_enc (Z.of_nat (length st)) ++ concat (map ser_var st).

Definition ser_ins (t : btc_tx) : bytes :=
  compact_enc (Z.of_nat (length (bt_inputs t))) ++ concat (map ser_in (bt_inputs t)).
Definition ser_outs (t : btc_tx) : bytes :=
  compact_enc (Z.of_nat (length (bt_outputs t))) ++ concat (map ser_out (bt_outputs t)).

(** The legacy serialization (what the txid hashes) and the BIP-144 one. *)
Definition ser_legacy (t : btc_tx) : bytes :=
  bt_version t ++ ser_ins t ++ ser_outs t ++ bt_lock_time t.
Definition ser_segwit (flag : Z) (t : btc_tx) : bytes :=
  bt_version t ++ [Byte.x00; byte_of_Z flag] ++ ser_ins t ++ ser_outs t
  ++ concat (map ser_stack (bt_witnesses t)) ++ bt_lock_time t.

Definition btc_input_wf (i : btc_input) : Prop :=
  length (bi_outpoint i) = 36%nat /\ length (bi_sequence i) = 4%nat.
Definition btc_tx_wf (t : btc_tx) : Prop :=
  length (bt_version t) = 4%nat /\ length (bt_lock_time t) = 4%nat /\
  bt_inputs t <> [] /\ Forall btc_input_wf (bt_inputs t) /\
  bt_outputs t <> [] /\ Forall (fun o => is_u64 (bo_value_sats o)) (bt_outputs t) /\
  length (bt_witnesses t) = length (bt_inputs t).

(** A byte string short enough to be indexed. *)
Abbreviation fits bs := (Z.of_nat (length bs) < 2 ^ 64).

Lemma btc_take_at bs pre a rest n :
  bs = pre ++ a ++ rest -> fits bs -> n = Z.of_nat (length a) ->
  btc_take bs (at_cursor pre) n = Ok (a, at_cursor (pre ++ a)).
Proof. intros -> ? ->. by apply btc_take_app. Qed.

Lemma read_compact_size_at bs pre v rest :
  bs = pre ++ compact_enc v ++ rest -> fits bs -> is_u64 v ->
  read_compact_size bs (at_cursor pre) = Ok (v, compact_enc v, at_cursor (pre ++ compact_enc v)).
Proof. intros -> ? ?. by apply read_compact_size_app. Qed.

(** A length-prefixed field: both reads at once. *)
Lemma read_var_at {A} bs pre b rest (k : Z -> bytes -> Z -> bytes -> Z -> result BitcoinError A) :
  bs = pre ++ ser_var b ++ rest -> fits bs ->
  (let? (len, enc, cursor) := read_compact_size bs (at_cursor pre) in
   let? len := usize_from_u64 len in
   let? (script, cursor') := btc_take bs cursor len in k len enc cursor script cursor')
  = k (Z.of_nat (length b)) (compact_enc (Z.of_nat (length b)))
      (at_cursor (pre ++ compact_enc (Z.of_nat (length b)))) b (at_cursor (pre ++ ser_var b)).
Proof.
  intros Hbs Hf. assert (Z.of_nat (length b) < 2 ^ 64).
  { rewrite Hbs in Hf. unfold ser_var in Hf. rewrite !length_app in Hf. lia. }
  unfold ser_var in *. rewrite <- !app_assoc in Hbs.
  rewrite (read_compact_size_at bs pre (Z.of_nat (length b)) (b ++ rest)) by (done || lia).
  unfold usize_from_u64, try_from. destruct (Z.ltb_spec (Z.of_nat (length b)) (2 ^ 64)); [|lia]. cbn [ok_or].
  rewrite (btc_take_at bs (pre ++ compact_enc (Z.of_nat (length b))) b rest); [|by rewrite <- app_assoc|done|done].
  by rewrite <- app_assoc.
Qed.

Lemma parse_inputs_at ins bs pre stripped rest :
  Forall btc_input_wf ins -> bs = pre ++ concat (map ser_in ins) ++ rest -> fits bs ->
  parse_inputs (length ins) bs (at_cursor pre) stripped
  = Ok (stripped ++ concat (map ser_in ins), at_cursor (pre ++ concat (map ser_in ins))).
Proof.
  intros Hw. revert pre stripped. induction Hw as [|i ins [Ho Hq] Hw IH]; intros pre stripped Hbs Hf;
    cbn [length parse_inputs map concat] in *.
  { by rewrite !app_nil_r. }
  unfold ser_in in Hbs at 1. rewrite <- !app_assoc in Hbs.
  rewrite (btc_take_at bs pre (bi_outpoint i) _ 36 Hbs Hf) by lia.
  rewrite (read_var_at bs (pre ++ bi_outpoint i) (bi_script i)
             (bi_sequence i ++ concat (map ser_in ins) ++ rest)) by (rewrite <- ?app_assoc; done).
  rewrite (btc_take_at bs _ (bi_sequence i) (concat (map ser_in ins) ++ rest) 4);
    [|by rewrite <- ?app_assoc|done|lia].
  rewrite IH; [|by rewrite <- ?app_assoc|done].
  rewrite (eq_refl : ser_in i = _ ++ _ ++ _). unfold ser_var. by rewrite <- !app_assoc.
Qed.

Lemma parse_outputs_at outs bs pre stripped rest :
  Forall (fun o => is_u64 (bo_value_sats o)) outs ->
  bs = pre ++ concat (map ser_out outs) ++ rest -> fits bs ->
  parse_outputs (length outs) bs (at_cursor pre) stripped
  = Ok (outs, stripped ++ concat (map ser_out outs), at_cursor (pre ++ concat (map ser_out outs))).
Proof.
  intros Hw. revert pre stripped. induction Hw as [|o outs Hv Hw IH]; intros pre stripped Hbs Hf;
    cbn [length parse_outputs map concat] in *.
  { by rewrite !app_nil_r. }
  unfold ser_out in Hbs at 1. rewrite <- !app_assoc in Hbs.
  rewrite (btc_take_at bs pre (le_bytes 8 (bo_value_sats o)) _ 8 Hbs Hf) by (by rewrite length_le_bytes).
  rewrite (read_var_at bs (pre ++ le_bytes 8 (bo_value_sats o)) (bo_script_pubkey o)
             (concat (map ser_out outs) ++ rest)) by (rewrite <- ?app_assoc; done).
  rewrite IH; [|by rewrite <- ?app_assoc|done]. rewrite le_val_le_bytes by lia.
  rewrite (eq_refl : ser_out o = _ ++ _). unfold ser_var. rewrite <- !app_assoc. by destruct o.
Qed.

Lemma btc_take_ok bs cursor n a cursor' :
  btc_take bs cursor n = Ok (a, cursor') -> cursor' = cursor + n /\ cursor' <= Z.of_nat (length bs).
Proof.
  unfold btc_take. intros H. inv_ok. bool_to_prop.
  match goal with E : checked_add _ _ _ = _ |- _ => apply checked_add_Some in E as [-> _] end. lia.
Qed.

Lemma read_compact_size_ok bs cursor v enc cursor' :
  read_compact_size bs cursor = Ok (v, enc, cursor') ->
  0 <= v /\ cursor < cursor' <= Z.of_nat (length bs).
Proof.
  unfold read_compact_size. destruct (btc_take bs cursor 1) as [[head c1]|] eqn:E1; [|done].
  apply btc_take_ok in E1 as [-> Hc1]. destruct (hd_error head) as [first|]; [|done]. cbn [ok_or].
  pose proof (Z_of_byte_range first) as Hf.
  destruct (Z_of_byte first <=? 0xfc); [intros H; inv_ok; lia|].
  destruct (Z_of_byte first =? 0xfd); [|destruct (Z_of_byte first =? 0xfe)].
  all: destruct (btc_take _ _ _) as [[raw c2]|] eqn:E2; [|done]; apply btc_take_ok in E2 as [-> Hc2];
    intros H; inv_ok; pose proof (le_val_range raw); lia.
Qed.

(** The fuel of [skip_items] is never the reason for an error: any fuel of at
    least the number of unread bytes gives the result of the unbounded loop. *)
Lemma skip_items_enough fuel fuel' items bs cursor :
  Z.of_nat (length bs) - cursor <= Z.of_nat fuel -> Z.of_nat (length bs) - cursor <= Z.of_nat fuel' ->
  skip_items fuel items bs cursor = skip_items fuel' items bs cursor.
Proof.
  assert (forall f items cursor, Z.of_nat (length bs) <= cursor ->
    skip_items f items bs cursor = if items <=? 0 then Ok cursor else Err Truncated) as Hend.
  { intros [|f] it c Hc; cbn [skip_items]; destruct (it <=? 0); try done.
    unfold read_compact_size, btc_take. destruct (checked_add 64 c 1) as [e|] eqn:E; [|done].
    apply checked_add_Some in E as [-> _]. cbn [ok_or].
    by destruct (Z.ltb_spec (Z.of_nat (length bs)) (c + 1)); [|lia]. }
  revert fuel' items cursor. induction fuel as [|fuel IH]; intros [|fuel'] items cursor Hf Hf'.
  1-3: rewrite !Hend by lia; done.
  cbn [skip_items]. destruct (items <=? 0); [done|].
  destruct (read_compact_size bs cursor) as [[[len enc] c1]|] eqn:E1; [|done].
  apply read_compact_size_ok in E1 as [Hlen Hc1]. unfold usize_from_u64, try_from.
  destruct (len <? 2 ^ 64); [|done]. cbn [ok_or].
  destruct (btc_take bs c1 len) as [[? c2]|] eqn:E2; [|done]. apply btc_take_ok in E2 as [-> ?].
  apply IH; lia.
Qed.

Lemma skip_items_at st bs pre rest :
  bs = pre ++ concat (map ser_var st) ++ rest -> fits bs ->
  forall fuel, (length st <= fuel)%nat ->
  skip_items fuel (Z.of_nat (length st)) bs (at_cursor pre)
  = Ok (at_cursor (pre ++ concat (map ser_var st))).
Proof.
  revert pre. induction st as [|b st IH]; intros pre Hbs Hf fuel Hfuel; cbn [map concat] in *.
  { rewrite app_nil_r. by destruct fuel. }
  destruct fuel as [|fuel]; [simpl in Hfuel; lia|]. cbn [skip_items length].
  destruct (Z.leb_spec (Z.of_nat (S (length st))) 0); [lia|]. rewrite <- app_assoc in Hbs.
  rewrite (read_var_at bs pre b (concat (map ser_var st) ++ rest)
             (fun _ _ _ _ c => skip_items fuel (Z.of_nat (S (length st)) - 1) bs c)) by done.
  replace (Z.of_nat (S (length st)) - 1) with (Z.of_nat (length st)) by lia.
  simpl in Hfuel. rewrite IH; [by rewrite <- app_assoc|by rewrite <- app_assoc|done|lia].
Qed.

Lemma ser_vars_length st : (length st <= length (concat (map ser_var st)))%nat.
Proof.
  induction st as [|b st IH]; cbn; [lia|]. rewrite length_app, (eq_refl : ser_var b = _ ++ _), length_app.
  pose proof (compact_enc_length (Z.of_nat (length b))). lia.
Qed.

Lemma skip_witnesses_at sts bs pre rest :
  bs = pre ++ concat (map ser_stack sts) ++ rest -> fits bs ->
  skip_witnesses (length sts) bs (at_cursor pre) = Ok (at_cursor (pre ++ concat (map ser_stack sts))).
Proof.
  revert pre. induction sts as [|st sts IH]; intros pre Hbs Hf; cbn [length skip_witnesses map concat] in *.
  { by rewrite app_nil_r. }
  unfold ser_stack in Hbs at 1. rewrite <- !app_assoc in Hbs.
  assert (length st <= length bs)%nat as Hst.
  { rewrite Hbs, !length_app. pose proof (ser_vars_length st). lia. }
  rewrite (read_compact_size_at bs pre _ _ Hbs Hf) by lia.
  unfold usize_from_u64, try_from. destruct (Z.ltb_spec (Z.of_nat (length st)) (2 ^ 64)); [|lia]. cbn [ok_or].
  rewrite (skip_items_at st bs _ (concat (map ser_stack sts) ++ rest)); [|by rewrite <- ?app_assoc|done|done].
  rewrite IH; [|by rewrite <- ?app_assoc|done].
  rewrite (eq_refl : ser_stack st = _ ++ _). by rewrite <- !app_assoc.
Qed.

Lemma ser_in_length ins : Forall btc_input_wf ins -> (41 * length ins <= length (concat (map ser_in ins)))%nat.
Proof.
  induction 1 as [|i ins [Ho Hq] _ IH]; cbn; [lia|].
  rewrite length_app, (eq_refl : ser_in i = _ ++ (_ ++ _) ++ _), !length_app. pose proof (compact_enc_length (Z.of_nat (length (bi_script i)))). lia.
Qed.

Lemma ser_out_length outs : (9 * length outs <= length (concat (map ser_out outs)))%nat.
Proof.
  induction outs as [|o outs IH]; cbn [map concat length]; [lia|].
  rewrite length_app, (eq_refl : ser_out o = _ ++ _ ++ _), !length_app, length_le_bytes.
  pose proof (compact_enc_length (Z.of_nat (length (bo_script_pubkey o)))). lia.
Qed.

(** A count that the size guard of the parser lets through. *)
Lemma count_guard n k len :
  0 < k -> (0 < n)%nat -> k * Z.of_nat n <= len -> 
  (Z.of_nat n =? 0) || (saturating_add 64 (len / k) 1 <? Z.of_nat n) = false \/ 2 ^ 64 <= Z.of_nat n.
Proof.
  intros Hk Hn Hl. destruct (Z.lt_ge_cases (Z.of_nat n) (2 ^ 64)); [left|by right].
  apply orb_false_iff. split; [apply Z.eqb_neq; lia|]. apply Z.ltb_ge. unfold saturating_add.
  assert (Z.of_nat n <= len / k) by (apply Z.div_le_lower_bound; lia). lia.
Qed.

Section parse.
Context {SHA : Sha2}.

(** The body of the parser after the segwit marker, on [pre] already read. *)
Lemma parse_body t bs pre wits rest :
  btc_tx_wf t -> bs = pre ++ ser_ins t ++ ser_outs t ++ wits ++ rest -> fits bs ->
  exists n_in n_out,
    n_in = length (bt_inputs t) /\ n_out = length (bt_outputs t) /\
    1 <= Z.of_nat n_in < 2 ^ 64 /\ 1 <= Z.of_nat n_out < 2 ^ 64 /\
    read_compact_size bs (at_cursor pre)
      = Ok (Z.of_nat n_in, compact_enc (Z.of_nat n_in), at_cursor (pre ++ compact_enc (Z.of_nat n_in))) /\
    (Z.of_nat n_in =? 0) || (saturating_add 64 (Z.of_nat (length bs) / 41) 1 <? Z.of_nat n_in) = false /\
    (forall stripped, parse_inputs n_in bs (at_cursor (pre ++ compact_enc (Z.of_nat n_in))) stripped
      = Ok (stripped ++ concat (map ser_in (bt_inputs t)), at_cursor (pre ++ ser_ins t))) /\
    read_compact_size bs (at_cursor (pre ++ ser_ins t))
      = Ok (Z.of_nat n_out, compact_enc (Z.of_nat n_out),
            at_cursor (pre ++ ser_ins t ++ compact_enc (Z.of_nat n_out))) /\
    (Z.of_nat n_out =? 0) || (saturating_add 64 (Z.of_nat (length bs) / 9) 1 <? Z.of_nat n_out) = false /\
    (forall stripped, parse_outputs n_out bs
        (at_cursor (pre ++ ser_ins t ++ compact_enc (Z.of_nat n_out))) stripped
      = Ok (bt_outputs t, stripped ++ concat (map ser_out (bt_outputs t)),
            at_cursor (pre ++ ser_ins t ++ ser_outs t))).
Proof.
  intros (_ & _ & Hni & Hi & Hno & Ho & _) Hbs Hf.
  pose proof (ser_in_length (bt_inputs t) Hi) as Hli. pose proof (ser_out_length (bt_outputs t)) as Hlo.
  assert (length bs >= length (ser_ins t) + length (ser_outs t))%nat as Hlen
    by (rewrite Hbs, !length_app; lia).
  unfold ser_ins, ser_outs in Hlen. rewrite !length_app in Hlen.
  assert (0 < length (bt_inputs t))%nat by (destruct (bt_inputs t); [done|simpl; lia]).
  assert (0 < length (bt_outputs t))%nat by (destruct (bt_outputs t); [done|simpl; lia]).
  exists (length (bt_inputs t)), (length (bt_outputs t)). do 2 (split; [done|]). do 2 (split; [lia|]).
  pose proof Hbs as Hb1. unfold ser_ins in Hb1. rewrite <- !app_assoc in Hb1.
  pose proof Hbs as Hb2. unfold ser_outs in Hb2. rewrite <- !app_assoc, app_assoc in Hb2.
  split_and!.
  - apply (read_compact_size_at bs pre _ _ Hb1 Hf). lia.
  - destruct (count_guard (length (bt_inputs t)) 41 (Z.of_nat (length bs))) as [?|?]; [lia..|done|lia].
  - intros stripped. rewrite (parse_inputs_at _ _ _ _ (ser_outs t ++ wits ++ rest));
      [by rewrite <- app_assoc|done|by rewrite <- app_assoc|done].
  - rewrite (read_compact_size_at bs (pre ++ ser_ins t) _ _ Hb2 Hf) by lia. by rewrite <- app_assoc.
  - destruct (count_guard (length (bt_outputs t)) 9 (Z.of_nat (length bs))) as [?|?]; [lia..|done|lia].
  - intros stripped. rewrite (parse_outputs_at _ _ _ _ (wits ++ rest));
      [unfold ser_outs; by rewrite <- !app_assoc|done|by rewrite Hb2, <- !app_assoc|done].
Qed.

Lemma compact_enc_head n : 1 <= n < 2 ^ 64 ->
  exists x tl, compact_enc n = byte_of_Z x :: tl /\ 1 <= x < 256.
Proof.
  intros Hn. unfold compact_enc. repeat case_match; bool_to_prop; eexists _, _; (split; [reflexivity|lia]).
Qed.

Lemma usize_ok n : 0 <= n < 2 ^ 64 -> usize_from_u64 n = Ok n.
Proof. intros. unfold usize_from_u64, try_from. by destruct (Z.ltb_spec n (2 ^ 64)); [|lia]. Qed.

Lemma lookup_after_version (v : bytes) l i :
  length v = 4%nat -> (v ++ l) !! (4 + i)%nat = l !! i.
Proof. intros Hv. rewrite lookup_app_r by lia. f_equal. lia. Qed.

Definition parsed (t : btc_tx) : ParsedBitcoinTransaction :=
  {| pt_txid_internal := double_sha256 (ser_legacy t); pt_outputs := bt_outputs t |}.

(** The marker test on a legacy serialization: the input count is not zero. *)
Lemma legacy_marker t :
  btc_tx_wf t -> fits (ser_legacy t) -> ser_legacy t !! 4%nat <> Some Byte.x00.
Proof.
  intros Hw Hf. destruct (parse_body t _ (bt_version t) [] (bt_lock_time t) Hw eq_refl Hf)
    as (n_in & n_out & En & Eo & Hn & _). destruct Hw as (Hv & _).
  change 4%nat with (4 + 0)%nat. unfold ser_legacy. rewrite lookup_after_version by done.
  unfold ser_ins. rewrite <- En. destruct (compact_enc_head (Z.of_nat n_in) Hn) as (x & tl & -> & Hx).
  cbn. intros Heq%Some_inj%(f_equal Z_of_byte). rewrite Z_of_byte_small in Heq by lia.
  change (Z_of_byte Byte.x00) with 0 in Heq. lia.
Qed.

Lemma parse_legacy t : btc_tx_wf t -> fits (ser_legacy t) -> parse_transaction (ser_legacy t) = Ok (parsed t).
Proof.
  intros Hw Hf. pose proof Hw as (Hv & Hlk & _). pose proof (legacy_marker t Hw Hf) as Hm.
  destruct (parse_body t (ser_legacy t) (bt_version t) [] (bt_lock_time t) Hw eq_refl Hf)
    as (n_in & n_out & En & Eo & Hn & Hn' & R1 & G1 & P1 & R2 & G2 & P2).
  unfold parse_transaction.
  pose proof (btc_take_at (ser_legacy t) [] (bt_version t) _ 4 eq_refl Hf ltac:(lia)) as Hver.
  change (at_cursor []) with 0 in Hver. rewrite Hver. cbn [app].
  assert (Z.to_nat (at_cursor (bt_version t)) = 4%nat) as -> by (unfold at_cursor; lia).
  rewrite bool_decide_false by done. cbn [andb].
  rewrite R1, G1, usize_ok, Nat2Z.id, P1, R2, G2, usize_ok, Nat2Z.id, P2 by lia.
  rewrite (btc_take_at (ser_legacy t) _ (bt_lock_time t) [] 4);
    [|unfold ser_legacy; by rewrite <- !app_assoc, app_nil_r|done|lia].
  unfold at_cursor. unfold ser_legacy at 1. rewrite <- !app_assoc, Z.eqb_refl. cbn [negb].
  unfold parsed, ser_legacy, ser_ins, ser_outs. rewrite <- !app_assoc, En, Eo. done.
Qed.

Lemma parse_segwit flag t :
  1 <= flag < 256 -> btc_tx_wf t -> fits (ser_segwit flag t) ->
  parse_transaction (ser_segwit flag t) = Ok (parsed t).
Proof.
  intros Hflag Hw Hf. pose proof Hw as (Hv & Hlk & _ & _ & _ & _ & Hwl).
  destruct (parse_body t (ser_segwit flag t) (bt_version t ++ [Byte.x00; byte_of_Z flag])
              (concat (map ser_stack (bt_witnesses t))) (bt_lock_time t) Hw)
    as (n_in & n_out & En & Eo & Hn & Hn' & R1 & G1 & P1 & R2 & G2 & P2).
  { unfold ser_segwit. by rewrite <- !app_assoc. }
  { done. }
  unfold parse_transaction.
  pose proof (btc_take_at (ser_segwit flag t) [] (bt_version t) _ 4 eq_refl Hf ltac:(lia)) as Hver.
  change (at_cursor []) with 0 in Hver. rewrite Hver. cbn [app].
  assert (Z.to_nat (at_cursor (bt_version t)) = (4 + 0)%nat) as -> by (unfold at_cursor; lia).
  assert (Z.to_nat (at_cursor (bt_version t) + 1) = (4 + 1)%nat) as -> by (unfold at_cursor; lia).
  assert (ser_segwit flag t !! (4 + 0)%nat = Some Byte.x00 /\
          ser_segwit flag t !! (4 + 1)%nat = Some (byte_of_Z flag)) as [-> ->]
    by (unfold ser_segwit; by rewrite !lookup_after_version).
  rewrite bool_decide_true, Z_of_byte_small by (done || lia).
  destruct (Z.eqb_spec flag 0); [lia|]. cbn [andb negb].
  rewrite (btc_take_at (ser_segwit flag t) (bt_version t) [Byte.x00; byte_of_Z flag] _ 2 eq_refl Hf) by done.
  rewrite R1, G1, usize_ok, Nat2Z.id, P1, R2, G2, usize_ok, Nat2Z.id, P2 by lia.
  rewrite En, <- Hwl, (skip_witnesses_at _ _ _ (bt_lock_time t));
    [|unfold ser_segwit; by rewrite <- !app_assoc|done].
  rewrite (btc_take_at (ser_segwit flag t) _ (bt_lock_time t) [] 4);
    [|unfold ser_segwit; by rewrite <- !app_assoc, app_nil_r|done|lia].
  unfold at_cursor. unfold ser_segwit at 1. rewrite <- !app_assoc, Z.eqb_refl. cbn [negb].
  unfold parsed, ser_legacy, ser_ins, ser_outs. rewrite <- !app_assoc, Hwl, Eo. done.
Qed.
End parse.

(** ** Compact targets in arithmetic *)

(** Exponent and mantissa of the compact form. *)
Definition c_exp (b : Z) : Z := b / 2 ^ 24.
Definition c_man (b : Z) : Z := b mod 2 ^ 23.
Definition c_val (e m : Z) : Z := if e <=? 3 then m / 256 ^ (3 - e) else m * 256 ^ (e - 3).

Definition c_valid (b : Z) : Prop :=
  c_man b <> 0 /\ Z.testbit b 23 = false /\ 1 <= c_exp b <= 32.

Lemma land_bit b n : 0 <= n -> Z.land b (2 ^ n) = 0 <-> Z.testbit b n = false.
Proof.
  intros Hn. split.
  - intros H. apply (f_equal (fun z => Z.testbit z n)) in H.
    by rewrite Z.land_spec, Z.pow2_bits_true, andb_true_r, Z.bits_0 in H.
  - intros H. apply Z.bits_inj'. intros k Hk. rewrite Z.land_spec, Z.bits_0, Z.pow2_bits_eqb by lia.
    destruct (Z.eqb_spec n k) as [<-|]; [by rewrite H|apply andb_false_r].
Qed.

Lemma be_val_three m :
  0 <= m < 2 ^ 24 -> be_val [byte_of_Z (Z.shiftr m 16); byte_of_Z (Z.shiftr m 8); byte_of_Z m] = m.
Proof.
  intros Hm. rewrite !Z.shiftr_div_pow2 by lia.
  replace [byte_of_Z (m / 2 ^ 16); byte_of_Z (m / 2 ^ 8); byte_of_Z m] with (be_bytes 3 m).
  - by apply be_val_be_bytes.
  - unfold be_bytes. cbn [le_bytes rev app]. by rewrite Z.div_div by lia.
Qed.

Lemma be_val_pad a b z :
  be_val (replicate a Byte.x00 ++ z ++ replicate b Byte.x00) = be_val z * 256 ^ Z.of_nat b.
Proof.
  rewrite be_val_zeros, be_val_app, length_replicate.
  pose proof (be_val_zeros b []) as Hz. rewrite app_nil_r in Hz. rewrite Hz.
  change (be_val []) with 0. lia.
Qed.

Lemma compact_target_eq b :
  is_u32 b ->
  (c_valid b -> exists t, compact_target_be b = Ok t /\ is32 t /\ be_val t = c_val (c_exp b) (c_man b)) /\
  (~ c_valid b -> compact_target_be b = Err BadCompactTarget).
Proof.
  intros Hb. unfold compact_target_be, c_valid, c_val.
  change 0x007fffff with (2 ^ 23 - 1). rewrite land_ones_mod, Z.shiftr_div_pow2 by lia.
  fold (c_exp b) (c_man b). change 0x00800000 with (2 ^ 23).
  pose proof (Z.mod_pos_bound b (2 ^ 23) ltac:(lia)) as Hm. fold (c_man b) in Hm.
  assert (0 <= c_exp b < 256) as He.
  { unfold c_exp. split; [apply Z.div_pos; lia|]. apply Z.div_lt_upper_bound; lia. }
  destruct (Z.eqb_spec (c_man b) 0) as [Hz|Hz]; cbn [orb]; [by split; [intros (? & _)|]|].
  destruct (Z.testbit b 23) eqn:Ht.
  { split; [by intros (_ & ? & _)|]. intros _. destruct (Z.eqb_spec (Z.land b (2 ^ 23)) 0) as [E|E];
      [apply land_bit in E; [congruence|lia]|done]. }
  apply land_bit in Ht; [|lia]. rewrite Ht. cbn [Z.eqb negb orb].
  destruct (Z.eqb_spec (c_exp b) 0) as [|]; cbn [orb]; [split; [lia|done]|].
  destruct (Z.ltb_spec 32 (c_exp b)); [split; [lia|done]|]. split; [intros _|intros []; split_and!; done || lia].
  destruct (Z.leb_spec (c_exp b) 3).
  - eexists. split; [done|]. split; [by len|]. rewrite be_val_zeros, Z.shiftr_div_pow2 by lia.
    change 256 with (2 ^ 8). rewrite <- Z.pow_mul_r by lia. apply be_val_be_bytes.
    split; [apply Z.div_pos; lia|]. apply Z.div_lt_upper_bound; [lia|].
    change (256 ^ Z.of_nat 4) with (2 ^ 32). nia.
  - unfold checked_sub. destruct (Z.leb_spec (c_exp b) 32); [|lia]. cbn [ok_or].
    replace (Z.min (32 - (32 - c_exp b)) 3) with 3 by lia. eexists. split; [done|].
    change (Z.to_nat 3) with 3%nat. cbn [take].
    split; [rewrite !length_app, !length_replicate; cbn [length]; lia|].
    rewrite be_val_pad, be_val_three by lia. f_equal. f_equal. lia.
Qed.

Lemma fold_be bs v :
  0 <= v ->
  fold_left (fun value byte => Z.lor (Z.shiftl value 8) (Z_of_byte byte)) bs v
  = v * 256 ^ Z.of_nat (length bs) + be_val bs.
Proof.
  revert v. induction bs as [|x bs IH]; intros v Hv; cbn [fold_left length].
  { change (be_val []) with 0. change (256 ^ Z.of_nat 0) with 1. lia. }
  pose proof (Z_of_byte_range x).
  rewrite Z.shiftl_mul_pow2, Z.lor_comm, lor_shift_add by lia. rewrite IH by lia.
  rewrite be_val_cons, Nat2Z.inj_succ, Z.pow_succ_r by lia. change (2 ^ 8) with 256. ring.
Qed.

Lemma lor_three x y z :
  is_u8 x -> is_u8 y -> is_u8 z ->
  Z.lor (Z.lor (Z.shiftl x 16) (Z.shiftl y 8)) z = x * 65536 + y * 256 + z.
Proof.
  intros. rewrite !Z.shiftl_mul_pow2 by lia.
  replace (x * 2 ^ 16) with (x * 2 ^ 8 * 2 ^ 8) by lia.
  rewrite (Z.lor_comm (x * 2 ^ 8 * 2 ^ 8)).
  replace (Z.lor (y * 2 ^ 8) (x * 2 ^ 8 * 2 ^ 8)) with ((y + x * 2 ^ 8) * 2 ^ 8).
  - rewrite Z.lor_comm, lor_shift_add by lia. lia.
  - rewrite <- (lor_shift_add y x 8) by lia. by rewrite <- !Z.shiftl_mul_pow2, Z.shiftl_lor by lia.
Qed.

Definition t_size (t : Z) : Z := Z.of_nat (length (to_bytes_be t)).
Definition t_man (t : Z) : Z :=
  if t_size t <=? 3 then t * 256 ^ (3 - t_size t) else t / 256 ^ (t_size t - 3).

Lemma t_size_spec t : 0 < t -> 1 <= t_size t /\ 256 ^ (t_size t - 1) <= t < 256 ^ t_size t.
Proof.
  intros Ht. unfold t_size, to_bytes_be. destruct (Z.eqb_spec t 0); [lia|]. rewrite length_be_bytes.
  pose proof (Z.log2_nonneg t). pose proof (Z.div_pos (Z.log2 t) 8 ltac:(lia) ltac:(lia)).
  rewrite Z2Nat.id by lia. pose proof (Z.log2_spec t Ht) as Hl.
  pose proof (Z.div_mod (Z.log2 t) 8 ltac:(lia)). pose proof (Z.mod_pos_bound (Z.log2 t) 8 ltac:(lia)).
  split; [lia|]. change 256 with (2 ^ 8). rewrite <- !Z.pow_mul_r by lia. split.
  - etrans; [|apply Hl]. apply Z.pow_le_mono_r; lia.
  - eapply Z.lt_le_trans; [apply Hl|]. apply Z.pow_le_mono_r; lia.
Qed.

Lemma t_man_range t : 0 < t -> 2 ^ 16 <= t_man t < 2 ^ 24.
Proof.
  intros Ht. destruct (t_size_spec t Ht) as (Hs & Hlo & Hhi). unfold t_man.
  change (2 ^ 16) with (256 ^ 2). change (2 ^ 24) with (256 ^ 3).
  destruct (Z.leb_spec (t_size t) 3).
  - assert (256 ^ (t_size t - 1) * 256 ^ (3 - t_size t) = 256 ^ 2) as H1
      by (rewrite <- Z.pow_add_r by lia; f_equal; lia).
    assert (256 ^ t_size t * 256 ^ (3 - t_size t) = 256 ^ 3) as H2
      by (rewrite <- Z.pow_add_r by lia; f_equal; lia).
    assert (0 < 256 ^ (3 - t_size t)) by (apply Z.pow_pos_nonneg; lia). nia.
  - assert (0 < 256 ^ (t_size t - 3)) by (apply Z.pow_pos_nonneg; lia). split.
    + apply Z.div_le_lower_bound; [done|]. rewrite <- Z.pow_add_r by lia.
      by replace (t_size t - 3 + 2) with (t_size t - 1) by lia.
    + apply Z.div_lt_upper_bound; [done|]. rewrite <- Z.pow_add_r by lia.
      by replace (t_size t - 3 + 3) with (t_size t) by lia.
Qed.

(** The mantissa the source assembles from the leading bytes. *)
Lemma t_man_bytes t :
  0 < t ->
  (if t_size t <=? 3
   then Z.shiftl (fold_left (fun value byte => Z.lor (Z.shiftl value 8) (Z_of_byte byte)) (to_bytes_be t) 0)
          (8 * (3 - t_size t))
   else Z.lor (Z.lor (Z.shiftl (Z_of_byte (nth 0 (to_bytes_be t) Byte.x00)) 16)
                     (Z.shiftl (Z_of_byte (nth 1 (to_bytes_be t) Byte.x00)) 8))
          (Z_of_byte (nth 2 (to_bytes_be t) Byte.x00))) = t_man t.
Proof.
  intros Ht. unfold t_man. pose proof (to_bytes_be_val t ltac:(lia)) as Hv.
  destruct (Z.leb_spec (t_size t) 3) as [Hs|Hs].
  - rewrite fold_be, Hv, Z.shiftl_mul_pow2, Z.pow_mul_r by lia. change (2 ^ 8) with 256. lia.
  - rewrite lor_three by apply Z_of_byte_range. unfold t_size in *.
    destruct (to_bytes_be t) as [|x [|y [|z bs]]]; simpl length in Hs; try lia. cbn [nth length].
    change (x :: y :: z :: bs) with ([x; y; z] ++ bs) in Hv. rewrite be_val_app in Hv.
    replace (Z.of_nat (S (S (S (length bs)))) - 3) with (Z.of_nat (length bs)) by lia.
    pose proof (be_val_range _ bs eq_refl) as Hr. rewrite !be_val_cons in Hv. cbn [length] in Hv.
    change (be_val []) with 0 in Hv. change (256 ^ Z.of_nat 2) with 65536 in Hv.
    change (256 ^ Z.of_nat 1) with 256 in Hv. change (256 ^ Z.of_nat 0) with 1 in Hv.
    apply Z.div_unique with (be_val bs); [left; lia|lia].
Qed.

Lemma compact_bits_eq t :
  0 < t < 2 ^ 256 ->
  compact_bits_from_biguint t =
  Ok (if 2 ^ 23 <=? t_man t then (t_size t + 1) * 2 ^ 24 + t_man t / 256
      else t_size t * 2 ^ 24 + t_man t).
Proof.
  intros Ht. pose proof (t_man_range t ltac:(lia)) as Hm.
  assert (t_size t <= 32) as Hs.
  { unfold t_size. pose proof (to_bytes_be_length t 31) as Hl.
    change (256 ^ Z.of_nat 32) with (2 ^ 256) in Hl. lia. }
  destruct (t_size_spec t ltac:(lia)) as (Hs1 & _).
  unfold compact_bits_from_biguint. destruct (Z.eqb_spec t 0); [lia|].
  fold (t_size t). rewrite t_man_bytes by lia. change 0x00800000 with (2 ^ 23).
  change 0x007fffff with (2 ^ 23 - 1).
  assert (Z.testbit (t_man t) 23 = (2 ^ 23 <=? t_man t)) as Hb.
  { rewrite Z.testbit_eqb by lia. destruct (Z.leb_spec (2 ^ 23) (t_man t)).
    - replace (t_man t / 2 ^ 23) with 1; [done|]. apply Z.div_unique with (t_man t - 2 ^ 23); lia.
    - by rewrite Z.div_small by lia. }
  destruct (2 ^ 23 <=? t_man t) eqn:E; bool_to_prop.
  - destruct (Z.eqb_spec (Z.land (t_man t) (2 ^ 23)) 0) as [Hz|Hz]; [apply land_bit in Hz; [congruence|lia]|].
    cbn [negb]. unfold checked_add. destruct (Z.ltb_spec (t_size t + 1) (2 ^ 64)); [|lia]. cbn [ok_or].
    destruct (Z.ltb_spec 255 (t_size t + 1)); [lia|].
    rewrite Z.shiftr_div_pow2, Z.shiftl_mul_pow2, land_ones_mod, Z.lor_comm by lia.
    assert (0 <= t_man t / 2 ^ 8 < 2 ^ 16)
      by (split; [apply Z.div_pos; lia|apply Z.div_lt_upper_bound; lia]).
    change (2 ^ 8) with 256 in *. rewrite Z.mod_small, lor_shift_add by lia. f_equal. lia.
  - apply land_bit in Hb; [|lia]. rewrite Hb. cbn [Z.eqb negb].
    destruct (Z.ltb_spec 255 (t_size t)); [lia|].
    rewrite Z.shiftl_mul_pow2, land_ones_mod, Z.lor_comm, Z.mod_small, lor_shift_add by lia. f_equal. lia.
Qed.

Lemma c_parts s m :
  0 <= m < 2 ^ 23 -> c_exp (s * 2 ^ 24 + m) = s /\ c_man (s * 2 ^ 24 + m) = m /\
  Z.testbit (s * 2 ^ 24 + m) 23 = false.
Proof.
  intros Hm. unfold c_exp, c_man. split_and!.
  - rewrite Z.add_comm, Z.div_add, Z.div_small by lia. lia.
  - replace (s * 2 ^ 24 + m) with (m + (2 * s) * 2 ^ 23) by lia. by rewrite Z.mod_add, Z.mod_small by lia.
  - rewrite Z.testbit_eqb by lia. replace (s * 2 ^ 24 + m) with (m + (2 * s) * 2 ^ 23) by lia.
    rewrite Z.div_add, Z.div_small by lia. replace (0 + 2 * s) with (s * 2) by lia. by rewrite Z.mod_mul.
Qed.

Lemma t_size_unique t s : 1 <= s -> 256 ^ (s - 1) <= t < 256 ^ s -> t_size t = s.
Proof.
  intros Hs Ht. assert (0 < 256 ^ (s - 1)) by (apply Z.pow_pos_nonneg; lia).
  destruct (t_size_spec t ltac:(lia)) as (Hs' & Ht').
  destruct (Z.lt_trichotomy (t_size t) s) as [Hlt|[?|Hlt]]; [|done|].
  - assert (256 ^ t_size t <= 256 ^ (s - 1)) by (apply Z.pow_le_mono_r; lia). lia.
  - assert (256 ^ s <= 256 ^ (t_size t - 1)) by (apply Z.pow_le_mono_r; lia). lia.
Qed.

(** The compact form of [t] and the target it stands for. *)
Definition c_bits (t : Z) : Z :=
  if 2 ^ 23 <=? t_man t then (t_size t + 1) * 2 ^ 24 + t_man t / 256 else t_size t * 2 ^ 24 + t_man t.
Definition c_round (t : Z) : Z := c_val (c_exp (c_bits t)) (c_man (c_bits t)).

Lemma round_bound t q Q :
  0 < Q -> 2 ^ 15 <= q -> q * Q <= t < q * Q + Q -> q * Q <= t /\ (t - q * Q) * 2 ^ 15 <= q * Q.
Proof.
  intros HQ Hq Ht. split; [lia|]. assert (2 ^ 15 * Q <= q * Q) by (apply Z.mul_le_mono_nonneg_r; lia). lia.
Qed.

Lemma c_round_large t :
  0 < t -> 4 <= t_size t ->
  let P := 256 ^ (t_size t - 3) in
  c_round t = (if 2 ^ 23 <=? t_man t then t_man t / 256 * 256 else t_man t) * P /\
  c_round t <= t /\ (t - c_round t) * 2 ^ 15 <= c_round t.
Proof.
  intros Ht Hs P. pose proof (t_man_range t Ht) as Hm. unfold c_round, c_bits.
  assert (0 < P) as HP by (apply Z.pow_pos_nonneg; lia).
  assert (P * t_man t <= t < P * t_man t + P) as Hman.
  { unfold t_man. destruct (Z.leb_spec (t_size t) 3); [lia|]. fold P.
    pose proof (Z.div_mod t P ltac:(lia)). pose proof (Z.mod_pos_bound t P HP). lia. }
  destruct (Z.leb_spec (2 ^ 23) (t_man t)) as [Hb|Hb].
  - pose proof (Z.div_mod (t_man t) 256 ltac:(lia)) as Hd.
    pose proof (Z.mod_pos_bound (t_man t) 256 ltac:(lia)).
    destruct (c_parts (t_size t + 1) (t_man t / 256)) as (-> & -> & _); [lia|].
    unfold c_val. destruct (Z.leb_spec (t_size t + 1) 3); [lia|].
    replace (256 ^ (t_size t + 1 - 3)) with (256 * P)
      by (unfold P; rewrite <- Z.pow_succ_r by lia; f_equal; lia).
    split; [ring|]. apply round_bound; [lia|apply Z.div_le_lower_bound; lia|].
    set (q := t_man t / 256) in *. rewrite Hd in Hman.
    assert (P * (t_man t mod 256) <= P * 255) by (apply Z.mul_le_mono_nonneg_l; lia).
    assert (0 <= P * (t_man t mod 256)) by (apply Z.mul_nonneg_nonneg; lia). lia.
  - destruct (c_parts (t_size t) (t_man t)) as (-> & -> & _); [lia|].
    unfold c_val. destruct (Z.leb_spec (t_size t) 3); [lia|]. fold P. split; [done|]. apply round_bound; lia.
Qed.

Lemma c_round_small t : 0 < t -> t_size t <= 3 -> c_round t <= t /\ (t - c_round t) * 2 ^ 15 <= c_round t /\
  (2 ^ 23 <=? t_man t = false \/ t_size t < 3 -> c_round t = t) /\
  (2 ^ 23 <=? t_man t = true -> t_size t = 3 -> c_round t = t / 256 * 256).
Proof.
  intros Ht Hs. destruct (t_size_spec t Ht) as (Hs1 & Hr). pose proof (t_man_range t Ht) as Hm.
  unfold c_round, c_bits, t_man in *. destruct (Z.leb_spec (t_size t) 3); [|lia].
  assert (t_size t = 1 \/ t_size t = 2 \/ t_size t = 3) as Hc by lia.
  pose proof (Z.div_mod t 256 ltac:(lia)). pose proof (Z.mod_pos_bound t 256 ltac:(lia)).
  destruct (Z.leb_spec (2 ^ 23) (t * 256 ^ (3 - t_size t))) as [Hb|Hb].
  - destruct (c_parts (t_size t + 1) (t * 256 ^ (3 - t_size t) / 256)) as (-> & -> & _).
    { split; [apply Z.div_pos; lia|apply Z.div_lt_upper_bound; lia]. }
    unfold c_val. destruct Hc as [Hc|[Hc|Hc]]; rewrite Hc in *.
    + change (256 ^ (3 - 1)) with 65536. change (1 + 1 <=? 3) with true.
      change (256 ^ (3 - (1 + 1))) with 256. cbv iota.
      replace (t * 65536) with (t * 256 * 256) by lia. rewrite !Z.div_mul by lia. lia.
    + change (256 ^ (3 - 2)) with 256. change (2 + 1 <=? 3) with true.
      change (256 ^ (3 - (2 + 1))) with 1. cbv iota. rewrite Z.div_mul, Z.div_1_r by lia. lia.
    + change (256 ^ (3 - 3)) with 1 in *. change (3 + 1 <=? 3) with false.
      change (256 ^ (3 + 1 - 3)) with 256. cbv iota. rewrite !Z.mul_1_r in *.
      change (256 ^ 3) with (2 ^ 24) in Hr.
      assert (2 ^ 15 <= t / 256) by (apply Z.div_le_lower_bound; lia).
      split_and!; [lia..| |done]. intros [|]; [done|lia].
  - destruct (c_parts (t_size t) (t * 256 ^ (3 - t_size t))) as (-> & -> & _); [lia|].
    unfold c_val. destruct (Z.leb_spec (t_size t) 3); [|lia].
    rewrite Z.div_mul by (apply Z.pow_nonzero; lia). lia.
Qed.

(** The compact form is a canonical one: it is the compact form of its own
    target. *)
Lemma c_bits_round t : 0 < t -> c_bits (c_round t) = c_bits t.
Proof.
  intros Ht. destruct (t_size_spec t Ht) as (Hs & Hr). pose proof (t_man_range t Ht) as Hm.
  assert (forall t', t_size t' = t_size t ->
    t_man t' = (if 2 ^ 23 <=? t_man t then t_man t / 256 * 256 else t_man t) -> c_bits t' = c_bits t) as Hc.
  { intros t' H1 H2. unfold c_bits. rewrite H1, H2. destruct (Z.leb_spec (2 ^ 23) (t_man t)).
    - rewrite Z.div_mul by lia. destruct (Z.leb_spec (2 ^ 23) (t_man t / 256 * 256)) as [|Hlt]; [done|].
      assert (2 ^ 15 <= t_man t / 256) by (apply Z.div_le_lower_bound; lia). lia.
    - destruct (Z.leb_spec (2 ^ 23) (t_man t)); [lia|done]. }
  destruct (Z.lt_ge_cases 3 (t_size t)) as [Hbig|Hsmall].
  - destruct (c_round_large t Ht ltac:(lia)) as (Hcr & Hle & _). set (P := 256 ^ (t_size t - 3)) in *.
    assert (0 < P) by (apply Z.pow_pos_nonneg; lia). rewrite Hcr.
    set (m := if 2 ^ 23 <=? t_man t then _ else _) in *.
    assert (2 ^ 16 <= m < 2 ^ 24) as Hmr.
    { unfold m. destruct (Z.leb_spec (2 ^ 23) (t_man t)); [|lia].
      assert (2 ^ 15 <= t_man t / 256) by (apply Z.div_le_lower_bound; lia).
      pose proof (Z.mul_div_le (t_man t) 256 ltac:(lia)). lia. }
    assert (t_size (m * P) = t_size t) as Hsz.
    { apply t_size_unique; [lia|]. unfold P.
      replace (t_size t - 1) with (2 + (t_size t - 3)) by lia.
      replace (256 ^ t_size t) with (256 ^ (3 + (t_size t - 3))) by (f_equal; lia).
      rewrite !Z.pow_add_r by lia. fold P. change (256 ^ 2) with (2 ^ 16). change (256 ^ 3) with (2 ^ 24).
      split; [apply Z.mul_le_mono_nonneg_r|apply Z.mul_lt_mono_pos_r]; lia. }
    apply Hc; [done|]. unfold t_man at 1. rewrite Hsz. destruct (Z.leb_spec (t_size t) 3); [lia|].
    fold P m. apply Z.div_mul. lia.
  - destruct (c_round_small t Ht ltac:(lia)) as (_ & _ & Hsame & Hthree).
    destruct (2 ^ 23 <=? t_man t) eqn:E; [|by rewrite Hsame by auto].
    destruct (Z.eq_dec (t_size t) 3) as [H3|]; [|by rewrite Hsame by lia].
    rewrite Hthree by done. rewrite H3 in *. change (256 ^ 3) with (2 ^ 24) in Hr.
    unfold t_man in *. rewrite H3 in *. cbn [Z.leb Z.sub Z.compare Pos.compare Pos.compare_cont] in *.
    change (256 ^ (3 - 3)) with 1 in *. rewrite !Z.mul_1_r in *. bool_to_prop.
    assert (2 ^ 15 <= t / 256) by (apply Z.div_le_lower_bound; lia).
    pose proof (Z.mul_div_le t 256 ltac:(lia)).
    assert (t_size (t / 256 * 256) = 3) as Hsz
      by (apply t_size_unique; [lia|]; change (256 ^ (3 - 1)) with 65536; change (256 ^ 3) with (2 ^ 24); lia).
    apply Hc; [done|]. rewrite Hsz. cbn [Z.leb Z.compare Pos.compare Pos.compare_cont].
    change (256 ^ (3 - 3)) with 1. lia.
Qed.

(** What both directions give together. *)
Lemma compact_round t :
  0 < t < 2 ^ 255 ->
  exists b t', compact_bits_from_biguint t = Ok b /\ compact_target_be b = Ok t' /\
    canonical_compact_target_be b = Ok t' /\ is_u32 b /\ is32 t' /\
    0 < be_val t' <= t /\ (t - be_val t') * 2 ^ 15 <= be_val t'.
Proof.
  intros Ht. pose proof (t_man_range t ltac:(lia)) as Hm. destruct (t_size_spec t ltac:(lia)) as (Hs & Hr).
  assert (t_size t <= 32) as H32.
  { unfold t_size. pose proof (to_bytes_be_length t 31) as Hl.
    change (256 ^ Z.of_nat 32) with (2 ^ 256) in Hl. lia. }
  assert (c_round t <= t /\ (t - c_round t) * 2 ^ 15 <= c_round t) as [Hle Herr].
  { destruct (Z.lt_ge_cases 3 (t_size t)).
    - destruct (c_round_large t) as (_ & ? & ?); [lia..|done].
    - destruct (c_round_small t) as (? & ? & _); [lia..|done]. }
  assert (c_valid (c_bits t) /\ is_u32 (c_bits t)) as [Hval Hu].
  { unfold c_valid, c_bits. destruct (Z.leb_spec (2 ^ 23) (t_man t)) as [Hb|Hb].
    - assert (2 ^ 15 <= t_man t / 256 < 2 ^ 16)
        by (split; [apply Z.div_le_lower_bound; lia|apply Z.div_lt_upper_bound; lia]).
      destruct (c_parts (t_size t + 1) (t_man t / 256)) as (-> & -> & ->); [lia|].
      enough (t_size t <> 32) by lia. intros He. unfold t_man in Hb. rewrite He in Hb.
      cbn [Z.leb Z.compare Pos.compare Pos.compare_cont] in Hb.
      assert (t / 256 ^ (32 - 3) < 2 ^ 23); [|lia]. apply Z.div_lt_upper_bound; [done|].
      change (256 ^ (32 - 3) * 2 ^ 23) with (2 ^ 255). lia.
    - destruct (c_parts (t_size t) (t_man t)) as (-> & -> & ->); [lia|]. lia. }
  pose proof (compact_bits_eq t ltac:(lia)) as Hbits. fold (c_bits t) in Hbits.
  destruct (proj1 (compact_target_eq (c_bits t) Hu) Hval) as (t' & Ht' & Hl & Hv). fold (c_round t) in Hv.
  exists (c_bits t), t'. rewrite Hv. split_and!; try done; try lia.
  unfold canonical_compact_target_be, compact_bits_from_target_be. rewrite Ht', Hv.
  rewrite compact_bits_eq by lia. fold (c_bits (c_round t)). rewrite c_bits_round by lia.
  by rewrite Z.eqb_refl.
Qed.

Definition pow_limit_val : Z := 0xffff * 256 ^ 26.

Lemma pow_limit_ok :
  exists p, compact_target_be BITCOIN_MAINNET_POW_LIMIT_BITS = Ok p /\ is32 p /\ be_val p = pow_limit_val.
Proof. eexists. split; [vm_compute; reflexivity|]. split; [done|vm_compute; reflexivity]. Qed.

Lemma canonical_ok b t :
  is_u32 b -> canonical_compact_target_be b = Ok t ->
  compact_target_be b = Ok t /\ is32 t /\ 0 < be_val t < 2 ^ 256.
Proof.
  intros Hb H. unfold canonical_compact_target_be in H.
  destruct (compact_target_be b) as [t'|] eqn:Et; [|done].
  destruct (compact_bits_from_target_be t') as [b'|] eqn:Eb; [|done].
  destruct (negb (b' =? b)); [done|]. apply Ok_inj in H as ->. split; [done|].
  destruct (compact_target_eq b Hb) as [Hv Hn].
  assert (is32 t) as Hl.
  { destruct (Z.eq_dec (c_man b) 0) as [|Hm]; [rewrite Hn in Et; [done|intros []; lia]|].
    destruct (Z.testbit b 23) eqn:E23; [rewrite Hn in Et; [done|intros (_ & ? & _); congruence]|].
    destruct (Z_le_dec 1 (c_exp b)), (Z_le_dec (c_exp b) 32);
      try (rewrite Hn in Et; [done|intros (_ & _ & ?); lia]).
    destruct Hv as (t' & Ht' & Hl & _); [by split_and!|]. congruence. }
  split; [done|]. pose proof (be_val_range 32 t Hl) as Hr. change (256 ^ Z.of_nat 32) with (2 ^ 256) in Hr.
  enough (be_val t <> 0) by lia. intros Hz. unfold compact_bits_from_target_be in Eb.
  rewrite Hz in Eb. done.
Qed.

Lemma validate_bits_iff b t :
  is_u32 b ->
  validate_mainnet_target_bits b = Ok t <->
  canonical_compact_target_be b = Ok t /\ be_val t <= pow_limit_val.
Proof.
  intros Hb. unfold validate_mainnet_target_bits. destruct pow_limit_ok as (p & Hp & Hl & Hv). rewrite Hp.
  destruct (canonical_compact_target_be b) as [t'|] eqn:Ec; [|naive_solver].
  apply canonical_ok in Ec as (_ & Hl' & _); [|done].
  rewrite bytes_ltb_be_val, Hv by congruence. destruct (Z.ltb_spec pow_limit_val (be_val t')).
  - split; [done|]. intros [[= ->] ?]. lia.
  - split; [intros [= ->]; done|]. by intros [[= ->] _].
Qed.

(** ** Medians *)

Lemma Sorted_middle (a b : list Z) x :
  Sorted Z.le (a ++ x :: b) -> Forall (fun y => y <= x) a /\ Forall (fun y => x <= y) b.
Proof.
  intros Hs%Sorted_StronglySorted; [|intros ? ? ? ? ?; lia].
  apply StronglySorted_app in Hs as (Ha & _ & Hb). apply StronglySorted_inv in Hb as [_ Hb].
  split; [|done]. apply Forall_forall. intros y Hy. apply Ha; [done|by left].
Qed.

(** Number of entries satisfying a test. *)
Definition count (P : Z -> bool) (l : list Z) : nat := length (List.filter P l).

Lemma count_perm P l l' : l ≡ₚ l' -> count P l = count P l'.
Proof.
  unfold count. induction 1; cbn; repeat case_match; cbn; congruence || lia.
Qed.

Lemma count_all P l : Forall (fun x => P x = true) l -> count P l = length l.
Proof. unfold count. induction 1 as [|x l Hx _ IH]; cbn; [done|]. rewrite Hx. cbn. congruence. Qed.

Lemma count_none P l : Forall (fun x => P x = false) l -> count P l = 0%nat.
Proof. unfold count. induction 1 as [|x l Hx _ IH]; cbn; [done|]. by rewrite Hx. Qed.

Lemma count_app P l l' : count P (l ++ l') = (count P l + count P l')%nat.
Proof. unfold count. by rewrite List.filter_app, length_app. Qed.

Lemma count_le P l : (count P l <= length l)%nat.
Proof. unfold count. induction l as [|x l IH]; cbn; [lia|]. case_match; cbn; lia. Qed.

Lemma median_count ts :
  length ts = 11%nat ->
  let m := nth 5 (merge_sort Z.le ts) 0 in
  (6 <= count (fun t => Z.leb t m) ts)%nat /\ (6 <= count (fun t => Z.leb m t) ts)%nat /\
  forall c, (m <? c) = (6 <=? count (fun t => Z.ltb t c) ts)%nat.
Proof.
  intros Hl m. pose proof (merge_sort_Permutation Z.le ts) as Hp.
  assert (Sorted Z.le (merge_sort Z.le ts)) as Hs by (apply Sorted_merge_sort, _).
  assert (length (merge_sort Z.le ts) = 11%nat) as Hl' by (by rewrite Hp).
  assert (exists a b, merge_sort Z.le ts = a ++ m :: b /\ length a = 5%nat /\ length b = 5%nat)
    as (a & b & E & Ha & Hb).
  { exists (take 5 (merge_sort Z.le ts)), (drop 6 (merge_sort Z.le ts)).
    split; [|rewrite length_take, length_drop; lia]. symmetry. apply take_drop_middle.
    destruct (nth_lookup_or_length (merge_sort Z.le ts) 5 0) as [->|]; [done|lia]. }
  rewrite E in Hs, Hp. apply Sorted_middle in Hs as [Hla Hgb].
  setoid_rewrite <- (count_perm _ _ _ Hp). clearbody m. clear Hp E Hl Hl' ts.
  replace (a ++ m :: b) with ((a ++ [m]) ++ b) by by rewrite <- app_assoc.
  assert (length (a ++ [m]) = 6%nat) as Ha6 by (rewrite length_app; simpl; lia).
  assert (forall c, m < c -> count (fun t => Z.ltb t c) (a ++ [m]) = 6%nat) as Hlt.
  { intros c Hc. rewrite <- Ha6. apply count_all, Forall_app. split.
    - eapply Forall_impl; [exact Hla|]. intros y ?. cbn in *. apply Z.ltb_lt. lia.
    - repeat constructor. by apply Z.ltb_lt. }
  split_and!.
  - rewrite count_app. enough (count (fun t => Z.leb t m) (a ++ [m]) = 6%nat) by lia.
    rewrite <- Ha6. apply count_all, Forall_app. split.
    + eapply Forall_impl; [exact Hla|]. intros y ?. by apply Z.leb_le.
    + repeat constructor. apply Z.leb_refl.
  - rewrite <- app_assoc, count_app. enough (count (fun t => Z.leb m t) ([m] ++ b) = 6%nat) by lia.
    transitivity (length ([m] ++ b)); [|simpl; lia]. apply count_all. constructor; [apply Z.leb_refl|].
    eapply Forall_impl; [exact Hgb|]. intros y ?. by apply Z.leb_le.
  - intros c. rewrite count_app. destruct (Z.ltb_spec m c) as [Hc|Hc].
    + rewrite Hlt by done. symmetry. apply Nat.leb_le. lia.
    + symmetry. apply Nat.leb_gt. rewrite <- count_app, <- app_assoc, count_app.
      rewrite (count_none _ ([m] ++ b)); [pose proof (count_le (fun t => Z.ltb t c) a); lia|].
      constructor; [by apply Z.ltb_ge|]. eapply Forall_impl; [exact Hgb|].
      intros y ?. cbn in *. apply Z.ltb_ge. lia.
Qed.

(** ** Merkle branches *)

Section branch.
Context {SHA : Sha2}.

Lemma double_sha256_length b : is32 (double_sha256 b).
Proof. apply sha256_length. Qed.

Lemma double_sha256_inj_or a b :
  double_sha256 a = double_sha256 b -> a = b \/ collides [a; sha256 a] [b; sha256 b].
Proof.
  intros [[?|Hc]%sha256_inj_or|Hc]%sha256_inj_or; [by left|right; more_messages Hc..].
Qed.

(** The messages hashed along a branch: at each level the pair, and its first
    digest. *)
Fixpoint branch_messages (leaf : bytes32) (index : Z) (branch : list bytes32) : list bytes :=
  match branch with
  | [] => []
  | sibling :: branch =>
      let pair := if Z.land index 1 =? 0 then leaf ++ sibling else sibling ++ leaf in
      pair :: sha256 pair :: branch_messages (double_sha256 pair) (Z.shiftr index 1) branch
  end.

Lemma branch_inj_or branch branch' leaf leaf' index :
  is32 leaf -> is32 leaf' -> length branch = length branch' ->
  Forall (fun s => is32 s) branch -> Forall (fun s => is32 s) branch' ->
  merkle_root_from_branch leaf index branch = merkle_root_from_branch leaf' index branch' ->
  (leaf = leaf' /\ branch = branch') \/
  collides (branch_messages leaf index branch) (branch_messages leaf' index branch').
Proof.
  revert branch' leaf leaf' index. induction branch as [|s branch IH];
    intros [|s' branch'] leaf leaf' index Hl Hl' Hlen Hb Hb' Heq; try done; [by left|].
  cbn [merkle_root_from_branch branch_messages length] in *. apply Forall_cons in Hb as [Hs Hb].
  apply Forall_cons in Hb' as [Hs' Hb'].
  apply IH in Heq as [[Heq ->]|Hc]; [|right; more_messages Hc|apply double_sha256_length..|lia|done|done].
  apply double_sha256_inj_or in Heq as [Heq|Hc]; [left|right; more_messages Hc].
  destruct (Z.land index 1 =? 0); apply app_inj_len in Heq as [-> ->]; (done || congruence).
Qed.

Lemma parse_transaction_txid_length raw parsed :
  parse_transaction raw = Ok parsed -> is32 (pt_txid_internal parsed).
Proof.
  unfold parse_transaction. intros Ep.
  repeat (case_match; try discriminate); apply Ok_inj in Ep as <-; apply double_sha256_length.
Qed.

(** A header chain: each header extends the one before it and meets the target
    it states. *)
Definition is_chain (headers : list BitcoinHeader) : Prop :=
  (forall i h, headers !! i = Some h -> exists t, compact_target_be (bits h) = Ok t /\
     be_val (rev (hash_internal h)) <= be_val t) /\
  (forall i a b, headers !! i = Some a -> headers !! S i = Some b ->
     previous_block_internal b = hash_internal a).

Lemma bits_range h : length h = 80%nat -> is_u32 (bits h).
Proof.
  intros Hh. unfold bits. pose proof (le_val_range (slice 72 76 h)) as Hr.
  rewrite length_slice in Hr by lia. exact Hr.
Qed.

Lemma compact_target_length b t : is_u32 b -> compact_target_be b = Ok t -> is32 t.
Proof.
  intros Hb Ht. destruct (compact_target_eq b Hb) as [Hv Hn].
  assert (c_valid b \/ ~ c_valid b) as [Hc|Hc].
  { unfold c_valid. destruct (Z.eq_dec (c_man b) 0), (Z.testbit b 23), (Z_le_dec 1 (c_exp b)),
      (Z_le_dec (c_exp b) 32); (left; split_and!; done) || (right; intros (? & ? & ? & ?); done). }
  - destruct (Hv Hc) as (t' & Ht' & Hl & _). congruence.
  - rewrite Hn in Ht by done. done.
Qed.

Lemma header_meets_pow_true h :
  length h = 80%nat -> header_meets_pow h = Ok true <->
  exists t, compact_target_be (bits h) = Ok t /\ be_val (rev (hash_internal h)) <= be_val t.
Proof.
  intros Hh. unfold header_meets_pow. destruct (compact_target_be (bits h)) as [t|] eqn:Et; [|naive_solver].
  apply compact_target_length in Et as Hl; [|by apply bits_range].
  unfold bytes_leb. rewrite bytes_ltb_be_val by (rewrite length_rev; rewrite Hl; symmetry; apply double_sha256_length).
  split.
  - intros Heq%Ok_inj. exists t. split; [done|]. apply negb_true_iff, Z.ltb_ge in Heq. done.
  - intros (t' & [= <-] & Hle). f_equal. apply negb_true_iff, Z.ltb_ge. done.
Qed.

Lemma check_pow_ok headers :
  Forall (fun h => length h = 80%nat) headers ->
  check_pow headers = Ok tt <-> Forall (fun h => header_meets_pow h = Ok true) headers.
Proof.
  induction 1 as [|h hs Hh _ IH]; cbn [check_pow]; [by split|]. rewrite Forall_cons, <- IH.
  destruct (header_meets_pow h) as [[|]|]; cbn [negb]; naive_solver.
Qed.

Lemma check_links_ok headers :
  check_links headers = Ok tt <->
  forall i a b, headers !! i = Some a -> headers !! S i = Some b ->
    previous_block_internal b = hash_internal a.
Proof.
  induction headers as [|a [|b rest] IH]; cbn [check_links].
  - by split; [intros _ i ? ? Hi|].
  - split; [|done]. by intros _ [|i] ? ? ? Hi.
  - destruct (bytes_eqb _ _) eqn:E; cbn [negb]; bool_to_prop.
    + rewrite IH. split.
      * intros H [|i] x y Hx Hy; [cbn in *; by simplify_eq|]. by apply (H i).
      * intros H i x y Hx Hy. by apply (H (S i)).
    + split; [done|]. intros H. by destruct E; apply (H 0%nat).
Qed.

Lemma validate_header_chain_ok headers :
  Forall (fun h => length h = 80%nat) headers ->
  validate_header_chain headers = Ok tt <-> (6 <= length headers)%nat /\ is_chain headers.
Proof.
  intros Hh. unfold validate_header_chain, REQUIRED_CONFIRMATIONS, is_chain.
  destruct (Nat.ltb_spec (length headers) 6); [split; [done|lia]|].
  pose proof (check_pow_ok headers Hh) as Hp. rewrite <- check_links_ok.
  assert (Forall (fun h => header_meets_pow h = Ok true) headers <->
    forall i h, headers !! i = Some h -> exists t, compact_target_be (bits h) = Ok t /\
      be_val (rev (hash_internal h)) <= be_val t) as Hi.
  { rewrite Forall_lookup. rewrite Forall_lookup in Hh. split; intros Hx i h Hih;
      apply header_meets_pow_true; eauto. }
  rewrite <- Hi, <- Hp. destruct (check_pow headers) as [[]|]; naive_solver lia.
Qed.
End branch.

(** ** Properties *)

(** The Mainnet retarget.  For a valid previous target [T] and any two
    timestamps, let [X] be [T * clamp(elapsed) / timespan] capped at the
    proof-of-work limit.  Unless [X] is zero the retarget returns canonical
    bits that Mainnet accepts, whose target is at most [X], at most [4 T], and
    below [X] by less than one part in [2^15]; no intermediate overflows. *)
Theorem retarget_correct old_bits old first last :
  is_u32 old_bits -> is_u32 first -> is_u32 last ->
  validate_mainnet_target_bits old_bits = Ok old ->
  let elapsed := Z.min (Z.max (last - first) 302400) 4838400 in
  let X := Z.min pow_limit_val (be_val old * elapsed / 1209600) in
  (X = 0 -> bitcoin_mainnet_retarget_bits old_bits first last = Err BadCompactTarget) /\
  (0 < X -> exists b t,
     bitcoin_mainnet_retarget_bits old_bits first last = Ok b /\
     validate_mainnet_target_bits b = Ok t /\
     0 < be_val t <= X /\ be_val t <= 4 * be_val old /\ (X - be_val t) * 2 ^ 15 <= be_val t).
Proof.
  intros Hb Hf Hl Hv elapsed X. pose proof (proj1 (validate_bits_iff old_bits old Hb) Hv) as [Hc Hlim].
  destruct (canonical_ok old_bits old Hb Hc) as (_ & _ & HT).
  destruct pow_limit_ok as (p & Hp & _ & Hpv).
  assert (bitcoin_mainnet_retarget_bits old_bits first last = compact_bits_from_biguint X) as ->.
  { unfold bitcoin_mainnet_retarget_bits. rewrite Hv, Hp, Hpv.
    change BITCOIN_MAINNET_RETARGET_MIN_TIMESPAN_SECONDS with 302400.
    change BITCOIN_MAINNET_RETARGET_MAX_TIMESPAN_SECONDS with 4838400.
    unfold BITCOIN_MAINNET_TARGET_TIMESPAN_SECONDS. fold elapsed. unfold X.
    destruct (Z.ltb_spec pow_limit_val (be_val old * elapsed / 1209600)); f_equal; lia. }
  split; [by intros ->|]. intros HX.
  assert (X <= pow_limit_val) as HXl by (unfold X; lia).
  assert (be_val old * elapsed / 1209600 <= 4 * be_val old) as H4.
  { apply Z.div_le_upper_bound; [lia|]. assert (elapsed <= 4838400) by (unfold elapsed; lia). nia. }
  assert (pow_limit_val < 2 ^ 255) by reflexivity.
  destruct (compact_round X) as (b & t & Hbits & _ & Hcan & Hu & _ & Hpos & Herr); [lia|].
  exists b, t. split_and!; [done| |lia..]. apply validate_bits_iff; [done|]. split; [done|lia].
Qed.

Lemma retarget_correct_witness :
  exists b t, bitcoin_mainnet_retarget_bits 0x1d00ffff 1231006505 1233061996 = Ok b /\
    validate_mainnet_target_bits b = Ok t /\ 0 < be_val t.
Proof.
  destruct (retarget_correct 0x1d00ffff
    (hex "00000000ffff0000000000000000000000000000000000000000000000000000") 1231006505 1233061996)
    as [_ H]; [lia..|vm_compute; reflexivity|].
  destruct H as (b & t & H1 & H2 & H3 & _); [vm_compute; reflexivity|]. exists b, t.
  split; [exact H1|]. split; [exact H2|apply H3].
Defined.

(** Chain work.  The work of a canonical target [T] is the positive
    quotient [2^256 / (T + 1)], which always fits in 32 bytes, and adding it to
    a branch either makes the branch strictly heavier or is refused as an
    overflow; it never wraps. *)
Theorem header_work_correct b t parent :
  is_u32 b -> canonical_compact_target_be b = Ok t -> is32 parent ->
  exists w, bitcoin_header_work_be b = Ok w /\ is32 w /\ 0 < be_val w /\
    be_val w * (be_val t + 1) <= 2 ^ 256 < (be_val w + 1) * (be_val t + 1) /\
    match add_chainwork_be parent w with
    | Ok s => is32 s /\ be_val s = be_val parent + be_val w /\ be_val parent < be_val s
    | Err e => e = ArithmeticOverflow /\ 2 ^ 256 <= be_val parent + be_val w
    end.
Proof.
  intros Hb Hc Hp. destruct (canonical_ok b t Hb Hc) as (_ & _ & HT).
  unfold bitcoin_header_work_be, biguint_to_be32. rewrite Hc, Z.shiftl_1_l.
  set (w := 2 ^ 256 / (be_val t + 1)).
  pose proof (Z.div_mod (2 ^ 256) (be_val t + 1) ltac:(lia)) as Hd. fold w in Hd.
  pose proof (Z.mod_pos_bound (2 ^ 256) (be_val t + 1) ltac:(lia)) as Hm.
  assert (0 < w) as Hw by (apply Z.div_str_pos; lia).
  assert (w < 2 ^ 256) as Hwr by (apply Z.div_lt; lia).
  rewrite to_be32_fits by lia. cbn [ok_or]. exists (be_bytes 32 w).
  assert (be_val (be_bytes 32 w) = w) as Hbv
    by (apply be_val_be_bytes; change (256 ^ Z.of_nat 32) with (2 ^ 256); lia).
  rewrite Hbv. split_and!; [done|apply length_be_bytes|done|lia|lia|].
  pose proof (be_val_range 32 parent Hp) as Hpr. change (256 ^ Z.of_nat 32) with (2 ^ 256) in Hpr.
  unfold add_chainwork_be, biguint_to_be32. rewrite Hbv.
  destruct (Z.lt_ge_cases (be_val parent + w) (2 ^ 256)) as [Hlt|Hge].
  - rewrite to_be32_fits by lia. cbn [ok_or]. split; [apply length_be_bytes|].
    rewrite be_val_be_bytes by (change (256 ^ Z.of_nat 32) with (2 ^ 256); lia). lia.
  - rewrite to_be32_too_big by lia. done.
Qed.

Lemma header_work_correct_witness :
  exists w, bitcoin_header_work_be 0x1d00ffff = Ok w /\ be_val w = 0x100010001.
Proof.
  destruct (header_work_correct 0x1d00ffff
    (hex "00000000ffff0000000000000000000000000000000000000000000000000000") ZERO32)
    as (w & H & _); [lia|vm_compute; reflexivity|done|].
  exists w. split; [exact H|].
  assert (bitcoin_header_work_be 0x1d00ffff = Ok (be_bytes 32 0x100010001)) as E
    by (vm_compute; reflexivity).
  rewrite E in H. apply Ok_inj in H. rewrite <- H. vm_compute. reflexivity.
Defined.

(** Median time past.  The value returned is the middle of the eleven
    timestamps (at least six are not above it and at least six are not below
    it), and a candidate timestamp is accepted exactly when it is later than at
    least six of them. *)
Theorem median_time_past_correct ts candidate :
  length ts = 11%nat ->
  let m := median_timestamp_11 ts in
  (6 <= count (fun t => Z.leb t m) ts)%nat /\ (6 <= count (fun t => Z.leb m t) ts)%nat /\
  (validate_mainnet_mtp candidate ts = Ok tt <-> (6 <= count (fun t => Z.ltb t candidate) ts)%nat).
Proof.
  intros Hl m. destruct (median_count ts Hl) as (H1 & H2 & H3). split_and!; [done..|].
  unfold validate_mainnet_mtp. rewrite <- Nat.leb_le, <- H3. fold (median_timestamp_11 ts).
  change (nth 5 (merge_sort Z.le ts) 0) with (median_timestamp_11 ts). fold m.
  destruct (Z.leb_spec candidate m), (Z.ltb_spec m candidate); try lia; by split.
Qed.

Lemma median_time_past_correct_witness :
  let ts := [11; 3; 5; 2; 9; 1; 4; 10; 8; 6; 7] in
  validate_mainnet_mtp 7 ts = Ok tt <-> (6 <= count (fun t => Z.ltb t 7) ts)%nat.
Proof.
  exact (proj2 (proj2 (median_time_past_correct [11; 3; 5; 2; 9; 1; 4; 10; 8; 6; 7] 7 eq_refl))).
Defined.

Section properties.
Context {SHA : Sha2}.

(** The transaction parser.  The legacy and every SegWit serialization of
    a transaction parse to the same result: the outputs, and a txid that is the
    double SHA-256 of the legacy serialization, so that the witness data cannot
    change the txid a payment is known by. *)
Theorem parse_transaction_correct t flag :
  btc_tx_wf t -> 1 <= flag < 256 ->
  Z.of_nat (length (ser_segwit flag t)) < 2 ^ 64 ->
  parse_transaction (ser_legacy t)
    = Ok {| pt_txid_internal := double_sha256 (ser_legacy t); pt_outputs := bt_outputs t |} /\
  parse_transaction (ser_segwit flag t) = parse_transaction (ser_legacy t).
Proof.
  intros Hw Hflag Hf. assert (fits (ser_legacy t)).
  { unfold ser_segwit, ser_legacy in *. rewrite !length_app in *. lia. }
  by rewrite parse_segwit, parse_legacy.
Qed.

End properties.

(** ** A concrete payment *)

Definition demo_manifest_hash : bytes32 := replicate 32 Byte.xab.

Definition demo_btc_tx : btc_tx :=
  {| bt_version := hex "01000000";
     bt_inputs := [{| bi_outpoint := map (fun i => byte_of_Z (Z.of_nat i)) (seq 0 36);
                      bi_script := []; bi_sequence := hex "ffffffff" |}];
     bt_outputs := [{| bo_value_sats := 100000; bo_script_pubkey := hex "51" |};
                    {| bo_value_sats := 0;
                       bo_script_pubkey := canonical_manifest_script demo_manifest_hash |}];
     bt_witnesses := [[hex "aabb"; hex "cc"]];
     bt_lock_time := hex "00000000" |}.

(** The transaction is the second of its block: its branch has a left and then
    a right sibling. *)
Definition demo_branch : list bytes32 := [replicate 32 Byte.x77; replicate 32 Byte.x88].

Definition demo_headers : list BitcoinHeader :=
  [hex "010000000000000000000000000000000000000000000000000000000000000000000000e992346e392ae84ef7ce03956c1791b96b6f7d48bafbab65e4b288809c258df000f15365ffff7f2002000000";
   hex "010000009e6ccc37200cbdd5f3f4e0dfb27da57c060f1c9033097cb916c99b356507b469010101010101010101010101010101010101010101010101010101010101010158f35365ffff7f2000000000";
   hex "0100000056ee5a9b06695f48637975596ec1a58398490ab6c55689295f7da9dfc1ca952d0202020202020202020202020202020202020202020202020202020202020202b0f55365ffff7f2001000000";
   hex "01000000aac3b468ddb6eae906dcd6c2d289923425d33c7264a962c7e69ca7b751fb4001030303030303030303030303030303030303030303030303030303030303030308f85365ffff7f2001000000";
   hex "0100000070dc2df508e10ecc6b928f24394839b5aeb1d5f70a04f178181c32dbc735b30e040404040404040404040404040404040404040404040404040404040404040460fa5365ffff7f2000000000";
   hex "0100000097eb25f2e7b373d8e3bce1d7a26b1c82e17f8503b9baa2707f763616359e96630505050505050505050505050505050505050505050505050505050505050505b8fc5365ffff7f2000000000"].

Definition demo_payment : BitcoinSpvProofV1 :=
  {| sp_raw_transaction := ser_segwit 1 demo_btc_tx; sp_payment_output_index := 0;
     sp_manifest_output_index := 1; sp_tx_index := 1; sp_merkle_branch := demo_branch;
     sp_headers := demo_headers; sp_containing_block_height := 200 |}.

Lemma parse_transaction_correct_witness :
  btc_tx_wf demo_btc_tx /\
  parse_transaction (ser_segwit 1 demo_btc_tx) = parse_transaction (ser_legacy demo_btc_tx).
Proof.
  assert (btc_tx_wf demo_btc_tx) as Hw.
  { unfold btc_tx_wf, demo_btc_tx. cbn [bt_version bt_lock_time bt_inputs bt_outputs bt_witnesses].
    split_and!; try done; repeat constructor; cbn; done. }
  split; [exact Hw|].
  exact (proj2 (parse_transaction_correct demo_btc_tx 1 Hw ltac:(lia) ltac:(vm_compute; reflexivity))).
Defined.

