(* ===== verification/Protocol.v ===== *)
(** Crate [mutiny-protocol]: protocol operations, license manifests, the
    Pack-K and Pack-M wire formats and the state transitions on licenses,
    presence, offenses and dividends.

    A function of the source that takes [&mut] state returns the new state next
    to its result, also when the result is an error: what was written before an
    early return stays written.
    Projections: [po_] for [ProtocolOperationV1], [me_] for
    [LicenseManifestEntryV1], [mm_], [sm_] and [bm_] for the MUT, bootstrap and
    BTC manifests, [pb_] and [pm_] for the purchases, [lt_] for
    [LicenseTransferV1], [hk_] for [HistoricalLicenseKeysV1], [kr_] for
    [MiningKeyRotateV1], [mi_] for [MiningPresenceV1], [pe_] for
    [PunishmentEvidenceV1], [oa_] for [OffenseApplicationV1], [aw_] for
    [DividendAwardCalculationV1], [dc_] for [DividendClaimV1], [hd_] for
    [BitcoinHeadersV1]. *)

From S2P Require Import Prelude Crypto Sha256 Codec Merkle Smt State Bitcoin.

Definition OP_LICENSE_PURCHASE_BTC : Z := 0x0001.
Definition OP_LICENSE_PURCHASE_MUT : Z := 0x0002.
Definition OP_LICENSE_TRANSFER : Z := 0x0003.
Definition OP_LICENSE_MINING_KEY_ROTATE : Z := 0x0004.
Definition OP_PUNISHMENT_EVIDENCE : Z := 0x0005.
Definition OP_BOOTSTRAP_COMMITMENT : Z := 0x0006.
Definition OP_DIVIDEND_CLAIM : Z := 0x0007.
Definition OP_MINING_PRESENCE : Z := 0x0008.
Definition OP_BITCOIN_HEADERS : Z := 0x0009.

Definition MAINNET_NETWORK_ID : Z := 0x4D555401.
Definition TESTNET_NETWORK_ID : Z := 0x4D555402.
Definition DEVNET_NETWORK_ID : Z := 0x4D555403.
Definition MAINNET_GENESIS_ID : bytes32 :=
  hex "9def7a0cc83e92f6e1d8692e9c29bb3f11a8986b9cb590b89214774e2c7e5481".
Definition MAINNET_GENESIS_MOTTO : bytes := ascii_bytes "No Masters. Only the Many.".

Definition PACK_K_DEVNET_NETWORK_ID : Z := DEVNET_NETWORK_ID.
Definition PACK_K_DEVNET_GENESIS_ID : bytes32 :=
  hex "4c603df8839ce020b42a1268a54a1938657a1b7812d2df92c4803d63355e702c".
Definition PACK_K_DEVNET_ACTIVATION_EPOCH : Z := 1500.
Definition MINING_PRESENCE_WINDOW_EPOCHS : Z := 16.
Definition MINING_PRESENCE_UNSIGNED_LEN : nat := 80.
Definition MINING_PRESENCE_FULL_LEN : nat := 144.

Definition pack_k_activation_epoch (network_id : Z) (genesis_id : bytes32) : option Z :=
  if (network_id =? MAINNET_NETWORK_ID) && bytes_eqb genesis_id MAINNET_GENESIS_ID then Some 11
  else if (network_id =? PACK_K_DEVNET_NETWORK_ID) && bytes_eqb genesis_id PACK_K_DEVNET_GENESIS_ID
  then Some PACK_K_DEVNET_ACTIVATION_EPOCH else None.

Definition pack_k_active (network_id : Z) (genesis_id : bytes32) (epoch : Z) : bool :=
  match pack_k_activation_epoch network_id genesis_id with
  | Some activation => activation <=? epoch
  | None => false
  end.

Definition OFFENSE_INVALID_SIGNED_WORK : Z := 0x0001.
Definition OFFENSE_LICENSE_STATE_EQUIVOCATION : Z := 0x0002.
Definition OFFENSE_SAME_TICKET_EQUIVOCATION : Z := 0x0003.

Definition STRIKE_DECAY_EPOCHS : Z := Z.shiftl 1 21.
Definition REVOCATION_THRESHOLD : Z := 16.
Definition ACTIVATION_DELAY_EPOCHS : Z := Z.shiftl 1 6.
Definition DIVIDEND_CLAIM_WINDOW : Z := Z.shiftl 1 16.
Definition DIVIDEND_AWARD_INTERVAL : Z := Z.shiftl 1 17.
Definition DIVIDEND_FRACTION_NUMERATOR : Z := 1.
Definition DIVIDEND_FRACTION_DENOMINATOR : Z := 2.

Inductive ProtocolError :=
| BadVersion
| InvalidManifest
| ProtoInvalidSignature
| StaleOwnerSequence
| StaleMiningSequence
| Revoked
| BadOffenseWeight
| DividendExpired
| DividendOverdraw
| TreasuryUnderflow
| ProtoOverflow
| MiningPresenceInactive
| MiningPresenceNetwork
| MiningPresenceGenesis
| MiningPresenceEpoch
| InvalidMiningPresence
| StateErr (e : StateError).

(** ** Operations *)

Record ProtocolOperationV1 := { po_op_type : Z; po_op_version : Z; po_payload : bytes }.

Definition ProtocolOperationV1_encode (op : ProtocolOperationV1) : bytes :=
  let out := [] in
  let out := write_u16_be out (po_op_type op) in
  let out := write_u16_be out (po_op_version op) in
  let out := write_varuint out (Z.of_nat (length (po_payload op))) in
  out ++ po_payload op.

Definition unsigned_operation_bytes (op_type op_version : Z) (unsigned_payload : bytes) : bytes :=
  let out := [] in
  let out := write_u16_be out op_type in
  let out := write_u16_be out op_version in
  let out := write_varuint out (Z.of_nat (length unsigned_payload)) in
  out ++ unsigned_payload.

Record LicenseManifestEntryV1 := { me_owner_public_key : bytes32; me_mining_public_key : bytes32 }.

(** The loop body shared by the three manifest encoders. *)
Definition encode_entry (out : bytes) (entry : LicenseManifestEntryV1) : bytes :=
  let out := out ++ me_owner_public_key entry in
  out ++ me_mining_public_key entry.

Record MutLicenseManifestV1 := {
  mm_version : Z;
  mm_network_id : Z;
  mm_purchase_nonce : bytes32;
  mm_licenses : list LicenseManifestEntryV1;
}.

Definition MutLicenseManifestV1_validate (m : MutLicenseManifestV1) : result ProtocolError unit :=
  let n := Z.of_nat (length (mm_licenses m)) in
  if negb (mm_version m =? 1) || (n =? 0) || (1024 <? n) then Err InvalidManifest else Ok tt.

Definition MutLicenseManifestV1_encode (m : MutLicenseManifestV1) : result ProtocolError bytes :=
  let? _ := MutLicenseManifestV1_validate m in
  let out := [] in
  let out := write_u16_be out (mm_version m) in
  let out := write_u32_be out (mm_network_id m) in
  let out := out ++ mm_purchase_nonce m in
  let out := write_u32_be out (Z.of_nat (length (mm_licenses m)) mod 2 ^ 32) in
  Ok (fold_left encode_entry (mm_licenses m) out).

Definition BOOTSTRAP_LICENSE_COUNT_V1 : Z := 12.

Record BootstrapManifestV1 := {
  sm_version : Z;
  sm_network_id : Z;
  sm_purchase_nonce : bytes32;
  sm_licenses : list LicenseManifestEntryV1;
}.

Definition BootstrapManifestV1_validate (m : BootstrapManifestV1) : result ProtocolError unit :=
  if negb (sm_version m =? 1)
     || negb (Z.of_nat (length (sm_licenses m)) =? BOOTSTRAP_LICENSE_COUNT_V1)
  then Err InvalidManifest else Ok tt.

Definition BootstrapManifestV1_encode (m : BootstrapManifestV1) : result ProtocolError bytes :=
  let? _ := BootstrapManifestV1_validate m in
  let out := [] in
  let out := write_u16_be out (sm_version m) in
  let out := write_u32_be out (sm_network_id m) in
  let out := out ++ sm_purchase_nonce m in
  let out := write_u32_be out (Z.of_nat (length (sm_licenses m)) mod 2 ^ 32) in
  Ok (fold_left encode_entry (sm_licenses m) out).

(** [for _ in 0..count]: 64 bytes per entry; the length was checked before, so
    every slice is in range. *)
Fixpoint decode_entries (count : nat) (input : bytes) : list LicenseManifestEntryV1 * bytes :=
  match count with
  | O => ([], input)
  | S count =>
      let owner := slice 0 32 input in
      let mining := slice 32 64 input in
      let (licenses, input) := decode_entries count (drop 64 input) in
      ({| me_owner_public_key := owner; me_mining_public_key := mining |} :: licenses, input)
  end.

(** [.map_err(|_| ProtocolError::InvalidManifest)] *)
Definition im {E T} (r : result E T) : result ProtocolError T := map_err (fun _ => InvalidManifest) r.

Definition BootstrapManifestV1_decode (input : bytes) : result ProtocolError BootstrapManifestV1 :=
  let? (version, input) := im (read_u16_be input) in
  let? (network_id, input) := im (read_u32_be input) in
  if (length input <? 36)%nat then Err InvalidManifest else
  let purchase_nonce := take 32 input in
  let input := drop 32 input in
  let? (count, input) := im (read_u32_be input) in
  if negb (count =? BOOTSTRAP_LICENSE_COUNT_V1) || negb (Z.of_nat (length input) =? count * 64)
  then Err InvalidManifest else
  let (licenses, _) := decode_entries (Z.to_nat count) input in
  let manifest := {| sm_version := version; sm_network_id := network_id;
    sm_purchase_nonce := purchase_nonce; sm_licenses := licenses |} in
  let? _ := BootstrapManifestV1_validate manifest in
  Ok manifest.

Record BtcLicenseManifestV1 := {
  bm_version : Z;
  bm_network_id : Z;
  bm_genesis_hash : bytes32;
  bm_purchase_nonce : bytes32;
  bm_licenses : list LicenseManifestEntryV1;
}.

Definition BtcLicenseManifestV1_validate (m : BtcLicenseManifestV1) : result ProtocolError unit :=
  let n := Z.of_nat (length (bm_licenses m)) in
  if negb (bm_version m =? 1) || (n =? 0) || (1024 <? n) then Err InvalidManifest else Ok tt.

Definition BtcLicenseManifestV1_encode (m : BtcLicenseManifestV1) : result ProtocolError bytes :=
  let? _ := BtcLicenseManifestV1_validate m in
  let out := [] in
  let out := write_u16_be out (bm_version m) in
  let out := write_u32_be out (bm_network_id m) in
  let out := out ++ bm_genesis_hash m in
  let out := out ++ bm_purchase_nonce m in
  let out := write_u32_be out (Z.of_nat (length (bm_licenses m)) mod 2 ^ 32) in
  Ok (fold_left encode_entry (bm_licenses m) out).

Definition BtcLicenseManifestV1_decode (input : bytes) : result ProtocolError BtcLicenseManifestV1 :=
  let? (version, input) := im (read_u16_be input) in
  let? (network_id, input) := im (read_u32_be input) in
  if (length input <? 64)%nat then Err InvalidManifest else
  let genesis_hash := slice 0 32 input in
  let purchase_nonce := slice 32 64 input in
  let input := drop 64 input in
  let? (count, input) := im (read_u32_be input) in
  if (count =? 0) || (1024 <? count) || negb (Z.of_nat (length input) =? count * 64)
  then Err InvalidManifest else
  let (licenses, _) := decode_entries (Z.to_nat count) input in
  let manifest := {| bm_version := version; bm_network_id := network_id;
    bm_genesis_hash := genesis_hash; bm_purchase_nonce := purchase_nonce;
    bm_licenses := licenses |} in
  let? _ := BtcLicenseManifestV1_validate manifest in
  Ok manifest.

(** ** Purchases *)

Record LicensePurchaseBtcV1 := { pb_manifest : BtcLicenseManifestV1; pb_proof : BitcoinSpvProofV1 }.

Definition LicensePurchaseBtcV1_payload (p : LicensePurchaseBtcV1) : result ProtocolError bytes :=
  let? manifest := BtcLicenseManifestV1_encode (pb_manifest p) in
  let proof := pb_proof p in
  let out := [] in
  let out := write_varuint out (Z.of_nat (length manifest)) in
  let out := out ++ manifest in
  let out := write_varuint out (Z.of_nat (length (sp_raw_transaction proof))) in
  let out := out ++ sp_raw_transaction proof in
  let out := write_u32_be out (sp_payment_output_index proof) in
  let out := write_u32_be out (sp_manifest_output_index proof) in
  let out := write_u32_be out (sp_tx_index proof) in
  let out := write_varuint out (Z.of_nat (length (sp_merkle_branch proof))) in
  let out := fold_left (fun out sibling => out ++ sibling) (sp_merkle_branch proof) out in
  let out := write_varuint out (Z.of_nat (length (sp_headers proof))) in
  let out := fold_left (fun out header => out ++ header) (sp_headers proof) out in
  let out := write_u32_be out (sp_containing_block_height proof) in
  Ok out.

Definition LicensePurchaseBtcV1_operation (p : LicensePurchaseBtcV1)
    : result ProtocolError ProtocolOperationV1 :=
  let? payload := LicensePurchaseBtcV1_payload p in
  Ok {| po_op_type := OP_LICENSE_PURCHASE_BTC; po_op_version := 1; po_payload := payload |}.

(** [usize::try_from(read_varuint(..)?)] with both errors mapped. *)
Definition read_len (input : bytes) : result ProtocolError (Z * bytes) :=
  let? (n, input) := im (read_varuint input) in
  let? n := ok_or InvalidManifest (try_from 64 n) in
  Ok (n, input).

(** The loops that cut [n] fixed-size items off the input. *)
Fixpoint cut_items (size : nat) (n : nat) (input : bytes) : list bytes * bytes :=
  match n with
  | O => ([], input)
  | S n =>
      let h := take size input in
      let (items, input) := cut_items size n (drop size input) in
      (h :: items, input)
  end.

Definition LicensePurchaseBtcV1_decode_payload (input : bytes)
    : result ProtocolError LicensePurchaseBtcV1 :=
  let? (manifest_len, input) := read_len input in
  if Z.of_nat (length input) <? manifest_len then Err InvalidManifest else
  let? manifest := BtcLicenseManifestV1_decode (take (Z.to_nat manifest_len) input) in
  let input := drop (Z.to_nat manifest_len) input in
  let? (tx_len, input) := read_len input in
  if Z.of_nat (length input) <? tx_len then Err InvalidManifest else
  let raw_transaction := take (Z.to_nat tx_len) input in
  let input := drop (Z.to_nat tx_len) input in
  let? (payment_output_index, input) := im (read_u32_be input) in
  let? (manifest_output_index, input) := im (read_u32_be input) in
  let? (tx_index, input) := im (read_u32_be input) in
  let? (branch_len, input) := read_len input in
  if (64 <? branch_len) || (Z.of_nat (length input) <? branch_len * 32) then Err InvalidManifest else
  let (merkle_branch, input) := cut_items 32 (Z.to_nat branch_len) input in
  let? (header_len, input) := read_len input in
  if (64 <? header_len) || (Z.of_nat (length input) <? header_len * 80 + 4)
  then Err InvalidManifest else
  let (headers, input) := cut_items 80 (Z.to_nat header_len) input in
  let? (containing_block_height, input) := im (read_u32_be input) in
  match input with
  | _ :: _ => Err InvalidManifest
  | [] =>
      Ok {| pb_manifest := manifest;
            pb_proof := {| sp_raw_transaction := raw_transaction;
              sp_payment_output_index := payment_output_index;
              sp_manifest_output_index := manifest_output_index;
              sp_tx_index := tx_index; sp_merkle_branch := merkle_branch;
              sp_headers := headers;
              sp_containing_block_height := containing_block_height |} |}
  end.

Record LicensePurchaseMutV1 := {
  pm_payment_txid : bytes32;
  pm_payment_output_index : Z;
  pm_manifest : MutLicenseManifestV1;
}.

Definition LicensePurchaseMutV1_payload (p : LicensePurchaseMutV1) : result ProtocolError bytes :=
  let? manifest := MutLicenseManifestV1_encode (pm_manifest p) in
  let out := [] in
  let out := out ++ pm_payment_txid p in
  let out := write_u16_be out (pm_payment_output_index p) in
  let out := write_varuint out (Z.of_nat (length manifest)) in
  Ok (out ++ manifest).

Definition LicensePurchaseMutV1_operation (p : LicensePurchaseMutV1)
    : result ProtocolError ProtocolOperationV1 :=
  let? payload := LicensePurchaseMutV1_payload p in
  Ok {| po_op_type := OP_LICENSE_PURCHASE_MUT; po_op_version := 1; po_payload := payload |}.

(** ** Unsigned payloads of the signed operations *)

Record LicenseTransferV1 := {
  lt_license_id : bytes32;
  lt_expected_owner_sequence : Z;
  lt_expected_mining_sequence : Z;
  lt_new_owner_public_key : bytes32;
  lt_new_mining_public_key : bytes32;
  lt_owner_signature : bytes;
}.

Definition LicenseTransferV1_unsigned_payload (t : LicenseTransferV1) : bytes :=
  let out := [] in
  let out := out ++ lt_license_id t in
  let out := write_u32_be out (lt_expected_owner_sequence t) in
  let out := write_u32_be out (lt_expected_mining_sequence t) in
  let out := out ++ lt_new_owner_public_key t in
  out ++ lt_new_mining_public_key t.

Definition LicenseTransferV1_operation (t : LicenseTransferV1) : ProtocolOperationV1 :=
  let payload := LicenseTransferV1_unsigned_payload t in
  let payload := payload ++ lt_owner_signature t in
  {| po_op_type := OP_LICENSE_TRANSFER; po_op_version := 1; po_payload := payload |}.

Record MiningKeyRotateV1 := {
  kr_license_id : bytes32;
  kr_expected_owner_sequence : Z;
  kr_expected_mining_sequence : Z;
  kr_new_mining_public_key : bytes32;
  kr_owner_signature : bytes;
}.

Definition MiningKeyRotateV1_unsigned_payload (t : MiningKeyRotateV1) : bytes :=
  let out := [] in
  let out := out ++ kr_license_id t in
  let out := write_u32_be out (kr_expected_owner_sequence t) in
  let out := write_u32_be out (kr_expected_mining_sequence t) in
  out ++ kr_new_mining_public_key t.

Definition MiningKeyRotateV1_operation (t : MiningKeyRotateV1) : ProtocolOperationV1 :=
  let payload := MiningKeyRotateV1_unsigned_payload t in
  let payload := payload ++ kr_owner_signature t in
  {| po_op_type := OP_LICENSE_MINING_KEY_ROTATE; po_op_version := 1; po_payload := payload |}.

Record MiningPresenceV1 := {
  mi_network_id : Z;
  mi_genesis_id : bytes32;
  mi_license_id : bytes32;
  mi_expected_mining_sequence : Z;
  mi_presence_epoch : Z;
  mi_mining_signature : bytes;
}.

Definition MiningPresenceV1_unsigned_payload (p : MiningPresenceV1) : bytes :=
  let out := [] in
  let out := write_u32_be out (mi_network_id p) in
  let out := out ++ mi_genesis_id p in
  let out := out ++ mi_license_id p in
  let out := write_u32_be out (mi_expected_mining_sequence p) in
  write_u64_be out (mi_presence_epoch p).

Definition MiningPresenceV1_operation (p : MiningPresenceV1) : ProtocolOperationV1 :=
  let payload := MiningPresenceV1_unsigned_payload p in
  let payload := payload ++ mi_mining_signature p in
  {| po_op_type := OP_MINING_PRESENCE; po_op_version := 1; po_payload := payload |}.

Definition MiningPresenceV1_decode_operation (op : ProtocolOperationV1)
    : result ProtocolError MiningPresenceV1 :=
  if negb (po_op_type op =? OP_MINING_PRESENCE) || negb (po_op_version op =? 1)
     || negb (length (po_payload op) =? MINING_PRESENCE_FULL_LEN)%nat
  then Err InvalidMiningPresence else
  let p := po_payload op in
  Ok {| mi_network_id := be_val (slice 0 4 p);
        mi_genesis_id := slice 4 36 p;
        mi_license_id := slice 36 68 p;
        mi_expected_mining_sequence := be_val (slice 68 72 p);
        mi_presence_epoch := be_val (slice 72 80 p);
        mi_mining_signature := slice 80 144 p |}.

Record PunishmentEvidenceV1 := {
  pe_offense_type : Z;
  pe_accused_license_id : bytes32;
  pe_evidence : bytes;
}.

Definition PunishmentEvidenceV1_canonical_evidence (e : PunishmentEvidenceV1) : bytes :=
  let out := [] in
  let out := write_u16_be out (pe_offense_type e) in
  let out := out ++ pe_accused_license_id e in
  let out := write_varuint out (Z.of_nat (length (pe_evidence e))) in
  out ++ pe_evidence e.

Definition PunishmentEvidenceV1_operation (e : PunishmentEvidenceV1) : ProtocolOperationV1 :=
  {| po_op_type := OP_PUNISHMENT_EVIDENCE; po_op_version := 1;
     po_payload := PunishmentEvidenceV1_canonical_evidence e |}.

Record DividendClaimV1 := {
  dc_license_id : bytes32;
  dc_expected_owner_sequence : Z;
  dc_amount_strikes : Z;
  dc_destination_address_id : bytes32;
  dc_payment_txid : bytes32;
  dc_owner_signature : bytes;
}.

Definition DividendClaimV1_unsigned_payload (c : DividendClaimV1) : bytes :=
  let out := [] in
  let out := out ++ dc_license_id c in
  let out := write_u32_be out (dc_expected_owner_sequence c) in
  let out := write_u64_be out (dc_amount_strikes c) in
  let out := out ++ dc_destination_address_id c in
  out ++ dc_payment_txid c.

Definition DividendClaimV1_operation (c : DividendClaimV1) : ProtocolOperationV1 :=
  let payload := DividendClaimV1_unsigned_payload c in
  let payload := payload ++ dc_owner_signature c in
  {| po_op_type := OP_DIVIDEND_CLAIM; po_op_version := 1; po_payload := payload |}.

(** ** Pack M: Bitcoin header batches *)

(** The [&'static str] errors of Pack M. *)
Inductive PackMError :=
| PackMVarUIntOverflow
| PackMVarUIntNotMinimal
| PackMVarUIntUnterminated
| HeaderCountRange
| HeadersTruncated
| HeadersLengthMismatch
| HeadersLengthOverflow
| NotBitcoinHeaders.

(** The same loop as [mutiny_codec::write_varuint], on a local copy. *)
Fixpoint pack_m_write_loop (fuel : nat) (value : Z) (out : bytes) : bytes :=
  match fuel with
  | O => out
  | S fuel =>
      let byte := Z.land value 0x7f in
      let value := Z.shiftr value 7 in
      let byte := if negb (value =? 0) then Z.lor byte 0x80 else byte in
      let out := out ++ [byte_of_Z byte] in
      if value =? 0 then out else pack_m_write_loop fuel value out
  end.

Definition pack_m_write_varuint (value : Z) (out : bytes) : bytes := pack_m_write_loop 10 value out.

(** [for (i, byte) in input.iter().copied().enumerate().take(10)]: [todo] bytes
    are left of the ten, [bs] is what remains of [input] at index [i]. *)
Fixpoint pack_m_read_loop (todo : nat) (input bs : bytes) (i : nat) (value shift : Z)
    : result PackMError (Z * nat) :=
  match todo, bs with
  | S todo, byte :: bs =>
      let low := Z.land (Z_of_byte byte) 0x7f in
      if (64 <=? shift) || ((shift =? 63) && (1 <? low)) then Err PackMVarUIntOverflow else
      let value := Z.lor value (Z.shiftl low shift mod 2 ^ 64) in
      if Z.land (Z_of_byte byte) 0x80 =? 0 then
        let canonical := pack_m_write_varuint value [] in
        if negb (bytes_eqb canonical (take (S i) input)) then Err PackMVarUIntNotMinimal
        else Ok (value, S i)
      else pack_m_read_loop todo input bs (S i) value (shift + 7)
  | _, _ => Err PackMVarUIntUnterminated
  end.

Definition pack_m_read_varuint (input : bytes) : result PackMError (Z * nat) :=
  pack_m_read_loop 10 input input 0 0 0.

Record BitcoinHeadersV1 := {
  hd_network_id : Z;
  hd_genesis_id : bytes32;
  hd_headers : list bytes;
}.

Definition MAX_HEADERS : Z := 256.

Definition BitcoinHeadersV1_payload (h : BitcoinHeadersV1) : result PackMError bytes :=
  let n := Z.of_nat (length (hd_headers h)) in
  if (n =? 0) || (MAX_HEADERS <? n) then Err HeaderCountRange else
  let out := [] in
  let out := out ++ be_bytes 4 (hd_network_id h) in
  let out := out ++ hd_genesis_id h in
  let out := pack_m_write_varuint n out in
  Ok (fold_left (fun out header => out ++ header) (hd_headers h) out).

Definition BitcoinHeadersV1_decode_payload (input : bytes) : result PackMError BitcoinHeadersV1 :=
  if (length input <? 37)%nat then Err HeadersTruncated else
  let network_id := be_val (slice 0 4 input) in
  let genesis_id := slice 4 36 input in
  let? (count, count_len) := pack_m_read_varuint (drop 36 input) in
  let? count := ok_or HeadersLengthOverflow (try_from 64 count) in
  if (count =? 0) || (MAX_HEADERS <? count) then Err HeaderCountRange else
  let? body := ok_or HeadersLengthOverflow (checked_add 64 36 (Z.of_nat count_len)) in
  let? header_bytes := ok_or HeadersLengthOverflow (checked_mul 64 count 80) in
  let? expected := ok_or HeadersLengthOverflow (checked_add 64 body header_bytes) in
  if negb (Z.of_nat (length input) =? expected) then Err HeadersLengthMismatch else
  let (headers, _) := cut_items 80 (Z.to_nat count) (drop (Z.to_nat body) input) in
  Ok {| hd_network_id := network_id; hd_genesis_id := genesis_id; hd_headers := headers |}.

Definition BitcoinHeadersV1_to_operation (h : BitcoinHeadersV1)
    : result PackMError ProtocolOperationV1 :=
  let? payload := BitcoinHeadersV1_payload h in
  Ok {| po_op_type := OP_BITCOIN_HEADERS; po_op_version := 1; po_payload := payload |}.

Definition BitcoinHeadersV1_from_operation (op : ProtocolOperationV1)
    : result PackMError BitcoinHeadersV1 :=
  if negb (po_op_type op =? OP_BITCOIN_HEADERS) || negb (po_op_version op =? 1)
  then Err NotBitcoinHeaders
  else BitcoinHeadersV1_decode_payload (po_payload op).

(** ** Identifiers and digests *)

Section ids.
Context {SHA : Sha2}.

Definition operation_id (op : ProtocolOperationV1) : bytes32 :=
  sha256_domain domains.PROTOCOL_OP_ID [ProtocolOperationV1_encode op].

Definition operation_signing_digest (op_type op_version : Z) (unsigned_payload : bytes) : bytes32 :=
  sha256_domain domains.PROTOCOL_OP_SIGN [unsigned_operation_bytes op_type op_version unsigned_payload].

Definition MutLicenseManifestV1_manifest_hash (m : MutLicenseManifestV1)
    : result ProtocolError bytes32 :=
  let? bs := MutLicenseManifestV1_encode m in
  Ok (sha256_domain domains.MUT_LICENSE_MANIFEST [bs]).

Definition BootstrapManifestV1_manifest_hash (m : BootstrapManifestV1)
    : result ProtocolError bytes32 :=
  let? bs := BootstrapManifestV1_encode m in
  Ok (sha256_domain domains.BOOTSTRAP_MANIFEST [bs]).

Definition BtcLicenseManifestV1_manifest_hash (m : BtcLicenseManifestV1)
    : result ProtocolError bytes32 :=
  let? bs := BtcLicenseManifestV1_encode m in
  Ok (sha256_domain domains.BTC_MANIFEST [bs]).

Definition bitcoin_payment_id (txid_internal : bytes32) (output_index : Z) : bytes32 :=
  sha256_domain domains.BTC_PAYMENT_ID [txid_internal; be_bytes 4 output_index].

Definition native_payment_id (payment_txid : bytes32) (output_index : Z) : bytes32 :=
  sha256_domain domains.MUT_PAYMENT_ID [payment_txid; be_bytes 2 output_index].

Definition derive_license_id (network_id purchase_method : Z) (purchase_id : bytes32)
    (manifest_index : Z) (initial_owner_public_key : bytes32) : bytes32 :=
  let network := be_bytes 4 network_id in
  let index := be_bytes 4 manifest_index in
  sha256_domain domains.LICENSE_ID
    [network; [byte_of_Z purchase_method]; purchase_id; index; initial_owner_public_key].

(** [licenses.iter().enumerate().map(..)] with [i as u32]. *)
Definition manifest_license_ids (network_id method : Z) (payment : bytes32)
    (licenses : list LicenseManifestEntryV1) : list bytes32 :=
  imap (fun i entry => derive_license_id network_id method payment (Z.of_nat i mod 2 ^ 32)
                         (me_owner_public_key entry)) licenses.

Definition LicensePurchaseBtcV1_license_ids (p : LicensePurchaseBtcV1)
    : result ProtocolError (list bytes32) :=
  let? parsed := im (parse_transaction (sp_raw_transaction (pb_proof p))) in
  let payment := bitcoin_payment_id (pt_txid_internal parsed) (sp_payment_output_index (pb_proof p)) in
  Ok (manifest_license_ids (bm_network_id (pb_manifest p)) PURCHASE_METHOD_BTC payment
        (bm_licenses (pb_manifest p))).

Definition LicensePurchaseMutV1_license_ids (p : LicensePurchaseMutV1)
    : result ProtocolError (list bytes32) :=
  let payment := native_payment_id (pm_payment_txid p) (pm_payment_output_index p) in
  Ok (manifest_license_ids (mm_network_id (pm_manifest p)) PURCHASE_METHOD_MUT payment
        (mm_licenses (pm_manifest p))).

Definition LicenseTransferV1_signing_digest (t : LicenseTransferV1) : bytes32 :=
  operation_signing_digest OP_LICENSE_TRANSFER 1 (LicenseTransferV1_unsigned_payload t).

Definition MiningKeyRotateV1_signing_digest (t : MiningKeyRotateV1) : bytes32 :=
  operation_signing_digest OP_LICENSE_MINING_KEY_ROTATE 1 (MiningKeyRotateV1_unsigned_payload t).

Definition MiningPresenceV1_signing_digest (p : MiningPresenceV1) : bytes32 :=
  operation_signing_digest OP_MINING_PRESENCE 1 (MiningPresenceV1_unsigned_payload p).

Definition DividendClaimV1_signing_digest (c : DividendClaimV1) : bytes32 :=
  operation_signing_digest OP_DIVIDEND_CLAIM 1 (DividendClaimV1_unsigned_payload c).

Definition evidence_id (e : PunishmentEvidenceV1) : bytes32 :=
  sha256_domain domains.PUNISHMENT_EVIDENCE_ID [PunishmentEvidenceV1_canonical_evidence e].

Definition protocol_operation_leaf (id : bytes32) : bytes32 :=
  sha256_domain domains.PROTOCOL_OP_LEAF [id].

(** [(type, id)] pairs compared as Rust tuples. *)
Definition op_key_ltb (a b : Z * bytes32) : bool :=
  if fst a <? fst b then true else if fst b <? fst a then false else bytes_ltb (snd a) (snd b).

Definition op_key (op : ProtocolOperationV1) : Z * bytes32 := (po_op_type op, operation_id op).

(** [windows(2)]: every operation key is strictly below the next one. *)
Fixpoint ops_sorted (operations : list ProtocolOperationV1) : bool :=
  match operations with
  | a :: ((b :: _) as rest) => if negb (op_key_ltb (op_key a) (op_key b)) then false else ops_sorted rest
  | _ => true
  end.

Definition protocol_operations_root (operations : list ProtocolOperationV1)
    : result ProtocolError bytes32 :=
  match operations with
  | [] => Ok (sha256_domain domains.PROTOCOL_OPS_EMPTY [])
  | _ =>
      if negb (ops_sorted operations) then Err InvalidManifest else
      let level := map (fun op => protocol_operation_leaf (operation_id op)) operations in
      Ok (nth 0 (merkle_loop domains.PROTOCOL_OP_NODE (length level) level) [])
  end.
End ids.

(** ** Fixed-size items *)

Lemma cut_items_app size items rest :
  Forall (fun h => length h = size) items ->
  cut_items size (length items) (concat items ++ rest) = (items, rest).
Proof.
  induction 1 as [|h items Hh _ IH]; cbn [length cut_items concat app]; [done|].
  rewrite <- app_assoc, drop_app_exact, IH by done. by rewrite take_app_exact.
Qed.

Lemma cut_items_ok size n input items rest :
  (n * size <= length input)%nat -> cut_items size n input = (items, rest) ->
  length items = n /\ Forall (fun h => length h = size) items /\ input = concat items ++ rest.
Proof.
  revert input items. induction n as [|n IH]; intros input items Hl; cbn [cut_items].
  { intros [= <- <-]. done. }
  destruct (cut_items size n (drop size input)) as [its r] eqn:E. intros [= <- <-].
  apply IH in E as (H1 & H2 & H3); [|rewrite length_drop; lia]. split_and!.
  - cbn. congruence.
  - constructor; [rewrite length_take; lia|done].
  - cbn [concat]. rewrite <- app_assoc, <- H3. by rewrite take_drop.
Qed.

Definition entry_wf (e : LicenseManifestEntryV1) : Prop :=
  is32 (me_owner_public_key e) /\ is32 (me_mining_public_key e).
Definition enc_entry (e : LicenseManifestEntryV1) : bytes :=
  me_owner_public_key e ++ me_mining_public_key e.

Lemma encode_entries out es : fold_left encode_entry es out = out ++ encode_many enc_entry es.
Proof. apply fold_left_writer. intros o e. unfold encode_entry, enc_entry. by rewrite app_assoc. Qed.

Lemma decode_entries_app es rest :
  Forall entry_wf es -> decode_entries (length es) (encode_many enc_entry es ++ rest) = (es, rest).
Proof.
  unfold encode_many. induction 1 as [|e es [Ho Hm] _ IH]; cbn [length decode_entries map concat]; [done|].
  unfold enc_entry at 1 3 5. rewrite <- !app_assoc.
  rewrite (app_assoc (me_owner_public_key e)), drop_app_exact by len. rewrite IH, <- app_assoc.
  unfold slice. rewrite drop_0, take_app_exact, (drop_app_exact 32), take_app_exact by done.
  by destruct e.
Qed.

Lemma decode_entries_ok n input es rest :
  (n * 64 <= length input)%nat -> decode_entries n input = (es, rest) ->
  length es = n /\ Forall entry_wf es /\ input = encode_many enc_entry es ++ rest.
Proof.
  unfold encode_many. revert input es. induction n as [|n IH]; intros input es Hl; cbn [decode_entries].
  { intros [= <- <-]. done. }
  destruct (decode_entries n (drop 64 input)) as [its r] eqn:E. intros [= <- <-].
  apply IH in E as (H1 & H2 & H3); [|rewrite length_drop; lia]. split_and!.
  - cbn. congruence.
  - constructor; [|done]. split; cbn [me_owner_public_key me_mining_public_key]; rewrite length_slice; lia.
  - cbn [map concat]. unfold enc_entry at 1. cbn [me_owner_public_key me_mining_public_key].
    rewrite slice_take_drop by lia. rewrite <- app_assoc, <- H3. unfold slice. rewrite drop_0.
    by rewrite take_drop.
Qed.

Lemma encode_entries_length es :
  Forall entry_wf es -> length (encode_many enc_entry es) = (64 * length es)%nat.
Proof.
  unfold encode_many. induction 1 as [|e es [Ho Hm] _ IH]; cbn [map concat length]; [done|].
  rewrite length_app, IH. unfold enc_entry. rewrite length_app. lia.
Qed.

(** ** Manifests *)

Lemma im_ok {E T} (r : result E T) x : im r = Ok x -> r = Ok x.
Proof. unfold im, map_err. by destruct r; intros [= ->]. Qed.

Definition btc_manifest_wf (m : BtcLicenseManifestV1) : Prop :=
  is_u16 (bm_version m) /\ is_u32 (bm_network_id m) /\ is32 (bm_genesis_hash m) /\
  is32 (bm_purchase_nonce m) /\ Forall entry_wf (bm_licenses m).

Lemma btc_manifest_encode_eq m bs :
  BtcLicenseManifestV1_encode m = Ok bs <->
  (bm_version m = 1 /\ (1 <= length (bm_licenses m) <= 1024)%nat /\
   bs = be_bytes 2 (bm_version m) ++ be_bytes 4 (bm_network_id m) ++ bm_genesis_hash m
        ++ bm_purchase_nonce m ++ be_bytes 4 (Z.of_nat (length (bm_licenses m)))
        ++ encode_many enc_entry (bm_licenses m)).
Proof.
  unfold BtcLicenseManifestV1_encode, BtcLicenseManifestV1_validate.
  rewrite encode_entries. norm_writes.
  destruct (Z.eqb_spec (bm_version m) 1) as [Hv|]; cbn [negb orb]; [|naive_solver].
  destruct (Z.eqb_spec (Z.of_nat (length (bm_licenses m))) 0); cbn [orb]; [naive_solver lia|].
  destruct (Z.ltb_spec 1024 (Z.of_nat (length (bm_licenses m)))); [naive_solver lia|].
  rewrite Z.mod_small by lia. split; [intros <-%Ok_inj; split_and!; try done; lia|by intros (_ & _ & ->)].
Qed.

Lemma btc_manifest_decode_iff bs m :
  BtcLicenseManifestV1_decode bs = Ok m <-> btc_manifest_wf m /\ BtcLicenseManifestV1_encode m = Ok bs.
Proof.
  rewrite btc_manifest_encode_eq. unfold BtcLicenseManifestV1_decode. split.
  - destruct (im (read_u16_be bs)) as [[v in1]|] eqn:E1; [|done].
    destruct (im (read_u32_be in1)) as [[net in2]|] eqn:E2; [|done].
    destruct (length in2 <? 64)%nat eqn:E3; [done|].
    destruct (im (read_u32_be (drop 64 in2))) as [[count in3]|] eqn:E4; [|done].
    destruct (_ || _) eqn:E5; [done|]. destruct (decode_entries _ _) as [es r] eqn:E6.
    unfold BtcLicenseManifestV1_validate. cbn [bm_version bm_licenses].
    destruct (_ || _) eqn:E7 in |- *; [done|]. intros <-%Ok_inj. bool_to_prop.
    apply im_ok in E1, E2, E4. read_inv. subst.
    apply decode_entries_ok in E6 as (Hlen & Hwf & ->); [|lia].
    pose proof (encode_entries_length es Hwf) as Hel. rewrite length_app in *.
    assert (r = []) as -> by (apply nil_length_inv; lia).
    assert (count = Z.of_nat (length es)) as -> by lia.
    assert (in2 = slice 0 32 in2 ++ slice 32 64 in2 ++ drop 64 in2) as Hin2.
    { rewrite app_assoc, slice_take_drop by lia. unfold slice. rewrite drop_0. by rewrite take_drop. }
    unfold btc_manifest_wf. cbn [bm_version bm_network_id bm_genesis_hash bm_purchase_nonce bm_licenses].
    split; [split_and!; try done; try (rewrite length_slice); lia|]. split_and!; [lia..|].
    rewrite app_nil_r in *. match goal with H : drop 64 in2 = _ |- _ => rewrite <- H, <- Hin2 end. done.
  - intros ((? & ? & ? & ? & He) & Hv & Hn & ->).
    pose proof (encode_entries_length _ He) as Hel.
    rewrite read_u16_be_app by done. cbn [im map_err]. rewrite read_u32_be_app by done. cbn [im map_err].
    destruct (Nat.ltb_spec (length (bm_genesis_hash m ++ bm_purchase_nonce m ++
      be_bytes 4 (Z.of_nat (length (bm_licenses m))) ++ encode_many enc_entry (bm_licenses m))) 64); [len|].
    unfold slice. change (64 - 32)%nat with 32%nat. change (32 - 0)%nat with 32%nat.
    rewrite drop_0, take_app_exact, (drop_app_exact 32), take_app_exact by done.
    rewrite (app_assoc (bm_genesis_hash m)), drop_app_exact by len.
    rewrite read_u32_be_app by lia. cbn [im map_err]. rewrite Hel.
    destruct (Z.eqb_spec (Z.of_nat (length (bm_licenses m))) 0); [lia|].
    destruct (Z.ltb_spec 1024 (Z.of_nat (length (bm_licenses m)))); [lia|].
    destruct (Z.eqb_spec (Z.of_nat (64 * length (bm_licenses m))) (Z.of_nat (length (bm_licenses m)) * 64)); [|lia].
    cbn [orb negb]. rewrite Nat2Z.id. pose proof (decode_entries_app (bm_licenses m) [] He) as Hd.
    rewrite app_nil_r in Hd. rewrite Hd. unfold BtcLicenseManifestV1_validate.
    cbn [bm_version bm_licenses]. rewrite Hv. cbn [Z.eqb Pos.eqb negb orb].
    destruct (Z.eqb_spec (Z.of_nat (length (bm_licenses m))) 0); [lia|].
    destruct (Z.ltb_spec 1024 (Z.of_nat (length (bm_licenses m)))); [lia|].
    destruct m; cbn in *. by subst.
Qed.

(** ** Purchases *)

Lemma read_len_ok input n rest :
  read_len input = Ok (n, rest) -> is_u64 n /\ input = encode_varuint n ++ rest.
Proof.
  unfold read_len. destruct (im (read_varuint input)) as [[k r]|] eqn:E; [|done].
  destruct (try_from 64 k) eqn:Et; cbn [ok_or]; [|done]. intros [<- <-]%Ok_inj%pair_inj.
  apply im_ok in E. read_inv. unfold try_from in Et. destruct (_ <? _); [|done]. apply Some_inj in Et as <-. done.
Qed.

Lemma read_len_app n rest : is_u64 n -> read_len (encode_varuint n ++ rest) = Ok (n, rest).
Proof.
  intros Hn. unfold read_len. rewrite read_varuint_app by done. cbn [im map_err].
  unfold try_from. destruct (Z.ltb_spec n (2 ^ 64)); [done|lia].
Qed.

Definition purchase_btc_wf (p : LicensePurchaseBtcV1) : Prop :=
  btc_manifest_wf (pb_manifest p) /\ is_u64 (Z.of_nat (length (sp_raw_transaction (pb_proof p)))) /\
  is_u32 (sp_payment_output_index (pb_proof p)) /\ is_u32 (sp_manifest_output_index (pb_proof p)) /\
  is_u32 (sp_tx_index (pb_proof p)) /\ is_u32 (sp_containing_block_height (pb_proof p)) /\
  Forall (fun s => is32 s) (sp_merkle_branch (pb_proof p)) /\ (length (sp_merkle_branch (pb_proof p)) <= 64)%nat /\
  Forall (fun h => length h = 80)%nat (sp_headers (pb_proof p)) /\
  (length (sp_headers (pb_proof p)) <= 64)%nat.

(** A length check that passed splits the input. *)
Lemma cut_ok n (input : bytes) :
  0 <= n -> (Z.of_nat (length input) <? n) = false ->
  exists a b, input = a ++ b /\ n = Z.of_nat (length a) /\
              take (Z.to_nat n) input = a /\ drop (Z.to_nat n) input = b.
Proof.
  intros Hn Hl. bool_to_prop. exists (take (Z.to_nat n) input), (drop (Z.to_nat n) input).
  split_and!; try done; [by rewrite take_drop|rewrite length_take; lia].
Qed.

Lemma cut_app (a b : bytes) :
  (Z.of_nat (length (a ++ b)) <? Z.of_nat (length a)) = false /\
  take (Z.to_nat (Z.of_nat (length a))) (a ++ b) = a /\
  drop (Z.to_nat (Z.of_nat (length a))) (a ++ b) = b.
Proof.
  rewrite length_app, Nat2Z.id, take_app_exact, drop_app_exact by done.
  split; [apply Z.ltb_ge; lia|done].
Qed.

Lemma concat_length_size size (items : list bytes) :
  Forall (fun h => length h = size) items -> length (concat items) = (size * length items)%nat.
Proof. induction 1; cbn [concat length]; [lia|]. rewrite length_app. lia. Qed.

Lemma btc_manifest_length m bs :
  btc_manifest_wf m -> BtcLicenseManifestV1_encode m = Ok bs -> Z.of_nat (length bs) <= 65610.
Proof.
  intros (_ & _ & ? & ? & He) (_ & ? & ->)%btc_manifest_encode_eq.
  pose proof (encode_entries_length _ He). len.
Qed.

Lemma purchase_btc_payload_eq p bs :
  LicensePurchaseBtcV1_payload p = Ok bs <->
  exists manifest, BtcLicenseManifestV1_encode (pb_manifest p) = Ok manifest /\
    bs = encode_varuint (Z.of_nat (length manifest)) ++ manifest
         ++ encode_varuint (Z.of_nat (length (sp_raw_transaction (pb_proof p))))
         ++ sp_raw_transaction (pb_proof p)
         ++ be_bytes 4 (sp_payment_output_index (pb_proof p))
         ++ be_bytes 4 (sp_manifest_output_index (pb_proof p))
         ++ be_bytes 4 (sp_tx_index (pb_proof p))
         ++ encode_varuint (Z.of_nat (length (sp_merkle_branch (pb_proof p))))
         ++ concat (sp_merkle_branch (pb_proof p))
         ++ encode_varuint (Z.of_nat (length (sp_headers (pb_proof p))))
         ++ concat (sp_headers (pb_proof p))
         ++ be_bytes 4 (sp_containing_block_height (pb_proof p)).
Proof.
  unfold LicensePurchaseBtcV1_payload.
  destruct (BtcLicenseManifestV1_encode (pb_manifest p)) as [m|]; [|naive_solver].
  rewrite !(fold_left_writer (fun out h => out ++ h) (fun h => h)) by done.
  unfold encode_many. rewrite !map_id. norm_writes.
  split; [intros <-%Ok_inj; by exists m|by intros (m' & <-%Ok_inj & ->)].
Qed.

Lemma purchase_btc_decode_ok bs p :
  LicensePurchaseBtcV1_decode_payload bs = Ok p ->
  purchase_btc_wf p /\ LicensePurchaseBtcV1_payload p = Ok bs.
Proof.
  unfold LicensePurchaseBtcV1_decode_payload.
  destruct (read_len bs) as [[ml i1]|] eqn:E1; [|done].
  apply read_len_ok in E1 as [[Hml1 Hml2] ->].
  destruct (Z.of_nat (length i1) <? ml) eqn:C1; [done|].
  apply cut_ok in C1 as (man & i2 & -> & -> & -> & ->); [|lia].
  destruct (BtcLicenseManifestV1_decode man) as [m|] eqn:Em; [|done].
  apply btc_manifest_decode_iff in Em as [Hm Em].
  destruct (read_len i2) as [[tl i3]|] eqn:E2; [|done].
  apply read_len_ok in E2 as [[Htl1 Htl2] ->].
  destruct (Z.of_nat (length i3) <? tl) eqn:C2; [done|].
  apply cut_ok in C2 as (tx & i4 & -> & -> & -> & ->); [|lia].
  destruct (im (read_u32_be i4)) as [[pi i5]|] eqn:E3; [|done].
  destruct (im (read_u32_be i5)) as [[mi i6]|] eqn:E4; [|done].
  destruct (im (read_u32_be i6)) as [[ti i7]|] eqn:E5; [|done].
  destruct (read_len i7) as [[bl i8]|] eqn:E6; [|done]. apply read_len_ok in E6 as [Hbl ->].
  destruct (_ || _) eqn:C3; [done|]. bool_to_prop.
  destruct (cut_items 32 (Z.to_nat bl) i8) as [br i9] eqn:E7.
  apply cut_items_ok in E7 as (Hl1 & Hf1 & ->); [|lia].
  destruct (read_len i9) as [[hl i10]|] eqn:E8; [|done]. apply read_len_ok in E8 as [Hhl ->].
  destruct (_ || _) eqn:C4; [done|]. bool_to_prop.
  destruct (cut_items 80 (Z.to_nat hl) i10) as [hs i11] eqn:E9.
  apply cut_items_ok in E9 as (Hl2 & Hf2 & ->); [|lia].
  destruct (im (read_u32_be i11)) as [[ht [|]]|] eqn:E10; [|done..].
  apply im_ok in E3, E4, E5, E10. read_inv. intros <-%Ok_inj. subst. unfold purchase_btc_wf.
  cbn [pb_manifest pb_proof sp_raw_transaction sp_payment_output_index sp_manifest_output_index
       sp_tx_index sp_containing_block_height sp_merkle_branch sp_headers].
  split; [split_and!; try done; lia|].
  apply purchase_btc_payload_eq. exists man. split; [done|].
  cbn [pb_manifest pb_proof sp_raw_transaction sp_payment_output_index sp_manifest_output_index
       sp_tx_index sp_containing_block_height sp_merkle_branch sp_headers].
  rewrite Hl1, Hl2, !Z2Nat.id by lia. by rewrite app_nil_r.
Qed.

Lemma purchase_btc_decode_complete bs p :
  purchase_btc_wf p -> LicensePurchaseBtcV1_payload p = Ok bs ->
  LicensePurchaseBtcV1_decode_payload bs = Ok p.
Proof.
  intros (Hm & Htx & Hpi & Hmi & Hti & Hht & Hbr & Hbl & Hhs & Hhl) (man & Em & ->)%purchase_btc_payload_eq.
  pose proof (btc_manifest_length _ _ Hm Em) as Hml.
  unfold LicensePurchaseBtcV1_decode_payload.
  rewrite read_len_app by lia.
  match goal with |- context [man ++ ?r] => destruct (cut_app man r) as (-> & -> & ->) end.
  rewrite (proj2 (btc_manifest_decode_iff man (pb_manifest p))) by done.
  rewrite read_len_app by done.
  match goal with |- context [sp_raw_transaction _ ++ ?r] =>
    destruct (cut_app (sp_raw_transaction (pb_proof p)) r) as (-> & -> & ->) end.
  do 3 (rewrite read_u32_be_app by done; cbn [im map_err]).
  rewrite read_len_app by lia.
  pose proof (concat_length_size _ _ Hbr) as Hlb. pose proof (concat_length_size _ _ Hhs) as Hlh.
  destruct (Z.ltb_spec 64 (Z.of_nat (length (sp_merkle_branch (pb_proof p))))); [lia|].
  cbn [orb]. match goal with |- context [if ?b then _ else _] => destruct b eqn:C1 end.
  { exfalso. apply Z.ltb_lt in C1. rewrite length_app, Hlb in C1. lia. }
  rewrite Nat2Z.id, cut_items_app, read_len_app by (done || lia).
  destruct (Z.ltb_spec 64 (Z.of_nat (length (sp_headers (pb_proof p))))); [lia|].
  cbn [orb]. match goal with |- context [if ?b then _ else _] => destruct b eqn:C2 end.
  { exfalso. apply Z.ltb_lt in C2. rewrite length_app, Hlh, length_be_bytes in C2. lia. }
  rewrite Nat2Z.id, cut_items_app by done.
  rewrite <- (app_nil_r (be_bytes 4 _)), read_u32_be_app by done. cbn [im map_err].
  by destruct p as [? []].
Qed.

(** The Bitcoin purchase payload is canonical.  A byte string decodes to a
    purchase exactly when it is the encoding of that purchase and the purchase
    is well-formed: one to 1024 licenses, at most 64 Merkle siblings and 64
    headers, every field at its width.  So no purchase has two encodings, every
    purchase that is sent is read back, and trailing or missing bytes are
    refused. *)
Theorem purchase_btc_canonical bs p :
  LicensePurchaseBtcV1_decode_payload bs = Ok p <->
  purchase_btc_wf p /\ LicensePurchaseBtcV1_payload p = Ok bs.
Proof.
  split; [apply purchase_btc_decode_ok|intros [? ?]; by apply purchase_btc_decode_complete].
Qed.

(** ** Pack M *)

(** The Pack M reader reports the canonical reader's errors under other names. *)
Definition pack_m_error (e : DecodeError) : PackMError :=
  match e with
  | Overflow => PackMVarUIntOverflow
  | NonCanonicalVarUInt => PackMVarUIntNotMinimal
  | _ => PackMVarUIntUnterminated
  end.

Lemma pack_m_write_loop_eq fuel out v : pack_m_write_loop fuel v out = write_varuint_loop fuel out v.
Proof.
  revert v out. induction fuel as [|fuel IH]; intros v out; cbn [pack_m_write_loop write_varuint_loop];
    [done|]. by destruct (Z.shiftr v 7 =? 0); [|apply IH].
Qed.

Lemma pack_m_write_varuint_eq v out : pack_m_write_varuint v out = write_varuint out v.
Proof. apply pack_m_write_loop_eq. Qed.

(** Both loops run in step as long as [shift = 7 * i]. *)
Lemma pack_m_read_loop_sim todo i input value :
  (todo + i = 10)%nat ->
  pack_m_read_loop todo input (drop i input) i value (7 * Z.of_nat i) =
  match read_varuint_loop (S todo) input value (7 * Z.of_nat i) i with
  | Ok (v, n) => if negb (bytes_eqb (encode_varuint v) (take n input))
                 then Err PackMVarUIntNotMinimal else Ok (v, n)
  | Err e => Err (pack_m_error e)
  end.
Proof.
  revert i value. induction todo as [|todo IH]; intros i value Hi.
  { cbn [pack_m_read_loop read_varuint_loop]. by destruct (Nat.leb_spec 10 i); [|lia]. }
  remember (S todo) as fuel eqn:Hfuel. cbn [read_varuint_loop]. rewrite Hfuel at 1.
  destruct (Nat.leb_spec 10 i); [lia|].
  destruct (input !! i) as [b|] eqn:Eb; cbn [ok_or].
  - erewrite drop_S by done. cbn [pack_m_read_loop].
    destruct (Z.leb_spec 64 (7 * Z.of_nat i)), (Z.ltb_spec 63 (7 * Z.of_nat i)); try lia.
    cbn [orb andb]. destruct (_ && _) eqn:E1; [done|].
    unfold checked_shl. destruct (Z.ltb_spec (7 * Z.of_nat i) 64); [|lia]. cbn [ok_or].
    destruct (_ =? 0); [by rewrite pack_m_write_varuint_eq|].
    replace (7 * Z.of_nat i + 7) with (7 * Z.of_nat (S i)) by lia.
    subst fuel. apply IH. lia.
  - apply lookup_ge_None in Eb. rewrite drop_ge by done. done.
Qed.

Lemma read_varuint_loop_consumed fuel input value shift i v n :
  read_varuint_loop fuel input value shift i = Ok (v, n) -> (n <= length input)%nat.
Proof.
  revert value shift i. induction fuel as [|fuel IH]; intros value shift i; cbn [read_varuint_loop];
    [done|]. intros H. inv_ok.
  match goal with E : input !! i = Some _ |- _ => apply lookup_lt_Some in E end.
  destruct (Z.land _ 128 =? 0); [inv_ok; lia|eauto].
Qed.

(** The Pack M reader accepts what the canonical reader accepts and fails where
    it fails, error by error. *)
Lemma pack_m_read_varuint_sim input :
  pack_m_read_varuint input =
  match read_varuint input with
  | Ok (v, rest) => Ok (v, (length input - length rest)%nat)
  | Err e => Err (pack_m_error e)
  end.
Proof.
  unfold pack_m_read_varuint, read_varuint. pose proof (pack_m_read_loop_sim 10 0 input 0) as H.
  rewrite drop_0 in H. change (7 * Z.of_nat 0) with 0 in H. rewrite H by lia.
  destruct (read_varuint_loop 11 input 0 0 0) as [[v n]|e] eqn:E; [|done].
  apply read_varuint_loop_consumed in E. destruct (negb _); [done|].
  rewrite length_drop. do 2 f_equal. lia.
Qed.

Definition headers_wf (h : BitcoinHeadersV1) : Prop :=
  is_u32 (hd_network_id h) /\ is32 (hd_genesis_id h) /\
  Forall (fun x => length x = 80)%nat (hd_headers h).

Lemma headers_payload_eq h bs :
  BitcoinHeadersV1_payload h = Ok bs <->
  (1 <= length (hd_headers h) <= 256)%nat /\
  bs = be_bytes 4 (hd_network_id h) ++ hd_genesis_id h
       ++ encode_varuint (Z.of_nat (length (hd_headers h))) ++ concat (hd_headers h).
Proof.
  unfold BitcoinHeadersV1_payload, MAX_HEADERS. rewrite pack_m_write_varuint_eq.
  rewrite (fold_left_writer (fun out h => out ++ h) (fun h => h)) by done.
  unfold encode_many. rewrite map_id. norm_writes.
  destruct (Z.eqb_spec (Z.of_nat (length (hd_headers h))) 0); cbn [orb]; [naive_solver lia|].
  destruct (Z.ltb_spec 256 (Z.of_nat (length (hd_headers h)))); [naive_solver lia|].
  split; [intros <-%Ok_inj; split; [lia|done]|by intros [_ ->]].
Qed.

Lemma headers_decode_ok bs h :
  BitcoinHeadersV1_decode_payload bs = Ok h -> headers_wf h /\ BitcoinHeadersV1_payload h = Ok bs.
Proof.
  unfold BitcoinHeadersV1_decode_payload. destruct (Nat.ltb_spec (length bs) 37); [done|].
  rewrite pack_m_read_varuint_sim.
  destruct (read_varuint (drop 36 bs)) as [[count rest]|] eqn:E1; [|done].
  apply read_varuint_ok in E1 as [E1 Hc]. unfold try_from.
  destruct (count <? 2 ^ 64) eqn:Et; cbn [ok_or]; [|done].
  destruct (_ || _) eqn:C1; [done|]. unfold MAX_HEADERS in C1. intros H1. inv_ok. bool_to_prop.
  repeat match goal with
    | E : checked_add _ _ _ = Some _ |- _ => apply checked_add_Some in E as [-> ?]
    | E : checked_mul _ _ _ = Some _ |- _ => apply checked_mul_Some in E as [-> ?] end.
  pose proof (f_equal length E1) as Hl. rewrite length_drop, length_app in Hl.
  match goal with E : cut_items _ _ _ = (?hs, ?r) |- _ =>
    rename E into E9; rename hs into headers; rename r into tail end.
  replace (Z.to_nat (36 + Z.of_nat (length (drop 36 bs) - length rest)))
    with (36 + length (encode_varuint count))%nat in E9
    by (rewrite E1, length_app; lia).
  rewrite <- drop_drop, E1, drop_app_length in E9.
  rewrite E1, length_app in *.
  apply cut_items_ok in E9 as (Hn & Hf & ->); [|lia].
  pose proof (concat_length_size _ _ Hf). rewrite !length_app in *.
  assert (tail = []) as -> by (apply nil_length_inv; lia).
  split.
  - unfold headers_wf. cbn [hd_network_id hd_genesis_id hd_headers].
    split; [apply (be_val_range 4); rewrite length_slice; lia|].
    split; [rewrite length_slice; lia|done].
  - apply headers_payload_eq. cbn [hd_network_id hd_genesis_id hd_headers]. split; [lia|].
    rewrite (be_bytes_be_val 4) by (rewrite length_slice; lia).
    replace (Z.of_nat (length headers)) with count by lia.
    rewrite app_nil_r in E1. rewrite <- E1, app_assoc, slice_take_drop by lia.
    unfold slice. by rewrite drop_0, take_drop.
Qed.

Lemma headers_decode_complete bs h :
  headers_wf h -> BitcoinHeadersV1_payload h = Ok bs -> BitcoinHeadersV1_decode_payload bs = Ok h.
Proof.
  intros (Hn & Hg & Hf) [Hc ->]%headers_payload_eq.
  pose proof (concat_length_size _ _ Hf) as Hl.
  set (c := Z.of_nat (length (hd_headers h))) in *.
  assert (Hv : (1 <= length (encode_varuint c) <= 10)%nat).
  { split; [|apply write_varuint_loop_length]. rewrite write_varuint_step by lia.
    destruct (c <? 128); cbn [length]; lia. }
  unfold BitcoinHeadersV1_decode_payload.
  destruct (Nat.ltb_spec (length (be_bytes 4 (hd_network_id h) ++ hd_genesis_id h ++
    encode_varuint c ++ concat (hd_headers h))) 37); [len|].
  assert (drop 36 (be_bytes 4 (hd_network_id h) ++ hd_genesis_id h ++ encode_varuint c
            ++ concat (hd_headers h)) = encode_varuint c ++ concat (hd_headers h)) as Hd.
  { rewrite (app_assoc (be_bytes 4 _)). apply drop_app_exact. len. }
  rewrite pack_m_read_varuint_sim, Hd, read_varuint_app by lia.
  unfold try_from. destruct (Z.ltb_spec c (2 ^ 64)); [|lia]. cbn [ok_or].
  unfold MAX_HEADERS. destruct (Z.eqb_spec c 0), (Z.ltb_spec 256 c); try lia. cbn [orb].
  rewrite length_app, Nat.add_sub.
  unfold checked_add, checked_mul.
  destruct (Z.ltb_spec (36 + Z.of_nat (length (encode_varuint c))) (2 ^ 64)); [|lia]. cbn [ok_or].
  destruct (Z.ltb_spec (c * 80) (2 ^ 64)); [|lia]. cbn [ok_or].
  destruct (Z.ltb_spec (36 + Z.of_nat (length (encode_varuint c)) + c * 80) (2 ^ 64)); [|lia].
  cbn [ok_or]. match goal with |- context [negb ?b] => destruct b eqn:E end.
  2:{ exfalso. apply Z.eqb_neq in E. apply E. rewrite !length_app, length_be_bytes. lia. }
  replace (Z.to_nat (36 + _)) with (36 + length (encode_varuint c))%nat by lia.
  rewrite <- drop_drop, Hd, drop_app_length. unfold c. rewrite Nat2Z.id.
  rewrite <- (app_nil_r (concat _)), cut_items_app by done. cbn [negb].
  unfold slice. change (36 - 4)%nat with 32%nat. change (4 - 0)%nat with 4%nat.
  rewrite drop_0, take_app_exact, (drop_app_exact 4), take_app_exact, be_val_be_bytes by (done || len).
  by destruct h.
Qed.

(** Bitcoin header batches (Pack M) are canonical.  An operation parses to a
    batch exactly when it is the operation of that batch and the batch holds one
    to 256 headers of 80 bytes; the local VarUInt reader of this format agrees
    with the canonical reader of the codec on every input, value by value and
    error by error. *)
Theorem bitcoin_headers_canonical op h :
  (BitcoinHeadersV1_from_operation op = Ok h <->
   headers_wf h /\ BitcoinHeadersV1_to_operation h = Ok op) /\
  (forall input, pack_m_read_varuint input =
   match read_varuint input with
   | Ok (v, rest) => Ok (v, (length input - length rest)%nat)
   | Err e => Err (pack_m_error e)
   end).
Proof.
  split; [|apply pack_m_read_varuint_sim].
  unfold BitcoinHeadersV1_from_operation, BitcoinHeadersV1_to_operation.
  destruct op as [ty ver pl]; cbn [po_op_type po_op_version po_payload]. split.
  - destruct (_ || _) eqn:E; [done|]. bool_to_prop. subst.
    intros [Hw ->]%headers_decode_ok. done.
  - intros [Hw H]. destruct (BitcoinHeadersV1_payload h) eqn:Ep; [|done].
    apply Ok_inj in H. injection H as <- <- <-. cbn [negb orb Z.eqb Pos.eqb].
    by apply headers_decode_complete.
Qed.

Definition presence_wf (p : MiningPresenceV1) : Prop :=
  is_u32 (mi_network_id p) /\ is32 (mi_genesis_id p) /\ is32 (mi_license_id p) /\
  is_u32 (mi_expected_mining_sequence p) /\ is_u64 (mi_presence_epoch p) /\
  length (mi_mining_signature p) = 64%nat.

(** A mining-presence operation decodes to a message exactly when it is the
    operation of that message: type 8, version 1 and 144 payload bytes. *)
Theorem presence_canonical op p :
  MiningPresenceV1_decode_operation op = Ok p <-> presence_wf p /\ MiningPresenceV1_operation p = op.
Proof.
  unfold MiningPresenceV1_decode_operation, MiningPresenceV1_operation, presence_wf,
    MiningPresenceV1_unsigned_payload, MINING_PRESENCE_FULL_LEN.
  norm_writes. split.
  - destruct op as [ty ver pl]; cbn [po_op_type po_op_version po_payload]. destruct (_ || _) eqn:E; [done|]. intros <-%Ok_inj. bool_to_prop. subst.
    cbn [mi_network_id mi_genesis_id mi_license_id mi_expected_mining_sequence mi_presence_epoch
         mi_mining_signature].
    split.
    + repeat split; try (rewrite length_slice; lia);
        first [apply (be_val_range 4); rewrite length_slice; lia
              |apply (be_val_range 8); rewrite length_slice; lia].
    + rewrite !be_bytes_be_val by (rewrite length_slice; lia).
      rewrite !slice_take_drop by lia. f_equal. unfold slice. rewrite drop_0. apply take_ge. lia.
  - intros ((Hn & Hg & Hl & Hs & He & Hsig) & <-).
    cbn [po_op_type po_op_version po_payload]. rewrite Z.eqb_refl. cbn [negb orb Z.eqb Pos.eqb].
    match goal with |- context [negb ?b] => destruct b eqn:E end.
    2:{ exfalso. apply Nat.eqb_neq in E. apply E. len. }
    cbn [negb]. slice_norm. replace 64%nat with (length (mi_mining_signature p)) by done.
    rewrite slice_full, !be_val_be_bytes by done. by destruct p.
Qed.

(** ** Identifiers and the operations root *)

Definition operation_wf (op : ProtocolOperationV1) : Prop :=
  is_u16 (po_op_type op) /\ is_u16 (po_op_version op) /\ is_u64 (Z.of_nat (length (po_payload op))).

Lemma operation_encode_inj a b :
  operation_wf a -> operation_wf b ->
  ProtocolOperationV1_encode a = ProtocolOperationV1_encode b -> a = b.
Proof.
  intros (? & ? & ?) (? & ? & ?) Heq. unfold ProtocolOperationV1_encode in Heq. norm_writes.
  apply app_inj_len in Heq as [Hty Heq]; [|len]. apply app_inj_len in Heq as [Hver Heq]; [|len].
  apply encode_varuint_app_inj in Heq as [_ Heq]; [|done..].
  apply be_bytes_inj in Hty; [|done..]. apply be_bytes_inj in Hver; [|done..].
  destruct a, b. cbn in *. by subst.
Qed.

Section identifiers.
Context {SHA : Sha2}.

(** What the operations root hashes: the encodings of the operations, the
    leaves and the inner nodes, or the domain of the empty list alone. *)
Definition operation_leaf_content (op : ProtocolOperationV1) : list bytes := [operation_id op].

Definition operation_message (op : ProtocolOperationV1) : bytes :=
  domain_message domains.PROTOCOL_OP_ID [ProtocolOperationV1_encode op].

Definition operations_root_messages (ops : list ProtocolOperationV1) : list bytes :=
  match ops with
  | [] => [domain_message domains.PROTOCOL_OPS_EMPTY []]
  | _ => map operation_message ops ++
         merkle_messages domains.PROTOCOL_OP_NODE domains.PROTOCOL_OP_LEAF (map operation_leaf_content ops)
  end.

Lemma operation_id_inj_or a b :
  operation_wf a -> operation_wf b -> operation_id a = operation_id b ->
  a = b \/ collides [operation_message a] [operation_message b].
Proof.
  intros Ha Hb [Heq|]%sha256_domain_inj_or; [left|by right].
  cbn [concat] in Heq. rewrite !app_nil_r in Heq. by apply operation_encode_inj.
Qed.

Lemma operation_contents_inj_or ops ops' :
  Forall operation_wf ops -> Forall operation_wf ops' ->
  map (@concat _) (map operation_leaf_content ops) = map (@concat _) (map operation_leaf_content ops') ->
  ops = ops' \/ collides (map operation_message ops) (map operation_message ops').
Proof.
  intros Hw. revert ops'. induction Hw as [|a ops Ha _ IH]; intros [|b ops'] Hw' Heq; try done; [by left|].
  apply Forall_cons in Hw' as [Hb Hw']. cbn [map concat operation_leaf_content] in Heq. injection Heq as H1 H2.
  rewrite !app_nil_r in H1. cbn [map].
  apply operation_id_inj_or in H1 as [->|Hc]; [|right; more_messages Hc|done..].
  destruct (IH ops' Hw' H2) as [->|Hc]; [by left|right; more_messages Hc].
Qed.

Definition operation_leaves (ops : list ProtocolOperationV1) : list bytes32 :=
  map (fun op => protocol_operation_leaf (operation_id op)) ops.

Lemma operation_leaves_eq ops :
  operation_leaves ops = merkle_leaves domains.PROTOCOL_OP_LEAF (map operation_leaf_content ops).
Proof. unfold merkle_leaves. by rewrite map_map. Qed.

Lemma operations_root_nonempty ops r :
  ops <> [] -> protocol_operations_root ops = Ok r ->
  r = nth 0 (merkle_loop domains.PROTOCOL_OP_NODE (length (operation_leaves ops)) (operation_leaves ops)) [].
Proof.
  intros Hne. unfold protocol_operations_root. destruct ops as [|op ops]; [done|].
  destruct (negb _); [done|]. by intros <-%Ok_inj.
Qed.

(** The root of the empty list is in a domain of its own. *)
Lemma operations_root_empty_or ops :
  ops <> [] -> protocol_operations_root ops = Ok (sha256_domain domains.PROTOCOL_OPS_EMPTY []) ->
  collides (operations_root_messages []) (operations_root_messages ops).
Proof.
  intros Hne Heq%operations_root_nonempty; [|done].
  rewrite operation_leaves_eq, merkle_leaves_length in Heq.
  destruct (merkle_loop_root domains.PROTOCOL_OP_NODE domains.PROTOCOL_OP_LEAF (map operation_leaf_content ops))
    as (d & ps & Hd & Hm & Hr); [by destruct ops|]. rewrite Hr in Heq.
  destruct ops as [|op ops]; [done|]. cbn [operations_root_messages].
  destruct Hd as [-> | ->]; (apply sha256_domain_separated in Heq; [|solve_domain..]); more_messages Heq.
Qed.

(** Consecutive keys are increasing, so all are. *)
Lemma op_key_ltb_trans a b c : op_key_ltb a b = true -> op_key_ltb b c = true -> op_key_ltb a c = true.
Proof.
  unfold op_key_ltb. intros H1 H2.
  destruct (Z.ltb_spec (fst a) (fst b)), (Z.ltb_spec (fst b) (fst a)), (Z.ltb_spec (fst b) (fst c)),
    (Z.ltb_spec (fst c) (fst b)), (Z.ltb_spec (fst a) (fst c)), (Z.ltb_spec (fst c) (fst a));
    try done; try lia. by eapply bytes_ltb_trans.
Qed.

Lemma op_key_ltb_irrefl a : op_key_ltb a a = false.
Proof. unfold op_key_ltb. rewrite Z.ltb_irrefl. apply bytes_ltb_irrefl. Qed.

Lemma ops_sorted_ids ops : ops_sorted ops = true -> NoDup (map op_key ops).
Proof.
  intros Hs. cut (StronglySorted (fun a b => op_key_ltb a b = true) (map op_key ops)).
  { clear Hs. induction 1 as [|k ks _ IH Hk]; constructor; [|done]. intros Hin.
    rewrite Forall_forall in Hk. apply Hk in Hin. by rewrite op_key_ltb_irrefl in Hin. }
  apply Sorted_StronglySorted; [intros a b c; apply op_key_ltb_trans|].
  induction ops as [|a [|b ops] IH]; cbn [map] in *; [constructor|by repeat constructor|].
  cbn [ops_sorted] in Hs. destruct (op_key_ltb (op_key a) (op_key b)) eqn:E; [|done]. cbn [negb] in Hs.
  constructor; [by apply IH|by constructor].
Qed.

Lemma operations_root_inj_or ops ops' r :
  Forall operation_wf ops -> Forall operation_wf ops' ->
  protocol_operations_root ops = Ok r -> protocol_operations_root ops' = Ok r ->
  ops = ops' \/ collides (operations_root_messages ops) (operations_root_messages ops').
Proof.
  intros Hw Hw' H H'.
  destruct ops as [|a ops], ops' as [|b ops']; [by left|..].
  - apply Ok_inj in H as <-. right. by apply (operations_root_empty_or (b :: ops')).
  - apply Ok_inj in H' as <-. right. by apply collides_sym, (operations_root_empty_or (a :: ops)).
  - apply operations_root_nonempty in H as ->; [|done].
    apply operations_root_nonempty in H'; [|done].
    rewrite !operation_leaves_eq, !merkle_leaves_length in H'. unfold operations_root_messages.
    apply merkle_loop_inj_or in H' as [Heq|Hc];
      [|right; more_messages Hc|solve_domain|solve_domain|solve_domain|done|done].
    apply operation_contents_inj_or in Heq as [->|Hc]; [by left|right; more_messages Hc|done..].
Qed.

(** The operations root of a block commits to its operations.  Two lists of
    well-formed operations with one root (one of them may be empty) are the same
    list, payloads included, unless two of the messages hashed for the two
    roots collide; and a list
    with a root has its operations in strictly increasing (type, id) order, so
    no operation occurs twice. *)
Theorem operations_root_commits ops ops' r :
  Forall operation_wf ops -> Forall operation_wf ops' ->
  protocol_operations_root ops = Ok r -> protocol_operations_root ops' = Ok r ->
  NoDup (map op_key ops) /\
  (ops = ops' \/ collides (operations_root_messages ops) (operations_root_messages ops')).
Proof.
  intros Hw Hw' H H'. split.
  { unfold protocol_operations_root in H. destruct ops; [constructor|].
    apply ops_sorted_ids. by destruct (ops_sorted _). }
  by apply (operations_root_inj_or ops ops' r).
Qed.

(** The message a licence identifier is the digest of. *)
Definition license_id_message (network_id method : Z) (payment : bytes32) (index : Z) (owner : bytes32) : bytes :=
  domain_message domains.LICENSE_ID
    [be_bytes 4 network_id; [byte_of_Z method]; payment; be_bytes 4 index; owner].

(** Those of a manifest. *)
Definition manifest_id_messages (network_id method : Z) (payment : bytes32)
    (licenses : list LicenseManifestEntryV1) : list bytes :=
  imap (fun i entry => license_id_message network_id method payment (Z.of_nat i mod 2 ^ 32)
                         (me_owner_public_key entry)) licenses.

Lemma derive_license_id_inj_or n m p i o n' m' p' i' o' :
  is_u32 n -> is_u32 n' -> is_u8 m -> is_u8 m' -> is32 p -> is32 p' ->
  is_u32 i -> is_u32 i' -> is32 o -> is32 o' ->
  derive_license_id n m p i o = derive_license_id n' m' p' i' o' ->
  (n = n' /\ m = m' /\ p = p' /\ i = i' /\ o = o') \/
  collides [license_id_message n m p i o] [license_id_message n' m' p' i' o'].
Proof.
  intros Hn Hn' Hm Hm' Hp Hp' Hi Hi' Ho Ho' [Heq|]%sha256_domain_inj_or; [left|by right].
  cbn [concat] in Heq. rewrite !app_nil_r in Heq.
  apply app_inj_len in Heq as [H1 Heq]; [|len]. apply app_inj_len in Heq as [H2 Heq]; [|done].
  apply app_inj_len in Heq as [H3 Heq]; [|len]. apply app_inj_len in Heq as [H4 H5]; [|len].
  apply byte_cons_inj in H2 as [H2 _]; [|done..].
  apply be_bytes_inj in H1; [|done..]. apply be_bytes_inj in H4; [|done..]. done.
Qed.

Lemma manifest_license_ids_lookup net m p es i x :
  manifest_license_ids net m p es !! i = Some x <->
  exists e, es !! i = Some e /\
    x = derive_license_id net m p (Z.of_nat i mod 2 ^ 32) (me_owner_public_key e).
Proof.
  unfold manifest_license_ids. rewrite list_lookup_imap. destruct (es !! i); cbn; naive_solver.
Qed.

Lemma manifest_id_messages_lookup n m p es i e :
  es !! i = Some e ->
  license_id_message n m p (Z.of_nat i mod 2 ^ 32) (me_owner_public_key e) ∈ manifest_id_messages n m p es.
Proof.
  intros Hi. apply list_elem_of_lookup. exists i. unfold manifest_id_messages.
  by rewrite list_lookup_imap, Hi.
Qed.

(** License identifiers are unique.  Two licenses, of one purchase or of
    two, have one identifier only when they are the same license: same network,
    payment method, payment, index in the manifest and first owner (or two of
    the messages their identifiers are made of collide).  So a Bitcoin and a
    native purchase never create the same license, and one manifest creates as
    many as it lists. *)
Theorem license_ids_unique n m p es n' m' p' es' i j x :
  is_u32 n -> is_u32 n' -> is_u8 m -> is_u8 m' -> is32 p -> is32 p' ->
  Forall entry_wf es -> Forall entry_wf es' -> (length es <= 1024)%nat -> (length es' <= 1024)%nat ->
  manifest_license_ids n m p es !! i = Some x ->
  manifest_license_ids n' m' p' es' !! j = Some x ->
  (n = n' /\ m = m' /\ p = p' /\ i = j /\
   me_owner_public_key <$> es !! i = me_owner_public_key <$> es' !! j) \/
  collides (manifest_id_messages n m p es) (manifest_id_messages n' m' p' es').
Proof.
  intros Hn Hn' Hm Hm' Hp Hp' He He' Hl Hl'
    (e & Hi & ->)%manifest_license_ids_lookup (e' & Hj & Hx)%manifest_license_ids_lookup.
  rewrite Hi, Hj. pose proof (lookup_lt_Some _ _ _ Hi). pose proof (lookup_lt_Some _ _ _ Hj).
  pose proof (manifest_id_messages_lookup n m p es i e Hi) as Hmi.
  pose proof (manifest_id_messages_lookup n' m' p' es' j e' Hj) as Hmj.
  rewrite (Z.mod_small (Z.of_nat i)) in Hx, Hmi by lia. rewrite (Z.mod_small (Z.of_nat j)) in Hx, Hmj by lia.
  apply (Forall_lookup_1 _ _ _ _ He) in Hi as [Ho _]. apply (Forall_lookup_1 _ _ _ _ He') in Hj as [Ho' _].
  apply derive_license_id_inj_or in Hx as [(-> & -> & -> & ? & Hoo)|Hc]; [left|right; more_messages Hc|done || lia..].
  cbn [fmap option_fmap option_map]. rewrite Hoo. split_and!; [done..|lia|done].
Qed.
End identifiers.

(** ** Witnesses *)

Definition demo_op (ty : Z) : ProtocolOperationV1 :=
  {| po_op_type := ty; po_op_version := 1; po_payload := [Byte.x07] |}.

Lemma operations_root_commits_witness :
  exists r, protocol_operations_root (SHA := sha2_checksum) [demo_op 3; demo_op 8] = Ok r /\
    NoDup (map (op_key (SHA := sha2_checksum)) [demo_op 3; demo_op 8]).
Proof.
  eexists. split; [vm_compute; reflexivity|].
  refine (proj1 (operations_root_commits (SHA := sha2_checksum) [demo_op 3; demo_op 8]
                   [demo_op 3; demo_op 8] _ _ _ _ _));
    [repeat constructor; vm_compute; congruence..|vm_compute; reflexivity|vm_compute; reflexivity].
Defined.

Definition demo_entry (b : Byte.byte) : LicenseManifestEntryV1 :=
  {| me_owner_public_key := replicate 32 b; me_mining_public_key := replicate 32 Byte.x09 |}.

Definition demo_entries : list LicenseManifestEntryV1 := [demo_entry Byte.x01; demo_entry Byte.x01].

Lemma license_ids_unique_witness :
  exists x, manifest_license_ids (SHA := sha2_checksum) 7 1 ZERO32 demo_entries !! 1%nat = Some x /\
    ((7 = 7 /\ 1 = 1 /\ ZERO32 = ZERO32 /\ 1%nat = 1%nat /\
      me_owner_public_key <$> demo_entries !! 1%nat = me_owner_public_key <$> demo_entries !! 1%nat)
     \/ collides (SHA := sha2_checksum) (manifest_id_messages 7 1 ZERO32 demo_entries)
          (manifest_id_messages 7 1 ZERO32 demo_entries)).
Proof.
  eexists. split; [reflexivity|].
  eapply (license_ids_unique (SHA := sha2_checksum) 7 1 ZERO32 demo_entries 7 1 ZERO32 demo_entries 1 1);
    try reflexivity; try lia; try (cbn; lia); repeat constructor.
Defined.
