(* ===== verification/ProtocolRules.v ===== *)
(** Crate [mutiny-protocol]: the rules that change licenses, dividend accounts
    and the Treasury ([apply_license_transfer], [apply_mining_key_rotation],
    [MiningPresenceV1::verify_against], [apply_offense],
    [calculate_dividend_award], [apply_dividend_claim]).

    A function that takes [&mut] records returns the new records next to its
    result, so that what it wrote before an early return is visible.  The life of
    a license is then a step relation over these operations; replay protection,
    the permanence of revocation and the strike invariant are proved over all its
    runs, failed operations included. *)

From S2P Require Import Prelude Crypto Codec Smt State Protocol.

Record HistoricalLicenseKeysV1 := {
  hk_owner_public_key : bytes32;
  hk_owner_key_sequence : Z;
  hk_mining_public_key : bytes32;
  hk_mining_key_sequence : Z;
}.

(** ** Assignments to fields of [LicenseRecordV1] *)

Definition set_keys (r : LicenseRecordV1) (owner mining : bytes32) : LicenseRecordV1 :=
  {| lr_version := lr_version r; lr_status := lr_status r; lr_purchase_method := lr_purchase_method r;
     lr_purchase_id := lr_purchase_id r; lr_owner_public_key := owner;
     lr_owner_key_sequence := lr_owner_key_sequence r; lr_mining_public_key := mining;
     lr_mining_key_sequence := lr_mining_key_sequence r; lr_issued_epoch := lr_issued_epoch r;
     lr_activation_epoch := lr_activation_epoch r; lr_strike_weight := lr_strike_weight r;
     lr_suspended_until_epoch := lr_suspended_until_epoch r;
     lr_revocation_epoch := lr_revocation_epoch r |}.

Definition set_sequences (r : LicenseRecordV1) (owner mining : Z) : LicenseRecordV1 :=
  {| lr_version := lr_version r; lr_status := lr_status r; lr_purchase_method := lr_purchase_method r;
     lr_purchase_id := lr_purchase_id r; lr_owner_public_key := lr_owner_public_key r;
     lr_owner_key_sequence := owner; lr_mining_public_key := lr_mining_public_key r;
     lr_mining_key_sequence := mining; lr_issued_epoch := lr_issued_epoch r;
     lr_activation_epoch := lr_activation_epoch r; lr_strike_weight := lr_strike_weight r;
     lr_suspended_until_epoch := lr_suspended_until_epoch r;
     lr_revocation_epoch := lr_revocation_epoch r |}.

Definition set_strikes (r : LicenseRecordV1) (status weight suspended revocation : Z) : LicenseRecordV1 :=
  {| lr_version := lr_version r; lr_status := status; lr_purchase_method := lr_purchase_method r;
     lr_purchase_id := lr_purchase_id r; lr_owner_public_key := lr_owner_public_key r;
     lr_owner_key_sequence := lr_owner_key_sequence r; lr_mining_public_key := lr_mining_public_key r;
     lr_mining_key_sequence := lr_mining_key_sequence r; lr_issued_epoch := lr_issued_epoch r;
     lr_activation_epoch := lr_activation_epoch r; lr_strike_weight := weight;
     lr_suspended_until_epoch := suspended; lr_revocation_epoch := revocation |}.

(** ** Offenses *)

Record OffenseApplicationV1 := {
  oa_new_strike_weight : Z;
  oa_suspended_until_epoch : Z;
  oa_offense_expiry_epoch : Z;
  oa_revoked : bool;
}.

Definition offense_weight (offense_type : Z) : result ProtocolError Z :=
  if offense_type =? OFFENSE_INVALID_SIGNED_WORK then Ok 1
  else if offense_type =? OFFENSE_LICENSE_STATE_EQUIVOCATION then Ok 2
  else if offense_type =? OFFENSE_SAME_TICKET_EQUIVOCATION then Ok 4
  else Err BadOffenseWeight.

Definition apply_offense (record : LicenseRecordV1) (offense_type applied_epoch : Z)
    : LicenseRecordV1 * result ProtocolError OffenseApplicationV1 :=
  if lr_status record =? LICENSE_STATUS_REVOKED then (record, Err Revoked) else
  match offense_weight offense_type with
  | Err e => (record, Err e)
  | Ok weight =>
      match checked_add 8 (lr_strike_weight record) weight with
      | None => (record, Err ProtoOverflow)
      | Some new_weight =>
          match checked_add 64 applied_epoch STRIKE_DECAY_EPOCHS with
          | None => (record, Err ProtoOverflow)
          | Some expiry =>
              if REVOCATION_THRESHOLD <=? new_weight then
                let record := set_strikes record LICENSE_STATUS_REVOKED REVOCATION_THRESHOLD
                                (lr_suspended_until_epoch record) applied_epoch in
                (record, Ok {| oa_new_strike_weight := REVOCATION_THRESHOLD;
                               oa_suspended_until_epoch := lr_suspended_until_epoch record;
                               oa_offense_expiry_epoch := expiry; oa_revoked := true |})
              else
                let exponent := 5 + new_weight in
                match checked_shl 64 1 exponent with
                | None => (record, Err ProtoOverflow)
                | Some timeout =>
                    let base := Z.max (lr_suspended_until_epoch record) applied_epoch in
                    match checked_add 64 base timeout with
                    | None => (record, Err ProtoOverflow)
                    | Some suspended_until =>
                        (set_strikes record (lr_status record) new_weight suspended_until
                           (lr_revocation_epoch record),
                         Ok {| oa_new_strike_weight := new_weight;
                               oa_suspended_until_epoch := suspended_until;
                               oa_offense_expiry_epoch := expiry; oa_revoked := false |})
                    end
                end
          end
      end
  end.

(** ** Dividends *)

Record DividendAwardCalculationV1 := {
  aw_available_before : Z;
  aw_dividend_pool : Z;
  aw_eligible_licenses : Z;
  aw_per_license_strikes : Z;
  aw_total_reserved_strikes : Z;
  aw_undistributed_remainder_strikes : Z;
}.

Definition calculate_dividend_award (available_strikes eligible_licenses : Z)
    : result ProtocolError DividendAwardCalculationV1 :=
  let? product := ok_or ProtoOverflow (checked_mul 64 available_strikes DIVIDEND_FRACTION_NUMERATOR) in
  let dividend_pool := product / DIVIDEND_FRACTION_DENOMINATOR in
  let per_license_strikes :=
    if eligible_licenses =? 0 then 0 else dividend_pool / eligible_licenses in
  let? total_reserved_strikes :=
    ok_or ProtoOverflow (checked_mul 64 per_license_strikes eligible_licenses) in
  let? undistributed_remainder_strikes :=
    ok_or ProtoOverflow (checked_sub dividend_pool total_reserved_strikes) in
  Ok {| aw_available_before := available_strikes; aw_dividend_pool := dividend_pool;
        aw_eligible_licenses := eligible_licenses; aw_per_license_strikes := per_license_strikes;
        aw_total_reserved_strikes := total_reserved_strikes;
        aw_undistributed_remainder_strikes := undistributed_remainder_strikes |}.

Section rules.
Context {SHA : Sha2} {ED : Ed25519}.

Definition verify_owner_signature (public_key digest signature : bytes) : result ProtocolError unit :=
  if negb (vk_from_bytes public_key) then Err ProtoInvalidSignature
  else if vk_verify public_key digest signature then Ok tt else Err ProtoInvalidSignature.

Definition apply_license_transfer (record : LicenseRecordV1) (transfer : LicenseTransferV1)
    : LicenseRecordV1 * result ProtocolError HistoricalLicenseKeysV1 :=
  if lr_status record =? LICENSE_STATUS_REVOKED then (record, Err Revoked) else
  if negb (lr_owner_key_sequence record =? lt_expected_owner_sequence transfer)
  then (record, Err StaleOwnerSequence) else
  if negb (lr_mining_key_sequence record =? lt_expected_mining_sequence transfer)
  then (record, Err StaleMiningSequence) else
  match verify_owner_signature (lr_owner_public_key record) (LicenseTransferV1_signing_digest transfer)
          (lt_owner_signature transfer) with
  | Err e => (record, Err e)
  | Ok _ =>
      let historical := {| hk_owner_public_key := lr_owner_public_key record;
        hk_owner_key_sequence := lr_owner_key_sequence record;
        hk_mining_public_key := lr_mining_public_key record;
        hk_mining_key_sequence := lr_mining_key_sequence record |} in
      let record := set_keys record (lt_new_owner_public_key transfer)
                      (lt_new_mining_public_key transfer) in
      match checked_add 32 (lr_owner_key_sequence record) 1 with
      | None => (record, Err ProtoOverflow)
      | Some owner_key_sequence =>
          let record := set_sequences record owner_key_sequence (lr_mining_key_sequence record) in
          match checked_add 32 (lr_mining_key_sequence record) 1 with
          | None => (record, Err ProtoOverflow)
          | Some mining_key_sequence =>
              (set_sequences record (lr_owner_key_sequence record) mining_key_sequence, Ok historical)
          end
      end
  end.

Definition apply_mining_key_rotation (record : LicenseRecordV1) (rotation : MiningKeyRotateV1)
    : LicenseRecordV1 * result ProtocolError HistoricalLicenseKeysV1 :=
  if lr_status record =? LICENSE_STATUS_REVOKED then (record, Err Revoked) else
  if negb (lr_owner_key_sequence record =? kr_expected_owner_sequence rotation)
  then (record, Err StaleOwnerSequence) else
  if negb (lr_mining_key_sequence record =? kr_expected_mining_sequence rotation)
  then (record, Err StaleMiningSequence) else
  match verify_owner_signature (lr_owner_public_key record) (MiningKeyRotateV1_signing_digest rotation)
          (kr_owner_signature rotation) with
  | Err e => (record, Err e)
  | Ok _ =>
      let historical := {| hk_owner_public_key := lr_owner_public_key record;
        hk_owner_key_sequence := lr_owner_key_sequence record;
        hk_mining_public_key := lr_mining_public_key record;
        hk_mining_key_sequence := lr_mining_key_sequence record |} in
      let record := set_keys record (lr_owner_public_key record) (kr_new_mining_public_key rotation) in
      match checked_add 32 (lr_mining_key_sequence record) 1 with
      | None => (record, Err ProtoOverflow)
      | Some mining_key_sequence =>
          (set_sequences record (lr_owner_key_sequence record) mining_key_sequence, Ok historical)
      end
  end.

Definition MiningPresenceV1_verify_against (p : MiningPresenceV1) (record : LicenseRecordV1)
    (expected_network_id : Z) (expected_genesis_id : bytes32) (block_epoch : Z)
    : result ProtocolError unit :=
  if negb (pack_k_active expected_network_id expected_genesis_id block_epoch)
  then Err MiningPresenceInactive else
  if negb (mi_network_id p =? expected_network_id) then Err MiningPresenceNetwork else
  if negb (bytes_eqb (mi_genesis_id p) expected_genesis_id) then Err MiningPresenceGenesis else
  if negb (mi_presence_epoch p =? block_epoch) then Err MiningPresenceEpoch else
  if lr_status record =? LICENSE_STATUS_REVOKED then Err Revoked else
  if negb (lr_mining_key_sequence record =? mi_expected_mining_sequence p)
  then Err StaleMiningSequence else
  verify_owner_signature (lr_mining_public_key record) (MiningPresenceV1_signing_digest p)
    (mi_mining_signature p).

Definition apply_dividend_claim (record : LicenseRecordV1) (account : LicenseDividendAccountV1)
    (treasury : TreasuryStateV1) (claim : DividendClaimV1) (block_epoch : Z)
    : LicenseDividendAccountV1 * TreasuryStateV1 * result ProtocolError unit :=
  if lr_status record =? LICENSE_STATUS_REVOKED then (account, treasury, Err Revoked) else
  if negb (lr_owner_key_sequence record =? dc_expected_owner_sequence claim)
  then (account, treasury, Err StaleOwnerSequence) else
  if negb (bytes_eqb (da_license_id account) (dc_license_id claim))
     || (block_epoch <? da_award_epoch account) || (da_claim_deadline_epoch account <=? block_epoch)
  then (account, treasury, Err DividendExpired) else
  if (dc_amount_strikes claim =? 0) || (da_claimable_strikes account <? dc_amount_strikes claim)
  then (account, treasury, Err DividendOverdraw) else
  match verify_owner_signature (lr_owner_public_key record) (DividendClaimV1_signing_digest claim)
          (dc_owner_signature claim) with
  | Err e => (account, treasury, Err e)
  | Ok _ =>
      let account := {| da_license_id := da_license_id account; da_award_epoch := da_award_epoch account;
        da_claim_deadline_epoch := da_claim_deadline_epoch account;
        da_claimable_strikes := da_claimable_strikes account - dc_amount_strikes claim |} in
      match checked_sub (ts_reserved_dividend_strikes treasury) (dc_amount_strikes claim) with
      | None => (account, treasury, Err TreasuryUnderflow)
      | Some reserved =>
          (account, {| ts_available_strikes := ts_available_strikes treasury;
                       ts_reserved_dividend_strikes := reserved |}, Ok tt)
      end
  end.
End rules.

(** ** The life of a license *)

Inductive license_event :=
| EvTransfer (t : LicenseTransferV1)
| EvRotate (k : MiningKeyRotateV1)
| EvOffense (offense_type applied_epoch : Z).

Definition key_sequences (r : LicenseRecordV1) : Z * Z :=
  (lr_owner_key_sequence r, lr_mining_key_sequence r).

Section life.
Context {SHA : Sha2} {ED : Ed25519}.

(** One operation on the record, successful or not. *)
Inductive license_step : LicenseRecordV1 -> license_event -> LicenseRecordV1 -> Prop :=
| step_transfer r t : license_step r (EvTransfer t) (fst (apply_license_transfer r t))
| step_rotate r k : license_step r (EvRotate k) (fst (apply_mining_key_rotation r k))
| step_offense r ty epoch : license_step r (EvOffense ty epoch) (fst (apply_offense r ty epoch)).

Definition license_reach : LicenseRecordV1 -> LicenseRecordV1 -> Prop :=
  rtc (fun r r' => exists ev, license_step r ev r').

(** The keys before a change, as they are kept in history. *)
Definition current_keys (r : LicenseRecordV1) : HistoricalLicenseKeysV1 :=
  {| hk_owner_public_key := lr_owner_public_key r; hk_owner_key_sequence := lr_owner_key_sequence r;
     hk_mining_public_key := lr_mining_public_key r; hk_mining_key_sequence := lr_mining_key_sequence r |}.

Definition signed_by (key digest signature : bytes) : Prop :=
  vk_from_bytes key = true /\ vk_verify key digest signature = true.

Lemma verify_owner_signature_ok key digest s :
  verify_owner_signature key digest s = Ok tt <-> signed_by key digest s.
Proof.
  unfold verify_owner_signature, signed_by.
  destruct (vk_from_bytes key), (vk_verify key digest s); naive_solver.
Qed.

Lemma verify_owner_signature_cases key digest s :
  (verify_owner_signature key digest s = Ok tt /\ signed_by key digest s) \/
  (verify_owner_signature key digest s = Err ProtoInvalidSignature /\ ~ signed_by key digest s).
Proof.
  destruct (verify_owner_signature key digest s) as [[]|e] eqn:E.
  - left. by rewrite <- verify_owner_signature_ok.
  - right. rewrite <- verify_owner_signature_ok, E. split; [|done]. f_equal.
    unfold verify_owner_signature in E. destruct (vk_from_bytes key), (vk_verify _ _ _); naive_solver.
Qed.

(** An error that leaves the record as it was. *)
Ltac refuse :=
  right; eexists; split; [|split; [cbn [negb]; reflexivity|]]; [discriminate|intuition (congruence || lia)].

(** All outcomes of the two key changes at once: success, an error that changes
    nothing, or an overflow of a sequence number after the keys are written. *)
Lemma transfer_cases r t :
  (lr_status r <> LICENSE_STATUS_REVOKED /\
   lr_owner_key_sequence r = lt_expected_owner_sequence t /\
   lr_mining_key_sequence r = lt_expected_mining_sequence t /\
   signed_by (lr_owner_public_key r) (LicenseTransferV1_signing_digest t) (lt_owner_signature t) /\
   ((lr_owner_key_sequence r + 1 < 2 ^ 32 /\ lr_mining_key_sequence r + 1 < 2 ^ 32 /\
     apply_license_transfer r t =
       (set_sequences (set_keys r (lt_new_owner_public_key t) (lt_new_mining_public_key t))
          (lr_owner_key_sequence r + 1) (lr_mining_key_sequence r + 1), Ok (current_keys r))) \/
    (2 ^ 32 <= lr_owner_key_sequence r + 1 /\
     apply_license_transfer r t =
       (set_keys r (lt_new_owner_public_key t) (lt_new_mining_public_key t), Err ProtoOverflow)) \/
    (lr_owner_key_sequence r + 1 < 2 ^ 32 /\ 2 ^ 32 <= lr_mining_key_sequence r + 1 /\
     apply_license_transfer r t =
       (set_sequences (set_keys r (lt_new_owner_public_key t) (lt_new_mining_public_key t))
          (lr_owner_key_sequence r + 1) (lr_mining_key_sequence r), Err ProtoOverflow)))) \/
  (exists e, e <> ProtoOverflow /\ apply_license_transfer r t = (r, Err e) /\
   ~ (lr_status r <> LICENSE_STATUS_REVOKED /\
      lr_owner_key_sequence r = lt_expected_owner_sequence t /\
      lr_mining_key_sequence r = lt_expected_mining_sequence t /\
      signed_by (lr_owner_public_key r) (LicenseTransferV1_signing_digest t) (lt_owner_signature t))).
Proof.
  unfold apply_license_transfer.
  destruct (Z.eqb_spec (lr_status r) LICENSE_STATUS_REVOKED) as [|Hs]; [refuse|].
  destruct (Z.eqb_spec (lr_owner_key_sequence r) (lt_expected_owner_sequence t)) as [Ho|];
    [|refuse].
  destruct (Z.eqb_spec (lr_mining_key_sequence r) (lt_expected_mining_sequence t)) as [Hm|];
    [|refuse].
  destruct (verify_owner_signature_cases (lr_owner_public_key r) (LicenseTransferV1_signing_digest t)
              (lt_owner_signature t)) as [[-> Hsig]|[-> Hsig]]; [|refuse].
  left. do 4 (split; [done|]). cbn [set_keys set_sequences lr_owner_key_sequence lr_mining_key_sequence].
  cbn [negb]. unfold checked_add.
  destruct (Z.ltb_spec (lr_owner_key_sequence r + 1) (2 ^ 32)); [|right; left; by split].
  destruct (Z.ltb_spec (lr_mining_key_sequence r + 1) (2 ^ 32));
    [left; by repeat split|right; right; by repeat split].
Qed.

Lemma rotation_cases r k :
  (lr_status r <> LICENSE_STATUS_REVOKED /\
   lr_owner_key_sequence r = kr_expected_owner_sequence k /\
   lr_mining_key_sequence r = kr_expected_mining_sequence k /\
   signed_by (lr_owner_public_key r) (MiningKeyRotateV1_signing_digest k) (kr_owner_signature k) /\
   ((lr_mining_key_sequence r + 1 < 2 ^ 32 /\
     apply_mining_key_rotation r k =
       (set_sequences (set_keys r (lr_owner_public_key r) (kr_new_mining_public_key k))
          (lr_owner_key_sequence r) (lr_mining_key_sequence r + 1), Ok (current_keys r))) \/
    (2 ^ 32 <= lr_mining_key_sequence r + 1 /\
     apply_mining_key_rotation r k =
       (set_keys r (lr_owner_public_key r) (kr_new_mining_public_key k), Err ProtoOverflow)))) \/
  (exists e, e <> ProtoOverflow /\ apply_mining_key_rotation r k = (r, Err e) /\
   ~ (lr_status r <> LICENSE_STATUS_REVOKED /\
      lr_owner_key_sequence r = kr_expected_owner_sequence k /\
      lr_mining_key_sequence r = kr_expected_mining_sequence k /\
      signed_by (lr_owner_public_key r) (MiningKeyRotateV1_signing_digest k) (kr_owner_signature k))).
Proof.
  unfold apply_mining_key_rotation.
  destruct (Z.eqb_spec (lr_status r) LICENSE_STATUS_REVOKED) as [|Hs]; [refuse|].
  destruct (Z.eqb_spec (lr_owner_key_sequence r) (kr_expected_owner_sequence k)) as [Ho|]; [|refuse].
  destruct (Z.eqb_spec (lr_mining_key_sequence r) (kr_expected_mining_sequence k)) as [Hm|]; [|refuse].
  destruct (verify_owner_signature_cases (lr_owner_public_key r) (MiningKeyRotateV1_signing_digest k)
              (kr_owner_signature k)) as [[-> Hsig]|[-> Hsig]]; [|refuse].
  left. do 4 (split; [done|]). cbn [set_keys set_sequences lr_owner_key_sequence lr_mining_key_sequence].
  cbn [negb]. unfold checked_add.
  destruct (Z.ltb_spec (lr_mining_key_sequence r + 1) (2 ^ 32)); [left|right]; by repeat split.
Qed.

(** What an offense does: revocation at the threshold, a longer suspension below
    it, or an error that changes nothing. *)
Lemma offense_cases r ty epoch :
  (exists w expiry, lr_status r <> LICENSE_STATUS_REVOKED /\ offense_weight ty = Ok w /\
    lr_strike_weight r + w < 2 ^ 8 /\ expiry = epoch + STRIKE_DECAY_EPOCHS /\ expiry < 2 ^ 64 /\
    ((16 <= lr_strike_weight r + w /\
      apply_offense r ty epoch =
        (set_strikes r LICENSE_STATUS_REVOKED 16 (lr_suspended_until_epoch r) epoch,
         Ok {| oa_new_strike_weight := 16; oa_suspended_until_epoch := lr_suspended_until_epoch r;
               oa_offense_expiry_epoch := expiry; oa_revoked := true |})) \/
     (lr_strike_weight r + w < 16 /\ exists until,
      until = Z.max (lr_suspended_until_epoch r) epoch + 2 ^ (5 + (lr_strike_weight r + w)) mod 2 ^ 64 /\
      until < 2 ^ 64 /\
      apply_offense r ty epoch =
        (set_strikes r (lr_status r) (lr_strike_weight r + w) until (lr_revocation_epoch r),
         Ok {| oa_new_strike_weight := lr_strike_weight r + w; oa_suspended_until_epoch := until;
               oa_offense_expiry_epoch := expiry; oa_revoked := false |})))) \/
  (exists e, apply_offense r ty epoch = (r, Err e)).
Proof.
  unfold apply_offense, REVOCATION_THRESHOLD.
  destruct (Z.eqb_spec (lr_status r) LICENSE_STATUS_REVOKED) as [|Hs]; [by right; eexists|].
  destruct (offense_weight ty) as [w|e] eqn:Ew; [|by right; eexists].
  destruct (checked_add 8 (lr_strike_weight r) w) as [nw|] eqn:En; [|by right; eexists].
  destruct (checked_add 64 epoch STRIKE_DECAY_EPOCHS) as [expiry|] eqn:Ee; [|by right; eexists].
  apply checked_add_Some in En as [-> ?], Ee as [-> ?].
  destruct (Z.leb_spec 16 (lr_strike_weight r + w)).
  { left. exists w, (epoch + STRIKE_DECAY_EPOCHS). do 5 (split; [done|]). by left. }
  unfold checked_shl. destruct (Z.ltb_spec (5 + (lr_strike_weight r + w)) 64); [|by right; eexists].
  destruct (checked_add 64 _ _) as [until|] eqn:Eu; [|by right; eexists].
  apply checked_add_Some in Eu as [-> ?]. left. exists w, (epoch + STRIKE_DECAY_EPOCHS).
  do 5 (split; [done|]). right. split; [done|]. eexists. split; [reflexivity|].
  rewrite Z.shiftl_1_l in *. done.
Qed.

Lemma offense_weight_range ty w : offense_weight ty = Ok w -> w = 1 \/ w = 2 \/ w = 4.
Proof. unfold offense_weight. repeat case_match; naive_solver. Qed.

(** ** Facts about every step *)

Lemma step_monotone r ev r' :
  license_step r ev r' ->
  lr_owner_key_sequence r <= lr_owner_key_sequence r' /\
  lr_mining_key_sequence r <= lr_mining_key_sequence r' /\
  (lr_status r = LICENSE_STATUS_REVOKED -> r' = r).
Proof.
  intros [r0 t|r0 k|r0 ty epoch].
  - destruct (transfer_cases r0 t) as [(? & _ & _ & _ & [(_ & _ & ->)|[(_ & ->)|(_ & _ & ->)]])
                                      |(e & _ & -> & _)]; cbn; split_and!; lia || done.
  - destruct (rotation_cases r0 k) as [(? & _ & _ & _ & [(_ & ->)|(_ & ->)])|(e & _ & -> & _)];
      cbn; split_and!; lia || done.
  - destruct (offense_cases r0 ty epoch) as [(w & x & ? & _ & _ & _ & _ & [[_ ->]|(_ & u & _ & _ & ->)])
                                            |[e ->]]; cbn; split_and!; lia || done.
Qed.

Lemma reach_monotone r r' :
  license_reach r r' ->
  lr_owner_key_sequence r <= lr_owner_key_sequence r' /\
  lr_mining_key_sequence r <= lr_mining_key_sequence r' /\
  (lr_status r = LICENSE_STATUS_REVOKED -> r' = r).
Proof.
  induction 1 as [|r r1 r2 [ev Hs] _ (IH1 & IH2 & IH3)]; [repeat split; lia || done|].
  apply step_monotone in Hs as (H1 & H2 & H3). split_and!; [lia|lia|].
  intros Hr. specialize (H3 Hr) as ->. auto.
Qed.

(** A license transfer or mining-key rotation succeeds exactly when the
    license is not revoked, both expected sequence numbers are current, the
    present owner has signed the operation and no sequence number overflows; it
    then installs the new keys, advances the sequence numbers (both for a
    transfer, the mining one for a rotation) and returns the keys it replaced.
    Every error other than a sequence overflow leaves the record unchanged. *)
Theorem key_change_correct r t k h :
  (snd (apply_license_transfer r t) = Ok h <->
   (lr_status r <> LICENSE_STATUS_REVOKED /\
    lr_owner_key_sequence r = lt_expected_owner_sequence t /\
    lr_mining_key_sequence r = lt_expected_mining_sequence t /\
    signed_by (lr_owner_public_key r) (LicenseTransferV1_signing_digest t) (lt_owner_signature t) /\
    lr_owner_key_sequence r + 1 < 2 ^ 32 /\ lr_mining_key_sequence r + 1 < 2 ^ 32 /\
    h = current_keys r /\
    fst (apply_license_transfer r t) =
      set_sequences (set_keys r (lt_new_owner_public_key t) (lt_new_mining_public_key t))
        (lr_owner_key_sequence r + 1) (lr_mining_key_sequence r + 1))) /\
  (snd (apply_mining_key_rotation r k) = Ok h <->
   (lr_status r <> LICENSE_STATUS_REVOKED /\
    lr_owner_key_sequence r = kr_expected_owner_sequence k /\
    lr_mining_key_sequence r = kr_expected_mining_sequence k /\
    signed_by (lr_owner_public_key r) (MiningKeyRotateV1_signing_digest k) (kr_owner_signature k) /\
    lr_mining_key_sequence r + 1 < 2 ^ 32 /\ h = current_keys r /\
    fst (apply_mining_key_rotation r k) =
      set_sequences (set_keys r (lr_owner_public_key r) (kr_new_mining_public_key k))
        (lr_owner_key_sequence r) (lr_mining_key_sequence r + 1))) /\
  (forall e, e <> ProtoOverflow -> snd (apply_license_transfer r t) = Err e ->
     fst (apply_license_transfer r t) = r) /\
  (forall e, e <> ProtoOverflow -> snd (apply_mining_key_rotation r k) = Err e ->
     fst (apply_mining_key_rotation r k) = r).
Proof.
  destruct (transfer_cases r t) as [(? & ? & ? & ? & [(? & ? & ->)|[(? & ->)|(? & ? & ->)]])
                                   |(et & Ht & -> & Hnt)];
    destruct (rotation_cases r k) as [(? & ? & ? & ? & [(? & ->)|(? & ->)])|(ek & Hk & -> & Hnk)];
    cbn [fst snd]; split_and!; intros; try congruence;
    split; intros Hx; try (apply Ok_inj in Hx as <-; by split_and!); try done;
    try (destruct Hx as (? & ? & ? & ? & ? & ? & ?); try congruence; lia);
    try (destruct Hx as (? & ? & ? & ? & ? & ? & -> & ?); congruence || (exfalso; tauto) || lia);
    try (destruct Hx as (? & ? & ? & ? & ? & -> & ?); congruence || (exfalso; tauto) || lia).
Qed.

(** No operation on keys can be replayed.  After a transfer (or rotation) has
    succeeded, the same operation is refused at every later point of the
    license's life, whatever transfers, rotations and offenses happen in
    between, whether they succeed or fail half-way. *)
Theorem key_change_no_replay r r2 h :
  (forall t, snd (apply_license_transfer r t) = Ok h ->
     license_reach (fst (apply_license_transfer r t)) r2 ->
     exists e, apply_license_transfer r2 t = (r2, Err e)) /\
  (forall k, snd (apply_mining_key_rotation r k) = Ok h ->
     license_reach (fst (apply_mining_key_rotation r k)) r2 ->
     exists e, apply_mining_key_rotation r2 k = (r2, Err e)).
Proof.
  split.
  - intros t Hok Hreach. apply reach_monotone in Hreach as (Ho & Hm & _).
    destruct (transfer_cases r2 t) as [(_ & Ho2 & _)|(e & _ & -> & _)]; [|by exists e].
    destruct (transfer_cases r t) as [(_ & Ho1 & _ & _ & [(_ & _ & Ht)|[(_ & Ht)|(_ & _ & Ht)]])
                                     |(e & _ & Ht & _)]; rewrite Ht in *; try done.
    cbn in Ho. lia.
  - intros k Hok Hreach. apply reach_monotone in Hreach as (Ho & Hm & _).
    destruct (rotation_cases r2 k) as [(_ & _ & Hm2 & _)|(e & _ & -> & _)]; [|by exists e].
    destruct (rotation_cases r k) as [(_ & _ & Hm1 & _ & [(_ & Hk)|(_ & Hk)])|(e & _ & Hk & _)];
      rewrite Hk in *; try done. cbn in Hm. lia.
Qed.

(** The strike summary of a record. *)
Definition strikes_ok (r : LicenseRecordV1) : Prop :=
  0 <= lr_strike_weight r <= 16 /\
  (lr_strike_weight r = 16 <-> lr_status r = LICENSE_STATUS_REVOKED).

Lemma step_strikes r ev r' :
  license_step r ev r' -> strikes_ok r ->
  strikes_ok r' /\ lr_strike_weight r <= lr_strike_weight r' /\
  lr_suspended_until_epoch r <= lr_suspended_until_epoch r' /\
  (LicenseRecordV1_validate r = Ok tt -> LicenseRecordV1_validate r' = Ok tt).
Proof.
  unfold strikes_ok, LicenseRecordV1_validate. intros [r0 t|r0 k|r0 ty epoch] [Hw Hs].
  - destruct (transfer_cases r0 t) as [(_ & _ & _ & _ & [(_ & _ & ->)|[(_ & ->)|(_ & _ & ->)]])
                                      |(e & _ & -> & _)]; cbn; repeat split; lia || tauto.
  - destruct (rotation_cases r0 k) as [(_ & _ & _ & _ & [(_ & ->)|(_ & ->)])|(e & _ & -> & _)];
      cbn; repeat split; lia || tauto.
  - destruct (offense_cases r0 ty epoch)
      as [(w & x & Hr & Ho%offense_weight_range & _ & _ & _ & [[? ->]|(? & u & -> & _ & ->)])|[e ->]];
      cbn [fst set_strikes lr_strike_weight lr_status lr_suspended_until_epoch lr_version
           lr_purchase_method].
    + split_and!; try lia; try done. intros Hv. destruct (lr_version r0 =? 1); [|done].
      destruct (_ || _ || (lr_status r0 =? _)); [|done]. cbn in Hv |- *.
      by destruct (_ || (lr_purchase_method r0 =? _)).
    + pose proof (Z.mod_pos_bound (2 ^ (5 + (lr_strike_weight r0 + w))) (2 ^ 64)).
      split_and!; try lia. intros Hv. destruct (lr_version r0 =? 1); [|done].
      destruct (_ || _ || (lr_status r0 =? _)); [|done]. cbn in Hv |- *.
      destruct (_ || (lr_purchase_method r0 =? _)); [|done]. cbn.
      by destruct (Z.ltb_spec 16 (lr_strike_weight r0 + w)); [lia|].
    + split_and!; lia || tauto.
Qed.

(** The strike invariant.  Along every run, the strike weight stays between
    0 and the threshold 16, a license has weight 16 exactly when it is revoked,
    weights and suspensions never shrink, a record that can be stored can still
    be stored, and a revoked license never changes again. *)
Theorem strikes_invariant r r' :
  license_reach r r' -> strikes_ok r ->
  strikes_ok r' /\ lr_strike_weight r <= lr_strike_weight r' /\
  lr_suspended_until_epoch r <= lr_suspended_until_epoch r' /\
  (LicenseRecordV1_validate r = Ok tt -> LicenseRecordV1_validate r' = Ok tt) /\
  (lr_status r = LICENSE_STATUS_REVOKED -> r' = r).
Proof.
  intros Hreach Hok. pose proof (reach_monotone _ _ Hreach) as (_ & _ & Hrev).
  cut (strikes_ok r' /\ lr_strike_weight r <= lr_strike_weight r' /\
       lr_suspended_until_epoch r <= lr_suspended_until_epoch r' /\
       (LicenseRecordV1_validate r = Ok tt -> LicenseRecordV1_validate r' = Ok tt)); [tauto|].
  clear Hrev. induction Hreach as [r|r r1 r2 [ev Hs] _ IH]; [split_and!; lia || tauto|].
  apply step_strikes in Hs as (H1 & H2 & H3 & H4); [|done]. specialize (IH H1). intuition lia.
Qed.

(** ** A history of offenses *)

Definition apply_offenses (r : LicenseRecordV1) (offenses : list (Z * Z)) : LicenseRecordV1 :=
  fold_left (fun r o => fst (apply_offense r (fst o) (snd o))) offenses r.

Definition total_weight (offenses : list (Z * Z)) : Z :=
  foldr (fun o acc => match offense_weight (fst o) with Ok w => w | Err _ => 0 end + acc) 0 offenses.

Definition offense_ok (o : Z * Z) : Prop :=
  0 <= snd o < 2 ^ 62 /\ exists w, offense_weight (fst o) = Ok w.

(** The suspension stays far from overflow as long as the license has room for
    more strikes: every strike adds at most [2 ^ 20] epochs. *)
Definition suspension_ok (r : LicenseRecordV1) : Prop :=
  0 <= lr_suspended_until_epoch r <= 2 ^ 62 + lr_strike_weight r * 2 ^ 20.

Lemma total_weight_nonneg l : Forall offense_ok l -> 0 <= total_weight l.
Proof.
  induction 1 as [|o l [_ (w & Hw)] _ IH]; cbn [total_weight foldr]; [lia|]. fold (total_weight l).
  rewrite Hw. apply offense_weight_range in Hw. lia.
Qed.

(** One acceptable offense against a license in good standing. *)
Lemma apply_offense_step r ty epoch w :
  strikes_ok r -> suspension_ok r -> lr_status r <> LICENSE_STATUS_REVOKED ->
  offense_weight ty = Ok w -> 0 <= epoch < 2 ^ 62 ->
  lr_strike_weight (fst (apply_offense r ty epoch)) = Z.min 16 (lr_strike_weight r + w) /\
  suspension_ok (fst (apply_offense r ty epoch)).
Proof.
  intros [Hr Hst] Hsus Hs Hw Hep. assert (lr_strike_weight r < 16) as Hlt.
  { destruct (decide (lr_strike_weight r = 16)); [tauto|lia]. }
  unfold suspension_ok in *. pose proof (offense_weight_range _ _ Hw) as Hwr.
  unfold apply_offense. destruct (Z.eqb_spec (lr_status r) LICENSE_STATUS_REVOKED); [done|].
  rewrite Hw. unfold checked_add, STRIKE_DECAY_EPOCHS, REVOCATION_THRESHOLD.
  destruct (Z.ltb_spec (lr_strike_weight r + w) (2 ^ 8)); [|lia].
  change (Z.shiftl 1 21) with (2 ^ 21). destruct (Z.ltb_spec (epoch + 2 ^ 21) (2 ^ 64)); [|lia].
  destruct (Z.leb_spec 16 (lr_strike_weight r + w)); [cbn; lia|].
  unfold checked_shl. destruct (Z.ltb_spec (5 + (lr_strike_weight r + w)) 64); [|lia].
  rewrite Z.shiftl_1_l.
  assert (0 < 2 ^ (5 + (lr_strike_weight r + w)) <= 2 ^ 20) as Hp.
  { split; [apply Z.pow_pos_nonneg; lia|apply Z.pow_le_mono_r; lia]. }
  rewrite Z.mod_small by lia.
  destruct (Z.ltb_spec (Z.max (lr_suspended_until_epoch r) epoch + 2 ^ (5 + (lr_strike_weight r + w)))
              (2 ^ 64)); [|lia].
  cbn [fst set_strikes lr_strike_weight lr_suspended_until_epoch]. lia.
Qed.

Lemma revoked_absorbs r l : lr_status r = LICENSE_STATUS_REVOKED -> apply_offenses r l = r.
Proof.
  intros Hr. unfold apply_offenses. induction l as [|o l IH]; [done|]. cbn [fold_left].
  unfold apply_offense at 2. rewrite (proj2 (Z.eqb_eq _ _) Hr). done.
Qed.

(** A license is revoked exactly when the weights of its offenses reach the
    threshold.  After any history of punishable offenses the summary weight is
    the sum of the weights, capped at 16, and no such history is cut short by an
    arithmetic error (epochs below 2^62). *)
Theorem offenses_tally r l :
  strikes_ok r -> suspension_ok r -> Forall offense_ok l ->
  lr_strike_weight (apply_offenses r l) = Z.min 16 (lr_strike_weight r + total_weight l) /\
  (lr_status (apply_offenses r l) = LICENSE_STATUS_REVOKED <->
   16 <= lr_strike_weight r + total_weight l).
Proof.
  intros Hok Hsus Hl.
  cut (strikes_ok (apply_offenses r l) /\
       lr_strike_weight (apply_offenses r l) = Z.min 16 (lr_strike_weight r + total_weight l)).
  { intros [[_ Hiff] Heq]. split; [done|]. rewrite <- Hiff, Heq. lia. }
  revert r Hok Hsus. induction Hl as [|[ty ep] l Ho Hl IH]; intros r Hok Hsus.
  { split; [done|]. destruct Hok as [? _]. cbn. lia. }
  destruct (decide (lr_status r = LICENSE_STATUS_REVOKED)) as [Hr|Hr].
  { rewrite revoked_absorbs by done. split; [done|]. destruct Hok as [? Hiff].
    apply Hiff in Hr. pose proof (total_weight_nonneg ((ty, ep) :: l) ltac:(by constructor)). lia. }
  destruct Ho as [Hep (w & Hw)]. cbn [fst snd] in *.
  destruct (apply_offense_step r ty ep w Hok Hsus Hr Hw Hep) as [H1 H2].
  pose proof (step_strikes _ _ _ (step_offense r ty ep) Hok) as [Hok' _].
  destruct (IH _ Hok' H2) as [H3 H4]. split; [exact H3|].
  change (apply_offenses r ((ty, ep) :: l)) with (apply_offenses (fst (apply_offense r ty ep)) l).
  rewrite H4, H1. cbn [total_weight foldr fst]. rewrite Hw. fold (total_weight l).
  pose proof (total_weight_nonneg l Hl). lia.
Qed.

(** ** Mining presence *)

Lemma presence_unsigned_inj p q :
  presence_wf p -> presence_wf q ->
  MiningPresenceV1_unsigned_payload p = MiningPresenceV1_unsigned_payload q ->
  mi_network_id p = mi_network_id q /\ mi_genesis_id p = mi_genesis_id q /\
  mi_license_id p = mi_license_id q /\ mi_expected_mining_sequence p = mi_expected_mining_sequence q /\
  mi_presence_epoch p = mi_presence_epoch q.
Proof.
  intros (Hn & Hg & Hl & Hs & He & _) (Hn' & Hg' & Hl' & Hs' & He' & _) Heq.
  unfold MiningPresenceV1_unsigned_payload in Heq. norm_writes.
  apply app_inj_len in Heq as [E1 Heq]; [|len]. apply app_inj_len in Heq as [E2 Heq]; [|len].
  apply app_inj_len in Heq as [E3 Heq]; [|len]. apply app_inj_len in Heq as [E4 E5]; [|len].
  apply be_bytes_inj in E1, E4, E5; done.
Qed.

Lemma unsigned_operation_eq ty v payload :
  unsigned_operation_bytes ty v payload =
  be_bytes 2 ty ++ be_bytes 2 v ++ encode_varuint (Z.of_nat (length payload)) ++ payload.
Proof. unfold unsigned_operation_bytes. norm_writes. done. Qed.

(** The message a presence signature signs. *)
Definition presence_message (p : MiningPresenceV1) : bytes :=
  domain_message domains.PROTOCOL_OP_SIGN
    [unsigned_operation_bytes OP_MINING_PRESENCE 1 (MiningPresenceV1_unsigned_payload p)].

Lemma presence_digest_binds p q :
  presence_wf p -> presence_wf q ->
  MiningPresenceV1_signing_digest p = MiningPresenceV1_signing_digest q ->
  MiningPresenceV1_unsigned_payload p = MiningPresenceV1_unsigned_payload q \/
  collides [presence_message p] [presence_message q].
Proof.
  intros Hp Hq [Heq|]%sha256_domain_inj_or; [left|by right].
  assert (forall x, presence_wf x -> length (MiningPresenceV1_unsigned_payload x) = 80%nat) as Hlen.
  { intros x (_ & ? & ? & _). unfold MiningPresenceV1_unsigned_payload. norm_writes. len. }
  cbn [concat] in Heq. rewrite !app_nil_r, !unsigned_operation_eq, !Hlen in Heq by done.
  by apply app_inv_head, app_inv_head, app_inv_head in Heq.
Qed.

(** A presence message counts exactly in its own epoch, on its own network,
    while Pack K is active there (epoch 11 on Mainnet, epoch 1500 on the locked
    Devnet, nowhere else), for a license that is not revoked, under the current
    mining key; and the signed digest determines every field of the message (or
    the two signed messages collide), so a signature cannot be moved to another
    license, epoch, key generation or network. *)
Theorem presence_correct p q r network genesis epoch :
  (MiningPresenceV1_verify_against p r network genesis epoch = Ok tt <->
   ((network = MAINNET_NETWORK_ID /\ genesis = MAINNET_GENESIS_ID /\ 11 <= epoch \/
     network = DEVNET_NETWORK_ID /\ genesis = PACK_K_DEVNET_GENESIS_ID /\ 1500 <= epoch) /\
    mi_network_id p = network /\ mi_genesis_id p = genesis /\ mi_presence_epoch p = epoch /\
    lr_status r <> LICENSE_STATUS_REVOKED /\ lr_mining_key_sequence r = mi_expected_mining_sequence p /\
    signed_by (lr_mining_public_key r) (MiningPresenceV1_signing_digest p) (mi_mining_signature p))) /\
  (presence_wf p -> presence_wf q ->
   MiningPresenceV1_signing_digest p = MiningPresenceV1_signing_digest q ->
   (mi_network_id p = mi_network_id q /\ mi_genesis_id p = mi_genesis_id q /\
    mi_license_id p = mi_license_id q /\
    mi_expected_mining_sequence p = mi_expected_mining_sequence q /\
    mi_presence_epoch p = mi_presence_epoch q) \/
   collides [presence_message p] [presence_message q]).
Proof.
  split.
  2:{ intros Hp Hq [?|]%presence_digest_binds; [left|by right|done..]. by apply presence_unsigned_inj. }
  assert (pack_k_active network genesis epoch = true <->
    (network = MAINNET_NETWORK_ID /\ genesis = MAINNET_GENESIS_ID /\ 11 <= epoch \/
     network = DEVNET_NETWORK_ID /\ genesis = PACK_K_DEVNET_GENESIS_ID /\ 1500 <= epoch)) as <-.
  { unfold pack_k_active, pack_k_activation_epoch, PACK_K_DEVNET_NETWORK_ID, PACK_K_DEVNET_ACTIVATION_EPOCH.
    assert (MAINNET_NETWORK_ID <> DEVNET_NETWORK_ID) by done.
    destruct (Z.eqb_spec network MAINNET_NETWORK_ID),
      (bytes_eqb genesis MAINNET_GENESIS_ID) eqn:Eg, (Z.eqb_spec network DEVNET_NETWORK_ID),
      (bytes_eqb genesis PACK_K_DEVNET_GENESIS_ID) eqn:Ed; cbn [andb]; bool_to_prop;
      rewrite ?Z.leb_le; intuition congruence. }
  rewrite <- verify_owner_signature_ok. unfold MiningPresenceV1_verify_against.
  destruct (pack_k_active network genesis epoch); [|naive_solver].
  destruct (Z.eqb_spec (mi_network_id p) network); [|naive_solver].
  destruct (bytes_eqb (mi_genesis_id p) genesis) eqn:Eg; bool_to_prop; [|naive_solver].
  destruct (Z.eqb_spec (mi_presence_epoch p) epoch); [|naive_solver].
  destruct (Z.eqb_spec (lr_status r) LICENSE_STATUS_REVOKED); [naive_solver|].
  destruct (Z.eqb_spec (lr_mining_key_sequence r) (mi_expected_mining_sequence p)); naive_solver.
Qed.

(** ** Dividend claims *)

Record claim_request := { cr_record : LicenseRecordV1; cr_claim : DividendClaimV1; cr_epoch : Z }.

(** A sequence of claims against one account; the last component adds up what
    the accepted claims pay. *)
Fixpoint run_claims (account : LicenseDividendAccountV1) (treasury : TreasuryStateV1)
    (requests : list claim_request) : LicenseDividendAccountV1 * TreasuryStateV1 * Z :=
  match requests with
  | [] => (account, treasury, 0)
  | q :: requests =>
      let '(account, treasury, r) :=
        apply_dividend_claim (cr_record q) account treasury (cr_claim q) (cr_epoch q) in
      let paid := if is_ok r then dc_amount_strikes (cr_claim q) else 0 in
      let '(account, treasury, rest) := run_claims account treasury requests in
      (account, treasury, paid + rest)
  end.

Definition claim_accepted (r : LicenseRecordV1) (a : LicenseDividendAccountV1) (c : DividendClaimV1)
    (epoch : Z) : Prop :=
  lr_status r <> LICENSE_STATUS_REVOKED /\ lr_owner_key_sequence r = dc_expected_owner_sequence c /\
  da_license_id a = dc_license_id c /\ da_award_epoch a <= epoch < da_claim_deadline_epoch a /\
  dc_amount_strikes c <> 0 /\ dc_amount_strikes c <= da_claimable_strikes a /\
  signed_by (lr_owner_public_key r) (DividendClaimV1_signing_digest c) (dc_owner_signature c).

Definition debit (a : LicenseDividendAccountV1) (amount : Z) : LicenseDividendAccountV1 :=
  {| da_license_id := da_license_id a; da_award_epoch := da_award_epoch a;
     da_claim_deadline_epoch := da_claim_deadline_epoch a;
     da_claimable_strikes := da_claimable_strikes a - amount |}.

Lemma claim_cases r a t c epoch :
  (claim_accepted r a c epoch /\
   ((dc_amount_strikes c <= ts_reserved_dividend_strikes t /\
     apply_dividend_claim r a t c epoch =
       (debit a (dc_amount_strikes c),
        {| ts_available_strikes := ts_available_strikes t;
           ts_reserved_dividend_strikes := ts_reserved_dividend_strikes t - dc_amount_strikes c |}, Ok tt)) \/
    (ts_reserved_dividend_strikes t < dc_amount_strikes c /\
     apply_dividend_claim r a t c epoch = (debit a (dc_amount_strikes c), t, Err TreasuryUnderflow)))) \/
  (exists e, e <> TreasuryUnderflow /\ apply_dividend_claim r a t c epoch = (a, t, Err e) /\
   ~ claim_accepted r a c epoch).
Proof.
  unfold apply_dividend_claim, claim_accepted.
  destruct (Z.eqb_spec (lr_status r) LICENSE_STATUS_REVOKED); [refuse|].
  destruct (Z.eqb_spec (lr_owner_key_sequence r) (dc_expected_owner_sequence c)); [|refuse].
  destruct (bytes_eqb (da_license_id a) (dc_license_id c)) eqn:El; bool_to_prop; [|refuse].
  cbn [negb orb]. destruct (Z.ltb_spec epoch (da_award_epoch a)); [refuse|].
  destruct (Z.leb_spec (da_claim_deadline_epoch a) epoch); [refuse|].
  cbn [orb]. destruct (Z.eqb_spec (dc_amount_strikes c) 0); [refuse|].
  destruct (Z.ltb_spec (da_claimable_strikes a) (dc_amount_strikes c)); [refuse|].
  cbn [orb].
  destruct (verify_owner_signature_cases (lr_owner_public_key r) (DividendClaimV1_signing_digest c)
              (dc_owner_signature c)) as [[-> Hsig]|[-> Hsig]]; [|refuse].
  left. split; [done|]. unfold checked_sub.
  destruct (Z.leb_spec (dc_amount_strikes c) (ts_reserved_dividend_strikes t)); [left|right]; done.
Qed.

(** The dividend award.  For every Treasury balance and every number of
    eligible licenses the calculation succeeds: the pool is half of the available
    strikes, each license gets the same whole share, and what cannot be shared
    out is less than one strike per license and stays with the Treasury. *)
Theorem dividend_award_correct available eligible :
  is_u64 available -> is_u64 eligible ->
  exists aw, calculate_dividend_award available eligible = Ok aw /\
    aw_available_before aw = available /\ aw_eligible_licenses aw = eligible /\
    2 * aw_dividend_pool aw <= available < 2 * aw_dividend_pool aw + 2 /\
    aw_total_reserved_strikes aw = aw_per_license_strikes aw * eligible /\
    aw_total_reserved_strikes aw + aw_undistributed_remainder_strikes aw = aw_dividend_pool aw /\
    (0 < eligible -> 0 <= aw_undistributed_remainder_strikes aw < eligible) /\
    (eligible = 0 -> aw_per_license_strikes aw = 0) /\
    aw_total_reserved_strikes aw <= available.
Proof.
  intros Ha He. unfold calculate_dividend_award, DIVIDEND_FRACTION_NUMERATOR,
    DIVIDEND_FRACTION_DENOMINATOR, checked_mul, checked_sub.
  rewrite Z.mul_1_r. destruct (Z.ltb_spec available (2 ^ 64)); [|lia]. cbn [ok_or].
  set (pool := available / 2). pose proof (Z.div_mod available 2) as Hd.
  pose proof (Z.mod_pos_bound available 2) as Hm. fold pool in Hd.
  set (per := if eligible =? 0 then 0 else pool / eligible).
  assert (0 <= per * eligible <= pool /\ (0 < eligible -> pool - per * eligible < eligible) /\
          (eligible = 0 -> per = 0)) as (Hper & Hrem & Hz).
  { unfold per. destruct (Z.eqb_spec eligible 0) as [->|]; [lia|].
    assert (0 <= pool / eligible) by (apply Z.div_pos; lia).
    pose proof (Z.mul_nonneg_nonneg (pool / eligible) eligible).
    pose proof (Z.div_mod pool eligible). pose proof (Z.mod_pos_bound pool eligible).
    rewrite (Z.mul_comm eligible) in *. lia. }
  destruct (Z.ltb_spec (per * eligible) (2 ^ 64)); [|lia]. cbn [ok_or].
  destruct (Z.leb_spec (per * eligible) pool); [|lia]. cbn [ok_or].
  eexists. split; [reflexivity|].
  cbn [aw_available_before aw_dividend_pool aw_eligible_licenses aw_per_license_strikes
       aw_total_reserved_strikes aw_undistributed_remainder_strikes].
  split_and!; try done; lia.
Qed.

(** C36: a claim is paid exactly when the license is in good standing, the owner
    has signed it, it is inside the claim window, asks for something and for no
    more than the account holds; and over any sequence of claims, honest or not,
    by whatever state of the license, what the accepted claims pay is exactly
    what left the account and what left the Treasury's reserve, so that an
    account never pays more than it was awarded (given a reserve that covers the
    account, which then never underflows). *)
Theorem dividend_claims_conserve r a t c epoch requests :
  da_claimable_strikes a <= ts_reserved_dividend_strikes t ->
  Forall (fun q => 0 <= dc_amount_strikes (cr_claim q)) requests ->
  (snd (apply_dividend_claim r a t c epoch) = Ok tt <-> claim_accepted r a c epoch) /\
  let '(a', t', paid) := run_claims a t requests in
  0 <= paid /\ da_claimable_strikes a' + paid = da_claimable_strikes a /\
  ts_reserved_dividend_strikes t' + paid = ts_reserved_dividend_strikes t /\
  ts_available_strikes t' = ts_available_strikes t.
Proof.
  intros Hsolv Hq. split.
  { destruct (claim_cases r a t c epoch) as [[Hacc [[? ->]|[? ->]]]|(e & He & -> & Hn)]; cbn; [done| |].
    - unfold claim_accepted in Hacc. lia.
    - split; [done|tauto]. }
  revert a t Hsolv. induction Hq as [|q qs Hamt _ IH]; intros a t Hsolv; cbn [run_claims]; [lia|].
  destruct (claim_cases (cr_record q) a t (cr_claim q) (cr_epoch q))
    as [[Hacc [[? ->]|[? ->]]]|(e & He & -> & Hn)]; cbn [is_ok].
  - match goal with |- context [run_claims ?a1 ?t1 qs] => specialize (IH a1 t1);
      destruct (run_claims a1 t1 qs) as [[a' t'] paid] end.
    cbn [debit da_claimable_strikes ts_reserved_dividend_strikes ts_available_strikes] in IH. lia.
  - unfold claim_accepted in Hacc. lia.
  - specialize (IH a t Hsolv). destruct (run_claims a t qs) as [[a' t'] paid]. lia.
Qed.
End life.

(** ** Witnesses: a license, signed operations and a history *)

Module demo.
Definition record : LicenseRecordV1 :=
  {| lr_version := 1; lr_status := LICENSE_STATUS_ACTIVE; lr_purchase_method := 1;
     lr_purchase_id := ZERO32; lr_owner_public_key := pad32 [Byte.x01]; lr_owner_key_sequence := 0;
     lr_mining_public_key := pad32 [Byte.x02]; lr_mining_key_sequence := 5; lr_issued_epoch := 10;
     lr_activation_epoch := 74; lr_strike_weight := 3; lr_suspended_until_epoch := 500;
     lr_revocation_epoch := 0 |}.

(** The demonstration signatures verify by comparing with key and message. *)
Definition transfer_unsigned (s : bytes) : LicenseTransferV1 :=
  {| lt_license_id := ZERO32; lt_expected_owner_sequence := 0; lt_expected_mining_sequence := 5;
     lt_new_owner_public_key := pad32 [Byte.x03]; lt_new_mining_public_key := pad32 [Byte.x04];
     lt_owner_signature := s |}.
Definition transfer : LicenseTransferV1 :=
  transfer_unsigned (sk_sign (Ed25519 := ed25519_demo) [Byte.x01]
    (LicenseTransferV1_signing_digest (SHA := sha2_checksum) (transfer_unsigned []))).

Definition rotation_unsigned (s : bytes) : MiningKeyRotateV1 :=
  {| kr_license_id := ZERO32; kr_expected_owner_sequence := 0; kr_expected_mining_sequence := 5;
     kr_new_mining_public_key := pad32 [Byte.x04]; kr_owner_signature := s |}.
Definition rotation : MiningKeyRotateV1 :=
  rotation_unsigned (sk_sign (Ed25519 := ed25519_demo) [Byte.x01]
    (MiningKeyRotateV1_signing_digest (SHA := sha2_checksum) (rotation_unsigned []))).

Definition offenses : list (Z * Z) := [(3, 100); (2, 2000); (3, 3000); (3, 3001); (1, 9)].

Definition presence_unsigned (s : bytes) : MiningPresenceV1 :=
  {| mi_network_id := MAINNET_NETWORK_ID; mi_genesis_id := MAINNET_GENESIS_ID; mi_license_id := ZERO32;
     mi_expected_mining_sequence := 5; mi_presence_epoch := 40; mi_mining_signature := s |}.
Definition presence : MiningPresenceV1 :=
  presence_unsigned (sk_sign (Ed25519 := ed25519_demo) [Byte.x02]
    (MiningPresenceV1_signing_digest (SHA := sha2_checksum) (presence_unsigned []))).

Definition account : LicenseDividendAccountV1 :=
  {| da_license_id := ZERO32; da_award_epoch := 100; da_claim_deadline_epoch := 200;
     da_claimable_strikes := 1000 |}.
Definition treasury : TreasuryStateV1 :=
  {| ts_available_strikes := 50000; ts_reserved_dividend_strikes := 7000 |}.
Definition claim_unsigned (amount : Z) (s : bytes) : DividendClaimV1 :=
  {| dc_license_id := ZERO32; dc_expected_owner_sequence := 0; dc_amount_strikes := amount;
     dc_destination_address_id := ZERO32; dc_payment_txid := ZERO32; dc_owner_signature := s |}.
Definition claim (amount : Z) : DividendClaimV1 :=
  claim_unsigned amount (sk_sign (Ed25519 := ed25519_demo) [Byte.x01]
    (DividendClaimV1_signing_digest (SHA := sha2_checksum) (claim_unsigned amount []))).
Definition request (amount epoch : Z) : claim_request :=
  {| cr_record := record; cr_claim := claim amount; cr_epoch := epoch |}.
End demo.

(** Paid, too late, overdrawn, paid, refused because of the account's balance. *)
Example demo_claims :
  snd (run_claims (SHA := sha2_checksum) (ED := ed25519_demo) demo.account demo.treasury
    [demo.request 600 120; demo.request 100 200; demo.request 401 130; demo.request 400 199;
     demo.request 1 150]) = 1000.
Proof. vm_compute. reflexivity. Qed.

Lemma demo_transfer_ok :
  snd (apply_license_transfer (SHA := sha2_checksum) (ED := ed25519_demo) demo.record demo.transfer)
    = Ok (current_keys demo.record).
Proof. vm_compute. reflexivity. Qed.

Lemma demo_rotation_ok :
  snd (apply_mining_key_rotation (SHA := sha2_checksum) (ED := ed25519_demo) demo.record demo.rotation)
    = Ok (current_keys demo.record).
Proof. vm_compute. reflexivity. Qed.

Lemma key_change_correct_witness :
  lr_owner_key_sequence (fst (apply_license_transfer (SHA := sha2_checksum) (ED := ed25519_demo)
    demo.record demo.transfer)) = 1.
Proof.
  pose proof (proj1 (proj1 (key_change_correct (SHA := sha2_checksum) (ED := ed25519_demo) demo.record
    demo.transfer demo.rotation (current_keys demo.record))) demo_transfer_ok) as H.
  destruct H as (_ & _ & _ & _ & _ & _ & _ & ->). reflexivity.
Defined.

Lemma key_change_no_replay_witness :
  let r1 := fst (apply_license_transfer (SHA := sha2_checksum) (ED := ed25519_demo) demo.record demo.transfer) in
  (exists e, apply_license_transfer (SHA := sha2_checksum) (ED := ed25519_demo) r1 demo.transfer = (r1, Err e)).
Proof.
  exact (proj1 (key_change_no_replay (SHA := sha2_checksum) (ED := ed25519_demo) demo.record _
    (current_keys demo.record)) demo.transfer demo_transfer_ok (rtc_refl _ _)).
Defined.

Lemma demo_strikes_ok : strikes_ok demo.record.
Proof. split; cbn; [lia|split; discriminate]. Qed.

Lemma strikes_invariant_witness :
  let r1 := fst (apply_offense demo.record 2 1000) in
  strikes_ok r1 /\ lr_strike_weight r1 = 5 /\ lr_suspended_until_epoch r1 = 2024.
Proof.
  assert (license_reach (SHA := sha2_checksum) (ED := ed25519_demo) demo.record
            (fst (apply_offense demo.record 2 1000))) as Hr.
  { apply rtc_once. exists (EvOffense 2 1000). constructor. }
  pose proof (strikes_invariant (SHA := sha2_checksum) (ED := ed25519_demo) demo.record _ Hr demo_strikes_ok) as (H & _).
  cbv zeta. split; [exact H|split; reflexivity].
Defined.

Lemma offenses_tally_witness :
  lr_strike_weight (apply_offenses demo.record demo.offenses) = 16 /\
  lr_status (apply_offenses demo.record demo.offenses) = LICENSE_STATUS_REVOKED.
Proof.
  assert (Forall offense_ok demo.offenses) as Hf.
  { repeat constructor; cbn; try lia; eexists; reflexivity. }
  assert (suspension_ok demo.record) as Hs by (unfold suspension_ok; cbn; lia).
  destruct (offenses_tally (SHA := sha2_checksum) (ED := ed25519_demo) demo.record demo.offenses demo_strikes_ok Hs Hf) as [H1 H2].
  split; [rewrite H1; reflexivity|]. apply H2. vm_compute. discriminate.
Defined.

Lemma presence_correct_witness :
  lr_mining_key_sequence demo.record = 5 /\
  ((mi_network_id demo.presence = MAINNET_NETWORK_ID /\ 40 = 40) \/
   collides (SHA := sha2_checksum) [presence_message demo.presence] [presence_message demo.presence]).
Proof.
  pose proof (presence_correct (SHA := sha2_checksum) (ED := ed25519_demo) demo.presence demo.presence
    demo.record MAINNET_NETWORK_ID MAINNET_GENESIS_ID 40) as [H1 H2].
  assert (presence_wf demo.presence) as Hw by (repeat split; vm_compute; congruence).
  split.
  - exact (proj1 (proj2 (proj2 (proj2 (proj2 (proj2 (proj1 H1 ltac:(vm_compute; reflexivity)))))))).
  - destruct (H2 Hw Hw eq_refl) as [(? & _)|Hc]; [left; split; reflexivity|right; exact Hc].
Defined.

Lemma dividend_award_correct_witness :
  exists aw, calculate_dividend_award 1001 7 = Ok aw /\ aw_dividend_pool aw = 500 /\
    aw_per_license_strikes aw = 71 /\ aw_undistributed_remainder_strikes aw = 3.
Proof.
  destruct (dividend_award_correct 1001 7 ltac:(lia) ltac:(lia)) as (aw & H & _).
  exists aw. split; [exact H|]. apply Ok_inj in H as <-. vm_compute. repeat split.
Defined.

Definition demo_requests : list claim_request := [demo.request 600 120; demo.request 400 199].

Lemma dividend_claims_conserve_witness :
  let '(a', t', paid) := run_claims (SHA := sha2_checksum) (ED := ed25519_demo) demo.account demo.treasury
    demo_requests in
  0 <= paid /\ da_claimable_strikes a' + paid = da_claimable_strikes demo.account /\
  ts_reserved_dividend_strikes t' + paid = ts_reserved_dividend_strikes demo.treasury /\
  ts_available_strikes t' = ts_available_strikes demo.treasury.
Proof.
  assert (Forall (fun q => 0 <= dc_amount_strikes (cr_claim q)) demo_requests) as Hf
    by (repeat constructor; cbn; lia).
  assert (da_claimable_strikes demo.account <= ts_reserved_dividend_strikes demo.treasury) as Hs
    by (cbn; lia).
  pose proof (dividend_claims_conserve (SHA := sha2_checksum) (ED := ed25519_demo) demo.record demo.account
    demo.treasury (demo.claim 600) 120 demo_requests Hs Hf) as [_ H].
  exact H.
Defined.
