(* ===== verification/Worker.v ===== *)
(** Crate [mutiny-worker], file lib.rs: the Pack L protocol between a node and
    its mining workers.

    The [Reader], the message formats, the authentication and work signatures,
    the derived identifiers and the local ticket budget.  [debug_assert_eq!] is
    not modelled; the lengths it states are proved.  A signing key is its seed.
    Projections: [wh_] for [WorkerHelloV1], [nc_] for [NodeChallengeV1], [ac_]
    and [wa_] for the assignment and its core, [rc_] and [wr_] for the result,
    [cc_] and [wc_] for the cancellation, [wj_] for [WorkRejectV1]. *)

From stdpp Require Import strings.
From S2P Require Import Prelude Crypto Smt.

Definition PACK_L_VERSION : Z := 1.

Definition WORKER_MAGIC_MAINNET : Z := 0x4D55574D.
Definition WORKER_MAGIC_TESTNET : Z := 0x4D555754.
Definition WORKER_MAGIC_DEVNET : Z := 0x4D555744.

Definition MSG_WORKER_HELLO : Z := 0x0201.
Definition MSG_NODE_CHALLENGE : Z := 0x0202.
Definition MSG_WORKER_AUTH : Z := 0x0203.
Definition MSG_NODE_ACCEPT : Z := 0x0204.
Definition MSG_WORK_ASSIGNMENT : Z := 0x0210.
Definition MSG_WORK_RESULT : Z := 0x0211.
Definition MSG_WORK_CANCEL : Z := 0x0212.
Definition MSG_WORK_REJECT : Z := 0x0213.
Definition MSG_WORKER_PING : Z := 0x0220.
Definition MSG_WORKER_PONG : Z := 0x0221.

Definition RESULT_NO_WIN : Z := 0x00.
Definition RESULT_WIN : Z := 0x01.

Definition ALGORITHM_PACK_A_ARGON2ID : Z := 0x0001.
Definition ALGORITHM_PACK_A_ARGON2ID_V1 : Z := 0x0001.

Definition WORKER_HELLO_LEN : nat := 80.
Definition NODE_CHALLENGE_LEN : nat := 174.
Definition WORK_ASSIGNMENT_CORE_LEN : nat := 278.
Definition WORK_ASSIGNMENT_LEN : nat := 406.
Definition WORK_RESULT_CORE_LEN : nat := 167.
Definition WORK_RESULT_LEN : nat := 231.
Definition WORK_CANCEL_CORE_LEN : nat := 103.
Definition WORK_CANCEL_LEN : nat := 167.
Definition WORK_REJECT_LEN : nat := 74.

Definition DOMAIN_WORKER_ID : bytes := ascii_bytes "MUTINY-WORKER-ID-V1".
Definition DOMAIN_WORKER_AUTH : bytes := ascii_bytes "MUTINY-WORKER-AUTH-V1".
Definition DOMAIN_NODE_ACCEPT : bytes := ascii_bytes "MUTINY-NODE-WORKER-ACCEPT-V1".
Definition DOMAIN_SESSION_ID : bytes := ascii_bytes "MUTINY-WORKER-SESSION-ID-V1".
Definition DOMAIN_TICKET_KEY : bytes := ascii_bytes "MUTINY-WORK-TICKET-KEY-V1".
Definition DOMAIN_ASSIGNMENT_ID : bytes := ascii_bytes "MUTINY-WORK-ASSIGNMENT-ID-V1".
Definition DOMAIN_ASSIGNMENT_SIGNATURE : bytes := ascii_bytes "MUTINY-WORK-ASSIGNMENT-V1".
Definition DOMAIN_RESULT_SIGNATURE : bytes := ascii_bytes "MUTINY-WORK-RESULT-V1".
Definition DOMAIN_CANCEL_SIGNATURE : bytes := ascii_bytes "MUTINY-WORK-CANCEL-V1".

Inductive PackLError :=
| PLInvalidLength (expected actual : nat)
| PLInvalidVersion (v : Z)
| PLInvalidField (what : String.string)
| PLInvalidSignature
| PLReplay
| OutOfBudget.

(** ** Writing and reading *)

Definition push_u16 (out : bytes) (v : Z) : bytes := out ++ be_bytes 2 v.
Definition push_u32 (out : bytes) (v : Z) : bytes := out ++ be_bytes 4 v.
Definition push_u64 (out : bytes) (v : Z) : bytes := out ++ be_bytes 8 v.

Record Reader := { rd_bytes : bytes; rd_pos : nat }.

Definition Reader_new (bs : bytes) : Reader := {| rd_bytes := bs; rd_pos := 0 |}.

Definition Reader_take (n : nat) (r : Reader) : result PackLError (bytes * Reader) :=
  let? _ := ok_or (PLInvalidField "reader overflow")
              (checked_add 64 (Z.of_nat (rd_pos r)) (Z.of_nat n)) in
  let fin := (rd_pos r + n)%nat in
  if (length (rd_bytes r) <? fin)%nat then Err (PLInvalidLength fin (length (rd_bytes r)))
  else Ok (slice (rd_pos r) fin (rd_bytes r), {| rd_bytes := rd_bytes r; rd_pos := fin |}).

Definition Reader_uint (n : nat) (r : Reader) : result PackLError (Z * Reader) :=
  let? (bs, r) := Reader_take n r in Ok (be_val bs, r).
Definition Reader_u8 : Reader -> result PackLError (Z * Reader) := Reader_uint 1.
Definition Reader_u16 : Reader -> result PackLError (Z * Reader) := Reader_uint 2.
Definition Reader_u32 : Reader -> result PackLError (Z * Reader) := Reader_uint 4.
Definition Reader_u64 : Reader -> result PackLError (Z * Reader) := Reader_uint 8.

Definition Reader_finish (r : Reader) : result PackLError unit :=
  if (rd_pos r =? length (rd_bytes r))%nat then Ok tt
  else Err (PLInvalidLength (rd_pos r) (length (rd_bytes r))).

Definition is_pack_l_message_type (message_type : Z) : bool :=
  existsb (Z.eqb message_type)
    [MSG_WORKER_HELLO; MSG_NODE_CHALLENGE; MSG_WORKER_AUTH; MSG_NODE_ACCEPT; MSG_WORK_ASSIGNMENT;
     MSG_WORK_RESULT; MSG_WORK_CANCEL; MSG_WORK_REJECT; MSG_WORKER_PING; MSG_WORKER_PONG].

(** The two checks every decoder starts with. *)
Definition check_length (len : nat) (bs : bytes) : result PackLError unit :=
  if negb (length bs =? len)%nat then Err (PLInvalidLength len (length bs)) else Ok tt.
Definition check_version (version : Z) : result PackLError unit :=
  if negb (version =? PACK_L_VERSION) then Err (PLInvalidVersion version) else Ok tt.

(** ** Hello and challenge *)

Record WorkerHelloV1 := {
  wh_network_id : Z;
  wh_worker_public_key : bytes32;
  wh_worker_nonce : bytes32;
  wh_capabilities : Z;
  wh_max_parallelism : Z;
}.

Definition WorkerHelloV1_encode (h : WorkerHelloV1) : bytes :=
  let out := [] in
  let out := push_u16 out PACK_L_VERSION in
  let out := push_u32 out (wh_network_id h) in
  let out := out ++ wh_worker_public_key h in
  let out := out ++ wh_worker_nonce h in
  let out := push_u64 out (wh_capabilities h) in
  push_u16 out (wh_max_parallelism h).

Definition WorkerHelloV1_decode (bs : bytes) : result PackLError WorkerHelloV1 :=
  let? _ := check_length WORKER_HELLO_LEN bs in
  let r := Reader_new bs in
  let? (version, r) := Reader_u16 r in
  let? _ := check_version version in
  let? (network_id, r) := Reader_u32 r in
  let? (worker_public_key, r) := Reader_take 32 r in
  let? (worker_nonce, r) := Reader_take 32 r in
  let? (capabilities, r) := Reader_u64 r in
  let? (max_parallelism, r) := Reader_u16 r in
  let? _ := Reader_finish r in
  Ok {| wh_network_id := network_id; wh_worker_public_key := worker_public_key;
        wh_worker_nonce := worker_nonce; wh_capabilities := capabilities;
        wh_max_parallelism := max_parallelism |}.

Record NodeChallengeV1 := {
  nc_network_id : Z;
  nc_node_id : bytes32;
  nc_node_public_key : bytes32;
  nc_worker_id : bytes32;
  nc_worker_nonce : bytes32;
  nc_node_nonce : bytes32;
  nc_capabilities : Z;
}.

Definition NodeChallengeV1_encode (c : NodeChallengeV1) : bytes :=
  let out := [] in
  let out := push_u16 out PACK_L_VERSION in
  let out := push_u32 out (nc_network_id c) in
  let out := out ++ nc_node_id c in
  let out := out ++ nc_node_public_key c in
  let out := out ++ nc_worker_id c in
  let out := out ++ nc_worker_nonce c in
  let out := out ++ nc_node_nonce c in
  push_u64 out (nc_capabilities c).

Definition NodeChallengeV1_decode (bs : bytes) : result PackLError NodeChallengeV1 :=
  let? _ := check_length NODE_CHALLENGE_LEN bs in
  let r := Reader_new bs in
  let? (version, r) := Reader_u16 r in
  let? _ := check_version version in
  let? (network_id, r) := Reader_u32 r in
  let? (node_id, r) := Reader_take 32 r in
  let? (node_public_key, r) := Reader_take 32 r in
  let? (worker_id, r) := Reader_take 32 r in
  let? (worker_nonce, r) := Reader_take 32 r in
  let? (node_nonce, r) := Reader_take 32 r in
  let? (capabilities, r) := Reader_u64 r in
  let? _ := Reader_finish r in
  Ok {| nc_network_id := network_id; nc_node_id := node_id; nc_node_public_key := node_public_key;
        nc_worker_id := worker_id; nc_worker_nonce := worker_nonce; nc_node_nonce := node_nonce;
        nc_capabilities := capabilities |}.

(** ** Assignments *)

Record WorkAssignmentCoreV1 := {
  ac_network_id : Z;
  ac_session_id : bytes32;
  ac_assignment_sequence : Z;
  ac_worker_id : bytes32;
  ac_node_id : bytes32;
  ac_parent_block_hash : bytes32;
  ac_parent_height : Z;
  ac_target_epoch : Z;
  ac_license_id : bytes32;
  ac_ticket_index : Z;
  ac_work_units_for_epoch : Z;
  ac_eligible_license_count : Z;
  ac_anchor_entropy : bytes32;
  ac_target : bytes32;
  ac_expires_epoch : Z;
  ac_algorithm_id : Z;
  ac_algorithm_version : Z;
}.

Definition WorkAssignmentCoreV1_encode (c : WorkAssignmentCoreV1) : bytes :=
  let out := [] in
  let out := push_u16 out PACK_L_VERSION in
  let out := push_u32 out (ac_network_id c) in
  let out := out ++ ac_session_id c in
  let out := push_u64 out (ac_assignment_sequence c) in
  let out := out ++ ac_worker_id c in
  let out := out ++ ac_node_id c in
  let out := out ++ ac_parent_block_hash c in
  let out := push_u64 out (ac_parent_height c) in
  let out := push_u64 out (ac_target_epoch c) in
  let out := out ++ ac_license_id c in
  let out := push_u16 out (ac_ticket_index c) in
  let out := push_u16 out (ac_work_units_for_epoch c) in
  let out := push_u64 out (ac_eligible_license_count c) in
  let out := out ++ ac_anchor_entropy c in
  let out := out ++ ac_target c in
  let out := push_u64 out (ac_expires_epoch c) in
  let out := push_u16 out (ac_algorithm_id c) in
  push_u16 out (ac_algorithm_version c).

Definition WorkAssignmentCoreV1_validate_shape (c : WorkAssignmentCoreV1) : result PackLError unit :=
  if ac_work_units_for_epoch c <=? ac_ticket_index c then Err OutOfBudget else
  if negb (ac_expires_epoch c =? ac_target_epoch c)
  then Err (PLInvalidField "expires_epoch must equal target_epoch") else
  if negb (ac_algorithm_id c =? ALGORITHM_PACK_A_ARGON2ID)
  then Err (PLInvalidField "unknown algorithm_id") else
  if negb (ac_algorithm_version c =? ALGORITHM_PACK_A_ARGON2ID_V1)
  then Err (PLInvalidField "unknown algorithm_version") else Ok tt.

Definition WorkAssignmentCoreV1_decode (bs : bytes) : result PackLError WorkAssignmentCoreV1 :=
  let? _ := check_length WORK_ASSIGNMENT_CORE_LEN bs in
  let r := Reader_new bs in
  let? (version, r) := Reader_u16 r in
  let? _ := check_version version in
  let? (network_id, r) := Reader_u32 r in
  let? (session_id, r) := Reader_take 32 r in
  let? (assignment_sequence, r) := Reader_u64 r in
  let? (worker_id, r) := Reader_take 32 r in
  let? (node_id, r) := Reader_take 32 r in
  let? (parent_block_hash, r) := Reader_take 32 r in
  let? (parent_height, r) := Reader_u64 r in
  let? (target_epoch, r) := Reader_u64 r in
  let? (license_id, r) := Reader_take 32 r in
  let? (ticket_index, r) := Reader_u16 r in
  let? (work_units_for_epoch, r) := Reader_u16 r in
  let? (eligible_license_count, r) := Reader_u64 r in
  let? (anchor_entropy, r) := Reader_take 32 r in
  let? (target, r) := Reader_take 32 r in
  let? (expires_epoch, r) := Reader_u64 r in
  let? (algorithm_id, r) := Reader_u16 r in
  let? (algorithm_version, r) := Reader_u16 r in
  let value := {| ac_network_id := network_id; ac_session_id := session_id;
    ac_assignment_sequence := assignment_sequence; ac_worker_id := worker_id; ac_node_id := node_id;
    ac_parent_block_hash := parent_block_hash; ac_parent_height := parent_height;
    ac_target_epoch := target_epoch; ac_license_id := license_id; ac_ticket_index := ticket_index;
    ac_work_units_for_epoch := work_units_for_epoch;
    ac_eligible_license_count := eligible_license_count; ac_anchor_entropy := anchor_entropy;
    ac_target := target; ac_expires_epoch := expires_epoch; ac_algorithm_id := algorithm_id;
    ac_algorithm_version := algorithm_version |} in
  let? _ := Reader_finish r in
  let? _ := WorkAssignmentCoreV1_validate_shape value in
  Ok value.

Record WorkAssignmentV1 := {
  wa_core : WorkAssignmentCoreV1;
  wa_ticket_key : bytes32;
  wa_assignment_id : bytes32;
  wa_node_signature : bytes;
}.

Definition WorkAssignmentV1_encode (a : WorkAssignmentV1) : bytes :=
  let out := [] in
  let out := out ++ WorkAssignmentCoreV1_encode (wa_core a) in
  let out := out ++ wa_ticket_key a in
  let out := out ++ wa_assignment_id a in
  out ++ wa_node_signature a.

(** ** Results, cancellations, rejections *)

Record WorkResultCoreV1 := {
  rc_network_id : Z;
  rc_session_id : bytes32;
  rc_assignment_id : bytes32;
  rc_ticket_key : bytes32;
  rc_worker_id : bytes32;
  rc_result_kind : Z;
  rc_argon2_proof : bytes32;
}.

Definition WorkResultCoreV1_encode (c : WorkResultCoreV1) : bytes :=
  let out := [] in
  let out := push_u16 out PACK_L_VERSION in
  let out := push_u32 out (rc_network_id c) in
  let out := out ++ rc_session_id c in
  let out := out ++ rc_assignment_id c in
  let out := out ++ rc_ticket_key c in
  let out := out ++ rc_worker_id c in
  let out := out ++ [byte_of_Z (rc_result_kind c)] in
  out ++ rc_argon2_proof c.

Definition WorkResultCoreV1_validate_shape (c : WorkResultCoreV1) : result PackLError unit :=
  if rc_result_kind c =? RESULT_NO_WIN then
    if negb (bytes_eqb (rc_argon2_proof c) (replicate 32 Byte.x00))
    then Err (PLInvalidField "NO_WIN proof must be zero") else Ok tt
  else if rc_result_kind c =? RESULT_WIN then Ok tt
  else Err (PLInvalidField "unknown result_kind").

Definition WorkResultCoreV1_decode (bs : bytes) : result PackLError WorkResultCoreV1 :=
  let? _ := check_length WORK_RESULT_CORE_LEN bs in
  let r := Reader_new bs in
  let? (version, r) := Reader_u16 r in
  let? _ := check_version version in
  let? (network_id, r) := Reader_u32 r in
  let? (session_id, r) := Reader_take 32 r in
  let? (assignment_id, r) := Reader_take 32 r in
  let? (ticket_key, r) := Reader_take 32 r in
  let? (worker_id, r) := Reader_take 32 r in
  let? (result_kind, r) := Reader_u8 r in
  let? (argon2_proof, r) := Reader_take 32 r in
  let value := {| rc_network_id := network_id; rc_session_id := session_id;
    rc_assignment_id := assignment_id; rc_ticket_key := ticket_key; rc_worker_id := worker_id;
    rc_result_kind := result_kind; rc_argon2_proof := argon2_proof |} in
  let? _ := Reader_finish r in
  let? _ := WorkResultCoreV1_validate_shape value in
  Ok value.

Record WorkResultV1 := { wr_core : WorkResultCoreV1; wr_worker_signature : bytes }.

Definition WorkResultV1_encode (w : WorkResultV1) : bytes :=
  let out := [] in
  let out := out ++ WorkResultCoreV1_encode (wr_core w) in
  out ++ wr_worker_signature w.

Definition WorkResultV1_decode (bs : bytes) : result PackLError WorkResultV1 :=
  let? _ := check_length WORK_RESULT_LEN bs in
  let? core := WorkResultCoreV1_decode (take WORK_RESULT_CORE_LEN bs) in
  let r := Reader_new (drop WORK_RESULT_CORE_LEN bs) in
  let? (worker_signature, r) := Reader_take 64 r in
  let? _ := Reader_finish r in
  Ok {| wr_core := core; wr_worker_signature := worker_signature |}.

Record WorkCancelCoreV1 := {
  cc_network_id : Z;
  cc_session_id : bytes32;
  cc_assignment_id : bytes32;
  cc_ticket_key : bytes32;
  cc_reason : Z;
}.

Definition WorkCancelCoreV1_encode (c : WorkCancelCoreV1) : bytes :=
  let out := [] in
  let out := push_u16 out PACK_L_VERSION in
  let out := push_u32 out (cc_network_id c) in
  let out := out ++ cc_session_id c in
  let out := out ++ cc_assignment_id c in
  let out := out ++ cc_ticket_key c in
  out ++ [byte_of_Z (cc_reason c)].

(** [(1..=7).contains(&x)] *)
Definition known_code (x : Z) : bool := (1 <=? x) && (x <=? 7).

Definition WorkCancelCoreV1_decode (bs : bytes) : result PackLError WorkCancelCoreV1 :=
  let? _ := check_length WORK_CANCEL_CORE_LEN bs in
  let r := Reader_new bs in
  let? (version, r) := Reader_u16 r in
  let? _ := check_version version in
  let? (network_id, r) := Reader_u32 r in
  let? (session_id, r) := Reader_take 32 r in
  let? (assignment_id, r) := Reader_take 32 r in
  let? (ticket_key, r) := Reader_take 32 r in
  let? (reason, r) := Reader_u8 r in
  let? _ := Reader_finish r in
  if negb (known_code reason) then Err (PLInvalidField "unknown cancel reason") else
  Ok {| cc_network_id := network_id; cc_session_id := session_id; cc_assignment_id := assignment_id;
        cc_ticket_key := ticket_key; cc_reason := reason |}.

Record WorkCancelV1 := { wc_core : WorkCancelCoreV1; wc_node_signature : bytes }.

Definition WorkCancelV1_encode (w : WorkCancelV1) : bytes :=
  let out := [] in
  let out := out ++ WorkCancelCoreV1_encode (wc_core w) in
  out ++ wc_node_signature w.

Definition WorkCancelV1_decode (bs : bytes) : result PackLError WorkCancelV1 :=
  let? _ := check_length WORK_CANCEL_LEN bs in
  let? core := WorkCancelCoreV1_decode (take WORK_CANCEL_CORE_LEN bs) in
  let r := Reader_new (drop WORK_CANCEL_CORE_LEN bs) in
  let? (node_signature, r) := Reader_take 64 r in
  let? _ := Reader_finish r in
  Ok {| wc_core := core; wc_node_signature := node_signature |}.

Record WorkRejectV1 := {
  wj_network_id : Z;
  wj_session_id : bytes32;
  wj_assignment_id : bytes32;
  wj_rejected_message_type : Z;
  wj_reject_code : Z;
}.

Definition WorkRejectV1_encode (j : WorkRejectV1) : bytes :=
  let out := [] in
  let out := push_u16 out PACK_L_VERSION in
  let out := push_u32 out (wj_network_id j) in
  let out := out ++ wj_session_id j in
  let out := out ++ wj_assignment_id j in
  let out := push_u16 out (wj_rejected_message_type j) in
  push_u16 out (wj_reject_code j).

Definition WorkRejectV1_decode (bs : bytes) : result PackLError WorkRejectV1 :=
  let? _ := check_length WORK_REJECT_LEN bs in
  let r := Reader_new bs in
  let? (version, r) := Reader_u16 r in
  let? _ := check_version version in
  let? (network_id, r) := Reader_u32 r in
  let? (session_id, r) := Reader_take 32 r in
  let? (assignment_id, r) := Reader_take 32 r in
  let? (rejected_message_type, r) := Reader_u16 r in
  let? (reject_code, r) := Reader_u16 r in
  let? _ := Reader_finish r in
  if negb (known_code reject_code) then Err (PLInvalidField "unknown reject code") else
  Ok {| wj_network_id := network_id; wj_session_id := session_id; wj_assignment_id := assignment_id;
        wj_rejected_message_type := rejected_message_type; wj_reject_code := reject_code |}.

(** ** Digests, signatures and validation *)

Section worker.
Context {SHA : Sha2} {ED : Ed25519}.

Definition hash_parts (domain : bytes) (parts : list bytes) : bytes32 := sha256 (domain ++ concat parts).

Definition worker_id (network_id : Z) (worker_public_key : bytes32) : bytes32 :=
  hash_parts DOMAIN_WORKER_ID [be_bytes 4 network_id; worker_public_key].

Definition WorkerHelloV1_worker_id (h : WorkerHelloV1) : bytes32 :=
  worker_id (wh_network_id h) (wh_worker_public_key h).

Definition NodeChallengeV1_validate_for_hello (c : NodeChallengeV1) (hello : WorkerHelloV1)
    : result PackLError unit :=
  if negb (nc_network_id c =? wh_network_id hello)
  then Err (PLInvalidField "challenge NetworkID mismatch") else
  if negb (bytes_eqb (nc_worker_id c) (WorkerHelloV1_worker_id hello))
  then Err (PLInvalidField "challenge WorkerID mismatch") else
  if negb (bytes_eqb (nc_worker_nonce c) (wh_worker_nonce hello))
  then Err (PLInvalidField "challenge worker_nonce mismatch") else Ok tt.

(** [VerifyingKey::from_bytes] and [verify], both errors mapped. *)
Definition verify_message (public_key message signature : bytes) : result PackLError unit :=
  if negb (vk_from_bytes public_key) then Err PLInvalidSignature
  else if vk_verify public_key message signature then Ok tt else Err PLInvalidSignature.

Definition worker_auth_message (hello : WorkerHelloV1) (challenge : NodeChallengeV1) : bytes :=
  let hello_bytes := WorkerHelloV1_encode hello in
  let challenge_bytes := NodeChallengeV1_encode challenge in
  let msg := [] in
  let msg := msg ++ DOMAIN_WORKER_AUTH in
  let msg := msg ++ hello_bytes in
  msg ++ challenge_bytes.

Definition sign_worker_auth (signing_key : bytes) (hello : WorkerHelloV1) (challenge : NodeChallengeV1)
    : bytes := sk_sign signing_key (worker_auth_message hello challenge).

Definition verify_worker_auth (worker_public_key : bytes32) (hello : WorkerHelloV1)
    (challenge : NodeChallengeV1) (signature : bytes) : result PackLError unit :=
  let? _ := NodeChallengeV1_validate_for_hello challenge hello in
  verify_message worker_public_key (worker_auth_message hello challenge) signature.

Definition node_accept_message (hello : WorkerHelloV1) (challenge : NodeChallengeV1)
    (worker_signature : bytes) : bytes :=
  let hello_bytes := WorkerHelloV1_encode hello in
  let challenge_bytes := NodeChallengeV1_encode challenge in
  let msg := [] in
  let msg := msg ++ DOMAIN_NODE_ACCEPT in
  let msg := msg ++ hello_bytes in
  let msg := msg ++ challenge_bytes in
  msg ++ worker_signature.

Definition sign_node_accept (signing_key : bytes) (hello : WorkerHelloV1) (challenge : NodeChallengeV1)
    (worker_signature : bytes) : bytes :=
  sk_sign signing_key (node_accept_message hello challenge worker_signature).

Definition verify_node_accept (node_public_key : bytes32) (hello : WorkerHelloV1)
    (challenge : NodeChallengeV1) (worker_signature signature : bytes) : result PackLError unit :=
  verify_message node_public_key (node_accept_message hello challenge worker_signature) signature.

Definition session_id (hello : WorkerHelloV1) (challenge : NodeChallengeV1)
    (worker_signature node_signature : bytes) : bytes32 :=
  let hello_bytes := WorkerHelloV1_encode hello in
  let challenge_bytes := NodeChallengeV1_encode challenge in
  hash_parts DOMAIN_SESSION_ID [hello_bytes; challenge_bytes; worker_signature; node_signature].

Definition ticket_key (network_id : Z) (parent_block_hash : bytes32) (target_epoch : Z)
    (license_id : bytes32) (ticket_index : Z) : bytes32 :=
  let network := be_bytes 4 network_id in
  let epoch := be_bytes 8 target_epoch in
  let ticket := be_bytes 2 ticket_index in
  hash_parts DOMAIN_TICKET_KEY [network; parent_block_hash; epoch; license_id; ticket].

Definition WorkAssignmentCoreV1_ticket_key (c : WorkAssignmentCoreV1) : bytes32 :=
  ticket_key (ac_network_id c) (ac_parent_block_hash c) (ac_target_epoch c) (ac_license_id c)
    (ac_ticket_index c).

Definition assignment_id (core : WorkAssignmentCoreV1) : bytes32 :=
  hash_parts DOMAIN_ASSIGNMENT_ID [WorkAssignmentCoreV1_encode core].

Definition assignment_message (core : WorkAssignmentCoreV1) (ticket_key assignment_id : bytes32) : bytes :=
  let core_bytes := WorkAssignmentCoreV1_encode core in
  let msg := [] in
  let msg := msg ++ DOMAIN_ASSIGNMENT_SIGNATURE in
  let msg := msg ++ core_bytes in
  let msg := msg ++ ticket_key in
  msg ++ assignment_id.

Definition sign_assignment (signing_key : bytes) (core : WorkAssignmentCoreV1)
    (ticket_key assignment_id : bytes32) : bytes :=
  sk_sign signing_key (assignment_message core ticket_key assignment_id).

Definition verify_assignment (node_public_key : bytes32) (core : WorkAssignmentCoreV1)
    (ticket_key assignment_id : bytes32) (signature : bytes) : result PackLError unit :=
  verify_message node_public_key (assignment_message core ticket_key assignment_id) signature.

Definition WorkAssignmentV1_new_signed (core : WorkAssignmentCoreV1) (signing_key : bytes)
    : result PackLError WorkAssignmentV1 :=
  let? _ := WorkAssignmentCoreV1_validate_shape core in
  let ticket_key := WorkAssignmentCoreV1_ticket_key core in
  let assignment_id := assignment_id core in
  let node_signature := sign_assignment signing_key core ticket_key assignment_id in
  Ok {| wa_core := core; wa_ticket_key := ticket_key; wa_assignment_id := assignment_id;
        wa_node_signature := node_signature |}.

Definition WorkAssignmentV1_validate_derived (a : WorkAssignmentV1) : result PackLError unit :=
  let? _ := WorkAssignmentCoreV1_validate_shape (wa_core a) in
  if negb (bytes_eqb (wa_ticket_key a) (WorkAssignmentCoreV1_ticket_key (wa_core a)))
  then Err (PLInvalidField "TicketKey mismatch") else
  if negb (bytes_eqb (wa_assignment_id a) (assignment_id (wa_core a)))
  then Err (PLInvalidField "AssignmentID mismatch") else Ok tt.

Definition WorkAssignmentV1_decode (bs : bytes) : result PackLError WorkAssignmentV1 :=
  let? _ := check_length WORK_ASSIGNMENT_LEN bs in
  let? core := WorkAssignmentCoreV1_decode (take WORK_ASSIGNMENT_CORE_LEN bs) in
  let r := Reader_new (drop WORK_ASSIGNMENT_CORE_LEN bs) in
  let? (ticket_key, r) := Reader_take 32 r in
  let? (assignment_id, r) := Reader_take 32 r in
  let? (node_signature, r) := Reader_take 64 r in
  let value := {| wa_core := core; wa_ticket_key := ticket_key; wa_assignment_id := assignment_id;
                  wa_node_signature := node_signature |} in
  let? _ := Reader_finish r in
  let? _ := WorkAssignmentV1_validate_derived value in
  Ok value.

Definition WorkAssignmentV1_verify_node_signature (a : WorkAssignmentV1) (node_public_key : bytes32)
    : result PackLError unit :=
  let? _ := WorkAssignmentV1_validate_derived a in
  verify_assignment node_public_key (wa_core a) (wa_ticket_key a) (wa_assignment_id a)
    (wa_node_signature a).

Definition result_message (core : WorkResultCoreV1) : bytes :=
  let msg := [] in
  let msg := msg ++ DOMAIN_RESULT_SIGNATURE in
  msg ++ WorkResultCoreV1_encode core.

Definition WorkResultV1_new_signed (core : WorkResultCoreV1) (signing_key : bytes)
    : result PackLError WorkResultV1 :=
  let? _ := WorkResultCoreV1_validate_shape core in
  Ok {| wr_core := core; wr_worker_signature := sk_sign signing_key (result_message core) |}.

Definition WorkResultV1_verify_worker_signature (w : WorkResultV1) (worker_public_key : bytes32)
    : result PackLError unit :=
  let? _ := WorkResultCoreV1_validate_shape (wr_core w) in
  verify_message worker_public_key (result_message (wr_core w)) (wr_worker_signature w).

Definition cancel_message (core : WorkCancelCoreV1) : bytes :=
  let msg := [] in
  let msg := msg ++ DOMAIN_CANCEL_SIGNATURE in
  msg ++ WorkCancelCoreV1_encode core.

Definition WorkCancelV1_new_signed (core : WorkCancelCoreV1) (signing_key : bytes)
    : result PackLError WorkCancelV1 :=
  if negb (known_code (cc_reason core)) then Err (PLInvalidField "unknown cancel reason") else
  Ok {| wc_core := core; wc_node_signature := sk_sign signing_key (cancel_message core) |}.

Definition WorkCancelV1_verify_node_signature (w : WorkCancelV1) (node_public_key : bytes32)
    : result PackLError unit :=
  verify_message node_public_key (cancel_message (wc_core w)) (wc_node_signature w).

(** [TicketBudget]: the [BTreeSet] of ticket keys. *)
Definition TicketBudget : Type := gset bytes.

Definition TicketBudget_reserve (b : TicketBudget) (network_id : Z) (parent_block_hash : bytes32)
    (target_epoch : Z) (license_id : bytes32) (ticket_index work_units_for_epoch : Z)
    : TicketBudget * result PackLError (bytes32 * bool) :=
  if work_units_for_epoch <=? ticket_index then (b, Err OutOfBudget) else
  let key := ticket_key network_id parent_block_hash target_epoch license_id ticket_index in
  let is_new_unique_ticket := negb (bool_decide (key ∈ b)) in
  ({[key]} ∪ b, Ok (key, is_new_unique_ticket)).

Definition TicketBudget_contains (b : TicketBudget) (key : bytes32) : bool := bool_decide (key ∈ b).
Definition TicketBudget_unique_ticket_count (b : TicketBudget) : Z := Z.of_nat (size b).
End worker.

(** ** The reader

    [rest r] is what has not been read. *)

Definition rest (r : Reader) : bytes := drop (rd_pos r) (rd_bytes r).
Definition reader_ok (r : Reader) : Prop :=
  (rd_pos r <= length (rd_bytes r))%nat /\ Z.of_nat (length (rd_bytes r)) < 2 ^ 64.

Lemma rest_new bs : rest (Reader_new bs) = bs.
Proof. apply drop_0. Qed.

Lemma reader_ok_new bs : Z.of_nat (length bs) < 2 ^ 64 -> reader_ok (Reader_new bs).
Proof. split; cbn; [lia|done]. Qed.

Lemma Reader_take_ok n r a r' :
  Reader_take n r = Ok (a, r') -> rest r = a ++ rest r' /\ length a = n.
Proof.
  unfold Reader_take. intros H. inv_ok. bool_to_prop. unfold rest. cbn [rd_bytes rd_pos].
  split; [|rewrite length_slice; lia].
  unfold slice. rewrite <- drop_drop. replace (rd_pos r + n - rd_pos r)%nat with n by lia.
  by rewrite take_drop.
Qed.

Lemma Reader_take_app n r a t :
  reader_ok r -> rest r = a ++ t -> length a = n ->
  exists r', Reader_take n r = Ok (a, r') /\ reader_ok r' /\ rest r' = t.
Proof.
  unfold reader_ok, rest, Reader_take. intros [Hp Hs] Hr Hn.
  assert (rd_pos r + n <= length (rd_bytes r))%nat as Hl.
  { apply (f_equal length) in Hr. rewrite length_drop, length_app in Hr. lia. }
  unfold checked_add. destruct (Z.ltb_spec (Z.of_nat (rd_pos r) + Z.of_nat n) (2 ^ 64)); [|lia].
  cbn [ok_or]. destruct (Nat.ltb_spec (length (rd_bytes r)) (rd_pos r + n)); [lia|].
  exists {| rd_bytes := rd_bytes r; rd_pos := rd_pos r + n |}. cbn [rd_bytes rd_pos].
  split; [|split; [|rewrite <- drop_drop, Hr; by apply drop_app_exact]].
  - do 2 f_equal. unfold slice. rewrite Hr. replace (rd_pos r + n - rd_pos r)%nat with n by lia.
    by apply take_app_exact.
  - cbn. lia.
Qed.

Lemma Reader_uint_ok n r v r' :
  Reader_uint n r = Ok (v, r') -> rest r = be_bytes n v ++ rest r' /\ 0 <= v < 256 ^ Z.of_nat n.
Proof.
  unfold Reader_uint. intros H. inv_ok.
  match goal with E : Reader_take _ _ = Ok _ |- _ => apply Reader_take_ok in E as [E Hn] end.
  rewrite be_bytes_be_val by done. split; [done|by apply be_val_range].
Qed.

Lemma Reader_uint_app n r v t :
  reader_ok r -> rest r = be_bytes n v ++ t -> 0 <= v < 256 ^ Z.of_nat n ->
  exists r', Reader_uint n r = Ok (v, r') /\ reader_ok r' /\ rest r' = t.
Proof.
  intros Hr He Hv. unfold Reader_uint.
  destruct (Reader_take_app n r (be_bytes n v) t) as (r' & -> & ? & ?); [done..|len|].
  rewrite be_val_be_bytes by done. by exists r'.
Qed.

Lemma Reader_finish_iff r : reader_ok r -> Reader_finish r = Ok tt <-> rest r = [].
Proof.
  intros [Hp _]. unfold Reader_finish, rest. destruct (Nat.eqb_spec (rd_pos r) (length (rd_bytes r))).
  - split; [|done]. intros _. by apply drop_ge; lia.
  - split; [done|]. intros H. apply (f_equal length) in H. rewrite length_drop in H. cbn in H. lia.
Qed.

Lemma Reader_finish_ok r u : Reader_finish r = Ok u -> rest r = [].
Proof.
  unfold Reader_finish, rest. destruct (Nat.eqb_spec (rd_pos r) (length (rd_bytes r))); [|done].
  intros _. by apply drop_ge; lia.
Qed.

(** Reading backwards from a successful decoder. *)
Ltac reader_inv :=
  repeat match goal with
  | H : Reader_take _ _ = Ok (_, _) |- _ => apply Reader_take_ok in H as [? ?]
  | H : Reader_u8 _ = Ok (_, _) |- _ => apply (Reader_uint_ok 1) in H as [? ?]
  | H : Reader_u16 _ = Ok (_, _) |- _ => apply (Reader_uint_ok 2) in H as [? ?]
  | H : Reader_u32 _ = Ok (_, _) |- _ => apply (Reader_uint_ok 4) in H as [? ?]
  | H : Reader_u64 _ = Ok (_, _) |- _ => apply (Reader_uint_ok 8) in H as [? ?]
  | H : Reader_finish _ = Ok _ |- _ => apply Reader_finish_ok in H
  | H : check_version ?v = Ok _ |- _ => unfold check_version in H; destruct (Z.eqb_spec v PACK_L_VERSION); [subst v; clear H|done]
  | H : check_length ?n ?bs = Ok _ |- _ => unfold check_length in H; destruct (Nat.eqb_spec (length bs) n); [clear H|done]
  end.

(** The bytes of a decoder's input, field by field. *)
Ltac reader_bytes bs :=
  rewrite <- (rest_new bs);
  repeat match goal with H : rest ?r = _ |- context [rest ?r] => rewrite H; clear H end;
  rewrite ?app_nil_r.

(** Starting a decoder on an encoding, and one step of it. *)
Lemma rest_new_nil bs : rest (Reader_new bs) = bs ++ [].
Proof. by rewrite rest_new, app_nil_r. Qed.

Ltac reader_start :=
  match goal with
  | |- context [Reader_new ?bs] =>
      let Hr := fresh "Hr" in let He := fresh "He" in
      assert (reader_ok (Reader_new bs)) as Hr by (apply reader_ok_new; len);
      pose proof (rest_new_nil bs) as He; rewrite <- ?app_assoc in He;
      generalize dependent (Reader_new bs); intros ? ? ?
  end.

Ltac reader_step :=
  match goal with
  | Hr : reader_ok ?r, He : rest ?r = [] |- context [Reader_finish ?r] =>
      rewrite (proj2 (Reader_finish_iff r Hr) He); clear Hr He
  | Hr : reader_ok ?r, He : rest ?r = be_bytes ?n ?v ++ _ |- _ =>
      let E := fresh in
      destruct (Reader_uint_app n r v _ Hr He) as (? & E & ? & ?); [solve [done|by split]|];
      match type of E with _ = ?res =>
        first [change (Reader_u8 r = res) in E|change (Reader_u16 r = res) in E
              |change (Reader_u32 r = res) in E|change (Reader_u64 r = res) in E] end;
      rewrite E; clear E Hr He
  | Hr : reader_ok ?r, He : rest ?r = _ ++ _ |- context [Reader_take ?n ?r] =>
      destruct (Reader_take_app n r _ _ Hr He) as (? & -> & ? & ?); [solve [done|len]|clear Hr He]
  end; cbn [check_version PACK_L_VERSION Z.eqb Pos.eqb negb].
Ltac reader_run := reader_start; repeat reader_step.

(** The length check of a decoder on a message of that length. *)
Lemma check_length_ok n bs : length bs = n -> check_length n bs = Ok tt.
Proof. intros <-. unfold check_length. by rewrite Nat.eqb_refl. Qed.

Ltac norm_push :=
  unfold push_u16, push_u32, push_u64 in *; rewrite ?app_nil_l, <- ?app_assoc in *.

(** ** Well-formed messages *)

Definition hello_wf (h : WorkerHelloV1) : Prop :=
  is_u32 (wh_network_id h) /\ is32 (wh_worker_public_key h) /\ is32 (wh_worker_nonce h) /\
  is_u64 (wh_capabilities h) /\ is_u16 (wh_max_parallelism h).

Lemma hello_codec bs h :
  WorkerHelloV1_decode bs = Ok h <-> hello_wf h /\ WorkerHelloV1_encode h = bs.
Proof.
  unfold WorkerHelloV1_decode, WorkerHelloV1_encode, hello_wf. norm_push. split.
  - intros H. inv_ok. reader_inv.
    cbn [wh_network_id wh_worker_public_key wh_worker_nonce wh_capabilities wh_max_parallelism].
    split; [done|]. reader_bytes bs. done.
  - intros [Hw <-]. destruct Hw as (? & ? & ? & ? & ?).
    rewrite check_length_ok by (unfold WORKER_HELLO_LEN; len). reader_run. by destruct h.
Qed.

Definition challenge_wf (c : NodeChallengeV1) : Prop :=
  is_u32 (nc_network_id c) /\ is32 (nc_node_id c) /\ is32 (nc_node_public_key c) /\
  is32 (nc_worker_id c) /\ is32 (nc_worker_nonce c) /\ is32 (nc_node_nonce c) /\
  is_u64 (nc_capabilities c).

Lemma challenge_codec bs c :
  NodeChallengeV1_decode bs = Ok c <-> challenge_wf c /\ NodeChallengeV1_encode c = bs.
Proof.
  unfold NodeChallengeV1_decode, NodeChallengeV1_encode, challenge_wf. norm_push. split.
  - intros H. inv_ok. reader_inv.
    cbn [nc_network_id nc_node_id nc_node_public_key nc_worker_id nc_worker_nonce nc_node_nonce
         nc_capabilities].
    split; [done|]. reader_bytes bs. done.
  - intros [Hw <-]. destruct Hw as (? & ? & ? & ? & ? & ? & ?).
    rewrite check_length_ok by (unfold NODE_CHALLENGE_LEN; len). reader_run. by destruct c.
Qed.

(** A core decoder accepts a whole message; [shape] is its validation. *)
Definition assignment_core_wf (c : WorkAssignmentCoreV1) : Prop :=
  (is_u32 (ac_network_id c) /\ is32 (ac_session_id c) /\ is_u64 (ac_assignment_sequence c) /\
   is32 (ac_worker_id c) /\ is32 (ac_node_id c) /\ is32 (ac_parent_block_hash c) /\
   is_u64 (ac_parent_height c) /\ is_u64 (ac_target_epoch c) /\ is32 (ac_license_id c) /\
   is_u16 (ac_ticket_index c) /\ is_u16 (ac_work_units_for_epoch c) /\
   is_u64 (ac_eligible_license_count c) /\ is32 (ac_anchor_entropy c) /\ is32 (ac_target c) /\
   is_u64 (ac_expires_epoch c) /\ is_u16 (ac_algorithm_id c) /\ is_u16 (ac_algorithm_version c)) /\
  WorkAssignmentCoreV1_validate_shape c = Ok tt.

Lemma assignment_core_length c :
  assignment_core_wf c -> length (WorkAssignmentCoreV1_encode c) = WORK_ASSIGNMENT_CORE_LEN.
Proof.
  intros [(?&?&?&?&?&?&?&?&?&?&?&?&?&?&?&?&?) _]. unfold WorkAssignmentCoreV1_encode. norm_push.
  unfold WORK_ASSIGNMENT_CORE_LEN. len.
Qed.

Lemma unit_ok {E} (r : result E unit) u : r = Ok u -> r = Ok tt.
Proof. by destruct u. Qed.

Lemma assignment_core_codec bs c :
  WorkAssignmentCoreV1_decode bs = Ok c <-> assignment_core_wf c /\ WorkAssignmentCoreV1_encode c = bs.
Proof.
  split.
  - unfold WorkAssignmentCoreV1_decode, assignment_core_wf. intros H. inv_ok.
    match goal with E : WorkAssignmentCoreV1_validate_shape _ = _ |- _ => rename E into Hshape end.
    apply unit_ok in Hshape. reader_inv. split.
    + split; [|exact Hshape].
      cbn [ac_network_id ac_session_id ac_assignment_sequence ac_worker_id ac_node_id
           ac_parent_block_hash ac_parent_height ac_target_epoch ac_license_id ac_ticket_index
           ac_work_units_for_epoch ac_eligible_license_count ac_anchor_entropy ac_target
           ac_expires_epoch ac_algorithm_id ac_algorithm_version].
      split_and!; lia || done.
    + unfold WorkAssignmentCoreV1_encode. norm_push.
      cbn [ac_network_id ac_session_id ac_assignment_sequence ac_worker_id ac_node_id
           ac_parent_block_hash ac_parent_height ac_target_epoch ac_license_id ac_ticket_index
           ac_work_units_for_epoch ac_eligible_license_count ac_anchor_entropy ac_target
           ac_expires_epoch ac_algorithm_id ac_algorithm_version].
      reader_bytes bs. done.
  - intros [Hw <-]. pose proof (assignment_core_length c Hw) as Hlen.
    destruct Hw as [(?&?&?&?&?&?&?&?&?&?&?&?&?&?&?&?&?) Hshape].
    unfold WorkAssignmentCoreV1_decode. rewrite check_length_ok by done. clear Hlen.
    unfold WorkAssignmentCoreV1_encode. norm_push. reader_run.
    match goal with |- context [WorkAssignmentCoreV1_validate_shape ?v] =>
      replace v with c by (by destruct c) end.
    by rewrite Hshape.
Qed.

Definition result_core_wf (c : WorkResultCoreV1) : Prop :=
  (is_u32 (rc_network_id c) /\ is32 (rc_session_id c) /\ is32 (rc_assignment_id c) /\
   is32 (rc_ticket_key c) /\ is32 (rc_worker_id c) /\ is_u8 (rc_result_kind c) /\
   is32 (rc_argon2_proof c)) /\
  WorkResultCoreV1_validate_shape c = Ok tt.

Lemma be_byte v : [byte_of_Z v] = be_bytes 1 v.
Proof. done. Qed.

Lemma result_core_codec bs c :
  WorkResultCoreV1_decode bs = Ok c <-> result_core_wf c /\ WorkResultCoreV1_encode c = bs.
Proof.
  unfold WorkResultCoreV1_encode. rewrite be_byte. split.
  - unfold WorkResultCoreV1_decode, result_core_wf. intros H. inv_ok.
    match goal with E : WorkResultCoreV1_validate_shape _ = _ |- _ => rename E into Hshape end.
    apply unit_ok in Hshape. reader_inv. norm_push.
    cbn [rc_network_id rc_session_id rc_assignment_id rc_ticket_key rc_worker_id rc_result_kind
         rc_argon2_proof].
    split; [split; [done|exact Hshape]|]. reader_bytes bs. done.
  - intros [[(?&?&?&?&?&?&?) Hshape] <-]. unfold WorkResultCoreV1_decode. norm_push.
    rewrite check_length_ok by (unfold WORK_RESULT_CORE_LEN; len). reader_run.
    match goal with |- context [WorkResultCoreV1_validate_shape ?v] =>
      replace v with c by (by destruct c) end.
    by rewrite Hshape.
Qed.

Lemma result_core_length c :
  result_core_wf c -> length (WorkResultCoreV1_encode c) = WORK_RESULT_CORE_LEN.
Proof.
  intros [(?&?&?&?&?&?&?) _]. unfold WorkResultCoreV1_encode. norm_push.
  unfold WORK_RESULT_CORE_LEN. len.
Qed.

Definition cancel_core_wf (c : WorkCancelCoreV1) : Prop :=
  is_u32 (cc_network_id c) /\ is32 (cc_session_id c) /\ is32 (cc_assignment_id c) /\
  is32 (cc_ticket_key c) /\ 1 <= cc_reason c <= 7.

Lemma cancel_core_codec bs c :
  WorkCancelCoreV1_decode bs = Ok c <-> cancel_core_wf c /\ WorkCancelCoreV1_encode c = bs.
Proof.
  unfold WorkCancelCoreV1_encode. rewrite be_byte. unfold WorkCancelCoreV1_decode, cancel_core_wf.
  norm_push. split.
  - intros H. inv_ok. unfold known_code in *. bool_to_prop. reader_inv.
    cbn [cc_network_id cc_session_id cc_assignment_id cc_ticket_key cc_reason].
    split; [done|]. reader_bytes bs. done.
  - intros [(?&?&?&?&?&?) <-]. assert (is_u8 (cc_reason c)) by lia.
    rewrite check_length_ok by (unfold WORK_CANCEL_CORE_LEN; len). reader_run.
    unfold known_code. destruct (Z.leb_spec 1 (cc_reason c)), (Z.leb_spec (cc_reason c) 7); try lia.
    by destruct c.
Qed.

Lemma cancel_core_length c :
  cancel_core_wf c -> length (WorkCancelCoreV1_encode c) = WORK_CANCEL_CORE_LEN.
Proof.
  intros (?&?&?&?&?). unfold WorkCancelCoreV1_encode. norm_push. unfold WORK_CANCEL_CORE_LEN. len.
Qed.

Definition reject_wf (j : WorkRejectV1) : Prop :=
  is_u32 (wj_network_id j) /\ is32 (wj_session_id j) /\ is32 (wj_assignment_id j) /\
  is_u16 (wj_rejected_message_type j) /\ 1 <= wj_reject_code j <= 7.

Lemma reject_codec bs j :
  WorkRejectV1_decode bs = Ok j <-> reject_wf j /\ WorkRejectV1_encode j = bs.
Proof.
  unfold WorkRejectV1_decode, WorkRejectV1_encode, reject_wf. norm_push. split.
  - intros H. inv_ok. unfold known_code in *. bool_to_prop. reader_inv.
    cbn [wj_network_id wj_session_id wj_assignment_id wj_rejected_message_type wj_reject_code].
    split; [done|]. reader_bytes bs. done.
  - intros [(?&?&?&?&?&?) <-]. assert (is_u16 (wj_reject_code j)) by lia.
    rewrite check_length_ok by (unfold WORK_REJECT_LEN; len). reader_run.
    unfold known_code. destruct (Z.leb_spec 1 (wj_reject_code j)), (Z.leb_spec (wj_reject_code j) 7); try lia.
    by destruct j.
Qed.

(** ** Signed messages: a core, then fields of fixed length *)

Definition result_wf (w : WorkResultV1) : Prop :=
  result_core_wf (wr_core w) /\ length (wr_worker_signature w) = 64%nat.

Lemma result_codec bs w :
  WorkResultV1_decode bs = Ok w <-> result_wf w /\ WorkResultV1_encode w = bs.
Proof.
  unfold WorkResultV1_decode, WorkResultV1_encode, result_wf. norm_push. split.
  - intros H. inv_ok.
    match goal with E : WorkResultCoreV1_decode _ = Ok _ |- _ => apply result_core_codec in E as [Hc He] end.
    reader_inv. cbn [wr_core wr_worker_signature]. split; [done|]. rewrite He.
    rewrite <- (take_drop WORK_RESULT_CORE_LEN bs) at 2. f_equal.
    reader_bytes (drop WORK_RESULT_CORE_LEN bs). done.
  - intros [[Hc Hs] <-]. pose proof (result_core_length _ Hc) as Hl.
    rewrite check_length_ok by (rewrite length_app, Hl, Hs; done).
    rewrite (take_app_exact WORK_RESULT_CORE_LEN), (drop_app_exact WORK_RESULT_CORE_LEN) by done.
    rewrite (proj2 (result_core_codec _ (wr_core w))) by done. reader_run. by destruct w.
Qed.

Definition cancel_wf (w : WorkCancelV1) : Prop :=
  cancel_core_wf (wc_core w) /\ length (wc_node_signature w) = 64%nat.

Lemma cancel_codec bs w :
  WorkCancelV1_decode bs = Ok w <-> cancel_wf w /\ WorkCancelV1_encode w = bs.
Proof.
  unfold WorkCancelV1_decode, WorkCancelV1_encode, cancel_wf. norm_push. split.
  - intros H. inv_ok.
    match goal with E : WorkCancelCoreV1_decode _ = Ok _ |- _ => apply cancel_core_codec in E as [Hc He] end.
    reader_inv. cbn [wc_core wc_node_signature]. split; [done|]. rewrite He.
    rewrite <- (take_drop WORK_CANCEL_CORE_LEN bs) at 2. f_equal.
    reader_bytes (drop WORK_CANCEL_CORE_LEN bs). done.
  - intros [[Hc Hs] <-]. pose proof (cancel_core_length _ Hc) as Hl.
    rewrite check_length_ok by (rewrite length_app, Hl, Hs; done).
    rewrite (take_app_exact WORK_CANCEL_CORE_LEN), (drop_app_exact WORK_CANCEL_CORE_LEN) by done.
    rewrite (proj2 (cancel_core_codec _ (wc_core w))) by done. reader_run. by destruct w.
Qed.

Section properties.
Context {SHA : Sha2} {ED : Ed25519}.

Lemma hash_parts_length d ps : length (hash_parts d ps) = 32%nat.
Proof. apply sha256_length. Qed.

Lemma validate_derived_iff a :
  WorkAssignmentV1_validate_derived a = Ok tt <->
  WorkAssignmentCoreV1_validate_shape (wa_core a) = Ok tt /\
  wa_ticket_key a = WorkAssignmentCoreV1_ticket_key (wa_core a) /\
  wa_assignment_id a = assignment_id (wa_core a).
Proof.
  unfold WorkAssignmentV1_validate_derived.
  destruct (WorkAssignmentCoreV1_validate_shape (wa_core a)) as [[]|]; [|naive_solver].
  destruct (bytes_eqb (wa_ticket_key a) _) eqn:E1; bool_to_prop; [|naive_solver].
  destruct (bytes_eqb (wa_assignment_id a) _) eqn:E2; bool_to_prop; naive_solver.
Qed.

Definition assignment_wf (a : WorkAssignmentV1) : Prop :=
  assignment_core_wf (wa_core a) /\ length (wa_node_signature a) = 64%nat /\
  WorkAssignmentV1_validate_derived a = Ok tt.

Lemma assignment_codec bs a :
  WorkAssignmentV1_decode bs = Ok a <-> assignment_wf a /\ WorkAssignmentV1_encode a = bs.
Proof.
  split.
  - unfold WorkAssignmentV1_decode, assignment_wf. intros H. inv_ok.
    match goal with E : WorkAssignmentCoreV1_decode _ = Ok _ |- _ =>
      apply assignment_core_codec in E as [Hc He] end.
    match goal with E : WorkAssignmentV1_validate_derived _ = _ |- _ => rename E into Hd end.
    apply unit_ok in Hd. reader_inv. split; [by cbn [wa_core wa_node_signature]|].
    unfold WorkAssignmentV1_encode. norm_push.
    cbn [wa_core wa_ticket_key wa_assignment_id wa_node_signature]. rewrite He.
    rewrite <- (take_drop WORK_ASSIGNMENT_CORE_LEN bs) at 2. f_equal.
    reader_bytes (drop WORK_ASSIGNMENT_CORE_LEN bs). done.
  - intros [(Hc & Hs & Hd) <-]. pose proof (assignment_core_length _ Hc) as Hl.
    pose proof Hd as Hd2. apply validate_derived_iff in Hd2 as (_ & Hk & Hi).
    assert (length (wa_ticket_key a) = 32%nat) by (rewrite Hk; apply hash_parts_length).
    assert (length (wa_assignment_id a) = 32%nat) by (rewrite Hi; apply hash_parts_length).
    unfold WorkAssignmentV1_decode, WorkAssignmentV1_encode. norm_push.
    rewrite check_length_ok by (rewrite !length_app, Hl, Hs; unfold WORK_ASSIGNMENT_LEN, WORK_ASSIGNMENT_CORE_LEN; lia).
    rewrite (take_app_exact WORK_ASSIGNMENT_CORE_LEN), (drop_app_exact WORK_ASSIGNMENT_CORE_LEN) by done.
    rewrite (proj2 (assignment_core_codec _ (wa_core a))) by done. clear Hk Hi. reader_run.
    match goal with |- context [WorkAssignmentV1_validate_derived ?v] =>
      replace v with a by (by destruct a) end.
    by rewrite Hd.
Qed.

(** The Pack L messages are canonical.  Each of the six decoders accepts exactly
    the encodings of well-formed messages: right length, version 1, every field
    at its width and the message's own rules (ticket inside the budget, known
    algorithm, zero proof of a lost ticket, known codes, derived identifiers
    that match).  So no two byte strings carry one message. *)
Theorem worker_messages_canonical bs :
  (forall h, WorkerHelloV1_decode bs = Ok h <-> hello_wf h /\ WorkerHelloV1_encode h = bs) /\
  (forall c, NodeChallengeV1_decode bs = Ok c <-> challenge_wf c /\ NodeChallengeV1_encode c = bs) /\
  (forall a, WorkAssignmentV1_decode bs = Ok a <-> assignment_wf a /\ WorkAssignmentV1_encode a = bs) /\
  (forall w, WorkResultV1_decode bs = Ok w <-> result_wf w /\ WorkResultV1_encode w = bs) /\
  (forall w, WorkCancelV1_decode bs = Ok w <-> cancel_wf w /\ WorkCancelV1_encode w = bs) /\
  (forall j, WorkRejectV1_decode bs = Ok j <-> reject_wf j /\ WorkRejectV1_encode j = bs).
Proof.
  split_and!; intros; [apply hello_codec|apply challenge_codec|apply assignment_codec
    |apply result_codec|apply cancel_codec|apply reject_codec].
Qed.

(** ** Signatures *)

Definition SIGN_DOMAINS : list bytes :=
  [DOMAIN_WORKER_AUTH; DOMAIN_NODE_ACCEPT; DOMAIN_ASSIGNMENT_SIGNATURE; DOMAIN_RESULT_SIGNATURE;
   DOMAIN_CANCEL_SIGNATURE].

Lemma sign_domains_prefix_free : prefix_free SIGN_DOMAINS = true.
Proof. vm_compute. reflexivity. Qed.

Lemma app_prefix_cases (d e x y : bytes) : d ++ x = e ++ y -> d `prefix_of` e \/ e `prefix_of` d.
Proof.
  intros H. destruct (decide (length d <= length e)%nat) as [Hl|Hl].
  - left. exists (drop (length d) e). apply (f_equal (take (length d))) in H.
    rewrite take_app_length, take_app_le in H by done. rewrite H at 1. by rewrite take_drop.
  - right. exists (drop (length e) d). apply (f_equal (take (length e))) in H.
    rewrite take_app_length, take_app_le in H by lia. rewrite <- H at 1. by rewrite take_drop.
Qed.

(** Messages signed for different purposes are different. *)
Lemma sign_domain_inj d e x y :
  d ∈ SIGN_DOMAINS -> e ∈ SIGN_DOMAINS -> d ++ x = e ++ y -> d = e.
Proof.
  intros Hd He H. pose proof sign_domains_prefix_free as Hf. unfold prefix_free in Hf.
  rewrite forallb_forall in Hf.
  assert (forall a b, a ∈ SIGN_DOMAINS -> b ∈ SIGN_DOMAINS -> a `prefix_of` b -> a = b) as Hp.
  { intros a b Ha Hb Hab. apply list_elem_of_In, Hf in Ha. cbn beta in Ha.
    rewrite forallb_forall in Ha. apply list_elem_of_In, Ha in Hb.
    apply orb_true_iff in Hb as [?%bool_decide_eq_true|Hn]; [done|].
    by apply negb_true_iff, bool_decide_eq_false in Hn. }
  destruct (app_prefix_cases d e x y H); [|symmetry]; by apply Hp.
Qed.

Lemma hello_length h : hello_wf h -> length (WorkerHelloV1_encode h) = WORKER_HELLO_LEN.
Proof.
  intros (?&?&?&?&?). unfold WorkerHelloV1_encode. norm_push. unfold WORKER_HELLO_LEN. len.
Qed.

Lemma challenge_length c : challenge_wf c -> length (NodeChallengeV1_encode c) = NODE_CHALLENGE_LEN.
Proof.
  intros (?&?&?&?&?&?&?). unfold NodeChallengeV1_encode. norm_push. unfold NODE_CHALLENGE_LEN. len.
Qed.

(** Canonical decoders make encoders injective. *)
Lemma codec_inj {A} (dec : bytes -> result PackLError A) (enc : A -> bytes) (wf : A -> Prop) a b :
  (forall bs x, dec bs = Ok x <-> wf x /\ enc x = bs) -> wf a -> wf b -> enc a = enc b -> a = b.
Proof.
  intros Hc Ha Hb He. pose proof (proj2 (Hc (enc a) a) (conj Ha eq_refl)) as H1.
  rewrite (proj2 (Hc (enc a) b) (conj Hb (eq_sym He))) in H1. by apply Ok_inj in H1.
Qed.

Lemma hello_challenge_inj h c h' c' t t' :
  hello_wf h -> hello_wf h' -> challenge_wf c -> challenge_wf c' ->
  WorkerHelloV1_encode h ++ NodeChallengeV1_encode c ++ t =
  WorkerHelloV1_encode h' ++ NodeChallengeV1_encode c' ++ t' -> h = h' /\ c = c' /\ t = t'.
Proof.
  intros Hh Hh' Hc Hc' He.
  apply app_inj_len in He as [E1 He]; [|by rewrite !hello_length].
  apply app_inj_len in He as [E2 E3]; [|by rewrite !challenge_length].
  split_and!; [|..|done].
  - by apply (codec_inj _ _ _ _ _ hello_codec).
  - by apply (codec_inj _ _ _ _ _ challenge_codec).
Qed.

Lemma verify_message_ok pk m s :
  verify_message pk m s = Ok tt <-> vk_from_bytes pk = true /\ vk_verify pk m s = true.
Proof. unfold verify_message. destruct (vk_from_bytes pk), (vk_verify pk m s); naive_solver. Qed.

Lemma verify_message_signed sk m : verify_message (sk_public sk) m (sk_sign sk m) = Ok tt.
Proof. apply verify_message_ok. split; [apply sk_public_valid|apply sk_sign_verify]. Qed.

(** The hashed messages of a session id and of a ticket key. *)
Definition session_message (h : WorkerHelloV1) (c : NodeChallengeV1) (ws ns : bytes) : bytes :=
  DOMAIN_SESSION_ID ++ concat [WorkerHelloV1_encode h; NodeChallengeV1_encode c; ws; ns].

Definition ticket_message (n : Z) (p : bytes32) (e : Z) (l : bytes32) (i : Z) : bytes :=
  DOMAIN_TICKET_KEY ++ concat [be_bytes 4 n; p; be_bytes 8 e; l; be_bytes 2 i].

(** A session id determines the handshake. *)
Lemma session_id_inj_or h c ws ns h' c' ws' ns' :
  hello_wf h -> hello_wf h' -> challenge_wf c -> challenge_wf c' -> length ws = length ws' ->
  session_id h c ws ns = session_id h' c' ws' ns' ->
  (h = h' /\ c = c' /\ ws = ws' /\ ns = ns') \/ collides [session_message h c ws ns] [session_message h' c' ws' ns'].
Proof.
  intros Hh Hh' Hc Hc' Hws [He|]%sha256_inj_or; [left|by right]. apply app_inv_head in He.
  cbn [concat] in He. apply hello_challenge_inj in He as (-> & -> & He); [|done..].
  apply app_inj_len in He as [-> He]; [|done]. by rewrite !app_nil_r in He.
Qed.

(** Pack L signatures.  What a node or worker signs for an assignment, result or
    cancellation survives the wire and is accepted under its key; a session id
    determines hello, challenge and both signatures (or the two hashed messages
    collide), the authentication message determines hello and challenge, and a
    message signed for one purpose is never a message of another purpose. *)
Theorem pack_l_signatures sk core rcore ccore h c h' c' ws ws' ns ns' :
  (forall a, assignment_core_wf core -> WorkAssignmentV1_new_signed core sk = Ok a ->
     WorkAssignmentV1_decode (WorkAssignmentV1_encode a) = Ok a /\
     WorkAssignmentV1_verify_node_signature a (sk_public sk) = Ok tt) /\
  (forall w, result_core_wf rcore -> WorkResultV1_new_signed rcore sk = Ok w ->
     WorkResultV1_decode (WorkResultV1_encode w) = Ok w /\
     WorkResultV1_verify_worker_signature w (sk_public sk) = Ok tt) /\
  (forall w, cancel_core_wf ccore -> WorkCancelV1_new_signed ccore sk = Ok w ->
     WorkCancelV1_decode (WorkCancelV1_encode w) = Ok w /\
     WorkCancelV1_verify_node_signature w (sk_public sk) = Ok tt) /\
  (hello_wf h -> hello_wf h' -> challenge_wf c -> challenge_wf c' ->
   length ws = 64%nat -> length ws' = 64%nat ->
   (worker_auth_message h c = worker_auth_message h' c' -> h = h' /\ c = c') /\
   (session_id h c ws ns = session_id h' c' ws' ns' ->
    (h = h' /\ c = c' /\ ws = ws' /\ ns = ns') \/
    collides [session_message h c ws ns] [session_message h' c' ws' ns'])) /\
  worker_auth_message h c <> node_accept_message h' c' ws /\
  (forall k i, assignment_message core k i <> result_message rcore /\
     assignment_message core k i <> cancel_message ccore /\
     assignment_message core k i <> node_accept_message h c ws).
Proof.
  split; [|split; [|split; [|split; [|split]]]].
  - unfold WorkAssignmentV1_new_signed. intros a Hw Ha. inv_ok.
    set (a := {| wa_core := core |}) in *.
    assert (WorkAssignmentV1_validate_derived a = Ok tt) as Hd.
    { apply validate_derived_iff. split; [apply Hw|done]. }
    split.
    + apply assignment_codec. split; [|done]. split; [done|]. split; [apply sk_sign_length|done].
    + unfold WorkAssignmentV1_verify_node_signature. rewrite Hd. apply verify_message_signed.
  - unfold WorkResultV1_new_signed. intros w Hw H. inv_ok. split.
    + apply result_codec. split; [|done]. split; [done|apply sk_sign_length].
    + unfold WorkResultV1_verify_worker_signature. cbn [wr_core wr_worker_signature].
      rewrite (proj2 Hw). apply verify_message_signed.
  - unfold WorkCancelV1_new_signed. intros w Hw H. inv_ok. split.
    + apply cancel_codec. split; [|done]. split; [done|apply sk_sign_length].
    + apply verify_message_signed.
  - intros Hh Hh' Hc Hc' Hws Hws'. unfold worker_auth_message. rewrite !app_nil_l, <- !app_assoc. split.
    + intros He%app_inv_head. rewrite <- (app_nil_r (NodeChallengeV1_encode c)),
        <- (app_nil_r (NodeChallengeV1_encode c')) in He.
      apply hello_challenge_inj in He; naive_solver.
    + apply session_id_inj_or; (done || lia).
  - unfold worker_auth_message, node_accept_message. rewrite !app_nil_l, <- !app_assoc.
    intros He%sign_domain_inj; [done|unfold SIGN_DOMAINS; set_solver..].
  - intros k i. unfold assignment_message, result_message, cancel_message, node_accept_message.
    rewrite !app_nil_l, <- !app_assoc.
    split_and!; intros He%sign_domain_inj; (done || (unfold SIGN_DOMAINS; set_solver)).
Qed.

(** ** The ticket budget *)

Lemma ticket_key_inj_or n p e l i n' p' e' l' i' :
  is_u32 n -> is_u32 n' -> is32 p -> is32 p' -> is_u64 e -> is_u64 e' -> is32 l -> is32 l' ->
  is_u16 i -> is_u16 i' -> ticket_key n p e l i = ticket_key n' p' e' l' i' ->
  (n = n' /\ p = p' /\ e = e' /\ l = l' /\ i = i') \/
  collides [ticket_message n p e l i] [ticket_message n' p' e' l' i'].
Proof.
  intros ?????????? [He|]%sha256_inj_or; [left|by right]. apply app_inv_head in He.
  cbn [concat] in He. rewrite !app_nil_r in He.
  apply app_inj_len in He as [E1 He]; [|len]. apply app_inj_len in He as [E2 He]; [|len].
  apply app_inj_len in He as [E3 He]; [|len]. apply app_inj_len in He as [E4 E5]; [|len].
  apply be_bytes_inj in E1, E3, E5; done.
Qed.

(** Any sequence of reservations for one license, epoch and parent. *)
Definition reserve_all (n : Z) (p : bytes32) (e : Z) (l : bytes32) (w : Z) (b : TicketBudget)
    (indices : list Z) : TicketBudget :=
  fold_left (fun b i => fst (TicketBudget_reserve b n p e l i w)) indices b.

Definition budget_keys (n : Z) (p : bytes32) (e : Z) (l : bytes32) (w : Z) : list bytes :=
  map (fun i => ticket_key n p e l (Z.of_nat i)) (seq 0 (Z.to_nat w)).

Lemma reserve_all_subset n p e l w b indices :
  Forall (fun i => 0 <= i) indices ->
  reserve_all n p e l w b indices ⊆ list_to_set (budget_keys n p e l w) ∪ b.
Proof.
  unfold reserve_all. intros Hi. revert b. induction Hi as [|i indices Hi _ IH]; intros b; cbn [fold_left].
  { set_solver. }
  etrans; [apply IH|]. apply union_least; [set_solver|].
  unfold TicketBudget_reserve. destruct (Z.leb_spec w i); cbn [fst]; [set_solver|].
  apply union_least; [|set_solver]. apply singleton_subseteq_l, elem_of_union_l, elem_of_list_to_set.
  unfold budget_keys. apply list_elem_of_In, in_map_iff. exists (Z.to_nat i).
  rewrite Z2Nat.id by done. split; [done|]. apply in_seq. lia.
Qed.

Lemma list_to_set_size (l : list bytes) : (size (list_to_set (C := gset bytes) l) <= length l)%nat.
Proof.
  induction l as [|x l IH]; cbn [list_to_set length]; [by rewrite size_empty|].
  rewrite size_union_alt, size_singleton.
  assert (size (list_to_set (C := gset bytes) l ∖ {[x]}) <= size (list_to_set (C := gset bytes) l))%nat
    by (apply subseteq_size; set_solver). lia.
Qed.

(** The ticket budget.  A reservation succeeds exactly for a ticket index below
    the number of work units, says whether the ticket is new, and counts a ticket
    once however often it is assigned; over any sequence of reservations for one
    license and epoch at most [W] tickets are counted; and two tickets share a key
    only if they are the same ticket (or the messages of the two keys collide). *)
Theorem ticket_budget_bounded n p e l w b indices i j :
  0 <= w -> Forall (fun i => 0 <= i) indices ->
  TicketBudget_unique_ticket_count (reserve_all n p e l w b indices)
    <= TicketBudget_unique_ticket_count b + w /\
  (i < w -> exists is_new,
     TicketBudget_reserve b n p e l i w =
       ({[ticket_key n p e l i]} ∪ b, Ok (ticket_key n p e l i, is_new)) /\
     (is_new = true <-> TicketBudget_contains b (ticket_key n p e l i) = false) /\
     TicketBudget_unique_ticket_count (fst (TicketBudget_reserve b n p e l i w)) =
       TicketBudget_unique_ticket_count b + (if is_new then 1 else 0)) /\
  (w <= i -> TicketBudget_reserve b n p e l i w = (b, Err OutOfBudget)) /\
  (is_u32 n -> is32 p -> is_u64 e -> is32 l -> is_u16 i -> is_u16 j ->
   ticket_key n p e l i = ticket_key n p e l j ->
   i = j \/ collides [ticket_message n p e l i] [ticket_message n p e l j]).
Proof.
  intros Hw Hi. unfold TicketBudget_unique_ticket_count. split_and!.
  - pose proof (reserve_all_subset n p e l w b indices Hi) as Hs.
    apply subseteq_size in Hs. rewrite size_union_alt in Hs.
    pose proof (list_to_set_size (budget_keys n p e l w)) as Hk.
    unfold budget_keys at 2 in Hk. rewrite length_map, length_seq in Hk.
    pose proof (subseteq_size (b ∖ list_to_set (budget_keys n p e l w)) b) as Hd.
    specialize (Hd ltac:(set_solver)). unfold TicketBudget in *. lia.
  - intros Hlt. unfold TicketBudget_reserve, TicketBudget_contains.
    destruct (Z.leb_spec w i); [lia|]. eexists. split; [reflexivity|]. cbn [fst].
    destruct (bool_decide_reflect (ticket_key n p e l i ∈ b)) as [Hin|Hin]; cbn [negb].
    + split; [done|]. rewrite subseteq_union_1_L by set_solver. lia.
    + split; [done|]. rewrite size_union by set_solver. rewrite size_singleton. lia.
  - intros Hle. unfold TicketBudget_reserve. destruct (Z.leb_spec w i); [done|lia].
  - intros. destruct (ticket_key_inj_or n p e l i n p e l j) as [(_ & _ & _ & _ & ->)|]; auto.
Qed.
End properties.

(** ** Witnesses *)

Module worker_demo.
Definition core : WorkAssignmentCoreV1 :=
  {| ac_network_id := 7; ac_session_id := ZERO32; ac_assignment_sequence := 1; ac_worker_id := ZERO32;
     ac_node_id := ZERO32; ac_parent_block_hash := ZERO32; ac_parent_height := 9; ac_target_epoch := 10;
     ac_license_id := ZERO32; ac_ticket_index := 2; ac_work_units_for_epoch := 3;
     ac_eligible_license_count := 12; ac_anchor_entropy := ZERO32; ac_target := ZERO32;
     ac_expires_epoch := 10; ac_algorithm_id := 1; ac_algorithm_version := 1 |}.
Definition rcore : WorkResultCoreV1 :=
  {| rc_network_id := 7; rc_session_id := ZERO32; rc_assignment_id := ZERO32; rc_ticket_key := ZERO32;
     rc_worker_id := ZERO32; rc_result_kind := 0; rc_argon2_proof := replicate 32 Byte.x00 |}.
Definition ccore : WorkCancelCoreV1 :=
  {| cc_network_id := 7; cc_session_id := ZERO32; cc_assignment_id := ZERO32; cc_ticket_key := ZERO32;
     cc_reason := 7 |}.
Definition hello : WorkerHelloV1 :=
  {| wh_network_id := 7; wh_worker_public_key := ZERO32; wh_worker_nonce := ZERO32;
     wh_capabilities := 0; wh_max_parallelism := 4 |}.
Definition challenge : NodeChallengeV1 :=
  {| nc_network_id := 7; nc_node_id := ZERO32; nc_node_public_key := ZERO32; nc_worker_id := ZERO32;
     nc_worker_nonce := ZERO32; nc_node_nonce := ZERO32; nc_capabilities := 0 |}.
End worker_demo.

Lemma demo_core_wf : assignment_core_wf worker_demo.core.
Proof. split; [repeat split; vm_compute; congruence|reflexivity]. Qed.

Lemma pack_l_signatures_witness :
  exists a, WorkAssignmentV1_new_signed (SHA := sha2_checksum) (ED := ed25519_demo) worker_demo.core [Byte.x05] = Ok a /\
    WorkAssignmentV1_decode (SHA := sha2_checksum) (WorkAssignmentV1_encode a) = Ok a /\
    WorkAssignmentV1_verify_node_signature (SHA := sha2_checksum) (ED := ed25519_demo) a (pad32 [Byte.x05]) = Ok tt.
Proof.
  eexists. split; [reflexivity|].
  refine (proj1 (pack_l_signatures (SHA := sha2_checksum) (ED := ed25519_demo) [Byte.x05] worker_demo.core
    worker_demo.rcore worker_demo.ccore worker_demo.hello worker_demo.challenge worker_demo.hello
    worker_demo.challenge [] [] [] []) _ demo_core_wf _). reflexivity.
Defined.

Lemma ticket_budget_bounded_witness :
  TicketBudget_unique_ticket_count
    (reserve_all (SHA := sha2_checksum) 7 ZERO32 10 ZERO32 3 ∅ [0; 5; 2; 0; 1; 2; 3]) <= 0 + 3.
Proof.
  exact (proj1 (ticket_budget_bounded (SHA := sha2_checksum) 7 ZERO32 10 ZERO32 3 ∅ [0; 5; 2; 0; 1; 2; 3] 0 1
    ltac:(lia) ltac:(repeat constructor; lia))).
Defined.
