(* ===== verification/Ledger.v ===== *)
(** Crate [mutiny-worker], file ledger.rs: the durable ledger of reserved work.

    The file format, the in-memory operations, and the replacement protocol
    [commit_atomic] on a model of the three files it touches.  Every file-system
    call asks a list of faults what happens to it: it can work, fail with an
    I/O error, or be where the process is stopped; a write that does not
    complete leaves arbitrary content.  Renames and removals are atomic, and
    reading a file that is there always works.  What is interrupted is the
    process: the next one sees every call that took effect.  A loss of power is
    not modelled; the code syncs the file but not its directory, so that one
    could also undo renames that had returned.
    Projections: [lg_] for [LedgerRecordV1], [wl_] for [WorkerBudgetLedgerV1],
    [d_] for the files. *)

From stdpp Require Import strings.
From S2P Require Import Prelude Crypto Smt Worker.

Definition LEDGER_MAGIC : bytes := ascii_bytes "MUTWLDG1".
Definition LEDGER_VERSION : Z := 1.
Definition LEDGER_CHECKSUM_DOMAIN : bytes := ascii_bytes "MUTINY-WORKER-BUDGET-LEDGER-V1".
Definition HEADER_LEN : nat := 8 + 2 + 4 + 8 + 4.
Definition RECORD_LEN : nat := 32 + 32 + 8 + 32 + 2 + 2 + 32 + 32 + 32 + 8 + 1.
Definition CHECKSUM_LEN : nat := 32.

Definition STATUS_RESERVED : Z := 0x01.
Definition STATUS_SENT : Z := 0x02.
Definition STATUS_COMPLETED_NO_WIN : Z := 0x03.
Definition STATUS_CANDIDATE_WIN : Z := 0x04.
Definition STATUS_CANCELLED : Z := 0x05.
Definition STATUS_INVALID_WIN : Z := 0x06.

Inductive LedgerError :=
| LedgerIo
| LedgerPackL (e : PackLError)
| LedgerFormat (what : String.string)
| LedgerChecksum
| LedgerReplay
| AssignmentNotFound
| LedgerNetworkMismatch.

Record LedgerRecordV1 := {
  lg_ticket_key : bytes32;
  lg_parent_block_hash : bytes32;
  lg_target_epoch : Z;
  lg_license_id : bytes32;
  lg_ticket_index : Z;
  lg_work_units_for_epoch : Z;
  lg_worker_id : bytes32;
  lg_session_id : bytes32;
  lg_assignment_id : bytes32;
  lg_assignment_sequence : Z;
  lg_status : Z;
}.

Definition known_status (s : Z) : bool :=
  existsb (Z.eqb s)
    [STATUS_RESERVED; STATUS_SENT; STATUS_COMPLETED_NO_WIN; STATUS_CANDIDATE_WIN; STATUS_CANCELLED;
     STATUS_INVALID_WIN].

Definition LedgerRecordV1_encode_into (r : LedgerRecordV1) (out : bytes) : bytes :=
  let out := out ++ lg_ticket_key r in
  let out := out ++ lg_parent_block_hash r in
  let out := out ++ be_bytes 8 (lg_target_epoch r) in
  let out := out ++ lg_license_id r in
  let out := out ++ be_bytes 2 (lg_ticket_index r) in
  let out := out ++ be_bytes 2 (lg_work_units_for_epoch r) in
  let out := out ++ lg_worker_id r in
  let out := out ++ lg_session_id r in
  let out := out ++ lg_assignment_id r in
  let out := out ++ be_bytes 8 (lg_assignment_sequence r) in
  out ++ [byte_of_Z (lg_status r)].

(** The running index [p] of the source is written out. *)
Definition LedgerRecordV1_decode (bs : bytes) : result LedgerError LedgerRecordV1 :=
  if negb (length bs =? RECORD_LEN)%nat then Err (LedgerFormat "wrong record length") else
  Ok {| lg_ticket_key := slice 0 32 bs;
        lg_parent_block_hash := slice 32 64 bs;
        lg_target_epoch := be_val (slice 64 72 bs);
        lg_license_id := slice 72 104 bs;
        lg_ticket_index := be_val (slice 104 106 bs);
        lg_work_units_for_epoch := be_val (slice 106 108 bs);
        lg_worker_id := slice 108 140 bs;
        lg_session_id := slice 140 172 bs;
        lg_assignment_id := slice 172 204 bs;
        lg_assignment_sequence := be_val (slice 204 212 bs);
        lg_status := be_val (slice 212 213 bs) |}.

Record WorkerBudgetLedgerV1 := {
  wl_network_id : Z;
  wl_generation : Z;
  wl_records : list LedgerRecordV1;
}.

Definition WorkerBudgetLedgerV1_empty (network_id : Z) : WorkerBudgetLedgerV1 :=
  {| wl_network_id := network_id; wl_generation := 0; wl_records := [] |}.

Definition unique_ticket_count (l : WorkerBudgetLedgerV1) : Z :=
  Z.of_nat (size (list_to_set (C := gset bytes) (map lg_ticket_key (wl_records l)))).

Definition assignment_seen (l : WorkerBudgetLedgerV1) (assignment_id : bytes32) : bool :=
  existsb (fun r => bytes_eqb (lg_assignment_id r) assignment_id) (wl_records l).

Definition ticket_seen (l : WorkerBudgetLedgerV1) (ticket_key : bytes32) : bool :=
  existsb (fun r => bytes_eqb (lg_ticket_key r) ticket_key) (wl_records l).

(** ** The files *)

Record disk := { d_cur : option bytes; d_next : option bytes; d_prev : option bytes }.

(** What happens to one file-system call: it works, it fails, or the process is
    stopped, before or after the call took effect; [partial] is what an unfinished
    write leaves in the file ([None]: no file). *)
Inductive fault :=
| Fine
| IoFails (partial : option bytes)
| Crash (after : bool) (partial : option bytes).

Inductive outcome := Done | IoError | Crashed.

Definition io : Type := disk -> list fault -> disk * list fault * outcome.

(** [a?; b] *)
Definition then_io (a b : io) : io := fun d fs =>
  let '(d, fs, o) := a d fs in
  match o with Done => b d fs | _ => (d, fs, o) end.

Definition next_fault (fs : list fault) : fault * list fault :=
  match fs with [] => (Fine, []) | f :: fs => (f, fs) end.

(** A call that either happens or does not. *)
Definition atomic_io (f : disk -> disk) : io := fun d fs =>
  let (x, fs) := next_fault fs in
  match x with
  | Fine => (f d, fs, Done)
  | IoFails _ => (d, fs, IoError)
  | Crash after _ => ((if after then f d else d), fs, Crashed)
  end.

Definition skip_io : io := fun d fs => (d, fs, Done).

(** [create_dir_all] *)
Definition create_dir : io := atomic_io (fun d => d).
Definition remove_next : io :=
  atomic_io (fun d => {| d_cur := d_cur d; d_next := None; d_prev := d_prev d |}).
Definition remove_prev : io :=
  atomic_io (fun d => {| d_cur := d_cur d; d_next := d_next d; d_prev := None |}).
Definition rename_cur_prev : io :=
  atomic_io (fun d => {| d_cur := None; d_next := d_next d; d_prev := d_cur d |}).
Definition rename_next_cur : io :=
  atomic_io (fun d => {| d_cur := d_next d; d_next := None; d_prev := d_prev d |}).
Definition rename_prev_cur : io :=
  atomic_io (fun d => {| d_cur := d_prev d; d_next := d_next d; d_prev := None |}).

(** [write_synced(&next, bytes)] *)
Definition write_synced (bs : bytes) : io := fun d fs =>
  let (x, fs) := next_fault fs in
  let with_next content := {| d_cur := d_cur d; d_next := content; d_prev := d_prev d |} in
  match x with
  | Fine => (with_next (Some bs), fs, Done)
  | IoFails partial => (with_next partial, fs, IoError)
  | Crash after partial => (with_next (if after then Some bs else partial), fs, Crashed)
  end.

Definition exists_file (f : option bytes) : bool := match f with Some _ => true | None => false end.

(** [if file.exists() { call? }] *)
Definition when_exists (file : disk -> option bytes) (call : io) : io := fun d fs =>
  if exists_file (file d) then call d fs else skip_io d fs.

Definition commit_atomic (bs : bytes) : io :=
  then_io create_dir
  (then_io (when_exists d_next remove_next)
  (then_io (write_synced bs)
  (then_io (when_exists d_prev remove_prev)
  (then_io (when_exists d_cur rename_cur_prev)
  (fun d fs =>
     let '(d, fs, o) := rename_next_cur d fs in
     match o with
     | IoError =>
         if negb (exists_file (d_cur d)) && exists_file (d_prev d) then
           let '(d, fs, o) := rename_prev_cur d fs in
           match o with Crashed => (d, fs, Crashed) | _ => (d, fs, IoError) end
         else (d, fs, IoError)
     | _ => (d, fs, o)
     end))))).

(** What a call that may be interrupted returns. *)
Inductive returned (A : Type) :=
| Returns (r : result LedgerError A)
| Interrupted.
Arguments Returns {A} r.
Arguments Interrupted {A}.

Section ledger.
Context {SHA : Sha2}.

Definition LedgerRecordV1_validate (r : LedgerRecordV1) (network_id : Z) : result LedgerError unit :=
  if lg_work_units_for_epoch r <=? lg_ticket_index r then Err (LedgerPackL OutOfBudget) else
  if negb (known_status (lg_status r)) then Err (LedgerFormat "unknown record status") else
  let expected := ticket_key network_id (lg_parent_block_hash r) (lg_target_epoch r)
                    (lg_license_id r) (lg_ticket_index r) in
  if negb (bytes_eqb (lg_ticket_key r) expected)
  then Err (LedgerFormat "TicketKey derivation mismatch") else Ok tt.

Definition ledger_checksum (body : bytes) : bytes32 := sha256 (LEDGER_CHECKSUM_DOMAIN ++ body).

(** The loop of [encode]. *)
Fixpoint encode_records (network_id : Z) (assignment_ids : gset bytes) (records : list LedgerRecordV1)
    (body : bytes) : result LedgerError bytes :=
  match records with
  | [] => Ok body
  | record :: records =>
      let? _ := LedgerRecordV1_validate record network_id in
      if bool_decide (lg_assignment_id record ∈ assignment_ids) then Err LedgerReplay else
      encode_records network_id ({[lg_assignment_id record]} ∪ assignment_ids) records
        (LedgerRecordV1_encode_into record body)
  end.

Definition WorkerBudgetLedgerV1_encode (l : WorkerBudgetLedgerV1) : result LedgerError bytes :=
  let? count := ok_or (LedgerFormat "too many ledger records")
                  (try_from 32 (Z.of_nat (length (wl_records l)))) in
  let body := [] in
  let body := body ++ LEDGER_MAGIC in
  let body := body ++ be_bytes 2 LEDGER_VERSION in
  let body := body ++ be_bytes 4 (wl_network_id l) in
  let body := body ++ be_bytes 8 (wl_generation l) in
  let body := body ++ be_bytes 4 count in
  let? body := encode_records (wl_network_id l) ∅ (wl_records l) body in
  Ok (body ++ ledger_checksum body).

(** The loop of [decode]. *)
Fixpoint decode_records (count : nat) (network_id : Z) (assignment_ids : gset bytes) (body : bytes)
    (p : nat) : result LedgerError (list LedgerRecordV1) :=
  match count with
  | O => Ok []
  | S count =>
      let fin := (p + RECORD_LEN)%nat in
      let? record := LedgerRecordV1_decode (slice p fin body) in
      let? _ := LedgerRecordV1_validate record network_id in
      if bool_decide (lg_assignment_id record ∈ assignment_ids) then Err LedgerReplay else
      let? records := decode_records count network_id ({[lg_assignment_id record]} ∪ assignment_ids)
                        body fin in
      Ok (record :: records)
  end.

Definition WorkerBudgetLedgerV1_decode (bs : bytes) : result LedgerError WorkerBudgetLedgerV1 :=
  if (length bs <? HEADER_LEN + CHECKSUM_LEN)%nat then Err (LedgerFormat "ledger file too short") else
  let body_len := (length bs - CHECKSUM_LEN)%nat in
  let body := take body_len bs in
  let checksum := drop body_len bs in
  if negb (bytes_eqb checksum (ledger_checksum body)) then Err LedgerChecksum else
  if negb (bytes_eqb (slice 0 8 body) LEDGER_MAGIC) then Err (LedgerFormat "wrong ledger magic") else
  let version := be_val (slice 8 10 body) in
  if negb (version =? LEDGER_VERSION) then Err (LedgerFormat "unsupported ledger version") else
  let network_id := be_val (slice 10 14 body) in
  let generation := be_val (slice 14 22 body) in
  let count := be_val (slice 22 26 body) in
  let? records_len := ok_or (LedgerFormat "record length overflow")
                        (checked_mul 64 count (Z.of_nat RECORD_LEN)) in
  let? expected_body_len := ok_or (LedgerFormat "body length overflow")
                              (checked_add 64 (Z.of_nat HEADER_LEN) records_len) in
  if negb (Z.of_nat (length body) =? expected_body_len)
  then Err (LedgerFormat "record count/length mismatch") else
  let? records := decode_records (Z.to_nat count) network_id ∅ body 26 in
  Ok {| wl_network_id := network_id; wl_generation := generation; wl_records := records |}.

Definition load (file : option bytes) (expected_network_id : Z)
    : result LedgerError WorkerBudgetLedgerV1 :=
  let? bs := ok_or LedgerIo file in
  let? value := WorkerBudgetLedgerV1_decode bs in
  if negb (wl_network_id value =? expected_network_id) then Err LedgerNetworkMismatch else Ok value.

Definition load_recover (d : disk) (expected_network_id : Z) : result LedgerError WorkerBudgetLedgerV1 :=
  match load (d_cur d) expected_network_id with
  | Ok v => Ok v
  | Err primary_error =>
      if exists_file (d_prev d) then load (d_prev d) expected_network_id else Err primary_error
  end.

(** [commit_atomic(path, &value.encode()?)?] and what the caller does then. *)
Definition persist {A} (value : WorkerBudgetLedgerV1) (answer : A) (d : disk) (fs : list fault)
    : disk * list fault * returned A :=
  match WorkerBudgetLedgerV1_encode value with
  | Err e => (d, fs, Returns (Err e))
  | Ok bs =>
      let '(d, fs, o) := commit_atomic bs d fs in
      match o with
      | Done => (d, fs, Returns (Ok answer))
      | IoError => (d, fs, Returns (Err LedgerIo))
      | Crashed => (d, fs, Interrupted)
      end
  end.

Definition open_or_create (network_id : Z) (d : disk) (fs : list fault)
    : disk * list fault * returned WorkerBudgetLedgerV1 :=
  if exists_file (d_cur d) || exists_file (d_prev d) then (d, fs, Returns (load_recover d network_id))
  else
    let value := WorkerBudgetLedgerV1_empty network_id in
    persist value value d fs.

(** [*self = candidate] only when the commit returned. *)
Definition commit_candidate {A} (self candidate : WorkerBudgetLedgerV1) (answer : A) (d : disk)
    (fs : list fault) : WorkerBudgetLedgerV1 * disk * list fault * returned A :=
  let '(d, fs, r) := persist candidate answer d fs in
  match r with
  | Returns (Ok _) => (candidate, d, fs, r)
  | _ => (self, d, fs, r)
  end.

Definition reserve_and_persist (self : WorkerBudgetLedgerV1) (record : LedgerRecordV1) (d : disk)
    (fs : list fault) : WorkerBudgetLedgerV1 * disk * list fault * returned bool :=
  match LedgerRecordV1_validate record (wl_network_id self) with
  | Err e => (self, d, fs, Returns (Err e))
  | Ok _ =>
      if assignment_seen self (lg_assignment_id record) then (self, d, fs, Returns (Err LedgerReplay)) else
      let was_new_unique_ticket := negb (ticket_seen self (lg_ticket_key record)) in
      match checked_add 64 (wl_generation self) 1 with
      | None => (self, d, fs, Returns (Err (LedgerFormat "ledger generation overflow")))
      | Some generation =>
          let candidate := {| wl_network_id := wl_network_id self; wl_generation := generation;
                              wl_records := wl_records self ++ [record] |} in
          commit_candidate self candidate was_new_unique_ticket d fs
      end
  end.

Definition set_status (r : LedgerRecordV1) (status : Z) : LedgerRecordV1 :=
  {| lg_ticket_key := lg_ticket_key r; lg_parent_block_hash := lg_parent_block_hash r;
     lg_target_epoch := lg_target_epoch r; lg_license_id := lg_license_id r;
     lg_ticket_index := lg_ticket_index r; lg_work_units_for_epoch := lg_work_units_for_epoch r;
     lg_worker_id := lg_worker_id r; lg_session_id := lg_session_id r;
     lg_assignment_id := lg_assignment_id r; lg_assignment_sequence := lg_assignment_sequence r;
     lg_status := status |}.

(** [iter_mut().find(..)] and the assignment to the record found. *)
Fixpoint update_first (records : list LedgerRecordV1) (assignment_id : bytes32) (new_status : Z)
    : option (list LedgerRecordV1) :=
  match records with
  | [] => None
  | r :: records =>
      if bytes_eqb (lg_assignment_id r) assignment_id then Some (set_status r new_status :: records)
      else match update_first records assignment_id new_status with
           | Some records => Some (r :: records)
           | None => None
           end
  end.

Definition update_status_and_persist (self : WorkerBudgetLedgerV1) (assignment_id : bytes32)
    (new_status : Z) (d : disk) (fs : list fault)
    : WorkerBudgetLedgerV1 * disk * list fault * returned unit :=
  if negb (known_status new_status)
  then (self, d, fs, Returns (Err (LedgerFormat "unknown status transition"))) else
  match update_first (wl_records self) assignment_id new_status with
  | None => (self, d, fs, Returns (Err AssignmentNotFound))
  | Some records =>
      match checked_add 64 (wl_generation self) 1 with
      | None => (self, d, fs, Returns (Err (LedgerFormat "ledger generation overflow")))
      | Some generation =>
          let candidate := {| wl_network_id := wl_network_id self; wl_generation := generation;
                              wl_records := records |} in
          commit_candidate self candidate tt d fs
      end
  end.
End ledger.

(** ** The record format *)

Definition record_wf (r : LedgerRecordV1) : Prop :=
  is32 (lg_ticket_key r) /\ is32 (lg_parent_block_hash r) /\ is_u64 (lg_target_epoch r) /\
  is32 (lg_license_id r) /\ is_u16 (lg_ticket_index r) /\ is_u16 (lg_work_units_for_epoch r) /\
  is32 (lg_worker_id r) /\ is32 (lg_session_id r) /\ is32 (lg_assignment_id r) /\
  is_u64 (lg_assignment_sequence r) /\ is_u8 (lg_status r).

Definition enc_record (r : LedgerRecordV1) : bytes :=
  lg_ticket_key r ++ lg_parent_block_hash r ++ be_bytes 8 (lg_target_epoch r) ++ lg_license_id r
  ++ be_bytes 2 (lg_ticket_index r) ++ be_bytes 2 (lg_work_units_for_epoch r) ++ lg_worker_id r
  ++ lg_session_id r ++ lg_assignment_id r ++ be_bytes 8 (lg_assignment_sequence r)
  ++ be_bytes 1 (lg_status r).

Lemma encode_into_eq r out : LedgerRecordV1_encode_into r out = out ++ enc_record r.
Proof. unfold LedgerRecordV1_encode_into, enc_record. by rewrite <- !app_assoc. Qed.

Lemma enc_record_length r : record_wf r -> length (enc_record r) = RECORD_LEN.
Proof.
  intros (?&?&?&?&?&?&?&?&?&?&?). unfold enc_record. change RECORD_LEN with 213%nat. len.
Qed.

Lemma record_codec bs r :
  LedgerRecordV1_decode bs = Ok r <-> record_wf r /\ enc_record r = bs.
Proof.
  unfold LedgerRecordV1_decode. change RECORD_LEN with 213%nat. split.
  - destruct (Nat.eqb_spec (length bs) 213); cbn [negb]; [|done]. intros <-%Ok_inj.
    unfold record_wf, enc_record.
    cbn [lg_ticket_key lg_parent_block_hash lg_target_epoch lg_license_id lg_ticket_index
         lg_work_units_for_epoch lg_worker_id lg_session_id lg_assignment_id lg_assignment_sequence
         lg_status].
    split.
    + repeat split; try (rewrite length_slice; lia);
        first [apply (be_val_range 1); rewrite length_slice; lia
              |apply (be_val_range 2); rewrite length_slice; lia
              |apply (be_val_range 8); rewrite length_slice; lia].
    + rewrite !be_bytes_be_val by (rewrite length_slice; lia).
      rewrite !slice_take_drop by lia. unfold slice. rewrite drop_0. apply take_ge. lia.
  - intros [Hw <-]. pose proof (enc_record_length r Hw) as Hl. change RECORD_LEN with 213%nat in Hl.
    rewrite Hl. cbn [Nat.eqb negb]. destruct Hw as (?&?&?&?&?&?&?&?&?&?&?). clear Hl.
    unfold enc_record. slice_norm.
    rewrite slice_whole, !be_val_be_bytes by (done || len). by destruct r.
Qed.

(** ** The ledger format *)

Section format.
Context {SHA : Sha2}.

Definition records_valid (net : Z) (rs : list LedgerRecordV1) : Prop :=
  Forall (fun r => LedgerRecordV1_validate r net = Ok tt) rs.

(** Both loops keep the set of assignment ids seen so far. *)
Definition fresh_ids (ids : gset bytes) (rs : list LedgerRecordV1) : Prop :=
  NoDup (map lg_assignment_id rs) /\ Forall (fun r => lg_assignment_id r ∉ ids) rs.

Lemma fresh_ids_cons ids r rs :
  fresh_ids ids (r :: rs) <->
  lg_assignment_id r ∉ ids /\ fresh_ids ({[lg_assignment_id r]} ∪ ids) rs.
Proof.
  unfold fresh_ids. cbn [map]. rewrite NoDup_cons, Forall_cons, list_elem_of_In, in_map_iff, !Forall_forall.
  split.
  - intros [[Hn Hd] [Hr Hf]]. split_and!; [done|done|]. intros x Hx.
    apply not_elem_of_union. split; [|by apply Hf]. intros He%elem_of_singleton. apply Hn.
    exists x. by rewrite <- list_elem_of_In.
  - intros (Hr & Hd & Hf). split_and!; [|done|done|].
    + intros (x & Hx & Hin). rewrite <- list_elem_of_In in Hin. specialize (Hf x Hin). set_solver.
    + intros x Hx. specialize (Hf x Hx). set_solver.
Qed.

Lemma encode_records_iff net rs ids body out :
  encode_records net ids rs body = Ok out <->
  records_valid net rs /\ fresh_ids ids rs /\ out = body ++ concat (map enc_record rs).
Proof.
  unfold records_valid. revert ids body. induction rs as [|r rs IH]; intros ids body; cbn [encode_records].
  { cbn. rewrite app_nil_r. unfold fresh_ids. split; [intros <-%Ok_inj|intros (_ & _ & ->)]; [|done].
    repeat split; constructor. }
  rewrite Forall_cons, fresh_ids_cons. cbn [map concat].
  destruct (LedgerRecordV1_validate r net) as [[]|]; [|naive_solver].
  destruct (bool_decide_reflect (lg_assignment_id r ∈ ids)); [naive_solver|].
  rewrite IH, encode_into_eq, <- app_assoc. naive_solver.
Qed.

Lemma decode_records_ok n net ids body p rs :
  (p + n * RECORD_LEN <= length body)%nat -> decode_records n net ids body p = Ok rs ->
  length rs = n /\ Forall record_wf rs /\ records_valid net rs /\ fresh_ids ids rs /\
  drop p body = concat (map enc_record rs) ++ drop (p + n * RECORD_LEN) body.
Proof.
  unfold records_valid. revert ids p rs. induction n as [|n IH]; intros ids p rs Hl H; cbn [decode_records] in H.
  { inv_ok. cbn. rewrite Nat.add_0_r. unfold fresh_ids. repeat split; constructor. }
  destruct (LedgerRecordV1_decode _) as [r|] eqn:Er; [|done].
  apply record_codec in Er as [Hw He].
  destruct (LedgerRecordV1_validate r net) as [[]|] eqn:Ev; [|done].
  destruct (bool_decide_reflect (lg_assignment_id r ∈ ids)); [done|].
  destruct (decode_records n _ _ _ _) as [rs'|] eqn:E; [|done]. apply Ok_inj in H as <-.
  apply IH in E as (Hn & Hf & Hv & Hi & Hd); [|lia].
  cbn [length map concat]. rewrite Hn, fresh_ids_cons, !Forall_cons. split_and!; try done.
  rewrite <- app_assoc, He. replace (p + S n * RECORD_LEN)%nat with (p + RECORD_LEN + n * RECORD_LEN)%nat by lia.
  rewrite <- Hd, <- drop_drop. unfold slice. replace (p + RECORD_LEN - p)%nat with RECORD_LEN by lia.
  by rewrite take_drop.
Qed.

Lemma decode_records_app net rs ids body p rest :
  Forall record_wf rs -> records_valid net rs -> fresh_ids ids rs ->
  drop p body = concat (map enc_record rs) ++ rest ->
  decode_records (length rs) net ids body p = Ok rs.
Proof.
  unfold records_valid. intros Hw. revert ids p. induction Hw as [|r rs Hr _ IH]; intros ids p Hv Hf Hd;
    cbn [length decode_records]; [done|].
  apply fresh_ids_cons in Hf as [Hn Hf]. apply Forall_cons in Hv as [Hv Hvs].
  cbn [map concat] in Hd. rewrite <- app_assoc in Hd.
  unfold slice. rewrite Hd. replace (p + RECORD_LEN - p)%nat with RECORD_LEN by lia.
  rewrite take_app_exact by (by apply enc_record_length).
  rewrite (proj2 (record_codec (enc_record r) r)), Hv by done.
  destruct (bool_decide_reflect (lg_assignment_id r ∈ ids)); [done|].
  rewrite IH; [done..|]. rewrite <- drop_drop, Hd. apply drop_app_exact. by apply enc_record_length.
Qed.

Definition ledger_wf (l : WorkerBudgetLedgerV1) : Prop :=
  is_u32 (wl_network_id l) /\ is_u64 (wl_generation l) /\ Forall record_wf (wl_records l).

Definition ledger_body (l : WorkerBudgetLedgerV1) : bytes :=
  LEDGER_MAGIC ++ be_bytes 2 LEDGER_VERSION ++ be_bytes 4 (wl_network_id l)
  ++ be_bytes 8 (wl_generation l) ++ be_bytes 4 (Z.of_nat (length (wl_records l)))
  ++ concat (map enc_record (wl_records l)).

Lemma ledger_encode_iff l bs :
  WorkerBudgetLedgerV1_encode l = Ok bs <->
  Z.of_nat (length (wl_records l)) < 2 ^ 32 /\ records_valid (wl_network_id l) (wl_records l) /\
  fresh_ids ∅ (wl_records l) /\ bs = ledger_body l ++ ledger_checksum (ledger_body l).
Proof.
  unfold WorkerBudgetLedgerV1_encode, try_from.
  destruct (Z.ltb_spec (Z.of_nat (length (wl_records l))) (2 ^ 32)); cbn [ok_or]; [|naive_solver lia].
  rewrite !app_nil_l.
  assert (forall out, encode_records (wl_network_id l) ∅ (wl_records l)
    ((((LEDGER_MAGIC ++ be_bytes 2 LEDGER_VERSION) ++ be_bytes 4 (wl_network_id l))
      ++ be_bytes 8 (wl_generation l)) ++ be_bytes 4 (Z.of_nat (length (wl_records l)))) = Ok out <->
    records_valid (wl_network_id l) (wl_records l) /\ fresh_ids ∅ (wl_records l) /\ out = ledger_body l) as He.
  { intros out. rewrite encode_records_iff. unfold ledger_body. by rewrite <- !app_assoc. }
  destruct (encode_records _ _ _ _) as [out|e] eqn:E.
  - destruct (proj1 (He out) eq_refl) as (? & ? & ->). split; [intros <-%Ok_inj; done|naive_solver].
  - split; [done|]. intros (_ & Hv & Hf & _). destruct (He (ledger_body l)) as [_ H2].
    discriminate (H2 (conj Hv (conj Hf eq_refl))).
Qed.

Lemma concat_records_length rs :
  Forall record_wf rs -> length (concat (map enc_record rs)) = (length rs * RECORD_LEN)%nat.
Proof.
  induction 1 as [|r rs Hr _ IH]; cbn [map concat length]; [done|].
  rewrite length_app, IH, enc_record_length by done. lia.
Qed.

Lemma ledger_decode_ok bs l :
  WorkerBudgetLedgerV1_decode bs = Ok l -> ledger_wf l /\ WorkerBudgetLedgerV1_encode l = Ok bs.
Proof.
  unfold WorkerBudgetLedgerV1_decode. change (HEADER_LEN + CHECKSUM_LEN)%nat with 58%nat.
  change CHECKSUM_LEN with 32%nat. intros H. inv_ok. bool_to_prop.
  repeat match goal with
    | E : checked_mul _ _ _ = Some _ |- _ => apply checked_mul_Some in E as [-> ?]
    | E : checked_add _ _ _ = Some _ |- _ => apply checked_add_Some in E as [-> ?] end.
  set (body := take (length bs - 32) bs) in *. change HEADER_LEN with 26%nat in *.
  assert (length body = length bs - 32)%nat as Hlb by (unfold body; rewrite length_take; lia).
  match goal with E : Z.of_nat (length body) = _ |- _ => rename E into Hbody end.
  pose proof (be_val_range 4 (slice 22 26 body) ltac:(rewrite length_slice; lia)) as Hc.
  match goal with E : decode_records _ _ _ _ _ = Ok ?rs |- _ =>
    rename rs into records; apply decode_records_ok in E as (Hn & Hw & Hv & Hf & Hd); [|lia] end.
  split.
  { unfold ledger_wf. cbn [wl_network_id wl_generation wl_records]. split_and!; try done;
      first [apply (be_val_range 4); rewrite length_slice; lia|apply (be_val_range 8); rewrite length_slice; lia]. }
  apply ledger_encode_iff. cbn [wl_network_id wl_generation wl_records].
  change (256 ^ Z.of_nat 4) with (2 ^ 32) in Hc. split_and!; [lia|done|done|].
  assert (ledger_body {| wl_network_id := be_val (slice 10 14 body); wl_generation := be_val (slice 14 22 body);
                         wl_records := records |} = body) as ->.
  { unfold ledger_body. cbn [wl_network_id wl_generation wl_records]. rewrite Hn, Z2Nat.id by lia.
    rewrite !be_bytes_be_val by (rewrite length_slice; lia).
    match goal with E : be_val (slice 8 10 body) = LEDGER_VERSION |- _ => rewrite <- E end.
    match goal with E : slice 0 8 body = LEDGER_MAGIC |- _ => rewrite <- E end.
    rewrite be_bytes_be_val by (rewrite length_slice; lia).
    rewrite (drop_ge body (26 + _ * _)), app_nil_r in Hd by lia. rewrite <- Hd.
    rewrite (app_assoc (slice 14 22 body)), !slice_take_drop by lia.
    rewrite !app_assoc, !slice_take_drop by lia. unfold slice. rewrite drop_0. by rewrite take_drop. }
  match goal with E : drop _ bs = ledger_checksum body |- _ => rewrite <- E end.
  unfold body. by rewrite take_drop.
Qed.

Lemma ledger_body_fields l :
  ledger_wf l -> Z.of_nat (length (wl_records l)) < 2 ^ 32 ->
  length (ledger_body l) = (26 + length (wl_records l) * RECORD_LEN)%nat /\
  slice 0 8 (ledger_body l) = LEDGER_MAGIC /\ slice 8 10 (ledger_body l) = be_bytes 2 LEDGER_VERSION /\
  slice 10 14 (ledger_body l) = be_bytes 4 (wl_network_id l) /\
  slice 14 22 (ledger_body l) = be_bytes 8 (wl_generation l) /\
  slice 22 26 (ledger_body l) = be_bytes 4 (Z.of_nat (length (wl_records l))) /\
  drop 26 (ledger_body l) = concat (map enc_record (wl_records l)) ++ [].
Proof.
  intros (? & ? & Hw) Hc. pose proof (concat_records_length _ Hw) as Hl.
  unfold ledger_body. assert (length LEDGER_MAGIC = 8%nat) as Hm by done. split_and!.
  - rewrite !length_app, Hl, !length_be_bytes, Hm. lia.
  - by rewrite slice_app_here.
  - rewrite (slice_app_skip 8) by (done || lia). by rewrite slice_app_here by apply length_be_bytes.
  - rewrite (slice_app_skip 8), (slice_app_skip 2) by (done || apply length_be_bytes || lia).
    by rewrite slice_app_here by apply length_be_bytes.
  - rewrite (slice_app_skip 8), (slice_app_skip 2), (slice_app_skip 4)
      by (done || apply length_be_bytes || lia).
    by rewrite slice_app_here by apply length_be_bytes.
  - rewrite (slice_app_skip 8), (slice_app_skip 2), (slice_app_skip 4), (slice_app_skip 8)
      by (done || apply length_be_bytes || lia).
    by rewrite slice_app_here by apply length_be_bytes.
  - rewrite app_nil_r, !app_assoc. apply drop_app_exact. rewrite !length_app, !length_be_bytes. done.
Qed.

Lemma ledger_decode_complete bs l :
  ledger_wf l -> WorkerBudgetLedgerV1_encode l = Ok bs -> WorkerBudgetLedgerV1_decode bs = Ok l.
Proof.
  intros Hw (Hc & Hv & Hf & ->)%ledger_encode_iff.
  destruct (ledger_body_fields l Hw Hc) as (Hlen & F0 & F1 & F2 & F3 & F4 & F5).
  destruct Hw as (Hnet & Hgen & Hrs).
  unfold WorkerBudgetLedgerV1_decode. change (HEADER_LEN + CHECKSUM_LEN)%nat with 58%nat.
  change CHECKSUM_LEN with 32%nat. change HEADER_LEN with 26%nat.
  assert (length (ledger_checksum (ledger_body l)) = 32%nat) as Hck by apply sha256_length.
  rewrite length_app, Hck, Nat.add_sub, (take_app_exact (length (ledger_body l))),
    (drop_app_exact (length (ledger_body l))) by done.
  destruct (Nat.ltb_spec (length (ledger_body l) + 32) 58); [lia|].
  rewrite bytes_eqb_refl, F0, bytes_eqb_refl, F1, F2, F3, F4.
  rewrite !be_val_be_bytes by (done || (split; [lia|done])).
  unfold checked_mul, checked_add. change (Z.of_nat RECORD_LEN) with 213.
  rewrite Z.eqb_refl. cbn [negb].
  destruct (Z.ltb_spec (Z.of_nat (length (wl_records l)) * 213) (2 ^ 64)); [|lia]. cbn [ok_or].
  destruct (Z.ltb_spec (Z.of_nat 26 + Z.of_nat (length (wl_records l)) * 213) (2 ^ 64)); [|lia].
  cbn [ok_or]. change RECORD_LEN with 213%nat in Hlen.
  destruct (Z.eqb_spec (Z.of_nat (length (ledger_body l))) (Z.of_nat 26 + Z.of_nat (length (wl_records l)) * 213));
    [|lia].
  cbn [negb]. rewrite Nat2Z.id, (decode_records_app _ _ _ _ _ []) by done. by destruct l.
Qed.

(** The ledger file is canonical.  A file decodes to a ledger exactly when it
    is the encoding of that ledger: magic, version, count and checksum match,
    every record is valid for the network (its ticket inside its budget, its
    status known, its ticket key the derived one) and no assignment id occurs
    twice. *)
Theorem ledger_canonical bs l :
  (WorkerBudgetLedgerV1_decode bs = Ok l <-> ledger_wf l /\ WorkerBudgetLedgerV1_encode l = Ok bs) /\
  (WorkerBudgetLedgerV1_encode l = Ok bs ->
   NoDup (map lg_assignment_id (wl_records l)) /\
   Forall (fun r => lg_ticket_index r < lg_work_units_for_epoch r /\ known_status (lg_status r) = true /\
     lg_ticket_key r = ticket_key (wl_network_id l) (lg_parent_block_hash r) (lg_target_epoch r)
                         (lg_license_id r) (lg_ticket_index r)) (wl_records l)).
Proof.
  split; [split; [apply ledger_decode_ok|intros [? ?]; by apply ledger_decode_complete]|].
  intros (_ & Hv & [Hd _] & _)%ledger_encode_iff. split; [done|].
  eapply Forall_impl; [exact Hv|]. cbn beta. intros r H.
  unfold LedgerRecordV1_validate in H. inv_ok. by bool_to_prop.
Qed.
End format.

(** ** Crash safety

    A triple states what holds of the files after a call, by its outcome. *)

Definition triple (P : disk -> Prop) (a : io) (Q : outcome -> disk -> Prop) : Prop :=
  forall d fs, P d -> Q (a d fs).2 (a d fs).1.1.

Lemma triple_then P a R b Q :
  triple P a R -> triple (R Done) b Q -> (forall d, R IoError d -> Q IoError d) ->
  (forall d, R Crashed d -> Q Crashed d) -> triple P (then_io a b) Q.
Proof.
  intros Ha Hb He Hc d fs Hp. specialize (Ha d fs Hp). unfold then_io.
  destruct (a d fs) as [[d1 fs1] []]; cbn in *; [by apply Hb|by apply He|by apply Hc].
Qed.

Lemma triple_atomic (P : disk -> Prop) f (Q : outcome -> disk -> Prop) :
  (forall d, P d -> Q Done (f d) /\ Q IoError d /\ Q Crashed d /\ Q Crashed (f d)) ->
  triple P (atomic_io f) Q.
Proof.
  intros H d fs Hp. destruct (H d Hp) as (? & ? & ? & ?). unfold atomic_io.
  by destruct (next_fault fs) as [[|?|[] ?] ?].
Qed.

Lemma triple_when P file a Q :
  triple (fun d => P d /\ exists bs, file d = Some bs) a Q -> (forall d, P d -> file d = None -> Q Done d) ->
  triple P (when_exists file a) Q.
Proof.
  intros Ha Hn d fs Hp. unfold when_exists. destruct (file d) eqn:E; cbn [exists_file].
  - apply Ha. split; [done|by eexists].
  - by apply Hn.
Qed.

Definition current (old : bytes) (d : disk) : Prop := d_cur d = Some old.
Definition replaced (old : bytes) (d : disk) : Prop := d_cur d = None /\ d_prev d = Some old.

(** The calls before the first rename leave the file alone. *)
Lemma keeps_current_atomic old f :
  (forall d, d_cur (f d) = d_cur d) -> triple (current old) (atomic_io f) (fun _ => current old).
Proof. intros Hf. apply triple_atomic. unfold current. intros d Hd. by rewrite Hf. Qed.

Lemma write_synced_triple old bs :
  triple (current old) (write_synced bs)
    (fun o d => current old d /\ (o = Done -> d_next d = Some bs)).
Proof.
  intros d fs Hd. unfold write_synced, current in *. destruct (next_fault fs) as [[|?|[] ?] ?]; done.
Qed.

Definition commit_post (old bs : bytes) (o : outcome) (d : disk) : Prop :=
  match o with
  | Done => d_cur d = Some bs /\ d_prev d = Some old
  | IoError => current old d \/ replaced old d
  | Crashed => current old d \/ replaced old d \/ current bs d
  end.

(** The last rename, with its rollback. *)
Lemma final_rename_triple old bs :
  triple (fun d => replaced old d /\ d_next d = Some bs)
    (fun d fs =>
       let '(d, fs, o) := rename_next_cur d fs in
       match o with
       | IoError =>
           if negb (exists_file (d_cur d)) && exists_file (d_prev d) then
             let '(d, fs, o) := rename_prev_cur d fs in
             match o with Crashed => (d, fs, Crashed) | _ => (d, fs, IoError) end
           else (d, fs, IoError)
       | _ => (d, fs, o)
       end) (commit_post old bs).
Proof.
  unfold replaced, current. intros [c n p] fs [[Hc Hp] Hn]. cbn in Hc, Hp, Hn. subst.
  unfold rename_next_cur, atomic_io.
  destruct (next_fault fs) as [[|?|[] ?] fs1]; cbn.
  - done.
  - unfold rename_prev_cur, atomic_io.
    destruct (next_fault fs1) as [[|?|[] ?] ?]; cbn; unfold replaced, current; cbn; tauto.
  - unfold replaced, current. cbn. tauto.
  - unfold replaced, current. cbn. tauto.
Qed.

(** A commit over a file that is there leaves the old or the new content in the
    file, or the old content in the backup and no file. *)
Lemma commit_atomic_triple old bs : triple (current old) (commit_atomic bs) (commit_post old bs).
Proof.
  set (Keep := fun (_ : outcome) => current old).
  set (Wrote := fun (o : outcome) d => current old d /\ (o = Done -> d_next d = Some bs)).
  unfold commit_atomic.
  apply (triple_then _ _ Keep); [by apply keeps_current_atomic| |by left..].
  apply (triple_then _ _ Keep); [apply triple_when; [|done]| |by left..].
  { intros d fs [Hd _]. by apply keeps_current_atomic. }
  apply (triple_then _ _ Wrote); [apply write_synced_triple| |intros d [? _]; by left..].
  apply (triple_then _ _ (fun _ d => current old d /\ d_next d = Some bs)); [| |intros d [? _]; by left..].
  { apply triple_when; [|intros d [? Hn]; auto]. apply triple_atomic. intros [c n p] [[Hc Hn] _].
    specialize (Hn eq_refl). done. }
  apply (triple_then _ _ (fun o d => match o with
    | Done => replaced old d /\ d_next d = Some bs | _ => current old d \/ replaced old d end));
    [| |intros d ?; done|intros d [?|?]; cbn; auto].
  - apply triple_when; [|intros d [Hc _] Hn; unfold current in Hc; congruence].
    apply triple_atomic. unfold current, replaced. intros [c n p] [[Hc Hn] _]. cbn in *. tauto.
  - apply final_rename_triple.
Qed.

(** *** A commit that is not disturbed *)

Definition is_fine (x : fault) : bool := match x with Fine => true | _ => false end.

Definition finely (a : io) (f : disk -> disk) : Prop :=
  forall d fs, forallb is_fine fs = true ->
    exists fs', a d fs = (f d, fs', Done) /\ forallb is_fine fs' = true.

Lemma next_fine fs :
  forallb is_fine fs = true -> exists fs', next_fault fs = (Fine, fs') /\ forallb is_fine fs' = true.
Proof. destruct fs as [|[] fs]; cbn [forallb is_fine andb]; [|by eexists|done|done]. by exists []. Qed.

Lemma fine_atomic f : finely (atomic_io f) f.
Proof. intros d fs (fs' & Hn & Hf)%next_fine. exists fs'. unfold atomic_io. by rewrite Hn. Qed.

Lemma fine_write bs : finely (write_synced bs) (fun d => {| d_cur := d_cur d; d_next := Some bs; d_prev := d_prev d |}).
Proof. intros d fs (fs' & Hn & Hf)%next_fine. exists fs'. unfold write_synced. by rewrite Hn. Qed.

Lemma fine_when file a f : finely a f -> finely (when_exists file a) (fun d => if exists_file (file d) then f d else d).
Proof. intros Ha d fs Hf. unfold when_exists. destruct (exists_file (file d)); [by apply Ha|by exists fs]. Qed.

Lemma fine_then a b f g : finely a f -> finely b g -> finely (then_io a b) (fun d => g (f d)).
Proof.
  intros Ha Hb d fs Hf. destruct (Ha d fs Hf) as (fs1 & E & Hf1). destruct (Hb (f d) fs1 Hf1) as (fs2 & E2 & Hf2).
  exists fs2. unfold then_io. by rewrite E.
Qed.

(** It replaces the file whatever was there. *)
Lemma commit_atomic_fine bs d fs :
  forallb is_fine fs = true ->
  exists d' fs', commit_atomic bs d fs = (d', fs', Done) /\ d_cur d' = Some bs /\ forallb is_fine fs' = true.
Proof.
  intros Hf. eassert (finely (commit_atomic bs) _) as H.
  { unfold commit_atomic. apply fine_then; [apply fine_atomic|].
    apply fine_then; [apply fine_when, fine_atomic|]. apply fine_then; [apply fine_write|].
    apply fine_then; [apply fine_when, fine_atomic|]. apply fine_then; [apply fine_when, fine_atomic|].
    intros d1 fs1 Hf1. destruct (fine_atomic _ d1 fs1 Hf1 : exists fs2, rename_next_cur d1 fs1 = _ /\ _)
      as (fs2 & -> & Hf2). by exists fs2. }
  destruct (H d fs Hf) as (fs' & -> & Hf'). eexists _, fs'. split; [done|]. split; [|done].
  destruct d as [[c|] [n|] [p|]]; done.
Qed.

Section safety.
Context {SHA : Sha2}.

Lemma load_encode l bs net :
  ledger_wf l -> WorkerBudgetLedgerV1_encode l = Ok bs -> wl_network_id l = net ->
  load (Some bs) net = Ok l.
Proof.
  intros Hw He <-. unfold load. cbn [ok_or]. rewrite (ledger_decode_complete bs l) by done.
  by rewrite Z.eqb_refl.
Qed.

Lemma load_inv f net l :
  load f net = Ok l ->
  exists bs, f = Some bs /\ ledger_wf l /\ WorkerBudgetLedgerV1_encode l = Ok bs /\ wl_network_id l = net.
Proof.
  unfold load. destruct f as [bs|]; [|done]. cbn [ok_or]. intros H. inv_ok. bool_to_prop.
  match goal with E : WorkerBudgetLedgerV1_decode bs = _ |- _ => apply ledger_decode_ok in E as [? ?] end.
  by exists bs.
Qed.

(** The old ledger is what recovery finds when the file is in place, or moved to
    the backup. *)
Lemma recover_current d old net l : load (Some old) net = Ok l -> current old d -> load_recover d net = Ok l.
Proof. unfold load_recover, current. intros Hl ->. by rewrite Hl. Qed.

Lemma recover_replaced d old net l : load (Some old) net = Ok l -> replaced old d -> load_recover d net = Ok l.
Proof. unfold load_recover, replaced. intros Hl [-> ->]. done. Qed.

(** What a caller and a restart can see of a commit: an abstract store that
    either moved from [self] to [candidate] or did not. *)
Definition committed {A} (net : Z) (self candidate : WorkerBudgetLedgerV1) (answer : A)
    (self' : WorkerBudgetLedgerV1) (d d' : disk) (r : returned A) : Prop :=
  match r with
  | Returns (Ok a) => a = answer /\ self' = candidate /\ load (d_cur d') net = Ok candidate
  | Returns (Err e) => self' = self /\ load_recover d' net = Ok self /\ (e <> LedgerIo -> d' = d)
  | Interrupted => load_recover d' net = Ok self \/ load_recover d' net = Ok candidate
  end.

Lemma encode_error l e : WorkerBudgetLedgerV1_encode l = Err e -> e <> LedgerIo.
Proof.
  unfold WorkerBudgetLedgerV1_encode. destruct (try_from _ _); cbn [ok_or]; [|by intros [= <-]].
  generalize (@nil byte). intros b0.
  match goal with |- context [encode_records ?n ?ids ?rs ?b] => generalize ids b end.
  induction (wl_records l) as [|r rs IH]; intros ids b; cbn [encode_records]; [done|].
  destruct (LedgerRecordV1_validate r _) as [?|e'] eqn:Ev.
  - destruct (bool_decide _); [by intros [= <-]|apply IH].
  - intros [= <-]. unfold LedgerRecordV1_validate in Ev. repeat case_match; naive_solver.
Qed.

(** The files hold [self], and a call that replaces them is either made over an
    intact file or is not disturbed. *)
Definition ready (net : Z) (self : WorkerBudgetLedgerV1) (d : disk) (fs : list fault) : Prop :=
  load (d_cur d) net = Ok self \/ (load_recover d net = Ok self /\ forallb is_fine fs = true).

Lemma recover_of_load net d l : load (d_cur d) net = Ok l -> load_recover d net = Ok l.
Proof. unfold load_recover. by intros ->. Qed.

Lemma ready_recover net self d fs : ready net self d fs -> load_recover d net = Ok self.
Proof. intros [?|[? _]]; [by apply recover_of_load|done]. Qed.

Lemma load_recover_inv net d l :
  load_recover d net = Ok l -> exists f, load f net = Ok l.
Proof.
  unfold load_recover. destruct (load (d_cur d) net) eqn:E; [intros <-%Ok_inj; by eexists|].
  destruct (exists_file (d_prev d)); [by eexists|done].
Qed.

Lemma commit_candidate_spec {A} net self candidate (answer : A) d fs :
  ready net self d fs -> ledger_wf candidate -> wl_network_id candidate = net ->
  let '(self', d', _, r) := commit_candidate self candidate answer d fs in
  committed net self candidate answer self' d d' r.
Proof.
  intros Hl Hw Hn. pose proof (ready_recover _ _ _ _ Hl) as Hrec. unfold commit_candidate, persist.
  destruct (WorkerBudgetLedgerV1_encode candidate) as [bs|e] eqn:He; [|done].
  pose proof (load_encode candidate bs net Hw He Hn) as Hc. destruct Hl as [Hl|[_ Hfine]].
  - pose proof (load_inv _ _ _ Hl) as (old & Hold & _). rewrite Hold in Hl.
    pose proof (commit_atomic_triple old bs d fs Hold) as Hp.
    destruct (commit_atomic bs d fs) as [[d' fs'] []]; cbn in Hp |- *.
    + destruct Hp as [-> _]. done.
    + split_and!; [done| |done]. destruct Hp; [by eapply recover_current|by eapply recover_replaced].
    + destruct Hp as [?|[?|?]]; [left; by eapply recover_current|left; by eapply recover_replaced
        |right; by eapply recover_current].
  - destruct (commit_atomic_fine bs d fs Hfine) as (d' & fs' & -> & Hd & _). cbn. by rewrite Hd.
Qed.

Definition extended (self : WorkerBudgetLedgerV1) (record : LedgerRecordV1) : WorkerBudgetLedgerV1 :=
  {| wl_network_id := wl_network_id self; wl_generation := wl_generation self + 1;
     wl_records := wl_records self ++ [record] |}.

Lemma existsb_id (rs : list LedgerRecordV1) id :
  existsb (fun r => bytes_eqb (lg_assignment_id r) id) rs = true <-> id ∈ map lg_assignment_id rs.
Proof.
  rewrite existsb_exists, list_elem_of_In, in_map_iff. split; intros (r & H1 & H2); exists r.
  - by apply bytes_eqb_eq in H2.
  - split; [done|]. by apply bytes_eqb_eq.
Qed.

Lemma extended_wf self record g :
  ledger_wf self -> record_wf record -> checked_add 64 (wl_generation self) 1 = Some g ->
  g = wl_generation self + 1 /\ ledger_wf (extended self record).
Proof.
  intros (Hn & Hg & Hr) Hrec [-> Hlt]%checked_add_Some. split; [done|].
  split; [done|]. split; [cbn; lia|]. cbn. by apply Forall_app, conj, Forall_singleton.
Qed.

(** One reservation, whatever the disk does. *)
Lemma reserve_cases net self record d fs :
  ready net self d fs -> record_wf record ->
  let '(self', d', _, r) := reserve_and_persist self record d fs in
  committed net self (extended self record) (negb (ticket_seen self (lg_ticket_key record))) self' d d' r.
Proof.
  intros Hl Hrec. pose proof (ready_recover _ _ _ _ Hl) as Hrecv.
  pose proof (load_recover_inv _ _ _ Hrecv) as (f & (old & _ & Hw & _ & Hnet)%load_inv).
  unfold reserve_and_persist.
  destruct (LedgerRecordV1_validate record (wl_network_id self)) as [?|e]; [|done].
  destruct (assignment_seen self (lg_assignment_id record)); [done|].
  destruct (checked_add 64 (wl_generation self) 1) as [g|] eqn:Hg; [|done].
  destruct (extended_wf self record g Hw Hrec Hg) as [-> Hwe].
  by apply commit_candidate_spec.
Qed.

Lemma update_first_spec rs id s rs' :
  update_first rs id s = Some rs' ->
  map lg_assignment_id rs' = map lg_assignment_id rs /\
  (Forall record_wf rs -> is_u8 s -> Forall record_wf rs').
Proof.
  revert rs'. induction rs as [|r rs IH]; intros rs'; cbn [update_first]; [done|].
  destruct (bytes_eqb (lg_assignment_id r) id).
  - intros <-%Some_inj. split; [done|]. intros [(?&?&?&?&?&?&?&?&?&?&?) Hr]%Forall_cons Hs.
    constructor; [|done]. repeat split; cbn; lia || done.
  - destruct (update_first rs id s) as [rs1|]; [|done]. intros <-%Some_inj.
    destruct (IH rs1 eq_refl) as [H1 H2]. split; [cbn; congruence|].
    intros [? ?]%Forall_cons ?. constructor; auto.
Qed.

Lemma known_status_u8 s : known_status s = true -> is_u8 s.
Proof.
  unfold known_status. rewrite existsb_exists. intros (x & Hin & ->%Z.eqb_eq).
  cbn in Hin. unfold STATUS_RESERVED, STATUS_SENT, STATUS_COMPLETED_NO_WIN, STATUS_CANDIDATE_WIN,
    STATUS_CANCELLED, STATUS_INVALID_WIN in Hin. lia.
Qed.

Definition with_records (self : WorkerBudgetLedgerV1) (rs : list LedgerRecordV1) : WorkerBudgetLedgerV1 :=
  {| wl_network_id := wl_network_id self; wl_generation := wl_generation self + 1; wl_records := rs |}.

Lemma update_cases net self id s d fs :
  ready net self d fs ->
  let '(self', d', _, r) := update_status_and_persist self id s d fs in
  match update_first (wl_records self) id s with
  | Some rs => committed net self (with_records self rs) tt self' d d' r
  | None => self' = self /\ d' = d /\ exists e, r = Returns (Err e)
  end.
Proof.
  intros Hl. pose proof (ready_recover _ _ _ _ Hl) as Hrecv.
  pose proof (load_recover_inv _ _ _ Hrecv) as (f & (old & _ & (Hn & Hg & Hr) & _ & Hnet)%load_inv).
  unfold update_status_and_persist. destruct (known_status s) eqn:Hs; cbn [negb].
  2:{ destruct (update_first _ _ _); [done|]. split_and!; [done..|]. by eexists. }
  destruct (update_first (wl_records self) id s) as [rs|] eqn:Hu; [|split_and!; [done..|]; by eexists].
  destruct (checked_add 64 (wl_generation self) 1) as [g|] eqn:Hgen; [|done].
  apply checked_add_Some in Hgen as [-> Hlt].
  apply commit_candidate_spec; [done| |done].
  destruct (update_first_spec _ _ _ _ Hu) as [_ Hwf]. split; [done|]. split; [cbn; lia|]. cbn.
  apply Hwf; [done|by apply known_status_u8].
Qed.

(** C34: a reservation is atomic and durable.  Whatever happens to the file-system
    calls (I/O errors at any point, a crash at any point with any partial write),
    a reservation on a ledger whose file is intact refines one atomic step: when
    it returns [Ok], memory and file hold the ledger with the record added and
    the generation advanced, and the answer says whether the ticket is new; when
    it returns an error, memory is unchanged and recovery finds the old ledger
    (nothing was written at all unless the error is an I/O error); when the
    process is stopped, recovery finds the old or the new ledger, nothing else. *)
Theorem reserve_is_atomic net self record d fs :
  load (d_cur d) net = Ok self -> record_wf record ->
  let '(self', d', _, r) := reserve_and_persist self record d fs in
  match r with
  | Returns (Ok is_new) =>
      is_new = negb (ticket_seen self (lg_ticket_key record)) /\
      wl_records self' = wl_records self ++ [record] /\ wl_generation self' = wl_generation self + 1 /\
      load (d_cur d') net = Ok self'
  | Returns (Err e) => self' = self /\ load_recover d' net = Ok self /\ (e <> LedgerIo -> d' = d)
  | Interrupted =>
      load_recover d' net = Ok self \/
      load_recover d' net = Ok {| wl_network_id := wl_network_id self;
        wl_generation := wl_generation self + 1; wl_records := wl_records self ++ [record] |}
  end.
Proof.
  intros Hl Hr. pose proof (reserve_cases net self record d fs (or_introl Hl) Hr) as H.
  destruct (reserve_and_persist self record d fs) as [[[self' d'] fs'] r].
  destruct r as [[a|e]|]; [|exact H..]. destruct H as (-> & -> & H). done.
Qed.

(** ** Whole histories

    The calls on the ledger of one worker account, over any number of processes:
    one goes on after an I/O error, is stopped in the middle of a call or between
    two, and the next one opens the ledger again. *)

Inductive ledger_op := OpStart | OpReserve (record : LedgerRecordV1) | OpStatus (id : bytes32) (status : Z).

Definition op_wf (op : ledger_op) : Prop :=
  match op with OpReserve record => record_wf record | _ => True end.

(** The memory of the process that runs ([None]: none does), the files, and the
    assignment whose reservation returned [Ok]. *)
Definition ledger_step (net : Z) (m : option WorkerBudgetLedgerV1) (d : disk) (op : ledger_op) (fs : list fault)
    : option WorkerBudgetLedgerV1 * disk * option bytes32 :=
  match op, m with
  | OpStart, _ =>
      let '(d, _, r) := open_or_create net d fs in
      (match r with Returns (Ok l) => Some l | _ => None end, d, None)
  | _, None => (None, d, None)
  | OpReserve record, Some self =>
      let '(self, d, _, r) := reserve_and_persist self record d fs in
      match r with
      | Returns (Ok _) => (Some self, d, Some (lg_assignment_id record))
      | Returns (Err _) => (Some self, d, None)
      | Interrupted => (None, d, None)
      end
  | OpStatus id s, Some self =>
      let '(self, d, _, r) := update_status_and_persist self id s d fs in
      (match r with Returns _ => Some self | Interrupted => None end, d, None)
  end.

(** The calls with what befalls each; the acknowledged assignments in order. *)
Fixpoint run_ledger (net : Z) (m : option WorkerBudgetLedgerV1) (d : disk) (calls : list (ledger_op * list fault))
    : option WorkerBudgetLedgerV1 * disk * list bytes32 :=
  match calls with
  | [] => (m, d, [])
  | (op, fs) :: calls =>
      let '(m, d, acked) := ledger_step net m d op fs in
      let '(m, d, rest) := run_ledger net m d calls in
      (m, d, option_list acked ++ rest)
  end.

Definition intact (net : Z) (d : disk) : bool :=
  match load (d_cur d) net with Ok _ => true | Err _ => false end.

(** No call is disturbed while only the backup is good. *)
Fixpoint spared (net : Z) (m : option WorkerBudgetLedgerV1) (d : disk) (calls : list (ledger_op * list fault)) : bool :=
  match calls with
  | [] => true
  | (op, fs) :: calls =>
      (intact net d || forallb is_fine fs) &&
      let '(m, d, _) := ledger_step net m d op fs in spared net m d calls
  end.

Definition ids_of (l : WorkerBudgetLedgerV1) : list bytes32 := map lg_assignment_id (wl_records l).

Lemma recovered_distinct net d l : load_recover d net = Ok l -> NoDup (ids_of l).
Proof. intros (f & (bs & _ & _ & (_ & _ & [Hd _] & _)%ledger_encode_iff & _)%load_inv)%load_recover_inv. done. Qed.

Lemma ids_extended self record : ids_of (extended self record) = ids_of self ++ [lg_assignment_id record].
Proof. unfold ids_of, extended. cbn. by rewrite map_app. Qed.

Lemma reserve_fresh self record d fs :
  match (reserve_and_persist self record d fs).2 with
  | Returns (Ok _) => lg_assignment_id record ∉ ids_of self
  | _ => True
  end.
Proof.
  unfold reserve_and_persist. destruct (LedgerRecordV1_validate _ _); [|done].
  destruct (assignment_seen _ _) eqn:E; [done|]. unfold assignment_seen in E.
  destruct (_ .2) as [[?|?]|]; [|done..]. intros Hin. unfold ids_of in Hin. apply existsb_id in Hin. congruence.
Qed.

(** What one call does to what recovery finds, from [l] to [l']: it keeps every
    assignment, and gains the acknowledged one, which was not there. *)
Definition grows (l l' : WorkerBudgetLedgerV1) (acked : option bytes32) : Prop :=
  (forall id, id ∈ ids_of l -> id ∈ ids_of l') /\
  match acked with Some id => id ∉ ids_of l /\ id ∈ ids_of l' | None => True end.

(** A running process knows what recovery finds. *)
Definition tracks (net : Z) (m : option WorkerBudgetLedgerV1) (d : disk) (l : WorkerBudgetLedgerV1) : Prop :=
  load_recover d net = Ok l /\ (m = None \/ m = Some l).

Lemma ready_of_spared net d fs l :
  load_recover d net = Ok l -> intact net d || forallb is_fine fs = true -> ready net l d fs.
Proof.
  intros Hl [Hi|Hf]%orb_true_iff; [left|by right]. unfold intact, load_recover in *.
  by destruct (load (d_cur d) net).
Qed.

(** [open_or_create] on files that recovery understands only reads. *)
Lemma reopen net d l fs :
  load_recover d net = Ok l -> open_or_create net d fs = (d, fs, Returns (Ok l)).
Proof.
  intros Hl. unfold open_or_create. rewrite Hl.
  destruct (exists_file (d_cur d)) eqn:Ec; [done|]. destruct (exists_file (d_prev d)) eqn:Ep; [done|].
  unfold load_recover, load in Hl. destruct (d_cur d), (d_prev d); done.
Qed.

Lemma grows_same l : grows l l None.
Proof. done. Qed.

Lemma ledger_step_tracks net m d op fs l :
  tracks net m d l -> op_wf op -> intact net d || forallb is_fine fs = true ->
  let '(m', d', acked) := ledger_step net m d op fs in
  exists l', tracks net m' d' l' /\ grows l l' acked.
Proof.
  intros [Hl Hm] Hop Hs. pose proof (ready_of_spared _ _ _ _ Hl Hs) as Hready.
  assert (exists l', tracks net None d l' /\ grows l l' None) as Hidle
    by (exists l; split; [split; [done|by left]|apply grows_same]).
  destruct op as [|record|id s]; cbn [ledger_step].
  - rewrite (reopen _ _ _ _ Hl). exists l. split; [split; [done|by right]|apply grows_same].
  - destruct Hm as [->| ->]; [done|]. pose proof (reserve_cases net l record d fs Hready Hop) as H.
    pose proof (reserve_fresh l record d fs) as Hf.
    destruct (reserve_and_persist l record d fs) as [[[l1 d1] fs1] [[a|e]|]]; cbn in H, Hf.
    + destruct H as (_ & -> & Hload). exists (extended l record). unfold grows. rewrite ids_extended.
      split; [split; [by apply recover_of_load|by right]|]. set_solver.
    + destruct H as (-> & Hrec & _). exists l. split; [split; [done|by right]|apply grows_same].
    + destruct H as [H|H]; [exists l|exists (extended l record)]; (split; [split; [done|by left]|]); [apply grows_same|].
      unfold grows. rewrite ids_extended. set_solver.
  - destruct Hm as [->| ->]; [done|]. pose proof (update_cases net l id s d fs Hready) as H.
    destruct (update_status_and_persist l id s d fs) as [[[l1 d1] fs1] r].
    destruct (update_first (wl_records l) id s) as [rs|] eqn:Hu.
    2:{ destruct H as (-> & -> & e & ->). exists l. split; [split; [done|by right]|apply grows_same]. }
    apply update_first_spec in Hu as [Hids _].
    assert (grows l (with_records l rs) None) as Hg.
    { split; [|done]. intros x. unfold ids_of, with_records. cbn. by rewrite Hids. }
    destruct r as [[a|e]|]; cbn in H.
    + destruct H as (_ & -> & Hload). exists (with_records l rs). split; [split; [by apply recover_of_load|by right]|done].
    + destruct H as (-> & Hrec & _). exists l. split; [split; [done|by right]|apply grows_same].
    + destruct H as [H|H]; [exists l|exists (with_records l rs)]; (split; [split; [done|by left]|done]).
Qed.

(** C35: acknowledged work survives stopped processes.  Take any history of the
    ledger of a worker account, over any number of processes: starts, reservations
    and status changes, each with I/O errors or a stop of the process at any
    file-system call, and the process going on after an error.  It begins with
    files that recovery understands, the current one intact or not, and no call
    is disturbed while only the backup is good (one that is may lose both files,
    see [two_crashes_forget_ledger]).  Then at the end recovery finds a ledger,
    and a running process has the same one in memory.  It holds every assignment
    of the start and every assignment whose reservation ever returned [Ok], and no
    assignment id twice; no id was acknowledged twice, in one process or in
    different ones, nor one that the ledger had at the start. *)
Theorem acknowledged_work_survives net calls m d l0 :
  load_recover d net = Ok l0 -> m = None \/ m = Some l0 -> Forall (fun c => op_wf (fst c)) calls ->
  spared net m d calls = true ->
  let '(m', d', acked) := run_ledger net m d calls in
  exists l, load_recover d' net = Ok l /\ (m' = None \/ m' = Some l) /\ NoDup (ids_of l) /\
    (forall id, id ∈ ids_of l0 -> id ∈ ids_of l) /\ (forall id, id ∈ acked -> id ∈ ids_of l) /\
    NoDup acked /\ (forall id, id ∈ acked -> id ∉ ids_of l0).
Proof.
  intros Hl Hm. pose proof (conj Hl Hm : tracks net m d l0) as Ht. clear Hl Hm. intros Hops.
  revert m d l0 Ht. induction Hops as [|[op fs] calls Hop _ IH]; intros m d l0 Ht; cbn [run_ledger spared].
  - intros _. destruct Ht as [Hl Hm]. exists l0. pose proof (recovered_distinct _ _ _ Hl).
    split_and!; [done..|set_solver|apply NoDup_nil_2|set_solver].
  - intros [Hs Hrest]%andb_true_iff. pose proof (ledger_step_tracks net m d op fs l0 Ht Hop Hs) as H.
    destruct (ledger_step net m d op fs) as [[m1 d1] acked1]. destruct H as (l1 & Ht1 & Hk & Ha).
    specialize (IH m1 d1 l1 Ht1 Hrest). destruct (run_ledger net m1 d1 calls) as [[m2 d2] acked2].
    destruct IH as (l & H1 & H2 & H3 & H4 & H5 & H6 & H7). exists l. split_and!; [done|done|done|auto|..].
    + destruct acked1 as [id|]; cbn [option_list app]; [|done]. destruct Ha. set_solver.
    + destruct acked1 as [id|]; cbn [option_list app]; [|done]. destruct Ha. constructor; [|done]. set_solver.
    + destruct acked1 as [id|]; cbn [option_list app]; [|set_solver]. destruct Ha. set_solver.
Qed.
End safety.

(** ** What the replacement protocol does not survive

    Recovery reads the backup but does not put it back into place.  A commit
    after such a recovery removes the backup first: a second crash right there
    leaves neither file, and the next start creates an empty ledger. *)

Module ledger_demo.
Definition record (i : Z) (b : Byte.byte) : LedgerRecordV1 :=
  {| lg_ticket_key := ticket_key (SHA := sha2_checksum) 7 ZERO32 10 ZERO32 i;
     lg_parent_block_hash := ZERO32; lg_target_epoch := 10; lg_license_id := ZERO32;
     lg_ticket_index := i; lg_work_units_for_epoch := 4; lg_worker_id := ZERO32;
     lg_session_id := ZERO32; lg_assignment_id := replicate 32 b; lg_assignment_sequence := i;
     lg_status := STATUS_RESERVED |}.
Definition ledger1 : WorkerBudgetLedgerV1 :=
  {| wl_network_id := 7; wl_generation := 1; wl_records := [record 0 Byte.x01] |}.
Definition file1 : bytes :=
  match WorkerBudgetLedgerV1_encode (SHA := sha2_checksum) ledger1 with Ok bs => bs | Err _ => [] end.
Definition disk1 : disk := {| d_cur := Some file1; d_next := None; d_prev := None |}.

(** The first crash is between the two renames of a commit, the second, in the
    next run, right after the backup was removed. *)
Definition crash1 : list fault := [Fine; Fine; Crash true None].
Definition crash2 : list fault := [Fine; Fine; Fine; Crash true None].

Definition history : list (ledger_op * list fault) :=
  [(OpReserve (record 1 Byte.x02), crash1); (OpStart, []); (OpReserve (record 2 Byte.x03), []);
   (OpReserve (record 3 Byte.x04), [Fine; IoFails None]); (OpReserve (record 3 Byte.x04), []);
   (OpReserve (record 2 Byte.x03), [])].
End ledger_demo.

Example two_crashes_forget_ledger :
  let '(self1, d1, _, r1) := reserve_and_persist (SHA := sha2_checksum) ledger_demo.ledger1
    (ledger_demo.record 1 Byte.x02) ledger_demo.disk1 ledger_demo.crash1 in
  let '(d2, _, r2) := open_or_create (SHA := sha2_checksum) 7 d1 [] in
  let '(self3, d3, _, r3) := reserve_and_persist (SHA := sha2_checksum) ledger_demo.ledger1
    (ledger_demo.record 1 Byte.x02) d2 ledger_demo.crash2 in
  let '(d4, _, r4) := open_or_create (SHA := sha2_checksum) 7 d3 [] in
  r1 = Interrupted /\ r2 = Returns (Ok ledger_demo.ledger1) /\ r3 = Interrupted /\
  r4 = Returns (Ok (WorkerBudgetLedgerV1_empty 7)).
Proof. vm_compute. repeat split. Qed.

Lemma demo_load : load (SHA := sha2_checksum) (d_cur ledger_demo.disk1) 7 = Ok ledger_demo.ledger1.
Proof. vm_compute. reflexivity. Qed.

Lemma demo_record_wf i b : 0 <= i < 4 -> record_wf (ledger_demo.record i b).
Proof.
  intros Hi. unfold record_wf, ledger_demo.record. cbn [lg_ticket_key lg_parent_block_hash lg_target_epoch
    lg_license_id lg_ticket_index lg_work_units_for_epoch lg_worker_id lg_session_id lg_assignment_id
    lg_assignment_sequence lg_status]. unfold STATUS_RESERVED.
  split_and!; try lia; try done; apply length_be_bytes.
Qed.

Lemma ledger_canonical_witness :
  WorkerBudgetLedgerV1_decode (SHA := sha2_checksum) ledger_demo.file1 = Ok ledger_demo.ledger1 /\
  NoDup (map lg_assignment_id (wl_records ledger_demo.ledger1)).
Proof.
  destruct (ledger_canonical (SHA := sha2_checksum) ledger_demo.file1 ledger_demo.ledger1) as [H1 H2].
  assert (WorkerBudgetLedgerV1_encode (SHA := sha2_checksum) ledger_demo.ledger1 = Ok ledger_demo.file1) as He
    by (vm_compute; reflexivity).
  split; [|exact (proj1 (H2 He))]. apply H1. split; [|exact He].
  split; [cbn; lia|]. split; [cbn; lia|]. constructor; [apply demo_record_wf; lia|constructor].
Defined.

Lemma reserve_is_atomic_witness :
  let '(self', d', _, r) := reserve_and_persist (SHA := sha2_checksum) ledger_demo.ledger1
    (ledger_demo.record 1 Byte.x02) ledger_demo.disk1 [] in
  r = Returns (Ok true) /\ load (SHA := sha2_checksum) (d_cur d') 7 = Ok self'.
Proof.
  pose proof (reserve_is_atomic (SHA := sha2_checksum) 7 ledger_demo.ledger1 (ledger_demo.record 1 Byte.x02)
    ledger_demo.disk1 [] demo_load (demo_record_wf 1 Byte.x02 ltac:(lia))) as H.
  destruct (reserve_and_persist _ _ _ _) as [[[self' d'] fs'] r] eqn:E.
  assert (r = Returns (Ok true)) as -> by (apply (f_equal snd) in E; vm_compute in E; congruence).
  split; [reflexivity|]. destruct H as (_ & _ & _ & H). exact H.
Defined.

(** The first reservation finds the current file, is stopped between the renames
    and leaves the backup only; the next process reads it and reserves in peace; an
    I/O error at the write of the third does not end it; the fourth works, and
    the reservation that was acknowledged before is refused. *)
Lemma acknowledged_work_survives_witness :
  let '(m', d', acked) := run_ledger (SHA := sha2_checksum) 7 (Some ledger_demo.ledger1) ledger_demo.disk1
    ledger_demo.history in
  acked = [replicate 32 Byte.x03; replicate 32 Byte.x04] /\
  exists l, load_recover (SHA := sha2_checksum) d' 7 = Ok l /\ (m' = None \/ m' = Some l) /\ NoDup (ids_of l) /\
    (forall id, id ∈ ids_of ledger_demo.ledger1 -> id ∈ ids_of l) /\ (forall id, id ∈ acked -> id ∈ ids_of l).
Proof.
  pose proof (acknowledged_work_survives (SHA := sha2_checksum) 7 ledger_demo.history (Some ledger_demo.ledger1)
    ledger_demo.disk1 ledger_demo.ledger1 (recover_of_load _ _ _ demo_load) (or_intror eq_refl)
    ltac:(repeat constructor; apply demo_record_wf; lia) ltac:(vm_compute; reflexivity)) as H.
  destruct (run_ledger _ _ _ _) as [[m' d'] acked] eqn:E. split.
  - apply (f_equal snd) in E. vm_compute in E. exact (eq_sym E).
  - destruct H as (l & H1 & H2 & H3 & H4 & H5 & _). exists l. split; [exact H1|]. split; [exact H2|].
    split; [exact H3|]. split; [exact H4|exact H5].
Defined.
