(* ===== verification/Text.v ===== *)
(** Text files of the worker service: what [str] gives the parsers of
    [mutiny-node/src/worker_service.rs] and [worker_scheduler.rs].

    A text is the list of its Unicode scalar values.  [lines], [trim],
    [split_whitespace] and [char::is_whitespace] are the functions of the
    language's library, written out.  64 bytes that are all hexadecimal digits
    are 64 characters that are, so the length of a hexadecimal field may be
    taken in characters. *)

From Stdlib Require Import Strings.Byte.
From S2P Require Import Prelude.

Abbreviation text := (list Z).

Definition LF : Z := 10.
Definition CR : Z := 13.
Definition HASH_SIGN : Z := 35.

(** The characters with the Unicode property White_Space. *)
Definition is_whitespace (c : Z) : bool :=
  ((9 <=? c) && (c <=? 13)) || (c =? 32) || (c =? 0x85) || (c =? 0xA0) || (c =? 0x1680)
  || ((0x2000 <=? c) && (c <=? 0x200A)) || (c =? 0x2028) || (c =? 0x2029) || (c =? 0x202F)
  || (c =? 0x205F) || (c =? 0x3000).

(** A line that ended with a line feed loses one carriage return before it. *)
Definition strip_cr (line : text) : text :=
  match reverse line with c :: line' => if c =? CR then reverse line' else line | [] => [] end.

Fixpoint lines_from (current : text) (t : text) : list text :=
  match t with
  | [] => match current with [] => [] | _ => [reverse current] end
  | c :: t => if c =? LF then strip_cr (reverse current) :: lines_from [] t else lines_from (c :: current) t
  end.
Definition lines : text -> list text := lines_from [].

Fixpoint trim_start (t : text) : text :=
  match t with c :: t' => if is_whitespace c then trim_start t' else t | [] => [] end.
Definition trim (t : text) : text := reverse (trim_start (reverse (trim_start t))).

Fixpoint words_from (current : text) (t : text) : list text :=
  match t with
  | [] => match current with [] => [] | _ => [reverse current] end
  | c :: t =>
      if is_whitespace c
      then match current with [] => words_from [] t | _ => reverse current :: words_from [] t end
      else words_from (c :: current) t
  end.
Definition split_whitespace : text -> list text := words_from [].

(** [split('#').next()] *)
Fixpoint before_hash (t : text) : text :=
  match t with c :: t' => if c =? HASH_SIGN then [] else c :: before_hash t' | [] => [] end.

Definition starts_with_hash (t : text) : bool :=
  match t with c :: _ => c =? HASH_SIGN | [] => false end.

(** ** Hexadecimal fields *)

Definition is_ascii_hexdigit (c : Z) : bool :=
  ((48 <=? c) && (c <=? 57)) || ((97 <=? c) && (c <=? 102)) || ((65 <=? c) && (c <=? 70)).

Definition nibble_value (c : Z) : Z :=
  if (48 <=? c) && (c <=? 57) then c - 48
  else if (97 <=? c) && (c <=? 102) then c - 97 + 10 else c - 65 + 10.

Fixpoint hex_pairs (t : text) : bytes :=
  match t with
  | h :: l :: t => byte_of_Z (Z.lor (Z.shiftl (nibble_value h) 4) (nibble_value l)) :: hex_pairs t
  | _ => []
  end.

(** The 32 bytes of a field, if it is one. *)
Definition hex_field (t : text) : option bytes :=
  if (length t =? 64)%nat && forallb is_ascii_hexdigit t then Some (hex_pairs t) else None.

(** What prints as such a field. *)
Definition hex_digit (n : Z) : Z := if n <? 10 then 48 + n else 87 + n.
Definition hex_text (bs : bytes) : text :=
  concat (map (fun b => [hex_digit (Z.shiftr (Z_of_byte b) 4); hex_digit (Z.land (Z_of_byte b) 15)]) bs).

Lemma hex_text_cons b bs :
  hex_text (b :: bs) = hex_digit (Z.shiftr (Z_of_byte b) 4) :: hex_digit (Z.land (Z_of_byte b) 15) :: hex_text bs.
Proof. done. Qed.

Lemma hex_digit_value n : 0 <= n < 16 ->
  is_ascii_hexdigit (hex_digit n) = true /\ nibble_value (hex_digit n) = n /\ is_whitespace (hex_digit n) = false /\
  hex_digit n <> LF /\ hex_digit n <> HASH_SIGN.
Proof.
  intros H. assert (Forall (fun n => is_ascii_hexdigit (hex_digit n) = true /\ nibble_value (hex_digit n) = n /\
    is_whitespace (hex_digit n) = false /\ hex_digit n <> LF /\ hex_digit n <> HASH_SIGN)
    (map Z.of_nat (seq 0 16))) as Hall.
  { cbn [seq map]. repeat (constructor; [vm_compute; split_and!; (reflexivity || discriminate)|]). constructor. }
  rewrite Forall_forall in Hall. apply Hall, list_elem_of_In, in_map_iff. exists (Z.to_nat n).
  split; [lia|]. apply in_seq. lia.
Qed.

Lemma byte_nibbles b :
  0 <= Z.shiftr (Z_of_byte b) 4 < 16 /\ 0 <= Z.land (Z_of_byte b) 15 < 16 /\
  byte_of_Z (Z.lor (Z.shiftl (Z.shiftr (Z_of_byte b) 4) 4) (Z.land (Z_of_byte b) 15)) = b.
Proof. destruct b; vm_compute; repeat split; congruence. Qed.

Lemma hex_text_field bs : length bs = 32%nat -> hex_field (hex_text bs) = Some bs.
Proof.
  intros Hl. unfold hex_field.
  assert (length (hex_text bs) = (2 * length bs)%nat /\ forallb is_ascii_hexdigit (hex_text bs) = true /\
    hex_pairs (hex_text bs) = bs) as (H1 & H2 & H3).
  { clear Hl. induction bs as [|b bs (I1 & I2 & I3)]; [done|]. rewrite hex_text_cons.
    destruct (byte_nibbles b) as (N1 & N2 & N3). apply hex_digit_value in N1 as (D1 & D2 & _), N2 as (D3 & D4 & _).
    cbn [length forallb hex_pairs]. rewrite D1, D2, D3, D4, N3, I1, I2, I3. split; [lia|done]. }
  by rewrite H1, H2, H3, Hl.
Qed.

(** A text of digits has nothing to trim and no line end. *)
Definition plain (t : text) : Prop := Forall (fun c => is_whitespace c = false /\ c <> LF /\ c <> HASH_SIGN) t.

Lemma hex_text_plain bs : plain (hex_text bs).
Proof.
  induction bs as [|b bs IH]; [constructor|]. rewrite hex_text_cons.
  destruct (byte_nibbles b) as (N1 & N2 & _). apply hex_digit_value in N1 as (_ & _ & ?), N2 as (_ & _ & ?).
  by do 2 (constructor; [done|]).
Qed.

Lemma trim_start_plain t : Forall (fun c => is_whitespace c = false) t -> trim_start t = t.
Proof. destruct 1 as [|c t H _]; [done|]. cbn. by rewrite H. Qed.

Lemma trim_plain t : plain t -> trim t = t.
Proof.
  intros H. assert (Forall (fun c => is_whitespace c = false) t) as Hw by (eapply Forall_impl; [exact H|]; naive_solver).
  unfold trim. rewrite (trim_start_plain t) by done.
  rewrite trim_start_plain by (by apply Forall_reverse). apply reverse_involutive.
Qed.

Lemma lines_from_app current t rest :
  Forall (fun c => c <> LF) t ->
  lines_from current (t ++ LF :: rest) = strip_cr (reverse current ++ t) :: lines_from [] rest.
Proof.
  intros H. revert current. induction H as [|c t Hc _ IH]; intros current; cbn [app lines_from].
  - cbn. by rewrite app_nil_r.
  - destruct (Z.eqb_spec c LF); [done|]. rewrite IH. f_equal. f_equal.
    rewrite reverse_cons, <- app_assoc. done.
Qed.

Lemma strip_cr_plain t : plain t -> strip_cr t = t.
Proof.
  intros H. unfold strip_cr. destruct (reverse t) as [|c l] eqn:E.
  - by rewrite <- (reverse_involutive t), E.
  - destruct (Z.eqb_spec c CR) as [->|]; [|done].
    assert (CR ∈ t) as Hin by (rewrite <- (reverse_involutive t), E; apply elem_of_reverse; left).
    unfold plain in H. rewrite Forall_forall in H. by apply H in Hin as [Hw _].
Qed.

Lemma lines_plain t rest : plain t -> lines (t ++ LF :: rest) = t :: lines rest.
Proof.
  intros H. unfold lines. rewrite lines_from_app.
  - cbn [reverse rev_append app]. by rewrite strip_cr_plain.
  - eapply Forall_impl; [exact H|]. naive_solver.
Qed.
