(* ===== verification/WorkerEndpoint.v ===== *)
(** Crate [mutiny-worker], files endpoint.rs and reference.rs: the mutual
    authentication of a node and a worker, and the worker that answers one
    assignment.

    Both sides are sessions (file P2p).  What the operating system supplies, the
    two nonces, is an argument.  [accept_write_fails] says that the last write
    of the node fails, after the worker has been entered into the registry; a
    failure of an earlier read or write ends the session and changes nothing.
    A [BTreeSet] of worker ids is a finite set.  Projections: [as_]. *)

From Stdlib Require Import Strings.Byte Strings.String.
From stdpp Require Import strings gmap.
From S2P Require Import Prelude Crypto Smt P2p Worker.

Inductive EndpointError :=
| EpPackL (e : PackLError)
| EpFrame (e : P2pError)
| WrongMessageType
| ZeroRequestId
| RequestIdMismatch
| UnauthorizedWorker
| WrongNode
| DuplicateActiveWorker
| EpBadPayloadLength.

Record AuthenticatedWorkerSession := {
  as_worker_id : bytes32;
  as_worker_public_key : bytes32;
  as_node_id : bytes32;
  as_session_id : bytes32;
  as_request_id : Z;
}.

(** ** The registry of active workers *)

Abbreviation ActiveWorkerRegistry := (gset bytes).

(** [BTreeSet::insert] says whether the value is new. *)
Definition claim (active : ActiveWorkerRegistry) (worker_id : bytes32)
    : ActiveWorkerRegistry * result EndpointError unit :=
  let inserted := negb (bool_decide (worker_id ∈ active)) in
  ({[worker_id]} ∪ active, if negb inserted then Err DuplicateActiveWorker else Ok tt).

Definition release (active : ActiveWorkerRegistry) (worker_id : bytes32) : ActiveWorkerRegistry :=
  active ∖ {[worker_id]}.

Definition registry_contains (active : ActiveWorkerRegistry) (worker_id : bytes32) : bool :=
  bool_decide (worker_id ∈ active).

(** ** Frames *)

Section endpoint.
Context {SHA : Sha2} {ED : Ed25519}.

Definition node_id_from_public_key (node_public_key : bytes32) : bytes32 :=
  sha256 (ascii_bytes "MUTINY-NODE-ID-V1" ++ node_public_key).

Definition read_exact_frame (expected_magic expected_type : Z) (expected_request_id : option Z)
    : session EndpointError Frame :=
  let! frame := session_map_err EpFrame (Frame_read_from expected_magic) in
  if negb (fr_message_type frame =? expected_type) then Done (Err WrongMessageType) else
  if match expected_request_id with
     | Some request_id => negb (fr_request_id frame =? request_id)
     | None => false end
  then Done (Err RequestIdMismatch) else Done (Ok frame).

Definition write_frame (magic message_type request_id : Z) (payload : bytes) : session EndpointError unit :=
  let! frame := lift (map_err EpFrame (Frame_new magic message_type request_id payload)) in
  session_map_err EpFrame (Frame_write_to frame).

(** [?] on a function of Pack L *)
Definition pack_l {A} (r : result PackLError A) : session EndpointError A := lift (map_err EpPackL r).

(** ** The node's side *)

(** From the first frame to the verified signature of the worker. *)
Definition authenticate_worker (worker_magic network_id : Z) (node_signing_key node_nonce : bytes)
    (node_capabilities : Z) (allowed_workers : gset bytes)
    : session EndpointError (Z * WorkerHelloV1 * NodeChallengeV1 * bytes) :=
  let! hello_frame := read_exact_frame worker_magic MSG_WORKER_HELLO None in
  if fr_request_id hello_frame =? 0 then Done (Err ZeroRequestId) else
  let! hello := pack_l (WorkerHelloV1_decode (fr_payload hello_frame)) in
  if negb (wh_network_id hello =? network_id)
  then Done (Err (EpPackL (PLInvalidField "WorkerHello NetworkID mismatch"))) else
  let worker_id_value := WorkerHelloV1_worker_id hello in
  if negb (bool_decide (worker_id_value ∈ allowed_workers)) then Done (Err UnauthorizedWorker) else
  let node_public_key := sk_public node_signing_key in
  let node_id := node_id_from_public_key node_public_key in
  let challenge := {| nc_network_id := network_id; nc_node_id := node_id;
    nc_node_public_key := node_public_key; nc_worker_id := worker_id_value;
    nc_worker_nonce := wh_worker_nonce hello; nc_node_nonce := node_nonce;
    nc_capabilities := node_capabilities |} in
  let! _ := write_frame worker_magic MSG_NODE_CHALLENGE (fr_request_id hello_frame)
              (NodeChallengeV1_encode challenge) in
  let! auth_frame := read_exact_frame worker_magic MSG_WORKER_AUTH (Some (fr_request_id hello_frame)) in
  if negb (length (fr_payload auth_frame) =? 64)%nat then Done (Err EpBadPayloadLength) else
  let worker_signature := fr_payload auth_frame in
  let! _ := pack_l (verify_worker_auth (wh_worker_public_key hello) hello challenge worker_signature) in
  Done (Ok (fr_request_id hello_frame, hello, challenge, worker_signature)).

(** The registry is returned with the outcome from the moment it is touched;
    before that, an error of the session leaves it as it was. *)
Definition accept_worker_handshake (worker_magic network_id : Z) (node_signing_key node_nonce : bytes)
    (node_capabilities : Z) (allowed_workers : gset bytes) (active_workers : ActiveWorkerRegistry)
    (accept_write_fails : bool)
    : session EndpointError (ActiveWorkerRegistry * result EndpointError AuthenticatedWorkerSession) :=
  let! (request_id, hello, challenge, worker_signature) :=
    authenticate_worker worker_magic network_id node_signing_key node_nonce node_capabilities
      allowed_workers in
  let worker_id_value := WorkerHelloV1_worker_id hello in
  match claim active_workers worker_id_value with
  | (active_workers, Err e) => Done (Ok (active_workers, Err e))
  | (active_workers, Ok _) =>
      let node_signature := sign_node_accept node_signing_key hello challenge worker_signature in
      let sid := session_id hello challenge worker_signature node_signature in
      if accept_write_fails
      then Done (Ok (release active_workers worker_id_value, Err (EpFrame Io))) else
      let! _ := write_frame worker_magic MSG_NODE_ACCEPT request_id node_signature in
      Done (Ok (active_workers,
        Ok {| as_worker_id := worker_id_value; as_worker_public_key := wh_worker_public_key hello;
              as_node_id := nc_node_id challenge; as_session_id := sid;
              as_request_id := request_id |}))
  end.

(** The registry after a call. *)
Definition registry_after {A : Type} (active : ActiveWorkerRegistry)
    (r : result EndpointError (ActiveWorkerRegistry * A)) : ActiveWorkerRegistry :=
  match r with Ok (active, _) => active | Err _ => active end.

(** ** The worker's side *)

Definition initiate_worker_handshake (worker_magic network_id : Z) (worker_signing_key worker_nonce : bytes)
    (worker_capabilities max_parallelism request_id : Z) (expected_node_id : bytes32)
    : session EndpointError AuthenticatedWorkerSession :=
  if request_id =? 0 then Done (Err ZeroRequestId) else
  let worker_public_key := sk_public worker_signing_key in
  let hello := {| wh_network_id := network_id; wh_worker_public_key := worker_public_key;
    wh_worker_nonce := worker_nonce; wh_capabilities := worker_capabilities;
    wh_max_parallelism := max_parallelism |} in
  let! _ := write_frame worker_magic MSG_WORKER_HELLO request_id (WorkerHelloV1_encode hello) in
  let! challenge_frame := read_exact_frame worker_magic MSG_NODE_CHALLENGE (Some request_id) in
  let! challenge := pack_l (NodeChallengeV1_decode (fr_payload challenge_frame)) in
  let! _ := pack_l (NodeChallengeV1_validate_for_hello challenge hello) in
  let derived_node_id := node_id_from_public_key (nc_node_public_key challenge) in
  if negb (bytes_eqb (nc_node_id challenge) derived_node_id)
     || negb (bytes_eqb (nc_node_id challenge) expected_node_id)
  then Done (Err WrongNode) else
  let worker_signature := sign_worker_auth worker_signing_key hello challenge in
  let! _ := write_frame worker_magic MSG_WORKER_AUTH request_id worker_signature in
  let! accept_frame := read_exact_frame worker_magic MSG_NODE_ACCEPT (Some request_id) in
  if negb (length (fr_payload accept_frame) =? 64)%nat then Done (Err EpBadPayloadLength) else
  let node_signature := fr_payload accept_frame in
  let! _ := pack_l (verify_node_accept (nc_node_public_key challenge) hello challenge worker_signature
                      node_signature) in
  Done (Ok {| as_worker_id := worker_id network_id worker_public_key;
              as_worker_public_key := worker_public_key;
              as_node_id := nc_node_id challenge;
              as_session_id := session_id hello challenge worker_signature node_signature;
              as_request_id := request_id |}).
End endpoint.

(** ** The reference worker *)

Inductive ReferenceWorkerError :=
| RwPackL (e : PackLError)
| RwFrame (e : P2pError)
| RwCrypto (e : CryptoError)
| RwSession (what : string).

Section reference.
Context {SHA : Sha2} {ED : Ed25519} {AR : Argon2}.

Definition execute_assignment (assignment : WorkAssignmentV1) (session : AuthenticatedWorkerSession)
    (expected_node_public_key : bytes32) (worker_signing_key : bytes)
    : result ReferenceWorkerError WorkResultV1 :=
  let core := wa_core assignment in
  let? _ := map_err RwPackL (WorkAssignmentV1_verify_node_signature assignment expected_node_public_key) in
  if negb (bytes_eqb (node_id_from_public_key expected_node_public_key) (as_node_id session))
  then Err (RwSession "paired NodeID mismatch") else
  if negb (bytes_eqb (ac_session_id core) (as_session_id session))
  then Err (RwSession "SessionID mismatch") else
  if negb (bytes_eqb (ac_worker_id core) (as_worker_id session))
  then Err (RwSession "WorkerID mismatch") else
  if negb (bytes_eqb (ac_node_id core) (as_node_id session))
  then Err (RwSession "NodeID mismatch") else
  let worker_public_key := sk_public worker_signing_key in
  if negb (bytes_eqb worker_public_key (as_worker_public_key session))
  then Err (RwSession "worker signing key does not match authenticated session") else
  if negb (bytes_eqb (worker_id (ac_network_id core) worker_public_key) (as_worker_id session))
  then Err (RwSession "worker signing key does not derive authenticated WorkerID") else
  let es := epoch_seed (ac_anchor_entropy core) (ac_target_epoch core) in
  let seed := ticket_seed es (ac_license_id core) (ac_ticket_index core) in
  let salt := ticket_salt es (ac_license_id core) (ac_ticket_index core) in
  let? proof := map_err RwCrypto (mutiny_argon2id seed salt) in
  let winning := proof_below_target proof (ac_target core) in
  let result_core := {| rc_network_id := ac_network_id core; rc_session_id := as_session_id session;
    rc_assignment_id := wa_assignment_id assignment; rc_ticket_key := wa_ticket_key assignment;
    rc_worker_id := as_worker_id session;
    rc_result_kind := if winning then RESULT_WIN else RESULT_NO_WIN;
    rc_argon2_proof := if winning then proof else replicate 32 Byte.x00 |} in
  map_err RwPackL (WorkResultV1_new_signed result_core worker_signing_key).

Definition process_one_assignment (worker_magic : Z) (session_ : AuthenticatedWorkerSession)
    (expected_node_public_key : bytes32) (worker_signing_key : bytes)
    : session ReferenceWorkerError WorkResultV1 :=
  let! frame := session_map_err RwFrame (Frame_read_from worker_magic) in
  if negb (fr_message_type frame =? MSG_WORK_ASSIGNMENT)
  then Done (Err (RwSession "expected WORK_ASSIGNMENT message")) else
  if fr_request_id frame =? 0
  then Done (Err (RwSession "WORK_ASSIGNMENT request_id must be nonzero")) else
  let! assignment := lift (map_err RwPackL (WorkAssignmentV1_decode (fr_payload frame))) in
  let! result := lift (execute_assignment assignment session_ expected_node_public_key worker_signing_key) in
  let! response := lift (map_err RwFrame
    (Frame_new worker_magic MSG_WORK_RESULT (fr_request_id frame) (WorkResultV1_encode result))) in
  let! _ := session_map_err RwFrame (Frame_write_to response) in
  Done (Ok result).
End reference.

(** ** Frames on the wire *)

(** The errors of a session mapped, the error at the end of the stream too. *)
Lemma play_map {E F A} (f : E -> F) (e : E) (s : session E A) input :
  play (f e) (session_map_err f s) input
  = let '(r, out, rest) := play e s input in (map_err f r, out, rest).
Proof.
  revert input. induction s as [r|bs k IH|n k IH]; intros input; cbn [session_map_err play]; [done| |].
  - rewrite IH. by destruct (play e k input) as [[r out] rest].
  - destruct (_ <? n)%nat; [done|]. apply IH.
Qed.

Section wire.
Context {SHA : Sha2}.

Lemma small_new magic ty id payload :
  Z.of_nat (length payload) <= 1048576 -> Frame_new magic ty id payload = Ok (message magic ty id payload).
Proof.
  intros Hl. unfold Frame_new. change MAX_P2P_PAYLOAD with 1048576.
  destruct (Z.ltb_spec 1048576 (Z.of_nat (length payload))); [lia|done].
Qed.

Lemma small_write {F} (f : P2pError -> F) magic ty id payload input :
  Z.of_nat (length payload) <= 1048576 ->
  play (f Io) (session_map_err f (Frame_write_to (message magic ty id payload))) input
  = (Ok tt, wire (message magic ty id payload), input).
Proof.
  intros Hl. rewrite play_map, (run_write_to _ (wire (message magic ty id payload))); [done|].
  apply frame_encode_eq. split; [exact Hl|done].
Qed.

Lemma small_read {F} (f : P2pError -> F) magic ty id payload rest :
  is_u32 magic -> is_u16 ty -> is_u64 id -> Z.of_nat (length payload) <= 1048576 ->
  play (f Io) (session_map_err f (Frame_read_from magic)) (wire (message magic ty id payload) ++ rest)
  = (Ok (message magic ty id payload), [], rest).
Proof.
  intros H1 H2 H3 Hl. rewrite play_map.
  rewrite (proj2 (run_read_from magic _ (message magic ty id payload) [] rest)); [done|].
  split; [|done]. unfold frame_wf. cbn [message fr_magic fr_version fr_message_type fr_flags
    fr_request_id fr_payload]. change MAX_P2P_PAYLOAD with 1048576. done.
Qed.

Lemma write_frame_run magic ty id payload input :
  Z.of_nat (length payload) <= 1048576 ->
  play (EpFrame Io) (write_frame magic ty id payload) input = (Ok tt, wire (message magic ty id payload), input).
Proof.
  intros Hl. unfold write_frame. rewrite small_new by done.
  eapply run_seq; [reflexivity|by apply small_write|done].
Qed.

Lemma read_frame_run magic ty expected id payload rest :
  is_u32 magic -> is_u16 ty -> is_u64 id -> Z.of_nat (length payload) <= 1048576 ->
  (expected = None \/ expected = Some id) ->
  play (EpFrame Io) (read_exact_frame magic ty expected) (wire (message magic ty id payload) ++ rest)
  = (Ok (message magic ty id payload), [], rest).
Proof.
  intros H1 H2 H3 Hl He. unfold read_exact_frame. eapply run_seq; [by apply small_read| |done].
  cbn [message fr_message_type fr_request_id]. rewrite Z.eqb_refl. cbn [negb].
  destruct He as [-> | ->]; [done|]. by rewrite Z.eqb_refl.
Qed.

(** What a read gave, whatever arrived. *)
Lemma read_frame_ok magic ty expected input f out rest :
  play (EpFrame Io) (read_exact_frame magic ty expected) input = (Ok f, out, rest) ->
  frame_wf f /\ fr_message_type f = ty /\ (forall id, expected = Some id -> fr_request_id f = id).
Proof.
  unfold read_exact_frame. intros (g & o1 & r1 & o2 & H1 & H2 & _)%run_bind_ok.
  rewrite play_map in H1. destruct (play Io (Frame_read_from magic) input) as [[[g'|] o] r] eqn:E; [|done].
  injection H1 as -> <- <-. apply run_read_from in E as (Hw & _).
  destruct (negb (fr_message_type g =? ty)) eqn:E1; [done|].
  destruct expected as [id|].
  - destruct (negb (fr_request_id g =? id)) eqn:E2; [done|]. cbn in H2. injection H2 as <- _ _.
    bool_to_prop. split_and!; [done..|]. by intros ? [= <-].
  - cbn in H2. injection H2 as <- _ _. bool_to_prop. done.
Qed.
End wire.

(** ** The registry *)

Lemma claim_fresh active w : w ∉ active -> claim active w = ({[w]} ∪ active, Ok tt).
Proof. intros H. unfold claim. by rewrite bool_decide_eq_false_2. Qed.

Lemma claim_taken active w : w ∈ active -> claim active w = (active, Err DuplicateActiveWorker).
Proof. intros H. unfold claim. rewrite bool_decide_eq_true_2 by done. f_equal. set_solver. Qed.

Lemma release_claimed active w : w ∉ active -> release ({[w]} ∪ active) w = active.
Proof. unfold release. set_solver. Qed.

Section handshake.
Context {SHA : Sha2} {ED : Ed25519}.

(** What the two sides of a handshake say. *)
Definition hello_of (network_id : Z) (worker_key worker_nonce : bytes) (capabilities max_parallelism : Z)
    : WorkerHelloV1 :=
  {| wh_network_id := network_id; wh_worker_public_key := sk_public worker_key;
     wh_worker_nonce := worker_nonce; wh_capabilities := capabilities;
     wh_max_parallelism := max_parallelism |}.

Definition challenge_of (node_key node_nonce : bytes) (capabilities : Z) (hello : WorkerHelloV1)
    : NodeChallengeV1 :=
  {| nc_network_id := wh_network_id hello; nc_node_id := node_id_from_public_key (sk_public node_key);
     nc_node_public_key := sk_public node_key; nc_worker_id := WorkerHelloV1_worker_id hello;
     nc_worker_nonce := wh_worker_nonce hello; nc_node_nonce := node_nonce;
     nc_capabilities := capabilities |}.

Definition session_of (request_id : Z) (hello : WorkerHelloV1) (challenge : NodeChallengeV1)
    (worker_signature node_signature : bytes) : AuthenticatedWorkerSession :=
  {| as_worker_id := WorkerHelloV1_worker_id hello; as_worker_public_key := wh_worker_public_key hello;
     as_node_id := nc_node_id challenge;
     as_session_id := session_id hello challenge worker_signature node_signature;
     as_request_id := request_id |}.

Lemma challenge_of_wf node_key node_nonce capabilities hello :
  hello_wf hello -> is32 node_nonce -> is_u64 capabilities ->
  challenge_wf (challenge_of node_key node_nonce capabilities hello).
Proof.
  intros (H1 & H2 & H3 & H4 & H5) Hn Hc. unfold challenge_wf, challenge_of.
  cbn [nc_network_id nc_node_id nc_node_public_key nc_worker_id nc_worker_nonce nc_node_nonce nc_capabilities].
  refine (conj H1 (conj _ (conj _ (conj _ (conj H3 (conj Hn Hc)))))).
  - apply sha256_length.
  - apply sk_public_length.
  - apply hash_parts_length.
Qed.

Lemma challenge_of_validates node_key node_nonce capabilities hello :
  NodeChallengeV1_validate_for_hello (challenge_of node_key node_nonce capabilities hello) hello = Ok tt.
Proof.
  unfold NodeChallengeV1_validate_for_hello, challenge_of.
  cbn [nc_network_id nc_worker_id nc_worker_nonce]. by rewrite Z.eqb_refl, !bytes_eqb_refl.
Qed.

(** *** Two honest sides *)

Section honest.
Context (node_key worker_key node_nonce worker_nonce : bytes) (magic request_id : Z).
Context (network_id worker_capabilities node_capabilities max_parallelism : Z).

Let hello := hello_of network_id worker_key worker_nonce worker_capabilities max_parallelism.
Let challenge := challenge_of node_key node_nonce node_capabilities hello.
Let worker_signature := sign_worker_auth worker_key hello challenge.
Let node_signature := sign_node_accept node_key hello challenge worker_signature.

Context (Hmagic : is_u32 magic) (Hid : is_u64 request_id) (Hid0 : request_id <> 0).
Context (Hnet : is_u32 network_id) (Hwc : is_u64 worker_capabilities) (Hnc : is_u64 node_capabilities).
Context (Hpar : is_u16 max_parallelism) (Hnn : is32 node_nonce) (Hwn : is32 worker_nonce).

Lemma honest_hello_wf : hello_wf hello.
Proof.
  unfold hello_wf. cbn [hello hello_of wh_network_id wh_worker_public_key wh_worker_nonce
    wh_capabilities wh_max_parallelism].
  exact (conj Hnet (conj (sk_public_length _) (conj Hwn (conj Hwc Hpar)))).
Qed.

Lemma honest_challenge_wf : challenge_wf challenge.
Proof. apply challenge_of_wf; [apply honest_hello_wf|done..]. Qed.

Lemma honest_validates : NodeChallengeV1_validate_for_hello challenge hello = Ok tt.
Proof. apply challenge_of_validates. Qed.

Definition from_worker : bytes :=
  wire (message magic MSG_WORKER_HELLO request_id (WorkerHelloV1_encode hello))
  ++ wire (message magic MSG_WORKER_AUTH request_id worker_signature).
Definition from_node : bytes :=
  wire (message magic MSG_NODE_CHALLENGE request_id (NodeChallengeV1_encode challenge))
  ++ wire (message magic MSG_NODE_ACCEPT request_id node_signature).

Lemma honest_lengths :
  Z.of_nat (length (WorkerHelloV1_encode hello)) <= 1048576 /\
  Z.of_nat (length (NodeChallengeV1_encode challenge)) <= 1048576 /\
  length worker_signature = 64%nat /\ length node_signature = 64%nat.
Proof.
  rewrite hello_length by apply honest_hello_wf. rewrite challenge_length by apply honest_challenge_wf.
  unfold WORKER_HELLO_LEN, NODE_CHALLENGE_LEN, worker_signature, node_signature, sign_worker_auth,
    sign_node_accept. rewrite !sk_sign_length. lia.
Qed.

Lemma initiate_run rest :
  play (EpFrame Io)
    (initiate_worker_handshake magic network_id worker_key worker_nonce worker_capabilities
       max_parallelism request_id (node_id_from_public_key (sk_public node_key)))
    (from_node ++ rest)
  = (Ok (session_of request_id hello challenge worker_signature node_signature), from_worker, rest).
Proof.
  destruct honest_lengths as (L1 & L2 & L3 & L4). unfold initiate_worker_handshake, from_node, from_worker.
  destruct (Z.eqb_spec request_id 0); [done|]. fold (hello_of network_id worker_key worker_nonce
    worker_capabilities max_parallelism). fold hello. rewrite <- app_assoc.
  eapply run_seq; [by apply write_frame_run| |reflexivity].
  eapply run_seq; [apply read_frame_run; (done || tauto)| |symmetry; apply app_nil_l].
  cbn [message fr_payload]. unfold pack_l. rewrite (proj2 (challenge_codec _ challenge))
    by (split; [apply honest_challenge_wf|done]).
  eapply run_seq; [reflexivity| |symmetry; apply app_nil_l]. rewrite honest_validates.
  eapply run_seq; [reflexivity| |symmetry; apply app_nil_l].
  unfold challenge at 1 2 3, challenge_of. cbn [nc_node_id nc_node_public_key]. rewrite bytes_eqb_refl. cbn [negb orb].
  eapply run_seq; [apply write_frame_run; fold worker_signature; lia| |fold worker_signature; symmetry; apply app_nil_r].
  eapply run_seq; [apply read_frame_run; (done || tauto || lia)| |symmetry; apply app_nil_l].
  cbn [message fr_payload]. rewrite L4. cbn [Nat.eqb negb].
  fold worker_signature. unfold challenge at 1, challenge_of. cbn [nc_node_public_key].
  unfold verify_node_accept. fold challenge. unfold node_signature at 1, sign_node_accept.
  rewrite verify_message_signed. reflexivity.
Qed.

Lemma authenticate_run allowed rest :
  WorkerHelloV1_worker_id hello ∈ allowed ->
  play (EpFrame Io)
    (authenticate_worker magic network_id node_key node_nonce node_capabilities allowed) (from_worker ++ rest)
  = (Ok (request_id, hello, challenge, worker_signature),
     wire (message magic MSG_NODE_CHALLENGE request_id (NodeChallengeV1_encode challenge)), rest).
Proof.
  intros Hallowed. destruct honest_lengths as (L1 & L2 & L3 & L4). unfold authenticate_worker, from_worker.
  rewrite <- app_assoc.
  eapply run_seq; [apply read_frame_run; (done || tauto)| |symmetry; apply app_nil_l].
  cbn [message fr_request_id fr_payload]. destruct (Z.eqb_spec request_id 0); [done|].
  unfold pack_l. rewrite (proj2 (hello_codec _ hello)) by (split; [apply honest_hello_wf|done]).
  eapply run_seq; [reflexivity| |symmetry; apply app_nil_l].
  unfold hello at 1, hello_of. cbn [wh_network_id]. rewrite Z.eqb_refl. cbn [negb].
  rewrite bool_decide_eq_true_2 by done. cbn [negb].
  match goal with |- context [Build_NodeChallengeV1 ?a ?b ?c ?d ?e ?f ?g] =>
    change (Build_NodeChallengeV1 a b c d e f g) with challenge end.
  eapply run_seq; [by apply write_frame_run| |symmetry; apply app_nil_r].
  eapply run_seq; [apply read_frame_run; (done || tauto || lia)| |symmetry; apply app_nil_l].
  cbn [message fr_payload]. rewrite L3. cbn [Nat.eqb negb].
  unfold verify_worker_auth. rewrite honest_validates. unfold worker_signature at 1, sign_worker_auth.
  unfold hello at 1, hello_of. cbn [wh_worker_public_key]. rewrite verify_message_signed. reflexivity.
Qed.

Lemma accept_run allowed active rest :
  WorkerHelloV1_worker_id hello ∈ allowed -> WorkerHelloV1_worker_id hello ∉ active ->
  play (EpFrame Io)
    (accept_worker_handshake magic network_id node_key node_nonce node_capabilities allowed active false)
    (from_worker ++ rest)
  = (Ok ({[WorkerHelloV1_worker_id hello]} ∪ active,
         Ok (session_of request_id hello challenge worker_signature node_signature)), from_node, rest).
Proof.
  intros Hallowed Hactive. destruct honest_lengths as (L1 & L2 & L3 & L4).
  unfold accept_worker_handshake, from_node.
  eapply run_seq; [by apply authenticate_run| |reflexivity]. cbn beta iota.
  rewrite claim_fresh by done. fold node_signature.
  eapply run_seq; [apply write_frame_run; lia|reflexivity|symmetry; apply app_nil_r].
Qed.
End honest.

(** An honest node and an honest worker that is allowed and not yet active
    complete the handshake, and both hold the very same session. *)
Theorem worker_handshake_completes node_key worker_key node_nonce worker_nonce magic request_id network_id
    worker_capabilities node_capabilities max_parallelism allowed active :
  is_u32 magic -> is_u64 request_id -> request_id <> 0 -> is_u32 network_id ->
  is_u64 worker_capabilities -> is_u64 node_capabilities -> is_u16 max_parallelism ->
  is32 node_nonce -> is32 worker_nonce ->
  worker_id network_id (sk_public worker_key) ∈ allowed ->
  worker_id network_id (sk_public worker_key) ∉ active ->
  exists from_node from_worker session,
    play (EpFrame Io)
      (initiate_worker_handshake magic network_id worker_key worker_nonce worker_capabilities
         max_parallelism request_id (node_id_from_public_key (sk_public node_key))) from_node
      = (Ok session, from_worker, []) /\
    play (EpFrame Io)
      (accept_worker_handshake magic network_id node_key node_nonce node_capabilities allowed active false)
      from_worker
      = (Ok ({[as_worker_id session]} ∪ active, Ok session), from_node, []).
Proof.
  intros H1 H2 H3 H4 H5 H6 H7 H8 H9 Ha Hn.
  set (hello := hello_of network_id worker_key worker_nonce worker_capabilities max_parallelism).
  set (challenge := challenge_of node_key node_nonce node_capabilities hello).
  set (ws := sign_worker_auth worker_key hello challenge).
  exists (from_node node_key worker_key node_nonce worker_nonce magic request_id network_id
            worker_capabilities node_capabilities max_parallelism),
    (from_worker node_key worker_key node_nonce worker_nonce magic request_id network_id
            worker_capabilities node_capabilities max_parallelism),
    (session_of request_id hello challenge ws (sign_node_accept node_key hello challenge ws)).
  split.
  - rewrite <- (app_nil_r (from_node _ _ _ _ _ _ _ _ _ _)). by apply initiate_run.
  - rewrite <- (app_nil_r (from_worker _ _ _ _ _ _ _ _ _ _)). by apply accept_run.
Qed.

(** *** Whatever the other side sends *)

Ltac ep_step H x :=
  let Hx := fresh "Hstep" in
  apply run_bind_ok in H as (x & ? & ? & ? & Hx & H & _).

Lemma pack_l_ok {A} (r : result PackLError A) input a out rest :
  play (EpFrame Io) (pack_l r) input = (Ok a, out, rest) -> r = Ok a.
Proof. unfold pack_l. intros (Hr & _)%run_lift_ok. destruct r; [by injection Hr as -> | done]. Qed.

Lemma validate_for_hello_ok c h :
  NodeChallengeV1_validate_for_hello c h = Ok tt ->
  nc_network_id c = wh_network_id h /\ nc_worker_id c = WorkerHelloV1_worker_id h /\
  nc_worker_nonce c = wh_worker_nonce h.
Proof.
  unfold NodeChallengeV1_validate_for_hello.
  destruct (negb (_ =? _)) eqn:E1; [done|]. destruct (negb (bytes_eqb _ _)) eqn:E2 in |- *; [done|].
  destruct (negb (bytes_eqb _ _)) eqn:E3 in |- *; [done|]. intros _. by bool_to_prop.
Qed.

Lemma authenticate_sound magic net node_key node_nonce caps allowed input id hello challenge ws out rest :
  is32 node_nonce -> is_u64 caps ->
  play (EpFrame Io) (authenticate_worker magic net node_key node_nonce caps allowed) input
  = (Ok (id, hello, challenge, ws), out, rest) ->
  id <> 0 /\ hello_wf hello /\ wh_network_id hello = net /\ WorkerHelloV1_worker_id hello ∈ allowed /\
  challenge = challenge_of node_key node_nonce caps hello /\ length ws = 64%nat /\
  vk_verify (wh_worker_public_key hello) (worker_auth_message hello challenge) ws = true.
Proof.
  intros Hn Hc H. unfold authenticate_worker in H. ep_step H frame.
  destruct (fr_request_id frame =? 0) eqn:E0; [done|]. ep_step H h.
  apply pack_l_ok, hello_codec in Hstep0 as [Hh _].
  destruct (negb (wh_network_id h =? net)) eqn:E1; [done|].
  destruct (negb (bool_decide _)) eqn:E2; [done|]. apply negb_false_iff, bool_decide_eq_true in E2.
  ep_step H u. ep_step H auth.
  destruct (negb (length (fr_payload auth) =? 64)%nat) eqn:E3; [done|]. ep_step H v.
  apply pack_l_ok in Hstep2. cbn in H. injection H as <- <- <- <- _ _. bool_to_prop. subst net.
  split_and!; try done. unfold verify_worker_auth in Hstep2.
  destruct (NodeChallengeV1_validate_for_hello _ _); [|done]. destruct v.
  by apply verify_message_ok in Hstep2 as [_ Hv].
Qed.

Lemma accept_sound magic net node_key node_nonce caps allowed active fails input active' s out rest :
  is32 node_nonce -> is_u64 caps ->
  play (EpFrame Io) (accept_worker_handshake magic net node_key node_nonce caps allowed active fails) input
  = (Ok (active', Ok s), out, rest) ->
  exists hello ws id, hello_wf hello /\ wh_network_id hello = net /\
    let challenge := challenge_of node_key node_nonce caps hello in
    let w := WorkerHelloV1_worker_id hello in
    w ∈ allowed /\ w ∉ active /\ active' = {[w]} ∪ active /\ length ws = 64%nat /\ fails = false /\
    vk_verify (wh_worker_public_key hello) (worker_auth_message hello challenge) ws = true /\
    s = session_of id hello challenge ws (sign_node_accept node_key hello challenge ws).
Proof.
  intros Hn Hc H. unfold accept_worker_handshake in H. ep_step H p. destruct p as [[[id hello] challenge] ws].
  apply authenticate_sound in Hstep as (Hid & Hh & Hnet & Ha & -> & Hl & Hv); [|done..].
  exists hello, ws, id. cbv zeta. destruct (decide (WorkerHelloV1_worker_id hello ∈ active)) as [Hi|Hi].
  { by rewrite claim_taken in H. }
  rewrite claim_fresh in H by done. destruct fails; [done|]. ep_step H u. cbn in H.
  by injection H as <- <- _ _.
Qed.

(** No failure of a handshake changes the registry. *)
Lemma accept_fails_cleanly magic net node_key node_nonce caps allowed active fails input r out rest :
  play (EpFrame Io) (accept_worker_handshake magic net node_key node_nonce caps allowed active fails) input
  = (r, out, rest) ->
  (forall active' s, r <> Ok (active', Ok s)) -> registry_after active r = active.
Proof.
  destruct r as [[active' [s|e]]|e]; intros H Hr; [by destruct (Hr active' s)| |done]. cbn [registry_after].
  unfold accept_worker_handshake in H. ep_step H p. destruct p as [[[id hello] challenge] ws]. clear Hstep Hr.
  destruct (decide (WorkerHelloV1_worker_id hello ∈ active)) as [Hi|Hi].
  - rewrite claim_taken in H by done. by injection H.
  - rewrite claim_fresh in H by done. destruct fails.
    + injection H as <- _ _ _. by apply release_claimed.
    + ep_step H u. done.
Qed.

Lemma initiate_sound magic net worker_key worker_nonce caps par id expected input s out rest :
  play (EpFrame Io) (initiate_worker_handshake magic net worker_key worker_nonce caps par id expected) input
  = (Ok s, out, rest) ->
  let hello := hello_of net worker_key worker_nonce caps par in
  exists challenge ns, challenge_wf challenge /\ id <> 0 /\ length ns = 64%nat /\
    nc_network_id challenge = net /\ nc_worker_id challenge = WorkerHelloV1_worker_id hello /\
    nc_worker_nonce challenge = worker_nonce /\
    nc_node_id challenge = expected /\ node_id_from_public_key (nc_node_public_key challenge) = expected /\
    let ws := sign_worker_auth worker_key hello challenge in
    vk_verify (nc_node_public_key challenge) (node_accept_message hello challenge ws) ns = true /\
    s = session_of id hello challenge ws ns.
Proof.
  intros H. cbv zeta. unfold initiate_worker_handshake in H.
  fold (hello_of net worker_key worker_nonce caps par) in H. set (hello := hello_of _ _ _ _ _) in *.
  destruct (id =? 0) eqn:E0; [done|]. ep_step H u. ep_step H frame. ep_step H c.
  apply pack_l_ok, challenge_codec in Hstep1 as [Hc _]. ep_step H v. apply pack_l_ok in Hstep1.
  destruct v. apply validate_for_hello_ok in Hstep1 as (V1 & V2 & V3).
  destruct (negb _ || negb _) eqn:E1; [done|]. apply orb_false_iff in E1 as [E1 E2].
  ep_step H w. ep_step H accept. destruct (negb (length _ =? 64)%nat) eqn:E3; [done|]. ep_step H verified.
  apply pack_l_ok in Hstep3. destruct verified. cbn in H. injection H as <- _ _. bool_to_prop.
  exists c, (fr_payload accept). apply verify_message_ok in Hstep3 as [_ Hv].
  split_and!; try done. by rewrite <- E1.
Qed.

(** C23: an accepted worker session is authentic on both sides, whatever bytes
    arrive.  The node enters a worker into its registry exactly when the session
    succeeds: the worker is on the allowlist, was not active, and its key has
    signed this handshake with the fresh nonce of the node.  The worker accepts
    only the node whose identifier it was paired with, on a signature that
    covers its own fresh nonce and its own signature.  If the session ids of the
    two agree then they have seen the same handshake, hello, challenge and both
    signatures, so that each has the other's identifier and nonce, unless the
    two messages hashed for the ids collide; and a handshake that fails at any
    point leaves the registry as it was. *)
Theorem worker_sessions_authentic magic net node_key node_nonce caps allowed active fails input r out rest :
  is32 node_nonce -> is_u64 caps ->
  play (EpFrame Io) (accept_worker_handshake magic net node_key node_nonce caps allowed active fails) input
  = (r, out, rest) ->
  ((forall active' s, r <> Ok (active', Ok s)) -> registry_after active r = active) /\
  (forall active' s, r = Ok (active', Ok s) ->
     as_worker_id s = worker_id net (as_worker_public_key s) /\
     as_worker_id s ∈ allowed /\ as_worker_id s ∉ active /\ active' = {[as_worker_id s]} ∪ active /\
     as_node_id s = node_id_from_public_key (sk_public node_key) /\
     exists hello ws, wh_worker_public_key hello = as_worker_public_key s /\
        let seen := challenge_of node_key node_nonce caps hello in
        vk_verify (as_worker_public_key s) (worker_auth_message hello seen) ws = true /\
        as_session_id s = session_id hello seen ws (sign_node_accept node_key hello seen ws) /\
     forall worker_key worker_nonce wcaps par id expected input' s' out' rest',
       is_u32 net -> is32 worker_nonce -> is_u64 wcaps -> is_u16 par ->
       play (EpFrame Io) (initiate_worker_handshake magic net worker_key worker_nonce wcaps par id expected)
         input' = (Ok s', out', rest') ->
       as_node_id s' = expected /\
       exists challenge ns, node_id_from_public_key (nc_node_public_key challenge) = expected /\
          let sent := hello_of net worker_key worker_nonce wcaps par in
          let signed := sign_worker_auth worker_key sent challenge in
          vk_verify (nc_node_public_key challenge) (node_accept_message sent challenge signed) ns = true /\
          as_session_id s' = session_id sent challenge signed ns /\
          (as_session_id s = as_session_id s' ->
             (as_worker_id s = as_worker_id s' /\ as_node_id s = as_node_id s' /\
              as_worker_public_key s' = as_worker_public_key s /\ wh_worker_nonce hello = worker_nonce /\
              hello = sent /\ seen = challenge /\ ws = signed /\ sign_node_accept node_key hello seen ws = ns)
             \/ collides [session_message hello seen ws (sign_node_accept node_key hello seen ws)]
                         [session_message sent challenge signed ns])).
Proof.
  intros Hn Hc H. split; [by eapply accept_fails_cleanly|]. intros active' s ->.
  apply accept_sound in H as (hello & ws & id & Hh & Hnet & H); [|done..]. cbv zeta in H.
  destruct H as (Ha & Hi & -> & Hl & _ & Hv & ->). subst net.
  split; [done|]. split; [done|]. split; [done|]. split; [done|]. split; [done|].
  exists hello, ws. split; [done|]. split; [done|]. split; [done|].
  intros worker_key worker_nonce wcaps par id' expected input' s' out' rest' Hnet Hwn Hwc Hpar Hinit.
  apply initiate_sound in Hinit as (c & ns & Hcw & _ & Hns & _ & _ & _ & Hid & Hpk & Hver & ->).
  split; [exact Hid|]. exists c, ns. split; [done|]. split; [done|]. split; [done|].
  cbn [session_of as_session_id as_worker_id as_node_id as_worker_public_key].
  set (hello' := hello_of _ _ _ _ _) in *.
  assert (hello_wf hello') as Hh'.
  { exact (conj Hnet (conj (sk_public_length _) (conj Hwn (conj Hwc Hpar)))). }
  intros [(E1 & E2 & E3 & E4)|]%session_id_inj_or;
    [left|by right|done|done|by apply challenge_of_wf|done|rewrite Hl; symmetry; apply sk_sign_length].
  rewrite E4, E3, E2, E1. done.
Qed.
End handshake.

(** ** The reference worker *)

Section work.
Context {SHA : Sha2} {ED : Ed25519} {AR : Argon2}.

(** The work that an assignment asks for. *)
Definition assignment_proof (core : WorkAssignmentCoreV1) : result CryptoError bytes32 :=
  let es := epoch_seed (ac_anchor_entropy core) (ac_target_epoch core) in
  mutiny_argon2id (ticket_seed es (ac_license_id core) (ac_ticket_index core))
    (ticket_salt es (ac_license_id core) (ac_ticket_index core)).

(** An assignment for this session from the paired node. *)
Definition assignment_for (session : AuthenticatedWorkerSession) (node_public_key worker_key : bytes)
    (a : WorkAssignmentV1) : Prop :=
  WorkAssignmentV1_verify_node_signature a node_public_key = Ok tt /\
  node_id_from_public_key node_public_key = as_node_id session /\
  ac_session_id (wa_core a) = as_session_id session /\
  ac_worker_id (wa_core a) = as_worker_id session /\
  ac_node_id (wa_core a) = as_node_id session /\
  sk_public worker_key = as_worker_public_key session /\
  worker_id (ac_network_id (wa_core a)) (sk_public worker_key) = as_worker_id session.

(** The result that tells the truth about an assignment. *)
Definition true_result (a : WorkAssignmentV1) (worker_key : bytes) (proof : bytes32) : WorkResultV1 :=
  let winning := proof_below_target proof (ac_target (wa_core a)) in
  let core := {| rc_network_id := ac_network_id (wa_core a); rc_session_id := ac_session_id (wa_core a);
    rc_assignment_id := wa_assignment_id a; rc_ticket_key := wa_ticket_key a;
    rc_worker_id := ac_worker_id (wa_core a);
    rc_result_kind := if winning then RESULT_WIN else RESULT_NO_WIN;
    rc_argon2_proof := if winning then proof else replicate 32 Byte.x00 |} in
  {| wr_core := core; wr_worker_signature := sk_sign worker_key (result_message core) |}.

Lemma execute_assignment_iff a session node_public_key worker_key result :
  execute_assignment a session node_public_key worker_key = Ok result <->
  assignment_for session node_public_key worker_key a /\
  exists proof, assignment_proof (wa_core a) = Ok proof /\ result = true_result a worker_key proof.
Proof.
  unfold execute_assignment, assignment_for, assignment_proof.
  destruct (WorkAssignmentV1_verify_node_signature a node_public_key) as [[]|]; cbn [map_err];
    [|split; [done|by intros [[? _] _]]].
  repeat (match goal with |- context [negb (bytes_eqb ?x ?y)] =>
    destruct (bytes_eqb x y) eqn:?; cbn [negb]; bool_to_prop end;
    [|split; [done|intros [(? & ? & ? & ? & ? & ? & ?) _]; done]]).
  destruct (mutiny_argon2id _ _) as [proof|]; cbn [map_err];
    [|split; [done|by intros [_ (? & ? & _)]]].
  assert (map_err RwPackL (WorkResultV1_new_signed {| rc_network_id := ac_network_id (wa_core a);
      rc_session_id := as_session_id session; rc_assignment_id := wa_assignment_id a;
      rc_ticket_key := wa_ticket_key a; rc_worker_id := as_worker_id session;
      rc_result_kind := if proof_below_target proof (ac_target (wa_core a)) then RESULT_WIN else RESULT_NO_WIN;
      rc_argon2_proof := if proof_below_target proof (ac_target (wa_core a)) then proof
                         else replicate 32 Byte.x00 |} worker_key)
    = Ok (true_result a worker_key proof)) as ->.
  { unfold WorkResultV1_new_signed, true_result.
    replace (as_session_id session) with (ac_session_id (wa_core a)) by done.
    replace (as_worker_id session) with (ac_worker_id (wa_core a)) by done.
    by destruct (proof_below_target _ _). }
  split; [|by intros [_ (? & [= <-] & ->)]]. intros <-%Ok_inj. split; [done|]. by exists proof.
Qed.

Lemma worker_proof_length core proof : assignment_proof core = Ok proof -> is32 proof.
Proof.
  unfold assignment_proof, mutiny_argon2id. destruct (negb _); [done|].
  destruct (argon2id_hash _ _ _ _ _ _) as [h|] eqn:E; [|done]. intros [= <-]. by eapply argon2id_length.
Qed.

Lemma true_result_wf a worker_key proof :
  assignment_wf a -> assignment_proof (wa_core a) = Ok proof -> result_wf (true_result a worker_key proof).
Proof.
  intros (Hc & _ & Hd) Hp%worker_proof_length. apply validate_derived_iff in Hd as (_ & Hk & Hi).
  split; [|apply sk_sign_length]. destruct Hc as [(C1 & C2 & C3 & C4 & _) _].
  unfold result_core_wf, true_result.
  cbn [wr_core rc_network_id rc_session_id rc_assignment_id rc_ticket_key rc_worker_id rc_result_kind rc_argon2_proof].
  rewrite Hi, Hk. split.
  - refine (conj C1 (conj C2 (conj (hash_parts_length _ _) (conj (hash_parts_length _ _) (conj C4 _))))).
    by destruct (proof_below_target _ _).
  - unfold WorkResultCoreV1_validate_shape. cbn [rc_result_kind rc_argon2_proof].
    by destruct (proof_below_target _ _).
Qed.

Lemma true_result_verifies a worker_key proof :
  assignment_wf a -> assignment_proof (wa_core a) = Ok proof ->
  WorkResultV1_verify_worker_signature (true_result a worker_key proof) (sk_public worker_key) = Ok tt.
Proof.
  intros Ha Hp. destruct (true_result_wf a worker_key proof Ha Hp) as [[_ Hs] _].
  unfold WorkResultV1_verify_worker_signature. rewrite Hs. apply verify_message_signed.
Qed.

Definition assignment_frame (magic id : Z) (a : WorkAssignmentV1) : bytes :=
  wire (message magic MSG_WORK_ASSIGNMENT id (WorkAssignmentV1_encode a)).
Definition result_frame (magic id : Z) (w : WorkResultV1) : bytes :=
  wire (message magic MSG_WORK_RESULT id (WorkResultV1_encode w)).

Lemma result_encode_length w : result_wf w -> Z.of_nat (length (WorkResultV1_encode w)) <= 1048576.
Proof.
  intros [Hc Hs]. unfold WorkResultV1_encode. norm_push. rewrite length_app, Hs, result_core_length by done.
  unfold WORK_RESULT_CORE_LEN. lia.
Qed.

Lemma assignment_encode_length a : assignment_wf a -> Z.of_nat (length (WorkAssignmentV1_encode a)) <= 1048576.
Proof.
  intros (Hc & Hs & (_ & Hk & Hi)%validate_derived_iff). unfold WorkAssignmentV1_encode. norm_push.
  rewrite !length_app, Hs, Hk, Hi, assignment_core_length by done.
  unfold WorkAssignmentCoreV1_ticket_key, ticket_key, assignment_id. rewrite !hash_parts_length.
  unfold WORK_ASSIGNMENT_CORE_LEN. lia.
Qed.

Lemma frame_message magic f : frame_wf f -> fr_magic f = magic ->
  f = message magic (fr_message_type f) (fr_request_id f) (fr_payload f).
Proof. intros (_ & H2 & _ & H4 & _) H. unfold message. rewrite <- H, <- H2, <- H4. by destruct f. Qed.

(** The reference worker answers an assignment exactly when it is for it,
    and answers with the truth.  It succeeds on the frames with a canonical
    assignment that the paired node signed for this session, this worker and
    its key, and on no others; what it writes is one result frame under the
    same request identifier, which decodes to the result, verifies under the
    worker's session key, names the assignment and its ticket, and says WIN
    with the Argon2id proof of the ticket exactly if that is below the target. *)
Theorem reference_worker_correct magic session node_public_key worker_key input result out rest :
  play (RwFrame Io) (process_one_assignment magic session node_public_key worker_key) input
  = (Ok result, out, rest) <->
  exists a id proof, is_u32 magic /\ is_u64 id /\ id <> 0 /\ assignment_wf a /\
    assignment_for session node_public_key worker_key a /\ assignment_proof (wa_core a) = Ok proof /\
    input = assignment_frame magic id a ++ rest /\ out = result_frame magic id result /\
    result = true_result a worker_key proof /\
    WorkResultV1_decode (WorkResultV1_encode result) = Ok result /\
    WorkResultV1_verify_worker_signature result (as_worker_public_key session) = Ok tt.
Proof.
  unfold process_one_assignment. split.
  - intros H. apply run_bind_ok in H as (f & o1 & r1 & o2 & Hf & H & ->).
    rewrite play_map in Hf. destruct (play Io (Frame_read_from magic) input) as [[[g|] o] r] eqn:E; [|done].
    injection Hf as -> <- <-. apply run_read_from in E as (Hw & Hm & -> & ->).
    destruct (negb (fr_message_type f =? MSG_WORK_ASSIGNMENT)) eqn:E1; [done|].
    destruct (fr_request_id f =? 0) eqn:E2; [done|].
    apply run_bind_ok in H as (a & o3 & r3 & o4 & Ha & H & ->). apply run_lift_ok in Ha as (Ha & -> & ->).
    destruct (WorkAssignmentV1_decode (fr_payload f)) as [a'|] eqn:Hd; [|done]. injection Ha as ->.
    apply run_bind_ok in H as (w & o5 & r5 & o6 & Hr & H & ->). apply run_lift_ok in Hr as (Hr & -> & ->).
    apply execute_assignment_iff in Hr as [Hfor (proof & Hp & ->)].
    apply assignment_codec in Hd as [Hawf He]. pose proof (true_result_wf a worker_key proof Hawf Hp) as Hrwf.
    pose proof (result_encode_length _ Hrwf) as Hlen. rewrite small_new in H by done. cbn [map_err] in H.
    apply run_bind_ok in H as (? & o7 & r7 & o8 & Hx & H & ->). apply run_lift_ok in Hx as (Hx & -> & ->).
    injection Hx as <-. apply run_bind_ok in H as (u & o9 & r9 & o10 & Hx & H & ->).
    rewrite small_write in Hx by done. injection Hx as _ <- <-. cbn in H. injection H as <- <- <-.
    exists a, (fr_request_id f), proof. bool_to_prop. pose proof Hw as (W1 & _ & W3 & _ & W5 & _). subst magic.
    assert (wire f ++ r = assignment_frame (fr_magic f) (fr_request_id f) a ++ r) as Hin.
    { unfold assignment_frame. rewrite He, <- E1. by rewrite <- (frame_message _ f). }
    refine (conj W1 (conj W5 (conj E2 (conj Hawf (conj Hfor (conj Hp (conj Hin (conj _ (conj eq_refl (conj _ _)))))))))).
    + cbn [app]. by rewrite app_nil_r.
    + by apply result_codec.
    + destruct Hfor as (_ & _ & _ & _ & _ & <- & _). by apply true_result_verifies.
  - intros (a & id & proof & Hm & Hid & H0 & Hawf & Hfor & Hp & -> & -> & -> & _).
    pose proof (result_encode_length _ (true_result_wf a worker_key proof Hawf Hp)) as Hlen.
    eapply run_seq; [apply small_read; [done|done|done|by apply assignment_encode_length]| |reflexivity].
    cbn [message fr_message_type fr_request_id fr_payload]. rewrite Z.eqb_refl. cbn [negb].
    destruct (Z.eqb_spec id 0); [done|].
    rewrite (proj2 (assignment_codec _ a)) by done. cbn [map_err].
    eapply run_seq; [reflexivity| |symmetry; apply app_nil_l].
    rewrite (proj2 (execute_assignment_iff a session node_public_key worker_key (true_result a worker_key proof)))
      by (split; [done|by exists proof]).
    eapply run_seq; [reflexivity| |symmetry; apply app_nil_l]. rewrite small_new by done. cbn [map_err].
    eapply run_seq; [reflexivity| |symmetry; apply app_nil_l].
    eapply run_seq; [by apply small_write|reflexivity|symmetry; apply app_nil_r].
Qed.
End work.
