(* ===== verification/WorkerService.v ===== *)
(** Crate [mutiny-node], file worker_service.rs: the worker service of a node,
    the allowlist of workers and the dispatch of one prepared ticket.

    A [world] is the memory of the service with the files of its ledger (file
    Ledger) and one connection.  An action changes the world and replies, or
    the process stops in it.  Every frame that is handed to the transport is
    logged with the files at that moment; a write to the connection asks the
    list of faults what happens to it, and is logged also when it fails, since
    the other side may have received the frame.  Paths and time limits are not
    modelled.  Projections: [ws_] for [WorkerServiceState], [pa_] for
    [PreparedTicketAuthorityV1], [ad_] for [AssignmentDispatchOutcomeV1]. *)

From Stdlib Require Import Strings.Byte Strings.String.
From stdpp Require Import strings gmap.
From S2P Require Import Prelude Crypto Smt Consensus Worker Ledger Text P2p WorkerEndpoint.

Definition ALLOWLIST_MAX_BYTES : Z := 1048576.
Definition ALLOWLIST_MAX_ENTRIES : Z := 4096.
Definition DEFAULT_NODE_CAPABILITIES : Z := 1.

Inductive WorkerServiceError :=
| WsIo
| WsEndpoint (e : EndpointError)
| WsLedger (e : LedgerError)
| WsPackL (e : PackLError)
| WsProtocol (what : string)
| WsInvalidAllowlist (what : string).

(** ** The allowlist *)

Definition decode_worker_id (t : text) : result WorkerServiceError bytes32 :=
  ok_or (WsInvalidAllowlist "WorkerID must be exactly 64 hexadecimal characters") (hex_field t).

(** The loop over the lines. *)
Fixpoint parse_allowlist (lines : list text) (allowed : gset bytes) : result WorkerServiceError (gset bytes) :=
  match lines with
  | [] => Ok allowed
  | raw :: lines =>
      let line := trim raw in
      if match line with [] => true | _ => starts_with_hash line end then parse_allowlist lines allowed else
      if ALLOWLIST_MAX_ENTRIES <=? Z.of_nat (size allowed)
      then Err (WsInvalidAllowlist "allowlist exceeds 4096 WorkerIDs") else
      let? worker_id := decode_worker_id line in
      if bool_decide (worker_id ∈ allowed) then Err (WsInvalidAllowlist "duplicate WorkerID") else
      parse_allowlist lines ({[worker_id]} ∪ allowed)
  end.

(** A file: its length in bytes, and its text if it can be read and is UTF-8. *)
Definition load_worker_allowlist (file : option (Z * option text)) : result WorkerServiceError (gset bytes) :=
  let? (len, content) := ok_or WsIo file in
  if ALLOWLIST_MAX_BYTES <? len then Err (WsInvalidAllowlist "allowlist exceeds 1 MiB") else
  let? content := ok_or WsIo content in
  parse_allowlist (lines content) ∅.

(** ** The state of the service and what it acts on *)

Record WorkerServiceState := {
  ws_network_id : Z;
  ws_worker_magic : Z;
  ws_allowed_workers : gset bytes;
  ws_active_workers : ActiveWorkerRegistry;
  ws_ledger : WorkerBudgetLedgerV1;
}.

Record world := {
  wd_state : WorkerServiceState;
  wd_disk : disk;
  wd_faults : list fault;
  wd_input : bytes;
  wd_sent : list (bytes * disk);
}.

Definition with_ledger (l : WorkerBudgetLedgerV1) (s : WorkerServiceState) : WorkerServiceState :=
  {| ws_network_id := ws_network_id s; ws_worker_magic := ws_worker_magic s;
     ws_allowed_workers := ws_allowed_workers s; ws_active_workers := ws_active_workers s; ws_ledger := l |}.
Definition with_active (a : ActiveWorkerRegistry) (s : WorkerServiceState) : WorkerServiceState :=
  {| ws_network_id := ws_network_id s; ws_worker_magic := ws_worker_magic s;
     ws_allowed_workers := ws_allowed_workers s; ws_active_workers := a; ws_ledger := ws_ledger s |}.
Definition with_allowed (a : gset bytes) (s : WorkerServiceState) : WorkerServiceState :=
  {| ws_network_id := ws_network_id s; ws_worker_magic := ws_worker_magic s;
     ws_allowed_workers := a; ws_active_workers := ws_active_workers s; ws_ledger := ws_ledger s |}.

Inductive reply (E A : Type) :=
| Replies (r : result E A)
| Stops.
Arguments Replies {E A} r.
Arguments Stops {E A}.

Definition act (E A : Type) : Type := world -> world * reply E A.

Definition act_of {E A} (r : result E A) : act E A := fun w => (w, Replies r).

Definition act_bind {E A B} (m : act E A) (k : A -> act E B) : act E B := fun w =>
  let (w, r) := m w in
  match r with
  | Replies (Ok a) => k a w
  | Replies (Err e) => (w, Replies (Err e))
  | Stops => (w, Stops)
  end.
Notation "'let*' p := c 'in' k" := (act_bind c (fun p => k))
  (at level 10, p pattern, c at level 100, k at level 200,
   format "'[v' 'let*'  p  :=  c  'in' '/' k ']'") : rust_scope.

Definition act_map_err {E F A} (f : E -> F) (m : act E A) : act F A := fun w =>
  let (w, r) := m w in
  (w, match r with Replies r => Replies (map_err f r) | Stops => Stops end).

(** What is in memory, as [&self] and [&mut self] see it. *)
Definition act_state {E A} (k : WorkerServiceState -> act E A) : act E A := fun w => k (wd_state w) w.

(** A method of the ledger that persists. *)
Definition on_ledger {A}
    (op : WorkerBudgetLedgerV1 -> disk -> list fault -> WorkerBudgetLedgerV1 * disk * list fault * returned A)
    : act LedgerError A := fun w =>
  let '(ledger, d, fs, r) := op (ws_ledger (wd_state w)) (wd_disk w) (wd_faults w) in
  ({| wd_state := with_ledger ledger (wd_state w); wd_disk := d; wd_faults := fs;
      wd_input := wd_input w; wd_sent := wd_sent w |},
   match r with Returns r => Replies r | Interrupted => Stops end).

Section service.
Context {SHA : Sha2} {ED : Ed25519}.

(** [Frame::write_to] *)
Definition send_frame (f : Frame) : act P2pError unit := fun w =>
  match Frame_encode f with
  | Err e => (w, Replies (Err e))
  | Ok bs =>
      let (x, fs) := next_fault (wd_faults w) in
      ({| wd_state := wd_state w; wd_disk := wd_disk w; wd_faults := fs; wd_input := wd_input w;
          wd_sent := wd_sent w ++ [(bs, wd_disk w)] |},
       match x with Fine => Replies (Ok tt) | IoFails _ => Replies (Err Io) | Crash _ _ => Stops end)
  end.

(** [Frame::read_from] *)
Definition receive_frame (magic : Z) : act P2pError Frame := fun w =>
  let '(r, _, rest) := play Io (Frame_read_from magic) (wd_input w) in
  ({| wd_state := wd_state w; wd_disk := wd_disk w; wd_faults := wd_faults w; wd_input := rest;
      wd_sent := wd_sent w |}, Replies r).

(** ** Opening the service *)

(** The worker directory, as the search for secret files sees it. *)
Inductive dir_entry :=
| RegularFile (extension : option string)
| OtherEntry
| SubDir (entries : list dir_entry).

Definition lower (c : Ascii.ascii) : Ascii.ascii :=
  let n := Ascii.N_of_ascii c in
  if ((65 <=? n) && (n <=? 90))%N then Ascii.ascii_of_N (n + 32) else c.
Definition eq_ignore_ascii_case (a b : string) : bool :=
  bool_decide (map lower (list_ascii_of_string a) = map lower (list_ascii_of_string b)).
Definition is_msk (extension : option string) : bool :=
  match extension with Some e => eq_ignore_ascii_case e "msk" | None => false end.

(** One directory: its own files, and the directories to look at later. *)
Fixpoint scan_dir (entries : list dir_entry) (pending : list (list dir_entry))
    : result WorkerServiceError (list (list dir_entry)) :=
  match entries with
  | [] => Ok pending
  | SubDir sub :: entries => scan_dir entries (sub :: pending)
  | RegularFile extension :: entries =>
      if is_msk extension
      then Err (WsInvalidAllowlist "worker directory contains forbidden .msk secret material")
      else scan_dir entries pending
  | OtherEntry :: entries => scan_dir entries pending
  end.

(** [while let Some(dir) = pending.pop()]; the number of directories is enough fuel. *)
Fixpoint scan_pending (fuel : nat) (pending : list (list dir_entry)) : result WorkerServiceError unit :=
  match fuel, pending with
  | _, [] => Ok tt
  | O, _ :: _ => Ok tt
  | S fuel, dir :: pending => let? pending := scan_dir dir pending in scan_pending fuel pending
  end.

Fixpoint directories (e : dir_entry) : nat :=
  match e with SubDir entries => S (sum_list (map directories entries)) | _ => 0 end.

(** [root]: what is in the directory, if it exists. *)
Definition validate_worker_secret_boundary (root : option (list dir_entry)) : result WorkerServiceError unit :=
  match root with
  | None => Ok tt
  | Some entries => scan_pending (directories (SubDir entries)) [entries]
  end.

(** [allowlist]: the file, if it exists. *)
Definition WorkerServiceState_open (network_id worker_magic : Z) (allowlist : option (Z * option text))
    (d : disk) (fs : list fault) : disk * list fault * reply WorkerServiceError WorkerServiceState :=
  match (match allowlist with Some _ => load_worker_allowlist allowlist | None => Ok ∅ end) with
  | Err e => (d, fs, Replies (Err e))
  | Ok allowed_workers =>
      let '(d, fs, r) := open_or_create network_id d fs in
      (d, fs, match r with
              | Returns (Ok ledger) => Replies (Ok {| ws_network_id := network_id;
                  ws_worker_magic := worker_magic; ws_allowed_workers := allowed_workers;
                  ws_active_workers := ∅; ws_ledger := ledger |})
              | Returns (Err e) => Replies (Err (WsLedger e))
              | Interrupted => Stops
              end)
  end.

Definition reload_allowlist (allowlist : option (Z * option text)) (s : WorkerServiceState)
    : result WorkerServiceError WorkerServiceState :=
  let? allowed_workers := load_worker_allowlist allowlist in Ok (with_allowed allowed_workers s).

Definition prepare_runtime_state (network_id worker_magic : Z) (allowlist : option (Z * option text))
    (root : option (list dir_entry)) (d : disk) (fs : list fault)
    : disk * list fault * reply WorkerServiceError WorkerServiceState :=
  let '(d, fs, r) := WorkerServiceState_open network_id worker_magic allowlist d fs in
  match r with
  | Replies (Ok state) =>
      let r :=
        let? _ := validate_worker_secret_boundary root in
        match allowlist with
        | None => Err (WsInvalidAllowlist "authorized-workers-v1.txt is required before worker service startup")
        | Some _ =>
            let? state := reload_allowlist allowlist state in
            if bool_decide (ws_allowed_workers state = ∅)
            then Err (WsInvalidAllowlist "authorized-workers-v1.txt contains no WorkerIDs") else Ok state
        end in
      (d, fs, Replies r)
  | Replies (Err e) => (d, fs, Replies (Err e))
  | Stops => (d, fs, Stops)
  end.

(** ** Accepting workers *)

(** A connection: the bytes of the worker, and whether the last write of the
    handshake fails. *)
Definition accept_one (node_signing_key node_nonce : bytes) (node_capabilities : Z) (input : bytes)
    (accept_write_fails : bool) (s : WorkerServiceState)
    : WorkerServiceState * result WorkerServiceError (AuthenticatedWorkerSession * bytes) :=
  let '(r, _, rest) := play (EpFrame Io)
    (accept_worker_handshake (ws_worker_magic s) (ws_network_id s) node_signing_key node_nonce
       node_capabilities (ws_allowed_workers s) (ws_active_workers s) accept_write_fails) input in
  (with_active (registry_after (ws_active_workers s) r) s,
   match r with
   | Ok (_, Ok session) => Ok (session, rest)
   | Ok (_, Err e) | Err e => Err (WsEndpoint e)
   end).

Definition release_session (session : AuthenticatedWorkerSession) (s : WorkerServiceState)
    : WorkerServiceState := with_active (release (ws_active_workers s) (as_worker_id session)) s.

Record connection := { cn_nonce : bytes; cn_input : bytes; cn_accept_write_fails : bool }.

(** The loop of [serve_authenticated_workers_on_listener] on the connections
    that come; [None] is an I/O error of the listener, and no result means that
    the service waits for the next connection. *)
Fixpoint serve_loop (node_signing_key : bytes) (max_connections : option Z) (handled : Z)
    (connections : list (option connection)) (s : WorkerServiceState)
    : WorkerServiceState * option (result WorkerServiceError Z) :=
  match connections with
  | [] => (s, None)
  | None :: _ => (s, Some (Err WsIo))
  | Some c :: connections =>
      let (s, r) := accept_one node_signing_key (cn_nonce c) DEFAULT_NODE_CAPABILITIES (cn_input c)
                      (cn_accept_write_fails c) s in
      let s := match r with Ok (session, _) => release_session session s | Err _ => s end in
      let handled := saturating_add 64 handled 1 in
      if match max_connections with Some max => max <=? handled | None => false end
      then (s, Some (Ok handled))
      else serve_loop node_signing_key max_connections handled connections s
  end.

Definition serve_authenticated_workers_on_listener (node_signing_key : bytes) (max_connections : option Z)
    (connections : list (option connection)) (s : WorkerServiceState)
    : WorkerServiceState * option (result WorkerServiceError Z) :=
  if match max_connections with Some max => max =? 0 | None => false end
  then (s, Some (Err (WsInvalidAllowlist "--max-connections must be greater than zero")))
  else serve_loop node_signing_key max_connections 0 connections s.
End service.

(** ** One prepared ticket *)

Record PreparedTicketAuthorityV1 := {
  pa_parent_block_hash : bytes32;
  pa_parent_height : Z;
  pa_target_epoch : Z;
  pa_license_id : bytes32;
  pa_ticket_index : Z;
  pa_work_units_for_epoch : Z;
  pa_eligible_license_count : Z;
  pa_difficulty_c_q32 : Z;
  pa_anchor_entropy : bytes32;
  pa_target : bytes32;
}.

Record AssignmentDispatchOutcomeV1 := {
  ad_assignment : WorkAssignmentV1;
  ad_result : WorkResultV1;
  ad_new_unique_ticket : bool;
}.

Section dispatch.
Context {SHA : Sha2} {ED : Ed25519}.

Definition validate_consensus_math (a : PreparedTicketAuthorityV1) : result WorkerServiceError unit :=
  if pa_eligible_license_count a =? 0 then Err (WsProtocol "eligible_license_count must be nonzero") else
  let expected_w := work_units (pa_eligible_license_count a) in
  if negb (pa_work_units_for_epoch a =? expected_w)
  then Err (WsProtocol "work_units_for_epoch does not match frozen Pack-A work_units") else
  if expected_w <=? pa_ticket_index a
  then Err (WsProtocol "ticket_index is outside frozen Pack-A work budget") else
  let? expected_target := map_err (fun _ => WsProtocol "Pack-A target derivation failed")
    (derive_target (authorized_capacity (pa_eligible_license_count a)) (pa_difficulty_c_q32 a)) in
  if negb (bytes_eqb (pa_target a) expected_target)
  then Err (WsProtocol "target does not match frozen Pack-A target derivation") else Ok tt.

Definition assignment_core (a : PreparedTicketAuthorityV1) (session : AuthenticatedWorkerSession)
    (assignment_sequence network_id : Z) : result WorkerServiceError WorkAssignmentCoreV1 :=
  let? _ := validate_consensus_math a in
  Ok {| ac_network_id := network_id; ac_session_id := as_session_id session;
        ac_assignment_sequence := assignment_sequence; ac_worker_id := as_worker_id session;
        ac_node_id := as_node_id session; ac_parent_block_hash := pa_parent_block_hash a;
        ac_parent_height := pa_parent_height a; ac_target_epoch := pa_target_epoch a;
        ac_license_id := pa_license_id a; ac_ticket_index := pa_ticket_index a;
        ac_work_units_for_epoch := pa_work_units_for_epoch a;
        ac_eligible_license_count := pa_eligible_license_count a;
        ac_anchor_entropy := pa_anchor_entropy a; ac_target := pa_target a;
        ac_expires_epoch := pa_target_epoch a; ac_algorithm_id := ALGORITHM_PACK_A_ARGON2ID;
        ac_algorithm_version := ALGORITHM_PACK_A_ARGON2ID_V1 |}.

(** The ledger record of an assignment that is about to be made. *)
Definition reservation (core : WorkAssignmentCoreV1) (session : AuthenticatedWorkerSession)
    (assignment_sequence : Z) : LedgerRecordV1 :=
  {| lg_ticket_key := WorkAssignmentCoreV1_ticket_key core;
     lg_parent_block_hash := ac_parent_block_hash core; lg_target_epoch := ac_target_epoch core;
     lg_license_id := ac_license_id core; lg_ticket_index := ac_ticket_index core;
     lg_work_units_for_epoch := ac_work_units_for_epoch core; lg_worker_id := as_worker_id session;
     lg_session_id := as_session_id session; lg_assignment_id := assignment_id core;
     lg_assignment_sequence := assignment_sequence; lg_status := STATUS_RESERVED |}.

Definition frame_err {A} (r : result P2pError A) : act WorkerServiceError A :=
  act_of (map_err (fun e => WsEndpoint (EpFrame e)) r).

(** Reserve, persist, and only then sign and transmit. *)
Definition issue (core : WorkAssignmentCoreV1) (session : AuthenticatedWorkerSession)
    (node_signing_key : bytes) (assignment_sequence request_id : Z)
    : act WorkerServiceError (WorkAssignmentV1 * bool) :=
  act_state (fun state =>
  let record := reservation core session assignment_sequence in
  let* new_unique_ticket := act_map_err WsLedger
    (on_ledger (fun ledger d fs => reserve_and_persist ledger record d fs)) in
  let* assignment := act_of (map_err WsPackL (WorkAssignmentV1_new_signed core node_signing_key)) in
  let* frame := frame_err (Frame_new (ws_worker_magic state) MSG_WORK_ASSIGNMENT request_id
                             (WorkAssignmentV1_encode assignment)) in
  let* _ := act_map_err (fun e => WsEndpoint (EpFrame e)) (send_frame frame) in
  let* _ := act_map_err WsLedger (on_ledger (fun ledger d fs =>
    update_status_and_persist ledger (wa_assignment_id assignment) STATUS_SENT d fs)) in
  act_of (Ok (assignment, new_unique_ticket))).

Definition status_of_result (result_kind : Z) : result WorkerServiceError Z :=
  if result_kind =? RESULT_NO_WIN then Ok STATUS_COMPLETED_NO_WIN
  else if result_kind =? RESULT_WIN then Ok STATUS_CANDIDATE_WIN
  else Err (WsProtocol "unknown WORK_RESULT result kind").

(** The answer of the worker. *)
Definition await_result (assignment : WorkAssignmentV1) (session : AuthenticatedWorkerSession)
    (request_id : Z) : act WorkerServiceError WorkResultV1 :=
  act_state (fun state =>
  let* response := act_map_err (fun e => WsEndpoint (EpFrame e)) (receive_frame (ws_worker_magic state)) in
  if negb (fr_message_type response =? MSG_WORK_RESULT)
  then act_of (Err (WsProtocol "expected WORK_RESULT message")) else
  if negb (fr_request_id response =? request_id)
  then act_of (Err (WsProtocol "WORK_RESULT request_id mismatch")) else
  let* result := act_of (map_err WsPackL (WorkResultV1_decode (fr_payload response))) in
  let core := wr_core result in
  if negb (rc_network_id core =? ws_network_id state)
     || negb (bytes_eqb (rc_session_id core) (as_session_id session))
     || negb (bytes_eqb (rc_assignment_id core) (wa_assignment_id assignment))
     || negb (bytes_eqb (rc_ticket_key core) (wa_ticket_key assignment))
     || negb (bytes_eqb (rc_worker_id core) (as_worker_id session))
  then act_of (Err (WsProtocol "WORK_RESULT binding mismatch")) else
  let* _ := act_of (map_err WsPackL (WorkResultV1_verify_worker_signature result (as_worker_public_key session))) in
  let* status := act_of (status_of_result (rc_result_kind core)) in
  let* _ := act_map_err WsLedger (on_ledger (fun ledger d fs =>
    update_status_and_persist ledger (wa_assignment_id assignment) status d fs)) in
  act_of (Ok result)).

Definition dispatch_one_prepared_ticket (session : AuthenticatedWorkerSession) (node_signing_key : bytes)
    (authority : PreparedTicketAuthorityV1) (assignment_sequence request_id : Z)
    : act WorkerServiceError AssignmentDispatchOutcomeV1 :=
  if request_id =? 0 then act_of (Err (WsProtocol "WORK_ASSIGNMENT request_id must be nonzero")) else
  if request_id =? as_request_id session
  then act_of (Err (WsProtocol "WORK_ASSIGNMENT request_id must be fresh from handshake request_id")) else
  act_state (fun state =>
  let* core := act_of (assignment_core authority session assignment_sequence (ws_network_id state)) in
  let* (assignment, new_unique_ticket) := issue core session node_signing_key assignment_sequence request_id in
  let* result := await_result assignment session request_id in
  act_of (Ok {| ad_assignment := assignment; ad_result := result;
                ad_new_unique_ticket := new_unique_ticket |})).
End dispatch.

(** ** Actions on the ledger *)

Section facts.
Context {SHA : Sha2} {ED : Ed25519}.

(** Memory and file agree. *)
Definition synced (net : Z) (w : world) : Prop :=
  load (d_cur (wd_disk w)) net = Ok (ws_ledger (wd_state w)).

(** What recovery would find. *)
Definition recovers (net : Z) (w : world) (l : WorkerBudgetLedgerV1) : Prop :=
  load_recover (wd_disk w) net = Ok l.

(** Only the ledger, the files and the faults may differ. *)
Definition same_connection (w w' : world) : Prop :=
  wd_input w' = wd_input w /\ wd_sent w' = wd_sent w /\
  wd_state w' = with_ledger (ws_ledger (wd_state w')) (wd_state w).

Lemma with_ledger_same s : with_ledger (ws_ledger s) s = s.
Proof. by destruct s. Qed.

Lemma synced_recovers net w : synced net w -> recovers net w (ws_ledger (wd_state w)).
Proof. apply recover_of_load. Qed.

Definition moved {E A} (net : Z) (w w' : world) (candidate : WorkerBudgetLedgerV1) (answer : A)
    (r : reply E A) : Prop :=
  same_connection w w' /\
  match r with
  | Replies (Ok a) => a = answer /\ ws_ledger (wd_state w') = candidate /\ synced net w'
  | Replies (Err _) => ws_ledger (wd_state w') = ws_ledger (wd_state w) /\ recovers net w' (ws_ledger (wd_state w))
  | Stops => recovers net w' (ws_ledger (wd_state w)) \/ recovers net w' candidate
  end.

Lemma reserve_step net record w :
  synced net w -> record_wf record ->
  let (w', r) := act_map_err WsLedger
    (on_ledger (fun ledger d fs => reserve_and_persist ledger record d fs)) w in
  moved net w w' (extended (ws_ledger (wd_state w)) record)
    (negb (ticket_seen (ws_ledger (wd_state w)) (lg_ticket_key record))) r /\
  (forall b, r = Replies (Ok b) -> assignment_seen (ws_ledger (wd_state w)) (lg_assignment_id record) = false).
Proof.
  intros Hs Hr. pose proof (reserve_cases net _ record _ (wd_faults w) (or_introl Hs) Hr) as H.
  assert (forall self' d' fs' b, reserve_and_persist (ws_ledger (wd_state w)) record (wd_disk w) (wd_faults w)
    = (self', d', fs', Returns (Ok b)) -> assignment_seen (ws_ledger (wd_state w)) (lg_assignment_id record) = false) as Hseen.
  { intros self' d' fs' b. unfold reserve_and_persist. destruct (LedgerRecordV1_validate _ _); [|done].
    by destruct (assignment_seen _ _). }
  unfold act_map_err, on_ledger.
  destruct (reserve_and_persist _ record _ _) as [[[self' d'] fs'] [[b|e]|]]; cbn in H |- *.
  - destruct H as (-> & -> & Hl). split; [|intros ? _; by eapply Hseen].
    by split; [split_and!|].
  - destruct H as (-> & Hl & _). split; [|done]. by split; [split_and!|].
  - split; [|done]. by split; [split_and!|].
Qed.

Lemma update_step {X} (f : LedgerError -> X) net id s w :
  synced net w ->
  let (w', r) := act_map_err f
    (on_ledger (fun ledger d fs => update_status_and_persist ledger id s d fs)) w in
  match update_first (wl_records (ws_ledger (wd_state w))) id s with
  | Some rs => moved net w w' (with_records (ws_ledger (wd_state w)) rs) tt r
  | None => same_connection w w' /\ ws_ledger (wd_state w') = ws_ledger (wd_state w) /\ synced net w' /\
            exists e, r = Replies (Err e)
  end.
Proof.
  intros Hs. pose proof (update_cases net _ id s _ (wd_faults w) (or_introl Hs)) as H.
  unfold act_map_err, on_ledger. revert H.
  destruct (update_status_and_persist _ id s _ _) as [[[self' d'] fs'] r]. cbn.
  destruct (update_first _ id s) as [rs|].
  - destruct r as [[[]|e]|]; cbn.
    + intros (_ & -> & Hl). by split; [split_and!|].
    + intros (-> & Hl & _). by split; [split_and!|].
    + intros Hl. by split; [split_and!|].
  - intros (-> & -> & e & ->). cbn. split_and!; [done..|by eexists].
Qed.

Lemma update_first_last rs record id s s' :
  existsb (fun r => bytes_eqb (lg_assignment_id r) id) rs = false -> lg_assignment_id record = id ->
  update_first (rs ++ [set_status record s]) id s' = Some (rs ++ [set_status record s']).
Proof.
  intros Hn Hid. induction rs as [|r rs IH]; cbn [app update_first].
  - cbn [set_status lg_assignment_id]. rewrite Hid, bytes_eqb_refl. by destruct record.
  - cbn [existsb] in Hn. apply orb_false_iff in Hn as [-> Hn]. by rewrite IH.
Qed.

(** *** The course of one assignment *)

Section course.
Context (net : Z) (core : WorkAssignmentCoreV1) (session : AuthenticatedWorkerSession).
Context (key : bytes) (seq id : Z) (magic : Z) (l0 : WorkerBudgetLedgerV1).

Let record := reservation core session seq.

Lemma reservation_status : set_status record STATUS_RESERVED = record.
Proof. done. Qed.

Definition reserved (l : WorkerBudgetLedgerV1) : Prop :=
  exists s, wl_records l = wl_records l0 ++ [set_status record s].

(** What was handed to the transport: nothing, or the signed assignment, after
    its record was in the file. *)
Definition sent_after_reserve (sent : list (bytes * disk)) : Prop :=
  sent = [] \/
  exists a d l, sent = [(wire (message magic MSG_WORK_ASSIGNMENT id (WorkAssignmentV1_encode a)), d)] /\
    WorkAssignmentV1_new_signed core key = Ok a /\
    load (d_cur d) net = Ok l /\ wl_records l = wl_records l0 ++ [record].

(** What a restart finds. *)
Definition grown (sent : list (bytes * disk)) (l : WorkerBudgetLedgerV1) : Prop :=
  (sent = [] /\ wl_records l = wl_records l0) \/ reserved l.

Lemma new_signed_id a : WorkAssignmentV1_new_signed core key = Ok a -> wa_assignment_id a = assignment_id core.
Proof. unfold WorkAssignmentV1_new_signed. by destruct (WorkAssignmentCoreV1_validate_shape core); [intros [= <-]|]. Qed.

(** Setting the status of the reserved record. *)
Lemma status_step s0 s w :
  synced net w -> wl_records (ws_ledger (wd_state w)) = wl_records l0 ++ [set_status record s0] ->
  assignment_seen l0 (assignment_id core) = false ->
  let (w', r) := act_map_err WsLedger
    (on_ledger (fun ledger d fs => update_status_and_persist ledger (assignment_id core) s d fs)) w in
  same_connection w w' /\
  match r with
  | Replies (Ok _) => synced net w' /\ wl_records (ws_ledger (wd_state w')) = wl_records l0 ++ [set_status record s]
  | Replies (Err _) => recovers net w' (ws_ledger (wd_state w')) /\ reserved (ws_ledger (wd_state w'))
  | Stops => exists l, recovers net w' l /\ reserved l
  end.
Proof.
  intros Hs Hr Hn. pose proof (update_step WsLedger net (assignment_id core) s w Hs) as H.
  destruct (act_map_err WsLedger _ w) as [w' r]. rewrite Hr in H.
  rewrite (update_first_last _ record _ s0 s Hn eq_refl) in H. destruct H as [Hc H]. split; [exact Hc|].
  destruct r as [[[]|e]|].
  - destruct H as (_ & Hl & Hs'). split; [exact Hs'|]. by rewrite Hl.
  - destruct H as [Hl Hrec]. rewrite Hl. split; [exact Hrec|]. by exists s0.
  - destruct H as [H|H]; [exists (ws_ledger (wd_state w))|eexists]; (split; [exact H|]); [by exists s0|by exists s].
Qed.

Lemma send_step {X} (g : P2pError -> X) f w :
  let (w', r) := act_map_err g (send_frame f) w in
  wd_input w' = wd_input w /\ wd_disk w' = wd_disk w /\ wd_state w' = wd_state w /\
  exists sent, wd_sent w' = wd_sent w ++ sent /\
    (sent = [] \/ Frame_encode f = Ok (wire f) /\ sent = [(wire f, wd_disk w)]) /\
    (forall u, r = Replies (Ok u) -> sent <> []).
Proof.
  unfold act_map_err, send_frame. destruct (Frame_encode f) as [bs|e] eqn:E; cbn.
  - assert (bs = wire f) as -> by (by apply frame_encode_eq in E as [_ ->]).
    destruct (next_fault (wd_faults w)) as [[|?|? ?] ?]; cbn; split_and!; try done;
      (eexists; split; [reflexivity|]; split; [by right|done]).
  - split_and!; [done..|]. exists []. rewrite app_nil_r. split; [done|]. split; [by left|done].
Qed.

Lemma issue_spec w :
  synced net w -> record_wf record -> ws_ledger (wd_state w) = l0 -> ws_worker_magic (wd_state w) = magic ->
  let (w', r) := issue core session key seq id w in
  wd_input w' = wd_input w /\ wd_state w' = with_ledger (ws_ledger (wd_state w')) (wd_state w) /\
  exists sent, wd_sent w' = wd_sent w ++ sent /\ sent_after_reserve sent /\
  match r with
  | Replies (Ok (a, new)) =>
      WorkAssignmentV1_new_signed core key = Ok a /\ new = negb (ticket_seen l0 (lg_ticket_key record)) /\
      sent <> [] /\ synced net w' /\ assignment_seen l0 (assignment_id core) = false /\
      wl_records (ws_ledger (wd_state w')) = wl_records l0 ++ [set_status record STATUS_SENT]
  | Replies (Err _) => recovers net w' (ws_ledger (wd_state w')) /\ grown sent (ws_ledger (wd_state w'))
  | Stops => exists l, recovers net w' l /\ grown sent l
  end.
Proof.
  intros Hs Hr Hl Hm. unfold issue, act_state, act_bind. fold record.
  pose proof (reserve_step net record w Hs Hr) as H. rewrite Hl in H.
  destruct (act_map_err WsLedger _ w) as [w1 r1]. destruct H as [[(C1 & C2 & C3) H] Hseen].
  destruct r1 as [[new|e]|].
  2:{ destruct H as [H1 H2]. split_and!; [done..|]. exists []. rewrite app_nil_r. split; [done|].
      split; [by left|]. rewrite H1, Hl in *. split; [done|]. by left. }
  2:{ split_and!; [done..|]. exists []. rewrite app_nil_r. split; [done|]. split; [by left|].
      rewrite Hl in H. destruct H as [H|H]; (eexists; split; [exact H|]); [by left|right; by exists STATUS_RESERVED]. }
  destruct H as (-> & H1 & H2). specialize (Hseen _ eq_refl).
  assert (wl_records (ws_ledger (wd_state w1)) = wl_records l0 ++ [set_status record STATUS_RESERVED]) as Hrec
    by (by rewrite H1).
  assert (reserved (ws_ledger (wd_state w1))) as Hres by (by exists STATUS_RESERVED).
  unfold frame_err, act_of. destruct (WorkAssignmentV1_new_signed core key) as [a|e] eqn:Ea; cbn [map_err].
  2:{ split_and!; [done..|]. exists []. rewrite app_nil_r. split; [done|]. split; [by left|].
      split; [by apply synced_recovers|by right]. }
  rewrite Hm. destruct (Frame_new magic MSG_WORK_ASSIGNMENT id (WorkAssignmentV1_encode a)) as [f|e] eqn:Ef; cbn [map_err].
  2:{ split_and!; [done..|]. exists []. rewrite app_nil_r. split; [done|]. split; [by left|].
      split; [by apply synced_recovers|by right]. }
  assert (f = message magic MSG_WORK_ASSIGNMENT id (WorkAssignmentV1_encode a)) as ->.
  { unfold Frame_new in Ef. destruct (_ <? _); [done|]. by injection Ef. }
  cbv beta iota zeta. pose proof (send_step (fun e => WsEndpoint (EpFrame e)) (message magic MSG_WORK_ASSIGNMENT id (WorkAssignmentV1_encode a)) w1) as H.
  destruct (act_map_err _ (send_frame _) w1) as [w2 r2]. destruct H as (S1 & S2 & S3 & sent & S4 & S5 & S6).
  assert (sent_after_reserve sent) as Hsent.
  { destruct S5 as [->|[_ ->]]; [by left|right]. exists a, (wd_disk w1), (ws_ledger (wd_state w1)). done. }
  assert (synced net w2) as Hs2 by (unfold synced; by rewrite S2, S3).
  assert (wd_sent w2 = wd_sent w ++ sent) as Hw2 by (by rewrite S4, C2).
  destruct r2 as [[u|e]|].
  2,3: cbv beta iota; rewrite S1, S3; split_and!; [done..|]; exists sent; split; [done|]; split; [done|].
  2:{ split; [|by right]. rewrite <- S3. by apply synced_recovers. }
  2:{ eexists. split; [by apply synced_recovers|]. rewrite S3. by right. }
  pose proof (status_step STATUS_RESERVED STATUS_SENT w2 Hs2 ltac:(by rewrite S3) Hseen) as H.
  rewrite (new_signed_id a Ea). destruct (act_map_err WsLedger _ w2) as [w3 r3].
  destruct H as [(D1 & D2 & D3) H].
  assert (wd_state w3 = with_ledger (ws_ledger (wd_state w3)) (wd_state w)) as Hstate
    by (rewrite D3, S3, C3; done).
  destruct r3 as [[[]|e]|]; (split; [by rewrite D1, S1|]); (split; [exact Hstate|]); exists sent;
    (split; [by rewrite D2|]); (split; [done|]).
  - destruct H as [H3 H4]. split_and!; try done. by eapply S6.
  - destruct H as [H3 H4]. split; [done|by right].
  - destruct H as (l & H3 & H4). exists l. split; [done|by right].
Qed.

(** The result of a worker that belongs to an assignment. *)
Definition result_of (network_id : Z) (a : WorkAssignmentV1) (result : WorkResultV1) : Prop :=
  result_wf result /\ rc_network_id (wr_core result) = network_id /\
  rc_session_id (wr_core result) = as_session_id session /\
  rc_assignment_id (wr_core result) = wa_assignment_id a /\
  rc_ticket_key (wr_core result) = wa_ticket_key a /\
  rc_worker_id (wr_core result) = as_worker_id session /\
  WorkResultV1_verify_worker_signature result (as_worker_public_key session) = Ok tt.

Lemma receive_step w :
  let (w', r) := act_map_err (fun e => WsEndpoint (EpFrame e)) (receive_frame magic) w in
  wd_sent w' = wd_sent w /\ wd_disk w' = wd_disk w /\ wd_state w' = wd_state w /\
  wd_faults w' = wd_faults w /\ r <> Stops.
Proof.
  unfold act_map_err, receive_frame. by destruct (play Io (Frame_read_from magic) (wd_input w)) as [[r out] rest].
Qed.

Lemma await_spec a w :
  synced net w -> WorkAssignmentV1_new_signed core key = Ok a -> ws_worker_magic (wd_state w) = magic ->
  wl_records (ws_ledger (wd_state w)) = wl_records l0 ++ [set_status record STATUS_SENT] ->
  assignment_seen l0 (assignment_id core) = false ->
  let (w', r) := await_result a session id w in
  wd_sent w' = wd_sent w /\ wd_state w' = with_ledger (ws_ledger (wd_state w')) (wd_state w) /\
  match r with
  | Replies (Ok result) =>
      result_of (ws_network_id (wd_state w)) a result /\ synced net w' /\
      exists s, status_of_result (rc_result_kind (wr_core result)) = Ok s /\
        wl_records (ws_ledger (wd_state w')) = wl_records l0 ++ [set_status record s]
  | Replies (Err _) => recovers net w' (ws_ledger (wd_state w')) /\ reserved (ws_ledger (wd_state w'))
  | Stops => exists l, recovers net w' l /\ reserved l
  end.
Proof.
  intros Hs Ha Hm Hrec Hseen. pose proof (new_signed_id a Ha) as Hid.
  assert (forall w1, wd_sent w1 = wd_sent w -> wd_disk w1 = wd_disk w -> wd_state w1 = wd_state w ->
    wd_sent w1 = wd_sent w /\ wd_state w1 = with_ledger (ws_ledger (wd_state w1)) (wd_state w) /\
    recovers net w1 (ws_ledger (wd_state w1)) /\ reserved (ws_ledger (wd_state w1))) as Hfail.
  { intros w1 E1 E2 E3. rewrite E3, with_ledger_same. split_and!; [done..| |by exists STATUS_SENT].
    apply synced_recovers in Hs. unfold recovers in *. by rewrite E2. }
  unfold await_result, act_state, act_bind. rewrite Hm.
  pose proof (receive_step w) as H. destruct (act_map_err _ (receive_frame magic) w) as [w1 r1].
  destruct H as (R1 & R2 & R3 & _ & R4). specialize (Hfail w1 R1 R2 R3).
  destruct r1 as [[response|e]|]; [|exact Hfail|done]. unfold act_of.
  destruct (negb (fr_message_type response =? MSG_WORK_RESULT)); [exact Hfail|].
  destruct (negb (fr_request_id response =? id)); [exact Hfail|].
  destruct (WorkResultV1_decode (fr_payload response)) as [result|e] eqn:Ed; cbn [map_err]; [|exact Hfail].
  apply result_codec in Ed as [Hwf _].
  destruct (negb (rc_network_id _ =? _) || _ || _ || _ || _) eqn:Eb; [exact Hfail|].
  repeat (apply orb_false_iff in Eb as [Eb ?]). bool_to_prop.
  destruct (WorkResultV1_verify_worker_signature result _) as [[]|e] eqn:Ev; cbn [map_err]; [|exact Hfail].
  destruct (status_of_result _) as [s|e] eqn:Est; [|exact Hfail].
  assert (synced net w1) as Hs1 by (unfold synced; by rewrite R2, R3).
  pose proof (status_step STATUS_SENT s w1 Hs1 ltac:(by rewrite R3) Hseen) as Hst. rewrite Hid.
  destruct (act_map_err WsLedger _ w1) as [w2 r2]. destruct Hst as [(D1 & D2 & D3) Hst].
  assert (wd_state w2 = with_ledger (ws_ledger (wd_state w2)) (wd_state w)) as Hstate by (by rewrite <- R3).
  destruct r2 as [[[]|e]|]; (split; [by rewrite D2, R1|]); (split; [exact Hstate|]); [|exact Hst..].
  destruct Hst as [T1 T2]. split; [|split; [exact T1|by exists s]].
  unfold result_of. rewrite Hid in *. done.
Qed.
End course.

Definition authority_wf (a : PreparedTicketAuthorityV1) : Prop :=
  is32 (pa_parent_block_hash a) /\ is_u64 (pa_target_epoch a) /\ is32 (pa_license_id a) /\
  is_u16 (pa_ticket_index a) /\ is_u16 (pa_work_units_for_epoch a).

Definition session_wf (s : AuthenticatedWorkerSession) : Prop :=
  is32 (as_worker_id s) /\ is32 (as_session_id s).

Lemma reservation_wf a session seq net core :
  authority_wf a -> session_wf session -> is_u64 seq ->
  assignment_core a session seq net = Ok core -> record_wf (reservation core session seq).
Proof.
  intros (A1 & A2 & A3 & A4 & A5) [S1 S2] Hq H. unfold assignment_core in H.
  destruct (validate_consensus_math a); [|done]. injection H as <-. unfold record_wf, reservation.
  cbn [lg_ticket_key lg_parent_block_hash lg_target_epoch lg_license_id lg_ticket_index lg_work_units_for_epoch
    lg_worker_id lg_session_id lg_assignment_id lg_assignment_sequence lg_status ac_parent_block_hash
    ac_target_epoch ac_license_id ac_ticket_index ac_work_units_for_epoch].
  refine (conj _ (conj A1 (conj A2 (conj A3 (conj A4 (conj A5 (conj S1 (conj S2 (conj _ (conj Hq _)))))))))).
  - apply hash_parts_length.
  - apply hash_parts_length.
  - unfold STATUS_RESERVED. lia.
Qed.

(** What a dispatch does, in every course it can take. *)
Lemma dispatch_spec session key authority seq id w w' r :
  synced (ws_network_id (wd_state w)) w ->
  authority_wf authority -> session_wf session -> is_u64 seq ->
  dispatch_one_prepared_ticket session key authority seq id w = (w', r) ->
  let net := ws_network_id (wd_state w) in
  let l0 := ws_ledger (wd_state w) in
  exists sent, wd_sent w' = wd_sent w ++ sent /\
    wd_state w' = with_ledger (ws_ledger (wd_state w')) (wd_state w) /\
    (sent = [] /\ (exists e, r = Replies (Err e)) /\ w' = w \/
     exists core, assignment_core authority session seq net = Ok core /\
       sent_after_reserve net core session key seq id (ws_worker_magic (wd_state w)) l0 sent /\
       match r with
       | Replies (Ok o) =>
           sent <> [] /\ synced net w' /\ WorkAssignmentV1_new_signed core key = Ok (ad_assignment o) /\
           result_of session net (ad_assignment o) (ad_result o) /\
           ad_new_unique_ticket o = negb (ticket_seen l0 (WorkAssignmentCoreV1_ticket_key core)) /\
           exists s, status_of_result (rc_result_kind (wr_core (ad_result o))) = Ok s /\
             wl_records (ws_ledger (wd_state w'))
             = wl_records l0 ++ [set_status (reservation core session seq) s]
       | Replies (Err _) =>
           recovers net w' (ws_ledger (wd_state w')) /\
           grown core session seq l0 sent (ws_ledger (wd_state w'))
       | Stops => exists l, recovers net w' l /\ grown core session seq l0 sent l
       end).
Proof.
  intros Hs Hau Hse Hq. cbv zeta. unfold dispatch_one_prepared_ticket.
  assert (forall e : WorkerServiceError, exists sent, wd_sent w = wd_sent w ++ sent /\
    wd_state w = with_ledger (ws_ledger (wd_state w)) (wd_state w) /\ sent = [] /\
    exists e', Replies (A := AssignmentDispatchOutcomeV1) (Err e) = Replies (Err e')) as Hearly.
  { intros e. exists []. rewrite app_nil_r, with_ledger_same. split_and!; [done..|]. by exists e. }
  destruct (id =? 0).
  { intros [= <- <-]. destruct (Hearly (WsProtocol "WORK_ASSIGNMENT request_id must be nonzero")) as (sent & H1 & H2 & H3 & H4).
    exists sent. split_and!; [done..|]. by left. }
  destruct (id =? as_request_id session).
  { intros [= <- <-]. destruct (Hearly (WsProtocol "WORK_ASSIGNMENT request_id must be fresh from handshake request_id"))
      as (sent & H1 & H2 & H3 & H4). exists sent. split_and!; [done..|]. by left. }
  unfold act_state, act_bind, act_of.
  destruct (assignment_core authority session seq _) as [core|e] eqn:Ec.
  2:{ intros [= <- <-]. destruct (Hearly e) as (sent & H1 & H2 & H3 & H4). exists sent. split_and!; [done..|]. by left. }
  pose proof (reservation_wf _ _ _ _ _ Hau Hse Hq Ec) as Hr.
  set (net := ws_network_id (wd_state w)) in *. set (l0 := ws_ledger (wd_state w)).
  pose proof (issue_spec net core session key seq id (ws_worker_magic (wd_state w)) l0 w Hs Hr eq_refl eq_refl) as H.
  destruct (issue core session key seq id w) as [w1 r1]. destruct H as (_ & I2 & sent & I3 & I4 & H).
  destruct r1 as [[[a new]|e]|].
  2:{ intros [= <- <-]. exists sent. split; [done|]. split; [done|]. right. by exists core. }
  2:{ intros [= <- <-]. exists sent. split; [done|]. split; [done|]. right. by exists core. }
  destruct H as (Ha & -> & Hne & Hs1 & Hseen & Hrec).
  pose proof (await_spec net core session key seq id (ws_worker_magic (wd_state w)) l0 a w1 Hs1 Ha
    ltac:(by rewrite I2) Hrec Hseen) as H.
  destruct (await_result a session id w1) as [w2 r2]. destruct H as (W1 & W2 & H).
  assert (wd_state w2 = with_ledger (ws_ledger (wd_state w2)) (wd_state w)) as Hstate by (rewrite W2, I2; done).
  assert (wd_sent w2 = wd_sent w ++ sent) as Hsent by (by rewrite W1).
  destruct r2 as [[result|e]|]; intros [= <- <-]; exists sent; (split; [done|]); (split; [done|]); right;
    exists core; (split; [done|]); (split; [done|]).
  - destruct H as (H1 & H2 & s & H3 & H4). cbn [ad_assignment ad_result ad_new_unique_ticket].
    rewrite I2 in H1. split_and!; try done. by exists s.
  - destruct H as [H1 H2]. split; [done|by right].
  - destruct H as (l & H1 & H2). exists l. split; [done|by right].
Qed.

(** C15: nothing is transmitted that is not in the durable ledger.  Whatever the
    worker sends and whichever call to the file system or the connection fails
    or stops the process, a dispatch hands at most one frame to the transport:
    the assignment for this ticket, signed by the node, at a moment when the
    file of the ledger already held its reservation.  From the first frame on
    every later start finds the ticket issued.  A dispatch that returns an
    outcome has the verified result of this worker for this assignment, and
    memory and file hold the status that the result says; one that returns an
    error leaves in memory what the next start would read. *)
Theorem dispatch_reserves_first session key authority seq id w w' r :
  synced (ws_network_id (wd_state w)) w ->
  authority_wf authority -> session_wf session -> is_u64 seq ->
  dispatch_one_prepared_ticket session key authority seq id w = (w', r) ->
  let net := ws_network_id (wd_state w) in
  let l0 := ws_ledger (wd_state w) in
  exists sent, wd_sent w' = wd_sent w ++ sent /\
    wd_state w' = with_ledger (ws_ledger (wd_state w')) (wd_state w) /\
    (sent = [] /\ (exists e, r = Replies (Err e)) /\ w' = w \/
     exists core, assignment_core authority session seq net = Ok core /\
       sent_after_reserve net core session key seq id (ws_worker_magic (wd_state w)) l0 sent /\
       match r with
       | Replies (Ok o) =>
           sent <> [] /\ synced net w' /\ WorkAssignmentV1_new_signed core key = Ok (ad_assignment o) /\
           result_of session net (ad_assignment o) (ad_result o) /\
           ad_new_unique_ticket o = negb (ticket_seen l0 (WorkAssignmentCoreV1_ticket_key core)) /\
           exists s, status_of_result (rc_result_kind (wr_core (ad_result o))) = Ok s /\
             wl_records (ws_ledger (wd_state w'))
             = wl_records l0 ++ [set_status (reservation core session seq) s]
       | Replies (Err _) =>
           recovers net w' (ws_ledger (wd_state w')) /\
           grown core session seq l0 sent (ws_ledger (wd_state w'))
       | Stops => exists l, recovers net w' l /\ grown core session seq l0 sent l
       end).
Proof. exact (dispatch_spec session key authority seq id w w' r). Qed.
End facts.

(** ** A ticket that is worked *)

Section liveness.
Context {SHA : Sha2} {ED : Ed25519} {AR : Argon2}.

Lemma commit_fine bs d : exists d', commit_atomic bs d [] = (d', [], Ledger.Done).
Proof. destruct d as [[?|] [?|] [?|]]; eexists; reflexivity. Qed.

Lemma commit_candidate_fine {A} net self candidate bs (answer : A) d :
  load (d_cur d) net = Ok self -> ledger_wf candidate -> wl_network_id candidate = net ->
  WorkerBudgetLedgerV1_encode candidate = Ok bs ->
  exists d', commit_candidate self candidate answer d [] = (candidate, d', [], Returns (Ok answer)) /\
    load (d_cur d') net = Ok candidate.
Proof.
  intros Hl Hw Hn He. pose proof (commit_candidate_spec net self candidate answer d [] (or_introl Hl) Hw Hn) as H.
  revert H. unfold commit_candidate, persist. rewrite He. destruct (commit_fine bs d) as [d' ->].
  intros (_ & _ & H). by exists d'.
Qed.

Lemma load_facts net d self : load (d_cur d) net = Ok self ->
  ledger_wf self /\ wl_network_id self = net /\ records_valid net (wl_records self) /\
  fresh_ids ∅ (wl_records self).
Proof. by intros (bs & _ & Hw & (_ & Hv & Hf & _)%ledger_encode_iff & <-)%load_inv. Qed.

Lemma fresh_ids_snoc rs record :
  fresh_ids ∅ rs -> existsb (fun r => bytes_eqb (lg_assignment_id r) (lg_assignment_id record)) rs = false ->
  fresh_ids ∅ (rs ++ [record]).
Proof.
  intros [Hd _] Hn. split; [|apply Forall_forall; set_solver]. rewrite map_app. apply NoDup_app.
  split; [done|]. split; [|apply NoDup_singleton]. cbn [map]. intros x Hx ->%list_elem_of_singleton.
  rewrite <- existsb_id in Hx. by rewrite Hn in Hx.
Qed.

Lemma reserve_fine net self record d :
  load (d_cur d) net = Ok self -> record_wf record -> LedgerRecordV1_validate record net = Ok tt ->
  assignment_seen self (lg_assignment_id record) = false -> wl_generation self + 1 < 2 ^ 64 ->
  Z.of_nat (length (wl_records self)) + 1 < 2 ^ 32 ->
  exists d', reserve_and_persist self record d []
    = (extended self record, d', [], Returns (Ok (negb (ticket_seen self (lg_ticket_key record))))) /\
    load (d_cur d') net = Ok (extended self record).
Proof.
  intros Hl Hw Hv Hs Hg Hc. destruct (load_facts _ _ _ Hl) as (Hlw & Hnet & Hrv & Hf).
  rewrite <- Hnet in Hv. unfold reserve_and_persist. rewrite Hv, Hs.
  assert (checked_add 64 (wl_generation self) 1 = Some (wl_generation self + 1)) as Hga.
  { unfold checked_add. destruct (Z.ltb_spec (wl_generation self + 1) (2 ^ 64)); [done|lia]. }
  rewrite Hga. destruct (extended_wf self record _ Hlw Hw Hga) as [_ Hwf].
  destruct (WorkerBudgetLedgerV1_encode (extended self record)) as [bs|e] eqn:He.
  - by apply (commit_candidate_fine net self (extended self record) bs).
  - exfalso. assert (WorkerBudgetLedgerV1_encode (extended self record) = Ok (ledger_body (extended self record)
      ++ ledger_checksum (ledger_body (extended self record)))) as Ho; [|by rewrite Ho in He].
    apply ledger_encode_iff. cbn [extended wl_network_id wl_records]. rewrite length_app. cbn [length].
    split; [lia|]. split; [|split; [by apply fresh_ids_snoc|done]]. rewrite <- Hnet in Hrv.
    unfold records_valid in *. apply Forall_app. split; [exact Hrv|by apply Forall_singleton].
Qed.

Lemma update_fine net self rs record s0 s d :
  load (d_cur d) net = Ok self -> wl_records self = rs ++ [set_status record s0] -> known_status s = true ->
  existsb (fun r => bytes_eqb (lg_assignment_id r) (lg_assignment_id record)) rs = false ->
  wl_generation self + 1 < 2 ^ 64 ->
  exists d', update_status_and_persist self (lg_assignment_id record) s d []
    = (with_records self (rs ++ [set_status record s]), d', [], Returns (Ok tt)) /\
    load (d_cur d') net = Ok (with_records self (rs ++ [set_status record s])).
Proof.
  intros Hl Hr Hk Hn Hg. destruct (load_facts _ _ _ Hl) as (Hlw & Hnet & Hrv & Hf).
  pose proof (load_inv _ _ _ Hl) as (old & _ & _ & (Hlen & _)%ledger_encode_iff & _).
  pose proof (update_first_last rs record _ s0 s Hn eq_refl) as Hu.
  rewrite <- Hr in Hu. unfold update_status_and_persist. rewrite Hk, Hu. cbn [negb].
  assert (checked_add 64 (wl_generation self) 1 = Some (wl_generation self + 1)) as Hga.
  { unfold checked_add. destruct (Z.ltb_spec (wl_generation self + 1) (2 ^ 64)); [done|lia]. }
  rewrite Hga. fold (with_records self (rs ++ [set_status record s])).
  set (candidate := with_records self (rs ++ [set_status record s])).
  assert (ledger_wf candidate) as Hwf.
  { destruct Hlw as (W1 & W2 & W3). split; [done|]. split; [cbn; lia|]. cbn [candidate with_records wl_records].
    destruct (update_first_spec _ _ _ _ Hu) as [_ H].
    apply H; [done|by apply known_status_u8]. }
  apply (commit_candidate_fine net self candidate (ledger_body candidate ++ ledger_checksum (ledger_body candidate)));
    [done..|]. apply ledger_encode_iff. rewrite Hr in Hrv, Hf, Hlen. unfold records_valid in *.
  apply Forall_app in Hrv as [V1 [V2 _]%Forall_cons].
  cbn [candidate with_records wl_network_id wl_records]. rewrite Hnet. split_and!; [|..|done].
  - rewrite length_app in *. exact Hlen.
  - apply Forall_app. split; [done|]. apply Forall_singleton.
    unfold LedgerRecordV1_validate in *. cbn [set_status lg_status lg_ticket_index lg_work_units_for_epoch
      lg_ticket_key lg_parent_block_hash lg_target_epoch lg_license_id] in *.
    revert V2. destruct (_ <=? _); [done|]. rewrite Hk. by destruct (known_status s0).
  - apply fresh_ids_snoc; [|done]. destruct Hf as [Hd _]. split; [|apply Forall_forall; set_solver].
    rewrite map_app in Hd. by apply NoDup_app in Hd as [? _].
Qed.

(** An action that does not fail and where nothing goes wrong below. *)
Definition quiet {E A} (m : act E A) (w : world) (a : A) (w' : world) : Prop :=
  m w = (w', Replies (Ok a)) /\ wd_faults w' = [].

Lemma quiet_bind {E A B} (m : act E A) (k : A -> act E B) w a w1 b w2 :
  quiet m w a w1 -> quiet (k a) w1 b w2 -> quiet (act_bind m k) w b w2.
Proof. intros [H1 _] [H2 H3]. split; [|done]. unfold act_bind. by rewrite H1. Qed.

Lemma quiet_of {E A} (a : A) w : wd_faults w = [] -> quiet (E := E) (act_of (Ok a)) w a w.
Proof. done. Qed.

Lemma quiet_state {E A} (k : WorkerServiceState -> act E A) w a w' :
  quiet (k (wd_state w)) w a w' -> quiet (act_state k) w a w'.
Proof. done. Qed.

Lemma quiet_map {E F A} (f : E -> F) (m : act E A) w a w' : quiet m w a w' -> quiet (act_map_err f m) w a w'.
Proof. intros [H1 H2]. split; [|done]. unfold act_map_err. by rewrite H1. Qed.

(** The world after a call of the ledger. *)
Definition on_disk (w : world) (l : WorkerBudgetLedgerV1) (d : disk) : world :=
  {| wd_state := with_ledger l (wd_state w); wd_disk := d; wd_faults := []; wd_input := wd_input w;
     wd_sent := wd_sent w |}.

Lemma quiet_ledger {A} op w l d (a : A) :
  op (ws_ledger (wd_state w)) (wd_disk w) (wd_faults w) = (l, d, [], Returns (Ok a)) ->
  quiet (on_ledger op) w a (on_disk w l d).
Proof. intros H. unfold quiet, on_ledger. by rewrite H. Qed.

Lemma quiet_send magic ty id payload w :
  wd_faults w = [] -> Z.of_nat (length payload) <= 1048576 ->
  quiet (send_frame (message magic ty id payload)) w tt
    {| wd_state := wd_state w; wd_disk := wd_disk w; wd_faults := []; wd_input := wd_input w;
       wd_sent := wd_sent w ++ [(wire (message magic ty id payload), wd_disk w)] |}.
Proof.
  intros Hf Hl. unfold quiet, send_frame.
  rewrite (proj2 (frame_encode_eq (message magic ty id payload) (wire (message magic ty id payload)))).
  - by rewrite Hf.
  - split; [exact Hl|done].
Qed.

Lemma quiet_receive magic ty id payload rest w :
  is_u32 magic -> is_u16 ty -> is_u64 id -> Z.of_nat (length payload) <= 1048576 ->
  wd_faults w = [] -> wd_input w = wire (message magic ty id payload) ++ rest ->
  quiet (receive_frame magic) w (message magic ty id payload)
    {| wd_state := wd_state w; wd_disk := wd_disk w; wd_faults := []; wd_input := rest; wd_sent := wd_sent w |}.
Proof.
  intros H1 H2 H3 Hl Hf Hi. unfold quiet, receive_frame. rewrite Hi.
  rewrite (proj2 (run_read_from magic _ (message magic ty id payload) [] rest)).
  - by rewrite Hf.
  - split; [|done]. unfold frame_wf. cbn [message fr_magic fr_version fr_message_type fr_flags
      fr_request_id fr_payload]. change MAX_P2P_PAYLOAD with 1048576. done.
Qed.

(** An assignment that the node can make for a worker of this session. *)
Record workable (net : Z) (session : AuthenticatedWorkerSession) (node_key worker_key : bytes)
    (authority : PreparedTicketAuthorityV1) (seq id : Z) (core : WorkAssignmentCoreV1) (w : world) : Prop := {
  wk_synced : synced net w;
  wk_net : ws_network_id (wd_state w) = net;
  wk_magic : is_u32 (ws_worker_magic (wd_state w));
  wk_faults : wd_faults w = [];
  wk_id : is_u64 id /\ id <> 0 /\ id <> as_request_id session;
  wk_core : assignment_core authority session seq net = Ok core;
  wk_wf : assignment_core_wf core;
  wk_record : record_wf (reservation core session seq);
  wk_fresh : assignment_seen (ws_ledger (wd_state w)) (assignment_id core) = false;
  wk_generation : wl_generation (ws_ledger (wd_state w)) + 3 < 2 ^ 64;
  wk_room : Z.of_nat (length (wl_records (ws_ledger (wd_state w)))) + 1 < 2 ^ 32;
  wk_node : as_node_id session = node_id_from_public_key (sk_public node_key);
  wk_worker_key : as_worker_public_key session = sk_public worker_key;
  wk_worker : as_worker_id session = worker_id net (sk_public worker_key);
}.

Definition signed_assignment (core : WorkAssignmentCoreV1) (key : bytes) : WorkAssignmentV1 :=
  {| wa_core := core; wa_ticket_key := WorkAssignmentCoreV1_ticket_key core; wa_assignment_id := assignment_id core;
     wa_node_signature := sign_assignment key core (WorkAssignmentCoreV1_ticket_key core) (assignment_id core) |}.

Lemma signed_assignment_ok core key :
  assignment_core_wf core ->
  WorkAssignmentV1_new_signed core key = Ok (signed_assignment core key) /\
  assignment_wf (signed_assignment core key) /\
  WorkAssignmentV1_verify_node_signature (signed_assignment core key) (sk_public key) = Ok tt.
Proof.
  intros Hw. assert (WorkAssignmentV1_validate_derived (signed_assignment core key) = Ok tt) as Hd.
  { apply validate_derived_iff. split; [apply Hw|done]. }
  split_and!.
  - unfold WorkAssignmentV1_new_signed. by rewrite (proj2 Hw).
  - split; [exact Hw|]. split; [apply sk_sign_length|exact Hd].
  - unfold WorkAssignmentV1_verify_node_signature. rewrite Hd. apply verify_message_signed.
Qed.

Definition with_input (input : bytes) (w : world) : world :=
  {| wd_state := wd_state w; wd_disk := wd_disk w; wd_faults := wd_faults w; wd_input := input;
     wd_sent := wd_sent w |}.

Lemma reservation_valid authority session seq net core :
  assignment_core authority session seq net = Ok core -> assignment_core_wf core ->
  LedgerRecordV1_validate (reservation core session seq) net = Ok tt.
Proof.
  intros Hc [_ Hs]. assert (ac_network_id core = net) as Hn.
  { unfold assignment_core in Hc. destruct (validate_consensus_math authority); [|done]. by injection Hc as <-. }
  unfold WorkAssignmentCoreV1_validate_shape in Hs. unfold LedgerRecordV1_validate, reservation.
  cbn [lg_ticket_index lg_work_units_for_epoch lg_status lg_ticket_key lg_parent_block_hash lg_target_epoch lg_license_id].
  destruct (_ <=? _); [done|]. rewrite <- Hn. by rewrite bytes_eqb_refl.
Qed.

Section worked.
Context (net : Z) (session : AuthenticatedWorkerSession) (node_key worker_key : bytes).
Context (authority : PreparedTicketAuthorityV1) (seq id : Z) (core : WorkAssignmentCoreV1) (w : world).
Context (W : workable net session node_key worker_key authority seq id core w).

Let record := reservation core session seq.
Let l0 := ws_ledger (wd_state w).
Let magic := ws_worker_magic (wd_state w).
Let assignment := signed_assignment core node_key.

Lemma issue_run :
  exists d1 d2, load (d_cur d1) net = Ok (extended l0 record) /\
    let l2 := with_records (extended l0 record) (wl_records l0 ++ [set_status record STATUS_SENT]) in
    load (d_cur d2) net = Ok l2 /\
    quiet (issue core session node_key seq id) w (assignment, negb (ticket_seen l0 (lg_ticket_key record)))
      {| wd_state := with_ledger l2 (wd_state w); wd_disk := d2; wd_faults := []; wd_input := wd_input w;
         wd_sent := wd_sent w ++ [(assignment_frame magic id assignment, d1)] |}.
Proof.
  destruct W as [Hs Hnet Hm Hf (Hi1 & Hi2 & Hi3) Hc Hwf Hrec Hfresh Hg Hroom Hn Hk Hw].
  destruct (signed_assignment_ok core node_key Hwf) as (Ha & Hawf & _).
  destruct (reserve_fine net l0 record (wd_disk w) Hs Hrec (reservation_valid _ _ _ _ _ Hc Hwf) Hfresh ltac:(fold l0 in Hg; lia) Hroom)
    as (d1 & R1 & L1).
  destruct (update_fine net (extended l0 record) (wl_records l0) record STATUS_RESERVED STATUS_SENT d1 L1 eq_refl eq_refl Hfresh
    ltac:(cbn; fold l0 in Hg; lia)) as (d2 & R2 & L2).
  exists d1, d2. split; [exact L1|]. cbv zeta. split; [exact L2|].
  unfold issue. apply quiet_state. eapply quiet_bind.
  { apply quiet_map. apply quiet_ledger. rewrite Hf. exact R1. }
  eapply quiet_bind. { rewrite Ha. cbn [map_err]. by apply quiet_of. }
  eapply quiet_bind. { unfold frame_err. rewrite small_new by (by apply assignment_encode_length). by apply quiet_of. }
  eapply quiet_bind. { apply quiet_map, quiet_send; [done|by apply assignment_encode_length]. }
  eapply quiet_bind. { apply quiet_map. eapply quiet_ledger. exact R2. }
  split; [|done]. reflexivity.
Qed.

(** The session's own worker answers with a true result. *)
Lemma worker_run proof rest :
  assignment_proof core = Ok proof ->
  play (RwFrame Io) (process_one_assignment magic session (sk_public node_key) worker_key)
    (assignment_frame magic id assignment ++ rest)
  = (Ok (true_result assignment worker_key proof),
     result_frame magic id (true_result assignment worker_key proof), rest).
Proof.
  intros Hp. destruct W as [Hs Hnet Hm Hf (Hi1 & Hi2 & Hi3) Hc Hwf Hrec Hfresh Hg Hroom Hn Hk Hw].
  destruct (signed_assignment_ok core node_key Hwf) as (Ha & Hawf & Hv).
  pose proof (result_encode_length _ (true_result_wf assignment worker_key proof Hawf Hp)) as Hlen.
  assert (ac_network_id core = net /\ ac_session_id core = as_session_id session /\
    ac_worker_id core = as_worker_id session /\ ac_node_id core = as_node_id session) as (C1 & C2 & C3 & C4).
  { unfold assignment_core in Hc. destruct (validate_consensus_math authority); [|done]. by injection Hc as <-. }
  unfold process_one_assignment.
  eapply run_seq; [apply small_read; [done|done|done|by apply assignment_encode_length]| |reflexivity].
  cbn [message fr_message_type fr_request_id fr_payload]. rewrite Z.eqb_refl. cbn [negb].
  destruct (Z.eqb_spec id 0); [done|]. rewrite (proj2 (assignment_codec _ assignment)) by done. cbn [map_err].
  eapply run_seq; [reflexivity| |symmetry; apply app_nil_l].
  rewrite (proj2 (execute_assignment_iff assignment session (sk_public node_key) worker_key
    (true_result assignment worker_key proof))).
  2:{ split; [|by exists proof]. unfold assignment_for. cbn [assignment signed_assignment wa_core].
      rewrite C1, C2, C3, C4, Hk, Hw. split_and!; done. }
  eapply run_seq; [reflexivity| |symmetry; apply app_nil_l]. rewrite small_new by done. cbn [map_err].
  eapply run_seq; [reflexivity| |symmetry; apply app_nil_l].
  eapply run_seq; [by apply small_write|reflexivity|symmetry; apply app_nil_r].
Qed.

Lemma await_run proof rest w1 rs s0 :
  assignment_proof core = Ok proof ->
  wd_state w1 = with_ledger (ws_ledger (wd_state w1)) (wd_state w) -> wd_faults w1 = [] ->
  synced net w1 -> wl_records (ws_ledger (wd_state w1)) = rs ++ [set_status record s0] ->
  existsb (fun r => bytes_eqb (lg_assignment_id r) (lg_assignment_id record)) rs = false ->
  wl_generation (ws_ledger (wd_state w1)) + 1 < 2 ^ 64 ->
  wd_input w1 = result_frame magic id (true_result assignment worker_key proof) ++ rest ->
  exists s d3, status_of_result (rc_result_kind (wr_core (true_result assignment worker_key proof))) = Ok s /\
    let l3 := with_records (ws_ledger (wd_state w1)) (rs ++ [set_status record s]) in
    load (d_cur d3) net = Ok l3 /\
    quiet (await_result assignment session id) w1 (true_result assignment worker_key proof)
      {| wd_state := with_ledger l3 (wd_state w1); wd_disk := d3; wd_faults := []; wd_input := rest;
         wd_sent := wd_sent w1 |}.
Proof.
  intros Hp Hst Hf1 Hs1 Hr1 Hn1 Hg1 Hin.
  destruct W as [Hs Hnet Hm Hf (Hi1 & Hi2 & Hi3) Hc Hwf Hrec Hfresh Hg Hroom Hn Hk Hw].
  destruct (signed_assignment_ok core node_key Hwf) as (_ & Hawf & _).
  pose proof (true_result_wf assignment worker_key proof Hawf Hp) as Hrwf.
  pose proof (true_result_verifies assignment worker_key proof Hawf Hp) as Hver.
  assert (ac_network_id core = net /\ ac_session_id core = as_session_id session /\
    ac_worker_id core = as_worker_id session) as (C1 & C2 & C3).
  { unfold assignment_core in Hc. destruct (validate_consensus_math authority); [|done]. by injection Hc as <-. }
  assert (exists s, status_of_result (rc_result_kind (wr_core (true_result assignment worker_key proof))) = Ok s /\
    known_status s = true) as (s & Hst1 & Hkn).
  { cbn [true_result wr_core rc_result_kind]. destruct (proof_below_target _ _); eexists; split; reflexivity. }
  destruct (update_fine net (ws_ledger (wd_state w1)) rs record s0 s (wd_disk w1) Hs1 Hr1 Hkn Hn1 Hg1)
    as (d3 & R3 & L3).
  exists s, d3. split; [exact Hst1|]. cbv zeta. split; [exact L3|]. unfold await_result. apply quiet_state.
  assert (ws_worker_magic (wd_state w1) = magic) as -> by (by rewrite Hst).
  assert (ws_network_id (wd_state w1) = net) as -> by (by rewrite Hst).
  eapply quiet_bind.
  { apply quiet_map. apply (quiet_receive magic MSG_WORK_RESULT id
      (WorkResultV1_encode (true_result assignment worker_key proof)) rest); [done|done|done|by apply result_encode_length|done|exact Hin]. }
  cbn [message fr_message_type fr_request_id fr_payload]. rewrite !Z.eqb_refl. cbn [negb].
  eapply quiet_bind. { rewrite (proj2 (result_codec _ (true_result assignment worker_key proof))) by done. by apply quiet_of. }
  assert ((negb (rc_network_id (wr_core (true_result assignment worker_key proof)) =? net)
     || negb (bytes_eqb (rc_session_id (wr_core (true_result assignment worker_key proof))) (as_session_id session))
     || negb (bytes_eqb (rc_assignment_id (wr_core (true_result assignment worker_key proof))) (wa_assignment_id assignment))
     || negb (bytes_eqb (rc_ticket_key (wr_core (true_result assignment worker_key proof))) (wa_ticket_key assignment))
     || negb (bytes_eqb (rc_worker_id (wr_core (true_result assignment worker_key proof))) (as_worker_id session)))
    = false) as ->.
  { cbn [true_result wr_core rc_network_id rc_session_id rc_assignment_id rc_ticket_key rc_worker_id assignment
      signed_assignment wa_core wa_assignment_id wa_ticket_key].
    by rewrite C1, C2, C3, Z.eqb_refl, !bytes_eqb_refl. }
  eapply quiet_bind. { rewrite Hk, Hver. by apply quiet_of. }
  eapply quiet_bind. { rewrite Hst1. by apply quiet_of. }
  eapply quiet_bind. { apply quiet_map. eapply quiet_ledger. exact R3. }
  split; reflexivity.
Qed.
End worked.

(** C16: a ticket that can be worked is worked.  The node dispatches a ticket it
    prepared to the worker of an authenticated session, and the reference
    worker answers it: when no call below fails, what each side writes makes
    the other side succeed, the outcome is the true result of the ticket's
    Argon2id proof against the target, it says whether the ticket is new, and
    memory and file hold the status of that result. *)
Theorem ticket_is_worked net session node_key worker_key authority seq id core w proof :
  workable net session node_key worker_key authority seq id core w ->
  assignment_proof core = Ok proof ->
  let a := signed_assignment core node_key in
  let result := true_result a worker_key proof in
  let magic := ws_worker_magic (wd_state w) in
  exists from_node from_worker w' d s,
    play (RwFrame Io) (process_one_assignment magic session (sk_public node_key) worker_key) from_node
      = (Ok result, from_worker, []) /\
    dispatch_one_prepared_ticket session node_key authority seq id (with_input from_worker w)
      = (w', Replies (Ok {| ad_assignment := a; ad_result := result;
           ad_new_unique_ticket :=
             negb (ticket_seen (ws_ledger (wd_state w)) (WorkAssignmentCoreV1_ticket_key core)) |})) /\
    wd_sent w' = wd_sent w ++ [(from_node, d)] /\ wd_input w' = [] /\ synced net w' /\
    status_of_result (rc_result_kind (wr_core result)) = Ok s /\
    wl_records (ws_ledger (wd_state w'))
    = wl_records (ws_ledger (wd_state w)) ++ [set_status (reservation core session seq) s].
Proof.
  intros W Hp. cbv zeta. set (a := signed_assignment core node_key). set (magic := ws_worker_magic (wd_state w)).
  set (from_worker := result_frame magic id (true_result a worker_key proof)).
  assert (workable net session node_key worker_key authority seq id core (with_input from_worker w)) as W'
    by (destruct W; by split).
  destruct (issue_run _ _ _ _ _ _ _ _ _ W') as (d1 & d2 & L1 & L2 & [Hissue _]). cbv zeta in L2.
  set (w1 := {| wd_state := _; wd_disk := d2 |}) in Hissue.
  destruct (await_run _ _ _ _ _ _ _ _ _ W' proof [] w1 (wl_records (ws_ledger (wd_state w))) STATUS_SENT Hp
    eq_refl eq_refl L2 eq_refl (wk_fresh _ _ _ _ _ _ _ _ _ W)
    ltac:(cbn; pose proof (wk_generation _ _ _ _ _ _ _ _ _ W); lia)
    ltac:(cbn [w1 wd_input with_input]; by rewrite app_nil_r)) as (s & d3 & Hst & L3 & [Hawait _]).
  cbv zeta in L3. set (w2 := {| wd_state := _; wd_disk := d3 |}) in Hawait.
  exists (assignment_frame magic id a), from_worker, w2, d1, s. split_and!.
  - rewrite <- (app_nil_r (assignment_frame magic id a)). exact (worker_run _ _ _ _ _ _ _ _ _ W proof [] Hp).
  - destruct (wk_id _ _ _ _ _ _ _ _ _ W) as (_ & I2 & I3). unfold dispatch_one_prepared_ticket.
    destruct (Z.eqb_spec id 0); [done|]. destruct (Z.eqb_spec id (as_request_id session)); [done|].
    unfold act_state, act_bind. cbn [with_input wd_state]. rewrite (wk_net _ _ _ _ _ _ _ _ _ W).
    unfold act_of at 1. rewrite (wk_core _ _ _ _ _ _ _ _ _ W), Hissue, Hawait. reflexivity.
  - reflexivity.
  - reflexivity.
  - exact L3.
  - exact Hst.
  - reflexivity.
Qed.
End liveness.

(** ** Serving connections *)

Section serving.
Context {SHA : Sha2} {ED : Ed25519}.

Lemma with_active_same s : with_active (ws_active_workers s) s = s.
Proof. by destruct s. Qed.

Lemma accept_release key nonce caps input fails s :
  is32 nonce -> is_u64 caps ->
  let (s1, r) := accept_one key nonce caps input fails s in
  match r with Ok (session, _) => release_session session s1 | Err _ => s1 end = s.
Proof.
  intros Hn Hc. unfold accept_one.
  destruct (play _ _ input) as [[r out] rest] eqn:E.
  destruct r as [[active' [session|e]]|e]; cbn [registry_after].
  - apply accept_sound in E as (hello & ws & id & _ & _ & H); [|done..]. cbv zeta in H.
    destruct H as (_ & Hi & -> & _ & _ & _ & ->). unfold release_session.
    cbn [session_of as_worker_id with_active ws_active_workers]. rewrite release_claimed by done. by destruct s.
  - apply accept_fails_cleanly in E; [|done]. cbn [registry_after] in E. rewrite E. apply with_active_same.
  - apply with_active_same.
Qed.

(** Whatever connections come, whatever is sent on them and whichever of them
    fail, the registry is after every connection what it was: no worker stays
    entered and none is thrown out.  A service that stops by itself has handled
    exactly the connections it was told to. *)
Theorem serving_keeps_registry key max connections s s' r :
  Forall (fun c => match c with Some c => is32 (cn_nonce c) | None => True end) connections ->
  serve_authenticated_workers_on_listener key max connections s = (s', r) ->
  s' = s /\ (forall n m, r = Some (Ok n) -> max = Some m -> is_u64 m -> n = m).
Proof.
  unfold serve_authenticated_workers_on_listener. intros Hn.
  destruct (match max with Some m => m =? 0 | None => false end) eqn:E0; [by intros [= <- <-]|].
  assert (forall handled, 0 <= handled -> (forall m, max = Some m -> is_u64 m -> handled < m) ->
    serve_loop key max handled connections s = (s', r) ->
    s' = s /\ (forall n m, r = Some (Ok n) -> max = Some m -> is_u64 m -> n = m)) as Hloop.
  2:{ apply Hloop; [done|]. intros m -> [? _]. apply Z.eqb_neq in E0. lia. }
  clear E0. induction Hn as [|[c|] connections Hc _ IH]; intros handled H0 Hm; cbn [serve_loop];
    [by intros [= <- <-]| |by intros [= <- <-]].
  pose proof (accept_release key (cn_nonce c) DEFAULT_NODE_CAPABILITIES (cn_input c) (cn_accept_write_fails c) s Hc
    ltac:(unfold DEFAULT_NODE_CAPABILITIES; lia)) as Hs.
  destruct (accept_one _ _ _ _ _ s) as [s1 r1]. rewrite Hs.
  assert (0 <= saturating_add 64 handled 1) as H1 by (unfold saturating_add; lia).
  destruct max as [m|].
  - destruct (Z.leb_spec m (saturating_add 64 handled 1)) as [Hle|Hlt].
    + intros [= <- <-]. split; [done|]. intros n m' [= <-] [= <-] Hu. specialize (Hm m eq_refl Hu).
      unfold saturating_add in *. lia.
    + apply IH; [done|]. by intros m' [= <-] _.
  - by apply IH.
Qed.
End serving.

(** ** The allowlist as text *)

(** What writes an allowlist. *)
Definition allowlist_text (ids : list bytes) : text := concat (map (fun id => hex_text id ++ [LF]) ids).

(** An allowlist of distinct identifiers is read back as that set, and no
    accepted file has more than 4096. *)
Theorem allowlist_roundtrip :
  (forall ids len, Forall (fun id : bytes => is32 id) ids -> NoDup ids -> Z.of_nat (length ids) <= ALLOWLIST_MAX_ENTRIES ->
     len <= ALLOWLIST_MAX_BYTES ->
     load_worker_allowlist (Some (len, Some (allowlist_text ids))) = Ok (list_to_set ids)) /\
  (forall file allowed, load_worker_allowlist file = Ok allowed -> Z.of_nat (size allowed) <= ALLOWLIST_MAX_ENTRIES).
Proof.
  split.
  - intros ids len H32 Hd Hl Hlen. unfold load_worker_allowlist. cbn [ok_or].
    destruct (Z.ltb_spec ALLOWLIST_MAX_BYTES len); [lia|].
    assert (forall done, (forall id, id ∈ ids -> id ∉ (done : gset bytes)) ->
      Z.of_nat (size done) + Z.of_nat (length ids) <= ALLOWLIST_MAX_ENTRIES ->
      parse_allowlist (lines (allowlist_text ids)) done = Ok (list_to_set ids ∪ done)) as Hp.
    { clear Hl. induction ids as [|id ids IH]; intros done Hnew Hsize.
      - cbn. f_equal. set_solver.
      - apply Forall_cons in H32 as [Hid H32]. apply NoDup_cons in Hd as [Hni Hd].
        cbn [allowlist_text map concat]. rewrite <- app_assoc. cbn [app].
        rewrite lines_plain by apply hex_text_plain. cbn [parse_allowlist].
        rewrite trim_plain by apply hex_text_plain.
        assert (match hex_text id with [] => true | _ => starts_with_hash (hex_text id) end = false) as ->.
        { pose proof (hex_text_plain id) as Hpl. destruct id as [|b id]; [done|]. rewrite hex_text_cons in *.
          cbn [starts_with_hash]. apply Forall_cons in Hpl as [(_ & _ & Hh) _]. by apply Z.eqb_neq. }
        cbn [length] in Hsize. destruct (Z.leb_spec ALLOWLIST_MAX_ENTRIES (Z.of_nat (size done))); [lia|].
        unfold decode_worker_id. rewrite hex_text_field by done. cbn [ok_or].
        rewrite bool_decide_eq_false_2 by (apply Hnew; left).
        rewrite IH; [f_equal; set_solver|done|done| |].
        + intros x Hx [->%elem_of_singleton|Hin]%elem_of_union; [done|]. by apply (Hnew x); [right|].
        + rewrite size_union_alt. rewrite size_singleton.
          assert (size (done ∖ {[id]}) = size done) as ->; [|lia]. f_equal. assert (id ∉ done) by (apply Hnew; left). set_solver. }
    rewrite Hp; [f_equal; set_solver|set_solver|]. rewrite size_empty. lia.
  - intros file allowed. unfold load_worker_allowlist. destruct file as [[len content]|]; [|done]. cbn [ok_or].
    destruct (_ <? _); [done|]. destruct content as [content|]; [|done]. cbn [ok_or].
    assert (Z.of_nat (size (∅ : gset bytes)) <= ALLOWLIST_MAX_ENTRIES) as H0 by (rewrite size_empty; done).
    revert H0. generalize (∅ : gset bytes) as acc. induction (lines content) as [|raw ls IH]; intros acc H0; cbn [parse_allowlist].
    + by intros [= <-].
    + destruct (match trim raw with [] => true | _ => _ end); [by apply IH|].
      destruct (Z.leb_spec ALLOWLIST_MAX_ENTRIES (Z.of_nat (size acc))); [done|].
      destruct (decode_worker_id _) as [id|]; [|done]. destruct (bool_decide_reflect (id ∈ acc)); [done|].
      apply IH. rewrite size_union_alt, size_singleton.
      assert (size (acc ∖ {[id]}) <= size acc)%nat; [|lia]. apply subseteq_size. set_solver.
Qed.

(** ** The search for secret files *)

Fixpoint secret_free (e : dir_entry) : bool :=
  match e with
  | RegularFile extension => negb (is_msk extension)
  | OtherEntry => true
  | SubDir entries => forallb secret_free entries
  end.

Definition all_directories (pending : list (list dir_entry)) : nat :=
  sum_list (map (fun d => directories (SubDir d)) pending).

Lemma all_directories_cons d pending :
  all_directories (d :: pending) = S (sum_list (map directories d) + all_directories pending).
Proof. done. Qed.

Lemma scan_dir_spec entries pending :
  match scan_dir entries pending with
  | Ok pending' =>
      forallb (forallb secret_free) pending' = forallb secret_free entries && forallb (forallb secret_free) pending /\
      all_directories pending' = (sum_list (map directories entries) + all_directories pending)%nat
  | Err _ => forallb secret_free entries = false
  end.
Proof.
  revert pending. induction entries as [|[extension| |sub] entries IH]; intros pending;
    cbn [scan_dir forallb secret_free map sum_list].
  - done.
  - destruct (is_msk extension); cbn [negb andb]; [done|]. apply IH.
  - apply IH.
  - specialize (IH (sub :: pending)). destruct (scan_dir entries (sub :: pending)) as [pending'|].
    + destruct IH as [-> ->]. cbn [forallb]. split; [by destruct (forallb secret_free sub), (forallb secret_free entries)|].
      unfold all_directories. cbn [map sum_list directories fold_right]. lia.
    + rewrite IH. apply andb_false_r.
Qed.

(** The service starts only if no file of the worker directory, at any depth,
    has the extension of a secret file, in whatever case; the search visits
    every directory within its fuel. *)
Theorem secret_boundary entries :
  validate_worker_secret_boundary (Some entries) = Ok tt <-> forallb secret_free entries = true.
Proof.
  unfold validate_worker_secret_boundary.
  assert (forall fuel pending, (all_directories pending <= fuel)%nat ->
    (scan_pending fuel pending = Ok tt <-> forallb (forallb secret_free) pending = true)) as H.
  { induction fuel as [|fuel IH]; intros [|d pending] Hf; cbn [scan_pending forallb]; [done| |done|].
    - rewrite all_directories_cons in Hf. lia.
    - pose proof (scan_dir_spec d pending) as Hs. destruct (scan_dir d pending) as [pending'|].
      + destruct Hs as [<- Hs]. apply IH. rewrite Hs. rewrite all_directories_cons in Hf. lia.
      + rewrite Hs. done. }
  rewrite H; [cbn [forallb]; by rewrite andb_true_r|].
  rewrite all_directories_cons. cbn [directories]. unfold all_directories. cbn. lia.
Qed.
