(* ===== verification/WorkerScheduler.v ===== *)
(** Crate [mutiny-node], file worker_scheduler.rs: which worker may work for
    which license, which ticket is next, and the cancellation of assignments.

    Actions and worlds are those of WorkerService.  [BTreeMap] and [BTreeSet]
    are finite maps and sets; an error that the source formats into a message
    keeps its cause.  Projections: [tp_] for [CanonicalTicketPlanV1] (which is
    declared in worker_mining.rs), [al_] for [AssignmentLivenessV1]. *)

From Stdlib Require Import Strings.Byte Strings.String.
From stdpp Require Import strings gmap.
From S2P Require Import Prelude Crypto Smt Consensus Worker Ledger Text P2p WorkerEndpoint WorkerService.

Definition AUTHZ_MAX_BYTES : Z := 1048576.
Definition AUTHZ_MAX_PAIRS : Z := 4096.

Definition CANCEL_CANONICAL_PARENT_CHANGED : Z := 0x01.
Definition CANCEL_TARGET_EPOCH_EXPIRED : Z := 0x02.
Definition CANCEL_LICENSE_NO_LONGER_ELIGIBLE : Z := 0x03.
Definition CANCEL_WORKER_AUTHORIZATION_REVOKED : Z := 0x04.
Definition CANCEL_MINING_CUSTODY_LOST : Z := 0x05.
Definition CANCEL_NODE_SHUTDOWN : Z := 0x06.
Definition CANCEL_ADMINISTRATIVE : Z := 0x07.

Inductive SchedulerError :=
| ScError (what : string)
| ScPackL (e : PackLError)
| ScLedger (e : LedgerError)
| ScFrame (e : P2pError).

Record CanonicalTicketPlanV1 := {
  tp_authority : PreparedTicketAuthorityV1;
  tp_license_index : nat;
  tp_operation_fingerprint : list (Z * bytes32);
}.

(** ** Authorizations *)

Abbreviation WorkerLicenseAuthorizationsV1 := (gmap bytes (gset bytes)).

Definition is_authorized (by_worker : WorkerLicenseAuthorizationsV1) (worker_id license_id : bytes32) : bool :=
  match by_worker !! worker_id with
  | Some licenses => bool_decide (license_id ∈ licenses)
  | None => false
  end.

Definition license_count_for (by_worker : WorkerLicenseAuthorizationsV1) (worker_id : bytes32) : nat :=
  match by_worker !! worker_id with Some licenses => size licenses | None => 0 end.

Definition pair_count (by_worker : WorkerLicenseAuthorizationsV1) : nat :=
  sum_list (map (fun p => size p.2) (map_to_list by_worker)).

(** [entry(worker_id).or_default().insert(license_id)] *)
Definition authorize_pair (worker_id license_id : bytes32) (by_worker : WorkerLicenseAuthorizationsV1)
    : WorkerLicenseAuthorizationsV1 :=
  <[worker_id := {[license_id]} ∪ default ∅ (by_worker !! worker_id)]> by_worker.

Definition decode_id (t : text) (label : string) : result SchedulerError bytes32 :=
  ok_or (ScError (label ++ " must be exactly 64 hexadecimal characters")) (hex_field t).

(** The loop over the lines. *)
Fixpoint parse_authorizations (allowed : gset bytes) (lines : list text) (pairs : gset (bytes * bytes))
    (out : WorkerLicenseAuthorizationsV1) : result SchedulerError WorkerLicenseAuthorizationsV1 :=
  match lines with
  | [] => Ok out
  | raw :: lines =>
      let body := trim (before_hash raw) in
      if match body with [] => true | _ => false end then parse_authorizations allowed lines pairs out else
      match split_whitespace body with
      | [worker; license] =>
          if AUTHZ_MAX_PAIRS <=? Z.of_nat (size pairs)
          then Err (ScError "worker-license authorization file exceeds 4096 pairs") else
          let? worker_id := decode_id worker "WorkerID" in
          let? license_id := decode_id license "LicenseID" in
          if negb (bool_decide (worker_id ∈ allowed))
          then Err (ScError "worker-license authorization line references WorkerID absent from authorized-workers-v1.txt") else
          if bool_decide ((worker_id, license_id) ∈ pairs)
          then Err (ScError "duplicate WorkerID/LicenseID authorization pair") else
          parse_authorizations allowed lines ({[(worker_id, license_id)]} ∪ pairs)
            (authorize_pair worker_id license_id out)
      | _ => Err (ScError "worker-license authorization line must contain exactly WorkerID and LicenseID")
      end
  end.

Definition load_worker_license_authorizations (file : option (Z * option text))
    (handshake_allowed_workers : gset bytes) : result SchedulerError WorkerLicenseAuthorizationsV1 :=
  let? (len, content) := ok_or (ScError "read worker-license authorization metadata") file in
  if AUTHZ_MAX_BYTES <? len then Err (ScError "worker-license authorization file exceeds 1 MiB") else
  let? content := ok_or (ScError "read worker-license authorization file") content in
  parse_authorizations handshake_allowed_workers (lines content) ∅ ∅.

Definition load_runtime_worker_license_authorizations (file : option (Z * option text))
    (worker_state : WorkerServiceState) : result SchedulerError WorkerLicenseAuthorizationsV1 :=
  match file with
  | None => Err (ScError "authorized-worker-licenses-v1.txt is required before work assignment")
  | Some _ =>
      let? authz := load_worker_license_authorizations file (ws_allowed_workers worker_state) in
      if (pair_count authz =? 0)%nat
      then Err (ScError "authorized-worker-licenses-v1.txt contains no authorization pairs") else Ok authz
  end.

(** ** Choosing a ticket *)

Section scheduler.
Context {SHA : Sha2} {ED : Ed25519}.

Definition plan_ticket_key (worker_state : WorkerServiceState) (plan : CanonicalTicketPlanV1) (index : Z)
    : bytes32 :=
  let authority := tp_authority plan in
  ticket_key (ws_network_id worker_state) (pa_parent_block_hash authority) (pa_target_epoch authority)
    (pa_license_id authority) index.

Definition plan_ticket_seen (worker_state : WorkerServiceState) (plan : CanonicalTicketPlanV1) (index : Z)
    : bool :=
  let key := plan_ticket_key worker_state plan index in
  existsb (fun record => bytes_eqb (lg_ticket_key record) key) (wl_records (ws_ledger worker_state)).

Definition next_unique_ticket_index (worker_state : WorkerServiceState) (plan : CanonicalTicketPlanV1)
    : option Z :=
  find (fun index => negb (plan_ticket_seen worker_state plan index))
    (map Z.of_nat (seq 0 (Z.to_nat (pa_work_units_for_epoch (tp_authority plan))))).

Definition with_ticket (index : Z) (a : PreparedTicketAuthorityV1) : PreparedTicketAuthorityV1 :=
  {| pa_parent_block_hash := pa_parent_block_hash a; pa_parent_height := pa_parent_height a;
     pa_target_epoch := pa_target_epoch a; pa_license_id := pa_license_id a; pa_ticket_index := index;
     pa_work_units_for_epoch := pa_work_units_for_epoch a;
     pa_eligible_license_count := pa_eligible_license_count a;
     pa_difficulty_c_q32 := pa_difficulty_c_q32 a; pa_anchor_entropy := pa_anchor_entropy a;
     pa_target := pa_target a |}.

Definition plan_for_ticket (plan : CanonicalTicketPlanV1) (ticket_index : Z)
    : result SchedulerError CanonicalTicketPlanV1 :=
  if pa_work_units_for_epoch (tp_authority plan) <=? ticket_index
  then Err (ScError "ticket index is outside frozen Pack-A work budget") else
  Ok {| tp_authority := with_ticket ticket_index (tp_authority plan);
        tp_license_index := tp_license_index plan;
        tp_operation_fingerprint := tp_operation_fingerprint plan |}.

Definition next_unique_plan_for_session (authorizations : WorkerLicenseAuthorizationsV1)
    (worker_state : WorkerServiceState) (plan : CanonicalTicketPlanV1) (session : AuthenticatedWorkerSession)
    : result SchedulerError (option CanonicalTicketPlanV1) :=
  if negb (is_authorized authorizations (as_worker_id session) (pa_license_id (tp_authority plan)))
  then Err (ScError "WorkerID is not locally authorized for this LicenseID") else
  match next_unique_ticket_index worker_state plan with
  | None => Ok None
  | Some index => let? plan := plan_for_ticket plan index in Ok (Some plan)
  end.

Definition redundant_plan_for_session (authorizations : WorkerLicenseAuthorizationsV1)
    (worker_state : WorkerServiceState) (plan : CanonicalTicketPlanV1) (ticket_index : Z)
    (session : AuthenticatedWorkerSession) : result SchedulerError CanonicalTicketPlanV1 :=
  if negb (is_authorized authorizations (as_worker_id session) (pa_license_id (tp_authority plan)))
  then Err (ScError "WorkerID is not locally authorized for this LicenseID") else
  let? selected := plan_for_ticket plan ticket_index in
  if negb (plan_ticket_seen worker_state selected ticket_index)
  then Err (ScError "redundant assignment requires an already-issued TicketKey") else Ok selected.

(** ** Cancelling *)

Record AssignmentLivenessV1 := {
  al_canonical_parent_hash : bytes32;
  al_current_epoch : Z;
  al_license_eligible : bool;
  al_worker_authorized : bool;
  al_mining_custody_current : bool;
}.

Definition cancellation_reason (record : LedgerRecordV1) (liveness : AssignmentLivenessV1) : option Z :=
  if negb (bytes_eqb (lg_parent_block_hash record) (al_canonical_parent_hash liveness))
  then Some CANCEL_CANONICAL_PARENT_CHANGED else
  if lg_target_epoch record <? al_current_epoch liveness then Some CANCEL_TARGET_EPOCH_EXPIRED else
  if negb (al_license_eligible liveness) then Some CANCEL_LICENSE_NO_LONGER_ELIGIBLE else
  if negb (al_worker_authorized liveness) then Some CANCEL_WORKER_AUTHORIZATION_REVOKED else
  if negb (al_mining_custody_current liveness) then Some CANCEL_MINING_CUSTODY_LOST else None.

Definition cancellable_status (status : Z) : bool :=
  (status =? STATUS_RESERVED) || (status =? STATUS_SENT) || (status =? STATUS_CANDIDATE_WIN).

Definition find_assignment (ledger : WorkerBudgetLedgerV1) (assignment_id : bytes32) : option LedgerRecordV1 :=
  find (fun record => bytes_eqb (lg_assignment_id record) assignment_id) (wl_records ledger).

Definition cancel_assignment_on_stream (session : AuthenticatedWorkerSession) (node_signing_key : bytes)
    (assignment_id : bytes32) (reason : Z) : act SchedulerError WorkCancelV1 :=
  if negb (known_code reason) then act_of (Err (ScError "unknown Pack-L cancellation reason")) else
  act_state (fun worker_state =>
  let* record := act_of (ok_or (ScError "assignment is absent from worker budget ledger")
                           (find_assignment (ws_ledger worker_state) assignment_id)) in
  if negb (bytes_eqb (lg_session_id record) (as_session_id session))
     || negb (bytes_eqb (lg_worker_id record) (as_worker_id session))
  then act_of (Err (ScError "cancellation session/WorkerID binding mismatch")) else
  if negb (cancellable_status (lg_status record))
  then act_of (Err (ScError "assignment is already terminal and cannot be cancelled")) else
  let* cancel := act_of (map_err ScPackL (WorkCancelV1_new_signed
    {| cc_network_id := ws_network_id worker_state; cc_session_id := as_session_id session;
       cc_assignment_id := lg_assignment_id record; cc_ticket_key := lg_ticket_key record;
       cc_reason := reason |} node_signing_key)) in
  let* _ := act_map_err ScLedger (on_ledger (fun ledger d fs =>
    update_status_and_persist ledger assignment_id STATUS_CANCELLED d fs)) in
  let* frame := act_of (map_err ScFrame (Frame_new (ws_worker_magic worker_state) MSG_WORK_CANCEL 0
                                           (WorkCancelV1_encode cancel))) in
  let* _ := act_map_err ScFrame (send_frame frame) in
  act_of (Ok cancel)).
End scheduler.

(** ** Tickets are issued in order and once *)

Section tickets.
Context {SHA : Sha2} {ED : Ed25519}.

Lemma find_seq (P : Z -> bool) a n :
  match find P (map Z.of_nat (seq a n)) with
  | Some i => Z.of_nat a <= i < Z.of_nat (a + n) /\ P i = true /\ (forall j, Z.of_nat a <= j < i -> P j = false)
  | None => forall j, Z.of_nat a <= j < Z.of_nat (a + n) -> P j = false
  end.
Proof.
  revert a. induction n as [|n IH]; intros a; cbn [seq map find]; [intros; lia|].
  destruct (P (Z.of_nat a)) eqn:Ea; [split_and!; [lia|lia|done|intros; lia]|].
  specialize (IH (S a)). destruct (find P _) as [i|].
  - destruct IH as (H1 & H2 & H3). split_and!; [lia|lia|done|]. intros j Hj.
    destruct (decide (j = Z.of_nat a)) as [->|]; [done|]. apply H3. lia.
  - intros j Hj. destruct (decide (j = Z.of_nat a)) as [->|]; [done|]. apply IH. lia.
Qed.

Lemma next_unique_spec st plan :
  0 <= pa_work_units_for_epoch (tp_authority plan) ->
  match next_unique_ticket_index st plan with
  | Some i => 0 <= i < pa_work_units_for_epoch (tp_authority plan) /\ plan_ticket_seen st plan i = false /\
              (forall j, 0 <= j < i -> plan_ticket_seen st plan j = true)
  | None => forall j, 0 <= j < pa_work_units_for_epoch (tp_authority plan) -> plan_ticket_seen st plan j = true
  end.
Proof.
  intros H0. unfold next_unique_ticket_index.
  pose proof (find_seq (fun i => negb (plan_ticket_seen st plan i)) 0 (Z.to_nat (pa_work_units_for_epoch (tp_authority plan)))) as H.
  destruct (find _ _) as [i|].
  - destruct H as (H1 & H2 & H3). apply negb_true_iff in H2. split_and!; [lia|lia|done|].
    intros j Hj. apply negb_false_iff, H3. lia.
  - intros j Hj. apply negb_false_iff, H. lia.
Qed.

(** *** The number of tickets in a ledger *)

Lemma ticket_seen_elem l key : ticket_seen l key = true <-> key ∈ map lg_ticket_key (wl_records l).
Proof.
  unfold ticket_seen. rewrite existsb_exists, list_elem_of_In, in_map_iff. split; intros (r & H1 & H2); exists r.
  - by apply bytes_eqb_eq in H2.
  - split; [done|]. by apply bytes_eqb_eq.
Qed.

Lemma unique_count_snoc l l' record :
  wl_records l' = wl_records l ++ [record] ->
  unique_ticket_count l' = unique_ticket_count l + (if ticket_seen l (lg_ticket_key record) then 0 else 1).
Proof.
  intros H. unfold unique_ticket_count. rewrite H, map_app, list_to_set_app_L. cbn [map list_to_set].
  rewrite (right_id_L ∅ (∪)). destruct (ticket_seen l (lg_ticket_key record)) eqn:E.
  - apply ticket_seen_elem in E.
    assert ((list_to_set (map lg_ticket_key (wl_records l)) : gset bytes) ∪ {[lg_ticket_key record]}
      = list_to_set (map lg_ticket_key (wl_records l))) as ->; [|lia].
    apply (elem_of_list_to_set (C := gset bytes)) in E. set_solver.
  - assert (lg_ticket_key record ∉ (list_to_set (map lg_ticket_key (wl_records l)) : gset bytes)) as Hn.
    { rewrite elem_of_list_to_set, <- ticket_seen_elem. by rewrite E. }
    rewrite size_union by set_solver. rewrite size_singleton. lia.
Qed.

Lemma plan_ticket_seen_ledger st plan i :
  plan_ticket_seen st plan i = ticket_seen (ws_ledger st) (plan_ticket_key st plan i).
Proof. done. Qed.

Lemma core_ticket_key authority session seq st core plan :
  assignment_core authority session seq (ws_network_id st) = Ok core ->
  authority = with_ticket (pa_ticket_index authority) (tp_authority plan) ->
  WorkAssignmentCoreV1_ticket_key core = plan_ticket_key st plan (pa_ticket_index authority).
Proof.
  unfold assignment_core. destruct (validate_consensus_math authority); [|done]. intros [= <-] ->. done.
Qed.

(** What an outcome of a dispatch does to the tickets of the ledger. *)
Lemma dispatch_tickets session key authority plan seq id w w' o :
  synced (ws_network_id (wd_state w)) w -> authority_wf authority -> session_wf session -> is_u64 seq ->
  authority = with_ticket (pa_ticket_index authority) (tp_authority plan) ->
  dispatch_one_prepared_ticket session key authority seq id w = (w', Replies (Ok o)) ->
  let seen := plan_ticket_seen (wd_state w) plan (pa_ticket_index authority) in
  ad_new_unique_ticket o = negb seen /\
  plan_ticket_seen (wd_state w') plan (pa_ticket_index authority) = true /\
  unique_ticket_count (ws_ledger (wd_state w'))
  = unique_ticket_count (ws_ledger (wd_state w)) + (if seen then 0 else 1).
Proof.
  intros Hs Hau Hse Hq Hauth H.
  destruct (dispatch_spec session key authority seq id w w' _ Hs Hau Hse Hq H) as (sent & _ & Hst & [(_ & (e & He) & _)|H1]); [done|].
  destruct H1 as (core & Hc & _ & _ & _ & _ & _ & Hnew & s & _ & Hrec). cbv zeta.
  pose proof (core_ticket_key _ _ _ _ _ plan Hc Hauth) as Hk. rewrite plan_ticket_seen_ledger, <- Hk.
  split; [exact Hnew|]. split.
  - rewrite plan_ticket_seen_ledger, Hst. unfold plan_ticket_key. cbn [with_ledger ws_network_id ws_ledger].
    change (ticket_seen (ws_ledger (wd_state w')) (plan_ticket_key (wd_state w) plan (pa_ticket_index authority)) = true).
    rewrite <- Hk. apply ticket_seen_elem. rewrite Hrec, map_app. apply elem_of_app. right. by left.
  - by rewrite (unique_count_snoc _ _ _ Hrec).
Qed.

Lemma plan_for_ticket_ok plan i p :
  plan_for_ticket plan i = Ok p ->
  tp_authority p = with_ticket i (tp_authority plan) /\ i < pa_work_units_for_epoch (tp_authority plan) /\
  tp_license_index p = tp_license_index plan.
Proof. unfold plan_for_ticket. destruct (Z.leb_spec (pa_work_units_for_epoch (tp_authority plan)) i); [done|]. by intros [= <-]. Qed.

Lemma with_ticket_wf i a : authority_wf a -> is_u16 i -> authority_wf (with_ticket i a).
Proof. intros (A1 & A2 & A3 & A4 & A5) Hi. exact (conj A1 (conj A2 (conj A3 (conj Hi A5)))). Qed.

(** Workers never widen the work budget of a license.  The scheduler gives
    an authorized worker the smallest ticket of the plan that is not in the
    ledger, and gives none exactly if the whole budget is issued; when it is
    dispatched, the number of distinct tickets in the ledger grows by one and
    the outcome says that the ticket is new.  A redundant assignment is made
    for an issued ticket only, says so, and the number stays as it was.  Nobody
    is given a ticket of a license that it is not authorized for, or outside
    the budget. *)
Theorem scheduler_keeps_budget authz plan session key seq id w :
  synced (ws_network_id (wd_state w)) w -> authority_wf (tp_authority plan) -> session_wf session -> is_u64 seq ->
  let budget := pa_work_units_for_epoch (tp_authority plan) in
  let seen := plan_ticket_seen (wd_state w) plan in
  let count w := unique_ticket_count (ws_ledger (wd_state w)) in
  let authorized := is_authorized authz (as_worker_id session) (pa_license_id (tp_authority plan)) in
  (authorized = true ->
     next_unique_plan_for_session authz (wd_state w) plan session = Ok None <->
     forall i, 0 <= i < budget -> seen i = true) /\
  (forall p, next_unique_plan_for_session authz (wd_state w) plan session = Ok (Some p) ->
     let i := pa_ticket_index (tp_authority p) in
     authorized = true /\ tp_authority p = with_ticket i (tp_authority plan) /\ 0 <= i < budget /\
     seen i = false /\ (forall j, 0 <= j < i -> seen j = true) /\
     forall w' o, dispatch_one_prepared_ticket session key (tp_authority p) seq id w = (w', Replies (Ok o)) ->
       ad_new_unique_ticket o = true /\ count w' = count w + 1 /\ plan_ticket_seen (wd_state w') plan i = true) /\
  (forall i p, is_u16 i -> redundant_plan_for_session authz (wd_state w) plan i session = Ok p ->
     authorized = true /\ tp_authority p = with_ticket i (tp_authority plan) /\ i < budget /\ seen i = true /\
     forall w' o, dispatch_one_prepared_ticket session key (tp_authority p) seq id w = (w', Replies (Ok o)) ->
       ad_new_unique_ticket o = false /\ count w' = count w).
Proof.
  intros Hs Hau Hse Hq. cbv zeta. pose proof Hau as (_ & _ & _ & _ & [HW0 HW]).
  pose proof (next_unique_spec (wd_state w) plan HW0) as Hnext.
  unfold next_unique_plan_for_session, redundant_plan_for_session.
  destruct (is_authorized authz _ _); cbn [negb]; [|split_and!; done].
  split_and!.
  - intros _. destruct (next_unique_ticket_index (wd_state w) plan) as [i|]; [|split; [by intros _|done]].
    destruct Hnext as (H1 & H2 & _). split.
    + unfold plan_for_ticket. destruct (_ <=? _); done.
    + intros H. by rewrite H in H2.
  - intros p Hp. destruct (next_unique_ticket_index (wd_state w) plan) as [i|]; [|done].
    destruct Hnext as (H1 & H2 & H3). destruct (plan_for_ticket plan i) as [q|] eqn:Eq; [|done]. injection Hp as <-.
    apply plan_for_ticket_ok in Eq as (E1 & E2 & _). rewrite E1. cbn [with_ticket pa_ticket_index].
    split_and!; try done; try lia. intros w' o Hd.
    destruct (dispatch_tickets session key (with_ticket i (tp_authority plan)) plan seq id w w' o Hs
      (with_ticket_wf i _ Hau ltac:(lia)) Hse Hq eq_refl Hd) as (D1 & D2 & D3).
    cbn [with_ticket pa_ticket_index] in D1, D2, D3. by rewrite H2 in D1, D3.
  - intros i p Hi Hp. destruct (plan_for_ticket plan i) as [q|] eqn:Eq; [|done].
    apply plan_for_ticket_ok in Eq as (E1 & E2 & _).
    assert (forall j, plan_ticket_seen (wd_state w) q j = plan_ticket_seen (wd_state w) plan j) as Hq'.
    { intros j. unfold plan_ticket_seen, plan_ticket_key. by rewrite E1. }
    rewrite Hq' in Hp. destruct (plan_ticket_seen (wd_state w) plan i) eqn:Es; [|done]. injection Hp as <-.
    split_and!; try done. intros w' o Hd. rewrite E1 in Hd.
    destruct (dispatch_tickets session key (with_ticket i (tp_authority plan)) plan seq id w w' o Hs
      (with_ticket_wf i _ Hau Hi) Hse Hq eq_refl Hd) as (D1 & _ & D3).
    cbn [with_ticket pa_ticket_index] in D1, D3. rewrite Es in D1, D3. split; [done|lia].
Qed.
End tickets.

(** ** Cancelling is durable before it is sent *)

Section cancelling.
Context {SHA : Sha2} {ED : Ed25519}.

Lemma update_first_found rs id s record :
  find (fun r => bytes_eqb (lg_assignment_id r) id) rs = Some record ->
  exists rs', update_first rs id s = Some rs' /\
    find (fun r => bytes_eqb (lg_assignment_id r) id) rs' = Some (set_status record s).
Proof.
  induction rs as [|r rs IH]; cbn [find update_first]; [done|].
  destruct (bytes_eqb (lg_assignment_id r) id) eqn:E.
  - intros [= ->]. eexists. split; [reflexivity|]. cbn [find set_status lg_assignment_id]. by rewrite E.
  - intros H. destruct (IH H) as (rs' & -> & H'). eexists. split; [reflexivity|]. cbn [find]. by rewrite E.
Qed.

(** A cancelled assignment is cancelled on disk before the worker is told.
    Whatever call fails or stops the process: only an assignment of this
    session that is not final can be cancelled, a refusal changes nothing, at
    most one frame is handed to the transport, and that frame is the signed
    cancellation at a moment when the file already held the status CANCELLED.
    A start after a failure finds the record as it was, if nothing was sent, or
    cancelled. *)
Theorem cancel_is_durable_first session key id reason w w' r :
  let net := ws_network_id (wd_state w) in
  let found l := find_assignment l id in
  let cancelled record := Some (set_status record STATUS_CANCELLED) in
  synced net w -> cancel_assignment_on_stream session key id reason w = (w', r) ->
  (w' = w /\ exists e, r = Replies (Err e)) \/
  exists record cancel sent, found (ws_ledger (wd_state w)) = Some record /\
    cancellable_status (lg_status record) = true /\ known_code reason = true /\
    lg_session_id record = as_session_id session /\ lg_worker_id record = as_worker_id session /\
    cc_assignment_id (wc_core cancel) = lg_assignment_id record /\ cc_reason (wc_core cancel) = reason /\
    WorkCancelV1_verify_node_signature cancel (sk_public key) = Ok tt /\
    wd_sent w' = wd_sent w ++ sent /\
    (sent = [] \/ exists d l,
       sent = [(wire (message (ws_worker_magic (wd_state w)) MSG_WORK_CANCEL 0 (WorkCancelV1_encode cancel)), d)] /\
       load (d_cur d) net = Ok l /\ found l = cancelled record) /\
    match r with
    | Replies (Ok c) => c = cancel /\ sent <> [] /\ synced net w' /\ found (ws_ledger (wd_state w')) = cancelled record
    | Replies (Err _) => recovers net w' (ws_ledger (wd_state w')) /\
        (found (ws_ledger (wd_state w')) = Some record /\ sent = [] \/ found (ws_ledger (wd_state w')) = cancelled record)
    | Stops => exists l, recovers net w' l /\ (found l = Some record /\ sent = [] \/ found l = cancelled record)
    end.
Proof.
  cbv zeta. intros Hs. unfold cancel_assignment_on_stream.
  destruct (known_code reason) eqn:Ek; cbn [negb]; [|intros [= <- <-]; left; split; [done|by eexists]].
  unfold act_state, act_bind, act_of.
  destruct (find_assignment (ws_ledger (wd_state w)) id) as [record|] eqn:Ef; cbn [ok_or];
    [|intros [= <- <-]; left; split; [done|by eexists]].
  destruct (negb (bytes_eqb (lg_session_id record) _) || _) eqn:Eb; [intros [= <- <-]; left; split; [done|by eexists]|].
  apply orb_false_iff in Eb as [Eb1 Eb2]. bool_to_prop.
  destruct (cancellable_status (lg_status record)) eqn:Ec; cbn [negb]; [|intros [= <- <-]; left; split; [done|by eexists]].
  set (core := {| cc_network_id := _; cc_reason := reason |}).
  assert (WorkCancelV1_new_signed core key = Ok {| wc_core := core; wc_node_signature := sk_sign key (cancel_message core) |}) as ->.
  { unfold WorkCancelV1_new_signed. cbn [core cc_reason]. by rewrite Ek. }
  set (cancel := {| wc_core := core; wc_node_signature := _ |}). cbn [map_err].
  assert (WorkCancelV1_verify_node_signature cancel (sk_public key) = Ok tt) as Hv by apply verify_message_signed.
  destruct (update_first_found _ id STATUS_CANCELLED record Ef) as (rs & Hu & Hfound).
  pose proof (update_step ScLedger (ws_network_id (wd_state w)) id STATUS_CANCELLED w Hs) as H. rewrite Hu in H.
  destruct (act_map_err ScLedger _ w) as [w1 r1]. destruct H as [(C1 & C2 & C3) H].
  set (l1 := with_records (ws_ledger (wd_state w)) rs) in *.
  assert (find_assignment l1 id = Some (set_status record STATUS_CANCELLED)) as Hf1 by exact Hfound.
  destruct r1 as [[[]|e]|].
  2:{ intros [= <- <-]. right. exists record, cancel, []. rewrite app_nil_r. destruct H as [H1 H2].
      split_and!; try done; [by left|by rewrite H1|]. left. by rewrite H1. }
  2:{ intros [= <- <-]. right. exists record, cancel, []. rewrite app_nil_r.
      split_and!; try done; [by left|]. destruct H as [H|H]; eexists; (split; [exact H|]); [by left|by right]. }
  destruct H as (_ & H1 & H2).
  destruct (Frame_new _ MSG_WORK_CANCEL 0 (WorkCancelV1_encode cancel)) as [f|e] eqn:En; cbn [map_err].
  2:{ intros [= <- <-]. right. exists record, cancel, []. rewrite app_nil_r.
      split_and!; try done; [by left|by apply synced_recovers|]. right. by rewrite H1. }
  assert (f = message (ws_worker_magic (wd_state w)) MSG_WORK_CANCEL 0 (WorkCancelV1_encode cancel)) as ->.
  { unfold Frame_new in En. destruct (_ <? _); [done|]. by injection En. }
  pose proof (send_step ScFrame (message (ws_worker_magic (wd_state w)) MSG_WORK_CANCEL 0 (WorkCancelV1_encode cancel)) w1) as H.
  destruct (act_map_err ScFrame _ w1) as [w2 r2]. destruct H as (S1 & S2 & S3 & sent & S4 & S5 & S6).
  assert (sent = [] \/ exists d l,
       sent = [(wire (message (ws_worker_magic (wd_state w)) MSG_WORK_CANCEL 0 (WorkCancelV1_encode cancel)), d)] /\
       load (d_cur d) (ws_network_id (wd_state w)) = Ok l /\ find_assignment l id = Some (set_status record STATUS_CANCELLED)) as Hsent.
  { destruct S5 as [->|[_ ->]]; [by left|right]. exists (wd_disk w1), (ws_ledger (wd_state w1)).
    split; [done|]. split; [exact H2|by rewrite H1]. }
  assert (synced (ws_network_id (wd_state w)) w2) as Hs2 by (unfold synced; by rewrite S2, S3).
  assert (wd_sent w2 = wd_sent w ++ sent) as Hw by (by rewrite S4, C2).
  destruct r2 as [[u|e]|]; intros [= <- <-]; right; exists record, cancel, sent; split_and!; try done.
  - by eapply S6.
  - by rewrite S3, H1.
  - by apply synced_recovers.
  - right. by rewrite S3, H1.
  - exists (ws_ledger (wd_state w2)). split; [by apply synced_recovers|]. right. by rewrite S3, H1.
Qed.
End cancelling.
