(* ===== verification/Collections.v ===== *)
(** The pieces of Rust's collection library that the node uses on its vectors:
    [position], [retain], stable [sort_by], [collect] into a [Result] and
    loops that return early with [?]; and functional field update for the
    node's large state records. *)

From Stdlib Require Import Strings.String.
From stdpp Require Import strings.
From S2P Require Import Prelude.

(** ** Loops with early return *)

(** [for x in l { s = f(s, x)?; }] *)
Fixpoint fold_result {E S A} (f : S -> A -> result E S) (s : S) (l : list A) : result E S :=
  match l with
  | [] => Ok s
  | x :: l => let? s := f s x in fold_result f s l
  end.

(** [iter().map(f).collect::<Result<Vec<_>, _>>()] *)
Fixpoint map_result {E A B} (f : A -> result E B) (l : list A) : result E (list B) :=
  match l with
  | [] => Ok []
  | x :: l => let? y := f x in let? ys := map_result f l in Ok (y :: ys)
  end.

Lemma fold_result_app {E S A} (f : S -> A -> result E S) s l k :
  fold_result f s (l ++ k) = (let? s := fold_result f s l in fold_result f s k).
Proof. revert s; induction l as [|x l IH]; intros s; simpl; [done|]. by destruct (f s x). Qed.

(** An invariant of the loop body holds after the loop. *)
Lemma fold_result_ind {E S A} (f : S -> A -> result E S) (P : S -> Prop) l s s' :
  (forall s x s', x ∈ l -> P s -> f s x = Ok s' -> P s') ->
  P s -> fold_result f s l = Ok s' -> P s'.
Proof.
  revert s; induction l as [|x l IH]; intros s Hf Hs; simpl; [by intros [= <-]|].
  destruct (f s x) as [s1|] eqn:E1; [|done]. apply IH.
  - intros; eapply Hf; [by right|done..].
  - eapply Hf; [by left|done..].
Qed.

(** A relation that the loop body keeps between the list still to come and
    the state. *)
Lemma fold_result_steps {E S A} (f : S -> A -> result E S) (P : list A -> S -> Prop) l s s' :
  (forall x k s s', P (x :: k) s -> f s x = Ok s' -> P k s') ->
  P l s -> fold_result f s l = Ok s' -> P [] s'.
Proof.
  intros Hf. revert s; induction l as [|x l IH]; intros s Hs; simpl; [by intros [= <-]|].
  destruct (f s x) as [s1|] eqn:E1; [|done]. eapply IH, Hf; done.
Qed.

Lemma map_result_Forall2 {E A B} (f : A -> result E B) l ys :
  map_result f l = Ok ys <-> Forall2 (fun x y => f x = Ok y) l ys.
Proof.
  revert ys; induction l as [|x l IH]; intros ys; simpl.
  { split; [by intros [= <-]|by intros ->%Forall2_nil_inv_l]. }
  split.
  - destruct (f x) eqn:E1; [|done]. destruct (map_result f l) eqn:E2; [|done].
    intros [= <-]. constructor; [done|]. by apply IH.
  - intros (y & ys' & H1 & H2%IH & ->)%Forall2_cons_inv_l. by rewrite H1, H2.
Qed.

Lemma map_result_length {E A B} (f : A -> result E B) l ys :
  map_result f l = Ok ys -> length ys = length l.
Proof. intros H%map_result_Forall2. symmetry. by eapply Forall2_length. Qed.

(** ** Searching *)

(** [iter().position(p)] *)
Fixpoint position {A} (p : A -> bool) (l : list A) : option nat :=
  match l with
  | [] => None
  | x :: l => if p x then Some O else option_map S (position p l)
  end.

Lemma position_Some {A} (p : A -> bool) l i :
  position p l = Some i -> exists x, l !! i = Some x /\ p x = true.
Proof.
  revert i; induction l as [|x l IH]; intros i; simpl; [done|].
  destruct (p x) eqn:E; [by intros [= <-]; exists x|].
  destruct (position p l) as [j|]; [|done]. intros [= <-]. simpl. by apply IH.
Qed.

Lemma position_None {A} (p : A -> bool) l :
  position p l = None <-> forall x, x ∈ l -> p x = false.
Proof.
  induction l as [|x l IH]; simpl; [by split; [intros _ x Hx%elem_of_nil|]|].
  destruct (p x) eqn:E.
  - split; [done|]. intros H. by rewrite (H x (list_elem_of_here _ _)) in E.
  - destruct (position p l) as [j|]; simpl.
    + split; [done|]. intros H. destruct IH as [_ IH]. discriminate IH. intros; apply H. by right.
    + split; [|done]. intros _ y [->|Hy]%elem_of_cons; [done|]. by apply IH.
Qed.

(** [find] returns the element at the [position]. *)
Lemma find_position {A} (p : A -> bool) l :
  List.find p l = match position p l with Some i => l !! i | None => None end.
Proof.
  induction l as [|x l IH]; simpl; [done|]. destruct (p x); [done|]. rewrite IH.
  by destruct (position p l).
Qed.

Lemma find_elem {A} (p : A -> bool) l x : List.find p l = Some x -> x ∈ l /\ p x = true.
Proof. intros H%List.find_some. by rewrite list_elem_of_In. Qed.

(** [v.remove(pos)] *)
Lemma position_split {A} (p : A -> bool) l i :
  position p l = Some i ->
  exists x, List.find p l = Some x /\ l ≡ₚ x :: delete i l.
Proof.
  intros H. pose proof H as (x & Hx & _)%position_Some. exists x.
  rewrite find_position, H. split; [done|]. by apply delete_Permutation.
Qed.

(** ** [sort_by] is stable; [dedup] drops neighbours that are equal *)

Section sort.
Context {A : Type} (le : A -> A -> bool).

Fixpoint insert_by (x : A) (l : list A) : list A :=
  match l with
  | [] => [x]
  | y :: k => if le x y then x :: l else y :: insert_by x k
  end.

Definition sort_by (l : list A) : list A := fold_right insert_by [] l.

Lemma insert_by_perm x l : insert_by x l ≡ₚ x :: l.
Proof.
  induction l as [|y l IH]; simpl; [done|]. destruct (le x y); [done|].
  rewrite IH. apply Permutation_swap.
Qed.

Lemma sort_by_perm l : sort_by l ≡ₚ l.
Proof. induction l as [|x l IH]; simpl; [done|]. by rewrite insert_by_perm, IH. Qed.
End sort.

Fixpoint dedup {A} `{EqDecision A} (l : list A) : list A :=
  match l with
  | x :: ((y :: _) as k) => if decide (x = y) then dedup k else x :: dedup k
  | _ => l
  end.

Lemma dedup_cons2 {A} `{EqDecision A} (x y : A) k :
  dedup (x :: y :: k) = if decide (x = y) then dedup (y :: k) else x :: dedup (y :: k).
Proof. reflexivity. Qed.

Lemma dedup_elem {A} `{EqDecision A} (l : list A) x : x ∈ dedup l <-> x ∈ l.
Proof.
  induction l as [|y l IH]; [reflexivity|]. destruct l as [|z l]; [reflexivity|].
  rewrite dedup_cons2. destruct (decide (y = z)) as [->|Hne].
  - rewrite IH, !elem_of_cons. naive_solver.
  - rewrite elem_of_cons, IH, !elem_of_cons. done.
Qed.

Lemma dedup_NoDup {A} `{EqDecision A} (l : list A) : NoDup l -> dedup l = l.
Proof.
  induction l as [|y l IH]; [done|]. intros [Hy Hl]%NoDup_cons. destruct l as [|z l]; [done|].
  rewrite dedup_cons2, decide_False, IH; [done..|]. intros ->. apply Hy. by left.
Qed.

(** ** Sums of a list of amounts *)

Definition sum_of {A} (f : A -> Z) (l : list A) : Z := fold_right (fun x n => f x + n) 0 l.

Lemma sum_of_app {A} (f : A -> Z) l k : sum_of f (l ++ k) = sum_of f l + sum_of f k.
Proof. induction l as [|x l IH]; simpl; lia. Qed.

Lemma sum_of_cons {A} (f : A -> Z) x l : sum_of f (x :: l) = f x + sum_of f l.
Proof. done. Qed.

#[export] Instance sum_of_perm {A} (f : A -> Z) : Proper ((≡ₚ) ==> (=)) (sum_of f).
Proof. intros l k H. induction H; simpl; lia. Qed.

Lemma sum_of_nonneg {A} (f : A -> Z) l : (forall x, x ∈ l -> 0 <= f x) -> 0 <= sum_of f l.
Proof.
  induction l as [|x l IH]; intros H; simpl; [done|].
  pose proof (H x (list_elem_of_here _ _)). assert (0 <= sum_of f l); [|lia].
  apply IH. intros; apply H. by right.
Qed.

Lemma sum_of_filter_le {A} (f : A -> Z) (p : A -> bool) l :
  (forall x, x ∈ l -> 0 <= f x) -> sum_of f (List.filter p l) <= sum_of f l.
Proof.
  induction l as [|x l IH]; intros H; simpl; [done|].
  pose proof (H x (list_elem_of_here _ _)).
  assert (sum_of f (List.filter p l) <= sum_of f l) by (apply IH; intros; apply H; by right).
  destruct (p x); simpl; lia.
Qed.

Lemma sum_of_map {A B} (f : B -> Z) (g : A -> B) l : sum_of f (map g l) = sum_of (fun x => f (g x)) l.
Proof. induction l as [|x l IH]; simpl; lia. Qed.

Lemma fold_result_Forall {E S A} (f : S -> A -> result E S) (P : A -> Prop) l s s' :
  (forall s x s', f s x = Ok s' -> P x) -> fold_result f s l = Ok s' -> Forall P l.
Proof.
  intros Hf. revert s. induction l as [|x l IH]; intros s; cbn [fold_result]; [by constructor|].
  destruct (f s x) as [s1|] eqn:E1; [|done]. intros H. constructor; [by eapply Hf|by eapply IH].
Qed.

(** [iter().try_fold(0, |acc, x| acc.checked_add(f(x)).ok_or(e))] *)
Definition try_sum {E A} (w : Z) (e : E) (f : A -> Z) (l : list A) : result E Z :=
  fold_result (fun acc x => ok_or e (checked_add w acc (f x))) 0 l.

Lemma try_sum_loop {E A} w (e : E) (f : A -> Z) l acc n :
  fold_result (fun acc x => ok_or e (checked_add w acc (f x))) acc l = Ok n -> n = acc + sum_of f l.
Proof.
  revert acc; induction l as [|x l IH]; intros acc; simpl; [intros [= <-]; lia|].
  destruct (checked_add w acc (f x)) as [m|] eqn:E1; simpl; [|done].
  apply checked_add_Some in E1 as [-> _]. intros H%IH. lia.
Qed.

Lemma try_sum_ok {E A} w (e : E) (f : A -> Z) l n : try_sum w e f l = Ok n -> n = sum_of f l.
Proof. intros H%try_sum_loop. lia. Qed.

Lemma try_sum_bound {E A} w (e : E) (f : A -> Z) l n :
  0 <= w -> try_sum w e f l = Ok n -> n < 2 ^ w.
Proof.
  intros Hw. unfold try_sum. eapply (fold_result_ind _ (fun acc => acc < 2 ^ w)); [|lia].
  intros acc x acc' _ _. destruct (checked_add w acc (f x)) as [m|] eqn:E1; simpl; [|done].
  apply checked_add_Some in E1 as [-> ?]. by intros [= <-].
Qed.

(** ** Field update *)

(** [set p f r] is [r] with field [p] changed by [f]: the mutation
    [r.p = f(r.p)] on a value. *)
Class Setter {R T : Type} (proj : R -> T) := set : (T -> T) -> R -> R.
Arguments set {R T} proj {_} f r.

Notation "r '<|' p ':=' v '|>'" := (set p (fun _ => v) r)
  (at level 12, left associativity, p at next level, v at level 200,
   format "r  '<|'  p  ':='  v  '|>'") : rust_scope.

(** Builds the setter of [proj] from the eta-expansion of the record. *)
Ltac make_setter eta proj :=
  let e := eval unfold eta in eta in
  let p := eval pattern proj in e in
  match p with
  | ?g _ => exact (fun f r => ltac:(let t := eval cbv beta in (g (fun r => f (proj r)) r) in exact t))
  end.
