(* ===== verification/Files.v ===== *)
(** A model of the file system the crates use for durable state: a finite map
    from paths to contents, and computations on it that can fail or be cut
    short by the machine.

    Every file-system call takes one [fault] from a list that the environment
    chooses: the call works, fails with an I/O error, or is where the machine
    stops, before or after it took effect.  A write that does not complete
    leaves arbitrary content in the file it writes; renames, links and removals
    either happen or do not.  The list is read front to back and calls beyond
    its end work, so "without faults" is the empty list.  The calls take effect
    in program order (the code syncs files and directories between them).

    [wp] is the weakest precondition that the files of durable components are
    verified with: its postcondition sees how the computation ended, with an
    interruption as one of the endings. *)

From stdpp Require Import strings.
From S2P Require Import Prelude.

Inductive fault :=
| Fine
| IoFails (partial : option bytes)
| Crash (after : bool) (partial : option bytes).

(** What a computation that may be interrupted ends with. *)
Inductive ending (A : Type) :=
| Returns (r : result string A)
| Interrupted.
Arguments Returns {A} r.
Arguments Interrupted {A}.

Definition next_fault (fs : list fault) : fault * list fault :=
  match fs with [] => (Fine, []) | f :: fs => (f, fs) end.

Definition io_error : string := "I/O error".

Section files.
Context {P : Type} `{Countable P}.

Local Abbreviation disk := (gmap P bytes).

Definition io (A : Type) : Type := disk -> list fault -> disk * list fault * ending A.

Definition io_ret {A} (a : A) : io A := fun d fs => (d, fs, Returns (Ok a)).
Definition io_fail {A} (e : string) : io A := fun d fs => (d, fs, Returns (Err e)).

(** [let x = m?; k] *)
Definition io_bind {A B} (m : io A) (k : A -> io B) : io B := fun d fs =>
  let '(d, fs, e) := m d fs in
  match e with
  | Returns (Ok a) => k a d fs
  | Returns (Err e) => (d, fs, Returns (Err e))
  | Interrupted => (d, fs, Interrupted)
  end.

Definition io_of {A} (r : result string A) : io A :=
  match r with Ok a => io_ret a | Err e => io_fail e end.

(** The computation looks at the files: [path.exists()] and directory
    listings that cannot fail. *)
Definition io_look {A} (k : disk -> io A) : io A := fun d fs => k d d fs.

Definition exists_file (d : disk) (p : P) : bool := bool_decide (is_Some (d !! p)).

(** A call that either happens or does not; [f] says what it does, or that the
    operating system refuses it. *)
Definition io_atomic (f : disk -> result string disk) : io unit := fun d fs =>
  let (x, fs) := next_fault fs in
  match x with
  | Fine => match f d with Ok d' => (d', fs, Returns (Ok tt)) | Err e => (d, fs, Returns (Err e)) end
  | IoFails _ => (d, fs, Returns (Err io_error))
  | Crash after _ =>
      (if after then match f d with Ok d' => d' | Err _ => d end else d, fs, Interrupted)
  end.

(** [fs::read] *)
Definition read_file (p : P) : io bytes := fun d fs =>
  let (x, fs) := next_fault fs in
  match x with
  | Fine => (d, fs, Returns (ok_or "No such file or directory"%string (d !! p)))
  | IoFails _ => (d, fs, Returns (Err io_error))
  | Crash _ _ => (d, fs, Interrupted)
  end.

(** [fs::read] where the caller tells [ErrorKind::NotFound] from other errors *)
Definition read_if_present (p : P) : io (option bytes) := fun d fs =>
  let (x, fs) := next_fault fs in
  match x with
  | Fine => (d, fs, Returns (Ok (d !! p)))
  | IoFails _ => (d, fs, Returns (Err io_error))
  | Crash _ _ => (d, fs, Interrupted)
  end.

(** The result of [m] as a value: the caller looks at the error. *)
Definition io_try {A} (m : io A) : io (result string A) := fun d fs =>
  let '(d, fs, e) := m d fs in
  match e with Returns r => (d, fs, Returns (Ok r)) | Interrupted => (d, fs, Interrupted) end.

(** What an unfinished write leaves. *)
Definition put (p : P) (content : option bytes) (d : disk) : disk :=
  match content with Some c => <[p := c]> d | None => delete p d end.

(** Open for writing, created or truncated; write; sync. *)
Definition write_file (p : P) (bs : bytes) : io unit := fun d fs =>
  let (x, fs) := next_fault fs in
  match x with
  | Fine => (<[p := bs]> d, fs, Returns (Ok tt))
  | IoFails partial => (put p partial d, fs, Returns (Err io_error))
  | Crash after partial => (put p (if after then Some bs else partial) d, fs, Interrupted)
  end.

(** [create_new]: refused when the file is there; then as [write_file]. *)
Definition write_new_file (p : P) (bs : bytes) : io unit :=
  io_look (fun d => if exists_file d p then io_fail "File exists" else write_file p bs).

Definition rename_file (a b : P) : io unit := io_atomic (fun d =>
  match d !! a with
  | Some c => Ok (<[b := c]> (delete a d))
  | None => Err "No such file or directory"%string
  end).

(** [fs::hard_link]: does not replace a file. *)
Definition link_file (a b : P) : io unit := io_atomic (fun d =>
  match d !! a with
  | Some c => if exists_file d b then Err "File exists"%string else Ok (<[b := c]> d)
  | None => Err "No such file or directory"%string
  end).

Definition remove_file (p : P) : io unit := io_atomic (fun d =>
  if exists_file d p then Ok (delete p d) else Err "No such file or directory"%string).

(** [create_dir_all], [sync_all] on a file or a directory, [open] of a lock
    file: no effect on the contents, but they can fail. *)
Definition touch : io unit := io_atomic Ok.

(** ** Weakest preconditions

    [wp m Q d]: however the calls of [m] fare when it starts on [d], it ends in
    a way and on files that satisfy [Q]. *)

Definition wp {A} (m : io A) (Q : ending A -> disk -> Prop) (d : disk) : Prop :=
  forall fs, Q (m d fs).2 (m d fs).1.1.

(** What is asked of the first part of a sequence: an error or an interruption
    ends the whole. *)
Definition and_then {A B} (k : A -> io B) (Q : ending B -> disk -> Prop) (e : ending A) (d : disk) : Prop :=
  match e with
  | Returns (Ok a) => wp (k a) Q d
  | Returns (Err e) => Q (Returns (Err e)) d
  | Interrupted => Q Interrupted d
  end.

Lemma wp_bind {A B} (m : io A) (k : A -> io B) Q d : wp m (and_then k Q) d -> wp (io_bind m k) Q d.
Proof.
  intros Hm fs. specialize (Hm fs). unfold io_bind, and_then in *.
  destruct (m d fs) as [[d' fs'] [[a|e]|]]; cbn in *; [apply Hm|done..].
Qed.

Lemma wp_mono {A} (m : io A) (Q Q' : ending A -> disk -> Prop) d :
  wp m Q d -> (forall e d', Q e d' -> Q' e d') -> wp m Q' d.
Proof. intros Hm Hq fs. apply Hq, Hm. Qed.

Lemma wp_ret {A} (a : A) (Q : ending A -> disk -> Prop) d : Q (Returns (Ok a)) d -> wp (io_ret a) Q d.
Proof. by intros ? fs. Qed.

Lemma wp_fail {A} e (Q : ending A -> disk -> Prop) d : Q (Returns (Err e)) d -> wp (io_fail e) Q d.
Proof. by intros ? fs. Qed.

Lemma wp_of {A} (r : result string A) (Q : ending A -> disk -> Prop) d :
  Q (Returns r) d -> wp (io_of r) Q d.
Proof. intros Hq fs. by destruct r. Qed.

Lemma wp_look {A} (k : disk -> io A) (Q : ending A -> disk -> Prop) d :
  wp (k d) Q d -> wp (io_look k) Q d.
Proof. intros Hk fs. apply Hk. Qed.

(** Anything but a result. *)
Definition stopped {A} (e : ending A) : Prop :=
  match e with Returns (Ok _) => False | _ => True end.

Lemma and_then_stopped {A B} (k : A -> io B) (Q : ending B -> disk -> Prop) d :
  (forall e, stopped e -> Q e d) -> forall e, stopped e -> and_then k Q e d.
Proof. intros Hq [[a|e]|]; cbn; [done|intros _; by apply Hq..]. Qed.

(** A call that happens or not. *)
Lemma wp_atomic f (Q : ending unit -> disk -> Prop) d :
  (forall e, stopped e -> Q e d) ->
  (forall d', f d = Ok d' -> Q (Returns (Ok tt)) d' /\ Q Interrupted d') -> wp (io_atomic f) Q d.
Proof.
  intros He Hd fs. unfold io_atomic.
  destruct (next_fault fs) as [[|p|[] p] fs']; cbn; destruct (f d) as [d'|e] eqn:E; cbn;
    try (by apply He); by apply Hd.
Qed.

Lemma wp_touch (Q : ending unit -> disk -> Prop) d : (forall e, Q e d) -> wp touch Q d.
Proof. intros Hq. apply wp_atomic; auto. intros d' [= <-]. auto. Qed.

Lemma wp_read p (Q : ending bytes -> disk -> Prop) d :
  (forall e, stopped e -> Q e d) -> (forall bs, d !! p = Some bs -> Q (Returns (Ok bs)) d) ->
  wp (read_file p) Q d.
Proof.
  intros He Hd fs. unfold read_file. destruct (next_fault fs) as [[|?|? ?] fs']; cbn; try (by apply He).
  destruct (d !! p) eqn:E; cbn; [by apply Hd|by apply He].
Qed.

Lemma wp_read_if_present p (Q : ending (option bytes) -> disk -> Prop) d :
  (forall e, stopped e -> Q e d) -> Q (Returns (Ok (d !! p))) d -> wp (read_if_present p) Q d.
Proof.
  intros He Hd fs. unfold read_if_present.
  destruct (next_fault fs) as [[|?|? ?] fs']; cbn; [done|by apply He..].
Qed.

Lemma wp_try {A} (m : io A) (Q : ending (result string A) -> disk -> Prop) d :
  wp m (fun e d' => match e with Returns r => Q (Returns (Ok r)) d' | Interrupted => Q Interrupted d' end) d ->
  wp (io_try m) Q d.
Proof. intros Hm fs. specialize (Hm fs). unfold io_try. by destruct (m d fs) as [[d' fs'] []]. Qed.

Lemma wp_write p bs (Q : ending unit -> disk -> Prop) d :
  Q (Returns (Ok tt)) (<[p := bs]> d) -> (forall c e, stopped e -> Q e (put p c d)) ->
  wp (write_file p bs) Q d.
Proof.
  intros Ho Hc fs. unfold write_file.
  destruct (next_fault fs) as [[|c|[] c] fs']; cbn;
    [done|by apply Hc|by apply (Hc (Some bs))|by apply Hc].
Qed.

Lemma wp_rename a b (Q : ending unit -> disk -> Prop) d c :
  d !! a = Some c -> (forall e, stopped e -> Q e d) -> (forall e, Q e (<[b := c]> (delete a d))) ->
  wp (rename_file a b) Q d.
Proof. intros E He Ho. apply wp_atomic; [done|]. intros d'. rewrite E. by intros [= <-]. Qed.

Lemma wp_link a b (Q : ending unit -> disk -> Prop) d c :
  d !! a = Some c -> (forall e, stopped e -> Q e d) ->
  (d !! b = None -> forall e, Q e (<[b := c]> d)) -> wp (link_file a b) Q d.
Proof.
  intros E He Ho. apply wp_atomic; [done|]. intros d'. rewrite E.
  unfold exists_file. case_bool_decide as Hb; [done|]. intros [= <-].
  apply eq_None_not_Some in Hb. split; by apply Ho.
Qed.

Lemma wp_remove p (Q : ending unit -> disk -> Prop) d :
  (forall e, stopped e -> Q e d) -> (forall e, Q e (delete p d)) -> wp (remove_file p) Q d.
Proof.
  intros He Ho. apply wp_atomic; [done|]. intros d'. destruct (exists_file d p); [|done].
  by intros [= <-].
Qed.

(** Frames: what a call does not touch stays. *)
Lemma put_lookup_ne p q c (d : disk) : p <> q -> put p c d !! q = d !! q.
Proof. intros. unfold put. destruct c; [by rewrite lookup_insert_ne|by rewrite lookup_delete_ne]. Qed.

(** ** Runs without faults *)

Definition runs {A} (m : io A) (Q : A -> disk -> Prop) (d : disk) : Prop :=
  exists d' a, m d [] = (d', [], Returns (Ok a)) /\ Q a d'.

Lemma runs_bind {A B} (m : io A) (k : A -> io B) Q d :
  runs m (fun a d' => runs (k a) Q d') d -> runs (io_bind m k) Q d.
Proof. intros (d' & a & E & Hk). unfold runs, io_bind. by rewrite E. Qed.

Lemma runs_ret {A} (a : A) (Q : A -> disk -> Prop) d : Q a d -> runs (io_ret a) Q d.
Proof. intros ?. by exists d, a. Qed.

Lemma runs_of {A} r (a : A) (Q : A -> disk -> Prop) d : r = Ok a -> Q a d -> runs (io_of r) Q d.
Proof. intros -> ?. by exists d, a. Qed.

Lemma runs_look {A} (k : disk -> io A) Q d : runs (k d) Q d -> runs (io_look k) Q d.
Proof. done. Qed.

Lemma runs_touch (Q : unit -> disk -> Prop) d : Q tt d -> runs touch Q d.
Proof. intros ?. by exists d, tt. Qed.

Lemma runs_read p bs (Q : bytes -> disk -> Prop) d : d !! p = Some bs -> Q bs d -> runs (read_file p) Q d.
Proof. intros E ?. exists d, bs. unfold read_file. cbn. by rewrite E. Qed.

Lemma runs_read_if_present p (Q : option bytes -> disk -> Prop) d :
  Q (d !! p) d -> runs (read_if_present p) Q d.
Proof. intros ?. by exists d, (d !! p). Qed.

Lemma runs_try {A} (m : io A) (Q : result string A -> disk -> Prop) d :
  runs m (fun a d' => Q (Ok a) d') d -> runs (io_try m) Q d.
Proof. intros (d' & a & E & Hq). exists d', (Ok a). unfold io_try. by rewrite E. Qed.

Lemma runs_link a b c (Q : unit -> disk -> Prop) d :
  d !! a = Some c -> d !! b = None -> Q tt (<[b := c]> d) -> runs (link_file a b) Q d.
Proof.
  intros E En ?. exists (<[b := c]> d), tt. unfold link_file, io_atomic, exists_file. cbn.
  by rewrite E, En, bool_decide_eq_false_2 by (by intros []).
Qed.

Lemma runs_write p bs (Q : unit -> disk -> Prop) d : Q tt (<[p := bs]> d) -> runs (write_file p bs) Q d.
Proof. intros ?. by exists (<[p := bs]> d), tt. Qed.

Lemma runs_remove p (Q : unit -> disk -> Prop) d :
  is_Some (d !! p) -> Q tt (delete p d) -> runs (remove_file p) Q d.
Proof.
  intros E ?. exists (delete p d), tt. unfold remove_file, io_atomic, exists_file. cbn.
  by rewrite bool_decide_eq_true_2.
Qed.

Lemma runs_rename a b c (Q : unit -> disk -> Prop) d :
  d !! a = Some c -> Q tt (<[b := c]> (delete a d)) -> runs (rename_file a b) Q d.
Proof. intros E ?. exists (<[b := c]> (delete a d)), tt. unfold rename_file, io_atomic. cbn. by rewrite E. Qed.

Lemma runs_mono {A} (m : io A) (Q Q' : A -> disk -> Prop) d :
  runs m Q d -> (forall a d', Q a d' -> Q' a d') -> runs m Q' d.
Proof. intros (d' & a & E & Hq) Hm. exists d', a. auto. Qed.
End files.

Abbreviation disk P := (gmap P bytes).
Arguments io P {_ _} A.

(** [let! x := m in k] runs [m] and goes on with its value. *)
Notation "'let!' p := m 'in' k" := (io_bind m (fun p => k))
  (at level 10, p binder, m at level 100, k at level 200,
   format "'[v' 'let!'  p  :=  m  'in' '/' k ']'") : rust_scope.
