(* ===== verification/Keystore.v ===== *)
(** Crate [mutiny-keystore]: the encrypted secret files and the two wallet
    exports.

    A secret file holds one 32-byte Ed25519 seed: Argon2id derives an encryption
    and an authentication key from the passphrase, ChaCha20 encrypts the seed and
    HMAC-SHA256 authenticates the first 120 bytes.  ChaCha20 and HMAC are written
    in the crate and modelled here; Argon2 and Ed25519 are the interfaces of
    [Crypto].  Random salts, nonces and seeds are arguments; the wiping of
    buffers ([fill(0)]) has no counterpart.  A wallet backup and a watch wallet
    share their layout (sorted entries of role, label, public key and, in a
    backup, the secret file), which is a section of its own; labels are the
    bytes of the string.  Projections: [kp_], [pm_], [wb_], [ww_]. *)

From Stdlib Require Import Strings.Byte.
From stdpp Require Import strings.
From S2P Require Import Prelude Crypto Sha256 Collections Files.

Definition MAGIC : bytes := ascii_bytes "MUTKEYV1".
Definition VERSION : Z := 1.
Definition FILE_LEN : nat := 152.
Definition WALLET_BACKUP_MAGIC : bytes := ascii_bytes "MUTBKUP1".
Definition WATCH_WALLET_MAGIC : bytes := ascii_bytes "MUTWATCH".
Definition WALLET_BACKUP_VERSION : Z := 1.
Definition WATCH_WALLET_VERSION : Z := 1.
Definition MAX_WALLET_ENTRIES : Z := 4096.
Definition PRODUCTION_MEMORY_KIB : Z := 65536.
Definition PRODUCTION_ITERATIONS : Z := 3.
Definition PRODUCTION_PARALLELISM : Z := 1.
Definition HEADER_LEN : nat := 88.
Definition AUTHENTICATED_LEN : nat := 120.
Definition MAX_MEMORY_KIB : Z := 1048576.
Definition MAX_ITERATIONS : Z := 10.
Definition MAX_PARALLELISM : Z := 16.

Inductive KeystoreError :=
| KsIo
| BadLength
| BadMagic
| BadVersion
| BadFlags
| BadRole
| BadKdfParams
| WeakPassphrase
| AuthenticationFailed
| RoleMismatch
| NetworkMismatch
| PublicKeyMismatch
| AlreadyExists
| Argon2Params
| Argon2Failed
| BadWalletBackup
| BadWatchWallet
| BackupChecksumMismatch
| BadWalletLabel
| TooManyWalletEntries
| BackupEntryMismatch.

Inductive KeyRole := NodeIdentity | LicenseOwner | LicenseMining.

#[export] Instance KeyRole_eq_dec : EqDecision KeyRole.
Proof. solve_decision. Defined.

(** [role as u8] *)
Definition KeyRole_byte (r : KeyRole) : Z :=
  match r with NodeIdentity => 1 | LicenseOwner => 2 | LicenseMining => 3 end.

Definition KeyRole_from_byte (v : Z) : result KeystoreError KeyRole :=
  if v =? 1 then Ok NodeIdentity
  else if v =? 2 then Ok LicenseOwner
  else if v =? 3 then Ok LicenseMining
  else Err BadRole.

Definition KeyRole_name (r : KeyRole) : string :=
  match r with NodeIdentity => "node" | LicenseOwner => "owner" | LicenseMining => "mining" end.

Record KdfParams := {
  kp_memory_kib : Z;
  kp_iterations : Z;
  kp_parallelism : Z;
}.

Definition PRODUCTION : KdfParams :=
  {| kp_memory_kib := PRODUCTION_MEMORY_KIB; kp_iterations := PRODUCTION_ITERATIONS;
     kp_parallelism := PRODUCTION_PARALLELISM |}.

Definition KdfParams_validate (p : KdfParams) : result KeystoreError unit :=
  if (kp_memory_kib p <? 8) || (MAX_MEMORY_KIB <? kp_memory_kib p) then Err BadKdfParams else
  if (kp_iterations p =? 0) || (MAX_ITERATIONS <? kp_iterations p) then Err BadKdfParams else
  if (kp_parallelism p =? 0) || (MAX_PARALLELISM <? kp_parallelism p) then Err BadKdfParams else
  Ok tt.

Record PublicMetadata := {
  pm_role : KeyRole;
  pm_network_id : Z;
  pm_params : KdfParams;
  pm_public_key : bytes32;
}.

Definition read_u32 (input : bytes) (at_ : nat) : Z := be_val (slice at_ (at_ + 4) input).

(** The byte at an index that is in range. *)
Definition byte_at (input : bytes) (i : nat) : Z := Z_of_byte (nth i input Byte.x00).

Definition parse_metadata (bs : bytes) : result KeystoreError PublicMetadata :=
  if negb (length bs =? FILE_LEN)%nat then Err BadLength else
  if negb (bytes_eqb (slice 0 8 bs) MAGIC) then Err BadMagic else
  if negb (be_val (slice 8 10 bs) =? VERSION) then Err BadVersion else
  let? role := KeyRole_from_byte (byte_at bs 10) in
  if negb (byte_at bs 11 =? 0) then Err BadFlags else
  let network_id := read_u32 bs 12 in
  let params := {| kp_memory_kib := read_u32 bs 16; kp_iterations := read_u32 bs 20;
                   kp_parallelism := read_u32 bs 24 |} in
  let? _ := KdfParams_validate params in
  let public_key := slice 56 88 bs in
  Ok {| pm_role := role; pm_network_id := network_id; pm_params := params; pm_public_key := public_key |}.

Definition inspect (bs : bytes) : result KeystoreError PublicMetadata := parse_metadata bs.

(** ** ChaCha20 *)

Definition wrapping_add32 (x y : Z) : Z := w32 (x + y).
Definition rotate_left (x n : Z) : Z := Z.lor (w32 (Z.shiftl x n)) (Z.shiftr x (32 - n)).

(** The state is a list of sixteen words; [state[i] = f] *)
Definition word (state : list Z) (i : nat) : Z := nth i state 0.

Definition quarter_round (state : list Z) (a b c d : nat) : list Z :=
  let state := <[a := wrapping_add32 (word state a) (word state b)]> state in
  let state := <[d := Z.lxor (word state d) (word state a)]> state in
  let state := <[d := rotate_left (word state d) 16]> state in
  let state := <[c := wrapping_add32 (word state c) (word state d)]> state in
  let state := <[b := Z.lxor (word state b) (word state c)]> state in
  let state := <[b := rotate_left (word state b) 12]> state in
  let state := <[a := wrapping_add32 (word state a) (word state b)]> state in
  let state := <[d := Z.lxor (word state d) (word state a)]> state in
  let state := <[d := rotate_left (word state d) 8]> state in
  let state := <[c := wrapping_add32 (word state c) (word state d)]> state in
  let state := <[b := Z.lxor (word state b) (word state c)]> state in
  <[b := rotate_left (word state b) 7]> state.

Definition le_u32 (input : bytes) : Z := le_val input.

Definition double_round (working : list Z) : list Z :=
  let working := quarter_round working 0 4 8 12 in
  let working := quarter_round working 1 5 9 13 in
  let working := quarter_round working 2 6 10 14 in
  let working := quarter_round working 3 7 11 15 in
  let working := quarter_round working 0 5 10 15 in
  let working := quarter_round working 1 6 11 12 in
  let working := quarter_round working 2 7 8 13 in
  quarter_round working 3 4 9 14.

Definition chacha20_block (key : bytes32) (counter : Z) (nonce : bytes) : bytes :=
  let initial :=
    [0x61707865; 0x3320646e; 0x79622d32; 0x6b206574]
    ++ map (fun i => le_u32 (slice (i * 4) (i * 4 + 4) key)) (seq 0 8)
    ++ [counter; le_u32 (slice 0 4 nonce); le_u32 (slice 4 8 nonce); le_u32 (slice 8 12 nonce)] in
  let working := Nat.iter 10 double_round initial in
  concat (map (fun i => le_bytes 4 (wrapping_add32 (word working i) (word initial i))) (seq 0 16)).

Definition xor_byte (x y : byte) : byte := byte_of_Z (Z.lxor (Z_of_byte x) (Z_of_byte y)).

(** The loop over [input.chunks(64).enumerate()]; as many rounds as the input
    has bytes are enough. *)
Fixpoint chacha20_chunks (fuel : nat) (key : bytes32) (nonce input : bytes) (block_index : Z) : bytes :=
  match fuel, input with
  | S fuel, _ :: _ =>
      let stream := chacha20_block key (w32 (1 + w32 block_index)) nonce in
      zip_with xor_byte (take 64 input) stream
        ++ chacha20_chunks fuel key nonce (drop 64 input) (block_index + 1)
  | _, _ => []
  end.

Definition chacha20_xor (key : bytes32) (nonce input : bytes) : bytes :=
  chacha20_chunks (length input) key nonce input 0.

Definition ct_equal (a b : bytes) : bool :=
  if negb (length a =? length b)%nat then false else
  let diff := fold_left (fun diff '(x, y) => Z.lor diff (Z.lxor (Z_of_byte x) (Z_of_byte y))) (zip a b) 0 in
  diff =? 0.

Section keystore.
Context {SHA : Sha2}.

Definition hmac_sha256 (key message : bytes) : bytes32 :=
  let block := if (64 <? length key)%nat then sha256 key ++ replicate 32 Byte.x00
               else key ++ replicate (64 - length key) Byte.x00 in
  let ipad := zip_with xor_byte (replicate 64 Byte.x36) block in
  let opad := zip_with xor_byte (replicate 64 Byte.x5c) block in
  let inner_hash := sha256 (ipad ++ message) in
  sha256 (opad ++ inner_hash).

Context {AR : Argon2} {ED : Ed25519}.

Definition derive_keys (passphrase salt : bytes) (params : KdfParams) : result KeystoreError bytes :=
  let? _ := KdfParams_validate params in
  if negb (argon2_params_valid (kp_memory_kib params) (kp_iterations params) (kp_parallelism params) (Some 64))
  then Err Argon2Params else
  ok_or Argon2Failed
    (argon2id_hash (kp_memory_kib params) (kp_iterations params) (kp_parallelism params) 64 passphrase salt).

(** ** Secret files *)

Definition seal_seed_with_material (seed : bytes32) (role : KeyRole) (network_id : Z) (passphrase : bytes)
    (params : KdfParams) (salt nonce : bytes) : result KeystoreError bytes :=
  if (length passphrase <? 12)%nat then Err WeakPassphrase else
  let? _ := KdfParams_validate params in
  let public_key := sk_public seed in
  let header := MAGIC ++ be_bytes 2 VERSION ++ [byte_of_Z (KeyRole_byte role)] ++ [Byte.x00]
                ++ be_bytes 4 network_id ++ be_bytes 4 (kp_memory_kib params)
                ++ be_bytes 4 (kp_iterations params) ++ be_bytes 4 (kp_parallelism params)
                ++ salt ++ nonce ++ public_key in
  let? keys := derive_keys passphrase salt params in
  let encryption_key := take 32 keys in
  let ciphertext := chacha20_xor encryption_key nonce seed in
  let bs := header ++ ciphertext in
  let tag := hmac_sha256 (drop 32 keys) bs in
  Ok (bs ++ tag).

(** [salt] and [nonce] are drawn by the operating system. *)
Definition seal_seed (seed : bytes32) (role : KeyRole) (network_id : Z) (passphrase salt nonce : bytes)
    : result KeystoreError bytes :=
  seal_seed_with_material seed role network_id passphrase PRODUCTION salt nonce.

Definition generate (role : KeyRole) (network_id : Z) (passphrase : bytes) (seed salt nonce : bytes)
    : result KeystoreError (bytes32 * bytes) :=
  let? bs := seal_seed seed role network_id passphrase salt nonce in
  Ok (seed, bs).

(** Returns the signing key, which is its seed. *)
Definition open (bs : bytes) (expected_role : KeyRole) (expected_network_id : Z) (passphrase : bytes)
    : result KeystoreError bytes32 :=
  let? metadata := parse_metadata bs in
  let salt := slice 28 44 bs in
  let nonce := slice 44 56 bs in
  let? keys := derive_keys passphrase salt (pm_params metadata) in
  let expected_tag := hmac_sha256 (drop 32 keys) (take AUTHENTICATED_LEN bs) in
  if negb (ct_equal expected_tag (drop AUTHENTICATED_LEN bs)) then Err AuthenticationFailed else
  if negb (bool_decide (pm_role metadata = expected_role)) then Err RoleMismatch else
  if negb (pm_network_id metadata =? expected_network_id) then Err NetworkMismatch else
  let encryption_key := take 32 keys in
  let plain := chacha20_xor encryption_key nonce (slice HEADER_LEN AUTHENTICATED_LEN bs) in
  if negb (length plain =? 32)%nat then Err BadLength else
  let seed := plain in
  if negb (bytes_eqb (sk_public seed) (pm_public_key metadata)) then Err PublicKeyMismatch else
  Ok seed.

(** [None]: the file cannot be read. *)
Definition load_file (file : option bytes) (expected_role : KeyRole) (expected_network_id : Z)
    (passphrase : bytes) : result KeystoreError bytes32 :=
  let? bs := ok_or KsIo file in
  open bs expected_role expected_network_id passphrase.
End keystore.

(** [write_new_file]: [temp] is the name with the random suffix. *)
Definition write_new_file {P} `{Countable P} (path temp : P) (bs : bytes) : io P unit :=
  io_look (fun d => if exists_file d path then io_fail "secret file already exists" else
  let! _ := touch in
  let! _ := Files.write_new_file temp bs in
  let! linked := io_try (link_file temp path) in
  match linked with
  | Ok _ => remove_file temp
  | Err e =>
      let! _ := io_try (remove_file temp) in
      io_look (fun d => if exists_file d path then io_fail "secret file already exists" else io_fail e)
  end).

(** ** Wallet exports *)

(** [b.is_ascii_alphanumeric() || b == b'-' || b == b'_'] *)
Definition label_byte_valid (b : byte) : bool :=
  let n := Z_of_byte b in
  ((48 <=? n) && (n <=? 57)) || ((65 <=? n) && (n <=? 90)) || ((97 <=? n) && (n <=? 122))
  || (n =? 45) || (n =? 95).

Definition wallet_label_valid (label : bytes) : bool :=
  negb (length label =? 0)%nat && (length label <=? 64)%nat && forallb label_byte_valid label.

Definition wallet_role_allowed (role : KeyRole) : bool :=
  match role with LicenseOwner | LicenseMining => true | NodeIdentity => false end.

Definition wallet_sort_key (role : KeyRole) (label : bytes) : Z * bytes := (KeyRole_byte role, label).

(** The order of the tuples [(u8, String)] *)
Definition key_ltb (a b : Z * bytes) : bool :=
  (a.1 <? b.1) || ((a.1 =? b.1) && bytes_ltb a.2 b.2).
Definition key_leb (a b : Z * bytes) : bool := negb (key_ltb b a).

Record WalletBackupEntry := {
  wb_role : KeyRole;
  wb_label : bytes;
  wb_public_key : bytes32;
  wb_secret_file : bytes;
}.

Record WatchWalletEntry := {
  ww_role : KeyRole;
  ww_label : bytes;
  ww_public_key : bytes32;
}.

(** What the two formats have in common.  An entry is a role, a label, a public
    key and a [secret] of [secret_len] bytes (none in a watch wallet); [check]
    is the inspection of the secret file against the rest. *)
Section wallet.
Context {SHA : Sha2}.
Context {E : Type} (magic : bytes) (version : Z) (bad : KeystoreError) (secret_len : nat).
Context (role : E -> KeyRole) (label public_key secret : E -> bytes).
Context (build : KeyRole -> bytes -> bytes -> bytes -> E).
Context (check : Z -> E -> result KeystoreError unit).

Definition entry_key (e : E) : Z * bytes := wallet_sort_key (role e) (label e).

(** The loop of the encoders. *)
Fixpoint encode_entries (network_id : Z) (previous : option (Z * bytes)) (ordered : list E) (body : bytes)
    : result KeystoreError bytes :=
  match ordered with
  | [] => Ok body
  | entry :: ordered =>
      if negb (wallet_role_allowed (role entry)) || negb (wallet_label_valid (label entry))
      then Err BadWalletLabel else
      let? _ := check network_id entry in
      let key := entry_key entry in
      if bool_decide (previous = Some key) then Err bad else
      encode_entries network_id (Some key) ordered
        (body ++ [byte_of_Z (KeyRole_byte (role entry))] ++ [byte_of_Z (Z.of_nat (length (label entry)))]
           ++ label entry ++ public_key entry ++ secret entry)
  end.

Definition encode_wallet (network_id : Z) (entries : list E) : result KeystoreError bytes :=
  if (MAX_WALLET_ENTRIES <? Z.of_nat (length entries)) || (65535 <? Z.of_nat (length entries))
  then Err TooManyWalletEntries else
  let ordered := sort_by (fun a b => key_leb (entry_key a) (entry_key b)) entries in
  let body := magic ++ be_bytes 2 version ++ be_bytes 4 network_id
              ++ be_bytes 2 (Z.of_nat (length ordered)) in
  let? body := encode_entries network_id None ordered body in
  let checksum := sha256 body in
  Ok (body ++ checksum).

(** The loop of the decoders, with the running index [at_]; [from_utf8] and the
    label check refuse with the same error. *)
Fixpoint decode_entries (bs : bytes) (checksum_at : nat) (network_id : Z) (count at_ : nat)
    (previous : option (Z * bytes)) : result KeystoreError (list E * nat) :=
  match count with
  | O => Ok ([], at_)
  | S count =>
      if (checksum_at <? at_ + 2)%nat then Err bad else
      let? role := KeyRole_from_byte (byte_at bs at_) in
      let at_ := S at_ in
      if negb (wallet_role_allowed role) then Err bad else
      let label_len := Z.to_nat (byte_at bs at_) in
      let at_ := S at_ in
      if (label_len =? 0)%nat || (64 <? label_len)%nat || (checksum_at <? at_ + label_len + 32 + secret_len)%nat
      then Err bad else
      let label := slice at_ (at_ + label_len) bs in
      let at_ := (at_ + label_len)%nat in
      if negb (wallet_label_valid label) then Err BadWalletLabel else
      let public_key := slice at_ (at_ + 32) bs in
      let at_ := (at_ + 32)%nat in
      let secret := slice at_ (at_ + secret_len) bs in
      let at_ := (at_ + secret_len)%nat in
      let key := (KeyRole_byte role, label) in
      if match previous with Some prev => key_leb key prev | None => false end then Err bad else
      let entry := build role label public_key secret in
      let? _ := check network_id entry in
      let? (entries, at_) := decode_entries bs checksum_at network_id count at_ (Some key) in
      Ok (entry :: entries, at_)
  end.

Definition decode_wallet (bs : bytes) : result KeystoreError (Z * list E) :=
  if (length bs <? 8 + 2 + 4 + 2 + 32)%nat then Err bad else
  let checksum_at := (length bs - 32)%nat in
  let expected := sha256 (take checksum_at bs) in
  if negb (ct_equal expected (drop checksum_at bs)) then Err BackupChecksumMismatch else
  if negb (bytes_eqb (slice 0 8 bs) magic) then Err bad else
  if negb (be_val (slice 8 10 bs) =? version) then Err bad else
  let network_id := be_val (slice 10 14 bs) in
  let count := be_val (slice 14 16 bs) in
  if MAX_WALLET_ENTRIES <? count then Err TooManyWalletEntries else
  let? (entries, at_) := decode_entries bs checksum_at network_id (Z.to_nat count) 16 None in
  if negb (at_ =? checksum_at)%nat then Err bad else
  Ok (network_id, entries).
End wallet.

Section exports.
Context {SHA : Sha2}.

(** The embedded secret file belongs to the entry. *)
Definition check_backup_entry (network_id : Z) (entry : WalletBackupEntry) : result KeystoreError unit :=
  let? meta := inspect (wb_secret_file entry) in
  if negb (bool_decide (pm_role meta = wb_role entry)) || negb (pm_network_id meta =? network_id)
     || negb (bytes_eqb (pm_public_key meta) (wb_public_key entry))
  then Err BackupEntryMismatch else Ok tt.

Definition encode_wallet_backup (network_id : Z) (entries : list WalletBackupEntry)
    : result KeystoreError bytes :=
  encode_wallet WALLET_BACKUP_MAGIC WALLET_BACKUP_VERSION BadWalletBackup wb_role wb_label wb_public_key
    wb_secret_file check_backup_entry network_id entries.

Definition decode_wallet_backup (bs : bytes) : result KeystoreError (Z * list WalletBackupEntry) :=
  decode_wallet WALLET_BACKUP_MAGIC WALLET_BACKUP_VERSION BadWalletBackup FILE_LEN
    Build_WalletBackupEntry check_backup_entry bs.

Definition encode_watch_wallet (network_id : Z) (entries : list WatchWalletEntry)
    : result KeystoreError bytes :=
  encode_wallet WATCH_WALLET_MAGIC WATCH_WALLET_VERSION BadWatchWallet ww_role ww_label ww_public_key
    (fun _ => []) (fun _ _ => Ok tt) network_id entries.

Definition decode_watch_wallet (bs : bytes) : result KeystoreError (Z * list WatchWalletEntry) :=
  decode_wallet WATCH_WALLET_MAGIC WATCH_WALLET_VERSION BadWatchWallet 0
    (fun role label public_key _ => {| ww_role := role; ww_label := label; ww_public_key := public_key |})
    (fun _ _ => Ok tt) bs.
End exports.

(** ** Published test vectors *)

(** RFC 8439, section 2.3.2. *)
Example chacha20_rfc8439 :
  chacha20_block (map (fun i => byte_of_Z (Z.of_nat i)) (seq 0 32)) 1 (hex "000000090000004a00000000")
  = hex "10f1e7e4d13b5915500fdd1fa32071c4c7d1f4c733c068030422aa9ac3d46c4ed2826446079faa0914c2d705d98b02a2b5129cd1de164eb9cbd083e8a2503c4e".
Proof. vm_compute. reflexivity. Qed.

(** RFC 4231, test case 1. *)
Example hmac_sha256_rfc4231 :
  hmac_sha256 (replicate 20 Byte.x0b) (ascii_bytes "Hi There")
  = hex "b0344c61d8db38535ca8afceaf0bf12b881dc200c9833da726e9376c2e32cff7".
Proof. vm_compute. reflexivity. Qed.

(** ** The primitives written in the crate *)

Lemma lor_zero a b : 0 <= a -> 0 <= b -> Z.lor a b = 0 <-> a = 0 /\ b = 0.
Proof. intros. apply Z.lor_eq_0_iff. Qed.

Lemma ct_equal_loop ab diff :
  0 <= diff ->
  fold_left (fun diff '(x, y) => Z.lor diff (Z.lxor (Z_of_byte x) (Z_of_byte y))) ab diff = 0 <->
  diff = 0 /\ Forall (fun '(x, y) => x = y) ab.
Proof.
  revert diff. induction ab as [|[x y] ab IH]; intros diff Hd; cbn [fold_left].
  { split; [by split; [|constructor]|by intros [? _]]. }
  pose proof (Z_of_byte_range x). pose proof (Z_of_byte_range y).
  assert (0 <= Z.lxor (Z_of_byte x) (Z_of_byte y)) as Hx by (apply Z.lxor_nonneg; lia).
  rewrite IH by (apply Z.lor_nonneg; lia). rewrite lor_zero by done.
  rewrite Z.lxor_eq_0_iff, Forall_cons. split.
  - intros [[-> Hxy] ?]. split_and!; [done| |done]. by apply Z_of_byte_inj.
  - intros (-> & -> & ?). by split_and!.
Qed.

(** The constant-time comparison is equality. *)
Lemma ct_equal_eq a b : ct_equal a b = true <-> a = b.
Proof.
  unfold ct_equal. destruct (Nat.eqb_spec (length a) (length b)) as [Hl|Hl]; cbn [negb].
  2: { split; [done|by intros ->]. }
  rewrite Z.eqb_eq, ct_equal_loop by lia. split.
  - intros [_ H]. revert b Hl H. induction a as [|x a IH]; intros [|y b] Hl H; try discriminate Hl; [done|].
    injection Hl as Hl. change (Forall (fun '(x, y) => x = y) ((x, y) :: zip a b)) in H.
    apply Forall_cons in H as [-> H]. f_equal. by apply IH.
  - intros ->. split; [done|]. clear Hl. induction b as [|y b IH]; cbn; [constructor|by constructor].
Qed.

Lemma lxor_range w a b : 0 <= w -> 0 <= a < 2 ^ w -> 0 <= b < 2 ^ w -> 0 <= Z.lxor a b < 2 ^ w.
Proof.
  intros Hw Ha Hb.
  assert (Z.lxor a b = Z.lxor a b mod 2 ^ w) as ->.
  { apply Z.bits_inj'. intros n Hn. destruct (Z.lt_ge_cases n w).
    - by rewrite Z.mod_pow2_bits_low.
    - by rewrite Z.mod_pow2_bits_high, Z.lxor_spec, !(testbit_small _ w). }
  apply Z.mod_pos_bound. lia.
Qed.

Lemma xor_byte_twice x y : xor_byte (xor_byte x y) y = x.
Proof.
  apply Z_of_byte_inj. unfold xor_byte. pose proof (Z_of_byte_range x). pose proof (Z_of_byte_range y).
  rewrite (Z_of_byte_small (Z.lxor (Z_of_byte x) (Z_of_byte y))) by (apply (lxor_range 8); lia).
  rewrite Z.lxor_assoc, Z.lxor_nilpotent, Z.lxor_0_r. apply Z_of_byte_small. lia.
Qed.

Lemma chacha20_block_length key counter nonce : length (chacha20_block key counter nonce) = 64%nat.
Proof.
  unfold chacha20_block. rewrite length_concat, map_map. cbn [seq map]. by rewrite !length_le_bytes.
Qed.

Lemma xor_chunk (x stream : bytes) :
  (length x <= length stream)%nat ->
  length (zip_with xor_byte x stream) = length x /\
  zip_with xor_byte (zip_with xor_byte x stream) stream = x.
Proof.
  revert stream. induction x as [|a x IH]; intros [|b stream] Hl; cbn in *; try done; [lia|].
  destruct (IH stream) as [-> ->]; [lia|]. by rewrite xor_byte_twice.
Qed.

Lemma chacha20_chunks_S fuel key nonce x i :
  x <> [] -> chacha20_chunks (S fuel) key nonce x i =
  zip_with xor_byte (take 64 x) (chacha20_block key (w32 (1 + w32 i)) nonce)
    ++ chacha20_chunks fuel key nonce (drop 64 x) (i + 1).
Proof. by destruct x. Qed.

(** Decryption is encryption, for any sufficient number of rounds. *)
Lemma chacha20_chunks_twice fuel fuel' key nonce input i :
  (length input <= fuel)%nat -> (length input <= fuel')%nat ->
  length (chacha20_chunks fuel key nonce input i) = length input /\
  chacha20_chunks fuel' key nonce (chacha20_chunks fuel key nonce input i) i = input.
Proof.
  revert fuel' input i. induction fuel as [|fuel IH]; intros fuel' input i Hl Hl'.
  { destruct input; [|simpl in Hl; lia]. by destruct fuel'. }
  destruct (decide (input = [])) as [->|Hn]; [by destruct fuel'|].
  assert (0 < length input)%nat as Hpos by (destruct input; [done|simpl; lia]).
  destruct fuel' as [|fuel']; [lia|]. rewrite (chacha20_chunks_S fuel) by done.
  set (stream := chacha20_block key (w32 (1 + w32 i)) nonce).
  assert (length stream = 64%nat) as Hs by apply chacha20_block_length.
  destruct (xor_chunk (take 64 input) stream) as [L1 L2]; [rewrite length_take; lia|].
  destruct (IH fuel' (drop 64 input) (i + 1)) as [L3 L4]; [rewrite length_drop; lia..|].
  set (c := zip_with xor_byte (take 64 input) stream) in *.
  set (rest := chacha20_chunks fuel key nonce (drop 64 input) (i + 1)) in *.
  rewrite length_take in L1. rewrite length_drop in L3.
  split; [rewrite length_app; lia|].
  rewrite chacha20_chunks_S by (intros E; apply (f_equal length) in E; rewrite length_app in E; simpl in E; lia).
  fold stream. destruct (decide (64 <= length input)%nat) as [Hx|Hx].
  - rewrite (take_app_exact 64), (drop_app_exact 64), L2, L4 by lia. apply take_drop.
  - assert (rest = []) as Hr by (destruct rest; [done|simpl in L3; lia]).
    rewrite Hr, app_nil_r, (take_ge c), (drop_ge c), L2, (take_ge input) by lia.
    destruct fuel'; apply app_nil_r.
Qed.

Lemma chacha20_xor_twice key nonce input :
  chacha20_xor key nonce (chacha20_xor key nonce input) = input /\
  length (chacha20_xor key nonce input) = length input.
Proof.
  unfold chacha20_xor.
  destruct (chacha20_chunks_twice (length input) (length input) key nonce input 0) as [L E]; [done..|].
  by rewrite L.
Qed.

(** ** Secret files *)

Lemma KeyRole_codec r : KeyRole_from_byte (KeyRole_byte r) = Ok r /\ is_u8 (KeyRole_byte r).
Proof. by destruct r. Qed.

Lemma KeyRole_from_byte_ok v r : KeyRole_from_byte v = Ok r -> v = KeyRole_byte r.
Proof.
  unfold KeyRole_from_byte. destruct (Z.eqb_spec v 1) as [->|]; [by intros <-%Ok_inj|].
  destruct (Z.eqb_spec v 2) as [->|]; [by intros <-%Ok_inj|].
  destruct (Z.eqb_spec v 3) as [->|]; [by intros <-%Ok_inj|done].
Qed.

Lemma byte_at_slice bs i : (i < length bs)%nat -> slice i (S i) bs = [byte_of_Z (byte_at bs i)].
Proof.
  intros Hi. unfold slice, byte_at. rewrite byte_of_Z_of_byte. replace (S i - i)%nat with 1%nat by lia.
  rewrite nth_lookup. destruct (lookup_lt_is_Some_2 bs i Hi) as [b Hb].
  rewrite Hb. by rewrite (drop_S _ _ _ Hb).
Qed.

Lemma byte_at_range bs i : is_u8 (byte_at bs i).
Proof. apply Z_of_byte_range. Qed.

Section secret_files.
Context {SHA : Sha2} {AR : Argon2} {ED : Ed25519}.

Lemma hmac_length key message : is32 (hmac_sha256 key message).
Proof. apply sha256_length. Qed.

Definition params_wf (p : KdfParams) : Prop :=
  is_u32 (kp_memory_kib p) /\ is_u32 (kp_iterations p) /\ is_u32 (kp_parallelism p).

Definition sealed_header (seed : bytes32) (role : KeyRole) (network_id : Z) (p : KdfParams) (salt nonce : bytes) : bytes :=
  MAGIC ++ be_bytes 2 VERSION ++ [byte_of_Z (KeyRole_byte role)] ++ [Byte.x00]
  ++ be_bytes 4 network_id ++ be_bytes 4 (kp_memory_kib p)
  ++ be_bytes 4 (kp_iterations p) ++ be_bytes 4 (kp_parallelism p)
  ++ salt ++ nonce ++ sk_public seed.

Lemma derive_keys_length passphrase salt p keys : derive_keys passphrase salt p = Ok keys -> length keys = 64%nat.
Proof. unfold derive_keys. intros H. inv_ok. by eapply argon2id_length. Qed.

Lemma length_MAGIC : length MAGIC = 8%nat.
Proof. done. Qed.

(** The fields of a header, in front of anything. *)
Lemma sealed_header_fields seed role net p salt nonce rest :
  length salt = 16%nat -> length nonce = 12%nat ->
  let h := sealed_header seed role net p salt nonce in let bs := h ++ rest in
  length h = 88%nat /\ slice 0 8 bs = MAGIC /\ slice 8 10 bs = be_bytes 2 VERSION /\
  byte_at bs 10 = KeyRole_byte role /\ byte_at bs 11 = 0 /\ slice 12 16 bs = be_bytes 4 net /\
  slice 16 20 bs = be_bytes 4 (kp_memory_kib p) /\ slice 20 24 bs = be_bytes 4 (kp_iterations p) /\
  slice 24 28 bs = be_bytes 4 (kp_parallelism p) /\ slice 28 44 bs = salt /\ slice 44 56 bs = nonce /\
  slice 56 88 bs = sk_public seed.
Proof.
  intros Hs Hn h bs. pose proof (sk_public_length seed) as Hp. pose proof length_MAGIC as Hm.
  assert (length h = 88%nat) as Hh.
  { unfold h, sealed_header. rewrite !length_app, !length_be_bytes. simpl length. lia. }
  split; [done|].
  assert (forall i j, (j <= 88)%nat -> slice i j bs = slice i j h) as Hb.
  { intros i j Hj. unfold bs, slice. destruct (decide (i <= 88)%nat).
    - rewrite drop_app_le by lia. apply take_app_le. rewrite length_drop. lia.
    - replace (j - i)%nat with 0%nat by lia. by rewrite !take_0. }
  assert (forall i v, (i < 88)%nat -> is_u8 v -> slice i (S i) h = [byte_of_Z v] -> byte_at bs i = v) as Hbyte.
  { intros i v Hi Hv E. rewrite <- (Hb i (S i)), byte_at_slice in E by (unfold bs; rewrite ?length_app; lia).
    injection E as E. apply (f_equal Z_of_byte) in E.
    rewrite !Z_of_byte_small in E by (done || apply byte_at_range). done. }
  assert (slice 10 11 h = [byte_of_Z (KeyRole_byte role)] /\ slice 11 12 h = [byte_of_Z 0]) as [B10 B11].
  { unfold h, sealed_header. split.
    - rewrite (slice_app_skip 8), (slice_app_skip 2) by (done || apply length_be_bytes || lia).
      by rewrite slice_app_here.
    - rewrite (slice_app_skip 8), (slice_app_skip 2), (slice_app_skip 1) by (done || apply length_be_bytes || lia).
      by rewrite slice_app_here. }
  rewrite !Hb by lia. split_and!.
  3: { apply Hbyte; [lia|apply KeyRole_codec|done]. }
  3: { by apply Hbyte; [lia|lia|]. }
  all: unfold h, sealed_header;
    repeat first [rewrite slice_app_here by (done || apply length_be_bytes)
      | rewrite (slice_app_skip 8) by (done || lia); cbn [Nat.sub]
      | rewrite (slice_app_skip 2) by (apply length_be_bytes || lia); cbn [Nat.sub]
      | rewrite (slice_app_skip 1) by (done || lia); cbn [Nat.sub]
      | rewrite (slice_app_skip 4) by (apply length_be_bytes || lia); cbn [Nat.sub]
      | rewrite (slice_app_skip 16) by (done || lia); cbn [Nat.sub]
      | rewrite (slice_app_skip 12) by (done || lia); cbn [Nat.sub] ]; try done.
  by apply slice_whole.
Qed.

Lemma parse_sealed seed role net p salt nonce rest :
  length salt = 16%nat -> length nonce = 12%nat -> length rest = 64%nat -> is_u32 net -> params_wf p ->
  KdfParams_validate p = Ok tt ->
  parse_metadata (sealed_header seed role net p salt nonce ++ rest)
  = Ok {| pm_role := role; pm_network_id := net; pm_params := p; pm_public_key := sk_public seed |}.
Proof.
  intros Hs Hn Hr Hnet (? & ? & ?) Hv.
  destruct (sealed_header_fields seed role net p salt nonce rest Hs Hn)
    as (Hl & F0 & F8 & F10 & F11 & F12 & F16 & F20 & F24 & _ & _ & F56).
  set (bs := sealed_header seed role net p salt nonce ++ rest) in *.
  unfold parse_metadata, read_u32. cbn [Nat.add].
  assert (length bs = 152%nat) as -> by (unfold bs; rewrite length_app; lia).
  rewrite F0, F8, F10, F11, F12, F16, F20, F24, F56, bytes_eqb_refl, !be_val_be_bytes by done.
  rewrite (proj1 (KeyRole_codec role)).
  cbn -[KdfParams_validate sk_public].
  replace {| kp_memory_kib := kp_memory_kib p; kp_iterations := kp_iterations p;
             kp_parallelism := kp_parallelism p |} with p by (by destruct p).
  by rewrite Hv.
Qed.

(** C38: a sealed seed opens.  A secret file made for a seed, role, network and
    passphrase has 152 bytes and shows the role, the network, the parameters and
    the public key of the seed; with the passphrase it opens to the seed, and it
    is refused for any other role or network.  A passphrase under 12 bytes is
    never used. *)
Theorem sealed_seed_opens seed role net passphrase p salt nonce bs :
  is32 seed -> length salt = 16%nat -> length nonce = 12%nat -> is_u32 net -> params_wf p ->
  seal_seed_with_material seed role net passphrase p salt nonce = Ok bs ->
  length bs = FILE_LEN /\ (12 <= length passphrase)%nat /\
  inspect bs = Ok {| pm_role := role; pm_network_id := net; pm_params := p; pm_public_key := sk_public seed |} /\
  open bs role net passphrase = Ok seed /\
  (forall role' net', role' <> role -> open bs role' net' passphrase = Err RoleMismatch) /\
  (forall net', net' <> net -> open bs role net' passphrase = Err NetworkMismatch).
Proof.
  intros Hseed Hs Hn Hnet Hp H. unfold seal_seed_with_material in H. cbv zeta in H. inv_ok. bool_to_prop.
  match goal with E : derive_keys _ _ _ = Ok ?k |- _ => rename E into Ek; rename k into keys end.
  match goal with E : KdfParams_validate p = Ok ?u |- _ => destruct u; rename E into Ev end.
  pose proof (derive_keys_length _ _ _ _ Ek) as Hk.
  change (MAGIC ++ be_bytes 2 VERSION ++ [byte_of_Z (KeyRole_byte role)] ++ [Byte.x00]
    ++ be_bytes 4 net ++ be_bytes 4 (kp_memory_kib p) ++ be_bytes 4 (kp_iterations p)
    ++ be_bytes 4 (kp_parallelism p) ++ salt ++ nonce ++ sk_public seed)
    with (sealed_header seed role net p salt nonce).
  set (h := sealed_header seed role net p salt nonce).
  set (cipher := chacha20_xor (take 32 keys) nonce seed).
  destruct (chacha20_xor_twice (take 32 keys) nonce seed) as [Hdec Hlc]. fold cipher in Hdec, Hlc.
  set (tag := hmac_sha256 (drop 32 keys) (h ++ cipher)).
  assert (is32 tag) as Ht by apply hmac_length.
  assert (length (cipher ++ tag) = 64%nat) as Hrest by (rewrite length_app; lia).
  rewrite <- (app_assoc h). set (bs := h ++ cipher ++ tag).
  destruct (sealed_header_fields seed role net p salt nonce (cipher ++ tag) Hs Hn)
    as (Hl & _ & _ & _ & _ & _ & _ & _ & _ & F28 & F44 & _).
  fold h in Hl, F28, F44. fold bs in F28, F44.
  assert (parse_metadata bs = Ok {| pm_role := role; pm_network_id := net; pm_params := p;
                                    pm_public_key := sk_public seed |}) as Hm
    by (by apply parse_sealed).
  assert (take AUTHENTICATED_LEN bs = h ++ cipher) as Ta.
  { unfold bs. rewrite app_assoc. apply take_app_exact. rewrite length_app. unfold AUTHENTICATED_LEN. lia. }
  assert (drop AUTHENTICATED_LEN bs = tag) as Da.
  { unfold bs. rewrite app_assoc. apply drop_app_exact. rewrite length_app. unfold AUTHENTICATED_LEN. lia. }
  assert (slice HEADER_LEN AUTHENTICATED_LEN bs = cipher) as Sc.
  { unfold bs, HEADER_LEN, AUTHENTICATED_LEN. rewrite (slice_app_skip 88) by lia. apply slice_app_here. lia. }
  assert (forall role' net', open bs role' net' passphrase =
    if negb (bool_decide (role = role')) then Err RoleMismatch else
    if negb (net =? net') then Err NetworkMismatch else Ok seed) as Ho.
  { intros role' net'. unfold open. rewrite Hm. cbn [pm_params pm_role pm_network_id pm_public_key].
    rewrite F28, F44, Ek, Ta, Da, Sc. fold tag. rewrite (proj2 (ct_equal_eq tag tag) eq_refl). cbn [negb].
    rewrite Hdec, Hseed. cbn [Nat.eqb negb]. by rewrite bytes_eqb_refl. }
  split_and!.
  - unfold bs, FILE_LEN. rewrite length_app. lia.
  - lia.
  - exact Hm.
  - rewrite Ho. by rewrite bool_decide_eq_true_2, Z.eqb_refl.
  - intros role' net' Hne. rewrite Ho. by rewrite bool_decide_eq_false_2.
  - intros net' Hne. rewrite Ho. rewrite bool_decide_eq_true_2 by done.
    destruct (Z.eqb_spec net net'); [congruence|done].
Qed.

(** Only authenticated files open.  When [open] returns a key, the keys that
    the passphrase yields for the salt and parameters of the file authenticate
    its first 120 bytes, its role and network are the expected ones, and the key
    belongs to the public key in the file. *)
Theorem opened_file_is_authenticated bs role net passphrase seed :
  open bs role net passphrase = Ok seed ->
  exists meta keys, parse_metadata bs = Ok meta /\ pm_role meta = role /\ pm_network_id meta = net /\
    derive_keys passphrase (slice 28 44 bs) (pm_params meta) = Ok keys /\
    bs = take 120 bs ++ hmac_sha256 (drop 32 keys) (take 120 bs) /\
    sk_public seed = pm_public_key meta /\
    seed = chacha20_xor (take 32 keys) (slice 44 56 bs) (slice 88 120 bs).
Proof.
  unfold open. intros H. inv_ok. bool_to_prop.
  match goal with E : ct_equal _ _ = true |- _ => apply ct_equal_eq in E; rename E into Et end.
  match goal with E : bool_decide _ = true |- _ => apply bool_decide_eq_true in E end.
  do 2 eexists. split_and!; try done.
  change AUTHENTICATED_LEN with 120%nat in Et. rewrite Et. by rewrite take_drop.
Qed.
End secret_files.

(** ** Wallet exports are canonical *)

Lemma key_ltb_irrefl a : key_ltb a a = false.
Proof. unfold key_ltb. by rewrite Z.ltb_irrefl, bytes_ltb_irrefl, andb_false_r. Qed.

Lemma key_ltb_trans a b c : key_ltb a b = true -> key_ltb b c = true -> key_ltb a c = true.
Proof.
  unfold key_ltb. rewrite !orb_true_iff, !andb_true_iff, !Z.ltb_lt, !Z.eqb_eq.
  intros [?|[? Hab]] [?|[? Hbc]]; [left; lia..|]. right. split; [lia|]. by eapply bytes_ltb_trans.
Qed.

Lemma key_ltb_total a b : key_ltb a b = false -> key_ltb b a = false -> a = b.
Proof.
  destruct a as [r l], b as [r' l']. unfold key_ltb. cbn [fst snd].
  rewrite !orb_false_iff, !andb_false_iff, !Z.ltb_ge, !Z.eqb_neq. intros [? H1] [? H2].
  assert (r = r') as -> by lia. f_equal. apply bytes_ltb_total; destruct H1, H2; done || lia.
Qed.

Lemma key_ltb_leb a b : key_ltb a b = true -> key_leb a b = true.
Proof.
  unfold key_leb. intros H. destruct (key_ltb b a) eqn:E; [|done].
  pose proof (key_ltb_trans _ _ _ H E) as Hc. by rewrite key_ltb_irrefl in Hc.
Qed.

Lemma key_leb_total a b : key_leb a b = false -> key_leb b a = true.
Proof.
  unfold key_leb at 1. intros H%negb_false_iff. by apply key_ltb_leb.
Qed.

(** What a sort leaves, for a total order. *)
Lemma insert_by_sorted {A} (le : A -> A -> bool) x l :
  (forall a b, le a b = false -> le b a = true) ->
  Sorted (fun a b => le a b = true) l -> Sorted (fun a b => le a b = true) (insert_by le x l).
Proof.
  intros Ht. induction 1 as [|y l Hl IH Hy]; cbn [insert_by]; [by repeat constructor|].
  destruct (le x y) eqn:E; [by repeat constructor|]. constructor; [done|].
  destruct l as [|z l]; cbn [insert_by]; [constructor; by apply Ht|].
  destruct (le x z); constructor; [by apply Ht|by inversion Hy].
Qed.

Lemma sort_by_sorted {A} (le : A -> A -> bool) l :
  (forall a b, le a b = false -> le b a = true) -> Sorted (fun a b => le a b = true) (sort_by le l).
Proof. intros Ht. induction l as [|x l IH]; cbn [sort_by fold_right]; [constructor|by apply insert_by_sorted]. Qed.

Section wallet_codec.
Context {SHA : Sha2}.
Context {E : Type} (magic : bytes) (version : Z) (bad : KeystoreError) (secret_len : nat).
Context (role : E -> KeyRole) (label public_key secret : E -> bytes).
Context (build : KeyRole -> bytes -> bytes -> bytes -> E).
Context (check : Z -> E -> result KeystoreError unit).
Context (magic_length : length magic = 8%nat) (version_u16 : is_u16 version).
Context (build_role : forall r l p s, role (build r l p s) = r).
Context (build_label : forall r l p s, label (build r l p s) = l).
Context (build_public_key : forall r l p s, public_key (build r l p s) = p).
Context (build_secret : forall r l p s, length s = secret_len -> secret (build r l p s) = s).
Context (build_eta : forall e, build (role e) (label e) (public_key e) (secret e) = e).
Context (check_secret : forall n e, check n e = Ok tt -> length (secret e) = secret_len).

Local Abbreviation ekey := (entry_key role label).
Local Abbreviation encode_entries := (encode_entries bad role label public_key secret check).
Local Abbreviation decode_entries := (decode_entries bad secret_len build check).
Local Abbreviation encode_wallet := (encode_wallet magic version bad role label public_key secret check).
Local Abbreviation decode_wallet := (decode_wallet magic version bad secret_len build check).

Definition entry_bytes (e : E) : bytes :=
  [byte_of_Z (KeyRole_byte (role e))] ++ [byte_of_Z (Z.of_nat (length (label e)))]
  ++ label e ++ public_key e ++ secret e.

Definition entry_ok (n : Z) (e : E) : Prop :=
  wallet_role_allowed (role e) = true /\ wallet_label_valid (label e) = true /\ check n e = Ok tt.

Fixpoint key_chain (previous : option (Z * bytes)) (es : list E) : Prop :=
  match es with
  | [] => True
  | e :: es => match previous with Some p => key_ltb p (ekey e) = true | None => True end
               /\ key_chain (Some (ekey e)) es
  end.

Lemma label_length l : wallet_label_valid l = true -> (0 < length l <= 64)%nat.
Proof. unfold wallet_label_valid. intros H. bool_to_prop. lia. Qed.

Lemma entry_length n e :
  entry_ok n e -> is32 (public_key e) -> length (entry_bytes e) = (2 + length (label e) + 32 + secret_len)%nat.
Proof.
  intros (_ & _ & Hc) Hp. apply check_secret in Hc. unfold entry_bytes. rewrite !length_app. cbn [length]. lia.
Qed.

Fixpoint distinct_neighbours (previous : option (Z * bytes)) (es : list E) : Prop :=
  match es with
  | [] => True
  | e :: es => previous <> Some (ekey e) /\ distinct_neighbours (Some (ekey e)) es
  end.

Lemma encode_entries_iff n prev es body out :
  encode_entries n prev es body = Ok out <->
  Forall (entry_ok n) es /\ distinct_neighbours prev es /\ out = body ++ concat (map entry_bytes es).
Proof.
  revert prev body. induction es as [|e es IH]; intros prev body; cbn [Keystore.encode_entries distinct_neighbours map concat].
  { rewrite app_nil_r. split; [intros <-%Ok_inj; by repeat constructor|by intros (_ & _ & ->)]. }
  rewrite Forall_cons. unfold entry_ok at 1.
  destruct (wallet_role_allowed (role e)); cbn [negb orb]; [|naive_solver].
  destruct (wallet_label_valid (label e)); cbn [negb]; [|naive_solver].
  destruct (check n e) as [[]|]; [|naive_solver].
  case_bool_decide as Hp; [naive_solver|]. rewrite IH. unfold entry_bytes at 2. rewrite <- !app_assoc. naive_solver.
Qed.

Lemma sorted_chain es prev :
  Sorted (fun a b => key_leb (ekey a) (ekey b) = true) es -> distinct_neighbours prev es ->
  match prev, es with Some p, e :: _ => key_leb p (ekey e) = true | _, _ => True end -> key_chain prev es.
Proof.
  intros Hs. revert prev. induction Hs as [|e es Hs IH He]; intros prev; cbn [distinct_neighbours key_chain]; [done|].
  intros [Hne Hd] Hp. split.
  - destruct prev as [p|]; [|done]. destruct (key_ltb p (ekey e)) eqn:El; [done|].
    unfold key_leb in Hp. apply negb_true_iff in Hp. destruct Hne. f_equal. by apply key_ltb_total.
  - apply IH; [done|]. destruct es as [|e' es]; [done|]. by inversion He.
Qed.

Lemma chain_sorted es prev :
  key_chain prev es -> sort_by (fun a b => key_leb (ekey a) (ekey b)) es = es /\ distinct_neighbours prev es.
Proof.
  revert prev. induction es as [|e es IH]; intros prev; cbn [key_chain distinct_neighbours]; [done|].
  intros [Hp Hc]. destruct (IH _ Hc) as [Hs Hd]. cbn [sort_by fold_right]. unfold sort_by in Hs. rewrite Hs.
  split; [|split; [|done]].
  - destruct es as [|e' es]; [done|]. cbn [insert_by]. cbn [key_chain] in Hc. by rewrite key_ltb_leb by apply Hc.
  - intros ->. by rewrite key_ltb_irrefl in Hp.
Qed.

(** Reading at an index is reading at the beginning of the rest. *)
Lemma slice_drop (bs : bytes) a i j : slice (a + i) (a + j) bs = slice i j (drop a bs).
Proof. unfold slice. rewrite drop_drop. f_equal. lia. Qed.

Lemma byte_at_drop bs a i : byte_at bs (a + i) = byte_at (drop a bs) i.
Proof. unfold byte_at. by rewrite !nth_lookup, lookup_drop. Qed.

(** The fields of an entry at the beginning of a byte string. *)
Lemma entry_fields n e rest :
  entry_ok n e -> is32 (public_key e) ->
  let b := entry_bytes e ++ rest in let k := length (label e) in
  byte_at b 0 = KeyRole_byte (role e) /\ byte_at b 1 = Z.of_nat k /\
  slice 2 (2 + k) b = label e /\ slice (2 + k) (2 + k + 32) b = public_key e /\
  slice (2 + k + 32) (2 + k + 32 + secret_len) b = secret e.
Proof.
  intros (_ & Hv & Hc) Hp b k. apply label_length in Hv. apply check_secret in Hc.
  assert (is_u8 (Z.of_nat k)) by (subst k; lia). pose proof (proj2 (KeyRole_codec (role e))).
  unfold b, entry_bytes. rewrite <- !app_assoc. split_and!.
  - unfold byte_at. cbn [app nth]. by apply Z_of_byte_small.
  - unfold byte_at. cbn [app nth]. by apply Z_of_byte_small.
  - rewrite (slice_app_skip 1), (slice_app_skip 1) by (done || lia). apply slice_app_here. subst k. lia.
  - rewrite (slice_app_skip 1), (slice_app_skip 1), (slice_app_skip k) by (done || lia).
    replace (2 + k - 1 - 1 - k)%nat with 0%nat by lia. apply slice_app_here. lia.
  - rewrite (slice_app_skip 1), (slice_app_skip 1), (slice_app_skip k), (slice_app_skip 32) by (done || lia).
    replace (2 + k + 32 - 1 - 1 - k - 32)%nat with 0%nat by lia. apply slice_app_here. lia.
Qed.

Lemma decode_wallet_entries_app bs cs n es at_ prev rest :
  Forall (entry_ok n) es -> Forall (fun e => is32 (public_key e)) es -> key_chain prev es ->
  drop at_ bs = concat (map entry_bytes es) ++ rest ->
  (at_ + length (concat (map entry_bytes es)) <= cs)%nat ->
  decode_entries bs cs n (length es) at_ prev = Ok (es, (at_ + length (concat (map entry_bytes es)))%nat).
Proof.
  intros Ho. revert at_ prev. induction Ho as [|e es He _ IH]; intros at_ prev Hp Hc Hd Hl.
  { cbn. by rewrite Nat.add_0_r. }
  apply Forall_cons in Hp as [Hpe Hp]. destruct Hc as [Hprev Hc].
  cbn [map concat] in Hd, Hl |- *. rewrite <- app_assoc in Hd.
  destruct (entry_fields n e (concat (map entry_bytes es) ++ rest) He Hpe) as (F0 & F1 & F2 & F3 & F4).
  rewrite <- Hd in F0, F1, F2, F3, F4. rewrite <- byte_at_drop in F0, F1. rewrite <- slice_drop in F2, F3, F4.
  pose proof (entry_length n e He Hpe) as Hle. rewrite length_app in Hl |- *.
  destruct He as (Hr & Hv & Hck). pose proof (label_length _ Hv).
  cbn [length Keystore.decode_entries]. rewrite Nat.add_0_r in F0. rewrite F0, (proj1 (KeyRole_codec _)), Hr.
  replace (S at_) with (at_ + 1)%nat by lia. rewrite F1, Nat2Z.id.
  replace (S (at_ + 1)) with (at_ + 2)%nat by lia.
  replace (at_ + 2 + length (label e))%nat with (at_ + (2 + length (label e)))%nat by lia. rewrite F2.
  replace (at_ + (2 + length (label e)) + 32)%nat with (at_ + (2 + length (label e) + 32))%nat by lia. rewrite F3.
  replace (at_ + (2 + length (label e) + 32) + secret_len)%nat
    with (at_ + (2 + length (label e) + 32 + secret_len))%nat by lia. rewrite F4.
  rewrite Hv, build_eta, Hck. cbn [negb].
  destruct (Nat.ltb_spec cs (at_ + 2)); [lia|].
  destruct (Nat.eqb_spec (length (label e)) 0); [lia|]. destruct (Nat.ltb_spec 64 (length (label e))); [lia|].
  destruct (Nat.ltb_spec cs (at_ + (2 + length (label e) + 32 + secret_len))); [lia|]. cbn [orb].
  assert (match prev with Some p => key_leb (KeyRole_byte (role e), label e) p | None => false end = false) as ->.
  { destruct prev as [p|]; [|done]. apply negb_false_iff. exact Hprev. }
  change (KeyRole_byte (role e), label e) with (ekey e).
  replace (at_ + (2 + length (label e) + 32 + secret_len))%nat with (at_ + length (entry_bytes e))%nat by lia.
  rewrite IH; [by rewrite Nat.add_assoc|done|done| |lia].
  rewrite <- drop_drop, Hd. by apply drop_app_exact.
Qed.

Lemma decode_wallet_entries_ok bs cs n count at_ prev es at' :
  (at_ <= cs)%nat -> (cs <= length bs)%nat ->
  decode_entries bs cs n count at_ prev = Ok (es, at') ->
  length es = count /\ (at_ <= at' <= cs)%nat /\ Forall (entry_ok n) es /\
  Forall (fun e => is32 (public_key e)) es /\ key_chain prev es /\
  slice at_ at' bs = concat (map entry_bytes es).
Proof.
  intros Hat Hcs. revert at_ prev es at' Hat. induction count as [|count IH]; intros at_ prev es at' Hat H;
    cbn [Keystore.decode_entries] in H.
  { apply Ok_inj, pair_inj in H as [<- <-]. split_and!; try done; try lia; try constructor.
    unfold slice. by rewrite Nat.sub_diag, take_0. }
  destruct (cs <? at_ + 2)%nat eqn:E1; [done|].
  destruct (KeyRole_from_byte (byte_at bs at_)) as [r|] eqn:Er; [|done]. apply KeyRole_from_byte_ok in Er.
  destruct (wallet_role_allowed r) eqn:Ea; cbn [negb] in H; [|done].
  set (k := Z.to_nat (byte_at bs (S at_))) in *.
  destruct (_ || _) eqn:E2 in H; [done|]. set (l := slice (S (S at_)) (S (S at_) + k) bs) in *.
  destruct (wallet_label_valid l) eqn:Ev; cbn [negb] in H; [|done].
  set (p := slice (S (S at_) + k) (S (S at_) + k + 32) bs) in *.
  set (sec := slice (S (S at_) + k + 32) (S (S at_) + k + 32 + secret_len) bs) in *.
  destruct (match prev with Some _ => _ | None => _ end) eqn:Ep; [done|].
  set (e := build r l p sec) in *. destruct (check n e) as [[]|] eqn:Ec; [|done].
  set (at1 := (S (S at_) + k + 32 + secret_len)%nat) in *.
  destruct (decode_entries bs cs n count at1 _) as [[es' at2]|] eqn:Ed; [|done].
  apply Ok_inj, pair_inj in H as [<- <-]. bool_to_prop.
  assert (at1 <= cs)%nat as Hat1 by (unfold at1; lia).
  destruct (IH _ _ _ _ Hat1 Ed) as (Hn & Hb & Ho & Hp & Hc & Hs).
  assert (length l = k) as Hl by (unfold l; rewrite length_slice; lia).
  assert (length p = 32%nat) as Hlp by (unfold p; rewrite length_slice; lia).
  assert (length sec = secret_len) as Hls by (unfold sec; rewrite length_slice; lia).
  assert (ekey e = (KeyRole_byte r, l)) as Hk
    by (unfold ekey, entry_key, e, wallet_sort_key; by rewrite build_role, build_label).
  rewrite !Forall_cons. cbn [length key_chain map concat]. rewrite Hk. split_and!; try done; try lia.
  - unfold entry_ok, e. by rewrite build_role, build_label.
  - unfold e. by rewrite build_public_key.
  - destruct prev as [q|]; [|done]. unfold key_leb in Ep. by apply negb_false_iff in Ep.
  - rewrite <- Hs. rewrite <- (slice_take_drop at_ at1 at2) by lia. f_equal.
    unfold entry_bytes, e. rewrite build_role, build_label, build_public_key, build_secret by done.
    rewrite <- Er, Hl. unfold k. pose proof (byte_at_range bs (S at_)). rewrite Z2Nat.id by lia. fold k.
    rewrite <- (byte_at_slice bs at_), <- (byte_at_slice bs (S at_)) by lia. unfold l, p, sec.
    rewrite !slice_take_drop by lia. done.
Qed.

Definition wallet_body (n : Z) (es : list E) : bytes :=
  magic ++ be_bytes 2 version ++ be_bytes 4 n ++ be_bytes 2 (Z.of_nat (length es)) ++ concat (map entry_bytes es).

Lemma encode_wallet_iff n es bs :
  encode_wallet n es = Ok bs <->
  let ordered := sort_by (fun a b => key_leb (ekey a) (ekey b)) es in
  Z.of_nat (length es) <= 4096 /\ Forall (entry_ok n) ordered /\ key_chain None ordered /\
  bs = wallet_body n ordered ++ sha256 (wallet_body n ordered).
Proof.
  unfold encode_wallet, MAX_WALLET_ENTRIES. cbv zeta. set (ordered := sort_by _ es).
  assert (length ordered = length es) as Hlen by (unfold ordered; by rewrite sort_by_perm).
  destruct (Z.ltb_spec 4096 (Z.of_nat (length es))); cbn [orb]; [split; [done|intros [? _]; lia]|].
  destruct (Z.ltb_spec 65535 (Z.of_nat (length es))); [lia|].
  assert (distinct_neighbours None ordered <-> key_chain None ordered) as Hdc.
  { split; [|intros Hk; exact (proj2 (chain_sorted ordered None Hk))].
    intros Hd. apply sorted_chain; [|done|done]. apply sort_by_sorted. intros a b. apply key_leb_total. }
  assert (forall out, encode_entries n None ordered
     (magic ++ be_bytes 2 version ++ be_bytes 4 n ++ be_bytes 2 (Z.of_nat (length ordered))) = Ok out <->
    Forall (entry_ok n) ordered /\ key_chain None ordered /\ out = wallet_body n ordered) as He.
  { intros out. rewrite encode_entries_iff, Hdc. unfold wallet_body. by rewrite <- !app_assoc. }
  destruct (encode_entries _ _ _ _) as [out|err] eqn:Henc.
  - destruct (proj1 (He out) eq_refl) as (? & ? & ->). split; [intros <-%Ok_inj; done|by intros (_ & _ & _ & ->)].
  - split; [done|]. intros (_ & Ho & Hk & _). destruct (He (wallet_body n ordered)) as [_ H2].
    discriminate (H2 (conj Ho (conj Hk eq_refl))).
Qed.

Lemma length_wallet_head n (es : list E) :
  length (magic ++ be_bytes 2 version ++ be_bytes 4 n ++ be_bytes 2 (Z.of_nat (length es))) = 16%nat.
Proof. rewrite !length_app, !length_be_bytes. lia. Qed.

Lemma wallet_decodes n es bs :
  is_u32 n -> Forall (fun e => is32 (public_key e)) es -> encode_wallet n es = Ok bs ->
  decode_wallet bs = Ok (n, sort_by (fun a b => key_leb (ekey a) (ekey b)) es).
Proof.
  intros Hn Hp (Hc & Ho & Hk & ->)%encode_wallet_iff. set (ordered := sort_by _ es) in *.
  assert (length ordered = length es) as Hlen by (unfold ordered; by rewrite sort_by_perm).
  assert (Forall (fun e => is32 (public_key e)) ordered) as Hp'
    by (eapply Permutation_Forall; [symmetry; apply sort_by_perm|done]).
  set (body := wallet_body n ordered). set (entries := concat (map entry_bytes ordered)).
  pose proof (length_wallet_head n ordered) as Hh.
  assert (body = (magic ++ be_bytes 2 version ++ be_bytes 4 n ++ be_bytes 2 (Z.of_nat (length ordered))) ++ entries) as Hb
    by (unfold body, wallet_body; by rewrite <- !app_assoc).
  assert (length body = 16 + length entries)%nat as Hlb by (rewrite Hb, length_app; lia).
  pose proof (sha256_length body) as Hsha.
  unfold decode_wallet, MAX_WALLET_ENTRIES. rewrite !length_app, Hsha, Nat.add_sub.
  destruct (Nat.ltb_spec (length body + 32) (8 + 2 + 4 + 2 + 32)); [lia|].
  rewrite (take_app_exact (length body)), (drop_app_exact (length body)) by done.
  rewrite (proj2 (ct_equal_eq _ _) eq_refl). cbn [negb].
  assert (slice 0 8 (body ++ sha256 body) = magic /\ slice 8 10 (body ++ sha256 body) = be_bytes 2 version /\
    slice 10 14 (body ++ sha256 body) = be_bytes 4 n /\
    slice 14 16 (body ++ sha256 body) = be_bytes 2 (Z.of_nat (length ordered))) as (S0 & S8 & S10 & S14).
  { rewrite Hb at 1 3 5 7. rewrite <- !app_assoc. split_and!; repeat first
      [ rewrite slice_app_here by (done || apply length_be_bytes)
      | rewrite (slice_app_skip 8) by (done || lia); cbn [Nat.sub]
      | rewrite (slice_app_skip 2) by (apply length_be_bytes || lia); cbn [Nat.sub]
      | rewrite (slice_app_skip 4) by (apply length_be_bytes || lia); cbn [Nat.sub] ]; done. }
  rewrite S0, S8, S10, S14, bytes_eqb_refl, !be_val_be_bytes by (done || lia).
  rewrite Z.eqb_refl. cbn [negb]. destruct (Z.ltb_spec 4096 (Z.of_nat (length ordered))); [lia|].
  rewrite Nat2Z.id, (decode_wallet_entries_app _ _ _ _ _ _ (sha256 body)); try done.
  - fold entries. rewrite Hlb, Nat.eqb_refl. done.
  - fold entries. rewrite Hb at 1. rewrite <- app_assoc. by apply drop_app_exact.
  - fold entries. lia.
Qed.

Lemma wallet_canonical bs n es :
  decode_wallet bs = Ok (n, es) ->
  encode_wallet n es = Ok bs /\ is_u32 n /\ key_chain None es /\ Forall (fun e => is32 (public_key e)) es.
Proof.
  unfold decode_wallet. intros H. inv_ok. bool_to_prop.
  match goal with Hx : ct_equal _ _ = true |- _ => apply ct_equal_eq in Hx; rename Hx into Et end.
  match goal with Hx : decode_entries _ _ _ _ _ _ = Ok _ |- _ =>
    apply decode_wallet_entries_ok in Hx as (Hn & Hb & Ho & Hp & Hc & Hs); [|lia..] end.
  pose proof (be_val_range 2 (slice 14 16 bs) ltac:(rewrite length_slice; lia)) as Hcount.
  pose proof (be_val_range 4 (slice 10 14 bs) ltac:(rewrite length_slice; lia)) as Hnet.
  match goal with Hx : (MAX_WALLET_ENTRIES <? _) = false |- _ => apply Z.ltb_ge in Hx | _ => idtac end.
  destruct (chain_sorted es None Hc) as [Hsort _].
  split_and!; try done; [|apply Hnet|apply Hnet].
  apply encode_wallet_iff. rewrite Hsort. unfold MAX_WALLET_ENTRIES in *. split_and!; try done; [lia|].
  assert (wallet_body (be_val (slice 10 14 bs)) es = take (length bs - 32) bs) as ->.
  { unfold wallet_body. rewrite <- Hs, Hn, Z2Nat.id by lia.
    rewrite !be_bytes_be_val by (rewrite length_slice; lia).
    match goal with Hx : be_val (slice 8 10 bs) = version |- _ => rewrite <- Hx end.
    match goal with Hx : slice 0 8 bs = magic |- _ => rewrite <- Hx end.
    rewrite be_bytes_be_val by (rewrite length_slice; lia). rewrite !slice_take_drop by lia.
    match goal with Hx : ?a = (length bs - 32)%nat |- _ => rewrite Hx end.
    unfold slice. by rewrite drop_0, Nat.sub_0_r. }
  rewrite Et. by rewrite take_drop.
Qed.

Lemma wallet_encodes bs n es : decode_wallet bs = Ok (n, es) -> encode_wallet n es = Ok bs.
Proof. intros H. exact (proj1 (wallet_canonical bs n es H)). Qed.
End wallet_codec.

Section export_theorems.
Context {SHA : Sha2}.

Lemma backup_entry_file n e :
  check_backup_entry n e = Ok tt -> length (wb_secret_file e) = FILE_LEN.
Proof.
  unfold check_backup_entry, inspect, parse_metadata. intros H.
  destruct (length (wb_secret_file e) =? FILE_LEN)%nat eqn:E; [by apply Nat.eqb_eq in E|done].
Qed.

(** Wallet backups and watch wallets are canonical.  What [encode] accepts
    decodes to the same entries in the order of role and label, and whatever
    [decode] accepts is, byte for byte, the encoding of the entries it returns:
    sorted, without a repeated (role, label), each label and role admissible,
    and in a backup each secret file of the entry's role, network and key. *)
Theorem wallet_exports_canonical :
  (forall n es bs, is_u32 n -> Forall (fun e => is32 (wb_public_key e)) es ->
     encode_wallet_backup n es = Ok bs ->
     decode_wallet_backup bs
     = Ok (n, sort_by (fun a b => key_leb (entry_key wb_role wb_label a) (entry_key wb_role wb_label b)) es)) /\
  (forall bs n es, decode_wallet_backup bs = Ok (n, es) -> encode_wallet_backup n es = Ok bs) /\
  (forall n es bs, is_u32 n -> Forall (fun e => is32 (ww_public_key e)) es ->
     encode_watch_wallet n es = Ok bs ->
     decode_watch_wallet bs
     = Ok (n, sort_by (fun a b => key_leb (entry_key ww_role ww_label a) (entry_key ww_role ww_label b)) es)) /\
  (forall bs n es, decode_watch_wallet bs = Ok (n, es) -> encode_watch_wallet n es = Ok bs).
Proof.
  split_and!.
  - intros n es bs. apply wallet_decodes; try done; [by intros []|apply backup_entry_file].
  - intros bs n es. by apply wallet_encodes.
  - intros n es bs. apply wallet_decodes; try done. by intros [].
  - intros bs n es. apply wallet_encodes; try done. by intros r l p [].
Qed.
End export_theorems.

(** ** Writing a new file *)

(** [write_new_file] never changes a file that is there, apart from its own
    temporary file, and when it returns the new file holds the bytes. *)
Theorem write_new_file_keeps_files {P} `{Countable P} (path temp : P) bs d fs :
  path <> temp ->
  let '(d', _, e) := write_new_file path temp bs d fs in
  (forall p c, p <> temp -> d !! p = Some c -> d' !! p = Some c) /\
  (e = Returns (Ok tt) -> d !! path = None /\ d' !! path = Some bs).
Proof.
  intros Hne. set (keeps := fun d' : disk P => forall p c, p <> temp -> d !! p = Some c -> d' !! p = Some c).
  assert (wp (write_new_file path temp bs) (fun e d' => keeps d' /\
    (e = Returns (Ok tt) -> d !! path = None /\ d' !! path = Some bs)) d) as Hw.
  2: { specialize (Hw fs). by destruct (write_new_file path temp bs d fs) as [[d' fs'] e]. }
  assert (forall c d', keeps d' -> keeps (put temp c d')) as Hput
    by (intros c d' Hk p x Hp Hx; rewrite put_lookup_ne by done; by apply Hk).
  assert (forall (e : ending unit) d', keeps d' -> stopped e ->
    keeps d' /\ (e = Returns (Ok tt) -> d !! path = None /\ d' !! path = Some bs)) as Hs
    by (intros e d' ? He; split; [done|]; intros ->; destruct He).
  assert (keeps d) as K0 by (by intros p c _).
  apply wp_look. unfold exists_file at 1. case_bool_decide as Hx; [by apply wp_fail, Hs|].
  apply eq_None_not_Some in Hx.
  apply wp_bind, wp_touch. intros [[[]|e]|]; cbn [and_then]; [|by apply Hs..].
  apply wp_bind, wp_look. destruct (exists_file d temp); [apply wp_fail; by apply Hs|].
  apply wp_write.
  2: { intros c. apply and_then_stopped. intros; apply Hs; [by apply Hput|done]. }
  set (d1 := <[temp := bs]> d). assert (keeps d1) as K1 by (by apply (Hput (Some bs))).
  cbn [and_then]. apply wp_bind, wp_try. eapply wp_link; [apply lookup_insert_eq|..].
  - intros [[[]|e]|]; cbn [stopped and_then]; [done|intros _|intros _; by apply Hs].
    apply wp_bind, wp_try, wp_remove.
    + intros [[[]|e']|]; cbn [stopped and_then]; [done|intros _|intros _; by apply Hs].
      apply wp_look. destruct (exists_file d1 path); apply wp_fail; by apply Hs.
    + assert (keeps (delete temp d1)) as K2 by (by apply (Hput None)).
      intros [[[]|e']|]; cbn [and_then]; [| |by apply Hs];
        (apply wp_look; destruct (exists_file (delete temp d1) path); apply wp_fail; by apply Hs).
  - intros _. assert (keeps (<[path := bs]> d1)) as K2.
    { intros p c Hp Hc. rewrite lookup_insert_ne; [by apply K1|congruence]. }
    assert (keeps (delete temp (<[path := bs]> d1))) as K3 by (by apply (Hput None)).
    intros [[[]|e]|]; cbn [and_then]; [| |by apply Hs].
    + apply wp_remove; [intros; by apply Hs|]. intros e. split; [done|]. intros _. split; [done|].
      rewrite lookup_delete_ne by done. apply lookup_insert_eq.
    + apply wp_bind, wp_try, wp_remove.
      * intros [[[]|e']|]; cbn [stopped and_then]; [done|intros _|intros _; by apply Hs].
        apply wp_look. destruct (exists_file _ path); apply wp_fail; by apply Hs.
      * intros [[[]|e']|]; cbn [and_then]; [| |by apply Hs];
          (apply wp_look; destruct (exists_file _ path); apply wp_fail; by apply Hs).
Qed.
