(* ===== verification/Storage.v ===== *)
(** Crate [mutiny-node], file storage.rs: generations of the node's state on
    disk, with a journal.

    The three file formats (metadata, journal, snapshot), recovery at start,
    the commit of a new generation, pruning, and the migration of the old state
    file, on the file model of [Files].  The paths of a data directory are an
    inductive type: [SnapshotPath g] is storage/state/generation-<g>.mst, which
    [format!("{generation:020}")] names injectively; a name that is not one of
    these is not looked at by the code.  Projections: [sm_] for [StorageMetaV1],
    [si_] for [SnapshotIdentity], [jr_] for [JournalV1], [ls_] for
    [LoadedSnapshot].

    [crash_atomic] is the contract of the component: whatever faults a commit
    meets, the next start finds the old generation or the new one, whole. *)

From stdpp Require Import strings.
From S2P Require Import Prelude Crypto Sha256 Files.

Definition STORAGE_FORMAT_VERSION : Z := 1.
Definition META_MAGIC : bytes := ascii_bytes "MUTSTG01".
Definition SNAPSHOT_MAGIC : bytes := ascii_bytes "MUTSNP01".
Definition JOURNAL_MAGIC : bytes := ascii_bytes "MUTJRN01".
Definition META_LEN : nat := 222.
Definition JOURNAL_LEN : nat := 90.
Definition SNAPSHOT_HEADER_LEN : nat := 26.
Definition HASH_LEN : nat := 32.
Definition RETAIN_GENERATIONS : nat := 2.

Record SnapshotIdentity := {
  si_network_id : Z;
  si_genesis_id : bytes32;
  si_height : Z;
  si_tip_hash : bytes32;
  si_state_root : bytes32;
  si_chainwork : bytes32;
}.

Record StorageMetaV1 := {
  sm_network_id : Z;
  sm_genesis_id : bytes32;
  sm_generation : Z;
  sm_height : Z;
  sm_tip_hash : bytes32;
  sm_state_root : bytes32;
  sm_chainwork : bytes32;
  sm_snapshot_sha256 : bytes32;
}.

Inductive RecoveryAction :=
| RecoveryNone
| RolledBackPrepared
| FinalizedCommitted.

Record LoadedSnapshot := {
  ls_bytes : bytes;
  ls_meta : StorageMetaV1;
  ls_recovery : RecoveryAction;
}.

Record JournalV1 := {
  jr_generation : Z;
  jr_previous_generation : Z;
  jr_snapshot_sha256 : bytes32;
}.

(** ** The files of a data directory *)

Inductive path :=
| MetaPath
| MetaTmp
| JournalPath
| JournalTmp
| SnapshotPath (generation : Z)
| SnapshotTmp (generation : Z)
| LegacyRoot
| ArchivedLegacy.

#[export] Instance path_eq_dec : EqDecision path.
Proof. solve_decision. Defined.

Definition path_code (p : path) : nat * Z :=
  match p with
  | MetaPath => (0%nat, 0) | MetaTmp => (1%nat, 0) | JournalPath => (2%nat, 0)
  | JournalTmp => (3%nat, 0) | SnapshotPath g => (4%nat, g) | SnapshotTmp g => (5%nat, g)
  | LegacyRoot => (6%nat, 0) | ArchivedLegacy => (7%nat, 0)
  end.

Definition path_decode (c : nat * Z) : path :=
  match c with
  | (0%nat, _) => MetaPath | (1%nat, _) => MetaTmp | (2%nat, _) => JournalPath
  | (3%nat, _) => JournalTmp | (4%nat, g) => SnapshotPath g | (5%nat, g) => SnapshotTmp g
  | (6%nat, _) => LegacyRoot | (_, _) => ArchivedLegacy
  end.

#[export] Program Instance path_countable : Countable path :=
  inj_countable' path_code path_decode _.
Next Obligation. by intros []. Qed.

Abbreviation files := (disk path).
Abbreviation sio := (io path).

Definition exists_storage (d : files) : bool :=
  exists_file d MetaPath || exists_file d JournalPath || exists_file d ArchivedLegacy.

(** [write_synced]: the parent directory, the content, the sync *)
Definition write_synced (p : path) (bs : bytes) : sio unit :=
  let! _ := touch in write_file p bs.

Definition replace_synced (tmp final_path : path) : sio unit :=
  let! _ := rename_file tmp final_path in touch.

Definition remove_synced (p : path) : sio unit :=
  let! _ := io_look (fun d => if exists_file d p then remove_file p else io_ret tt) in touch.

(** The development failpoint: the process goes on or is aborted here. *)
Definition maybe_crash (phase : string) : sio unit := fun d fs =>
  let (x, fs) := next_fault fs in
  match x with Crash _ _ => (d, fs, Interrupted) | _ => (d, fs, Returns (Ok tt)) end.

Section storage.
Context {SHA : Sha2}.

(** ** Formats *)

Definition encode_meta (meta : StorageMetaV1) : bytes :=
  let out := META_MAGIC in
  let out := out ++ be_bytes 2 STORAGE_FORMAT_VERSION in
  let out := out ++ be_bytes 4 (sm_network_id meta) in
  let out := out ++ sm_genesis_id meta in
  let out := out ++ be_bytes 8 (sm_generation meta) in
  let out := out ++ be_bytes 8 (sm_height meta) in
  let out := out ++ sm_tip_hash meta in
  let out := out ++ sm_state_root meta in
  let out := out ++ sm_chainwork meta in
  let out := out ++ sm_snapshot_sha256 meta in
  out ++ sha256 out.

Definition decode_meta (bs : bytes) : result string StorageMetaV1 :=
  if negb (length bs =? META_LEN)%nat then Err "storage meta length"%string else
  if negb (bytes_eqb (slice 0 8 bs) META_MAGIC) then Err "storage meta magic mismatch"%string else
  let version := be_val (slice 8 10 bs) in
  if negb (version =? STORAGE_FORMAT_VERSION) then Err "unsupported storage format version"%string else
  let expected := sha256 (take (META_LEN - HASH_LEN) bs) in
  if negb (bytes_eqb expected (drop (META_LEN - HASH_LEN) bs))
  then Err "storage meta checksum mismatch"%string else
  Ok {| sm_network_id := be_val (slice 10 14 bs);
        sm_genesis_id := slice 14 46 bs;
        sm_generation := be_val (slice 46 54 bs);
        sm_height := be_val (slice 54 62 bs);
        sm_tip_hash := slice 62 94 bs;
        sm_state_root := slice 94 126 bs;
        sm_chainwork := slice 126 158 bs;
        sm_snapshot_sha256 := slice 158 190 bs |}.

Definition encode_journal (journal : JournalV1) : bytes :=
  let out := JOURNAL_MAGIC in
  let out := out ++ be_bytes 2 STORAGE_FORMAT_VERSION in
  let out := out ++ be_bytes 8 (jr_generation journal) in
  let out := out ++ be_bytes 8 (jr_previous_generation journal) in
  let out := out ++ jr_snapshot_sha256 journal in
  out ++ sha256 out.

Definition decode_journal (bs : bytes) : result string JournalV1 :=
  if negb (length bs =? JOURNAL_LEN)%nat then Err "storage journal length"%string else
  if negb (bytes_eqb (slice 0 8 bs) JOURNAL_MAGIC) then Err "storage journal magic mismatch"%string else
  let version := be_val (slice 8 10 bs) in
  if negb (version =? STORAGE_FORMAT_VERSION) then Err "unsupported storage journal version"%string else
  let expected := sha256 (take (JOURNAL_LEN - HASH_LEN) bs) in
  if negb (bytes_eqb expected (drop (JOURNAL_LEN - HASH_LEN) bs))
  then Err "storage journal checksum mismatch"%string else
  Ok {| jr_generation := be_val (slice 10 18 bs);
        jr_previous_generation := be_val (slice 18 26 bs);
        jr_snapshot_sha256 := slice 26 58 bs |}.

Definition encode_snapshot (generation : Z) (payload : bytes) : bytes :=
  let out := SNAPSHOT_MAGIC in
  let out := out ++ be_bytes 2 STORAGE_FORMAT_VERSION in
  let out := out ++ be_bytes 8 generation in
  let out := out ++ be_bytes 8 (Z.of_nat (length payload)) in
  let out := out ++ payload in
  out ++ sha256 out.

(** [usize] is 64 bits wide: [usize::try_from] of a [u64] succeeds. *)
Definition decode_snapshot (bs : bytes) (expected_generation : Z) : result string bytes :=
  if (length bs <? SNAPSHOT_HEADER_LEN + HASH_LEN)%nat then Err "storage snapshot truncated"%string else
  if negb (bytes_eqb (slice 0 8 bs) SNAPSHOT_MAGIC) then Err "storage snapshot magic mismatch"%string else
  let version := be_val (slice 8 10 bs) in
  if negb (version =? STORAGE_FORMAT_VERSION) then Err "unsupported storage snapshot version"%string else
  let generation := be_val (slice 10 18 bs) in
  if negb (generation =? expected_generation)
  then Err "storage snapshot generation mismatch"%string else
  let payload_len := be_val (slice 18 26 bs) in
  let? with_header := ok_or "storage snapshot length overflow"%string
                        (checked_add 64 (Z.of_nat SNAPSHOT_HEADER_LEN) payload_len) in
  let? expected_len := ok_or "storage snapshot length overflow"%string
                         (checked_add 64 with_header (Z.of_nat HASH_LEN)) in
  if negb (Z.of_nat (length bs) =? expected_len) then Err "storage snapshot length"%string else
  let checksum_offset := (Z.to_nat expected_len - HASH_LEN)%nat in
  let digest := sha256 (take checksum_offset bs) in
  if negb (bytes_eqb digest (drop checksum_offset bs))
  then Err "storage snapshot checksum mismatch"%string else
  Ok (slice SNAPSHOT_HEADER_LEN checksum_offset bs).

(** ** Reading *)

Definition read_meta_if_present : sio (option StorageMetaV1) :=
  io_look (fun d =>
    if negb (exists_file d MetaPath) then io_ret None else
    let! raw := read_file MetaPath in
    let! meta := io_of (decode_meta raw) in
    io_ret (Some meta)).

Definition verify_snapshot_for_meta (meta : StorageMetaV1) : sio bytes :=
  let! framed := read_file (SnapshotPath (sm_generation meta)) in
  if negb (bytes_eqb (sha256 framed) (sm_snapshot_sha256 meta))
  then io_fail "storage snapshot file hash does not match meta" else
  io_of (decode_snapshot framed (sm_generation meta)).

(** ** Recovery *)

(** The two arms of [recover] that roll back differ in the message only. *)
Definition roll_back (journal : JournalV1) (mismatch : string) : sio RecoveryAction :=
  let staged := SnapshotPath (jr_generation journal) in
  let! _ := io_look (fun d =>
    if exists_file d staged then
      let! framed := read_file staged in
      if negb (bytes_eqb (sha256 framed) (jr_snapshot_sha256 journal)) then io_fail mismatch
      else remove_synced staged
    else io_ret tt) in
  let! _ := remove_synced JournalPath in
  io_ret RolledBackPrepared.

Definition finalize (journal : JournalV1) (m : StorageMetaV1) : sio RecoveryAction :=
  if negb (bytes_eqb (sm_snapshot_sha256 m) (jr_snapshot_sha256 journal))
  then io_fail "committed storage meta and journal snapshot hashes disagree" else
  let! _ := verify_snapshot_for_meta m in
  let! _ := remove_synced JournalPath in
  io_ret FinalizedCommitted.

Definition recover : sio RecoveryAction :=
  let! _ := touch in
  let! _ := touch in
  io_look (fun d =>
    if negb (exists_file d JournalPath) then io_ret RecoveryNone else
    let! raw := read_file JournalPath in
    let! journal := io_of (decode_journal raw) in
    let! meta := read_meta_if_present in
    match meta with
    | Some m =>
        if sm_generation m =? jr_generation journal then finalize journal m
        else if sm_generation m =? jr_previous_generation journal
        then roll_back journal "prepared snapshot hash mismatch during rollback"
        else io_fail "storage journal/meta generation conflict"
    | None =>
        if jr_previous_generation journal =? 0
        then roll_back journal "initial prepared snapshot hash mismatch during rollback"
        else io_fail "storage journal references a previous generation but meta is missing"
    end).

(** ** Loading *)

Definition load_snapshot : sio (option LoadedSnapshot) :=
  let! recovery := recover in
  let! meta := read_meta_if_present in
  match meta with
  | None => io_ret None
  | Some meta =>
      let! bs := verify_snapshot_for_meta meta in
      io_ret (Some {| ls_bytes := bs; ls_meta := meta; ls_recovery := recovery |})
  end.

Definition load_snapshot_for_network (network_id : Z) (genesis_id : option bytes32)
    (validate_recovery : bytes -> StorageMetaV1 -> result string unit) : sio (option LoadedSnapshot) :=
  let! meta := read_meta_if_present in
  let! _ := match meta with
    | Some meta =>
        if negb (sm_network_id meta =? network_id)
           || match genesis_id with Some id => negb (bytes_eqb id (sm_genesis_id meta)) | None => false end
        then io_fail "selected runtime does not match storage identity before recovery" else
        io_look (fun d =>
          if exists_file d JournalPath then
            let! bs := verify_snapshot_for_meta meta in
            io_of (validate_recovery bs meta)
          else io_ret tt)
    | None =>
        io_look (fun d =>
          if match genesis_id with Some _ => true | None => false end
             && (exists_file d JournalPath || exists_file d ArchivedLegacy || exists_file d LegacyRoot)
          then io_fail "cannot authenticate selected storage network before recovery or migration"
          else io_ret tt)
    end in
  load_snapshot.

Definition load_snapshot_read_only : sio (option LoadedSnapshot) :=
  io_look (fun d =>
    if exists_file d JournalPath
    then io_fail "bootstrap-mainnet requires clean storage without a pending journal" else
    let! meta := read_meta_if_present in
    match meta with
    | None => io_ret None
    | Some meta =>
        let! bs := verify_snapshot_for_meta meta in
        io_ret (Some {| ls_bytes := bs; ls_meta := meta; ls_recovery := RecoveryNone |})
    end).

Definition inspect_meta : sio (option StorageMetaV1) :=
  io_look (fun d =>
    if exists_file d JournalPath then io_fail "storage recovery is pending"
    else read_meta_if_present).

(** ** Committing *)

(** The generations that the directory listing finds. *)
Definition listed_generation (p : path) : option Z :=
  match p with SnapshotPath g => Some g | _ => None end.
Definition snapshot_generations (d : files) : list Z :=
  omap listed_generation (map fst (map_to_list d)).

(** The [for] loop of [prune_old_snapshots]. *)
Fixpoint remove_old (generations : list Z) (current_generation : Z) : sio unit :=
  match generations with
  | [] => io_ret tt
  | generation :: generations =>
      let! _ := if negb (generation =? current_generation)
                then remove_synced (SnapshotPath generation) else io_ret tt in
      remove_old generations current_generation
  end.

Definition prune_old_snapshots (current_generation : Z) : sio unit :=
  let! _ := touch in
  io_look (fun d =>
    let generations := merge_sort Z.le (snapshot_generations d) in
    let keep_from := (length generations - RETAIN_GENERATIONS)%nat in
    remove_old (take keep_from generations) current_generation).

Definition commit_snapshot (payload : bytes) (identity : SnapshotIdentity) : sio StorageMetaV1 :=
  let! _ := recover in
  let! _ := touch in
  let! previous := read_meta_if_present in
  let previous_generation := match previous with Some m => sm_generation m | None => 0 end in
  let! generation := io_of (ok_or "storage generation overflow"%string
                              (checked_add 64 previous_generation 1)) in
  let framed := encode_snapshot generation payload in
  let snapshot_sha256 := sha256 framed in
  let journal := {| jr_generation := generation; jr_previous_generation := previous_generation;
                    jr_snapshot_sha256 := snapshot_sha256 |} in
  let! _ := maybe_crash "before-journal" in
  let! _ := write_synced JournalTmp (encode_journal journal) in
  let! _ := replace_synced JournalTmp JournalPath in
  let! _ := maybe_crash "journal" in
  let snapshot := SnapshotPath generation in
  let snapshot_tmp := SnapshotTmp generation in
  let! _ := write_synced snapshot_tmp framed in
  let! _ := maybe_crash "snapshot-tmp" in
  let! _ := replace_synced snapshot_tmp snapshot in
  let! _ := maybe_crash "snapshot" in
  let meta := {| sm_network_id := si_network_id identity; sm_genesis_id := si_genesis_id identity;
                 sm_generation := generation; sm_height := si_height identity;
                 sm_tip_hash := si_tip_hash identity; sm_state_root := si_state_root identity;
                 sm_chainwork := si_chainwork identity; sm_snapshot_sha256 := snapshot_sha256 |} in
  let! _ := write_synced MetaTmp (encode_meta meta) in
  let! _ := maybe_crash "meta-tmp" in
  let! _ := replace_synced MetaTmp MetaPath in
  let! _ := maybe_crash "meta" in
  let! _ := maybe_crash "before-finalize" in
  let! _ := remove_synced JournalPath in
  let! _ := maybe_crash "finalize" in
  let! _ := prune_old_snapshots generation in
  let! _ := maybe_crash "prune" in
  io_ret meta.

Definition prepare_legacy_migration : sio (option path) :=
  let! _ := touch in
  io_look (fun d =>
    match exists_file d LegacyRoot, exists_file d ArchivedLegacy with
    | false, false => io_ret None
    | false, true => io_ret (Some ArchivedLegacy)
    | true, false =>
        let! _ := rename_file LegacyRoot ArchivedLegacy in
        let! _ := touch in
        let! _ := touch in
        io_ret (Some ArchivedLegacy)
    | true, true =>
        io_fail "both root legacy state.json and staged Build 5.9 migration source exist; refusing ambiguous migration"
    end).
End storage.

(** ** The formats are canonical *)

Lemma slice_app_left {A} i j (a b : list A) :
  (j <= length a)%nat -> slice i j (a ++ b) = slice i j a.
Proof.
  intros. unfold slice. destruct (decide (i <= length a)%nat).
  - rewrite drop_app_le by lia. apply take_app_le. rewrite length_drop. lia.
  - replace (j - i)%nat with 0%nat by lia. by rewrite !take_0.
Qed.

(** The fields of a layout, cut out one after the other. *)
Ltac layout :=
  repeat first
    [ rewrite slice_app_here by len
    | erewrite slice_app_skip; [|solve [apply length_be_bytes|eassumption|done]|lia]; cbn [Nat.sub] ].

(** The ranges of fields that were cut out of a byte string. *)
Ltac slice_fields :=
  repeat first
    [ match goal with |- length (slice _ _ _) = _ => rewrite length_slice; lia end
    | match goal with |- 0 <= be_val (slice ?i ?j _) < 2 ^ ?w =>
        apply (be_val_range (j - i)); rewrite length_slice; lia end
    | split ].

Section formats.
Context {SHA : Sha2}.

(** A frame is a body followed by its hash. *)
Definition frame (body : bytes) : bytes := body ++ sha256 body.

Lemma length_frame body : length (frame body) = (length body + 32)%nat.
Proof. unfold frame. by rewrite length_app, sha256_length. Qed.

Lemma frame_parts n bs :
  (n <= length bs)%nat -> bytes_eqb (sha256 (take n bs)) (drop n bs) = true <-> bs = frame (take n bs).
Proof.
  intros Hn. rewrite bytes_eqb_eq. unfold frame. split; intros H.
  - by rewrite H, take_drop.
  - assert (drop n bs = drop n (take n bs ++ sha256 (take n bs))) as -> by (by rewrite <- H).
    rewrite drop_app_exact; [done|rewrite length_take; lia].
Qed.

Lemma frame_split n body : length body = n -> take n (frame body) = body /\ drop n (frame body) = sha256 body.
Proof. intros Hl. unfold frame. by rewrite take_app_exact, drop_app_exact. Qed.

Definition meta_wf (m : StorageMetaV1) : Prop :=
  is_u32 (sm_network_id m) /\ is32 (sm_genesis_id m) /\ is_u64 (sm_generation m) /\
  is_u64 (sm_height m) /\ is32 (sm_tip_hash m) /\ is32 (sm_state_root m) /\
  is32 (sm_chainwork m) /\ is32 (sm_snapshot_sha256 m).

Definition meta_body (m : StorageMetaV1) : bytes :=
  META_MAGIC ++ be_bytes 2 STORAGE_FORMAT_VERSION ++ be_bytes 4 (sm_network_id m) ++ sm_genesis_id m
  ++ be_bytes 8 (sm_generation m) ++ be_bytes 8 (sm_height m) ++ sm_tip_hash m ++ sm_state_root m
  ++ sm_chainwork m ++ sm_snapshot_sha256 m.

Lemma encode_meta_eq m : encode_meta m = frame (meta_body m).
Proof. unfold encode_meta, frame, meta_body. by rewrite <- !app_assoc. Qed.

Lemma length_META_MAGIC : length META_MAGIC = 8%nat.
Proof. done. Qed.

Lemma length_meta_body m : meta_wf m -> length (meta_body m) = 190%nat.
Proof.
  intros (? & ? & ? & ? & ? & ? & ? & ?). unfold meta_body.
  rewrite !length_app, !length_be_bytes, length_META_MAGIC. lia.
Qed.

Lemma decode_encode_meta m : meta_wf m -> decode_meta (encode_meta m) = Ok m.
Proof.
  intros Hw. pose proof (length_meta_body m Hw) as Hl. rewrite encode_meta_eq.
  destruct (frame_split _ _ Hl) as [Ht Hd].
  unfold decode_meta. change (META_LEN - HASH_LEN)%nat with 190%nat.
  rewrite length_frame, Hl, Ht, Hd, bytes_eqb_refl. cbn [Nat.add Nat.eqb META_LEN negb].
  unfold frame. rewrite !slice_app_left by (rewrite Hl; lia).
  destruct Hw as (? & ? & ? & ? & ? & ? & ? & ?). pose proof length_META_MAGIC.
  unfold meta_body. layout.
  rewrite bytes_eqb_refl. rewrite !be_val_be_bytes by done. rewrite slice_whole by done. by destruct m.
Qed.

Lemma decode_meta_ok bs m : decode_meta bs = Ok m -> meta_wf m /\ bs = encode_meta m.
Proof.
  unfold decode_meta, META_LEN, HASH_LEN. intros H.
  repeat match type of H with (if negb ?b then _ else _) = _ => destruct b eqn:?; cbn [negb] in H; [|done] end.
  apply Ok_inj in H. subst m. bool_to_prop.
  match goal with E : sha256 _ = drop _ _ |- _ =>
    apply bytes_eqb_eq, frame_parts in E; [|lia]; rename E into Hf end.
  assert (length (take 190 bs) = 190%nat) as Hlt by (rewrite length_take; lia).
  split.
  { unfold meta_wf. cbn [sm_network_id sm_genesis_id sm_generation sm_height sm_tip_hash sm_state_root
      sm_chainwork sm_snapshot_sha256]. slice_fields. }
  rewrite encode_meta_eq. unfold meta_body. cbn [sm_network_id sm_genesis_id sm_generation sm_height
    sm_tip_hash sm_state_root sm_chainwork sm_snapshot_sha256].
  rewrite !be_bytes_be_val by (rewrite length_slice; lia).
  match goal with E : be_val (slice 8 10 bs) = _ |- _ => rewrite <- E end.
  match goal with E : slice 0 8 bs = META_MAGIC |- _ => rewrite <- E end.
  rewrite be_bytes_be_val by (rewrite length_slice; lia).
  rewrite !slice_take_drop by lia. rewrite Hf at 1. f_equal.
Qed.

Definition journal_wf (j : JournalV1) : Prop :=
  is_u64 (jr_generation j) /\ is_u64 (jr_previous_generation j) /\ is32 (jr_snapshot_sha256 j).

Definition journal_body (j : JournalV1) : bytes :=
  JOURNAL_MAGIC ++ be_bytes 2 STORAGE_FORMAT_VERSION ++ be_bytes 8 (jr_generation j)
  ++ be_bytes 8 (jr_previous_generation j) ++ jr_snapshot_sha256 j.

Lemma encode_journal_eq j : encode_journal j = frame (journal_body j).
Proof. unfold encode_journal, frame, journal_body. by rewrite <- !app_assoc. Qed.

Lemma length_JOURNAL_MAGIC : length JOURNAL_MAGIC = 8%nat.
Proof. done. Qed.

Lemma decode_encode_journal j : journal_wf j -> decode_journal (encode_journal j) = Ok j.
Proof.
  intros (? & ? & ?). rewrite encode_journal_eq. pose proof length_JOURNAL_MAGIC.
  assert (length (journal_body j) = 58%nat) as Hl
    by (unfold journal_body; rewrite !length_app, !length_be_bytes; lia).
  destruct (frame_split _ _ Hl) as [Ht Hd].
  unfold decode_journal. change (JOURNAL_LEN - HASH_LEN)%nat with 58%nat.
  rewrite length_frame, Hl, Ht, Hd, bytes_eqb_refl. cbn [Nat.add Nat.eqb JOURNAL_LEN negb].
  unfold frame. rewrite !slice_app_left by (rewrite Hl; lia). unfold journal_body. layout.
  rewrite bytes_eqb_refl. rewrite !be_val_be_bytes by done. rewrite slice_whole by done. by destruct j.
Qed.

Lemma decode_journal_ok bs j : decode_journal bs = Ok j -> journal_wf j /\ bs = encode_journal j.
Proof.
  unfold decode_journal, JOURNAL_LEN, HASH_LEN. intros H.
  repeat match type of H with (if negb ?b then _ else _) = _ => destruct b eqn:?; cbn [negb] in H; [|done] end.
  apply Ok_inj in H. subst j. bool_to_prop.
  match goal with E : sha256 _ = drop _ _ |- _ =>
    apply bytes_eqb_eq, frame_parts in E; [|lia]; rename E into Hf end.
  split.
  { unfold journal_wf. cbn [jr_generation jr_previous_generation jr_snapshot_sha256]. slice_fields. }
  rewrite encode_journal_eq. unfold journal_body. cbn [jr_generation jr_previous_generation jr_snapshot_sha256].
  rewrite !be_bytes_be_val by (rewrite length_slice; lia).
  match goal with E : be_val (slice 8 10 bs) = _ |- _ => rewrite <- E end.
  match goal with E : slice 0 8 bs = JOURNAL_MAGIC |- _ => rewrite <- E end.
  rewrite be_bytes_be_val by (rewrite length_slice; lia).
  rewrite !slice_take_drop by lia. rewrite Hf at 1. f_equal.
Qed.

Definition snapshot_body (g : Z) (payload : bytes) : bytes :=
  SNAPSHOT_MAGIC ++ be_bytes 2 STORAGE_FORMAT_VERSION ++ be_bytes 8 g
  ++ be_bytes 8 (Z.of_nat (length payload)) ++ payload.

Lemma encode_snapshot_eq g payload : encode_snapshot g payload = frame (snapshot_body g payload).
Proof. unfold encode_snapshot, frame, snapshot_body. by rewrite <- !app_assoc. Qed.

(** A vector holds at most [isize::MAX] bytes. *)
Definition vec_len_ok (bs : bytes) : Prop := Z.of_nat (length bs) < 2 ^ 63.

Lemma length_SNAPSHOT_MAGIC : length SNAPSHOT_MAGIC = 8%nat.
Proof. done. Qed.

Lemma decode_encode_snapshot g payload :
  is_u64 g -> vec_len_ok payload -> decode_snapshot (encode_snapshot g payload) g = Ok payload.
Proof.
  unfold vec_len_ok. intros Hg Hp. rewrite encode_snapshot_eq. pose proof length_SNAPSHOT_MAGIC.
  assert (length (snapshot_body g payload) = 26 + length payload)%nat as Hl
    by (unfold snapshot_body; rewrite !length_app, !length_be_bytes; lia).
  destruct (frame_split _ _ Hl) as [Ht Hd].
  assert (forall i j, (j <= 26 + length payload)%nat ->
    slice i j (frame (snapshot_body g payload)) = slice i j (snapshot_body g payload)) as Hs
    by (intros; unfold frame; apply slice_app_left; lia).
  unfold decode_snapshot, SNAPSHOT_HEADER_LEN, HASH_LEN.
  rewrite !length_frame, Hl, !(Hs _ 8%nat), !(Hs _ 10%nat), !(Hs _ 18%nat), !(Hs _ 26%nat) by lia.
  destruct (Nat.ltb_spec (26 + length payload + 32) (26 + 32)); [lia|].
  unfold snapshot_body at 1 2 3 4. layout. rewrite bytes_eqb_refl, !be_val_be_bytes by (done || lia).
  rewrite Z.eqb_refl, (Z.eqb_refl g). cbn [negb].
  unfold checked_add. destruct (Z.ltb_spec (Z.of_nat 26 + Z.of_nat (length payload)) (2 ^ 64)); [|lia].
  cbn [ok_or]. destruct (Z.ltb_spec (Z.of_nat 26 + Z.of_nat (length payload) + Z.of_nat 32) (2 ^ 64)); [|lia].
  cbn [ok_or]. destruct (Z.eqb_spec (Z.of_nat (26 + length payload + 32))
    (Z.of_nat 26 + Z.of_nat (length payload) + Z.of_nat 32)); [|lia].
  cbn [negb]. replace (Z.to_nat (Z.of_nat 26 + Z.of_nat (length payload) + Z.of_nat 32) - 32)%nat
    with (26 + length payload)%nat by lia.
  rewrite Ht, Hd, bytes_eqb_refl, Hs by lia. cbn [negb]. f_equal.
  unfold snapshot_body. layout.
  replace (26 + length payload - 8 - 2 - 8 - 8)%nat with (length payload) by lia. apply slice_full.
Qed.

(** The two fixed-size formats of the storage are canonical: a metadata or
    journal file is accepted exactly when it is the encoding of what it decodes
    to (length, magic, version and checksum match), and a snapshot written for a
    generation reads back as its payload. *)
Theorem storage_formats_canonical :
  (forall bs m, decode_meta bs = Ok m <-> meta_wf m /\ bs = encode_meta m) /\
  (forall bs j, decode_journal bs = Ok j <-> journal_wf j /\ bs = encode_journal j) /\
  (forall g payload, is_u64 g -> vec_len_ok payload ->
     decode_snapshot (encode_snapshot g payload) g = Ok payload).
Proof.
  split_and!.
  - split; [apply decode_meta_ok|intros [? ->]; by apply decode_encode_meta].
  - split; [apply decode_journal_ok|intros [? ->]; by apply decode_encode_journal].
  - apply decode_encode_snapshot.
Qed.
End formats.

(** ** Crash safety

    [stored s d]: the metadata names generation [s] and its snapshot is whole.
    A disk is [recoverable] when it is clean, or a journal announces the next
    generation whose metadata is not in place yet ([prepared]), or the journal
    of the current generation has not been removed ([committed]). *)

Section crash.
Context {SHA : Sha2}.

Abbreviation generation_state := (option (StorageMetaV1 * bytes)).

Definition gen_of (s : generation_state) : Z :=
  match s with Some (m, _) => sm_generation m | None => 0 end.

Definition stored (s : generation_state) (d : files) : Prop :=
  match s with
  | None => d !! MetaPath = None
  | Some (m, payload) =>
      meta_wf m /\ vec_len_ok payload /\ d !! MetaPath = Some (encode_meta m) /\
      d !! SnapshotPath (sm_generation m) = Some (encode_snapshot (sm_generation m) payload) /\
      sm_snapshot_sha256 m = sha256 (encode_snapshot (sm_generation m) payload)
  end.

(** No snapshot of a later generation but the one the journal announces. *)
Definition snapshots_upto (g : Z) (announced : option bytes32) (d : files) : Prop :=
  forall g' bs, d !! SnapshotPath g' = Some bs ->
    g' <= g \/ (g' = g + 1 /\ announced = Some (sha256 bs)).

Definition clean (s : generation_state) (d : files) : Prop :=
  stored s d /\ d !! JournalPath = None /\ snapshots_upto (gen_of s) None d.

Definition next_journal (s : generation_state) (h : bytes32) : JournalV1 :=
  {| jr_generation := gen_of s + 1; jr_previous_generation := gen_of s; jr_snapshot_sha256 := h |}.

Definition prepared (s : generation_state) (h : bytes32) (d : files) : Prop :=
  stored s d /\ is32 h /\ is_u64 (gen_of s) /\ gen_of s + 1 < 2 ^ 64 /\
  d !! JournalPath = Some (encode_journal (next_journal s h)) /\ snapshots_upto (gen_of s) (Some h) d.

Definition committed (s : generation_state) (d : files) : Prop :=
  exists m payload previous, s = Some (m, payload) /\ stored s d /\ is_u64 previous /\
    d !! JournalPath = Some (encode_journal {| jr_generation := sm_generation m;
      jr_previous_generation := previous; jr_snapshot_sha256 := sm_snapshot_sha256 m |}) /\
    snapshots_upto (sm_generation m) None d.

Definition recoverable (s : generation_state) (d : files) : Prop :=
  clean s d \/ (exists h, prepared s h d) \/ committed s d.

(** What recovery looks at. *)
Definition relevant (p : path) : bool :=
  match p with MetaPath | JournalPath | SnapshotPath _ => true | _ => false end.

Definition agree (d d' : files) : Prop := forall p, relevant p = true -> d' !! p = d !! p.

Lemma agree_insert d p c : relevant p = false -> agree d (<[p := c]> d).
Proof. intros Hp q Hq. rewrite lookup_insert_ne; [done|]. by intros ->; rewrite Hp in Hq. Qed.
Lemma agree_put d p c : relevant p = false -> agree d (put p c d).
Proof. intros Hp q Hq. apply put_lookup_ne. by intros ->; rewrite Hp in Hq. Qed.
Lemma agree_delete d p : relevant p = false -> agree d (delete p d).
Proof. intros Hp q Hq. rewrite lookup_delete_ne; [done|]. by intros ->; rewrite Hp in Hq. Qed.

Lemma stored_agree s d d' : agree d d' -> stored s d -> stored s d'.
Proof. intros Ha. unfold stored. destruct s as [[m p]|]; by rewrite ?(Ha MetaPath), ?(Ha (SnapshotPath _)). Qed.

Lemma snapshots_agree g a d d' : agree d d' -> snapshots_upto g a d -> snapshots_upto g a d'.
Proof. intros Ha Hs g' bs. rewrite Ha by done. apply Hs. Qed.

Lemma clean_agree s d d' : agree d d' -> clean s d -> clean s d'.
Proof.
  intros Ha (? & ? & ?). split_and!; [by eapply stored_agree| |by eapply snapshots_agree].
  by rewrite Ha.
Qed.

Lemma prepared_agree s h d d' : agree d d' -> prepared s h d -> prepared s h d'.
Proof.
  intros Ha (? & ? & [? ?] & ? & ? & ?). unfold prepared. split_and!; try done;
    [by eapply stored_agree|by rewrite Ha|by eapply snapshots_agree].
Qed.

(** The moves between the three kinds of disks. *)
Lemma clean_announce s h d :
  clean s d -> is32 h -> is_u64 (gen_of s) -> gen_of s + 1 < 2 ^ 64 ->
  prepared s h (<[JournalPath := encode_journal (next_journal s h)]> d).
Proof.
  intros (Hs & Hj & Hu) ? [? ?] ?. unfold prepared. split_and!; try done.
  - destruct s as [[m p]|]; cbn [stored] in *; by rewrite !lookup_insert_ne.
  - by rewrite lookup_insert_eq.
  - intros g bs. rewrite lookup_insert_ne by done. intros [?|[_ ?]]%Hu; [by left|done].
Qed.

Lemma stored_snapshot_other s d g bs :
  g <> gen_of s -> stored s d -> stored s (<[SnapshotPath g := bs]> d).
Proof.
  destruct s as [[m p]|]; cbn [stored gen_of]; intros Hg; [|by rewrite lookup_insert_ne].
  rewrite !lookup_insert_ne by congruence. done.
Qed.

Lemma stored_delete_other s d g :
  (s <> None -> g <> gen_of s) -> stored s d -> stored s (delete (SnapshotPath g) d).
Proof.
  destruct s as [[m p]|]; cbn [stored gen_of]; intros Hg; [|by rewrite lookup_delete_ne].
  assert (g <> sm_generation m) by (by apply Hg). rewrite !lookup_delete_ne by congruence. done.
Qed.

Lemma prepared_stage s bs d :
  prepared s (sha256 bs) d -> prepared s (sha256 bs) (<[SnapshotPath (gen_of s + 1) := bs]> d).
Proof.
  intros (Hs & ? & [? ?] & ? & Hj & Hu). unfold prepared. split_and!; try done.
  - apply stored_snapshot_other; [lia|done].
  - by rewrite lookup_insert_ne.
  - intros g b. destruct (decide (g = gen_of s + 1)) as [->|].
    + rewrite lookup_insert_eq. intros [= ->]. by right.
    + rewrite lookup_insert_ne by congruence. apply Hu.
Qed.

Lemma prepared_unstage s h d g :
  g = gen_of s + 1 -> prepared s h d -> prepared s h (delete (SnapshotPath g) d).
Proof.
  intros -> (Hs & ? & [? ?] & ? & Hj & Hu). unfold prepared. split_and!; try done.
  - apply stored_delete_other; [lia|done].
  - by rewrite lookup_delete_ne.
  - intros g' b. rewrite lookup_delete_Some. intros [? ?]. by apply Hu.
Qed.

Lemma prepared_forget s h d :
  prepared s h d -> d !! SnapshotPath (gen_of s + 1) = None -> clean s (delete JournalPath d).
Proof.
  intros (Hs & ? & ? & ? & Hj & Hu) Hn. unfold clean. split_and!.
  - destruct s as [[m p]|]; cbn [stored] in *; by rewrite !lookup_delete_ne.
  - by rewrite lookup_delete_eq.
  - intros g b. rewrite lookup_delete_ne by done. intros Hg. destruct (Hu g b Hg) as [|[-> _]]; [by left|].
    congruence.
Qed.

Lemma committed_forget s d : committed s d -> clean s (delete JournalPath d).
Proof.
  intros (m & p & prev & -> & Hs & Hp & Hj & Hu). unfold clean. split_and!.
  - cbn [stored] in *. by rewrite !lookup_delete_ne.
  - by rewrite lookup_delete_eq.
  - intros g b. rewrite lookup_delete_ne by done. apply Hu.
Qed.

(** The metadata of the announced generation makes it the current one. *)
Lemma prepared_commit s d m payload :
  prepared s (sm_snapshot_sha256 m) d -> meta_wf m -> vec_len_ok payload ->
  sm_generation m = gen_of s + 1 ->
  sm_snapshot_sha256 m = sha256 (encode_snapshot (sm_generation m) payload) ->
  d !! SnapshotPath (sm_generation m) = Some (encode_snapshot (sm_generation m) payload) ->
  committed (Some (m, payload)) (<[MetaPath := encode_meta m]> d).
Proof.
  intros (Hs & ? & [? ?] & ? & Hj & Hu) Hw Hp Hg Hh Hsn. exists m, payload, (gen_of s). split_and!; try done.
  - cbn [stored]. rewrite lookup_insert_eq, lookup_insert_ne by done. by split_and!.
  - rewrite lookup_insert_ne by done. rewrite Hj. unfold next_journal. by rewrite Hg.
  - intros g b. rewrite lookup_insert_ne by done. intros [?|[-> _]]%Hu; left; lia.
Qed.

Lemma clean_prune s d g :
  (s <> None -> g <> gen_of s) -> clean s d -> clean s (delete (SnapshotPath g) d).
Proof.
  intros Hg (Hs & Hj & Hu). unfold clean. split_and!; [by apply stored_delete_other| |].
  - by rewrite lookup_delete_ne.
  - intros g' b. rewrite lookup_delete_Some. intros [? ?]. by apply Hu.
Qed.

(** *** Weakest preconditions of the operations *)

Lemma wp_write_synced p bs (Q : ending unit -> files -> Prop) d :
  (forall e, stopped e -> Q e d) -> (forall c e, stopped e -> Q e (put p c d)) ->
  Q (Returns (Ok tt)) (<[p := bs]> d) -> wp (write_synced p bs) Q d.
Proof.
  intros Hd Hc Ho. apply wp_bind, wp_touch. intros [[[]|e]|]; cbn [and_then]; [|by apply Hd..].
  by apply wp_write.
Qed.

Lemma wp_replace_synced a b c (Q : ending unit -> files -> Prop) d :
  d !! a = Some c -> (forall e, stopped e -> Q e d) -> (forall e, Q e (<[b := c]> (delete a d))) ->
  wp (replace_synced a b) Q d.
Proof.
  intros E Hd Ho. apply wp_bind. eapply wp_rename; [done|by apply and_then_stopped|].
  intros [[[]|e]|]; cbn [and_then]; [by apply wp_touch|apply Ho..].
Qed.

Lemma wp_remove_synced p (Q : ending unit -> files -> Prop) d :
  (forall e, stopped e -> Q e d) -> (forall e, Q e (delete p d)) -> wp (remove_synced p) Q d.
Proof.
  intros Hd Ho. apply wp_bind, wp_look. unfold exists_file. case_bool_decide as Hp.
  - apply wp_remove; [by apply and_then_stopped|]. intros [[[]|e]|]; cbn [and_then]; [by apply wp_touch|apply Ho..].
  - apply wp_ret. cbn [and_then]. apply wp_touch. apply eq_None_not_Some in Hp. by rewrite delete_id in Ho.
Qed.

Lemma wp_maybe_crash phase (Q : ending unit -> files -> Prop) d :
  (forall e, Q e d) -> wp (maybe_crash phase) Q d.
Proof. intros Hq fs. unfold maybe_crash. destruct (next_fault fs) as [[] ?]; apply Hq. Qed.

Lemma exists_file_true (d : files) p c : d !! p = Some c -> exists_file d p = true.
Proof. intros E. unfold exists_file. rewrite bool_decide_eq_true. by eexists. Qed.
Lemma exists_file_false (d : files) p : d !! p = None -> exists_file d p = false.
Proof. intros E. unfold exists_file. rewrite bool_decide_eq_false. rewrite E. by intros []. Qed.

Lemma wp_read_meta s (Q : ending (option StorageMetaV1) -> files -> Prop) d :
  stored s d -> (forall e, stopped e -> Q e d) -> Q (Returns (Ok (fst <$> s))) d ->
  wp read_meta_if_present Q d.
Proof.
  intros Hs Hd Ho. apply wp_look. destruct s as [[m p]|]; cbn [stored] in Hs.
  - destruct Hs as (Hw & _ & Hm & _). rewrite (exists_file_true _ _ _ Hm). cbn [negb].
    apply wp_bind, wp_read; [by apply and_then_stopped|]. intros bs. rewrite Hm. intros <-%Some_inj.
    cbn [and_then]. apply wp_bind, wp_of. rewrite decode_encode_meta by done. by apply wp_ret.
  - rewrite exists_file_false by done. by apply wp_ret.
Qed.

Lemma wp_verify m p (Q : ending bytes -> files -> Prop) d :
  stored (Some (m, p)) d -> (forall e, stopped e -> Q e d) -> Q (Returns (Ok p)) d ->
  wp (verify_snapshot_for_meta m) Q d.
Proof.
  intros ((? & ? & ? & ?) & Hp & Hm & Hsn & Hh) Hd Ho.
  apply wp_bind, wp_read; [by apply and_then_stopped|]. intros bs. rewrite Hsn. intros <-%Some_inj.
  cbn [and_then]. rewrite Hh, bytes_eqb_refl. cbn [negb]. apply wp_of. by rewrite decode_encode_snapshot.
Qed.

Lemma next_journal_wf s h : is32 h -> is_u64 (gen_of s) -> gen_of s + 1 < 2 ^ 64 -> journal_wf (next_journal s h).
Proof. intros ? [? ?] ?. unfold journal_wf. cbn. split_and!; lia. Qed.

(** Rolling back what the journal announced. *)
Lemma wp_roll_back s h msg (Q : ending RecoveryAction -> files -> Prop) d :
  prepared s h d -> (forall e d', prepared s h d' -> stopped e -> Q e d') ->
  (forall e d', clean s d' -> Q e d') -> wp (roll_back (next_journal s h) msg) Q d.
Proof.
  intros Hp Hd Hc. unfold roll_back. cbn [next_journal jr_generation jr_snapshot_sha256].
  assert (forall d', prepared s h d' -> d' !! SnapshotPath (gen_of s + 1) = None ->
    wp (let! _ := remove_synced JournalPath in io_ret RolledBackPrepared) Q d') as Hrest.
  { intros d' Hd' Hn. apply wp_bind, wp_remove_synced.
    - apply and_then_stopped. intros e He. by apply Hd.
    - pose proof (prepared_forget _ _ _ Hd' Hn) as Hcl.
      intros [[[]|e]|]; cbn [and_then]; [apply wp_ret; by apply Hc|by apply Hc..]. }
  apply wp_bind, wp_look. destruct (d !! SnapshotPath (gen_of s + 1)) as [bs|] eqn:E.
  - rewrite (exists_file_true _ _ _ E). apply wp_bind, wp_read.
    { intros e He. apply and_then_stopped; [|done]. apply and_then_stopped. intros; by apply Hd. }
    intros bs'. rewrite E. intros <-%Some_inj. cbn [and_then].
    destruct (bytes_eqb (sha256 bs) h); cbn [negb]; [|apply wp_fail; cbn; by apply Hd].
    pose proof (prepared_unstage _ _ _ _ eq_refl Hp) as Hp'. apply wp_remove_synced.
    + apply and_then_stopped. intros; by apply Hd.
    + intros [[[]|e]|]; cbn [and_then]; [|by apply Hd..]. apply Hrest; [done|]. apply lookup_delete_eq.
  - rewrite exists_file_false by done. apply wp_ret. cbn [and_then]. by apply Hrest.
Qed.

Lemma wp_finalize m p prev (Q : ending RecoveryAction -> files -> Prop) d :
  committed (Some (m, p)) d -> (forall e d', committed (Some (m, p)) d' -> stopped e -> Q e d') ->
  (forall e d', clean (Some (m, p)) d' -> Q e d') ->
  wp (finalize {| jr_generation := sm_generation m; jr_previous_generation := prev;
                  jr_snapshot_sha256 := sm_snapshot_sha256 m |} m) Q d.
Proof.
  intros Hm Hd Hc. unfold finalize. cbn [jr_snapshot_sha256]. rewrite bytes_eqb_refl. cbn [negb].
  assert (stored (Some (m, p)) d) as Hs by (destruct Hm as (? & ? & ? & [= <- <-] & ? & _); done).
  apply wp_bind. apply (wp_verify m p); [done|apply and_then_stopped; intros; by apply Hd|].
  cbn [and_then]. apply wp_bind, wp_remove_synced; [apply and_then_stopped; intros; by apply Hd|].
  pose proof (committed_forget _ _ Hm) as Hcl.
  intros [[[]|e]|]; cbn [and_then]; [apply wp_ret; by apply Hc|by apply Hc..].
Qed.

(** Recovery keeps the disk recoverable whatever happens and cleans it when it
    returns. *)
Lemma wp_recover s (Q : ending RecoveryAction -> files -> Prop) d :
  recoverable s d -> (forall e d', recoverable s d' -> stopped e -> Q e d') ->
  (forall a d', clean s d' -> Q (Returns (Ok a)) d') -> wp recover Q d.
Proof.
  intros Hr Hd Hc. unfold recover.
  apply wp_bind, wp_touch. intros [[[]|e]|]; cbn [and_then]; [|by apply Hd..].
  apply wp_bind, wp_touch. intros [[[]|e]|]; cbn [and_then]; [|by apply Hd..].
  assert (forall e d', clean s d' -> Q e d') as Hc'.
  { intros [[a|e]|] d' Hcl; [by apply Hc|apply Hd; [by left|done]..]. }
  apply wp_look. destruct Hr as [Hcl|[[h Hp]|Hm]].
  - rewrite exists_file_false by apply Hcl. apply wp_ret. by apply Hc.
  - assert (forall e d', prepared s h d' -> stopped e -> Q e d') as Hd'
      by (intros; apply Hd; [right; left; by exists h|done]).
    pose proof Hp as (Hs & Hh & Hg & Hg1 & Hj & _). rewrite (exists_file_true _ _ _ Hj). cbn [negb].
    apply wp_bind, wp_read; [apply and_then_stopped; intros; by apply Hd'|].
    intros bs. rewrite Hj. intros <-%Some_inj. cbn [and_then]. apply wp_bind, wp_of.
    rewrite decode_encode_journal by (by apply next_journal_wf). cbn [and_then].
    apply wp_bind. apply (wp_read_meta s); [done|apply and_then_stopped; intros; by apply Hd'|].
    destruct s as [[m p]|]; cbn [and_then fmap option_fmap option_map fst].
    + cbn [next_journal gen_of jr_generation jr_previous_generation].
      destruct (Z.eqb_spec (sm_generation m) (sm_generation m + 1)); [lia|]. rewrite Z.eqb_refl.
      by apply (wp_roll_back (Some (m, p))).
    + by apply (wp_roll_back None).
  - assert (forall e d', committed s d' -> stopped e -> Q e d') as Hd'
      by (intros; apply Hd; [by right; right|done]).
    pose proof Hm as (m & p & prev & -> & Hs & Hp & Hj & _).
    rewrite (exists_file_true _ _ _ Hj). cbn [negb].
    apply wp_bind, wp_read; [apply and_then_stopped; intros; by apply Hd'|].
    intros bs. rewrite Hj. intros <-%Some_inj. cbn [and_then]. apply wp_bind, wp_of.
    rewrite decode_encode_journal.
    2: { pose proof Hs as ((_ & _ & Hgen & _ & _ & _ & _ & Hsha) & _).
         split; [exact Hgen|split; [exact Hp|exact Hsha]]. }
    cbn [and_then]. apply wp_bind. apply (wp_read_meta (Some (m, p)));
      [done|apply and_then_stopped; intros; by apply Hd'|].
    cbn [and_then fmap option_fmap option_map fst jr_generation]. rewrite Z.eqb_refl.
    by apply (wp_finalize m p).
Qed.

Lemma wp_remove_old s gens (Q : ending unit -> files -> Prop) d :
  clean s d -> (forall e d', clean s d' -> Q e d') -> wp (remove_old gens (gen_of s)) Q d.
Proof.
  revert d. induction gens as [|g gens IH]; intros d Hcl Hq; cbn [remove_old]; [apply wp_ret; by apply Hq|].
  apply wp_bind. destruct (Z.eqb_spec g (gen_of s)) as [|Hne]; cbn [negb].
  - apply wp_ret. cbn [and_then]. by apply IH.
  - apply wp_remove_synced; [apply and_then_stopped; intros; by apply Hq|].
    pose proof (clean_prune s d g (fun _ => Hne) Hcl) as Hcl'.
    intros [[[]|e]|]; cbn [and_then]; [by apply IH|by apply Hq..].
Qed.

Lemma wp_prune s (Q : ending unit -> files -> Prop) d :
  clean s d -> (forall e d', clean s d' -> Q e d') -> wp (prune_old_snapshots (gen_of s)) Q d.
Proof.
  intros Hcl Hq. apply wp_bind, wp_touch. intros [[[]|e]|]; cbn [and_then]; [|by apply Hq..].
  apply wp_look. by apply wp_remove_old.
Qed.

Definition identity_wf (i : SnapshotIdentity) : Prop :=
  is_u32 (si_network_id i) /\ is32 (si_genesis_id i) /\ is_u64 (si_height i) /\
  is32 (si_tip_hash i) /\ is32 (si_state_root i) /\ is32 (si_chainwork i).

(** The metadata a commit writes. *)
Definition next_meta (s : generation_state) (payload : bytes) (i : SnapshotIdentity) : StorageMetaV1 :=
  {| sm_network_id := si_network_id i; sm_genesis_id := si_genesis_id i;
     sm_generation := gen_of s + 1; sm_height := si_height i; sm_tip_hash := si_tip_hash i;
     sm_state_root := si_state_root i; sm_chainwork := si_chainwork i;
     sm_snapshot_sha256 := sha256 (encode_snapshot (gen_of s + 1) payload) |}.

Lemma next_meta_wf s payload i :
  identity_wf i -> 0 <= gen_of s -> gen_of s + 1 < 2 ^ 64 -> meta_wf (next_meta s payload i).
Proof.
  intros ([? ?] & ? & [? ?] & ? & ? & ?) ? ?. unfold meta_wf. cbn. pose proof sha256_length.
  split_and!; try done; lia.
Qed.

Lemma stored_gen s d : stored s d -> is_u64 (gen_of s).
Proof. destruct s as [[m p]|]; cbn; [intros ((? & ? & ? & ?) & _); done|lia]. Qed.

(** The second half of a commit, from the staged snapshot on. *)
Lemma wp_publish s payload i (Q : ending StorageMetaV1 -> files -> Prop) d :
  let m := next_meta s payload i in
  identity_wf i -> vec_len_ok payload ->
  prepared s (sm_snapshot_sha256 m) d ->
  d !! SnapshotPath (sm_generation m) = Some (encode_snapshot (sm_generation m) payload) ->
  (forall e d', recoverable s d' -> stopped e -> Q e d') ->
  (forall e d', recoverable (Some (m, payload)) d' -> stopped e -> Q e d') ->
  (forall d', clean (Some (m, payload)) d' -> Q (Returns (Ok m)) d') ->
  wp (let! _ := write_synced MetaTmp (encode_meta m) in
      let! _ := maybe_crash "meta-tmp" in
      let! _ := replace_synced MetaTmp MetaPath in
      let! _ := maybe_crash "meta" in
      let! _ := maybe_crash "before-finalize" in
      let! _ := remove_synced JournalPath in
      let! _ := maybe_crash "finalize" in
      let! _ := prune_old_snapshots (sm_generation m) in
      let! _ := maybe_crash "prune" in
      io_ret m) Q d.
Proof.
  intros m Hi Hv Hp Hsn Ho Hn Hc.
  assert (forall e d', prepared s (sm_snapshot_sha256 m) d' -> stopped e -> Q e d') as Hop
    by (intros; apply Ho; [right; left; by eexists|done]).
  assert (forall e d', committed (Some (m, payload)) d' -> stopped e -> Q e d') as Hnc
    by (intros; apply Hn; [by right; right|done]).
  assert (forall e d', clean (Some (m, payload)) d' -> stopped e -> Q e d') as Hncl
    by (intros; apply Hn; [by left|done]).
  pose proof Hp as (_ & _ & [Hg0 _] & Hg1 & _).
  pose proof (next_meta_wf s payload i Hi Hg0 Hg1) as Hw.
  apply wp_bind, wp_write_synced.
  { apply and_then_stopped. intros; by apply Hop. }
  { intros c. apply and_then_stopped. intros; apply Hop; [|done].
    eapply prepared_agree; [by apply agree_put|done]. }
  assert (agree d (<[MetaTmp := encode_meta m]> d)) as Ha1 by (by apply agree_insert).
  pose proof (prepared_agree _ _ _ _ Ha1 Hp) as Hp1. cbn [and_then].
  apply wp_bind, wp_maybe_crash. intros [[[]|e]|]; cbn [and_then]; [|by apply Hop..].
  apply wp_bind. eapply wp_replace_synced; [apply lookup_insert_eq|apply and_then_stopped; intros; by apply Hop|].
  set (d2 := delete MetaTmp _).
  assert (agree d d2) as Ha2.
  { intros p Hr. unfold d2. rewrite agree_delete by done. by apply Ha1. }
  assert (committed (Some (m, payload)) (<[MetaPath := encode_meta m]> d2)) as Hm.
  { apply (prepared_commit s); [by eapply prepared_agree|done|done|done|done|by rewrite Ha2]. }
  intros [[[]|e]|]; cbn [and_then]; [|by apply Hnc..].
  apply wp_bind, wp_maybe_crash. intros [[[]|e]|]; cbn [and_then]; [|by apply Hnc..].
  apply wp_bind, wp_maybe_crash. intros [[[]|e]|]; cbn [and_then]; [|by apply Hnc..].
  apply wp_bind, wp_remove_synced; [apply and_then_stopped; intros; by apply Hnc|].
  pose proof (committed_forget _ _ Hm) as Hcl.
  intros [[[]|e]|]; cbn [and_then]; [|by apply Hncl..].
  apply wp_bind, wp_maybe_crash. intros [[[]|e]|]; cbn [and_then]; [|by apply Hncl..].
  apply wp_bind, (wp_prune (Some (m, payload))); [done|]. intros e d3 Hcl3.
  destruct e as [[[]|e]|]; cbn [and_then]; [|by apply Hncl..].
  apply wp_bind, wp_maybe_crash. intros [[[]|e]|]; cbn [and_then]; [|by apply Hncl..].
  apply wp_ret. by apply Hc.
Qed.

Lemma wp_commit s payload i (Q : ending StorageMetaV1 -> files -> Prop) d :
  let m := next_meta s payload i in
  recoverable s d -> identity_wf i -> vec_len_ok payload ->
  (forall e d', recoverable s d' -> stopped e -> Q e d') ->
  (forall e d', recoverable (Some (m, payload)) d' -> stopped e -> Q e d') ->
  (forall d', clean (Some (m, payload)) d' -> Q (Returns (Ok m)) d') ->
  wp (commit_snapshot payload i) Q d.
Proof.
  intros m Hr Hi Hv Ho Hn Hc. unfold commit_snapshot.
  apply wp_bind, (wp_recover s); [done|intros e d' ? ?; apply and_then_stopped; [|done]; intros; by apply Ho|].
  clear d Hr. intros action d Hcl. cbn [and_then].
  assert (forall e d', clean s d' -> stopped e -> Q e d') as Hoc by (intros; apply Ho; [by left|done]).
  apply wp_bind, wp_touch. intros [[[]|e]|]; cbn [and_then]; [|by apply Hoc..].
  apply wp_bind, (wp_read_meta s); [apply Hcl|apply and_then_stopped; intros; by apply Hoc|].
  cbn [and_then]. apply wp_bind, wp_of.
  replace (match fst <$> s with Some m => sm_generation m | None => 0 end) with (gen_of s)
    by (by destruct s as [[]|]).
  pose proof (stored_gen _ _ (proj1 Hcl)) as [Hg0 _].
  unfold checked_add. destruct (Z.ltb_spec (gen_of s + 1) (2 ^ 64)) as [Hg1|]; cbn [ok_or and_then];
    [|by apply Hoc].
  set (framed := encode_snapshot (gen_of s + 1) payload). set (h := sha256 framed).
  assert (is32 h) as Hh by apply sha256_length.
  apply wp_bind, wp_maybe_crash. intros [[[]|e]|]; cbn [and_then]; [|by apply Hoc..].
  apply wp_bind, wp_write_synced.
  { apply and_then_stopped. intros; by apply Hoc. }
  { intros c. apply and_then_stopped. intros; apply Hoc; [|done].
    eapply clean_agree; [by apply agree_put|done]. }
  cbn [and_then]. apply wp_bind. eapply wp_replace_synced; [apply lookup_insert_eq| |].
  { apply and_then_stopped. intros; apply Hoc; [|done]. eapply clean_agree; [by apply agree_insert|done]. }
  assert (forall e d', prepared s h d' -> stopped e -> Q e d') as Hop
    by (intros; apply Ho; [right; left; by eexists|done]).
  match goal with |- context [<[JournalPath := _]> ?dd] => set (d1 := dd) end.
  assert (clean s d1) as Hcl1.
  { eapply clean_agree; [by apply agree_delete|]. eapply clean_agree; [by apply agree_insert|done]. }
  pose proof (clean_announce s h d1 Hcl1 Hh (stored_gen _ _ (proj1 Hcl)) Hg1) as Hp.
  unfold next_journal in Hp. set (d2 := <[JournalPath := _]> d1) in *.
  intros [[[]|e]|]; cbn [and_then]; [|by apply Hop..].
  apply wp_bind, wp_maybe_crash. intros [[[]|e]|]; cbn [and_then]; [|by apply Hop..].
  apply wp_bind, wp_write_synced.
  { apply and_then_stopped. intros; by apply Hop. }
  { intros c. apply and_then_stopped. intros; apply Hop; [|done].
    eapply prepared_agree; [by apply agree_put|done]. }
  cbn [and_then]. set (d3 := <[SnapshotTmp _ := framed]> d2).
  assert (prepared s h d3) as Hp3 by (eapply prepared_agree; [by apply agree_insert|done]).
  apply wp_bind, wp_maybe_crash. intros [[[]|e]|]; cbn [and_then]; [|by apply Hop..].
  apply wp_bind. eapply wp_replace_synced; [apply lookup_insert_eq|apply and_then_stopped; intros; by apply Hop|].
  set (d4 := delete (SnapshotTmp _) d3).
  assert (prepared s h d4) as Hp4 by (eapply prepared_agree; [by apply agree_delete|done]).
  pose proof (prepared_stage s framed d4 Hp4) as Hp5. set (d5 := <[SnapshotPath _ := framed]> d4) in *.
  intros [[[]|e]|]; cbn [and_then]; [|by apply Hop..].
  apply wp_bind, wp_maybe_crash. intros [[[]|e]|]; cbn [and_then]; [|by apply Hop..].
  apply (wp_publish s payload i); try done. apply lookup_insert_eq.
Qed.

(** *** Runs without faults *)

Lemma runs_remove_synced p (Q : unit -> files -> Prop) d : Q tt (delete p d) -> runs (remove_synced p) Q d.
Proof.
  intros Hq. apply runs_bind, runs_look. unfold exists_file. case_bool_decide as Hp.
  - by apply runs_remove, runs_touch.
  - apply runs_ret, runs_touch. apply eq_None_not_Some in Hp. by rewrite delete_id in Hq.
Qed.

Lemma runs_read_meta s (Q : option StorageMetaV1 -> files -> Prop) d :
  stored s d -> Q (fst <$> s) d -> runs read_meta_if_present Q d.
Proof.
  intros Hs Hq. apply runs_look. destruct s as [[m p]|]; cbn [stored] in Hs.
  - destruct Hs as (Hw & _ & Hm & _). rewrite (exists_file_true _ _ _ Hm). cbn [negb].
    eapply runs_bind, runs_read; [done|]. eapply runs_bind, runs_of; [by apply decode_encode_meta|].
    by apply runs_ret.
  - rewrite exists_file_false by done. by apply runs_ret.
Qed.

Lemma runs_verify m p (Q : bytes -> files -> Prop) d :
  stored (Some (m, p)) d -> Q p d -> runs (verify_snapshot_for_meta m) Q d.
Proof.
  intros ((? & ? & ? & ?) & Hp & Hm & Hsn & Hh) Hq.
  eapply runs_bind, runs_read; [done|]. rewrite Hh, bytes_eqb_refl. cbn [negb].
  eapply runs_of; [|done]. by apply decode_encode_snapshot.
Qed.

Lemma runs_roll_back s h msg (Q : RecoveryAction -> files -> Prop) d :
  prepared s h d -> (forall a d', clean s d' -> Q a d') -> runs (roll_back (next_journal s h) msg) Q d.
Proof.
  intros Hp Hc. unfold roll_back. cbn [next_journal jr_generation jr_snapshot_sha256].
  assert (forall d', prepared s h d' -> d' !! SnapshotPath (gen_of s + 1) = None ->
    runs (let! _ := remove_synced JournalPath in io_ret RolledBackPrepared) Q d') as Hrest.
  { intros d' Hd' Hn. apply runs_bind, runs_remove_synced, runs_ret, Hc.
    by eapply prepared_forget. }
  apply runs_bind, runs_look. destruct (d !! SnapshotPath (gen_of s + 1)) as [bs|] eqn:E.
  - rewrite (exists_file_true _ _ _ E). eapply runs_bind, runs_read; [done|].
    pose proof Hp as (_ & _ & _ & _ & _ & Hu).
    destruct (Hu _ _ E) as [|[_ [= Hh]]]; [lia|]. rewrite <- Hh, bytes_eqb_refl. cbn [negb].
    apply runs_remove_synced, Hrest; [by apply prepared_unstage|apply lookup_delete_eq].
  - rewrite exists_file_false by done. by apply runs_ret, Hrest.
Qed.

Lemma runs_recover s (Q : RecoveryAction -> files -> Prop) d :
  recoverable s d -> (forall a d', clean s d' -> Q a d') -> runs recover Q d.
Proof.
  intros Hr Hc. apply runs_bind, runs_touch, runs_bind, runs_touch, runs_look.
  destruct Hr as [Hcl|[[h Hp]|Hm]].
  - rewrite exists_file_false by apply Hcl. by apply runs_ret, Hc.
  - pose proof Hp as (Hs & Hh & Hg & Hg1 & Hj & _). rewrite (exists_file_true _ _ _ Hj). cbn [negb].
    eapply runs_bind, runs_read; [done|].
    eapply runs_bind, runs_of; [by apply decode_encode_journal, next_journal_wf|].
    apply runs_bind, (runs_read_meta s); [done|].
    destruct s as [[m p]|]; cbn [fmap option_fmap option_map fst].
    + cbn [next_journal gen_of jr_generation jr_previous_generation].
      destruct (Z.eqb_spec (sm_generation m) (sm_generation m + 1)); [lia|]. rewrite Z.eqb_refl.
      by apply (runs_roll_back (Some (m, p))).
    + by apply (runs_roll_back None).
  - pose proof Hm as (m & p & prev & -> & Hs & Hp & Hj & _).
    rewrite (exists_file_true _ _ _ Hj). cbn [negb].
    eapply runs_bind, runs_read; [done|]. eapply runs_bind, runs_of; [apply decode_encode_journal|].
    { pose proof Hs as ((_ & _ & Hgen & _ & _ & _ & _ & Hsha) & _).
      split; [exact Hgen|split; [exact Hp|exact Hsha]]. }
    apply runs_bind, (runs_read_meta (Some (m, p))); [done|].
    cbn [fmap option_fmap option_map fst jr_generation]. rewrite Z.eqb_refl.
    unfold finalize. cbn [jr_snapshot_sha256]. rewrite bytes_eqb_refl. cbn [negb].
    apply runs_bind, (runs_verify m p); [done|].
    apply runs_bind, runs_remove_synced, runs_ret, Hc. by apply committed_forget.
Qed.

Definition loaded (o : option LoadedSnapshot) : generation_state :=
  (fun l => (ls_meta l, ls_bytes l)) <$> o.

(** A start on a recoverable disk succeeds, finds the current generation and
    leaves the disk clean. *)
Lemma runs_load s d :
  recoverable s d -> runs load_snapshot (fun o d' => loaded o = s /\ clean s d') d.
Proof.
  intros Hr. apply runs_bind, (runs_recover s); [done|]. intros a d' Hcl.
  apply runs_bind, (runs_read_meta s); [apply Hcl|].
  destruct s as [[m p]|]; cbn [fmap option_fmap option_map fst].
  - apply runs_bind, (runs_verify m p); [apply Hcl|]. by apply runs_ret.
  - by apply runs_ret.
Qed.

Lemma wp_load s (Q : ending (option LoadedSnapshot) -> files -> Prop) d :
  recoverable s d -> (forall e d', recoverable s d' -> stopped e -> Q e d') ->
  (forall o d', clean s d' -> loaded o = s -> Q (Returns (Ok o)) d') -> wp load_snapshot Q d.
Proof.
  intros Hr Hd Hc.
  apply wp_bind, (wp_recover s); [done|intros e d' ? ?; apply and_then_stopped; [|done]; intros; by apply Hd|].
  clear d Hr. intros a d Hcl. cbn [and_then].
  assert (forall e d', clean s d' -> stopped e -> Q e d') as Hd' by (intros; apply Hd; [by left|done]).
  apply wp_bind, (wp_read_meta s); [apply Hcl|apply and_then_stopped; intros; by apply Hd'|].
  destruct s as [[m p]|]; cbn [and_then fmap option_fmap option_map fst].
  - apply wp_bind, (wp_verify m p); [apply Hcl|apply and_then_stopped; intros; by apply Hd'|].
    cbn [and_then]. apply wp_ret. by apply Hc.
  - apply wp_ret. by apply Hc.
Qed.

(** C11: a commit of the node's state is atomic under crashes and I/O errors.
    Start on a recoverable disk and let the file-system calls of
    [commit_snapshot] fail or the machine stop anywhere, with any content in the
    file being written: the disk stays recoverable, with either the old
    generation or exactly the new one; if the commit returns, it is the new one.
    The next start without faults then succeeds, returns that generation whole
    and leaves no journal and no later snapshot behind. *)
Theorem commit_crash_atomic s d payload i fs :
  recoverable s d -> identity_wf i -> vec_len_ok payload ->
  let m := next_meta s payload i in
  let '(d', _, e) := commit_snapshot payload i d fs in
  exists s', (s' = s \/ s' = Some (m, payload)) /\ recoverable s' d' /\
    (forall m', e = Returns (Ok m') -> m' = m /\ s' = Some (m, payload)) /\
    runs load_snapshot (fun o d'' => loaded o = s' /\ clean s' d'') d'.
Proof.
  intros Hr Hi Hv m.
  assert (wp (commit_snapshot payload i) (fun e d' => exists s', (s' = s \/ s' = Some (m, payload)) /\
    recoverable s' d' /\ (forall m', e = Returns (Ok m') -> m' = m /\ s' = Some (m, payload))) d) as H.
  { apply (wp_commit s); [done..| | |].
    - intros e d' ? ?. exists s. split_and!; [by left|done|by intros ? ->].
    - intros e d' ? ?. eexists. split_and!; [by right|done|by intros ? ->].
    - intros d' ?. eexists. split_and!; [by right|by left|by intros ? [= <-]]. }
  specialize (H fs). destruct (commit_snapshot payload i d fs) as [[d' fs'] e]. cbn in H.
  destruct H as (s' & ? & ? & ?). exists s'. split_and!; [done..|]. by apply runs_load.
Qed.

(** Starting never damages the storage: [load_snapshot] keeps a recoverable
    disk recoverable with the same generation under every fault, and what it
    returns is that generation. *)
Theorem load_keeps_generation s d fs :
  recoverable s d ->
  let '(d', _, e) := load_snapshot d fs in
  recoverable s d' /\ (forall o, e = Returns (Ok o) -> loaded o = s).
Proof.
  intros Hr. assert (wp load_snapshot (fun e d' => recoverable s d' /\
    (forall o, e = Returns (Ok o) -> loaded o = s)) d) as H.
  { apply (wp_load s); [done| |].
    - intros e d' ? ?. split; [done|by intros ? ->].
    - intros o d' ? ?. split; [by left|by intros ? [= <-]]. }
  specialize (H fs). by destruct (load_snapshot d fs) as [[d' fs'] e].
Qed.
End crash.

(** ** Concrete runs, with FIPS SHA-256 *)

Definition demo_identity : SnapshotIdentity :=
  {| si_network_id := 0x4d555400; si_genesis_id := ZERO32; si_height := 7; si_tip_hash := ZERO32;
     si_state_root := ZERO32; si_chainwork := ZERO32 |}.
Definition demo_payload : bytes := ascii_bytes "state".

(** The machine stops while the first snapshot is written: the next start rolls
    back to nothing. *)
Example crash_in_first_snapshot :
  let '(d, _, e) := commit_snapshot demo_payload demo_identity ∅
    (repeat Fine 11 ++ [Crash false (Some demo_payload)]) in
  e = Interrupted /\
  match load_snapshot d [] with (_, _, Returns (Ok o)) => loaded o = None | _ => False end.
Proof. vm_compute. done. Qed.

Lemma recoverable_empty : recoverable None ∅.
Proof. left. split_and!; [done..|]. by intros g bs ?. Qed.

Lemma commit_crash_atomic_witness :
  recoverable None ∅ /\ identity_wf demo_identity /\ vec_len_ok demo_payload /\
  let m := next_meta None demo_payload demo_identity in
  let '(d', _, e) := commit_snapshot demo_payload demo_identity ∅
    (repeat Fine 11 ++ [Crash false (Some demo_payload)]) in
  exists s', (s' = None \/ s' = Some (m, demo_payload)) /\ recoverable s' d' /\
    (forall m', e = Returns (Ok m') -> m' = m /\ s' = Some (m, demo_payload)) /\
    runs load_snapshot (fun o d'' => loaded o = s' /\ clean s' d'') d'.
Proof.
  split; [apply recoverable_empty|]. split; [split_and!; done|]. split; [done|].
  apply commit_crash_atomic; [apply recoverable_empty|split_and!; done|done].
Defined.

Lemma load_keeps_generation_witness :
  recoverable None ∅ /\
  let '(d', _, e) := load_snapshot ∅ [Fine; IoFails None] in
  recoverable None d' /\ (forall o, e = Returns (Ok o) -> loaded o = None).
Proof. split; [apply recoverable_empty|]. apply load_keeps_generation, recoverable_empty. Defined.
