(* ===== verification/Duplex.v ===== *)
(** Crate [mutiny-duplex]: one authenticated connection that several threads use
    for requests while a single reader thread routes what the peer sends.

    The shared [Inner] is the state of a transition system.  Every atomic action
    of a thread (a load or store of [closed], a critical section of the [pending]
    mutex, a write, an operation on a channel) is an executable step, and [step]
    interleaves the steps of the reader and of all callers.  The channel of a
    call is its mailbox; its sending half lives in the pending entry, or in the
    reader between the removal of the entry and the [send].  The connection
    itself is not modelled: the frames that arrive, the elapsed time, timeouts
    and I/O errors are free choices of [step]. *)

From Stdlib Require Import Strings.Byte Strings.String.
From stdpp Require Import strings pretty gmap.
From S2P Require Import Prelude Crypto P2p Collections.

Inductive ConnectionDirection := Inbound | Outbound.

#[export] Instance ConnectionDirection_eq_dec : EqDecision ConnectionDirection.
Proof. solve_decision. Defined.

(** The order of [[u8; 32]] is lexicographic. *)
Definition preferred_direction (local_node_id remote_node_id : bytes32) : ConnectionDirection :=
  if bytes_ltb local_node_id remote_node_id then Outbound else Inbound.

Definition candidate_should_replace (local_node_id remote_node_id : bytes32) (current candidate : ConnectionDirection)
    : bool :=
  if bool_decide (current = candidate) then false
  else bool_decide (candidate = preferred_direction local_node_id remote_node_id).

Definition DEFAULT_MAX_PENDING_REQUESTS : Z := 64.
Definition DEFAULT_MAX_UNSOLICITED_FRAMES : Z := 128.
Definition DEFAULT_MAX_FRAMES_PER_WINDOW : Z := 512.
Definition DEFAULT_MAX_BYTES_PER_WINDOW : Z := 16 * 1024 * 1024.
(** Milliseconds. *)
Definition DEFAULT_RATE_WINDOW : Z := 10 * 1000.

Record DuplexLimits := {
  lm_max_pending_requests : Z;
  lm_max_unsolicited_frames : Z;
  lm_max_frames_per_window : Z;
  lm_max_bytes_per_window : Z;
  lm_rate_window : Z;
}.

Definition DuplexLimits_default : DuplexLimits :=
  {| lm_max_pending_requests := DEFAULT_MAX_PENDING_REQUESTS;
     lm_max_unsolicited_frames := DEFAULT_MAX_UNSOLICITED_FRAMES;
     lm_max_frames_per_window := DEFAULT_MAX_FRAMES_PER_WINDOW;
     lm_max_bytes_per_window := DEFAULT_MAX_BYTES_PER_WINDOW; lm_rate_window := DEFAULT_RATE_WINDOW |}.

(** The fields of [DuplexMetrics]: the counters of a session. *)
Inductive DuplexMetrics :=
| frames_sent | frames_received | requests_started | responses_routed | unsolicited_routed | request_timeouts
| reader_exits | pending_limit_rejections | unsolicited_overflow_closes | rate_limit_closes.

#[export] Instance DuplexMetrics_eq_dec : EqDecision DuplexMetrics.
Proof. solve_decision. Defined.

Inductive DuplexError :=
| Closed
| DuplicateRequestId (id : Z)
| Timeout (id : Z)
| ReaderStopped (reason : string)
| Protocol (message : string)
| ResourceLimit (message : string)
| P2p (e : P2pError).

Abbreviation duplex_result A := (result DuplexError A).

(** ** The shared state *)

Definition PendingResult : Type := result string Frame.

(** [pq_tx] is the call that holds the receiving half. *)
Record PendingRequest := { pq_expected_types : list Z; pq_tx : nat }.

(** Where a thread is in [request_with_id]. *)
Inductive Phase :=
| Checking
| Registering
| Building
| Sending (frame : Frame)
| Writing (frame : Frame)
| Withdrawing (e : DuplexError)
| Waiting
| Expiring
| Returned (r : duplex_result Frame).

Record Call := {
  cl_request_id : Z;
  cl_message_type : Z;
  cl_payload : bytes;
  cl_expected_types : list Z;
  cl_phase : Phase;
  cl_mailbox : list PendingResult;
}.

(** Where the reader thread is in its loop. *)
Inductive ReaderPhase :=
| Reading
| Delivering (tx : nat) (frame : Frame)
| Routing (frame : Frame)
| Stopping (reason : string)
| Exited.

Record Inner := {
  in_magic : Z;
  in_pending : gmap Z PendingRequest;
  in_unsolicited : list Frame;
  in_limits : DuplexLimits;
  in_closed : bool;
  in_next_request_id : Z;
  in_lane_high_bit : bool;
  in_metrics : DuplexMetrics -> Z;
  in_window_frames : Z;
  in_window_bytes : Z;
  in_reader : ReaderPhase;
  in_calls : gmap nat Call;
  in_received : list Frame;
}.

Definition Call_eta (r : Call) : Call :=
  {| cl_request_id := cl_request_id r; cl_message_type := cl_message_type r; cl_payload := cl_payload r;
     cl_expected_types := cl_expected_types r; cl_phase := cl_phase r; cl_mailbox := cl_mailbox r |}.
#[export] Instance set_cl_phase : Setter cl_phase := ltac:(make_setter Call_eta cl_phase).
#[export] Instance set_cl_mailbox : Setter cl_mailbox := ltac:(make_setter Call_eta cl_mailbox).

Definition Inner_eta (r : Inner) : Inner :=
  {| in_magic := in_magic r; in_pending := in_pending r; in_unsolicited := in_unsolicited r;
     in_limits := in_limits r; in_closed := in_closed r; in_next_request_id := in_next_request_id r;
     in_lane_high_bit := in_lane_high_bit r; in_metrics := in_metrics r;
     in_window_frames := in_window_frames r; in_window_bytes := in_window_bytes r; in_reader := in_reader r;
     in_calls := in_calls r; in_received := in_received r |}.
#[export] Instance set_in_pending : Setter in_pending := ltac:(make_setter Inner_eta in_pending).
#[export] Instance set_in_unsolicited : Setter in_unsolicited := ltac:(make_setter Inner_eta in_unsolicited).
#[export] Instance set_in_closed : Setter in_closed := ltac:(make_setter Inner_eta in_closed).
#[export] Instance set_in_next_request_id : Setter in_next_request_id := ltac:(make_setter Inner_eta in_next_request_id).
#[export] Instance set_in_metrics : Setter in_metrics := ltac:(make_setter Inner_eta in_metrics).
#[export] Instance set_in_window_frames : Setter in_window_frames := ltac:(make_setter Inner_eta in_window_frames).
#[export] Instance set_in_window_bytes : Setter in_window_bytes := ltac:(make_setter Inner_eta in_window_bytes).
#[export] Instance set_in_reader : Setter in_reader := ltac:(make_setter Inner_eta in_reader).
#[export] Instance set_in_calls : Setter in_calls := ltac:(make_setter Inner_eta in_calls).
#[export] Instance set_in_received : Setter in_received := ltac:(make_setter Inner_eta in_received).

(** [fetch_add(1)] *)
Definition bump (m : DuplexMetrics) (s : Inner) : Inner :=
  s <| in_metrics := fun k => if bool_decide (k = m) then (in_metrics s k + 1) mod 2 ^ 64 else in_metrics s k |>.

Definition from_authenticated_stream_with_limits (magic : Z) (lane_high_bit : bool) (limits : DuplexLimits)
    : duplex_result Inner :=
  if (lm_max_pending_requests limits =? 0) || (lm_max_unsolicited_frames limits =? 0)
     || (lm_max_frames_per_window limits =? 0) || (lm_max_bytes_per_window limits =? 0) || (lm_rate_window limits =? 0)
  then Err (Protocol "duplex limits must all be non-zero")
  else Ok {| in_magic := magic; in_pending := ∅; in_unsolicited := []; in_limits := limits; in_closed := false;
             in_next_request_id := if lane_high_bit then Z.shiftl 1 63 else 1;
             in_lane_high_bit := lane_high_bit; in_metrics := fun _ => 0; in_window_frames := 0;
             in_window_bytes := 0; in_reader := Reading; in_calls := ∅; in_received := [] |}.

Definition from_authenticated_stream (magic : Z) (lane_high_bit : bool) : duplex_result Inner :=
  from_authenticated_stream_with_limits magic lane_high_bit DuplexLimits_default.

(** ** The identifiers of requests *)

Definition normalize_request_id (lane_high_bit : bool) (id : Z) : Z :=
  if lane_high_bit then Z.lor id (Z.shiftl 1 63) else Z.land id (Z.lnot (Z.shiftl 1 63)).

(** [fetch_add] returns the old value; the loop runs a second time only when the
    first identifier is zero, and then not a third time. *)
Definition allocate_request_id (s : Inner) : duplex_result (Z * Inner) :=
  if in_closed s then Err Closed
  else
    let id := in_next_request_id s in
    let next := (id + 1) mod 2 ^ 64 in
    let normalized := normalize_request_id (in_lane_high_bit s) id in
    if negb (normalized =? 0) then Ok (normalized, s <| in_next_request_id := next |>)
    else Ok (normalize_request_id (in_lane_high_bit s) next,
             s <| in_next_request_id := (next + 1) mod 2 ^ 64 |>).

(** ** The reader *)

(** [tx.send(message)]: nobody looks into the mailbox of a call that returned. *)
Definition deliver (tx : nat) (message : PendingResult) (calls : gmap nat Call) : gmap nat Call :=
  alter (fun c => c <| cl_mailbox := cl_mailbox c ++ [message] |>) tx calls.

(** The reader gives up: [closed] is stored first; the waiting calls are told in
    [reader_drain]. *)
Definition reader_stop (reason : string) (s : Inner) : Inner :=
  bump reader_exits (s <| in_closed := true |> <| in_reader := Stopping reason |>).

(** A frame arrived; [elapsed] tells whether the rate window was over. *)
Definition reader_frame (elapsed : bool) (frame : Frame) (s : Inner) : Inner :=
  let s := bump frames_received s <| in_received := in_received s ++ [frame] |> in
  let window_frames := saturating_add 64 (if elapsed then 0 else in_window_frames s) 1 in
  let window_bytes := saturating_add 64 (if elapsed then 0 else in_window_bytes s)
                        (26 + Z.of_nat (length (fr_payload frame))) in
  let s := s <| in_window_frames := window_frames |> <| in_window_bytes := window_bytes |> in
  if (lm_max_frames_per_window (in_limits s) <? window_frames)
     || (lm_max_bytes_per_window (in_limits s) <? window_bytes)
  then reader_stop "peer exceeded duplex receive budget" (bump rate_limit_closes s)
  else
    let unsolicited := s <| in_reader := Routing frame |> in
    match in_pending s !! fr_request_id frame with
    | Some p =>
        if existsb (Z.eqb (fr_message_type frame)) (pq_expected_types p)
        then bump responses_routed
               (s <| in_pending := delete (fr_request_id frame) (in_pending s) |>
                  <| in_reader := Delivering (pq_tx p) frame |>)
        else unsolicited
    | None => unsolicited
    end.

(** [unsolicited_tx.try_send(frame)] *)
Definition reader_route (frame : Frame) (s : Inner) : Inner :=
  if Z.of_nat (length (in_unsolicited s)) <? lm_max_unsolicited_frames (in_limits s)
  then bump unsolicited_routed (s <| in_unsolicited := in_unsolicited s ++ [frame] |> <| in_reader := Reading |>)
  else reader_stop "peer overflowed bounded unsolicited queue" (bump unsolicited_overflow_closes s).

Definition reader_deliver (tx : nat) (frame : Frame) (s : Inner) : Inner :=
  s <| in_calls := deliver tx (Ok frame) (in_calls s) |> <| in_reader := Reading |>.

(** [for (_, waiter) in pending.drain()]: the order does not matter, every
    waiter has its own channel. *)
Definition reader_drain (reason : string) (s : Inner) : Inner :=
  s <| in_calls := fold_right (fun '(_, p) => deliver (pq_tx p) (Err reason)) (in_calls s) (map_to_list (in_pending s)) |>
    <| in_pending := ∅ |> <| in_reader := Exited |>.

(** ** A call *)

Definition set_phase (c : nat) (phase : Phase) (s : Inner) : Inner :=
  s <| in_calls := alter (fun call => call <| cl_phase := phase |>) c (in_calls s) |>.

Definition give_back (c : nat) (e : DuplexError) (s : Inner) : Inner := set_phase c (Returned (Err e)) s.

(** [expected_types.is_empty()], then [is_closed()] *)
Definition call_check (c : nat) (call : Call) (s : Inner) : Inner :=
  match cl_expected_types call with
  | [] => give_back c (Protocol "request must declare at least one expected response type") s
  | _ => if in_closed s then give_back c Closed s else set_phase c Registering s
  end.

(** The critical section that inserts the entry. *)
Definition call_register (c : nat) (call : Call) (s : Inner) : Inner :=
  match in_pending s !! cl_request_id call with
  | Some _ => give_back c (DuplicateRequestId (cl_request_id call)) s
  | None =>
      if lm_max_pending_requests (in_limits s) <=? Z.of_nat (size (in_pending s))
      then give_back c (ResourceLimit ("pending request cap " +:+ pretty (lm_max_pending_requests (in_limits s)) +:+ " reached")) (bump pending_limit_rejections s)
      else set_phase c Building
             (s <| in_pending := <[cl_request_id call := {| pq_expected_types := cl_expected_types call; pq_tx := c |}]>
                                   (in_pending s) |>)
  end.

(** [Frame::new(..)?] *)
Definition call_build (c : nat) (call : Call) (s : Inner) : Inner :=
  let s := bump requests_started s in
  match Frame_new (in_magic s) (cl_message_type call) (cl_request_id call) (cl_payload call) with
  | Ok frame => set_phase c (Sending frame) s
  | Err e => give_back c (P2p e) s
  end.

(** [send_frame]: the test of [closed], then the write under the writer's lock,
    which succeeds or fails. *)
Definition call_send (c : nat) (frame : Frame) (s : Inner) : Inner :=
  if in_closed s then set_phase c (Withdrawing Closed) s else set_phase c (Writing frame) s.

Definition call_write (written : bool) (c : nat) (s : Inner) : Inner :=
  if written then set_phase c Waiting (bump frames_sent s) else set_phase c (Withdrawing (P2p Io)) s.

Definition call_withdraw (c : nat) (call : Call) (e : DuplexError) (s : Inner) : Inner :=
  give_back c e (s <| in_pending := delete (cl_request_id call) (in_pending s) |>).

(** [recv_timeout] with a message in the channel. *)
Definition call_receive (c : nat) (message : PendingResult) (s : Inner) : Inner :=
  set_phase c (Returned (map_err ReaderStopped message)) s.

(** Whether the sending half of the channel still exists. *)
Definition sender_alive (c : nat) (s : Inner) : bool :=
  existsb (fun '(_, p) => (pq_tx p =? c)%nat) (map_to_list (in_pending s))
  || match in_reader s with Delivering tx _ => (tx =? c)%nat | _ => false end.

Definition call_disconnected (c : nat) (s : Inner) : Inner :=
  give_back c (ReaderStopped "response router disconnected") s.

Definition call_give_up (c : nat) (call : Call) (s : Inner) : Inner :=
  give_back c (Timeout (cl_request_id call))
    (bump request_timeouts (s <| in_pending := delete (cl_request_id call) (in_pending s) |>)).

(** ** The other operations *)

Definition recv_unsolicited (s : Inner) : option (Frame * Inner) :=
  match in_unsolicited s with
  | [] => None
  | frame :: rest => Some (frame, s <| in_unsolicited := rest |>)
  end.

Definition close (s : Inner) : Inner := s <| in_closed := true |>.

Definition new_call (request_id message_type : Z) (payload : bytes) (expected_types : list Z) : Call :=
  {| cl_request_id := request_id; cl_message_type := message_type; cl_payload := payload;
     cl_expected_types := expected_types; cl_phase := Checking; cl_mailbox := [] |}.

(** A new thread calls [request_with_id]. *)
Definition start_call (c : nat) (call : Call) (s : Inner) : Inner := s <| in_calls := <[c := call]> (in_calls s) |>.

(** ** Interleavings *)

(** The next steps of a call. *)
Inductive call_step (c : nat) (s : Inner) : Call -> Inner -> Prop :=
| do_check call : cl_phase call = Checking -> call_step c s call (call_check c call s)
| do_register call : cl_phase call = Registering -> call_step c s call (call_register c call s)
| do_build call : cl_phase call = Building -> call_step c s call (call_build c call s)
| do_send call frame : cl_phase call = Sending frame -> call_step c s call (call_send c frame s)
| do_write call frame written : cl_phase call = Writing frame -> call_step c s call (call_write written c s)
| do_withdraw call e : cl_phase call = Withdrawing e -> call_step c s call (call_withdraw c call e s)
| do_receive call message rest :
    cl_phase call = Waiting -> cl_mailbox call = message :: rest -> call_step c s call (call_receive c message s)
| do_disconnected call :
    cl_phase call = Waiting -> cl_mailbox call = [] -> sender_alive c s = false ->
    call_step c s call (call_disconnected c s)
| do_expire call :
    cl_phase call = Waiting -> cl_mailbox call = [] -> call_step c s call (set_phase c Expiring s)
| do_give_up call : cl_phase call = Expiring -> call_step c s call (call_give_up c call s).

Inductive step (s : Inner) : Inner -> Prop :=
| step_frame elapsed frame : in_reader s = Reading -> step s (reader_frame elapsed frame s)
| step_read_error reason : in_reader s = Reading -> step s (reader_stop reason s)
| step_deliver tx frame : in_reader s = Delivering tx frame -> step s (reader_deliver tx frame s)
| step_route frame : in_reader s = Routing frame -> step s (reader_route frame s)
| step_drain reason : in_reader s = Stopping reason -> step s (reader_drain reason s)
| step_start c request_id message_type payload expected_types :
    in_calls s !! c = None -> step s (start_call c (new_call request_id message_type payload expected_types) s)
| step_request c message_type payload expected_types request_id s' :
    in_calls s !! c = None -> allocate_request_id s = Ok (request_id, s') ->
    step s (start_call c (new_call request_id message_type payload expected_types) s')
| step_call c call s' : in_calls s !! c = Some call -> call_step c s call s' -> step s s'
| step_recv frame s' : recv_unsolicited s = Some (frame, s') -> step s s'
| step_close : step s (close s).

(** ** The invariant *)

(** A call that may own an entry: it has registered and has not given the entry
    back.  A request that was too large to be framed keeps it. *)
Definition may_hold (phase : Phase) : bool :=
  match phase with
  | Checking | Registering => false
  | Returned (Err (P2p _)) => true
  | Returned _ => false
  | _ => true
  end.

Definition registered (phase : Phase) : bool := match phase with Checking | Registering => false | _ => true end.

(** The call has found the session open after it registered. *)
Definition past_send (phase : Phase) : bool := match phase with Writing _ | Waiting | Expiring => true | _ => false end.

Definition answers (call : Call) (frame : Frame) : Prop :=
  fr_request_id frame = cl_request_id call /\ fr_message_type frame ∈ cl_expected_types call.

Definition message_ok (received : list Frame) (call : Call) (m : PendingResult) : Prop :=
  match m with Ok frame => answers call frame /\ frame ∈ received | Err _ => True end.

Record entry_ok (reader : ReaderPhase) (id : Z) (p : PendingRequest) (call : Call) : Prop := {
  en_id : cl_request_id call = id;
  en_types : cl_expected_types call = pq_expected_types p;
  en_mailbox : cl_mailbox call = [];
  en_phase : may_hold (cl_phase call) = true;
  en_exited : reader = Exited -> past_send (cl_phase call) = false;
  en_reader : forall frame, reader <> Delivering (pq_tx p) frame;
}.

Record call_ok (received : list Frame) (call : Call) : Prop := {
  ca_single : (length (cl_mailbox call) <= 1)%nat;
  ca_mailbox : Forall (message_ok received call) (cl_mailbox call);
  ca_registered : cl_mailbox call <> [] -> registered (cl_phase call) = true;
  ca_returned : forall frame, cl_phase call = Returned (Ok frame) -> message_ok received call (Ok frame);
}.

Record duplex_ok (s : Inner) : Prop := {
  dk_entries : forall id p, in_pending s !! id = Some p ->
    exists call, in_calls s !! pq_tx p = Some call /\ entry_ok (in_reader s) id p call;
  dk_calls : forall c call, in_calls s !! c = Some call -> call_ok (in_received s) call;
  dk_delivering : forall tx frame, in_reader s = Delivering tx frame ->
    exists call, in_calls s !! tx = Some call /\ message_ok (in_received s) call (Ok frame) /\ cl_mailbox call = [] /\
      registered (cl_phase call) = true;
  dk_closed : forall reason, in_reader s = Stopping reason \/ in_reader s = Exited -> in_closed s = true;
  dk_pending : Z.of_nat (size (in_pending s)) <= lm_max_pending_requests (in_limits s);
  dk_unsolicited : Z.of_nat (length (in_unsolicited s)) <= lm_max_unsolicited_frames (in_limits s);
}.

(** What the invariant does not read. *)
Lemma duplex_ok_eq s t :
  in_pending t = in_pending s -> in_calls t = in_calls s -> in_reader t = in_reader s -> in_closed t = in_closed s ->
  in_limits t = in_limits s -> in_received t = in_received s ->
  Z.of_nat (length (in_unsolicited t)) <= lm_max_unsolicited_frames (in_limits s) ->
  duplex_ok s -> duplex_ok t.
Proof.
  intros E1 E2 E3 E4 E5 E6 E7 []. split; by rewrite ?E1, ?E2, ?E3, ?E4, ?E5, ?E6.
Qed.

Lemma bump_ok m s : duplex_ok s -> duplex_ok (bump m s).
Proof. intros H. apply (duplex_ok_eq s); try done. apply H. Qed.

(** Entries may be taken out. *)
Lemma delete_ok id s : duplex_ok s -> duplex_ok (s <| in_pending := delete id (in_pending s) |>).
Proof.
  intros []. split; cbn [in_pending in_calls in_reader in_closed in_limits in_unsolicited set set_in_pending]; try done.
  - intros id' p H. apply lookup_delete_Some in H as [_ H]. by apply dk_entries0.
  - etrans; [|exact dk_pending0]. apply inj_le. apply map_subseteq_size, delete_subseteq.
Qed.

Ltac duplex_fields :=
  cbn [in_pending in_calls in_reader in_closed in_limits in_unsolicited in_received in_magic in_metrics
       set set_in_pending set_in_calls set_in_reader set_in_closed set_in_unsolicited set_in_received set_in_metrics
       set_in_window_frames set_in_window_bytes set_in_next_request_id set_phase give_back bump] in *.

(** A call moves on. *)
Lemma set_phase_ok c call phase s :
  duplex_ok s -> in_calls s !! c = Some call ->
  (forall id p, in_pending s !! id = Some p -> pq_tx p = c ->
     may_hold phase = true /\ (in_reader s = Exited -> past_send phase = false)) ->
  (registered (cl_phase call) = true -> registered phase = true) ->
  (forall frame, phase = Returned (Ok frame) -> message_ok (in_received s) call (Ok frame)) ->
  duplex_ok (set_phase c phase s).
Proof.
  intros [] Hc Hhold Hreg Hret. split; unfold set_phase; duplex_fields; try done.
  - intros id p Hp. destruct (dk_entries0 id p Hp) as (call' & Hc' & []).
    destruct (decide (pq_tx p = c)) as [E|E].
    + rewrite E, Hc in Hc'. injection Hc' as <-. rewrite E, lookup_alter_eq, Hc. eexists. split; [done|].
      destruct (Hhold id p Hp E). by split.
    + rewrite lookup_alter_ne by done. exists call'. by split.
  - intros c' call' H. destruct (decide (c' = c)) as [->|E].
    + rewrite lookup_alter_eq, Hc in H. apply Some_inj in H as <-. destruct (dk_calls0 c call Hc). split; try done.
      intros Hm. by apply Hreg, ca_registered0.
    + rewrite lookup_alter_ne in H by done. by apply dk_calls0 in H.
  - intros tx frame H. destruct (dk_delivering0 tx frame H) as (call' & Hc' & Hm & Hb & Hr).
    destruct (decide (tx = c)) as [->|E].
    + rewrite Hc in Hc'. injection Hc' as <-. rewrite lookup_alter_eq, Hc. eexists. split; [done|].
      split; [exact Hm|]. split; [done|]. by apply Hreg.
    + rewrite lookup_alter_ne by done. by exists call'.
Qed.

(** A call that holds nothing. *)
Lemma set_phase_free c call phase s :
  duplex_ok s -> in_calls s !! c = Some call -> may_hold (cl_phase call) = false ->
  (registered (cl_phase call) = true -> registered phase = true) ->
  (forall frame, phase = Returned (Ok frame) -> message_ok (in_received s) call (Ok frame)) ->
  duplex_ok (set_phase c phase s).
Proof.
  intros Hs Hc Hf Hreg Hret. apply (set_phase_ok c call); try done. intros id p Hp E.
  destruct (dk_entries _ Hs id p Hp) as (call' & Hc' & []). rewrite E, Hc in Hc'. injection Hc' as <-. congruence.
Qed.

(** A call that gives its entry back. *)
Lemma give_back_ok c call e s :
  duplex_ok s -> in_calls s !! c = Some call ->
  duplex_ok (give_back c e (s <| in_pending := delete (cl_request_id call) (in_pending s) |>)).
Proof.
  intros Hs Hc. apply (set_phase_ok c call); [by apply delete_ok|done| |done|done].
  duplex_fields. intros id p Hp E. apply lookup_delete_Some in Hp as [Hne Hp].
  destruct (dk_entries _ Hs id p Hp) as (call' & Hc' & []). rewrite E, Hc in Hc'. injection Hc' as <-. congruence.
Qed.

Lemma in_calls_bump m s : in_calls (bump m s) = in_calls s.
Proof. done. Qed.

Lemma call_check_ok c call s :
  duplex_ok s -> in_calls s !! c = Some call -> cl_phase call = Checking -> duplex_ok (call_check c call s).
Proof.
  intros Hs Hc Hp. unfold call_check, give_back.
  destruct (cl_expected_types call); [|destruct (in_closed s)]; apply (set_phase_free c call); try done; by rewrite Hp.
Qed.

Lemma call_register_ok c call s :
  duplex_ok s -> in_calls s !! c = Some call -> cl_phase call = Registering -> duplex_ok (call_register c call s).
Proof.
  intros Hs Hc Hp. assert (may_hold (cl_phase call) = false) as Hf by (by rewrite Hp).
  unfold call_register, give_back. destruct (in_pending s !! cl_request_id call) as [q|] eqn:Eq.
  { apply (set_phase_free c call); try done; by rewrite Hp. }
  destruct (Z.leb_spec (lm_max_pending_requests (in_limits s)) (Z.of_nat (size (in_pending s)))) as [Hl|Hl].
  { apply (set_phase_free c call); [by apply bump_ok|done|done|by rewrite Hp|done]. }
  pose proof (dk_calls _ Hs c call Hc) as []. assert (cl_mailbox call = []) as Hm.
  { destruct (cl_mailbox call); [done|]. specialize (ca_registered0 ltac:(done)). by rewrite Hp in ca_registered0. }
  assert (forall frame, in_reader s <> Delivering c frame) as Hr.
  { intros frame H. destruct (dk_delivering _ Hs c frame H) as (call' & Hc' & _ & _ & Hg). rewrite Hc in Hc'.
    injection Hc' as <-. by rewrite Hp in Hg. }
  pose proof (set_phase_free c call Building s Hs Hc Hf ltac:(by rewrite Hp) ltac:(done)) as [].
  split; unfold set_phase in *; duplex_fields; try done.
  - intros id p H. apply lookup_insert_Some in H as [[<- <-]|[Hne H]]; [|by apply dk_entries0].
    exists (call <| cl_phase := Building |>). cbn [pq_tx pq_expected_types]. rewrite lookup_alter_eq, Hc.
    split; [done|]. by split.
  - rewrite map_size_insert_None by done. lia.
Qed.

Lemma call_build_ok c call s :
  duplex_ok s -> in_calls s !! c = Some call -> cl_phase call = Building -> duplex_ok (call_build c call s).
Proof.
  intros Hs Hc Hp. unfold call_build, give_back.
  destruct (Frame_new _ _ _ _); apply (set_phase_ok c call); try done; by apply bump_ok.
Qed.

Lemma call_send_ok c call frame s :
  duplex_ok s -> in_calls s !! c = Some call -> cl_phase call = Sending frame -> duplex_ok (call_send c frame s).
Proof.
  intros Hs Hc Hp. unfold call_send. destruct (in_closed s) eqn:Ec; apply (set_phase_ok c call); try done.
  intros id p _ _. split; [done|]. intros Hr. by rewrite (dk_closed _ Hs EmptyString) in Ec by (by right).
Qed.

Lemma call_write_ok c call frame written s :
  duplex_ok s -> in_calls s !! c = Some call -> cl_phase call = Writing frame -> duplex_ok (call_write written c s).
Proof.
  intros Hs Hc Hp. unfold call_write. destruct written; apply (set_phase_ok c call); try done; [by apply bump_ok|].
  intros id p H E. split; [done|]. intros Hr. destruct (dk_entries _ Hs id p H) as (call' & Hc' & []).
  rewrite E, Hc in Hc'. injection Hc' as <-. specialize (en_exited0 Hr). by rewrite Hp in en_exited0.
Qed.

Lemma call_receive_ok c call message rest s :
  duplex_ok s -> in_calls s !! c = Some call -> cl_phase call = Waiting -> cl_mailbox call = message :: rest ->
  duplex_ok (call_receive c message s).
Proof.
  intros Hs Hc Hp Hm. pose proof (dk_calls _ Hs c call Hc) as []. rewrite Hm in ca_mailbox0.
  apply Forall_cons in ca_mailbox0 as [H1 _]. unfold call_receive. apply (set_phase_ok c call); try done.
  - intros id p H E. destruct (dk_entries _ Hs id p H) as (call' & Hc' & []).
    rewrite E, Hc in Hc'. injection Hc' as <-. congruence.
  - intros frame [= Hf]. destruct message; [|done]. by injection Hf as ->.
Qed.

Lemma sender_alive_entry c s id p : in_pending s !! id = Some p -> pq_tx p = c -> sender_alive c s = true.
Proof.
  intros H E. unfold sender_alive. apply orb_true_iff. left. apply existsb_exists. exists (id, p).
  split; [by apply list_elem_of_In, elem_of_map_to_list|]. by apply Nat.eqb_eq.
Qed.

Lemma call_disconnected_ok c call s :
  duplex_ok s -> in_calls s !! c = Some call -> sender_alive c s = false -> duplex_ok (call_disconnected c s).
Proof.
  intros Hs Hc Ha. unfold call_disconnected, give_back. apply (set_phase_ok c call); try done.
  intros id p H E. by rewrite (sender_alive_entry c s id p) in Ha.
Qed.

Lemma call_step_ok c s call s' : call_step c s call s' -> in_calls s !! c = Some call -> duplex_ok s -> duplex_ok s'.
Proof.
  intros [] Hc Hs.
  - by apply call_check_ok.
  - by apply call_register_ok.
  - by apply call_build_ok.
  - by eapply call_send_ok.
  - by eapply call_write_ok.
  - by apply give_back_ok.
  - by eapply call_receive_ok.
  - by eapply call_disconnected_ok.
  - apply (set_phase_ok c call0); try done. intros id p H1 E. split; [done|]. intros Hr.
    destruct (dk_entries _ Hs id p H1) as (call' & Hc' & []). rewrite E, Hc in Hc'. injection Hc' as <-.
    specialize (en_exited0 Hr). by rewrite H in en_exited0.
  - unfold call_give_up. change (duplex_ok (bump request_timeouts (give_back c (Timeout (cl_request_id call0))
      (s <| in_pending := delete (cl_request_id call0) (in_pending s) |>)))). by apply bump_ok, give_back_ok.
Qed.

(** *** The reader *)

Lemma message_ok_mono received frame call m : message_ok received call m -> message_ok (received ++ [frame]) call m.
Proof. destruct m; [|done]. intros [H1 H2]. split; [done|]. apply elem_of_app. by left. Qed.

Lemma received_ok frame s : duplex_ok s -> duplex_ok (s <| in_received := in_received s ++ [frame] |>).
Proof.
  intros []. split; duplex_fields; try done.
  - intros c call H. destruct (dk_calls0 c call H). split; try done.
    + eapply Forall_impl; [exact ca_mailbox0|]. intros m. by apply message_ok_mono.
    + intros f Hf. by apply message_ok_mono, ca_returned0.
  - intros tx f H. destruct (dk_delivering0 tx f H) as (call & Hc & Hm & Hr). exists call. split; [done|].
    split; [by apply message_ok_mono|done].
Qed.

(** The reader goes on without a call at hand. *)
Lemma reader_phase_ok phase s :
  (forall tx frame, in_reader s <> Delivering tx frame) ->
  match phase with Reading | Routing _ => True | Stopping _ => in_closed s = true | _ => False end ->
  duplex_ok s -> duplex_ok (s <| in_reader := phase |>).
Proof.
  intros Hr Hp []. split; duplex_fields; try done.
  - intros id p H. destruct (dk_entries0 id p H) as (call & Hc & []). exists call. split; [done|]. by split; try done; destruct phase.
  - intros tx f ->. done.
  - intros reason [->|E]; [done|]. by subst phase.
Qed.

Lemma closed_ok s : duplex_ok s -> duplex_ok (s <| in_closed := true |>).
Proof. intros []. by split. Qed.

Lemma reader_stop_ok reason s :
  (forall tx frame, in_reader s <> Delivering tx frame) -> duplex_ok s -> duplex_ok (reader_stop reason s).
Proof. intros Hr Hs. unfold reader_stop. apply bump_ok, reader_phase_ok; [done|done|]. by apply closed_ok. Qed.

Lemma window_ok frames size s :
  duplex_ok s -> duplex_ok (s <| in_window_frames := frames |> <| in_window_bytes := size |>).
Proof. intros H. apply (duplex_ok_eq s); try done. apply H. Qed.

Lemma reader_frame_ok elapsed frame s : in_reader s = Reading -> duplex_ok s -> duplex_ok (reader_frame elapsed frame s).
Proof.
  intros Hr Hs. unfold reader_frame. cbv zeta.
  set (t := _ <| in_window_frames := _ |> <| in_window_bytes := _ |>).
  assert (duplex_ok t) as Ht by (apply window_ok, (received_ok frame (bump frames_received s)), bump_ok, Hs).
  assert (in_reader t = Reading) as Hrt by exact Hr.
  assert (forall tx f, in_reader t <> Delivering tx f) as Hd by (by rewrite Hrt).
  destruct (_ || _). { apply reader_stop_ok; [done|]. by apply bump_ok. }
  assert (duplex_ok (t <| in_reader := Routing frame |>)) as Hun by (by apply reader_phase_ok).
  destruct (in_pending t !! fr_request_id frame) as [p|] eqn:Ep; [|exact Hun].
  destruct (existsb _ (pq_expected_types p)) eqn:Et; [|exact Hun].
  apply bump_ok. destruct (dk_entries _ Ht _ _ Ep) as (call & Hc & []).
  pose proof (delete_ok (fr_request_id frame) t Ht) as []. split; duplex_fields; try done.
  - intros id q H. destruct (dk_entries0 id q H) as (call' & Hc' & []). exists call'. split; [done|]. split; try done.
    intros f [= E _]. apply lookup_delete_Some in H as [Hne _]. rewrite <- E, Hc in Hc'. injection Hc' as <-. congruence.
  - intros tx f [= <- <-]. exists call. split; [done|]. split; [|split; [done|by destruct (cl_phase call)]].
    split; [|apply elem_of_app; right; by left]. split; [done|]. rewrite en_types0.
    apply existsb_exists in Et as (ty & Hin & E%Z.eqb_eq). rewrite E. by apply list_elem_of_In.
  - by intros reason [?|?].
Qed.

Lemma reader_route_ok frame s : in_reader s = Routing frame -> duplex_ok s -> duplex_ok (reader_route frame s).
Proof.
  intros Hr Hs. assert (forall tx f, in_reader s <> Delivering tx f) as Hd by (by rewrite Hr).
  unfold reader_route. destruct (Z.ltb_spec (Z.of_nat (length (in_unsolicited s))) (lm_max_unsolicited_frames (in_limits s))).
  - apply bump_ok, reader_phase_ok; [done|done|]. apply (duplex_ok_eq s); try done. duplex_fields.
    rewrite length_app. cbn [length]. lia.
  - apply reader_stop_ok; [done|]. by apply bump_ok.
Qed.

Lemma reader_deliver_ok tx frame s :
  in_reader s = Delivering tx frame -> duplex_ok s -> duplex_ok (reader_deliver tx frame s).
Proof.
  intros Hr Hs. destruct (dk_delivering _ Hs tx frame Hr) as (call & Hc & Hm & Hb & Hg). destruct Hs.
  unfold reader_deliver, deliver. split; duplex_fields; try done.
  - intros id p H. destruct (dk_entries0 id p H) as (call' & Hc' & []).
    rewrite lookup_alter_ne by (intros E; apply (en_reader0 frame); congruence). exists call'. by split.
  - intros c call' H. destruct (decide (c = tx)) as [->|E].
    + rewrite lookup_alter_eq, Hc in H. apply Some_inj in H as <-. destruct (dk_calls0 tx call Hc).
      split; cbn [cl_mailbox cl_phase set set_cl_mailbox]; rewrite ?Hb; try done. by constructor.
    + rewrite lookup_alter_ne in H by done. by apply dk_calls0 in H.
  - by intros reason [?|?].
Qed.

(** What the drain puts into a mailbox. *)
Definition drained (c : nat) (entries : list (Z * PendingRequest)) : nat :=
  length (filter (fun e => pq_tx e.2 = c) entries).

Lemma drain_lookup reason entries calls c :
  fold_right (fun '(_, p) => deliver (pq_tx p) (Err reason)) calls entries !! c
  = (fun call => call <| cl_mailbox := cl_mailbox call ++ replicate (drained c entries) (Err reason) |>) <$> calls !! c.
Proof.
  induction entries as [|[id p] l IH]; cbn [fold_right].
  { destruct (calls !! c) as [call|]; [|done]. cbn. f_equal. unfold set, set_cl_mailbox. rewrite app_nil_r. by destruct call. }
  unfold deliver at 1, drained. cbn [filter]. destruct (decide (c = pq_tx p)) as [->|E].
  - rewrite lookup_alter_eq, IH. rewrite filter_cons_True by done. destruct (calls !! pq_tx p) as [call|]; [|done].
    cbn. f_equal. unfold set, set_cl_mailbox. cbn. rewrite <- app_assoc, <- replicate_cons_app. done.
  - rewrite lookup_alter_ne by done. by rewrite IH, filter_cons_False.
Qed.

Lemma drained_at_most_once s c :
  duplex_ok s -> (drained c (map_to_list (in_pending s)) <= 1)%nat /\
  (drained c (map_to_list (in_pending s)) <> 0%nat ->
   exists id p call, in_pending s !! id = Some p /\ in_calls s !! c = Some call /\ entry_ok (in_reader s) id p call).
Proof.
  intros Hs. unfold drained. set (l := filter _ _).
  assert (forall e, e ∈ l -> exists call, in_pending s !! e.1 = Some e.2 /\ in_calls s !! c = Some call /\
            entry_ok (in_reader s) e.1 e.2 call) as Hl.
  { intros [id p] H. apply list_elem_of_filter in H as [E H]. apply elem_of_map_to_list in H.
    destruct (dk_entries _ Hs id p H) as (call & Hc & Hok). cbn in E. rewrite E in Hc. by exists call. }
  assert (NoDup l) as Hnd by (apply NoDup_filter, NoDup_map_to_list). destruct l as [|e1 [|e2 l]]; cbn [length].
  - split; [lia|done].
  - split; [lia|]. intros _. destruct (Hl e1 ltac:(by left)) as (call & ?). by exists e1.1, e1.2, call.
  - exfalso. destruct (Hl e1 ltac:(by left)) as (call1 & H1 & Hc1 & []), (Hl e2 ltac:(right; by left)) as (call2 & H2 & Hc2 & []).
    rewrite Hc1 in Hc2. injection Hc2 as <-. assert (e1 = e2) as <-.
    { apply injective_projections; [congruence|]. rewrite <- en_id0, en_id1, H2 in H1. by injection H1. }
    apply NoDup_cons in Hnd as [Hnd _]. apply Hnd. by left.
Qed.

Lemma reader_drain_ok reason s : in_reader s = Stopping reason -> duplex_ok s -> duplex_ok (reader_drain reason s).
Proof.
  intros Hr Hs. pose proof (dk_closed _ Hs reason ltac:(by left)) as Hcl.
  pose proof (fun c => drained_at_most_once s c Hs) as Hd. unfold reader_drain.
  destruct Hs. split; duplex_fields; try done.
  - intros c call H. rewrite drain_lookup in H. destruct (in_calls s !! c) as [call0|] eqn:Ec; [|done].
    cbn in H. apply Some_inj in H as <-. destruct (dk_calls0 c call0 Ec). destruct (Hd c) as [H1 H2].
    destruct (drained c _) as [|[|n]]; [| |lia].
    { split; cbn [cl_mailbox cl_phase set set_cl_mailbox replicate]; rewrite ?app_nil_r; done. }
    destruct (H2 ltac:(done)) as (id & p & call' & _ & Hc' & []). rewrite Ec in Hc'. injection Hc' as <-.
    split; cbn [cl_mailbox cl_phase set set_cl_mailbox replicate]; rewrite ?en_mailbox0; try done.
    + by constructor.
    + intros _. by destruct (cl_phase call0).
  - rewrite map_size_empty. lia.
Qed.

(** *** All steps *)

Lemma start_call_ok c request_id message_type payload expected_types s :
  in_calls s !! c = None -> duplex_ok s ->
  duplex_ok (start_call c (new_call request_id message_type payload expected_types) s).
Proof.
  intros Hc []. unfold start_call. split; duplex_fields; try done.
  - intros id p H. destruct (dk_entries0 id p H) as (call & Hc' & Hok). exists call. split; [|done].
    rewrite lookup_insert_ne by congruence. done.
  - intros c' call H. apply lookup_insert_Some in H as [[<- <-]|[_ H]]; [|by eapply dk_calls0].
    split; cbn; try done; lia.
  - intros tx frame H. destruct (dk_delivering0 tx frame H) as (call & Hc' & Hok). exists call. split; [|done].
    rewrite lookup_insert_ne by congruence. done.
Qed.

Lemma allocate_ok s id s' :
  allocate_request_id s = Ok (id, s') -> in_closed s = false /\ exists next, s' = s <| in_next_request_id := next |>.
Proof.
  unfold allocate_request_id. destruct (in_closed s); [done|]. cbv zeta.
  destruct (negb _); intros [_ <-]%Ok_inj%pair_inj; (split; [done|by eexists]).
Qed.

Lemma step_ok s s' : step s s' -> duplex_ok s -> duplex_ok s'.
Proof.
  intros [elapsed frame Hr|reason Hr|tx frame Hr|frame Hr|reason Hr|c id ty payload types Hc|
          c ty payload types id s1 Hc Ha|c call s1 Hc Hst|frame s1 Hrecv|] Hs.
  - by apply reader_frame_ok.
  - apply reader_stop_ok; [by rewrite Hr|done].
  - by apply reader_deliver_ok.
  - by apply reader_route_ok.
  - by apply reader_drain_ok.
  - by apply start_call_ok.
  - apply allocate_ok in Ha as (_ & next & ->). apply start_call_ok; [done|]. apply (duplex_ok_eq s); try done. apply Hs.
  - by eapply call_step_ok.
  - unfold recv_unsolicited in Hrecv. destruct (in_unsolicited s) as [|f rest] eqn:E; [done|]. injection Hrecv as <- <-.
    apply (duplex_ok_eq s); try done. duplex_fields. pose proof (dk_unsolicited _ Hs) as H. rewrite E in H. cbn [length] in H. lia.
  - by apply closed_ok.
Qed.

(** Every received frame is counted once more: as a response, as unsolicited, as
    the one that exceeded the budget or the queue, or it is being routed. *)
Definition routing (s : Inner) : Z := match in_reader s with Routing _ => 1 | _ => 0 end.

(** How a counter enters the account. *)
Definition weight (m : DuplexMetrics) : Z :=
  match m with
  | frames_received => 1
  | responses_routed | unsolicited_routed | rate_limit_closes | unsolicited_overflow_closes => -1
  | _ => 0
  end.

Definition balance (s : Inner) : Z :=
  in_metrics s frames_received - in_metrics s responses_routed - in_metrics s unsolicited_routed
  - in_metrics s rate_limit_closes - in_metrics s unsolicited_overflow_closes.

(** The counters wrap around. *)
Definition moved (s t : Inner) (d : Z) : Prop := exists j, balance t = balance s + d + 2 ^ 64 * j.

Definition accounted (s : Inner) : Prop := balance s mod 2 ^ 64 = routing s.

Lemma moved_refl s : moved s s 0.
Proof. exists 0. lia. Qed.

Lemma moved_bump s t d m : moved s t d -> moved s (bump m t) (d + weight m).
Proof.
  intros [j Hj]. unfold moved, balance, bump in *. cbn [in_metrics set set_in_metrics].
  destruct m; cbn [weight]; repeat case_bool_decide; try discriminate; try congruence; rewrite ?Z.mod_eq by done.
  all: try (exists j; lia).
  - exists (j - (in_metrics t frames_received + 1) / 2 ^ 64). lia.
  - exists (j + (in_metrics t responses_routed + 1) / 2 ^ 64). lia.
  - exists (j + (in_metrics t unsolicited_routed + 1) / 2 ^ 64). lia.
  - exists (j + (in_metrics t unsolicited_overflow_closes + 1) / 2 ^ 64). lia.
  - exists (j + (in_metrics t rate_limit_closes + 1) / 2 ^ 64). lia.
Qed.

Lemma moved_by s t d m e : moved s t d -> e = d + weight m -> moved s (bump m t) e.
Proof. intros H ->. by apply moved_bump. Qed.

Lemma moved_accounted s t d :
  moved s t d -> routing t = routing s + d -> 0 <= routing t < 2 ^ 64 -> accounted s -> accounted t.
Proof.
  intros [j Hj] Hr Hb Hs. unfold accounted in *. rewrite Hj, Z.mul_comm, Z_mod_plus_full.
  rewrite Z.add_mod, Hs, <- (Z.mod_small (routing s) (2 ^ 64)), <- Z.add_mod, <- Hr by (done || (unfold routing; destruct (in_reader s); lia)).
  by apply Z.mod_small.
Qed.

Lemma routing_range s : 0 <= routing s < 2 ^ 64.
Proof. unfold routing. by destruct (in_reader s). Qed.

(** The steps of a call and of the user move nothing. *)
Lemma still_accounted s t : moved s t 0 -> in_reader t = in_reader s -> accounted s -> accounted t.
Proof.
  intros Hm Hr. apply (moved_accounted s t 0 Hm); [|apply routing_range]. unfold routing. rewrite Hr. lia.
Qed.

Lemma call_step_accounted c s call s' : call_step c s call s' -> accounted s -> accounted s'.
Proof.
  intros H. apply still_accounted; destruct H;
    unfold call_check, call_register, call_build, call_send, call_write, call_withdraw, call_receive, call_disconnected,
      call_give_up; repeat case_match; try done.
  all: first [exact (moved_refl s) | exact (moved_bump s s 0 pending_limit_rejections (moved_refl s))
             | exact (moved_bump s s 0 requests_started (moved_refl s)) | exact (moved_bump s s 0 frames_sent (moved_refl s))
             | exact (moved_bump s s 0 request_timeouts (moved_refl s))].
Qed.

Lemma reader_stop_moved reason s t d : moved s t d -> moved s (reader_stop reason t) d.
Proof.
  intros H. unfold reader_stop. apply (moved_by s _ d); [exact H|cbn; lia].
Qed.

Lemma reader_frame_moved elapsed frame s :
  in_reader s = Reading ->
  exists d, moved s (reader_frame elapsed frame s) d /\ routing (reader_frame elapsed frame s) = d.
Proof.
  intros Hr. unfold reader_frame. cbv zeta. set (t := _ <| in_window_frames := _ |> <| in_window_bytes := _ |>).
  assert (moved s t 1) as Ht by exact (moved_bump s s 0 frames_received (moved_refl s)).
  destruct (_ || _).
  { exists 0. split; [|done]. apply reader_stop_moved. by apply (moved_by s _ 1). }
  destruct (in_pending t !! fr_request_id frame) as [p|]; [|by exists 1].
  destruct (existsb _ _); [|by exists 1]. exists 0. split; [|done].
  apply (moved_by s _ 1); [exact Ht|done].
Qed.

Lemma reader_route_moved frame s :
  in_reader s = Routing frame -> moved s (reader_route frame s) (-1) /\ routing (reader_route frame s) = 0.
Proof.
  intros Hr. unfold reader_route. destruct (_ <? _); (split; [|done]).
  - apply (moved_by s _ 0); [exact (moved_refl s)|done].
  - apply reader_stop_moved. apply (moved_by s _ 0); [exact (moved_refl s)|done].
Qed.

Lemma step_accounted s s' : step s s' -> accounted s -> accounted s'.
Proof.
  intros [elapsed frame Hr|reason Hr|tx frame Hr|frame Hr|reason Hr|c id ty payload types Hc|
          c ty payload types id s1 Hc Ha|c call s1 Hc Hst|frame s1 Hrecv|].
  - destruct (reader_frame_moved elapsed frame s Hr) as (d & Hm & Hd).
    apply (moved_accounted s _ d Hm); [|apply routing_range]. unfold routing at 2. rewrite Hr, Hd. lia.
  - apply (moved_accounted s _ 0); [by apply reader_stop_moved, moved_refl| |apply routing_range].
    unfold routing. by rewrite Hr.
  - apply (moved_accounted s (reader_deliver tx frame s) 0 (moved_refl s)); [|apply routing_range]. unfold routing. by rewrite Hr.
  - destruct (reader_route_moved frame s Hr) as [Hm Hd].
    apply (moved_accounted s _ (-1) Hm); [|apply routing_range]. unfold routing at 2. rewrite Hr, Hd. lia.
  - apply (moved_accounted s (reader_drain reason s) 0 (moved_refl s)); [|apply routing_range]. unfold routing. by rewrite Hr.
  - by apply still_accounted; [exact (moved_refl s)|].
  - apply allocate_ok in Ha as (_ & next & ->). by apply still_accounted; [exact (moved_refl s)|].
  - by eapply call_step_accounted.
  - unfold recv_unsolicited in Hrecv. destruct (in_unsolicited s) as [|f rest]; [done|]. injection Hrecv as <- <-.
    by apply still_accounted; [exact (moved_refl s)|].
  - by apply still_accounted; [exact (moved_refl s)|].
Qed.

(** ** What the session promises *)

(** The sizes are [usize]s. *)
Definition limits_wf (l : DuplexLimits) : Prop := 0 <= lm_max_pending_requests l /\ 0 <= lm_max_unsolicited_frames l.

Definition opened (limits : DuplexLimits) (s0 : Inner) : Prop :=
  limits_wf limits /\ exists magic lane_high_bit, from_authenticated_stream_with_limits magic lane_high_bit limits = Ok s0.

Lemma opened_ok limits s0 : opened limits s0 -> duplex_ok s0 /\ accounted s0 /\ in_limits s0 = limits.
Proof.
  intros ([H1 H2] & magic & lane & H). unfold from_authenticated_stream_with_limits in H. destruct (_ || _); [done|].
  apply Ok_inj in H as <-. split; [|by split]. split; duplex_fields; try done. by intros reason [?|?].
Qed.

Lemma call_step_limits c s call s' : call_step c s call s' -> in_limits s' = in_limits s.
Proof.
  intros []; unfold call_check, call_register, call_build, call_send, call_write, call_withdraw, call_receive,
    call_disconnected, call_give_up; by repeat case_match.
Qed.

Lemma step_limits s s' : step s s' -> in_limits s' = in_limits s.
Proof.
  intros []; try done.
  - unfold reader_frame. cbv zeta. by repeat case_match.
  - unfold reader_route. by case_match.
  - by match goal with H : allocate_request_id _ = _ |- _ => apply allocate_ok in H as (_ & next & ->) end.
  - by eapply call_step_limits.
  - unfold recv_unsolicited in H. by destruct (in_unsolicited s); [|injection H as <- <-].
Qed.

Lemma reachable_ok limits s0 s :
  opened limits s0 -> rtc step s0 s -> duplex_ok s /\ accounted s /\ in_limits s = limits.
Proof.
  intros H Hrun. apply opened_ok in H. induction Hrun as [|s t u Hst _ IH]; [done|]. apply IH.
  destruct H as (H1 & H2 & H3). split; [by eapply step_ok|]. split; [by eapply step_accounted|].
  by rewrite (step_limits _ _ Hst).
Qed.

(** C24: responses reach their requests.  In every interleaving of any number of
    requests, of both ways to number them, with whatever the peer sends: a
    request that returns a frame returns one that the peer sent with the
    request's identifier and one of its expected types; a waiting request gets at
    most one message; the pending table and the queue of unsolicited frames keep
    their bounds; and every frame that arrived was answered to one request, put
    into the queue, or closed the session. *)
Theorem responses_reach_requests limits s0 s :
  opened limits s0 -> rtc step s0 s ->
  (forall c call, in_calls s !! c = Some call ->
     (length (cl_mailbox call) <= 1)%nat /\
     forall frame, cl_phase call = Returned (Ok frame) ->
       fr_request_id frame = cl_request_id call /\ fr_message_type frame ∈ cl_expected_types call /\
       frame ∈ in_received s) /\
  Z.of_nat (size (in_pending s)) <= lm_max_pending_requests limits /\
  Z.of_nat (length (in_unsolicited s)) <= lm_max_unsolicited_frames limits /\
  balance s mod 2 ^ 64 = routing s.
Proof.
  intros H Hrun. destruct (reachable_ok limits s0 s H Hrun) as ([] & Hacc & <-). split; [|done].
  intros c call Hc. destruct (dk_calls0 c call Hc). split; [done|]. intros frame Hf.
  destruct (ca_returned0 frame Hf) as [[]]. done.
Qed.

(** *** Every request returns *)

(** How many own steps a call has left at most. *)
Definition rank (phase : Phase) : nat :=
  match phase with
  | Checking => 7 | Registering => 6 | Building => 5 | Sending _ => 4 | Writing _ => 3 | Waiting => 2
  | Withdrawing _ | Expiring => 1
  | Returned _ => 0
  end.

Lemma set_phase_lookup c call phase s :
  in_calls s !! c = Some call -> in_calls (set_phase c phase s) !! c = Some (call <| cl_phase := phase |>).
Proof. intros Hc. unfold set_phase. duplex_fields. by rewrite lookup_alter_eq, Hc. Qed.

(** A step of a call moves its phase. *)
Lemma call_step_phase c s call s' :
  in_calls s !! c = Some call -> call_step c s call s' ->
  exists phase, in_calls s' !! c = Some (call <| cl_phase := phase |>) /\ (rank phase < rank (cl_phase call))%nat /\
    (phase = Expiring -> cl_phase call = Waiting).
Proof.
  intros Hc H; destruct H as [k Hp|k Hp|k Hp|k f Hp|k f w Hp|k e Hp|k m rest Hp Hm|k Hp Hm Ha|k Hp Hm|k Hp]; rewrite Hp;
    unfold call_check, call_register, call_build, call_send, call_write, call_withdraw, call_receive, call_disconnected,
      call_give_up, give_back; repeat case_match;
    (eexists; split; [apply set_phase_lookup; exact Hc|split; [cbn; lia|done]]).
Qed.

(** A waiting call whose reader is gone has been told. *)
Lemma exited_wakes s c call :
  duplex_ok s -> in_reader s = Exited -> in_calls s !! c = Some call -> cl_phase call = Waiting ->
  cl_mailbox call = [] -> sender_alive c s = false.
Proof.
  intros Hs Hr Hc Hp Hm. unfold sender_alive. rewrite Hr, orb_false_r. apply not_true_is_false. intros H.
  apply existsb_exists in H as ([id p] & H & E%Nat.eqb_eq). apply list_elem_of_In, elem_of_map_to_list in H.
  destruct (dk_entries _ Hs id p H) as (call' & Hc' & []). rewrite E, Hc in Hc'. injection Hc' as <-.
  specialize (en_exited0 Hr). by rewrite Hp in en_exited0.
Qed.

(** A call that is not waiting can go on without a timeout. *)
Lemma call_goes_on c s call :
  cl_phase call <> Waiting -> (forall r, cl_phase call <> Returned r) -> exists s', call_step c s call s'.
Proof.
  intros Hw Hr. destruct (cl_phase call) eqn:E; [..|by destruct (Hr r)]; try done; eexists.
  - by apply do_check.
  - by apply do_register.
  - by apply do_build.
  - by eapply do_send.
  - by apply (do_write c s call frame true).
  - by apply do_withdraw.
  - by apply do_give_up.
Qed.

(** C25: every request returns.  In every reachable state a request that has not
    returned can make a step of its own, no step of its own is repeated (at most
    seven are left), and the other threads cannot take that away.  Once the
    reader has ended, for whatever reason, no request depends on its timeout any
    more: the ones that wait hold the reason in their channel, or the sending
    half of it is gone, also when they registered while the reader was stopping. *)
Theorem requests_return limits s0 s c call :
  opened limits s0 -> rtc step s0 s -> in_calls s !! c = Some call -> (forall r, cl_phase call <> Returned r) ->
  (exists s', call_step c s call s') /\
  (in_reader s = Exited -> exists s' phase, call_step c s call s' /\
     in_calls s' !! c = Some (call <| cl_phase := phase |>) /\ phase <> Expiring) /\
  (forall s', call_step c s call s' -> exists phase,
     in_calls s' !! c = Some (call <| cl_phase := phase |>) /\ (rank phase < rank (cl_phase call))%nat).
Proof.
  intros Ho Hrun Hc Hret. destruct (reachable_ok limits s0 s Ho Hrun) as (Hs & _). split; [|split].
  - destruct (decide (rank (cl_phase call) = 2%nat)) as [E|E].
    + assert (cl_phase call = Waiting) as Hw by (by destruct (cl_phase call)).
      destruct (cl_mailbox call) as [|m rest] eqn:Hm; eexists; [by apply do_expire|by eapply do_receive].
    + apply call_goes_on; [|done]. intros Hw. by rewrite Hw in E.
  - intros Hr. destruct (decide (rank (cl_phase call) = 2%nat)) as [E|E].
    + assert (cl_phase call = Waiting) as Hw by (by destruct (cl_phase call)).
      destruct (cl_mailbox call) as [|m rest] eqn:Hm; eexists _, _.
      * split; [by apply do_disconnected; [..|by eapply exited_wakes]|]. split; [by apply set_phase_lookup|done].
      * split; [by eapply do_receive|]. split; [by apply set_phase_lookup|done].
    + destruct (call_goes_on c s call) as [s' Hst]; [intros Hw; by rewrite Hw in E|done|].
      destruct (call_step_phase c s call s' Hc Hst) as (phase & Hp & _ & Hx). exists s', phase. split; [done|].
      split; [done|]. intros H. rewrite (Hx H) in E. done.
  - intros s' Hst. destruct (call_step_phase c s call s' Hc Hst) as (phase & Hp & Hk & _). by exists phase.
Qed.

(** *** Identifiers *)

Lemma normalize_low id : 0 <= id < 2 ^ 64 -> normalize_request_id false id = id mod 2 ^ 63.
Proof.
  intros H. unfold normalize_request_id. change (Z.shiftl 1 63) with (2 ^ 63).
  apply Z.bits_inj'. intros i Hi. rewrite Z.land_spec, Z.lnot_spec, Z.pow2_bits_eqb by lia.
  destruct (Z.ltb_spec i 63) as [Hl|Hl].
  - rewrite Z.mod_pow2_bits_low by lia. destruct (Z.eqb_spec 63 i); [lia|]. by rewrite andb_true_r.
  - rewrite Z.mod_pow2_bits_high by lia. destruct (Z.eqb_spec 63 i) as [<-|]; [by rewrite andb_false_r|].
    rewrite (Z.bits_above_log2 id i); [done|lia|]. destruct (Z.eq_dec id 0) as [->|]; [cbn; lia|].
    assert (Z.log2 id < 64) by (apply Z.log2_lt_pow2; lia). lia.
Qed.

Lemma normalize_high id : 0 <= id < 2 ^ 64 -> normalize_request_id true id = id mod 2 ^ 63 + 2 ^ 63.
Proof.
  intros H. rewrite <- (normalize_low id H). unfold normalize_request_id. change (Z.shiftl 1 63) with (2 ^ 63).
  rewrite <- Z.add_lor_land.
  replace (Z.land (Z.land id (Z.lnot (2 ^ 63))) (2 ^ 63)) with 0.
  2: { symmetry. apply Z.bits_inj'. intros i Hi.
    rewrite !Z.land_spec, Z.lnot_spec, Z.pow2_bits_eqb, Z.bits_0 by lia. by destruct (63 =? i), (Z.testbit id i). }
  rewrite Z.add_0_r. apply Z.bits_inj'. intros i Hi.
  rewrite !Z.lor_spec, Z.land_spec, Z.lnot_spec, Z.pow2_bits_eqb by lia.
  by destruct (63 =? i), (Z.testbit id i).
Qed.

(** The allocations of a session that nobody closes. *)
Fixpoint allocate_ids (n : nat) (s : Inner) : duplex_result (list Z * Inner) :=
  match n with
  | O => Ok ([], s)
  | S n =>
      let? (id, s) := allocate_request_id s in
      let? (ids, s) := allocate_ids n s in
      Ok (id :: ids, s)
  end.

Definition first_request_id (lane_high_bit : bool) : Z := if lane_high_bit then 2 ^ 63 else 1.

Lemma allocate_first s k :
  in_closed s = false -> 0 <= k < 2 ^ 63 - 1 ->
  in_next_request_id s = first_request_id (in_lane_high_bit s) + k ->
  allocate_request_id s = Ok (first_request_id (in_lane_high_bit s) + k,
    s <| in_next_request_id := first_request_id (in_lane_high_bit s) + (k + 1) |>).
Proof.
  intros Hc Hk Hn. unfold allocate_request_id. rewrite Hc, Hn. cbv zeta. unfold first_request_id.
  destruct (in_lane_high_bit s).
  - rewrite normalize_high by lia. rewrite Z.add_mod, Z.mod_same, Z.add_0_l, Z.mod_mod, (Z.mod_small k) by lia.
    destruct (Z.eqb_spec (k + 2 ^ 63) 0); [lia|]. cbn [negb]. rewrite (Z.mod_small (2 ^ 63 + k + 1)) by lia.
    by rewrite (Z.add_comm k (2 ^ 63)), <- Z.add_assoc.
  - rewrite normalize_low, Z.mod_small by lia. destruct (Z.eqb_spec (1 + k) 0); [lia|]. cbn [negb].
    rewrite Z.mod_small by lia. by rewrite <- Z.add_assoc.
Qed.

Lemma allocate_ids_seq n s k ids s' :
  in_closed s = false -> 0 <= k -> k + Z.of_nat n < 2 ^ 63 ->
  in_next_request_id s = first_request_id (in_lane_high_bit s) + k ->
  allocate_ids n s = Ok (ids, s') ->
  ids = map (fun i => first_request_id (in_lane_high_bit s) + (k + Z.of_nat i)) (seq 0 n).
Proof.
  revert s k ids; induction n as [|n IH]; intros s k ids Hc Hk Hn Hs H; cbn [allocate_ids] in H.
  { by apply Ok_inj, pair_inj in H as [<- _]. }
  rewrite (allocate_first s k) in H by (done || lia). destruct (allocate_ids n _) as [[ids' s2]|] eqn:E; [|done].
  apply Ok_inj, pair_inj in H as [<- <-]. apply (IH _ (k + 1)) in E; [|done|lia|lia|done].
  rewrite E. cbn [seq map]. f_equal; [f_equal; lia|]. rewrite <- seq_shift, map_map. apply map_ext. intros i.
  cbn [in_lane_high_bit set set_in_next_request_id]. f_equal. lia.
Qed.

(** The identifiers of the two ends of a connection do not collide.  A
    session allocates its first [2^63 - 1] identifiers without repetition and
    never zero, which announces an unsolicited frame; those of the session with
    the high bit are the upper half of the range and those of the other the lower. *)
Theorem request_ids_distinct magic lane_high_bit limits s n ids s' :
  from_authenticated_stream_with_limits magic lane_high_bit limits = Ok s -> Z.of_nat n < 2 ^ 63 ->
  allocate_ids n s = Ok (ids, s') ->
  length ids = n /\ NoDup ids /\
  Forall (fun id => if lane_high_bit then 2 ^ 63 <= id < 2 ^ 64 else 0 < id < 2 ^ 63) ids.
Proof.
  intros Hs Hn H. unfold from_authenticated_stream_with_limits in Hs. destruct (_ || _); [done|]. apply Ok_inj in Hs as <-.
  apply (allocate_ids_seq n _ 0) in H; [|done|lia|lia|by destruct lane_high_bit]. subst ids. cbn [in_lane_high_bit].
  split; [by rewrite length_map, length_seq|]. split.
  - assert (Inj (=) (=) (fun i : nat => first_request_id lane_high_bit + (0 + Z.of_nat i))) by (intros i j E; lia).
    apply (NoDup_fmap_2 _), NoDup_seq.
  - apply Forall_forall. intros id Hid. apply list_elem_of_In, in_map_iff in Hid as (i & <- & Hi%in_seq).
    unfold first_request_id. destruct lane_high_bit; lia.
Qed.

(** *** Requests that are too large

    [Frame::new] fails after the entry was inserted, and the [?] returns without
    taking it out. *)

(** [n] requests were made, none of them is under way, and all entries are left. *)
Record clogged (n : nat) (s : Inner) : Prop := {
  cg_reader : in_reader s = Reading;
  cg_open : in_closed s = false;
  cg_lane : in_lane_high_bit s = false;
  cg_next : in_next_request_id s = 1 + Z.of_nat n;
  cg_size : size (in_pending s) = n;
  cg_ids : forall id, is_Some (in_pending s !! id) -> id <= Z.of_nat n;
  cg_calls : forall c call, in_calls s !! c = Some call ->
    (c < n)%nat /\ cl_phase call = Returned (Err (P2p PayloadTooLarge));
}.

Lemma clog_once n s (payload : bytes) :
  MAX_P2P_PAYLOAD < Z.of_nat (length payload) -> Z.of_nat n < lm_max_pending_requests (in_limits s) ->
  Z.of_nat n < 2 ^ 63 - 1 -> clogged n s -> exists s', rtc step s s' /\ clogged (S n) s' /\ in_limits s' = in_limits s.
Proof.
  intros Hp Hl Hn []. assert (in_calls s !! n = None) as Hc.
  { destruct (in_calls s !! n) as [call|] eqn:E; [|done]. apply cg_calls0 in E as [E _]. lia. }
  assert (in_pending s !! (1 + Z.of_nat n) = None) as He.
  { destruct (in_pending s !! (1 + Z.of_nat n)) eqn:E; [|done]. specialize (cg_ids0 (1 + Z.of_nat n) ltac:(by eexists)). lia. }
  pose proof (allocate_first s (Z.of_nat n) cg_open0 ltac:(lia)) as Ha. rewrite cg_lane0 in Ha. cbn [first_request_id] in Ha.
  specialize (Ha cg_next0).
  set (id := 1 + Z.of_nat n) in *. set (call := new_call id MSG_TX payload [MSG_TX]).
  set (s1 := start_call n call (s <| in_next_request_id := 1 + (Z.of_nat n + 1) |>)).
  assert (in_calls s1 !! n = Some call) as H1 by (unfold s1, start_call; duplex_fields; by rewrite lookup_insert_eq).
  set (s2 := call_check n call s1). assert (s2 = set_phase n Registering s1) as E2.
  { unfold s2, call_check. change (cl_expected_types call) with [MSG_TX]. cbn iota. change (in_closed s1) with (in_closed s). by rewrite cg_open0. }
  assert (in_calls s2 !! n = Some (call <| cl_phase := Registering |>)) as H2 by (rewrite E2; by apply set_phase_lookup).
  set (s3 := call_register n (call <| cl_phase := Registering |>) s2).
  assert (s3 = set_phase n Building (s2 <| in_pending := <[id := {| pq_expected_types := [MSG_TX]; pq_tx := n |}]> (in_pending s) |>)) as E3.
  { unfold s3, call_register. change (cl_request_id (call <| cl_phase := Registering |>)) with id.
    change (cl_expected_types (call <| cl_phase := Registering |>)) with [MSG_TX]. rewrite E2.
    change (in_pending (set_phase n Registering s1)) with (in_pending s). rewrite He.
    change (in_limits (set_phase n Registering s1)) with (in_limits s).
    destruct (Z.leb_spec (lm_max_pending_requests (in_limits s)) (Z.of_nat (size (in_pending s)))); [lia|done]. }
  assert (in_calls s3 !! n = Some (call <| cl_phase := Building |>)) as H3.
  { rewrite E3. change (call <| cl_phase := Building |>) with (call <| cl_phase := Registering |> <| cl_phase := Building |>).
    by apply set_phase_lookup. }
  set (s4 := call_build n (call <| cl_phase := Building |>) s3).
  assert (s4 = give_back n (P2p PayloadTooLarge) (bump requests_started s3)) as E4.
  { unfold s4, call_build. change (cl_payload (call <| cl_phase := Building |>)) with payload. unfold Frame_new.
    destruct (Z.ltb_spec MAX_P2P_PAYLOAD (Z.of_nat (length payload))); [done|lia]. }
  exists s4. split; [|split].
  - eapply rtc_l; [by apply (step_request s n MSG_TX payload [MSG_TX] id _ Hc Ha)|].
    eapply rtc_l; [by eapply (step_call s1 n); [exact H1|apply do_check]|].
    eapply rtc_l; [by eapply (step_call s2 n); [exact H2|apply do_register]|].
    apply rtc_once. by eapply (step_call s3 n); [exact H3|apply do_build].
  - rewrite E4, E3, E2. split; duplex_fields; try done.
    + cbn. lia.
    + cbn. rewrite map_size_insert_None by done. by rewrite cg_size0.
    + intros k Hk. cbn in Hk. destruct (decide (k = id)) as [->|Hne]; [lia|].
      rewrite lookup_insert_ne in Hk by done. apply cg_ids0 in Hk. lia.
    + intros c k Hk. cbn in Hk. destruct (decide (c = n)) as [->|Hne].
      * rewrite !lookup_alter_eq, lookup_insert_eq in Hk. cbn in Hk. injection Hk as <-. split; [lia|done].
      * rewrite !lookup_alter_ne, lookup_insert_ne in Hk by done. apply cg_calls0 in Hk as [? ?]. split; [lia|done].
  - by rewrite E4, E3, E2.
Qed.

Lemma clog n s (payload : bytes) :
  MAX_P2P_PAYLOAD < Z.of_nat (length payload) -> Z.of_nat n <= lm_max_pending_requests (in_limits s) ->
  Z.of_nat n < 2 ^ 63 -> clogged 0 s -> exists s', rtc step s s' /\ clogged n s' /\ in_limits s' = in_limits s.
Proof.
  intros Hp Hl Hn Hs. induction n as [|n IH]; [by exists s|].
  destruct IH as (t & Hrun & Ht & Hlim); [lia|lia|].
  destruct (clog_once n t payload Hp) as (u & Hu & Hc & Hlu); [rewrite Hlim; lia|lia|done|].
  exists u. split; [by etrans|]. split; [done|]. congruence.
Qed.

(** Oversized requests use a session up.  A request whose payload does not
    fit into a frame is refused, but its entry stays in the pending table.  A
    session with the default limits reaches a state in which every request has
    returned with that error, the connection is open and read, and yet each
    further request is refused because 64 requests are supposed to be pending. *)
Theorem oversized_requests_exhaust :
  exists s0 s, opened DuplexLimits_default s0 /\ rtc step s0 s /\ in_reader s = Reading /\ in_closed s = false /\
    (forall c call, in_calls s !! c = Some call -> cl_phase call = Returned (Err (P2p PayloadTooLarge))) /\
    forall c call, in_pending s !! cl_request_id call = None ->
      call_register c call s
      = give_back c (ResourceLimit "pending request cap 64 reached") (bump pending_limit_rejections s).
Proof.
  destruct (from_authenticated_stream_with_limits P2P_MAGIC_DEVNET false DuplexLimits_default) as [s0|] eqn:E0; [|discriminate E0].
  assert (clogged 0 s0) as H0.
  { apply Ok_inj in E0 as <-. split; try done. by intros id [x Hx]. }
  assert (in_limits s0 = DuplexLimits_default) as Hl by (by apply Ok_inj in E0 as <-).
  destruct (clog 64 s0 (replicate (Z.to_nat MAX_P2P_PAYLOAD + 1) Byte.x00)) as (s & Hrun & [] & Hlim); [|by rewrite Hl|done|done|].
  { rewrite length_replicate. unfold MAX_P2P_PAYLOAD. lia. }
  exists s0, s. split; [split; [done|by exists P2P_MAGIC_DEVNET, false]|]. split; [done|]. split; [done|]. split; [done|]. split.
  - intros c call Hc. by apply cg_calls0 in Hc as [_ ?].
  - intros c call Hc. unfold call_register. rewrite Hc, cg_size0, Hlim, Hl. reflexivity.
Qed.

(** *** Which of two connections survives

    Two nodes that dial each other hold two connections; each node sees its own
    as [Outbound] and the other as [Inbound]. *)

Definition opposite (d : ConnectionDirection) : ConnectionDirection :=
  match d with Inbound => Outbound | Outbound => Inbound end.

(** What a node keeps when candidates arrive in this order. *)
Definition settle (local_node_id remote_node_id : bytes32) (current : ConnectionDirection)
    (candidates : list ConnectionDirection) : ConnectionDirection :=
  fold_left (fun current candidate =>
      if candidate_should_replace local_node_id remote_node_id current candidate then candidate else current)
    candidates current.

Lemma settle_preferred a b current candidates :
  preferred_direction a b ∈ current :: candidates -> settle a b current candidates = preferred_direction a b.
Proof.
  revert current; induction candidates as [|d l IH]; intros current H; cbn [settle fold_left].
  - by apply list_elem_of_singleton in H as <-.
  - apply IH. unfold candidate_should_replace. apply elem_of_cons in H as [<-|[H|H]%elem_of_cons].
    + case_bool_decide as E; [by left|]. case_bool_decide as E2; [|by left]. rewrite E2. by left.
    + rewrite <- H. case_bool_decide as E; [rewrite <- E; by left|]. rewrite bool_decide_eq_true_2 by done. by left.
    + by right.
Qed.

Lemma preferred_opposite a b :
  is32 a -> is32 b -> a <> b -> preferred_direction b a = opposite (preferred_direction a b).
Proof.
  intros Ha Hb Hne. unfold preferred_direction. rewrite !bytes_ltb_be_val by congruence.
  assert (be_val a <> be_val b) by (intros E; apply Hne; by apply (be_val_inj a b); [congruence|]).
  destruct (Z.ltb_spec (be_val a) (be_val b)), (Z.ltb_spec (be_val b) (be_val a)); (done || lia).
Qed.

(** Both ends keep the same connection.  When two nodes have dialled each
    other, each of them, whatever the order in which it sees the candidates and
    however often, ends with the connection that the node with the smaller
    identifier has dialled. *)
Theorem duplicate_election_agrees a b first_a rest_a first_b rest_b :
  is32 a -> is32 b -> a <> b ->
  (forall d, d ∈ first_a :: rest_a) -> (forall d, d ∈ first_b :: rest_b) ->
  settle b a first_b rest_b = opposite (settle a b first_a rest_a) /\
  settle a b first_a rest_a = if be_val a <? be_val b then Outbound else Inbound.
Proof.
  intros Ha Hb Hne H1 H2. rewrite !settle_preferred by done. split; [by apply preferred_opposite|].
  unfold preferred_direction. by rewrite bytes_ltb_be_val by congruence.
Qed.

(** ** Examples *)

Module duplex_demo.
Definition origin : Inner :=
  {| in_magic := P2P_MAGIC_DEVNET; in_pending := ∅; in_unsolicited := []; in_limits := DuplexLimits_default;
     in_closed := false; in_next_request_id := 1; in_lane_high_bit := false; in_metrics := fun _ => 0;
     in_window_frames := 0; in_window_bytes := 0; in_reader := Reading; in_calls := ∅; in_received := [] |}.

Definition pong : Frame :=
  {| fr_magic := P2P_MAGIC_DEVNET; fr_version := 1; fr_message_type := MSG_PONG; fr_flags := 0; fr_request_id := 1;
     fr_payload := [] |}.

(** A PING is sent; the PONG arrives, or the connection breaks. *)
Definition ping : Call := new_call 1 MSG_PING [] [MSG_PONG].
Definition ping_frame : Frame :=
  {| fr_magic := P2P_MAGIC_DEVNET; fr_version := 1; fr_message_type := MSG_PING; fr_flags := 0; fr_request_id := 1;
     fr_payload := [] |}.
Definition started : Inner := start_call 0 ping (origin <| in_next_request_id := 2 |>).
Definition waiting : Inner :=
  call_write true 0 (call_send 0 ping_frame (call_build 0 (ping <| cl_phase := Building |>)
    (call_register 0 (ping <| cl_phase := Registering |>) (call_check 0 ping started)))).
Definition answered : Inner := call_receive 0 (Ok pong) (reader_deliver 0 pong (reader_frame false pong waiting)).
Definition broken : Inner := reader_drain "eof" (reader_stop "eof" waiting).
End duplex_demo.

Lemma demo_opened : opened DuplexLimits_default duplex_demo.origin.
Proof. split; [split; discriminate|]. exists P2P_MAGIC_DEVNET, false. reflexivity. Defined.

Lemma demo_waiting : rtc step duplex_demo.origin duplex_demo.waiting.
Proof.
  eapply rtc_l; [apply (step_request _ 0%nat MSG_PING [] [MSG_PONG] 1); reflexivity|].
  eapply rtc_l; [eapply (step_call _ 0%nat); [reflexivity|apply do_check; reflexivity]|].
  eapply rtc_l; [eapply (step_call _ 0%nat); [reflexivity|apply do_register; reflexivity]|].
  eapply rtc_l; [eapply (step_call _ 0%nat); [reflexivity|apply do_build; reflexivity]|].
  eapply rtc_l; [eapply (step_call _ 0%nat); [reflexivity|apply (do_send _ _ _ duplex_demo.ping_frame); reflexivity]|].
  eapply rtc_l; [eapply (step_call _ 0%nat); [reflexivity|apply (do_write _ _ _ duplex_demo.ping_frame true); reflexivity]|].
  reflexivity.
Defined.

Lemma responses_reach_requests_witness :
  exists call, in_calls duplex_demo.answered !! 0%nat = Some call /\ cl_phase call = Returned (Ok duplex_demo.pong) /\
    duplex_demo.pong ∈ in_received duplex_demo.answered.
Proof.
  assert (rtc step duplex_demo.origin duplex_demo.answered) as H.
  { etrans; [exact demo_waiting|].
    eapply rtc_l; [apply (step_frame _ false duplex_demo.pong); reflexivity|].
    eapply rtc_l; [apply (step_deliver _ 0%nat duplex_demo.pong); reflexivity|].
    eapply rtc_l; [eapply (step_call _ 0%nat); [reflexivity|apply (do_receive _ _ _ (Ok duplex_demo.pong) []); reflexivity]|].
    reflexivity. }
  destruct (responses_reach_requests DuplexLimits_default duplex_demo.origin duplex_demo.answered demo_opened H) as [H1 _].
  eexists. split; [reflexivity|]. split; [reflexivity|]. eapply (H1 0%nat); reflexivity.
Defined.

Lemma requests_return_witness :
  exists call s' phase, in_calls duplex_demo.broken !! 0%nat = Some call /\ call_step 0 duplex_demo.broken call s' /\
    in_calls s' !! 0%nat = Some (call <| cl_phase := phase |>) /\ phase <> Expiring.
Proof.
  assert (rtc step duplex_demo.origin duplex_demo.broken) as H.
  { etrans; [exact demo_waiting|].
    eapply rtc_l; [apply (step_read_error _ "eof"); reflexivity|].
    eapply rtc_l; [apply (step_drain _ "eof"); reflexivity|]. reflexivity. }
  destruct (in_calls duplex_demo.broken !! 0%nat) as [call|] eqn:E; [|discriminate E].
  destruct (requests_return DuplexLimits_default duplex_demo.origin duplex_demo.broken 0 call demo_opened H E) as (_ & H2 & _).
  { intros r Hr. revert E. vm_compute. intros [= <-]. discriminate Hr. }
  destruct (H2 eq_refl) as (s' & phase & H3 & H4). exists call, s', phase. split; [reflexivity|]. split; [exact H3|exact H4].
Defined.

Lemma request_ids_distinct_witness :
  exists ids s', allocate_ids 3 duplex_demo.origin = Ok (ids, s') /\ NoDup ids /\ ids = [1; 2; 3].
Proof.
  destruct (allocate_ids 3 duplex_demo.origin) as [[ids s']|] eqn:E; [|discriminate E].
  destruct (request_ids_distinct P2P_MAGIC_DEVNET false DuplexLimits_default duplex_demo.origin 3 ids s' eq_refl eq_refl E)
    as (_ & H & _).
  exists ids, s'. split; [reflexivity|]. split; [exact H|]. revert E. vm_compute. intros [= <- _]. reflexivity.
Defined.

Lemma duplicate_election_agrees_witness :
  settle (be_bytes 32 2) (be_bytes 32 1) Outbound [Inbound] = opposite (settle (be_bytes 32 1) (be_bytes 32 2) Inbound [Outbound]).
Proof.
  apply (duplicate_election_agrees (be_bytes 32 1) (be_bytes 32 2) Inbound [Outbound] Outbound [Inbound]);
    [apply length_be_bytes|apply length_be_bytes|discriminate| |].
  - intros []; [by left|right; by left].
  - intros []; [right; by left|by left].
Defined.
