(* ===== verification/NodeState.v ===== *)
(** The state of a Mutiny node ([mutiny-node/src/main.rs] and the records of
    its modules): what the node stores, how stored records are read back as
    the consensus values of [State.v] and [Transaction.v], and the decoders of
    protocol operations.

    The node keeps hashes and keys as hexadecimal [String]s and compares them
    as strings; the model does the same.  Field names carry a prefix per
    record ([ls_] for [LicenseState], [us_] for [UtxoState], [pd_] for
    [PendingTxState], [ds_] for [DevnetState], ...).  [usize] and [u64] values
    are [Z].  Errors are Rust [String]s: [Msg] carries the text, and the other
    constructors stand for [map_err(|e| e.to_string())] of a crate's error. *)

From Stdlib Require Import Strings.Byte Strings.String.
From stdpp Require Import strings pretty.
From S2P Require Import P2p Prelude Crypto Sha256 Codec Consensus Smt State Merkle Transaction Bitcoin Protocol ProtocolRules Collections.

Inductive NodeError :=
| Msg (text : string)
| FromHex
| FromCodec (e : DecodeError)
| FromState (e : StateError)
| FromTx (e : TxError)
| FromProtocol (e : ProtocolError)
| FromPackM (e : PackMError)
| FromBitcoin (e : BitcoinError)
| FromConsensus (e : ConsensusMathError)
| FromCrypto (e : CryptoError)
| FromP2p (e : P2pError).

Abbreviation node_result A := (result NodeError A).
Abbreviation err text := (Err (Msg text%string)).

(** ** Constants *)

Definition ERA_LENGTH : Z := Z.shiftl 1 21.
Definition COINBASE_MATURITY : Z := 16.
Definition STRIKES_PER_MUT : Z := 100000000.
Definition BASE_FEE_MIN_Q32 : Z := Z.shiftl 1 32.
Definition BASE_FEE_MAX_Q32 : Z := Z.shiftl (Z.shiftl 1 20) 32.
Definition BLOCK_WEIGHT_TARGET : Z := Z.shiftl 1 16.
Definition BLOCK_WEIGHT_MAX : Z := Z.shiftl 1 17.
Definition DIFFICULTY_EASIER_STEP_Q32 : Z := 4341736423.
Definition DIFFICULTY_HARDER_STEP_Q32 : Z := 4248701965.
Definition DIFFICULTY_C_MIN_Q32 : Z := Z.shiftl 1 16.
Definition DIFFICULTY_C_MAX_Q32 : Z := Z.shiftl 1 48.
Definition DEVNET_GENESIS_ID_HEX : string :=
  "4c603df8839ce020b42a1268a54a1938657a1b7812d2df92c4803d63355e702c"%string.
Definition MOTTO : string := "No Masters. Only the Many."%string.

Inductive RuntimeNetwork := Devnet | Mainnet.

#[export] Instance RuntimeNetwork_eq_dec : EqDecision RuntimeNetwork.
Proof. solve_decision. Defined.

Definition RuntimeNetwork_from_cli (value : option string) : node_result RuntimeNetwork :=
  let value := default "devnet"%string value in
  if bool_decide (value = "devnet"%string) then Ok Devnet
  else if bool_decide (value = "mainnet"%string) then Ok Mainnet
  else if bool_decide (value = "testnet"%string) then err "Testnet is inactive and fail-closed"
  else Err (Msg ("unsupported Mutiny network "%string +:+ value)).

(** ** Stored records *)

(** main.rs: a registry entry.  [index] is only for display; [license_id] is the identity. *)
Record LicenseState := {
  ls_index : Z;
  ls_license_id : string;
  ls_purchase_id : string;
  ls_owner_public_key : string;
  ls_mining_public_key : string;
  ls_payment_address_id : string;
  ls_status : Z;
  ls_purchase_method : Z;
  ls_owner_key_sequence : Z;
  ls_mining_key_sequence : Z;
  ls_issued_epoch : Z;
  ls_activation_epoch : Z;
  ls_strike_weight : Z;
  ls_suspended_until_epoch : Z;
  ls_revocation_epoch : Z;
}.

Definition LicenseState_eta (r : LicenseState) : LicenseState :=
  {| ls_index := ls_index r;
     ls_license_id := ls_license_id r;
     ls_purchase_id := ls_purchase_id r;
     ls_owner_public_key := ls_owner_public_key r;
     ls_mining_public_key := ls_mining_public_key r;
     ls_payment_address_id := ls_payment_address_id r;
     ls_status := ls_status r;
     ls_purchase_method := ls_purchase_method r;
     ls_owner_key_sequence := ls_owner_key_sequence r;
     ls_mining_key_sequence := ls_mining_key_sequence r;
     ls_issued_epoch := ls_issued_epoch r;
     ls_activation_epoch := ls_activation_epoch r;
     ls_strike_weight := ls_strike_weight r;
     ls_suspended_until_epoch := ls_suspended_until_epoch r;
     ls_revocation_epoch := ls_revocation_epoch r |}.

#[export] Instance set_ls_status : Setter ls_status := ltac:(make_setter LicenseState_eta ls_status).
#[export] Instance set_ls_owner_public_key : Setter ls_owner_public_key := ltac:(make_setter LicenseState_eta ls_owner_public_key).
#[export] Instance set_ls_mining_public_key : Setter ls_mining_public_key := ltac:(make_setter LicenseState_eta ls_mining_public_key).
#[export] Instance set_ls_payment_address_id : Setter ls_payment_address_id := ltac:(make_setter LicenseState_eta ls_payment_address_id).
#[export] Instance set_ls_owner_key_sequence : Setter ls_owner_key_sequence := ltac:(make_setter LicenseState_eta ls_owner_key_sequence).
#[export] Instance set_ls_mining_key_sequence : Setter ls_mining_key_sequence := ltac:(make_setter LicenseState_eta ls_mining_key_sequence).
#[export] Instance set_ls_strike_weight : Setter ls_strike_weight := ltac:(make_setter LicenseState_eta ls_strike_weight).
#[export] Instance set_ls_suspended_until_epoch : Setter ls_suspended_until_epoch := ltac:(make_setter LicenseState_eta ls_suspended_until_epoch).
#[export] Instance set_ls_revocation_epoch : Setter ls_revocation_epoch := ltac:(make_setter LicenseState_eta ls_revocation_epoch).

Record HistoricalLicenseKeyState := {
  hs_operation_id : string;
  hs_license_id : string;
  hs_owner_public_key : string;
  hs_owner_key_sequence : Z;
  hs_mining_public_key : string;
  hs_mining_key_sequence : Z;
}.

Record BitcoinPaymentState := {
  bp_payment_id : string;
  bp_txid_internal : string;
  bp_payment_output_index : Z;
  bp_paid_sats : Z;
  bp_containing_block_hash_internal : string;
  bp_containing_block_height : Z;
  bp_sixth_confirmation_hash_internal : string;
  bp_sixth_confirmation_height : Z;
  bp_sixth_confirmation_timestamp : Z;
}.

Record UtxoState := {
  us_txid : string;
  us_output_index : Z;
  us_amount_strikes : Z;
  us_output_type : Z;
  us_payload : string;
  us_creation_epoch : Z;
  us_creation_height : Z;
  us_coinbase : bool;
}.

Record StoredTxInput := {
  si_previous_txid : string;
  si_previous_output_index : Z;
}.

Record StoredTxOutput := {
  so_amount_strikes : Z;
  so_output_type : Z;
  so_payload : string;
}.

Record StoredWitness := {
  sw_witness_type : Z;
  sw_payload : string;
}.

Record PendingTxState := {
  pd_txid : string;
  pd_wtxid : string;
  pd_valid_from_epoch : Z;
  pd_expiry_epoch : Z;
  pd_inputs : list StoredTxInput;
  pd_outputs : list StoredTxOutput;
  pd_witnesses : list StoredWitness;
  pd_fee_strikes : Z;
  pd_base_fee_strikes : Z;
  pd_from_license : Z;
  pd_to_license : Z;
  pd_amount_strikes : Z;
}.

Definition PendingTxState_eta (r : PendingTxState) : PendingTxState :=
  {| pd_txid := pd_txid r;
     pd_wtxid := pd_wtxid r;
     pd_valid_from_epoch := pd_valid_from_epoch r;
     pd_expiry_epoch := pd_expiry_epoch r;
     pd_inputs := pd_inputs r;
     pd_outputs := pd_outputs r;
     pd_witnesses := pd_witnesses r;
     pd_fee_strikes := pd_fee_strikes r;
     pd_base_fee_strikes := pd_base_fee_strikes r;
     pd_from_license := pd_from_license r;
     pd_to_license := pd_to_license r;
     pd_amount_strikes := pd_amount_strikes r |}.

#[export] Instance set_pd_fee_strikes : Setter pd_fee_strikes := ltac:(make_setter PendingTxState_eta pd_fee_strikes).
#[export] Instance set_pd_base_fee_strikes : Setter pd_base_fee_strikes := ltac:(make_setter PendingTxState_eta pd_base_fee_strikes).

Record PendingProtocolOperationState := {
  pp_operation : string;
  pp_required_txid : string;
}.

Record ConfirmedTxState := {
  cf_tx : PendingTxState;
  cf_block_height : Z;
  cf_block_epoch : Z;
  cf_block_hash : string;
}.

Record BlockState := {
  bk_height : Z;
  bk_epoch : Z;
  bk_header : string;
  bk_transactions : list string;
  bk_protocol_operations : list string;
  bk_block_hash : string;
  bk_parent_hash : string;
  bk_miner_license_id : string;
  bk_ticket_index : Z;
  bk_argon2_proof : string;
  bk_target : string;
  bk_reward_strikes : Z;
  bk_total_fees_strikes : Z;
  bk_treasury_fee_share_strikes : Z;
  bk_block_weight : Z;
  bk_transaction_root : string;
  bk_state_root : string;
  bk_coinbase_txid : string;
  bk_transaction_ids : list string;
}.

Record SideBranchState := {
  sb_fork_height : Z;
  sb_tip_height : Z;
  sb_tip_hash : string;
  sb_chain_work : string;
  sb_blocks : list BlockState;
}.

(** [punishment.rs] *)
Record OffenseEventState := {
  oe_evidence_id : string;
  oe_license_id : string;
  oe_offense_type : Z;
  oe_weight : Z;
  oe_applied_epoch : Z;
  oe_expiry_epoch : Z;
}.

(** [dividends.rs] *)
Record DividendAccountState := {
  dv_license_id : string;
  dv_award_epoch : Z;
  dv_claim_deadline_epoch : Z;
  dv_claimable_strikes : Z;
}.

(** [presence.rs] *)
Record MiningPresenceState := {
  pr_license_id : string;
  pr_mining_key_sequence : Z;
  pr_last_presence_epoch : Z;
  pr_last_presence_operation_id : string;
}.

(** [bitcoin_headers.rs] *)
Record BitcoinHeaderStateStored := {
  hr_block_hash_internal : string;
  hr_height : Z;
  hr_raw_header : string;
  hr_relative_chainwork : string;
}.

Record BitcoinBestChainStored := {
  bb_tip_hash_internal : string;
  bb_tip_height : Z;
  bb_tip_relative_chainwork : string;
}.

(** The whole node state, for every network (the name is historical). *)
Record DevnetState := {
  ds_format_version : Z;
  ds_network_id : Z;
  ds_motto : string;
  ds_genesis_time_ms : Z;
  ds_genesis_hash : string;
  ds_epoch_ms : Z;
  ds_height : Z;
  ds_tip_hash : string;
  ds_tip_epoch : Z;
  ds_anchor_epoch : Z;
  ds_anchor_license_id : string;
  ds_anchor_ticket_index : Z;
  ds_anchor_argon2_proof : string;
  ds_total_issued_strikes : Z;
  ds_difficulty_history_count : Z;
  ds_difficulty_history_bitmap : Z;
  ds_difficulty_correction_q32 : Z;
  ds_base_fee_rate_q32 : Z;
  ds_current_state_root : string;
  ds_licenses : list LicenseState;
  ds_consumed_native_payments : list string;
  ds_consumed_bitcoin_payments : list BitcoinPaymentState;
  ds_consumed_evidence : list string;
  ds_offense_events : list OffenseEventState;
  ds_treasury_reserved_dividend_strikes : Z;
  ds_dividend_accounts : list DividendAccountState;
  ds_historical_license_keys : list HistoricalLicenseKeyState;
  ds_mining_presence : list MiningPresenceState;
  ds_bitcoin_headers : list BitcoinHeaderStateStored;
  ds_bitcoin_best_chain : option BitcoinBestChainStored;
  ds_utxos : list UtxoState;
  ds_mempool : list PendingTxState;
  ds_pending_protocol_operations : list PendingProtocolOperationState;
  ds_confirmed_transactions : list ConfirmedTxState;
  ds_blocks : list BlockState;
  ds_side_branches : list SideBranchState;
}.

(** Equality of states is decidable. *)
#[export] Instance LicenseState_eq_dec : EqDecision LicenseState.
Proof. solve_decision. Defined.
#[export] Instance HistoricalLicenseKeyState_eq_dec : EqDecision HistoricalLicenseKeyState.
Proof. solve_decision. Defined.
#[export] Instance BitcoinPaymentState_eq_dec : EqDecision BitcoinPaymentState.
Proof. solve_decision. Defined.
#[export] Instance UtxoState_eq_dec : EqDecision UtxoState.
Proof. solve_decision. Defined.
#[export] Instance StoredTxInput_eq_dec : EqDecision StoredTxInput.
Proof. solve_decision. Defined.
#[export] Instance StoredTxOutput_eq_dec : EqDecision StoredTxOutput.
Proof. solve_decision. Defined.
#[export] Instance StoredWitness_eq_dec : EqDecision StoredWitness.
Proof. solve_decision. Defined.
#[export] Instance PendingTxState_eq_dec : EqDecision PendingTxState.
Proof. solve_decision. Defined.
#[export] Instance PendingProtocolOperationState_eq_dec : EqDecision PendingProtocolOperationState.
Proof. solve_decision. Defined.
#[export] Instance ConfirmedTxState_eq_dec : EqDecision ConfirmedTxState.
Proof. solve_decision. Defined.
#[export] Instance BlockState_eq_dec : EqDecision BlockState.
Proof. solve_decision. Defined.
#[export] Instance SideBranchState_eq_dec : EqDecision SideBranchState.
Proof. solve_decision. Defined.
#[export] Instance OffenseEventState_eq_dec : EqDecision OffenseEventState.
Proof. solve_decision. Defined.
#[export] Instance DividendAccountState_eq_dec : EqDecision DividendAccountState.
Proof. solve_decision. Defined.
#[export] Instance MiningPresenceState_eq_dec : EqDecision MiningPresenceState.
Proof. solve_decision. Defined.
#[export] Instance BitcoinHeaderStateStored_eq_dec : EqDecision BitcoinHeaderStateStored.
Proof. solve_decision. Defined.
#[export] Instance BitcoinBestChainStored_eq_dec : EqDecision BitcoinBestChainStored.
Proof. solve_decision. Defined.
#[export] Instance DevnetState_eq_dec : EqDecision DevnetState.
Proof. solve_decision. Defined.

Definition DevnetState_eta (r : DevnetState) : DevnetState :=
  {| ds_format_version := ds_format_version r;
     ds_network_id := ds_network_id r;
     ds_motto := ds_motto r;
     ds_genesis_time_ms := ds_genesis_time_ms r;
     ds_genesis_hash := ds_genesis_hash r;
     ds_epoch_ms := ds_epoch_ms r;
     ds_height := ds_height r;
     ds_tip_hash := ds_tip_hash r;
     ds_tip_epoch := ds_tip_epoch r;
     ds_anchor_epoch := ds_anchor_epoch r;
     ds_anchor_license_id := ds_anchor_license_id r;
     ds_anchor_ticket_index := ds_anchor_ticket_index r;
     ds_anchor_argon2_proof := ds_anchor_argon2_proof r;
     ds_total_issued_strikes := ds_total_issued_strikes r;
     ds_difficulty_history_count := ds_difficulty_history_count r;
     ds_difficulty_history_bitmap := ds_difficulty_history_bitmap r;
     ds_difficulty_correction_q32 := ds_difficulty_correction_q32 r;
     ds_base_fee_rate_q32 := ds_base_fee_rate_q32 r;
     ds_current_state_root := ds_current_state_root r;
     ds_licenses := ds_licenses r;
     ds_consumed_native_payments := ds_consumed_native_payments r;
     ds_consumed_bitcoin_payments := ds_consumed_bitcoin_payments r;
     ds_consumed_evidence := ds_consumed_evidence r;
     ds_offense_events := ds_offense_events r;
     ds_treasury_reserved_dividend_strikes := ds_treasury_reserved_dividend_strikes r;
     ds_dividend_accounts := ds_dividend_accounts r;
     ds_historical_license_keys := ds_historical_license_keys r;
     ds_mining_presence := ds_mining_presence r;
     ds_bitcoin_headers := ds_bitcoin_headers r;
     ds_bitcoin_best_chain := ds_bitcoin_best_chain r;
     ds_utxos := ds_utxos r;
     ds_mempool := ds_mempool r;
     ds_pending_protocol_operations := ds_pending_protocol_operations r;
     ds_confirmed_transactions := ds_confirmed_transactions r;
     ds_blocks := ds_blocks r;
     ds_side_branches := ds_side_branches r |}.

#[export] Instance set_ds_genesis_hash : Setter ds_genesis_hash := ltac:(make_setter DevnetState_eta ds_genesis_hash).
#[export] Instance set_ds_height : Setter ds_height := ltac:(make_setter DevnetState_eta ds_height).
#[export] Instance set_ds_tip_hash : Setter ds_tip_hash := ltac:(make_setter DevnetState_eta ds_tip_hash).
#[export] Instance set_ds_tip_epoch : Setter ds_tip_epoch := ltac:(make_setter DevnetState_eta ds_tip_epoch).
#[export] Instance set_ds_anchor_epoch : Setter ds_anchor_epoch := ltac:(make_setter DevnetState_eta ds_anchor_epoch).
#[export] Instance set_ds_anchor_license_id : Setter ds_anchor_license_id := ltac:(make_setter DevnetState_eta ds_anchor_license_id).
#[export] Instance set_ds_anchor_ticket_index : Setter ds_anchor_ticket_index := ltac:(make_setter DevnetState_eta ds_anchor_ticket_index).
#[export] Instance set_ds_anchor_argon2_proof : Setter ds_anchor_argon2_proof := ltac:(make_setter DevnetState_eta ds_anchor_argon2_proof).
#[export] Instance set_ds_total_issued_strikes : Setter ds_total_issued_strikes := ltac:(make_setter DevnetState_eta ds_total_issued_strikes).
#[export] Instance set_ds_difficulty_history_count : Setter ds_difficulty_history_count := ltac:(make_setter DevnetState_eta ds_difficulty_history_count).
#[export] Instance set_ds_difficulty_history_bitmap : Setter ds_difficulty_history_bitmap := ltac:(make_setter DevnetState_eta ds_difficulty_history_bitmap).
#[export] Instance set_ds_difficulty_correction_q32 : Setter ds_difficulty_correction_q32 := ltac:(make_setter DevnetState_eta ds_difficulty_correction_q32).
#[export] Instance set_ds_base_fee_rate_q32 : Setter ds_base_fee_rate_q32 := ltac:(make_setter DevnetState_eta ds_base_fee_rate_q32).
#[export] Instance set_ds_current_state_root : Setter ds_current_state_root := ltac:(make_setter DevnetState_eta ds_current_state_root).
#[export] Instance set_ds_licenses : Setter ds_licenses := ltac:(make_setter DevnetState_eta ds_licenses).
#[export] Instance set_ds_consumed_native_payments : Setter ds_consumed_native_payments := ltac:(make_setter DevnetState_eta ds_consumed_native_payments).
#[export] Instance set_ds_consumed_bitcoin_payments : Setter ds_consumed_bitcoin_payments := ltac:(make_setter DevnetState_eta ds_consumed_bitcoin_payments).
#[export] Instance set_ds_consumed_evidence : Setter ds_consumed_evidence := ltac:(make_setter DevnetState_eta ds_consumed_evidence).
#[export] Instance set_ds_offense_events : Setter ds_offense_events := ltac:(make_setter DevnetState_eta ds_offense_events).
#[export] Instance set_ds_treasury_reserved_dividend_strikes : Setter ds_treasury_reserved_dividend_strikes := ltac:(make_setter DevnetState_eta ds_treasury_reserved_dividend_strikes).
#[export] Instance set_ds_dividend_accounts : Setter ds_dividend_accounts := ltac:(make_setter DevnetState_eta ds_dividend_accounts).
#[export] Instance set_ds_historical_license_keys : Setter ds_historical_license_keys := ltac:(make_setter DevnetState_eta ds_historical_license_keys).
#[export] Instance set_ds_mining_presence : Setter ds_mining_presence := ltac:(make_setter DevnetState_eta ds_mining_presence).
#[export] Instance set_ds_bitcoin_headers : Setter ds_bitcoin_headers := ltac:(make_setter DevnetState_eta ds_bitcoin_headers).
#[export] Instance set_ds_bitcoin_best_chain : Setter ds_bitcoin_best_chain := ltac:(make_setter DevnetState_eta ds_bitcoin_best_chain).
#[export] Instance set_ds_utxos : Setter ds_utxos := ltac:(make_setter DevnetState_eta ds_utxos).
#[export] Instance set_ds_mempool : Setter ds_mempool := ltac:(make_setter DevnetState_eta ds_mempool).
#[export] Instance set_ds_pending_protocol_operations : Setter ds_pending_protocol_operations := ltac:(make_setter DevnetState_eta ds_pending_protocol_operations).
#[export] Instance set_ds_confirmed_transactions : Setter ds_confirmed_transactions := ltac:(make_setter DevnetState_eta ds_confirmed_transactions).
#[export] Instance set_ds_blocks : Setter ds_blocks := ltac:(make_setter DevnetState_eta ds_blocks).
#[export] Instance set_ds_side_branches : Setter ds_side_branches := ltac:(make_setter DevnetState_eta ds_side_branches).
(** Reads a field of an updated record. *)
Ltac fields :=
  cbn [set
    ls_index ls_license_id ls_purchase_id ls_owner_public_key ls_mining_public_key
    ls_payment_address_id ls_status ls_purchase_method ls_owner_key_sequence
    ls_mining_key_sequence ls_issued_epoch ls_activation_epoch ls_strike_weight
    ls_suspended_until_epoch ls_revocation_epoch pd_txid pd_wtxid pd_valid_from_epoch
    pd_expiry_epoch pd_inputs pd_outputs pd_witnesses pd_fee_strikes pd_base_fee_strikes
    pd_from_license pd_to_license pd_amount_strikes ds_format_version ds_network_id ds_motto
    ds_genesis_time_ms ds_genesis_hash ds_epoch_ms ds_height ds_tip_hash ds_tip_epoch
    ds_anchor_epoch ds_anchor_license_id ds_anchor_ticket_index ds_anchor_argon2_proof
    ds_total_issued_strikes ds_difficulty_history_count ds_difficulty_history_bitmap
    ds_difficulty_correction_q32 ds_base_fee_rate_q32 ds_current_state_root ds_licenses
    ds_consumed_native_payments ds_consumed_bitcoin_payments ds_consumed_evidence
    ds_offense_events ds_treasury_reserved_dividend_strikes ds_dividend_accounts
    ds_historical_license_keys ds_mining_presence ds_bitcoin_headers ds_bitcoin_best_chain
    ds_utxos ds_mempool ds_pending_protocol_operations ds_confirmed_transactions ds_blocks
    ds_side_branches
    set_ls_status set_ls_owner_public_key set_ls_mining_public_key set_ls_payment_address_id
    set_ls_owner_key_sequence set_ls_mining_key_sequence set_ls_strike_weight
    set_ls_suspended_until_epoch set_ls_revocation_epoch set_pd_fee_strikes
    set_pd_base_fee_strikes set_ds_genesis_hash set_ds_height set_ds_tip_hash set_ds_tip_epoch set_ds_anchor_epoch
    set_ds_anchor_license_id set_ds_anchor_ticket_index set_ds_anchor_argon2_proof
    set_ds_total_issued_strikes set_ds_difficulty_history_count
    set_ds_difficulty_history_bitmap set_ds_difficulty_correction_q32 set_ds_base_fee_rate_q32
    set_ds_current_state_root set_ds_licenses set_ds_consumed_native_payments
    set_ds_consumed_bitcoin_payments set_ds_consumed_evidence set_ds_offense_events
    set_ds_treasury_reserved_dividend_strikes set_ds_dividend_accounts
    set_ds_historical_license_keys set_ds_mining_presence set_ds_bitcoin_headers
    set_ds_bitcoin_best_chain set_ds_utxos set_ds_mempool set_ds_pending_protocol_operations
    set_ds_confirmed_transactions set_ds_blocks set_ds_side_branches] in *.

(** ** Reading stored values *)

Definition decode32 (s : string) : node_result bytes32 :=
  let? v := ok_or FromHex (hex_decode s) in
  if (length v =? 32)%nat then Ok v else err "expected 32-byte hex value".

Definition RuntimeNetwork_network_id (r : RuntimeNetwork) : Z :=
  match r with Devnet => DEVNET_NETWORK_ID | Mainnet => MAINNET_NETWORK_ID end.

Definition RuntimeNetwork_genesis_id (r : RuntimeNetwork) : node_result bytes32 :=
  match r with Devnet => decode32 DEVNET_GENESIS_ID_HEX | Mainnet => Ok MAINNET_GENESIS_ID end.

Definition LicenseState_record (l : LicenseState) : node_result LicenseRecordV1 :=
  let? purchase_id := decode32 (ls_purchase_id l) in
  let? owner_public_key := decode32 (ls_owner_public_key l) in
  let? mining_public_key := decode32 (ls_mining_public_key l) in
  Ok {| lr_version := 1; lr_status := ls_status l; lr_purchase_method := ls_purchase_method l;
        lr_purchase_id := purchase_id; lr_owner_public_key := owner_public_key;
        lr_owner_key_sequence := ls_owner_key_sequence l;
        lr_mining_public_key := mining_public_key;
        lr_mining_key_sequence := ls_mining_key_sequence l;
        lr_issued_epoch := ls_issued_epoch l; lr_activation_epoch := ls_activation_epoch l;
        lr_strike_weight := ls_strike_weight l;
        lr_suspended_until_epoch := ls_suspended_until_epoch l;
        lr_revocation_epoch := ls_revocation_epoch l |}.

Definition is_eligible (l : LicenseState) (epoch : Z) : bool :=
  (ls_status l =? LICENSE_STATUS_ACTIVE)
  && (ls_activation_epoch l <=? epoch)
  && (ls_suspended_until_epoch l <=? epoch)
  && (ls_revocation_epoch l =? 0).

Definition HistoricalLicenseKeyState_value_bytes (h : HistoricalLicenseKeyState) : node_result bytes :=
  let? license_id := decode32 (hs_license_id h) in
  let? owner := decode32 (hs_owner_public_key h) in
  let? mining := decode32 (hs_mining_public_key h) in
  Ok (license_id ++ owner ++ be_bytes 4 (hs_owner_key_sequence h)
      ++ mining ++ be_bytes 4 (hs_mining_key_sequence h)).

Definition BitcoinPaymentState_value_bytes (p : BitcoinPaymentState) : node_result bytes :=
  let? txid := decode32 (bp_txid_internal p) in
  let? containing := decode32 (bp_containing_block_hash_internal p) in
  let? sixth := decode32 (bp_sixth_confirmation_hash_internal p) in
  Ok (txid ++ be_bytes 4 (bp_payment_output_index p) ++ be_bytes 8 (bp_paid_sats p)
      ++ containing ++ be_bytes 4 (bp_containing_block_height p)
      ++ sixth ++ be_bytes 4 (bp_sixth_confirmation_height p)
      ++ be_bytes 4 (bp_sixth_confirmation_timestamp p)).

Definition hex_bytes (s : string) : node_result bytes := ok_or FromHex (hex_decode s).

Definition UtxoState_value (u : UtxoState) : node_result UtxoValueV1 :=
  let? payload := hex_bytes (us_payload u) in
  Ok {| uv_amount_strikes := us_amount_strikes u; uv_output_type := us_output_type u;
        uv_payload := payload; uv_creation_epoch := us_creation_epoch u;
        uv_creation_height := us_creation_height u; uv_coinbase := us_coinbase u |}.

Definition UtxoState_prevout (u : UtxoState) : node_result PrevoutCommitmentV1 :=
  let? previous_txid := decode32 (us_txid u) in
  let? payload := hex_bytes (us_payload u) in
  Ok {| pc_previous_txid := previous_txid; pc_previous_output_index := us_output_index u;
        pc_amount_strikes := us_amount_strikes u; pc_output_type := us_output_type u;
        pc_payload := payload |}.

Definition spendable_at_height (u : UtxoState) (candidate_height : Z) : bool :=
  negb (us_coinbase u)
  || (saturating_add 64 (us_creation_height u) COINBASE_MATURITY <=? candidate_height).

Definition has_license_payment_output (p : PendingTxState) : bool :=
  existsb (fun o => so_output_type o =? OUTPUT_LICENSE_PAYMENT) (pd_outputs p).

Definition has_protocol_auth_witness (p : PendingTxState) : bool :=
  existsb (fun w => sw_witness_type w =? WITNESS_PROTOCOL_AUTH) (pd_witnesses p).

Definition to_transaction_for_network (p : PendingTxState) (network_id : Z) : node_result TransactionV1 :=
  let? inputs := map_result (fun i =>
      let? previous_txid := decode32 (si_previous_txid i) in
      Ok (Outpoint previous_txid (si_previous_output_index i))) (pd_inputs p) in
  let? outputs := map_result (fun o =>
      let? payload := hex_bytes (so_payload o) in
      Ok {| to_amount_strikes := so_amount_strikes o; to_output_type := so_output_type o;
            to_payload := payload |}) (pd_outputs p) in
  let? witnesses := map_result (fun w =>
      let? payload := hex_bytes (sw_payload w) in
      Ok {| w_witness_type := sw_witness_type w; w_payload := payload |}) (pd_witnesses p) in
  Ok {| tx_core := {| tc_version := 1; tc_network_id := network_id;
                      tc_valid_from_epoch := pd_valid_from_epoch p;
                      tc_expiry_epoch := pd_expiry_epoch p;
                      tc_inputs := inputs; tc_outputs := outputs |};
        tx_witnesses := witnesses |}.

Definition OffenseEventState_value_bytes (e : OffenseEventState) : node_result bytes :=
  let? license_id := decode32 (oe_license_id e) in
  Ok (license_id ++ be_bytes 2 (oe_offense_type e) ++ [byte_of_Z (oe_weight e)]
      ++ be_bytes 8 (oe_applied_epoch e) ++ be_bytes 8 (oe_expiry_epoch e)).

Definition DividendAccountState_account (a : DividendAccountState) : node_result LicenseDividendAccountV1 :=
  let? license_id := decode32 (dv_license_id a) in
  Ok {| da_license_id := license_id; da_award_epoch := dv_award_epoch a;
        da_claim_deadline_epoch := dv_claim_deadline_epoch a;
        da_claimable_strikes := dv_claimable_strikes a |}.

Definition DividendAccountState_update_from (a : DividendAccountState)
    (account : LicenseDividendAccountV1) : DividendAccountState :=
  {| dv_license_id := dv_license_id a;
     dv_award_epoch := da_award_epoch account;
     dv_claim_deadline_epoch := da_claim_deadline_epoch account;
     dv_claimable_strikes := da_claimable_strikes account |}.

Definition MiningPresenceState_value (p : MiningPresenceState) : node_result MiningPresenceStateV1 :=
  let? operation_id := decode32 (pr_last_presence_operation_id p) in
  Ok {| mp_version := 1; mp_mining_key_sequence := pr_mining_key_sequence p;
        mp_last_presence_epoch := pr_last_presence_epoch p;
        mp_last_presence_operation_id := operation_id |}.

(** ** Decoders of protocol operations *)

Definition decode_protocol_operation_bytes (bs : bytes) : node_result ProtocolOperationV1 :=
  if (length bs <? 5)%nat then err "protocol operation is truncated"
  else
    let op_type := be_val (slice 0 2 bs) in
    let op_version := be_val (slice 2 4 bs) in
    let? (payload_len, input) := map_err FromCodec (read_varuint (drop 4 bs)) in
    let? payload_len := ok_or (Msg "protocol operation payload length overflow"%string) (try_from 64 payload_len) in
    if negb (Z.of_nat (length input) =? payload_len)
    then err "protocol operation payload length mismatch"
    else Ok {| po_op_type := op_type; po_op_version := op_version; po_payload := input |}.

Definition decode_protocol_operation_hex (encoded : string) : node_result ProtocolOperationV1 :=
  let? bs := hex_bytes encoded in
  decode_protocol_operation_bytes bs.

Definition PendingProtocolOperationState_operation (p : PendingProtocolOperationState)
    : node_result ProtocolOperationV1 := decode_protocol_operation_hex (pp_operation p).

Definition transaction_is_protocol_bound (state : DevnetState) (txid : string) : bool :=
  existsb (fun op => bool_decide (pp_required_txid op = txid)) (ds_pending_protocol_operations state).

(** The [for _ in 0..count] loop of [decode_mut_manifest]; the length check
    before it makes every slice full. *)
Fixpoint mut_entries (count : nat) (bs : bytes) (offset : nat) : list LicenseManifestEntryV1 :=
  match count with
  | O => []
  | S count =>
      {| me_owner_public_key := slice offset (offset + 32) bs;
         me_mining_public_key := slice (offset + 32) (offset + 64) bs |}
      :: mut_entries count bs (offset + 64)
  end.

Definition decode_mut_manifest (bs : bytes) : node_result MutLicenseManifestV1 :=
  if (length bs <? 42)%nat then err "native license manifest is truncated"
  else
    let version := be_val (slice 0 2 bs) in
    let network_id := be_val (slice 2 6 bs) in
    let purchase_nonce := slice 6 38 bs in
    let count := be_val (slice 38 42 bs) in
    if (count =? 0) || (1024 <? count) then err "native license manifest count outside 1..=1024"
    else
      let? body := ok_or (Msg "manifest length overflow"%string) (checked_mul 64 count 64) in
      let? expected := ok_or (Msg "manifest length overflow"%string) (checked_add 64 42 body) in
      if negb (Z.of_nat (length bs) =? expected) then err "native license manifest length mismatch"
      else
        let manifest := {| mm_version := version; mm_network_id := network_id;
                           mm_purchase_nonce := purchase_nonce;
                           mm_licenses := mut_entries (Z.to_nat count) bs 42 |} in
        let? _ := map_err FromProtocol (MutLicenseManifestV1_validate manifest) in
        Ok manifest.

Definition decode_native_purchase_operation (op : ProtocolOperationV1) : node_result LicensePurchaseMutV1 :=
  if negb (po_op_type op =? OP_LICENSE_PURCHASE_MUT) || negb (po_op_version op =? 1)
  then err "operation is not a V1 native Mining License purchase"
  else if (length (po_payload op) <? 35)%nat
  then err "native Mining License purchase payload is truncated"
  else
    let payment_txid := slice 0 32 (po_payload op) in
    let payment_output_index := be_val (slice 32 34 (po_payload op)) in
    let? (manifest_len, input) := map_err FromCodec (read_varuint (drop 34 (po_payload op))) in
    let? manifest_len := ok_or (Msg "manifest length overflow"%string) (try_from 64 manifest_len) in
    if negb (Z.of_nat (length input) =? manifest_len)
    then err "native Mining License purchase manifest length mismatch"
    else
      let? manifest := decode_mut_manifest input in
      Ok {| pm_payment_txid := payment_txid; pm_payment_output_index := payment_output_index;
            pm_manifest := manifest |}.

Definition decode_license_transfer_operation (op : ProtocolOperationV1) : node_result LicenseTransferV1 :=
  if negb (po_op_type op =? OP_LICENSE_TRANSFER) || negb (po_op_version op =? 1)
  then err "operation is not a V1 Mining License transfer"
  else if negb (length (po_payload op) =? 168)%nat
  then err "Mining License transfer payload must be exactly 168 bytes"
  else
    let p := po_payload op in
    Ok {| lt_license_id := slice 0 32 p;
          lt_expected_owner_sequence := be_val (slice 32 36 p);
          lt_expected_mining_sequence := be_val (slice 36 40 p);
          lt_new_owner_public_key := slice 40 72 p;
          lt_new_mining_public_key := slice 72 104 p;
          lt_owner_signature := slice 104 168 p |}.

Definition decode_mining_key_rotation_operation (op : ProtocolOperationV1) : node_result MiningKeyRotateV1 :=
  if negb (po_op_type op =? OP_LICENSE_MINING_KEY_ROTATE) || negb (po_op_version op =? 1)
  then err "operation is not a V1 Mining License mining-key rotation"
  else if negb (length (po_payload op) =? 136)%nat
  then err "Mining License mining-key rotation payload must be exactly 136 bytes"
  else
    let p := po_payload op in
    Ok {| kr_license_id := slice 0 32 p;
          kr_expected_owner_sequence := be_val (slice 32 36 p);
          kr_expected_mining_sequence := be_val (slice 36 40 p);
          kr_new_mining_public_key := slice 40 72 p;
          kr_owner_signature := slice 72 136 p |}.

Definition decode_claim_operation (op : ProtocolOperationV1) : node_result DividendClaimV1 :=
  if negb (po_op_type op =? OP_DIVIDEND_CLAIM) || negb (po_op_version op =? 1)
  then err "operation is not a V1 dividend claim"
  else if negb (length (po_payload op) =? 172)%nat
  then err "V1 dividend claim payload must be exactly 172 bytes"
  else
    let p := po_payload op in
    Ok {| dc_license_id := slice 0 32 p;
          dc_expected_owner_sequence := be_val (slice 32 36 p);
          dc_amount_strikes := be_val (slice 36 44 p);
          dc_destination_address_id := slice 44 76 p;
          dc_payment_txid := slice 76 108 p;
          dc_owner_signature := slice 108 172 p |}.

Definition decode_punishment_operation (op : ProtocolOperationV1) : node_result PunishmentEvidenceV1 :=
  if negb (po_op_type op =? OP_PUNISHMENT_EVIDENCE) || negb (po_op_version op =? 1)
  then err "operation is not V1 punishment evidence"
  else if (length (po_payload op) <? 35)%nat then err "punishment evidence payload is truncated"
  else
    let offense_type := be_val (slice 0 2 (po_payload op)) in
    let? _ := map_err FromProtocol (offense_weight offense_type) in
    let accused_license_id := slice 2 34 (po_payload op) in
    let? (evidence_len, input) := map_err FromCodec (read_varuint (drop 34 (po_payload op))) in
    let? evidence_len := ok_or (Msg "punishment evidence length overflow"%string) (try_from 64 evidence_len) in
    if negb (Z.of_nat (length input) =? evidence_len)
    then err "punishment evidence length does not match canonical payload"
    else
      let evidence := {| pe_offense_type := offense_type;
                         pe_accused_license_id := accused_license_id; pe_evidence := input |} in
      if negb (bytes_eqb (PunishmentEvidenceV1_canonical_evidence evidence) (po_payload op))
      then err "punishment evidence operation is not canonical"
      else Ok evidence.

Definition decode_operation (op : ProtocolOperationV1) : node_result MiningPresenceV1 :=
  map_err FromProtocol (MiningPresenceV1_decode_operation op).

(** [authority_operation_license_id] and [presence::authority_target]: the
    license whose keys an operation changes. *)
Definition authority_operation_license_id (op : ProtocolOperationV1) : node_result (option bytes32) :=
  if po_op_type op =? OP_LICENSE_TRANSFER then
    let? t := decode_license_transfer_operation op in Ok (Some (lt_license_id t))
  else if po_op_type op =? OP_LICENSE_MINING_KEY_ROTATE then
    let? r := decode_mining_key_rotation_operation op in Ok (Some (kr_license_id r))
  else Ok None.

(** ** Hexadecimal text round-trips *)

Lemma nibble_hex_char n : 0 <= n < 16 -> nibble (hex_char n) = Some n.
Proof.
  intros Hn.
  assert (forallb (fun i => bool_decide (nibble (hex_char (Z.of_nat i)) = Some (Z.of_nat i))) (seq 0 16) = true)
    as H by reflexivity.
  rewrite forallb_forall in H. specialize (H (Z.to_nat n)). rewrite Z2Nat.id in H by lia.
  eapply bool_decide_eq_true, H, in_seq. lia.
Qed.

Lemma hex_decode_encode b : hex_decode (hex_encode b) = Some b.
Proof.
  induction b as [|x b IH]; [done|]. cbn [hex_encode hex_decode].
  pose proof (Z_of_byte_range x).
  rewrite (nibble_hex_char (_ / 16)) by (split; [apply Z.div_pos|apply Z.div_lt_upper_bound]; lia).
  rewrite nibble_hex_char, IH by (apply Z.mod_pos_bound; lia).
  rewrite <- Z.div_mod by lia. by rewrite byte_of_Z_of_byte.
Qed.

Lemma hex_encode_inj a b : hex_encode a = hex_encode b -> a = b.
Proof. intros H. apply Some_inj. by rewrite <- !hex_decode_encode, H. Qed.

Lemma decode32_encode b : is32 b -> decode32 (hex_encode b) = Ok b.
Proof. intros H. unfold decode32. rewrite hex_decode_encode. cbn [ok_or]. by rewrite H. Qed.

Lemma decode32_length s b : decode32 s = Ok b -> is32 b.
Proof.
  unfold decode32. destruct (hex_decode s) as [v|]; cbn [ok_or]; [|done].
  destruct (length v =? 32)%nat eqn:E; [|done]. intros <-%Ok_inj. by apply Nat.eqb_eq.
Qed.

Lemma hex_bytes_encode b : hex_bytes (hex_encode b) = Ok b.
Proof. unfold hex_bytes. by rewrite hex_decode_encode. Qed.
