(* ===== verification/Economy.v ===== *)
(** The monetary and difficulty rules of the node ([mutiny-node/src/main.rs]):
    the block subsidy, the weight of a block body, the Base Fee controller, the
    64-observation difficulty controller and the decimal form of amounts. *)

From Stdlib Require Import Strings.Byte Strings.String.
From stdpp Require Import strings.
From S2P Require Import Prelude Crypto Codec Consensus Transaction Protocol Collections NodeState.

(** ** Subsidy *)

Definition subsidy (epoch : Z) : Z :=
  let era := epoch / ERA_LENGTH in
  if 64 <=? era then 0 else Z.shiftr (8 * STRIKES_PER_MUT) era.

(** ** Weight *)

(** The [while] of [varuint_len]; ten rounds empty a [u64]. *)
Fixpoint varuint_len_loop (fuel : nat) (value len : Z) : Z :=
  match fuel with
  | O => len
  | S fuel => if 0x80 <=? value then varuint_len_loop fuel (Z.shiftr value 7) (len + 1) else len
  end.

Definition varuint_len (value : Z) : Z := varuint_len_loop 10 value 1.

Definition block_body_weight (txs : list TransactionV1) (operations : list ProtocolOperationV1)
    : node_result Z :=
  let weight := varuint_len (Z.of_nat (length txs)) in
  let? weight := fold_result (fun weight tx =>
      ok_or (Msg "block weight overflow"%string)
        (checked_add 64 weight (TransactionV1_serialized_len tx))) weight txs in
  let? weight := ok_or (Msg "block weight overflow"%string)
      (checked_add 64 weight (varuint_len (Z.of_nat (length operations)))) in
  fold_result (fun weight op =>
      ok_or (Msg "block weight overflow"%string)
        (checked_add 64 weight (Z.of_nat (length (ProtocolOperationV1_encode op))))) weight operations.

(** ** Base Fee *)

Definition adjusted_base_fee_rate (current block_weight : Z) : node_result Z :=
  if block_weight =? BLOCK_WEIGHT_TARGET then Ok current
  else
    let '(difference, increase) :=
      if BLOCK_WEIGHT_TARGET <? block_weight
      then (block_weight - BLOCK_WEIGHT_TARGET, true)
      else (BLOCK_WEIGHT_TARGET - block_weight, false) in
    let? numerator := ok_or (Msg "Base Fee multiplication overflow"%string)
        (checked_mul 128 current difference) in
    let denominator := 64 * BLOCK_WEIGHT_TARGET in
    let? delta := ok_or (Msg "Base Fee delta overflow"%string)
        (try_from 64 (numerator / denominator)) in
    if increase : bool
    then Ok (Z.min (saturating_add 64 current delta) BASE_FEE_MAX_Q32)
    else Ok (Z.max (saturating_sub current delta) BASE_FEE_MIN_Q32).

(** ** Difficulty *)

Definition correction_step (current multiplier_q32 : Z) : node_result Z :=
  let value := Z.shiftr (current * multiplier_q32) 32 in
  ok_or (Msg "difficulty correction overflow"%string) (try_from 64 value).

(** Returns the three [&mut] cells. *)
Definition append_history_values (count bitmap correction : Z) (success : bool)
    : node_result (Z * Z * Z) :=
  let result := Z.b2z success in
  let '(count, bitmap) :=
    if count <? 64
    then (count + 1, Z.lor bitmap (Z.shiftl result count mod 2 ^ 64))
    else (count, Z.lor (Z.shiftr bitmap 1) (Z.shiftl result 63)) in
  let r := count in
  let s := count_ones 64 bitmap in
  if saturating_mul 64 64 s <? saturating_mul 64 40 r then
    let? c := correction_step correction DIFFICULTY_EASIER_STEP_Q32 in
    Ok (count, bitmap, Z.min c DIFFICULTY_C_MAX_Q32)
  else if saturating_mul 64 41 r <? saturating_mul 64 64 s then
    let? c := correction_step correction DIFFICULTY_HARDER_STEP_Q32 in
    Ok (count, bitmap, Z.max c DIFFICULTY_C_MIN_Q32)
  else Ok (count, bitmap, correction).

Definition append_difficulty_result (state : DevnetState) (success : bool) : node_result DevnetState :=
  let? (count, bitmap, correction) :=
    append_history_values (ds_difficulty_history_count state) (ds_difficulty_history_bitmap state)
      (ds_difficulty_correction_q32 state) success in
  Ok (state <| ds_difficulty_history_count := count |>
            <| ds_difficulty_history_bitmap := bitmap |>
            <| ds_difficulty_correction_q32 := correction |>).

(** ** The authority fee marker *)

Definition authority_fee_marker (license_id : bytes32) : Z := be_val (take 2 license_id) + 1.

(** ** Issuance

    [issuance e] is what the schedule has paid before epoch [e]. *)

Definition era_reward (era : Z) : Z := if 64 <=? era then 0 else Z.shiftr (8 * STRIKES_PER_MUT) era.

Fixpoint era_sum (n : nat) : Z :=
  match n with O => 0 | S n => era_sum n + era_reward (Z.of_nat n) end.

Definition issuance (epoch : Z) : Z :=
  ERA_LENGTH * era_sum (Z.to_nat (epoch / ERA_LENGTH)) + (epoch mod ERA_LENGTH) * subsidy epoch.

(** The final supply: a little under [16 * 2^21] coins. *)
Definition MAX_SUPPLY : Z := ERA_LENGTH * era_sum 64.

Lemma subsidy_era epoch : subsidy epoch = era_reward (epoch / ERA_LENGTH).
Proof. done. Qed.

Lemma era_reward_nonneg k : 0 <= era_reward k.
Proof. unfold era_reward. destruct (64 <=? k); [done|]. apply Z.shiftr_nonneg. done. Qed.

Lemma subsidy_nonneg epoch : 0 <= subsidy epoch.
Proof. apply era_reward_nonneg. Qed.

Lemma subsidy_le epoch : 0 <= epoch -> subsidy epoch <= 8 * STRIKES_PER_MUT.
Proof.
  intros He. rewrite subsidy_era. unfold era_reward.
  destruct (64 <=? epoch / ERA_LENGTH); [done|].
  assert (0 <= epoch / ERA_LENGTH) by (apply Z.div_pos; [lia|done]).
  rewrite Z.shiftr_div_pow2 by done. apply Z.div_le_upper_bound; [lia|].
  assert (1 <= 2 ^ (epoch / ERA_LENGTH)) by lia. unfold STRIKES_PER_MUT. lia.
Qed.

Lemma era_sum_le n : 0 <= era_sum n <= era_sum 64.
Proof.
  split.
  { induction n as [|n IH]; simpl; [done|]. pose proof (era_reward_nonneg (Z.of_nat n)). lia. }
  destruct (le_lt_dec n 64) as [Hn|Hn].
  - assert (forall m, era_sum n <= era_sum (m + n)) as Hm.
    { induction m as [|m IH]; simpl; [done|]. pose proof (era_reward_nonneg (Z.of_nat (m + n))). lia. }
    specialize (Hm (64 - n)%nat). by replace (64 - n + n)%nat with 64%nat in Hm by lia.
  - assert (forall m, era_sum (m + 64) = era_sum 64) as Hm.
    { induction m as [|m IH]; [done|].
      change (era_sum (S m + 64)) with (era_sum (m + 64) + era_reward (Z.of_nat (m + 64))).
      rewrite IH. unfold era_reward. destruct (Z.leb_spec 64 (Z.of_nat (m + 64))); lia. }
    specialize (Hm (n - 64)%nat). by rewrite <- Hm, Nat.sub_add by lia.
Qed.

Lemma issuance_step epoch : 0 <= epoch -> issuance (epoch + 1) = issuance epoch + subsidy epoch.
Proof.
  intros He. unfold issuance. rewrite !subsidy_era.
  assert (0 < ERA_LENGTH) as HE by done.
  pose proof (Z.div_mod epoch ERA_LENGTH ltac:(lia)) as Hdm.
  pose proof (Z.mod_pos_bound epoch ERA_LENGTH HE) as Hm.
  set (q := epoch / ERA_LENGTH) in *. set (r := epoch mod ERA_LENGTH) in *.
  assert (0 <= q) by (apply Z.div_pos; lia).
  destruct (decide (r + 1 = ERA_LENGTH)) as [Hr|Hr].
  - replace (epoch + 1) with ((q + 1) * ERA_LENGTH) by lia.
    rewrite Z.div_mul, Z.mod_mul by lia.
    replace (Z.to_nat (q + 1)) with (S (Z.to_nat q)) by lia. cbn [era_sum].
    rewrite Z2Nat.id by lia. lia.
  - replace (epoch + 1) with (r + 1 + q * ERA_LENGTH) by lia.
    rewrite Z.div_add, Z.mod_add, Z.div_small, Z.mod_small by lia.
    rewrite Z.add_0_l. lia.
Qed.

Lemma issuance_max epoch : 0 <= epoch -> 0 <= issuance epoch <= MAX_SUPPLY.
Proof.
  intros He. unfold issuance, MAX_SUPPLY. rewrite subsidy_era.
  assert (0 < ERA_LENGTH) as HE by done.
  pose proof (Z.mod_pos_bound epoch ERA_LENGTH HE) as Hm.
  set (q := epoch / ERA_LENGTH). assert (0 <= q) by (apply Z.div_pos; lia).
  pose proof (era_reward_nonneg q). pose proof (era_sum_le (Z.to_nat q)).
  pose proof (era_sum_le (S (Z.to_nat q))) as [_ Hs].
  change (era_sum (S (Z.to_nat q))) with (era_sum (Z.to_nat q) + era_reward (Z.of_nat (Z.to_nat q))) in Hs.
  rewrite Z2Nat.id in Hs by lia.
  set (m := era_sum 64) in *. set (a := era_sum (Z.to_nat q)) in *. set (b := era_reward q) in *.
  set (r := epoch mod ERA_LENGTH) in *. clearbody m a b r. nia.
Qed.

Lemma issuance_mono e e' : 0 <= e <= e' -> issuance e <= issuance e'.
Proof.
  intros [He Hle].
  assert (forall n, issuance e <= issuance (e + Z.of_nat n)) as Hn.
  { induction n as [|n IH]; [rewrite Z.add_0_r; done|].
    replace (e + Z.of_nat (S n)) with (e + Z.of_nat n + 1) by lia.
    rewrite issuance_step by lia. pose proof (subsidy_nonneg (e + Z.of_nat n)). lia. }
  specialize (Hn (Z.to_nat (e' - e))). by replace (e + Z.of_nat (Z.to_nat (e' - e))) with e' in Hn by lia.
Qed.

Lemma MAX_SUPPLY_value : MAX_SUPPLY = 3355443174834176.
Proof. vm_compute. reflexivity. Qed.

(** ** The weight of a body is its encoded length *)

Lemma varuint_len_loop_encode fuel v n :
  0 <= v < 2 ^ (7 * Z.of_nat (S fuel)) ->
  varuint_len_loop (S fuel) v n = n - 1 + Z.of_nat (length (write_varuint_loop (S fuel) [] v)).
Proof.
  revert v n; induction fuel as [|fuel IH]; intros v n Hv;
    rewrite write_varuint_loop_S by lia; cbn [varuint_len_loop].
  - change (2 ^ (7 * Z.of_nat 1)) with 128 in Hv. rewrite Z.div_small by lia.
    destruct (Z.leb_spec 0x80 v); [lia|]. simpl. lia.
  - destruct (Z.leb_spec 0x80 v) as [Hle|Hlt].
    + rewrite Z.shiftr_div_pow2 by lia. change (2 ^ 7) with 128.
      assert (0 < v / 128) by (apply Z.div_str_pos; lia).
      assert (v / 128 < 2 ^ (7 * Z.of_nat (S fuel))) as Hs.
      { apply Z.div_lt_upper_bound; [lia|]. change 128 with (2 ^ 7). rewrite <- Z.pow_add_r by lia.
        replace (7 + 7 * Z.of_nat (S fuel)) with (7 * Z.of_nat (S (S fuel))) by lia. apply Hv. }
      destruct (Z.eqb_spec (v / 128) 0); [lia|]. cbn [length].
      assert (0 <= v / 128 < 2 ^ (7 * Z.of_nat (S fuel))) as Hr by lia.
      apply (IH _ (n + 1)) in Hr. cbn [varuint_len_loop] in Hr. rewrite Hr. lia.
    + rewrite Z.div_small by lia. simpl. lia.
Qed.

Lemma varuint_len_encode v : is_u64 v -> varuint_len v = Z.of_nat (length (encode_varuint v)).
Proof.
  intros Hv. unfold varuint_len, encode_varuint, write_varuint.
  rewrite varuint_len_loop_encode by (change (2 ^ (7 * Z.of_nat 10)) with (2 ^ 70); lia). lia.
Qed.

(** What the body of a block is on the wire. *)
Definition encode_body (txs : list TransactionV1) (operations : list ProtocolOperationV1) : bytes :=
  encode_varuint (Z.of_nat (length txs)) ++ concat (map TransactionV1_encode_full txs)
  ++ encode_varuint (Z.of_nat (length operations)) ++ concat (map ProtocolOperationV1_encode operations).

Lemma weigh_list {A} (f : A -> bytes) e (l : list A) w w' :
  fold_result (E := NodeError) (fun weight x =>
      ok_or e (checked_add 64 weight (Z.of_nat (length (f x))))) w l = Ok w' ->
  w' = w + Z.of_nat (length (concat (map f l))).
Proof.
  revert w; induction l as [|x l IH]; intros w; simpl; [intros [= <-]; lia|].
  destruct (checked_add 64 w _) as [m|] eqn:E1; simpl; [|done].
  apply checked_add_Some in E1 as [-> _]. intros ->%IH. rewrite length_app. lia.
Qed.

Lemma block_body_weight_length txs ops w :
  Z.of_nat (length txs) < 2 ^ 64 -> Z.of_nat (length ops) < 2 ^ 64 ->
  block_body_weight txs ops = Ok w -> w = Z.of_nat (length (encode_body txs ops)).
Proof.
  intros Ht Ho H. unfold block_body_weight in H.
  destruct (fold_result _ _ txs) as [w1|] eqn:E1; [|done].
  destruct (checked_add 64 w1 _) as [w2|] eqn:E2; simpl in H; [|done].
  apply (weigh_list TransactionV1_encode_full) in E1. apply checked_add_Some in E2 as [-> _].
  apply (weigh_list ProtocolOperationV1_encode) in H.
  rewrite varuint_len_encode in * by lia. unfold encode_body. rewrite !length_app. lia.
Qed.

(** ** The Base Fee controller *)

Definition fee_rate_ok (rate : Z) : Prop := BASE_FEE_MIN_Q32 <= rate <= BASE_FEE_MAX_Q32.

Lemma adjusted_base_fee_cases rate w :
  fee_rate_ok rate -> 0 <= w <= BLOCK_WEIGHT_MAX ->
  exists rate', adjusted_base_fee_rate rate w = Ok rate' /\ fee_rate_ok rate' /\
    (w = BLOCK_WEIGHT_TARGET -> rate' = rate) /\
    (w > BLOCK_WEIGHT_TARGET ->
       rate' = Z.min (rate + rate * (w - BLOCK_WEIGHT_TARGET) / (64 * BLOCK_WEIGHT_TARGET)) BASE_FEE_MAX_Q32) /\
    (w < BLOCK_WEIGHT_TARGET ->
       rate' = Z.max (rate - rate * (BLOCK_WEIGHT_TARGET - w) / (64 * BLOCK_WEIGHT_TARGET)) BASE_FEE_MIN_Q32).
Proof.
  unfold fee_rate_ok, adjusted_base_fee_rate.
  change BASE_FEE_MIN_Q32 with (2 ^ 32). change BASE_FEE_MAX_Q32 with (2 ^ 52).
  change BLOCK_WEIGHT_MAX with (2 ^ 17). change BLOCK_WEIGHT_TARGET with (2 ^ 16).
  intros Hr Hw. destruct (Z.eqb_spec w (2 ^ 16)) as [->|Hne].
  { exists rate. split; [done|]. lia. }
  assert (forall d, 0 <= d <= 2 ^ 16 ->
    checked_mul 128 rate d = Some (rate * d) /\
    try_from 64 (rate * d / (64 * 2 ^ 16)) = Some (rate * d / (64 * 2 ^ 16)) /\
    0 <= rate * d / (64 * 2 ^ 16) <= rate) as Hd.
  { intros d Hd. assert (0 <= rate * d <= 2 ^ 52 * 2 ^ 16) as Hm by nia.
    assert (0 <= rate * d / (64 * 2 ^ 16) <= rate) as Hq.
    { split; [apply Z.div_pos; lia|]. apply Z.div_le_upper_bound; [lia|]. nia. }
    split_and!; [apply checked_mul_Some; split; [done|lia]| |apply Hq|apply Hq].
    unfold try_from. destruct (Z.ltb_spec (rate * d / (64 * 2 ^ 16)) (2 ^ 64)); [done|lia]. }
  destruct (Z.ltb_spec (2 ^ 16) w).
  - destruct (Hd (w - 2 ^ 16)) as (-> & H2 & H3); [lia|]. cbn [ok_or]. rewrite H2. cbn [ok_or].
    eexists. split; [reflexivity|]. unfold saturating_add.
    set (q := rate * (w - 2 ^ 16) / (64 * 2 ^ 16)) in *. lia.
  - destruct (Hd (2 ^ 16 - w)) as (-> & H2 & H3); [lia|]. cbn [ok_or]. rewrite H2. cbn [ok_or].
    eexists. split; [reflexivity|]. unfold saturating_sub.
    set (q := rate * (2 ^ 16 - w) / (64 * 2 ^ 16)) in *. lia.
Qed.

(** ** The difficulty controller refines a window of observations

    Abstractly the controller keeps the outcomes of the last 64 observed
    epochs, oldest first, and moves the correction when fewer than 40/64 or
    more than 41/64 of them produced a block. *)

Fixpoint bits_of (h : list bool) : Z :=
  match h with [] => 0 | b :: h => Z.b2z b + 2 * bits_of h end.

Definition successes (h : list bool) : Z := sum_of Z.b2z h.

(** The abstract step on the window. *)
Definition observe (h : list bool) (b : bool) : list bool :=
  if (length h <? 64)%nat then h ++ [b] else tail h ++ [b].

Definition adjust (h : list bool) (correction : Z) : Z :=
  let r := Z.of_nat (length h) in
  let s := successes h in
  if 64 * s <? 40 * r
  then Z.min (correction * DIFFICULTY_EASIER_STEP_Q32 / 2 ^ 32) DIFFICULTY_C_MAX_Q32
  else if 41 * r <? 64 * s
  then Z.max (correction * DIFFICULTY_HARDER_STEP_Q32 / 2 ^ 32) DIFFICULTY_C_MIN_Q32
  else correction.

(** How the window is stored. *)
Definition window_rep (h : list bool) (count bitmap : Z) : Prop :=
  (length h <= 64)%nat /\ count = Z.of_nat (length h) /\ bitmap = bits_of h.

Definition correction_ok (c : Z) : Prop := DIFFICULTY_C_MIN_Q32 <= c <= DIFFICULTY_C_MAX_Q32.

Lemma bits_of_range h : 0 <= bits_of h < 2 ^ Z.of_nat (length h).
Proof.
  induction h as [|b h IH]; cbn [bits_of length]; [lia|].
  rewrite Nat2Z.inj_succ, Z.pow_succ_r by lia. destruct b; simpl Z.b2z; lia.
Qed.

Lemma bits_of_app h b : bits_of (h ++ [b]) = bits_of h + Z.b2z b * 2 ^ Z.of_nat (length h).
Proof.
  induction h as [|c h IH]; cbn [bits_of length app]; [simpl Z.of_nat; lia|].
  rewrite IH, Nat2Z.inj_succ, Z.pow_succ_r by lia. lia.
Qed.

Lemma bits_of_push h b :
  (length h < 64)%nat ->
  Z.lor (bits_of h) (Z.shiftl (Z.b2z b) (Z.of_nat (length h)) mod 2 ^ 64) = bits_of (h ++ [b]).
Proof.
  intros Hl. rewrite Z.shiftl_mul_pow2, Z.mod_small by
    (try split; try (destruct b; simpl Z.b2z; lia);
     assert (2 ^ Z.of_nat (length h) < 2 ^ 64) by (apply Z.pow_lt_mono_r; lia);
     destruct b; simpl Z.b2z; lia).
  rewrite lor_shift_add, bits_of_app by (try lia; apply bits_of_range). done.
Qed.

Lemma bits_of_roll h b :
  length h = 64%nat ->
  Z.lor (Z.shiftr (bits_of h) 1) (Z.shiftl (Z.b2z b) 63) = bits_of (tail h ++ [b]).
Proof.
  destruct h as [|c h]; [done|]. intros [= Hl]. cbn [bits_of tail].
  rewrite Z.shiftr_div_pow2 by lia. change (2 ^ 1) with 2.
  replace ((Z.b2z c + 2 * bits_of h) / 2) with (bits_of h).
  2: { rewrite (Z.mul_comm 2), Z.div_add, Z.div_small by (destruct c; simpl; lia). done. }
  pose proof (bits_of_range h) as Hr. rewrite Hl in Hr.
  rewrite Z.shiftl_mul_pow2 by lia. rewrite lor_shift_add by (done || lia).
  by rewrite bits_of_app, Hl.
Qed.

Lemma count_ones_double n z b : count_ones (S n) (Z.b2z b + 2 * z) = Z.b2z b + count_ones n z.
Proof.
  induction n as [|n IH].
  - cbn [count_ones]. change (Z.of_nat 0) with 0. by rewrite Z.add_b2z_double_bit0.
  - change (count_ones (S (S n)) (Z.b2z b + 2 * z)) with
      (Z.b2z (Z.testbit (Z.b2z b + 2 * z) (Z.of_nat (S n))) + count_ones (S n) (Z.b2z b + 2 * z)).
    assert (Z.testbit (Z.b2z b + 2 * z) (Z.of_nat (S n)) = Z.testbit z (Z.of_nat n)) as ->.
    { rewrite Z.add_comm, Nat2Z.inj_succ. apply Z.testbit_succ_r. lia. }
    rewrite IH. cbn [count_ones]. lia.
Qed.

Lemma count_ones_zero n : count_ones n 0 = 0.
Proof. induction n as [|n IH]; [done|]. cbn [count_ones]. by rewrite IH, Z.testbit_0_l. Qed.

Lemma count_ones_bits h n : (length h <= n)%nat -> count_ones n (bits_of h) = successes h.
Proof.
  revert n; induction h as [|b h IH]; intros n Hl; [apply count_ones_zero|].
  destruct n as [|n]; simpl in Hl; [lia|]. cbn [bits_of].
  rewrite count_ones_double, IH by lia. done.
Qed.

Lemma successes_range h : 0 <= successes h <= Z.of_nat (length h).
Proof. unfold successes. induction h as [|b h IH]; simpl; [lia|]. destruct b; simpl; lia. Qed.

Lemma observe_length h b : (length h <= 64)%nat -> (1 <= length (observe h b) <= 64)%nat.
Proof.
  intros Hl. unfold observe. destruct (Nat.ltb_spec (length h) 64); rewrite length_app; simpl; [lia|].
  destruct h; simpl in *; lia.
Qed.

Lemma correction_step_ok c m :
  correction_ok c -> 0 <= m < 2 ^ 33 -> correction_step c m = Ok (c * m / 2 ^ 32).
Proof.
  intros [_ Hc] Hm. change DIFFICULTY_C_MAX_Q32 with (2 ^ 48) in Hc.
  unfold correction_step, try_from. rewrite Z.shiftr_div_pow2 by lia.
  destruct (Z.ltb_spec (c * m / 2 ^ 32) (2 ^ 64)) as [|Hge]; [done|].
  assert (c * m / 2 ^ 32 < 2 ^ 64); [|lia]. apply Z.div_lt_upper_bound; [lia|].
  destruct (Z.lt_ge_cases c 0); nia.
Qed.

Lemma adjust_ok h c : correction_ok c -> correction_ok (adjust h c).
Proof.
  intros Hc. unfold adjust, correction_ok in *.
  change DIFFICULTY_C_MIN_Q32 with (2 ^ 16) in *. change DIFFICULTY_C_MAX_Q32 with (2 ^ 48) in *.
  change DIFFICULTY_EASIER_STEP_Q32 with 4341736423. change DIFFICULTY_HARDER_STEP_Q32 with 4248701965.
  assert (c <= c * 4341736423 / 2 ^ 32) by (apply Z.div_le_lower_bound; lia).
  assert (c * 4248701965 / 2 ^ 32 <= c) by (apply Z.div_le_upper_bound; lia).
  repeat case_match; lia.
Qed.

Lemma append_history_refines h c b count bitmap :
  window_rep h count bitmap -> correction_ok c ->
  exists count' bitmap',
    append_history_values count bitmap c b = Ok (count', bitmap', adjust (observe h b) c) /\
    window_rep (observe h b) count' bitmap'.
Proof.
  intros (Hl & -> & ->) Hc.
  set (h' := observe h b).
  exists (Z.of_nat (length h')), (bits_of h'). split.
  2: { split_and!; [apply observe_length; done|done|done]. }
  unfold append_history_values.
  assert ((if Z.of_nat (length h) <? 64
           then (Z.of_nat (length h) + 1,
                 Z.lor (bits_of h) (Z.shiftl (Z.b2z b) (Z.of_nat (length h)) mod 2 ^ 64))
           else (Z.of_nat (length h), Z.lor (Z.shiftr (bits_of h) 1) (Z.shiftl (Z.b2z b) 63)))
          = (Z.of_nat (length h'), bits_of h')) as ->.
  { unfold h', observe. destruct (Nat.ltb_spec (length h) 64).
    - rewrite (proj2 (Z.ltb_lt _ _)) by lia. rewrite bits_of_push by done.
      f_equal. rewrite length_app. simpl. lia.
    - rewrite (proj2 (Z.ltb_ge _ _)) by lia. rewrite bits_of_roll by lia.
      f_equal. destruct h; simpl in *; rewrite ?length_app; simpl; lia. }
  pose proof (observe_length h b Hl) as Hl'. fold h' in Hl'.
  pose proof (successes_range h').
  rewrite count_ones_bits by lia. unfold saturating_mul, adjust.
  rewrite !Z.min_l by lia. rewrite !correction_step_ok by (done || lia).
  repeat case_match; congruence.
Qed.

(** The controller over a run of observations, as the node stores it. *)
Definition run_history (st : Z * Z * Z) (outcomes : list bool) : node_result (Z * Z * Z) :=
  fold_result (fun '(count, bitmap, c) b => append_history_values count bitmap c b) st outcomes.

(** The same run on the abstract window. *)
Definition run_window (h : list bool) (c : Z) (outcomes : list bool) : list bool * Z :=
  fold_left (fun '(h, c) b => let h := observe h b in (h, adjust h c)) outcomes (h, c).

(** The last [n] elements of a list. *)
Definition last_n {A} (n : nat) (l : list A) : list A := drop (length l - n) l.

Lemma observe_last h past b : h = last_n 64 past -> observe h b = last_n 64 (past ++ [b]).
Proof.
  intros ->. unfold observe, last_n. rewrite length_drop, length_app. cbn [length].
  destruct (Nat.ltb_spec (length past - (length past - 64)) 64).
  - replace (length past + 1 - 64)%nat with 0%nat by lia.
    replace (length past - 64)%nat with 0%nat by lia. by rewrite !drop_0.
  - rewrite drop_app_le by lia. f_equal.
    assert (drop (length past + 1 - 64) past = drop 1 (drop (length past - 64) past)) as ->.
    { rewrite drop_drop. f_equal. lia. }
    by destruct (drop (length past - 64) past).
Qed.

Lemma run_history_refines outcomes past c count bitmap :
  window_rep (last_n 64 past) count bitmap -> correction_ok c ->
  exists count' bitmap' c',
    run_history (count, bitmap, c) outcomes = Ok (count', bitmap', c') /\
    run_window (last_n 64 past) c outcomes = (last_n 64 (past ++ outcomes), c') /\
    window_rep (last_n 64 (past ++ outcomes)) count' bitmap' /\ correction_ok c'.
Proof.
  revert past c count bitmap; induction outcomes as [|b outcomes IH]; intros past c count bitmap Hw Hc.
  { exists count, bitmap, c. rewrite app_nil_r. done. }
  destruct (append_history_refines _ c b _ _ Hw Hc) as (count1 & bitmap1 & He & Hw1).
  rewrite (observe_last _ past b eq_refl) in He, Hw1.
  destruct (IH (past ++ [b]) _ _ _ Hw1 (adjust_ok (last_n 64 (past ++ [b])) _ Hc)) as (n & bm & c' & H1 & H2 & H3 & H4).
  exists n, bm, c'. rewrite <- app_assoc in H2, H3. cbn [app] in H2, H3. split_and!; try done.
  - unfold run_history. cbn [fold_result]. rewrite He. apply H1.
  - unfold run_window. cbn [fold_left]. rewrite (observe_last _ past b eq_refl). apply H2.
Qed.

(** C28: the difficulty controller refines a sliding window.  Starting from the
    empty history and any correction in range, feeding it any sequence of epoch
    outcomes never fails; the stored counter and bitmap are exactly the last 64
    outcomes (oldest in bit 0), and the correction is the one the abstract
    controller computes from those windows: multiplied by the easier step when
    less than 40/64 of the window succeeded, by the harder step when more than
    41/64 did, untouched in between, and never outside
    [[2^16, 2^48]]. *)
Theorem difficulty_controller_refines outcomes correction :
  correction_ok correction ->
  exists count bitmap correction',
    run_history (0, 0, correction) outcomes = Ok (count, bitmap, correction') /\
    run_window [] correction outcomes = (last_n 64 outcomes, correction') /\
    count = Z.of_nat (Nat.min 64 (length outcomes)) /\
    bitmap = bits_of (last_n 64 outcomes) /\
    count_ones 64 bitmap = successes (last_n 64 outcomes) /\
    correction_ok correction'.
Proof.
  intros Hc. destruct (run_history_refines outcomes [] correction 0 0) as (n & bm & c' & H1 & H2 & H3 & H4).
  { unfold window_rep. simpl. split_and!; [lia|done|done]. }
  { done. }
  exists n, bm, c'. rewrite app_nil_l in H2, H3. destruct H3 as (Hl & -> & ->).
  split_and!; try done.
  - f_equal. unfold last_n. rewrite length_drop. lia.
  - by apply count_ones_bits.
Qed.

Lemma difficulty_controller_refines_witness :
  correction_ok (2 ^ 32) /\ exists count bitmap correction',
    run_history (0, 0, 2 ^ 32) [true; false; false] = Ok (count, bitmap, correction') /\
    count = 3 /\ bitmap = 1.
Proof.
  assert (correction_ok (2 ^ 32)) as Hc by (split; done). split; [exact Hc|].
  destruct (difficulty_controller_refines [true; false; false] (2 ^ 32) Hc)
    as (n & bm & c & H1 & _ & H3 & H4 & _).
  exists n, bm, c. split; [exact H1|]. split; [exact H3|exact H4].
Defined.

(** C29: the Base Fee controller.  For every rate in the protocol's range
    [[2^32, 2^52]] and every weight a block may have the adjustment succeeds and
    stays in the range; a block of exactly the target weight leaves the rate
    alone, a heavier one raises it and a lighter one lowers it by
    [rate * |weight - target| / (64 * target)] up to the bound, so by at most
    one 64th of the rate. *)
Theorem base_fee_controller_correct rate weight :
  fee_rate_ok rate -> 0 <= weight <= BLOCK_WEIGHT_MAX ->
  exists rate', adjusted_base_fee_rate rate weight = Ok rate' /\ fee_rate_ok rate' /\
    Z.abs (rate' - rate) <= rate / 64 /\
    (weight = BLOCK_WEIGHT_TARGET -> rate' = rate) /\
    (weight > BLOCK_WEIGHT_TARGET -> rate <= rate' /\
       rate' = Z.min (rate + rate * (weight - BLOCK_WEIGHT_TARGET) / (64 * BLOCK_WEIGHT_TARGET)) BASE_FEE_MAX_Q32) /\
    (weight < BLOCK_WEIGHT_TARGET -> rate' <= rate /\
       rate' = Z.max (rate - rate * (BLOCK_WEIGHT_TARGET - weight) / (64 * BLOCK_WEIGHT_TARGET)) BASE_FEE_MIN_Q32).
Proof.
  intros Hr Hw. destruct (adjusted_base_fee_cases rate weight Hr Hw) as (rate' & H1 & H2 & H3 & H4 & H5).
  exists rate'. split; [done|]. split; [done|].
  unfold fee_rate_ok in *.
  change BASE_FEE_MIN_Q32 with (2 ^ 32) in *. change BASE_FEE_MAX_Q32 with (2 ^ 52) in *.
  change BLOCK_WEIGHT_MAX with (2 ^ 17) in *. change BLOCK_WEIGHT_TARGET with (2 ^ 16) in *.
  assert (forall d, 0 <= d <= 2 ^ 16 -> 0 <= rate * d / (64 * 2 ^ 16) <= rate / 64) as Hd.
  { intros d Hd. split; [apply Z.div_pos; nia|].
    rewrite (Z.mul_comm 64), <- Z.div_div by lia. apply Z.div_le_mono; [lia|].
    apply Z.div_le_upper_bound; [lia|]. nia. }
  assert (0 <= rate / 64) by (apply Z.div_pos; lia).
  destruct (Z.lt_trichotomy weight (2 ^ 16)) as [Hlt|[Heq|Hgt]].
  - specialize (Hd (2 ^ 16 - weight) ltac:(lia)). specialize (H5 Hlt). split_and!; lia.
  - specialize (H3 Heq). split_and!; lia.
  - specialize (Hd (weight - 2 ^ 16) ltac:(lia)). specialize (H4 ltac:(lia)). split_and!; lia.
Qed.

Lemma base_fee_controller_correct_witness :
  fee_rate_ok (2 ^ 40) /\ exists rate', adjusted_base_fee_rate (2 ^ 40) 131072 = Ok rate' /\
    rate' = 2 ^ 40 + 2 ^ 34.
Proof.
  assert (fee_rate_ok (2 ^ 40)) as Hr by (split; done). split; [exact Hr|].
  destruct (base_fee_controller_correct (2 ^ 40) 131072 Hr ltac:(split; done))
    as (rate' & H1 & _ & _ & _ & H2 & _).
  exists rate'. split; [exact H1|]. destruct H2 as [_ ->]; [done|]. vm_compute. reflexivity.
Defined.
