(* ===== verification/NodePresence.v ===== *)
(** Mining presence in the node ([mutiny-node/src/presence.rs]) and the counts
    of eligible licenses that the mining rules of an epoch depend on. *)

From Stdlib Require Import Strings.Byte Strings.String.
From stdpp Require Import strings.
From S2P Require Import Prelude Crypto Codec Smt State Transaction Protocol ProtocolRules Collections NodeState.

Definition active (state : DevnetState) (epoch : Z) : bool :=
  if ds_network_id state =? DEVNET_NETWORK_ID
  then bool_decide (ds_genesis_hash state = DEVNET_GENESIS_ID_HEX)
       && (PACK_K_DEVNET_ACTIVATION_EPOCH <=? epoch)
  else match decode32 (ds_genesis_hash state) with
       | Ok genesis => pack_k_active (ds_network_id state) genesis epoch
       | Err _ => false
       end.

Definition count_by {A} (p : A -> bool) (l : list A) : Z := Z.of_nat (length (List.filter p l)).

Definition base_eligible_count (state : DevnetState) (epoch : Z) : Z :=
  count_by (fun license => is_eligible license epoch) (ds_licenses state).

Definition state_for_license (state : DevnetState) (license : LicenseState) : option MiningPresenceState :=
  List.find (fun presence => bool_decide (pr_license_id presence = ls_license_id license))
    (ds_mining_presence state).

Definition license_has_fresh_presence (state : DevnetState) (license : LicenseState) (epoch : Z) : bool :=
  if negb (active state epoch) then true
  else match state_for_license state license with
       | None => false
       | Some presence =>
           if negb (pr_mining_key_sequence presence =? ls_mining_key_sequence license) then false
           else if epoch <? pr_last_presence_epoch presence then false
           else epoch - pr_last_presence_epoch presence <? MINING_PRESENCE_WINDOW_EPOCHS
       end.

Definition participation_eligible_count (state : DevnetState) (epoch : Z) : Z :=
  if negb (active state epoch) then base_eligible_count state epoch
  else count_by (fun license => is_eligible license epoch && license_has_fresh_presence state license epoch)
         (ds_licenses state).

(** [main.rs]: the two counts under the names the node uses. *)
Definition base_eligible_license_count (state : DevnetState) (epoch : Z) : Z :=
  base_eligible_count state epoch.
Definition eligible_license_count (state : DevnetState) (epoch : Z) : Z :=
  participation_eligible_count state epoch.

(** [iter().min()] *)
Definition list_min (l : list Z) : option Z :=
  match l with [] => None | x :: l => Some (fold_left Z.min l x) end.

Definition next_mineable_epoch (state : DevnetState) : Z :=
  if ds_height state =? 0 then Z.max ACTIVATION_DELAY_EPOCHS (saturating_add 64 (ds_tip_epoch state) 1)
  else if (10 <=? ds_format_version state)
          && (base_eligible_license_count state (saturating_add 64 (ds_tip_epoch state) 1) =? 0)
  then default (saturating_add 64 (ds_tip_epoch state) 1)
         (list_min (map ls_activation_epoch
            (List.filter (fun l => ds_tip_epoch state <? ls_activation_epoch l) (ds_licenses state))))
  else ds_tip_epoch state + 1.

(** [licenses.iter().find(|l| l.license_id == hex::encode(id))] and the same
    with [position]. *)
Definition license_is (id : bytes32) (l : LicenseState) : bool :=
  bool_decide (ls_license_id l = hex_encode id).

Definition find_license (state : DevnetState) (id : bytes32) : option LicenseState :=
  List.find (license_is id) (ds_licenses state).

Definition position_license (state : DevnetState) (id : bytes32) : option nat :=
  position (license_is id) (ds_licenses state).

Section presence.
Context {SHA : Sha2} {ED : Ed25519}.

Definition validate_operation_against_parent (parent : DevnetState) (op : ProtocolOperationV1)
    (block_epoch : Z) : node_result MiningPresenceV1 :=
  let? presence := decode_operation op in
  let? license := ok_or (Msg "MINING_PRESENCE references unknown LicenseID"%string)
      (find_license parent (mi_license_id presence)) in
  let? genesis := decode32 (ds_genesis_hash parent) in
  let? record := LicenseState_record license in
  let? _ := map_err FromProtocol
      (MiningPresenceV1_verify_against presence record (ds_network_id parent) genesis block_epoch) in
  Ok presence.

(** [HashSet::insert] that must be new *)
Definition insert_new {K} `{Countable K} (e : NodeError) (x : K) (s : gset K) : node_result (gset K) :=
  if bool_decide (x ∈ s) then Err e else Ok ({[x]} ∪ s).

Definition prevalidate_block_operations (parent : DevnetState) (operations : list ProtocolOperationV1)
    (block_epoch : Z) : node_result unit :=
  let? authority_targets := fold_result (fun (targets : gset bytes32) op =>
      let? target := authority_operation_license_id op in
      match target with
      | Some target => Ok ({[target]} ∪ targets)
      | None => Ok targets
      end) ∅ operations in
  let? _ := fold_result (fun (presence_targets : gset bytes32) op =>
      if negb (po_op_type op =? OP_MINING_PRESENCE) then Ok presence_targets
      else
        let? presence := validate_operation_against_parent parent op block_epoch in
        let? presence_targets := insert_new
            (Msg "Pack K permits at most one MINING_PRESENCE per LicenseID per block"%string)
            (mi_license_id presence) presence_targets in
        if bool_decide (mi_license_id presence ∈ authority_targets)
        then err "Pack K forbids same-block owner transfer/mining-key rotation plus MINING_PRESENCE for one LicenseID"
        else Ok presence_targets) ∅ operations in
  Ok tt.

Definition candidate_eligible_count (parent : DevnetState) (epoch : Z) (mining_license_id : bytes32)
    (operations : list ProtocolOperationV1) : node_result Z :=
  let? license := ok_or (Msg "candidate mining LicenseID is unknown"%string)
      (find_license parent mining_license_id) in
  if negb (is_eligible license epoch)
  then err "candidate mining LicenseID is not base-eligible at the candidate epoch"
  else if negb (active parent epoch) then Ok (base_eligible_count parent epoch)
  else
    let parent_count := participation_eligible_count parent epoch in
    if license_has_fresh_presence parent license epoch then Ok parent_count
    else
      let? matching := fold_result (fun (matching : option MiningPresenceV1) op =>
          if negb (po_op_type op =? OP_MINING_PRESENCE) then Ok matching
          else
            let? presence := decode_operation op in
            if negb (bytes_eqb (mi_license_id presence) mining_license_id) then Ok matching
            else match matching with
                 | Some _ => err "candidate block contains duplicate self-presence operations"
                 | None =>
                     let? _ := validate_operation_against_parent parent op epoch in
                     Ok (Some presence)
                 end) None operations in
      match matching with
      | None => err "candidate mining LicenseID lacks fresh parent presence and valid same-block self-presence"
      | Some _ => ok_or (Msg "Pack-K candidate eligible count overflow"%string)
                    (checked_add 64 parent_count 1)
      end.

(** [create_operation]: [sk] is the signing key. *)
Definition create_operation (state : DevnetState) (license_index : nat) (epoch : Z) (sk : bytes32)
    : node_result ProtocolOperationV1 :=
  if negb (active state epoch) then err "Pack K is not active at the requested presence epoch"
  else
    let? license := ok_or (Msg "license number out of range"%string) (ds_licenses state !! license_index) in
    let? mining_key := decode32 (ls_mining_public_key license) in
    if negb (bytes_eqb (sk_public sk) mining_key)
    then err "presence signer does not match current on-chain mining authority"
    else
      let? genesis_id := decode32 (ds_genesis_hash state) in
      let? license_id := decode32 (ls_license_id license) in
      let unsigned signature :=
        {| mi_network_id := ds_network_id state; mi_genesis_id := genesis_id; mi_license_id := license_id;
           mi_expected_mining_sequence := ls_mining_key_sequence license; mi_presence_epoch := epoch;
           mi_mining_signature := signature |} in
      let digest := MiningPresenceV1_signing_digest (unsigned (replicate 64 Byte.x00)) in
      let op := MiningPresenceV1_operation (unsigned (sk_sign sk digest)) in
      let? _ := validate_operation_against_parent state op epoch in
      Ok op.

(** [iter_mut().find(p)] followed by an assignment: the first match. *)
Fixpoint replace_first {A} (p : A -> bool) (v : A) (l : list A) : list A :=
  match l with
  | [] => []
  | x :: l => if p x then v :: l else x :: replace_first p v l
  end.

Definition apply_validated_operation (state : DevnetState) (op : ProtocolOperationV1)
    : node_result DevnetState :=
  let? presence := decode_operation op in
  let state_value := {| pr_license_id := hex_encode (mi_license_id presence);
                        pr_mining_key_sequence := mi_expected_mining_sequence presence;
                        pr_last_presence_epoch := mi_presence_epoch presence;
                        pr_last_presence_operation_id := to_hex (operation_id op) |} in
  let same entry := bool_decide (pr_license_id entry = pr_license_id state_value) in
  if existsb same (ds_mining_presence state)
  then Ok (state <| ds_mining_presence := replace_first same state_value (ds_mining_presence state) |>)
  else Ok (state <| ds_mining_presence :=
             sort_by (fun a b => String.leb (pr_license_id a) (pr_license_id b))
               (ds_mining_presence state ++ [state_value]) |>).

Definition presence_check_state (state : DevnetState) : node_result unit :=
  let? _ := fold_result (fun (ids : gset string) presence =>
      let? license_id := decode32 (pr_license_id presence) in
      let? _ := decode32 (pr_last_presence_operation_id presence) in
      let? value := MiningPresenceState_value presence in
      let? _ := map_err FromState (MiningPresenceStateV1_validate value) in
      let? ids := insert_new (Msg "duplicate Pack-K MiningPresenceState LicenseID"%string)
          (pr_license_id presence) ids in
      if negb (existsb (license_is license_id) (ds_licenses state))
      then err "Pack-K MiningPresenceState references unknown LicenseID"
      else Ok ids) ∅ (ds_mining_presence state) in
  Ok tt.
End presence.
