(* ===== verification/NodePunishment.v ===== *)
(** Punishment in the node ([mutiny-node/src/punishment.rs]): what counts as
    objective evidence of an offense, how accepted evidence changes a license
    and the ledger of offenses, and how offenses expire. *)

From Stdlib Require Import Strings.Byte Strings.String.
From stdpp Require Import strings.
From S2P Require Import Prelude Crypto Codec Smt State Transaction Protocol ProtocolRules Collections NodeState NodePresence.

Section punishment.
Context {SHA : Sha2} {ED : Ed25519}.

Definition license_by_id (state : DevnetState) (id : bytes32) : node_result LicenseState :=
  ok_or (Msg "punishment evidence references unknown LicenseID"%string) (find_license state id).

(** The search for the one historical snapshot that satisfies [same]. *)
Definition historical_key (same : HistoricalLicenseKeyState -> bool)
    (key_of : HistoricalLicenseKeyState -> string) (ambiguous missing : NodeError)
    (keys : list HistoricalLicenseKeyState) : node_result (option bytes32) :=
  let? found := fold_result (fun (found : option bytes32) historical =>
      if same historical then
        let? key := decode32 (key_of historical) in
        match found with Some _ => Err ambiguous | None => Ok (Some key) end
      else Ok found) None keys in
  match found with Some key => Ok (Some key) | None => Err missing end.

Definition mining_key_at_sequence (state : DevnetState) (id : bytes32) (sequence : Z)
    : node_result (option bytes32) :=
  let? license := license_by_id state id in
  if ls_mining_key_sequence license <? sequence then Ok None
  else if sequence =? ls_mining_key_sequence license then
    let? key := decode32 (ls_mining_public_key license) in Ok (Some key)
  else
    let id_hex := hex_encode id in
    historical_key (fun historical => bool_decide (hs_license_id historical = id_hex)
                                      && (hs_mining_key_sequence historical =? sequence))
      hs_mining_public_key
      (Msg "ambiguous historical mining authority sequence"%string)
      (Msg "missing historical mining authority snapshot for punishment evidence"%string)
      (ds_historical_license_keys state).

Definition owner_key_at_sequences (state : DevnetState) (id : bytes32)
    (owner_sequence mining_sequence : Z) : node_result (option bytes32) :=
  let? license := license_by_id state id in
  if (ls_owner_key_sequence license <? owner_sequence)
     || (ls_mining_key_sequence license <? mining_sequence) then Ok None
  else if (owner_sequence =? ls_owner_key_sequence license)
          && (mining_sequence =? ls_mining_key_sequence license) then
    let? key := decode32 (ls_owner_public_key license) in Ok (Some key)
  else
    let id_hex := hex_encode id in
    historical_key (fun historical => bool_decide (hs_license_id historical = id_hex)
                                      && (hs_owner_key_sequence historical =? owner_sequence)
                                      && (hs_mining_key_sequence historical =? mining_sequence))
      hs_owner_public_key
      (Msg "ambiguous historical owner authority sequence"%string)
      (Msg "missing historical owner authority snapshot for punishment evidence"%string)
      (ds_historical_license_keys state).

Definition parse_signed_header (bs : bytes) (network_id : Z) : node_result (bytes * bytes) :=
  if negb (length bs =? 272)%nat then err "punishment signed header must be exactly 272 bytes"
  else
    let core := take 208 bs in
    let signature := drop 208 bs in
    if negb (be_val (slice 0 2 core) =? 1) then err "punishment signed header version is not V1"
    else if negb (be_val (slice 2 6 core) =? network_id)
    then err "punishment signed header NetworkID mismatch"
    else Ok (core, signature).

Definition validate_signed_header (state : DevnetState) (accused : bytes32) (mining_sequence : Z)
    (bs : bytes) : node_result (option bytes) :=
  let? (core, signature) := parse_signed_header bs (ds_network_id state) in
  if negb (bytes_eqb (slice 142 174 core) accused)
  then err "punishment signed header LicenseID does not match accused LicenseID"
  else
    let? mining_key := mining_key_at_sequence state accused mining_sequence in
    match mining_key with
    | None => Ok None
    | Some mining_key =>
        if negb (vk_from_bytes mining_key)
        then err "invalid historical mining public key in punishment evidence"
        else
          let digest := block_signing_digest core in
          if negb (vk_verify_strict mining_key digest signature)
          then err "punishment evidence has invalid mining signature"
          else Ok (Some core)
    end.

(** Returns the operation, its bytes and the advanced cursor. *)
Definition take_protocol_operation (original : bytes) : node_result (ProtocolOperationV1 * bytes * bytes) :=
  if (length original <? 5)%nat
  then err "truncated embedded authority operation in punishment evidence"
  else
    let op_type := be_val (slice 0 2 original) in
    let op_version := be_val (slice 2 4 original) in
    let? (payload_len, cursor) := map_err FromCodec (read_varuint (drop 4 original)) in
    let? payload_len := ok_or (Msg "embedded authority operation length overflow"%string)
        (try_from 64 payload_len) in
    let prefix_len := Z.of_nat (length original - length cursor) in
    if Z.of_nat (length cursor) <? payload_len
    then err "truncated embedded authority operation payload"
    else
      let? total := ok_or (Msg "embedded authority operation length overflow"%string)
          (checked_add 64 prefix_len payload_len) in
      let bs := take (Z.to_nat total) original in
      let payload := take (Z.to_nat payload_len) cursor in
      let input := drop (Z.to_nat total) original in
      let op := {| po_op_type := op_type; po_op_version := op_version; po_payload := payload |} in
      if negb (bytes_eqb (ProtocolOperationV1_encode op) bs)
      then err "embedded authority operation is not canonical"
      else Ok (op, bs, input).

Record AuthorityEvidenceFields := {
  ae_license_id : bytes32;
  ae_owner_sequence : Z;
  ae_mining_sequence : Z;
  ae_digest : bytes32;
  ae_signature : bytes;
}.

Definition authority_evidence_fields (op : ProtocolOperationV1) : node_result AuthorityEvidenceFields :=
  if po_op_type op =? OP_LICENSE_TRANSFER then
    let? transfer := decode_license_transfer_operation op in
    Ok {| ae_license_id := lt_license_id transfer;
          ae_owner_sequence := lt_expected_owner_sequence transfer;
          ae_mining_sequence := lt_expected_mining_sequence transfer;
          ae_digest := LicenseTransferV1_signing_digest transfer;
          ae_signature := lt_owner_signature transfer |}
  else if po_op_type op =? OP_LICENSE_MINING_KEY_ROTATE then
    let? rotation := decode_mining_key_rotation_operation op in
    Ok {| ae_license_id := kr_license_id rotation;
          ae_owner_sequence := kr_expected_owner_sequence rotation;
          ae_mining_sequence := kr_expected_mining_sequence rotation;
          ae_digest := MiningKeyRotateV1_signing_digest rotation;
          ae_signature := kr_owner_signature rotation |}
  else err "Tier-2 evidence must embed transfer or mining-key-rotation operations".

(** Tier 1: a signed header whose proof misses its own target. *)
Definition evidence_invalid_work (state : DevnetState) (evidence : PunishmentEvidenceV1) : node_result bool :=
  let body := pe_evidence evidence in
  if negb (length body =? 4 + 272)%nat
  then err "Tier-1 evidence must be mining_sequence:u32 + signed_header:272"
  else
    let mining_sequence := be_val (take 4 body) in
    let? core := validate_signed_header state (pe_accused_license_id evidence) mining_sequence (drop 4 body) in
    match core with
    | None => Ok false
    | Some core =>
        let target := slice 110 142 core in
        let proof := slice 176 208 core in
        if proof_below_target proof target
        then err "Tier-1 evidence does not prove invalid signed work: proof is below Target"
        else Ok true
    end.

(** Tier 2: two different authority operations signed for the same sequences. *)
Definition evidence_authority (state : DevnetState) (evidence : PunishmentEvidenceV1) : node_result bool :=
  let? (a, a_bytes, input) := take_protocol_operation (pe_evidence evidence) in
  let? (b, b_bytes, input) := take_protocol_operation input in
  if negb (length input =? 0)%nat then err "Tier-2 evidence has trailing bytes"
  else if bytes_leb b_bytes a_bytes
  then err "Tier-2 embedded operations are not in strict canonical byte order"
  else
    let? af := authority_evidence_fields a in
    let? bf := authority_evidence_fields b in
    if negb (bytes_eqb (ae_license_id af) (pe_accused_license_id evidence))
       || negb (bytes_eqb (ae_license_id bf) (pe_accused_license_id evidence))
    then err "Tier-2 embedded operation LicenseID does not match accused LicenseID"
    else if negb (ae_owner_sequence af =? ae_owner_sequence bf)
            || negb (ae_mining_sequence af =? ae_mining_sequence bf)
    then err "Tier-2 operations do not consume the same authority sequence"
    else
      let? owner_key := owner_key_at_sequences state (pe_accused_license_id evidence)
          (ae_owner_sequence af) (ae_mining_sequence af) in
      match owner_key with
      | None => Ok false
      | Some owner_key =>
          if negb (vk_from_bytes owner_key)
          then err "invalid historical owner public key in punishment evidence"
          else if negb (vk_verify_strict owner_key (ae_digest af) (ae_signature af))
          then err "Tier-2 first owner signature is invalid"
          else if negb (vk_verify_strict owner_key (ae_digest bf) (ae_signature bf))
          then err "Tier-2 second owner signature is invalid"
          else Ok true
      end.

(** Tier 3: two different signed headers for one winning ticket. *)
Definition evidence_same_ticket (state : DevnetState) (evidence : PunishmentEvidenceV1) : node_result bool :=
  let body := pe_evidence evidence in
  if negb (length body =? 4 + 272 + 272)%nat
  then err "Tier-3 evidence must be mining_sequence:u32 + two signed 272-byte headers"
  else
    let mining_sequence := be_val (take 4 body) in
    let a_bytes := slice 4 276 body in
    let b_bytes := slice 276 548 body in
    if bytes_leb b_bytes a_bytes
    then err "Tier-3 signed headers are not in strict canonical byte order"
    else
      let? a := validate_signed_header state (pe_accused_license_id evidence) mining_sequence a_bytes in
      match a with
      | None => Ok false
      | Some a =>
          let? b := validate_signed_header state (pe_accused_license_id evidence) mining_sequence b_bytes in
          match b with
          | None => Ok false
          | Some b =>
              if bytes_eqb a b then err "Tier-3 signed header cores are identical"
              else if negb (bytes_eqb (slice 6 14 a) (slice 6 14 b))
                      || negb (bytes_eqb (slice 110 142 a) (slice 110 142 b))
                      || negb (bytes_eqb (slice 142 174 a) (slice 142 174 b))
                      || negb (bytes_eqb (slice 174 176 a) (slice 174 176 b))
                      || negb (bytes_eqb (slice 176 208 a) (slice 176 208 b))
              then err "Tier-3 headers do not share epoch/target/license/ticket/proof"
              else
                let target := slice 110 142 a in
                let proof := slice 176 208 a in
                if negb (proof_below_target proof target)
                then err "Tier-3 same-ticket evidence does not carry a below-target proof"
                else Ok true
          end
      end.

(** [Ok false]: the evidence speaks of a key sequence the license has not
    reached yet. *)
Definition validate_objective_evidence (state : DevnetState) (evidence : PunishmentEvidenceV1)
    : node_result bool :=
  if pe_offense_type evidence =? OFFENSE_INVALID_SIGNED_WORK then evidence_invalid_work state evidence
  else if pe_offense_type evidence =? OFFENSE_LICENSE_STATE_EQUIVOCATION
  then evidence_authority state evidence
  else if pe_offense_type evidence =? OFFENSE_SAME_TICKET_EQUIVOCATION
  then evidence_same_ticket state evidence
  else err "unknown punishment offense type".

Definition punishment_dependency_ready (state : DevnetState) (op : ProtocolOperationV1) : node_result bool :=
  let? evidence := decode_punishment_operation op in
  let? _ := license_by_id state (pe_accused_license_id evidence) in
  validate_objective_evidence state evidence.

(** The four assignments that copy a punished record back. *)
Definition copy_discipline (record : LicenseRecordV1) (l : LicenseState) : LicenseState :=
  l <| ls_status := lr_status record |>
    <| ls_strike_weight := lr_strike_weight record |>
    <| ls_suspended_until_epoch := lr_suspended_until_epoch record |>
    <| ls_revocation_epoch := lr_revocation_epoch record |>.

Definition punishment_apply_operation (state : DevnetState) (op : ProtocolOperationV1) (block_epoch : Z)
    : node_result DevnetState :=
  let? evidence := decode_punishment_operation op in
  let evidence_hex := hex_encode (evidence_id evidence) in
  if existsb (fun id => bool_decide (id = evidence_hex)) (ds_consumed_evidence state)
  then err "EvidenceID has already been consumed"
  else
    let? valid := validate_objective_evidence state evidence in
    if negb valid then err "punishment evidence depends on a future authority sequence"
    else
      let? license_index := ok_or (Msg "punishment evidence references unknown LicenseID"%string)
          (position_license state (pe_accused_license_id evidence)) in
      match ds_licenses state !! license_index with
      | None => err "punishment evidence references unknown LicenseID"
      | Some license =>
          if ls_status license =? LICENSE_STATUS_REVOKED
          then err "punishment evidence targets an already revoked Mining License"
          else
            let? weight := map_err FromProtocol (offense_weight (pe_offense_type evidence)) in
            let? record := LicenseState_record license in
            let '(record, applied) := apply_offense record (pe_offense_type evidence) block_epoch in
            let? applied := map_err FromProtocol applied in
            let event := {| oe_evidence_id := evidence_hex;
                            oe_license_id := hex_encode (pe_accused_license_id evidence);
                            oe_offense_type := pe_offense_type evidence; oe_weight := weight;
                            oe_applied_epoch := block_epoch;
                            oe_expiry_epoch := oa_offense_expiry_epoch applied |} in
            Ok (state <| ds_licenses := alter (copy_discipline record) license_index (ds_licenses state) |>
                      <| ds_consumed_evidence :=
                           sort_by String.leb (ds_consumed_evidence state ++ [evidence_hex]) |>
                      <| ds_offense_events :=
                           sort_by (fun a b => String.leb (oe_evidence_id a) (oe_evidence_id b))
                             (ds_offense_events state ++ [event]) |>)
      end.

(** The [HashMap] of active weights per license. *)
Definition active_weights (events : list OffenseEventState) : node_result (gmap string Z) :=
  fold_result (fun (active : gmap string Z) event =>
      let? weight := ok_or (Msg "active strike weight overflow"%string)
          (checked_add 8 (default 0 (active !! oe_license_id event)) (oe_weight event)) in
      Ok (<[oe_license_id event := weight]> active)) ∅ events.

Definition expire_license (active_by_license : gmap string Z) (license : LicenseState)
    : node_result LicenseState :=
  if ls_status license =? LICENSE_STATUS_REVOKED then
    if negb (ls_strike_weight license =? REVOCATION_THRESHOLD)
    then err "revoked Mining License strike weight is not capped at 16"
    else Ok license
  else
    let active := default 0 (active_by_license !! ls_license_id license) in
    if REVOCATION_THRESHOLD <=? active
    then err "non-revoked Mining License has revocation-level active strike weight"
    else Ok (license <| ls_strike_weight := active |>).

Definition expire_events (state : DevnetState) (epoch : Z) : node_result DevnetState :=
  let events := List.filter (fun event => epoch <? oe_expiry_epoch event) (ds_offense_events state) in
  let? active_by_license := active_weights events in
  let? licenses := map_result (expire_license active_by_license) (ds_licenses state) in
  Ok (state <| ds_offense_events := events |> <| ds_licenses := licenses |>).

Definition punishment_check_event (state : DevnetState) (consumed : gset string)
    (acc : gset string * gmap string Z) (event : OffenseEventState)
    : node_result (gset string * gmap string Z) :=
  let '(events, sums) := acc in
  let? _ := decode32 (oe_evidence_id event) in
  let? _ := decode32 (oe_license_id event) in
  if negb (bool_decide (oe_evidence_id event ∈ consumed))
  then err "active offense does not have a consumed EvidenceID"
  else
    let? events := insert_new (Msg "duplicate active offense EvidenceID"%string) (oe_evidence_id event) events in
    let? expected_weight := map_err FromProtocol (offense_weight (oe_offense_type event)) in
    if negb (oe_weight event =? expected_weight) then err "active offense has wrong strike weight"
    else
      let? expiry := ok_or (Msg "offense expiry overflow"%string)
          (checked_add 64 (oe_applied_epoch event) STRIKE_DECAY_EPOCHS) in
      if negb (oe_expiry_epoch event =? expiry)
      then err "active offense expiry epoch is not AppliedEpoch + 2^21"
      else if oe_expiry_epoch event <=? ds_tip_epoch state
      then err "expired offense remains in active ProtocolState"
      else if negb (existsb (fun license => bool_decide (ls_license_id license = oe_license_id event))
                      (ds_licenses state))
      then err "active offense references unknown LicenseID"
      else
        let? weight := ok_or (Msg "active strike weight overflow"%string)
            (checked_add 8 (default 0 (sums !! oe_license_id event)) (oe_weight event)) in
        Ok (events, <[oe_license_id event := weight]> sums).

Definition punishment_check_license (sums : gmap string Z) (license : LicenseState) : node_result unit :=
  if ls_status license =? LICENSE_STATUS_REVOKED then
    if negb (ls_strike_weight license =? REVOCATION_THRESHOLD) || (ls_revocation_epoch license =? 0)
    then err "revoked Mining License does not carry permanent strike/revocation state"
    else Ok tt
  else
    let active := default 0 (sums !! ls_license_id license) in
    if negb (ls_strike_weight license =? active)
    then err "Mining License strike weight does not equal active offense weight"
    else if negb (ls_revocation_epoch license =? 0)
    then err "non-revoked Mining License has revocation epoch"
    else Ok tt.

Definition punishment_check_state (state : DevnetState) : node_result unit :=
  let? consumed := fold_result (fun (consumed : gset string) id =>
      let? _ := decode32 id in
      insert_new (Msg "duplicate consumed EvidenceID"%string) id consumed)
    ∅ (ds_consumed_evidence state) in
  let? (_, sums) := fold_result (punishment_check_event state consumed) (∅, ∅) (ds_offense_events state) in
  let? _ := map_result (punishment_check_license sums) (ds_licenses state) in
  Ok tt.

Definition operation_summary (op : ProtocolOperationV1) : node_result (string * Z * Z * string) :=
  let? evidence := decode_punishment_operation op in
  let? weight := map_err FromProtocol (offense_weight (pe_offense_type evidence)) in
  Ok (hex_encode (evidence_id evidence), pe_offense_type evidence, weight,
      hex_encode (pe_accused_license_id evidence)).

Definition queued_weight_for_license (state : DevnetState) (license_id : string) : node_result Z :=
  fold_result (fun total pending =>
      let? op := PendingProtocolOperationState_operation pending in
      if negb (po_op_type op =? OP_PUNISHMENT_EVIDENCE) then Ok total
      else
        let? evidence := decode_punishment_operation op in
        if bool_decide (hex_encode (pe_accused_license_id evidence) = license_id) then
          let? weight := map_err FromProtocol (offense_weight (pe_offense_type evidence)) in
          ok_or (Msg "queued punishment weight overflow"%string) (checked_add 8 total weight)
        else Ok total) 0 (ds_pending_protocol_operations state).
End punishment.
