(* ===== verification/NodeUtxo.v ===== *)
(** The set of unspent outputs of the node and the two loops that every
    transaction runs on it: collect the inputs, then remove what they spend and
    add the new outputs ([main.rs] and [dividends.rs]). *)

From Stdlib Require Import Strings.Byte Strings.String.
From stdpp Require Import strings.
From S2P Require Import Prelude Crypto Codec State Transaction Protocol Collections NodeState.

Abbreviation outpoint := (string * Z)%type.

Definition utxo_key_of (u : UtxoState) : outpoint := (us_txid u, us_output_index u).

(** [u.txid == txid && u.output_index == index] *)
Definition utxo_is (k : outpoint) (u : UtxoState) : bool :=
  bool_decide (us_txid u = fst k) && (us_output_index u =? snd k).

Definition find_utxo (utxos : list UtxoState) (k : outpoint) : option UtxoState :=
  List.find (utxo_is k) utxos.

(** [for (txid, index) in consumed { utxos.remove(position(..)?) }] *)
Definition remove_consumed (missing : NodeError) (utxos : list UtxoState) (consumed : list outpoint)
    : node_result (list UtxoState) :=
  fold_result (fun utxos k =>
      let? pos := ok_or missing (position (utxo_is k) utxos) in
      Ok (delete pos utxos)) utxos consumed.

(** The key of an input: [(hex::encode(previous_txid), index)]; a coinbase
    input has none. *)
Definition input_outpoint (input : TxInput) : option outpoint :=
  match input with
  | Outpoint previous_txid previous_output_index => Some (hex_encode previous_txid, previous_output_index)
  | Coinbase _ => None
  end.

Definition mempool_reserved_inputs (state : DevnetState) : gset outpoint :=
  list_to_set (concat (map (fun tx =>
      map (fun i => (si_previous_txid i, si_previous_output_index i)) (pd_inputs tx)) (ds_mempool state))).

Section utxo.
Context {SHA : Sha2}.

Definition treasury_id_for_network (network_id : Z) : bytes32 :=
  sha256_domain domains.TREASURY_ID [be_bytes 4 network_id].

(** The loop of [add_outputs_as_utxos] from output [i] on. *)
Fixpoint push_outputs (txid : string) (epoch height : Z) (coinbase : bool) (i : Z)
    (outputs : list TxOutput) (utxos : list UtxoState) : node_result (list UtxoState) :=
  match outputs with
  | [] => Ok utxos
  | output :: outputs =>
      let? output_index := ok_or (Msg "output index overflow"%string) (try_from 16 i) in
      push_outputs txid epoch height coinbase (i + 1) outputs
        (utxos ++ [{| us_txid := txid; us_output_index := output_index;
                      us_amount_strikes := to_amount_strikes output;
                      us_output_type := to_output_type output;
                      us_payload := hex_encode (to_payload output);
                      us_creation_epoch := epoch; us_creation_height := height;
                      us_coinbase := coinbase |}])
  end.

Definition add_outputs_as_utxos (utxos : list UtxoState) (tx : TransactionV1) (epoch height : Z)
    (coinbase : bool) : node_result (list UtxoState) :=
  push_outputs (to_hex (TransactionV1_txid tx)) epoch height coinbase 0 (tc_outputs (tx_core tx)) utxos.

(** ** Sums of outputs *)

Definition utxo_total (utxos : list UtxoState) : Z := sum_of us_amount_strikes utxos.
Definition output_total (outputs : list TxOutput) : Z := sum_of to_amount_strikes outputs.

(** The outputs that [push_outputs] appends. *)
Definition new_utxo (txid : string) (epoch height : Z) (coinbase : bool) (i : Z) (output : TxOutput) : UtxoState :=
  {| us_txid := txid; us_output_index := i; us_amount_strikes := to_amount_strikes output;
     us_output_type := to_output_type output; us_payload := hex_encode (to_payload output);
     us_creation_epoch := epoch; us_creation_height := height; us_coinbase := coinbase |}.

Fixpoint new_utxos (txid : string) (epoch height : Z) (coinbase : bool) (i : Z) (outputs : list TxOutput)
    : list UtxoState :=
  match outputs with
  | [] => []
  | o :: outputs => new_utxo txid epoch height coinbase i o :: new_utxos txid epoch height coinbase (i + 1) outputs
  end.

Lemma push_outputs_ok txid epoch height coinbase i outputs utxos utxos' :
  push_outputs txid epoch height coinbase i outputs utxos = Ok utxos' ->
  utxos' = utxos ++ new_utxos txid epoch height coinbase i outputs.
Proof.
  revert i utxos; induction outputs as [|o outputs IH]; intros i utxos; cbn [push_outputs new_utxos].
  { intros [= <-]. by rewrite app_nil_r. }
  unfold try_from. destruct (i <? 2 ^ 16); cbn [ok_or]; [|done].
  intros ->%IH. by rewrite <- app_assoc.
Qed.

Lemma new_utxos_total txid epoch height coinbase i outputs :
  utxo_total (new_utxos txid epoch height coinbase i outputs) = output_total outputs.
Proof.
  revert i; induction outputs as [|o outputs IH]; intros i; [done|].
  specialize (IH (i + 1)). unfold utxo_total, output_total in *. cbn [new_utxos].
  rewrite !sum_of_cons, IH. done.
Qed.

Lemma add_outputs_total utxos tx epoch height coinbase utxos' :
  add_outputs_as_utxos utxos tx epoch height coinbase = Ok utxos' ->
  utxo_total utxos' = utxo_total utxos + output_total (tc_outputs (tx_core tx)).
Proof.
  intros ->%push_outputs_ok. unfold utxo_total. rewrite sum_of_app.
  f_equal. apply new_utxos_total.
Qed.

(** ** Spending *)

Lemma utxo_is_key k u : utxo_is k u = true <-> utxo_key_of u = k.
Proof.
  unfold utxo_is, utxo_key_of. rewrite andb_true_iff, bool_decide_eq_true, Z.eqb_eq.
  destruct k as [t i]. simpl. split; [intros [-> ->]; done|by intros [= -> ->]].
Qed.

Lemma find_utxo_key utxos k u : find_utxo utxos k = Some u -> utxo_key_of u = k.
Proof. intros [_ H]%find_elem. by apply utxo_is_key. Qed.

(** Removing the output of one key does not change what another key finds. *)
Lemma find_utxo_delete utxos k k' pos :
  k <> k' -> position (utxo_is k) utxos = Some pos ->
  find_utxo (delete pos utxos) k' = find_utxo utxos k'.
Proof.
  intros Hne. revert pos; induction utxos as [|u utxos IH]; intros pos; cbn [position]; [done|].
  destruct (utxo_is k u) eqn:E.
  - intros [= <-]. unfold find_utxo. simpl. destruct (utxo_is k' u) eqn:E'; [|done].
    apply utxo_is_key in E, E'. congruence.
  - destruct (position (utxo_is k) utxos) as [p|]; [|done]. intros [= <-].
    unfold find_utxo in *. simpl. destruct (utxo_is k' u); [done|]. by apply IH.
Qed.

(** The outputs that distinct keys find are removed, nothing else. *)
Lemma remove_consumed_ok e utxos ks us :
  NoDup ks -> Forall2 (fun k u => find_utxo utxos k = Some u) ks us ->
  exists utxos', remove_consumed e utxos ks = Ok utxos' /\ utxos ≡ₚ us ++ utxos'.
Proof.
  intros Hnd Hf. revert utxos Hf; induction Hnd as [|k ks Hk Hnd IH] in us |- *; intros utxos Hf.
  { apply Forall2_nil_inv_l in Hf as ->. by exists utxos. }
  apply Forall2_cons_inv_l in Hf as (u & us' & Hu & Hf & ->).
  destruct (position (utxo_is k) utxos) as [pos|] eqn:Ep.
  2: { unfold find_utxo in Hu. by rewrite find_position, Ep in Hu. }
  destruct (IH us' (delete pos utxos)) as (utxos' & Hr & Hp).
  { apply Forall2_same_length_lookup in Hf as [Hl Hf]. apply Forall2_same_length_lookup.
    split; [done|]. intros i k' u' Hk' Hu'. rewrite (find_utxo_delete _ k); [by eapply Hf| |done].
    intros <-. apply Hk. by eapply list_elem_of_lookup_2. }
  exists utxos'. split.
  - unfold remove_consumed. cbn [fold_result]. rewrite Ep. exact Hr.
  - pose proof (position_split _ _ _ Ep) as (x & Hx & Hperm).
    unfold find_utxo in Hu. rewrite Hu in Hx. injection Hx as <-.
    rewrite Hperm, Hp. done.
Qed.

(** ** The input loop

    [inputs_inv utxos seen sum consumed] holds while a loop over the inputs has
    accepted [consumed], has put them in [seen] and has added up [sum]. *)
Record inputs_inv (utxos : list UtxoState) (seen : gset outpoint) (sum : Z) (consumed : list outpoint) : Prop := {
  inputs_seen : forall k, k ∈ seen <-> k ∈ consumed;
  inputs_nodup : NoDup consumed;
  inputs_found : exists us, Forall2 (fun k u => find_utxo utxos k = Some u) consumed us /\ sum = utxo_total us;
}.

Lemma inputs_inv_nil utxos : inputs_inv utxos ∅ 0 [].
Proof.
  split; [intros k; set_solver|constructor|]. exists []. split; [constructor|done].
Qed.

Lemma inputs_inv_push utxos seen sum consumed k u :
  inputs_inv utxos seen sum consumed -> k ∉ seen -> find_utxo utxos k = Some u ->
  inputs_inv utxos ({[k]} ∪ seen) (sum + us_amount_strikes u) (consumed ++ [k]).
Proof.
  intros [Hs Hn (us & Hf & ->)] Hk Hu. split.
  - intros k'. rewrite elem_of_union, elem_of_app, Hs. set_solver.
  - apply NoDup_app. split_and!; [done| |by apply NoDup_singleton].
    intros x Hx Hx'%list_elem_of_singleton. subst. by apply Hk, Hs.
  - exists (us ++ [u]). split; [by apply Forall2_app; [|constructor]|].
    unfold utxo_total. rewrite sum_of_app. simpl. lia.
Qed.

(** What the loop collected can be removed, and removing it takes exactly the
    collected sum out of the set. *)
Lemma inputs_inv_spend e utxos seen sum consumed :
  inputs_inv utxos seen sum consumed ->
  exists us utxos', remove_consumed e utxos consumed = Ok utxos' /\ utxos ≡ₚ us ++ utxos' /\
    Forall2 (fun k u => find_utxo utxos k = Some u) consumed us /\
    sum = utxo_total us /\ utxo_total utxos = sum + utxo_total utxos'.
Proof.
  intros [_ Hn (us & Hf & Hsum)].
  destruct (remove_consumed_ok e utxos consumed us Hn Hf) as (utxos' & Hr & Hp).
  exists us, utxos'. split_and!; try done. unfold utxo_total in *. rewrite Hp, sum_of_app. lia.
Qed.
End utxo.
