(* ===== verification/NodeDividends.v ===== *)
(** Dividends in the node ([mutiny-node/src/dividends.rs]): the treasury behind
    them, the epoch-boundary transitions that expire and award them, the
    treasury payment of a claim, and the claim operation itself. *)

From Stdlib Require Import Strings.Byte Strings.String.
From stdpp Require Import strings pretty.
From S2P Require Import Prelude Crypto Codec Smt State Transaction Protocol ProtocolRules Collections NodeState NodePresence NodeUtxo.

(** [matches!(u.output_type, OUTPUT_TREASURY | OUTPUT_LICENSE_PAYMENT)] *)
Definition is_treasury (u : UtxoState) : bool :=
  (us_output_type u =? OUTPUT_TREASURY) || (us_output_type u =? OUTPUT_LICENSE_PAYMENT).

Definition treasury_total (utxos : list UtxoState) : node_result Z :=
  try_sum 64 (Msg "Treasury overflow"%string) us_amount_strikes (List.filter is_treasury utxos).

Definition treasury_state (state : DevnetState) (utxos : list UtxoState) : node_result TreasuryStateV1 :=
  let? total := treasury_total utxos in
  let? available := ok_or (Msg "Treasury reserved dividends exceed Treasury UTXO backing"%string)
      (checked_sub total (ds_treasury_reserved_dividend_strikes state)) in
  Ok {| ts_available_strikes := available;
        ts_reserved_dividend_strikes := ds_treasury_reserved_dividend_strikes state |}.

(** ** Epoch boundary *)

(** The [drain] loop: what the expired accounts return, and who stays. *)
Definition expire_accounts (epoch : Z) (accounts : list DividendAccountState)
    : node_result (Z * list DividendAccountState) :=
  fold_result (fun '(returned, retained) account =>
      if dv_claim_deadline_epoch account <=? epoch then
        let? returned := ok_or (Msg "expired dividend return overflow"%string)
            (checked_add 64 returned (dv_claimable_strikes account)) in
        Ok (returned, retained)
      else Ok (returned, retained ++ [account])) (0, []) accounts.

Definition first_step (state : DevnetState) (epoch : Z) : node_result (DevnetState * Z) :=
  let? (returned, retained) := expire_accounts epoch (ds_dividend_accounts state) in
  let state := state <| ds_dividend_accounts := retained |> in
  if 0 <? returned then
    let? reserved := ok_or (Msg "Treasury reserved-dividend accounting underflow during expiry"%string)
        (checked_sub (ds_treasury_reserved_dividend_strikes state) returned) in
    Ok (state <| ds_treasury_reserved_dividend_strikes := reserved |>, returned)
  else Ok (state, returned).

(** Is a queued claim still payable at [epoch]?  Queue entries that are not
    decodable claims are left alone. *)
Definition queued_claim_valid (active_accounts : list DividendAccountState) (epoch : Z)
    (pending : PendingProtocolOperationState) : bool :=
  match PendingProtocolOperationState_operation pending with
  | Err _ => true
  | Ok op =>
      if negb (po_op_type op =? OP_DIVIDEND_CLAIM) then true
      else match decode_claim_operation op with
           | Err _ => true
           | Ok claim =>
               let license_hex := hex_encode (dc_license_id claim) in
               existsb (fun a => bool_decide (dv_license_id a = license_hex)
                   && (dv_award_epoch a <=? epoch) && (epoch <? dv_claim_deadline_epoch a)
                   && (0 <? dc_amount_strikes claim)
                   && (dc_amount_strikes claim <=? dv_claimable_strikes a)) active_accounts
           end
  end.

(** Local queue hygiene: claims that can no longer be paid leave the queue
    together with their payment transactions. *)
Definition drop_stale_claims (state : DevnetState) (epoch : Z) : DevnetState :=
  let valid := queued_claim_valid (ds_dividend_accounts state) epoch in
  let stale_payment_txids : gset string :=
    list_to_set (map pp_required_txid
      (List.filter (fun p => negb (valid p) && negb (bool_decide (pp_required_txid p = EmptyString)))
         (ds_pending_protocol_operations state))) in
  state <| ds_pending_protocol_operations := List.filter valid (ds_pending_protocol_operations state) |>
        <| ds_mempool := List.filter (fun tx => negb (bool_decide (pd_txid tx ∈ stale_payment_txids)))
                           (ds_mempool state) |>.

Definition eligible_ids (state : DevnetState) (epoch : Z) : list string :=
  map ls_license_id (List.filter (fun license => is_eligible license epoch) (ds_licenses state)).

Definition award (state : DevnetState) (epoch : Z) : node_result (DevnetState * Z * Z) :=
  if existsb (fun a => dv_award_epoch a =? epoch) (ds_dividend_accounts state)
  then err "duplicate dividend award epoch transition"
  else
    let eligible := eligible_ids state epoch in
    let? treasury := treasury_state state (ds_utxos state) in
    let? calc := map_err FromProtocol
        (calculate_dividend_award (ts_available_strikes treasury) (Z.of_nat (length eligible))) in
    if aw_total_reserved_strikes calc =? 0 then Ok (state, Z.of_nat (length eligible), 0)
    else
      let? deadline := ok_or (Msg "dividend claim deadline overflow"%string)
          (checked_add 64 epoch DIVIDEND_CLAIM_WINDOW) in
      let? reserved := ok_or (Msg "Treasury dividend reserve overflow"%string)
          (checked_add 64 (ds_treasury_reserved_dividend_strikes state) (aw_total_reserved_strikes calc)) in
      let awards := map (fun license_id =>
          {| dv_license_id := license_id; dv_award_epoch := epoch; dv_claim_deadline_epoch := deadline;
             dv_claimable_strikes := aw_per_license_strikes calc |}) eligible in
      let accounts := sort_by (fun a b => String.leb (dv_license_id a) (dv_license_id b))
          (ds_dividend_accounts state ++ awards) in
      let state := state <| ds_treasury_reserved_dividend_strikes := reserved |>
                         <| ds_dividend_accounts := accounts |> in
      Ok (state, Z.of_nat (length (List.filter (fun a => dv_award_epoch a =? epoch) accounts)),
          aw_total_reserved_strikes calc).

(** Returns the state and (returned, awarded licenses, newly reserved). *)
Definition process_epoch (state : DevnetState) (epoch : Z) : node_result (DevnetState * (Z * Z * Z)) :=
  let? (state, returned) := first_step state epoch in
  let state := drop_stale_claims state epoch in
  if (epoch =? 0) || negb (epoch mod DIVIDEND_AWARD_INTERVAL =? 0) then Ok (state, (returned, 0, 0))
  else
    let? (state, awarded, reserved) := award state epoch in
    Ok (state, (returned, awarded, reserved)).

Section dividends.
Context {SHA : Sha2} {ED : Ed25519}.

(** ** Claims *)

Definition dividend_dependency_ready (state : DevnetState) (op : ProtocolOperationV1) : node_result bool :=
  let? claim := decode_claim_operation op in
  match find_license state (dc_license_id claim) with
  | None => err "dividend claim references unknown LicenseID"
  | Some license =>
      if ls_status license =? LICENSE_STATUS_REVOKED
      then err "dividend claim references a revoked Mining License"
      else if dc_expected_owner_sequence claim <? ls_owner_key_sequence license
      then err "stale pending dividend claim owner sequence"
      else if ls_owner_key_sequence license <? dc_expected_owner_sequence claim then Ok false
      else match List.find (fun a => bool_decide (dv_license_id a = ls_license_id license))
                   (ds_dividend_accounts state) with
           | None => Ok false
           | Some account =>
               let epoch := next_mineable_epoch state in
               Ok ((dv_award_epoch account <=? epoch) && (epoch <? dv_claim_deadline_epoch account)
                   && (0 <? dc_amount_strikes claim)
                   && (dc_amount_strikes claim <=? dv_claimable_strikes account))
           end
  end.

Definition claim_operation_for_tx (operations : list ProtocolOperationV1) (txid : bytes32)
    : node_result (option ProtocolOperationV1) :=
  fold_result (fun found op =>
      let? claim := decode_claim_operation op in
      if bytes_eqb (dc_payment_txid claim) txid then
        match found with
        | Some _ => err "more than one dividend claim references the same payment TXID"
        | None => Ok (Some op)
        end
      else Ok found) None
    (List.filter (fun op => po_op_type op =? OP_DIVIDEND_CLAIM) operations).

(** One round of the input loop; input and witness counts are equal. *)
Definition treasury_input (utxos : list UtxoState) (opid : bytes32) (height : Z)
    (acc : gset outpoint * Z * list outpoint) (iw : TxInput * WitnessV1)
    : node_result (gset outpoint * Z * list outpoint) :=
  let '(seen, input_sum, consumed) := acc in
  let '(input, witness) := iw in
  let? k := ok_or (Msg "dividend payment cannot contain coinbase input"%string) (input_outpoint input) in
  let? seen := insert_new (Msg "dividend payment duplicates an input"%string) k seen in
  let? utxo := ok_or (Msg "dividend payment references missing Treasury UTXO"%string) (find_utxo utxos k) in
  if negb (is_treasury utxo)
  then err "dividend payment may spend only Treasury-controlled outputs"
  else if negb (spendable_at_height utxo height)
  then err "dividend payment spends immature Treasury coinbase output"
  else if negb (w_witness_type witness =? WITNESS_PROTOCOL_AUTH) || negb (bytes_eqb (w_payload witness) opid)
  then err "dividend Treasury input lacks matching PROTOCOL_AUTH witness"
  else
    let? input_sum := ok_or (Msg "dividend payment input overflow"%string)
        (checked_add 64 input_sum (us_amount_strikes utxo)) in
    Ok (seen, input_sum, consumed ++ [k]).

(** The outputs of a payment: the claimed amount, then the change, if any. *)
Definition check_payment_outputs (network_id : Z) (claim : DividendClaimV1) (input_sum : Z)
    (outputs : list TxOutput) : node_result unit :=
  match outputs with
  | [] => err "dividend payment has invalid input/output count"
  | first :: rest =>
      if negb (to_output_type first =? OUTPUT_PUBKEY_HASH)
         || negb (to_amount_strikes first =? dc_amount_strikes claim)
         || negb (bytes_eqb (to_payload first) (dc_destination_address_id claim))
      then err "dividend payment first output does not exactly pay the signed claim destination/amount"
      else if input_sum <? dc_amount_strikes claim
      then err "dividend payment Treasury inputs are insufficient"
      else
        let change := input_sum - dc_amount_strikes claim in
        if change =? 0 then
          match rest with
          | [] => Ok tt
          | _ => err "zero Treasury change output is non-canonical"
          end
        else
          match rest with
          | [output] =>
              if negb (to_amount_strikes output =? change)
                 || negb (to_output_type output =? OUTPUT_TREASURY)
                 || negb (bytes_eqb (to_payload output) (treasury_id_for_network network_id))
              then err "dividend payment Treasury change output is non-canonical"
              else Ok tt
          | _ => err "dividend payment is missing canonical Treasury change"
          end
  end.

Definition validate_and_apply_payment (state : DevnetState) (working_utxos : list UtxoState)
    (tx : TransactionV1) (op : ProtocolOperationV1) (epoch height : Z) : node_result (list UtxoState) :=
  let core := tx_core tx in
  let? claim := decode_claim_operation op in
  if negb (bytes_eqb (TransactionV1_txid tx) (dc_payment_txid claim))
  then err "dividend payment TXID does not match claim"
  else if negb (tc_version core =? 1) || negb (tc_network_id core =? ds_network_id state)
  then err "dividend payment has wrong version/network"
  else if (epoch <? tc_valid_from_epoch core)
          || (negb (tc_expiry_epoch core =? 0) && (tc_expiry_epoch core <? epoch))
  then err "dividend payment is outside its epoch validity window"
  else if (length (tc_inputs core) =? 0)%nat || (1024 <? length (tc_inputs core))%nat
          || (length (tc_outputs core) =? 0)%nat || (2 <? length (tc_outputs core))%nat
  then err "dividend payment has invalid input/output count"
  else if negb (length (tx_witnesses tx) =? length (tc_inputs core))%nat
  then err "dividend payment witness count mismatch"
  else
    let opid := operation_id op in
    let? (_, input_sum, consumed) :=
      fold_result (treasury_input working_utxos opid height) (∅, 0, [])
        (combine (tc_inputs core) (tx_witnesses tx)) in
    let? _ := check_payment_outputs (ds_network_id state) claim input_sum (tc_outputs core) in
    let? output_sum := try_sum 64 (Msg "dividend payment output overflow"%string)
        to_amount_strikes (tc_outputs core) in
    if negb (output_sum =? input_sum)
    then err "protocol-authorized dividend payment must be fee-exempt and value preserving"
    else
      let? working_utxos := remove_consumed (Msg "Treasury UTXO disappeared during dividend payment"%string)
          working_utxos consumed in
      add_outputs_as_utxos working_utxos tx epoch height false.

Definition dividend_apply_operation (state : DevnetState) (txs : list TransactionV1)
    (op : ProtocolOperationV1) (block_epoch : Z) : node_result DevnetState :=
  let? claim := decode_claim_operation op in
  if negb (existsb (fun tx => bytes_eqb (TransactionV1_txid tx) (dc_payment_txid claim)) (drop 1 txs))
  then err "dividend claim is missing its same-block Treasury payment transaction"
  else
    let? license := ok_or (Msg "dividend claim references unknown LicenseID"%string)
        (find_license state (dc_license_id claim)) in
    let? account_index := ok_or (Msg "dividend claim has no active dividend account"%string)
        (position (fun a => bool_decide (dv_license_id a = ls_license_id license)) (ds_dividend_accounts state)) in
    let? record := LicenseState_record license in
    let? stored := ok_or (Msg "dividend claim has no active dividend account"%string)
        (ds_dividend_accounts state !! account_index) in
    let? account := DividendAccountState_account stored in
    let treasury := {| ts_available_strikes := 0;
                       ts_reserved_dividend_strikes := ds_treasury_reserved_dividend_strikes state |} in
    let '(account, treasury, applied) := apply_dividend_claim record account treasury claim block_epoch in
    let? _ := map_err FromProtocol applied in
    Ok (state <| ds_dividend_accounts :=
                   alter (fun a => DividendAccountState_update_from a account) account_index
                     (ds_dividend_accounts state) |>
              <| ds_treasury_reserved_dividend_strikes := ts_reserved_dividend_strikes treasury |>).

Definition check_account (state : DevnetState) (acc : gset string * Z) (account : DividendAccountState)
    : node_result (gset string * Z) :=
  let '(seen, claimable_sum) := acc in
  let? _ := decode32 (dv_license_id account) in
  let? seen := insert_new (Msg "duplicate active dividend account for Mining License"%string)
      (dv_license_id account) seen in
  if (dv_award_epoch account =? 0) || negb (dv_award_epoch account mod DIVIDEND_AWARD_INTERVAL =? 0)
  then err "dividend account award epoch is not a canonical 2^17 boundary"
  else
    let? deadline := ok_or (Msg "dividend deadline overflow"%string)
        (checked_add 64 (dv_award_epoch account) DIVIDEND_CLAIM_WINDOW) in
    if negb (dv_claim_deadline_epoch account =? deadline)
    then err "dividend account claim deadline mismatch"
    else if negb (existsb (fun l => bool_decide (ls_license_id l = dv_license_id account)) (ds_licenses state))
    then err "dividend account references unknown Mining License"
    else
      let? claimable_sum := ok_or (Msg "dividend claimable sum overflow"%string)
          (checked_add 64 claimable_sum (dv_claimable_strikes account)) in
      Ok (seen, claimable_sum).

Definition dividends_check_state (state : DevnetState) : node_result unit :=
  let? total := treasury_total (ds_utxos state) in
  if total <? ds_treasury_reserved_dividend_strikes state
  then err "Treasury reserved dividends exceed Treasury UTXO backing"
  else
    let? (_, claimable_sum) := fold_result (check_account state) (∅, 0) (ds_dividend_accounts state) in
    if negb (claimable_sum =? ds_treasury_reserved_dividend_strikes state)
    then Err (Msg ("Treasury dividend reserve mismatch: accounts="%string +:+ pretty claimable_sum
                   +:+ " Strikes reserved="%string +:+ pretty (ds_treasury_reserved_dividend_strikes state)
                   +:+ " Strikes"%string))
    else Ok tt.
End dividends.
