(* ===== verification/NodeBitcoin.v ===== *)
(** Authenticated Bitcoin state in the node ([mutiny-node/src/bitcoin_headers.rs]
    and [bitcoin.rs]): the header tree the node keeps on chain, the window a
    purchase is checked against, and the purchase operation. *)

From Stdlib Require Import Strings.Byte Strings.String.
From stdpp Require Import strings.
From S2P Require Import Prelude Crypto Codec Smt State Transaction Bitcoin Protocol ProtocolRules Collections NodeState NodePresence.

Definition PACK_M_BTC_DISABLE_EPOCH : Z := 2101248.
Definition PACK_J_ANCHOR_HEIGHT : Z := 800352.
Definition PACK_J_ANCHOR_HASH_INTERNAL : bytes32 :=
  hex "fba9fcccdcbc07db8a1e1166cc84a386ca5ed154ee2824bc2b6e80150521d75d".
Definition DEVNET_BTC_BITS : Z := 0x207fffff.
Definition DEVNET_BTC_TREASURY_SCRIPT : bytes :=
  hex "00204d5554494e592d4254432d54524541535552592d4445564e45542d5631000001".
Definition MAINNET_BTC_TREASURY_SCRIPT : bytes :=
  hex "0020f44c4495404a173fb78c31e1a3965dd9bf596873a49694fb4cbf26a8f2c82c29".
Definition MAINNET_PACK_J_ANCHOR_HEIGHT : Z := 963648.
Definition MAINNET_PACK_J_CONTEXT_START_HEIGHT : Z := MAINNET_PACK_J_ANCHOR_HEIGHT - 10.
Definition MAINNET_GENESIS_HEADER_OFFSET : Z := 19.
Definition PACK_J_CONTEXT_START_HEIGHT : Z := PACK_J_ANCHOR_HEIGHT - 10.
Definition PACK_J_CONTEXT_START_TIMESTAMP : Z := 1799994000.
Definition BTC_SUNSET_EPOCH : Z := 2097152.

(** [include_bytes!("mainnet-genesisblock-v1.1.bin")] of [mutiny-protocol] *)
Definition MAINNET_GENESIS_BLOCK_V1 : bytes :=
  hex "00014d555401000001a072ae88a0000eb4400b00a00120550743bb46e75d68e1e1cfcf86e58448d3c68bd755b6000000000000000000005791ae4d28f55d2ca44c873e9d70927bfe6423fabf07dad58dab9472b4eae871da1b8a6a3d350217571b40a000803f24689b87b461eae1de8b52ea1fa0783078a553eb413dad00000000000000000000c7c5c959269081959dd146912157d8c80ad3ad65d0495496755d3baa5efb9771ca268a6a3d350217e852ce8900e00020866fd623c90f9018dc2710d63edf2a548ab38118d38d01000000000000000000fe861005372174309153521a1817cf76aee6b08fe18c64ca10df7b68f48dd9f8ee2c8a6a3d350217e14172610000003872af443cf53f1bb02fb2317c788ce926285d60b16394000000000000000000007d56618d3751912963317855dd101f1aad9b54b7bd2625fffba7d41ddb4cd183482c8a6a3d3502177a87eea30080652089bb91fdfc445076635eec0aa545a4377b31641bc31f01000000000000000000b1d6f928ff5b4271d19ace898fc7cab57020b76c5ce5198697f62117630b95962d2e8a6a3d350217c2fc974600e000202906fc82c9ccd7fc31f77e8f5aebbb6fc3b8f4434ceb0000000000000000000056bf1829cea467e09a0ca1ff661af5b727c21a404efffdca96cf4a4cfdaf7d8eaa2e8a6a3d3502172ac8c93a00e04c2b867bc665157ea05777bfd8bebe3f10ba722a05c7698600000000000000000000c0ce5533c3c52b375b9863768f640ef33b0b6b865b28bb94d902635e49ed0b05d12e8a6a3d35021741f110750080102957bd0dd9507166fa8128130c385eeadfbd188b3d7fed0000000000000000000089cccdf89dcf26e90b40f2e709fabd07a9431b4748334bf25b1984cb1f456263392f8a6a3d3502175100c1fb00a02422abdb5a9593e65036a30a25af955753863f6cf3cd472a020000000000000000007597579d980730d6ff23957dfdbcfc22e3ad479ecac0c85160f1c72db5a09b03db318a6a3d350217cd6dc64a00000020a9936e1d318143a031b88854ea08e9ba3bd8659ca7b101000000000000000000c971243030a38ed9ad149393c4c4947a82a9622101e9a31a15710f32aeee0184f5388a6a3d35021788eedf2e0000ff3f331fea1f0be79c6037c580aabc7ac324e9134ce49ed200000000000000000000901420fd0a4f3e9cab31eafeeea59d316e9d9f7e0bc77a11bbb40e712a72b9ea6f438a6ac13c0217f3f95d66e08ca8e75aa57e03b3f42575dbd0ecf7b64898d5a05ff22ad66c40adcfa0d2c7865fecb5c02562d25d262739809c3ebe51e5a14d9e40bc0ecb1ca8cf042ab4f94e6f204d6173746572732e204f6e6c7920746865204d616e792e".

Definition decode80 (text : string) : node_result bytes :=
  let? bs := hex_bytes text in
  if (length bs =? 80)%nat then Ok bs else err "stored Bitcoin raw header must be exactly 80 bytes".

Definition stored_header_consensus (stored : BitcoinHeaderStateStored) : node_result BitcoinHeaderStateV1 :=
  let? raw_header := decode80 (hr_raw_header stored) in
  let? relative_chainwork := decode32 (hr_relative_chainwork stored) in
  let value := {| bh_version := 1; bh_height := hr_height stored; bh_raw_header := raw_header;
                  bh_relative_chainwork := relative_chainwork |} in
  if negb (BitcoinHeaderStateV1_validate value) then err "stored BitcoinHeaderState version mismatch"
  else Ok value.

Definition stored_best_consensus (stored : BitcoinBestChainStored) : node_result BitcoinBestChainStateV1 :=
  let? tip_hash := decode32 (bb_tip_hash_internal stored) in
  let? chainwork := decode32 (bb_tip_relative_chainwork stored) in
  let value := {| bc_version := 1; bc_best_tip_hash_internal := tip_hash;
                  bc_best_tip_height := bb_tip_height stored;
                  bc_best_tip_relative_chainwork := chainwork |} in
  if negb (BitcoinBestChainStateV1_validate value) then err "stored BitcoinBestChainState version mismatch"
  else Ok value.

Inductive BitcoinHeaderValidationPolicy :=
| DevnetFixedBits (bits : Z)
| MainnetPolicy.

Definition mainnet_pack_j_context_header (height : Z) : option BitcoinHeader :=
  if negb ((MAINNET_PACK_J_CONTEXT_START_HEIGHT <=? height) && (height <=? MAINNET_PACK_J_ANCHOR_HEIGHT))
  then None
  else
    let index := height - MAINNET_PACK_J_CONTEXT_START_HEIGHT in
    let start := MAINNET_GENESIS_HEADER_OFFSET + index * 80 in
    let stop := start + 80 in
    if Z.of_nat (length MAINNET_GENESIS_BLOCK_V1) <? stop then None
    else Some (slice (Z.to_nat start) (Z.to_nat stop) MAINNET_GENESIS_BLOCK_V1).

Definition policy_anchor_height (policy : BitcoinHeaderValidationPolicy) : Z :=
  match policy with
  | DevnetFixedBits _ => PACK_J_ANCHOR_HEIGHT
  | MainnetPolicy => MAINNET_PACK_J_ANCHOR_HEIGHT
  end.

Record BitcoinTuplePolicy := {
  tp_header_validation : BitcoinHeaderValidationPolicy;
  tp_treasury_script_pubkey : option bytes;
  tp_ordinary_purchase_active : bool;
}.

Definition resolve_tuple_policy (network_id : Z) (genesis_id : bytes32) : option BitcoinTuplePolicy :=
  match (if network_id =? DEVNET_NETWORK_ID then
           match decode32 DEVNET_GENESIS_ID_HEX with
           | Ok devnet => Some (bytes_eqb genesis_id devnet)
           | Err _ => None
           end
         else Some false) with
  | None => None
  | Some true => Some {| tp_header_validation := DevnetFixedBits DEVNET_BTC_BITS;
                         tp_treasury_script_pubkey := Some DEVNET_BTC_TREASURY_SCRIPT;
                         tp_ordinary_purchase_active := true |}
  | Some false =>
      if (network_id =? MAINNET_NETWORK_ID) && bytes_eqb genesis_id MAINNET_GENESIS_ID
      then Some {| tp_header_validation := MainnetPolicy;
                   tp_treasury_script_pubkey := Some MAINNET_BTC_TREASURY_SCRIPT;
                   tp_ordinary_purchase_active := true |}
      else None
  end.

Definition pack_j_context_timestamp (height : Z) : option Z :=
  if negb ((PACK_J_CONTEXT_START_HEIGHT <=? height) && (height <=? PACK_J_ANCHOR_HEIGHT)) then None
  else
    match checked_mul 32 (height - PACK_J_CONTEXT_START_HEIGHT) 600 with
    | Some offset => checked_add 32 PACK_J_CONTEXT_START_TIMESTAMP offset
    | None => None
    end.

(** [HashMap<[u8; 32], (u32, BitcoinHeader)>] *)
Abbreviation header_index := (gmap bytes32 (Z * BitcoinHeader)).

(** [row.block_hash_internal == hex] *)
Definition row_is (hash_hex : string) (row : BitcoinHeaderStateStored) : bool :=
  bool_decide (hr_block_hash_internal row = hash_hex).

Definition find_row (headers : list BitcoinHeaderStateStored) (hash : bytes32)
    : option BitcoinHeaderStateStored := List.find (row_is (hex_encode hash)) headers.

Section bitcoin.
Context {SHA : Sha2}.

Definition policy_anchor_hash_internal (policy : BitcoinHeaderValidationPolicy) : node_result bytes32 :=
  match policy with
  | DevnetFixedBits _ => Ok PACK_J_ANCHOR_HASH_INTERNAL
  | MainnetPolicy =>
      ok_or (Msg "locked Mainnet Genesis Bitcoin anchor context is unavailable"%string)
        (option_map hash_internal (mainnet_pack_j_context_header MAINNET_PACK_J_ANCHOR_HEIGHT))
  end.

Definition index_header (index : header_index) (stored : BitcoinHeaderStateStored) : node_result header_index :=
  let? hash := decode32 (hr_block_hash_internal stored) in
  let? header := decode80 (hr_raw_header stored) in
  if negb (bytes_eqb (hash_internal header) hash)
  then err "stored Bitcoin header hash does not match raw header"
  else if bool_decide (is_Some (index !! hash)) then err "duplicate authenticated Bitcoin header hash"
  else Ok (<[hash := (hr_height stored, header)]> index).

Definition build_header_index (headers : list BitcoinHeaderStateStored) : node_result header_index :=
  fold_result index_header ∅ headers.

Definition parent_metadata (headers : list BitcoinHeaderStateStored) (previous : bytes32)
    (policy : BitcoinHeaderValidationPolicy) : node_result (Z * bytes32) :=
  let? anchor_hash := policy_anchor_hash_internal policy in
  if bytes_eqb previous anchor_hash then Ok (policy_anchor_height policy, ZERO32)
  else
    let? parent := ok_or
        (Msg "Bitcoin header parent is not the locked anchor or authenticated post-anchor state"%string)
        (find_row headers previous) in
    let? work := decode32 (hr_relative_chainwork parent) in
    Ok (hr_height parent, work).

(** The header of the lineage at one height. *)
Definition lineage_header (index : header_index) (current_hash : bytes32) (current_height : Z)
    : node_result BitcoinHeader :=
  if current_height <=? MAINNET_PACK_J_ANCHOR_HEIGHT then
    let? header := ok_or (Msg "required Mainnet Genesis Bitcoin context header is unavailable"%string)
        (mainnet_pack_j_context_header current_height) in
    if negb (bytes_eqb (hash_internal header) current_hash)
    then err "Mainnet Genesis Bitcoin context lineage hash mismatch"
    else Ok header
  else
    let? (stored_height, header) := ok_or
        (Msg "Mainnet Bitcoin ancestry references missing authenticated header"%string) (index !! current_hash) in
    if negb (stored_height =? current_height) then err "Mainnet Bitcoin ancestry height mismatch"
    else Ok header.

(** The [loop]; the height falls by one each round, so
    [current_height - target_height + 1] rounds are enough. *)
Fixpoint lineage_loop (fuel : nat) (index : header_index) (current_hash : bytes32)
    (current_height target_height : Z) : node_result BitcoinHeader :=
  match fuel with
  | O => err "unreachable"
  | S fuel =>
      let? current := lineage_header index current_hash current_height in
      if current_height =? target_height then Ok current
      else
        let? height := ok_or (Msg "Mainnet Bitcoin ancestry height underflow"%string)
            (checked_sub current_height 1) in
        lineage_loop fuel index (previous_block_internal current) height target_height
  end.

Definition mainnet_lineage_header_at_height (index : header_index) (current_hash : bytes32)
    (current_height target_height : Z) : node_result BitcoinHeader :=
  if target_height <? MAINNET_PACK_J_CONTEXT_START_HEIGHT
  then err "Mainnet Bitcoin ancestry requires unavailable pre-Genesis anchor context"
  else if current_height <? target_height
  then err "Mainnet Bitcoin ancestry target is above the current lineage"
  else lineage_loop (Z.to_nat (current_height - target_height + 1)) index current_hash
         current_height target_height.

Definition validate_header_for_policy (index : header_index) (policy : BitcoinHeaderValidationPolicy)
    (header : BitcoinHeader) (next_height parent_height : Z) : node_result bytes32 :=
  match policy with
  | DevnetFixedBits expected =>
      if negb (bits header =? expected) then err "Devnet BITCOIN_HEADERS nBits mismatch"
      else
        let? meets := map_err FromBitcoin (header_meets_pow header) in
        if negb meets then err "Devnet BITCOIN_HEADERS proof of work is invalid"
        else map_err FromBitcoin (bitcoin_header_work_be (bits header))
  | MainnetPolicy =>
      if next_height <=? MAINNET_PACK_J_ANCHOR_HEIGHT
      then err "Mainnet BITCOIN_HEADERS cannot replace or precede the locked Genesis anchor"
      else if negb (bool_decide (checked_add 32 parent_height 1 = Some next_height))
      then err "Mainnet Bitcoin candidate height does not follow its parent"
      else
        let parent_hash := previous_block_internal header in
        let? parent_header := mainnet_lineage_header_at_height index parent_hash parent_height parent_height in
        let? first_mtp_height := ok_or (Msg "Mainnet Bitcoin candidate is too low for MTP-11"%string)
            (checked_sub next_height 11) in
        if first_mtp_height <? MAINNET_PACK_J_CONTEXT_START_HEIGHT
        then err "Mainnet Bitcoin MTP-11 requires unavailable pre-anchor context"
        else
          let? previous_timestamps := map_result (fun slot =>
              let? h := mainnet_lineage_header_at_height index parent_hash parent_height
                          (first_mtp_height + Z.of_nat slot) in
              Ok (timestamp h)) (seq 0 11) in
          let? first_period_timestamp :=
            if next_height mod BITCOIN_MAINNET_RETARGET_INTERVAL =? 0 then
              let? first_period_height := ok_or (Msg "Mainnet Bitcoin retarget height underflow"%string)
                  (checked_sub next_height BITCOIN_MAINNET_RETARGET_INTERVAL) in
              let? h := mainnet_lineage_header_at_height index parent_hash parent_height first_period_height in
              Ok (timestamp h)
            else Ok (timestamp parent_header) in
          map_err FromBitcoin
            (validate_mainnet_header_rules header next_height (bits parent_header)
               first_period_timestamp (timestamp parent_header) previous_timestamps)
  end.

(** ** [bitcoin_headers::check_state]

    [rows] is a [HashMap]; the model iterates over it in the order of
    [map_to_list]. *)

Definition insert_row (rows : gmap bytes32 BitcoinHeaderStateStored) (stored : BitcoinHeaderStateStored)
    : node_result (gmap bytes32 BitcoinHeaderStateStored) :=
  let? hash := decode32 (hr_block_hash_internal stored) in
  if bool_decide (is_Some (rows !! hash)) then err "duplicate authenticated Bitcoin header hash"
  else
    let? header := decode80 (hr_raw_header stored) in
    if negb (bytes_eqb (hash_internal header) hash)
    then err "stored Bitcoin header hash does not match raw header"
    else
      let? _ := decode32 (hr_relative_chainwork stored) in
      Ok (<[hash := stored]> rows).

(** What a row says about its parent: [None] is the [continue] of a row whose
    parent is not (yet) validated. *)
Definition row_parent (rows : gmap bytes32 BitcoinHeaderStateStored) (anchor_hash : bytes32)
    (anchor_height : Z) (validated : gset bytes32) (previous : bytes32)
    : node_result (option (Z * bytes32)) :=
  if bytes_eqb previous anchor_hash then Ok (Some (anchor_height, ZERO32))
  else match rows !! previous with
       | None => Ok None
       | Some parent =>
           if negb (bool_decide (previous ∈ validated)) then Ok None
           else
             let? work := decode32 (hr_relative_chainwork parent) in
             Ok (Some (hr_height parent, work))
       end.

Definition check_row (index : header_index) (policy : BitcoinHeaderValidationPolicy)
    (rows : gmap bytes32 BitcoinHeaderStateStored) (anchor_hash : bytes32) (anchor_height : Z)
    (validated : gset bytes32) (row : bytes32 * BitcoinHeaderStateStored) : node_result (gset bytes32) :=
  let '(hash, stored) := row in
  if bool_decide (hash ∈ validated) then Ok validated
  else
    let? header := decode80 (hr_raw_header stored) in
    let? parent := row_parent rows anchor_hash anchor_height validated (previous_block_internal header) in
    match parent with
    | None => Ok validated
    | Some (parent_height, parent_work) =>
        let? expected_height := ok_or (Msg "Bitcoin header height overflow"%string)
            (checked_add 32 parent_height 1) in
        let? header_work := validate_header_for_policy index policy header expected_height parent_height in
        let? expected_work := map_err FromBitcoin (add_chainwork_be parent_work header_work) in
        if negb (hr_height stored =? expected_height)
        then err "stored Bitcoin header height does not match authenticated parent"
        else
          let? work := decode32 (hr_relative_chainwork stored) in
          if negb (bytes_eqb work expected_work)
          then err "stored Bitcoin relative chainwork does not match authenticated parent"
          else Ok ({[hash]} ∪ validated)
    end.

(** The outer [loop]: passes over the rows until all are validated or a pass
    adds nothing; every other pass adds one, so [size rows + 1] passes are
    enough. *)
Fixpoint check_passes (fuel : nat) (index : header_index) (policy : BitcoinHeaderValidationPolicy)
    (rows : gmap bytes32 BitcoinHeaderStateStored) (anchor_hash : bytes32) (anchor_height : Z)
    (validated : gset bytes32) : node_result unit :=
  match fuel with
  | O => err "unreachable"
  | S fuel =>
      let before := size validated in
      let? validated := fold_result (check_row index policy rows anchor_hash anchor_height)
          validated (map_to_list rows) in
      if (size validated =? size rows)%nat then Ok tt
      else if (size validated =? before)%nat
      then err "stored Bitcoin header state contains unknown-parent or cyclic lineage"
      else check_passes fuel index policy rows anchor_hash anchor_height validated
  end.

(** [iter().max()] on [[u8; 32]] *)
Definition bytes_max (l : list bytes32) : option bytes32 :=
  match l with
  | [] => None
  | x :: l => Some (fold_left (fun m y => if bytes_ltb y m then m else y) l x)
  end.

Definition headers_check_state (state : DevnetState) : node_result unit :=
  let has_authenticated_bitcoin_state :=
    negb (length (ds_bitcoin_headers state) =? 0)%nat
    || bool_decide (is_Some (ds_bitcoin_best_chain state)) in
  let? policy :=
    if has_authenticated_bitcoin_state then
      let? genesis_id := decode32 (ds_genesis_hash state) in
      let? policy := ok_or
          (Msg "authenticated Bitcoin header state is inactive for this Mutiny NetworkID/GenesisID tuple"%string)
          (resolve_tuple_policy (ds_network_id state) genesis_id) in
      Ok (Some policy)
    else Ok None in
  let? rows := fold_result insert_row ∅ (ds_bitcoin_headers state) in
  let? header_index := build_header_index (ds_bitcoin_headers state) in
  if (size rows =? 0)%nat then
    if bool_decide (is_Some (ds_bitcoin_best_chain state))
    then err "Bitcoin best-chain singleton exists without authenticated headers"
    else Ok tt
  else
    match policy with
    | None => err "authenticated Bitcoin state always has a resolved policy"
    | Some policy =>
        let resolved_policy := tp_header_validation policy in
        let? anchor_hash := policy_anchor_hash_internal resolved_policy in
        let anchor_height := policy_anchor_height resolved_policy in
        let? _ := check_passes (S (size rows)) header_index resolved_policy rows anchor_hash anchor_height ∅ in
        let? best := ok_or (Msg "authenticated Bitcoin headers require BITCOIN_BEST_CHAIN singleton"%string)
            (ds_bitcoin_best_chain state) in
        let? best_hash := decode32 (bb_tip_hash_internal best) in
        let? best_row := ok_or
            (Msg "Bitcoin best-chain tip is not present in authenticated header state"%string) (rows !! best_hash) in
        let? best_work := decode32 (bb_tip_relative_chainwork best) in
        let? row_work := decode32 (hr_relative_chainwork best_row) in
        if negb (bb_tip_height best =? hr_height best_row) || negb (bytes_eqb best_work row_work)
        then err "Bitcoin best-chain singleton metadata does not match tip header state"
        else
          let? works := map_result (fun row => decode32 (hr_relative_chainwork (snd row))) (map_to_list rows) in
          let? max_work := ok_or (Msg "missing Bitcoin header work"%string) (bytes_max works) in
          if negb (bytes_eqb best_work max_work)
          then err "Bitcoin best-chain singleton is not a greatest-work authenticated tip"
          else Ok tt
    end.

(** ** The [BITCOIN_HEADERS] operation *)

Record header_batch := {
  hb_headers : list BitcoinHeaderStateStored;
  hb_best : option BitcoinBestChainStored;
  hb_index : header_index;
}.

(** One round of [for raw in batch.headers]. *)
Definition accept_header (policy : BitcoinHeaderValidationPolicy) (acc : header_batch) (raw : bytes)
    : node_result header_batch :=
  let header := raw in
  let hash := hash_internal header in
  let hash_hex := hex_encode hash in
  match find_row (hb_headers acc) hash with
  | Some existing =>
      if negb (bool_decide (hr_raw_header existing = hex_encode raw))
      then err "Bitcoin header hash collision maps to different raw header bytes"
      else Ok acc
  | None =>
      let? (parent_height, parent_work) :=
        parent_metadata (hb_headers acc) (previous_block_internal header) policy in
      let? height := ok_or (Msg "Bitcoin header height overflow"%string) (checked_add 32 parent_height 1) in
      let? header_work := validate_header_for_policy (hb_index acc) policy header height parent_height in
      let? relative_chainwork := map_err FromBitcoin (add_chainwork_be parent_work header_work) in
      let row := {| hr_block_hash_internal := hash_hex; hr_height := height;
                    hr_raw_header := hex_encode raw;
                    hr_relative_chainwork := hex_encode relative_chainwork |} in
      let? should_switch :=
        match hb_best acc with
        | Some current =>
            let? work := decode32 (bb_tip_relative_chainwork current) in
            Ok (bytes_ltb work relative_chainwork)
        | None => Ok true
        end in
      Ok {| hb_headers := hb_headers acc ++ [row];
            hb_best := if should_switch : bool
                       then Some {| bb_tip_hash_internal := hash_hex; bb_tip_height := height;
                                    bb_tip_relative_chainwork := hex_encode relative_chainwork |}
                       else hb_best acc;
            hb_index := <[hash := (height, header)]> (hb_index acc) |}
  end.

Definition headers_apply_operation (state : DevnetState) (op : ProtocolOperationV1) (block_epoch : Z)
    : node_result DevnetState :=
  if PACK_M_BTC_DISABLE_EPOCH <=? block_epoch
  then err "BITCOIN_HEADERS is disabled beginning Mutiny epoch 2,101,248"
  else
    let? _ := headers_check_state state in
    let? state_genesis_id := decode32 (ds_genesis_hash state) in
    let? policy := ok_or (Msg "BITCOIN_HEADERS is inactive for this Mutiny NetworkID/GenesisID tuple"%string)
        (resolve_tuple_policy (ds_network_id state) state_genesis_id) in
    let? batch := map_err FromPackM (BitcoinHeadersV1_from_operation op) in
    if negb (hd_network_id batch =? ds_network_id state) then err "BITCOIN_HEADERS NetworkID mismatch"
    else if negb (bytes_eqb (hd_genesis_id batch) state_genesis_id) then err "BITCOIN_HEADERS GenesisID mismatch"
    else
      let? index := build_header_index (ds_bitcoin_headers state) in
      let? acc := fold_result (accept_header (tp_header_validation policy))
          {| hb_headers := ds_bitcoin_headers state; hb_best := ds_bitcoin_best_chain state;
             hb_index := index |} (hd_headers batch) in
      let headers := sort_by (fun a b => String.leb (hr_block_hash_internal a) (hr_block_hash_internal b))
          (hb_headers acc) in
      let candidate := state <| ds_bitcoin_headers := headers |> <| ds_bitcoin_best_chain := hb_best acc |> in
      let? _ := headers_check_state candidate in
      Ok (state <| ds_bitcoin_headers := ds_bitcoin_headers candidate |>
                <| ds_bitcoin_best_chain := ds_bitcoin_best_chain candidate |>).

(** ** The window of a purchase *)

Record AuthenticatedPurchaseWindow := {
  aw_containing_header : BitcoinHeader;
  aw_sixth_header : BitcoinHeader;
  aw_payment_mtp : Z;
}.

(** The [loop] that walks back from the tip.  Every round inserts a new height
    of a stored row, so [length headers + 1] rounds are enough. *)
Fixpoint walk_best_chain (fuel : nat) (headers : list BitcoinHeaderStateStored) (current : bytes32)
    (by_height : gmap Z bytes32) : node_result (gmap Z bytes32) :=
  match fuel with
  | O => err "unreachable"
  | S fuel =>
      let? row := ok_or (Msg "Bitcoin best-chain ancestry references missing authenticated header"%string)
          (find_row headers current) in
      if bool_decide (is_Some (by_height !! hr_height row))
      then err "Bitcoin best-chain ancestry repeats a height"
      else
        let by_height := <[hr_height row := current]> by_height in
        let? header := decode80 (hr_raw_header row) in
        let previous := previous_block_internal header in
        if bytes_eqb previous PACK_J_ANCHOR_HASH_INTERNAL
        then Ok (<[PACK_J_ANCHOR_HEIGHT := PACK_J_ANCHOR_HASH_INTERNAL]> by_height)
        else walk_best_chain fuel headers previous by_height
  end.

Definition best_chain_hashes_by_height (state : DevnetState) : node_result (gmap Z bytes32) :=
  let? _ := headers_check_state state in
  let? best := ok_or (Msg "BTC purchase requires authenticated BITCOIN_BEST_CHAIN state"%string)
      (ds_bitcoin_best_chain state) in
  let? current := decode32 (bb_tip_hash_internal best) in
  walk_best_chain (S (length (ds_bitcoin_headers state))) (ds_bitcoin_headers state) current ∅.

Definition authenticated_best_header_at_height (state : DevnetState) (best_by_height : gmap Z bytes32)
    (height : Z) : node_result BitcoinHeader :=
  if height <=? PACK_J_ANCHOR_HEIGHT
  then err "Pack-J context header raw bytes are not stored as post-anchor BITCOIN_HEADER state"
  else
    let? hash := ok_or
        (Msg "required Bitcoin height is not present on current authenticated best chain"%string)
        (best_by_height !! height) in
    let? row := ok_or
        (Msg "current Bitcoin best-chain height references missing authenticated header"%string)
        (find_row (ds_bitcoin_headers state) hash) in
    decode80 (hr_raw_header row).

(** The loop over the proof's headers; [before] is the header in front. *)
Fixpoint check_proof_headers (headers : list BitcoinHeaderStateStored) (containing_height : Z)
    (i : Z) (before : option BitcoinHeader) (proof_headers : list BitcoinHeader) : node_result unit :=
  match proof_headers with
  | [] => Ok tt
  | proof_header :: rest =>
      let? offset := ok_or (Msg "Bitcoin proof header index overflow"%string) (try_from 32 i) in
      let? expected_height := ok_or (Msg "Bitcoin proof header height overflow"%string)
          (checked_add 32 containing_height offset) in
      let? row := ok_or (Msg "Bitcoin proof header is absent from authenticated BITCOIN_HEADER state"%string)
          (find_row headers (hash_internal proof_header)) in
      let? same :=
        if negb (hr_height row =? expected_height) then Ok false
        else let? raw := decode80 (hr_raw_header row) in Ok (bytes_eqb raw proof_header) in
      if negb same then err "Bitcoin proof header does not exactly match authenticated header state"
      else
        let linked := match before with
                      | Some b => bytes_eqb (previous_block_internal proof_header) (hash_internal b)
                      | None => true
                      end in
        if negb linked then err "Bitcoin proof headers are not contiguous"
        else check_proof_headers headers containing_height (i + 1) (Some proof_header) rest
  end.

Definition check_confirmation (containing_height : Z) (best_by_height : gmap Z bytes32)
    (ih : nat * BitcoinHeader) : node_result unit :=
  let? height := ok_or (Msg "Bitcoin best-chain confirmation height overflow"%string)
      (checked_add 32 containing_height (Z.of_nat (fst ih))) in
  if negb (bool_decide (best_by_height !! height = Some (hash_internal (snd ih))))
  then err "Bitcoin purchase confirmation is not on the current authenticated best chain"
  else Ok tt.

Definition validate_purchase_window (state : DevnetState) (proof_headers : list BitcoinHeader)
    (containing_height : Z) : node_result AuthenticatedPurchaseWindow :=
  if (length proof_headers <? REQUIRED_CONFIRMATIONS)%nat
  then err "Bitcoin SPV proof has fewer than six confirmations"
  else
    let? best_by_height := best_chain_hashes_by_height state in
    let? best := ok_or (Msg "BTC purchase requires authenticated BITCOIN_BEST_CHAIN state"%string)
        (ds_bitcoin_best_chain state) in
    let? sixth_height := ok_or (Msg "Bitcoin sixth-confirmation height overflow"%string)
        (checked_add 32 containing_height (Z.of_nat REQUIRED_CONFIRMATIONS - 1)) in
    if bb_tip_height best <? sixth_height
    then err "current authenticated Bitcoin best tip has fewer than six confirmations"
    else
      let? _ := check_proof_headers (ds_bitcoin_headers state) containing_height 0 None proof_headers in
      let? _ := map_result (check_confirmation containing_height best_by_height)
          (imap pair (take REQUIRED_CONFIRMATIONS proof_headers)) in
      let? earliest_mtp_height := ok_or (Msg "Bitcoin containing height is too low for MTP-11"%string)
          (checked_sub containing_height 10) in
      if earliest_mtp_height <? PACK_J_CONTEXT_START_HEIGHT
      then err "Bitcoin containing block predates the authenticated Pack-J MTP context"
      else
        let? timestamps := map_result (fun slot =>
            let height := earliest_mtp_height + Z.of_nat slot in
            if height <=? PACK_J_ANCHOR_HEIGHT
            then ok_or (Msg "Bitcoin MTP-11 requires unavailable pre-anchor Pack-J context"%string)
                   (pack_j_context_timestamp height)
            else
              let? h := authenticated_best_header_at_height state best_by_height height in
              Ok (timestamp h)) (seq 0 11) in
        let payment_mtp := nth 5 (merge_sort Z.le timestamps) 0 in
        Ok {| aw_containing_header := nth 0 proof_headers [];
              aw_sixth_header := nth (REQUIRED_CONFIRMATIONS - 1) proof_headers [];
              aw_payment_mtp := payment_mtp |}.

(** [if entries.insert(key, leaf).is_some() { return Err(duplicate) }] *)
Definition insert_entry (duplicate : NodeError) (key leaf : bytes32) (entries : gmap bytes32 bytes32)
    : node_result (gmap bytes32 bytes32) :=
  if bool_decide (is_Some (entries !! key)) then Err duplicate else Ok (<[key := leaf]> entries).

Definition insert_protocol_state_entries (state : DevnetState) (entries : gmap bytes32 bytes32)
    : node_result (gmap bytes32 bytes32) :=
  let? entries := fold_result (fun entries stored =>
      let? block_hash := decode32 (hr_block_hash_internal stored) in
      let? value := stored_header_consensus stored in
      let key := protocol_state_key PS_BITCOIN_HEADER block_hash in
      let leaf := protocol_state_leaf key (BitcoinHeaderStateV1_encode value) in
      insert_entry (Msg "duplicate BITCOIN_HEADER ProtocolState key"%string) key leaf entries) entries (ds_bitcoin_headers state) in
  match ds_bitcoin_best_chain state with
  | None => Ok entries
  | Some stored =>
      let? value := stored_best_consensus stored in
      let key := protocol_state_key PS_BITCOIN_BEST_CHAIN ZERO32 in
      let leaf := protocol_state_leaf key (BitcoinBestChainStateV1_encode value) in
      insert_entry (Msg "duplicate BITCOIN_BEST_CHAIN ProtocolState key"%string) key leaf entries
  end.
End bitcoin.
