(* ===== verification/NodePurchase.v ===== *)
(** Bitcoin purchases of Mining Licenses in the node
    ([mutiny-node/src/bitcoin.rs]): price, payment epoch, validation against the
    authenticated header state, and the operation that issues the licenses. *)

From Stdlib Require Import Strings.Byte Strings.String.
From stdpp Require Import strings.
From S2P Require Import Prelude Crypto Codec Smt State Transaction Bitcoin Protocol ProtocolRules Collections NodeState NodePresence NodeBitcoin.

Definition decode_purchase_operation (op : ProtocolOperationV1) : node_result LicensePurchaseBtcV1 :=
  if negb (po_op_type op =? OP_LICENSE_PURCHASE_BTC) || negb (po_op_version op =? 1)
  then err "operation is not a V1 Bitcoin Mining License purchase"
  else map_err FromProtocol (LicensePurchaseBtcV1_decode_payload (po_payload op)).

Definition payment_epoch_from_mtp (state : DevnetState) (payment_mtp : Z) : node_result Z :=
  let genesis_seconds_u128 := ds_genesis_time_ms state / 1000 in
  let? genesis_seconds := ok_or (Msg "Mutiny Genesis time does not fit u64 seconds"%string)
      (try_from 64 genesis_seconds_u128) in
  if payment_mtp <? genesis_seconds then err "Bitcoin PaymentMTP predates Mutiny Genesis time"
  else Ok ((payment_mtp - genesis_seconds) / 60).

Definition historical_license_count (state : DevnetState) (payment_epoch : Z) : node_result Z :=
  ok_or (Msg "historical Mining License count does not fit u64"%string)
    (try_from 64 (count_by (fun license => ls_issued_epoch license <? payment_epoch) (ds_licenses state))).

Definition btc_price_sats_per_license (historical_license_count : Z) : node_result Z :=
  let step := historical_license_count / Z.shiftl 1 18 in
  let? exponent := ok_or (Msg "Bitcoin Mining License price exponent overflow"%string) (checked_add 64 11 step) in
  let? exponent := ok_or (Msg "Bitcoin Mining License price exponent overflow"%string) (try_from 32 exponent) in
  ok_or (Msg "Bitcoin Mining License price overflow"%string) (checked_shl 64 1 exponent).

(** (price of one license, total) *)
Definition required_sats (state : DevnetState) (payment_epoch count : Z) : node_result (Z * Z) :=
  let? l_e := historical_license_count state payment_epoch in
  let? price_each := btc_price_sats_per_license l_e in
  let? count := ok_or (Msg "Bitcoin Mining License count overflow"%string) (try_from 64 count) in
  let? total := ok_or (Msg "Bitcoin Mining License total price overflow"%string) (checked_mul 64 price_each count) in
  Ok (price_each, total).

Section purchase.
Context {SHA : Sha2}.

Definition validate_payment_against_authenticated_window (proof : BitcoinSpvProofV1)
    (window : AuthenticatedPurchaseWindow) (expected_manifest_hash : bytes32)
    (treasury_script_pubkey : bytes) (required_sats : Z) : node_result ValidatedBitcoinPayment :=
  let? parsed := map_err FromBitcoin (parse_transaction (sp_raw_transaction proof)) in
  let root := merkle_root_from_branch (pt_txid_internal parsed) (sp_tx_index proof) (sp_merkle_branch proof) in
  if negb (bytes_eqb root (merkle_root_internal (aw_containing_header window)))
  then err "Bitcoin Merkle proof does not match authenticated containing block"
  else
    let? payment := ok_or (Msg "Bitcoin payment output index is out of range"%string)
        (pt_outputs parsed !! Z.to_nat (sp_payment_output_index proof)) in
    if bo_value_sats payment <? required_sats
    then err "Bitcoin payment amount is below the required PaymentEpoch price"
    else if negb (bytes_eqb (bo_script_pubkey payment) treasury_script_pubkey)
    then err "Bitcoin payment output script does not match Treasury script"
    else
      let? manifest := ok_or (Msg "Bitcoin manifest output index is out of range"%string)
          (pt_outputs parsed !! Z.to_nat (sp_manifest_output_index proof)) in
      let expected_manifest_script := canonical_manifest_script expected_manifest_hash in
      if negb (bo_value_sats manifest =? 0)
         || negb (bytes_eqb (bo_script_pubkey manifest) expected_manifest_script)
      then err "Bitcoin transaction does not contain the canonical manifest commitment"
      else
        let? sixth_height := ok_or (Msg "Bitcoin sixth-confirmation height overflow"%string)
            (checked_add 32 (sp_containing_block_height proof) (Z.of_nat REQUIRED_CONFIRMATIONS - 1)) in
        Ok {| vp_txid_internal := pt_txid_internal parsed;
              vp_containing_block_hash_internal := hash_internal (aw_containing_header window);
              vp_containing_block_height := sp_containing_block_height proof;
              vp_sixth_confirmation_hash_internal := hash_internal (aw_sixth_header window);
              vp_sixth_confirmation_height := sixth_height;
              vp_sixth_confirmation_timestamp := timestamp (aw_sixth_header window);
              vp_payment_output_index := sp_payment_output_index proof;
              vp_paid_sats := bo_value_sats payment |}.

Record ValidatedPurchaseContext := {
  vc_purchase : LicensePurchaseBtcV1;
  vc_validated : ValidatedBitcoinPayment;
  vc_ids : list bytes32;
}.

Definition validate_purchase_context (state : DevnetState) (op : ProtocolOperationV1) (block_epoch : Z)
    : node_result ValidatedPurchaseContext :=
  let? purchase := decode_purchase_operation op in
  let? state_genesis_id := decode32 (ds_genesis_hash state) in
  let? policy := ok_or
      (Msg "ordinary BTC purchases are inactive for this Mutiny NetworkID/GenesisID tuple"%string)
      (resolve_tuple_policy (ds_network_id state) state_genesis_id) in
  if negb (tp_ordinary_purchase_active policy)
  then err "ordinary BTC purchases are inactive for this Mutiny tuple"
  else
    let? treasury_script_pubkey := ok_or
        (Msg "ordinary BTC purchase Treasury script is unassigned for this Mutiny tuple"%string)
        (tp_treasury_script_pubkey policy) in
    if negb (bm_network_id (pb_manifest purchase) =? ds_network_id state)
    then err "Bitcoin Mining License purchase manifest NetworkID mismatch"
    else if negb (bytes_eqb (bm_genesis_hash (pb_manifest purchase)) state_genesis_id)
    then err "Bitcoin Mining License purchase manifest GenesisID mismatch"
    else
      let? window := validate_purchase_window state (sp_headers (pb_proof purchase))
          (sp_containing_block_height (pb_proof purchase)) in
      let? payment_epoch := payment_epoch_from_mtp state (aw_payment_mtp window) in
      if block_epoch <? payment_epoch
      then err "Bitcoin PaymentEpoch is later than Mutiny consumption block epoch"
      else if BTC_SUNSET_EPOCH <=? payment_epoch
      then err "Bitcoin payment is ineligible at or after BTC sunset epoch 2,097,152"
      else if PACK_M_BTC_DISABLE_EPOCH <=? block_epoch
      then err "ordinary BTC purchase consumption is disabled beginning Mutiny epoch 2,101,248"
      else
        let? (_, required) := required_sats state payment_epoch
            (Z.of_nat (length (bm_licenses (pb_manifest purchase)))) in
        let? manifest_hash := map_err FromProtocol (BtcLicenseManifestV1_manifest_hash (pb_manifest purchase)) in
        let? validated := validate_payment_against_authenticated_window (pb_proof purchase) window
            manifest_hash treasury_script_pubkey required in
        let payment_id := bitcoin_payment_id (vp_txid_internal validated) (vp_payment_output_index validated) in
        let payment_hex := hex_encode payment_id in
        if existsb (fun payment => bool_decide (bp_payment_id payment = payment_hex))
             (ds_consumed_bitcoin_payments state)
        then err "BitcoinPaymentID has already been consumed"
        else
          let? ids := map_err FromProtocol (LicensePurchaseBtcV1_license_ids purchase) in
          if negb (length ids =? length (bm_licenses (pb_manifest purchase)))%nat
          then err "Bitcoin Mining License derived ID count mismatch"
          else if existsb (fun id => existsb (license_is id) (ds_licenses state)) ids
          then err "derived Bitcoin Mining LicenseID already exists"
          else Ok {| vc_purchase := purchase; vc_validated := validated; vc_ids := ids |}.

Definition operation_payment_id (op : ProtocolOperationV1) : node_result bytes32 :=
  let? purchase := decode_purchase_operation op in
  let? parsed := map_err FromBitcoin (parse_transaction (sp_raw_transaction (pb_proof purchase))) in
  Ok (bitcoin_payment_id (pt_txid_internal parsed) (sp_payment_output_index (pb_proof purchase))).

Definition purchase_dependency_ready (state : DevnetState) (op : ProtocolOperationV1) : node_result bool :=
  let? purchase := decode_purchase_operation op in
  let? state_genesis_id := decode32 (ds_genesis_hash state) in
  if negb (bm_network_id (pb_manifest purchase) =? ds_network_id state)
     || negb (bytes_eqb (bm_genesis_hash (pb_manifest purchase)) state_genesis_id)
  then Ok false
  else match resolve_tuple_policy (ds_network_id state) state_genesis_id with
  | None => Ok false
  | Some policy =>
      if negb (tp_ordinary_purchase_active policy)
         || negb (bool_decide (is_Some (tp_treasury_script_pubkey policy)))
      then Ok false
      else
        let? parsed := map_err FromBitcoin (parse_transaction (sp_raw_transaction (pb_proof purchase))) in
        let payment_id := bitcoin_payment_id (pt_txid_internal parsed)
            (sp_payment_output_index (pb_proof purchase)) in
        if existsb (fun payment => bool_decide (bp_payment_id payment = hex_encode payment_id))
             (ds_consumed_bitcoin_payments state)
        then Ok false
        else
          let? ids := map_err FromProtocol (LicensePurchaseBtcV1_license_ids purchase) in
          Ok (forallb (fun id => negb (existsb (license_is id) (ds_licenses state))) ids)
  end.

Definition dependency_ready_at_epoch (state : DevnetState) (op : ProtocolOperationV1) (block_epoch : Z)
    : node_result bool :=
  let? purchase := decode_purchase_operation op in
  if negb (bm_network_id (pb_manifest purchase) =? ds_network_id state) then Ok false
  else
    let? genesis := decode32 (ds_genesis_hash state) in
    if negb (bytes_eqb (bm_genesis_hash (pb_manifest purchase)) genesis) then Ok false
    else Ok (is_ok (validate_purchase_context state op block_epoch)).

(** The [LicenseState] of a newly bought license; both purchase methods push
    one per manifest entry. *)
Definition new_license (licenses : list LicenseState) (method : Z) (purchase_id : string) (id : bytes32)
    (entry : LicenseManifestEntryV1) (block_epoch : Z) : node_result LicenseState :=
  let? index := ok_or (Msg "license registry index overflow"%string)
      (try_from 32 (Z.of_nat (length licenses))) in
  let payment_address_id := address_id (me_owner_public_key entry) in
  let? activation_epoch := ok_or (Msg "activation epoch overflow"%string)
      (checked_add 64 block_epoch ACTIVATION_DELAY_EPOCHS) in
  Ok {| ls_index := index; ls_license_id := hex_encode id; ls_purchase_id := purchase_id;
        ls_owner_public_key := hex_encode (me_owner_public_key entry);
        ls_mining_public_key := hex_encode (me_mining_public_key entry);
        ls_payment_address_id := hex_encode payment_address_id;
        ls_status := LICENSE_STATUS_PENDING; ls_purchase_method := method;
        ls_owner_key_sequence := 0; ls_mining_key_sequence := 0;
        ls_issued_epoch := block_epoch; ls_activation_epoch := activation_epoch;
        ls_strike_weight := 0; ls_suspended_until_epoch := 0; ls_revocation_epoch := 0 |}.

Definition purchase_apply_operation (state : DevnetState) (op : ProtocolOperationV1) (block_epoch : Z)
    : node_result (DevnetState * list bytes32) :=
  let? context := validate_purchase_context state op block_epoch in
  let validated := vc_validated context in
  let payment_id := bitcoin_payment_id (vp_txid_internal validated) (vp_payment_output_index validated) in
  let payment_hex := hex_encode payment_id in
  let? licenses := fold_result (fun licenses '(id, entry) =>
      let? license := new_license licenses PURCHASE_METHOD_BTC payment_hex id entry block_epoch in
      Ok (licenses ++ [license])) (ds_licenses state)
      (combine (vc_ids context) (bm_licenses (pb_manifest (vc_purchase context)))) in
  let payment := {| bp_payment_id := payment_hex;
                    bp_txid_internal := hex_encode (vp_txid_internal validated);
                    bp_payment_output_index := vp_payment_output_index validated;
                    bp_paid_sats := vp_paid_sats validated;
                    bp_containing_block_hash_internal := hex_encode (vp_containing_block_hash_internal validated);
                    bp_containing_block_height := vp_containing_block_height validated;
                    bp_sixth_confirmation_hash_internal := hex_encode (vp_sixth_confirmation_hash_internal validated);
                    bp_sixth_confirmation_height := vp_sixth_confirmation_height validated;
                    bp_sixth_confirmation_timestamp := vp_sixth_confirmation_timestamp validated |} in
  Ok (state <| ds_licenses := licenses |>
            <| ds_consumed_bitcoin_payments :=
                 sort_by (fun a b => String.leb (bp_payment_id a) (bp_payment_id b))
                   (ds_consumed_bitcoin_payments state ++ [payment]) |>,
      vc_ids context).

Definition purchase_check_state (state : DevnetState) : node_result unit :=
  let? _ := fold_result (fun (ids : gset string) payment =>
      let? payment_id := decode32 (bp_payment_id payment) in
      let? txid := decode32 (bp_txid_internal payment) in
      let? _ := decode32 (bp_containing_block_hash_internal payment) in
      let? _ := decode32 (bp_sixth_confirmation_hash_internal payment) in
      if negb (bytes_eqb (bitcoin_payment_id txid (bp_payment_output_index payment)) payment_id)
      then err "stored BitcoinPaymentID does not match Bitcoin txid/output index"
      else if bp_paid_sats payment =? 0 then err "stored Bitcoin payment amount must be nonzero"
      else
        let? minimum_sixth := ok_or (Msg "stored Bitcoin payment height overflow"%string)
            (checked_add 32 (bp_containing_block_height payment) 5) in
        if bp_sixth_confirmation_height payment <? minimum_sixth
        then err "stored Bitcoin payment has fewer than six confirmations"
        else insert_new (Msg "duplicate consumed BitcoinPaymentID"%string) (bp_payment_id payment) ids)
    ∅ (ds_consumed_bitcoin_payments state) in
  Ok tt.
End purchase.
