(* ===== verification/NodeRoots.v ===== *)
(** The state commitment of the node ([mutiny-node/src/main.rs]): the four
    authenticated maps, the five-part state root, and the check of a whole
    stored state. *)

From Stdlib Require Import Strings.Byte Strings.String.
From stdpp Require Import strings pretty.
From S2P Require Import Prelude Crypto Sha256 Codec Smt State Transaction Bitcoin Protocol ProtocolRules Collections NodeState NodePresence NodePunishment NodeUtxo NodeDividends NodeBitcoin NodePurchase.

Abbreviation entries := (gmap bytes32 bytes32).

Section roots.
Context {SHA : Sha2}.

Definition utxo_entry (m : entries) (u : UtxoState) : node_result entries :=
  let? txid := decode32 (us_txid u) in
  let key := utxo_key txid (us_output_index u) in
  let? value := UtxoState_value u in
  insert_entry (Msg "duplicate UTXO key"%string) key (utxo_leaf key value) m.

Definition compute_utxo_root (utxos : list UtxoState) : node_result bytes32 :=
  let? m := fold_result utxo_entry ∅ utxos in
  Ok (sparse_root m).

(** A later license with the same identifier overwrites an earlier one. *)
Definition license_entry (m : entries) (l : LicenseState) : node_result entries :=
  let? license_id := decode32 (ls_license_id l) in
  let? record := LicenseState_record l in
  let? leaf := map_err FromState (license_leaf license_id record) in
  Ok (<[license_id := leaf]> m).

Definition compute_license_root (state : DevnetState) : node_result bytes32 :=
  let? m := fold_result license_entry ∅ (ds_licenses state) in
  Ok (sparse_root m).

Definition payment_entry (m : entries) (payment : BitcoinPaymentState) : node_result entries :=
  let? payment_id := decode32 (bp_payment_id payment) in
  let? value := BitcoinPaymentState_value_bytes payment in
  insert_entry (Msg "duplicate BitcoinPaymentID ExternalPayment key"%string) payment_id
    (external_payment_leaf payment_id value) m.

Definition compute_external_payment_root (state : DevnetState) : node_result bytes32 :=
  let? m := fold_result payment_entry ∅ (ds_consumed_bitcoin_payments state) in
  Ok (sparse_root m).

(** One typed object of the protocol state. *)
Definition protocol_entry (duplicate : string) (object_type : Z) (object_id : bytes32) (value : bytes)
    (m : entries) : node_result entries :=
  let key := protocol_state_key object_type object_id in
  insert_entry (Msg duplicate) key (protocol_state_leaf key value) m.

Definition account_entry (m : entries) (account_state : DividendAccountState) : node_result entries :=
  let? account := DividendAccountState_account account_state in
  protocol_entry "duplicate dividend-account protocol-state key" PS_DIVIDEND_ACCOUNT
    (da_license_id account) (LicenseDividendAccountV1_encode account) m.

Definition evidence_entry (m : entries) (evidence_hex : string) : node_result entries :=
  let? evidence_id := decode32 evidence_hex in
  protocol_entry "duplicate consumed EvidenceID protocol-state key" PS_CONSUMED_EVIDENCE evidence_id [] m.

Definition event_entry (m : entries) (event : OffenseEventState) : node_result entries :=
  let? evidence_id := decode32 (oe_evidence_id event) in
  let? value := OffenseEventState_value_bytes event in
  protocol_entry "duplicate active-offense protocol-state key" PS_OFFENSE_EVENT evidence_id value m.

Definition native_payment_entry (m : entries) (payment_hex : string) : node_result entries :=
  let? payment_id := decode32 payment_hex in
  protocol_entry "duplicate consumed NativePaymentID protocol-state key" PS_CONSUMED_NATIVE_PAYMENT
    payment_id [] m.

Definition historical_entry (m : entries) (historical : HistoricalLicenseKeyState) : node_result entries :=
  let? operation_id := decode32 (hs_operation_id historical) in
  let? value := HistoricalLicenseKeyState_value_bytes historical in
  protocol_entry "duplicate historical-license-key protocol-state key" PS_HISTORICAL_LICENSE_KEY
    operation_id value m.

Definition presence_entry (m : entries) (presence_state : MiningPresenceState) : node_result entries :=
  let? license_id := decode32 (pr_license_id presence_state) in
  let? value := MiningPresenceState_value presence_state in
  let? value := map_err FromState (MiningPresenceStateV1_encode value) in
  protocol_entry "duplicate mining-presence protocol-state key" PS_MINING_PRESENCE_STATE license_id value m.

Definition compute_protocol_state_root (state : DevnetState) (utxos : list UtxoState)
    (difficulty_count difficulty_bitmap : Z) : node_result bytes32 :=
  let? treasury := treasury_state state utxos in
  let treasury_key := protocol_state_key PS_TREASURY_STATE ZERO32 in
  let treasury_leaf := protocol_state_leaf treasury_key (TreasuryStateV1_encode treasury) in
  let difficulty_key := protocol_state_key PS_DIFFICULTY_HISTORY ZERO32 in
  let difficulty_value := byte_of_Z difficulty_count :: be_bytes 8 difficulty_bitmap in
  let difficulty_leaf := protocol_state_leaf difficulty_key difficulty_value in
  let m : entries := <[difficulty_key := difficulty_leaf]> (<[treasury_key := treasury_leaf]> ∅) in
  let? m := fold_result account_entry m (ds_dividend_accounts state) in
  let? m := fold_result evidence_entry m (ds_consumed_evidence state) in
  let? m := fold_result event_entry m (ds_offense_events state) in
  let? m := fold_result native_payment_entry m (ds_consumed_native_payments state) in
  let? m := fold_result historical_entry m (ds_historical_license_keys state) in
  let? m := fold_result presence_entry m (ds_mining_presence state) in
  let? m := insert_protocol_state_entries state m in
  Ok (sparse_root m).

Definition compute_state_root (state : DevnetState) (utxos : list UtxoState) (height total_issued
    difficulty_count difficulty_bitmap difficulty_correction base_fee_rate : Z) : node_result bytes32 :=
  let? utxo_root := compute_utxo_root utxos in
  let? license_root := compute_license_root state in
  let? external_payment_root := compute_external_payment_root state in
  let? protocol_root := compute_protocol_state_root state utxos difficulty_count difficulty_bitmap in
  let meta_root := ConsensusMetaV1_root
    {| cm_block_height := height;
       cm_eligible_license_count := eligible_license_count state (ds_tip_epoch state);
       cm_total_licenses_issued := Z.of_nat (length (ds_licenses state));
       cm_difficulty_correction_q32 := difficulty_correction;
       cm_base_fee_rate_q32 := base_fee_rate;
       cm_total_issued_strikes := total_issued |} in
  Ok (state_root utxo_root license_root external_payment_root protocol_root meta_root).

(** [compute_state_root] at the values the state itself holds. *)
Definition current_root (state : DevnetState) : node_result bytes32 :=
  compute_state_root state (ds_utxos state) (ds_height state) (ds_total_issued_strikes state)
    (ds_difficulty_history_count state) (ds_difficulty_history_bitmap state)
    (ds_difficulty_correction_q32 state) (ds_base_fee_rate_q32 state).

Definition refresh_current_state_root (state : DevnetState) : node_result DevnetState :=
  let? root := current_root state in
  Ok (state <| ds_current_state_root := hex_encode root |>).

Definition check_license (ids : gset string) (license : LicenseState) : node_result (gset string) :=
  let? record := LicenseState_record license in
  let? _ := map_err FromState (LicenseRecordV1_validate record) in
  let? ids := insert_new (Msg "duplicate LicenseID in license registry"%string) (ls_license_id license) ids in
  let? owner := decode32 (ls_owner_public_key license) in
  let? address := decode32 (ls_payment_address_id license) in
  if negb (bytes_eqb address (address_id owner))
  then err "Mining License payment address is not derived from current owner key"
  else Ok ids.

Definition check_historical (ids : gset string) (historical : HistoricalLicenseKeyState)
    : node_result (gset string) :=
  let? _ := decode32 (hs_operation_id historical) in
  let? _ := decode32 (hs_license_id historical) in
  let? _ := decode32 (hs_owner_public_key historical) in
  let? _ := decode32 (hs_mining_public_key historical) in
  insert_new (Msg "duplicate historical-license-key OperationID"%string) (hs_operation_id historical) ids.

Definition check_state (state : DevnetState) : node_result unit :=
  let valid_tuple :=
    ((ds_network_id state =? DEVNET_NETWORK_ID)
     && ((ds_format_version state <? 10) || bool_decide (ds_genesis_hash state = DEVNET_GENESIS_ID_HEX)))
    || ((ds_network_id state =? MAINNET_NETWORK_ID)
        && bool_decide (ds_genesis_hash state = hex_encode MAINNET_GENESIS_ID)) in
  if negb valid_tuple || negb (bool_decide (ds_motto state = MOTTO)) then err "network identity mismatch"
  else
    let expected_tip := match last (ds_blocks state) with
                        | Some b => bk_block_hash b
                        | None => ds_genesis_hash state
                        end in
    if negb (bool_decide (ds_tip_hash state = expected_tip)) then err "tip hash does not match block history"
    else if negb (ds_height state =? Z.of_nat (length (ds_blocks state)))
    then err "height does not match block count"
    else
      let? _ := fold_result check_license ∅ (ds_licenses state) in
      let? _ := fold_result (fun (ids : gset string) payment =>
          let? _ := decode32 payment in
          insert_new (Msg "duplicate consumed NativePaymentID"%string) payment ids)
        ∅ (ds_consumed_native_payments state) in
      let? _ := purchase_check_state state in
      let? _ := headers_check_state state in
      let? _ := punishment_check_state state in
      let? _ := dividends_check_state state in
      let? _ := presence_check_state state in
      let? _ := fold_result check_historical ∅ (ds_historical_license_keys state) in
      let? total_utxo := try_sum 128 (Msg "UTXO supply overflow"%string) us_amount_strikes (ds_utxos state) in
      if negb (total_utxo =? ds_total_issued_strikes state)
      then Err (Msg ("supply invariant failed: UTXOs="%string +:+ pretty total_utxo
                     +:+ " Strikes, issued="%string +:+ pretty (ds_total_issued_strikes state)
                     +:+ " Strikes"%string))
      else
        let? root := current_root state in
        if negb (bool_decide (hex_encode root = ds_current_state_root state))
        then err "current StateRoot mismatch"
        else Ok tt.
End roots.
