(* ===== verification/NodeBootstrap.v ===== *)
(** The bootstrap of the development network ([mutiny-node/src/bootstrap.rs]):
    the deterministic fixture that fixes the Genesis identifier and the twelve
    bootstrap licenses, and the one transition from Genesis to block 1.

    Block 1 is not mined: it is compared with the block the node builds itself.
    [fuel] bounds the nonces tried per synthetic Bitcoin header, as in
    [mine_easy_header] of [Bitcoin.v]. *)

From Stdlib Require Import Strings.Byte Strings.String.
From stdpp Require Import strings pretty.
From S2P Require Import Prelude Crypto Codec Consensus Smt State Transaction Bitcoin Protocol ProtocolRules Collections NodeState Economy NodePresence NodeUtxo NodeBitcoin NodeRoots.

Definition DEVNET_BOOTSTRAP_PAYMENT_SATS : Z := 24576.
Definition DEVNET_BOOTSTRAP_ANCHOR_HEIGHT : Z := 800352.
Definition DEVNET_BOOTSTRAP_CONTAINING_HEIGHT : Z := 800353.
Definition DEVNET_BOOTSTRAP_SIXTH_HEIGHT : Z := 800358.
Definition DEVNET_BOOTSTRAP_ANCHOR_FIRST_TIMESTAMP : Z := 1799994000.
Definition DEVNET_FIXED_GENESIS_TIME_MS : Z := 1800000000000.
Definition DEVNET_BTC_TRUSTED_CHECKPOINT_INTERNAL : bytes32 := replicate 32 Byte.x53.

Record DevnetBootstrapFixtureV1 := {
  fx_manifest_bytes : string;
  fx_manifest_hash : string;
  fx_bitcoin_anchor_height : Z;
  fx_bitcoin_anchor_headers : list string;
  fx_bitcoin_anchor_hash : string;
  fx_bitcoin_payment_tx : string;
  fx_bitcoin_txid_display : string;
  fx_bitcoin_payment_id : string;
  fx_containing_height : Z;
  fx_sixth_confirmation_height : Z;
  fx_sixth_confirmation_mtp : Z;
  fx_initial_state_root : string;
  fx_genesis_fixture_bytes : string;
  fx_genesis_id : string;
  fx_bootstrap_license_ids : list string;
  fx_bootstrap_issued_epoch : Z;
  fx_bootstrap_activation_epoch : Z;
  fx_bootstrap_commitment_bytes : string;
  fx_bootstrap_commitment_hash : string;
  fx_bootstrap_operation_id : string;
}.

(** [main.rs]: the seed of the [i]th development key; all additions wrap. *)
Definition dev_seed (i : Z) : bytes32 :=
  map (fun j => byte_of_Z (i * 17 + Z.of_nat j + 1)) (seq 0 32).

Definition compact_size_small (n : nat) : node_result bytes :=
  if (252 <? n)%nat then err "Build 5.4 bootstrap fixture CompactSize overflow"
  else Ok [byte_of_Z (Z.of_nat n)].

(** Runs the checks of a successful computation backwards, one at a time. *)
Ltac pass_checks H :=
  repeat (let x := fresh "x" in let E := fresh "E" in
          match type of H with
          | match ?r with Ok _ => _ | Err _ => Err _ end = Ok _ => destruct r as [x|] eqn:E; [|discriminate H]
          | (if ?b then _ else _) = Ok _ => destruct b eqn:E; [discriminate H|]
          end; cbv zeta in H).

Section bootstrap.
Context {SHA : Sha2} {ED : Ed25519}.
Variable fuel : nat.

Definition bootstrap_manifest : node_result BootstrapManifestV1 :=
  let purchase_nonce := sha256_domain domains.BOOTSTRAP_MANIFEST
      [ascii_bytes "MUTINY-DEVNET-BOOTSTRAP-NONCE-V1"; be_bytes 4 DEVNET_NETWORK_ID] in
  let licenses := map (fun i =>
      let pk := sk_public (dev_seed (Z.of_nat i)) in
      {| me_owner_public_key := pk; me_mining_public_key := pk |})
    (seq 0 (Z.to_nat BOOTSTRAP_LICENSE_COUNT_V1)) in
  let manifest := {| sm_version := 1; sm_network_id := DEVNET_NETWORK_ID;
                     sm_purchase_nonce := purchase_nonce; sm_licenses := licenses |} in
  let? _ := map_err FromProtocol (BootstrapManifestV1_validate manifest) in
  Ok manifest.

Definition build_bootstrap_payment_tx (manifest_hash : bytes32) : node_result bytes :=
  let prev := sha256_domain domains.BTC_PAYMENT_ID
      [ascii_bytes "MUTINY-DEVNET-BOOTSTRAP-BTC-PREVOUT-V1"; manifest_hash] in
  let? script_len := compact_size_small (length DEVNET_BTC_TREASURY_SCRIPT) in
  let commitment := canonical_manifest_script manifest_hash in
  let? commitment_len := compact_size_small (length commitment) in
  Ok (le_bytes 4 2 ++ [Byte.x01] ++ prev ++ le_bytes 4 0 ++ [Byte.x01] ++ [Byte.x51]
      ++ le_bytes 4 0xfffffffe ++ [Byte.x02]
      ++ le_bytes 8 DEVNET_BOOTSTRAP_PAYMENT_SATS ++ script_len ++ DEVNET_BTC_TREASURY_SCRIPT
      ++ le_bytes 8 0 ++ commitment_len ++ commitment ++ le_bytes 4 0).

(** [FIRST_TIMESTAMP.checked_add(i.checked_mul(600)?)?] *)
Definition fixture_timestamp (i : Z) (overflow : NodeError) : node_result Z :=
  let? offset := ok_or overflow (checked_mul 32 i 600) in
  ok_or overflow (checked_add 32 DEVNET_BOOTSTRAP_ANCHOR_FIRST_TIMESTAMP offset).

(** One header of a synthetic chain, on top of [prev]. *)
Definition anchor_header (acc : list BitcoinHeader * bytes32) (i : nat)
    : node_result (list BitcoinHeader * bytes32) :=
  let '(headers, prev) := acc in
  let marker := double_sha256 (ascii_bytes "MUTINY-DEVNET-BUILD54-ANCHOR-V1" ++ be_bytes 4 (Z.of_nat i)) in
  let? timestamp := fixture_timestamp (Z.of_nat i) (Msg "anchor timestamp overflow"%string) in
  let? header := map_err FromBitcoin
      (mine_easy_header fuel prev marker timestamp DEVNET_BTC_BITS (Z.of_nat i)) in
  Ok (headers ++ [header], hash_internal header).

Definition anchor_headers : node_result (list BitcoinHeader) :=
  let? (headers, _) := fold_result anchor_header ([], DEVNET_BTC_TRUSTED_CHECKPOINT_INTERNAL)
                         (seq 0 ANCHOR_CONTEXT_HEADERS) in
  let? _ := map_err FromBitcoin
      (validate_anchor_context headers DEVNET_BTC_TRUSTED_CHECKPOINT_INTERNAL DEVNET_BTC_BITS
         DEVNET_BOOTSTRAP_ANCHOR_HEIGHT) in
  Ok headers.

(** The body of [while headers.len() < 6], for [i = headers.len()]. *)
Definition confirmation_header (headers : list BitcoinHeader) (i : nat) : node_result (list BitcoinHeader) :=
  let marker := double_sha256 (ascii_bytes "MUTINY-DEVNET-BUILD54-BOOTSTRAP-CONFIRM-V1"
                               ++ be_bytes 4 (Z.of_nat i)) in
  let? timestamp := fixture_timestamp (11 + Z.of_nat i) (Msg "bootstrap timestamp overflow"%string) in
  let prev := hash_internal (default [] (last headers)) in
  let? header := map_err FromBitcoin
      (mine_easy_header fuel prev marker timestamp DEVNET_BTC_BITS (Z.of_nat i)) in
  Ok (headers ++ [header]).

Definition payment_proof (raw_transaction : bytes) (anchor : list BitcoinHeader)
    : node_result BitcoinSpvProofV1 :=
  let? parsed := map_err FromBitcoin (parse_transaction raw_transaction) in
  let? anchor_last := ok_or (Msg "empty anchor context"%string) (last anchor) in
  let? first := map_err FromBitcoin
      (mine_easy_header fuel (hash_internal anchor_last) (pt_txid_internal parsed)
         (DEVNET_BOOTSTRAP_ANCHOR_FIRST_TIMESTAMP + 11 * 600) DEVNET_BTC_BITS 0) in
  let? headers := fold_result confirmation_header [first] (seq 1 5) in
  Ok {| sp_raw_transaction := raw_transaction; sp_payment_output_index := 0; sp_manifest_output_index := 1;
        sp_tx_index := 0; sp_merkle_branch := []; sp_headers := headers;
        sp_containing_block_height := DEVNET_BOOTSTRAP_CONTAINING_HEIGHT |}.

(** [mining_presence] and the Bitcoin header chain are not cleared. *)
Definition pristine (state : DevnetState) : DevnetState :=
  state <| ds_height := 0 |> <| ds_tip_epoch := 0 |> <| ds_total_issued_strikes := 0 |>
    <| ds_difficulty_history_count := 0 |> <| ds_difficulty_history_bitmap := 0 |>
    <| ds_difficulty_correction_q32 := DIFFICULTY_Q32_ONE |> <| ds_base_fee_rate_q32 := BASE_FEE_MIN_Q32 |>
    <| ds_licenses := [] |> <| ds_consumed_native_payments := [] |>
    <| ds_consumed_bitcoin_payments := [] |> <| ds_consumed_evidence := [] |>
    <| ds_offense_events := [] |> <| ds_treasury_reserved_dividend_strikes := 0 |>
    <| ds_dividend_accounts := [] |> <| ds_historical_license_keys := [] |> <| ds_utxos := [] |>
    <| ds_mempool := [] |> <| ds_pending_protocol_operations := [] |>
    <| ds_confirmed_transactions := [] |> <| ds_blocks := [] |> <| ds_side_branches := [] |>.

Definition initial_state_root (state : DevnetState) : node_result bytes32 :=
  compute_state_root (pristine state) [] 0 0 0 0 DIFFICULTY_Q32_ONE BASE_FEE_MIN_Q32.

Definition bootstrap_license_id (payment_id : bytes32) (i : nat) (entry : LicenseManifestEntryV1) : bytes32 :=
  derive_license_id DEVNET_NETWORK_ID PURCHASE_METHOD_BTC payment_id (Z.of_nat i) (me_owner_public_key entry).

Definition genesis_fixture (anchor : list BitcoinHeader) (initial_root manifest_hash : bytes32) : bytes :=
  be_bytes 2 1 ++ be_bytes 4 DEVNET_NETWORK_ID ++ be_bytes 8 DEVNET_FIXED_GENESIS_TIME_MS
  ++ be_bytes 4 DEVNET_BOOTSTRAP_ANCHOR_HEIGHT ++ [byte_of_Z (Z.of_nat ANCHOR_CONTEXT_HEADERS)]
  ++ concat anchor ++ initial_root ++ manifest_hash.

Definition bootstrap_commitment (genesis_id manifest_hash payment_id anchor_hash containing_hash
    sixth_hash : bytes32) (sixth_mtp issued_epoch activation_epoch : Z) (license_ids : list bytes32) : bytes :=
  be_bytes 2 1 ++ genesis_id ++ manifest_hash ++ payment_id
  ++ be_bytes 4 DEVNET_BOOTSTRAP_ANCHOR_HEIGHT ++ anchor_hash
  ++ be_bytes 4 DEVNET_BOOTSTRAP_CONTAINING_HEIGHT ++ containing_hash
  ++ be_bytes 4 DEVNET_BOOTSTRAP_SIXTH_HEIGHT ++ sixth_hash
  ++ be_bytes 4 sixth_mtp ++ be_bytes 8 issued_epoch ++ be_bytes 8 activation_epoch
  ++ be_bytes 4 (Z.of_nat (length license_ids)) ++ concat license_ids.

Definition create_fixture (state : DevnetState) : node_result DevnetBootstrapFixtureV1 :=
  let? manifest := bootstrap_manifest in
  let? manifest_bytes := map_err FromProtocol (BootstrapManifestV1_encode manifest) in
  let? manifest_hash := map_err FromProtocol (BootstrapManifestV1_manifest_hash manifest) in
  let? anchor := anchor_headers in
  let? raw_tx := build_bootstrap_payment_tx manifest_hash in
  let? proof := payment_proof raw_tx anchor in
  let? validated := map_err FromBitcoin
      (validate_payment proof manifest_hash DEVNET_BTC_TREASURY_SCRIPT DEVNET_BOOTSTRAP_PAYMENT_SATS) in
  let anchor_hash := hash_internal (default [] (last anchor)) in
  if negb (bytes_eqb (previous_block_internal (default [] (head (sp_headers proof)))) anchor_hash)
  then err "bootstrap payment chain does not descend from Genesis Bitcoin anchor"
  else if negb (vp_sixth_confirmation_height validated =? DEVNET_BOOTSTRAP_SIXTH_HEIGHT)
  then err "bootstrap sixth-confirmation height mismatch"
  else
    let mtp_window := drop (length anchor - 5) anchor ++ sp_headers proof in
    let? sixth_mtp := map_err FromBitcoin (median_time_past_11 mtp_window) in
    let? genesis_time_secs := ok_or (Msg "genesis time overflow"%string)
        (try_from 32 (DEVNET_FIXED_GENESIS_TIME_MS / 1000)) in
    if sixth_mtp <=? genesis_time_secs
    then err "bootstrap sixth-confirmation MTP must be post-Genesis"
    else
      let issued_epoch := (sixth_mtp - genesis_time_secs) / 60 in
      let? activation_epoch := ok_or (Msg "bootstrap activation epoch overflow"%string)
          (checked_add 64 issued_epoch ACTIVATION_DELAY_EPOCHS) in
      let? parsed := map_err FromBitcoin (parse_transaction raw_tx) in
      let payment_id := bitcoin_payment_id (pt_txid_internal parsed) 0 in
      let license_ids := imap (bootstrap_license_id payment_id) (sm_licenses manifest) in
      let? initial_root := initial_state_root state in
      let genesis_bytes := genesis_fixture anchor initial_root manifest_hash in
      let genesis_id := sha256_domain domains.GENESIS_ID [genesis_bytes] in
      let sixth_hash := hash_internal (default [] (sp_headers proof !! 5%nat)) in
      let commitment := bootstrap_commitment genesis_id manifest_hash payment_id anchor_hash
          (vp_containing_block_hash_internal validated) sixth_hash sixth_mtp issued_epoch
          activation_epoch license_ids in
      let commitment_hash := sha256_domain domains.BOOTSTRAP_COMMITMENT [commitment] in
      let bootstrap_op := {| po_op_type := OP_BOOTSTRAP_COMMITMENT; po_op_version := 1;
                             po_payload := commitment |} in
      Ok {| fx_manifest_bytes := hex_encode manifest_bytes;
            fx_manifest_hash := to_hex manifest_hash;
            fx_bitcoin_anchor_height := DEVNET_BOOTSTRAP_ANCHOR_HEIGHT;
            fx_bitcoin_anchor_headers := map hex_encode anchor;
            fx_bitcoin_anchor_hash := hex_encode anchor_hash;
            fx_bitcoin_payment_tx := hex_encode raw_tx;
            fx_bitcoin_txid_display := display_hex_from_internal (pt_txid_internal parsed);
            fx_bitcoin_payment_id := to_hex payment_id;
            fx_containing_height := DEVNET_BOOTSTRAP_CONTAINING_HEIGHT;
            fx_sixth_confirmation_height := DEVNET_BOOTSTRAP_SIXTH_HEIGHT;
            fx_sixth_confirmation_mtp := sixth_mtp;
            fx_initial_state_root := hex_encode initial_root;
            fx_genesis_fixture_bytes := hex_encode genesis_bytes;
            fx_genesis_id := to_hex genesis_id;
            fx_bootstrap_license_ids := map to_hex license_ids;
            fx_bootstrap_issued_epoch := issued_epoch;
            fx_bootstrap_activation_epoch := activation_epoch;
            fx_bootstrap_commitment_bytes := hex_encode commitment;
            fx_bootstrap_commitment_hash := to_hex commitment_hash;
            fx_bootstrap_operation_id := to_hex (operation_id bootstrap_op) |}.

(** Whether a list of the state is empty. *)
Definition is_empty {A} (l : list A) : bool := match l with [] => true | _ => false end.

Definition initialize_genesis_state (state : DevnetState)
    : node_result (DevnetState * DevnetBootstrapFixtureV1) :=
  if negb (ds_height state =? 0) || negb (is_empty (ds_blocks state)) || negb (is_empty (ds_licenses state))
  then err "Build 5.4 Genesis initialization requires empty height-0 license/block state"
  else
    let? fixture := create_fixture state in
    let genesis := fx_genesis_id fixture in
    Ok (state <| ds_genesis_hash := genesis |> <| ds_tip_hash := genesis |> <| ds_tip_epoch := 0 |>
          <| ds_anchor_epoch := 0 |> <| ds_anchor_license_id := hex_encode ZERO32 |>
          <| ds_anchor_ticket_index := 0 |> <| ds_anchor_argon2_proof := genesis |>
          <| ds_current_state_root := fx_initial_state_root fixture |>, fixture).

(** The coinbase of block 1: no outputs, no subsidy. *)
Definition bootstrap_coinbase (epoch : Z) (parent operation_root : bytes32) : TransactionV1 :=
  {| tx_core :=
       {| tc_version := 1; tc_network_id := DEVNET_NETWORK_ID; tc_valid_from_epoch := epoch;
          tc_expiry_epoch := 0;
          tc_inputs := [Coinbase {| cc_block_epoch := epoch; cc_block_height := 1;
                                    cc_parent_block_hash := parent;
                                    cc_protocol_operations_root := operation_root |}];
          tc_outputs := [] |};
     tx_witnesses := [] |}.

(** The body of the loop over the manifest's licenses. *)
Definition bootstrap_license (fixture : DevnetBootstrapFixtureV1) (payment_id : bytes32)
    (licenses : list LicenseState) (entry_id : nat * (LicenseManifestEntryV1 * string))
    : node_result (list LicenseState) :=
  let '(i, (entry, id_hex)) := entry_id in
  if negb (bool_decide (to_hex (bootstrap_license_id payment_id i entry) = id_hex))
  then err "Build 5.4 derived Bootstrap LicenseID mismatch"
  else Ok (licenses ++
    [{| ls_index := Z.of_nat i; ls_license_id := id_hex;
        ls_purchase_id := fx_bitcoin_payment_id fixture;
        ls_owner_public_key := hex_encode (me_owner_public_key entry);
        ls_mining_public_key := hex_encode (me_mining_public_key entry);
        ls_payment_address_id := hex_encode (address_id (me_owner_public_key entry));
        ls_status := LICENSE_STATUS_PENDING; ls_purchase_method := PURCHASE_METHOD_BTC;
        ls_owner_key_sequence := 0; ls_mining_key_sequence := 0;
        ls_issued_epoch := fx_bootstrap_issued_epoch fixture;
        ls_activation_epoch := fx_bootstrap_activation_epoch fixture;
        ls_strike_weight := 0; ls_suspended_until_epoch := 0; ls_revocation_epoch := 0 |}]).

Definition bootstrap_payment (fixture : DevnetBootstrapFixtureV1) (validated : ValidatedBitcoinPayment)
    : BitcoinPaymentState :=
  {| bp_payment_id := fx_bitcoin_payment_id fixture;
     bp_txid_internal := hex_encode (vp_txid_internal validated);
     bp_payment_output_index := vp_payment_output_index validated;
     bp_paid_sats := vp_paid_sats validated;
     bp_containing_block_hash_internal := hex_encode (vp_containing_block_hash_internal validated);
     bp_containing_block_height := vp_containing_block_height validated;
     bp_sixth_confirmation_hash_internal := hex_encode (vp_sixth_confirmation_hash_internal validated);
     bp_sixth_confirmation_height := vp_sixth_confirmation_height validated;
     bp_sixth_confirmation_timestamp := vp_sixth_confirmation_timestamp validated |}.

(** The core of the header of block 1: no miner, no ticket, no proof. *)
Definition bootstrap_header_core (epoch : Z) (parent tx_root state_root target : bytes32) : bytes :=
  be_bytes 2 1 ++ be_bytes 4 DEVNET_NETWORK_ID ++ be_bytes 8 epoch ++ parent ++ tx_root ++ state_root
  ++ target ++ ZERO32 ++ be_bytes 2 0 ++ ZERO32.

(** The guards of [build_devnet_bootstrap_transition] before the fixture. *)
Definition check_pristine (state : DevnetState) : node_result unit :=
  if ds_format_version state <? 10
  then err "Build 5.4 explicit Bootstrap requires format_version 10 Genesis state"
  else if negb (ds_height state =? 0) || negb (ds_tip_epoch state =? 0)
          || negb (is_empty (ds_blocks state)) || negb (is_empty (ds_licenses state))
  then err "Build 5.4 Bootstrap may execute exactly once from pristine empty Genesis state"
  else if negb (is_empty (ds_consumed_bitcoin_payments state)) || negb (is_empty (ds_utxos state))
          || negb (is_empty (ds_mempool state)) || negb (is_empty (ds_pending_protocol_operations state))
  then err "Build 5.4 Bootstrap Genesis state is not pristine"
  else Ok tt.

Definition build_devnet_bootstrap_transition (state : DevnetState)
    : node_result (DevnetState * DevnetBootstrapFixtureV1 * bytes * list TransactionV1
                   * list ProtocolOperationV1) :=
  let? _ := check_pristine state in
  let? fixture := create_fixture state in
  if negb (bool_decide (ds_genesis_hash state = fx_genesis_id fixture))
     || negb (bool_decide (ds_tip_hash state = fx_genesis_id fixture))
  then err "Build 5.4 GenesisID does not match bootstrap reconciliation fixture"
  else if negb (bool_decide (ds_current_state_root state = fx_initial_state_root fixture))
  then err "Build 5.4 initial StateRoot does not match bootstrap reconciliation fixture"
  else
    let? manifest := bootstrap_manifest in
    let? anchor := anchor_headers in
    let? manifest_hash := map_err FromProtocol (BootstrapManifestV1_manifest_hash manifest) in
    let? raw_tx := build_bootstrap_payment_tx manifest_hash in
    let? proof := payment_proof raw_tx anchor in
    let? validated := map_err FromBitcoin
        (validate_payment proof manifest_hash DEVNET_BTC_TREASURY_SCRIPT DEVNET_BOOTSTRAP_PAYMENT_SATS) in
    let? parsed := map_err FromBitcoin (parse_transaction raw_tx) in
    let payment_id := bitcoin_payment_id (pt_txid_internal parsed) 0 in
    if negb (bool_decide (hex_encode payment_id = fx_bitcoin_payment_id fixture))
    then err "Build 5.4 Bootstrap BitcoinPaymentID mismatch"
    else
      let? commitment := ok_or FromHex (hex_decode (fx_bootstrap_commitment_bytes fixture)) in
      let bootstrap_op := {| po_op_type := OP_BOOTSTRAP_COMMITMENT; po_op_version := 1;
                             po_payload := commitment |} in
      if negb (bool_decide (to_hex (operation_id bootstrap_op) = fx_bootstrap_operation_id fixture))
      then err "Build 5.4 Bootstrap OperationID mismatch"
      else
        let operations := [bootstrap_op] in
        let? operation_root := map_err FromProtocol (protocol_operations_root operations) in
        let? parent := decode32 (ds_genesis_hash state) in
        let epoch := fx_bootstrap_issued_epoch fixture in
        let coinbase := bootstrap_coinbase epoch parent operation_root in
        let txs := [coinbase] in
        let? tx_root := ok_or (Msg "Build 5.4 bootstrap TransactionRoot missing"%string)
            (merkle_root [TransactionV1_leaf coinbase]) in
        if negb (bool_decide (to_hex tx_root
             = "0da6084cc54e164effb81a07fad784fc237272cae6726fe45902aa0124e7cc1b"%string))
        then Err (Msg ("Build 5.4 Block-1 TransactionRoot vector mismatch: "%string +:+ to_hex tx_root))
        else
          let? block_weight := block_body_weight txs operations in
          let? licenses := fold_result (bootstrap_license fixture payment_id) (ds_licenses state)
              (imap pair (combine (sm_licenses manifest) (fx_bootstrap_license_ids fixture))) in
          let next := state <| ds_tip_epoch := epoch |> <| ds_licenses := licenses |>
              <| ds_consumed_bitcoin_payments :=
                   sort_by (fun a b => String.leb (bp_payment_id a) (bp_payment_id b))
                     (ds_consumed_bitcoin_payments state ++ [bootstrap_payment fixture validated]) |> in
          let? next_state_root :=
              compute_state_root next [] 1 0 0 0 DIFFICULTY_Q32_ONE BASE_FEE_MIN_Q32 in
          if negb (bool_decide (hex_encode next_state_root
               = "dcdde138a84d2afafdad4fbc7a3c7a671aaef67b8698bcdcf74060d2932341ad"%string))
          then Err (Msg ("Build 5.4 Block-1 post-state vector mismatch: "%string
                         +:+ hex_encode next_state_root))
          else
            let? target := map_err FromConsensus
                (derive_target (authorized_capacity BOOTSTRAP_LICENSE_COUNT_V1) DIFFICULTY_Q32_ONE) in
            let header := bootstrap_header_core epoch parent tx_root next_state_root target
                          ++ replicate 64 Byte.x00 in
            let block_hash_hex := hex_encode (block_hash header) in
            if negb (bool_decide (block_hash_hex
                 = "6ccb8c9c732ef1df9298e1604ba01b5a8ae5ed9b49985593d705a142a081c766"%string))
            then Err (Msg ("Build 5.4 Block-1 hash vector mismatch: "%string +:+ block_hash_hex))
            else
              let block :=
                {| bk_height := 1; bk_epoch := epoch; bk_header := hex_encode header;
                   bk_transactions := map (fun tx => hex_encode (TransactionV1_encode_full tx)) txs;
                   bk_protocol_operations := map (fun op => hex_encode (ProtocolOperationV1_encode op))
                                               operations;
                   bk_block_hash := block_hash_hex; bk_parent_hash := hex_encode parent;
                   bk_miner_license_id := hex_encode ZERO32; bk_ticket_index := 0;
                   bk_argon2_proof := hex_encode ZERO32; bk_target := hex_encode target;
                   bk_reward_strikes := 0; bk_total_fees_strikes := 0;
                   bk_treasury_fee_share_strikes := 0; bk_block_weight := block_weight;
                   bk_transaction_root := to_hex tx_root; bk_state_root := hex_encode next_state_root;
                   bk_coinbase_txid := to_hex (TransactionV1_txid coinbase);
                   bk_transaction_ids := [] |} in
              let next := next <| ds_height := 1 |> <| ds_tip_hash := block_hash_hex |>
                  <| ds_tip_epoch := epoch |> <| ds_anchor_epoch := epoch |>
                  <| ds_anchor_license_id := hex_encode ZERO32 |> <| ds_anchor_ticket_index := 0 |>
                  <| ds_anchor_argon2_proof := hex_encode ZERO32 |> <| ds_total_issued_strikes := 0 |>
                  <| ds_difficulty_history_count := 0 |> <| ds_difficulty_history_bitmap := 0 |>
                  <| ds_difficulty_correction_q32 := DIFFICULTY_Q32_ONE |>
                  <| ds_base_fee_rate_q32 := BASE_FEE_MIN_Q32 |>
                  <| ds_current_state_root := hex_encode next_state_root |>
                  <| ds_blocks := ds_blocks next ++ [block] |> in
              Ok (next, fixture, header, txs, operations).

Definition apply_devnet_bootstrap_block (state : DevnetState)
    : node_result (DevnetState * DevnetBootstrapFixtureV1) :=
  let? (next, fixture, _, _, _) := build_devnet_bootstrap_transition state in
  Ok (next, fixture).

(** Returns the next state and the hash of block 1. *)
Definition validate_and_apply_devnet_block1 (state : DevnetState) (header : bytes)
    (txs : list TransactionV1) (operations : list ProtocolOperationV1)
    : node_result (DevnetState * string) :=
  let? (next, _, expected_header, expected_txs, expected_operations) :=
    build_devnet_bootstrap_transition state in
  if negb (bytes_eqb header expected_header) then err "Build 5.4 Bootstrap Block-1 header mismatch"
  else if negb (bool_decide (map TransactionV1_encode_full txs = map TransactionV1_encode_full expected_txs))
  then err "Build 5.4 Bootstrap Block-1 transaction body mismatch"
  else if negb (bool_decide (map ProtocolOperationV1_encode operations
                             = map ProtocolOperationV1_encode expected_operations))
  then err "Build 5.4 Bootstrap Block-1 protocol operation mismatch"
  else Ok (next, ds_tip_hash next).

(** ** What block 1 changes

    The transition starts from a state without value and issues none; it adds
    the licenses and the payment they were bought with. *)

Lemma create_fixture_epoch state fixture :
  create_fixture state = Ok fixture -> 0 <= fx_bootstrap_issued_epoch fixture.
Proof.
  unfold create_fixture. intros H. pass_checks H. apply Ok_inj in H as <-.
  cbn [fx_bootstrap_issued_epoch]. bool_to_prop. apply Z.div_pos; lia.
Qed.

Lemma check_pristine_ok state :
  check_pristine state = Ok tt ->
  ds_height state = 0 /\ ds_utxos state = [] /\ ds_blocks state = [] /\ ds_licenses state = [].
Proof.
  unfold check_pristine. intros Ep.
  destruct (ds_format_version state <? 10); [done|].
  destruct (_ || _ || _ || _) eqn:E1 in Ep; [done|].
  destruct (_ || _ || _ || _) eqn:E2 in Ep; [done|]. bool_to_prop.
  split_and!; [done|by destruct (ds_utxos state)|by destruct (ds_blocks state)|by destruct (ds_licenses state)].
Qed.

Lemma build_bootstrap_frame state next fixture header txs operations :
  build_devnet_bootstrap_transition state = Ok (next, fixture, header, txs, operations) ->
  ds_height state = 0 /\ ds_utxos state = [] /\ ds_blocks state = [] /\
  ds_height next = 1 /\ ds_utxos next = [] /\ ds_total_issued_strikes next = 0 /\
  0 <= ds_tip_epoch next /\
  ds_difficulty_history_count next = 0 /\ ds_difficulty_history_bitmap next = 0 /\
  ds_difficulty_correction_q32 next = DIFFICULTY_Q32_ONE /\
  ds_base_fee_rate_q32 next = BASE_FEE_MIN_Q32 /\
  ds_network_id next = ds_network_id state /\ ds_genesis_hash next = ds_genesis_hash state /\
  (exists block, ds_blocks next = [block] /\ ds_tip_hash next = bk_block_hash block) /\
  (exists root, current_root next = Ok root /\ ds_current_state_root next = hex_encode root).
Proof.
  unfold build_devnet_bootstrap_transition. intros H.
  destruct (check_pristine state) as [[]|] eqn:Ep; [|done].
  apply check_pristine_ok in Ep as (Hh & Hu & Hb & _).
  pass_checks H.
  match goal with E : create_fixture state = Ok _ |- _ => apply create_fixture_epoch in E end.
  apply Ok_inj in H. apply pair_inj in H as [[[[<- _]%pair_inj _]%pair_inj _]%pair_inj _].
  fields. rewrite Hb, Hu. do 13 (split; [first [done|assumption]|]). split.
  - eexists; split; reflexivity.
  - eexists; split; [|reflexivity].
    match goal with E : compute_state_root _ [] 1 0 0 0 _ _ = Ok _ |- _ => rewrite <- E end.
    unfold current_root. fields. rewrite Hu. reflexivity.
Qed.
End bootstrap.
