(* ===== verification/NodeEpoch.v ===== *)
(** Epoch transitions of the node state ([main.rs] and [blocksync.rs]): what
    happens to licenses, offenses, dividends and the difficulty window when an
    epoch passes, and the loops that pass many empty epochs. *)

From Stdlib Require Import Strings.Byte Strings.String.
From stdpp Require Import strings.
From S2P Require Import Prelude Crypto Codec Consensus Smt State Transaction Protocol ProtocolRules Collections NodeState Economy NodePresence NodePunishment NodeUtxo NodeDividends NodeRoots.

Definition activate (epoch : Z) (license : LicenseState) : LicenseState :=
  if (ls_status license =? LICENSE_STATUS_PENDING) && (ls_activation_epoch license <=? epoch)
  then license <| ls_status := LICENSE_STATUS_ACTIVE |> else license.

(** Returns the state and how many licenses were activated. *)
Definition apply_scheduled_license_transitions (state : DevnetState) (epoch : Z)
    : node_result (DevnetState * Z) :=
  let? state := expire_events state epoch in
  let activated := count_by (fun license => (ls_status license =? LICENSE_STATUS_PENDING)
                                            && (ls_activation_epoch license <=? epoch)) (ds_licenses state) in
  let state := state <| ds_licenses := map (activate epoch) (ds_licenses state) |> in
  let? (state, _) := process_epoch state epoch in
  Ok (state, activated).

Definition difficulty_observation_enabled (state : DevnetState) (epoch : Z) : bool :=
  if ds_height state =? 0 then false
  else if 10 <=? ds_format_version state then
    match list_min (map ls_activation_epoch (ds_licenses state)) with
    | Some first_activation => first_activation <=? epoch
    | None => false
    end
  else true.

(** What one epoch without a block does: the body that all four loops over
    empty epochs share, up to the state root. *)
Definition pass_empty_epoch (state : DevnetState) : node_result DevnetState :=
  let? (state, _) := apply_scheduled_license_transitions state (ds_tip_epoch state) in
  if difficulty_observation_enabled state (ds_tip_epoch state)
  then append_difficulty_result state false
  else Ok state.

Definition next_epoch (state : DevnetState) : DevnetState :=
  state <| ds_tip_epoch := ds_tip_epoch state + 1 |>.

(** [while state.tip_epoch < through_epoch { .. }]; every round raises the tip
    epoch by one, so [through_epoch - tip_epoch] rounds are enough. *)
Fixpoint empty_epochs_loop (fuel : nat) (through_epoch : Z) (state : DevnetState) : node_result DevnetState :=
  if ds_tip_epoch state <? through_epoch then
    match fuel with
    | O => err "unreachable"
    | S fuel =>
        let? state := pass_empty_epoch (next_epoch state) in
        empty_epochs_loop fuel through_epoch state
    end
  else Ok state.

Section epochs.
Context {SHA : Sha2}.

(** [blocksync::advance_empty_epochs] *)
Definition advance_empty_epochs (state : DevnetState) (through_epoch : Z) : node_result DevnetState :=
  if through_epoch <=? ds_tip_epoch state then Ok state
  else
    let? state := empty_epochs_loop (Z.to_nat (through_epoch - ds_tip_epoch state)) through_epoch state in
    refresh_current_state_root state.

(** [main.rs]: the command that skips epochs; [checked_add(1)] cannot fail
    below [through_epoch]. *)
Definition advance_empty_epochs_fast (state : DevnetState) (through_epoch : Z) : node_result DevnetState :=
  if ds_height state =? 0 then err "advance-empty requires at least one canonical block"
  else if through_epoch <=? ds_tip_epoch state
  then err "--to-epoch must be greater than the current local epoch"
  else
    let? state := empty_epochs_loop (Z.to_nat (through_epoch - ds_tip_epoch state)) through_epoch state in
    refresh_current_state_root state.

(** The loop of [mine_epoch_with_signer] on the development network, which
    recomputes the state root after every skipped epoch. *)
Fixpoint mine_skip_loop (fuel : nat) (epoch : Z) (state : DevnetState) : node_result DevnetState :=
  if saturating_add 64 (ds_tip_epoch state) 1 <? epoch then
    match fuel with
    | O => err "unreachable"
    | S fuel =>
        let? state := pass_empty_epoch
            (state <| ds_tip_epoch := saturating_add 64 (ds_tip_epoch state) 1 |>) in
        let? state := refresh_current_state_root state in
        mine_skip_loop fuel epoch state
    end
  else Ok state.

Definition mine_skip (state : DevnetState) (epoch : Z) : node_result DevnetState :=
  mine_skip_loop (Z.to_nat (epoch - ds_tip_epoch state)) epoch state.
End epochs.

(** ** The state root does not influence an epoch transition *)

Definition with_root (r : string) (s : DevnetState) : DevnetState := s <| ds_current_state_root := r |>.

Definition map_ok {E A B} (f : A -> B) (r : result E A) : result E B :=
  match r with Ok a => Ok (f a) | Err e => Err e end.

Lemma expire_events_root r s epoch :
  expire_events (with_root r s) epoch = map_ok (with_root r) (expire_events s epoch).
Proof. unfold expire_events, with_root. fields. by repeat case_match. Qed.

Lemma process_epoch_root r s epoch :
  process_epoch (with_root r s) epoch
  = map_ok (fun p => (with_root r (fst p), snd p)) (process_epoch s epoch).
Proof.
  unfold process_epoch.
  assert (first_step (with_root r s) epoch
          = map_ok (fun p => (with_root r (fst p), snd p)) (first_step s epoch)) as ->.
  { unfold first_step, with_root. fields. by repeat case_match. }
  destruct (first_step s epoch) as [[s1 n]|]; cbn [map_ok fst snd]; [|done].
  change (drop_stale_claims (with_root r s1) epoch) with (with_root r (drop_stale_claims s1 epoch)).
  destruct ((epoch =? 0) || _); [done|].
  generalize (drop_stale_claims s1 epoch). intros s2.
  assert (award (with_root r s2) epoch
          = map_ok (fun p => (with_root r (fst (fst p)), snd (fst p), snd p)) (award s2 epoch)) as ->.
  { unfold award, treasury_state, eligible_ids, with_root. fields. repeat case_match; simplify_eq/=; done. }
  by destruct (award s2 epoch) as [[[s3 a] b]|].
Qed.

Lemma pass_empty_epoch_root r s :
  pass_empty_epoch (with_root r s) = map_ok (with_root r) (pass_empty_epoch s).
Proof.
  unfold pass_empty_epoch, apply_scheduled_license_transitions.
  change (ds_tip_epoch (with_root r s)) with (ds_tip_epoch s).
  rewrite expire_events_root. destruct (expire_events s (ds_tip_epoch s)) as [s1|]; cbn [map_ok]; [|done].
  change (with_root r s1 <| ds_licenses := map (activate (ds_tip_epoch s)) (ds_licenses (with_root r s1)) |>)
    with (with_root r (s1 <| ds_licenses := map (activate (ds_tip_epoch s)) (ds_licenses s1) |>)).
  rewrite process_epoch_root. destruct (process_epoch _ _) as [[s2 x]|]; cbn [map_ok fst snd]; [|done].
  change (difficulty_observation_enabled (with_root r s2)) with (difficulty_observation_enabled s2).
  change (ds_tip_epoch (with_root r s2)) with (ds_tip_epoch s2).
  destruct (difficulty_observation_enabled _ _); [|done].
  unfold append_difficulty_result, with_root. fields. by repeat case_match.
Qed.

(** ** What an epoch transition leaves alone *)

Record same_chain (s s' : DevnetState) : Prop := {
  sc_format : ds_format_version s' = ds_format_version s;
  sc_network : ds_network_id s' = ds_network_id s;
  sc_genesis : ds_genesis_hash s' = ds_genesis_hash s;
  sc_height : ds_height s' = ds_height s;
  sc_tip : ds_tip_hash s' = ds_tip_hash s;
  sc_issued : ds_total_issued_strikes s' = ds_total_issued_strikes s;
  sc_rate : ds_base_fee_rate_q32 s' = ds_base_fee_rate_q32 s;
  sc_utxos : ds_utxos s' = ds_utxos s;
  sc_blocks : ds_blocks s' = ds_blocks s;
  sc_ids : map ls_license_id (ds_licenses s') = map ls_license_id (ds_licenses s);
  sc_native : ds_consumed_native_payments s' = ds_consumed_native_payments s;
  sc_bitcoin : ds_consumed_bitcoin_payments s' = ds_consumed_bitcoin_payments s;
  sc_evidence : ds_consumed_evidence s' = ds_consumed_evidence s;
  sc_historical : ds_historical_license_keys s' = ds_historical_license_keys s;
}.

#[export] Instance same_chain_refl : Reflexive same_chain.
Proof. intros s. by split. Qed.
#[export] Instance same_chain_trans : Transitive same_chain.
Proof. intros s1 s2 s3 [] []. split; congruence. Qed.

(** Field updates that [same_chain] does not see. *)
Ltac solve_same_chain := split; fields; done.

Lemma expire_license_id active l l' :
  expire_license active l = Ok l' -> ls_license_id l' = ls_license_id l.
Proof.
  unfold expire_license. destruct (_ =? _); [destruct (negb _); [done|congruence]|].
  destruct (_ <=? _); [done|]. intros <-%Ok_inj. by fields.
Qed.

Lemma map_result_map {E A B} (f : A -> result E A) (g : A -> B) l l' :
  (forall x y, f x = Ok y -> g y = g x) -> map_result f l = Ok l' -> map g l' = map g l.
Proof.
  intros Hf H%map_result_Forall2. induction H as [|x y l l' Hx _ IH]; [done|]. simpl.
  by rewrite IH, (Hf x y).
Qed.

Lemma expire_events_same s epoch s' :
  expire_events s epoch = Ok s' -> same_chain s s' /\ ds_tip_epoch s' = ds_tip_epoch s.
Proof.
  unfold expire_events. destruct (active_weights _) as [active|]; [|done].
  destruct (map_result _ _) as [ls|] eqn:E; [|done]. intros <-%Ok_inj.
  apply (map_result_map _ ls_license_id) in E; [|apply expire_license_id].
  split; [|by fields]. split; fields; done.
Qed.

Lemma process_epoch_same s epoch s' x :
  process_epoch s epoch = Ok (s', x) ->
  same_chain s s' /\ ds_tip_epoch s' = ds_tip_epoch s /\ ds_licenses s' = ds_licenses s /\
  ds_offense_events s' = ds_offense_events s.
Proof.
  unfold process_epoch, first_step, award. intros H. inv_ok;
    repeat match goal with H : (if ?b then _ else _) = Ok _ |- _ => destruct b; inv_ok end;
    try discriminate; (split; [solve_same_chain|by fields]).
Qed.

Lemma activate_ids epoch ls : map ls_license_id (map (activate epoch) ls) = map ls_license_id ls.
Proof.
  rewrite map_map. apply map_ext. intros l. unfold activate. destruct (_ && _); [by fields|done].
Qed.

Lemma transitions_same s epoch s' n :
  apply_scheduled_license_transitions s epoch = Ok (s', n) ->
  same_chain s s' /\ ds_tip_epoch s' = ds_tip_epoch s.
Proof.
  unfold apply_scheduled_license_transitions.
  destruct (expire_events s epoch) as [s1|] eqn:E1; [|done].
  destruct (process_epoch _ _) as [[s2 x]|] eqn:E2; [|done]. intros [<- <-]%Ok_inj%pair_inj.
  apply expire_events_same in E1 as [H1 Ht1]. apply process_epoch_same in E2 as (H2 & Ht2 & _).
  fields. split; [|congruence]. etrans; [exact H1|]. etrans; [|exact H2].
  split; fields; try done. apply activate_ids.
Qed.

Lemma pass_empty_epoch_same s s' :
  pass_empty_epoch s = Ok s' -> same_chain s s' /\ ds_tip_epoch s' = ds_tip_epoch s.
Proof.
  unfold pass_empty_epoch.
  destruct (apply_scheduled_license_transitions _ _) as [[s1 n]|] eqn:E1; [|done].
  apply transitions_same in E1 as [H1 Ht1].
  destruct (difficulty_observation_enabled _ _); [|by intros <-%Ok_inj].
  unfold append_difficulty_result. destruct (append_history_values _ _ _ _) as [[[c b] d]|]; [|done].
  intros <-%Ok_inj. fields. split; [|done]. etrans; [exact H1|]. solve_same_chain.
Qed.

Lemma empty_epochs_same fuel through s s' :
  ds_tip_epoch s <= through -> empty_epochs_loop fuel through s = Ok s' ->
  same_chain s s' /\ ds_tip_epoch s' = through.
Proof.
  revert s; induction fuel as [|fuel IH]; intros s Hle; cbn [empty_epochs_loop];
    destruct (Z.ltb_spec (ds_tip_epoch s) through); try done;
    try (intros <-%Ok_inj; split; [done|lia]).
  destruct (pass_empty_epoch (next_epoch s)) as [s1|] eqn:E; [|done].
  apply pass_empty_epoch_same in E as [H1 Ht]. unfold next_epoch in Ht. fields.
  intros [H2 Ht2]%IH; [|lia]. split; [|done].
  etrans; [|exact H2]. etrans; [|exact H1]. solve_same_chain.
Qed.

Section loops.
Context {SHA : Sha2}.

Lemma refresh_root s s' :
  refresh_current_state_root s = Ok s' ->
  exists root, current_root s = Ok root /\ s' = with_root (hex_encode root) s.
Proof.
  unfold refresh_current_state_root. destruct (current_root s) as [root|]; [|done].
  intros <-%Ok_inj. by exists root.
Qed.

Lemma advance_empty_epochs_same s through s' :
  advance_empty_epochs s through = Ok s' ->
  same_chain s s' /\ ds_tip_epoch s' = Z.max (ds_tip_epoch s) through.
Proof.
  unfold advance_empty_epochs. destruct (Z.leb_spec through (ds_tip_epoch s)).
  { intros <-%Ok_inj. split; [done|lia]. }
  destruct (empty_epochs_loop _ _ _) as [s1|] eqn:E; [|done].
  apply empty_epochs_same in E as [H1 Ht]; [|lia].
  intros (root & _ & ->)%refresh_root. unfold with_root. fields. split; [|lia].
  etrans; [exact H1|]. solve_same_chain.
Qed.

(** The root of a state does not depend on the root stored in it. *)
Lemma current_root_with_root r s : current_root (with_root r s) = current_root s.
Proof. done. Qed.

Lemma empty_epochs_loop_root fuel through r s :
  empty_epochs_loop fuel through (with_root r s) = map_ok (with_root r) (empty_epochs_loop fuel through s).
Proof.
  revert s; induction fuel as [|fuel IH]; intros s; cbn [empty_epochs_loop];
    change (ds_tip_epoch (with_root r s)) with (ds_tip_epoch s); destruct (_ <? through); try done.
  change (next_epoch (with_root r s)) with (with_root r (next_epoch s)).
  rewrite pass_empty_epoch_root.
  destruct (pass_empty_epoch (next_epoch s)) as [s1|]; cbn [map_ok]; [apply IH|done].
Qed.

(** The loop never runs out of fuel: with enough rounds it only fails where an
    epoch transition fails. *)
Lemma empty_epochs_loop_more fuel k through s :
  through - ds_tip_epoch s <= Z.of_nat fuel ->
  empty_epochs_loop (fuel + k) through s = empty_epochs_loop fuel through s.
Proof.
  revert s; induction fuel as [|fuel IH]; intros s Hf; cbn [empty_epochs_loop Nat.add].
  - destruct (Z.ltb_spec (ds_tip_epoch s) through); [lia|].
    destruct k; cbn [empty_epochs_loop]; destruct (Z.ltb_spec (ds_tip_epoch s) through); (done || lia).
  - destruct (_ <? through); [|done].
    destruct (pass_empty_epoch (next_epoch s)) as [s1|] eqn:E; [|done].
    apply pass_empty_epoch_same in E as [_ Ht]. unfold next_epoch in Ht. fields. apply IH. lia.
Qed.

Lemma mine_skip_loop_advance fuel epoch s s' :
  epoch <= 2 ^ 64 - 1 -> 0 <= ds_tip_epoch s ->
  epoch - ds_tip_epoch s <= Z.of_nat fuel ->
  mine_skip_loop fuel epoch s = Ok s' ->
  (epoch - 1 <= ds_tip_epoch s /\ s' = s) \/
  (ds_tip_epoch s < epoch - 1 /\ exists t root,
     empty_epochs_loop fuel (epoch - 1) s = Ok t /\ current_root t = Ok root /\
     s' = with_root (hex_encode root) t).
Proof.
  intros He. revert s; induction fuel as [|fuel IH]; intros s H0 Hf; cbn [mine_skip_loop empty_epochs_loop];
    unfold saturating_add at 1.
  - destruct (Z.ltb_spec (Z.min (ds_tip_epoch s + 1) (2 ^ 64 - 1)) epoch); [lia|].
    intros <-%Ok_inj. left. split; [lia|done].
  - destruct (Z.ltb_spec (Z.min (ds_tip_epoch s + 1) (2 ^ 64 - 1)) epoch).
    2: { intros <-%Ok_inj. left. split; [lia|done]. }
    destruct (Z.ltb_spec (ds_tip_epoch s) (epoch - 1)); [|lia].
    assert (saturating_add 64 (ds_tip_epoch s) 1 = ds_tip_epoch s + 1) as -> by (unfold saturating_add; lia).
    change (s <| ds_tip_epoch := ds_tip_epoch s + 1 |>) with (next_epoch s).
    destruct (pass_empty_epoch (next_epoch s)) as [s1|] eqn:E; [|done].
    pose proof (pass_empty_epoch_same _ _ E) as [_ Ht]. unfold next_epoch in Ht. fields.
    destruct (refresh_current_state_root s1) as [s2|] eqn:E2; [|done].
    apply refresh_root in E2 as (root & Hr & ->).
    intros Hm. right. split; [done|].
    apply IH in Hm; [|cbn [with_root]; unfold with_root; fields; lia..].
    change (ds_tip_epoch (with_root (hex_encode root) s1)) with (ds_tip_epoch s1) in Hm.
    destruct Hm as [[Hge ->]|(Hlt & t & root' & Hl & Hr' & ->)].
    + exists s1, root. split; [|done].
      destruct fuel; cbn [empty_epochs_loop];
        (destruct (Z.ltb_spec (ds_tip_epoch s1) (epoch - 1)); [lia|done]).
    + rewrite empty_epochs_loop_root in Hl.
      destruct (empty_epochs_loop fuel (epoch - 1) s1) as [t1|] eqn:E3; [|done].
      cbn [map_ok] in Hl. apply Ok_inj in Hl as <-. exists t1, root'. split; [done|].
      split; [exact Hr'|done].
Qed.

(** ** Invariants of an epoch transition

    An invariant that the steps of an epoch transition preserve holds after any
    number of empty epochs. *)
Section preserve.
Context (P : DevnetState -> Prop).

Record epoch_invariant : Prop := {
  ei_expire : forall s epoch s', expire_events s epoch = Ok s' -> P s -> P s';
  ei_activate : forall s epoch, P s -> P (s <| ds_licenses := map (activate epoch) (ds_licenses s) |>);
  ei_dividends : forall s epoch s' x, process_epoch s epoch = Ok (s', x) -> P s -> P s';
  ei_observe : forall s b s', append_difficulty_result s b = Ok s' -> P s -> P s';
  ei_tip : forall s epoch, P s -> P (s <| ds_tip_epoch := epoch |>);
  ei_root : forall s root, P s -> P (with_root root s);
}.

Context (HP : epoch_invariant).

Lemma transitions_preserve s epoch s' n :
  apply_scheduled_license_transitions s epoch = Ok (s', n) -> P s -> P s'.
Proof.
  unfold apply_scheduled_license_transitions. intros H Hs.
  destruct (expire_events s epoch) as [s1|] eqn:E1; [|done].
  destruct (process_epoch _ _) as [[s2 x]|] eqn:E2; [|done]. apply Ok_inj, pair_inj in H as [<- _].
  eapply (ei_dividends HP); [exact E2|]. apply (ei_activate HP). by eapply (ei_expire HP).
Qed.

Lemma pass_empty_epoch_preserve s s' : pass_empty_epoch s = Ok s' -> P s -> P s'.
Proof.
  unfold pass_empty_epoch. intros H Hs.
  destruct (apply_scheduled_license_transitions _ _) as [[s1 n]|] eqn:E1; [|done].
  apply transitions_preserve in E1; [|done].
  destruct (difficulty_observation_enabled _ _); [by eapply (ei_observe HP)|by apply Ok_inj in H as <-].
Qed.

Lemma empty_epochs_preserve fuel through s s' : empty_epochs_loop fuel through s = Ok s' -> P s -> P s'.
Proof.
  revert s; induction fuel as [|fuel IH]; intros s; cbn [empty_epochs_loop]; destruct (_ <? through); try done;
    try by intros <-%Ok_inj.
  destruct (pass_empty_epoch (next_epoch s)) as [s1|] eqn:E; [|done]. intros H Hs.
  eapply IH; [exact H|]. eapply pass_empty_epoch_preserve; [exact E|]. by apply (ei_tip HP).
Qed.

Lemma advance_preserve s through s' : advance_empty_epochs s through = Ok s' -> P s -> P s'.
Proof.
  unfold advance_empty_epochs. destruct (_ <=? _); [by intros <-%Ok_inj|].
  destruct (empty_epochs_loop _ _ _) as [s1|] eqn:E; [|done].
  intros (root & _ & ->)%refresh_root Hs. apply (ei_root HP). by eapply empty_epochs_preserve.
Qed.
End preserve.

Lemma mine_skip_advance epoch s s' :
  0 <= ds_tip_epoch s -> epoch <= 2 ^ 64 - 1 ->
  mine_skip s epoch = Ok s' ->
  advance_empty_epochs s (epoch - 1) = Ok s'.
Proof.
  intros H0 He H. unfold mine_skip in H.
  destruct (Z.le_gt_cases epoch (ds_tip_epoch s)) as [Hle|Hgt].
  { replace (Z.to_nat (epoch - ds_tip_epoch s)) with 0%nat in H by lia.
    cbn [mine_skip_loop] in H. unfold saturating_add in H.
    destruct (Z.ltb_spec (Z.min (ds_tip_epoch s + 1) (2 ^ 64 - 1)) epoch); [lia|].
    apply Ok_inj in H as ->. unfold advance_empty_epochs.
    by destruct (Z.leb_spec (epoch - 1) (ds_tip_epoch s')); [|lia]. }
  apply mine_skip_loop_advance in H; [|lia..].
  unfold advance_empty_epochs. destruct H as [[Hge ->]|(Hlt & t & root & Hl & Hr & ->)].
  - by destruct (Z.leb_spec (epoch - 1) (ds_tip_epoch s)); [|lia].
  - destruct (Z.leb_spec (epoch - 1) (ds_tip_epoch s)); [lia|].
    replace (Z.to_nat (epoch - ds_tip_epoch s))
      with (Z.to_nat (epoch - 1 - ds_tip_epoch s) + 1)%nat in Hl by lia.
    rewrite empty_epochs_loop_more in Hl by lia. rewrite Hl.
    unfold refresh_current_state_root. by rewrite Hr.
Qed.

(** Skipping empty epochs is the same transition for a miner and for a
    validator.  A miner that wants to mine at [epoch] passes the skipped epochs
    one by one and recomputes the state root after each; a validator that
    receives the block passes them in one loop and computes the root once at the
    end.  Whenever the miner's loop succeeds, the validator's does and both end
    in the same state (root included). *)
Theorem mine_skip_equivalent epoch s s' :
  0 <= ds_tip_epoch s -> epoch <= 2 ^ 64 - 1 ->
  mine_skip s epoch = Ok s' ->
  advance_empty_epochs s (epoch - 1) = Ok s'.
Proof. apply mine_skip_advance. Qed.
End loops.
