(* ===== verification/NodeMempool.v ===== *)
(** Transactions of a block ([mutiny-node/src/main.rs]): the validation loop
    that applies the ordinary transactions of a block to the unspent outputs,
    and the fee tickets that pay for authority operations. *)

From Stdlib Require Import Strings.Byte Strings.String.
From stdpp Require Import strings pretty.
From S2P Require Import Prelude Crypto Codec Smt State Transaction Protocol ProtocolRules Collections NodeState Economy NodePresence NodeUtxo NodeDividends.

Record ValidatedTx := {
  vt_pending : PendingTxState;
  vt_tx : TransactionV1;
  vt_fee : Z;
  vt_base_fee : Z;
}.

Section mempool.
Context {SHA : Sha2} {ED : Ed25519}.

Definition tx_error (txid before after : string) : NodeError := Msg (before +:+ txid +:+ after).

(** One round of the input loop of an ordinary transaction.  [input_index as
    u16] does not truncate: there are at most 1024 inputs. *)
Definition ordinary_input (utxos : list UtxoState) (txid : string) (id : bytes32) (height : Z)
    (acc : gset outpoint * Z * list outpoint) (iw : nat * (TxInput * WitnessV1))
    : node_result (gset outpoint * Z * list outpoint) :=
  let '(seen, input_sum, consumed) := acc in
  let '(input_index, (input, witness)) := iw in
  let? k := ok_or (Msg "ordinary transaction cannot contain coinbase input"%string) (input_outpoint input) in
  let? seen := insert_new (tx_error txid "transaction " " duplicates an input") k seen in
  let? utxo := ok_or (tx_error txid "transaction " " references missing UTXO") (find_utxo utxos k) in
  if negb (spendable_at_height utxo height)
  then Err (tx_error txid "transaction " " spends immature coinbase")
  else if negb (us_output_type utxo =? OUTPUT_PUBKEY_HASH)
  then Err (Msg ("Integrated V1 send path cannot spend output type "%string +:+ pretty (us_output_type utxo)))
  else
    let? address := decode32 (us_payload utxo) in
    let? prevout := UtxoState_prevout utxo in
    let digest := sighash_all id (Z.of_nat input_index) prevout in
    let? _ := map_err FromTx (verify_pubkey_hash_witness address digest witness) in
    let? input_sum := ok_or (Msg "input sum overflow"%string)
        (checked_add 128 input_sum (us_amount_strikes utxo)) in
    Ok (seen, input_sum, consumed ++ [k]).

Definition ordinary_output (txid : string) (output_sum : Z) (output : TxOutput) : node_result Z :=
  if to_amount_strikes output =? 0
  then Err (tx_error txid "transaction " " contains zero-value output")
  else
    let? _ :=
      if to_output_type output =? OUTPUT_PUBKEY_HASH then
        if negb (length (to_payload output) =? 32)%nat
        then Err (tx_error txid "transaction " " has invalid address payload") else Ok tt
      else if to_output_type output =? OUTPUT_LICENSE_PAYMENT then
        if negb (length (to_payload output) =? 32)%nat
        then Err (tx_error txid "transaction " " has invalid LICENSE_PAYMENT manifest hash") else Ok tt
      else Err (Msg ("Integrated Build 5.0 ordinary transaction output type unsupported: "%string
                     +:+ pretty (to_output_type output))) in
    ok_or (Msg "output sum overflow"%string) (checked_add 128 output_sum (to_amount_strikes output)).

(** The part of the loop body for a transaction that no claim refers to. *)
Definition apply_ordinary (state : DevnetState) (pending : PendingTxState) (tx : TransactionV1)
    (working_utxos : list UtxoState) (epoch height : Z) : node_result (list UtxoState * ValidatedTx) :=
  let txid := pd_txid pending in
  let? (_, input_sum, consumed) :=
    fold_result (ordinary_input working_utxos txid (TransactionV1_txid tx) height) (∅, 0, [])
      (imap pair (combine (tc_inputs (tx_core tx)) (tx_witnesses tx))) in
  let? output_sum := fold_result (ordinary_output txid) 0 (tc_outputs (tx_core tx)) in
  if input_sum <? output_sum then Err (tx_error txid "transaction " " creates value")
  else
    let fee_u128 := input_sum - output_sum in
    let? fee := ok_or (Msg "fee overflow"%string) (try_from 64 fee_u128) in
    let? base_fee := map_err FromTx
        (required_base_fee (ds_base_fee_rate_q32 state) (TransactionV1_serialized_len tx)) in
    if fee <? base_fee
    then Err (Msg ("transaction "%string +:+ txid +:+ " underpays Base Fee: "%string +:+ pretty fee
                   +:+ " < "%string +:+ pretty base_fee))
    else
      let? working_utxos := remove_consumed (Msg "UTXO disappeared during block application"%string)
          working_utxos consumed in
      let? working_utxos := add_outputs_as_utxos working_utxos tx epoch height false in
      Ok (working_utxos, {| vt_pending := pending; vt_tx := tx; vt_fee := fee; vt_base_fee := base_fee |}).

(** The body of the loop over the mempool. *)
Definition apply_pending (state : DevnetState) (epoch height : Z) (operations : list ProtocolOperationV1)
    (acc : list UtxoState * list ValidatedTx) (pending : PendingTxState)
    : node_result (list UtxoState * list ValidatedTx) :=
  let '(working_utxos, out) := acc in
  let txid := pd_txid pending in
  let? tx := to_transaction_for_network pending (ds_network_id state) in
  let core := tx_core tx in
  if negb (bool_decide (to_hex (TransactionV1_txid tx) = txid))
     || negb (bool_decide (to_hex (TransactionV1_wtxid tx) = pd_wtxid pending))
  then Err (tx_error txid "mempool transaction " " ID mismatch")
  else if negb (tc_version core =? 1) || negb (tc_network_id core =? ds_network_id state)
  then Err (tx_error txid "transaction " " has wrong version/network")
  else if (epoch <? tc_valid_from_epoch core)
          || (negb (tc_expiry_epoch core =? 0) && (tc_expiry_epoch core <? epoch))
  then Err (tx_error txid "transaction " " is outside its epoch validity window")
  else if (length (tc_inputs core) =? 0)%nat || (length (tc_outputs core) =? 0)%nat
          || (1024 <? length (tc_inputs core))%nat || (1024 <? length (tc_outputs core))%nat
  then Err (tx_error txid "transaction " " has invalid input/output count")
  else if negb (length (tx_witnesses tx) =? length (tc_inputs core))%nat
  then Err (tx_error txid "transaction " " witness count mismatch")
  else
    let? claim := claim_operation_for_tx operations (TransactionV1_txid tx) in
    match claim with
    | Some op =>
        let? working_utxos := validate_and_apply_payment state working_utxos tx op epoch height in
        Ok (working_utxos, out ++ [{| vt_pending := pending; vt_tx := tx; vt_fee := 0; vt_base_fee := 0 |}])
    | None =>
        let? (working_utxos, validated) := apply_ordinary state pending tx working_utxos epoch height in
        Ok (working_utxos, out ++ [validated])
    end.

Definition validate_and_apply_mempool (state : DevnetState) (working_utxos : list UtxoState)
    (epoch height : Z) (operations : list ProtocolOperationV1)
    : node_result (list UtxoState * list ValidatedTx) :=
  fold_result (apply_pending state epoch height operations) (working_utxos, []) (ds_mempool state).

(** ** Authority fee tickets *)

Definition authority_fee_ticket_matches (state : DevnetState) (tx : TransactionV1) (license_index : nat) : bool :=
  match ds_licenses state !! license_index with
  | None => false
  | Some license =>
      match decode32 (ls_license_id license), decode32 (ls_payment_address_id license) with
      | Ok license_id, Ok address =>
          let core := tx_core tx in
          match tc_inputs core, tc_outputs core with
          | _ :: _, first :: _ =>
              (to_output_type first =? OUTPUT_PUBKEY_HASH)
              && (to_amount_strikes first =? authority_fee_marker license_id)
              && bytes_eqb (to_payload first) address
              && negb (existsb (fun o => negb (to_output_type o =? OUTPUT_PUBKEY_HASH)
                                         || negb (bytes_eqb (to_payload o) address)) (tc_outputs core))
              && forallb (fun input =>
                   match input_outpoint input with
                   | None => false
                   | Some k =>
                       match find_utxo (ds_utxos state) k with
                       | None => false
                       | Some u => (us_output_type u =? OUTPUT_PUBKEY_HASH)
                                   && bool_decide (us_payload u = ls_payment_address_id license)
                       end
                   end) (tc_inputs core)
          | _, _ => false
          end
      | _, _ => false
      end
  end.

Definition authority_fee_ticket_license_index (state : DevnetState) (tx : TransactionV1) : option nat :=
  match List.filter (authority_fee_ticket_matches state tx) (seq 0 (length (ds_licenses state))) with
  | [only] => Some only
  | _ => None
  end.
End mempool.

(** ** The abstract ledger

    Abstractly a block moves value by two kinds of steps.  An ordinary step
    takes outputs [us] out of the set, each by a signature of the key its
    address names over this very spend, and puts the outputs of the transaction
    in, keeping the fee.  A dividend step is paid from treasury outputs, keeps
    no fee, and pays exactly what a claim operation of the block says. *)

Section ledger.
Context {SHA : Sha2} {ED : Ed25519}.

(** The witness carries a key of the output's address and a signature under it
    of the digest of this input. *)
Definition owner_signed (tx : TransactionV1) (i : nat) (u : UtxoState) (w : WitnessV1) : Prop :=
  exists pk sig prevout,
    w_witness_type w = WITNESS_PUBKEY_HASH /\ w_payload w = pk ++ sig /\ is32 pk /\ is64 sig /\
    decode32 (us_payload u) = Ok (address_id pk) /\ UtxoState_prevout u = Ok prevout /\
    vk_verify pk (sighash_all (TransactionV1_txid tx) (Z.of_nat i) prevout) sig = true.

Definition spends (tx : TransactionV1) (height : Z) (iw : nat * (TxInput * WitnessV1)) (u : UtxoState) : Prop :=
  let '(i, (input, witness)) := iw in
  input_outpoint input = Some (utxo_key_of u) /\ spendable_at_height u height = true /\
  us_output_type u = OUTPUT_PUBKEY_HASH /\ owner_signed tx i u witness.

Definition output_ok (o : TxOutput) : Prop :=
  to_amount_strikes o <> 0 /\ length (to_payload o) = 32%nat /\
  (to_output_type o = OUTPUT_PUBKEY_HASH \/ to_output_type o = OUTPUT_LICENSE_PAYMENT).

Definition pays_from_treasury (opid : bytes32) (height : Z) (iw : TxInput * WitnessV1) (u : UtxoState) : Prop :=
  let '(input, witness) := iw in
  input_outpoint input = Some (utxo_key_of u) /\ spendable_at_height u height = true /\
  is_treasury u = true /\ witness = WitnessV1_protocol_auth opid.

(** What remains of [total] after the claim, if anything, goes back. *)
Definition claim_outputs (network_id : Z) (claim : DividendClaimV1) (total : Z) : list TxOutput :=
  {| to_amount_strikes := dc_amount_strikes claim; to_output_type := OUTPUT_PUBKEY_HASH;
     to_payload := dc_destination_address_id claim |}
  :: (if total =? dc_amount_strikes claim then []
      else [{| to_amount_strikes := total - dc_amount_strikes claim; to_output_type := OUTPUT_TREASURY;
               to_payload := treasury_id_for_network network_id |}]).

Definition created (tx : TransactionV1) (epoch height : Z) (coinbase : bool) : list UtxoState :=
  new_utxos (to_hex (TransactionV1_txid tx)) epoch height coinbase 0 (tc_outputs (tx_core tx)).

Section step.
Context (network_id rate epoch height : Z) (operations : list ProtocolOperationV1).

Inductive ledger_step : list UtxoState -> TransactionV1 -> Z -> list UtxoState -> Prop :=
| ordinary_step w us rest tx fee base_fee :
    w ≡ₚ us ++ rest ->
    NoDup (map utxo_key_of us) ->
    Forall2 (spends tx height) (imap pair (combine (tc_inputs (tx_core tx)) (tx_witnesses tx))) us ->
    Forall output_ok (tc_outputs (tx_core tx)) ->
    utxo_total us = output_total (tc_outputs (tx_core tx)) + fee ->
    required_base_fee rate (TransactionV1_serialized_len tx) = Ok base_fee ->
    base_fee <= fee ->
    ledger_step w tx fee (rest ++ created tx epoch height false)
| dividend_step w us rest tx op claim :
    op ∈ operations ->
    decode_claim_operation op = Ok claim ->
    dc_payment_txid claim = TransactionV1_txid tx ->
    w ≡ₚ us ++ rest ->
    NoDup (map utxo_key_of us) ->
    Forall2 (pays_from_treasury (operation_id op) height) (combine (tc_inputs (tx_core tx)) (tx_witnesses tx)) us ->
    tc_outputs (tx_core tx) = claim_outputs network_id claim (utxo_total us) ->
    dc_amount_strikes claim <= utxo_total us ->
    ledger_step w tx 0 (rest ++ created tx epoch height false).

Inductive ledger_run : list UtxoState -> list (TransactionV1 * Z) -> list UtxoState -> Prop :=
| run_nil w : ledger_run w [] w
| run_cons w tx fee w1 txs w' :
    ledger_step w tx fee w1 -> ledger_run w1 txs w' -> ledger_run w ((tx, fee) :: txs) w'.

Lemma created_total tx coinbase :
  utxo_total (created tx epoch height coinbase) = output_total (tc_outputs (tx_core tx)).
Proof. apply new_utxos_total. Qed.

Lemma claim_outputs_total claim total : output_total (claim_outputs network_id claim total) = total.
Proof.
  unfold claim_outputs, output_total. destruct (Z.eqb_spec total (dc_amount_strikes claim)); simpl; lia.
Qed.

(** Every step keeps the value, up to the fee. *)
Lemma ledger_step_total w tx fee w' : ledger_step w tx fee w' -> utxo_total w = utxo_total w' + fee.
Proof.
  intros [w0 us rest tx0 fee0 base Hp _ _ _ Hsum _ _|w0 us rest tx0 op claim _ _ _ Hp _ _ Ho _].
  - unfold utxo_total in *. rewrite Hp, !sum_of_app. pose proof (created_total tx0 false) as Hc.
    unfold utxo_total in Hc. lia.
  - unfold utxo_total in *. rewrite Hp, !sum_of_app. pose proof (created_total tx0 false) as Hc.
    unfold utxo_total in Hc. rewrite Hc, Ho, claim_outputs_total. unfold utxo_total. lia.
Qed.

Lemma ledger_run_total w txs w' : ledger_run w txs w' -> utxo_total w = utxo_total w' + sum_of snd txs.
Proof.
  induction 1 as [w|w tx fee w1 txs w' Hs _ IH]; [simpl; lia|].
  apply ledger_step_total in Hs. rewrite sum_of_cons. simpl. lia.
Qed.

Lemma ledger_run_app w txs w1 tx fee w' :
  ledger_run w txs w1 -> ledger_step w1 tx fee w' -> ledger_run w (txs ++ [(tx, fee)]) w'.
Proof.
  induction 1 as [w|w tx0 fee0 w1 txs w2 Hs _ IH]; intros H; simpl; econstructor; eauto. constructor.
Qed.
End step.

(** ** The loops implement the steps *)

Lemma witness_owner address digest w :
  verify_pubkey_hash_witness address digest w = Ok tt ->
  exists pk sig, w_witness_type w = WITNESS_PUBKEY_HASH /\ w_payload w = pk ++ sig /\ is32 pk /\ is64 sig /\
    address_id pk = address /\ vk_verify pk digest sig = true.
Proof.
  unfold verify_pubkey_hash_witness. destruct (_ || _) eqn:E1; [done|].
  destruct (negb (bytes_eqb _ _)) eqn:E2; [done|]. destruct (negb (vk_from_bytes _)); [done|].
  destruct (vk_verify _ _ _) eqn:E3; [|done]. intros _. bool_to_prop.
  exists (take 32 (w_payload w)), (drop 32 (w_payload w)). rewrite take_drop. split_and!; try done; len.
Qed.

Lemma insert_new_ok {K} `{Countable K} e (x : K) s s' :
  insert_new e x s = Ok s' -> x ∉ s /\ s' = {[x]} ∪ s.
Proof. unfold insert_new. case_bool_decide; [done|]. by intros <-%Ok_inj. Qed.

(** Found outputs are determined by their keys. *)
Lemma found_unique utxos ks us vs :
  Forall2 (fun k u => find_utxo utxos k = Some u) ks us ->
  Forall2 (fun k u => find_utxo utxos k = Some u) ks vs -> us = vs.
Proof.
  intros H. revert vs; induction H as [|k u ks us Hk _ IH]; intros vs Hv.
  { by apply Forall2_nil_inv_l in Hv as ->. }
  apply Forall2_cons_inv_l in Hv as (v & vs' & Hk' & Hv & ->). rewrite Hk in Hk'.
  injection Hk' as ->. f_equal. by apply IH.
Qed.

Lemma found_keys utxos ks us :
  Forall2 (fun k u => find_utxo utxos k = Some u) ks us -> ks = map utxo_key_of us.
Proof.
  induction 1 as [|k u ks us Hk _ IH]; [done|]. simpl. by rewrite IH, (find_utxo_key _ _ _ Hk).
Qed.

(** The shape that both input loops share: a loop body that accepts an input by
    inserting its key, finding its output and checking [Q]. *)
Section input_loop.
Context {I : Type} (utxos : list UtxoState) (Q : I -> UtxoState -> Prop).
Context (body : gset outpoint * Z * list outpoint -> I -> node_result (gset outpoint * Z * list outpoint)).
Context (body_ok : forall seen sum consumed i acc,
  body (seen, sum, consumed) i = Ok acc ->
  exists k u, k ∉ seen /\ find_utxo utxos k = Some u /\ Q i u /\
    acc = ({[k]} ∪ seen, sum + us_amount_strikes u, consumed ++ [k])).

Lemma input_loop_gen l seen sum consumed seen' sum' consumed' vs :
  Forall2 (fun k u => find_utxo utxos k = Some u) consumed vs ->
  inputs_inv utxos seen sum consumed ->
  fold_result body (seen, sum, consumed) l = Ok (seen', sum', consumed') ->
  inputs_inv utxos seen' sum' consumed' /\ exists us, Forall2 Q l us /\
    Forall2 (fun k u => find_utxo utxos k = Some u) consumed' (vs ++ us).
Proof.
  revert seen sum consumed vs; induction l as [|i l IH]; intros seen sum consumed vs Hf Hinv; cbn [fold_result].
  { intros [[<- <-]%pair_inj <-]%Ok_inj%pair_inj. split; [done|]. exists []. rewrite app_nil_r. done. }
  destruct (body (seen, sum, consumed) i) as [acc|] eqn:E; [|done].
  apply body_ok in E as (k & u & Hk & Hu & HQ & ->). intros H.
  apply (IH _ _ _ (vs ++ [u])) in H.
  - destruct H as (Hinv' & us & HF & Hc). split; [done|]. exists (u :: us). split; [by constructor|].
    by rewrite <- app_assoc in Hc.
  - apply Forall2_app; [done|]. by constructor.
  - by apply inputs_inv_push.
Qed.

(** What the loop accepted can be removed: the outputs [us] satisfy [Q], are
    pairwise different, add up to the sum, and removing them leaves [rest]. *)
Lemma input_loop_spec e l seen sum consumed :
  fold_result body (∅, 0, []) l = Ok (seen, sum, consumed) ->
  exists us rest, Forall2 Q l us /\ remove_consumed e utxos consumed = Ok rest /\
    utxos ≡ₚ us ++ rest /\ NoDup (map utxo_key_of us) /\ sum = utxo_total us.
Proof.
  intros H. apply (input_loop_gen _ _ _ _ _ _ _ []) in H as (Hinv & us & HF & Hc);
    [|constructor|apply inputs_inv_nil]. cbn [app] in Hc.
  destruct (inputs_inv_spend e _ _ _ _ Hinv) as (us' & rest & Hr & Hp & Hf & Hsum & _).
  rewrite (found_unique _ _ _ _ Hf Hc) in *. exists us, rest. split_and!; try done.
  rewrite <- (found_keys _ _ _ Hc). apply Hinv.
Qed.
End input_loop.

Lemma ordinary_input_ok utxos txid tx height seen sum consumed iw acc :
  ordinary_input utxos txid (TransactionV1_txid tx) height (seen, sum, consumed) iw = Ok acc ->
  exists k u, k ∉ seen /\ find_utxo utxos k = Some u /\ spends tx height iw u /\
    acc = ({[k]} ∪ seen, sum + us_amount_strikes u, consumed ++ [k]).
Proof.
  destruct iw as [i [input witness]]. unfold ordinary_input.
  destruct (input_outpoint input) as [k|] eqn:Ek; cbn [ok_or]; [|done].
  destruct (insert_new _ k seen) as [seen1|] eqn:Ei; [|done]. apply insert_new_ok in Ei as [Hk ->].
  destruct (find_utxo utxos k) as [u|] eqn:Eu; cbn [ok_or]; [|done].
  destruct (negb (spendable_at_height u height)) eqn:Es; [done|].
  destruct (negb (us_output_type u =? OUTPUT_PUBKEY_HASH)) eqn:Et; [done|].
  destruct (decode32 (us_payload u)) as [address|] eqn:Ea; [|done].
  destruct (UtxoState_prevout u) as [prevout|] eqn:Ep; [|done].
  destruct (verify_pubkey_hash_witness _ _ witness) as [[]|] eqn:Ev; cbn [map_err]; [|done].
  destruct (checked_add 128 sum _) as [sum'|] eqn:Ec; cbn [ok_or]; [|done].
  apply checked_add_Some in Ec as [-> _]. intros <-%Ok_inj. bool_to_prop.
  exists k, u. split_and!; try done. unfold spends.
  rewrite (find_utxo_key _ _ _ Eu). split_and!; try done.
  apply witness_owner in Ev as (pk & sig & H1 & H2 & H3 & H4 & H5 & H6).
  exists pk, sig, prevout. rewrite H5. split_and!; done.
Qed.

Lemma treasury_input_ok utxos opid height seen sum consumed iw acc :
  treasury_input utxos opid height (seen, sum, consumed) iw = Ok acc ->
  exists k u, k ∉ seen /\ find_utxo utxos k = Some u /\ pays_from_treasury opid height iw u /\
    acc = ({[k]} ∪ seen, sum + us_amount_strikes u, consumed ++ [k]).
Proof.
  destruct iw as [input witness]. unfold treasury_input.
  destruct (input_outpoint input) as [k|] eqn:Ek; cbn [ok_or]; [|done].
  destruct (insert_new _ k seen) as [seen1|] eqn:Ei; [|done]. apply insert_new_ok in Ei as [Hk ->].
  destruct (find_utxo utxos k) as [u|] eqn:Eu; cbn [ok_or]; [|done].
  destruct (negb (is_treasury u)) eqn:Et; [done|].
  destruct (negb (spendable_at_height u height)) eqn:Es; [done|].
  destruct (negb (w_witness_type witness =? WITNESS_PROTOCOL_AUTH) || _) eqn:Ew; [done|].
  destruct (checked_add 64 sum _) as [sum'|] eqn:Ec; cbn [ok_or]; [|done].
  apply checked_add_Some in Ec as [-> _]. intros <-%Ok_inj. bool_to_prop.
  exists k, u. split_and!; try done. unfold pays_from_treasury.
  rewrite (find_utxo_key _ _ _ Eu). split_and!; try done.
  destruct witness; unfold WitnessV1_protocol_auth; cbn in *; congruence.
Qed.

Lemma ordinary_outputs_ok txid outputs n m :
  fold_result (ordinary_output txid) n outputs = Ok m ->
  m = n + output_total outputs /\ Forall output_ok outputs.
Proof.
  revert n; induction outputs as [|o outputs IH]; intros n; cbn [fold_result].
  { intros <-%Ok_inj. split; [unfold output_total; simpl; lia|constructor]. }
  destruct (ordinary_output txid n o) as [n1|] eqn:E; [|done]. intros [-> HF]%IH.
  unfold ordinary_output in E. destruct (Z.eqb_spec (to_amount_strikes o) 0); [done|].
  assert (n1 = n + to_amount_strikes o /\ output_ok o) as [-> Ho].
  { unfold output_ok.
    destruct (Z.eqb_spec (to_output_type o) OUTPUT_PUBKEY_HASH);
      [|destruct (Z.eqb_spec (to_output_type o) OUTPUT_LICENSE_PAYMENT); [|done]];
      (destruct (negb (length (to_payload o) =? 32)%nat) eqn:El; [done|]; bool_to_prop;
       destruct (checked_add 128 n _) eqn:Ec; cbn [ok_or] in E; [|done];
       apply checked_add_Some in Ec as [-> _]; apply Ok_inj in E as <-; auto). }
  split; [|by constructor]. unfold output_total. rewrite sum_of_cons. lia.
Qed.

(** The Base Fee a validated transaction was charged: none for a dividend
    payment, [required_base_fee] of its size otherwise. *)
Definition charged (rate : Z) (v : ValidatedTx) : Prop :=
  (vt_base_fee v = 0 \/ required_base_fee rate (TransactionV1_serialized_len (vt_tx v)) = Ok (vt_base_fee v)) /\
  vt_base_fee v <= vt_fee v.

Lemma apply_ordinary_refines state pending tx w epoch height operations w' v :
  apply_ordinary state pending tx w epoch height = Ok (w', v) ->
  vt_pending v = pending /\ vt_tx v = tx /\ charged (ds_base_fee_rate_q32 state) v /\
  ledger_step (ds_network_id state) (ds_base_fee_rate_q32 state) epoch height operations w tx (vt_fee v) w'.
Proof.
  unfold apply_ordinary.
  destruct (fold_result _ _ (imap pair _)) as [[[seen sum] consumed]|] eqn:Ein; [|done].
  apply (input_loop_spec w (spends tx height) _ (ordinary_input_ok w (pd_txid pending) tx height)
           (Msg "UTXO disappeared during block application"%string)) in Ein
    as (us & rest & HF & Hr & Hp & Hn & ->).
  destruct (fold_result _ 0 _) as [outs|] eqn:Eout; [|done].
  apply ordinary_outputs_ok in Eout as [-> Ho]. rewrite Z.add_0_l.
  destruct (Z.ltb_spec (utxo_total us) (output_total (tc_outputs (tx_core tx)))); [done|].
  destruct (try_from 64 _) as [fee|] eqn:Ef; cbn [ok_or]; [|done].
  unfold try_from in Ef. destruct (_ <? 2 ^ 64); [|done]. apply Some_inj in Ef as <-.
  destruct (required_base_fee _ _) as [base_fee|] eqn:Eb; cbn [map_err]; [|done].
  destruct (Z.ltb_spec (utxo_total us - output_total (tc_outputs (tx_core tx))) base_fee); [done|].
  rewrite Hr. destruct (add_outputs_as_utxos _ _ _ _ _) as [w1|] eqn:Ea; [|done].
  intros [<- <-]%Ok_inj%pair_inj. unfold charged. cbn [vt_pending vt_tx vt_fee vt_base_fee].
  split_and!; try done; [by right|].
  apply push_outputs_ok in Ea as ->. eapply ordinary_step; try done. lia.
Qed.

Lemma payment_outputs_ok network_id claim total outputs :
  check_payment_outputs network_id claim total outputs = Ok tt ->
  outputs = claim_outputs network_id claim total /\ dc_amount_strikes claim <= total.
Proof.
  unfold check_payment_outputs, claim_outputs.
  destruct outputs as [|[a ty p] rest]; [done|]. cbn [to_amount_strikes to_output_type to_payload].
  destruct (_ || _) eqn:E1; [done|]. bool_to_prop. subst.
  destruct (Z.ltb_spec total (dc_amount_strikes claim)); [done|].
  destruct (Z.eqb_spec (total - dc_amount_strikes claim) 0), (Z.eqb_spec total (dc_amount_strikes claim));
    try lia; destruct rest as [|[a' ty' p'] [|]]; try done.
  cbn [to_amount_strikes to_output_type to_payload].
  destruct (_ || _) eqn:E2; [done|]. intros _. bool_to_prop. by subst.
Qed.

Lemma payment_refines state tx op w epoch height operations w' :
  op ∈ operations ->
  validate_and_apply_payment state w tx op epoch height = Ok w' ->
  ledger_step (ds_network_id state) (ds_base_fee_rate_q32 state) epoch height operations w tx 0 w'.
Proof.
  intros Hop. unfold validate_and_apply_payment.
  destruct (decode_claim_operation op) as [claim|] eqn:Ec; [|done].
  destruct (negb (bytes_eqb _ _)) eqn:Et; [done|]. bool_to_prop.
  destruct (_ || _); [done|]. destruct (_ || _); [done|]. destruct (_ || _); [done|].
  destruct (negb _); [done|].
  destruct (fold_result _ _ _) as [[[seen sum] consumed]|] eqn:Ein; [|done].
  apply (input_loop_spec w (pays_from_treasury (operation_id op) height) _ (treasury_input_ok w _ height)
           (Msg "Treasury UTXO disappeared during dividend payment"%string)) in Ein
    as (us & rest & HF & Hr & Hp & Hn & ->).
  destruct (check_payment_outputs _ _ _ _) as [[]|] eqn:Eo; [|done].
  apply payment_outputs_ok in Eo as [Ho Hle].
  destruct (try_sum _ _ _ _); [|done]. destruct (negb _); [done|].
  rewrite Hr. intros ->%push_outputs_ok. eapply dividend_step; try done.
Qed.

Lemma claim_operation_elem operations txid op :
  claim_operation_for_tx operations txid = Ok (Some op) -> op ∈ operations.
Proof.
  unfold claim_operation_for_tx. intros H.
  assert (forall o, Some op = Some o -> o ∈ operations) as Hf; [|by apply Hf]. revert H.
  apply (fold_result_ind _ (fun found => forall o, found = Some o -> o ∈ operations)); [|done].
  intros found x found' Hx IH. destruct (decode_claim_operation x); [|done].
  destruct (bytes_eqb _ _); [|by intros <-%Ok_inj].
  destruct found; [done|]. intros <-%Ok_inj o [= <-].
  apply list_elem_of_In, List.filter_In in Hx as [Hx _]. by apply list_elem_of_In.
Qed.

Lemma apply_pending_refines state epoch height operations w out pending w' out' :
  apply_pending state epoch height operations (w, out) pending = Ok (w', out') ->
  exists v, out' = out ++ [v] /\ vt_pending v = pending /\ charged (ds_base_fee_rate_q32 state) v /\
    to_transaction_for_network pending (ds_network_id state) = Ok (vt_tx v) /\
    to_hex (TransactionV1_txid (vt_tx v)) = pd_txid pending /\
    ledger_step (ds_network_id state) (ds_base_fee_rate_q32 state) epoch height operations
      w (vt_tx v) (vt_fee v) w'.
Proof.
  unfold apply_pending.
  destruct (to_transaction_for_network _ _) as [tx|] eqn:Et; [|done].
  destruct (_ || _) eqn:Eid; [done|]. apply orb_false_iff in Eid as [Eid _].
  apply negb_false_iff, bool_decide_eq_true in Eid.
  destruct (_ || _); [done|]. destruct (_ || _); [done|]. destruct (_ || _); [done|].
  destruct (negb _); [done|].
  destruct (claim_operation_for_tx _ _) as [[op|]|] eqn:Ec; [| |done].
  - apply claim_operation_elem in Ec.
    destruct (validate_and_apply_payment _ _ _ _ _ _) as [w1|] eqn:Ep; [|done].
    intros [<- <-]%Ok_inj%pair_inj. eexists. split; [reflexivity|].
    unfold charged. cbn [vt_pending vt_tx vt_fee vt_base_fee]. split_and!; try done; [by left|].
    by eapply payment_refines.
  - destruct (apply_ordinary _ _ _ _ _ _) as [[w1 v]|] eqn:Ea; [|done].
    intros [<- <-]%Ok_inj%pair_inj. exists v.
    apply (apply_ordinary_refines _ _ _ _ _ _ operations) in Ea as (H1 & H2 & H3 & H4).
    rewrite H2. split_and!; done.
Qed.

Definition tx_fee (v : ValidatedTx) : TransactionV1 * Z := (vt_tx v, vt_fee v).

Lemma mempool_loop_refines state epoch height operations pendings w0 w out w' out' :
  ledger_run (ds_network_id state) (ds_base_fee_rate_q32 state) epoch height operations w0 (map tx_fee out) w ->
  fold_result (apply_pending state epoch height operations) (w, out) pendings = Ok (w', out') ->
  ledger_run (ds_network_id state) (ds_base_fee_rate_q32 state) epoch height operations w0 (map tx_fee out') w' /\
  exists new, out' = out ++ new /\ map vt_pending new = pendings /\
    Forall (fun v => charged (ds_base_fee_rate_q32 state) v /\
              to_transaction_for_network (vt_pending v) (ds_network_id state) = Ok (vt_tx v) /\
              to_hex (TransactionV1_txid (vt_tx v)) = pd_txid (vt_pending v)) new.
Proof.
  revert w out; induction pendings as [|pending pendings IH]; intros w out Hrun; cbn [fold_result].
  { intros [<- <-]%Ok_inj%pair_inj. split; [done|]. exists []. rewrite app_nil_r. done. }
  destruct (apply_pending _ _ _ _ _ pending) as [[w1 out1]|] eqn:E; [|done].
  apply apply_pending_refines in E as (v & -> & Hv & Hb & Ht & Hid & Hstep). intros H.
  apply IH in H as (H1 & new & -> & H2 & H3).
  - split; [done|]. exists (v :: new). rewrite <- app_assoc. split_and!; [done|by rewrite <- Hv, <- H2|].
    constructor; [|done]. rewrite Hv. done.
  - rewrite map_app. eapply ledger_run_app; done.
Qed.

(** C27: applying the transactions of a block refines the abstract ledger.  When
    [validate_and_apply_mempool] accepts, it has taken exactly the pending
    transactions in order, and the change of the unspent outputs is a run of
    abstract steps: no output is spent twice, none is spent without a signature
    of the key behind its address over this very input, treasury outputs move
    only for a claim of the block, immature coinbases do not move, and every
    transaction pays at least its Base Fee.  Hence value is only ever kept as
    fees: the outputs before are worth the outputs after plus the fees. *)
Theorem mempool_refines_ledger state w epoch height operations w' validated :
  validate_and_apply_mempool state w epoch height operations = Ok (w', validated) ->
  ledger_run (ds_network_id state) (ds_base_fee_rate_q32 state) epoch height operations
    w (map tx_fee validated) w' /\
  map vt_pending validated = ds_mempool state /\
  utxo_total w = utxo_total w' + sum_of vt_fee validated /\
  Forall (fun v => charged (ds_base_fee_rate_q32 state) v /\
            to_transaction_for_network (vt_pending v) (ds_network_id state) = Ok (vt_tx v) /\
            to_hex (TransactionV1_txid (vt_tx v)) = pd_txid (vt_pending v)) validated.
Proof.
  intros H. eapply mempool_loop_refines in H as (Hrun & new & Heq & Hp & HF); [|apply run_nil].
  cbn [app] in Heq. subst new. split_and!; try done.
  apply ledger_run_total in Hrun. rewrite Hrun, sum_of_map. done.
Qed.
End ledger.
