(* ===== verification/NodeOperations.v ===== *)
(** The protocol operations of a block ([mutiny-node/src/main.rs]): how each of
    them changes the state, and the rules that tie them to the transactions of
    the same block. *)

From Stdlib Require Import Strings.Byte Strings.String.
From stdpp Require Import strings pretty.
From S2P Require Import Prelude Crypto Codec Smt State Transaction Bitcoin Protocol ProtocolRules Collections NodeState Economy NodePresence NodePunishment NodeUtxo NodeDividends NodeBitcoin NodePurchase NodeMempool.

Section operations.
Context {SHA : Sha2} {ED : Ed25519}.

Definition store_historical_keys (state : DevnetState) (operation : ProtocolOperationV1)
    (license_id : bytes32) (historical : HistoricalLicenseKeysV1) : node_result DevnetState :=
  let opid := to_hex (operation_id operation) in
  if existsb (fun h => bool_decide (hs_operation_id h = opid)) (ds_historical_license_keys state)
  then err "duplicate historical-license-key OperationID"
  else
    let entry := {| hs_operation_id := opid; hs_license_id := hex_encode license_id;
                    hs_owner_public_key := hex_encode (hk_owner_public_key historical);
                    hs_owner_key_sequence := hk_owner_key_sequence historical;
                    hs_mining_public_key := hex_encode (hk_mining_public_key historical);
                    hs_mining_key_sequence := hk_mining_key_sequence historical |} in
    Ok (state <| ds_historical_license_keys :=
           sort_by (fun a b => String.leb (hs_operation_id a) (hs_operation_id b))
             (ds_historical_license_keys state ++ [entry]) |>).

(** The local variables of [apply_protocol_operations]. *)
Record op_acc := {
  ac_state : DevnetState;
  ac_created : Z;
  ac_seen_payment : gset bytes32;
  ac_known_licenses : gset bytes32;
  ac_referenced : gmap outpoint Z;
  ac_used_fee_tickets : gset nat;
  ac_authority_targets : gset bytes32;
}.

Definition op_acc_eta (a : op_acc) : op_acc :=
  {| ac_state := ac_state a; ac_created := ac_created a; ac_seen_payment := ac_seen_payment a;
     ac_known_licenses := ac_known_licenses a; ac_referenced := ac_referenced a;
     ac_used_fee_tickets := ac_used_fee_tickets a; ac_authority_targets := ac_authority_targets a |}.

#[export] Instance set_ac_state : Setter ac_state := ltac:(make_setter op_acc_eta ac_state).
#[export] Instance set_ac_created : Setter ac_created := ltac:(make_setter op_acc_eta ac_created).
#[export] Instance set_ac_seen_payment : Setter ac_seen_payment := ltac:(make_setter op_acc_eta ac_seen_payment).
#[export] Instance set_ac_known_licenses : Setter ac_known_licenses := ltac:(make_setter op_acc_eta ac_known_licenses).
#[export] Instance set_ac_referenced : Setter ac_referenced := ltac:(make_setter op_acc_eta ac_referenced).
#[export] Instance set_ac_used_fee_tickets : Setter ac_used_fee_tickets := ltac:(make_setter op_acc_eta ac_used_fee_tickets).
#[export] Instance set_ac_authority_targets : Setter ac_authority_targets := ltac:(make_setter op_acc_eta ac_authority_targets).

(** [OP_LICENSE_PURCHASE_BTC] *)
Definition run_btc_purchase (acc : op_acc) (op : ProtocolOperationV1) (block_epoch : Z) : node_result op_acc :=
  let? (state, ids) := purchase_apply_operation (ac_state acc) op block_epoch in
  let? known := fold_result (fun known id =>
      insert_new (Msg "derived Bitcoin Mining LicenseID already exists"%string) id known)
    (ac_known_licenses acc) ids in
  let? created := ok_or (Msg "created-license count overflow"%string)
      (checked_add 64 (ac_created acc) (Z.of_nat (length ids))) in
  Ok (acc <| ac_state := state |> <| ac_known_licenses := known |> <| ac_created := created |>).

(** The output a native purchase pays with. *)
Definition native_payment_output (txs : list TransactionV1) (purchase : LicensePurchaseMutV1)
    : node_result TxOutput :=
  let? tx_pos := ok_or
      (Msg "native Mining License purchase references a transaction not earlier in the block"%string)
      (position (fun tx => bytes_eqb (TransactionV1_txid tx) (pm_payment_txid purchase)) txs) in
  if (tx_pos =? 0)%nat then err "native Mining License purchase cannot reference coinbase"
  else
    let? payment_tx := ok_or
        (Msg "native Mining License purchase references a transaction not earlier in the block"%string)
        (txs !! tx_pos) in
    ok_or (Msg "native Mining License purchase output index is out of range"%string)
      (tc_outputs (tx_core payment_tx) !! Z.to_nat (pm_payment_output_index purchase)).

(** [OP_LICENSE_PURCHASE_MUT] *)
Definition run_native_purchase (txs : list TransactionV1) (acc : op_acc) (op : ProtocolOperationV1)
    (block_epoch : Z) : node_result op_acc :=
  let? purchase := decode_native_purchase_operation op in
  let key := (to_hex (pm_payment_txid purchase), pm_payment_output_index purchase) in
  let referenced := <[key := default 0 (ac_referenced acc !! key) + 1]> (ac_referenced acc) in
  if negb (mm_network_id (pm_manifest purchase) =? ds_network_id (ac_state acc))
  then err "native Mining License purchase manifest NetworkID mismatch"
  else
    let payment_id := native_payment_id (pm_payment_txid purchase) (pm_payment_output_index purchase) in
    let? seen_payment := insert_new (Msg "NativePaymentID has already been consumed"%string)
        payment_id (ac_seen_payment acc) in
    let? output := native_payment_output txs purchase in
    if negb (to_output_type output =? OUTPUT_LICENSE_PAYMENT) || negb (length (to_payload output) =? 32)%nat
    then err "native Mining License purchase does not reference a LICENSE_PAYMENT output"
    else
      let? expected_manifest_hash := map_err FromProtocol
          (MutLicenseManifestV1_manifest_hash (pm_manifest purchase)) in
      if negb (bytes_eqb (to_payload output) expected_manifest_hash)
      then err "LICENSE_PAYMENT manifest hash mismatch"
      else
        let price_each := Z.max (subsidy block_epoch) 1 in
        let? required := ok_or (Msg "native Mining License price overflow"%string)
            (checked_mul 64 price_each (Z.of_nat (length (mm_licenses (pm_manifest purchase))))) in
        if to_amount_strikes output <? required
        then Err (Msg ("LICENSE_PAYMENT underpays native Mining License price: "%string
                       +:+ pretty (to_amount_strikes output) +:+ " < "%string +:+ pretty required
                       +:+ " Strikes"%string))
        else
          let? ids := map_err FromProtocol (LicensePurchaseMutV1_license_ids purchase) in
          let? (known, licenses, created) :=
            fold_result (fun '(known, licenses, created) '(id, entry) =>
                let? known := insert_new (Msg "derived LicenseID already exists"%string) id known in
                let? license := new_license licenses PURCHASE_METHOD_MUT (hex_encode payment_id) id entry
                                  block_epoch in
                Ok (known, licenses ++ [license], created + 1))
              (ac_known_licenses acc, ds_licenses (ac_state acc), ac_created acc)
              (combine ids (mm_licenses (pm_manifest purchase))) in
          let state := ac_state acc <| ds_licenses := licenses |>
                         <| ds_consumed_native_payments :=
                              ds_consumed_native_payments (ac_state acc) ++ [hex_encode payment_id] |> in
          Ok (acc <| ac_state := state |> <| ac_created := created |>
                  <| ac_seen_payment := seen_payment |> <| ac_known_licenses := known |>
                  <| ac_referenced := referenced |>).

(** The first unused transaction of the block that is a fee ticket for the
    license. *)
Definition find_fee_ticket (state : DevnetState) (txs : list TransactionV1) (used : gset nat)
    (license_index : nat) : option nat :=
  fst <$> List.find (fun '(pos, tx) => negb (bool_decide (pos ∈ used))
                       && authority_fee_ticket_matches state tx license_index)
            (drop 1 (imap pair txs)).

(** What transfers and rotations do before they touch the license record. *)
Definition claim_authority (txs : list TransactionV1) (acc : op_acc) (license_id : bytes32)
    (unknown no_ticket : NodeError) : node_result (op_acc * nat * LicenseState) :=
  let? targets := insert_new
      (Msg "V1 authority rules permit at most one authority operation per Mining License per block"%string)
      license_id (ac_authority_targets acc) in
  let? license_index := ok_or unknown (position_license (ac_state acc) license_id) in
  let? license := ok_or unknown (ds_licenses (ac_state acc) !! license_index) in
  let? fee_pos := ok_or no_ticket
      (find_fee_ticket (ac_state acc) txs (ac_used_fee_tickets acc) license_index) in
  Ok (acc <| ac_authority_targets := targets |>
          <| ac_used_fee_tickets := {[fee_pos]} ∪ ac_used_fee_tickets acc |>, license_index, license).

Definition copy_transfer (record : LicenseRecordV1) (l : LicenseState) : LicenseState :=
  l <| ls_owner_public_key := hex_encode (lr_owner_public_key record) |>
    <| ls_owner_key_sequence := lr_owner_key_sequence record |>
    <| ls_mining_public_key := hex_encode (lr_mining_public_key record) |>
    <| ls_mining_key_sequence := lr_mining_key_sequence record |>
    <| ls_payment_address_id := hex_encode (address_id (lr_owner_public_key record)) |>.

Definition copy_rotation (record : LicenseRecordV1) (l : LicenseState) : LicenseState :=
  l <| ls_mining_public_key := hex_encode (lr_mining_public_key record) |>
    <| ls_mining_key_sequence := lr_mining_key_sequence record |>.

(** [OP_LICENSE_TRANSFER] *)
Definition run_transfer (txs : list TransactionV1) (acc : op_acc) (op : ProtocolOperationV1)
    : node_result op_acc :=
  let? transfer := decode_license_transfer_operation op in
  let? (acc, license_index, license) := claim_authority txs acc (lt_license_id transfer)
      (Msg "Mining License transfer references unknown LicenseID"%string)
      (Msg "Mining License transfer is missing its owner-funded authority fee ticket transaction"%string) in
  let? record := LicenseState_record license in
  let '(record, historical) := apply_license_transfer record transfer in
  let? historical := map_err FromProtocol historical in
  let state := ac_state acc <| ds_licenses := alter (copy_transfer record) license_index
                                                (ds_licenses (ac_state acc)) |> in
  let? state := store_historical_keys state op (lt_license_id transfer) historical in
  Ok (acc <| ac_state := state |>).

(** [OP_LICENSE_MINING_KEY_ROTATE] *)
Definition run_rotation (txs : list TransactionV1) (acc : op_acc) (op : ProtocolOperationV1)
    : node_result op_acc :=
  let? rotation := decode_mining_key_rotation_operation op in
  let? (acc, license_index, license) := claim_authority txs acc (kr_license_id rotation)
      (Msg "Mining-key rotation references unknown LicenseID"%string)
      (Msg "Mining-key rotation is missing its owner-funded authority fee ticket transaction"%string) in
  let? record := LicenseState_record license in
  let '(record, historical) := apply_mining_key_rotation record rotation in
  let? historical := map_err FromProtocol historical in
  let state := ac_state acc <| ds_licenses := alter (copy_rotation record) license_index
                                                (ds_licenses (ac_state acc)) |> in
  let? state := store_historical_keys state op (kr_license_id rotation) historical in
  Ok (acc <| ac_state := state |>).

Definition run_operation (txs : list TransactionV1) (block_epoch : Z) (acc : op_acc)
    (op : ProtocolOperationV1) : node_result op_acc :=
  if negb (po_op_version op =? 1) then err "unknown protocol operation version in block"
  else if po_op_type op =? OP_BITCOIN_HEADERS then
    let? state := headers_apply_operation (ac_state acc) op block_epoch in Ok (acc <| ac_state := state |>)
  else if po_op_type op =? OP_LICENSE_PURCHASE_BTC then run_btc_purchase acc op block_epoch
  else if po_op_type op =? OP_LICENSE_PURCHASE_MUT then run_native_purchase txs acc op block_epoch
  else if po_op_type op =? OP_LICENSE_TRANSFER then run_transfer txs acc op
  else if po_op_type op =? OP_LICENSE_MINING_KEY_ROTATE then run_rotation txs acc op
  else if po_op_type op =? OP_PUNISHMENT_EVIDENCE then
    let? state := punishment_apply_operation (ac_state acc) op block_epoch in Ok (acc <| ac_state := state |>)
  else if po_op_type op =? OP_DIVIDEND_CLAIM then
    let? state := dividend_apply_operation (ac_state acc) txs op block_epoch in Ok (acc <| ac_state := state |>)
  else if po_op_type op =? OP_MINING_PRESENCE then
    let? state := apply_validated_operation (ac_state acc) op in Ok (acc <| ac_state := state |>)
  else Err (Msg ("block contains unsupported protocol operation "%string +:+ pretty (po_op_type op)
                 +:+ "/v"%string +:+ pretty (po_op_version op))).

(** Every [LICENSE_PAYMENT] output of the block is used by exactly one
    purchase. *)
Definition check_license_payment (referenced : gmap outpoint Z) (txid : string) (io : nat * TxOutput)
    : node_result unit :=
  let '(index, output) := io in
  if negb (to_output_type output =? OUTPUT_LICENSE_PAYMENT) then Ok tt
  else
    let? index := ok_or (Msg "LICENSE_PAYMENT output index overflow"%string) (try_from 16 (Z.of_nat index)) in
    let n := default 0 (referenced !! (txid, index)) in
    if n =? 1 then Ok tt
    else if n =? 0
    then err "LICENSE_PAYMENT output is missing its exactly-one native purchase Protocol Op"
    else err "LICENSE_PAYMENT output is referenced by more than one native purchase Protocol Op".

Definition check_license_payments (referenced : gmap outpoint Z) (tx : TransactionV1) : node_result unit :=
  let? _ := map_result (check_license_payment referenced (to_hex (TransactionV1_txid tx)))
      (imap pair (tc_outputs (tx_core tx))) in
  Ok tt.

(** Returns the state and the number of licenses created. *)
Definition apply_protocol_operations (state : DevnetState) (txs : list TransactionV1)
    (operations : list ProtocolOperationV1) (block_epoch : Z) : node_result (DevnetState * Z) :=
  let? _ := prevalidate_block_operations state operations block_epoch in
  let? seen_payment := map_result decode32 (ds_consumed_native_payments state) in
  let? known_licenses := map_result (fun l => decode32 (ls_license_id l)) (ds_licenses state) in
  let? acc := fold_result (run_operation txs block_epoch)
      {| ac_state := state; ac_created := 0; ac_seen_payment := list_to_set seen_payment;
         ac_known_licenses := list_to_set known_licenses; ac_referenced := ∅;
         ac_used_fee_tickets := ∅; ac_authority_targets := ∅ |} operations in
  let? _ := map_result (check_license_payments (ac_referenced acc)) (drop 1 txs) in
  let state := ac_state acc in
  Ok (state <| ds_consumed_native_payments := dedup (sort_by String.leb (ds_consumed_native_payments state)) |>,
      ac_created acc).
End operations.

(** ** What the operations of a block change

    The fields that protocol operations write: a miner copies exactly these from
    the state after the operations into its own ([main.rs], the assignments
    after the block hash in [accept_dev_block_with_signer_and_operations]). *)

Definition persist_protocol_state (state post_protocol_state : DevnetState) : DevnetState :=
  state <| ds_licenses := ds_licenses post_protocol_state |>
    <| ds_consumed_native_payments := ds_consumed_native_payments post_protocol_state |>
    <| ds_consumed_bitcoin_payments := ds_consumed_bitcoin_payments post_protocol_state |>
    <| ds_bitcoin_headers := ds_bitcoin_headers post_protocol_state |>
    <| ds_bitcoin_best_chain := ds_bitcoin_best_chain post_protocol_state |>
    <| ds_consumed_evidence := ds_consumed_evidence post_protocol_state |>
    <| ds_offense_events := ds_offense_events post_protocol_state |>
    <| ds_historical_license_keys := ds_historical_license_keys post_protocol_state |>
    <| ds_mining_presence := ds_mining_presence post_protocol_state |>
    <| ds_treasury_reserved_dividend_strikes := ds_treasury_reserved_dividend_strikes post_protocol_state |>
    <| ds_dividend_accounts := ds_dividend_accounts post_protocol_state |>.

(** [s'] differs from [s] at most in those fields. *)
Definition ops_frame (s s' : DevnetState) : Prop := persist_protocol_state s s' = s'.

#[export] Instance ops_frame_refl : Reflexive ops_frame.
Proof. intros []. done. Qed.
#[export] Instance ops_frame_trans : Transitive ops_frame.
Proof.
  unfold ops_frame. intros s1 s2 s3 H12 H23.
  change (persist_protocol_state s1 s3) with (persist_protocol_state (persist_protocol_state s1 s2) s3). by rewrite H12.
Qed.

Lemma persist_frame s p : ops_frame s (persist_protocol_state s p).
Proof. done. Qed.

Section frame.
Context {SHA : Sha2} {ED : Ed25519}.

Lemma presence_frame s op s' : apply_validated_operation s op = Ok s' -> ops_frame s s'.
Proof. unfold apply_validated_operation. intros H. inv_ok. by destruct (existsb _ _); inv_ok. Qed.

Lemma punishment_frame s op epoch s' : punishment_apply_operation s op epoch = Ok s' -> ops_frame s s'.
Proof. unfold punishment_apply_operation. intros H. by inv_ok. Qed.

Lemma dividend_frame s txs op epoch s' : dividend_apply_operation s txs op epoch = Ok s' -> ops_frame s s'.
Proof. unfold dividend_apply_operation. intros H. by inv_ok. Qed.

Lemma headers_frame s op epoch s' : headers_apply_operation s op epoch = Ok s' -> ops_frame s s'.
Proof. unfold headers_apply_operation. intros H. by inv_ok. Qed.

Lemma purchase_frame s op epoch s' ids : purchase_apply_operation s op epoch = Ok (s', ids) -> ops_frame s s'.
Proof. unfold purchase_apply_operation. intros H. by inv_ok. Qed.

Lemma store_historical_frame s op id hist s' : store_historical_keys s op id hist = Ok s' -> ops_frame s s'.
Proof. unfold store_historical_keys. intros H. by inv_ok. Qed.

Lemma claim_authority_state txs acc id e1 e2 acc' i l :
  claim_authority txs acc id e1 e2 = Ok (acc', i, l) ->
  ac_state acc' = ac_state acc /\ ds_licenses (ac_state acc) !! i = Some l.
Proof. unfold claim_authority. intros H. by inv_ok. Qed.

Lemma run_transfer_frame txs acc op acc' :
  run_transfer txs acc op = Ok acc' -> ops_frame (ac_state acc) (ac_state acc').
Proof.
  unfold run_transfer. intros H. destruct (decode_license_transfer_operation op) as [t|]; [|done].
  destruct (claim_authority _ _ _ _ _) as [[[acc1 i] l]|] eqn:E; [|done].
  apply claim_authority_state in E as [Es _].
  inv_ok. match goal with E : store_historical_keys _ _ _ _ = Ok ?s |- _ =>
    apply store_historical_frame in E; rewrite Es in E; change (ops_frame (ac_state acc) s) end.
  etrans; [|eassumption]. done.
Qed.

Lemma run_rotation_frame txs acc op acc' :
  run_rotation txs acc op = Ok acc' -> ops_frame (ac_state acc) (ac_state acc').
Proof.
  unfold run_rotation. intros H. destruct (decode_mining_key_rotation_operation op) as [t|]; [|done].
  destruct (claim_authority _ _ _ _ _) as [[[acc1 i] l]|] eqn:E; [|done].
  apply claim_authority_state in E as [Es _].
  inv_ok. match goal with E : store_historical_keys _ _ _ _ = Ok ?s |- _ =>
    apply store_historical_frame in E; rewrite Es in E; change (ops_frame (ac_state acc) s) end.
  etrans; [|eassumption]. done.
Qed.

Lemma run_operation_frame txs epoch acc op acc' :
  run_operation txs epoch acc op = Ok acc' -> ops_frame (ac_state acc) (ac_state acc').
Proof.
  unfold run_operation. destruct (negb _); [done|].
  destruct (_ =? OP_BITCOIN_HEADERS).
  { destruct (headers_apply_operation _ _ _) eqn:E; [|done]. intros <-%Ok_inj. by apply headers_frame in E. }
  destruct (_ =? OP_LICENSE_PURCHASE_BTC).
  { unfold run_btc_purchase. destruct (purchase_apply_operation _ _ _) as [[s1 ids]|] eqn:E; [|done].
    apply purchase_frame in E. intros H. by inv_ok. }
  destruct (_ =? OP_LICENSE_PURCHASE_MUT). { unfold run_native_purchase. intros H. by inv_ok. }
  destruct (_ =? OP_LICENSE_TRANSFER); [apply run_transfer_frame|].
  destruct (_ =? OP_LICENSE_MINING_KEY_ROTATE); [apply run_rotation_frame|].
  destruct (_ =? OP_PUNISHMENT_EVIDENCE).
  { destruct (punishment_apply_operation _ _ _) eqn:E; [|done]. intros <-%Ok_inj. by apply punishment_frame in E. }
  destruct (_ =? OP_DIVIDEND_CLAIM).
  { destruct (dividend_apply_operation _ _ _ _) eqn:E; [|done]. intros <-%Ok_inj. by apply dividend_frame in E. }
  destruct (_ =? OP_MINING_PRESENCE); [|done].
  destruct (apply_validated_operation _ _) eqn:E; [|done]. intros <-%Ok_inj. by apply presence_frame in E.
Qed.

Lemma apply_protocol_operations_frame s txs ops epoch s' n :
  apply_protocol_operations s txs ops epoch = Ok (s', n) -> ops_frame s s'.
Proof.
  unfold apply_protocol_operations. intros H. inv_ok.
  match goal with E : fold_result _ _ ops = Ok ?a |- _ =>
    assert (ops_frame s (ac_state a)) as Hf end.
  { match goal with E : fold_result _ _ ops = Ok ?a |- _ => revert E end.
    apply (fold_result_ind _ (fun a => ops_frame s (ac_state a))); [|done].
    intros b op b' Hop Ha. etrans; [exact Ha|]. by eapply run_operation_frame. }
  etrans; [exact Hf|]. done.
Qed.
End frame.
