(* ===== verification/NodeBlocks.v ===== *)
(** Validation of a received block ([mutiny-node/src/blocksync.rs]): from the
    272 bytes of a header and the decoded body to the next node state. *)

From Stdlib Require Import Strings.Byte Strings.String.
From stdpp Require Import strings pretty.
From S2P Require Import Prelude Crypto Codec Consensus Smt State Transaction Protocol ProtocolRules Collections NodeState Economy NodePresence NodeUtxo NodeDividends NodeRoots NodeBootstrap NodeEpoch NodeMempool NodeOperations.

(** ** Which network a state belongs to ([main.rs]) *)

Definition validate_runtime_tuple (state : DevnetState) (runtime : RuntimeNetwork) : node_result unit :=
  let mismatch := Msg "runtime NetworkID/GenesisID tuple does not match stored state"%string in
  if negb (ds_network_id state =? RuntimeNetwork_network_id runtime) then Err mismatch
  else if bool_decide (runtime = Mainnet) || (10 <=? ds_format_version state) then
    let? genesis := decode32 (ds_genesis_hash state) in
    let? expected := RuntimeNetwork_genesis_id runtime in
    if negb (bytes_eqb genesis expected) then Err mismatch else Ok tt
  else Ok tt.

Definition runtime_for_state (state : DevnetState) : node_result RuntimeNetwork :=
  let? runtime :=
    if ds_network_id state =? DEVNET_NETWORK_ID then Ok Devnet
    else if ds_network_id state =? MAINNET_NETWORK_ID then Ok Mainnet
    else err "state NetworkID is not an active Mutiny runtime network" in
  let? _ := validate_runtime_tuple state runtime in
  Ok runtime.

(** ** Pending transactions of a block *)

Section pending.
Context {SHA : Sha2}.

Definition stored_input (input : TxInput) : node_result StoredTxInput :=
  match input with
  | Outpoint previous_txid previous_output_index =>
      Ok {| si_previous_txid := hex_encode previous_txid;
            si_previous_output_index := previous_output_index |}
  | Coinbase _ => err "coinbase cannot be converted to ordinary pending transaction"
  end.

Definition stored_output (o : TxOutput) : StoredTxOutput :=
  {| so_amount_strikes := to_amount_strikes o; so_output_type := to_output_type o;
     so_payload := hex_encode (to_payload o) |}.

Definition stored_witness (w : WitnessV1) : StoredWitness :=
  {| sw_witness_type := w_witness_type w; sw_payload := hex_encode (w_payload w) |}.

(** The stored output that an input refers to. *)
Definition stored_utxo (state : DevnetState) (i : StoredTxInput) : option UtxoState :=
  find_utxo (ds_utxos state) (si_previous_txid i, si_previous_output_index i).

Definition license_of_address (state : DevnetState) (address : string) : option nat :=
  position (fun l => bool_decide (ls_payment_address_id l = address)) (ds_licenses state).

(** [from_license] and [to_license]: only for display, [0] where unknown. *)
Definition metadata_owner (state : DevnetState) (tx : TransactionV1) (inputs : list StoredTxInput) : nat :=
  let first_owner := default 0%nat
      (input ← head inputs; u ← stored_utxo state input; license_of_address state (us_payload u)) in
  default first_owner (authority_fee_ticket_license_index state tx).

Definition metadata_recipient (state : DevnetState) (tx : TransactionV1) (owner : nat) : nat :=
  if existsb (fun o => to_output_type o =? OUTPUT_LICENSE_PAYMENT) (tc_outputs (tx_core tx)) then owner
  else match authority_fee_ticket_license_index state tx with
       | Some target => target
       | None =>
           default 0%nat
             (o ← head (tc_outputs (tx_core tx));
              if negb (to_output_type o =? OUTPUT_PUBKEY_HASH) || negb (length (to_payload o) =? 32)%nat
              then None else license_of_address state (hex_encode (to_payload o)))
       end.

(** [u8::try_from(i).unwrap_or(0)] *)
Definition u8_or_0 (i : nat) : Z := default 0 (try_from 8 (Z.of_nat i)).

Definition known_amount (state : DevnetState) (acc : Z) (i : StoredTxInput) : node_result Z :=
  match stored_utxo state i with
  | Some u => ok_or (Msg "input sum overflow"%string) (checked_add 64 acc (us_amount_strikes u))
  | None => Ok acc
  end.

Definition pending_from_transaction (state : DevnetState) (tx : TransactionV1) : node_result PendingTxState :=
  let core := tx_core tx in
  if negb (tc_version core =? 1) || negb (tc_network_id core =? ds_network_id state)
  then err "transaction version/network does not match selected state"
  else
    let? inputs := map_result stored_input (tc_inputs core) in
    let outputs := map stored_output (tc_outputs core) in
    let witnesses := map stored_witness (tx_witnesses tx) in
    let owner := metadata_owner state tx inputs in
    let recipient := metadata_recipient state tx owner in
    let? input_sum := fold_result (known_amount state) 0 inputs in
    let? output_sum := try_sum 64 (Msg "output sum overflow"%string) to_amount_strikes (tc_outputs core) in
    let fee := saturating_sub input_sum output_sum in
    let protocol_authorized :=
      existsb (fun w => w_witness_type w =? WITNESS_PROTOCOL_AUTH) (tx_witnesses tx) in
    let? base_fee :=
      if protocol_authorized then Ok 0
      else map_err FromTx (required_base_fee (ds_base_fee_rate_q32 state) (TransactionV1_serialized_len tx)) in
    Ok {| pd_txid := to_hex (TransactionV1_txid tx); pd_wtxid := to_hex (TransactionV1_wtxid tx);
          pd_valid_from_epoch := tc_valid_from_epoch core; pd_expiry_epoch := tc_expiry_epoch core;
          pd_inputs := inputs; pd_outputs := outputs; pd_witnesses := witnesses;
          pd_fee_strikes := fee; pd_base_fee_strikes := base_fee;
          pd_from_license := u8_or_0 owner; pd_to_license := u8_or_0 recipient;
          pd_amount_strikes := default 0 (to_amount_strikes <$> head (tc_outputs core)) |}.
End pending.

(** ** Headers *)

Record HeaderFields := {
  bh_version : Z;
  bh_network_id : Z;
  bh_epoch : Z;
  bh_parent : bytes32;
  bh_tx_root : bytes32;
  bh_state_root : bytes32;
  bh_target : bytes32;
  bh_license_id : bytes32;
  bh_ticket : Z;
  bh_proof : bytes32;
}.

(** The 208 bytes a miner signs, as [accept_dev_block..] of [main.rs] lays them
    out and [validate_and_apply_block] reads them back. *)
Definition header_core (h : HeaderFields) : bytes :=
  be_bytes 2 (bh_version h) ++ be_bytes 4 (bh_network_id h) ++ be_bytes 8 (bh_epoch h)
  ++ bh_parent h ++ bh_tx_root h ++ bh_state_root h ++ bh_target h ++ bh_license_id h
  ++ be_bytes 2 (bh_ticket h) ++ bh_proof h.

Definition read_header_core (core : bytes) : HeaderFields :=
  {| bh_version := be_val (slice 0 2 core);
     bh_network_id := be_val (slice 2 6 core);
     bh_epoch := be_val (slice 6 14 core);
     bh_parent := slice 14 46 core;
     bh_tx_root := slice 46 78 core;
     bh_state_root := slice 78 110 core;
     bh_target := slice 110 142 core;
     bh_license_id := slice 142 174 core;
     bh_ticket := be_val (slice 174 176 core);
     bh_proof := slice 176 208 core |}.

(** ** Fees and the coinbase *)

(** The totals of the loop over the validated transactions: all fees, and half
    of every Base Fee for the treasury. *)
Definition fee_step (totals : Z * Z) (v : ValidatedTx) : node_result (Z * Z) :=
  let '(total_fees, treasury_share) := totals in
  let? total_fees := ok_or (Msg "fee overflow"%string) (checked_add 64 total_fees (vt_fee v)) in
  let? treasury_share := ok_or (Msg "treasury fee overflow"%string)
      (checked_add 64 treasury_share (vt_base_fee v / 2)) in
  Ok (total_fees, treasury_share).

Definition fee_totals (validated : list ValidatedTx) : node_result (Z * Z) :=
  fold_result fee_step (0, 0) validated.

(** [v.pending.fee_strikes = v.fee; v.pending.base_fee_strikes = v.base_fee] *)
Definition settle_fees (v : ValidatedTx) : ValidatedTx :=
  {| vt_pending := vt_pending v <| pd_fee_strikes := vt_fee v |> <| pd_base_fee_strikes := vt_base_fee v |>;
     vt_tx := vt_tx v; vt_fee := vt_fee v; vt_base_fee := vt_base_fee v |}.

Definition miner_amount (reward total_fees treasury_share : Z) : node_result Z :=
  let? miner_fee_share := ok_or (Msg "fee split underflow"%string) (checked_sub total_fees treasury_share) in
  ok_or (Msg "coinbase overflow"%string) (checked_add 64 reward miner_fee_share).

Section blocks.
Context {SHA : Sha2} {ED : Ed25519} {AR : Argon2}.

Definition coinbase_outputs (network_id : Z) (address : bytes32) (miner_coinbase_amount treasury_share : Z)
    : list TxOutput :=
  {| to_amount_strikes := miner_coinbase_amount; to_output_type := OUTPUT_PUBKEY_HASH; to_payload := address |}
  :: (if 0 <? treasury_share
      then [{| to_amount_strikes := treasury_share; to_output_type := OUTPUT_TREASURY;
               to_payload := treasury_id_for_network network_id |}]
      else []).

#[local] Instance TxOutput_eq_dec : EqDecision TxOutput.
Proof. solve_decision. Defined.

Definition check_coinbase (network_id epoch height : Z) (parent : bytes32)
    (operations : list ProtocolOperationV1) (license : LicenseState)
    (miner_coinbase_amount treasury_share : Z) (coinbase : TransactionV1) : node_result unit :=
  let core := tx_core coinbase in
  if negb (tc_version core =? 1) || negb (tc_network_id core =? network_id)
     || negb (tc_valid_from_epoch core =? epoch) || negb (tc_expiry_epoch core =? 0)
     || negb (is_empty (tx_witnesses coinbase))
  then err "coinbase core/witness fields are not canonical"
  else
    match tc_inputs core with
    | [Coinbase commitment] =>
        let? operation_root := map_err FromProtocol (protocol_operations_root operations) in
        if negb (cc_block_epoch commitment =? epoch) || negb (cc_block_height commitment =? height)
           || negb (bytes_eqb (cc_parent_block_hash commitment) parent)
           || negb (bytes_eqb (cc_protocol_operations_root commitment) operation_root)
        then err "coinbase commitment mismatch"
        else
          let? address := decode32 (ls_payment_address_id license) in
          if negb (bool_decide (tc_outputs core
               = coinbase_outputs network_id address miner_coinbase_amount treasury_share))
          then err "coinbase outputs do not exactly match subsidy + fee split"
          else Ok tt
    | _ => err "coinbase must have exactly one null-outpoint commitment input"
    end.

(** ** The ticket and its proof of work *)

Definition block_anchor (state : DevnetState) : node_result bytes32 :=
  if ds_height state =? 0 then decode32 (ds_genesis_hash state)
  else
    let? license_id := decode32 (ds_anchor_license_id state) in
    let? proof := decode32 (ds_anchor_argon2_proof state) in
    Ok (anchor_entropy (ds_anchor_epoch state) license_id (ds_anchor_ticket_index state) proof).

Definition ticket_proof (anchor : bytes32) (epoch : Z) (license_id : bytes32) (ticket : Z)
    : node_result bytes32 :=
  let es := epoch_seed anchor epoch in
  map_err FromCrypto (mutiny_argon2id (ticket_seed es license_id ticket) (ticket_salt es license_id ticket)).

(** The license a block names, if it may mine at the epoch. *)
Definition mining_license (next : DevnetState) (license_id : bytes32) (epoch : Z)
    : node_result LicenseState :=
  let? license := ok_or (Msg "block LicenseID is not present in the local registry"%string)
      (find_license next license_id) in
  if negb (is_eligible license epoch)
  then err "block LicenseID is not base-eligible at the candidate epoch"
  else Ok license.

(** Ticket range, target, proof and signature of a header. *)
Definition check_work (next : DevnetState) (license : LicenseState) (h : HeaderFields)
    (core signature : bytes) (operations : list ProtocolOperationV1) : node_result unit :=
  let? eligible_count := candidate_eligible_count next (bh_epoch h) (bh_license_id h) operations in
  if work_units eligible_count <=? bh_ticket h then err "block ticket index is outside Pack-K candidate W_E"
  else
    let? expected_target := map_err FromConsensus
        (derive_target (authorized_capacity eligible_count) (ds_difficulty_correction_q32 next)) in
    if negb (bytes_eqb (bh_target h) expected_target)
    then err "block target does not match locally derived target"
    else
      let? anchor := block_anchor next in
      let? expected_proof := ticket_proof anchor (bh_epoch h) (bh_license_id h) (bh_ticket h) in
      if negb (bytes_eqb (bh_proof h) expected_proof)
      then err "Argon2id proof does not match deterministic licensed ticket"
      else if negb (proof_below_target (bh_proof h) expected_target)
      then err "block proof is not below target"
      else
        let digest := block_signing_digest core in
        let? mining_pk := decode32 (ls_mining_public_key license) in
        if negb (vk_from_bytes mining_pk) then err "invalid mining public key in license state"
        else if negb (vk_verify_strict mining_pk digest signature)
        then err "invalid block mining signature"
        else Ok tt.

(** ** One block *)

(** What the header must satisfy before its epoch is entered. *)
Definition check_position (next : DevnetState) (h : HeaderFields) : node_result unit :=
  if negb (bh_version h =? 1) || negb (bh_network_id h =? ds_network_id next)
  then err "block header version/network mismatch"
  else if (bh_epoch h <=? ds_tip_epoch next) && (0 <? ds_height next)
  then err "block epoch is not greater than current tip epoch"
  else if (ds_height next =? 0) && (bh_epoch h <? ACTIVATION_DELAY_EPOCHS)
  then err "block predates bootstrap license activation"
  else
    let? tip := decode32 (ds_tip_hash next) in
    if negb (bytes_eqb (bh_parent h) tip)
    then err "block parent does not match local canonical tip"
    else Ok tt.

(** The parent state taken into the epoch of the block. *)
Definition enter_epoch (next : DevnetState) (epoch : Z) : node_result DevnetState :=
  let? next := if 0 <? epoch then advance_empty_epochs next (epoch - 1) else Ok next in
  let? (next, _) := apply_scheduled_license_transitions next epoch in
  Ok next.

Definition check_body_root (h : HeaderFields) (txs : list TransactionV1)
    (operations : list ProtocolOperationV1) : node_result Z :=
  if is_empty txs then err "block has no coinbase transaction"
  else
    let? tx_root := ok_or (Msg "block has no transaction Merkle root"%string)
        (merkle_root (map TransactionV1_leaf txs)) in
    if negb (bytes_eqb tx_root (bh_tx_root h)) then err "TransactionRoot mismatch"
    else
      let? block_weight := block_body_weight txs operations in
      if BLOCK_WEIGHT_MAX <? block_weight then err "block exceeds maximum body weight"
      else Ok block_weight.

(** The ordinary transactions of a block, applied to the outputs of [next]. *)
Definition run_transactions (next : DevnetState) (ordinary : list TransactionV1) (epoch height : Z)
    (operations : list ProtocolOperationV1) : node_result (list UtxoState * list ValidatedTx) :=
  let? pending := map_result (pending_from_transaction next) ordinary in
  validate_and_apply_mempool (next <| ds_mempool := pending |>) (ds_utxos next) epoch height operations.

(** [append_history_values] for the winning epoch, once a block exists. *)
Definition next_history (next : DevnetState) : node_result (Z * Z * Z) :=
  if 0 <? ds_height next
  then append_history_values (ds_difficulty_history_count next) (ds_difficulty_history_bitmap next)
         (ds_difficulty_correction_q32 next) true
  else Ok (ds_difficulty_history_count next, ds_difficulty_history_bitmap next,
           ds_difficulty_correction_q32 next).

(** What a block commits: the values its header and record carry besides the
    state after the operations. *)
Record BlockEffect := {
  ef_header : bytes;
  ef_fields : HeaderFields;
  ef_height : Z;
  ef_txs : list TransactionV1;
  ef_operations : list ProtocolOperationV1;
  ef_validated : list ValidatedTx;
  ef_reward : Z;
  ef_total_fees : Z;
  ef_treasury_share : Z;
  ef_weight : Z;
  ef_issued : Z;
  ef_history : Z * Z * Z;
  ef_base_fee : Z;
  ef_utxos : list UtxoState;
}.

Definition block_record (e : BlockEffect) : BlockState :=
  let h := ef_fields e in
  {| bk_height := ef_height e; bk_epoch := bh_epoch h; bk_header := hex_encode (ef_header e);
     bk_transactions := map (fun tx => hex_encode (TransactionV1_encode_full tx)) (ef_txs e);
     bk_protocol_operations := map (fun op => hex_encode (ProtocolOperationV1_encode op)) (ef_operations e);
     bk_block_hash := hex_encode (block_hash (ef_header e)); bk_parent_hash := hex_encode (bh_parent h);
     bk_miner_license_id := hex_encode (bh_license_id h); bk_ticket_index := bh_ticket h;
     bk_argon2_proof := hex_encode (bh_proof h); bk_target := hex_encode (bh_target h);
     bk_reward_strikes := ef_reward e; bk_total_fees_strikes := ef_total_fees e;
     bk_treasury_fee_share_strikes := ef_treasury_share e; bk_block_weight := ef_weight e;
     bk_transaction_root := hex_encode (bh_tx_root h); bk_state_root := hex_encode (bh_state_root h);
     bk_coinbase_txid := default ""%string (to_hex ∘ TransactionV1_txid <$> head (ef_txs e));
     bk_transaction_ids := map (fun v => pd_txid (vt_pending v)) (ef_validated e) |}.

(** The mempool without what the block confirmed. *)
Definition retain_unconfirmed (e : BlockEffect) (state : DevnetState) : DevnetState :=
  let confirmed_ids := map (fun v => pd_txid (vt_pending v)) (ef_validated e) in
  let confirmed_operation_bytes :=
    map (fun op => hex_encode (ProtocolOperationV1_encode op)) (ef_operations e) in
  state <| ds_mempool := List.filter (fun m => negb (bool_decide (pd_txid m ∈ confirmed_ids)))
                           (ds_mempool state) |>
        <| ds_pending_protocol_operations :=
             List.filter (fun pending =>
                 negb (bool_decide (pp_required_txid pending ∈ confirmed_ids))
                 && negb (bool_decide (pp_operation pending ∈ confirmed_operation_bytes)))
               (ds_pending_protocol_operations state) |>.

Definition confirmed (e : BlockEffect) (v : ValidatedTx) : ConfirmedTxState :=
  {| cf_tx := vt_pending v; cf_block_height := ef_height e; cf_block_epoch := bh_epoch (ef_fields e);
     cf_block_hash := hex_encode (block_hash (ef_header e)) |}.

(** The accepted state, from the state after the operations. *)
Definition commit_block (e : BlockEffect) (next : DevnetState) : DevnetState :=
  let h := ef_fields e in
  let '(count, bitmap, correction) := ef_history e in
  let next := next <| ds_height := ef_height e |> <| ds_tip_epoch := bh_epoch h |>
      <| ds_tip_hash := hex_encode (block_hash (ef_header e)) |>
      <| ds_anchor_epoch := bh_epoch h |> <| ds_anchor_license_id := hex_encode (bh_license_id h) |>
      <| ds_anchor_ticket_index := bh_ticket h |>
      <| ds_anchor_argon2_proof := hex_encode (bh_proof h) |>
      <| ds_total_issued_strikes := ef_issued e |>
      <| ds_difficulty_history_count := count |> <| ds_difficulty_history_bitmap := bitmap |>
      <| ds_difficulty_correction_q32 := correction |> <| ds_base_fee_rate_q32 := ef_base_fee e |>
      <| ds_current_state_root := hex_encode (bh_state_root h) |> <| ds_utxos := ef_utxos e |> in
  let next := retain_unconfirmed e next in
  next <| ds_confirmed_transactions :=
            ds_confirmed_transactions next ++ map (confirmed e) (ef_validated e) |>
       <| ds_blocks := ds_blocks next ++ [block_record e] |>.

(** The state a block's root commits to: the operations applied at its epoch. *)
Definition post_operations (next : DevnetState) (epoch : Z) (txs : list TransactionV1)
    (operations : list ProtocolOperationV1) : node_result DevnetState :=
  let? (next, _) := apply_protocol_operations (next <| ds_tip_epoch := epoch |>) txs operations epoch in
  Ok next.

(** From the checked header on: transactions, coinbase, operations, root.  The
    state root of the header is that of the state it leads to. *)
Definition apply_body (next : DevnetState) (license : LicenseState) (h : HeaderFields) (header : bytes)
    (txs : list TransactionV1) (operations : list ProtocolOperationV1) (block_weight : Z)
    : node_result DevnetState :=
  let epoch := bh_epoch h in
  let height := ds_height next + 1 in
  let? (working_utxos, validated) := run_transactions next (tail txs) epoch height operations in
  let? (total_fees, treasury_share) := fee_totals validated in
  let validated := map settle_fees validated in
  let reward := subsidy epoch in
  let? miner_coinbase_amount := miner_amount reward total_fees treasury_share in
  let? coinbase := ok_or (Msg "block has no coinbase transaction"%string) (head txs) in
  let? _ := check_coinbase (ds_network_id next) epoch height (bh_parent h) operations license
              miner_coinbase_amount treasury_share coinbase in
  let? working_utxos := add_outputs_as_utxos working_utxos coinbase epoch height true in
  let? next_total_issued := ok_or (Msg "supply overflow"%string)
      (checked_add 64 (ds_total_issued_strikes next) reward) in
  let? history := next_history next in
  let? next_base_fee := adjusted_base_fee_rate (ds_base_fee_rate_q32 next) block_weight in
  let? next := post_operations next epoch txs operations in
  let '(count, bitmap, correction) := history in
  let? calculated_state_root := compute_state_root next working_utxos height next_total_issued
      count bitmap correction next_base_fee in
  if negb (bytes_eqb calculated_state_root (bh_state_root h))
  then Err (Msg ("StateRoot mismatch: header="%string +:+ hex_encode (bh_state_root h)
                 +:+ " local="%string +:+ hex_encode calculated_state_root))
  else
    Ok (commit_block
          {| ef_header := header; ef_fields := h; ef_height := height; ef_txs := txs;
             ef_operations := operations; ef_validated := validated; ef_reward := reward;
             ef_total_fees := total_fees; ef_treasury_share := treasury_share;
             ef_weight := block_weight; ef_issued := next_total_issued; ef_history := history;
             ef_base_fee := next_base_fee; ef_utxos := working_utxos |} next).

(** The operations of a block that make it the bootstrap block. *)
Definition is_bootstrap_block (state : DevnetState) (operations : list ProtocolOperationV1) : bool :=
  match operations with
  | [op] => (ds_height state =? 0) && (po_op_type op =? OP_BOOTSTRAP_COMMITMENT) && (po_op_version op =? 1)
  | _ => false
  end.

(** [validate_and_apply_block] on [header], which has 272 bytes: the next state
    and the block hash.  [fuel] is that of the bootstrap fixture. *)
Definition validate_and_apply_block (fuel : nat) (state : DevnetState) (header : bytes)
    (txs : list TransactionV1) (operations : list ProtocolOperationV1) : node_result (DevnetState * string) :=
  let? runtime := runtime_for_state state in
  if bool_decide (runtime = Mainnet) && (ds_height state =? 0)
  then err "Mainnet Genesis -> Block1 requires the authenticated runtime bootstrap route"
  else
    let core := take 208 header in
    let h := read_header_core core in
    let signature := slice 208 272 header in
    if is_bootstrap_block state operations
    then validate_and_apply_devnet_block1 fuel state header txs operations
    else
      let? _ := check_position state h in
      let? next := enter_epoch state (bh_epoch h) in
      let? license := mining_license next (bh_license_id h) (bh_epoch h) in
      let? _ := prevalidate_block_operations next operations (bh_epoch h) in
      let? _ := check_work next license h core signature operations in
      let? block_weight := check_body_root h txs operations in
      let? next := apply_body next license h header txs operations block_weight in
      Ok (next, ds_tip_hash next).
End blocks.
