(* ===== verification/NodePayload.v ===== *)
(** Blocks and headers on the wire ([mutiny-node/src/blocksync.rs]): the
    payload of a block, which is what the node stores of it, the batches of
    headers and the requests they answer. *)

From Stdlib Require Import Strings.Byte Strings.String.
From stdpp Require Import strings pretty.
From S2P Require Import Prelude Crypto Codec State Transaction Bitcoin Protocol P2p Collections NodeState NodeBootstrap NodeBlocks.

Definition MAX_HEADERS_PER_RESPONSE : Z := 256.
Definition MAX_BLOCK_TXS : Z := 1025.

(** [take_array::<N>] *)
Definition take_array (n : nat) (input : bytes) : node_result (bytes * bytes) :=
  if (length input <? n)%nat then err "unexpected end of block/header payload"
  else Ok (take n input, drop n input).

(** The bodies of the two loops of [encode_block_payload]. *)
Definition stored_transaction (raw : string) : node_result bytes :=
  let? tx := hex_bytes raw in
  let? parsed := map_err FromTx (TransactionV1_decode_full tx) in
  if negb (bytes_eqb (TransactionV1_encode_full parsed) tx)
  then err "stored transaction is not canonical Pack-B encoding"
  else Ok tx.

Definition stored_operation (raw : string) : node_result bytes :=
  let? bs := hex_bytes raw in
  let? op := decode_protocol_operation_bytes bs in
  if negb (bytes_eqb (ProtocolOperationV1_encode op) bs)
  then err "stored protocol operation is not canonical encoding"
  else Ok bs.

Definition encode_block_payload (block : BlockState) : node_result bytes :=
  let? header := hex_bytes (bk_header block) in
  if negb (length header =? 272)%nat then err "stored block header is not exactly 272 bytes"
  else
    let out := write_varuint header (Z.of_nat (length (bk_transactions block))) in
    let? txs := map_result stored_transaction (bk_transactions block) in
    let out := out ++ concat txs in
    let out := write_varuint out (Z.of_nat (length (bk_protocol_operations block))) in
    let? operations := map_result stored_operation (bk_protocol_operations block) in
    let out := out ++ concat operations in
    if MAX_P2P_PAYLOAD <? Z.of_nat (length out) then err "encoded block exceeds P2P payload limit"
    else Ok out.

Definition read_transaction (input : bytes) : node_result (TransactionV1 * bytes) :=
  map_err FromTx (TransactionV1_decode_from input).

(** The body of the loop over the operations. *)
Definition read_operation (input : bytes) : node_result (ProtocolOperationV1 * bytes) :=
  let? (op_type, input) := take_array 2 input in
  let? (op_version, input) := take_array 2 input in
  let? (payload_len, input) := map_err FromCodec (read_varuint input) in
  let? payload_len := ok_or (Msg "protocol operation payload length overflow"%string) (try_from 64 payload_len) in
  if Z.of_nat (length input) <? payload_len then err "truncated protocol operation payload"
  else Ok ({| po_op_type := be_val op_type; po_op_version := be_val op_version;
              po_payload := take (Z.to_nat payload_len) input |}, drop (Z.to_nat payload_len) input).

Section payload.
Context {SHA : Sha2}.

Definition decode_block_payload (payload : bytes)
    : node_result (bytes * list TransactionV1 * list ProtocolOperationV1) :=
  let? (header, input) := take_array 272 payload in
  let? (tx_count, input) := map_err FromCodec (read_varuint input) in
  if (tx_count =? 0) || (MAX_BLOCK_TXS <? tx_count)
  then err "block transaction count outside integrated limits"
  else
    let? (txs, input) := read_many read_transaction (Z.to_nat tx_count) input in
    let? (op_count, input) := map_err FromCodec (read_varuint input) in
    if 1024 <? op_count then err "protocol operation count exceeds V1 maximum 1024"
    else
      let? (operations, input) := read_many read_operation (Z.to_nat op_count) input in
      let? _ := map_err FromProtocol (protocol_operations_root operations) in
      if negb (is_empty input) then err "trailing bytes after canonical block body"
      else Ok (header, txs, operations).

Definition stored_header (block : BlockState) : node_result bytes :=
  let? header := hex_bytes (bk_header block) in
  if negb (length header =? 272)%nat then err "stored header length mismatch" else Ok header.

Definition encode_headers_response (state : DevnetState) (start_height requested_max : Z) : node_result bytes :=
  let max := Z.max 1 (Z.min requested_max MAX_HEADERS_PER_RESPONSE) in
  let selected := take (Z.to_nat max) (drop (Z.to_nat start_height) (ds_blocks state)) in
  let out := be_bytes 8 (ds_height state) in
  let out := write_varuint out (Z.of_nat (length selected)) in
  let? headers := map_result stored_header selected in
  Ok (out ++ concat headers).

Definition decode_headers_response (payload : bytes) : node_result (Z * list bytes) :=
  let? (tip_height, input) := take_array 8 payload in
  let? (count, input) := map_err FromCodec (read_varuint input) in
  if MAX_HEADERS_PER_RESPONSE <? count then err "HEADERS count exceeds Build 4 response cap"
  else
    let? (headers, input) := read_many (take_array 272) (Z.to_nat count) input in
    if negb (is_empty input) then err "trailing bytes in HEADERS payload"
    else Ok (be_val tip_height, headers).

Definition serve_get_headers (state : DevnetState) (payload : bytes) : node_result bytes :=
  if negb (length payload =? 10)%nat then err "GETHEADERS payload must be start_height:u64 + max:u16"
  else encode_headers_response state (be_val (slice 0 8 payload)) (be_val (slice 8 10 payload)).

Definition stores_block (hash : string) (b : BlockState) : bool := bool_decide (bk_block_hash b = hash).

(** The canonical chain first, then the side branches in order. *)
Definition serve_get_block (state : DevnetState) (payload : bytes) : node_result bytes :=
  if negb (length payload =? 32)%nat then err "GETBLOCK payload must be one 32-byte BlockHash"
  else
    let hash := hex_encode payload in
    match List.find (stores_block hash) (ds_blocks state) with
    | Some block => encode_block_payload block
    | None =>
        match List.find (stores_block hash) (concat (map sb_blocks (ds_side_branches state))) with
        | Some block => encode_block_payload block
        | None => err "requested block not found"
        end
    end.

Definition block_known (state : DevnetState) (hash_hex : string) : bool :=
  existsb (stores_block hash_hex) (ds_blocks state)
  || existsb (fun branch => existsb (stores_block hash_hex) (sb_blocks branch)) (ds_side_branches state).
End payload.

(** ** The wire format of a block *)

Lemma encode_varuint_nonempty v : is_u64 v -> (0 < length (encode_varuint v))%nat.
Proof.
  intros Hv. pose proof (read_varuint_app v [] Hv) as H. destruct (encode_varuint v); [done|cbn; lia].
Qed.

Lemma take_array_codec n : codec (take_array n) (fun b => b) (fun b => length b = n).
Proof.
  intros input a rest. unfold take_array. destruct (Nat.ltb_spec (length input) n).
  - split; [done|]. intros [Hl ->]. rewrite length_app in *. lia.
  - split.
    + intros H'%Ok_inj. apply pair_inj in H' as [<- <-]. rewrite length_take, take_drop. split; [lia|done].
    + intros [Hl ->]. by rewrite take_app_exact, drop_app_exact.
Qed.

Lemma operation_encode_eq op :
  ProtocolOperationV1_encode op = be_bytes 2 (po_op_type op) ++ be_bytes 2 (po_op_version op)
    ++ encode_varuint (Z.of_nat (length (po_payload op))) ++ po_payload op.
Proof. unfold ProtocolOperationV1_encode. norm_writes. done. Qed.

Lemma read_operation_codec : codec read_operation ProtocolOperationV1_encode operation_wf.
Proof.
  intros input op rest. rewrite operation_encode_eq. unfold read_operation, operation_wf. split.
  - destruct (take_array 2 input) as [[ty i1]|] eqn:E1; [|done]. apply take_array_codec in E1 as [Hty ->].
    destruct (take_array 2 i1) as [[ver i2]|] eqn:E2; [|done]. apply take_array_codec in E2 as [Hver ->].
    destruct (read_varuint i2) as [[n i3]|] eqn:E3; cbn [map_err]; [|done]. apply read_varuint_ok in E3 as [-> Hn].
    destruct (try_from 64 n) as [m|] eqn:E4; cbn [ok_or]; [|done]. apply try_from_Some in E4 as [-> _].
    destruct (_ <? n) eqn:E5; [done|]. apply cut_ok in E5 as (a & b & -> & -> & -> & ->); [|lia].
    intros H%Ok_inj. apply pair_inj in H as [<- <-]. cbn [po_op_type po_op_version po_payload].
    rewrite !be_bytes_be_val, <- !app_assoc by done. split; [|done].
    split; [by apply (be_val_range 2)|]. split; [by apply (be_val_range 2)|done].
  - intros [(H1 & H2 & H3) ->]. rewrite <- !app_assoc.
    rewrite (proj2 (take_array_codec 2 _ _ _)) by (split; [|reflexivity]; len).
    rewrite (proj2 (take_array_codec 2 _ _ _)) by (split; [|reflexivity]; len).
    rewrite read_varuint_app by done. cbn [map_err].
    rewrite try_from_small by apply H3. cbn [ok_or]. destruct (cut_app (po_payload op) rest) as (-> & -> & ->).
    rewrite !be_val_be_bytes by done. by destruct op.
Qed.

Lemma read_transaction_codec : codec read_transaction TransactionV1_encode_full tx_wf.
Proof.
  intros input tx rest. unfold read_transaction. split.
  - destruct (TransactionV1_decode_from input) as [[t r]|] eqn:E; cbn [map_err]; [|done].
    intros H%Ok_inj. apply pair_inj in H as [<- <-]. by apply decode_from_ok in E.
  - intros [Hw ->]. by rewrite decode_from_app.
Qed.

(** What may be in a block payload. *)
Definition payload_wf `{Sha2} (header : bytes) (txs : list TransactionV1) (ops : list ProtocolOperationV1) : Prop :=
  length header = 272%nat /\ 1 <= Z.of_nat (length txs) <= MAX_BLOCK_TXS /\ Forall tx_wf txs /\
  Z.of_nat (length ops) <= 1024 /\ Forall operation_wf ops /\ exists root, protocol_operations_root ops = Ok root.

Definition payload_bytes (header : bytes) (txs : list TransactionV1) (ops : list ProtocolOperationV1) : bytes :=
  header ++ encode_varuint (Z.of_nat (length txs)) ++ encode_many TransactionV1_encode_full txs
  ++ encode_varuint (Z.of_nat (length ops)) ++ encode_many ProtocolOperationV1_encode ops.

Section roundtrip.
Context {SHA : Sha2}.

Lemma decode_payload_iff bs header txs ops :
  decode_block_payload bs = Ok (header, txs, ops) <->
  payload_wf header txs ops /\ bs = payload_bytes header txs ops.
Proof.
  unfold decode_block_payload, payload_wf, payload_bytes. change MAX_BLOCK_TXS with 1025. split.
  - destruct (take_array 272 bs) as [[h i1]|] eqn:E1; [|done]. apply take_array_codec in E1 as [Hh ->].
    destruct (read_varuint i1) as [[n i2]|] eqn:E2; cbn [map_err]; [|done]. apply read_varuint_ok in E2 as [-> Hn].
    destruct (_ || _) eqn:E3; [done|]. apply orb_false_iff in E3 as [E3 E4]. bool_to_prop.
    destruct (read_many read_transaction _ i2) as [[ts i3]|] eqn:E5; [|done].
    apply (read_many_codec _ _ _ _ read_transaction_codec) in E5 as [[Hl Hf] ->].
    destruct (read_varuint i3) as [[m i4]|] eqn:E6; cbn [map_err]; [|done]. apply read_varuint_ok in E6 as [-> Hm].
    destruct (1024 <? m) eqn:E7; [done|]. bool_to_prop.
    destruct (read_many read_operation _ i4) as [[os i5]|] eqn:E8; [|done].
    apply (read_many_codec _ _ _ _ read_operation_codec) in E8 as [[Hl' Hf'] ->].
    destruct (protocol_operations_root os) as [root|] eqn:E9; cbn [map_err]; [|done].
    destruct i5 as [|]; [|done]. cbn [is_empty negb]. intros H%Ok_inj. apply pair_inj in H as [H <-].
    apply pair_inj in H as [<- <-]. rewrite Hl, Hl', !Z2Nat.id, app_nil_r by lia.
    split; [|done]. split_and!; try done; try lia. by exists root.
  - intros [(Hh & Hn & Ht & Hm & Ho & root & Hr) ->].
    rewrite (proj2 (take_array_codec 272 _ header _)) by done.
    rewrite read_varuint_app by lia. cbn [map_err].
    destruct (Z.eqb_spec (Z.of_nat (length txs)) 0); [lia|].
    destruct (Z.ltb_spec 1025 (Z.of_nat (length txs))); [lia|]. cbn [orb]. rewrite Nat2Z.id.
    rewrite (proj2 (read_many_codec _ _ _ _ read_transaction_codec _ txs _)) by done.
    rewrite read_varuint_app by lia. cbn [map_err].
    destruct (Z.ltb_spec 1024 (Z.of_nat (length ops))); [lia|]. rewrite Nat2Z.id.
    rewrite <- (app_nil_r (encode_many ProtocolOperationV1_encode ops)).
    rewrite (proj2 (read_many_codec _ _ _ _ read_operation_codec _ ops _)) by done.
    rewrite Hr. done.
Qed.


Lemma stored_transactions_ok txs :
  Forall tx_wf txs ->
  map_result stored_transaction (map (fun tx => hex_encode (TransactionV1_encode_full tx)) txs)
  = Ok (map TransactionV1_encode_full txs).
Proof.
  intros H. apply map_result_Forall2. induction H as [|tx txs Hw _ IH]; constructor; [|done].
  unfold stored_transaction. rewrite hex_bytes_encode. unfold TransactionV1_decode_full.
  pose proof (decode_from_app tx [] Hw) as Hd. rewrite app_nil_r in Hd. rewrite Hd. cbn [map_err].
  by rewrite bytes_eqb_refl.
Qed.

Lemma decode_operation_bytes_encode op :
  operation_wf op -> decode_protocol_operation_bytes (ProtocolOperationV1_encode op) = Ok op.
Proof.
  intros (H1 & H2 & H3). unfold decode_protocol_operation_bytes. rewrite operation_encode_eq.
  destruct (Nat.ltb_spec (length (be_bytes 2 (po_op_type op) ++ be_bytes 2 (po_op_version op)
      ++ encode_varuint (Z.of_nat (length (po_payload op))) ++ po_payload op)) 5) as [Hl|_].
  { exfalso. pose proof (encode_varuint_nonempty _ H3). len. }
  rewrite slice_app_here, (slice_app_skip 2), slice_app_here by len.
  rewrite (app_assoc (be_bytes 2 _)), drop_app_exact by len.
  rewrite read_varuint_app by done. cbn [map_err].
  rewrite try_from_small by apply H3. cbn [ok_or]. rewrite Z.eqb_refl, !be_val_be_bytes by done. by destruct op.
Qed.

Lemma stored_operations_ok ops :
  Forall operation_wf ops ->
  map_result stored_operation (map (fun op => hex_encode (ProtocolOperationV1_encode op)) ops)
  = Ok (map ProtocolOperationV1_encode ops).
Proof.
  intros H. apply map_result_Forall2. induction H as [|op ops Hw _ IH]; constructor; [|done].
  unfold stored_operation. rewrite hex_bytes_encode, decode_operation_bytes_encode by done. by rewrite bytes_eqb_refl.
Qed.

(** A block as the node stores it. *)
Definition stores (b : BlockState) (header : bytes) (txs : list TransactionV1) (ops : list ProtocolOperationV1) : Prop :=
  bk_header b = hex_encode header /\
  bk_transactions b = map (fun tx => hex_encode (TransactionV1_encode_full tx)) txs /\
  bk_protocol_operations b = map (fun op => hex_encode (ProtocolOperationV1_encode op)) ops.

Lemma encode_stored b header txs ops :
  stores b header txs ops -> payload_wf header txs ops ->
  Z.of_nat (length (payload_bytes header txs ops)) <= MAX_P2P_PAYLOAD ->
  encode_block_payload b = Ok (payload_bytes header txs ops).
Proof.
  intros (H1 & H2 & H3) (Hh & _ & Ht & _ & Ho & _) Hl. unfold encode_block_payload.
  rewrite H1, H2, H3, hex_bytes_encode, Hh, stored_transactions_ok, stored_operations_ok by done.
  rewrite !length_map. norm_writes. cbn [negb Nat.eqb].
  fold (encode_many TransactionV1_encode_full txs) (encode_many ProtocolOperationV1_encode ops).
  fold (payload_bytes header txs ops).
  destruct (Z.ltb_spec MAX_P2P_PAYLOAD (Z.of_nat (length (payload_bytes header txs ops)))); [lia|done].
Qed.

(** Headers. *)
Lemma headers_response_eq s start max bs :
  encode_headers_response s start max = Ok bs ->
  exists headers, Forall2 (fun b h => stored_header b = Ok h)
      (take (Z.to_nat (Z.max 1 (Z.min max MAX_HEADERS_PER_RESPONSE))) (drop (Z.to_nat start) (ds_blocks s))) headers /\
    bs = be_bytes 8 (ds_height s) ++ encode_varuint (Z.of_nat (length headers)) ++ concat headers.
Proof.
  unfold encode_headers_response. destruct (map_result _ _) as [hs|] eqn:E; [|done]. intros <-%Ok_inj.
  apply map_result_Forall2 in E. exists hs. split; [done|]. norm_writes.
  by rewrite (Forall2_length _ _ _ E).
Qed.

Lemma headers_response_ok s start max payload :
  is_u64 (ds_height s) -> encode_headers_response s start max = Ok payload ->
  exists headers, decode_headers_response payload = Ok (ds_height s, headers) /\
    Z.of_nat (length headers) <= MAX_HEADERS_PER_RESPONSE /\
    Forall2 (fun b h => hex_bytes (bk_header b) = Ok h)
      (take (Z.to_nat (Z.max 1 (Z.min max MAX_HEADERS_PER_RESPONSE))) (drop (Z.to_nat start) (ds_blocks s)))
      headers.
Proof.
  intros Hh (hs & HF & ->)%headers_response_eq. exists hs.
  assert (Z.of_nat (length hs) <= 256) as Hlen.
  { rewrite <- (Forall2_length _ _ _ HF), length_take. unfold MAX_HEADERS_PER_RESPONSE. lia. }
  assert (Forall (fun h => length h = 272%nat) hs /\
          Forall2 (fun b h => hex_bytes (bk_header b) = Ok h)
            (take (Z.to_nat (Z.max 1 (Z.min max MAX_HEADERS_PER_RESPONSE))) (drop (Z.to_nat start) (ds_blocks s))) hs)
    as [H272 HF'].
  { clear Hlen. induction HF as [|b h bl hl Hb _ [IH1 IH2]]; [done|]. unfold stored_header in Hb.
    destruct (hex_bytes (bk_header b)) as [x|] eqn:E; [|done]. destruct (negb _) eqn:El; [done|].
    apply Ok_inj in Hb as ->. bool_to_prop. split; by constructor. }
  split_and!; [|done|done]. unfold decode_headers_response.
  rewrite (proj2 (take_array_codec 8 _ (be_bytes 8 (ds_height s)) _)) by (split; [len|done]).
  rewrite read_varuint_app by lia. cbn [map_err]. change MAX_HEADERS_PER_RESPONSE with 256.
  destruct (Z.ltb_spec 256 (Z.of_nat (length hs))); [lia|]. rewrite Nat2Z.id.
  rewrite <- (app_nil_r (concat hs)).
  assert (concat hs = encode_many (fun h => h) hs) as -> by (unfold encode_many; by rewrite map_id).
  rewrite (proj2 (read_many_codec _ _ _ _ (take_array_codec 272) _ hs _)) by done.
  cbn [is_empty negb]. by rewrite be_val_be_bytes.
Qed.

(** C39: the node's payloads are canonical.  A byte string decodes as a block
    exactly when it is the payload of 1 to 1025 well-formed transactions and at
    most 1024 sorted operations; what the node stores of such a block is served
    as exactly that payload, so the receiver decodes the block that was stored;
    and a batch of headers decodes to the height and the headers of the
    requested window, at most 256 of them. *)
Theorem block_payload_canonical bs header txs ops :
  (decode_block_payload bs = Ok (header, txs, ops) <->
   payload_wf header txs ops /\ bs = payload_bytes header txs ops) /\
  (forall b, stores b header txs ops -> payload_wf header txs ops ->
     Z.of_nat (length (payload_bytes header txs ops)) <= MAX_P2P_PAYLOAD ->
     encode_block_payload b = Ok (payload_bytes header txs ops)) /\
  (forall s start max payload, is_u64 (ds_height s) -> encode_headers_response s start max = Ok payload ->
     exists headers, decode_headers_response payload = Ok (ds_height s, headers) /\
       Z.of_nat (length headers) <= MAX_HEADERS_PER_RESPONSE /\
       Forall2 (fun b h => hex_bytes (bk_header b) = Ok h)
         (take (Z.to_nat (Z.max 1 (Z.min max MAX_HEADERS_PER_RESPONSE))) (drop (Z.to_nat start) (ds_blocks s)))
         headers).
Proof.
  split; [apply decode_payload_iff|]. split; [intros b; apply encode_stored|].
  apply headers_response_ok.
Qed.
End roundtrip.
