(* ===== verification/NodeMining.v ===== *)
(** Block production ([mutiny-node/src/main.rs]): which pending operations and
    transactions a candidate takes, the search for a winning ticket, and the
    construction of the block. *)

From Stdlib Require Import Strings.Byte Strings.String.
From stdpp Require Import strings pretty.
From S2P Require Import Prelude Crypto Codec Consensus Smt State Transaction Protocol ProtocolRules Collections NodeState Economy NodePresence NodePunishment NodeUtxo NodeDividends NodeBitcoin NodePurchase NodeRoots NodeBootstrap NodeEpoch NodeMempool NodeOperations NodeBlocks.

(** [trait MiningAuthority] ([mining_signer.rs]). *)
Record MiningAuthority := {
  ma_public_key : bytes32;
  ma_presence : DevnetState -> nat -> Z -> node_result ProtocolOperationV1;
  ma_sign_candidate : DevnetState -> Z -> bytes -> node_result bytes;
}.

Section mining.
Context {SHA : Sha2} {ED : Ed25519} {AR : Argon2}.

(** [impl MiningAuthority for SigningKey], outside of tests. *)
Definition signing_key_authority (sk : bytes32) : MiningAuthority :=
  {| ma_public_key := sk_public sk;
     ma_presence := fun state li epoch => create_operation state li epoch sk;
     ma_sign_candidate := fun state _ core =>
       if negb (ds_network_id state =? DEVNET_NETWORK_ID)
       then err "Mainnet block signing requires durable MiningSigner"
       else Ok (sk_sign sk (block_signing_digest core)) |}.

(** [for slot in 0u16..=255] *)
Definition dev_signing_key_for_public_key (public_key : bytes32) : option bytes32 :=
  List.find (fun sk => bytes_eqb (sk_public sk) public_key)
    (map (fun slot => dev_seed (Z.of_nat slot)) (seq 0 256)).

Definition dev_signing_key_for_license (license : LicenseState) : option bytes32 :=
  match decode32 (ls_mining_public_key license) with
  | Ok expected => dev_signing_key_for_public_key expected
  | Err _ => None
  end.

Definition mineable_license_indices (state : DevnetState) (epoch : Z) : list nat :=
  List.filter (fun i => match ds_licenses state !! i with
                        | Some license => is_eligible license epoch
                                          && bool_decide (is_Some (dev_signing_key_for_license license))
                        | None => false
                        end) (seq 0 (length (ds_licenses state))).

(** ** Selection of protocol operations *)

Definition known_operation_type (ty : Z) : bool :=
  existsb (Z.eqb ty) [OP_LICENSE_PURCHASE_BTC; OP_LICENSE_PURCHASE_MUT; OP_LICENSE_TRANSFER;
                      OP_LICENSE_MINING_KEY_ROTATE; OP_PUNISHMENT_EVIDENCE; OP_DIVIDEND_CLAIM;
                      OP_MINING_PRESENCE; OP_BITCOIN_HEADERS].

(** The first loop: the queue without the operations whose transaction is gone. *)
Definition queue_operation (mempool_txids : list string)
    (acc : list ProtocolOperationV1 * gset bytes32) (pending : PendingProtocolOperationState)
    : node_result (list ProtocolOperationV1 * gset bytes32) :=
  let '(queued, seen) := acc in
  let required := pp_required_txid pending in
  if negb (bool_decide (required = ""%string)) && negb (bool_decide (required ∈ mempool_txids))
  then Ok (queued, seen)
  else
    let? op := PendingProtocolOperationState_operation pending in
    if negb (po_op_version op =? 1) then err "unknown protocol operation version in pending queue"
    else if negb (known_operation_type (po_op_type op))
    then Err (Msg ("Build 5.4 live engine does not accept protocol operation type "%string
                   +:+ pretty (po_op_type op)))
    else
      let? seen := insert_new (Msg "duplicate pending protocol OperationID"%string) (operation_id op) seen in
      Ok (queued ++ [op], seen).

(** Whether a key change is ready: its expected sequences are the current ones. *)
Inductive readiness := Stale | Future | Ready.

Definition sequence_readiness (expected_owner expected_mining : Z) (license : LicenseState) : readiness :=
  if (expected_owner <? ls_owner_key_sequence license) || (expected_mining <? ls_mining_key_sequence license)
  then Stale
  else if (ls_owner_key_sequence license <? expected_owner)
          || (ls_mining_key_sequence license <? expected_mining)
  then Future else Ready.

Record selection := {
  sl_selected : list ProtocolOperationV1;
  sl_authority : gset bytes32;
  sl_presence : gset bytes32;
}.

Definition sl_push (op : ProtocolOperationV1) (s : selection) : selection :=
  {| sl_selected := sl_selected s ++ [op]; sl_authority := sl_authority s; sl_presence := sl_presence s |}.

(** A transfer or rotation: at most one per license. *)
Definition select_authority (state : DevnetState) (s : selection) (op : ProtocolOperationV1)
    (id : bytes32) (expected_owner expected_mining : Z) (unknown stale : NodeError) : node_result selection :=
  let? license := ok_or unknown (find_license state id) in
  match sequence_readiness expected_owner expected_mining license with
  | Stale => Err stale
  | Future => Ok s
  | Ready =>
      if bool_decide (id ∈ sl_authority s) then Ok s
      else Ok {| sl_selected := sl_selected s ++ [op]; sl_authority := {[id]} ∪ sl_authority s;
                 sl_presence := sl_presence s |}
  end.

Definition push_if (ready : node_result bool) (op : ProtocolOperationV1) (s : selection)
    : node_result selection :=
  let? ready := ready in
  if (ready : bool) then Ok (sl_push op s) else Ok s.

(** The body of the second loop. *)
Definition select_operation (state : DevnetState) (block_epoch : Z) (s : selection)
    (op : ProtocolOperationV1) : node_result selection :=
  let ty := po_op_type op in
  if ty =? OP_LICENSE_PURCHASE_BTC then push_if (dependency_ready_at_epoch state op block_epoch) op s
  else if ty =? OP_LICENSE_PURCHASE_MUT then Ok (sl_push op s)
  else if ty =? OP_LICENSE_TRANSFER then
    let? transfer := decode_license_transfer_operation op in
    select_authority state s op (lt_license_id transfer) (lt_expected_owner_sequence transfer)
      (lt_expected_mining_sequence transfer)
      (Msg "pending Mining License transfer references unknown LicenseID"%string)
      (Msg "stale pending Mining License transfer authority sequence"%string)
  else if ty =? OP_LICENSE_MINING_KEY_ROTATE then
    let? rotation := decode_mining_key_rotation_operation op in
    select_authority state s op (kr_license_id rotation) (kr_expected_owner_sequence rotation)
      (kr_expected_mining_sequence rotation)
      (Msg "pending mining-key rotation references unknown LicenseID"%string)
      (Msg "stale pending mining-key rotation authority sequence"%string)
  else if ty =? OP_PUNISHMENT_EVIDENCE then push_if (punishment_dependency_ready state op) op s
  else if ty =? OP_DIVIDEND_CLAIM then push_if (dividend_dependency_ready state op) op s
  else if ty =? OP_MINING_PRESENCE then
    let? presence := decode_operation op in
    if negb (mi_presence_epoch presence =? block_epoch) then Ok s
    else
      let? _ := validate_operation_against_parent state op block_epoch in
      if bool_decide (mi_license_id presence ∈ sl_authority s)
      then err "Pack K forbids same-block authority change plus MINING_PRESENCE for one LicenseID"
      else
        let? targets := insert_new
            (Msg "Pack K permits at most one pending MINING_PRESENCE per LicenseID per block"%string)
            (mi_license_id presence) (sl_presence s) in
        Ok {| sl_selected := sl_selected s ++ [op]; sl_authority := sl_authority s; sl_presence := targets |}
  else if block_epoch <? PACK_M_BTC_DISABLE_EPOCH then Ok (sl_push op s) else Ok s.

(** [sort_by_key(|op| (op.op_type, op.operation_id()))] *)
Definition sort_operations : list ProtocolOperationV1 -> list ProtocolOperationV1 :=
  sort_by (fun a b => negb (op_key_ltb (op_key b) (op_key a))).

Definition sorted_pending_protocol_operations_for_epoch (state : DevnetState) (block_epoch : Z)
    : node_result (list ProtocolOperationV1) :=
  let? (queued, _) := fold_result (queue_operation (map pd_txid (ds_mempool state))) ([], ∅)
                        (ds_pending_protocol_operations state) in
  if (1024 <? length queued)%nat then err "pending protocol operation count exceeds V1 maximum 1024"
  else
    let? s := fold_result (select_operation state block_epoch)
                {| sl_selected := []; sl_authority := ∅; sl_presence := ∅ |} (sort_operations queued) in
    let? _ := map_err FromProtocol (protocol_operations_root (sl_selected s)) in
    Ok (sl_selected s).

Definition candidate_protocol_operations (state : DevnetState) (epoch : Z) (license_index : nat)
    (signer : MiningAuthority) : node_result (list ProtocolOperationV1) :=
  let? operations := sorted_pending_protocol_operations_for_epoch state epoch in
  if negb (active state epoch) then Ok operations
  else
    let? license := ok_or (Msg "license number out of range"%string) (ds_licenses state !! license_index) in
    let? license_id := decode32 (ls_license_id license) in
    let authority_conflict := existsb (fun op =>
        match authority_operation_license_id op with
        | Ok (Some id) => bytes_eqb id license_id
        | _ => false
        end) operations in
    let? presences := map_result decode_operation
        (List.filter (fun op => po_op_type op =? OP_MINING_PRESENCE) operations) in
    let existing_self_presence :=
      length (List.filter (fun p => bytes_eqb (mi_license_id p) license_id) presences) in
    if (1 <? existing_self_presence)%nat then err "candidate has duplicate self-presence operations"
    else
      let? operations :=
        if authority_conflict then
          if negb (license_has_fresh_presence state license epoch)
          then err "candidate mining license needs self-presence but has a same-block authority change"
          else Ok operations
        else if (existing_self_presence =? 0)%nat then
          let? op := ma_presence signer state license_index epoch in
          Ok (operations ++ [op])
        else Ok operations in
      let operations := sort_operations operations in
      let? _ := prevalidate_block_operations state operations epoch in
      let? _ := map_err FromProtocol (protocol_operations_root operations) in
      Ok operations.

(** ** Selection of transactions *)

Definition selected_protocol_transaction_ids (state : DevnetState) (operations : list ProtocolOperationV1)
    : node_result (list string) :=
  let selected_opids := map operation_id operations in
  fold_result (fun txids pending =>
      let? op := PendingProtocolOperationState_operation pending in
      if bool_decide (operation_id op ∈ selected_opids)
         && negb (bool_decide (pp_required_txid pending = ""%string))
      then Ok (txids ++ [pp_required_txid pending]) else Ok txids)
    [] (ds_pending_protocol_operations state).

Definition selected_block_mempool (state : DevnetState) (operations : list ProtocolOperationV1)
    : node_result (list PendingTxState) :=
  let? selected_protocol_txids := selected_protocol_transaction_ids state operations in
  Ok (List.filter (fun pending => negb (transaction_is_protocol_bound state (pd_txid pending))
                                  || bool_decide (pd_txid pending ∈ selected_protocol_txids))
        (ds_mempool state)).

(** ** Construction of a block *)

(** [signer.public_key() != mining_public_key] of the selected license. *)
Definition signer_for (secure_signer : option MiningAuthority) (license : LicenseState)
    : node_result MiningAuthority :=
  match secure_signer with
  | Some signer =>
      let? mining_key := decode32 (ls_mining_public_key license) in
      if negb (bytes_eqb (ma_public_key signer) mining_key)
      then err "provided signing key does not match the selected Mining License authority"
      else Ok signer
  | None =>
      let? sk := ok_or (Msg "local Devnet does not hold the selected Mining License private key"%string)
          (dev_signing_key_for_license license) in
      Ok (signing_key_authority sk)
  end.

(** Once Pack K is active the target must be the one of the candidate count. *)
Definition check_local_target (state : DevnetState) (epoch : Z) (license_id target : bytes32)
    (operations : list ProtocolOperationV1) : node_result unit :=
  if active state epoch then
    let? count := candidate_eligible_count state epoch license_id operations in
    let? expected_target := map_err FromConsensus
        (derive_target (authorized_capacity count) (ds_difficulty_correction_q32 state)) in
    if negb (bytes_eqb target expected_target)
    then err "local candidate target does not match Pack-K eligible-count derivation"
    else Ok tt
  else Ok tt.

Definition block_coinbase (network_id epoch height : Z) (parent protocol_root : bytes32)
    (outputs : list TxOutput) : TransactionV1 :=
  {| tx_core :=
       {| tc_version := 1; tc_network_id := network_id; tc_valid_from_epoch := epoch; tc_expiry_epoch := 0;
          tc_inputs := [Coinbase {| cc_block_epoch := epoch; cc_block_height := height;
                                    cc_parent_block_hash := parent;
                                    cc_protocol_operations_root := protocol_root |}];
          tc_outputs := outputs |};
     tx_witnesses := [] |}.

(** [accept_dev_block_with_signer_and_operations]: the next state. *)
Definition accept_dev_block (state : DevnetState) (epoch : Z) (license_index : nat) (ticket : Z)
    (proof target : bytes32) (secure_signer : option MiningAuthority)
    (operations : list ProtocolOperationV1) : node_result DevnetState :=
  let? runtime := runtime_for_state state in
  if bool_decide (runtime = Mainnet) && bool_decide (secure_signer = None)
  then err "Mainnet mining requires an authorized operational mining signer"
  else
    let height := ds_height state + 1 in
    let? parent := decode32 (ds_tip_hash state) in
    let? license := ok_or (Msg "index out of bounds"%string) (ds_licenses state !! license_index) in
    let? license_id := decode32 (ls_license_id license) in
    let reward := subsidy epoch in
    let? _ := check_local_target state epoch license_id target operations in
    let? mempool := selected_block_mempool state operations in
    let? (working_utxos, validated) :=
      validate_and_apply_mempool (state <| ds_mempool := mempool |>) (ds_utxos state) epoch height operations in
    let? (total_fees, treasury_share) := fee_totals validated in
    let? miner_coinbase_amount := miner_amount reward total_fees treasury_share in
    let? protocol_root := map_err FromProtocol (protocol_operations_root operations) in
    let? address := decode32 (ls_payment_address_id license) in
    let coinbase := block_coinbase (ds_network_id state) epoch height parent protocol_root
        (coinbase_outputs (ds_network_id state) address miner_coinbase_amount treasury_share) in
    let? working_utxos := add_outputs_as_utxos working_utxos coinbase epoch height true in
    let txs := coinbase :: map vt_tx validated in
    let? tx_root := ok_or (Msg "block must contain coinbase"%string)
        (merkle_root (map TransactionV1_leaf txs)) in
    let? block_weight := block_body_weight txs operations in
    if BLOCK_WEIGHT_MAX <? block_weight
    then Err (Msg ("block weight "%string +:+ pretty block_weight +:+ " exceeds "%string
                   +:+ pretty BLOCK_WEIGHT_MAX))
    else
      let? post_protocol_state := post_operations state epoch txs operations in
      let? next_total_issued := ok_or (Msg "supply overflow"%string)
          (checked_add 64 (ds_total_issued_strikes state) reward) in
      let? history := next_history state in
      let? next_base_fee := adjusted_base_fee_rate (ds_base_fee_rate_q32 state) block_weight in
      let '(count, bitmap, correction) := history in
      let? next_state_root := compute_state_root post_protocol_state working_utxos height next_total_issued
          count bitmap correction next_base_fee in
      let h := {| bh_version := 1; bh_network_id := ds_network_id state; bh_epoch := epoch;
                  bh_parent := parent; bh_tx_root := tx_root; bh_state_root := next_state_root;
                  bh_target := target; bh_license_id := license_id; bh_ticket := ticket;
                  bh_proof := proof |} in
      let core := header_core h in
      let? sk := signer_for secure_signer license in
      let? sig := ma_sign_candidate sk state height core in
      let header := core ++ sig in
      Ok (commit_block
            {| ef_header := header; ef_fields := h; ef_height := height; ef_txs := txs;
               ef_operations := operations; ef_validated := validated; ef_reward := reward;
               ef_total_fees := total_fees; ef_treasury_share := treasury_share;
               ef_weight := block_weight; ef_issued := next_total_issued; ef_history := history;
               ef_base_fee := next_base_fee; ef_utxos := working_utxos |}
            (persist_protocol_state state post_protocol_state)).

(** ** Mining one epoch *)

(** [for ticket in 0..w]: the first ticket whose proof is below the target. *)
Fixpoint search_ticket (anchor : bytes32) (epoch : Z) (license_id target : bytes32) (tickets : list nat)
    : node_result (option (Z * bytes32)) :=
  match tickets with
  | [] => Ok None
  | ticket :: tickets =>
      let? proof := ticket_proof anchor epoch license_id (Z.of_nat ticket) in
      if proof_below_target proof target then Ok (Some (Z.of_nat ticket, proof))
      else search_ticket anchor epoch license_id target tickets
  end.

(** The body of the loop over the licenses that may mine: the next state if the
    license wins. *)
Definition try_license (state : DevnetState) (epoch : Z) (anchor : bytes32)
    (secure_signer : option (nat * MiningAuthority)) (li : nat) : node_result (option DevnetState) :=
  let? license := ok_or (Msg "index out of bounds"%string) (ds_licenses state !! li) in
  let? license_id := decode32 (ls_license_id license) in
  let selected_secure := match secure_signer with
                         | Some (license_index, signer) =>
                             if (license_index =? li)%nat then Some signer else None
                         | None => None
                         end in
  let? candidate_signer := match selected_secure with
      | Some signer => Ok signer
      | None =>
          let? sk := ok_or (Msg "local Devnet does not hold the selected Mining License private key"%string)
              (dev_signing_key_for_license license) in
          Ok (signing_key_authority sk)
      end in
  let? operations := candidate_protocol_operations state epoch li candidate_signer in
  let? candidate_eligible := candidate_eligible_count state epoch license_id operations in
  let? target := map_err FromConsensus
      (derive_target (authorized_capacity candidate_eligible) (ds_difficulty_correction_q32 state)) in
  let? win := search_ticket anchor epoch license_id target (seq 0 (Z.to_nat (work_units candidate_eligible))) in
  match win with
  | None => Ok None
  | Some (ticket, proof) =>
      let? state := accept_dev_block state epoch li ticket proof target selected_secure operations in
      Ok (Some state)
  end.

Fixpoint try_licenses (state : DevnetState) (epoch : Z) (anchor : bytes32)
    (secure_signer : option (nat * MiningAuthority)) (mineable : list nat) : node_result (option DevnetState) :=
  match mineable with
  | [] => Ok None
  | li :: mineable =>
      let? won := try_license state epoch anchor secure_signer li in
      match won with
      | Some state => Ok (Some state)
      | None => try_licenses state epoch anchor secure_signer mineable
      end
  end.

(** The licenses tried: the signer's, or those whose development key is known. *)
Definition select_mineable (state : DevnetState) (epoch : Z) (secure_signer : option (nat * MiningAuthority))
    : node_result (list nat) :=
  match secure_signer with
  | Some (license_index, signer) =>
      let? license := ok_or (Msg "license number out of range"%string) (ds_licenses state !! license_index) in
      if negb (is_eligible license epoch)
      then err "selected encrypted-custody Mining License is not base-eligible in the candidate epoch"
      else
        let? mining_key := decode32 (ls_mining_public_key license) in
        if negb (bytes_eqb (ma_public_key signer) mining_key)
        then err "provided signing key does not match the current on-chain mining authority"
        else Ok [license_index]
  | None => Ok (mineable_license_indices state epoch)
  end.

Definition mine_epoch_with_signer (state : DevnetState) (epoch : Z)
    (secure_signer : option (nat * MiningAuthority)) : node_result DevnetState :=
  if (10 <=? ds_format_version state) && (ds_height state =? 0)
  then err "Build 5.4 requires bootstrap-dev to commit Block 1 before mining"
  else if (epoch <=? ds_tip_epoch state) && (0 <? ds_height state)
  then err "candidate epoch must be greater than tip epoch"
  else if (ds_height state =? 0) && (epoch <? ACTIVATION_DELAY_EPOCHS)
  then err "bootstrap licenses are not active yet"
  else
    let? state :=
      if (0 <? ds_height state) && (ds_network_id state =? MAINNET_NETWORK_ID)
      then advance_empty_epochs state (saturating_sub epoch 1)
      else if 0 <? ds_height state then mine_skip state epoch
      else Ok state in
    let? (state, _) := apply_scheduled_license_transitions state epoch in
    let? mineable := select_mineable state epoch secure_signer in
    let? anchor := block_anchor state in
    let? won := try_licenses state epoch anchor secure_signer mineable in
    match won with
    | Some state => Ok state
    | None =>
        let state := state <| ds_tip_epoch := epoch |> in
        let? state := if difficulty_observation_enabled state epoch
                      then append_difficulty_result state false else Ok state in
        refresh_current_state_root state
    end.
End mining.
