(* ===== verification/MiningSigner.v ===== *)
(** Crate [mutiny-node], file mining_signer.rs: the durable signer.

    A node that signs two headers for one winning ticket commits a Tier-3
    offense.  The signer writes an authorization record for every header into a
    directory before it signs, under a name that is the hash of the ticket's
    scope, and refuses a second header of the same scope.  The directory is a
    disk of [Files] whose paths are file names; [hard_link] publishes a record
    and never replaces one (the non-Windows [durable_publish]).  Projections:
    [ms_] for [MiningSigner], [sw_] for the directory with the instance that
    holds its lock and the signatures it has given out.

    [never_two_headers_for_a_ticket] holds over any history of openings,
    signatures, I/O errors and crashes; [signer_is_never_convicted] puts it
    together with the validation of Tier-3 evidence of [NodePunishment].  Other
    offenses are not excluded: the signer does not check the proof of a header. *)

From stdpp Require Import strings.
From S2P Require Import Prelude Crypto Codec Protocol ProtocolRules Collections Files NodeState NodePresence NodePunishment NodeBlocks.

Definition BINDING_MAGIC : bytes := ascii_bytes "MUTMSB01".
Definition RECORD_MAGIC : bytes := ascii_bytes "MUTMSA01".
Definition BINDING_LEN : nat := 8 + 4 + 32 + 32 + 32.
Definition RECORD_LEN : nat := 8 + BINDING_LEN + 8 + 208 + 32.

Record MiningSigner := {
  ms_key : bytes32;
  ms_binding : bytes;
  ms_failed : bool;
}.

(** A durability error disables the instance. *)
Definition disabled (s : MiningSigner) : MiningSigner :=
  {| ms_key := ms_key s; ms_binding := ms_binding s; ms_failed := true |}.

Abbreviation dio := (io string).
Abbreviation directory := (disk string).

(** The text of an error of the node; only messages are told apart. *)
Definition node_message (e : NodeError) : string :=
  match e with Msg text => text | _ => "invalid stored value"%string end.
Definition from_node {A} (r : node_result A) : result string A := map_err node_message r.

(** [str::ends_with] *)
Definition ends_with (suffix s : string) : bool :=
  let l := String.list_ascii_of_string s in
  let x := String.list_ascii_of_string suffix in
  bool_decide (drop (length l - length x) l = x).

Definition authorization_name (scope : string) : string := (scope ++ ".authorization")%string.
Definition pending_name (name : string) : string := (name ++ ".pending")%string.

Section signer.
Context {SHA : Sha2} {ED : Ed25519}.

Definition binding (state : DevnetState) (li : nat) (public : bytes32) : result string bytes :=
  let? _ := from_node (validate_runtime_tuple state Mainnet) in
  let? license := ok_or "signer license missing"%string (ds_licenses state !! li) in
  let? mining_public_key := from_node (decode32 (ls_mining_public_key license)) in
  if negb (bytes_eqb mining_public_key public) then Err "signer public key/license mismatch"%string else
  let b := BINDING_MAGIC in
  let b := b ++ be_bytes 4 (ds_network_id state) in
  let? genesis := from_node (decode32 (ds_genesis_hash state)) in
  let b := b ++ genesis in
  let? license_id := from_node (decode32 (ls_license_id license)) in
  let b := b ++ license_id in
  let b := b ++ public in
  Ok b.

(** Parent and height do not split the scope. *)
Definition scope (binding core : bytes) : string :=
  let bs := ascii_bytes "MUTINY-MINING-SCOPE-V1" in
  let bs := bs ++ binding in
  let bs := bs ++ slice 6 14 core in
  let bs := bs ++ slice 110 208 core in
  hex_encode (sha256 bs).

Definition record (binding : bytes) (height : Z) (core : bytes) : bytes :=
  let b := RECORD_MAGIC in
  let b := b ++ binding in
  let b := b ++ be_bytes 8 height in
  let b := b ++ core in
  let checksum := sha256 b in
  b ++ checksum.

Definition validate_record (bs expected : bytes) : result string string :=
  if negb (length bs =? RECORD_LEN)%nat || negb (bytes_eqb (slice 0 8 bs) RECORD_MAGIC)
     || negb (bytes_eqb (slice 8 (8 + BINDING_LEN) bs) expected)
  then Err "signer record format/authority mismatch"%string else
  if negb (bytes_eqb (sha256 (take (RECORD_LEN - 32) bs)) (drop (RECORD_LEN - 32) bs))
  then Err "signer record checksum mismatch"%string else
  let core := slice (16 + BINDING_LEN) (RECORD_LEN - 32) bs in
  if negb (bytes_eqb (slice 2 6 core) (slice 8 12 expected))
     || negb (bytes_eqb (slice 142 174 core) (slice 44 76 expected))
  then Err "signer record core binding mismatch"%string else
  Ok (scope expected core).

(** ** Publishing a file *)

Definition durable_publish (from to : string) : dio unit :=
  let! _ := link_file from to in
  let! _ := touch in
  let! _ := remove_file from in
  touch.

Definition commit (name : string) (bs : bytes) : dio unit :=
  let pending := pending_name name in
  let! _ := write_new_file pending bs in
  durable_publish pending name.

(** ** Opening a directory *)

(** The checks of one entry of the directory. *)
Definition check_entry (binding : bytes) (name : string) : dio unit :=
  if bool_decide (name = "signer.lock"%string) || bool_decide (name = "authority.v1"%string)
  then io_ret tt else
  if negb (ends_with ".authorization" name)
  then io_fail "signer contains incomplete or unknown record; fail closed" else
  let! bs := read_file name in
  let! sc := io_of (validate_record bs binding) in
  if negb (bool_decide (authorization_name sc = name))
  then io_fail "signer record scope filename mismatch" else io_ret tt.

Fixpoint check_entries (binding : bytes) (names : list string) : dio unit :=
  match names with
  | [] => io_ret tt
  | name :: names => let! _ := check_entry binding name in check_entries binding names
  end.

Definition entry_names (d : directory) : list string := map fst (map_to_list d).

(** [if initialize { .. }] *)
Definition initialize_history (b : bytes) : dio unit :=
  let! _ := touch in
  io_look (fun d =>
    if existsb (fun e => negb (bool_decide (e = "signer.lock"%string))) (entry_names d)
    then io_fail "refusing to initialize nonempty signer history"
    else commit "authority.v1" b).

(** From the reading of the authority file on. *)
Definition load_history (b key : bytes) : dio MiningSigner :=
  let! authority := read_file "authority.v1"%string in
  if negb (bytes_eqb authority b) then io_fail "signer authority binding mismatch" else
  let! _ := touch in
  let! _ := io_look (fun d => check_entries b (entry_names d)) in
  io_ret {| ms_key := key; ms_binding := b; ms_failed := false |}.

(** [lock_held]: another instance holds the lock of this directory. *)
Definition MiningSigner_open (state : DevnetState) (li : nat) (key : bytes32) (root_is_dir initialize lock_held : bool)
    : dio MiningSigner :=
  let! b := io_of (binding state li (sk_public key)) in
  if negb root_is_dir then io_fail "anti-equivocation directory must be provisioned explicitly" else
  let! _ := io_look (fun d => if exists_file d "signer.lock"%string then touch
                              else write_file "signer.lock"%string []) in
  if lock_held then io_fail "LOCAL_MINING_SIGNER: lock held" else
  let! _ := (if initialize then initialize_history b else io_ret tt) in
  load_history b key.

(** ** Signing *)

Definition MiningSigner_public_key (self : MiningSigner) : bytes32 := sk_public (ms_key self).

Definition MiningSigner_check (self : MiningSigner) (state : DevnetState) (li : nat) : result string unit :=
  let? b := binding state li (MiningSigner_public_key self) in
  if negb (bytes_eqb b (ms_binding self)) then Err "signer runtime/license binding mismatch"%string
  else Ok tt.

Definition MiningSigner_presence (self : MiningSigner) (state : DevnetState) (li : nat) (epoch : Z)
    : result string ProtocolOperationV1 :=
  let? _ := MiningSigner_check self state li in
  from_node (create_operation state li epoch (ms_key self)).

(** What [authorize] checks before it looks at the directory. *)
Definition candidate_binding (self : MiningSigner) (state : DevnetState) (height : Z) (core : bytes)
    : result string unit :=
  let? li := ok_or "candidate license missing"%string
               (position (fun l => match decode32 (ls_license_id l) with
                                   | Ok id => bytes_eqb id (slice 142 174 core)
                                   | Err _ => false end) (ds_licenses state)) in
  let? _ := MiningSigner_check self state li in
  if negb (bytes_eqb (slice 0 2 core) (be_bytes 2 1))
     || negb (bytes_eqb (slice 2 6 core) (be_bytes 4 (ds_network_id state)))
  then Err "candidate network/parent/height binding mismatch"%string else
  let? tip_hash := from_node (decode32 (ds_tip_hash state)) in
  if negb (bytes_eqb (slice 14 46 core) tip_hash)
  then Err "candidate network/parent/height binding mismatch"%string else
  let? next := ok_or "height overflow"%string (checked_add 64 (ds_height state) 1) in
  if negb (height =? next) then Err "candidate network/parent/height binding mismatch"%string
  else Ok tt.

(** The instance may be disabled by the call, so it is returned with the
    result; only an interruption has no result. *)
Definition authorize (self : MiningSigner) (state : DevnetState) (height : Z) (core : bytes)
    : dio (MiningSigner * result string unit) :=
  match candidate_binding self state height core with
  | Err e => io_ret (self, Err e)
  | Ok _ =>
      let expected := record (ms_binding self) height core in
      let name := authorization_name (scope (ms_binding self) core) in
      if ms_failed self
      then io_ret (self, Err "LOCAL_MINING_SIGNER: signer disabled after durability failure; reopen required"%string)
      else
        let! found := io_try (read_if_present name) in
        match found with
        | Ok (Some existing) =>
            match validate_record existing (ms_binding self) with
            | Err e => io_ret (self, Err e)
            | Ok _ =>
                if negb (bytes_eqb existing expected)
                then io_ret (self, Err "conflicting same-scope mining authorization refused"%string)
                else
                  let! flushed := io_try touch in
                  match flushed with
                  | Err error => io_ret (disabled self, Err error)
                  | Ok _ => io_ret (self, Ok tt)
                  end
            end
        | Ok None =>
            let! committed := io_try (commit name expected) in
            match committed with
            | Err error => io_ret (disabled self, Err error)
            | Ok _ => io_ret (self, Ok tt)
            end
        | Err e => io_ret (self, Err e)
        end
  end.

Definition sign_candidate (self : MiningSigner) (state : DevnetState) (height : Z) (core : bytes)
    : dio (MiningSigner * result string bytes) :=
  let! '(self, authorized) := authorize self state height core in
  match authorized with
  | Err e => io_ret (self, Err e)
  | Ok _ => io_ret (self, Ok (sk_sign (ms_key self) (block_signing_digest core)))
  end.
End signer.

(** ** File names *)

Lemma ascii_app (a b : string) :
  String.list_ascii_of_string (a ++ b)%string = String.list_ascii_of_string a ++ String.list_ascii_of_string b.
Proof. induction a as [|c a IH]; [done|]. exact (f_equal (cons c) IH). Qed.

Lemma ends_with_app suffix s : ends_with suffix (s ++ suffix)%string = true.
Proof.
  unfold ends_with. cbv zeta. rewrite ascii_app, length_app, Nat.add_sub. apply bool_decide_eq_true.
  by apply drop_app_exact.
Qed.

(** Names whose last characters differ. *)
Lemma ends_with_last suffix t s c c' :
  last (String.list_ascii_of_string suffix) = Some c -> last (String.list_ascii_of_string t) = Some c' ->
  c <> c' -> ends_with suffix (s ++ t)%string = false.
Proof.
  intros Hs Ht Hc. unfold ends_with. cbv zeta. apply bool_decide_eq_false. intros H. apply Hc.
  rewrite <- H, ascii_app in Hs. set (k := (length _ - length _)%nat) in Hs.
  assert (last (String.list_ascii_of_string s ++ String.list_ascii_of_string t) = Some c) as Hl
    by (by rewrite <- (take_drop k (_ ++ _)), last_app, Hs).
  rewrite last_app, Ht in Hl. congruence.
Qed.

Lemma pending_not_authorization n : ends_with ".authorization" (pending_name n) = false.
Proof. by eapply ends_with_last. Qed.

(** A name under which a file, once there, stays as it is. *)
Definition durable_name (n : string) : Prop := n <> "signer.lock"%string /\ ends_with ".pending" n = false.

Lemma durable_authority : durable_name "authority.v1".
Proof. done. Qed.

Lemma durable_authorization sc : durable_name (authorization_name sc).
Proof.
  split; [|by eapply ends_with_last].
  intros H. pose proof (ends_with_app ".authorization" sc) as E. fold (authorization_name sc) in E.
  rewrite H in E. vm_compute in E. discriminate E.
Qed.

Lemma pending_not_durable n m : durable_name m -> pending_name n <> m.
Proof. intros [_ Hm] <-. unfold pending_name in Hm. by rewrite ends_with_app in Hm. Qed.

(** [grows d d']: durable files of [d] are in [d'] with the same content. *)
Definition grows (d d' : directory) : Prop :=
  forall n c, durable_name n -> d !! n = Some c -> d' !! n = Some c.

#[export] Instance grows_preorder : PreOrder grows.
Proof. split; [by intros d n c|intros a b c H1 H2 n x Hn Hx; by apply H2, H1]. Qed.

Lemma grows_put d n c : (forall m, durable_name m -> n <> m) -> grows d (put n c d).
Proof. intros Hn m x Hm. by rewrite put_lookup_ne by (by apply Hn). Qed.
Lemma grows_insert d n c : d !! n = None -> grows d (<[n := c]> d).
Proof. intros Hn m x Hm Hx. rewrite lookup_insert_ne; [done|congruence]. Qed.
Lemma grows_delete d n : (forall m, durable_name m -> n <> m) -> grows d (delete n d).
Proof. intros Hn m x Hm Hx. by rewrite lookup_delete_ne by (by apply Hn). Qed.

Section commit.

(** Publishing adds a file or fails; it never changes one. *)
Lemma wp_commit_record name bs (Q : ending unit -> directory -> Prop) d :
  durable_name name -> (forall e d', grows d d' -> stopped e -> Q e d') ->
  (forall d', grows d d' -> d' !! name = Some bs -> Q (Returns (Ok tt)) d') -> wp (commit name bs) Q d.
Proof.
  intros Hn Hs Ho. set (p := pending_name name).
  assert (forall m, durable_name m -> p <> m) as Hp by (intros; by apply pending_not_durable).
  apply wp_bind, wp_look. fold p. destruct (exists_file d p); [apply wp_fail; by apply Hs|].
  apply wp_write.
  2: { intros c. apply and_then_stopped. intros; apply Hs; [by apply grows_put|done]. }
  set (d1 := <[p := bs]> d). assert (grows d d1) as G1 by (apply (grows_put d p (Some bs)); done).
  cbn [and_then]. apply wp_bind. fold p. eapply wp_link; [apply lookup_insert_eq|..].
  { apply and_then_stopped. intros; by apply Hs. }
  intros Hnone. set (d2 := <[name := bs]> d1).
  assert (grows d d2) as G2 by (etrans; [exact G1|by apply grows_insert]).
  assert (d2 !! name = Some bs) as E2 by apply lookup_insert_eq.
  intros [[[]|e]|]; cbn [and_then]; [|by apply Hs..].
  apply wp_bind, wp_touch. intros [[[]|e]|]; cbn [and_then]; [|by apply Hs..].
  apply wp_bind, wp_remove; [apply and_then_stopped; intros; by apply Hs|].
  set (d3 := delete p d2). assert (grows d d3) as G3 by (etrans; [exact G2|by apply grows_delete]).
  assert (d3 !! name = Some bs) as E3.
  { unfold d3. rewrite lookup_delete_ne; [done|by apply Hp]. }
  intros [[[]|e]|]; cbn [and_then]; [|by apply Hs..].
  apply wp_touch. intros [[[]|e]|]; [by apply Ho|by apply Hs..].
Qed.

(** An uninterrupted commit of a new name publishes it. *)
Lemma runs_commit name bs (Q : unit -> directory -> Prop) d :
  durable_name name -> d !! name = None -> d !! pending_name name = None ->
  Q tt (<[name := bs]> d) -> runs (commit name bs) Q d.
Proof.
  intros Hn En Ep HQ. pose proof (pending_not_durable name name Hn) as Hne.
  apply runs_bind, runs_look. unfold exists_file. rewrite bool_decide_eq_false_2 by (rewrite Ep; by intros []).
  apply runs_write. unfold durable_publish. apply runs_bind.
  apply runs_link with (c := bs); [apply lookup_insert_eq|by rewrite lookup_insert_ne|].
  apply runs_bind, runs_touch, runs_bind, runs_remove.
  { exists bs. rewrite lookup_insert_ne by done. apply lookup_insert_eq. }
  apply runs_touch. rewrite delete_insert_ne, delete_insert_id by done.
  - exact HQ.
Qed.
End commit.

(** ** One directory and its history *)

Section history.
Context {SHA : Sha2} {ED : Ed25519}.

Record released := {
  rl_binding : bytes;
  rl_height : Z;
  rl_core : bytes;
  rl_signature : bytes;
}.

(** The directory, the instance that holds its lock, and the signatures that
    left it. *)
Record world := {
  sw_disk : directory;
  sw_running : option MiningSigner;
  sw_released : list released;
}.

Definition after_open (w : world) (r : directory * list fault * ending MiningSigner) : world :=
  let '(d, _, e) := r in
  {| sw_disk := d;
     sw_running := match e with
                   | Returns (Ok s) => Some s
                   | Returns (Err _) => sw_running w
                   | Interrupted => None
                   end;
     sw_released := sw_released w |}.

Definition after_sign (w : world) (s : MiningSigner) (height : Z) (core : bytes)
    (r : directory * list fault * ending (MiningSigner * result string bytes)) : world :=
  let '(d, _, e) := r in
  {| sw_disk := d;
     sw_running := match e with
                   | Returns (Ok (s', _)) => Some s'
                   | Returns (Err _) => Some s
                   | Interrupted => None
                   end;
     sw_released := match e with
                    | Returns (Ok (_, Ok signature)) =>
                        {| rl_binding := ms_binding s; rl_height := height; rl_core := core;
                           rl_signature := signature |} :: sw_released w
                    | _ => sw_released w
                    end |}.

(** A process opens the directory (any state, license, key and flags), the
    running instance is asked for a signature, or it ends. *)
Inductive step : world -> world -> Prop :=
| step_open w state li key root_is_dir initialize fs :
    step w (after_open w (MiningSigner_open state li key root_is_dir initialize
                            (bool_decide (is_Some (sw_running w))) (sw_disk w) fs))
| step_sign w s state height core fs :
    sw_running w = Some s -> length core = 208%nat -> is_u64 height ->
    step w (after_sign w s height core (sign_candidate s state height core (sw_disk w) fs))
| step_stop w :
    step w {| sw_disk := sw_disk w; sw_running := None; sw_released := sw_released w |}.

(** No assumption on what the directory holds at the beginning. *)
Inductive history (d : directory) : world -> Prop :=
| history_start : history d {| sw_disk := d; sw_running := None; sw_released := [] |}
| history_step w w' : history d w -> step w w' -> history d w'.

(** *** What the operations do to the directory *)

Lemma binding_length state li public b :
  is32 public -> binding state li public = Ok b -> length b = BINDING_LEN.
Proof.
  intros Hp H. unfold binding, from_node in H. inv_ok. bool_to_prop.
  assert (forall t x, decode32 t = Ok x -> is32 x) as Hd.
  { intros t x. unfold decode32. intros E. inv_ok. by bool_to_prop. }
  repeat match goal with E : decode32 _ = Ok _ |- _ => apply Hd in E end.
  unfold BINDING_LEN. rewrite !length_app, length_be_bytes. change (length BINDING_MAGIC) with 8%nat. lia.
Qed.

Lemma wp_check_entry b n (Q : ending unit -> directory -> Prop) d :
  (forall e, Q e d) -> wp (check_entry b n) Q d.
Proof.
  intros HQ. unfold check_entry.
  destruct (_ || _); [by apply wp_ret|]. destruct (negb _); [by apply wp_fail|].
  apply wp_bind, wp_read; [by apply and_then_stopped|]. intros bs _. cbn [and_then].
  apply wp_bind, wp_of. destruct (validate_record bs b); cbn [and_then]; [|apply HQ].
  destruct (negb _); [by apply wp_fail|by apply wp_ret].
Qed.

Lemma wp_check_entries b names (Q : ending unit -> directory -> Prop) d :
  (forall e, Q e d) -> wp (check_entries b names) Q d.
Proof.
  intros HQ. induction names as [|n names IH]; cbn [check_entries]; [by apply wp_ret|].
  apply wp_bind, wp_check_entry. intros [[[]|e]|]; [exact IH|apply HQ..].
Qed.

Definition opened (d : directory) (e : ending MiningSigner) (d' : directory) : Prop :=
  grows d d' /\ forall s, e = Returns (Ok s) ->
    d' !! "authority.v1"%string = Some (ms_binding s) /\ length (ms_binding s) = BINDING_LEN.

Lemma opened_stopped d (e : ending MiningSigner) d' : grows d d' -> stopped e -> opened d e d'.
Proof. intros ? He. split; [done|]. intros s ->. destruct He. Qed.

Lemma wp_load_history b key d d1 :
  length b = BINDING_LEN -> grows d d1 -> wp (load_history b key) (opened d) d1.
Proof.
  intros Hl G. pose proof (fun e => opened_stopped d e d1 G) as Hs.
  apply wp_bind, wp_read; [by apply and_then_stopped|]. intros authority Ea. cbn [and_then].
  destruct (bytes_eqb authority b) eqn:E; cbn [negb]; [|apply wp_fail; by apply Hs].
  apply bytes_eqb_eq in E as ->.
  apply wp_bind, wp_touch. intros [[[]|e]|]; cbn [and_then]; [|by apply Hs..].
  apply wp_bind, wp_look, wp_check_entries. intros [[[]|e]|]; cbn [and_then]; [|by apply Hs..].
  apply wp_ret. split; [done|]. by intros s [= <-].
Qed.

Lemma wp_initialize b (Q : ending unit -> directory -> Prop) d :
  (forall e d', grows d d' -> Q e d') -> wp (initialize_history b) Q d.
Proof.
  intros HQ. apply wp_bind, wp_touch. intros [[[]|e]|]; cbn [and_then]; [|by apply HQ..].
  apply wp_look. destruct (existsb _ _); [apply wp_fail; by apply HQ|].
  apply wp_commit_record; [apply durable_authority|intros; by apply HQ..].
Qed.

Lemma wp_open state li key root initialize held d :
  wp (MiningSigner_open state li key root initialize held) (opened d) d.
Proof.
  unfold MiningSigner_open. apply wp_bind, wp_of.
  destruct (binding state li (sk_public key)) as [b|] eqn:Eb; cbn [and_then];
    [|by apply opened_stopped].
  apply binding_length in Eb; [|apply sk_public_length].
  destruct root; cbn [negb]; [|apply wp_fail; by apply opened_stopped].
  apply wp_bind, wp_look.
  match goal with |- wp _ ?Q d => assert (forall e d1, grows d d1 -> Q e d1) as Hlock end.
  { intros [[[]|e]|] d1 G1; cbn [and_then]; [|by apply opened_stopped..].
    destruct held; [apply wp_fail; by apply opened_stopped|]. apply wp_bind.
    match goal with |- wp _ ?Q d1 => assert (forall e d2, grows d1 d2 -> Q e d2) as Hinit end.
    { intros [[[]|e]|] d2 G2; cbn [and_then]; [|apply opened_stopped; [by etrans|done]..].
      apply wp_load_history; [done|by etrans]. }
    destruct initialize; [by apply wp_initialize|apply wp_ret; by apply Hinit]. }
  assert (forall m, durable_name m -> "signer.lock"%string <> m) as Hl by (intros m [Hm _] <-; done).
  destruct (exists_file d _); [apply wp_touch; intros; by apply Hlock|].
  apply wp_write; [apply Hlock; by apply (grows_put d _ (Some []))|].
  intros c e _. apply Hlock. by apply grows_put.
Qed.

(** What a call of [authorize] or [sign_candidate] leaves. *)
Definition answered {A} (s : MiningSigner) (height : Z) (core : bytes) (d : directory)
    (e : ending (MiningSigner * result string A)) (d' : directory) : Prop :=
  grows d d' /\ forall s' r, e = Returns (Ok (s', r)) ->
    ms_binding s' = ms_binding s /\
    (is_ok r = true -> d' !! authorization_name (scope (ms_binding s) core)
                       = Some (record (ms_binding s) height core)).

Lemma wp_authorize s state height core d :
  wp (authorize s state height core) (answered s height core d) d.
Proof.
  assert (forall (e : ending (MiningSigner * result string unit)) d', grows d d' -> stopped e ->
    answered s height core d e d') as Hs
    by (intros e d' ? He; split; [done|]; intros s' r ->; destruct He).
  assert (forall s' e d', grows d d' -> ms_binding s' = ms_binding s ->
    answered s height core d (Returns (Ok (s', @Err _ unit e))) d') as He
    by (intros s' e d' ? ?; split; [done|]; intros ? ? [= <- <-]; done).
  unfold authorize. destruct (candidate_binding s state height core); [|by apply wp_ret, He].
  cbv zeta. destruct (ms_failed s); [by apply wp_ret, He|].
  set (name := authorization_name _). set (expected := record _ _ _).
  assert (forall d', grows d d' -> d' !! name = Some expected ->
    answered s height core d (Returns (Ok (s, Ok tt))) d') as Ho
    by (intros d' ? ?; split; [done|]; intros ? ? [= <- <-]; done).
  apply wp_bind, wp_try, wp_read_if_present.
  { intros [[?|e]|]; cbn [stopped and_then]; [done|intros _; by apply wp_ret, He|intros _; by apply Hs]. }
  cbn [and_then]. destruct (d !! name) as [existing|] eqn:E.
  - destruct (validate_record _ _); [|by apply wp_ret, He].
    destruct (bytes_eqb existing expected) eqn:Eq; cbn [negb]; [|by apply wp_ret, He].
    apply bytes_eqb_eq in Eq as ->. apply wp_bind, wp_try, wp_touch.
    intros [[[]|e]|]; cbn [and_then]; [by apply wp_ret, Ho|by apply wp_ret, He|by apply Hs].
  - apply wp_bind, wp_try, wp_commit_record; [apply durable_authorization|..].
    + intros [[[]|e]|] d'; cbn [and_then stopped]; [done| |]; intros; [by apply wp_ret, He|by apply Hs].
    + intros d' ? ?. cbn [and_then]. by apply wp_ret, Ho.
Qed.

Lemma wp_sign s state height core d :
  wp (sign_candidate s state height core) (answered s height core d) d.
Proof.
  apply wp_bind. eapply wp_mono; [apply wp_authorize|]. intros e d' [G H].
  destruct e as [[[s' [[]|e]]|e]|]; cbn [and_then].
  - destruct (H s' (Ok tt) eq_refl) as [Hb Hn]. apply wp_ret. split; [done|].
    intros ? ? [= <- <-]. split; [done|]. intros _. by apply Hn.
  - destruct (H s' (Err e) eq_refl) as [Hb Hn]. apply wp_ret. split; [done|].
    by intros ? ? [= <- <-].
  - by split.
  - by split.
Qed.

Lemma wp_signature s state height core d :
  wp (sign_candidate s state height core)
    (fun e _ => forall s' sig, e = Returns (Ok (s', Ok sig)) -> length sig = 64%nat) d.
Proof.
  apply wp_bind. eapply wp_mono; [apply wp_authorize|]. intros e d' _.
  destruct e as [[[s' [[]|e]]|e]|]; cbn [and_then]; [apply wp_ret|apply wp_ret|..]; try done.
  intros ? ? [= _ <-]. apply sk_sign_length.
Qed.

(** *** The invariant of a directory *)

Definition authority_is (d : directory) (b : bytes) : Prop :=
  d !! "authority.v1"%string = Some b /\ length b = BINDING_LEN.

Definition recorded (d : directory) (r : released) : Prop :=
  authority_is d (rl_binding r) /\ length (rl_core r) = 208%nat /\ length (rl_signature r) = 64%nat /\
  is_u64 (rl_height r) /\
  d !! authorization_name (scope (rl_binding r) (rl_core r))
    = Some (record (rl_binding r) (rl_height r) (rl_core r)).

Definition world_inv (w : world) : Prop :=
  (forall s, sw_running w = Some s -> authority_is (sw_disk w) (ms_binding s)) /\
  Forall (recorded (sw_disk w)) (sw_released w).

Lemma authority_grows d d' b : grows d d' -> authority_is d b -> authority_is d' b.
Proof. intros G [? ?]. split; [|done]. apply G; [apply durable_authority|done]. Qed.

Lemma recorded_grows d d' r : grows d d' -> recorded d r -> recorded d' r.
Proof.
  intros G (? & ? & ? & [? ?] & ?). split; [by eapply authority_grows|]. split_and!; try done.
  by apply G; [apply durable_authorization|].
Qed.

Lemma step_inv w w' : world_inv w -> step w w' -> world_inv w'.
Proof.
  intros [Hr Hl] Hstep. destruct Hstep as [w state li key root init fs|w s state height core fs Hs Hc Hh|w].
  - pose proof (wp_open state li key root init (bool_decide (is_Some (sw_running w))) (sw_disk w) fs) as [G Ho].
    destruct (MiningSigner_open _ _ _ _ _ _ _ _) as [[d' fs'] e]. cbn in *. split; cbn.
    + destruct e as [[s|e]|]; [|by intros s Hs; eapply authority_grows; [exact G|apply Hr]|done].
      intros ? [= <-]. by apply Ho.
    + eapply Forall_impl; [exact Hl|]. intros r. by apply recorded_grows.
  - pose proof (wp_signature s state height core (sw_disk w) fs) as Hlen.
    pose proof (wp_sign s state height core (sw_disk w) fs) as [G Ho].
    destruct (sign_candidate _ _ _ _ _ _) as [[d' fs'] e]. cbn in G, Ho, Hlen.
    specialize (Hr _ Hs). pose proof (authority_grows _ _ _ G Hr) as Ha.
    assert (Forall (recorded d') (sw_released w)) as Hl'
      by (eapply Forall_impl; [exact Hl|]; intros r; by apply recorded_grows).
    split; cbn.
    + destruct e as [[[s' r]|e]|]; [|by intros ? [= <-]|done].
      intros ? [= <-]. by rewrite (proj1 (Ho _ _ eq_refl)).
    + destruct e as [[[s' [sig|e]]|e]|]; try done. constructor; [|done].
      destruct (Ho _ _ eq_refl) as [_ Hn]. unfold recorded. cbn [rl_binding rl_core rl_height rl_signature].
      destruct Hh as [? ?]. split_and!; [done|done|by eapply Hlen|done|done|by apply Hn].
  - split; [done|exact Hl].
Qed.

Lemma history_inv d w : history d w -> world_inv w.
Proof. induction 1 as [|w w' _ IH Hs]; [by split|]. by eapply step_inv. Qed.

Lemma record_inj b h c b' h' c' :
  length b = BINDING_LEN -> length b' = BINDING_LEN -> length c = 208%nat -> length c' = 208%nat ->
  is_u64 h -> is_u64 h' -> record b h c = record b' h' c' -> b = b' /\ h = h' /\ c = c'.
Proof.
  intros Hb Hb' Hc Hc' Hh Hh'. unfold record. rewrite <- !app_assoc. intros H.
  apply app_inv_head in H. apply app_inj_len in H as [-> H]; [|congruence].
  apply app_inj_len in H as [Hx H]; [|by rewrite !length_be_bytes].
  apply app_inj_len in H as [-> _]; [|congruence].
  split; [done|]. split; [|done]. by apply (be_bytes_inj 8).
Qed.

(** The fields by which Tier-3 evidence recognises one winning ticket: epoch,
    target, license, ticket and proof. *)
Definition same_ticket (a b : bytes) : Prop :=
  slice 6 14 a = slice 6 14 b /\ slice 110 208 a = slice 110 208 b.

Lemma recorded_unique d r1 r2 :
  recorded d r1 -> recorded d r2 -> same_ticket (rl_core r1) (rl_core r2) ->
  rl_core r1 = rl_core r2 /\ rl_height r1 = rl_height r2.
Proof.
  intros ([Ha1 Hb1] & Hc1 & _ & Hh1 & Hn1) ([Ha2 Hb2] & Hc2 & _ & Hh2 & Hn2) [He Ht].
  assert (rl_binding r1 = rl_binding r2) as Hb by congruence.
  assert (scope (rl_binding r1) (rl_core r1) = scope (rl_binding r2) (rl_core r2)) as Hs
    by (unfold scope; by rewrite Hb, He, Ht).
  rewrite Hs, Hn2 in Hn1. apply Some_inj in Hn1.
  by apply record_inj in Hn1 as (_ & ? & ?).
Qed.

(** C9: the signer never signs two headers for one winning ticket.  Start on any
    directory and let instances be opened (with any node state, license, key and
    options), asked for signatures, stopped, or cut short by I/O errors and
    crashes at any file-system call: of all the signatures that were ever given
    out, two whose headers agree in epoch, target, license, ticket and proof are
    on the same 208 bytes, with the same height. *)
Theorem never_two_headers_for_a_ticket d w r1 r2 :
  history d w -> r1 ∈ sw_released w -> r2 ∈ sw_released w ->
  same_ticket (rl_core r1) (rl_core r2) ->
  rl_core r1 = rl_core r2 /\ rl_height r1 = rl_height r2.
Proof.
  intros [_ Hl]%history_inv H1 H2. rewrite Forall_forall in Hl.
  by apply (recorded_unique (sw_disk w)); apply Hl.
Qed.

(** What the fields that Tier-3 evidence compares make of a header. *)
Lemma same_ticket_fields a b :
  length a = 208%nat -> length b = 208%nat -> slice 6 14 a = slice 6 14 b ->
  slice 110 142 a = slice 110 142 b -> slice 142 174 a = slice 142 174 b ->
  slice 174 176 a = slice 174 176 b -> slice 176 208 a = slice 176 208 b -> same_ticket a b.
Proof.
  intros ? ? ? H1 H2 H3 H4. split; [done|].
  assert (forall l : bytes, slice 110 208 l
    = slice 110 142 l ++ slice 142 174 l ++ slice 174 176 l ++ slice 176 208 l) as Hs
    by (intros l; by rewrite !slice_take_drop by lia).
  by rewrite !Hs, H1, H2, H3, H4.
Qed.

Lemma validated_core state accused seq c sig x :
  length c = 208%nat -> validate_signed_header state accused seq (c ++ sig) = Ok (Some x) -> x = c.
Proof.
  intros Hc. unfold validate_signed_header, parse_signed_header. rewrite (take_app_exact 208) by done.
  intros H. inv_ok. repeat match goal with
    | E : (if ?b then _ else _) = Ok _ |- _ => destruct b; try discriminate E
    | E : match ?o with Some _ => _ | None => _ end = Ok _ |- _ => destruct o; try discriminate E
    end. inv_ok. congruence.
Qed.

(** C10: a license whose headers are signed through the durable signer is never
    convicted of a Tier-3 offense on them: whatever the state and the accused
    license, evidence of same-ticket equivocation made of two headers that one
    directory released is not accepted.  Offenses of the other tiers are not its
    subject. *)
Theorem signer_is_never_convicted d w r1 r2 state evidence seq :
  history d w -> r1 ∈ sw_released w -> r2 ∈ sw_released w ->
  pe_offense_type evidence = OFFENSE_SAME_TICKET_EQUIVOCATION ->
  pe_evidence evidence = be_bytes 4 seq ++ (rl_core r1 ++ rl_signature r1) ++ (rl_core r2 ++ rl_signature r2) ->
  validate_objective_evidence state evidence <> Ok true.
Proof.
  intros [_ Hl]%history_inv H1 H2 Hty He Hok. rewrite Forall_forall in Hl.
  pose proof (Hl _ H1) as R1. pose proof (Hl _ H2) as R2.
  pose proof R1 as (_ & Hc1 & Hs1 & _). pose proof R2 as (_ & Hc2 & Hs2 & _).
  unfold validate_objective_evidence in Hok. rewrite Hty in Hok.
  change (evidence_same_ticket state evidence = Ok true) in Hok.
  unfold evidence_same_ticket in Hok. rewrite He in Hok.
  destruct (negb (_ =? _)%nat) eqn:Hlen; [discriminate Hok|]. bool_to_prop.
  set (x1 := rl_core r1 ++ rl_signature r1) in *. set (x2 := rl_core r2 ++ rl_signature r2) in *.
  assert (length x1 = 272%nat) as L1 by (unfold x1; rewrite length_app; lia).
  assert (length x2 = 272%nat) as L2 by (unfold x2; rewrite length_app; lia).
  assert (slice 4 276 (be_bytes 4 seq ++ x1 ++ x2) = x1) as S1.
  { rewrite (slice_app_skip 4) by (apply length_be_bytes || lia). by apply slice_app_here. }
  assert (slice 276 548 (be_bytes 4 seq ++ x1 ++ x2) = x2) as S2.
  { rewrite (slice_app_skip 4), (slice_app_skip 272) by (apply length_be_bytes || done || lia).
    by apply slice_whole. }
  rewrite S1, S2 in Hok. destruct (bytes_leb x2 x1); [discriminate Hok|].
  destruct (validate_signed_header _ _ _ x1) as [[a|]|] eqn:Ea; [|discriminate Hok..].
  destruct (validate_signed_header _ _ _ x2) as [[b|]|] eqn:Eb; [|discriminate Hok..].
  apply validated_core in Ea as ->; [|done]. apply validated_core in Eb as ->; [|done].
  destruct (bytes_eqb (rl_core r1) (rl_core r2)) eqn:Hne; [discriminate Hok|].
  apply bytes_eqb_neq in Hne. apply Hne.
  destruct (_ || _) eqn:Hf in Hok; [discriminate Hok|]. bool_to_prop.
  eapply recorded_unique; [exact R1|exact R2|]. by apply same_ticket_fields.
Qed.

(** The other side of safety: a candidate that fits the state, of a scope the
    directory has no record of, is signed when nothing fails, and only its
    record is added. *)
Theorem fresh_candidate_is_signed self state height core d :
  let name := authorization_name (scope (ms_binding self) core) in
  candidate_binding self state height core = Ok tt -> ms_failed self = false ->
  d !! name = None -> d !! pending_name name = None ->
  runs (sign_candidate self state height core)
    (fun r d' => r = (self, Ok (sk_sign (ms_key self) (block_signing_digest core))) /\
                 d' = <[name := record (ms_binding self) height core]> d) d.
Proof.
  intros name Hc Hf Hn Hp. apply runs_bind. unfold authorize. rewrite Hc. cbv zeta. rewrite Hf.
  apply runs_bind, runs_try, runs_read_if_present. fold name. rewrite Hn.
  apply runs_bind, runs_try, runs_commit; [apply durable_authorization|done..|].
  by apply runs_ret, runs_ret.
Qed.

(** A directory with the remains of an interrupted publication is not opened:
    after a crash nothing is signed until an operator has looked at it. *)
Theorem leftover_fails_closed state li key root held d n fs :
  is_Some (d !! n) -> n <> "signer.lock"%string -> n <> "authority.v1"%string ->
  ends_with ".authorization" n = false ->
  forall s, (MiningSigner_open state li key root false held d fs).2 <> Returns (Ok s).
Proof.
  intros Hn Hl Ha He s.
  assert (wp (MiningSigner_open state li key root false held) (fun e _ => stopped e) d) as H.
  2: { specialize (H fs). destruct (MiningSigner_open _ _ _ _ _ _ _ _) as [[? ?] e]. cbn in *. by intros ->. }
  unfold MiningSigner_open. apply wp_bind, wp_of.
  destruct (binding state li (sk_public key)) as [b|]; cbn [and_then]; [|done].
  destruct root; cbn [negb]; [|by apply wp_fail]. apply wp_bind, wp_look.
  match goal with |- wp _ ?Q d => assert (forall e d1, is_Some (d1 !! n) -> Q e d1) as Hlock end.
  { intros [[[]|e]|] d1 H1; cbn [and_then]; [|done..]. destruct held; [by apply wp_fail|].
    apply wp_bind, wp_ret. cbn [and_then].
    apply wp_bind, wp_read; [by apply and_then_stopped|]. intros bs _. cbn [and_then].
    destruct (bytes_eqb bs b); cbn [negb]; [|by apply wp_fail].
    apply wp_bind, wp_touch. intros [[[]|e]|]; cbn [and_then]; [|done..].
    apply wp_bind, wp_look. eapply (wp_mono _ (fun e _ => stopped e)); [|intros [[]|] ?; done].
    assert (n ∈ entry_names d1) as Hin.
    { destruct H1 as [c Hc]. apply list_elem_of_fmap. exists (n, c). split; [done|].
      by apply elem_of_map_to_list. }
    revert Hin. generalize (entry_names d1). intros l. induction l as [|m l IH]; [by intros ?%elem_of_nil|].
    intros Hin. cbn [check_entries]. apply wp_bind. destruct (decide (m = n)) as [->|Hm].
    - unfold check_entry. rewrite !bool_decide_eq_false_2, He by done. by apply wp_fail.
    - assert (wp (check_entries b l) (fun e _ => stopped e) d1) as IHl
        by (apply IH; apply elem_of_cons in Hin as [|]; congruence).
      apply wp_check_entry. by intros [[[]|e]|]. }
  destruct (exists_file d _); [by apply wp_touch; intros; apply Hlock|].
  assert (forall c : option bytes, is_Some (put "signer.lock"%string c d !! n)) as Hput
    by (intros c; by rewrite put_lookup_ne).
  apply wp_write; [by apply Hlock, (Hput (Some []))|]. intros c e _. apply Hlock, Hput.
Qed.
End history.
