(* ===== verification/NodeReorg.v ===== *)
(** The mempool of a node across a change of its chain: admission of a single
    transaction ([mutiny-node/src/main.rs]) and what a reorganisation restores
    ([mutiny-node/src/blocksync.rs]). *)

From Stdlib Require Import Strings.Byte Strings.String.
From stdpp Require Import strings pretty.
From S2P Require Import Prelude Crypto Codec State Transaction Bitcoin Protocol ProtocolRules Collections NodeState Economy NodePresence NodePunishment NodeUtxo NodeDividends NodeBitcoin NodePurchase NodeBootstrap NodeMempool NodeOperations NodeBlocks.

Definition MAX_NETWORK_MEMPOOL_TXS : Z := 4096.

Definition in_mempool (state : DevnetState) (txid : string) : bool :=
  existsb (fun t => bool_decide (pd_txid t = txid)) (ds_mempool state).

Definition is_confirmed (state : DevnetState) (txid : string) : bool :=
  existsb (fun t => bool_decide (pd_txid (cf_tx t) = txid)) (ds_confirmed_transactions state).

Section reorg.
Context {SHA : Sha2} {ED : Ed25519}.

(** The branch for restored treasury payments: the envelope only. *)
Definition check_restored_envelope (state : DevnetState) (pending : PendingTxState) : node_result unit :=
  let? tx := to_transaction_for_network pending (ds_network_id state) in
  if negb (bool_decide (to_hex (TransactionV1_txid tx) = pd_txid pending))
     || negb (bool_decide (to_hex (TransactionV1_wtxid tx) = pd_wtxid pending))
  then err "restored protocol-authorized transaction ID mismatch"
  else if negb (tc_version (tx_core tx) =? 1) || negb (tc_network_id (tx_core tx) =? ds_network_id state)
          || is_empty (tc_inputs (tx_core tx)) || is_empty (tc_outputs (tx_core tx))
          || negb (length (tx_witnesses tx) =? length (tc_inputs (tx_core tx)))%nat
  then err "restored protocol-authorized transaction envelope is invalid"
  else Ok tt.

Definition validate_pending_candidate (state : DevnetState) (pending : PendingTxState)
    (allow_protocol_bound : bool) : node_result unit :=
  if has_license_payment_output pending && negb allow_protocol_bound
  then err "native Mining License payment requires its Protocol Op 0x0002 bundle; Build 5.2 accepts it through validated block propagation"
  else if has_protocol_auth_witness pending && negb allow_protocol_bound
  then err "protocol-authorized Treasury payment requires its signed DividendClaim Protocol Op 0x0007 bundle; Build 5.2 accepts it through validated block propagation"
  else if in_mempool state (pd_txid pending) || is_confirmed state (pd_txid pending)
  then err "ALREADY_KNOWN"
  else if has_protocol_auth_witness pending && allow_protocol_bound
  then check_restored_envelope state pending
  else
    let temp := state <| ds_mempool := ds_mempool state ++ [pending] |> in
    let? _ := validate_and_apply_mempool temp (ds_utxos temp) (next_mineable_epoch temp) (ds_height temp + 1) [] in
    Ok tt.

Definition validate_received_pending (state : DevnetState) (pending : PendingTxState) : node_result unit :=
  let already_known := in_mempool state (pd_txid pending) || is_confirmed state (pd_txid pending) in
  if (MAX_NETWORK_MEMPOOL_TXS <=? Z.of_nat (length (ds_mempool state))) && negb already_known
  then Err (Msg ("network mempool admission cap "%string +:+ pretty MAX_NETWORK_MEMPOOL_TXS
                 +:+ " reached"%string))
  else validate_pending_candidate state pending false.

(** Whether [tx] paid the fee of an authority operation under the keys that the
    orphaned block itself recorded. *)
Definition historical_authority_fee_ticket_matches (old_local : DevnetState) (op : ProtocolOperationV1)
    (tx : TransactionV1) : node_result bool :=
  let? target := authority_operation_license_id op in
  let? target := ok_or (Msg "authority operation has no target LicenseID"%string) target in
  let opid := to_hex (operation_id op) in
  match List.find (fun h => bool_decide (hs_operation_id h = opid)
                            && bool_decide (hs_license_id h = hex_encode target))
          (ds_historical_license_keys old_local) with
  | None => Ok false
  | Some historical =>
      let? owner_public_key := decode32 (hs_owner_public_key historical) in
      let expected_address := address_id owner_public_key in
      if is_empty (tc_inputs (tx_core tx)) || is_empty (tc_outputs (tx_core tx))
         || negb (length (tx_witnesses tx) =? length (tc_inputs (tx_core tx)))%nat
      then Ok false
      else
        let first_ok :=
          match head (tc_outputs (tx_core tx)) with
          | None => false
          | Some o => (to_output_type o =? OUTPUT_PUBKEY_HASH)
                      && (to_amount_strikes o =? authority_fee_marker target)
                      && bytes_eqb (to_payload o) expected_address
          end in
        if negb first_ok then Ok false
        else if existsb (fun output => negb (to_output_type output =? OUTPUT_PUBKEY_HASH)
                                       || negb (bytes_eqb (to_payload output) expected_address))
                  (tc_outputs (tx_core tx))
        then Ok false
        else Ok (forallb (fun witness => (w_witness_type witness =? 0x01)
                            && (length (w_payload witness) =? 96)%nat
                            && bytes_eqb (take 32 (w_payload witness)) owner_public_key)
                   (tx_witnesses tx))
  end.

(** *** What the disconnected blocks offer *)

Definition decode_stored_transaction (raw : string) : node_result TransactionV1 :=
  let? bs := hex_bytes raw in
  map_err FromTx (TransactionV1_decode_full bs).

(** One ordinary transaction of a disconnected block. *)
Definition transaction_candidate (adopted old_local : DevnetState) (block : BlockState) (tx : TransactionV1)
    : list PendingTxState :=
  if existsb (fun i => match i with Coinbase _ => true | _ => false end) (tc_inputs (tx_core tx)) then []
  else
    let txid := to_hex (TransactionV1_txid tx) in
    match List.find (fun record => bool_decide (cf_block_hash record = bk_block_hash block)
                                   && bool_decide (pd_txid (cf_tx record) = txid))
            (ds_confirmed_transactions old_local) with
    | Some record => [cf_tx record]
    | None => match pending_from_transaction adopted tx with Ok pending => [pending] | Err _ => [] end
    end.

(** The transaction that a disconnected operation goes with: [None] when the
    operation is not restored, the empty string when it needs none. *)
Definition required_transaction (old_local : DevnetState) (txs : list TransactionV1) (op : ProtocolOperationV1)
    : node_result (option string) :=
  if po_op_type op =? OP_LICENSE_PURCHASE_MUT then
    let? purchase := decode_native_purchase_operation op in
    Ok (Some (to_hex (pm_payment_txid purchase)))
  else if (po_op_type op =? OP_LICENSE_TRANSFER) || (po_op_type op =? OP_LICENSE_MINING_KEY_ROTATE) then
    Ok ((fun tx => to_hex (TransactionV1_txid tx)) <$>
          List.find (fun tx => match historical_authority_fee_ticket_matches old_local op tx with
                               | Ok matched => matched | Err _ => false end) (drop 1 txs))
  else if (po_op_type op =? OP_LICENSE_PURCHASE_BTC) || (po_op_type op =? OP_PUNISHMENT_EVIDENCE)
          || (po_op_type op =? OP_BITCOIN_HEADERS)
  then Ok (Some ""%string)
  else if po_op_type op =? OP_DIVIDEND_CLAIM then
    let? claim := decode_claim_operation op in
    Ok (Some (to_hex (dc_payment_txid claim)))
  else Ok None.

Definition operation_candidate (old_local : DevnetState) (txs : list TransactionV1) (raw : string)
    : node_result (list PendingProtocolOperationState) :=
  let? op := decode_protocol_operation_hex raw in
  if negb (po_op_version op =? 1) then Ok []
  else
    let? required := required_transaction old_local txs op in
    Ok match required with
       | Some txid => [{| pp_operation := raw; pp_required_txid := txid |}]
       | None => []
       end.

Definition block_candidates (adopted old_local : DevnetState)
    (acc : list PendingTxState * list PendingProtocolOperationState) (block : BlockState)
    : node_result (list PendingTxState * list PendingProtocolOperationState) :=
  let '(candidates, op_candidates) := acc in
  let? decoded_txs := map_result decode_stored_transaction (bk_transactions block) in
  let candidates := candidates ++ concat (map (transaction_candidate adopted old_local block) (drop 1 decoded_txs)) in
  let? ops := map_result (operation_candidate old_local decoded_txs) (bk_protocol_operations block) in
  Ok (candidates, op_candidates ++ concat ops).

(** *** What is restored *)

(** One candidate transaction: the state, the seen ids and the count. *)
Definition restore_transaction (confirmed bound : gset string) (acc : DevnetState * gset string * Z)
    (pending : PendingTxState) : DevnetState * gset string * Z :=
  let '(adopted, seen, restored) := acc in
  if bool_decide (pd_txid pending ∈ confirmed) then acc
  else if bool_decide (pd_txid pending ∈ seen) then acc
  else
    let seen := {[pd_txid pending]} ∪ seen in
    if has_license_payment_output pending && negb (bool_decide (pd_txid pending ∈ bound))
    then (adopted, seen, restored)
    else match validate_pending_candidate adopted pending true with
         | Ok _ => (adopted <| ds_mempool := ds_mempool adopted ++ [pending] |>, seen, restored + 1)
         | Err _ => (adopted, seen, restored)
         end.

Definition restorable_type (ty : Z) : bool :=
  existsb (Z.eqb ty) [OP_LICENSE_PURCHASE_BTC; OP_LICENSE_PURCHASE_MUT; OP_LICENSE_TRANSFER;
    OP_LICENSE_MINING_KEY_ROTATE; OP_PUNISHMENT_EVIDENCE; OP_DIVIDEND_CLAIM; OP_BITCOIN_HEADERS].

(** Whether the adopted chain leaves an operation something to do. *)
Definition operation_restorable (adopted : DevnetState) (op : ProtocolOperationV1) : node_result bool :=
  if negb (po_op_version op =? 1) || negb (restorable_type (po_op_type op)) then Ok false
  else if po_op_type op =? OP_LICENSE_PURCHASE_BTC then purchase_dependency_ready adopted op
  else if po_op_type op =? OP_LICENSE_PURCHASE_MUT then
    let? purchase := decode_native_purchase_operation op in
    let payment_id := native_payment_id (pm_payment_txid purchase) (pm_payment_output_index purchase) in
    Ok (negb (bool_decide (hex_encode payment_id ∈ ds_consumed_native_payments adopted)))
  else if po_op_type op =? OP_PUNISHMENT_EVIDENCE then
    let? evidence := decode_punishment_operation op in
    Ok (negb (bool_decide (hex_encode (evidence_id evidence) ∈ ds_consumed_evidence adopted)))
  else if po_op_type op =? OP_DIVIDEND_CLAIM then
    let? claim := decode_claim_operation op in
    match List.find (fun a => bool_decide (dv_license_id a = hex_encode (dc_license_id claim)))
            (ds_dividend_accounts adopted) with
    | None => Ok false
    | Some account => Ok (negb ((dc_amount_strikes claim =? 0)
                                || (dv_claimable_strikes account <? dc_amount_strikes claim)))
    end
  else Ok true.

Definition restore_operation (mempool_txids : gset string) (acc : DevnetState * gset bytes32)
    (pending_op : PendingProtocolOperationState) : node_result (DevnetState * gset bytes32) :=
  let '(adopted, seen_ops) := acc in
  if negb (bool_decide (pp_required_txid pending_op = ""%string))
     && negb (bool_decide (pp_required_txid pending_op ∈ mempool_txids))
  then Ok acc
  else
    let? op := PendingProtocolOperationState_operation pending_op in
    let? ready := operation_restorable adopted op in
    if negb ready then Ok acc
    else if bool_decide (operation_id op ∈ seen_ops) then Ok acc
    else Ok (adopted <| ds_pending_protocol_operations :=
               ds_pending_protocol_operations adopted ++ [pending_op] |>, {[operation_id op]} ∪ seen_ops).

Definition bound_txids (ops : list PendingProtocolOperationState) : gset string :=
  list_to_set (List.filter (fun txid => negb (bool_decide (txid = ""%string))) (map pp_required_txid ops)).

Definition seen_operation_ids (ops : list PendingProtocolOperationState) : gset bytes32 :=
  list_to_set (concat (map (fun pending => match PendingProtocolOperationState_operation pending with
                                           | Ok op => [operation_id op] | Err _ => [] end) ops)).

(** Returns the adopted state and the number of restored transactions. *)
Definition restore_reorg_mempool (adopted old_local : DevnetState) (common_height : Z)
    : node_result (DevnetState * Z) :=
  let? (candidates, op_candidates) :=
    fold_result (block_candidates adopted old_local) (ds_mempool old_local, ds_pending_protocol_operations old_local)
      (drop (Z.to_nat common_height) (ds_blocks old_local)) in
  let confirmed := list_to_set (map (fun r => pd_txid (cf_tx r)) (ds_confirmed_transactions adopted)) in
  let '(adopted, _, restored) :=
    fold_left (restore_transaction confirmed (bound_txids op_candidates)) candidates (adopted, ∅, 0) in
  let mempool_txids := list_to_set (map pd_txid (ds_mempool adopted)) in
  let? (adopted, _) :=
    fold_result (restore_operation mempool_txids)
      (adopted, seen_operation_ids (ds_pending_protocol_operations adopted)) op_candidates in
  let bound_after := bound_txids (ds_pending_protocol_operations adopted) in
  let adopted := adopted <| ds_mempool :=
      List.filter (fun tx => negb (has_protocol_auth_witness tx) || bool_decide (pd_txid tx ∈ bound_after))
        (ds_mempool adopted) |> in
  Ok (adopted, restored).

(** One pending operation, kept when it is a presence announcement for a later
    epoch that the adopted keys accept. *)
Definition refresh_presence (acc : DevnetState * gset bytes32) (pending_op : PendingProtocolOperationState)
    : DevnetState * gset bytes32 :=
  let '(accepted, seen_presence) := acc in
  match PendingProtocolOperationState_operation pending_op with
  | Err _ => acc
  | Ok op =>
      if negb (po_op_type op =? OP_MINING_PRESENCE) || negb (bool_decide (pp_required_txid pending_op = ""%string))
      then acc
      else match decode_operation op with
      | Err _ => acc
      | Ok presence =>
          if mi_presence_epoch presence <=? ds_tip_epoch accepted then acc
          else match validate_operation_against_parent accepted op (mi_presence_epoch presence) with
          | Err _ => acc
          | Ok _ =>
              if bool_decide (operation_id op ∈ seen_presence) then acc
              else (accepted <| ds_pending_protocol_operations :=
                      ds_pending_protocol_operations accepted ++ [pending_op] |>,
                    {[operation_id op]} ∪ seen_presence)
          end
      end
  end.

Definition refresh_pending_after_runtime_commit (accepted current : DevnetState) : node_result DevnetState :=
  let pending := current <| ds_mempool := ds_mempool current ++ ds_mempool accepted |>
      <| ds_pending_protocol_operations :=
           ds_pending_protocol_operations current ++ ds_pending_protocol_operations accepted |> in
  let accepted := accepted <| ds_mempool := [] |> <| ds_pending_protocol_operations := [] |> in
  let? (accepted, _) := restore_reorg_mempool accepted pending (ds_height current) in
  let '(accepted, _) := fold_left refresh_presence (ds_pending_protocol_operations pending) (accepted, ∅) in
  Ok accepted.
End reorg.

(** ** What is restored is consistent *)

Section restored.
Context {SHA : Sha2} {ED : Ed25519}.

(** The state agrees up to the mempool and the pending operations. *)
Definition with_pending (m : list PendingTxState) (ops : list PendingProtocolOperationState) (s : DevnetState)
    : DevnetState :=
  s <| ds_mempool := m |> <| ds_pending_protocol_operations := ops |>.

Lemma with_pending_self s : with_pending (ds_mempool s) (ds_pending_protocol_operations s) s = s.
Proof. by destruct s. Qed.

Lemma in_mempool_true s txid : in_mempool s txid = true <-> txid ∈ map pd_txid (ds_mempool s).
Proof.
  unfold in_mempool. rewrite existsb_exists, list_elem_of_fmap. split.
  - intros (x & Hx & Hk%bool_decide_eq_true). exists x. split; [done|]. by apply list_elem_of_In.
  - intros (x & -> & Hx). exists x. split; [by apply list_elem_of_In|]. by apply bool_decide_eq_true.
Qed.

Lemma is_confirmed_true s txid :
  is_confirmed s txid = true <-> txid ∈ map (fun r => pd_txid (cf_tx r)) (ds_confirmed_transactions s).
Proof.
  unfold is_confirmed. rewrite existsb_exists, list_elem_of_fmap. split.
  - intros (x & Hx & Hk%bool_decide_eq_true). exists x. split; [done|]. by apply list_elem_of_In.
  - intros (x & -> & Hx). exists x. split; [by apply list_elem_of_In|]. by apply bool_decide_eq_true.
Qed.

Lemma candidate_fresh s p allow :
  validate_pending_candidate s p allow = Ok tt ->
  pd_txid p ∉ map pd_txid (ds_mempool s) /\
  pd_txid p ∉ map (fun r => pd_txid (cf_tx r)) (ds_confirmed_transactions s).
Proof.
  unfold validate_pending_candidate. destruct (_ && _); [done|]. destruct (_ && _); [done|].
  destruct (_ || _) eqn:E; [done|]. intros _. apply orb_false_iff in E as [E1 E2].
  split; intros Hin; [apply in_mempool_true in Hin|apply is_confirmed_true in Hin]; congruence.
Qed.

Lemma candidate_validates s p :
  validate_pending_candidate s p true = Ok tt -> has_protocol_auth_witness p = false ->
  exists r, validate_and_apply_mempool (s <| ds_mempool := ds_mempool s ++ [p] |>) (ds_utxos s)
              (next_mineable_epoch s) (ds_height s + 1) [] = Ok r.
Proof.
  unfold validate_pending_candidate. cbn [negb]. rewrite !andb_false_r. intros H Hp. rewrite Hp in H. cbn [andb] in H.
  destruct (_ || _); [done|].
  change (next_mineable_epoch (s <| ds_mempool := ds_mempool s ++ [p] |>)) with (next_mineable_epoch s) in H.
  change (ds_height (s <| ds_mempool := ds_mempool s ++ [p] |>)) with (ds_height s) in H.
  change (ds_utxos (s <| ds_mempool := ds_mempool s ++ [p] |>)) with (ds_utxos s) in H.
  destruct (validate_and_apply_mempool _ _ _ _ _) as [r|]; [by exists r|done].
Qed.

(** What admission checks of a candidate when [l] is already restored: the
    envelope of a treasury payment, otherwise that it applies after [l]. *)
Definition admitted_after (adopted : DevnetState) (l : list PendingTxState) (p : PendingTxState) : Prop :=
  if has_protocol_auth_witness p then check_restored_envelope (adopted <| ds_mempool := l |>) p = Ok tt
  else exists r, validate_and_apply_mempool (adopted <| ds_mempool := l ++ [p] |>) (ds_utxos adopted)
                   (next_mineable_epoch adopted) (ds_height adopted + 1) [] = Ok r.

Lemma candidate_admitted adopted l p :
  validate_pending_candidate (adopted <| ds_mempool := l |>) p true = Ok tt -> admitted_after adopted l p.
Proof.
  intros H. unfold admitted_after. destruct (has_protocol_auth_witness p) eqn:Hp.
  - unfold validate_pending_candidate in H. rewrite Hp in H. cbn [negb andb] in H. rewrite andb_false_r in H.
    by destruct (_ || _) in H.
  - by apply candidate_validates in H.
Qed.

(** Why a candidate is not restored, when [l] is: a license payment without its
    operation, or refused by admission. *)
Definition refused_after (adopted : DevnetState) (bound : gset string) (l : list PendingTxState) (p : PendingTxState)
    : Prop :=
  (has_license_payment_output p = true /\ pd_txid p ∉ bound) \/
  exists e, validate_pending_candidate (adopted <| ds_mempool := l |>) p true = Err e.

(** What the loop over the candidates maintains about the restored mempool [m],
    the ids seen and the number restored, when [past] is behind it. *)
Record restored_ok (adopted : DevnetState) (confirmed bound : gset string) (past m : list PendingTxState)
    (seen : gset string) (n : Z) : Prop := {
  rs_distinct : NoDup (map pd_txid m);
  rs_fresh : Forall (fun p => pd_txid p ∉ map (fun r => pd_txid (cf_tx r)) (ds_confirmed_transactions adopted)) m;
  rs_payments : Forall (fun p => has_license_payment_output p = true -> pd_txid p ∈ bound) m;
  rs_admitted : forall l p r, m = l ++ p :: r -> admitted_after adopted l p;
  rs_past : m ⊆ past;
  rs_count : n = Z.of_nat (length m);
  rs_seen : forall id, id ∈ seen ->
    exists p, p ∈ past /\ pd_txid p = id /\ (p ∈ m \/ exists l, l `prefix_of` m /\ refused_after adopted bound l p);
  rs_all : Forall (fun p => pd_txid p ∈ confirmed \/ pd_txid p ∈ seen) past;
}.

Lemma restored_nil adopted confirmed bound : restored_ok adopted confirmed bound [] [] ∅ 0.
Proof. split; try by constructor. - intros [] ? ? [=]. - done. - set_solver. Qed.

(** A candidate passed over: it is confirmed, seen before, or refused now. *)
Lemma restored_skip adopted confirmed bound past m seen n p :
  restored_ok adopted confirmed bound past m seen n -> pd_txid p ∈ confirmed \/ pd_txid p ∈ seen ->
  restored_ok adopted confirmed bound (past ++ [p]) m seen n.
Proof.
  intros [] Hp. split; try done.
  - set_solver.
  - intros id Hid. destruct (rs_seen0 id Hid) as (q & ? & ? & ?). exists q. set_solver.
  - apply Forall_app. split; [done|]. by apply Forall_singleton.
Qed.

Lemma restored_refuse adopted confirmed bound past m seen n p :
  restored_ok adopted confirmed bound past m seen n -> refused_after adopted bound m p ->
  restored_ok adopted confirmed bound (past ++ [p]) m ({[pd_txid p]} ∪ seen) n.
Proof.
  intros [] Hp. split; try done.
  - set_solver.
  - intros id [->%elem_of_singleton|Hid]%elem_of_union.
    + exists p. split_and!; [set_solver|done|right]. by exists m.
    + destruct (rs_seen0 id Hid) as (q & ? & ? & ?). exists q. set_solver.
  - apply Forall_app. split; [|apply Forall_singleton; set_solver].
    eapply Forall_impl; [exact rs_all0|]. set_solver.
Qed.

Lemma snoc_position {A} (m l r : list A) p q :
  m ++ [q] = l ++ p :: r -> (l = m /\ p = q) \/ exists r', m = l ++ p :: r'.
Proof.
  destruct r as [|x r' _] using rev_ind.
  - intros [-> [=->]]%app_inj_tail. by left.
  - rewrite app_comm_cons, app_assoc. intros [-> _]%app_inj_tail. right. by exists r'.
Qed.

Lemma restored_add adopted confirmed bound past m seen n p :
  restored_ok adopted confirmed bound past m seen n ->
  validate_pending_candidate (adopted <| ds_mempool := m |>) p true = Ok tt ->
  (has_license_payment_output p = true -> pd_txid p ∈ bound) ->
  restored_ok adopted confirmed bound (past ++ [p]) (m ++ [p]) ({[pd_txid p]} ∪ seen) (n + 1).
Proof.
  intros [] Hv Hpay. pose proof (candidate_fresh _ _ _ Hv) as [Hf1 Hf2].
  change (ds_mempool (adopted <| ds_mempool := m |>)) with m in Hf1.
  change (ds_confirmed_transactions (adopted <| ds_mempool := m |>)) with (ds_confirmed_transactions adopted) in Hf2.
  split.
  - rewrite map_app. apply NoDup_app. split_and!; [done| |apply NoDup_singleton]. set_solver.
  - apply Forall_app. split; [done|]. by apply Forall_singleton.
  - apply Forall_app. split; [done|]. by apply Forall_singleton.
  - intros l q r [[-> ->]|[r' Hm]]%snoc_position; [by apply candidate_admitted|by eapply rs_admitted0].
  - set_solver.
  - rewrite length_app. cbn [length]. lia.
  - intros id [->%elem_of_singleton|Hid]%elem_of_union.
    + exists p. split_and!; [set_solver|done|left; set_solver].
    + destruct (rs_seen0 id Hid) as (q & Hq & Hi & [Hm|(l & Hl & Hr)]); exists q; (split_and!; [set_solver|done|]).
      * left. set_solver.
      * right. exists l. split; [|done]. by apply prefix_app_r.
  - apply Forall_app. split; [|apply Forall_singleton; set_solver].
    eapply Forall_impl; [exact rs_all0|]. set_solver.
Qed.

Lemma restore_step adopted confirmed bound past m seen n p :
  restored_ok adopted confirmed bound past m seen n ->
  exists m' seen' n',
    restore_transaction confirmed bound (adopted <| ds_mempool := m |>, seen, n) p
      = (adopted <| ds_mempool := m' |>, seen', n') /\
    restored_ok adopted confirmed bound (past ++ [p]) m' seen' n'.
Proof.
  intros Hok. unfold restore_transaction.
  case_bool_decide; [exists m, seen, n; split; [done|]; apply restored_skip; tauto|].
  case_bool_decide; [exists m, seen, n; split; [done|]; apply restored_skip; tauto|].
  destruct (_ && _) eqn:Epay.
  { apply andb_true_iff in Epay as [H1 H2%negb_true_iff%bool_decide_eq_false].
    eexists m, _, n. split; [done|]. apply restored_refuse; [done|by left]. }
  destruct (validate_pending_candidate _ p true) as [[]|e] eqn:E.
  - eexists (m ++ [p]), _, _. split; [done|]. apply restored_add; [done..|].
    intros Hp. rewrite Hp in Epay. cbn [andb] in Epay. by apply negb_false_iff, bool_decide_eq_true in Epay.
  - eexists m, _, n. split; [done|]. apply restored_refuse; [done|right]. by exists e.
Qed.

Lemma restore_loop adopted confirmed bound candidates past m seen n :
  restored_ok adopted confirmed bound past m seen n ->
  exists m' seen' n',
    fold_left (restore_transaction confirmed bound) candidates (adopted <| ds_mempool := m |>, seen, n)
      = (adopted <| ds_mempool := m' |>, seen', n') /\
    restored_ok adopted confirmed bound (past ++ candidates) m' seen' n'.
Proof.
  revert past m seen n. induction candidates as [|p candidates IH]; intros past m seen n Hok; cbn [fold_left].
  { rewrite app_nil_r. by exists m, seen, n. }
  destruct (restore_step adopted confirmed bound past m seen n p Hok) as (m1 & seen1 & n1 & -> & Hok1).
  destruct (IH _ _ _ _ Hok1) as (m' & seen' & n' & -> & Hok'). exists m', seen', n'. split; [done|].
  by rewrite <- app_assoc in Hok'.
Qed.

(** A restored mempool without treasury payments validates as a whole. *)
Lemma admitted_together adopted m :
  (forall l p r, m = l ++ p :: r -> admitted_after adopted l p) ->
  Forall (fun p => has_protocol_auth_witness p = false) m ->
  exists r, validate_and_apply_mempool (adopted <| ds_mempool := m |>) (ds_utxos adopted)
              (next_mineable_epoch adopted) (ds_height adopted + 1) [] = Ok r.
Proof.
  intros Hm Hauth. destruct m as [|p l _] using rev_ind; [by eexists|].
  specialize (Hm l p [] eq_refl). unfold admitted_after in Hm.
  apply Forall_app in Hauth as [_ Hp%Forall_inv]. by rewrite Hp in Hm.
Qed.

(** The identifier of a pending operation that decodes. *)
Definition pending_id (p : PendingProtocolOperationState) : option bytes32 :=
  match PendingProtocolOperationState_operation p with Ok op => Some (operation_id op) | Err _ => None end.

Record operations_ok (mempool_txids : gset string) (seen : gset bytes32) (ops : list PendingProtocolOperationState)
    : Prop := {
  oo_bound : Forall (fun p => pp_required_txid p = ""%string \/ pp_required_txid p ∈ mempool_txids) ops;
  oo_seen : Forall (fun p => exists id, pending_id p = Some id /\ id ∈ seen) ops;
  oo_distinct : NoDup (map pending_id ops);
}.

Lemma operations_nil txids : operations_ok txids ∅ [].
Proof. split; constructor. Qed.

Lemma operations_step txids m ops adopted seen p a' seen' :
  restore_operation txids (with_pending m ops adopted, seen) p = Ok (a', seen') ->
  operations_ok txids seen ops ->
  exists ops', a' = with_pending m ops' adopted /\ operations_ok txids seen' ops' /\ (ops' = ops \/ ops' = ops ++ [p]).
Proof.
  unfold restore_operation. intros H Hok.
  assert (Ok (E := NodeError) (with_pending m ops adopted, seen) = Ok (a', seen') ->
    exists ops', a' = with_pending m ops' adopted /\ operations_ok txids seen' ops' /\ (ops' = ops \/ ops' = ops ++ [p]))
    as Hsame.
  { intros E%Ok_inj. apply pair_inj in E as [<- <-]. exists ops. split_and!; [done|done|by left]. }
  destruct (negb _ && negb _) eqn:Eb; [by apply Hsame|].
  destruct (PendingProtocolOperationState_operation p) as [op|] eqn:Eop; [|done].
  destruct (operation_restorable _ op) as [ready|]; [|done]. destruct (negb ready); [by apply Hsame|].
  case_bool_decide as Hs; [by apply Hsame|]. clear Hsame. apply Ok_inj, pair_inj in H as [<- <-].
  assert (pending_id p = Some (operation_id op)) as Hid by (unfold pending_id; by rewrite Eop).
  exists (ops ++ [p]). split_and!; [done| |by right]. destruct Hok. split.
  - apply Forall_app. split; [done|]. apply Forall_singleton. apply andb_false_iff in Eb as [Eb|Eb];
      apply negb_false_iff, bool_decide_eq_true in Eb; [by left|by right].
  - apply Forall_app. split; [|apply Forall_singleton; exists (operation_id op); set_solver].
    eapply Forall_impl; [exact oo_seen0|]. intros q (id & ? & ?). exists id. set_solver.
  - rewrite map_app. apply NoDup_app. split_and!; [done| |apply NoDup_singleton].
    intros x Hx Hin%list_elem_of_singleton. subst x. rewrite Hid in Hx.
    apply list_elem_of_fmap in Hx as (q & Hq & Hin). rewrite Forall_forall in oo_seen0.
    destruct (oo_seen0 q Hin) as (id & Hid' & Hseen). rewrite Hid' in Hq. congruence.
Qed.

Lemma operations_loop txids m candidates ops adopted seen a' seen' :
  fold_result (restore_operation txids) (with_pending m ops adopted, seen) candidates = Ok (a', seen') ->
  operations_ok txids seen ops ->
  exists ops', a' = with_pending m ops' adopted /\ operations_ok txids seen' ops' /\
    (forall p, p ∈ ops' -> p ∈ ops \/ p ∈ candidates).
Proof.
  revert ops seen. induction candidates as [|p candidates IH]; intros ops seen; cbn [fold_result].
  { intros E%Ok_inj Hok. apply pair_inj in E as [<- <-]. exists ops. split_and!; [done|done|]. intros p Hp. by left. }
  destruct (restore_operation _ _ p) as [[a1 seen1]|] eqn:E; [|done]. intros H Hok.
  destruct (operations_step _ _ _ _ _ _ _ _ E Hok) as (ops1 & -> & Hok1 & Hops).
  apply IH in H as (ops' & -> & H2 & H3); [|done]. exists ops'. split_and!; [done|done|]. intros q Hq.
  destruct (H3 q Hq) as [Hin|Hin]; [|right; by right].
  destruct Hops as [-> | ->]; [by left|]. apply elem_of_app in Hin as [Hin|Hin%list_elem_of_singleton]; [by left|].
  subst. right. by left.
Qed.

Lemma bound_txids_iff ops txid :
  txid ∈ bound_txids ops <-> txid <> ""%string /\ exists p, p ∈ ops /\ pp_required_txid p = txid.
Proof.
  unfold bound_txids. rewrite elem_of_list_to_set, list_elem_of_In, filter_In, <- list_elem_of_In, list_elem_of_fmap,
    negb_true_iff, bool_decide_eq_false. naive_solver.
Qed.

(** The final filter of the mempool, by the operations restored. *)
Lemma keep_all (bound : gset string) m :
  Forall (fun p => has_protocol_auth_witness p = false) m ->
  List.filter (fun p => negb (has_protocol_auth_witness p) || bool_decide (pd_txid p ∈ bound)) m = m.
Proof. induction 1 as [|p m Hp _ IH]; cbn [List.filter]; [done|]. rewrite Hp. cbn [negb orb]. by rewrite IH. Qed.

(** It keeps what a restored operation needs. *)
Lemma needed_kept m ops :
  Forall (fun p => pp_required_txid p = ""%string \/ pp_required_txid p ∈ (list_to_set (map pd_txid m) : gset string)) ops ->
  Forall (fun o => pp_required_txid o = ""%string \/ pp_required_txid o ∈ map pd_txid
    (List.filter (fun p => negb (has_protocol_auth_witness p) || bool_decide (pd_txid p ∈ bound_txids ops)) m)) ops.
Proof.
  rewrite !Forall_forall. intros H o Hin. destruct (H o Hin) as [|Ht]; [by left|].
  destruct (decide (pp_required_txid o = ""%string)) as [|Hne]; [by left|]. right.
  apply elem_of_list_to_set, list_elem_of_fmap in Ht as (p & Htx & Hp). apply list_elem_of_fmap. exists p. split; [done|].
  apply list_elem_of_In, filter_In. split; [by apply list_elem_of_In|]. apply orb_true_intro. right.
  apply bool_decide_eq_true, bound_txids_iff. rewrite <- Htx. split; [done|]. by exists o.
Qed.

(** C32: a reorganisation restores a consistent mempool.  From the state of the
    adopted branch, whose mempool is empty, restoration changes nothing but the
    mempool and the pending operations.  The loop over the candidates (what was
    pending, then what the disconnected blocks contained) restores exactly the
    ones it should, and the result counts them: each restored transaction passed
    admission on the adopted state with those restored before it in its mempool
    (it applied after them, or has the envelope of a treasury payment), and every
    candidate id is restored, confirmed on the adopted branch, or belongs to a
    candidate that was a license payment without its operation or was refused by
    admission at its turn.  The mempool is the restored list less the treasury
    payments whose operation is not restored; when there is no treasury payment
    it validates as a whole for the next block.  Its transactions have different
    ids, none is confirmed on the adopted branch, and license payments come with
    a candidate operation.  The restored operations are candidates, different, and
    each one that needs a transaction finds it in the mempool. *)
Theorem reorg_restores_consistent_mempool adopted old_local common s n :
  restore_reorg_mempool adopted old_local common = Ok (s, n) ->
  ds_mempool adopted = [] -> ds_pending_protocol_operations adopted = [] ->
  exists candidates op_candidates restored seen,
    fold_result (block_candidates adopted old_local) (ds_mempool old_local, ds_pending_protocol_operations old_local)
      (drop (Z.to_nat common) (ds_blocks old_local)) = Ok (candidates, op_candidates) /\
    s = with_pending (ds_mempool s) (ds_pending_protocol_operations s) adopted /\
    (let bound := bound_txids op_candidates in
     let bound_after := bound_txids (ds_pending_protocol_operations s) in
     let confirmed := map (fun r => pd_txid (cf_tx r)) (ds_confirmed_transactions adopted) in
     fold_left (restore_transaction (list_to_set confirmed) bound) candidates (adopted, ∅, 0)
       = (adopted <| ds_mempool := restored |>, seen, n) /\
     n = Z.of_nat (length restored) /\ restored ⊆ candidates /\
     (forall l p r, restored = l ++ p :: r -> admitted_after adopted l p) /\
     Forall (fun p => pd_txid p ∈ confirmed \/ exists q, q ∈ candidates /\ pd_txid q = pd_txid p /\
               (q ∈ restored \/ exists l, l `prefix_of` restored /\ refused_after adopted bound l q)) candidates /\
     ds_mempool s = List.filter (fun p => negb (has_protocol_auth_witness p) || bool_decide (pd_txid p ∈ bound_after))
                      restored /\
     (Forall (fun p => has_protocol_auth_witness p = false) restored -> ds_mempool s = restored /\
      exists r, validate_and_apply_mempool (adopted <| ds_mempool := ds_mempool s |>) (ds_utxos adopted)
                  (next_mineable_epoch adopted) (ds_height adopted + 1) [] = Ok r) /\
     NoDup (map pd_txid restored) /\
     Forall (fun p => is_confirmed adopted (pd_txid p) = false /\
               (has_license_payment_output p = true -> pd_txid p ∈ bound)) restored) /\
    ds_pending_protocol_operations s ⊆ op_candidates /\
    NoDup (map pending_id (ds_pending_protocol_operations s)) /\
    Forall (fun o => pp_required_txid o = ""%string \/ pp_required_txid o ∈ map pd_txid (ds_mempool s))
      (ds_pending_protocol_operations s).
Proof.
  unfold restore_reorg_mempool. intros H Hm Ho.
  destruct (fold_result (block_candidates _ _) _ _) as [[candidates op_candidates]|]; [|done].
  set (confirmed := map (fun r => pd_txid (cf_tx r)) (ds_confirmed_transactions adopted)) in *.
  assert (adopted <| ds_mempool := [] |> = adopted) as Hself by (rewrite <- Hm; by destruct adopted).
  destruct (restore_loop adopted (list_to_set confirmed) (bound_txids op_candidates) candidates _ _ _ _
              (restored_nil _ _ _)) as (m & seen & n' & E1 & Hok).
  rewrite Hself in E1. rewrite E1 in H.
  change (adopted <| ds_mempool := m |>) with (with_pending m (ds_pending_protocol_operations adopted) adopted) in H.
  rewrite Ho in H. change (ds_mempool (with_pending m [] adopted)) with m in H.
  destruct (fold_result (restore_operation _) _ _) as [[a2 seen2]|] eqn:E2; [|done].
  apply (operations_loop _ m _ [] adopted) in E2 as (ops & -> & [] & Hops); [|apply operations_nil].
  apply Ok_inj, pair_inj in H as [<- <-]. exists candidates, op_candidates, m, seen.
  split; [done|]. split; [done|]. cbv zeta.
  change (ds_pending_protocol_operations (with_pending m ops adopted)) with ops. unfold with_pending. fields.
  destruct Hok. cbn [app] in *.
  split; [|split; [intros o Hin; destruct (Hops o Hin); [set_solver|done]|split; [done|by apply needed_kept]]].
  split_and!; [done|done|done|done| |done| |done|].
  - eapply Forall_impl; [exact rs_all0|]. intros p [?%elem_of_list_to_set|Hs]; [by left|right; by apply rs_seen0].
  - intros Hauth. rewrite keep_all by done. split; [done|]. by apply admitted_together.
  - rewrite Forall_forall in rs_fresh0, rs_payments0. apply Forall_forall. intros p Hp. split; [|by apply rs_payments0].
    apply not_true_is_false. rewrite is_confirmed_true. by apply rs_fresh0.
Qed.
End restored.

(** ** One transaction that has become invalid *)

Section stale.
Context {SHA : Sha2} {ED : Ed25519}.

(** The transaction can no longer be in a block of [epoch]. *)
Definition expired (network_id epoch : Z) (p : PendingTxState) : Prop :=
  exists tx, to_transaction_for_network p network_id = Ok tx /\
    tc_expiry_epoch (tx_core tx) <> 0 /\ tc_expiry_epoch (tx_core tx) < epoch.

Lemma mempool_all_apply state w epoch height ops r p :
  validate_and_apply_mempool state w epoch height ops = Ok r -> p ∈ ds_mempool state ->
  exists acc acc', apply_pending state epoch height ops acc p = Ok acc'.
Proof.
  intros H Hp. unfold validate_and_apply_mempool in H.
  apply (fold_result_Forall _ (fun p => exists acc acc', apply_pending state epoch height ops acc p = Ok acc')) in H.
  - rewrite Forall_forall in H. by apply H.
  - intros acc x acc' Hx. by exists acc, acc'.
Qed.

Lemma expired_not_applied state epoch height ops acc p acc' :
  expired (ds_network_id state) epoch p -> apply_pending state epoch height ops acc p <> Ok acc'.
Proof.
  intros (tx & Htx & H0 & Hlt). unfold apply_pending. destruct acc as [w out]. rewrite Htx.
  destruct (_ || _); [done|]. destruct (_ || _) eqn:E in |- *; [done|].
  apply Z.eqb_neq in H0. apply Z.ltb_lt in Hlt. rewrite H0, Hlt. cbn [negb andb]. by rewrite orb_true_r.
Qed.

(** An expired transaction blocks the mempool.  As long as a transaction
    whose expiry epoch has passed waits in the mempool, no list of operations
    and outputs makes the whole mempool apply, and every further transaction
    received from a peer is refused, whatever it is. *)
Theorem expired_transaction_blocks_mempool state p w epoch height ops q :
  p ∈ ds_mempool state -> expired (ds_network_id state) epoch p ->
  (exists e, validate_and_apply_mempool state w epoch height ops = Err e) /\
  (epoch = next_mineable_epoch state -> exists e, validate_received_pending state q = Err e).
Proof.
  intros Hp Hexp. split.
  - destruct (validate_and_apply_mempool state w epoch height ops) as [r|e] eqn:E; [|by exists e].
    destruct (mempool_all_apply _ _ _ _ _ _ _ E Hp) as (acc & acc' & H). by destruct (expired_not_applied _ _ _ _ _ _ _ Hexp H).
  - intros ->. unfold validate_received_pending. destruct (_ && _); [by eexists|].
    unfold validate_pending_candidate. cbn [negb]. rewrite !andb_true_r, andb_false_r.
    destruct (has_license_payment_output q); [by eexists|]. destruct (has_protocol_auth_witness q); [by eexists|].
    destruct (_ || _); [by eexists|].
    destruct (validate_and_apply_mempool _ _ _ _ _) as [r|e] eqn:E; [|by exists e]. exfalso.
    apply (mempool_all_apply _ _ _ _ _ _ p) in E as (acc & acc' & H).
    + by apply (expired_not_applied (state <| ds_mempool := ds_mempool state ++ [q] |>)) in H.
    + apply elem_of_app. by left.
Qed.
End stale.
