(* ===== verification/NodeChain.v ===== *)
(** Invariants of the chain of a node: what every accepted block and every
    empty epoch preserves ([mutiny-node/src/blocksync.rs], [main.rs]). *)

From Stdlib Require Import Strings.Byte Strings.String.
From stdpp Require Import strings pretty.
From S2P Require Import Prelude Crypto Codec Consensus Smt State Transaction Protocol ProtocolRules Collections NodeState Economy NodePresence NodePunishment NodeUtxo NodeDividends NodeBitcoin NodeRoots NodeBootstrap NodeEpoch NodeMempool NodeOperations NodeBlocks.

(** ** Weights, fees and the coinbase *)

Lemma varuint_len_loop_ge fuel v n : n <= varuint_len_loop fuel v n.
Proof.
  revert v n; induction fuel as [|fuel IH]; intros v n; cbn [varuint_len_loop]; [lia|].
  destruct (_ <=? v); [|lia]. etrans; [|apply IH]. lia.
Qed.

Lemma block_body_weight_nonneg txs ops w : block_body_weight txs ops = Ok w -> 0 <= w.
Proof.
  unfold block_body_weight. intros H.
  destruct (fold_result _ _ txs) as [w1|] eqn:E1; [|done].
  destruct (checked_add 64 w1 _) as [w2|] eqn:E2; simpl in H; [|done].
  apply (weigh_list TransactionV1_encode_full) in E1. apply checked_add_Some in E2 as [-> _].
  apply (weigh_list ProtocolOperationV1_encode) in H.
  pose proof (varuint_len_loop_ge 10 (Z.of_nat (length txs)) 1).
  pose proof (varuint_len_loop_ge 10 (Z.of_nat (length ops)) 1). unfold varuint_len in *. lia.
Qed.

Lemma fee_totals_ok validated f t :
  fee_totals validated = Ok (f, t) ->
  f = sum_of vt_fee validated /\ t = sum_of (fun v => vt_base_fee v / 2) validated.
Proof.
  unfold fee_totals.
  enough (forall a b, fold_result fee_step (a, b) validated = Ok (f, t) ->
            f = a + sum_of vt_fee validated /\ t = b + sum_of (fun v => vt_base_fee v / 2) validated) as Hg.
  { intros [-> ->]%Hg. lia. }
  induction validated as [|v validated IH]; intros a b; cbn [fold_result fee_step].
  { intros [<- <-]%Ok_inj%pair_inj. simpl. lia. }
  destruct (checked_add 64 a _) as [a1|] eqn:Ea; cbn [ok_or]; [|done].
  destruct (checked_add 64 b _) as [b1|] eqn:Eb; cbn [ok_or]; [|done].
  apply checked_add_Some in Ea as [-> _], Eb as [-> _].
  intros [-> ->]%IH. rewrite !sum_of_cons. lia.
Qed.

Section chain.
Context {SHA : Sha2} {ED : Ed25519} {AR : Argon2}.

Lemma coinbase_outputs_total network_id address amount share :
  0 <= share -> output_total (coinbase_outputs network_id address amount share) = amount + share.
Proof.
  unfold coinbase_outputs, output_total. intros H. destruct (Z.ltb_spec 0 share); simpl; lia.
Qed.

Lemma check_coinbase_ok network_id epoch height parent ops license amount share coinbase :
  check_coinbase network_id epoch height parent ops license amount share coinbase = Ok tt ->
  exists root address,
    protocol_operations_root ops = Ok root /\ decode32 (ls_payment_address_id license) = Ok address /\
    coinbase =
      {| tx_core := {| tc_version := 1; tc_network_id := network_id; tc_valid_from_epoch := epoch;
                       tc_expiry_epoch := 0;
                       tc_inputs := [Coinbase {| cc_block_epoch := epoch; cc_block_height := height;
                                                 cc_parent_block_hash := parent;
                                                 cc_protocol_operations_root := root |}];
                       tc_outputs := coinbase_outputs network_id address amount share |};
         tx_witnesses := [] |}.
Proof.
  unfold check_coinbase. destruct coinbase as [[v n f x ins outs] ws].
  cbn [tx_core tx_witnesses tc_version tc_network_id tc_valid_from_epoch tc_expiry_epoch tc_inputs tc_outputs].
  destruct (_ || _) eqn:E1; [done|].
  destruct ins as [|[|[a b p r]] [|]]; try done.
  destruct (protocol_operations_root ops) as [root|]; cbn [map_err]; [|done].
  cbn [cc_block_epoch cc_block_height cc_parent_block_hash cc_protocol_operations_root].
  destruct (_ || negb (bytes_eqb r root)) eqn:E2; [done|].
  destruct (decode32 _) as [address|]; [|done].
  case_bool_decide as E3; cbn [negb]; [|done]. intros _. bool_to_prop. subst.
  destruct ws; [|done]. by exists root, address.
Qed.

(** ** What accepting a block means *)

(** The facts behind [apply_body]. *)
Record body_accepted (next : DevnetState) (license : LicenseState) (h : HeaderFields) (txs : list TransactionV1)
    (operations : list ProtocolOperationV1) (weight : Z) (e : BlockEffect) (post : DevnetState) : Prop := {
  ba_fields : ef_fields e = h;
  ba_height : ef_height e = ds_height next + 1;
  ba_reward : ef_reward e = subsidy (bh_epoch h);
  ba_run : exists working validated,
    run_transactions next (tail txs) (bh_epoch h) (ef_height e) operations = Ok (working, validated) /\
    ef_validated e = map settle_fees validated /\
    fee_totals validated = Ok (ef_total_fees e, ef_treasury_share e) /\
    exists amount coinbase,
      miner_amount (ef_reward e) (ef_total_fees e) (ef_treasury_share e) = Ok amount /\
      head txs = Some coinbase /\
      check_coinbase (ds_network_id next) (bh_epoch h) (ef_height e) (bh_parent h) operations license
        amount (ef_treasury_share e) coinbase = Ok tt /\
      add_outputs_as_utxos working coinbase (bh_epoch h) (ef_height e) true = Ok (ef_utxos e);
  ba_issued : checked_add 64 (ds_total_issued_strikes next) (ef_reward e) = Some (ef_issued e);
  ba_history : next_history next = Ok (ef_history e);
  ba_base_fee : adjusted_base_fee_rate (ds_base_fee_rate_q32 next) weight = Ok (ef_base_fee e);
  ba_post : post_operations next (bh_epoch h) txs operations = Ok post;
  ba_root : compute_state_root post (ef_utxos e) (ef_height e) (ef_issued e) (fst (fst (ef_history e)))
              (snd (fst (ef_history e))) (snd (ef_history e)) (ef_base_fee e) = Ok (bh_state_root h);
}.

Lemma apply_body_ok next license h header txs operations weight s' :
  apply_body next license h header txs operations weight = Ok s' ->
  exists e post, body_accepted next license h txs operations weight e post /\ s' = commit_block e post /\
    ef_header e = header /\ ef_txs e = txs /\ ef_operations e = operations /\ ef_weight e = weight.
Proof.
  unfold apply_body.
  destruct (run_transactions _ _ _ _ _) as [[working validated]|] eqn:E1; [|done].
  destruct (fee_totals validated) as [[fees share]|] eqn:E2; [|done].
  destruct (miner_amount _ _ _) as [amount|] eqn:E3; [|done].
  destruct (head txs) as [coinbase|] eqn:E4; cbn [ok_or]; [|done].
  destruct (check_coinbase _ _ _ _ _ _ _ _ _) as [[]|] eqn:E5; [|done].
  destruct (add_outputs_as_utxos _ _ _ _ _) as [utxos|] eqn:E6; [|done].
  destruct (checked_add 64 _ _) as [issued|] eqn:E7; cbn [ok_or]; [|done].
  destruct (next_history next) as [[[c b] d]|] eqn:E8; [|done].
  destruct (adjusted_base_fee_rate _ _) as [bf|] eqn:E9; [|done].
  destruct (post_operations _ _ _ _) as [post|] eqn:E10; [|done].
  destruct (compute_state_root _ _ _ _ _ _ _ _) as [root|] eqn:E11; [|done].
  destruct (negb _) eqn:E12; [done|]. bool_to_prop. subst root. intros <-%Ok_inj.
  eexists _, post. split; [|split; [reflexivity|done]].
  split; cbn; try done. exists working, validated. split_and!; try done. by exists amount, coinbase.
Qed.

(** An accepted block is either the bootstrap block or a mined one. *)
Inductive accepted (fuel : nat) (s : DevnetState) (header : bytes) (txs : list TransactionV1)
    (operations : list ProtocolOperationV1) (s' : DevnetState) : Prop :=
| accepted_bootstrap fixture header' txs' operations' :
    build_devnet_bootstrap_transition fuel s = Ok (s', fixture, header', txs', operations') ->
    accepted fuel s header txs operations s'
| accepted_mined next license weight e post :
    let h := read_header_core (take 208 header) in
    check_position s h = Ok tt ->
    enter_epoch s (bh_epoch h) = Ok next ->
    mining_license next (bh_license_id h) (bh_epoch h) = Ok license ->
    prevalidate_block_operations next operations (bh_epoch h) = Ok tt ->
    check_work next license h (take 208 header) (slice 208 272 header) operations = Ok tt ->
    check_body_root h txs operations = Ok weight ->
    body_accepted next license h txs operations weight e post ->
    ef_header e = header -> ef_txs e = txs -> ef_operations e = operations -> ef_weight e = weight ->
    s' = commit_block e post ->
    accepted fuel s header txs operations s'.

Lemma validate_accepted fuel s header txs operations s' hash :
  validate_and_apply_block fuel s header txs operations = Ok (s', hash) ->
  accepted fuel s header txs operations s' /\ hash = ds_tip_hash s'.
Proof.
  unfold validate_and_apply_block. destruct (runtime_for_state s) as [runtime|]; [|done].
  destruct (_ && _); [done|]. destruct (is_bootstrap_block s operations).
  - unfold validate_and_apply_devnet_block1.
    destruct (build_devnet_bootstrap_transition _ _) as [[[[[n f] hd] t] o]|] eqn:E; [|done].
    intros H. inv_ok. split; [|done]. by eapply accepted_bootstrap.
  - destruct (check_position _ _) as [[]|] eqn:E1; [|done].
    destruct (enter_epoch _ _) as [next|] eqn:E2; [|done].
    destruct (mining_license _ _ _) as [license|] eqn:E3; [|done].
    destruct (prevalidate_block_operations _ _ _) as [[]|] eqn:E4; [|done].
    destruct (check_work _ _ _ _ _ _) as [[]|] eqn:E5; [|done].
    destruct (check_body_root _ _ _) as [weight|] eqn:E6; [|done].
    destruct (apply_body _ _ _ _ _ _ _) as [n|] eqn:E7; [|done].
    intros [<- <-]%Ok_inj%pair_inj.
    apply apply_body_ok in E7 as (e & post & Hb & Hs & ? & ? & ? & ?).
    split; [|done]. by eapply accepted_mined.
Qed.

(** ** Every accepted set of outputs has different outpoints *)

Lemma utxo_entry_keys us m m' :
  fold_result utxo_entry m us = Ok m' ->
  (forall u, u ∈ us -> exists id, decode32 (us_txid u) = Ok id /\ m !! utxo_key id (us_output_index u) = None) /\
  NoDup (map utxo_key_of us).
Proof.
  revert m; induction us as [|u us IH]; intros m; cbn [fold_result map].
  { intros _. split; [set_solver|constructor]. }
  destruct (utxo_entry m u) as [m1|] eqn:E; [|done]. intros [H1 H2]%IH.
  unfold utxo_entry in E. destruct (decode32 (us_txid u)) as [id|] eqn:Ed; [|done].
  destruct (UtxoState_value u) as [v|]; [|done]. unfold insert_entry in E.
  case_bool_decide as Hn; [done|]. apply Ok_inj in E as <-.
  rewrite <- eq_None_not_Some in Hn.
  assert (forall u', u' ∈ us -> exists id', decode32 (us_txid u') = Ok id' /\
            utxo_key id' (us_output_index u') <> utxo_key id (us_output_index u) /\
            m !! utxo_key id' (us_output_index u') = None) as H3.
  { intros u' (id' & Hd & Hl)%H1. exists id'. split; [done|].
    destruct (decide (utxo_key id' (us_output_index u') = utxo_key id (us_output_index u))) as [Heq|Hne].
    - rewrite Heq, lookup_insert_eq in Hl. done.
    - by rewrite lookup_insert_ne in Hl. }
  split.
  - intros u' [->|Hu]%elem_of_cons; [by exists id|]. destruct (H3 _ Hu) as (id' & ? & _ & ?). by exists id'.
  - constructor; [|done]. intros (u' & Hk & Hu)%list_elem_of_fmap.
    destruct (H3 _ Hu) as (id' & Hd & Hne & _). apply Hne. unfold utxo_key_of in Hk.
    apply pair_inj in Hk as [Hk1 Hk2]. rewrite <- Hk1, Ed in Hd. apply Ok_inj in Hd as <-. by rewrite Hk2.
Qed.

Lemma compute_utxo_root_nodup us root : compute_utxo_root us = Ok root -> NoDup (map utxo_key_of us).
Proof.
  unfold compute_utxo_root. destruct (fold_result _ _ _) as [m|] eqn:E; [|done].
  intros _. by apply utxo_entry_keys in E as [_ ?].
Qed.

Lemma compute_state_root_nodup s us height issued c b d f root :
  compute_state_root s us height issued c b d f = Ok root -> NoDup (map utxo_key_of us).
Proof.
  unfold compute_state_root. destruct (compute_utxo_root us) eqn:E; [|done].
  intros _. by eapply compute_utxo_root_nodup.
Qed.

(** ** The invariant *)

(** The difficulty window and its correction are well formed. *)
Definition difficulty_ok (s : DevnetState) : Prop :=
  (exists window, window_rep window (ds_difficulty_history_count s) (ds_difficulty_history_bitmap s)) /\
  correction_ok (ds_difficulty_correction_q32 s).

Definition expected_tip (s : DevnetState) : string :=
  match last (ds_blocks s) with Some b => bk_block_hash b | None => ds_genesis_hash s end.

Record chain_ok (s : DevnetState) : Prop := {
  co_epoch : 0 <= ds_tip_epoch s;
  co_supply : utxo_total (ds_utxos s) = ds_total_issued_strikes s;
  co_issued : 0 <= ds_total_issued_strikes s <= issuance (ds_tip_epoch s + 1);
  co_unborn : ds_height s = 0 -> ds_total_issued_strikes s = 0;
  co_outpoints : NoDup (map utxo_key_of (ds_utxos s));
  co_height : ds_height s = Z.of_nat (length (ds_blocks s));
  co_tip : ds_tip_hash s = expected_tip s;
  co_rate : fee_rate_ok (ds_base_fee_rate_q32 s);
  co_difficulty : difficulty_ok s;
  co_root : exists root, current_root s = Ok root /\ ds_current_state_root s = hex_encode root;
}.

(** ** Epochs without a block *)

Lemma difficulty_epoch_invariant : epoch_invariant difficulty_ok.
Proof.
  split; try done.
  - unfold expire_events. intros s epoch s' H. by inv_ok.
  - unfold process_epoch, first_step, award. intros s epoch s' x H. inv_ok;
      repeat match goal with H : (if ?b then _ else _) = Ok _ |- _ => destruct b; inv_ok end; done.
  - unfold append_difficulty_result. intros s b s' H [[w Hw] Hc].
    destruct (append_history_refines w _ b _ _ Hw Hc) as (c' & b' & E & Hw').
    rewrite E in H. apply Ok_inj in H as <-. split; fields; [by eexists|by apply adjust_ok].
Qed.

Lemma advance_chain_ok s through s' :
  advance_empty_epochs s through = Ok s' -> chain_ok s -> chain_ok s'.
Proof.
  intros H []. pose proof (advance_preserve _ difficulty_epoch_invariant _ _ _ H co_difficulty0) as Hd.
  pose proof (advance_empty_epochs_same _ _ _ H) as [Hs Ht].
  pose proof (sc_blocks _ _ Hs). pose proof (sc_genesis _ _ Hs). destruct Hs.
  assert (issuance (ds_tip_epoch s + 1) <= issuance (ds_tip_epoch s' + 1)) by (apply issuance_mono; lia).
  split; try congruence; try lia.
  - unfold expected_tip in *. destruct (last (ds_blocks s)) eqn:El; rewrite H0, El; congruence.
  - unfold advance_empty_epochs in H. destruct (_ <=? _); [by apply Ok_inj in H as <-|].
    destruct (empty_epochs_loop _ _ _) as [t|]; [|done].
    apply refresh_root in H as (root & Hr & ->). exists root. split; [exact Hr|done].
Qed.

(** ** Blocks *)

Lemma enter_epoch_same s epoch next : enter_epoch s epoch = Ok next -> same_chain s next.
Proof.
  unfold enter_epoch. intros H.
  destruct (if 0 <? epoch then _ else _) as [s1|] eqn:E1; [|done].
  destruct (apply_scheduled_license_transitions s1 epoch) as [[s2 n]|] eqn:E2; [|done].
  apply Ok_inj in H as <-. pose proof (transitions_same _ _ _ _ E2) as [H2 _].
  destruct (0 <? epoch); [|by apply Ok_inj in E1 as <-].
  pose proof (advance_empty_epochs_same _ _ _ E1) as [H1 _]. by etrans.
Qed.

Lemma enter_epoch_preserve P s epoch next : epoch_invariant P -> enter_epoch s epoch = Ok next -> P s -> P next.
Proof.
  unfold enter_epoch. intros HP H Hs.
  destruct (if 0 <? epoch then _ else _) as [s1|] eqn:E1; [|done].
  destruct (apply_scheduled_license_transitions s1 epoch) as [[s2 n]|] eqn:E2; [|done].
  apply Ok_inj in H as <-. eapply transitions_preserve; [done|exact E2|].
  destruct (0 <? epoch); [by eapply advance_preserve|by apply Ok_inj in E1 as <-].
Qed.

Lemma runtime_same s next : same_chain s next -> runtime_for_state next = runtime_for_state s.
Proof.
  intros []. unfold runtime_for_state, validate_runtime_tuple. by rewrite sc_network, sc_genesis, sc_format.
Qed.

Lemma post_operations_frame next epoch txs ops post :
  post_operations next epoch txs ops = Ok post -> ops_frame (next <| ds_tip_epoch := epoch |>) post.
Proof.
  unfold post_operations. destruct (apply_protocol_operations _ _ _ _) as [[p n]|] eqn:E; [|done].
  intros <-%Ok_inj. by eapply apply_protocol_operations_frame.
Qed.

Lemma commit_root e post :
  ds_tip_epoch post = bh_epoch (ef_fields e) ->
  current_root (commit_block e post)
  = compute_state_root post (ef_utxos e) (ef_height e) (ef_issued e) (fst (fst (ef_history e)))
      (snd (fst (ef_history e))) (snd (ef_history e)) (ef_base_fee e).
Proof. intros H. destruct post. cbn in H. subst. unfold commit_block. by destruct (ef_history e) as [[c b] d]. Qed.

(** A run of the transactions of a block loses exactly the fees. *)
Lemma run_transactions_total next ordinary epoch height ops working validated :
  run_transactions next ordinary epoch height ops = Ok (working, validated) ->
  utxo_total (ds_utxos next) = utxo_total working + sum_of vt_fee validated /\
  Forall (charged (ds_base_fee_rate_q32 next)) validated.
Proof.
  unfold run_transactions. destruct (map_result _ _) as [pending|]; [|done].
  intros H. eapply mempool_loop_refines in H as (Hrun & new & -> & _ & HF); [|apply run_nil]. split.
  - apply ledger_run_total in Hrun. by rewrite Hrun, sum_of_map.
  - eapply Forall_impl; [exact HF|]. intros v H. apply H.
Qed.

Lemma required_base_fee_nonneg rate weight fee :
  0 <= rate -> 0 <= weight -> required_base_fee rate weight = Ok fee -> 0 <= fee.
Proof.
  unfold required_base_fee. intros Hr Hw H.
  destruct (checked_mul 128 rate weight) as [p|] eqn:E1; cbn [ok_or] in H; [|done].
  destruct (checked_add 128 p _) as [q|] eqn:E2; cbn [ok_or] in H; [|done].
  unfold checked_mul in E1. destruct (_ <? _); [|done]. apply Some_inj in E1 as <-.
  apply checked_add_Some in E2 as [-> _]. unfold try_from in H.
  destruct (_ <? 2 ^ 64); cbn [ok_or] in H; [|done]. apply Ok_inj in H as <-.
  apply Z.div_pos; [|done]. change (Z.shiftl 1 32) with (2 ^ 32). nia.
Qed.

Lemma charged_nonneg rate v : 0 <= rate -> charged rate v -> 0 <= vt_base_fee v.
Proof.
  intros Hr [[-> | H] _]; [done|]. eapply required_base_fee_nonneg; [done| |exact H].
  unfold TransactionV1_serialized_len. lia.
Qed.

Lemma settled_sum (f : ValidatedTx -> Z) validated :
  (forall v, f (settle_fees v) = f v) -> sum_of f (map settle_fees validated) = sum_of f validated.
Proof. intros Hf. rewrite sum_of_map. by induction validated as [|v l IH]; [|rewrite !sum_of_cons, Hf, IH]. Qed.

(** A block adds its reward to the value of the unspent outputs: the fees leave
    with the transactions and come back with the coinbase. *)
Lemma body_total next license h txs operations weight e post :
  0 <= ds_base_fee_rate_q32 next ->
  body_accepted next license h txs operations weight e post ->
  utxo_total (ef_utxos e) = utxo_total (ds_utxos next) + ef_reward e.
Proof.
  intros Hr []. destruct ba_run0 as (working & validated & Hrun & Hv & Hf & amount & coinbase & Ha & _ & Hc & Hadd).
  apply run_transactions_total in Hrun as [Ht Hch]. rewrite Ht. clear Ht.
  apply fee_totals_ok in Hf as [Hf Hs].
  assert (0 <= ef_treasury_share e) as Hs0.
  { rewrite Hs. apply sum_of_nonneg. intros v Hin. apply Z.div_pos; [|lia].
    rewrite Forall_forall in Hch. eapply charged_nonneg; [exact Hr|]. by apply Hch. }
  apply check_coinbase_ok in Hc as (root & address & _ & _ & ->).
  apply add_outputs_total in Hadd as ->. cbn [tx_core tc_outputs]. rewrite coinbase_outputs_total by done.
  unfold miner_amount in Ha. destruct (checked_sub _ _) as [m|] eqn:E1; cbn [ok_or] in Ha; [|done].
  destruct (checked_add 64 _ m) as [a|] eqn:E2; cbn [ok_or] in Ha; [|done]. apply Ok_inj in Ha as <-.
  unfold checked_sub in E1. destruct (_ <=? _); [|done]. apply Some_inj in E1 as <-.
  apply checked_add_Some in E2 as [-> _]. lia.
Qed.

Lemma check_position_ok s h :
  check_position s h = Ok tt ->
  bh_version h = 1 /\ bh_network_id h = ds_network_id s /\
  (ds_height s = 0 \/ ds_tip_epoch s < bh_epoch h \/ ds_height s < 0) /\
  decode32 (ds_tip_hash s) = Ok (bh_parent h).
Proof.
  unfold check_position. destruct (_ || _) eqn:E1; [done|]. destruct (_ && (0 <? _)) eqn:E2; [done|].
  destruct (_ && (_ <? ACTIVATION_DELAY_EPOCHS)); [done|].
  destruct (decode32 _) as [tip|]; [|done]. destruct (negb (bytes_eqb _ _)) eqn:E3; [done|].
  intros _. bool_to_prop.
  split_and!; try congruence.
  apply andb_false_iff in E2 as [E2|E2]; bool_to_prop; lia.
Qed.

Lemma next_history_ok s history :
  next_history s = Ok history -> difficulty_ok s ->
  (exists w, window_rep w (fst (fst history)) (snd (fst history))) /\ correction_ok (snd history).
Proof.
  unfold next_history. intros H [[w Hw] Hc].
  destruct (0 <? ds_height s).
  - destruct (append_history_refines w _ true _ _ Hw Hc) as (c & b & E & Hw'). rewrite E in H.
    apply Ok_inj in H as <-. split; [by eexists|]. by apply adjust_ok.
  - apply Ok_inj in H as <-. split; [by eexists|done].
Qed.

Lemma check_body_root_ok h txs ops weight :
  check_body_root h txs ops = Ok weight ->
  0 <= weight <= BLOCK_WEIGHT_MAX /\ merkle_root (map TransactionV1_leaf txs) = Some (bh_tx_root h) /\
  block_body_weight txs ops = Ok weight.
Proof.
  unfold check_body_root. intros H. destruct (is_empty txs); [done|].
  destruct (merkle_root _) as [root|]; cbn [ok_or] in H; [|done].
  destruct (negb (bytes_eqb root _)) eqn:E1; [done|].
  destruct (block_body_weight txs ops) as [w|] eqn:E2; [|done].
  destruct (BLOCK_WEIGHT_MAX <? w) eqn:E3; [done|]. apply Ok_inj in H as ->. bool_to_prop. subst.
  pose proof (block_body_weight_nonneg _ _ _ E2). done.
Qed.

(** The fields of an accepted state. *)
Lemma commit_fields e post :
  let s := commit_block e post in
  ds_height s = ef_height e /\ ds_tip_epoch s = bh_epoch (ef_fields e) /\
  ds_tip_hash s = hex_encode (block_hash (ef_header e)) /\ ds_total_issued_strikes s = ef_issued e /\
  ds_base_fee_rate_q32 s = ef_base_fee e /\ ds_current_state_root s = hex_encode (bh_state_root (ef_fields e)) /\
  ds_utxos s = ef_utxos e /\ ds_blocks s = ds_blocks post ++ [block_record e] /\
  (ds_difficulty_history_count s, ds_difficulty_history_bitmap s, ds_difficulty_correction_q32 s) = ef_history e /\
  ds_network_id s = ds_network_id post /\ ds_genesis_hash s = ds_genesis_hash post /\
  ds_format_version s = ds_format_version post.
Proof. unfold commit_block. destruct (ef_history e) as [[c b] d]. done. Qed.

Lemma ops_frame_chain s post :
  ops_frame s post ->
  ds_height post = ds_height s /\ ds_tip_epoch post = ds_tip_epoch s /\ ds_blocks post = ds_blocks s /\
  ds_network_id post = ds_network_id s /\ ds_genesis_hash post = ds_genesis_hash s /\
  ds_format_version post = ds_format_version s.
Proof. intros <-. done. Qed.

Lemma accepted_chain_ok fuel s header txs operations s' :
  accepted fuel s header txs operations s' -> chain_ok s ->
  chain_ok s' /\ ds_height s' = ds_height s + 1 /\
  (exists block, ds_blocks s' = ds_blocks s ++ [block] /\ ds_tip_hash s' = bk_block_hash block).
Proof.
  intros [fixture hd' txs' ops' Hb|next license weight e post h Hpos Hnext _ _ _ Hbody Hba Hhd _ _ _ ->] Hs.
  - apply build_bootstrap_frame in Hb
      as (Hh & Hu & Hbl & Hh' & Hu' & Hi & He & Hc & Hm & Hq & Hr & _ & _ & (b & Hb & Ht) & Hroot).
    split; [|split; [lia|exists b; by rewrite Hb, Hbl]]. split.
    + done.
    + by rewrite Hu', Hi.
    + rewrite Hi. split; [done|]. apply (issuance_max (ds_tip_epoch s' + 1)). lia.
    + done.
    + rewrite Hu'. constructor.
    + by rewrite Hh', Hb.
    + unfold expected_tip. by rewrite Hb.
    + rewrite Hr. by split.
    + split; [exists []; rewrite Hc, Hm; split_and!; simpl; (done || lia)|]. rewrite Hq. by split.
    + exact Hroot.
  - apply check_position_ok in Hpos as (_ & _ & Hep & _).
    pose proof (enter_epoch_same _ _ _ Hnext) as Hsame.
    pose proof (enter_epoch_preserve _ _ _ _ difficulty_epoch_invariant Hnext (co_difficulty _ Hs)) as Hdiff.
    destruct Hs, Hsame.
    assert (0 <= bh_epoch h) as He0.
    { unfold h, read_header_core. cbn [bh_epoch]. by eapply be_val_range. }
    unfold fee_rate_ok in co_rate0. change BASE_FEE_MIN_Q32 with (2 ^ 32) in co_rate0.
    pose proof (body_total next license h txs operations weight e post ltac:(lia) Hba) as Htot.
    destruct Hba as [Hf Hh Hrw _ Hiss Hhist Hfee Hpost Hroot].
    apply post_operations_frame, ops_frame_chain in Hpost as (_ & Hpt & Hpb & _). fields.
    destruct (commit_fields e post) as (F1 & F2 & F3 & F4 & F5 & F6 & F7 & F8 & F9 & _).
    apply next_history_ok in Hhist; [|done].
    apply checked_add_Some in Hiss as [Hiss _].
    split; [|split; [lia|]].
    2: { exists (block_record e). rewrite F8, Hpb, sc_blocks. by rewrite F3. }
    split.
    + by rewrite F2, Hf.
    + rewrite F7, F4, Htot. rewrite sc_utxos, Hiss, co_supply0. lia.
    + rewrite F4, F2, Hf, Hiss, sc_issued, Hrw, issuance_step by lia.
      pose proof (subsidy_nonneg (bh_epoch h)). split; [lia|].
      destruct Hep as [H0|H0]; [rewrite co_unborn0 by done|].
      * pose proof (issuance_max (bh_epoch h) He0). lia.
      * pose proof (issuance_mono (ds_tip_epoch s + 1) (bh_epoch h)). lia.
    + lia.
    + rewrite F7. by eapply compute_state_root_nodup.
    + rewrite F1, F8, Hpb, sc_blocks, length_app. simpl. lia.
    + unfold expected_tip. by rewrite F8, last_snoc, F3.
    + rewrite F5. destruct (adjusted_base_fee_cases (ds_base_fee_rate_q32 next) weight) as (r & E & Hr & _).
      * rewrite sc_rate. exact co_rate0.
      * apply check_body_root_ok in Hbody. lia.
      * rewrite E in Hfee. by apply Ok_inj in Hfee as <-.
    + unfold difficulty_ok. rewrite <- F9 in Hhist. exact Hhist.
    + exists (bh_state_root h). rewrite commit_root by congruence. by rewrite F6, Hf.
Qed.

(** ** Chains *)

(** One transition of a node's chain: a received block, or epochs without one. *)
Inductive chain_step (fuel : nat) : DevnetState -> DevnetState -> Prop :=
| step_block s header txs operations s' hash :
    validate_and_apply_block fuel s header txs operations = Ok (s', hash) -> chain_step fuel s s'
| step_empty s through s' : advance_empty_epochs s through = Ok s' -> chain_step fuel s s'.

Lemma chain_step_ok fuel s s' :
  chain_step fuel s s' -> chain_ok s ->
  chain_ok s' /\ exists blocks, ds_blocks s' = ds_blocks s ++ blocks.
Proof.
  intros [s0 header txs ops s1 hash H|s0 through s1 H] Hs.
  - apply validate_accepted in H as [H _]. apply accepted_chain_ok in H as (H1 & _ & b & Hb & _); [|done].
    split; [done|]. by exists [b].
  - split; [by eapply advance_chain_ok|]. exists [].
    destruct (advance_empty_epochs_same _ _ _ H) as [[] _]. by rewrite app_nil_r.
Qed.

(** C1: the invariants of the chain.  Along any sequence of accepted blocks and
    empty epochs, starting from a state that satisfies them: the unspent
    outputs are worth exactly the issued supply, the issued supply stays within
    the emission schedule up to the tip epoch and so below [MAX_SUPPLY], no two
    unspent outputs share an outpoint, the height counts the blocks and the tip
    hash is the last block's, the base fee rate and the difficulty window stay
    in their ranges, and the stored state root is the root of the state.  Blocks
    are only ever appended. *)
Theorem chain_invariant fuel s s' :
  rtc (chain_step fuel) s s' -> chain_ok s ->
  chain_ok s' /\ ds_total_issued_strikes s' <= MAX_SUPPLY /\
  exists blocks, ds_blocks s' = ds_blocks s ++ blocks.
Proof.
  intros Hrun Hs. assert (chain_ok s' /\ exists blocks, ds_blocks s' = ds_blocks s ++ blocks) as [H Hb].
  { induction Hrun as [s|s s1 s' Hstep _ IH]; [split; [done|]; exists []; by rewrite app_nil_r|].
    apply chain_step_ok in Hstep as [H1 [b1 Hb1]]; [|done].
    destruct (IH H1) as [H2 [b2 Hb2]]. split; [done|]. exists (b1 ++ b2). by rewrite Hb2, Hb1, app_assoc. }
  split_and!; [done| |done]. destruct H. pose proof (issuance_max (ds_tip_epoch s' + 1) ltac:(lia)). lia.
Qed.

(** C26: an accepted block creates exactly the subsidy of its epoch.  When
    [validate_and_apply_block] accepts a block on a chain that has blocks, the
    height grows by one, the epoch grows, the issued supply and the value of the
    unspent outputs both grow by [subsidy] of the block's epoch (fees are paid
    from old outputs to the miner and the treasury, not created), the new tip is
    the hash of the received header, its parent is the old tip and the state
    root it carries is the root of the new state. *)
Theorem accepted_block_effect fuel s header txs operations s' hash :
  0 < ds_height s -> 0 <= ds_base_fee_rate_q32 s ->
  validate_and_apply_block fuel s header txs operations = Ok (s', hash) ->
  let h := read_header_core (take 208 header) in
  ds_height s' = ds_height s + 1 /\ ds_tip_epoch s < bh_epoch h /\ ds_tip_epoch s' = bh_epoch h /\
  ds_total_issued_strikes s' = ds_total_issued_strikes s + subsidy (bh_epoch h) /\
  utxo_total (ds_utxos s') = utxo_total (ds_utxos s) + subsidy (bh_epoch h) /\
  hash = hex_encode (block_hash header) /\ ds_tip_hash s' = hash /\
  decode32 (ds_tip_hash s) = Ok (bh_parent h) /\ current_root s' = Ok (bh_state_root h).
Proof.
  intros Hh Hr H h. apply validate_accepted in H
    as [[fixture hd' txs' ops' Hb|next license weight e post h0 Hpos Hnext _ _ _ Hbody Hba Hhd _ _ _ ->] ->].
  { apply build_bootstrap_frame in Hb as [H0 _]. lia. }
  apply check_position_ok in Hpos as (_ & _ & Hep & Hpar).
  pose proof (enter_epoch_same _ _ _ Hnext) as [].
  pose proof (body_total next license h0 txs operations weight e post ltac:(lia) Hba) as Htot.
  destruct Hba as [Hf Hht Hrw _ Hiss _ _ Hpost Hroot].
  apply post_operations_frame, ops_frame_chain in Hpost as (_ & Hpt & _). fields.
  destruct (commit_fields e post) as (F1 & F2 & F3 & F4 & _ & _ & F7 & _).
  apply checked_add_Some in Hiss as [Hiss _]. subst h h0.
  rewrite F1, F2, F3, F4, F7, Hf, Hiss, Htot, Hrw, sc_issued, sc_utxos.
  repeat (split; [first [done|lia|exact Hpar|by rewrite Hhd]|]). rewrite commit_root by congruence. exact Hroot.
Qed.
End chain.
