(* ===== verification/NodeCore.v ===== *)
(** The consensus part of a node state: a block is validated, and an epoch
    passed, without looking at the mempool, the pending operations, the
    confirmed records or the side branches of a node; and empty epochs that a
    later block passes anyway do not matter to it. *)

From Stdlib Require Import Strings.Byte Strings.String.
From stdpp Require Import strings pretty.
From S2P Require Import Prelude Crypto Consensus Codec State Transaction Protocol ProtocolRules Collections NodeState Economy NodePresence NodePunishment NodeUtxo NodeDividends NodeBitcoin NodePurchase NodeRoots NodeBootstrap NodeEpoch NodeMempool NodeOperations NodeBlocks NodeChain.

(** ** The volatile part of a node state *)

Record volatile := {
  vo_mempool : list PendingTxState;
  vo_pending : list PendingProtocolOperationState;
  vo_confirmed : list ConfirmedTxState;
  vo_branches : list SideBranchState;
}.

Definition with_volatile (x : volatile) (s : DevnetState) : DevnetState :=
  s <| ds_mempool := vo_mempool x |> <| ds_pending_protocol_operations := vo_pending x |>
    <| ds_confirmed_transactions := vo_confirmed x |> <| ds_side_branches := vo_branches x |>.

Definition volatile_of (s : DevnetState) : volatile :=
  {| vo_mempool := ds_mempool s; vo_pending := ds_pending_protocol_operations s;
     vo_confirmed := ds_confirmed_transactions s; vo_branches := ds_side_branches s |}.

(** What all nodes on a chain agree on. *)
Definition core (s : DevnetState) : DevnetState :=
  with_volatile {| vo_mempool := []; vo_pending := []; vo_confirmed := []; vo_branches := [] |} s.

Definition same_core (s t : DevnetState) : Prop := core s = core t.

#[export] Instance same_core_equiv : Equivalence same_core.
Proof. unfold same_core. split; [done|by intros ??|intros ???; congruence]. Qed.

Lemma same_core_volatile s x : same_core s (with_volatile x s).
Proof. by destruct s. Qed.

Lemma same_core_inv s t : same_core s t -> t = with_volatile (volatile_of t) s.
Proof.
  intros H. transitivity (with_volatile (volatile_of t) (core t)); [by destruct t|].
  rewrite <- H. by destruct s.
Qed.

(** Two computations agree: the same error, or related results. *)
Definition sim {A} (R : A -> A -> Prop) (r r' : node_result A) : Prop :=
  match r, r' with
  | Ok a, Ok b => R a b
  | Err e, Err e' => e = e'
  | _, _ => False
  end.

Definition with_value {A} (p q : DevnetState * A) : Prop := same_core p.1 q.1 /\ p.2 = q.2.

Lemma sim_bind {A B} (R : A -> A -> Prop) (Q : B -> B -> Prop) r r' k k' :
  sim R r r' -> (forall a b, R a b -> sim Q (k a) (k' b)) ->
  sim Q (match r with Ok a => k a | Err e => Err e end) (match r' with Ok a => k' a | Err e => Err e end).
Proof. destruct r, r'; cbn; try done. auto. Qed.

Lemma sim_ok {A} (R : A -> A -> Prop) r r' a : sim R r r' -> r = Ok a -> exists b, r' = Ok b /\ R a b.
Proof. intros H ->. destruct r' as [b|]; [|done]. by exists b. Qed.

Lemma sim_fold {A B} (R : A -> A -> Prop) (f f' : A -> B -> node_result A) l a b :
  (forall a b x, R a b -> sim R (f a x) (f' b x)) -> R a b -> sim R (fold_result f a l) (fold_result f' b l).
Proof.
  intros Hf. revert a b; induction l as [|y l IH]; intros a b Hab; cbn [fold_result]; [done|].
  apply (sim_bind R); [by apply Hf|]. intros a' b'. apply IH.
Qed.

(** A function that only reads the rest of the state commutes with a change of
    its volatile part: each step matches on the same value on both sides. *)
Ltac commute_step :=
  match goal with
  | |- match ?L with _ => _ end = map_ok _ (match ?R with _ => _ end) => change L with R; destruct R
  | |- match ?L with _ => _ end = map_ok _ (match ?R with _ => _ end) => destruct R
  end; cbn [map_ok fst snd]; try reflexivity.
Ltac commute := cbv zeta; repeat commute_step.

Definition commutes (f : DevnetState -> node_result DevnetState) : Prop :=
  forall x s, f (with_volatile x s) = map_ok (with_volatile x) (f s).
Definition commutes_with {A} (f : DevnetState -> node_result (DevnetState * A)) : Prop :=
  forall x s, f (with_volatile x s) = map_ok (fun p => (with_volatile x p.1, p.2)) (f s).

Lemma commutes_sim f s t : commutes f -> same_core s t -> sim same_core (f s) (f t).
Proof.
  intros Hf H. rewrite (same_core_inv s t H), Hf. destruct (f s); cbn; [apply same_core_volatile|done].
Qed.

Lemma commutes_with_sim {A} (f : DevnetState -> node_result (DevnetState * A)) s t :
  commutes_with f -> same_core s t -> sim with_value (f s) (f t).
Proof.
  intros Hf H. rewrite (same_core_inv s t H), Hf. destruct (f s); cbn; [|done]. split; [apply same_core_volatile|done].
Qed.

(** Case analysis on a value that both sides read. *)
Ltac same_read s t H :=
  rewrite (same_core_inv s t H).

Section epochs.
Context {SHA : Sha2} {ED : Ed25519} {AR : Argon2}.

Lemma expire_events_volatile epoch : commutes (fun s => expire_events s epoch).
Proof. intros x s. unfold expire_events. commute. Qed.

Lemma first_step_volatile epoch : commutes_with (fun s => first_step s epoch).
Proof. intros x s. unfold first_step. commute. Qed.

Lemma award_volatile epoch : commutes_with (fun s => let? (s, a, b) := award s epoch in Ok (s, (a, b))).
Proof.
  intros x s. enough (award (with_volatile x s) epoch
    = map_ok (fun p => (with_volatile x p.1.1, p.1.2, p.2)) (award s epoch)) as -> by by destruct (award s epoch) as [[[]]|].
  unfold award. commute.
Qed.

Lemma process_epoch_sim s t epoch :
  same_core s t -> sim with_value (process_epoch s epoch) (process_epoch t epoch).
Proof.
  intros H. unfold process_epoch.
  apply (sim_bind with_value); [by apply (commutes_with_sim (fun s => first_step s epoch) s t (first_step_volatile epoch))|].
  intros [s1 n] [t1 n'] [H1 Hn]. cbn in H1, Hn. subst n'.
  assert (same_core (drop_stale_claims s1 epoch) (drop_stale_claims t1 epoch)) as H2
    by (rewrite (same_core_inv s1 t1 H1); by destruct s1).
  destruct (_ || _); [by split|].
  pose proof (commutes_with_sim _ _ _ (award_volatile epoch) H2) as H3. cbn in H3.
  destruct (award (drop_stale_claims s1 epoch) epoch) as [[[s3 a] b]|],
    (award (drop_stale_claims t1 epoch) epoch) as [[[t3 a'] b']|]; try done.
  destruct H3 as [H3 [= -> ->]]. by split.
Qed.

Lemma transitions_sim s t epoch :
  same_core s t ->
  sim with_value (apply_scheduled_license_transitions s epoch) (apply_scheduled_license_transitions t epoch).
Proof.
  intros H. unfold apply_scheduled_license_transitions.
  apply (sim_bind same_core); [by apply (commutes_sim (fun s => expire_events s epoch) s t (expire_events_volatile epoch))|].
  intros s1 t1 H1. rewrite (same_core_inv s1 t1 H1).
  eapply (sim_bind with_value); [by apply process_epoch_sim; destruct s1|].
  intros [s2 a] [t2 b] [H2 _]. by split.
Qed.

Lemma append_difficulty_volatile b : commutes (fun s => append_difficulty_result s b).
Proof. intros x s. unfold append_difficulty_result. commute. Qed.

Lemma refresh_volatile : commutes refresh_current_state_root.
Proof. intros x s. unfold refresh_current_state_root. commute. Qed.

Lemma pass_empty_epoch_sim s t : same_core s t -> sim same_core (pass_empty_epoch s) (pass_empty_epoch t).
Proof.
  intros H. unfold pass_empty_epoch. assert (ds_tip_epoch t = ds_tip_epoch s) as -> by by rewrite (same_core_inv s t H).
  apply (sim_bind with_value); [by apply transitions_sim|]. intros [s1 a] [t1 b] [H1 _]. cbn in H1.
  rewrite (same_core_inv s1 t1 H1).
  change (ds_tip_epoch (with_volatile (volatile_of t1) s1)) with (ds_tip_epoch s1).
  change (difficulty_observation_enabled (with_volatile (volatile_of t1) s1)) with (difficulty_observation_enabled s1).
  destruct (difficulty_observation_enabled _ _); [|apply same_core_volatile].
  apply (commutes_sim _ s1 _ (append_difficulty_volatile false)), same_core_volatile.
Qed.

Lemma empty_epochs_sim fuel through s t :
  same_core s t -> sim same_core (empty_epochs_loop fuel through s) (empty_epochs_loop fuel through t).
Proof.
  revert s t; induction fuel as [|fuel IH]; intros s t H; cbn [empty_epochs_loop];
    assert (ds_tip_epoch t = ds_tip_epoch s) as -> by (by rewrite (same_core_inv s t H)); destruct (_ <? through); try done.
  apply (sim_bind same_core); [|intros s1 t1 H1; by apply IH].
  apply pass_empty_epoch_sim. rewrite (same_core_inv s t H). by destruct s.
Qed.

Lemma advance_sim s t through :
  same_core s t -> sim same_core (advance_empty_epochs s through) (advance_empty_epochs t through).
Proof.
  intros H. unfold advance_empty_epochs. assert (ds_tip_epoch t = ds_tip_epoch s) as -> by (by rewrite (same_core_inv s t H)).
  destruct (_ <=? _); [done|]. apply (sim_bind same_core); [by apply empty_epochs_sim|].
  intros s1 t1 H1. by apply (commutes_sim _ s1 t1 refresh_volatile).
Qed.

Lemma enter_epoch_sim s t epoch : same_core s t -> sim same_core (enter_epoch s epoch) (enter_epoch t epoch).
Proof.
  intros H. unfold enter_epoch. apply (sim_bind same_core).
  { destruct (0 <? epoch); [by apply advance_sim|done]. }
  intros s1 t1 H1. apply (sim_bind with_value); [by apply transitions_sim|]. by intros [] [] [? _].
Qed.
End epochs.

Section operations.
Context {SHA : Sha2} {ED : Ed25519} {AR : Argon2}.

Lemma headers_volatile op epoch : commutes (fun s => headers_apply_operation s op epoch).
Proof. intros x s. unfold headers_apply_operation. commute. Qed.

Lemma purchase_volatile op epoch : commutes_with (fun s => purchase_apply_operation s op epoch).
Proof. intros x s. unfold purchase_apply_operation. commute. Qed.

Lemma punishment_volatile op epoch : commutes (fun s => punishment_apply_operation s op epoch).
Proof. intros x s. unfold punishment_apply_operation. commute. Qed.

Lemma dividend_volatile txs op epoch : commutes (fun s => dividend_apply_operation s txs op epoch).
Proof. intros x s. unfold dividend_apply_operation. commute. Qed.

Lemma presence_volatile op : commutes (fun s => apply_validated_operation s op).
Proof. intros x s. unfold apply_validated_operation. commute. Qed.

Lemma store_historical_volatile op id hist : commutes (fun s => store_historical_keys s op id hist).
Proof. intros x s. unfold store_historical_keys. commute. Qed.

(** The same for the local variables of the loop over the operations. *)
Definition acc_volatile (x : volatile) (a : op_acc) : op_acc := a <| ac_state := with_volatile x (ac_state a) |>.

Lemma btc_purchase_volatile x a op epoch :
  run_btc_purchase (acc_volatile x a) op epoch = map_ok (acc_volatile x) (run_btc_purchase a op epoch).
Proof.
  unfold run_btc_purchase. change (ac_state (acc_volatile x a)) with (with_volatile x (ac_state a)).
  rewrite (purchase_volatile op epoch). destruct (purchase_apply_operation _ _ _) as [[s ids]|]; cbn [map_ok fst snd]; [|done].
  commute.
Qed.

Lemma native_purchase_volatile x txs a op epoch :
  run_native_purchase txs (acc_volatile x a) op epoch = map_ok (acc_volatile x) (run_native_purchase txs a op epoch).
Proof. unfold run_native_purchase. commute. Qed.

Lemma claim_authority_volatile x txs a id e1 e2 :
  claim_authority txs (acc_volatile x a) id e1 e2
  = map_ok (fun p => (acc_volatile x p.1.1, p.1.2, p.2)) (claim_authority txs a id e1 e2).
Proof. unfold claim_authority. commute. Qed.

Lemma transfer_volatile x txs a op :
  run_transfer txs (acc_volatile x a) op = map_ok (acc_volatile x) (run_transfer txs a op).
Proof.
  unfold run_transfer. destruct (decode_license_transfer_operation op) as [t|]; [|done].
  rewrite claim_authority_volatile. destruct (claim_authority _ _ _ _ _) as [[[a1 i] l]|]; cbn [map_ok fst snd]; [|done].
  destruct (LicenseState_record l) as [r|]; [|done]. destruct (apply_license_transfer r t) as [r' h].
  destruct (map_err _ h) as [hist|]; [|done]. cbv zeta.
  change (ac_state (acc_volatile x a1) <| ds_licenses := ?l |>) with (with_volatile x (ac_state a1 <| ds_licenses := l |>)).
  rewrite (store_historical_volatile op). by destruct (store_historical_keys _ _ _ _).
Qed.

Lemma rotation_volatile x txs a op :
  run_rotation txs (acc_volatile x a) op = map_ok (acc_volatile x) (run_rotation txs a op).
Proof.
  unfold run_rotation. destruct (decode_mining_key_rotation_operation op) as [t|]; [|done].
  rewrite claim_authority_volatile. destruct (claim_authority _ _ _ _ _) as [[[a1 i] l]|]; cbn [map_ok fst snd]; [|done].
  destruct (LicenseState_record l) as [r|]; [|done]. destruct (apply_mining_key_rotation r t) as [r' h].
  destruct (map_err _ h) as [hist|]; [|done]. cbv zeta.
  change (ac_state (acc_volatile x a1) <| ds_licenses := ?l |>) with (with_volatile x (ac_state a1 <| ds_licenses := l |>)).
  rewrite (store_historical_volatile op). by destruct (store_historical_keys _ _ _ _).
Qed.

Lemma run_operation_volatile x txs epoch a op :
  run_operation txs epoch (acc_volatile x a) op = map_ok (acc_volatile x) (run_operation txs epoch a op).
Proof.
  unfold run_operation. change (ac_state (acc_volatile x a)) with (with_volatile x (ac_state a)).
  destruct (negb _); [done|].
  destruct (_ =? OP_BITCOIN_HEADERS). { rewrite (headers_volatile op epoch). by destruct (headers_apply_operation _ _ _). }
  destruct (_ =? OP_LICENSE_PURCHASE_BTC); [apply btc_purchase_volatile|].
  destruct (_ =? OP_LICENSE_PURCHASE_MUT); [apply native_purchase_volatile|].
  destruct (_ =? OP_LICENSE_TRANSFER); [apply transfer_volatile|].
  destruct (_ =? OP_LICENSE_MINING_KEY_ROTATE); [apply rotation_volatile|].
  destruct (_ =? OP_PUNISHMENT_EVIDENCE). { rewrite (punishment_volatile op epoch). by destruct (punishment_apply_operation _ _ _). }
  destruct (_ =? OP_DIVIDEND_CLAIM). { rewrite (dividend_volatile txs op epoch). by destruct (dividend_apply_operation _ _ _ _). }
  destruct (_ =? OP_MINING_PRESENCE); [|done]. rewrite (presence_volatile op). by destruct (apply_validated_operation _ _).
Qed.

Lemma operations_volatile x txs epoch ops a :
  fold_result (run_operation txs epoch) (acc_volatile x a) ops
  = map_ok (acc_volatile x) (fold_result (run_operation txs epoch) a ops).
Proof.
  revert a; induction ops as [|op ops IH]; intros a; cbn [fold_result]; [done|].
  rewrite run_operation_volatile. destruct (run_operation txs epoch a op) as [a1|]; cbn [map_ok]; [apply IH|done].
Qed.

Lemma protocol_operations_volatile txs ops epoch : commutes_with (fun s => apply_protocol_operations s txs ops epoch).
Proof.
  intros x s. unfold apply_protocol_operations.
  change (prevalidate_block_operations (with_volatile x s)) with (prevalidate_block_operations s).
  destruct (prevalidate_block_operations s ops epoch); [|done].
  change (ds_consumed_native_payments (with_volatile x s)) with (ds_consumed_native_payments s).
  destruct (map_result decode32 _) as [seen|]; [|done].
  change (ds_licenses (with_volatile x s)) with (ds_licenses s).
  destruct (map_result _ (ds_licenses s)) as [known|]; [|done].
  set (acc := {| ac_state := s; ac_created := 0; ac_seen_payment := _; ac_known_licenses := _; ac_referenced := ∅;
               ac_used_fee_tickets := ∅; ac_authority_targets := ∅ |}).
  match goal with |- match fold_result _ ?b ops with _ => _ end = _ => change b with (acc_volatile x acc) end.
  rewrite operations_volatile. destruct (fold_result _ acc ops) as [a1|]; cbn [map_ok]; [|done].
  commute.
Qed.

Lemma post_operations_volatile epoch txs ops : commutes (fun s => post_operations s epoch txs ops).
Proof.
  intros x s. unfold post_operations.
  change (with_volatile x s <| ds_tip_epoch := epoch |>) with (with_volatile x (s <| ds_tip_epoch := epoch |>)).
  rewrite (protocol_operations_volatile txs ops epoch). by destruct (apply_protocol_operations _ _ _ _) as [[]|].
Qed.
End operations.

(** ** Validation ignores the volatile part *)

Ltac sim_step :=
  match goal with
  | |- sim _ (match ?L with _ => _ end) (match ?R with _ => _ end) => change R with L; destruct L
  | |- sim _ (match ?L with _ => _ end) (match ?R with _ => _ end) => destruct L
  end; lazymatch goal with |- sim _ (Err _) (Err _) => exact eq_refl | _ => idtac end.

Section validation.
Context {SHA : Sha2} {ED : Ed25519} {AR : Argon2}.

Lemma commit_core e s t : same_core s t -> same_core (commit_block e s) (commit_block e t).
Proof.
  intros H. rewrite (same_core_inv s t H). unfold commit_block. destruct (ef_history e) as [[c b] d]. by destruct s.
Qed.

Lemma apply_body_sim license h header txs ops weight s t :
  same_core s t ->
  sim same_core (apply_body s license h header txs ops weight) (apply_body t license h header txs ops weight).
Proof.
  intros H. rewrite (same_core_inv s t H). generalize (volatile_of t). clear H t. intros x.
  unfold apply_body. change (ds_height (with_volatile x s)) with (ds_height s).
  change (run_transactions (with_volatile x s)) with (run_transactions s).
  destruct (run_transactions s _ _ _ _) as [[us validated]|]; [|done].
  destruct (fee_totals validated) as [[fees share]|]; [|done]. cbv zeta.
  destruct (miner_amount _ _ _) as [amount|]; [|done]. destruct (ok_or _ (head txs)) as [coinbase|]; [|done].
  change (ds_network_id (with_volatile x s)) with (ds_network_id s).
  destruct (check_coinbase _ _ _ _ _ _ _ _ _); [|done]. destruct (add_outputs_as_utxos _ _ _ _ _) as [us'|]; [|done].
  change (ds_total_issued_strikes (with_volatile x s)) with (ds_total_issued_strikes s).
  destruct (ok_or _ _) as [issued|]; [|done]. change (next_history (with_volatile x s)) with (next_history s).
  destruct (next_history s) as [history|]; [|done].
  change (ds_base_fee_rate_q32 (with_volatile x s)) with (ds_base_fee_rate_q32 s).
  destruct (adjusted_base_fee_rate _ _) as [rate|]; [|done].
  rewrite (post_operations_volatile (bh_epoch h) txs ops x s).
  destruct (post_operations s _ _ _) as [post|]; cbn [map_ok]; [|done]. destruct history as [[c b] d].
  change (compute_state_root (with_volatile x post)) with (compute_state_root post).
  destruct (compute_state_root post _ _ _ _ _ _ _) as [root|]; [|done].
  destruct (negb _); [done|]. apply commit_core, same_core_volatile.
Qed.

(** Apart from block 1 of the development network, which insists on an empty
    mempool. *)
Lemma validate_sim fuel s t header txs ops :
  is_bootstrap_block s ops = false -> same_core s t ->
  sim with_value (validate_and_apply_block fuel s header txs ops) (validate_and_apply_block fuel t header txs ops).
Proof.
  intros Hb H. rewrite (same_core_inv s t H). set (x := volatile_of t).
  unfold validate_and_apply_block. change (runtime_for_state (with_volatile x s)) with (runtime_for_state s).
  destruct (runtime_for_state s) as [runtime|]; [|done].
  change (ds_height (with_volatile x s)) with (ds_height s). destruct (_ && _); [done|]. cbv zeta.
  change (is_bootstrap_block (with_volatile x s) ops) with (is_bootstrap_block s ops). rewrite Hb.
  set (h := read_header_core _). change (check_position (with_volatile x s) h) with (check_position s h).
  destruct (check_position s h); [|done].
  apply (sim_bind same_core); [by apply enter_epoch_sim, same_core_volatile|].
  intros s1 t1 H1. rewrite (same_core_inv s1 t1 H1). set (y := volatile_of t1).
  change (mining_license (with_volatile y s1)) with (mining_license s1).
  destruct (mining_license s1 _ _) as [license|]; [|done].
  change (prevalidate_block_operations (with_volatile y s1)) with (prevalidate_block_operations s1).
  destruct (prevalidate_block_operations s1 _ _); [|done].
  change (check_work (with_volatile y s1)) with (check_work s1).
  destruct (check_work s1 _ _ _ _ _); [|done]. destruct (check_body_root h txs ops) as [weight|]; [|done].
  apply (sim_bind same_core); [by apply apply_body_sim, same_core_volatile|].
  intros s2 t2 H2. split; [done|]. cbn [snd]. by rewrite (same_core_inv s2 t2 H2).
Qed.

Lemma check_pristine_core s t :
  same_core s t -> ds_mempool t = [] -> ds_pending_protocol_operations t = [] ->
  check_pristine s = Ok tt -> check_pristine t = Ok tt.
Proof.
  intros H. rewrite (same_core_inv s t H). set (x := volatile_of t).
  change (ds_mempool (with_volatile x s)) with (vo_mempool x).
  change (ds_pending_protocol_operations (with_volatile x s)) with (vo_pending x). intros Hm Hp.
  unfold check_pristine.
  change (ds_mempool (with_volatile x s)) with (vo_mempool x).
  change (ds_pending_protocol_operations (with_volatile x s)) with (vo_pending x). rewrite Hm, Hp.
  change (ds_format_version (with_volatile x s)) with (ds_format_version s).
  change (ds_height (with_volatile x s)) with (ds_height s).
  change (ds_tip_epoch (with_volatile x s)) with (ds_tip_epoch s).
  change (ds_blocks (with_volatile x s)) with (ds_blocks s).
  change (ds_licenses (with_volatile x s)) with (ds_licenses s).
  change (ds_consumed_bitcoin_payments (with_volatile x s)) with (ds_consumed_bitcoin_payments s).
  change (ds_utxos (with_volatile x s)) with (ds_utxos s). cbn [is_empty negb]. rewrite !orb_false_r.
  do 2 (match goal with |- (if ?b then _ else _) = _ -> _ => destruct b; [done|] end).
  by destruct (is_empty (ds_consumed_bitcoin_payments s)), (is_empty (ds_utxos s)), (is_empty (ds_mempool s)),
    (is_empty (ds_pending_protocol_operations s)).
Qed.

Lemma bootstrap_sim fuel s t :
  same_core s t -> ds_mempool t = [] -> ds_pending_protocol_operations t = [] -> check_pristine s = Ok tt ->
  sim (fun p q => same_core p.1.1.1.1 q.1.1.1.1 /\ p.1.1.2 = q.1.1.2 /\ p.1.2 = q.1.2 /\ p.2 = q.2)
    (build_devnet_bootstrap_transition fuel s) (build_devnet_bootstrap_transition fuel t).
Proof.
  intros H Hm Hp Hc. pose proof (check_pristine_core s t H Hm Hp Hc) as Hc'.
  unfold build_devnet_bootstrap_transition. rewrite Hc, Hc'.
  rewrite (same_core_inv s t H). generalize (volatile_of t). clear H Hm Hp Hc Hc' t. intros x.
  repeat sim_step.
  split_and!; reflexivity.
Qed.
End validation.

(** ** Empty epochs that a later block passes anyway *)

Section absorb.
Context {SHA : Sha2} {ED : Ed25519} {AR : Argon2}.

Lemma empty_epochs_compose n k e e' s t :
  e <= e' -> e - ds_tip_epoch s = Z.of_nat n -> empty_epochs_loop n e s = Ok t ->
  empty_epochs_loop (n + k) e' s = empty_epochs_loop k e' t.
Proof.
  intros He. revert s; induction n as [|n IH]; intros s Hn; cbn [empty_epochs_loop Nat.add].
  - destruct (Z.ltb_spec (ds_tip_epoch s) e); [lia|]. by intros <-%Ok_inj.
  - destruct (Z.ltb_spec (ds_tip_epoch s) e); [|lia]. destruct (Z.ltb_spec (ds_tip_epoch s) e'); [|lia].
    destruct (pass_empty_epoch (next_epoch s)) as [s1|] eqn:E; [|done].
    apply pass_empty_epoch_same in E as [_ Ht]. unfold next_epoch in Ht. fields. apply IH. lia.
Qed.

Lemma advance_absorb s e s1 e' :
  advance_empty_epochs s e = Ok s1 -> e <= e' -> advance_empty_epochs s1 e' = advance_empty_epochs s e'.
Proof.
  intros H He. pose proof (advance_empty_epochs_same _ _ _ H) as [_ Ht1]. pose proof H as H0. unfold advance_empty_epochs in H.
  destruct (Z.leb_spec e (ds_tip_epoch s)); [by apply Ok_inj in H as <-|].
  destruct (empty_epochs_loop _ e s) as [t|] eqn:E; [|done]. pose proof H as Hr. apply refresh_root in H as (root & Hroot & ->).
  apply empty_epochs_same in E as X; [destruct X as [_ Ht]|lia].
  destruct (Z.eq_dec e' e) as [->|].
  { rewrite H0. unfold advance_empty_epochs. by destruct (Z.leb_spec e (ds_tip_epoch (with_root (hex_encode root) t))); [|lia]. }
  unfold advance_empty_epochs. change (ds_tip_epoch (with_root (hex_encode root) t)) with (ds_tip_epoch t).
  destruct (Z.leb_spec e' (ds_tip_epoch t)); [lia|]. destruct (Z.leb_spec e' (ds_tip_epoch s)); [lia|].
  rewrite empty_epochs_loop_root, Ht.
  replace (Z.to_nat (e' - ds_tip_epoch s)) with (Z.to_nat (e - ds_tip_epoch s) + Z.to_nat (e' - e))%nat by lia.
  rewrite (empty_epochs_compose _ _ e e' s t) by (done || lia).
  by destruct (empty_epochs_loop _ e' t) as [u|]; cbn [map_ok].
Qed.

Lemma bootstrap_block_height s ops : 0 < ds_height s -> is_bootstrap_block s ops = false.
Proof. unfold is_bootstrap_block. intros H. destruct ops as [|op []]; try done. by destruct (Z.eqb_spec (ds_height s) 0); [lia|]. Qed.

Lemma accepted_later fuel s header txs ops r :
  0 < ds_height s -> validate_and_apply_block fuel s header txs ops = Ok r ->
  ds_tip_epoch s < bh_epoch (read_header_core (take 208 header)).
Proof.
  intros Hh. unfold validate_and_apply_block. rewrite bootstrap_block_height by done.
  destruct (runtime_for_state s) as [runtime|]; [|done]. destruct (_ && _); [done|]. cbv zeta.
  set (h := read_header_core _). unfold check_position. destruct (_ || _); [done|].
  destruct (Z.ltb_spec 0 (ds_height s)); [|lia]. rewrite andb_true_r.
  by destruct (Z.leb_spec (bh_epoch h) (ds_tip_epoch s)); [|lia].
Qed.

(** A block that was accepted after some empty epochs is accepted without
    having passed them, and leads to the same state. *)
Lemma validate_absorb fuel r e a header txs ops s' hash :
  is_bootstrap_block r ops = false -> 0 <= ds_tip_epoch r -> advance_empty_epochs r e = Ok a ->
  ds_tip_epoch a < bh_epoch (read_header_core (take 208 header)) ->
  validate_and_apply_block fuel a header txs ops = Ok (s', hash) ->
  validate_and_apply_block fuel r header txs ops = Ok (s', hash).
Proof.
  intros Hb Hr Ha Hep. pose proof (advance_empty_epochs_same _ _ _ Ha) as [Hs Ht]. pose proof Hs as [].
  unfold validate_and_apply_block. rewrite (runtime_same r a Hs). destruct (runtime_for_state r) as [runtime|]; [|done].
  assert (is_bootstrap_block a ops = is_bootstrap_block r ops) as -> by (unfold is_bootstrap_block; by rewrite sc_height).
  rewrite sc_height, Hb. destruct (_ && _); [done|]. cbv zeta. set (h := read_header_core _) in *.
  assert (check_position a h = check_position r h) as ->.
  { unfold check_position. rewrite sc_network, sc_height, sc_tip.
    destruct (Z.leb_spec (bh_epoch h) (ds_tip_epoch a)); [lia|]. destruct (Z.leb_spec (bh_epoch h) (ds_tip_epoch r)); [lia|done]. }
  destruct (check_position r h); [|done].
  assert (enter_epoch a (bh_epoch h) = enter_epoch r (bh_epoch h)) as ->; [|done].
  unfold enter_epoch. destruct (Z.ltb_spec 0 (bh_epoch h)); [|lia]. by rewrite (advance_absorb r e a) by (done || lia).
Qed.
End absorb.
