(* ===== verification/NodeSync.v ===== *)
(** Synchronisation with a peer ([mutiny-node/src/blocksync.rs]): the chain work
    of a branch, replay of a chain from genesis, the requests of a
    synchronisation as sessions on an authenticated connection, and the choice
    between the local and the remote branch. *)

From Stdlib Require Import Strings.Byte Strings.String Strings.HexString.
From stdpp Require Import strings pretty.
From S2P Require Import Prelude Crypto Consensus Codec State Transaction Protocol P2p Collections NodeState Economy NodeRoots NodeBootstrap NodeEpoch NodeBlocks NodePayload NodeReorg.

Definition MAX_SIDE_BRANCHES : nat := 16.
Definition MAX_PERSISTENT_INTERLEAVED_FRAMES : nat := 1024.
Definition BOOTSTRAP_LICENSE_COUNT : nat := 12.

(** ** Chain work ([main.rs]) *)

Definition block_work (target : bytes32) : Z := 2 ^ 256 / (be_val target + 1).

Definition chainwork (state : DevnetState) : node_result Z :=
  fold_result (fun total block =>
      let? target := decode32 (bk_target block) in
      Ok (total + block_work target))
    0 (ds_blocks state).

(** [format!("0x{}", work.to_str_radix(16))] *)
Definition chainwork_hex (state : DevnetState) : node_result string :=
  let? work := chainwork state in
  Ok (HexString.of_N (Z.to_N work)).

Record SyncReport := {
  sr_downloaded_blocks : Z;
  sr_applied_blocks : Z;
  sr_reorg : bool;
  sr_common_ancestor_height : Z;
  sr_disconnected_blocks : Z;
  sr_restored_mempool : Z;
  sr_decision : string;
}.

Definition SyncReport_no_change (height : Z) (decision : string) : SyncReport :=
  {| sr_downloaded_blocks := 0; sr_applied_blocks := 0; sr_reorg := false;
     sr_common_ancestor_height := height; sr_disconnected_blocks := 0; sr_restored_mempool := 0;
     sr_decision := decision |}.

(** How far two lists agree from the start: [zip], [take_while], [count]. *)
Fixpoint common_prefix {A B} (same : A -> B -> bool) (l : list A) (k : list B) : nat :=
  match l, k with
  | a :: l, b :: k => if same a b then S (common_prefix same l k) else O
  | _, _ => O
  end.

Definition common_ancestor_height (a b : DevnetState) : Z :=
  Z.of_nat (common_prefix (fun left right => bool_decide (bk_block_hash left = bk_block_hash right))
              (ds_blocks a) (ds_blocks b)).

Definition archive_branch (target source : DevnetState) (fork_height : Z) : node_result DevnetState :=
  if ds_height source <=? fork_height then Ok target
  else if Z.of_nat (length (ds_blocks source)) <? fork_height then err "fork suffix outside block vector"
  else
    let suffix := drop (Z.to_nat fork_height) (ds_blocks source) in
    if is_empty suffix then Ok target
    else if existsb (fun b => bool_decide (sb_tip_hash b = ds_tip_hash source)) (ds_side_branches target)
    then Ok target
    else
      let? work := chainwork_hex source in
      let branch := {| sb_fork_height := fork_height; sb_tip_height := ds_height source;
                       sb_tip_hash := ds_tip_hash source; sb_chain_work := work; sb_blocks := suffix |} in
      let branches := ds_side_branches target ++ [branch] in
      Ok (target <| ds_side_branches := drop (length branches - MAX_SIDE_BRANCHES) branches |>).

Section sync.
Context {SHA : Sha2} {ED : Ed25519} {AR : Argon2}.

Definition common_prefix_with_headers (state : DevnetState) (headers : list bytes) : Z :=
  Z.of_nat (common_prefix (fun block header =>
                bool_decide (bk_block_hash block = hex_encode (block_hash header)))
              (ds_blocks state) headers).

(** ** Replay *)

(** The licenses of the older development format. *)
Definition legacy_license (i : nat) : LicenseState :=
  let pk := sk_public (dev_seed (Z.of_nat i)) in
  let purchase_id := sha256_domain domains.BOOTSTRAP_MANIFEST
                       [ascii_bytes "DEVNET-BOOTSTRAP"; [byte_of_Z (Z.of_nat i)]] in
  let lid := sha256_domain domains.LICENSE_ID
               [be_bytes 4 DEVNET_NETWORK_ID; [Byte.x01]; purchase_id; be_bytes 4 (Z.of_nat i); pk] in
  {| ls_index := Z.of_nat i; ls_license_id := hex_encode lid; ls_purchase_id := hex_encode purchase_id;
     ls_owner_public_key := hex_encode pk; ls_mining_public_key := hex_encode pk;
     ls_payment_address_id := hex_encode (address_id pk); ls_status := LICENSE_STATUS_ACTIVE;
     ls_purchase_method := PURCHASE_METHOD_BTC; ls_owner_key_sequence := 0; ls_mining_key_sequence := 0;
     ls_issued_epoch := 0; ls_activation_epoch := ACTIVATION_DELAY_EPOCHS; ls_strike_weight := 0;
     ls_suspended_until_epoch := 0; ls_revocation_epoch := 0 |}.

Definition bootstrap_license_states : list LicenseState := map legacy_license (seq 0 BOOTSTRAP_LICENSE_COUNT).

(** The state before block 1 with the network parameters of [template]. *)
Definition reset_for_replay (template : DevnetState) : node_result DevnetState :=
  let genesis := ds_genesis_hash template in
  refresh_current_state_root
    (template <| ds_height := 0 |> <| ds_tip_hash := genesis |> <| ds_tip_epoch := 0 |>
       <| ds_anchor_epoch := 0 |> <| ds_anchor_license_id := hex_encode ZERO32 |>
       <| ds_anchor_ticket_index := 0 |> <| ds_anchor_argon2_proof := genesis |>
       <| ds_total_issued_strikes := 0 |> <| ds_difficulty_history_count := 0 |>
       <| ds_difficulty_history_bitmap := 0 |> <| ds_difficulty_correction_q32 := DIFFICULTY_Q32_ONE |>
       <| ds_base_fee_rate_q32 := BASE_FEE_MIN_Q32 |>
       <| ds_licenses := if 10 <=? ds_format_version template then [] else bootstrap_license_states |>
       <| ds_consumed_native_payments := [] |> <| ds_consumed_bitcoin_payments := [] |>
       <| ds_consumed_evidence := [] |> <| ds_offense_events := [] |>
       <| ds_treasury_reserved_dividend_strikes := 0 |> <| ds_dividend_accounts := [] |>
       <| ds_historical_license_keys := [] |> <| ds_mining_presence := [] |> <| ds_bitcoin_headers := [] |>
       <| ds_bitcoin_best_chain := None |> <| ds_utxos := [] |> <| ds_mempool := [] |>
       <| ds_pending_protocol_operations := [] |> <| ds_confirmed_transactions := [] |> <| ds_blocks := [] |>
       <| ds_side_branches := [] |>).

Context (fuel : nat).

(** One stored block, sent through its wire format and validated. *)
Definition replay_block (replay : DevnetState) (block : BlockState) : node_result DevnetState :=
  let? payload := encode_block_payload block in
  let? (header, txs, operations) := decode_block_payload payload in
  let? (next, _) := validate_and_apply_block fuel replay header txs operations in
  Ok next.

Definition replay_canonical_blocks (template : DevnetState) (blocks : list BlockState) : node_result DevnetState :=
  let? replay := reset_for_replay template in
  fold_result replay_block replay blocks.

Definition replay_differs (replay state : DevnetState) : bool :=
  negb (ds_height replay =? ds_height state)
  || negb (bool_decide (ds_tip_hash replay = ds_tip_hash state))
  || negb (ds_tip_epoch replay =? ds_tip_epoch state)
  || negb (ds_total_issued_strikes replay =? ds_total_issued_strikes state)
  || negb (ds_difficulty_history_count replay =? ds_difficulty_history_count state)
  || negb (ds_difficulty_history_bitmap replay =? ds_difficulty_history_bitmap state)
  || negb (ds_difficulty_correction_q32 replay =? ds_difficulty_correction_q32 state)
  || negb (ds_base_fee_rate_q32 replay =? ds_base_fee_rate_q32 state)
  || negb (bool_decide (ds_current_state_root replay = ds_current_state_root state))
  || negb (length (ds_licenses replay) =? length (ds_licenses state))%nat
  || negb (bool_decide (ds_consumed_native_payments replay = ds_consumed_native_payments state))
  || negb (bool_decide (ds_consumed_bitcoin_payments replay = ds_consumed_bitcoin_payments state))
  || negb (bool_decide (ds_consumed_evidence replay = ds_consumed_evidence state))
  || negb (bool_decide (ds_offense_events replay = ds_offense_events state))
  || negb (ds_treasury_reserved_dividend_strikes replay =? ds_treasury_reserved_dividend_strikes state)
  || negb (bool_decide (ds_dividend_accounts replay = ds_dividend_accounts state))
  || negb (bool_decide (ds_historical_license_keys replay = ds_historical_license_keys state)).

Definition verify_full_replay (state : DevnetState) : node_result unit :=
  let? replay := reset_for_replay state in
  let? replay := fold_result replay_block replay (ds_blocks state) in
  let? replay := advance_empty_epochs replay (ds_tip_epoch state) in
  if replay_differs replay state
  then err "full block replay does not reconstruct the persisted consensus state"
  else Ok tt.

(** ** Choice of the branch *)

(** [remote] is a branch that was validated from genesis.  The local branch is
    kept unless the remote one has strictly more work. *)
Definition reconcile_validated_remote (state remote : DevnetState) (downloaded : Z)
    : node_result (DevnetState * SyncReport) :=
  let fork_height := common_ancestor_height state remote in
  let? local_work := chainwork state in
  let? remote_work := chainwork remote in
  if remote_work <=? local_work then
    let? state := archive_branch state remote fork_height in
    Ok (state,
        {| sr_downloaded_blocks := downloaded; sr_applied_blocks := 0; sr_reorg := false;
           sr_common_ancestor_height := fork_height; sr_disconnected_blocks := 0; sr_restored_mempool := 0;
           sr_decision := if remote_work =? local_work then "KEPT_LOCAL_EQUAL_CHAINWORK"
                          else "KEPT_LOCAL_MORE_CHAINWORK" |})
  else
    let remote := remote <| ds_side_branches := ds_side_branches state |> in
    let? remote := archive_branch remote state fork_height in
    let? (remote, restored) := restore_reorg_mempool remote state fork_height in
    Ok (remote,
        {| sr_downloaded_blocks := downloaded;
           sr_applied_blocks := saturating_sub (ds_height remote) fork_height; sr_reorg := true;
           sr_common_ancestor_height := fork_height;
           sr_disconnected_blocks := saturating_sub (ds_height state) fork_height;
           sr_restored_mempool := restored; sr_decision := "ADOPTED_REMOTE_MORE_CHAINWORK" |}).

(** ** Requests on an authenticated connection

    [saved] is what [load_state] returns: the state that answers the requests
    which the peer makes meanwhile.  The deadlines of the requests are not
    modelled; the bound on the number of frames is. *)

Context (saved : node_result DevnetState).

Definition peer_call {A} (s : session P2pError A) : session NodeError A := session_map_err FromP2p s.

Definition send_frame (message_type request_id : Z) (payload : bytes) : session NodeError unit :=
  let! frame := lift (map_err FromP2p (Frame_new P2P_MAGIC_DEVNET message_type request_id payload)) in
  peer_call (Frame_write_to frame).

(** Whether the frame was a request that could be answered. *)
Definition service_reverse_persistent_request (frame : Frame) : session NodeError bool :=
  let respond message_type payload :=
    let! _ := send_frame message_type (fr_request_id frame) payload in Done (Ok true) in
  if fr_message_type frame =? MSG_GET_HEADERS then
    let! state := lift saved in
    let! payload := lift (serve_get_headers state (fr_payload frame)) in
    respond MSG_HEADERS payload
  else if fr_message_type frame =? MSG_GET_BLOCK then
    let! state := lift saved in
    let! payload := lift (serve_get_block state (fr_payload frame)) in
    respond MSG_BLOCK payload
  else if fr_message_type frame =? MSG_GET_ADDR then respond MSG_ADDR (write_varuint [] 0)
  else if fr_message_type frame =? MSG_PING then respond MSG_PONG (fr_payload frame)
  else Done (Ok false).

(** [remaining] frames may still come between request and response. *)
Fixpoint await_response (remaining : nat) (request_id message_type : Z) (label : string) : session NodeError Frame :=
  let! frame := peer_call (Frame_read_from P2P_MAGIC_DEVNET) in
  if (fr_request_id frame =? request_id) && (fr_message_type frame =? message_type) then Done (Ok frame)
  else match remaining with
  | O => Done (Err (Msg ("peer sent too many interleaved frames while awaiting "%string +:+ label)))
  | S remaining =>
      if fr_request_id frame =? 0 then await_response remaining request_id message_type label
      else
        let! served := service_reverse_persistent_request frame in
        if served then await_response remaining request_id message_type label
        else Done (Err (Msg ("peer returned unexpected frame while awaiting "%string +:+ label +:+ ": type=0x"%string
               +:+ hex_encode (be_bytes 2 (fr_message_type frame)) +:+ " request_id="%string
               +:+ pretty (fr_request_id frame))))
  end.

Definition read_expected_persistent_response := await_response MAX_PERSISTENT_INTERLEAVED_FRAMES.

Definition request_headers (start_height : Z) : session NodeError (Z * list bytes) :=
  let! _ := send_frame MSG_GET_HEADERS 0x4001 (be_bytes 8 start_height ++ be_bytes 2 MAX_HEADERS_PER_RESPONSE) in
  let! response := read_expected_persistent_response 0x4001 MSG_HEADERS "HEADERS" in
  lift (decode_headers_response (fr_payload response)).

Definition request_block (hash : bytes32) : session NodeError (bytes * list TransactionV1 * list ProtocolOperationV1) :=
  let! _ := send_frame MSG_GET_BLOCK 0x4002 hash in
  let! response := read_expected_persistent_response 0x4002 MSG_BLOCK "BLOCK" in
  let! decoded := lift (decode_block_payload (fr_payload response)) in
  if negb (bytes_eqb (block_hash (fst (fst decoded))) hash)
  then Done (Err (Msg "BLOCK response hash does not match request"%string))
  else Done (Ok decoded).

(** [while headers.len() < target]: one round, then [continue].  Every round
    reads a response, so as many rounds as there are bytes to read are enough. *)
Definition collect_round (continue : list bytes -> session NodeError (list bytes)) (remote_height : Z)
    (headers : list bytes) : session NodeError (list bytes) :=
  let start := Z.of_nat (length headers) in
  if start <? remote_height then
    let! (observed_height, more) := request_headers start in
    if observed_height <? remote_height
    then Done (Err (Msg "peer height moved backward while collecting headers; retry synchronization"%string))
    else if is_empty more
    then Done (Err (Msg ("peer advertises height "%string +:+ pretty remote_height
           +:+ " but stopped headers at "%string +:+ pretty start)))
    else continue (headers ++ take (Z.to_nat (remote_height - start)) more)
  else Done (Ok headers).

Fixpoint collect_more (rounds : nat) (remote_height : Z) (headers : list bytes) : session NodeError (list bytes) :=
  match rounds with
  | O => Done (Err (Msg "unreachable"%string))
  | S rounds => collect_round (collect_more rounds remote_height) remote_height headers
  end.

Definition collect_remote_headers (rounds : nat) : session NodeError (Z * list bytes) :=
  let! (remote_height, first) := request_headers 0 in
  if remote_height =? 0 then Done (Ok (0, []))
  else
    let! headers := collect_more rounds remote_height first in
    if negb (Z.of_nat (length headers) =? remote_height)
    then Done (Err (Msg "remote header collection length mismatch"%string))
    else Done (Ok (remote_height, headers)).

(** The blocks of [headers], downloaded and validated on [candidate] in order. *)
Fixpoint download_blocks (mismatch : string) (headers : list bytes) (candidate : DevnetState)
    : session NodeError DevnetState :=
  match headers with
  | [] => Done (Ok candidate)
  | header :: headers =>
      let! (wire_header, txs, operations) := request_block (block_hash header) in
      if negb (bytes_eqb wire_header header) then Done (Err (Msg mismatch))
      else
        let! (candidate, _) := lift (validate_and_apply_block fuel candidate wire_header txs operations) in
        download_blocks mismatch headers candidate
  end.

(** The parent state of the next block: empty epochs after the last block are
    provisional and are taken back. *)
Definition rewind_empty_epochs (state : DevnetState) : node_result DevnetState :=
  let? replay := replay_canonical_blocks state (ds_blocks state) in
  Ok (replay <| ds_mempool := ds_mempool state |>
             <| ds_pending_protocol_operations := ds_pending_protocol_operations state |>
             <| ds_side_branches := ds_side_branches state |>).

Definition canonical_epoch (state : DevnetState) : Z := default 0 (bk_epoch <$> last (ds_blocks state)).

Definition same_tip (state : DevnetState) (headers : list bytes) : bool :=
  match last (ds_blocks state), last headers with
  | Some b, Some header => bool_decide (bk_block_hash b = hex_encode (block_hash header))
  | _, _ => false
  end.

(** The state changes only when the whole synchronisation succeeds. *)
Definition sync_state_from_peer_persistent (rounds : nat) (state : DevnetState)
    : session NodeError (DevnetState * SyncReport) :=
  let! runtime := lift (runtime_for_state state) in
  if negb (bool_decide (runtime = Devnet))
  then Done (Err (Msg "Mainnet synchronization requires the runtime-bound authenticated duplex path"%string))
  else
    let! (remote_height, headers) := collect_remote_headers rounds in
    if remote_height =? 0 then Done (Ok (state, SyncReport_no_change 0 "REMOTE_GENESIS"))
    else
      let common := common_prefix_with_headers state headers in
      if (remote_height =? ds_height state) && (common =? ds_height state) && same_tip state headers
      then Done (Ok (state, SyncReport_no_change (ds_height state) "SAME_CANONICAL_TIP"))
      else if (common =? ds_height state) && (ds_height state <? remote_height) then
        let! candidate := lift (if canonical_epoch state <? ds_tip_epoch state
                                then rewind_empty_epochs state else Ok state) in
        let new := drop (Z.to_nat (ds_height state)) headers in
        let! candidate := download_blocks "BLOCK header differs from prior HEADERS announcement" new candidate in
        Done (Ok (candidate,
          {| sr_downloaded_blocks := Z.of_nat (length new);
             sr_applied_blocks := ds_height candidate - ds_height state; sr_reorg := false;
             sr_common_ancestor_height := ds_height state; sr_disconnected_blocks := 0;
             sr_restored_mempool := 0; sr_decision := "EXTENDED_CANONICAL_CHAIN" |}))
      else if (common =? remote_height) && (remote_height <? ds_height state)
      then Done (Ok (state, SyncReport_no_change remote_height "REMOTE_IS_CANONICAL_ANCESTOR"))
      else
        let! remote := lift (reset_for_replay state) in
        let! remote := download_blocks "BLOCK header differs from prior HEADERS announcement during fork validation"
                         headers remote in
        lift (reconcile_validated_remote state remote (Z.of_nat (length headers))).
End sync.
