(* ===== verification/NodeReplay.v ===== *)
(** What a chain determines: the stored blocks of a chain lead from genesis to
    its state again, and a synchronisation only ever ends on such a chain
    ([mutiny-node/src/blocksync.rs]). *)

From Stdlib Require Import Strings.Byte Strings.String.
From stdpp Require Import strings pretty.
From S2P Require Import Prelude Crypto Consensus Codec State Transaction Protocol ProtocolRules P2p Collections NodeState Economy NodePresence NodePunishment NodeUtxo NodeDividends NodeBitcoin NodePurchase NodeRoots NodeBootstrap NodeEpoch NodeMempool NodeOperations NodeBlocks NodePayload NodeReorg NodeChain NodeCore NodeSync.

(** ** Runs of a node *)

Section runs.
Context {SHA : Sha2} {ED : Ed25519} {AR : Argon2}.
Context (fuel : nat).

(** The first block of the older development format, which starts with
    licenses, must come after the epochs that already passed; the code requires
    this of every other block. *)
Definition legacy_start (s : DevnetState) (header : bytes) : Prop :=
  ds_format_version s < 10 -> ds_height s = 0 ->
  ds_tip_epoch s < bh_epoch (read_header_core (take 208 header)).

(** One transition of a node that follows the chain: a block that a peer sent,
    epochs without a block, and work that is only known locally. *)
Inductive node_step : DevnetState -> DevnetState -> Prop :=
| step_received payload header txs ops s s' hash :
    Z.of_nat (length payload) <= MAX_P2P_PAYLOAD ->
    decode_block_payload payload = Ok (header, txs, ops) ->
    validate_and_apply_block fuel s header txs ops = Ok (s', hash) -> legacy_start s header -> node_step s s'
| step_epochs through s s' : advance_empty_epochs s through = Ok s' -> node_step s s'
| step_local x s : node_step s (with_volatile x s).

(** The state before block 1. *)
Record genesis_state (s : DevnetState) : Prop := {
  gs_height : ds_height s = 0;
  gs_tip_epoch : ds_tip_epoch s = 0;
  gs_licenses : 10 <= ds_format_version s -> ds_licenses s = [];
  gs_blocks : ds_blocks s = [];
  gs_mempool : ds_mempool s = [];
  gs_pending : ds_pending_protocol_operations s = [];
}.

Lemma reset_genesis t g : reset_for_replay t = Ok g -> genesis_state g.
Proof.
  unfold reset_for_replay. intros (root & _ & ->)%refresh_root. unfold with_root. split; fields; try done.
  intros Hf. by destruct (Z.leb_spec 10 (ds_format_version t)); [|lia].
Qed.

(** *** Accepted blocks are stored *)

Lemma bootstrap_stored s s' fixture header header' txs txs' ops ops' :
  build_devnet_bootstrap_transition fuel s = Ok (s', fixture, header', txs', ops') ->
  header = header' -> map TransactionV1_encode_full txs = map TransactionV1_encode_full txs' ->
  map ProtocolOperationV1_encode ops = map ProtocolOperationV1_encode ops' ->
  exists b, ds_blocks s' = ds_blocks s ++ [b] /\ stores b header txs ops.
Proof.
  unfold build_devnet_bootstrap_transition. intros H -> Ht Ho. pass_checks H.
  apply Ok_inj in H. apply pair_inj in H as [[[[<- _]%pair_inj <-]%pair_inj <-]%pair_inj <-].
  eexists. split; [fields; reflexivity|]. unfold stores. cbn [bk_header bk_transactions bk_protocol_operations].
  split; [done|]. split.
  - rewrite <- (map_map TransactionV1_encode_full hex_encode txs), Ht. done.
  - rewrite <- (map_map ProtocolOperationV1_encode hex_encode ops), Ho. done.
Qed.

Lemma accepted_stored s header txs ops s' hash :
  validate_and_apply_block fuel s header txs ops = Ok (s', hash) ->
  exists b, ds_blocks s' = ds_blocks s ++ [b] /\ stores b header txs ops.
Proof.
  intros H. destruct (is_bootstrap_block s ops) eqn:Eb.
  - unfold validate_and_apply_block in H. destruct (runtime_for_state s) as [runtime|]; [|done].
    destruct (_ && _); [done|]. cbv zeta in H. rewrite Eb in H. unfold validate_and_apply_devnet_block1 in H.
    destruct (build_devnet_bootstrap_transition _ _) as [[[[[n f] hd] t] o]|] eqn:E; [|done].
    destruct (negb _) eqn:E1; [done|]. destruct (negb (bool_decide (map TransactionV1_encode_full _ = _))) eqn:E2; [done|].
    destruct (negb _) eqn:E3 in H; [done|]. bool_to_prop. apply Ok_inj, pair_inj in H as [<- _].
    apply bool_decide_eq_true in E2, E3. by eapply bootstrap_stored.
  - unfold validate_and_apply_block in H. rewrite Eb in H. destruct (runtime_for_state s) as [runtime|]; [|done].
    destruct (_ && _); [done|]. cbv zeta in H. destruct (check_position _ _); [|done].
    destruct (enter_epoch _ _) as [next|] eqn:En; [|done]. destruct (mining_license _ _ _) as [license|]; [|done].
    destruct (prevalidate_block_operations _ _ _); [|done]. destruct (check_work _ _ _ _ _ _); [|done].
    destruct (check_body_root _ _ _) as [weight|]; [|done]. destruct (apply_body _ _ _ _ _ _ _) as [n|] eqn:E; [|done].
    apply Ok_inj, pair_inj in H as [<- _]. apply apply_body_ok in E as (e & post & Hb & -> & Hh & Ht & Ho & _).
    exists (block_record e). destruct (commit_fields e post) as (_ & _ & _ & _ & _ & _ & _ & F8 & _).
    apply ba_post, post_operations_frame, ops_frame_chain in Hb as (_ & _ & Hb & _). fields.
    pose proof (sc_blocks _ _ (enter_epoch_same _ _ _ En)). split; [congruence|].
    unfold stores, block_record. cbn [bk_header bk_transactions bk_protocol_operations]. by rewrite Hh, Ht, Ho.
Qed.

(** *** Network parameters never change *)

Definition params (s : DevnetState) : Z * Z * string * Z * string * Z :=
  (ds_format_version s, ds_network_id s, ds_motto s, ds_genesis_time_ms s, ds_genesis_hash s, ds_epoch_ms s).

Lemma reset_params s t : params s = params t -> reset_for_replay s = reset_for_replay t.
Proof.
  destruct s, t. unfold params. fields. intros [= -> -> -> -> -> ->]. done.
Qed.

Lemma params_epoch_invariant c : epoch_invariant (fun s => params s = c).
Proof.
  split; try done.
  - unfold expire_events. intros s epoch s' H. by inv_ok.
  - unfold process_epoch, first_step, award. intros s epoch s' x H. inv_ok;
      repeat match goal with H : (if ?b then _ else _) = Ok _ |- _ => destruct b; inv_ok end; done.
  - unfold append_difficulty_result. intros s b s' H. by inv_ok.
Qed.

Lemma accepted_params s header txs ops s' hash :
  validate_and_apply_block fuel s header txs ops = Ok (s', hash) -> params s' = params s.
Proof.
  intros [[f hd t o E|next license weight e post h _ Hn _ _ _ _ Hb Hh Ht Ho _ ->] _]%validate_accepted.
  - unfold build_devnet_bootstrap_transition in E. pass_checks E.
    apply Ok_inj in E. by apply pair_inj in E as [[[[<- _]%pair_inj _]%pair_inj _]%pair_inj _].
  - transitivity (params post).
    { unfold commit_block. by destruct (ef_history e) as [[c b] d]. }
    apply ba_post, post_operations_frame in Hb. rewrite <- Hb. change (params next = params s).
    by eapply (enter_epoch_preserve _ _ _ _ (params_epoch_invariant (params s))).
Qed.

Lemma step_params s s' : node_step s s' -> params s' = params s.
Proof.
  intros [payload header txs ops s0 s1 hash _ _ H _|through s0 s1 H|x s0]; [by eapply accepted_params| |done].
  by eapply (advance_preserve _ (params_epoch_invariant (params s0))).
Qed.

(** *** The stored blocks lead to the state *)

(** Replay from [g] gives [r], and [r] is the state up to empty epochs and the
    volatile part. *)
Record replayable (g s : DevnetState) : Prop := {
  rp_replay : exists r, fold_result (replay_block fuel) g (ds_blocks s) = Ok r /\
    (exists a, advance_empty_epochs r (ds_tip_epoch s) = Ok a /\ same_core a s) /\
    0 <= ds_tip_epoch r <= ds_tip_epoch s;
  rp_height : ds_height s = Z.of_nat (length (ds_blocks s));
}.

Lemma replayable_genesis g : genesis_state g -> replayable g g.
Proof.
  intros []. split; [|by rewrite gs_blocks0, gs_height0]. exists g. rewrite gs_blocks0, gs_tip_epoch0.
  split; [done|]. split; [|lia]. exists g. split; [|done].
  unfold advance_empty_epochs. by rewrite gs_tip_epoch0.
Qed.

Lemma advance_here s : advance_empty_epochs s (ds_tip_epoch s) = Ok s.
Proof. unfold advance_empty_epochs. by rewrite Z.leb_refl. Qed.

Lemma replay_stored r b header txs ops payload :
  stores b header txs ops -> decode_block_payload payload = Ok (header, txs, ops) ->
  Z.of_nat (length payload) <= MAX_P2P_PAYLOAD ->
  replay_block fuel r b =
  (let? (next, _) := validate_and_apply_block fuel r header txs ops in Ok next).
Proof.
  intros Hs Hd Hl. pose proof Hd as [Hw ->]%decode_payload_iff. unfold replay_block.
  by rewrite (encode_stored b header txs ops) by done; rewrite Hd.
Qed.

Lemma accepted_fields s header txs ops s' hash :
  validate_and_apply_block fuel s header txs ops = Ok (s', hash) ->
  ds_height s' = ds_height s + 1 /\ 0 <= ds_tip_epoch s'.
Proof.
  intros [[f hd t o E|next license weight e post h _ Hn _ _ _ _ Hb Hh Ht Ho _ ->] _]%validate_accepted.
  - apply build_bootstrap_frame in E as (Hh & _ & _ & Hh' & _ & _ & He & _). lia.
  - destruct (commit_fields e post) as (F1 & F2 & _). rewrite F1, F2, (ba_fields _ _ _ _ _ _ _ _ Hb), (ba_height _ _ _ _ _ _ _ _ Hb).
    rewrite (sc_height _ _ (enter_epoch_same _ _ _ Hn)). split; [done|]. subst h. by eapply be_val_range.
Qed.

(** Block 1 of the development network. *)
Lemma bootstrap_accept_core s t header txs ops s' hash :
  same_core s t -> ds_mempool t = [] -> ds_pending_protocol_operations t = [] -> is_bootstrap_block s ops = true ->
  validate_and_apply_block fuel s header txs ops = Ok (s', hash) ->
  ds_tip_epoch s = 0 /\
  exists t', validate_and_apply_block fuel t header txs ops = Ok (t', hash) /\ same_core s' t'.
Proof.
  intros Hc Hm Hp Hb. unfold validate_and_apply_block.
  assert (runtime_for_state t = runtime_for_state s /\ ds_height t = ds_height s /\
          is_bootstrap_block t ops = is_bootstrap_block s ops) as (-> & -> & ->)
    by (rewrite (same_core_inv s t Hc); done).
  destruct (runtime_for_state s) as [runtime|]; [|done]. destruct (_ && _); [done|]. cbv zeta. rewrite Hb.
  unfold validate_and_apply_devnet_block1. intros H.
  assert (check_pristine s = Ok tt) as Hcp.
  { destruct (check_pristine s) as [[]|] eqn:E; [done|]. unfold build_devnet_bootstrap_transition in H. by rewrite E in H. }
  split.
  { unfold check_pristine in Hcp. destruct (_ <? 10); [done|]. destruct (_ || _) eqn:E in Hcp; [done|].
    repeat (apply orb_false_elim in E as [E ?]). by bool_to_prop. }
  pose proof (bootstrap_sim fuel s t Hc Hm Hp Hcp) as Hsim.
  destruct (build_devnet_bootstrap_transition fuel s) as [[[[[n f] hd] tx] o]|]; [|done].
  destruct (build_devnet_bootstrap_transition fuel t) as [[[[[n' f'] hd'] tx'] o']|]; [|done].
  cbn in Hsim. destruct Hsim as (Hn & <- & <- & <-).
  destruct (negb _); [done|]. destruct (negb _); [done|]. destruct (negb _); [done|].
  apply Ok_inj, pair_inj in H as [<- <-]. exists n'. split; [|done]. by rewrite (same_core_inv n n' Hn).
Qed.

(** Without licenses nothing but the bootstrap block is accepted. *)
Lemma unlicensed_refused s header txs ops r :
  map ls_license_id (ds_licenses s) = [] -> is_bootstrap_block s ops = false ->
  validate_and_apply_block fuel s header txs ops <> Ok r.
Proof.
  intros Hl Hb. unfold validate_and_apply_block. rewrite Hb. destruct (runtime_for_state s) as [runtime|]; [|done].
  destruct (_ && _); [done|]. cbv zeta. destruct (check_position _ _); [|done].
  destruct (enter_epoch _ _) as [next|] eqn:E; [|done]. apply enter_epoch_same, sc_ids in E. rewrite Hl in E.
  apply map_eq_nil in E. unfold mining_license, find_license. by rewrite E.
Qed.

(** The same block, accepted where the replay stands. *)
Lemma validate_from_replay g r a s header txs ops s' hash :
  genesis_state g -> fold_result (replay_block fuel) g (ds_blocks s) = Ok r ->
  advance_empty_epochs r (ds_tip_epoch s) = Ok a -> same_core a s -> 0 <= ds_tip_epoch r ->
  ds_height s = Z.of_nat (length (ds_blocks s)) -> legacy_start s header ->
  validate_and_apply_block fuel s header txs ops = Ok (s', hash) ->
  exists a', validate_and_apply_block fuel r header txs ops = Ok (a', hash) /\ same_core s' a'.
Proof.
  intros Hg Hr Ha Hc Hte Hh Hleg H. pose proof (advance_empty_epochs_same _ _ _ Ha) as [Hs Ht].
  pose proof (same_core_inv a s Hc) as Hsa.
  assert (is_bootstrap_block r ops = is_bootstrap_block s ops) as Hbr
    by (rewrite Hsa; unfold is_bootstrap_block; change (ds_height (with_volatile _ a)) with (ds_height a); by rewrite (sc_height _ _ Hs)).
  destruct (is_bootstrap_block s ops) eqn:Eb.
  - assert (ds_blocks s = []) as E0.
    { destruct (ds_blocks s); [done|]. rewrite bootstrap_block_height in Eb by (rewrite Hh; cbn; lia). done. }
    rewrite E0 in Hr. cbn in Hr. apply Ok_inj in Hr as <-.
    pose proof (bootstrap_accept_core s (core s) header txs ops s' hash eq_refl eq_refl eq_refl Eb H) as [H0 _].
    rewrite H0 in Ha. unfold advance_empty_epochs in Ha. rewrite (gs_tip_epoch g Hg) in Ha. apply Ok_inj in Ha as ->.
    apply (bootstrap_accept_core s a header txs ops); [by symmetry|by destruct Hg..|done|done].
  - assert (ds_tip_epoch s < bh_epoch (read_header_core (take 208 header))) as Hep.
    { destruct (Z.lt_ge_cases 0 (ds_height s)); [by eapply accepted_later|].
      destruct (Z.lt_ge_cases (ds_format_version s) 10); [apply Hleg; lia|].
      assert (ds_blocks s = []) as E0 by (destruct (ds_blocks s); [done|cbn in Hh; lia]).
      rewrite E0 in Hr. cbn in Hr. apply Ok_inj in Hr as <-. exfalso. revert H. apply unlicensed_refused; [|done].
      rewrite Hsa. change (map ls_license_id (ds_licenses a) = []).
      rewrite (sc_ids _ _ Hs), (gs_licenses g Hg); [done|]. rewrite <- (sc_format _ _ Hs).
      rewrite Hsa in *. assumption. }
    pose proof (validate_sim fuel s a header txs ops Eb ltac:(by symmetry)) as Hsim.
    apply (sim_ok _ _ _ _ Hsim) in H as ([a' hash'] & H & Hc' & He). cbn in Hc', He. subst hash'.
    exists a'. split; [|done]. eapply validate_absorb; [done|done|exact Ha| |done].
    by rewrite Hsa in Hep.
Qed.

Lemma fold_result_snoc {E A B} (f : A -> B -> result E A) l x a :
  fold_result f a (l ++ [x]) = let? b := fold_result f a l in f b x.
Proof.
  revert a; induction l as [|y l IH]; intros a; cbn [fold_result app]; [by destruct (f a x)|].
  destruct (f a y); [apply IH|done].
Qed.

Lemma step_replayable g s s' : genesis_state g -> node_step s s' -> replayable g s -> replayable g s'.
Proof.
  intros Hg Hstep [(r & Hr & (a & Ha & Hc) & Ht) Hh].
  destruct Hstep as [payload header txs ops s s' hash Hl Hd H Hleg|through s s' H|x s].
  - pose proof (accepted_stored _ _ _ _ _ _ H) as (b & Hb & Hst).
    pose proof (accepted_fields _ _ _ _ _ _ H) as [Hh' Ht'].
    destruct (validate_from_replay g r a s header txs ops s' hash Hg Hr Ha Hc ltac:(lia) Hh Hleg H) as (a' & Hv & Hc').
    split; [|rewrite Hh', Hb, length_app; simpl; lia]. exists a'.
    assert (ds_tip_epoch a' = ds_tip_epoch s') as Hte by (by rewrite (same_core_inv _ _ Hc')).
    rewrite Hb, fold_result_snoc, Hr, (replay_stored r b header txs ops payload), Hv by done. split; [done|].
    rewrite <- Hte. split; [|lia]. exists a'. split; [apply advance_here|by symmetry].
  - pose proof (advance_empty_epochs_same _ _ _ H) as [Hs Hts].
    pose proof (advance_sim s a through ltac:(by symmetry)) as Hsim. apply (sim_ok _ _ _ _ Hsim) in H as (a' & H & Hc').
    split; [|by rewrite (sc_height _ _ Hs), (sc_blocks _ _ Hs)]. exists r. rewrite (sc_blocks _ _ Hs). split; [done|].
    split; [|lia]. exists a'. split; [|by symmetry].
    destruct (Z.le_gt_cases (ds_tip_epoch s) through) as [Hle|Hgt].
    + replace (ds_tip_epoch s') with through by lia. by rewrite <- (advance_absorb r (ds_tip_epoch s) a through).
    + replace (ds_tip_epoch s') with (ds_tip_epoch s) by lia.
      assert (a' = a) as ->; [|done]. unfold advance_empty_epochs in H.
      assert (ds_tip_epoch a = ds_tip_epoch s) as Hta by (by rewrite (same_core_inv _ _ Hc)).
      destruct (Z.leb_spec through (ds_tip_epoch a)); [by apply Ok_inj in H|lia].
  - split; [|done]. exists r. split; [done|]. split; [|done]. exists a. split; [done|].
    etrans; [exact Hc|]. apply same_core_volatile.
Qed.

Lemma run_replayable g s : genesis_state g -> rtc node_step g s -> replayable g s.
Proof.
  intros Hg Hrun. enough (forall t, rtc node_step t s -> replayable g t -> replayable g s) as He
    by (apply (He g Hrun); by apply replayable_genesis).
  clear Hrun. intros t Hrun. induction Hrun as [|t u s Hstep _ IH]; [done|]. intros H. by eapply IH, step_replayable.
Qed.

Lemma run_params s s' : rtc node_step s s' -> params s' = params s.
Proof. induction 1 as [|s t u Hst _ IH]; [done|]. by rewrite IH, (step_params _ _ Hst). Qed.

Lemma replay_same_core a s : same_core a s -> replay_differs a s = false.
Proof.
  intros H. rewrite (same_core_inv a s H). unfold replay_differs, with_volatile. fields.
  rewrite !Z.eqb_refl, Nat.eqb_refl, !bool_decide_eq_true_2 by done. done.
Qed.

Lemma reset_keeps_params t g : reset_for_replay t = Ok g -> params g = params t.
Proof.
  unfold reset_for_replay. intros (root & _ & ->)%refresh_root. unfold params, with_root. fields. reflexivity.
Qed.

Lemma reset_idempotent t g : reset_for_replay t = Ok g -> reset_for_replay g = Ok g.
Proof. intros H. rewrite (reset_params g t (reset_keeps_params t g H)). exact H. Qed.

Lemma origin_run g s : reset_for_replay g = Ok g -> rtc node_step g s -> reset_for_replay s = Ok g.
Proof. intros H Hrun. by rewrite (reset_params s g) by (by apply run_params). Qed.

(** C4: a chain is reconstructed from its blocks.  Whatever blocks a node
    accepted from its peers, whatever epochs passed without a block and whatever
    happened to its mempool and side branches meanwhile: replaying the stored
    blocks from genesis through their wire format and then passing the empty
    epochs since the last of them gives the same consensus state, so that the
    check of a recovered state succeeds. *)
Theorem chain_replays g s :
  reset_for_replay g = Ok g -> rtc node_step g s ->
  (exists r a, replay_canonical_blocks fuel s (ds_blocks s) = Ok r /\
     advance_empty_epochs r (ds_tip_epoch s) = Ok a /\ core a = core s) /\
  verify_full_replay fuel s = Ok tt.
Proof.
  intros Hg Hrun. pose proof (run_replayable g s (reset_genesis _ _ Hg) Hrun) as [(r & Hr & (a & Ha & Hc) & _) _].
  pose proof (origin_run g s Hg Hrun) as Ho. split.
  - exists r, a. unfold replay_canonical_blocks. by rewrite Ho.
  - unfold verify_full_replay. rewrite Ho, Hr, Ha. by rewrite replay_same_core.
Qed.
End runs.
