(* ===== verification/NodeAgreement.v ===== *)
(** The miner and the validator agree: a block that the miner of [main.rs]
    builds on a chain is accepted by [validate_and_apply_block] of
    [blocksync.rs] on the same chain, and the two states agree ([agree]). *)

From Stdlib Require Import Strings.Byte Strings.String.
From stdpp Require Import strings pretty.
From S2P Require Import Prelude Crypto Codec Consensus Smt State Merkle Transaction Protocol ProtocolRules Collections NodeState Economy NodePresence NodePunishment NodeUtxo NodeDividends NodeRoots NodeBootstrap NodeEpoch NodeMempool NodeOperations NodeBlocks NodeMining NodeChain.

(** ** Sums that stay in range *)

Lemma checked_sum_loop {E A} w (e : E) (f : A -> Z) l acc :
  (forall x, x ∈ l -> 0 <= f x) -> acc + sum_of f l < 2 ^ w ->
  fold_result (fun acc x => ok_or e (checked_add w acc (f x))) acc l = Ok (acc + sum_of f l).
Proof.
  revert acc; induction l as [|x l IH]; intros acc Hf Hs; cbn [fold_result].
  { simpl. by rewrite Z.add_0_r. }
  rewrite sum_of_cons in *. assert (0 <= sum_of f l) by (apply sum_of_nonneg; set_solver).
  unfold checked_add. destruct (Z.ltb_spec (acc + f x) (2 ^ w)); [|lia]. cbn [ok_or].
  rewrite IH by (set_solver || lia). f_equal. lia.
Qed.

(** What the outputs with the given keys are worth, counting unknown ones as nothing. *)
Definition known_value (utxos : list UtxoState) (k : outpoint) : Z :=
  match find_utxo utxos k with Some u => us_amount_strikes u | None => 0 end.

Definition nonneg_amounts (utxos : list UtxoState) : Prop := Forall (fun u => 0 <= us_amount_strikes u) utxos.

Lemma known_value_nonneg utxos k : nonneg_amounts utxos -> 0 <= known_value utxos k.
Proof.
  intros Hn. unfold known_value. destruct (find_utxo utxos k) as [u|] eqn:E; [|done].
  apply find_elem in E as [E _]. unfold nonneg_amounts in Hn. rewrite Forall_forall in Hn. by apply Hn.
Qed.

(** Pairwise different keys cannot count an output twice. *)
Lemma known_sum_le utxos ks :
  nonneg_amounts utxos -> NoDup ks -> sum_of (known_value utxos) ks <= utxo_total utxos.
Proof.
  intros Hn Hks. induction utxos as [|u utxos IH].
  { unfold utxo_total. simpl. clear. induction ks; [done|]. rewrite sum_of_cons. unfold known_value at 1. simpl. lia. }
  apply Forall_cons in Hn as [Hu Hn]. specialize (IH Hn).
  unfold utxo_total in *. rewrite sum_of_cons.
  enough (sum_of (known_value (u :: utxos)) ks
          <= (if bool_decide (utxo_key_of u ∈ ks) then us_amount_strikes u else 0) + sum_of (known_value utxos) ks) as H
    by (case_bool_decide; lia).
  clear IH. induction Hks as [|k ks Hk _ IH]; [rewrite bool_decide_eq_false_2 by set_solver; done|].
  rewrite !sum_of_cons. unfold known_value at 1. unfold find_utxo. cbn [List.find].
  pose proof (known_value_nonneg utxos k Hn).
  destruct (utxo_is k u) eqn:E.
  - apply utxo_is_key in E as <-. rewrite bool_decide_eq_false_2 in IH by done.
    rewrite bool_decide_eq_true_2 by set_solver. lia.
  - change (List.find (utxo_is k) utxos) with (find_utxo utxos k).
    fold (known_value utxos k).
    assert (utxo_key_of u <> k) by (intros Heq%utxo_is_key; congruence).
    assert (bool_decide (utxo_key_of u ∈ k :: ks) = bool_decide (utxo_key_of u ∈ ks)) as ->.
    { apply bool_decide_ext. set_solver. }
    lia.
Qed.

(** ** Pending transactions made from validated ones *)

Section pending.
Context {SHA : Sha2}.

(** What [to_transaction_for_network] can produce. *)
Definition ordinary_shape (network_id : Z) (tx : TransactionV1) : Prop :=
  tc_version (tx_core tx) = 1 /\ tc_network_id (tx_core tx) = network_id /\
  Forall (fun i => exists id n, i = Outpoint id n /\ is32 id) (tc_inputs (tx_core tx)).

Lemma to_transaction_shape p network_id tx :
  to_transaction_for_network p network_id = Ok tx -> ordinary_shape network_id tx.
Proof.
  unfold to_transaction_for_network.
  destruct (map_result _ (pd_inputs p)) as [ins|] eqn:E1; [|done].
  destruct (map_result _ (pd_outputs p)) as [outs|]; [|done].
  destruct (map_result _ (pd_witnesses p)) as [ws|]; [|done].
  intros <-%Ok_inj. split_and!; [done..|]. cbn [tx_core tc_inputs].
  apply map_result_Forall2 in E1. induction E1 as [|i i' l l' Hi _ IH]; constructor; [|done].
  destruct (decode32 _) as [id|] eqn:E; [|done]. apply Ok_inj in Hi as <-.
  exists id, (si_previous_output_index i). split; [done|]. by eapply decode32_length.
Qed.

Definition stored_key (i : StoredTxInput) : outpoint := (si_previous_txid i, si_previous_output_index i).

Lemma stored_inputs_ok network_id tx :
  ordinary_shape network_id tx ->
  exists inputs, map_result stored_input (tc_inputs (tx_core tx)) = Ok inputs /\
    map (Some ∘ stored_key) inputs = map input_outpoint (tc_inputs (tx_core tx)) /\
    map_result (fun i => let? previous_txid := decode32 (si_previous_txid i) in
                         Ok (Outpoint previous_txid (si_previous_output_index i))) inputs
      = Ok (tc_inputs (tx_core tx)).
Proof.
  intros (_ & _ & H). induction H as [|i l (id & n & -> & Hid) _ (inputs & H1 & H2 & H3)]; [by exists []|].
  eexists. cbn [map_result map stored_input input_outpoint]. rewrite H1. split; [reflexivity|].
  cbn [map map_result si_previous_txid si_previous_output_index]. rewrite decode32_encode, H3 by done.
  split; [|done]. by rewrite <- H2.
Qed.

Lemma pending_decodes state tx p :
  ordinary_shape (ds_network_id state) tx -> pending_from_transaction state tx = Ok p ->
  to_transaction_for_network p (ds_network_id state) = Ok tx /\
  pd_txid p = to_hex (TransactionV1_txid tx) /\ pd_wtxid p = to_hex (TransactionV1_wtxid tx).
Proof.
  intros Hs. pose proof (stored_inputs_ok _ _ Hs) as (inputs & H1 & _ & H3).
  unfold pending_from_transaction. destruct (_ || _); [done|]. rewrite H1.
  destruct (fold_result _ 0 inputs) as [isum|]; [|done].
  destruct (try_sum _ _ _ _) as [osum|]; [|done].
  destruct (if existsb _ _ then _ else _) as [base|]; [|done]. intros <-%Ok_inj.
  split_and!; [|done|done].
  unfold to_transaction_for_network. cbn [pd_inputs pd_outputs pd_witnesses pd_valid_from_epoch pd_expiry_epoch].
  rewrite H3. destruct Hs as (Hv & Hn & _). destruct tx as [[v n f x ins outs] ws].
  cbn [tx_core tx_witnesses tc_version tc_network_id tc_valid_from_epoch tc_expiry_epoch tc_inputs tc_outputs] in *.
  assert (map_result (fun o => let? payload := hex_bytes (so_payload o) in
            Ok {| to_amount_strikes := so_amount_strikes o; to_output_type := so_output_type o;
                  to_payload := payload |}) (map stored_output outs) = Ok outs) as ->.
  { clear. induction outs as [|[a t b] outs IH]; [done|]. cbn [map map_result stored_output so_payload].
    rewrite hex_bytes_encode, IH. done. }
  assert (map_result (fun w => let? payload := hex_bytes (sw_payload w) in
            Ok {| w_witness_type := sw_witness_type w; w_payload := payload |}) (map stored_witness ws)
          = Ok ws) as ->.
  { clear. induction ws as [|[t b] ws IH]; [done|]. cbn [map map_result stored_witness sw_payload].
    rewrite hex_bytes_encode, IH. done. }
  by subst.
Qed.

Lemma known_amounts_ok state inputs acc :
  nonneg_amounts (ds_utxos state) ->
  acc + sum_of (known_value (ds_utxos state)) (map stored_key inputs) < 2 ^ 64 ->
  fold_result (known_amount state) acc inputs
  = Ok (acc + sum_of (known_value (ds_utxos state)) (map stored_key inputs)).
Proof.
  intros Hn. revert acc; induction inputs as [|i inputs IH]; intros acc Hs; cbn [fold_result map].
  { simpl. by rewrite Z.add_0_r. }
  cbn [map] in Hs. rewrite sum_of_cons in *.
  assert (0 <= sum_of (known_value (ds_utxos state)) (map stored_key inputs)).
  { apply sum_of_nonneg. intros k _. by apply known_value_nonneg. }
  pose proof (known_value_nonneg (ds_utxos state) (stored_key i) Hn) as Hk.
  assert (known_amount state acc i = Ok (acc + known_value (ds_utxos state) (stored_key i))) as ->.
  { unfold known_amount, known_value, stored_utxo in *. fold (stored_key i).
    destruct (find_utxo _ _) as [u|]; [|by rewrite Z.add_0_r].
    unfold checked_add. destruct (Z.ltb_spec (acc + us_amount_strikes u) (2 ^ 64)); [done|lia]. }
  rewrite IH by lia. f_equal. lia.
Qed.

(** A transaction with pairwise different inputs, outputs in range and a
    computable Base Fee can be stored. *)
Lemma pending_exists state tx :
  ordinary_shape (ds_network_id state) tx ->
  nonneg_amounts (ds_utxos state) -> utxo_total (ds_utxos state) < 2 ^ 64 ->
  NoDup (map input_outpoint (tc_inputs (tx_core tx))) ->
  Forall (fun o => 0 <= to_amount_strikes o) (tc_outputs (tx_core tx)) ->
  output_total (tc_outputs (tx_core tx)) < 2 ^ 64 ->
  (existsb (fun w => w_witness_type w =? WITNESS_PROTOCOL_AUTH) (tx_witnesses tx) = true \/
   exists fee, required_base_fee (ds_base_fee_rate_q32 state) (TransactionV1_serialized_len tx) = Ok fee) ->
  exists p, pending_from_transaction state tx = Ok p.
Proof.
  intros Hs Hn Ht Hd Ho Hot Hb. pose proof (stored_inputs_ok _ _ Hs) as (inputs & H1 & H2 & _).
  destruct Hs as (Hv & Hnet & _).
  unfold pending_from_transaction. rewrite Hv, Hnet, !Z.eqb_refl, H1. cbn [negb orb].
  assert (NoDup (map stored_key inputs)) as Hnd.
  { rewrite <- H2 in Hd. change (NoDup (map (fun i => Some (stored_key i)) inputs)) in Hd.
    rewrite <- (map_map stored_key Some) in Hd. by apply NoDup_fmap_1 in Hd. }
  pose proof (known_sum_le (ds_utxos state) _ Hn Hnd).
  rewrite known_amounts_ok by (done || lia).
  unfold try_sum. rewrite checked_sum_loop.
  - destruct Hb as [-> | [fee Hb]]; [by eexists|].
    destruct (existsb _ _); [by eexists|]. rewrite Hb. by eexists.
  - by apply Forall_forall.
  - unfold output_total in Hot. lia.
Qed.
End pending.

Section run.
Context {SHA : Sha2} {ED : Ed25519} {AR : Argon2}.

Lemma combine_keys {B} (f : B -> option outpoint) (ins : list TxInput) (ws : list WitnessV1) (us : list B) :
  length ws = length ins ->
  Forall2 (fun iw u => input_outpoint (fst iw) = f u) (combine ins ws) us ->
  map input_outpoint ins = map f us.
Proof.
  revert ws us; induction ins as [|i ins IH]; intros [|w ws] us Hl H; try done; cbn [combine] in H.
  - by apply Forall2_nil_inv_l in H as ->.
  - apply Forall2_cons_inv_l in H as (u & us' & Hi & H & ->). cbn [map fst] in *. f_equal; [done|].
    apply (IH ws); [simpl in Hl; lia|done].
Qed.

Lemma imap_pair_Forall2 {A B} (P : A -> B -> Prop) (Q : nat * A -> B -> Prop) l us n :
  (forall i x u, Q (i, x) u -> P x u) -> Forall2 Q (imap (fun i x => (n + i, x)%nat) l) us -> Forall2 P l us.
Proof.
  intros HQ. revert n us; induction l as [|x l IH]; intros n us; cbn [imap].
  { by intros ->%Forall2_nil_inv_l. }
  intros (u & us' & Hu & H & ->)%Forall2_cons_inv_l. constructor; [by eapply HQ|].
  apply (IH (S n)). erewrite imap_ext; [exact H|]. intros i y _. cbn. f_equal. lia.
Qed.

Lemma ledger_step_keys network_id rate epoch height ops w tx fee w' :
  ledger_step network_id rate epoch height ops w tx fee w' ->
  length (tx_witnesses tx) = length (tc_inputs (tx_core tx)) ->
  exists us rest, w ≡ₚ us ++ rest /\ w' = rest ++ created tx epoch height false /\
    utxo_total us = output_total (tc_outputs (tx_core tx)) + fee /\
    NoDup (map input_outpoint (tc_inputs (tx_core tx))).
Proof.
  intros [w0 us rest tx0 fee0 base Hp Hn HF Ho Hsum _ _|w0 us rest tx0 op claim _ _ _ Hp Hn HF Ho _] Hl;
    exists us, rest; (split_and!; [done|done| |]); try done.
  - rewrite (combine_keys (Some ∘ utxo_key_of) _ (tx_witnesses tx0) us Hl).
    + change (NoDup (map (fun u => Some (utxo_key_of u)) us)).
      rewrite <- (map_map utxo_key_of Some). by apply (NoDup_fmap_2 Some).
    + eapply (imap_pair_Forall2 _ _ _ _ 0); [|exact HF]. intros i [input wit] u (H & _). exact H.
  - rewrite Ho, claim_outputs_total. lia.
  - rewrite (combine_keys (Some ∘ utxo_key_of) _ (tx_witnesses tx0) us Hl).
    + change (NoDup (map (fun u => Some (utxo_key_of u)) us)).
      rewrite <- (map_map utxo_key_of Some). by apply (NoDup_fmap_2 Some).
    + eapply Forall2_impl; [exact HF|]. intros [input wit] u (H & _). exact H.
Qed.

(** What an accepted pending transaction satisfies besides its ledger step. *)
Lemma apply_pending_counts state epoch height ops w out p w' out' v :
  apply_pending state epoch height ops (w, out) p = Ok (w', out') ->
  out' = out ++ [v] ->
  to_transaction_for_network p (ds_network_id state) = Ok (vt_tx v) ->
  length (tx_witnesses (vt_tx v)) = length (tc_inputs (tx_core (vt_tx v))) /\
  tc_inputs (tx_core (vt_tx v)) <> [] /\
  to_hex (TransactionV1_txid (vt_tx v)) = pd_txid p /\ to_hex (TransactionV1_wtxid (vt_tx v)) = pd_wtxid p.
Proof.
  unfold apply_pending. intros H -> Ht. rewrite Ht in H. revert H.
  destruct (negb (bool_decide _) || _) eqn:E1; [done|].
  destruct (negb (tc_version _ =? 1) || _); [done|].
  destruct ((epoch <? _) || _); [done|].
  destruct ((length (tc_inputs _) =? 0)%nat || _ || _ || _) eqn:E2; [done|].
  destruct (negb (length _ =? length _)%nat) eqn:E3; [done|].
  intros _. bool_to_prop. split_and!; try done; try (by eapply bool_decide_eq_true).
  intros Hnil. by rewrite Hnil in *.
Qed.

(** Only the transaction and the identifiers of a pending transaction matter. *)
Lemma apply_pending_swap state mempool epoch height ops w out out2 p p' w' v :
  apply_pending state epoch height ops (w, out) p = Ok (w', out ++ [v]) ->
  to_transaction_for_network p (ds_network_id state) = Ok (vt_tx v) ->
  to_transaction_for_network p' (ds_network_id state) = Ok (vt_tx v) ->
  pd_txid p' = pd_txid p -> pd_wtxid p' = pd_wtxid p ->
  apply_pending (state <| ds_mempool := mempool |>) epoch height ops (w, out2) p'
  = Ok (w', out2 ++ [{| vt_pending := p'; vt_tx := vt_tx v; vt_fee := vt_fee v; vt_base_fee := vt_base_fee v |}]).
Proof.
  unfold apply_pending. fields. intros H Ht Ht' Hid Hwid. rewrite Ht in H. rewrite Ht', Hid, Hwid. revert H.
  destruct (negb (bool_decide _) || _); [done|].
  destruct (negb (tc_version _ =? 1) || _); [done|].
  destruct ((epoch <? _) || _); [done|].
  destruct ((length (tc_inputs _) =? 0)%nat || _ || _ || _); [done|].
  destruct (negb (length _ =? length _)%nat); [done|].
  destruct (claim_operation_for_tx _ _) as [[op|]|]; [| |done].
  - change (validate_and_apply_payment (state <| ds_mempool := mempool |>))
      with (validate_and_apply_payment state).
    destruct (validate_and_apply_payment _ _ _ _ _ _) as [w1|]; [|done].
    intros [-> Hv]%Ok_inj%pair_inj. apply app_inj_tail in Hv as [_ <-]. done.
  - unfold apply_ordinary. fields. rewrite Hid.
    destruct (fold_result _ _ (imap pair _)) as [[[seen sum] consumed]|]; [|done].
    destruct (fold_result _ 0 _) as [outs|]; [|done].
    destruct (sum <? outs); [done|].
    destruct (ok_or _ _) as [fee|]; [|done].
    destruct (map_err _ _) as [base|]; [|done].
    destruct (fee <? base); [done|].
    destruct (remove_consumed _ _ _) as [w1|]; [|done].
    destruct (add_outputs_as_utxos _ _ _ _ _) as [w2|]; [|done].
    intros [-> Hv]%Ok_inj%pair_inj. apply app_inj_tail in Hv as [_ <-]. done.
Qed.

(** Stored amounts are [u64]s. *)
Definition pending_typed (p : PendingTxState) : Prop := Forall (fun o => 0 <= so_amount_strikes o) (pd_outputs p).

Lemma to_transaction_amounts p network_id tx :
  pending_typed p -> to_transaction_for_network p network_id = Ok tx ->
  Forall (fun o => 0 <= to_amount_strikes o) (tc_outputs (tx_core tx)).
Proof.
  unfold to_transaction_for_network, pending_typed. intros Hp.
  destruct (map_result _ (pd_inputs p)) as [ins|]; [|done].
  destruct (map_result _ (pd_outputs p)) as [outs|] eqn:E; [|done].
  destruct (map_result _ (pd_witnesses p)) as [ws|]; [|done]. intros <-%Ok_inj. cbn [tx_core tc_outputs].
  apply map_result_Forall2 in E. induction E as [|o o' l l' Ho _ IH]; [constructor|].
  apply Forall_cons in Hp as [Hp1 Hp]. constructor; [|by apply IH].
  destruct (hex_bytes _); [|done]. by apply Ok_inj in Ho as <-.
Qed.

Lemma created_nonneg tx epoch height coinbase :
  Forall (fun o => 0 <= to_amount_strikes o) (tc_outputs (tx_core tx)) ->
  nonneg_amounts (created tx epoch height coinbase).
Proof.
  unfold created, nonneg_amounts.
  enough (forall outs i, Forall (fun o => 0 <= to_amount_strikes o) outs -> Forall (fun u => 0 <= us_amount_strikes u)
            (new_utxos (to_hex (TransactionV1_txid tx)) epoch height coinbase i outs)) as Hg by apply Hg.
  induction outs as [|o outs IH]; intros i H; [constructor|].
  apply Forall_cons in H as [Ho H]. cbn [new_utxos]. constructor; [done|]. by apply IH.
Qed.

(** A step keeps amounts nonnegative and the total from growing. *)
Lemma step_amounts network_id rate epoch height ops w tx fee w' :
  ledger_step network_id rate epoch height ops w tx fee w' ->
  length (tx_witnesses tx) = length (tc_inputs (tx_core tx)) ->
  Forall (fun o => 0 <= to_amount_strikes o) (tc_outputs (tx_core tx)) ->
  0 <= fee -> nonneg_amounts w ->
  nonneg_amounts w' /\ utxo_total w' <= utxo_total w /\ output_total (tc_outputs (tx_core tx)) <= utxo_total w.
Proof.
  intros Hstep Hl Ho Hf Hn. pose proof (ledger_step_total _ _ _ _ _ _ _ _ _ Hstep) as Ht.
  destruct (ledger_step_keys _ _ _ _ _ _ _ _ _ Hstep Hl) as (us & rest & Hp & -> & Hsum & _).
  unfold nonneg_amounts in *. rewrite Hp in Hn. apply Forall_app in Hn as [Hu Hrest].
  split_and!; [|lia|].
  - apply Forall_app. split; [done|]. by apply created_nonneg.
  - assert (0 <= utxo_total rest) by (apply sum_of_nonneg; by apply Forall_forall).
    unfold utxo_total in *. rewrite Hp, sum_of_app. lia.
Qed.

(** The witnesses say whether a transaction is a dividend payment; if not, its
    Base Fee was computed. *)
Lemma step_base_fee network_id rate epoch height ops w tx fee w' :
  ledger_step network_id rate epoch height ops w tx fee w' ->
  length (tx_witnesses tx) = length (tc_inputs (tx_core tx)) -> tc_inputs (tx_core tx) <> [] ->
  existsb (fun w => w_witness_type w =? WITNESS_PROTOCOL_AUTH) (tx_witnesses tx) = true \/
  exists fee, required_base_fee rate (TransactionV1_serialized_len tx) = Ok fee.
Proof.
  intros [w0 us rest tx0 fee0 base _ _ _ _ _ Hb _|w0 us rest tx0 op claim _ _ _ _ _ HF _ _] Hl Hne;
    [right; by exists base|left].
  destruct (tc_inputs (tx_core tx0)) as [|i ins]; [done|]. destruct (tx_witnesses tx0) as [|wit ws]; [done|].
  cbn [combine] in HF. apply Forall2_cons_inv_l in HF as (u & us' & (_ & _ & _ & ->) & _). done.
Qed.

(** Two validated transactions with the same effect: one transaction with its
    identifiers and fees, whatever else their stored forms say of it. *)
Record same_effect (network : Z) (v v' : ValidatedTx) : Prop := {
  se_tx : vt_tx v' = vt_tx v;
  se_fee : vt_fee v' = vt_fee v;
  se_base_fee : vt_base_fee v' = vt_base_fee v;
  se_txid : pd_txid (vt_pending v') = pd_txid (vt_pending v);
  se_wtxid : pd_wtxid (vt_pending v') = pd_wtxid (vt_pending v);
  se_left : to_transaction_for_network (vt_pending v) network = Ok (vt_tx v);
  se_right : to_transaction_for_network (vt_pending v') network = Ok (vt_tx v');
}.

(** The transactions that the miner validated from its mempool can be stored
    again from the block and validate to the same effect. *)
Lemma runs_agree state epoch height ops pendings w out w' out' :
  0 <= ds_base_fee_rate_q32 state -> nonneg_amounts (ds_utxos state) -> utxo_total (ds_utxos state) < 2 ^ 64 ->
  Forall pending_typed pendings ->
  nonneg_amounts w -> utxo_total w <= utxo_total (ds_utxos state) ->
  fold_result (apply_pending state epoch height ops) (w, out) pendings = Ok (w', out') ->
  exists new pendings' new', out' = out ++ new /\ Forall2 (same_effect (ds_network_id state)) new new' /\
    map_result (pending_from_transaction state) (map vt_tx new) = Ok pendings' /\
    forall mempool out2,
      fold_result (apply_pending (state <| ds_mempool := mempool |>) epoch height ops) (w, out2) pendings'
      = Ok (w', out2 ++ new').
Proof.
  intros Hr Hn Ht. revert w out; induction pendings as [|p pendings IH]; intros w out Htyped Hw Hle; cbn [fold_result].
  { intros [-> ->]%Ok_inj%pair_inj. exists [], [], []. rewrite app_nil_r. split_and!; [done|constructor|done|].
    intros. by rewrite app_nil_r. }
  apply Forall_cons in Htyped as [Hp Htyped].
  destruct (apply_pending _ _ _ _ _ p) as [[w1 out1]|] eqn:E; [|done]. intros Hrun.
  pose proof (apply_pending_refines _ _ _ _ _ _ _ _ _ E) as (v & -> & Hvp & Hch & Htx & _ & Hstep).
  destruct (apply_pending_counts _ _ _ _ _ _ _ _ _ _ E eq_refl Htx) as (Hl & Hne & Hid & Hwid).
  pose proof (to_transaction_amounts _ _ _ Hp Htx) as Ho.
  assert (0 <= vt_fee v) as Hf.
  { pose proof (charged_nonneg _ _ Hr Hch). destruct Hch as [_ Hch]. lia. }
  destruct (step_amounts _ _ _ _ _ _ _ _ _ Hstep Hl Ho Hf Hw) as (Hw1 & Hle1 & Hot).
  destruct (ledger_step_keys _ _ _ _ _ _ _ _ _ Hstep Hl) as (_ & _ & _ & _ & _ & Hkeys).
  pose proof (to_transaction_shape _ _ _ Htx) as Hshape.
  destruct (pending_exists state (vt_tx v) Hshape Hn Ht Hkeys Ho ltac:(lia)
              (step_base_fee _ _ _ _ _ _ _ _ _ Hstep Hl Hne)) as [p' Hp'].
  destruct (pending_decodes _ _ _ Hshape Hp') as (Hd & Hid' & Hwid').
  apply IH in Hrun as (new & pendings' & new' & -> & HF & Hmap & Hfold); [|done|done|lia].
  set (v' := {| vt_pending := p'; vt_tx := vt_tx v; vt_fee := vt_fee v; vt_base_fee := vt_base_fee v |}).
  exists (v :: new), (p' :: pendings'), (v' :: new'). rewrite <- app_assoc. split_and!; [done| | |].
  - constructor; [|done]. subst v'. split; cbn [vt_tx vt_fee vt_base_fee vt_pending]; congruence.
  - cbn [map map_result]. by rewrite Hp', Hmap.
  - intros mempool out2. cbn [fold_result].
    rewrite (apply_pending_swap state mempool epoch height ops w out out2 p p' w1 v E Htx Hd) by congruence.
    rewrite Hfold. by rewrite <- app_assoc.
Qed.
End run.

(** ** The header a miner writes and the header a validator reads *)

Definition header_wf (h : HeaderFields) : Prop :=
  is_u16 (bh_version h) /\ is_u32 (bh_network_id h) /\ is_u64 (bh_epoch h) /\ is32 (bh_parent h) /\
  is32 (bh_tx_root h) /\ is32 (bh_state_root h) /\ is32 (bh_target h) /\ is32 (bh_license_id h) /\
  is_u16 (bh_ticket h) /\ is32 (bh_proof h).

Lemma header_core_length h : header_wf h -> length (header_core h) = 208%nat.
Proof. unfold header_wf, header_core. intros (_ & _ & _ & ? & ? & ? & ? & ? & _ & ?). len. Qed.

Lemma read_header_core_core h : header_wf h -> read_header_core (header_core h) = h.
Proof.
  unfold header_wf. destruct h as [v n e p tr sr tg l t pr].
  cbn [bh_version bh_network_id bh_epoch bh_parent bh_tx_root bh_state_root bh_target bh_license_id bh_ticket bh_proof].
  intros (Hv & Hn & He & Hp & Htr & Hsr & Htg & Hl & Ht & Hpr).
  unfold read_header_core, header_core.
  cbn [bh_version bh_network_id bh_epoch bh_parent bh_tx_root bh_state_root bh_target bh_license_id bh_ticket bh_proof].
  f_equal; slice_norm; try (rewrite be_val_be_bytes; [done|lia]); try done.
  by apply slice_whole.
Qed.

Section lengths.
Context {SHA : Sha2} {AR : Argon2}.

Lemma merkle_loop_is32 node fuel leaves :
  Forall (fun b => is32 b) leaves -> Forall (fun b => is32 b) (merkle_loop node fuel leaves).
Proof.
  assert (forall n l, (length l < n)%nat -> Forall (fun b => is32 b) l -> Forall (fun b => is32 b) (merkle_level node l)) as Hlevel.
  { induction n as [|n IH]; intros l Hn Hl; [lia|]. destruct l as [|a [|b l]]; [done|done|].
    cbn [merkle_level]. apply Forall_cons in Hl as [_ [_ Hl]%Forall_cons]. constructor; [apply sha256_domain_length|].
    apply IH; [simpl in Hn; lia|done]. }
  revert leaves; induction fuel as [|fuel IH]; intros leaves Hl; cbn [merkle_loop]; [done|].
  destruct (_ <? _)%nat; [|done]. apply IH. by eapply Hlevel; [apply Nat.lt_succ_diag_r|].
Qed.

Lemma merkle_loop_nonempty node fuel leaves : leaves <> [] -> merkle_loop node fuel leaves <> [].
Proof.
  revert leaves; induction fuel as [|fuel IH]; intros leaves Hl; cbn [merkle_loop]; [done|].
  destruct (_ <? _)%nat; [|done]. apply IH. by destruct leaves as [|a [|b l]].
Qed.

Lemma tx_root_length txs root : merkle_root (map TransactionV1_leaf txs) = Some root -> is32 root.
Proof.
  destruct txs as [|tx txs]; [done|]. rewrite merkle_root_loop by done. intros <-%Some_inj.
  set (leaves := map _ _). pose proof (merkle_loop_nonempty domains.TX_NODE (length leaves) leaves ltac:(done)) as Hne.
  assert (Forall (fun b => is32 b) leaves) as Hl by (apply Forall_map, Forall_true; intros; apply sha256_domain_length).
  apply (merkle_loop_is32 domains.TX_NODE (length leaves)) in Hl.
  destruct (merkle_loop _ _ leaves) as [|r rs]; [done|]. by apply Forall_cons in Hl as [? _].
Qed.

Lemma compute_state_root_length s us height issued c b d f root :
  compute_state_root s us height issued c b d f = Ok root -> is32 root.
Proof. unfold compute_state_root. intros H. inv_ok. apply sha256_domain_length. Qed.

Lemma derive_target_length a c t : derive_target a c = Ok t -> is32 t.
Proof.
  unfold derive_target, biguint_to_u256_be. destruct (a =? 0); [done|].
  unfold to_be32. destruct (Nat.ltb_spec 32 (length (to_bytes_be
    (if Z.shiftl 1 256 - 1 <? Z.shiftr (Z.shiftl 1 256 / a * c) 32 then Z.shiftl 1 256 - 1
     else Z.shiftr (Z.shiftl 1 256 / a * c) 32)))); cbn [ok_or]; [done|].
  intros <-%Ok_inj. rewrite length_app, length_replicate. lia.
Qed.

Lemma ticket_proof_length anchor epoch id ticket proof : ticket_proof anchor epoch id ticket = Ok proof -> is32 proof.
Proof.
  unfold ticket_proof, mutiny_argon2id. destruct (negb _); [done|].
  destruct (argon2id_hash _ _ _ _ _ _) as [p|] eqn:E; [|done]. cbn [ok_or map_err]. intros <-%Ok_inj.
  by apply argon2id_length in E.
Qed.
End lengths.

(** ** Signers

    What a validator relies on in a signer: its signatures have 64 bytes and
    verify under its public key, and the key is one the library accepts. *)

Class LawfulAuthority `{!Sha2, !Ed25519} (a : MiningAuthority) := {
  authority_signature : forall state height core sig,
    ma_sign_candidate a state height core = Ok sig ->
    length sig = 64%nat /\ vk_verify_strict (ma_public_key a) (block_signing_digest core) sig = true;
  authority_key : vk_from_bytes (ma_public_key a) = true;
}.

#[export] Instance signing_key_lawful `{!Sha2, !Ed25519} sk : LawfulAuthority (signing_key_authority sk).
Proof.
  split.
  - intros state height core sig. cbn. destruct (negb _); [done|]. intros <-%Ok_inj.
    split; [apply sk_sign_length|apply sk_sign_verify_strict].
  - apply sk_public_valid.
Qed.

Lemma signer_for_ok `{!Sha2, !Ed25519} (signer : option MiningAuthority) license sk :
  (forall a, signer = Some a -> LawfulAuthority a) ->
  signer_for signer license = Ok sk ->
  LawfulAuthority sk /\ decode32 (ls_mining_public_key license) = Ok (ma_public_key sk).
Proof.
  unfold signer_for. intros Hl. destruct signer as [a|].
  - destruct (decode32 _) as [k|] eqn:E; [|done]. destruct (negb (bytes_eqb _ k)) eqn:Ek; [done|].
    intros <-%Ok_inj. bool_to_prop. subst. split; [by apply Hl|done].
  - unfold dev_signing_key_for_license. destruct (decode32 _) as [k|] eqn:E; [|done].
    unfold dev_signing_key_for_public_key. destruct (List.find _ _) as [s|] eqn:Ef; [|done]. cbn [ok_or].
    intros <-%Ok_inj. apply find_elem in Ef as [_ Ef]. bool_to_prop. subst. split; [apply _|done].
Qed.

Section agreement.
Context {SHA : Sha2} {ED : Ed25519} {AR : Argon2}.

(** The records of one confirmed transaction in two states: the same
    transaction with the same identifiers, confirmed in the same block.  What
    the stored form keeps besides is what a wallet shows of it: the fees (the
    miner's record has those of the admission to the mempool, the validator's
    those charged in the block), the indices of two licenses and the amount of
    the first output. *)
Record same_confirmed (network : Z) (c c' : ConfirmedTxState) : Prop := {
  sf_txid : pd_txid (cf_tx c') = pd_txid (cf_tx c);
  sf_wtxid : pd_wtxid (cf_tx c') = pd_wtxid (cf_tx c);
  sf_tx : to_transaction_for_network (cf_tx c') network = to_transaction_for_network (cf_tx c) network;
  sf_height : cf_block_height c' = cf_block_height c;
  sf_epoch : cf_block_epoch c' = cf_block_epoch c;
  sf_hash : cf_block_hash c' = cf_block_hash c;
}.

(** The states of the miner and of the validator after one block: equal in every
    field, except that the confirmed transactions are equal as records in the
    sense above, one by one and in order. *)
Definition agree (s s' : DevnetState) : Prop :=
  Forall2 (same_confirmed (ds_network_id s)) (ds_confirmed_transactions s) (ds_confirmed_transactions s') /\
  s <| ds_confirmed_transactions := [] |> = s' <| ds_confirmed_transactions := [] |>.

Lemma same_confirmed_refl network l : Forall2 (same_confirmed network) l l.
Proof. induction l; constructor; [by split|done]. Qed.

Lemma candidate_count_nonneg state epoch id ops count :
  candidate_eligible_count state epoch id ops = Ok count -> 0 <= count.
Proof.
  unfold candidate_eligible_count, participation_eligible_count, base_eligible_count, count_by. intros H.
  destruct (find_license state id) as [l|]; cbn [ok_or] in H; [|done].
  destruct (negb (is_eligible l epoch)); [done|].
  destruct (negb (active state epoch)); [apply Ok_inj in H as <-; lia|].
  destruct (license_has_fresh_presence state l epoch).
  { apply Ok_inj in H as <-. repeat case_match; lia. }
  destruct (fold_result _ _ ops) as [[m|]|]; [| |done]; [|done].
  destruct (checked_add 64 _ 1) as [n|] eqn:E; [|done]. apply Ok_inj in H as <-.
  apply checked_add_Some in E as [-> _]. repeat case_match; lia.
Qed.

(** A ticket of the license that wins at the epoch. *)
Definition winning_ticket (state : DevnetState) (epoch : Z) (license_id target : bytes32) (ticket : Z)
    (proof : bytes32) (operations : list ProtocolOperationV1) : Prop :=
  exists count anchor,
    candidate_eligible_count state epoch license_id operations = Ok count /\
    0 <= ticket < work_units count /\
    derive_target (authorized_capacity count) (ds_difficulty_correction_q32 state) = Ok target /\
    block_anchor state = Ok anchor /\ ticket_proof anchor epoch license_id ticket = Ok proof /\
    proof_below_target proof target = true.

Lemma runtime_network s r : runtime_for_state s = Ok r -> is_u32 (ds_network_id s).
Proof.
  unfold runtime_for_state. destruct (Z.eqb_spec (ds_network_id s) DEVNET_NETWORK_ID) as [->|]; [done|].
  destruct (Z.eqb_spec (ds_network_id s) MAINNET_NETWORK_ID) as [->|]; done.
Qed.

Lemma post_prevalidated state epoch txs ops post :
  post_operations state epoch txs ops = Ok post -> prevalidate_block_operations state ops epoch = Ok tt.
Proof.
  unfold post_operations, apply_protocol_operations.
  change (prevalidate_block_operations (state <| ds_tip_epoch := epoch |>))
    with (prevalidate_block_operations state).
  by destruct (prevalidate_block_operations _ _ _) as [[]|].
Qed.

Lemma check_work_ok state license h core sig ops :
  winning_ticket state (bh_epoch h) (bh_license_id h) (bh_target h) (bh_ticket h) (bh_proof h) ops ->
  forall a, LawfulAuthority a -> decode32 (ls_mining_public_key license) = Ok (ma_public_key a) ->
  vk_verify_strict (ma_public_key a) (block_signing_digest core) sig = true ->
  check_work state license h core sig ops = Ok tt.
Proof.
  intros (count & anchor & Hc & Ht & Htg & Ha & Hp & Hb) a Hl Hk Hs. unfold check_work.
  rewrite Hc. destruct (Z.leb_spec (work_units count) (bh_ticket h)); [lia|].
  rewrite Htg. cbn [map_err]. rewrite bytes_eqb_refl, Ha, Hp, bytes_eqb_refl, Hb, Hk, authority_key, Hs. done.
Qed.

Lemma check_coinbase_built network_id epoch height parent ops license amount share root address :
  protocol_operations_root ops = Ok root -> decode32 (ls_payment_address_id license) = Ok address ->
  check_coinbase network_id epoch height parent ops license amount share
    (block_coinbase network_id epoch height parent root (coinbase_outputs network_id address amount share)) = Ok tt.
Proof.
  intros Hr Ha. unfold check_coinbase, block_coinbase.
  cbn [tx_core tx_witnesses tc_version tc_network_id tc_valid_from_epoch tc_expiry_epoch tc_inputs tc_outputs
       cc_block_epoch cc_block_height cc_parent_block_hash cc_protocol_operations_root].
  rewrite Hr, Ha. cbn [map_err]. rewrite !Z.eqb_refl, !bytes_eqb_refl. cbn [negb orb is_empty].
  by rewrite bool_decide_eq_true_2.
Qed.

Lemma fee_totals_agree network l l' : Forall2 (same_effect network) l l' -> fee_totals l' = fee_totals l.
Proof.
  intros H. unfold fee_totals. generalize (0, 0) as acc. induction H as [|v v' l l' [] _ IH];
    intros acc; [done|]. cbn [fold_result].
  assert (fee_step acc v' = fee_step acc v) as -> by (unfold fee_step; by rewrite se_fee0, se_base_fee0).
  by destruct (fee_step acc v).
Qed.

Lemma ids_agree network l l' :
  Forall2 (same_effect network) l l' ->
  map (fun v => pd_txid (vt_pending v)) (map settle_fees l') = map (fun v => pd_txid (vt_pending v)) l.
Proof.
  intros H. induction H as [|v v' l l' [] _ IH]; [done|]. cbn [map]. rewrite IH. by f_equal.
Qed.

(** The records that the two make of their transactions. *)
Lemma records_agree network e e' l l' :
  ef_height e' = ef_height e -> ef_header e' = ef_header e -> ef_fields e' = ef_fields e ->
  Forall2 (same_effect network) l l' ->
  Forall2 (same_confirmed network) (map (confirmed e) l) (map (confirmed e') (map settle_fees l')).
Proof.
  intros He1 He2 He3 H. induction H as [|v v' l l' [] _ IH]; cbn [map]; constructor; [|done].
  unfold confirmed. rewrite He1, He2, He3.
  split; cbn [cf_tx cf_block_height cf_block_epoch cf_block_hash settle_fees vt_pending]; fields; try done; [].
  change (to_transaction_for_network (vt_pending v') network = to_transaction_for_network (vt_pending v) network).
  transitivity (to_transaction_for_network (vt_pending v') network); [reflexivity|].
  congruence.
Qed.

(** The commit only looks at the identifiers of the validated transactions. *)
Lemma commit_agree state epoch e e' post :
  ops_frame (state <| ds_tip_epoch := epoch |>) post ->
  ef_header e' = ef_header e -> ef_fields e' = ef_fields e -> ef_height e' = ef_height e ->
  ef_txs e' = ef_txs e -> ef_operations e' = ef_operations e -> ef_reward e' = ef_reward e ->
  ef_total_fees e' = ef_total_fees e -> ef_treasury_share e' = ef_treasury_share e ->
  ef_weight e' = ef_weight e -> ef_issued e' = ef_issued e -> ef_history e' = ef_history e ->
  ef_base_fee e' = ef_base_fee e -> ef_utxos e' = ef_utxos e ->
  map (fun v => pd_txid (vt_pending v)) (ef_validated e') = map (fun v => pd_txid (vt_pending v)) (ef_validated e) ->
  Forall2 (same_confirmed (ds_network_id state)) (map (confirmed e) (ef_validated e)) (map (confirmed e') (ef_validated e')) ->
  agree (commit_block e (persist_protocol_state state post)) (commit_block e' post).
Proof.
  intros <-. destruct e as [a b c d f g i j k l m n o p], e' as [a' b' c' d' f' g' i' j' k' l' m' n' o' p'].
  cbn [ef_header ef_fields ef_height ef_txs ef_operations ef_validated ef_reward ef_total_fees ef_treasury_share
       ef_weight ef_issued ef_history ef_base_fee ef_utxos].
  intros -> -> -> -> -> -> -> -> -> -> -> -> -> Hids Hrec.
  unfold agree, commit_block, retain_unconfirmed, block_record.
  cbn [ef_header ef_fields ef_height ef_txs ef_operations ef_validated ef_reward ef_total_fees ef_treasury_share
       ef_weight ef_issued ef_history ef_base_fee ef_utxos].
  rewrite Hids. destruct n as [[x y] z]. split; [|done].
  apply Forall2_app; [apply same_confirmed_refl|exact Hrec].
Qed.

(** What the miner's numbers must satisfy: the [u64]s of the source. *)
Record typed_state (s : DevnetState) : Prop := {
  ty_amounts : nonneg_amounts (ds_utxos s);
  ty_total : utxo_total (ds_utxos s) < 2 ^ 64;
  ty_rate : 0 <= ds_base_fee_rate_q32 s;
  ty_mempool : Forall pending_typed (ds_mempool s);
}.

Lemma selected_typed s ops m :
  Forall pending_typed (ds_mempool s) -> selected_block_mempool s ops = Ok m -> Forall pending_typed m.
Proof.
  unfold selected_block_mempool. intros H. destruct (selected_protocol_transaction_ids _ _) as [ids|]; [|done].
  intros <-%Ok_inj. apply Forall_forall. intros p Hp. rewrite Forall_forall in H. apply H.
  apply list_elem_of_In, List.filter_In in Hp as [Hp _]. by apply list_elem_of_In.
Qed.

(** The block that the miner builds. *)
Record built_block (state : DevnetState) (epoch : Z) (license_id : bytes32) (s1 : DevnetState) (header : bytes)
    (txs : list TransactionV1) (operations : list ProtocolOperationV1) : Prop := {
  bb_header : length header = 272%nat;
  bb_epoch : bh_epoch (read_header_core (take 208 header)) = epoch;
  bb_license : bh_license_id (read_header_core (take 208 header)) = license_id;
  bb_block : exists block, ds_blocks s1 = ds_blocks state ++ [block] /\
    bk_header block = hex_encode header /\ bk_block_hash block = ds_tip_hash s1 /\
    bk_transactions block = map (fun tx => hex_encode (TransactionV1_encode_full tx)) txs /\
    bk_protocol_operations block = map (fun op => hex_encode (ProtocolOperationV1_encode op)) operations;
}.

Lemma accept_agrees fuel s0 state epoch li ticket proof target signer ops s1 license license_id :
  0 < ds_height s0 -> ds_tip_epoch s0 < epoch -> is_u64 epoch -> is_u16 ticket ->
  enter_epoch s0 epoch = Ok state -> typed_state state ->
  (forall a, signer = Some a -> LawfulAuthority a) ->
  ds_licenses state !! li = Some license -> decode32 (ls_license_id license) = Ok license_id ->
  find_license state license_id = Some license -> is_eligible license epoch = true ->
  winning_ticket state epoch license_id target ticket proof ops ->
  accept_dev_block state epoch li ticket proof target signer ops = Ok s1 ->
  exists header txs s2, built_block state epoch license_id s1 header txs ops /\
    validate_and_apply_block fuel s0 header txs ops = Ok (s2, ds_tip_hash s1) /\ agree s1 s2.
Proof.
  intros Hh Hep Hu64 Hu16 Hent Hty Hlaw Hli Hid Hfind Helig Hwin.
  pose proof (enter_epoch_same _ _ _ Hent) as Hsame.
  unfold accept_dev_block.
  destruct (runtime_for_state state) as [runtime|] eqn:Hrt; [|done].
  destruct (_ && bool_decide (signer = None)); [done|].
  destruct (decode32 (ds_tip_hash state)) as [parent|] eqn:Hpar; [|done].
  rewrite Hli. cbn [ok_or]. rewrite Hid.
  destruct (check_local_target _ _ _ _ _) as [[]|]; [|done].
  destruct (selected_block_mempool _ _) as [sel|] eqn:Hsel; [|done].
  destruct (validate_and_apply_mempool _ _ _ _ _) as [[working validated]|] eqn:Hrun; [|done].
  destruct (fee_totals validated) as [[fees share]|] eqn:Hfees; [|done].
  destruct (miner_amount _ _ _) as [amount|] eqn:Hamt; [|done].
  destruct (protocol_operations_root ops) as [root|] eqn:Hroot; cbn [map_err]; [|done].
  destruct (decode32 (ls_payment_address_id license)) as [address|] eqn:Haddr; [|done].
  set (coinbase := block_coinbase _ _ _ _ _ _).
  destruct (add_outputs_as_utxos working coinbase _ _ _) as [utxos|] eqn:Hadd; [|done].
  destruct (merkle_root _) as [tx_root|] eqn:Htxr; cbn [ok_or]; [|done].
  destruct (block_body_weight _ ops) as [weight|] eqn:Hw; [|done].
  destruct (BLOCK_WEIGHT_MAX <? weight) eqn:Hwm; [done|].
  destruct (post_operations _ _ _ _) as [post|] eqn:Hpost; [|done].
  destruct (checked_add 64 _ _) as [issued|] eqn:Hiss; cbn [ok_or]; [|done].
  destruct (next_history state) as [[[c b] d]|] eqn:Hhist; [|done].
  destruct (adjusted_base_fee_rate _ _) as [bf|] eqn:Hbf; [|done].
  destruct (compute_state_root _ _ _ _ _ _ _ _) as [sroot|] eqn:Hsr; [|done].
  destruct (signer_for _ _) as [sk|] eqn:Hsk; [|done].
  destruct (ma_sign_candidate _ _ _ _) as [sig|] eqn:Hsig; [|done].
  intros <-%Ok_inj. set (h := {| bh_version := 1 |}) in *.
  (* the header *)
  destruct (signer_for_ok signer license sk Hlaw Hsk) as [Hlsk Hkey].
  destruct (authority_signature _ _ _ _ Hsig) as [Hsl Hver].
  assert (header_wf h) as Hwf.
  { destruct Hwin as (count & anchor & _ & _ & Htg & _ & Hpr & _).
    unfold header_wf. cbn [h bh_version bh_network_id bh_epoch bh_parent bh_tx_root bh_state_root bh_target bh_license_id bh_ticket bh_proof].
    split; [lia|]. split; [by eapply runtime_network|]. split; [done|].
    split; [by eapply decode32_length|]. split; [by eapply tx_root_length|].
    split; [by eapply compute_state_root_length|]. split; [by destruct (derive_target _ _) eqn:E; [apply Ok_inj in Htg as <-; eapply derive_target_length|]|].
    split; [by eapply decode32_length|]. split; [done|]. by eapply ticket_proof_length. }
  assert (take 208 (header_core h ++ sig) = header_core h) as Htake
    by (apply take_app_exact; by apply header_core_length).
  assert (slice 208 272 (header_core h ++ sig) = sig) as Hslice.
  { rewrite (slice_app_skip 208) by (rewrite ?header_core_length; done || lia). by apply slice_whole. }
  (* the transactions *)
  unfold validate_and_apply_mempool in Hrun. fields.
  set (st := state <| ds_mempool := sel |>) in *.
  destruct (runs_agree st epoch (ds_height state + 1) ops sel (ds_utxos state) [] working
              validated (ty_rate state Hty) (ty_amounts state Hty) (ty_total state Hty) (selected_typed _ _ _ (ty_mempool state Hty) Hsel)
              (ty_amounts state Hty) (Z.le_refl _) Hrun) as (new & pendings & new' & Hnew & HF & Hmap & Hfold).
  cbn [app] in Hnew. subst new. specialize (Hfold pendings []). cbn [app] in Hfold.
  assert (run_transactions state (map vt_tx validated) epoch (ds_height state + 1) ops = Ok (working, new')) as Hrun'.
  { unfold run_transactions.
    change (pending_from_transaction st) with (pending_from_transaction state) in Hmap.
    rewrite Hmap. exact Hfold. }
  (* the validator *)
  exists (header_core h ++ sig), (coinbase :: map vt_tx validated).
  assert (forall e, ef_header e = header_core h ++ sig -> ef_fields e = h ->
            ef_txs e = coinbase :: map vt_tx validated -> ef_operations e = ops ->
            built_block state epoch license_id (commit_block e (persist_protocol_state state post)) (header_core h ++ sig)
              (coinbase :: map vt_tx validated) ops) as Hbuilt.
  { intros e He1 He2 He3 He4. destruct (commit_fields e (persist_protocol_state state post)) as (_ & _ & F3 & _ & _ & _ & _ & F8 & _).
    split.
    - rewrite length_app, header_core_length by done. lia.
    - by rewrite Htake, read_header_core_core.
    - by rewrite Htake, read_header_core_core.
    - exists (block_record e). rewrite F8, F3. unfold block_record. cbn [bk_header bk_block_hash bk_transactions bk_protocol_operations].
      rewrite He1, He3, He4. done. }
  eexists. split; [by apply Hbuilt|].
  match goal with |- context [commit_block ?e (persist_protocol_state state post)] => set (effect := e) end.
  assert (ds_tip_hash (commit_block effect (persist_protocol_state state post)) = hex_encode (block_hash (header_core h ++ sig))) as ->
    by apply commit_fields.
  (* its checks, in order *)
  unfold validate_and_apply_block. rewrite <- (runtime_same _ _ Hsame), Hrt, Htake, read_header_core_core, Hslice by done.
  destruct (Z.eqb_spec (ds_height s0) 0) as [|Hh0]; [lia|]. rewrite andb_false_r.
  assert (is_bootstrap_block s0 ops = false) as ->.
  { unfold is_bootstrap_block. destruct ops as [|? [|]]; try done.
    by destruct (Z.eqb_spec (ds_height s0) 0). }
  assert (check_position s0 h = Ok tt) as ->.
  { destruct Hsame. unfold check_position. cbn [h bh_version bh_network_id bh_epoch bh_parent].
    rewrite sc_network, !Z.eqb_refl, <- sc_tip, Hpar, bytes_eqb_refl. cbn [negb orb].
    destruct (Z.leb_spec epoch (ds_tip_epoch s0)); [lia|].
    by destruct (Z.eqb_spec (ds_height s0) 0). }
  change (bh_epoch h) with epoch. rewrite Hent. change (bh_license_id h) with license_id.
  assert (mining_license state license_id epoch = Ok license) as ->.
  { unfold mining_license. rewrite Hfind. cbn [ok_or]. by rewrite Helig. }
  rewrite (post_prevalidated _ _ _ _ _ Hpost).
  rewrite (check_work_ok state license h _ _ _ Hwin sk Hlsk Hkey Hver).
  assert (check_body_root h (coinbase :: map vt_tx validated) ops = Ok weight) as ->.
  { unfold check_body_root. cbn [is_empty]. rewrite Htxr. cbn [ok_or].
    change (bh_tx_root h) with tx_root. rewrite bytes_eqb_refl, Hw, Hwm. done. }
  unfold apply_body. cbn [tail head ok_or]. change (bh_epoch h) with epoch. rewrite Hrun', (fee_totals_agree _ _ _ HF), Hfees, Hamt.
  change (bh_parent h) with parent. subst coinbase.
  rewrite (check_coinbase_built _ _ _ _ _ license _ _ root address Hroot Haddr), Hadd.
  rewrite Hiss. cbn [ok_or]. rewrite Hhist, Hbf, Hpost, Hsr.
  change (bh_state_root h) with sroot. rewrite bytes_eqb_refl. cbn [negb].
  match goal with |- Ok (commit_block ?e' post, _) = _ /\ _ => set (effect' := e') end.
  split; [do 2 f_equal; by apply commit_fields|].
  eapply (commit_agree state epoch); try reflexivity; [by apply (post_operations_frame _ _ _ _ _ Hpost)|..].
  - by eapply ids_agree.
  - by apply records_agree.
Qed.

Lemma mempool_epoch_invariant : epoch_invariant (fun s => Forall pending_typed (ds_mempool s)).
Proof.
  split; try done.
  - unfold expire_events. intros s epoch s' H. by inv_ok.
  - unfold process_epoch, first_step, award. intros s epoch s' x H Hs.
    assert (forall t, Forall pending_typed (ds_mempool t) ->
              Forall pending_typed (ds_mempool (drop_stale_claims t epoch))) as Hd.
    { intros t Ht. unfold drop_stale_claims. fields. apply Forall_forall. intros p Hp. rewrite Forall_forall in Ht.
      apply Ht. apply list_elem_of_In, List.filter_In in Hp as [Hp _]. by apply list_elem_of_In. }
    inv_ok; repeat match goal with H : (if ?b then _ else _) = Ok _ |- _ => destruct b; inv_ok end; by apply Hd.
  - unfold append_difficulty_result. intros s b s' H. by inv_ok.
Qed.

Lemma typed_enter s epoch next : enter_epoch s epoch = Ok next -> typed_state s -> typed_state next.
Proof.
  intros H []. pose proof (enter_epoch_same _ _ _ H) as [].
  split; rewrite ?sc_utxos, ?sc_rate; try done.
  by apply (enter_epoch_preserve _ _ _ _ mempool_epoch_invariant H).
Qed.

(** The identifiers of the registry: hexadecimal, pairwise different. *)
Definition license_ids_ok (s : DevnetState) : Prop :=
  NoDup (map ls_license_id (ds_licenses s)) /\
  Forall (fun id => exists b, is32 b /\ id = hex_encode b) (map ls_license_id (ds_licenses s)).

Lemma find_license_at s li license id :
  license_ids_ok s -> ds_licenses s !! li = Some license -> decode32 (ls_license_id license) = Ok id ->
  find_license s id = Some license.
Proof.
  intros [Hn Hc] Hli Hid.
  assert (ls_license_id license = hex_encode id) as Heq.
  { rewrite Forall_forall in Hc. destruct (Hc (ls_license_id license)) as (b & Hb & Hlb).
    { apply list_elem_of_fmap. exists license. split; [done|]. by eapply list_elem_of_lookup_2. }
    rewrite Hlb, decode32_encode in Hid by done. apply Ok_inj in Hid as <-. exact Hlb. }
  unfold find_license. clear Hid Hc. revert li Hli Hn. induction (ds_licenses s) as [|l ls IH]; intros li Hli Hn; [done|].
  cbn [List.find]. unfold license_is at 1. apply NoDup_cons in Hn as [Hl Hn].
  case_bool_decide as Hlic.
  - destruct li as [|li]; cbn in Hli; [exact Hli|].
    destruct Hl. apply list_elem_of_fmap. exists license. split; [congruence|].
    by eapply list_elem_of_lookup_2.
  - destruct li as [|li]; cbn in Hli; [congruence|]. by apply (IH li).
Qed.

Lemma search_ticket_ok anchor epoch id target tickets ticket proof :
  search_ticket anchor epoch id target tickets = Ok (Some (ticket, proof)) ->
  (exists n, n ∈ tickets /\ ticket = Z.of_nat n) /\ ticket_proof anchor epoch id ticket = Ok proof /\
  proof_below_target proof target = true.
Proof.
  induction tickets as [|n tickets IH]; cbn [search_ticket]; [done|].
  destruct (ticket_proof anchor epoch id (Z.of_nat n)) as [p|] eqn:E; [|done]. destruct (proof_below_target p target) eqn:Eb.
  - intros [<- <-]%Ok_inj%Some_inj%pair_inj. split_and!; try done. exists n. split; [by left|done].
  - intros ((m & Hm & ->) & Hrest)%IH. split; [|done]. exists m. split; [by right|done].
Qed.

Definition lawful_signer (signer : option (nat * MiningAuthority)) : Prop :=
  forall li a, signer = Some (li, a) -> LawfulAuthority a.

Lemma try_license_ok state epoch anchor signer li s1 :
  block_anchor state = Ok anchor ->
  try_license state epoch anchor signer li = Ok (Some s1) ->
  exists license license_id operations target ticket proof selected,
    ds_licenses state !! li = Some license /\ decode32 (ls_license_id license) = Ok license_id /\
    0 <= ticket < W_MAX + 1 /\ winning_ticket state epoch license_id target ticket proof operations /\
    (lawful_signer signer -> forall a, selected = Some a -> LawfulAuthority a) /\
    accept_dev_block state epoch li ticket proof target selected operations = Ok s1.
Proof.
  intros Ha. unfold try_license.
  destruct (ds_licenses state !! li) as [license|] eqn:Hli; cbn [ok_or]; [|done].
  destruct (decode32 _) as [id|] eqn:Hid; [|done].
  set (selected := match signer with Some (i, s) => if (i =? li)%nat then Some s else None | None => None end).
  cbv zeta. destruct (match selected with Some s => Ok s | None => _ end) as [cand|]; [|done].
  destruct (candidate_protocol_operations _ _ _ _) as [ops|]; [|done].
  destruct (candidate_eligible_count _ _ _ _) as [count|] eqn:Hc; [|done].
  destruct (derive_target _ _) as [target|] eqn:Ht; cbn [map_err]; [|done].
  destruct (search_ticket _ _ _ _ _) as [[[ticket proof]|]|] eqn:Hs; [| |done]; [|done].
  destruct (accept_dev_block _ _ _ _ _ _ _ _) as [s|] eqn:Hacc; [|done]. intros <-%Ok_inj%Some_inj.
  apply search_ticket_ok in Hs as ((n & Hn & ->) & Hp & Hb).
  apply elem_of_seq in Hn.
  assert (0 <= count) as Hc0 by (by eapply candidate_count_nonneg).
  pose proof (work_units_range count Hc0).
  exists license, id, ops, target, (Z.of_nat n), proof, selected. split_and!; try done; try lia.
  - exists count, anchor. split_and!; try done; lia.
  - intros Hl a. subst selected. destruct signer as [[i b]|]; [|done]. destruct (i =? li)%nat; [|done].
    intros <-%Some_inj. by eapply Hl.
Qed.

Lemma try_licenses_ok state epoch anchor signer mineable s1 :
  try_licenses state epoch anchor signer mineable = Ok (Some s1) ->
  exists li, li ∈ mineable /\ try_license state epoch anchor signer li = Ok (Some s1).
Proof.
  induction mineable as [|li mineable IH]; cbn [try_licenses]; [done|].
  destruct (try_license state epoch anchor signer li) as [[s|]|] eqn:E; [| |done].
  - intros <-%Ok_inj%Some_inj. exists li. split; [by left|done].
  - intros (lj & Hin & Hj)%IH. exists lj. split; [by right|done].
Qed.

Lemma select_mineable_ok state epoch signer mineable li license :
  select_mineable state epoch signer = Ok mineable -> li ∈ mineable -> ds_licenses state !! li = Some license ->
  is_eligible license epoch = true.
Proof.
  unfold select_mineable. destruct signer as [[i a]|].
  - destruct (ds_licenses state !! i) as [l|] eqn:El; cbn [ok_or]; [|done].
    destruct (negb (is_eligible l epoch)) eqn:Ee; [done|]. destruct (decode32 _) as [k|]; [|done].
    destruct (negb (bytes_eqb _ k)); [done|]. intros <-%Ok_inj ->%list_elem_of_singleton Hl.
    rewrite El in Hl. apply Some_inj in Hl as <-. by bool_to_prop.
  - unfold mineable_license_indices. intros <-%Ok_inj Hin Hl.
    apply list_elem_of_In, List.filter_In in Hin as [_ Hin]. rewrite Hl in Hin. by bool_to_prop.
Qed.

(** The state in which the miner looks for a ticket is the one the validator
    checks the ticket in. *)
Lemma miner_enters s0 epoch state1 state n :
  0 < ds_height s0 -> 0 <= ds_tip_epoch s0 -> ds_tip_epoch s0 < epoch -> is_u64 epoch ->
  (if (0 <? ds_height s0) && (ds_network_id s0 =? MAINNET_NETWORK_ID)
   then advance_empty_epochs s0 (saturating_sub epoch 1)
   else if 0 <? ds_height s0 then mine_skip s0 epoch else Ok s0) = Ok state1 ->
  apply_scheduled_license_transitions state1 epoch = Ok (state, n) ->
  enter_epoch s0 epoch = Ok state.
Proof.
  intros Hh H0 Hep Hu H1 H2. unfold enter_epoch.
  destruct (Z.ltb_spec 0 epoch); [|lia]. destruct (Z.ltb_spec 0 (ds_height s0)) in H1; [|lia].
  assert (advance_empty_epochs s0 (epoch - 1) = Ok state1) as ->; [|by rewrite H2].
  destruct (ds_network_id s0 =? MAINNET_NETWORK_ID); cbn [andb] in H1.
  - unfold saturating_sub in H1. by rewrite Z.max_l in H1 by lia.
  - by apply mine_skip_advance in H1; [|lia..].
Qed.

Lemma no_winner_height state epoch s1 :
  (let state := state <| ds_tip_epoch := epoch |> in
   let? state := if difficulty_observation_enabled state epoch
                 then append_difficulty_result state false else Ok state in
   refresh_current_state_root state) = Ok s1 -> ds_height s1 = ds_height state.
Proof.
  cbv zeta. destruct (if difficulty_observation_enabled _ _ then _ else _) as [s|] eqn:E; [|done].
  intros (root & _ & ->)%refresh_root. unfold with_root. fields.
  destruct (difficulty_observation_enabled _ _); [|by apply Ok_inj in E as <-].
  unfold append_difficulty_result in E. inv_ok. by fields.
Qed.

(** C7: the miner and the validator agree.  Let [mine_epoch_with_signer] turn a
    chain state [s0] with at least one block into [s1] with one block more,
    with development keys or with a signer whose signatures verify.  Then the
    header, transactions and operations recorded in the new block of [s1] pass
    [validate_and_apply_block] on [s0] (skipped epochs, ticket, target, proof,
    signature, transactions re-read from the block, coinbase, operations and
    state root), the validator computes the same block hash, and the state it
    reaches is the miner's in every field; the records of confirmed transactions
    are the same transactions with the same identifiers, in the same order and
    under the same height, epoch and block hash, and only what they keep for
    display (fees as estimated or charged, license indices, an amount) may
    differ. *)
Theorem miner_validator_agree fuel s0 epoch signer s1 :
  0 < ds_height s0 -> 0 <= ds_tip_epoch s0 -> is_u64 epoch ->
  typed_state s0 -> license_ids_ok s0 -> lawful_signer signer ->
  mine_epoch_with_signer s0 epoch signer = Ok s1 -> ds_height s1 = ds_height s0 + 1 ->
  exists header txs operations s2 block,
    ds_blocks s1 = ds_blocks s0 ++ [block] /\ length header = 272%nat /\ bk_header block = hex_encode header /\
    bk_transactions block = map (fun tx => hex_encode (TransactionV1_encode_full tx)) txs /\
    bk_protocol_operations block = map (fun op => hex_encode (ProtocolOperationV1_encode op)) operations /\
    bh_epoch (read_header_core (take 208 header)) = epoch /\
    validate_and_apply_block fuel s0 header txs operations = Ok (s2, ds_tip_hash s1) /\ agree s1 s2.
Proof.
  intros Hh H0 Hu Hty Hids Hlaw Hmine Hheight. unfold mine_epoch_with_signer in Hmine.
  destruct (_ && (ds_height s0 =? 0)); [done|].
  destruct ((epoch <=? ds_tip_epoch s0) && _) eqn:Hep; [done|].
  destruct (_ && (epoch <? ACTIVATION_DELAY_EPOCHS)); [done|].
  apply andb_false_iff in Hep. rewrite Z.leb_gt, Z.ltb_ge in Hep.
  destruct (if (0 <? ds_height s0) && _ then _ else _) as [state1|] eqn:E1; [|done].
  destruct (apply_scheduled_license_transitions state1 epoch) as [[state n]|] eqn:E2; [|done].
  apply (miner_enters s0 epoch state1 state n) in E1; [|lia..|done]. clear state1 E2.
  pose proof (enter_epoch_same _ _ _ E1) as Hsame.
  destruct (select_mineable _ _ _) as [mineable|] eqn:Hm; [|done].
  destruct (block_anchor state) as [anchor|] eqn:Ha; [|done].
  destruct (try_licenses _ _ _ _ _) as [[won|]|] eqn:Ht; [| |done].
  2: { apply no_winner_height in Hmine. destruct Hsame. lia. }
  apply Ok_inj in Hmine as ->. apply try_licenses_ok in Ht as (li & Hin & Ht).
  apply (try_license_ok _ _ _ _ _ _ Ha) in Ht
    as (license & id & ops & target & ticket & proof & selected & Hli & Hid & Htick & Hwin & Hsel & Hacc).
  assert (license_ids_ok state) as Hids'.
  { unfold license_ids_ok. destruct Hsame. by rewrite sc_ids. }
  pose proof (find_license_at _ _ _ _ Hids' Hli Hid) as Hfind.
  pose proof (select_mineable_ok _ _ _ _ _ _ Hm Hin Hli) as Helig.
  unfold W_MAX in Htick.
  destruct (accept_agrees fuel s0 state epoch li ticket proof target selected ops s1 license id) as
    (header & txs & s2 & [Hhd Hbe _ (block & Hbl & Hbh & _ & Hbt & Hbo)] & Hval & Hag); try done; try lia.
  { by eapply typed_enter. } { by apply Hsel. }
  exists header, txs, ops, s2, block. split_and!; try done. destruct Hsame. by rewrite Hbl, sc_blocks.
Qed.
End agreement.
