(* ===== verification/WorkerMining.v ===== *)
(** Crate [mutiny-node], file worker_mining.rs: the tickets a node gives to its
    workers, and the check of their results up to the new block.

    Actions and worlds are those of WorkerService; a failing call leaves no
    next chain state.  Errors keep their cause. *)

From Stdlib Require Import Strings.Byte Strings.String.
From stdpp Require Import strings gmap.
From S2P Require Import Prelude Crypto Codec Consensus Smt State Transaction Protocol ProtocolRules Worker Ledger Text P2p WorkerEndpoint WorkerService WorkerScheduler Collections NodeState Economy NodePresence NodePunishment NodeUtxo NodeDividends NodeBitcoin NodePurchase NodeRoots NodeBootstrap NodeEpoch NodeMempool NodeOperations NodeBlocks NodePayload NodeMining NodeReorg NodeChain NodeCore NodeSync NodeReplay NodeAgreement.

#[export] Instance authority_eq_dec : EqDecision PreparedTicketAuthorityV1.
Proof. solve_decision. Defined.
#[export] Instance plan_eq_dec : EqDecision CanonicalTicketPlanV1.
Proof. solve_decision. Defined.

Inductive WorkerMiningError :=
| WmNode (e : NodeError)
| WmPackL (e : PackLError)
| WmLedger (e : LedgerError)
| WmService (e : WorkerServiceError)
| WmScheduler (e : SchedulerError).
Abbreviation wm_err text := (Err (WmNode (Msg text%string))).

Inductive FinalizeWorkerResultV1 := NoWin | AcceptedBlock.

Section mining.
Context {SHA : Sha2} {ED : Ed25519} {AR : Argon2}.

Definition operation_fingerprint (operations : list ProtocolOperationV1) : list (Z * bytes32) :=
  map (fun op => (po_op_type op, operation_id op)) operations.

(** [mining_signer] is the seed of the signing key. *)
Definition derive_plan_from_prepared_state (state : DevnetState) (epoch : Z) (license_index : nat)
    (ticket_index : Z) (mining_signer : bytes)
    : node_result (CanonicalTicketPlanV1 * list ProtocolOperationV1) :=
  if (10 <=? ds_format_version state) && (ds_height state =? 0)
  then err "Build 5.4 requires bootstrap-dev to commit Block 1 before mining"
  else if (epoch <=? ds_tip_epoch state) && (0 <? ds_height state)
  then err "candidate epoch must be greater than tip epoch"
  else if (ds_height state =? 0) && (epoch <? ACTIVATION_DELAY_EPOCHS)
  then err "bootstrap licenses are not active yet"
  else
    let? license := ok_or (Msg "license number out of range"%string) (ds_licenses state !! license_index) in
    if negb (is_eligible license epoch)
    then err "selected encrypted-custody Mining License is not base-eligible in the candidate epoch"
    else
      let? mining_public_key := decode32 (ls_mining_public_key license) in
      if negb (bytes_eqb (sk_public mining_signer) mining_public_key)
      then err "provided signing key does not match the current on-chain mining authority"
      else
        let? license_id := decode32 (ls_license_id license) in
        let? operations := candidate_protocol_operations state epoch license_index
                             (signing_key_authority mining_signer) in
        let? candidate_eligible := candidate_eligible_count state epoch license_id operations in
        if candidate_eligible =? 0 then err "candidate participation-eligible count is zero" else
        let w := work_units candidate_eligible in
        if w <=? ticket_index then err "ticket index is outside the frozen Pack-A work budget" else
        let? target := map_err FromConsensus
          (derive_target (authorized_capacity candidate_eligible) (ds_difficulty_correction_q32 state)) in
        let? anchor := block_anchor state in
        let? tip := decode32 (ds_tip_hash state) in
        Ok ({| tp_authority :=
                 {| pa_parent_block_hash := tip; pa_parent_height := ds_height state;
                    pa_target_epoch := epoch; pa_license_id := license_id; pa_ticket_index := ticket_index;
                    pa_work_units_for_epoch := w; pa_eligible_license_count := candidate_eligible;
                    pa_difficulty_c_q32 := ds_difficulty_correction_q32 state;
                    pa_anchor_entropy := anchor; pa_target := target |};
               tp_license_index := license_index;
               tp_operation_fingerprint := operation_fingerprint operations |}, operations).

(** Works on a copy of the state and returns it only when everything
    succeeded.  The loop over skipped epochs is the one of the miner. *)
Definition prepare_canonical_ticket (state : DevnetState) (epoch : Z) (license_index : nat)
    (ticket_index : Z) (mining_signer : bytes) : node_result (DevnetState * CanonicalTicketPlanV1) :=
  if (10 <=? ds_format_version state) && (ds_height state =? 0)
  then err "Build 5.4 requires bootstrap-dev to commit Block 1 before mining"
  else if (epoch <=? ds_tip_epoch state) && (0 <? ds_height state)
  then err "candidate epoch must be greater than tip epoch"
  else if (ds_height state =? 0) && (epoch <? ACTIVATION_DELAY_EPOCHS)
  then err "bootstrap licenses are not active yet"
  else
    let? prepared := if 0 <? ds_height state then mine_skip state epoch else Ok state in
    let? (prepared, _) := apply_scheduled_license_transitions prepared epoch in
    let? (plan, _) := derive_plan_from_prepared_state prepared epoch license_index ticket_index mining_signer in
    Ok (prepared, plan).

Definition assignment_matches_plan (plan : CanonicalTicketPlanV1) (assignment : WorkAssignmentV1)
    (session : AuthenticatedWorkerSession) : bool :=
  let c := wa_core assignment in
  let a := tp_authority plan in
  bytes_eqb (ac_session_id c) (as_session_id session)
  && bytes_eqb (ac_worker_id c) (as_worker_id session)
  && bytes_eqb (ac_node_id c) (as_node_id session)
  && bytes_eqb (ac_parent_block_hash c) (pa_parent_block_hash a)
  && (ac_parent_height c =? pa_parent_height a)
  && (ac_target_epoch c =? pa_target_epoch a)
  && bytes_eqb (ac_license_id c) (pa_license_id a)
  && (ac_ticket_index c =? pa_ticket_index a)
  && (ac_work_units_for_epoch c =? pa_work_units_for_epoch a)
  && (ac_eligible_license_count c =? pa_eligible_license_count a)
  && bytes_eqb (ac_anchor_entropy c) (pa_anchor_entropy a)
  && bytes_eqb (ac_target c) (pa_target a)
  && (ac_expires_epoch c =? pa_target_epoch a)
  && bytes_eqb (wa_ticket_key assignment) (WorkAssignmentCoreV1_ticket_key c)
  && bytes_eqb (wa_assignment_id assignment) (assignment_id c).

(** The plan that an assignment itself describes. *)
Definition plan_of_assignment (c : WorkAssignmentCoreV1) : CanonicalTicketPlanV1 :=
  {| tp_authority :=
       {| pa_parent_block_hash := ac_parent_block_hash c; pa_parent_height := ac_parent_height c;
          pa_target_epoch := ac_target_epoch c; pa_license_id := ac_license_id c;
          pa_ticket_index := ac_ticket_index c; pa_work_units_for_epoch := ac_work_units_for_epoch c;
          pa_eligible_license_count := ac_eligible_license_count c; pa_difficulty_c_q32 := 0;
          pa_anchor_entropy := ac_anchor_entropy c; pa_target := ac_target c |};
     tp_license_index := 0; tp_operation_fingerprint := [] |}.

Definition validate_result_binding (outcome : AssignmentDispatchOutcomeV1)
    (session : AuthenticatedWorkerSession) : result WorkerMiningError unit :=
  let assignment := ad_assignment outcome in
  let c := wa_core assignment in
  if negb (assignment_matches_plan (plan_of_assignment c) assignment session)
  then wm_err "assignment/session binding mismatch" else
  let result := wr_core (ad_result outcome) in
  if negb (rc_network_id result =? ac_network_id c)
     || negb (bytes_eqb (rc_session_id result) (as_session_id session))
     || negb (bytes_eqb (rc_assignment_id result) (wa_assignment_id assignment))
     || negb (bytes_eqb (rc_ticket_key result) (wa_ticket_key assignment))
     || negb (bytes_eqb (rc_worker_id result) (as_worker_id session))
  then wm_err "WORK_RESULT binding mismatch" else
  if negb (bytes_eqb (worker_id (ac_network_id c) (as_worker_public_key session)) (as_worker_id session))
  then wm_err "authenticated worker public key no longer derives WorkerID" else
  map_err WmPackL (WorkResultV1_verify_worker_signature (ad_result outcome) (as_worker_public_key session)).

Definition ledger_status (worker_state : WorkerServiceState) (assignment_id : bytes32)
    : result WorkerMiningError Z :=
  match find_assignment (ws_ledger worker_state) assignment_id with
  | Some r => Ok (lg_status r)
  | None => wm_err "assignment is absent from persistent worker budget ledger"
  end.

Definition mark_invalid_win (assignment_id : bytes32) : act WorkerMiningError unit :=
  act_map_err WmLedger (on_ledger (fun ledger d fs =>
    update_status_and_persist ledger assignment_id STATUS_INVALID_WIN d fs)).

Definition node_err {A} (r : node_result A) : act WorkerMiningError A := act_of (map_err WmNode r).

(** The checks before the expensive recomputation: the plan derived again from
    the current state must be the plan of the ticket. *)
Definition revalidate_plan (state : DevnetState) (plan : CanonicalTicketPlanV1) (mining_signer : bytes)
    : node_result (list ProtocolOperationV1) :=
  let a := tp_authority plan in
  if negb (ds_height state =? pa_parent_height a) then err "stale worker result: canonical parent changed" else
  let? tip := decode32 (ds_tip_hash state) in
  if negb (bytes_eqb tip (pa_parent_block_hash a)) then err "stale worker result: canonical parent changed" else
  let? license := ok_or (Msg "license number out of range"%string) (ds_licenses state !! tp_license_index plan) in
  if negb (is_eligible license (pa_target_epoch a))
  then err "stale worker result: Mining License is no longer base-eligible" else
  let? mining_public_key := decode32 (ls_mining_public_key license) in
  if negb (bytes_eqb (sk_public mining_signer) mining_public_key)
  then err "stale worker result: encrypted mining custody no longer matches" else
  let? (fresh_plan, fresh_operations) := derive_plan_from_prepared_state state (pa_target_epoch a)
    (tp_license_index plan) (pa_ticket_index a) mining_signer in
  if negb (bool_decide (fresh_plan = plan))
  then err "stale worker result: canonical ticket authority changed" else Ok fresh_operations.

(** What the ledger says about a result. *)
Definition check_ledger_status (status result_kind : Z) : result WorkerMiningError FinalizeWorkerResultV1 :=
  if result_kind =? RESULT_NO_WIN then
    if negb (status =? STATUS_COMPLETED_NO_WIN)
    then wm_err "NO_WIN result does not have COMPLETED_NO_WIN ledger status" else Ok NoWin
  else if result_kind =? RESULT_WIN then
    if status =? STATUS_INVALID_WIN then wm_err "candidate WIN already invalidated"
    else if negb (status =? STATUS_CANDIDATE_WIN)
    then wm_err "WIN result does not have CANDIDATE_WIN ledger status" else Ok AcceptedBlock
  else wm_err "unknown WORK_RESULT result kind".

Definition finalize_worker_result (state : DevnetState) (session : AuthenticatedWorkerSession)
    (mining_signer : bytes) (plan : CanonicalTicketPlanV1) (outcome : AssignmentDispatchOutcomeV1)
    : act WorkerMiningError (DevnetState * FinalizeWorkerResultV1) :=
  let id := wa_assignment_id (ad_assignment outcome) in
  let result := wr_core (ad_result outcome) in
  let a := tp_authority plan in
  act_state (fun worker_state =>
  let* _ := act_of (validate_result_binding outcome session) in
  if negb (assignment_matches_plan plan (ad_assignment outcome) session)
  then act_of (wm_err "WORK_ASSIGNMENT no longer matches canonical prepared ticket") else
  let* status := act_of (ledger_status worker_state id) in
  let* verdict := act_of (check_ledger_status status (rc_result_kind result)) in
  match verdict with
  | NoWin => act_of (Ok (state, NoWin))
  | AcceptedBlock =>
      let* fresh_operations := node_err (revalidate_plan state plan mining_signer) in
      let* proof := node_err (ticket_proof (pa_anchor_entropy a) (pa_target_epoch a) (pa_license_id a)
                                (pa_ticket_index a)) in
      if negb (bytes_eqb proof (rc_argon2_proof result)) || negb (proof_below_target proof (pa_target a))
      then
        let* _ := mark_invalid_win id in
        act_of (wm_err "false WIN proof rejected after independent node recomputation")
      else
        let* state := node_err (accept_dev_block state (pa_target_epoch a) (tp_license_index plan)
          (pa_ticket_index a) proof (pa_target a) (Some (signing_key_authority mining_signer)) fresh_operations) in
        act_of (Ok (state, AcceptedBlock))
  end).
End mining.

(** ** What the checks of a result establish *)

Section judging.
Context {SHA : Sha2} {ED : Ed25519}.

Lemma binding_ok outcome session : validate_result_binding outcome session = Ok tt ->
  WorkResultV1_verify_worker_signature (ad_result outcome) (as_worker_public_key session) = Ok tt /\
  rc_worker_id (wr_core (ad_result outcome)) = as_worker_id session /\
  rc_assignment_id (wr_core (ad_result outcome)) = wa_assignment_id (ad_assignment outcome) /\
  worker_id (ac_network_id (wa_core (ad_assignment outcome))) (as_worker_public_key session) = as_worker_id session.
Proof.
  unfold validate_result_binding. destruct (negb (assignment_matches_plan _ _ _)); [done|].
  destruct (_ || _) eqn:Eo; [done|]. destruct (negb (bytes_eqb (worker_id _ _) _)) eqn:Ew; [done|].
  destruct (WorkResultV1_verify_worker_signature _ _) as [[]|]; [|done]. intros _.
  repeat (apply orb_false_iff in Eo as [Eo ?]). bool_to_prop. done.
Qed.

Lemma derive_plan_ok state epoch li ticket key plan ops :
  derive_plan_from_prepared_state state epoch li ticket key = Ok (plan, ops) -> 0 <= ticket ->
  exists license license_id count target anchor,
    ds_licenses state !! li = Some license /\ is_eligible license epoch = true /\
    decode32 (ls_license_id license) = Ok license_id /\
    decode32 (ls_mining_public_key license) = Ok (sk_public key) /\
    candidate_eligible_count state epoch license_id ops = Ok count /\ 0 <= ticket < work_units count /\
    derive_target (authorized_capacity count) (ds_difficulty_correction_q32 state) = Ok target /\
    block_anchor state = Ok anchor /\
    tp_license_index plan = li /\ pa_target_epoch (tp_authority plan) = epoch /\
    pa_license_id (tp_authority plan) = license_id /\ pa_ticket_index (tp_authority plan) = ticket /\
    pa_anchor_entropy (tp_authority plan) = anchor /\ pa_target (tp_authority plan) = target.
Proof.
  intros H Ht. unfold derive_plan_from_prepared_state in H.
  destruct (_ && _); [done|]. destruct (_ && _); [done|]. destruct (_ && _); [done|].
  destruct (ds_licenses state !! li) as [license|] eqn:Hli; cbn [ok_or] in H; [|done].
  destruct (is_eligible license epoch) eqn:He; cbn [negb] in H; [|done].
  destruct (decode32 (ls_mining_public_key license)) as [pk|] eqn:Hpk; [|done].
  destruct (negb (bytes_eqb _ pk)) eqn:Ek; [done|].
  destruct (decode32 (ls_license_id license)) as [id|] eqn:Hid; [|done].
  destruct (candidate_protocol_operations _ _ _ _) as [ops'|]; [|done].
  destruct (candidate_eligible_count _ _ _ _) as [count|] eqn:Hc; [|done].
  destruct (count =? 0); [done|].
  destruct (Z.leb_spec (work_units count) ticket) as [|Hw]; [done|].
  destruct (derive_target _ _) as [target|] eqn:Htg; cbn [map_err] in H; [|done].
  destruct (block_anchor state) as [anchor|] eqn:Ha; [|done].
  destruct (decode32 (ds_tip_hash state)) as [tip|]; [|done].
  apply Ok_inj in H as [= <- <-]. bool_to_prop. subst pk.
  exists license, id, count, target, anchor. by split_and!.
Qed.

Lemma revalidate_ok state plan key ops :
  revalidate_plan state plan key = Ok ops ->
  derive_plan_from_prepared_state state (pa_target_epoch (tp_authority plan)) (tp_license_index plan)
    (pa_ticket_index (tp_authority plan)) key = Ok (plan, ops) /\
  ds_height state = pa_parent_height (tp_authority plan) /\
  decode32 (ds_tip_hash state) = Ok (pa_parent_block_hash (tp_authority plan)).
Proof.
  unfold revalidate_plan. destruct (negb (_ =? _)) eqn:Eh; [done|].
  destruct (decode32 (ds_tip_hash state)) as [tip|]; [|done].
  destruct (negb (bytes_eqb _ _)) eqn:Et; [done|]. bool_to_prop.
  destruct (ds_licenses state !! _); cbn [ok_or]; [|done]. destruct (negb (is_eligible _ _)); [done|].
  destruct (decode32 _); [|done]. destruct (negb (bytes_eqb _ _)); [done|].
  destruct (derive_plan_from_prepared_state _ _ _ _ _) as [[fresh fops]|]; [|done].
  destruct (bool_decide (fresh = plan)) eqn:E; cbn [negb]; [|done].
  apply bool_decide_eq_true in E as ->. intros <-%Ok_inj. bool_to_prop. by subst.
Qed.
End judging.

Section judged.
Context {SHA : Sha2} {ED : Ed25519}.
Variables (state : DevnetState) (session : AuthenticatedWorkerSession) (key : bytes)
  (plan : CanonicalTicketPlanV1) (outcome : AssignmentDispatchOutcomeV1).
Let id := wa_assignment_id (ad_assignment outcome).
Let result := wr_core (ad_result outcome).
Let a := tp_authority plan.

(** A WIN that is worth the recomputation: signed by the worker of this
    session, for the ticket of the plan, recorded as CANDIDATE_WIN, and with a
    plan that is still the one of the chain. *)
Definition candidate_win (w : world) (ops : list ProtocolOperationV1) : Prop :=
  validate_result_binding outcome session = Ok tt /\
  assignment_matches_plan plan (ad_assignment outcome) session = true /\
  rc_result_kind result = RESULT_WIN /\
  ledger_status (wd_state w) id = Ok STATUS_CANDIDATE_WIN /\
  revalidate_plan state plan key = Ok ops.

Definition no_win (w : world) : Prop :=
  validate_result_binding outcome session = Ok tt /\
  assignment_matches_plan plan (ad_assignment outcome) session = true /\
  rc_result_kind result = RESULT_NO_WIN /\ ledger_status (wd_state w) id = Ok STATUS_COMPLETED_NO_WIN.

(** Everything that happens after the checks. *)
Definition judge {AR : Argon2} (ops : list ProtocolOperationV1) : act WorkerMiningError (DevnetState * FinalizeWorkerResultV1) :=
  let* proof := node_err (ticket_proof (pa_anchor_entropy a) (pa_target_epoch a) (pa_license_id a) (pa_ticket_index a)) in
  if negb (bytes_eqb proof (rc_argon2_proof result)) || negb (proof_below_target proof (pa_target a))
  then
    let* _ := mark_invalid_win id in
    act_of (wm_err "false WIN proof rejected after independent node recomputation")
  else
    let* state := node_err (accept_dev_block state (pa_target_epoch a) (tp_license_index plan)
      (pa_ticket_index a) proof (pa_target a) (Some (signing_key_authority key)) ops) in
    act_of (Ok (state, AcceptedBlock)).

(** Three ways to be judged; only the last one asks Argon2. *)
Lemma finalize_cases w :
  (exists e, forall AR : Argon2, finalize_worker_result state session key plan outcome w = (w, Replies (Err e))) \/
  (no_win w /\ forall AR : Argon2, finalize_worker_result state session key plan outcome w = (w, Replies (Ok (state, NoWin)))) \/
  (exists ops, candidate_win w ops /\ forall AR : Argon2,
     finalize_worker_result state session key plan outcome w = judge ops w).
Proof.
  unfold finalize_worker_result, candidate_win, no_win, judge, act_state, act_bind at 1 2 3, node_err, act_of.
  fold id result a.
  destruct (validate_result_binding outcome session) as [[]|e]; [|left; by eexists].
  destruct (assignment_matches_plan plan _ session); cbn [negb]; [|left; by eexists].
  destruct (ledger_status (wd_state w) id) as [status|e]; [|left; by eexists].
  unfold check_ledger_status.
  destruct (Z.eqb_spec (rc_result_kind result) RESULT_NO_WIN) as [Hk|_].
  { destruct (Z.eqb_spec status STATUS_COMPLETED_NO_WIN) as [->|_]; cbn [negb]; [|left; by eexists].
    right; left. by split_and!. }
  destruct (Z.eqb_spec (rc_result_kind result) RESULT_WIN) as [Hk|_]; [|left; by eexists].
  destruct (status =? STATUS_INVALID_WIN); [left; by eexists|].
  destruct (Z.eqb_spec status STATUS_CANDIDATE_WIN) as [->|_]; cbn [negb]; [|left; by eexists].
  unfold act_bind at 1.
  destruct (revalidate_plan state plan key) as [ops|e] eqn:Er; cbn [map_err].
  2:{ left. exists (WmNode e). intros AR. cbv [act_bind]. by rewrite ?Er. }
  right; right. exists ops. split; [by split_and!|]. intros AR. cbv [act_bind]. by rewrite ?Er.
Qed.

(** The node computes the memory-hard function only for a WIN that is worth
    it.  Whatever a worker sends and whatever the chain became meanwhile:
    either the result is signed by the authenticated worker of this session, is
    about the ticket of the plan, claims a WIN that the ledger still holds as
    CANDIDATE_WIN, and the plan is still the one the chain gives; or the answer
    is the same for every Argon2 function, changes neither ledger, files nor
    connection, and is an error or a recorded NO_WIN with the chain state as it
    was. *)
Theorem argon2_only_for_candidate_wins w :
  (exists ops, candidate_win w ops) \/
  exists r, (forall AR : Argon2, finalize_worker_result state session key plan outcome w = (w, Replies r)) /\
    match r with Ok (s1, verdict) => s1 = state /\ verdict = NoWin /\ no_win w | Err _ => True end.
Proof.
  destruct (finalize_cases w) as [[e He]|[[Hn He]|(ops & Hc & _)]].
  - right. by exists (Err e).
  - right. by exists (Ok (state, NoWin)).
  - left. by exists ops.
Qed.

Lemma ledger_status_found w s : ledger_status (wd_state w) id = Ok s ->
  exists record, find_assignment (ws_ledger (wd_state w)) id = Some record /\ lg_status record = s.
Proof.
  unfold ledger_status. destruct (find_assignment _ id) as [r|]; [|done]. intros <-%Ok_inj. by exists r.
Qed.

(** Once INVALID_WIN, always refused. *)
Lemma invalid_refused {AR : Argon2} s1 key' plan' w record :
  rc_result_kind result = RESULT_WIN ->
  find_assignment (ws_ledger (wd_state w)) id = Some record -> lg_status record = STATUS_INVALID_WIN ->
  exists e, finalize_worker_result s1 session key' plan' outcome w = (w, Replies (Err e)).
Proof.
  intros Hk Hf Hs. unfold finalize_worker_result, act_state, act_bind at 1 2 3, act_of.
  destruct (validate_result_binding outcome session) as [[]|e]; [|by eexists].
  destruct (assignment_matches_plan plan' _ session); cbn [negb]; [|by eexists].
  unfold ledger_status. fold id result. rewrite Hf, Hs, Hk. by eexists.
Qed.

(** The proof of the ticket, recomputed, is the claimed one and wins. *)
Definition genuine {AR : Argon2} : Prop :=
  ticket_proof (pa_anchor_entropy a) (pa_target_epoch a) (pa_license_id a) (pa_ticket_index a)
    = Ok (rc_argon2_proof result) /\
  proof_below_target (rc_argon2_proof result) (pa_target a) = true.

Definition disproved {AR : Argon2} : Prop :=
  exists proof, ticket_proof (pa_anchor_entropy a) (pa_target_epoch a) (pa_license_id a) (pa_ticket_index a) = Ok proof /\
    (proof <> rc_argon2_proof result \/ proof_below_target proof (pa_target a) = false).

(** The status of the assignment in a ledger, after a WIN was disproved. *)
Definition invalidated (record : LedgerRecordV1) (l : WorkerBudgetLedgerV1) : Prop :=
  find_assignment l id = Some (set_status record STATUS_INVALID_WIN).

Definition after_false_win (w w' : world) (r : reply WorkerMiningError (DevnetState * FinalizeWorkerResultV1))
    (record : LedgerRecordV1) : Prop :=
  same_connection w w' /\
  match r with
  | Replies (Ok _) => False
  | Replies (Err _) =>
      ws_ledger (wd_state w') = ws_ledger (wd_state w) /\ recovers (ws_network_id (wd_state w)) w' (ws_ledger (wd_state w)) \/
      invalidated record (ws_ledger (wd_state w')) /\ synced (ws_network_id (wd_state w)) w' /\
      forall (AR : Argon2) s1 key' plan', exists e,
        finalize_worker_result s1 session key' plan' outcome w' = (w', Replies (Err e))
  | Stops => exists l, recovers (ws_network_id (wd_state w)) w' l /\
      (find_assignment l id = Some record \/ invalidated record l)
  end.

Lemma mark_invalid_spec w record :
  rc_result_kind result = RESULT_WIN -> synced (ws_network_id (wd_state w)) w ->
  find_assignment (ws_ledger (wd_state w)) id = Some record ->
  let (w', r) := mark_invalid_win id w in
  after_false_win w w' match r with
    | Replies (Ok _) => Replies (wm_err "false WIN proof rejected after independent node recomputation")
    | Replies (Err e) => Replies (Err e)
    | Stops => Stops
    end record.
Proof.
  intros Hk Hs Hf. destruct (update_first_found _ id STATUS_INVALID_WIN record Hf) as (rs & Hu & Hfound).
  pose proof (update_step WmLedger (ws_network_id (wd_state w)) id STATUS_INVALID_WIN w Hs) as H. rewrite Hu in H.
  unfold mark_invalid_win. destruct (act_map_err WmLedger _ w) as [w' r]. destruct H as [Hc H].
  split; [exact Hc|]. destruct r as [[[]|e]|].
  - destruct H as (_ & Hl & Hsy). right. split; [|split; [exact Hsy|]].
    + unfold invalidated. rewrite Hl. exact Hfound.
    + intros AR s1 key' plan'. eapply invalid_refused; [exact Hk|rewrite Hl; exact Hfound|done].
  - left. exact H.
  - destruct H as [H|H]; eexists; (split; [exact H|]); [left; exact Hf|right; exact Hfound].
Qed.

(** C13: the verdict on the result of a worker.  Let ledger file and memory
    agree and let the call answer or stop at any point of its writes.  A NO_WIN
    leaves everything as it was.  A block is accepted only for a candidate WIN
    whose recomputed proof equals the claimed one and is below the target; it is
    the block that the node signs for the ticket of the plan, and the ledger is
    untouched.  A WIN that the recomputation disproves never yields a chain
    state: either marking it failed and the ledger is the one before, or the
    assignment is INVALID_WIN in memory and on disk, and from then on the same
    result is refused for every Argon2 function, plan, key and chain state; a
    start after a crash finds the record as it was or invalidated. *)
Theorem worker_results_judged {AR : Argon2} w w' r :
  synced (ws_network_id (wd_state w)) w ->
  finalize_worker_result state session key plan outcome w = (w', r) ->
  match r with
  | Replies (Ok (s1, NoWin)) => s1 = state /\ w' = w /\ no_win w
  | Replies (Ok (s1, AcceptedBlock)) => w' = w /\ genuine /\ exists ops, candidate_win w ops /\
      accept_dev_block state (pa_target_epoch a) (tp_license_index plan) (pa_ticket_index a)
        (rc_argon2_proof result) (pa_target a) (Some (signing_key_authority key)) ops = Ok s1
  | _ => w' = w \/ disproved /\ exists record ops, candidate_win w ops /\
      find_assignment (ws_ledger (wd_state w)) id = Some record /\ after_false_win w w' r record
  end.
Proof.
  intros Hs H. destruct (finalize_cases w) as [[e He]|[[Hn He]|(ops & Hc & He)]]; rewrite He in H.
  { injection H as <- <-. by left. } { injection H as <- <-. done. }
  pose proof Hc as (_ & _ & Hk & Hst & _). apply ledger_status_found in Hst as (record & Hf & _).
  unfold judge, node_err, act_of, act_bind at 1 in H.
  destruct (ticket_proof _ _ _ _) as [proof|e] eqn:Hp; cbn [map_err] in H; [|injection H as <- <-; by left].
  destruct (negb (bytes_eqb proof _) || _) eqn:Eg.
  - assert disproved as Hd.
    { exists proof. split; [exact Hp|]. apply orb_true_iff in Eg as [E|E]; apply negb_true_iff in E; [left|by right].
      intros ->. by rewrite bytes_eqb_refl in E. }
    pose proof (mark_invalid_spec w record Hk Hs Hf) as Hm. unfold act_bind in H.
    destruct (mark_invalid_win id w) as [w1 [[[]|e]|]]; injection H as <- <-; right;
      (split; [exact Hd|]; exists record, ops; split_and!; [done..|exact Hm]).
  - apply orb_false_iff in Eg as [E1 E2]. apply negb_false_iff in E1, E2. apply bytes_eqb_eq in E1. subst proof.
    unfold act_bind in H. destruct (accept_dev_block _ _ _ _ _ _ _ _) as [s1|e] eqn:Ea; cbn [map_err] in H;
      injection H as <- <-; [|by left].
    split; [done|]. split; [done|]. by exists ops.
Qed.
End judged.

(** ** From the prepared ticket to the block *)

Section pipeline.
Context {SHA : Sha2} {ED : Ed25519} {AR : Argon2}.

Lemma prepare_enters s0 epoch li ticket key state plan :
  0 < ds_height s0 -> 0 <= ds_tip_epoch s0 -> is_u64 epoch ->
  prepare_canonical_ticket s0 epoch li ticket key = Ok (state, plan) ->
  ds_tip_epoch s0 < epoch /\ enter_epoch s0 epoch = Ok state.
Proof.
  intros Hh H0 Hu. unfold prepare_canonical_ticket. destruct (_ && _); [done|].
  destruct ((epoch <=? ds_tip_epoch s0) && _) eqn:Hep; [done|].
  destruct (_ && (epoch <? _)); [done|].
  apply andb_false_iff in Hep. rewrite Z.leb_gt, Z.ltb_ge in Hep.
  destruct (Z.ltb_spec 0 (ds_height s0)); [|lia].
  destruct (mine_skip s0 epoch) as [state1|] eqn:E1; [|done].
  destruct (apply_scheduled_license_transitions state1 epoch) as [[st n]|] eqn:E2; [|done].
  destruct (derive_plan_from_prepared_state _ _ _ _ _) as [[p ops]|]; [|done].
  intros [= -> ->]%Ok_inj. split; [lia|]. unfold enter_epoch.
  destruct (Z.ltb_spec 0 epoch); [|lia]. apply mine_skip_advance in E1; [|lia..].
  by rewrite E1, E2.
Qed.

Lemma mine_skip_same s epoch s' : mine_skip s epoch = Ok s' -> same_chain s s'.
Proof.
  unfold mine_skip. generalize (Z.to_nat (epoch - ds_tip_epoch s)) as fuel. intros fuel.
  revert s. induction fuel as [|fuel IH]; intros s; cbn [mine_skip_loop];
    (destruct (saturating_add 64 _ 1 <? epoch); [|by intros <-%Ok_inj]); [done|].
  destruct (pass_empty_epoch _) as [s1|] eqn:E; [|done]. apply pass_empty_epoch_same in E as [H1 _].
  destruct (refresh_current_state_root s1) as [s2|] eqn:E2; [|done].
  apply refresh_root in E2 as (root & _ & ->). intros H2%IH.
  etrans; [|exact H2]. etrans; [|]; [|etrans; [exact H1|]]; solve_same_chain.
Qed.

(** Preparing a ticket adds no block. *)
Lemma prepare_same s0 epoch li ticket key state plan :
  prepare_canonical_ticket s0 epoch li ticket key = Ok (state, plan) ->
  same_chain s0 state /\ exists ops, derive_plan_from_prepared_state state epoch li ticket key = Ok (plan, ops).
Proof.
  unfold prepare_canonical_ticket. destruct (_ && _); [done|]. destruct (_ && _); [done|]. destruct (_ && _); [done|].
  destruct (if 0 <? ds_height s0 then _ else _) as [state1|] eqn:E1; [|done].
  destruct (apply_scheduled_license_transitions state1 epoch) as [[st n]|] eqn:E2; [|done].
  destruct (derive_plan_from_prepared_state _ _ _ _ _) as [[p ops]|] eqn:E3; [|done].
  intros [= -> ->]%Ok_inj. split; [|by exists ops]. apply transitions_same in E2 as [H2 _].
  destruct (0 <? ds_height s0); [apply mine_skip_same in E1|apply Ok_inj in E1 as <-; done]. by etrans.
Qed.

(** A block mined with the help of a worker is valid for everyone: whatever
    the worker sent, whatever its session and whatever is in the ledger, if the
    state was prepared on [s0] and the verdict is AcceptedBlock, then the new
    block passes [validate_and_apply_block] on [s0]. *)
Lemma finalized_block_valid fuel s0 epoch li ticket key state plan0 session plan outcome w w' s1 :
  0 < ds_height s0 -> 0 <= ds_tip_epoch s0 -> is_u64 epoch -> typed_state s0 -> license_ids_ok s0 ->
  prepare_canonical_ticket s0 epoch li ticket key = Ok (state, plan0) ->
  pa_target_epoch (tp_authority plan) = epoch -> 0 <= pa_ticket_index (tp_authority plan) ->
  finalize_worker_result state session key plan outcome w = (w', Replies (Ok (s1, AcceptedBlock))) ->
  exists header txs operations s2 block,
    ds_blocks s1 = ds_blocks s0 ++ [block] /\ length header = 272%nat /\ bk_header block = hex_encode header /\
    bk_transactions block = map (fun tx => hex_encode (TransactionV1_encode_full tx)) txs /\
    bk_protocol_operations block = map (fun op => hex_encode (ProtocolOperationV1_encode op)) operations /\
    bh_epoch (read_header_core (take 208 header)) = epoch /\
    bh_license_id (read_header_core (take 208 header)) = pa_license_id (tp_authority plan) /\
    validate_and_apply_block fuel s0 header txs operations = Ok (s2, ds_tip_hash s1) /\ agree s1 s2.
Proof.
  intros Hh H0 Hu Hty Hids Hprep Hep Ht16 Hfin.
  destruct (prepare_enters _ _ _ _ _ _ _ Hh H0 Hu Hprep) as [Hlt Hent].
  destruct (finalize_cases state session key plan outcome w) as [[e He]|[[_ He]|(ops & Hc & He)]];
    rewrite He in Hfin; [discriminate Hfin|injection Hfin; discriminate|].
  destruct Hc as (_ & _ & _ & _ & Hrev). apply revalidate_ok in Hrev as [Hder _].
  apply derive_plan_ok in Hder
    as (license & id & count & target & anchor & Hli & Helig & Hid & _ & Hc & Htick & Htg & Han & _ & _ & Epl & _ & Eanc & Etg);
    [|exact Ht16].
  unfold judge, node_err, act_of, act_bind at 1 in Hfin. rewrite Hep, Epl, Eanc, Etg in Hfin. rewrite Hep in Helig, Hc.
  destruct (ticket_proof _ _ _ _) as [proof|] eqn:Hp; cbn [map_err] in Hfin; [|discriminate Hfin].
  destruct (negb (bytes_eqb proof _) || _) eqn:Eg.
  { unfold act_bind in Hfin. by destruct (mark_invalid_win _ w) as [w1 [[[]|e]|]]. }
  apply orb_false_iff in Eg as [_ Eg]. apply negb_false_iff in Eg.
  unfold act_bind in Hfin. destruct (accept_dev_block _ _ _ _ _ _ _ _) as [s|e] eqn:Hacc; cbn [map_err] in Hfin; [|discriminate Hfin].
  injection Hfin as _ ->. pose proof (enter_epoch_same _ _ _ Hent) as Hsame.
  assert (license_ids_ok state) as Hids'.
  { unfold license_ids_ok. destruct Hsame. by rewrite sc_ids. }
  pose proof (work_units_range count (candidate_count_nonneg _ _ _ _ _ Hc)) as Hr. unfold W_MAX in Hr.
  destruct (accept_agrees fuel s0 state epoch (tp_license_index plan) (pa_ticket_index (tp_authority plan)) proof target
    (Some (signing_key_authority key)) ops s1 license id) as
    (header & txs & s2 & [Hhd Hbe Hbl (block & Hblk & Hbh & _ & Hbt & Hbo)] & Hval & Hag); try done.
  { lia. } { by eapply typed_enter. }
  { intros auth [= <-]. apply signing_key_lawful. }
  { by eapply find_license_at. }
  { exists count, anchor. by repeat split; try apply Htick. }
  exists header, txs, ops, s2, block. rewrite Hblk, Hbl, Epl, (sc_blocks _ _ Hsame). by split_and!.
Qed.
End pipeline.
