(* ===== verification/WorkerRuntime.v ===== *)
(** Crate [mutiny-node], file worker_runtime.rs: the commands that serve one
    ticket to one worker (mine, mine again, cancel, watch and cancel), and the
    worker that answers them.

    A [machine] is the world of the worker service (file WorkerService) with
    the chain state in the data directory.  [load_state] and [save_state] are
    the storage layer (file Storage): here a load returns what is stored, and
    what happens to a save is an input, a save that fails or stops the process
    leaving the old or the new state.  Every completed save is logged with the
    frames sent until then.  Files that are read, random numbers and what the
    watcher sees in the data directory are inputs; printing, time limits, the
    network address and closing the connection are not modelled.  A panic is
    an answer of its own, [Panics].  Projections: [ri_] for the inputs, [mc_]
    for the machine, [ro_] for [WorkerRuntimeOutcomeV1], [rr_] and [rx_] for
    the outcomes of a second assignment and of a cancellation, [ol_] for
    [ObservedAssignmentLivenessV1]. *)

From Stdlib Require Import Strings.Byte Strings.String.
From stdpp Require Import strings gmap.
From S2P Require Import Prelude Crypto Codec Consensus Smt State Transaction Protocol ProtocolRules Worker Ledger Text P2p WorkerEndpoint WorkerService WorkerScheduler Collections NodeState Economy NodePresence NodePunishment NodeUtxo NodeDividends NodeBitcoin NodePurchase NodeRoots NodeBootstrap NodeEpoch NodeMempool NodeOperations NodeBlocks NodePayload NodeMining NodeReorg NodeChain NodeCore NodeSync NodeReplay NodeAgreement WorkerMining.

Inductive WorkerRuntimeError :=
| RtNode (e : NodeError)
| RtService (e : WorkerServiceError)
| RtScheduler (e : SchedulerError)
| RtMining (e : WorkerMiningError)
| RtFrame (e : P2pError)
| RtPackL (e : PackLError)
| RtEndpoint (e : EndpointError)
| RtReference (e : ReferenceWorkerError)
| RtError (what : string).

Record WorkerRuntimeOutcomeV1 := {
  ro_worker_id : bytes32;
  ro_ticket_index : Z;
  ro_result_kind : Z;
  ro_block_accepted : bool;
  ro_canonical_height : Z;
  ro_canonical_tip_hash : bytes32;
}.

Record WorkerReassignOutcomeV1 := {
  rr_worker_id : bytes32;
  rr_ticket_index : Z;
  rr_ticket_key : bytes32;
  rr_result_kind : Z;
  rr_block_accepted : bool;
}.

Record WorkerCancelOutcomeV1 := {
  rx_worker_id : bytes32;
  rx_ticket_index : Z;
  rx_ticket_key : bytes32;
  rx_cancel_reason : Z;
  rx_stale_result_rejected : bool;
}.

Record ObservedAssignmentLivenessV1 := {
  ol_canonical_parent_hash : bytes32;
  ol_current_epoch : Z;
  ol_license_eligible : bool;
  ol_worker_authorized : bool;
  ol_mining_custody_current : bool;
}.

(** ** The machine *)

Inductive save_fate :=
| Saves
| SaveFails (kept_new : bool)
| SaveStops (kept_new : bool).

Record machine := {
  mc_chain : node_result DevnetState;
  mc_saves : list save_fate;
  mc_saved : list (DevnetState * list (bytes * disk));
  mc_draws : list Z;
  mc_world : world;
}.

(** What a command finds and gets from outside. *)
Record RuntimeInputs := {
  ri_allowlist : option (Z * option text);
  ri_worker_dir : option (list dir_entry);
  ri_authorizations : option (Z * option text);
  ri_bind_fails : bool;
  ri_nonce : bytes;
  ri_accept_write_fails : bool;
}.

Inductive answer (A : Type) :=
| Answers (r : result WorkerRuntimeError A)
| Panics
| Halts.
Arguments Answers {A} r.
Arguments Panics {A}.
Arguments Halts {A}.

Definition run (A : Type) : Type := machine -> machine * answer A.

Definition run_of {A} (r : result WorkerRuntimeError A) : run A := fun m => (m, Answers r).

Definition run_bind {A B} (c : run A) (k : A -> run B) : run B := fun m =>
  let (m, r) := c m in
  match r with
  | Answers (Ok a) => k a m
  | Answers (Err e) => (m, Answers (Err e))
  | Panics => (m, Panics)
  | Halts => (m, Halts)
  end.
Notation "'run*' p := c 'in' k" := (run_bind c (fun p => k))
  (at level 10, p pattern, c at level 100, k at level 200,
   format "'[v' 'run*'  p  :=  c  'in' '/' k ']'") : rust_scope.

Definition with_world (w : world) (m : machine) : machine :=
  {| mc_chain := mc_chain m; mc_saves := mc_saves m; mc_saved := mc_saved m; mc_draws := mc_draws m; mc_world := w |}.

(** An action of the service. *)
Definition serve {E A} (f : E -> WorkerRuntimeError) (a : act E A) : run A := fun m =>
  let (w, r) := a (mc_world m) in
  (with_world w m, match r with Replies r => Answers (map_err f r) | Stops => Halts end).

(** What is in the memory of the service. *)
Definition run_state {A} (k : WorkerServiceState -> run A) : run A := fun m => k (wd_state (mc_world m)) m.

Definition load_state : run DevnetState := fun m => (m, Answers (map_err RtNode (mc_chain m))).

Definition keep_chain (s : DevnetState) (saves : list save_fate) (m : machine) : machine :=
  {| mc_chain := Ok s; mc_saves := saves; mc_saved := mc_saved m ++ [(s, wd_sent (mc_world m))];
     mc_draws := mc_draws m; mc_world := mc_world m |}.

Definition drop_save (saves : list save_fate) (m : machine) : machine :=
  {| mc_chain := mc_chain m; mc_saves := saves; mc_saved := mc_saved m; mc_draws := mc_draws m; mc_world := mc_world m |}.

Definition save_state (s : DevnetState) : run unit := fun m =>
  let after (kept_new : bool) saves := if kept_new then keep_chain s saves m else drop_save saves m in
  match mc_saves m with
  | [] => (keep_chain s [] m, Answers (Ok tt))
  | Saves :: saves => (keep_chain s saves m, Answers (Ok tt))
  | SaveFails kept_new :: saves => (after kept_new saves, Answers (Err (RtError "save state")))
  | SaveStops kept_new :: saves => (after kept_new saves, Halts)
  end.

Definition node {A} (r : node_result A) : run A := run_of (map_err RtNode r).

(** [random_nonzero_u64], drawn again while it is the id of the handshake. *)
Fixpoint draw_request_id (draws : list Z) (handshake_request_id : Z) : option (Z * list Z) :=
  match draws with
  | [] => None
  | value :: draws =>
      if (value =? 0) || (value =? handshake_request_id)
      then draw_request_id draws handshake_request_id else Some (value, draws)
  end.

Definition fresh_request_id (handshake_request_id : Z) : run Z := fun m =>
  match draw_request_id (mc_draws m) handshake_request_id with
  | Some (id, draws) =>
      ({| mc_chain := mc_chain m; mc_saves := mc_saves m; mc_saved := mc_saved m; mc_draws := draws;
          mc_world := mc_world m |}, Answers (Ok id))
  | None => (m, Halts)
  end.

(** ** Keys of the reference worker *)

Definition decode_hex32 (t : text) (label : string) : result WorkerRuntimeError bytes32 :=
  ok_or (RtError (label ++ " must be exactly 64 hexadecimal characters")) (hex_field t).

(** [file]: what the key file holds, if it can be read. *)
Definition load_reference_worker_key (file : option bytes) : result WorkerRuntimeError bytes :=
  let? content := ok_or (RtError "read reference-worker key file") file in
  if negb (length content =? 32)%nat
  then Err (RtError "reference-worker key file must contain exactly 32 raw seed bytes") else Ok content.

Section runtime.
Context {SHA : Sha2} {ED : Ed25519} {AR : Argon2}.

(** ** The worker *)

(** The nonce and the request id are drawn. *)
Definition run_reference_worker_one (worker_key worker_nonce : bytes) (handshake_request_id : Z)
    (expected_node_public_key expected_node_id : bytes32) : session WorkerRuntimeError WorkResultV1 :=
  if negb (bytes_eqb (node_id_from_public_key expected_node_public_key) expected_node_id)
  then Done (Err (RtError "paired node public key does not derive supplied NodeID")) else
  let! worker_session := session_map_err RtEndpoint
    (initiate_worker_handshake WORKER_MAGIC_DEVNET DEVNET_NETWORK_ID worker_key worker_nonce 1 1
       handshake_request_id expected_node_id) in
  session_map_err RtReference
    (process_one_assignment WORKER_MAGIC_DEVNET worker_session expected_node_public_key worker_key).

(** A worker that sends its result although the assignment was cancelled. *)
Definition run_reference_worker_ignore_cancel_one (worker_key worker_nonce : bytes) (handshake_request_id : Z)
    (expected_node_public_key expected_node_id : bytes32) : session WorkerRuntimeError unit :=
  if negb (bytes_eqb (node_id_from_public_key expected_node_public_key) expected_node_id)
  then Done (Err (RtError "paired node public key does not derive supplied NodeID")) else
  let! worker_session := session_map_err RtEndpoint
    (initiate_worker_handshake WORKER_MAGIC_DEVNET DEVNET_NETWORK_ID worker_key worker_nonce 1 1
       handshake_request_id expected_node_id) in
  let! assignment_frame := session_map_err RtFrame (Frame_read_from WORKER_MAGIC_DEVNET) in
  if negb (fr_message_type assignment_frame =? MSG_WORK_ASSIGNMENT) || (fr_request_id assignment_frame =? 0)
  then Done (Err (RtError "expected nonzero-request-id WORK_ASSIGNMENT")) else
  let! assignment := lift (map_err RtPackL (WorkAssignmentV1_decode (fr_payload assignment_frame))) in
  let! _ := lift (map_err RtPackL (WorkAssignmentV1_verify_node_signature assignment expected_node_public_key)) in
  let! result := lift (map_err RtReference
    (execute_assignment assignment worker_session expected_node_public_key worker_key)) in
  let! cancel_frame := session_map_err RtFrame (Frame_read_from WORKER_MAGIC_DEVNET) in
  if negb (fr_message_type cancel_frame =? MSG_WORK_CANCEL) || negb (fr_request_id cancel_frame =? 0)
  then Done (Err (RtError "expected unsolicited WORK_CANCEL with request_id=0")) else
  let! cancel := lift (map_err RtPackL (WorkCancelV1_decode (fr_payload cancel_frame))) in
  let! _ := lift (map_err RtPackL (WorkCancelV1_verify_node_signature cancel expected_node_public_key)) in
  let core := wc_core cancel in
  if negb (cc_network_id core =? DEVNET_NETWORK_ID)
     || negb (bytes_eqb (cc_session_id core) (as_session_id worker_session))
     || negb (bytes_eqb (cc_assignment_id core) (wa_assignment_id assignment))
     || negb (bytes_eqb (cc_ticket_key core) (wa_ticket_key assignment))
  then Done (Err (RtError "WORK_CANCEL binding mismatch")) else
  let! stale_frame := lift (map_err RtFrame (Frame_new WORKER_MAGIC_DEVNET MSG_WORK_RESULT
    (fr_request_id assignment_frame) (WorkResultV1_encode result))) in
  session_map_err RtFrame (Frame_write_to stale_frame).

(** ** What every command starts with *)

Definition preflight_mining_authority (state : DevnetState) (license_index : nat) (mining_signer : bytes)
    : node_result bytes32 :=
  let? license := ok_or (Msg "license number out of range"%string) (ds_licenses state !! license_index) in
  let? expected := decode32 (ls_mining_public_key license) in
  if negb (bytes_eqb (sk_public mining_signer) expected)
  then err "encrypted mining signer does not match current on-chain mining authority" else
  decode32 (ls_license_id license).

(** [prepare_runtime_state] on the files of the machine. *)
Definition open_service (i : RuntimeInputs) : run unit := fun m =>
  let w := mc_world m in
  let '(d, fs, r) := prepare_runtime_state DEVNET_NETWORK_ID WORKER_MAGIC_DEVNET (ri_allowlist i)
                       (ri_worker_dir i) (wd_disk w) (wd_faults w) in
  let opened s := with_world {| wd_state := s; wd_disk := d; wd_faults := fs; wd_input := wd_input w;
                                wd_sent := wd_sent w |} m in
  match r with
  | Replies (Ok s) => (opened s, Answers (Ok tt))
  | Replies (Err e) => (opened (wd_state w), Answers (Err (RtService e)))
  | Stops => (opened (wd_state w), Halts)
  end.

(** [accept_one] on the connection of the machine. *)
Definition accept_worker (i : RuntimeInputs) (node_signing_key : bytes) : run AuthenticatedWorkerSession := fun m =>
  let w := mc_world m in
  let (s, r) := accept_one node_signing_key (ri_nonce i) DEFAULT_NODE_CAPABILITIES (wd_input w)
                  (ri_accept_write_fails i) (wd_state w) in
  let accepted rest := with_world {| wd_state := s; wd_disk := wd_disk w; wd_faults := wd_faults w;
                                     wd_input := rest; wd_sent := wd_sent w |} m in
  match r with
  | Ok (session, rest) => (accepted rest, Answers (Ok session))
  | Err e => (accepted (wd_input w), Answers (Err (RtService e)))
  end.

Definition release_worker (session : AuthenticatedWorkerSession) : run unit := fun m =>
  let w := mc_world m in
  (with_world {| wd_state := release_session session (wd_state w); wd_disk := wd_disk w;
                 wd_faults := wd_faults w; wd_input := wd_input w; wd_sent := wd_sent w |} m, Answers (Ok tt)).

Definition open_session (i : RuntimeInputs) (license_index : nat) (node_signing_key mining_signer : bytes)
    : run (DevnetState * WorkerLicenseAuthorizationsV1 * AuthenticatedWorkerSession) :=
  run* state := load_state in
  run* license_id := node (preflight_mining_authority state license_index mining_signer) in
  run* _ := open_service i in
  run_state (fun worker_state =>
  run* authorizations := run_of (map_err RtScheduler
    (load_runtime_worker_license_authorizations (ri_authorizations i) worker_state)) in
  if ri_bind_fails i then run_of (Err (RtService WsIo)) else
  run* session := accept_worker i node_signing_key in
  if negb (is_authorized authorizations (as_worker_id session) license_id)
  then
    run* _ := release_worker session in
    run_of (Err (RtError "authenticated WorkerID has zero assignment authority for target LicenseID"))
  else run_of (Ok (state, authorizations, session))).

(** The next ticket of the license; the prepared state is saved. *)
Definition select_next_ticket (state : DevnetState) (authorizations : WorkerLicenseAuthorizationsV1)
    (session : AuthenticatedWorkerSession) (target_epoch : Z) (license_index : nat) (mining_signer : bytes)
    : run (DevnetState * CanonicalTicketPlanV1) :=
  run* (prepared, base_plan) := node (prepare_canonical_ticket state target_epoch license_index 0 mining_signer) in
  run_state (fun worker_state =>
  run* selected := run_of (map_err RtScheduler
    (next_unique_plan_for_session authorizations worker_state base_plan session)) in
  run* plan := run_of (ok_or (RtError "all frozen Pack-A TicketKeys for this LicenseID/epoch are already issued") selected) in
  run* _ := save_state prepared in
  run_of (Ok (prepared, plan))).

(** ** One ticket *)

Definition serve_one_mining_ticket (i : RuntimeInputs) (target_epoch : Z) (license_index : nat)
    (node_signing_key mining_signer : bytes) : run WorkerRuntimeOutcomeV1 :=
  run* (state, authorizations, session) := open_session i license_index node_signing_key mining_signer in
  run* (state, plan) := select_next_ticket state authorizations session target_epoch license_index mining_signer in
  run* request_id := fresh_request_id (as_request_id session) in
  run* outcome := serve RtService
    (dispatch_one_prepared_ticket session node_signing_key (tp_authority plan) 1 request_id) in
  run* (state, finalized) := serve RtMining (finalize_worker_result state session mining_signer plan outcome) in
  run* _ := save_state state in
  run* _ := release_worker session in
  run* tip := node (decode32 (ds_tip_hash state)) in
  run_of (Ok {| ro_worker_id := as_worker_id session; ro_ticket_index := pa_ticket_index (tp_authority plan);
                ro_result_kind := rc_result_kind (wr_core (ad_result outcome));
                ro_block_accepted := match finalized with AcceptedBlock => true | NoWin => false end;
                ro_canonical_height := ds_height state; ro_canonical_tip_hash := tip |}).

Definition serve_one_reassigned_ticket (i : RuntimeInputs) (target_epoch : Z) (license_index : nat)
    (ticket_index : Z) (node_signing_key mining_signer : bytes) : run WorkerReassignOutcomeV1 :=
  run* (state, authz, session) := open_session i license_index node_signing_key mining_signer in
  run* (prepared, canonical_plan) :=
    node (prepare_canonical_ticket state target_epoch license_index ticket_index mining_signer) in
  run_state (fun worker_state =>
  run* plan := run_of (map_err RtScheduler
    (redundant_plan_for_session authz worker_state canonical_plan ticket_index session)) in
  run* _ := save_state prepared in
  run* request_id := fresh_request_id (as_request_id session) in
  run* outcome := serve RtService
    (dispatch_one_prepared_ticket session node_signing_key (tp_authority plan) 1 request_id) in
  if ad_new_unique_ticket outcome
  then run_of (Err (RtError "redundant TicketKey reassignment unexpectedly created a new unique chance")) else
  run* (state, finalized) := serve RtMining (finalize_worker_result prepared session mining_signer plan outcome) in
  run* _ := save_state state in
  run* _ := release_worker session in
  run_of (Ok {| rr_worker_id := as_worker_id session; rr_ticket_index := pa_ticket_index (tp_authority plan);
                rr_ticket_key := wa_ticket_key (ad_assignment outcome);
                rr_result_kind := rc_result_kind (wr_core (ad_result outcome));
                rr_block_accepted := match finalized with AcceptedBlock => true | NoWin => false end |})).

(** ** Cancelled tickets *)

(** As in the dispatch, but for the checks of the numbers of the plan. *)
Definition issue_assignment_without_wait (session : AuthenticatedWorkerSession) (node_signing_key : bytes)
    (plan : CanonicalTicketPlanV1) (assignment_sequence request_id : Z) : run (WorkAssignmentV1 * bool) :=
  if (request_id =? 0) || (request_id =? as_request_id session)
  then run_of (Err (RtError "WORK_ASSIGNMENT request_id must be fresh and nonzero")) else
  run_state (fun worker_state =>
  let a := tp_authority plan in
  let core :=
    {| ac_network_id := ws_network_id worker_state; ac_session_id := as_session_id session;
       ac_assignment_sequence := assignment_sequence; ac_worker_id := as_worker_id session;
       ac_node_id := as_node_id session; ac_parent_block_hash := pa_parent_block_hash a;
       ac_parent_height := pa_parent_height a; ac_target_epoch := pa_target_epoch a;
       ac_license_id := pa_license_id a; ac_ticket_index := pa_ticket_index a;
       ac_work_units_for_epoch := pa_work_units_for_epoch a;
       ac_eligible_license_count := pa_eligible_license_count a;
       ac_anchor_entropy := pa_anchor_entropy a; ac_target := pa_target a;
       ac_expires_epoch := pa_target_epoch a; ac_algorithm_id := ALGORITHM_PACK_A_ARGON2ID;
       ac_algorithm_version := ALGORITHM_PACK_A_ARGON2ID_V1 |} in
  serve RtService (issue core session node_signing_key assignment_sequence request_id)).

(** [str::contains] *)
Definition str_contains (t what : string) : bool :=
  match String.index 0 what t with Some _ => true | None => false end.

(** Of the messages that [finalize_worker_result] can give. *)
Definition mentions_ledger_status (e : WorkerMiningError) : bool :=
  match e with WmNode (Msg t) => str_contains t "ledger status" | _ => false end.

(** The result that a worker sends after the cancellation; its verdict must be
    a refusal because of the ledger. *)
Definition reject_stale_result (state : DevnetState) (session : AuthenticatedWorkerSession) (mining_signer : bytes)
    (plan : CanonicalTicketPlanV1) (assignment : WorkAssignmentV1) (new_unique : bool) (request_id : Z) : run unit :=
  run_state (fun worker_state =>
  run* frame := serve RtFrame (receive_frame (ws_worker_magic worker_state)) in
  if negb (fr_message_type frame =? MSG_WORK_RESULT)
  then run_of (Err (RtError "expected one intentionally stale WORK_RESULT after cancellation")) else
  if negb (fr_request_id frame =? request_id)
  then run_of (Err (RtError "post-cancel stale WORK_RESULT request_id mismatch")) else
  run* result := run_of (map_err RtPackL (WorkResultV1_decode (fr_payload frame))) in
  run* _ := run_of (map_err RtPackL (WorkResultV1_verify_worker_signature result (as_worker_public_key session))) in
  let outcome := {| ad_assignment := assignment; ad_result := result; ad_new_unique_ticket := new_unique |} in
  fun m =>
    let (w, r) := finalize_worker_result state session mining_signer plan outcome (mc_world m) in
    let m := with_world w m in
    match r with
    | Replies (Ok _) => (m, Panics)
    | Replies (Err stale_error) =>
        if negb (mentions_ledger_status stale_error)
        then (m, Answers (Err (RtError "cancelled stale WorkResult rejected for unexpected reason")))
        else (m, Answers (Ok tt))
    | Stops => (m, Halts)
    end).

(** From the chosen reason to the outcome. *)
Definition cancel_and_reject (state : DevnetState) (session : AuthenticatedWorkerSession)
    (node_signing_key mining_signer : bytes) (plan : CanonicalTicketPlanV1) (assignment : WorkAssignmentV1)
    (new_unique : bool) (request_id cancel_reason : Z) : run WorkerCancelOutcomeV1 :=
  run* _ := serve RtScheduler
    (cancel_assignment_on_stream session node_signing_key (wa_assignment_id assignment) cancel_reason) in
  run* _ := reject_stale_result state session mining_signer plan assignment new_unique request_id in
  run* _ := release_worker session in
  run_of (Ok {| rx_worker_id := as_worker_id session; rx_ticket_index := pa_ticket_index (tp_authority plan);
                rx_ticket_key := wa_ticket_key assignment; rx_cancel_reason := cancel_reason;
                rx_stale_result_rejected := true |}).

Definition serve_one_cancelled_ticket (i : RuntimeInputs) (target_epoch : Z) (license_index : nat)
    (cancel_reason : Z) (node_signing_key mining_signer : bytes) : run WorkerCancelOutcomeV1 :=
  run* (state, authz, session) := open_session i license_index node_signing_key mining_signer in
  run* (state, plan) := select_next_ticket state authz session target_epoch license_index mining_signer in
  run* request_id := fresh_request_id (as_request_id session) in
  run* (assignment, new_unique) := issue_assignment_without_wait session node_signing_key plan 1 request_id in
  cancel_and_reject state session node_signing_key mining_signer plan assignment new_unique request_id cancel_reason.

(** ** The watcher *)

(** The data directory when the watcher looks at it. *)
Record snapshot := {
  sn_chain : node_result DevnetState;
  sn_authorizations : option (Z * option text);
  sn_mining_key_loads : bool;
}.

Definition observe_assignment_liveness (at_ : snapshot) (worker_state : WorkerServiceState)
    (session : AuthenticatedWorkerSession) (assignment : WorkAssignmentV1) (license_index : nat)
    : node_result ObservedAssignmentLivenessV1 :=
  let? live_state := sn_chain at_ in
  let? canonical_parent_hash := decode32 (ds_tip_hash live_state) in
  Ok {| ol_canonical_parent_hash := canonical_parent_hash; ol_current_epoch := ds_tip_epoch live_state;
        ol_license_eligible :=
          match ds_licenses live_state !! license_index with
          | Some license => is_eligible license (ac_target_epoch (wa_core assignment))
          | None => false end;
        ol_worker_authorized :=
          match load_runtime_worker_license_authorizations (sn_authorizations at_) worker_state with
          | Ok authz => is_authorized authz (as_worker_id session) (ac_license_id (wa_core assignment))
          | Err _ => false end;
        ol_mining_custody_current := sn_mining_key_loads at_ |}.

Definition select_observed_cancellation_reason (record : LedgerRecordV1) (observed : ObservedAssignmentLivenessV1)
    : option Z :=
  cancellation_reason record
    {| al_canonical_parent_hash := ol_canonical_parent_hash observed;
       al_current_epoch := ol_current_epoch observed; al_license_eligible := ol_license_eligible observed;
       al_worker_authorized := ol_worker_authorized observed;
       al_mining_custody_current := ol_mining_custody_current observed |}.

(** The loop: at most [n] looks, the first at [snapshots k]. *)
Fixpoint watch (snapshots : nat -> snapshot) (k n : nat) (worker_state : WorkerServiceState)
    (session : AuthenticatedWorkerSession) (assignment : WorkAssignmentV1) (license_index : nat)
    : result WorkerRuntimeError (option Z) :=
  match n with
  | O => Ok None
  | S n =>
      let? record := ok_or (RtError "lifecycle watcher assignment disappeared from persistent ledger")
        (find_assignment (ws_ledger worker_state) (wa_assignment_id assignment)) in
      let? observed := map_err RtNode
        (observe_assignment_liveness (snapshots k) worker_state session assignment license_index) in
      match select_observed_cancellation_reason record observed with
      | Some reason => Ok (Some reason)
      | None => watch snapshots (S k) n worker_state session assignment license_index
      end
  end.

Definition WATCH_ROUNDS : nat := 400.

Definition serve_one_lifecycle_watched_ticket (i : RuntimeInputs) (snapshots : nat -> snapshot) (target_epoch : Z)
    (license_index : nat) (node_signing_key mining_signer : bytes) : run WorkerCancelOutcomeV1 :=
  run* (state, authz, session) := open_session i license_index node_signing_key mining_signer in
  run* (state, plan) := select_next_ticket state authz session target_epoch license_index mining_signer in
  run* request_id := fresh_request_id (as_request_id session) in
  run* (assignment, new_unique) := issue_assignment_without_wait session node_signing_key plan 1 request_id in
  run_state (fun worker_state =>
  run* selected := run_of (watch snapshots 0 WATCH_ROUNDS worker_state session assignment license_index) in
  run* reason := run_of (ok_or (RtError "no assignment-invalidating lifecycle change was observed within bounded watch window") selected) in
  cancel_and_reject state session node_signing_key mining_signer plan assignment new_unique request_id reason).
End runtime.

(** ** Runs *)

Lemma machine_bind_ok {A B} (c : run A) (k : A -> run B) m m' b :
  run_bind c k m = (m', Answers (Ok b)) ->
  exists m1 a, c m = (m1, Answers (Ok a)) /\ k a m1 = (m', Answers (Ok b)).
Proof. unfold run_bind. destruct (c m) as [m1 [[a|e]| |]]; try done. intros H. by exists m1, a. Qed.

Lemma map_err_ok {E F A} (f : E -> F) (r : result E A) a : map_err f r = Ok a -> r = Ok a.
Proof. destruct r; cbn; [|done]. by intros [= ->]. Qed.

Lemma run_of_ok {A} (r : result WorkerRuntimeError A) m m' a :
  run_of r m = (m', Answers (Ok a)) -> m' = m /\ r = Ok a.
Proof. unfold run_of. by intros [= -> ->]. Qed.

Lemma node_ok {A} (r : node_result A) m m' a : node r m = (m', Answers (Ok a)) -> m' = m /\ r = Ok a.
Proof. unfold node. by intros [-> H%map_err_ok]%run_of_ok. Qed.

Lemma serve_ok {E A} (f : E -> WorkerRuntimeError) (a : act E A) m m' x :
  serve f a m = (m', Answers (Ok x)) ->
  exists w, a (mc_world m) = (w, Replies (Ok x)) /\ m' = with_world w m.
Proof.
  unfold serve. destruct (a (mc_world m)) as [w [[y|e]|]]; try done. cbn. intros [= <- ->]. by exists w.
Qed.

Lemma save_ok s m m' : save_state s m = (m', Answers (Ok tt)) -> exists saves, m' = keep_chain s saves m.
Proof. unfold save_state. destruct (mc_saves m) as [|[|k|k] saves]; intros [= <-]; by eexists. Qed.

(** The chain on disk with no block more than [chain0]. *)
Definition no_new_block (chain0 : node_result DevnetState) (m : machine) : Prop :=
  mc_chain m = chain0 \/
  exists s0 s, chain0 = Ok s0 /\ mc_chain m = Ok s /\ same_chain s0 s.

(** Never a panic, never a new block; [Q] is what an answer means. *)
Definition safe {A} (chain0 : node_result DevnetState) (P : machine -> Prop) (c : run A) (Q : A -> machine -> Prop) : Prop :=
  forall m, no_new_block chain0 m -> P m ->
    let (m', r) := c m in
    no_new_block chain0 m' /\ match r with Answers (Ok a) => Q a m' | Answers (Err _) | Halts => True | Panics => False end.

Section safety.
Context (chain0 : node_result DevnetState).

Lemma safe_bind {A B} P (c : run A) Q (k : A -> run B) R :
  safe chain0 P c Q -> (forall a, safe chain0 (Q a) (k a) R) -> safe chain0 P (run_bind c k) R.
Proof.
  intros Hc Hk m Hm HP. unfold run_bind. specialize (Hc m Hm HP). destruct (c m) as [m1 [[a|e]| |]]; [|done..].
  destruct Hc as [Hn HQ]. exact (Hk a m1 Hn HQ).
Qed.

Lemma safe_of {A} (P : machine -> Prop) (r : result WorkerRuntimeError A) (Q : A -> machine -> Prop) :
  (forall m a, P m -> r = Ok a -> Q a m) -> safe chain0 P (run_of r) Q.
Proof. intros H m Hm HP. unfold run_of. split; [exact Hm|]. destruct r; [by apply H|done]. Qed.

Lemma safe_state {A} P (k : WorkerServiceState -> run A) Q :
  (forall s, safe chain0 (fun m => P m /\ s = wd_state (mc_world m)) (k s) Q) -> safe chain0 P (run_state k) Q.
Proof. intros H m Hm HP. unfold run_state. by apply H. Qed.

Lemma safe_serve {E A} P (f : E -> WorkerRuntimeError) (a : act E A) (Q : A -> machine -> Prop) :
  (forall m w x, P m -> a (mc_world m) = (w, Replies (Ok x)) -> Q x (with_world w m)) ->
  safe chain0 P (serve f a) Q.
Proof.
  intros H m Hm HP. unfold serve. pose proof (H m) as Hx. destruct (a (mc_world m)) as [w [[x|e]|]]; cbn [map_err];
    (split; [exact Hm|]); [|done..]. by apply Hx.
Qed.

Lemma safe_weaken {A} (P : machine -> Prop) (P' : machine -> Prop) (c : run A) Q :
  (forall m, P m -> P' m) -> safe chain0 P' c Q -> safe chain0 P c Q.
Proof. intros H Hc m Hm HP. apply (Hc m Hm). by apply H. Qed.

Lemma safe_save P s0 s Q :
  chain0 = Ok s0 -> same_chain s0 s ->
  (forall m saves, P m -> Q tt (keep_chain s saves m)) -> safe chain0 P (save_state s) Q.
Proof.
  intros H0 Hs HQ m Hm HP.
  assert (forall saves, no_new_block chain0 (keep_chain s saves m)) as Hk by (intros saves; right; by exists s0, s).
  unfold save_state. destruct (mc_saves m) as [|[|[]|[]] saves]; (split; [first [apply Hk|exact Hm]|try done]); by apply HQ.
Qed.

Lemma safe_fresh P id Q :
  (forall m m' x, P m -> mc_chain m' = mc_chain m -> mc_world m' = mc_world m -> Q x m') ->
  safe chain0 P (fresh_request_id id) Q.
Proof.
  intros HQ m Hm HP. unfold fresh_request_id. destruct (draw_request_id (mc_draws m) id) as [[x draws]|]; [|done].
  split; [exact Hm|]. by eapply HQ.
Qed.
End safety.

(** ** Cancelled tickets never count *)

Section cancelled.
Context {SHA : Sha2} {ED : Ed25519} {AR : Argon2}.

(** Nothing but the answer. *)
Ltac solve_of := apply safe_of; cbn; intros; first [tauto | congruence].

Definition cancelled (id : bytes32) (w : world) : Prop :=
  exists record, find_assignment (ws_ledger (wd_state w)) id = Some record /\ lg_status record = STATUS_CANCELLED.

Lemma update_ok {X} (f : LedgerError -> X) id s w w' u :
  act_map_err f (on_ledger (fun ledger d fs => update_status_and_persist ledger id s d fs)) w = (w', Replies (Ok u)) ->
  exists rs, update_first (wl_records (ws_ledger (wd_state w))) id s = Some rs /\
    wl_records (ws_ledger (wd_state w')) = rs.
Proof.
  unfold act_map_err, on_ledger, update_status_and_persist. destruct (negb (known_status s)); [done|].
  destruct (update_first _ id s) as [rs|]; [|done]. destruct (checked_add 64 _ 1) as [g|]; [|done].
  unfold commit_candidate. destruct (persist _ tt _ _) as [[d fs] [[[]|e]|]]; try done.
  intros [= <- _]. exists rs. split; [reflexivity|]. reflexivity.
Qed.

Lemma cancel_marks session key id reason w w' c :
  cancel_assignment_on_stream session key id reason w = (w', Replies (Ok c)) -> cancelled id w'.
Proof.
  unfold cancel_assignment_on_stream. destruct (negb (known_code reason)); [done|]. unfold act_state, act_bind, act_of.
  destruct (find_assignment (ws_ledger (wd_state w)) id) as [record|] eqn:Ef; cbn [ok_or]; [|done].
  destruct (negb (bytes_eqb (lg_session_id record) _) || _); [done|].
  destruct (negb (cancellable_status _)); [done|].
  destruct (map_err ScPackL _) as [cancel|]; [|done].
  destruct (act_map_err ScLedger _ w) as [w1 [[[]|e]|]] eqn:Eu; [|done..].
  apply update_ok in Eu as (rs & Hu & Hr).
  destruct (update_first_found _ id STATUS_CANCELLED record Ef) as (rs' & Hu' & Hf).
  rewrite Hu in Hu'. injection Hu' as <-.
  destruct (map_err ScFrame _) as [f|]; [|done].
  unfold act_map_err, WorkerService.send_frame. destruct (Frame_encode f) as [bs|]; [|done].
  destruct (next_fault (wd_faults w1)) as [[|e|k b] fs]; cbn; [|discriminate 1..]. intros [= <- _].
  exists (set_status record STATUS_CANCELLED). split; [|done]. unfold find_assignment in *. cbn. by rewrite Hr.
Qed.

Lemma cancelled_refused state session key plan outcome w :
  cancelled (wa_assignment_id (ad_assignment outcome)) w ->
  exists e, finalize_worker_result state session key plan outcome w = (w, Replies (Err e)).
Proof.
  intros (record & Hf & Hs).
  destruct (finalize_cases state session key plan outcome w) as [[e He]|[[Hn _]|(ops & Hc & _)]]; [by eexists| |].
  - destruct Hn as (_ & _ & _ & H). unfold ledger_status in H. rewrite Hf, Hs in H. discriminate H.
  - destruct Hc as (_ & _ & _ & H & _). unfold ledger_status in H. rewrite Hf, Hs in H. discriminate H.
Qed.

Lemma receive_keeps {X} (f : P2pError -> X) magic w w' fr :
  act_map_err f (receive_frame magic) w = (w', Replies (Ok fr)) -> wd_state w' = wd_state w.
Proof.
  unfold act_map_err, receive_frame. destruct (play _ _ _) as [[r o] rest]. by intros [= <- _].
Qed.

Context (chain0 : node_result DevnetState).

Lemma open_session_safe i li nk mk :
  safe chain0 (fun m => mc_chain m = chain0) (open_session i li nk mk) (fun r _ => chain0 = Ok (fst (fst r))).
Proof.
  unfold open_session.
  apply (safe_bind _ _ _ (fun s _ => chain0 = Ok s)).
  { intros m Hm HP. unfold load_state. split; [exact Hm|]. rewrite HP. by destruct chain0. }
  intros s. apply (safe_bind _ _ _ (fun _ _ => chain0 = Ok s)); [solve_of|]. intros id.
  apply (safe_bind _ _ _ (fun _ _ => chain0 = Ok s)).
  { intros m Hm HP. unfold open_service. destruct (prepare_runtime_state _ _ _ _ _ _) as [[d fs] [[st|e]|]]; by split. }
  intros []. apply safe_state. intros ws.
  apply (safe_bind _ _ _ (fun _ _ => chain0 = Ok s)); [solve_of|]. intros authz.
  destruct (ri_bind_fails i); [solve_of|].
  apply (safe_bind _ _ _ (fun _ _ => chain0 = Ok s)).
  { intros m Hm HP. unfold accept_worker. destruct (accept_one _ _ _ _ _ _) as [st [[session rest]|e]]; by split. }
  intros session. destruct (negb (is_authorized _ _ _)).
  - apply (safe_bind _ _ _ (fun _ _ => True)); [|intros []; by apply safe_of].
    intros m Hm HP. by split.
  - apply safe_of. by intros m r HP [= <-].
Qed.

Lemma select_next_safe state authz session epoch li mk :
  safe chain0 (fun _ => chain0 = Ok state) (select_next_ticket state authz session epoch li mk) (fun _ _ => True).
Proof.
  unfold select_next_ticket.
  apply (safe_bind _ _ _ (fun p _ => chain0 = Ok state /\ same_chain state (fst p))).
  { apply safe_of. intros m [prepared plan] HP H%map_err_ok. split; [exact HP|]. by apply prepare_same in H as [H _]. }
  intros [prepared base]. apply safe_state. intros ws.
  apply (safe_bind _ _ _ (fun _ _ => chain0 = Ok state /\ same_chain state prepared)); [solve_of|].
  intros sel. apply (safe_bind _ _ _ (fun _ _ => chain0 = Ok state /\ same_chain state prepared)); [solve_of|].
  intros plan m Hm [H1 H2].
  assert (safe chain0 (fun _ => True) (run* _ := save_state prepared in run_of (Ok (prepared, plan))) (fun _ _ => True)) as Hs.
  { apply (safe_bind _ _ _ (fun _ _ => True)); [by apply (safe_save chain0 _ state)|]. intros []. solve_of. }
  by apply Hs.
Qed.

Lemma issue_safe session nk plan seq id :
  safe chain0 (fun _ => True) (issue_assignment_without_wait session nk plan seq id) (fun _ _ => True).
Proof.
  unfold issue_assignment_without_wait. destruct (_ || _); [solve_of|].
  apply safe_state. intros ws. by apply safe_serve.
Qed.

Lemma reject_safe state session mk plan assignment new_unique id :
  safe chain0 (fun m => cancelled (wa_assignment_id assignment) (mc_world m))
    (reject_stale_result state session mk plan assignment new_unique id)
    (fun _ m => cancelled (wa_assignment_id assignment) (mc_world m)).
Proof.
  unfold reject_stale_result. apply safe_state. intros ws.
  set (P := fun m => cancelled (wa_assignment_id assignment) (mc_world m)).
  apply (safe_bind _ _ _ (fun _ => P)).
  { intros m Hm [HP _]. unfold serve. unfold receive_frame. destruct (play _ _ _) as [[r o] rest].
    split; [exact Hm|]. by destruct r. }
  intros fr. destruct (negb _); [solve_of|]. destruct (negb _); [solve_of|].
  apply (safe_bind _ _ _ (fun _ => P)); [solve_of|]. intros result.
  apply (safe_bind _ _ _ (fun _ => P)); [solve_of|]. intros [] m Hm HP. cbv zeta.
  set (outcome := {| ad_assignment := assignment; ad_result := result; ad_new_unique_ticket := new_unique |}).
  destruct (cancelled_refused state session mk plan outcome (mc_world m) HP) as [e ->].
  by destruct (mentions_ledger_status e); cbn [negb]; split.
Qed.

Lemma cancel_and_reject_safe state session nk mk plan assignment new_unique id reason :
  safe chain0 (fun _ => True) (cancel_and_reject state session nk mk plan assignment new_unique id reason)
    (fun o m => cancelled (wa_assignment_id assignment) (mc_world m) /\ rx_cancel_reason o = reason).
Proof.
  unfold cancel_and_reject.
  apply (safe_bind _ _ _ (fun _ m => cancelled (wa_assignment_id assignment) (mc_world m))).
  { apply safe_serve. intros m w c _. by apply cancel_marks. }
  intros c. eapply safe_bind; [apply reject_safe|]. intros u.
  apply (safe_bind _ _ _ (fun _ m => cancelled (wa_assignment_id assignment) (mc_world m))).
  - intros m Hm HP. by split.
  - intros []. apply safe_of. by intros m o HP [= <-].
Qed.
End cancelled.

Section dead_tickets.
Context {SHA : Sha2} {ED : Ed25519} {AR : Argon2}.

(** What the watcher saw when it chose a reason: the first look, among its
    rounds, that gave one. *)
Definition seen_reason (snapshots : nat -> snapshot) (k n : nat) (worker_state : WorkerServiceState)
    (session : AuthenticatedWorkerSession) (assignment : WorkAssignmentV1) (license_index : nat) (reason : Z) : Prop :=
  exists record j observed, find_assignment (ws_ledger worker_state) (wa_assignment_id assignment) = Some record /\
    (k <= j < k + n)%nat /\
    observe_assignment_liveness (snapshots j) worker_state session assignment license_index = Ok observed /\
    select_observed_cancellation_reason record observed = Some reason /\
    forall i, (k <= i < j)%nat -> exists before,
      observe_assignment_liveness (snapshots i) worker_state session assignment license_index = Ok before /\
      select_observed_cancellation_reason record before = None.

Lemma watch_ok snapshots k n ws session assignment li reason :
  watch snapshots k n ws session assignment li = Ok (Some reason) ->
  seen_reason snapshots k n ws session assignment li reason.
Proof.
  revert k. induction n as [|n IH]; intros k; cbn [watch]; [done|].
  destruct (find_assignment _ _) as [record|] eqn:Ef; cbn [ok_or]; [|done].
  destruct (observe_assignment_liveness (snapshots k) _ _ _ _) as [observed|] eqn:Eo; cbn [map_err]; [|done].
  destruct (select_observed_cancellation_reason record observed) as [r|] eqn:Es.
  - intros [= ->]. exists record, k, observed. split_and!; [done|lia|lia|done|done|]. intros; lia.
  - intros (rec' & j & obs & Hf & Hj & Ho & Hs & Hb)%IH. rewrite Ef in Hf. injection Hf as <-.
    exists record, j, obs. split_and!; [done|lia|lia|done|done|]. intros i Hi.
    destruct (decide (i = k)) as [->|]; [by exists observed|]. apply Hb. lia.
Qed.

(** C14: a cancelled ticket never counts.  For every worker, every file in the
    data directory and every fate of every write, [serve_one_cancelled_ticket]
    and [serve_one_lifecycle_watched_ticket] never reach the panic of their
    [expect_err] (the verdict on a result that comes after the cancellation is
    always an error), and the chain state in the data directory is the one
    before, or that state with epochs passed, with no block more.  When they
    answer, the assignment is CANCELLED in the ledger; the watcher's reason is
    the first one that the data directory gave within its 400 looks. *)
Theorem cancelled_ticket_is_dead i snapshots epoch li reason nk mk m :
  let stays_dead (m' : machine) (r : answer WorkerCancelOutcomeV1) (cause : WorkerCancelOutcomeV1 -> bytes32 -> Prop) :=
    no_new_block (mc_chain m) m' /\
    match r with
    | Answers (Ok o) => exists id, cancelled id (mc_world m') /\ cause o id
    | Panics => False
    | _ => True
    end in
  (let (m', r) := serve_one_cancelled_ticket i epoch li reason nk mk m in
   stays_dead m' r (fun o _ => rx_cancel_reason o = reason)) /\
  (let (m', r) := serve_one_lifecycle_watched_ticket i snapshots epoch li nk mk m in
   stays_dead m' r (fun o id => exists ws session assignment,
     wa_assignment_id assignment = id /\
     seen_reason snapshots 0 400 ws session assignment li (rx_cancel_reason o))).
Proof.
  cbv zeta.
  assert (forall (c : run WorkerCancelOutcomeV1) cause,
    safe (mc_chain m) (fun m1 => mc_chain m1 = mc_chain m) c (fun o m' => exists id, cancelled id (mc_world m') /\ cause o id) ->
    let (m', r) := c m in
    no_new_block (mc_chain m) m' /\
    match r with
    | Answers (Ok o) => exists id, cancelled id (mc_world m') /\ cause o id
    | Panics => False
    | _ => True
    end) as Hrun.
  { intros c cause Hc. specialize (Hc m (or_introl eq_refl) eq_refl). destruct (c m) as [m' [[o|e]| |]]; tauto. }
  split; apply Hrun.
  - unfold serve_one_cancelled_ticket. eapply safe_bind; [apply open_session_safe|].
    intros [[state authz] session]. eapply safe_bind; [apply select_next_safe|]. intros [state' plan].
    apply (safe_bind _ _ _ (fun _ _ => True)); [by apply safe_fresh|]. intros id.
    eapply safe_bind; [apply issue_safe|]. intros [assignment new_unique] m1 Hm _.
    pose proof (cancel_and_reject_safe (mc_chain m) state' session nk mk plan assignment new_unique id reason m1 Hm I) as H.
    destruct (cancel_and_reject _ _ _ _ _ _ _ _ _ m1) as [m' [[o|e]| |]]; try done.
    destruct H as (H1 & H2 & H3). split; [exact H1|]. by exists (wa_assignment_id assignment).
  - unfold serve_one_lifecycle_watched_ticket. eapply safe_bind; [apply open_session_safe|].
    intros [[state authz] session]. eapply safe_bind; [apply select_next_safe|]. intros [state' plan].
    apply (safe_bind _ _ _ (fun _ _ => True)); [by apply safe_fresh|]. intros id.
    eapply safe_bind; [apply issue_safe|]. intros [assignment new_unique]. apply safe_state. intros ws.
    apply (safe_bind _ _ _ (fun selected _ => watch snapshots 0 WATCH_ROUNDS ws session assignment li = Ok selected));
      [by apply safe_of|]. intros selected.
    apply (safe_bind _ _ _ (fun reason _ => watch snapshots 0 WATCH_ROUNDS ws session assignment li = Ok (Some reason))).
    { apply safe_of. intros m1 r HP H. rewrite HP. destruct selected as [s|]; cbn in H; [|discriminate H]. by injection H as ->. }
    intros reason' m1 Hm Hw.
    pose proof (cancel_and_reject_safe (mc_chain m) state' session nk mk plan assignment new_unique id reason' m1 Hm I) as H.
    destruct (cancel_and_reject _ _ _ _ _ _ _ _ _ m1) as [m' [[o|e]| |]]; try done.
    destruct H as (H1 & H2 & H3). split; [exact H1|]. exists (wa_assignment_id assignment). split; [exact H2|].
    exists ws, session, assignment. split; [done|]. rewrite H3. apply watch_ok. exact Hw.
Qed.
End dead_tickets.

(** ** One served ticket *)

Section served.
Context {SHA : Sha2} {ED : Ed25519} {AR : Argon2}.

(** The worker may work for the license, by the files of the data directory. *)
Definition authorized_for (i : RuntimeInputs) (s0 : DevnetState) (license_index : nat) (worker_id : bytes32) : Prop :=
  exists license license_id ws authorizations,
    ds_licenses s0 !! license_index = Some license /\ decode32 (ls_license_id license) = Ok license_id /\
    load_runtime_worker_license_authorizations (ri_authorizations i) ws = Ok authorizations /\
    is_authorized authorizations worker_id license_id = true.

Lemma open_session_ok i li nk mk m m' state authz session :
  open_session i li nk mk m = (m', Answers (Ok (state, authz, session))) ->
  mc_chain m = Ok state /\ mc_chain m' = Ok state /\ mc_saved m' = mc_saved m /\
  wd_sent (mc_world m') = wd_sent (mc_world m) /\ authorized_for i state li (as_worker_id session).
Proof.
  unfold open_session. intros (m1 & s & H1 & H)%machine_bind_ok.
  unfold load_state in H1. injection H1 as <- H1%map_err_ok.
  apply machine_bind_ok in H as (m1 & id & (-> & Hpre)%node_ok & H).
  apply machine_bind_ok in H as (m2 & [] & H2 & H).
  assert (mc_chain m2 = mc_chain m /\ mc_saved m2 = mc_saved m /\ wd_sent (mc_world m2) = wd_sent (mc_world m)) as (C2 & S2 & W2).
  { revert H2. unfold open_service. destruct (prepare_runtime_state _ _ _ _ _ _) as [[d fs] [[st|e]|]]; by intros [= <-]. }
  unfold run_state in H. apply machine_bind_ok in H as (m3 & az & (-> & Haz%map_err_ok)%run_of_ok & H).
  destruct (ri_bind_fails i); [done|]. apply machine_bind_ok in H as (m4 & se & H4 & H).
  assert (mc_chain m4 = mc_chain m2 /\ mc_saved m4 = mc_saved m2 /\ wd_sent (mc_world m4) = wd_sent (mc_world m2)) as (C4 & S4 & W4).
  { revert H4. unfold accept_worker. destruct (accept_one _ _ _ _ _ _) as [st [[s5 rest]|e]]; by intros [= <-]. }
  destruct (is_authorized az (as_worker_id se) id) eqn:Ea; cbn [negb] in H; [|by apply machine_bind_ok in H as (? & ? & _ & ?)].
  apply run_of_ok in H as (-> & [= -> -> ->]). split_and!; [done|congruence|congruence|congruence|].
  unfold preflight_mining_authority in Hpre. destruct (ds_licenses state !! li) as [l|] eqn:El; [|done].
  cbn [ok_or] in Hpre. destruct (decode32 _); [|done]. destruct (negb _); [done|].
  exists l, id, (wd_state (mc_world m2)), authz. by split_and!.
Qed.

Lemma select_next_ok state authz session epoch li mk m m' prepared plan :
  select_next_ticket state authz session epoch li mk m = (m', Answers (Ok (prepared, plan))) ->
  exists base index saves, prepare_canonical_ticket state epoch li 0 mk = Ok (prepared, base) /\
    tp_authority plan = with_ticket index (tp_authority base) /\ 0 <= index /\ m' = keep_chain prepared saves m.
Proof.
  unfold select_next_ticket. intros (m1 & [p base] & (-> & Hp)%node_ok & H)%machine_bind_ok. unfold run_state in H.
  apply machine_bind_ok in H as (m2 & sel & (-> & Hsel%map_err_ok)%run_of_ok & H).
  apply machine_bind_ok in H as (m3 & pl & (-> & Hpl)%run_of_ok & H). destruct sel as [q|]; [|done]. injection Hpl as ->.
  apply machine_bind_ok in H as (m4 & [] & (saves & ->)%save_ok & H). apply run_of_ok in H as (-> & [= -> ->]).
  unfold next_unique_plan_for_session in Hsel. destruct (negb _); [done|].
  destruct (next_unique_ticket_index _ base) as [index|] eqn:En; [|done].
  destruct (plan_for_ticket base index) as [p|] eqn:Ep; [|done]. injection Hsel as ->.
  apply plan_for_ticket_ok in Ep as (Ha & _ & _). exists base, index, saves. split_and!; [done|done| |done].
  apply prepare_same in Hp as [_ (ops & Hd)]. apply derive_plan_ok in Hd as (l & id & count & tg & an & _ & _ & _ & _ & Hc & Hd); [|lia].
  unfold next_unique_ticket_index in En.
  match type of En with find ?P _ = _ => pose proof (find_seq P 0 (Z.to_nat (pa_work_units_for_epoch (tp_authority base)))) as Hf end.
  rewrite En in Hf. lia.
Qed.

Lemma fresh_ok id m m' x : fresh_request_id id m = (m', Answers (Ok x)) ->
  mc_chain m' = mc_chain m /\ mc_saved m' = mc_saved m /\ mc_world m' = mc_world m.
Proof. unfold fresh_request_id. destruct (draw_request_id (mc_draws m) id) as [[y ds]|]; [|done]. by intros [= <- _]. Qed.

(** C12: serving one ticket, from the data directory to the new block.  Let the
    chain state of the data directory have at least one block, and let
    [serve_one_mining_ticket] answer.  Then the worker was authorized for the
    license; the prepared state was saved before the first frame of the ticket
    was sent, and the final state is the second and last save and what the data
    directory holds; height and tip of the answer are those of that state.  If
    the answer says that a block was accepted, the header, transactions and
    operations recorded in the one new block pass [validate_and_apply_block] on
    the state before, skipped epochs included, with the same block hash and the
    same state up to display metadata; if not, the saved state is the prepared
    one, which has no new block. *)
Theorem served_ticket_is_valid fuel i epoch li nk mk m m' o s0 :
  mc_chain m = Ok s0 -> 0 < ds_height s0 -> 0 <= ds_tip_epoch s0 -> is_u64 epoch ->
  typed_state s0 -> license_ids_ok s0 ->
  serve_one_mining_ticket i epoch li nk mk m = (m', Answers (Ok o)) ->
  authorized_for i s0 li (ro_worker_id o) /\
  exists prepared s1 sent,
    mc_saved m' = mc_saved m ++ [(prepared, wd_sent (mc_world m)); (s1, sent)] /\ mc_chain m' = Ok s1 /\
    same_chain s0 prepared /\ ro_canonical_height o = ds_height s1 /\
    decode32 (ds_tip_hash s1) = Ok (ro_canonical_tip_hash o) /\
    if ro_block_accepted o then
      exists header txs operations s2 block,
        ds_blocks s1 = ds_blocks s0 ++ [block] /\ length header = 272%nat /\ bk_header block = hex_encode header /\
        bk_transactions block = map (fun tx => hex_encode (TransactionV1_encode_full tx)) txs /\
        bk_protocol_operations block = map (fun op => hex_encode (ProtocolOperationV1_encode op)) operations /\
        bh_epoch (read_header_core (take 208 header)) = epoch /\
        validate_and_apply_block fuel s0 header txs operations = Ok (s2, ds_tip_hash s1) /\ agree s1 s2
    else s1 = prepared.
Proof.
  intros Hm Hh Ht Hu Hty Hids. unfold serve_one_mining_ticket.
  intros (m1 & [[state authz] session] & H1 & H)%machine_bind_ok.
  apply open_session_ok in H1 as (C0 & C1 & S1 & W1 & Hau). rewrite Hm in C0. injection C0 as <-.
  apply machine_bind_ok in H as (m2 & [prepared plan] & (base & index & saves & Hprep & Hplan & Hi & ->)%select_next_ok & H).
  apply machine_bind_ok in H as (m3 & id & (C3 & S3 & W3)%fresh_ok & H).
  apply machine_bind_ok in H as (m4 & outcome & (w4 & _ & ->)%serve_ok & H).
  apply machine_bind_ok in H as (m5 & [s1 verdict] & (w5 & Hfin & ->)%serve_ok & H).
  apply machine_bind_ok in H as (m6 & [] & (saves' & ->)%save_ok & H).
  apply machine_bind_ok in H as (m7 & [] & H7 & H). unfold release_worker in H7. injection H7 as <-.
  apply machine_bind_ok in H as (m8 & tip & (-> & Htip)%node_ok & H). apply run_of_ok in H as (-> & [= <-]).
  cbn [ro_worker_id ro_canonical_height ro_canonical_tip_hash ro_block_accepted]. split; [exact Hau|].
  pose proof (prepare_same _ _ _ _ _ _ _ Hprep) as [Hsame (ops & Hd)].
  exists prepared, s1, (wd_sent w5). split_and!; [| done | exact Hsame | done | exact Htip |].
  { cbn [mc_saved with_world keep_chain mc_world]. rewrite S3. cbn [mc_saved keep_chain]. rewrite S1, W1.
    by rewrite <- app_assoc. }
  destruct verdict.
  - destruct (finalize_cases prepared session mk plan outcome (mc_world (with_world w4 m3))) as [[e He]|[[_ He]|(ops' & _ & He)]];
      rewrite He in Hfin; [discriminate Hfin|injection Hfin; done|]. exfalso. revert Hfin. unfold judge, node_err, act_of, act_bind.
    destruct (ticket_proof _ _ _ _); cbn [map_err]; [|discriminate 1].
    destruct (_ || _); [by destruct (mark_invalid_win _ _) as [? [[[]|]|]]|].
    by destruct (accept_dev_block _ _ _ _ _ _ _ _).
  - apply derive_plan_ok in Hd as (l & lid & count & tg & an & _ & _ & _ & _ & _ & _ & _ & _ & _ & Ep & _); [|lia].
    assert (pa_target_epoch (tp_authority plan) = epoch) as Het by (by rewrite Hplan).
    assert (0 <= pa_ticket_index (tp_authority plan)) as Hti by (by rewrite Hplan).
    destruct (finalized_block_valid fuel s0 epoch li 0 mk prepared base session plan outcome _ _ s1
                Hh Ht Hu Hty Hids Hprep Het Hti Hfin)
      as (header & txs & operations & s2 & block & B1 & B2 & B3 & B4 & B5 & B6 & _ & B8).
    by exists header, txs, operations, s2, block.
Qed.
End served.
