(* ===== verification/Wallet.v ===== *)
(** Crate [mutiny-node], the wallet of main.rs: choosing coins, payments,
    purchases of licenses with the native coin, and the operations by which an
    owner transfers a license or rotates its mining key.

    The three functions that pay choose coins, sign and check in the same way;
    what they share is defined once.  A signing key is its seed.  The texts of
    errors that contain amounts are shortened. *)

From Stdlib Require Import Strings.Byte Strings.String.
From stdpp Require Import strings.
From S2P Require Import Prelude Crypto Codec Consensus Smt State Transaction Protocol ProtocolRules Collections NodeState Economy NodePresence NodeUtxo NodeDividends NodeBootstrap NodeMempool NodeOperations NodeBlocks NodeMining NodeChain NodeReorg NodeAgreement.

(** ** Choosing coins *)

(** [sort_by_key(|u| (u.creation_height, u.txid.clone(), u.output_index))] *)
Definition utxo_le (a b : UtxoState) : bool :=
  (us_creation_height a <? us_creation_height b)
  || ((us_creation_height a =? us_creation_height b)
      && (String.ltb (us_txid a) (us_txid b)
          || (bool_decide (us_txid a = us_txid b) && (us_output_index a <=? us_output_index b)))).

Definition is_candidate (reserved : gset outpoint) (address : bytes32) (candidate_height : Z) (u : UtxoState) : bool :=
  (us_output_type u =? OUTPUT_PUBKEY_HASH)
  && match decode32 (us_payload u) with Ok p => bytes_eqb p address | Err _ => false end
  && spendable_at_height u candidate_height
  && negb (bool_decide (utxo_key_of u ∈ reserved)).

Definition candidates (state : DevnetState) (address : bytes32) (candidate_height : Z) : list UtxoState :=
  sort_by utxo_le
    (List.filter (is_candidate (mempool_reserved_inputs state) address candidate_height) (ds_utxos state)).

Section wallet.
Context {SHA : Sha2} {ED : Ed25519}.

(** A transaction of the shape that will be signed, for its weight.  [i as u8]
    and [i as u16] truncate. *)
Definition estimate_weight (outputs : list TxOutput) (input_count : nat) : Z :=
  TransactionV1_serialized_len
    {| tx_core := {| tc_version := 1; tc_network_id := DEVNET_NETWORK_ID; tc_valid_from_epoch := 1;
                     tc_expiry_epoch := 0;
                     tc_inputs := map (fun i => Outpoint (replicate 32 (byte_of_Z (Z.of_nat i))) (Z.of_nat i mod 2 ^ 16))
                                    (seq 0 input_count);
                     tc_outputs := outputs |};
       tx_witnesses := replicate input_count (WitnessV1_pubkey_hash (replicate 32 Byte.x00) (replicate 64 Byte.x00)) |}.

Definition estimate_send_weight (input_count output_count : nat) : node_result Z :=
  if (input_count =? 0)%nat || (output_count =? 0)%nat || (2 <? output_count)%nat then err "invalid send weight shape"
  else Ok (estimate_weight (replicate output_count
    {| to_amount_strikes := 1; to_output_type := OUTPUT_PUBKEY_HASH; to_payload := replicate 32 Byte.x00 |}) input_count).

Definition estimate_license_purchase_weight (input_count : nat) (with_change : bool) : node_result Z :=
  if (input_count =? 0)%nat then err "invalid native purchase input shape" else
  Ok (estimate_weight
    ({| to_amount_strikes := 1; to_output_type := OUTPUT_LICENSE_PAYMENT; to_payload := replicate 32 Byte.x00 |}
     :: (if with_change
         then [{| to_amount_strikes := 1; to_output_type := OUTPUT_PUBKEY_HASH; to_payload := replicate 32 Byte.x00 |}]
         else [])) input_count).

(** The loop over the candidates, until they cover the amount and the fee. *)
Fixpoint select_coins (rate : Z) (weight : nat -> node_result Z) (amount : Z) (candidates selected : list UtxoState)
    (total : Z) : node_result (list UtxoState * Z) :=
  match candidates with
  | [] => Ok (selected, total)
  | utxo :: candidates =>
      let? total := ok_or (Msg "balance overflow"%string) (checked_add 64 total (us_amount_strikes utxo)) in
      let selected := selected ++ [utxo] in
      let? estimated := weight (length selected) in
      let? fee := map_err FromTx (required_base_fee rate estimated) in
      if saturating_add 64 amount fee <=? total then Ok (selected, total)
      else select_coins rate weight amount candidates selected total
  end.

(** The chosen coins, the fee and the change. *)
Definition choose_coins (state : DevnetState) (weight : nat -> node_result Z) (amount : Z) (address : bytes32)
    : node_result (list UtxoState * Z * Z) :=
  let candidate_height := ds_height state + 1 in
  let? (selected, total) := select_coins (ds_base_fee_rate_q32 state) weight amount
    (candidates state address candidate_height) [] 0 in
  if is_empty selected then err "no spendable UTXOs; coinbase rewards require 16-block maturity" else
  let? estimated := weight (length selected) in
  let? fee := map_err FromTx (required_base_fee (ds_base_fee_rate_q32 state) estimated) in
  if total <? saturating_add 64 amount fee then err "insufficient spendable balance" else
  Ok (selected, fee, (total - amount - fee) mod 2 ^ 64).

(** ** Signing *)

Definition payment_outputs (amount output_type : Z) (payload : bytes) (change : Z) (change_address : bytes32)
    : list TxOutput :=
  {| to_amount_strikes := amount; to_output_type := output_type; to_payload := payload |}
  :: (if 0 <? change
      then [{| to_amount_strikes := change; to_output_type := OUTPUT_PUBKEY_HASH; to_payload := change_address |}]
      else []).

Definition sign_input (txid : bytes32) (sk : bytes) (iu : nat * UtxoState) : node_result WitnessV1 :=
  let '(i, utxo) := iu in
  let? prevout := UtxoState_prevout utxo in
  Ok (WitnessV1_pubkey_hash (sk_public sk) (sk_sign sk (sighash_all txid (Z.of_nat i mod 2 ^ 16) prevout))).

Definition sign_payment (network_id epoch : Z) (selected : list UtxoState) (outputs : list TxOutput) (sk : bytes)
    : node_result TransactionV1 :=
  let? inputs := map_result (fun u => let? previous_txid := decode32 (us_txid u) in
                                      Ok (Outpoint previous_txid (us_output_index u))) selected in
  let core := {| tc_version := 1; tc_network_id := network_id; tc_valid_from_epoch := epoch; tc_expiry_epoch := 0;
                 tc_inputs := inputs; tc_outputs := outputs |} in
  let? witnesses := map_result (sign_input (TransactionCoreV1_txid core) sk) (imap pair selected) in
  Ok {| tx_core := core; tx_witnesses := witnesses |}.

(** The witness that the wallet made verifies. *)
Definition self_verify (tx : TransactionV1) (_ : unit) (iuw : nat * (UtxoState * WitnessV1)) : node_result unit :=
  let '(i, (utxo, witness)) := iuw in
  let? prevout := UtxoState_prevout utxo in
  let? address := decode32 (us_payload utxo) in
  map_err FromTx (verify_pubkey_hash_witness address
    (sighash_all (TransactionV1_txid tx) (Z.of_nat i mod 2 ^ 16) prevout) witness).

(** The fee that the transaction pays and the Base Fee that it must pay. *)
Definition check_payment (rate : Z) (selected : list UtxoState) (tx : TransactionV1) : node_result (Z * Z) :=
  let? actual_base := map_err FromTx (required_base_fee rate (TransactionV1_serialized_len tx)) in
  let? input_sum := try_sum 64 (Msg "input sum overflow"%string) us_amount_strikes selected in
  let? output_sum := try_sum 64 (Msg "output sum overflow"%string) to_amount_strikes (tc_outputs (tx_core tx)) in
  let? actual_fee := ok_or (Msg "fee underflow"%string) (checked_sub input_sum output_sum) in
  if actual_fee <? actual_base then err "internal fee construction error" else
  let? _ := fold_result (self_verify tx) tt (imap pair (combine selected (tx_witnesses tx))) in
  Ok (actual_fee, actual_base).

(** [from as u8] *)
Definition stored_payment (tx : TransactionV1) (selected : list UtxoState) (fee base : Z) (from to : nat) (amount : Z)
    : PendingTxState :=
  {| pd_txid := to_hex (TransactionV1_txid tx); pd_wtxid := to_hex (TransactionV1_wtxid tx);
     pd_valid_from_epoch := tc_valid_from_epoch (tx_core tx); pd_expiry_epoch := 0;
     pd_inputs := map (fun u => {| si_previous_txid := us_txid u; si_previous_output_index := us_output_index u |}) selected;
     pd_outputs := map stored_output (tc_outputs (tx_core tx));
     pd_witnesses := map stored_witness (tx_witnesses tx);
     pd_fee_strikes := fee; pd_base_fee_strikes := base;
     pd_from_license := Z.of_nat from mod 2 ^ 8; pd_to_license := Z.of_nat to mod 2 ^ 8; pd_amount_strikes := amount |}.

(** ** Payments *)

Definition create_send_transaction_with_signer (state : DevnetState) (from to : nat) (amount : Z) (sk : bytes)
    : node_result PendingTxState :=
  if amount =? 0 then err "amount must be greater than zero" else
  let? source := ok_or (Msg "license number out of range"%string) (ds_licenses state !! from) in
  let? destination := ok_or (Msg "license number out of range"%string) (ds_licenses state !! to) in
  let? expected_owner := decode32 (ls_owner_public_key source) in
  if negb (bytes_eqb (sk_public sk) expected_owner)
  then err "provided signing key does not match the current on-chain owner authority" else
  let candidate_epoch := next_mineable_epoch state in
  let? from_address := decode32 (ls_payment_address_id source) in
  let? to_address := decode32 (ls_payment_address_id destination) in
  let? (selected, fee, change) := choose_coins state (fun n => estimate_send_weight n 2) amount from_address in
  let outputs := payment_outputs amount OUTPUT_PUBKEY_HASH to_address change from_address in
  let? tx := sign_payment (ds_network_id state) candidate_epoch selected outputs sk in
  let? (actual_fee, actual_base) := check_payment (ds_base_fee_rate_q32 state) selected tx in
  Ok (stored_payment tx selected actual_fee actual_base from to amount).

Definition dev_owner_signing_key_for_license (license : LicenseState) : option bytes32 :=
  match decode32 (ls_owner_public_key license) with
  | Ok expected => dev_signing_key_for_public_key expected
  | Err _ => None
  end.

Definition local_owner_key (state : DevnetState) (index : nat) : node_result bytes :=
  ok_or (Msg "local Devnet wallet does not hold the current owner private key for this Mining License"%string)
    (license ← ds_licenses state !! index; dev_owner_signing_key_for_license license).

Definition create_send_transaction (state : DevnetState) (from to : nat) (amount : Z) : node_result PendingTxState :=
  let? sk := local_owner_key state from in
  create_send_transaction_with_signer state from to amount sk.

(** The commands [wallet-send] and [send] on the state that is then saved. *)
Definition wallet_send (state : DevnetState) (from to : nat) (amount : Z) (sk : bytes) : node_result DevnetState :=
  let? pending := create_send_transaction_with_signer state from to amount sk in
  Ok (state <| ds_mempool := ds_mempool state ++ [pending] |>).

(** ** Purchases of licenses *)

(** One round of the count of [pending_native_license_count]. *)
Definition count_purchase (mempool_txids : gset string) (acc : Z) (pending : PendingProtocolOperationState) : node_result Z :=
  if negb (bool_decide (pp_required_txid pending ∈ mempool_txids)) then Ok acc else
  let? op := PendingProtocolOperationState_operation pending in
  if negb (po_op_type op =? OP_LICENSE_PURCHASE_MUT) || negb (po_op_version op =? 1) then Ok acc else
  let? purchase := decode_native_purchase_operation op in
  ok_or (Msg "pending native Mining License count overflow"%string)
    (checked_add 64 acc (Z.of_nat (length (mm_licenses (pm_manifest purchase))))).

Definition pending_native_license_count (state : DevnetState) : node_result Z :=
  fold_result (count_purchase (list_to_set (map pd_txid (ds_mempool state)))) 0 (ds_pending_protocol_operations state).

(** What both purchases do after the manifest is made. *)
Definition pay_for_manifest (state : DevnetState) (network_id : Z) (payer : nat) (payer_address : bytes32)
    (manifest : MutLicenseManifestV1) (payment_amount : Z) (signer : node_result bytes)
    : node_result (PendingTxState * PendingProtocolOperationState * list bytes32) :=
  let? manifest_hash := map_err FromProtocol (MutLicenseManifestV1_manifest_hash manifest) in
  let? (selected, fee, change) :=
    choose_coins state (fun n => estimate_license_purchase_weight n true) payment_amount payer_address in
  let outputs := payment_outputs payment_amount OUTPUT_LICENSE_PAYMENT manifest_hash change payer_address in
  let? sk := signer in
  let? tx := sign_payment network_id (next_mineable_epoch state) selected outputs sk in
  let? (actual_fee, actual_base) := check_payment (ds_base_fee_rate_q32 state) selected tx in
  let purchase := {| pm_payment_txid := TransactionV1_txid tx; pm_payment_output_index := 0; pm_manifest := manifest |} in
  let? ids := map_err FromProtocol (LicensePurchaseMutV1_license_ids purchase) in
  let? operation := map_err FromProtocol (LicensePurchaseMutV1_operation purchase) in
  Ok (stored_payment tx selected actual_fee actual_base payer payer payment_amount,
      {| pp_operation := hex_encode (ProtocolOperationV1_encode operation);
         pp_required_txid := to_hex (TransactionV1_txid tx) |}, ids).

Definition create_native_license_purchase_with_signer (state : DevnetState) (payer : nat)
    (entries : list LicenseManifestEntryV1) (sk : bytes)
    : node_result (PendingTxState * PendingProtocolOperationState * list bytes32 * Z) :=
  let count := Z.of_nat (length entries) in
  if (count =? 0) || (32 <? count)
  then err "secure native purchase requires 1..=32 encrypted owner/mining key pairs" else
  let? license := ok_or (Msg "payer license number out of range"%string) (ds_licenses state !! payer) in
  let? owner := decode32 (ls_owner_public_key license) in
  if negb (bytes_eqb (sk_public sk) owner)
  then err "provided signing key does not match the current on-chain owner authority" else
  let candidate_epoch := next_mineable_epoch state in
  let price_each := Z.max (subsidy candidate_epoch) 1 in
  let? payment_amount := ok_or (Msg "license purchase amount overflow"%string) (checked_mul 64 price_each count) in
  let? payer_address := decode32 (ls_payment_address_id license) in
  let keyset_hash := sha256_domain domains.MUT_LICENSE_MANIFEST
    [ascii_bytes "BUILD56-SECURE-NATIVE-KEYSET-V1";
     concat (map (fun e => me_owner_public_key e ++ me_mining_public_key e) entries)] in
  let? tip := decode32 (ds_tip_hash state) in
  let? payer_be := ok_or (Msg "payer license index overflow"%string) (try_from 32 (Z.of_nat payer)) in
  let? count_be := ok_or (Msg "secure purchase count overflow"%string) (try_from 32 count) in
  let nonce := sha256_domain domains.MUT_LICENSE_MANIFEST
    [ascii_bytes "BUILD56-SECURE-NATIVE-PURCHASE-NONCE-V1"; tip; be_bytes 8 candidate_epoch; be_bytes 4 payer_be;
     be_bytes 4 count_be; keyset_hash] in
  let manifest := {| mm_version := 1; mm_network_id := ds_network_id state; mm_purchase_nonce := nonce;
                     mm_licenses := entries |} in
  let? (pending, pending_op, ids) :=
    pay_for_manifest state (ds_network_id state) payer payer_address manifest payment_amount (Ok sk) in
  Ok (pending, pending_op, ids, price_each).

(** The keys of the development wallet, from slot [next_index] on. *)
Definition dev_entries (next_index : Z) (count : nat) : node_result (list LicenseManifestEntryV1) :=
  map_result (fun offset =>
    let? index := ok_or (Msg "Devnet license index overflow"%string) (try_from 8 (next_index + Z.of_nat offset)) in
    let key := sk_public (dev_seed index) in
    Ok {| me_owner_public_key := key; me_mining_public_key := key |}) (seq 0 count).

Definition create_native_license_purchase (state : DevnetState) (payer count : nat)
    : node_result (PendingTxState * PendingProtocolOperationState * list bytes32 * Z) :=
  if (count =? 0)%nat || (32 <? count)%nat then err "Build 5.0 Devnet purchase count must be 1..=32" else
  let? license := ok_or (Msg "payer license number out of range"%string) (ds_licenses state !! payer) in
  let? pending_license_count := pending_native_license_count state in
  let? next_index := ok_or (Msg "license count overflow"%string)
    (checked_add 64 (Z.of_nat (length (ds_licenses state))) pending_license_count) in
  let? fixture_total := ok_or (Msg "license count overflow"%string) (checked_add 64 next_index (Z.of_nat count)) in
  if 255 <? fixture_total
  then err "Build 5.0 local deterministic Devnet wallet fixture supports at most 255 generated license keys; validated protocol state itself has no 255-license consensus cap" else
  let candidate_epoch := next_mineable_epoch state in
  let price_each := Z.max (subsidy candidate_epoch) 1 in
  let? payment_amount := ok_or (Msg "license purchase amount overflow"%string)
    (checked_mul 64 price_each (Z.of_nat count)) in
  let? payer_address := decode32 (ls_payment_address_id license) in
  let? entries := dev_entries next_index count in
  let? tip := decode32 (ds_tip_hash state) in
  let nonce := sha256_domain domains.MUT_LICENSE_MANIFEST
    [ascii_bytes "DEVNET-NATIVE-PURCHASE-NONCE"; tip; be_bytes 8 candidate_epoch; be_bytes 4 (next_index mod 2 ^ 32);
     [byte_of_Z (Z.of_nat payer)]; [byte_of_Z (Z.of_nat count)]] in
  let manifest := {| mm_version := 1; mm_network_id := DEVNET_NETWORK_ID; mm_purchase_nonce := nonce;
                     mm_licenses := entries |} in
  let? (pending, pending_op, ids) :=
    pay_for_manifest state DEVNET_NETWORK_ID payer payer_address manifest payment_amount
      (ok_or (Msg "local Devnet wallet does not hold the current owner private key for the payer Mining License"%string)
         (dev_owner_signing_key_for_license license)) in
  Ok (pending, pending_op, ids, price_each).

(** ** Operations of the owner *)

Definition ensure_no_pending_authority_operation (state : DevnetState) (license_id : bytes32) : node_result unit :=
  fold_result (fun _ pending =>
    let? op := PendingProtocolOperationState_operation pending in
    let? target := authority_operation_license_id op in
    match target with
    | Some id => if bytes_eqb id license_id
                 then err "a pending authority operation already targets this Mining License; confirm or remove it before queuing another"
                 else Ok tt
    | None => Ok tt
    end) tt (ds_pending_protocol_operations state).

(** The checks before an owner signs. *)
Definition owned_license (state : DevnetState) (license_index : nat) (owner_key : bytes)
    : node_result (LicenseState * bytes32) :=
  let? license := ok_or (Msg "license number out of range"%string) (ds_licenses state !! license_index) in
  let? license_id := decode32 (ls_license_id license) in
  let? _ := ensure_no_pending_authority_operation state license_id in
  let? owner := decode32 (ls_owner_public_key license) in
  if negb (bytes_eqb (sk_public owner_key) owner)
  then err "provided signing key does not match the current on-chain owner authority" else Ok (license, license_id).

(** The fee ticket that pays for an operation, and the operation queued with it. *)
Definition queue_operation (state : DevnetState) (license_index : nat) (license_id : bytes32) (owner_key : bytes)
    (operation : ProtocolOperationV1)
    : node_result (PendingTxState * PendingProtocolOperationState * ProtocolOperationV1) :=
  let? fee_tx := create_send_transaction_with_signer state license_index license_index
    (authority_fee_marker license_id) owner_key in
  Ok (fee_tx, {| pp_operation := hex_encode (ProtocolOperationV1_encode operation);
                 pp_required_txid := pd_txid fee_tx |}, operation).

Definition create_license_transfer_operation_with_signer (state : DevnetState) (license_index : nat)
    (new_owner_public_key new_mining_public_key : bytes32) (owner_key : bytes)
    : node_result (PendingTxState * PendingProtocolOperationState * ProtocolOperationV1) :=
  let? (license, license_id) := owned_license state license_index owner_key in
  let transfer signature :=
    {| lt_license_id := license_id; lt_expected_owner_sequence := ls_owner_key_sequence license;
       lt_expected_mining_sequence := ls_mining_key_sequence license;
       lt_new_owner_public_key := new_owner_public_key; lt_new_mining_public_key := new_mining_public_key;
       lt_owner_signature := signature |} in
  let signature := sk_sign owner_key (LicenseTransferV1_signing_digest (transfer (replicate 64 Byte.x00))) in
  queue_operation state license_index license_id owner_key (LicenseTransferV1_operation (transfer signature)).

Definition create_mining_key_rotation_operation_with_signer (state : DevnetState) (license_index : nat)
    (new_mining_public_key : bytes32) (owner_key : bytes)
    : node_result (PendingTxState * PendingProtocolOperationState * ProtocolOperationV1) :=
  let? (license, license_id) := owned_license state license_index owner_key in
  let rotation signature :=
    {| kr_license_id := license_id; kr_expected_owner_sequence := ls_owner_key_sequence license;
       kr_expected_mining_sequence := ls_mining_key_sequence license;
       kr_new_mining_public_key := new_mining_public_key; kr_owner_signature := signature |} in
  let signature := sk_sign owner_key (MiningKeyRotateV1_signing_digest (rotation (replicate 64 Byte.x00))) in
  queue_operation state license_index license_id owner_key (MiningKeyRotateV1_operation (rotation signature)).

Definition create_license_transfer_operation (state : DevnetState) (license_index : nat)
    (new_owner_public_key new_mining_public_key : bytes32)
    : node_result (PendingTxState * PendingProtocolOperationState * ProtocolOperationV1) :=
  let? owner_key := local_owner_key state license_index in
  create_license_transfer_operation_with_signer state license_index new_owner_public_key new_mining_public_key owner_key.

Definition create_mining_key_rotation_operation (state : DevnetState) (license_index : nat)
    (new_mining_public_key : bytes32)
    : node_result (PendingTxState * PendingProtocolOperationState * ProtocolOperationV1) :=
  let? owner_key := local_owner_key state license_index in
  create_mining_key_rotation_operation_with_signer state license_index new_mining_public_key owner_key.
End wallet.

(** ** What the wallet chooses *)

Lemma insert_by_In le (x : UtxoState) l y : y ∈ insert_by le x l <-> y = x \/ y ∈ l.
Proof. rewrite insert_by_perm. apply elem_of_cons. Qed.

Lemma candidates_spec state address height u :
  u ∈ candidates state address height <->
  u ∈ ds_utxos state /\ is_candidate (mempool_reserved_inputs state) address height u = true.
Proof.
  unfold candidates. rewrite sort_by_perm, list_elem_of_In, filter_In, <- list_elem_of_In. done.
Qed.

Lemma candidates_nodup state address height :
  NoDup (map utxo_key_of (ds_utxos state)) -> NoDup (map utxo_key_of (candidates state address height)).
Proof.
  intros H. unfold candidates. rewrite sort_by_perm. induction (ds_utxos state) as [|u l IH]; [constructor|].
  cbn [map] in H. apply NoDup_cons in H as [Hu H]. cbn [List.filter]. destruct (is_candidate _ _ _ u); [|by apply IH].
  cbn [map]. apply NoDup_cons. split; [|by apply IH]. intros Hin. apply Hu.
  apply list_elem_of_fmap in Hin as (v & -> & Hv). apply list_elem_of_fmap. exists v. split; [done|].
  apply list_elem_of_In, filter_In in Hv as [Hv _]. by apply list_elem_of_In.
Qed.

Section choice.
Context {SHA : Sha2} {ED : Ed25519}.

Lemma select_coins_ok rate weight amount cs selected total selected' total' :
  select_coins rate weight amount cs selected total = Ok (selected', total') ->
  total < 2 ^ 64 ->
  exists n, selected' = selected ++ take n cs /\ total' = total + utxo_total (take n cs) /\ total' < 2 ^ 64.
Proof.
  revert selected total. induction cs as [|u cs IH]; intros selected total; cbn [select_coins].
  { intros [= -> ->]%Ok_inj Ht. exists O. cbn [take]. rewrite app_nil_r. unfold utxo_total. simpl. split_and!; [done|lia|done]. }
  destruct (checked_add 64 total _) as [t|] eqn:Ec; cbn [ok_or]; [|done]. apply checked_add_Some in Ec as [-> Hlt].
  destruct (weight _) as [estimated|]; [|done]. destruct (required_base_fee _ _) as [fee|]; cbn [map_err]; [|done].
  destruct (_ <=? _).
  - intros [= <- <-]%Ok_inj _. exists 1%nat. cbn [take]. rewrite take_0. unfold utxo_total. simpl. split_and!; [done|lia|done].
  - intros H _. apply IH in H as (n & -> & -> & Ht); [|done]. exists (S n). cbn [take].
    rewrite <- app_assoc. unfold utxo_total in *. rewrite sum_of_cons. split_and!; [done|lia|lia].
Qed.

(** Coins that a payment from [address] may spend. *)
Record chosen (state : DevnetState) (address : bytes32) (selected : list UtxoState) : Prop := {
  ch_some : selected <> [];
  ch_keys : NoDup (map utxo_key_of selected);
  ch_from : Forall (fun u => u ∈ ds_utxos state /\ us_output_type u = OUTPUT_PUBKEY_HASH /\
    decode32 (us_payload u) = Ok address /\ spendable_at_height u (ds_height state + 1) = true /\
    utxo_key_of u ∉ mempool_reserved_inputs state) selected;
  ch_total : utxo_total selected < 2 ^ 64;
}.

Lemma choose_coins_ok state weight amount address selected fee change :
  NoDup (map utxo_key_of (ds_utxos state)) ->
  choose_coins state weight amount address = Ok (selected, fee, change) ->
  chosen state address selected /\
  (exists estimated, weight (length selected) = Ok estimated /\
     required_base_fee (ds_base_fee_rate_q32 state) estimated = Ok fee) /\
  saturating_add 64 amount fee <= utxo_total selected /\ change = (utxo_total selected - amount - fee) mod 2 ^ 64.
Proof.
  intros Hn. unfold choose_coins. destruct (select_coins _ _ _ _ _ _) as [[sel total]|] eqn:Es; [|done].
  apply select_coins_ok in Es as (n & -> & -> & Ht); [|lia]. rewrite app_nil_l in *. rewrite Z.add_0_l in *.
  destruct (is_empty _) eqn:Ee; [done|]. destruct (weight _) as [estimated|] eqn:Ew; [|done].
  destruct (required_base_fee _ _) as [f|] eqn:Ef; cbn [map_err]; [|done].
  destruct (Z.ltb_spec (utxo_total (take n (candidates state address (ds_height state + 1)))) (saturating_add 64 amount f)); [done|].
  intros [= <- <- <-]%Ok_inj. split; [|split; [by exists estimated|done]]. split; [| | |exact Ht].
  - intros E. by rewrite E in Ee.
  - pose proof (candidates_nodup state address (ds_height state + 1) Hn) as Hc.
    rewrite <- (take_drop n (candidates _ _ _)), map_app in Hc. by apply NoDup_app in Hc as [Hc _].
  - apply Forall_forall. intros u Hu.
    assert (u ∈ candidates state address (ds_height state + 1)) as [Hu' Hc]%candidates_spec.
    { rewrite <- (take_drop n (candidates _ _ _)). apply elem_of_app. by left. } unfold is_candidate in Hc.
    apply andb_true_iff in Hc as [Hc H4]. apply andb_true_iff in Hc as [Hc H3]. apply andb_true_iff in Hc as [H1 H2].
    apply Z.eqb_eq in H1. destruct (decode32 (us_payload u)) as [p|] eqn:Ep; [|done]. apply bytes_eqb_eq in H2 as ->.
    apply negb_true_iff, bool_decide_eq_false in H4. done.
Qed.
End choice.

(** ** What the wallet pays is applied *)

Definition canonical_txid (t : string) : Prop := exists b, is32 b /\ t = hex_encode b.

Lemma canonical_txid_encode t id : canonical_txid t -> decode32 t = Ok id -> hex_encode id = t.
Proof. intros (b & Hb & ->). rewrite decode32_encode by done. by intros <-%Ok_inj. Qed.

Section apply.
Context {SHA : Sha2} {ED : Ed25519}.

(** A coin that the next block can spend. *)
Record spendable_in (w : list UtxoState) (height : Z) (u : UtxoState) : Prop := {
  si_found : find_utxo w (utxo_key_of u) = Some u;
  si_mature : spendable_at_height u height = true;
  si_type : us_output_type u = OUTPUT_PUBKEY_HASH;
  si_txid : canonical_txid (us_txid u);
  si_amount : 0 <= us_amount_strikes u;
}.

(** The input of a coin. *)
Definition input_of (u : UtxoState) (i : TxInput) : Prop :=
  exists id, decode32 (us_txid u) = Ok id /\ i = Outpoint id (us_output_index u).

Lemma total_cons u us : utxo_total (u :: us) = us_amount_strikes u + utxo_total us.
Proof. unfold utxo_total. by rewrite sum_of_cons. Qed.

Lemma input_step w t tx height seen sum consumed n u i wit :
  spendable_in w height u -> input_of u i -> Z.of_nat n < 2 ^ 16 ->
  utxo_key_of u ∉ seen -> 0 <= sum -> sum + us_amount_strikes u < 2 ^ 128 ->
  self_verify tx tt (n, (u, wit)) = Ok tt ->
  ordinary_input w t (TransactionV1_txid tx) height (seen, sum, consumed) (n, (i, wit))
  = Ok ({[utxo_key_of u]} ∪ seen, sum + us_amount_strikes u, consumed ++ [utxo_key_of u]).
Proof.
  intros [H1 H2 H3 H4 H5] (id & Hid & ->) Hn Hs Hsum Hb Hv. unfold self_verify in Hv. unfold ordinary_input.
  cbn [input_outpoint]. rewrite (canonical_txid_encode _ _ H4 Hid). cbn [ok_or].
  change (us_txid u, us_output_index u) with (utxo_key_of u).
  unfold insert_new. rewrite bool_decide_eq_false_2 by done. rewrite H1. cbn [ok_or]. rewrite H2, H3. cbn [negb].
  rewrite Z.eqb_refl. cbn [negb].
  destruct (UtxoState_prevout u) as [prevout|]; [|done]. destruct (decode32 (us_payload u)) as [address|]; [|done].
  rewrite Z.mod_small in Hv by lia. rewrite Hv.
  unfold checked_add. destruct (Z.ltb_spec (sum + us_amount_strikes u) (2 ^ 128)); [done|lia].
Qed.

Lemma inputs_run w t tx height selected ins wits seen sum consumed n :
  Forall (spendable_in w height) selected -> Forall2 input_of selected ins -> length wits = length selected ->
  Z.of_nat n + Z.of_nat (length selected) <= 2 ^ 16 -> NoDup (map utxo_key_of selected) ->
  (forall k, k ∈ map utxo_key_of selected -> k ∉ seen) -> 0 <= sum -> sum + utxo_total selected < 2 ^ 128 ->
  fold_result (self_verify tx) tt (imap (fun i x => ((n + i)%nat, x)) (combine selected wits)) = Ok tt ->
  exists seen', fold_result (ordinary_input w t (TransactionV1_txid tx) height) (seen, sum, consumed)
    (imap (fun i x => ((n + i)%nat, x)) (combine ins wits))
  = Ok (seen', sum + utxo_total selected, consumed ++ map utxo_key_of selected).
Proof.
  intros HF Hin. revert wits seen sum consumed n HF. induction Hin as [|u i us ins Hu _ IH];
    intros wits seen sum consumed n HF Hl Hn Hnd Hseen Hs Hb Hv.
  { exists seen. cbn [combine imap fold_result map]. rewrite app_nil_r. unfold utxo_total. simpl. by rewrite Z.add_0_r. }
  destruct wits as [|wit wits]; [done|]. apply Forall_cons in HF as [Hsp HF]. cbn [map] in Hnd, Hseen.
  apply NoDup_cons in Hnd as [Hnu Hnd]. rewrite total_cons in Hb |- *. cbn [length] in Hl, Hn.
  assert (0 <= utxo_total us) as H0.
  { apply sum_of_nonneg. intros v Hv'. rewrite Forall_forall in HF. by apply HF. }
  pose proof (si_amount _ _ _ Hsp). cbn [combine imap fold_result] in Hv |- *. rewrite Nat.add_0_r in *.
  destruct (self_verify tx tt (n, (u, wit))) as [[]|] eqn:Ev; [|done].
  rewrite (input_step w t tx height seen sum consumed n u i wit); [|done|done|lia|apply Hseen; by left|done|lia|done].
  destruct (IH wits ({[utxo_key_of u]} ∪ seen) (sum + us_amount_strikes u) (consumed ++ [utxo_key_of u]) (S n))
    as (seen' & Hr); [done|lia|lia|done| |lia|lia| |].
  - intros k Hk [->%elem_of_singleton|Hk']%elem_of_union; [done|]. eapply Hseen; [by right|done].
  - erewrite imap_ext; [exact Hv|]. intros j x _. cbn. f_equal. lia.
  - exists seen'. cbn [map]. rewrite <- app_assoc in Hr. rewrite Z.add_assoc.
    erewrite imap_ext; [exact Hr|]. intros j x _. cbn. f_equal. lia.
Qed.

Lemma outputs_run t outputs n :
  Forall output_ok outputs -> Forall (fun o => 0 <= to_amount_strikes o) outputs ->
  0 <= n -> n + output_total outputs < 2 ^ 128 ->
  fold_result (ordinary_output t) n outputs = Ok (n + output_total outputs).
Proof.
  revert n. induction outputs as [|o outputs IH]; intros n Ho Hp Hn Hb.
  { unfold output_total. simpl. by rewrite Z.add_0_r. }
  apply Forall_cons in Ho as [(H1 & H2 & H3) Ho]. apply Forall_cons in Hp as [Hp1 Hp].
  unfold output_total in *. rewrite sum_of_cons in Hb |- *. cbn [fold_result].
  assert (0 <= sum_of to_amount_strikes outputs) by (apply sum_of_nonneg; intros v Hv; by rewrite Forall_forall in Hp; apply Hp).
  assert (ordinary_output t n o = Ok (n + to_amount_strikes o)) as ->.
  { unfold ordinary_output. destruct (Z.eqb_spec (to_amount_strikes o) 0); [done|]. rewrite H2. cbn [Nat.eqb negb].
    assert (checked_add 128 n (to_amount_strikes o) = Some (n + to_amount_strikes o)) as Hc.
    { unfold checked_add. destruct (Z.ltb_spec (n + to_amount_strikes o) (2 ^ 128)); [done|lia]. }
    destruct H3 as [-> | ->]; cbn; by rewrite Hc. }
  rewrite IH by (done || lia). f_equal. lia.
Qed.
End apply.

Section payment.
Context {SHA : Sha2} {ED : Ed25519}.

(** A payment that the wallet built and checked. *)
Record built (state : DevnetState) (network_id epoch : Z) (selected : list UtxoState) (outputs : list TxOutput)
    (tx : TransactionV1) (fee base : Z) : Prop := {
  bu_inputs : Forall2 input_of selected (tc_inputs (tx_core tx));
  bu_witnesses : length (tx_witnesses tx) = length selected;
  bu_types : Forall (fun w => w_witness_type w = WITNESS_PUBKEY_HASH) (tx_witnesses tx);
  bu_core : tc_version (tx_core tx) = 1 /\ tc_network_id (tx_core tx) = network_id /\
    tc_valid_from_epoch (tx_core tx) = epoch /\ tc_expiry_epoch (tx_core tx) = 0 /\ tc_outputs (tx_core tx) = outputs;
  bu_base : required_base_fee (ds_base_fee_rate_q32 state) (TransactionV1_serialized_len tx) = Ok base;
  bu_fee : utxo_total selected = output_total outputs + fee;
  bu_pays : base <= fee;
  bu_sums : utxo_total selected < 2 ^ 64 /\ output_total outputs < 2 ^ 64;
  bu_verified : fold_result (self_verify tx) tt (imap pair (combine selected (tx_witnesses tx))) = Ok tt;
}.

Lemma sign_inputs_ok txid sk n selected wits :
  map_result (sign_input txid sk) (imap (fun i u => ((n + i)%nat, u)) selected) = Ok wits ->
  length wits = length selected /\ Forall (fun w => w_witness_type w = WITNESS_PUBKEY_HASH) wits.
Proof.
  revert n wits. induction selected as [|u selected IH]; intros n wits; cbn [imap map_result].
  { intros <-%Ok_inj. by split; [|constructor]. }
  destruct (sign_input _ _ _) as [wit|] eqn:Es; [|done]. destruct (map_result _ _) as [ws|] eqn:Em; [|done].
  intros <-%Ok_inj. destruct (IH (S n) ws) as [Hl Hf].
  { rewrite <- Em. f_equal. apply imap_ext. intros i x _. cbn. f_equal. lia. }
  split; [by cbn; rewrite Hl|]. constructor; [|done]. unfold sign_input in Es.
  destruct (UtxoState_prevout u); [|done]. by apply Ok_inj in Es as <-.
Qed.

Lemma built_ok state network_id epoch selected outputs sk tx fee base :
  sign_payment network_id epoch selected outputs sk = Ok tx ->
  check_payment (ds_base_fee_rate_q32 state) selected tx = Ok (fee, base) ->
  built state network_id epoch selected outputs tx fee base.
Proof.
  unfold sign_payment, check_payment. intros Hs Hc.
  destruct (map_result _ selected) as [inputs|] eqn:Ei; [|done].
  destruct (map_result _ (imap pair selected)) as [wits|] eqn:Ew; [|done]. apply Ok_inj in Hs as <-.
  cbn [tx_core tx_witnesses tc_outputs] in Hc.
  set (tx := {| tx_core := _; tx_witnesses := wits |}) in *.
  destruct (required_base_fee _ _) as [b|] eqn:Eb; cbn [map_err] in Hc; [|done].
  destruct (try_sum 64 _ us_amount_strikes selected) as [isum|] eqn:E1; [|done].
  destruct (try_sum 64 _ to_amount_strikes outputs) as [osum|] eqn:E2; [|done].
  destruct (checked_sub isum osum) as [f|] eqn:E3; cbn [ok_or] in Hc; [|done].
  apply checked_sub_Some in E3 as [-> Hle].
  destruct (Z.ltb_spec (isum - osum) b); [done|].
  destruct (fold_result (self_verify tx) _ _) as [[]|] eqn:Ev; [|done]. apply Ok_inj in Hc as [= <- <-].
  pose proof (try_sum_bound 64 _ _ _ _ ltac:(lia) E1) as B1. pose proof (try_sum_bound 64 _ _ _ _ ltac:(lia) E2) as B2.
  apply try_sum_ok in E1, E2. apply (sign_inputs_ok _ _ 0) in Ew as [Hl Hf].
  split; cbn [tx tx_core tx_witnesses tc_inputs tc_outputs tc_version tc_network_id tc_valid_from_epoch tc_expiry_epoch];
    try done.
  - apply map_result_Forall2 in Ei. eapply Forall2_impl; [exact Ei|]. intros u i Hi. cbn beta in Hi.
    destruct (decode32 (us_txid u)) as [id|] eqn:Ed; [|done]. apply Ok_inj in Hi as <-. by exists id.
  - unfold utxo_total, output_total. lia.
  - unfold utxo_total, output_total. lia.
Qed.

(** Stored and read back, the payment is the transaction that was signed. *)
Lemma stored_payment_decodes state network_id epoch selected outputs tx fee base from to amount :
  built state network_id epoch selected outputs tx fee base ->
  to_transaction_for_network (stored_payment tx selected fee base from to amount) network_id = Ok tx.
Proof.
  intros [Hi _ _ (Hv & Hn & He & Hx & Ho) _ _ _ _ _]. unfold to_transaction_for_network, stored_payment.
  cbn [pd_inputs pd_outputs pd_witnesses pd_valid_from_epoch pd_expiry_epoch].
  assert (map_result (fun i => let? previous_txid := decode32 (si_previous_txid i) in
      Ok (Outpoint previous_txid (si_previous_output_index i)))
    (map (fun u => {| si_previous_txid := us_txid u; si_previous_output_index := us_output_index u |}) selected)
    = Ok (tc_inputs (tx_core tx))) as ->.
  { clear -Hi. induction Hi as [|u i us ins (id & Hd & ->) _ IH]; [done|]. cbn [map map_result si_previous_txid si_previous_output_index].
    by rewrite Hd, IH. }
  assert (map_result (fun o => let? payload := hex_bytes (so_payload o) in
      Ok {| to_amount_strikes := so_amount_strikes o; to_output_type := so_output_type o; to_payload := payload |})
    (map stored_output (tc_outputs (tx_core tx))) = Ok (tc_outputs (tx_core tx))) as ->.
  { clear. induction (tc_outputs (tx_core tx)) as [|[a t b] outs IH]; [done|]. cbn [map map_result stored_output so_payload].
    by rewrite hex_bytes_encode, IH. }
  assert (map_result (fun w => let? payload := hex_bytes (sw_payload w) in
      Ok {| w_witness_type := sw_witness_type w; w_payload := payload |})
    (map stored_witness (tx_witnesses tx)) = Ok (tx_witnesses tx)) as ->.
  { clear. induction (tx_witnesses tx) as [|[t b] ws IH]; [done|]. cbn [map map_result stored_witness sw_payload].
    by rewrite hex_bytes_encode, IH. }
  destruct tx as [[v n f x ins outs] ws].
  cbn [tx_core tx_witnesses tc_version tc_network_id tc_valid_from_epoch tc_expiry_epoch tc_inputs tc_outputs] in *. by subst.
Qed.

Lemma selected_nonneg w height selected : Forall (spendable_in w height) selected -> 0 <= utxo_total selected.
Proof. intros H. apply sum_of_nonneg. intros u Hu. rewrite Forall_forall in H. by apply (si_amount w height), H. Qed.

(** A payment of at most 1024 inputs applies in every state of the coins that
    still has the chosen ones; with more it never does. *)
Lemma payment_applies state epoch0 epoch height w out selected outputs tx fee base from to amount :
  built state (ds_network_id state) epoch0 selected outputs tx fee base ->
  0 <= ds_base_fee_rate_q32 state -> epoch0 <= epoch -> selected <> [] -> NoDup (map utxo_key_of selected) ->
  Forall (spendable_in w height) selected ->
  outputs <> [] -> (length outputs <= 2)%nat -> Forall output_ok outputs -> Forall (fun o => 0 <= to_amount_strikes o) outputs ->
  let pending := stored_payment tx selected fee base from to amount in
  if (1024 <? length selected)%nat
  then exists e, apply_pending state epoch height [] (w, out) pending = Err e
  else exists w', apply_pending state epoch height [] (w, out) pending
         = Ok (w', out ++ [{| vt_pending := pending; vt_tx := tx; vt_fee := fee; vt_base_fee := base |}]).
Proof.
  intros Hb Hrate He Hne Hnd HF Hon Hol Hout Hpos pending.
  pose proof (stored_payment_decodes _ _ _ _ _ _ _ _ from to amount Hb) as Hdec. fold pending in Hdec.
  destruct Hb as [Hi Hw Hty (Hv & Hn & Hve & Hx & Ho) Hbase Hfee Hpays [S1 S2] Hver].
  pose proof (selected_nonneg _ _ _ HF) as S0.
  assert (0 <= output_total outputs) as O0 by (apply sum_of_nonneg; intros o Ho'; rewrite Forall_forall in Hpos; by apply Hpos).
  assert (length (tc_inputs (tx_core tx)) = length selected) as Hli by (symmetry; by eapply Forall2_length).
  unfold apply_pending. rewrite Hdec. cbn [pending stored_payment pd_txid pd_wtxid].
  rewrite !bool_decide_eq_true_2 by done. cbn [negb orb]. rewrite Hv, Hn, !Z.eqb_refl, Hve, Hx, Z.eqb_refl. cbn [negb orb].
  destruct (Z.ltb_spec epoch epoch0); [lia|]. cbn [andb orb].
  rewrite Hli, Ho, Hw, Nat.eqb_refl. cbn [negb].
  destruct (Nat.ltb_spec 1024 (length selected)) as [Hbig|Hsmall].
  { destruct ((length selected =? 0)%nat || (length outputs =? 0)%nat || true || (1024 <? length outputs)%nat) eqn:E;
      [by eexists|]. rewrite orb_true_r in E. by cbn in E. }
  destruct (Nat.eqb_spec (length selected) 0) as [E0|_]; [by destruct selected|].
  destruct (Nat.eqb_spec (length outputs) 0) as [E0|_]; [by destruct outputs|].
  destruct (Nat.ltb_spec 1024 (length outputs)); [lia|]. cbn [orb claim_operation_for_tx List.filter fold_result].
  unfold apply_ordinary.
  destruct (inputs_run w (pd_txid pending) tx height selected (tc_inputs (tx_core tx)) (tx_witnesses tx) ∅ 0 [] 0)
    as (seen' & Hrun); [done|done|done|lia|done|set_solver|lia|lia|exact Hver|].
  change (imap (fun i x => ((0 + i)%nat, x)) (combine (tc_inputs (tx_core tx)) (tx_witnesses tx)))
    with (imap pair (combine (tc_inputs (tx_core tx)) (tx_witnesses tx))) in Hrun.
  rewrite Hrun, Z.add_0_l, app_nil_l, Ho.
  rewrite (outputs_run (pd_txid pending) outputs 0) by (done || lia). rewrite Z.add_0_l.
  assert (0 <= base).
  { eapply required_base_fee_nonneg; [exact Hrate| |exact Hbase]. unfold TransactionV1_serialized_len. lia. }
  destruct (Z.ltb_spec (utxo_total selected) (output_total outputs)); [lia|].
  replace (utxo_total selected - output_total outputs) with fee by lia.
  unfold try_from. destruct (Z.ltb_spec fee (2 ^ 64)); [cbn [ok_or]|lia].
  rewrite Hbase. cbn [map_err]. destruct (Z.ltb_spec fee base); [lia|].
  assert (Forall2 (fun k u => find_utxo w k = Some u) (map utxo_key_of selected) selected) as Hfind.
  { clear -HF. induction HF as [|u us Hu _ IH]; constructor; [apply Hu|done]. }
  destruct (remove_consumed_ok (Msg "UTXO disappeared during block application"%string) w _ _ Hnd Hfind) as (w1 & -> & _).
  unfold add_outputs_as_utxos. rewrite Ho.
  destruct outputs as [|o1 [|o2 [|? ?]]]; [done| | |cbn in Hol; lia]; cbn [push_outputs]; by eexists.
Qed.
End payment.

(** ** What the mempool before the payment leaves *)

Section kept.
Context {SHA : Sha2} {ED : Ed25519}.

Definition pending_keys (p : PendingTxState) : list outpoint :=
  map (fun i => (si_previous_txid i, si_previous_output_index i)) (pd_inputs p).

Definition canonical_inputs (p : PendingTxState) : Prop :=
  Forall (fun i => canonical_txid (si_previous_txid i)) (pd_inputs p).

Lemma find_utxo_app l l' k u : find_utxo l k = Some u -> find_utxo (l ++ l') k = Some u.
Proof. unfold find_utxo. induction l as [|x l IH]; cbn; [done|]. by destruct (utxo_is k x). Qed.

Lemma find_utxo_member l u : NoDup (map utxo_key_of l) -> u ∈ l -> find_utxo l (utxo_key_of u) = Some u.
Proof.
  induction l as [|v l IH]; [by intros _ ?%not_elem_of_nil|]. cbn [map]. intros [Hv Hn]%NoDup_cons Hu.
  unfold find_utxo. cbn [List.find]. destruct (utxo_is (utxo_key_of u) v) eqn:E.
  - apply utxo_is_key in E. apply elem_of_cons in Hu as [->|Hu]; [done|]. exfalso. apply Hv. rewrite E.
    by apply list_elem_of_fmap_2.
  - apply elem_of_cons in Hu as [->|Hu]; [|by apply IH]. by rewrite (proj2 (utxo_is_key _ v)) in E.
Qed.

Lemma remove_consumed_keeps e ks utxos utxos' k :
  k ∉ ks -> remove_consumed e utxos ks = Ok utxos' -> find_utxo utxos' k = find_utxo utxos k.
Proof.
  revert utxos. induction ks as [|k' ks IH]; intros utxos Hk; [by intros <-%Ok_inj|].
  apply not_elem_of_cons in Hk as [Hne Hk]. unfold remove_consumed. cbn [fold_result].
  destruct (position (utxo_is k') utxos) as [pos|] eqn:E; cbn [ok_or]; [|done].
  intros H. rewrite (IH _ Hk H). by apply (find_utxo_delete _ k').
Qed.

Lemma ordinary_inputs_consume w t id height l acc acc' k :
  fold_result (ordinary_input w t id height) acc l = Ok acc' -> k ∈ acc'.2 ->
  k ∈ acc.2 \/ exists x, x ∈ l /\ input_outpoint x.2.1 = Some k.
Proof.
  revert acc. induction l as [|[n [i wit]] l IH]; intros acc; cbn [fold_result]; [intros <-%Ok_inj; by left|].
  destruct (ordinary_input w t id height acc (n, (i, wit))) as [acc1|] eqn:E; [|done]. intros H Hk.
  destruct (IH _ H Hk) as [H1|(x & Hx & Hi)]; [|right; exists x; split; [by right|done]].
  destruct acc as [[seen sum] consumed]. unfold ordinary_input in E.
  destruct (input_outpoint i) as [k'|] eqn:Ei; cbn [ok_or] in E; [|done].
  destruct (insert_new _ k' seen); [|done]. destruct (find_utxo w k') as [u|]; cbn [ok_or] in E; [|done].
  destruct (negb _); [done|]. destruct (negb _); [done|]. destruct (decode32 _); [|done].
  destruct (UtxoState_prevout u); [|done]. destruct (verify_pubkey_hash_witness _ _ _); cbn [map_err] in E; [|done].
  destruct (checked_add 128 _ _); cbn [ok_or] in E; [|done]. apply Ok_inj in E as <-. cbn [snd] in H1 |- *.
  apply elem_of_app in H1 as [H1| ->%list_elem_of_singleton]; [by left|]. right. exists (n, (i, wit)). split; [by left|done].
Qed.

Lemma input_keys p net tx i k :
  canonical_inputs p -> to_transaction_for_network p net = Ok tx ->
  i ∈ tc_inputs (tx_core tx) -> input_outpoint i = Some k -> k ∈ pending_keys p.
Proof.
  unfold to_transaction_for_network, canonical_inputs, pending_keys.
  destruct (map_result _ (pd_inputs p)) as [ins|] eqn:Ei; [|done].
  destruct (map_result _ (pd_outputs p)); [|done]. destruct (map_result _ (pd_witnesses p)); [|done].
  intros Hc <-%Ok_inj. cbn [tx_core tc_inputs]. apply map_result_Forall2 in Ei.
  revert Hc Ei. generalize (pd_inputs p). intros given Hc Ei.
  induction Ei as [|x y lx ly Hab _ IH]; [by intros ?%not_elem_of_nil|].
  apply Forall_cons in Hc as [Ha Hc]. cbn [map]. intros [->|Hi]%elem_of_cons Hk; [|right; by apply IH].
  cbn beta in Hab. destruct (decode32 (si_previous_txid x)) as [id|] eqn:Ed; [|done]. apply Ok_inj in Hab as <-.
  cbn [input_outpoint] in Hk. rewrite (canonical_txid_encode _ _ Ha Ed) in Hk. apply Some_inj in Hk as <-. by left.
Qed.

Lemma apply_pending_keeps s epoch height w out p w' out' k u :
  canonical_inputs p -> k ∉ pending_keys p -> find_utxo w k = Some u ->
  apply_pending s epoch height [] (w, out) p = Ok (w', out') -> find_utxo w' k = Some u.
Proof.
  intros Hc Hk Hu. unfold apply_pending. destruct (to_transaction_for_network p _) as [tx|] eqn:Et; [|done].
  repeat (destruct (_ || _); [done|]). destruct (negb (length (tx_witnesses tx) =? _)%nat); [done|].
  cbn [claim_operation_for_tx List.filter fold_result]. unfold apply_ordinary.
  destruct (fold_result (ordinary_input _ _ _ _) _ _) as [[[seen isum] consumed]|] eqn:Ef; [|done].
  destruct (fold_result (ordinary_output _) _ _); [|done]. destruct (_ <? _); [done|].
  destruct (try_from 64 _); cbn [ok_or]; [|done]. destruct (required_base_fee _ _); cbn [map_err]; [|done].
  destruct (_ <? _); [done|]. destruct (remove_consumed _ w consumed) as [w1|] eqn:Er; [|done].
  destruct (add_outputs_as_utxos w1 tx epoch height false) as [w2|] eqn:Ea; [|done]. intros [= <- _]%Ok_inj.
  apply push_outputs_ok in Ea as ->. apply find_utxo_app. rewrite (remove_consumed_keeps _ _ _ _ k) with (2 := Er); [done|].
  intros Hin. destruct (ordinary_inputs_consume _ _ _ _ _ _ _ _ Ef Hin) as [?%not_elem_of_nil|([n [i wit]] & Hx & Hi)]; [done|].
  apply Hk. eapply input_keys; [done..| |exact Hi]. cbn [fst snd].
  apply elem_of_lookup_imap in Hx as (j & [i' wit'] & [= -> -> ->] & Hl).
  apply list_elem_of_lookup_2, list_elem_of_In, in_combine_l in Hl. by apply list_elem_of_In.
Qed.

Lemma mempool_keeps s epoch height k u l w out w' out' :
  Forall canonical_inputs l -> k ∉ concat (map pending_keys l) -> find_utxo w k = Some u ->
  fold_result (apply_pending s epoch height []) (w, out) l = Ok (w', out') -> find_utxo w' k = Some u.
Proof.
  revert w out. induction l as [|p l IH]; intros w out; cbn [fold_result]; [by intros _ _ ? [= <- _]%Ok_inj|].
  intros [Hc HF]%Forall_cons Hk Hu. cbn [map concat] in Hk. apply not_elem_of_app in Hk as [Hp Hk].
  destruct (apply_pending s epoch height [] (w, out) p) as [[w1 out1]|] eqn:E; [|done].
  apply IH; [done|done|]. by eapply apply_pending_keeps.
Qed.
End kept.

(** ** Payments and the mempool *)

Section mineable.
Context {SHA : Sha2} {ED : Ed25519}.

(** What the coins and the mempool of a state look like: coins have distinct
    keys, and transaction ids are the hex text of 32 bytes. *)
Record wallet_ready (s : DevnetState) : Prop := {
  wr_keys : NoDup (map utxo_key_of (ds_utxos s));
  wr_coins : Forall (fun u => canonical_txid (us_txid u) /\ 0 <= us_amount_strikes u) (ds_utxos s);
  wr_mempool : Forall canonical_inputs (ds_mempool s);
  wr_rate : 0 <= ds_base_fee_rate_q32 s;
}.

Lemma chosen_spendable s address selected w out epoch :
  wallet_ready s -> chosen s address selected ->
  validate_and_apply_mempool s (ds_utxos s) epoch (ds_height s + 1) [] = Ok (w, out) ->
  Forall (spendable_in w (ds_height s + 1)) selected.
Proof.
  intros [Hk Hc Hm _] [_ _ Hf _] Hv. apply Forall_forall. intros u Hu. rewrite Forall_forall in Hf.
  destruct (Hf u Hu) as (Hin & Ht & _ & Hs & Hr). rewrite Forall_forall in Hc. destruct (Hc u Hin) as [Hcan Ha].
  split; [|done..]. eapply mempool_keeps; [exact Hm| |by apply find_utxo_member|exact Hv].
  intros Hin'. apply Hr. unfold mempool_reserved_inputs. by apply elem_of_list_to_set.
Qed.

Lemma wallet_outputs_ok amount payload change address :
  0 < amount -> 0 <= change -> is32 payload -> is32 address ->
  let outputs := payment_outputs amount OUTPUT_PUBKEY_HASH payload change address in
  outputs <> [] /\ (length outputs <= 2)%nat /\ Forall output_ok outputs /\
  Forall (fun o => 0 <= to_amount_strikes o) outputs.
Proof.
  intros Ha Hc Hp Hd. unfold payment_outputs.
  assert (output_ok {| to_amount_strikes := amount; to_output_type := OUTPUT_PUBKEY_HASH; to_payload := payload |}) as H1.
  { split; [cbn; lia|]. split; [done|]. by left. }
  destruct (Z.ltb_spec 0 change); (split; [done|]; split; [cbn; lia|]).
  - split; repeat (apply Forall_cons; split); try done; [|cbn; lia..]. split; [cbn; lia|]. split; [done|]. by left.
  - split; repeat (apply Forall_cons; split); try done; cbn; lia.
Qed.

Lemma send_is_payment s from to amount sk p :
  NoDup (map utxo_key_of (ds_utxos s)) -> 0 <= amount ->
  create_send_transaction_with_signer s from to amount sk = Ok p ->
  exists address destination selected change tx fee base,
    chosen s address selected /\ is32 address /\ is32 destination /\ 0 < amount /\ 0 <= change /\
    built s (ds_network_id s) (next_mineable_epoch s) selected
      (payment_outputs amount OUTPUT_PUBKEY_HASH destination change address) tx fee base /\
    p = stored_payment tx selected fee base from to amount.
Proof.
  intros Hn Ha. unfold create_send_transaction_with_signer. destruct (Z.eqb_spec amount 0); [done|].
  destruct (ds_licenses s !! from) as [source|]; cbn [ok_or]; [|done].
  destruct (ds_licenses s !! to) as [target|]; cbn [ok_or]; [|done].
  destruct (decode32 (ls_owner_public_key source)); [|done]. destruct (negb _); [done|].
  destruct (decode32 (ls_payment_address_id source)) as [address|] eqn:E1; [|done].
  destruct (decode32 (ls_payment_address_id target)) as [destination|] eqn:E2; [|done].
  destruct (choose_coins _ _ _ _) as [[[selected fee0] change]|] eqn:Ec; [|done].
  apply choose_coins_ok in Ec as (Hc & _ & _ & Hch); [|done].
  destruct (sign_payment _ _ _ _ _) as [tx|] eqn:Es; [|done].
  destruct (check_payment _ _ _) as [[fee base]|] eqn:Ek; [|done]. intros <-%Ok_inj.
  exists address, destination, selected, change, tx, fee, base.
  repeat apply conj; [done|by eapply decode32_length|by eapply decode32_length|lia| | |done].
  - rewrite Hch. by apply Z.mod_pos_bound.
  - by eapply built_ok.
Qed.

(** C17: a payment that the wallet makes spends only coins the mempool leaves
    free, so that appended to a mempool that validates it validates too, in
    any later epoch and with the fee the wallet recorded; with one exception,
    a payment of more than 1024 coins, which the wallet makes and which makes
    the whole mempool invalid. *)
Theorem wallet_send_mineable (s : DevnetState) (from to : nat) (amount : Z) (sk : bytes) p epoch w out :
  wallet_ready s -> 0 <= amount ->
  create_send_transaction_with_signer s from to amount sk = Ok p ->
  next_mineable_epoch s <= epoch ->
  validate_and_apply_mempool s (ds_utxos s) epoch (ds_height s + 1) [] = Ok (w, out) ->
  wallet_send s from to amount sk = Ok (s <| ds_mempool := ds_mempool s ++ [p] |>) /\
  match validate_and_apply_mempool (s <| ds_mempool := ds_mempool s ++ [p] |>) (ds_utxos s) epoch (ds_height s + 1) [] with
  | Ok (_, out') =>
      (length (pd_inputs p) <= 1024)%nat /\
      exists v, out' = out ++ [v] /\ vt_pending v = p /\ vt_fee v = pd_fee_strikes p /\
        vt_base_fee v = pd_base_fee_strikes p
  | Err _ => (1024 < length (pd_inputs p))%nat
  end.
Proof.
  intros Hr Ha Hp He Hv. unfold wallet_send. rewrite Hp. split; [done|].
  apply send_is_payment in Hp as (address & destination & selected & change & tx & fee & base & Hc & H1 & H2 & H3 & H4 & Hb & ->);
    [|apply Hr|done].
  pose proof (chosen_spendable _ _ _ _ _ _ Hr Hc Hv) as Hsp.
  destruct (wallet_outputs_ok amount destination change address H3 H4 H2 H1) as (O1 & O2 & O3 & O4).
  pose proof (payment_applies s _ epoch _ w out selected _ tx fee base from to amount Hb (wr_rate _ Hr) He
    (ch_some _ _ _ Hc) (ch_keys _ _ _ Hc) Hsp O1 O2 O3 O4) as Happly. cbn zeta in Happly.
  set (p := stored_payment tx selected fee base from to amount) in *.
  assert (length (pd_inputs p) = length selected) as -> by apply length_map.
  change (validate_and_apply_mempool (s <| ds_mempool := ds_mempool s ++ [p] |>) (ds_utxos s) epoch (ds_height s + 1) [])
    with (fold_result (apply_pending s epoch (ds_height s + 1) []) (ds_utxos s, []) (ds_mempool s ++ [p])).
  unfold validate_and_apply_mempool in Hv. rewrite fold_result_app, Hv. cbn [fold_result].
  destruct (Nat.ltb_spec 1024 (length selected)).
  - destruct Happly as (e & ->). done.
  - destruct Happly as (w' & ->). split; [done|]. by eexists.
Qed.
End mineable.

(** ** Dividend claims

    [create_claim_bundle_with_signer] of dividends.rs: the treasury coins that
    pay an award, and the signed operation that authorizes it. *)

Section claims.
Context {SHA : Sha2} {ED : Ed25519}.

(** One round of the loop over the queued operations: an operation that does
    not decode is skipped. *)
Definition queued_claim (license : LicenseState) (already_queued : Z) (pending : PendingProtocolOperationState)
    : node_result Z :=
  match PendingProtocolOperationState_operation pending with
  | Err _ => Ok already_queued
  | Ok op =>
      if negb (po_op_type op =? OP_DIVIDEND_CLAIM) then Ok already_queued else
      let? queued := decode_claim_operation op in
      let? license_id := decode32 (ls_license_id license) in
      if bytes_eqb (dc_license_id queued) license_id
      then ok_or (Msg "queued dividend claim overflow"%string) (checked_add 64 already_queued (dc_amount_strikes queued))
      else Ok already_queued
  end.

Definition queued_claims (state : DevnetState) (license : LicenseState) : node_result Z :=
  fold_result (queued_claim license) 0 (ds_pending_protocol_operations state).

Definition treasury_candidates (state : DevnetState) (candidate_height : Z) : list UtxoState :=
  sort_by utxo_le (List.filter (fun u => is_treasury u && spendable_at_height u candidate_height
    && negb (bool_decide (utxo_key_of u ∈ mempool_reserved_inputs state))) (ds_utxos state)).

(** The loop over the candidates, until they cover the amount. *)
Fixpoint cover (amount : Z) (candidates selected : list UtxoState) (total : Z) : node_result (list UtxoState * Z) :=
  match candidates with
  | [] => Ok (selected, total)
  | utxo :: candidates =>
      let? total := ok_or (Msg "Treasury input selection overflow"%string) (checked_add 64 total (us_amount_strikes utxo)) in
      let selected := selected ++ [utxo] in
      if amount <=? total then Ok (selected, total) else cover amount candidates selected total
  end.

Definition create_claim_bundle_with_signer (state : DevnetState) (license_index : nat) (amount : Z) (sk : bytes)
    : node_result (PendingTxState * PendingProtocolOperationState * DividendClaimV1) :=
  if amount =? 0 then err "dividend claim amount must be greater than zero" else
  let? license := ok_or (Msg "license number out of range"%string) (ds_licenses state !! license_index) in
  let? owner := decode32 (ls_owner_public_key license) in
  if negb (bytes_eqb (sk_public sk) owner)
  then err "provided signing key does not match the current on-chain owner authority" else
  if ls_status license =? LICENSE_STATUS_REVOKED then err "revoked Mining License cannot claim dividends" else
  let? account := ok_or (Msg "Mining License has no active dividend award"%string)
    (List.find (fun a => bool_decide (dv_license_id a = ls_license_id license)) (ds_dividend_accounts state)) in
  let candidate_epoch := next_mineable_epoch state in
  if (candidate_epoch <? dv_award_epoch account) || (dv_claim_deadline_epoch account <=? candidate_epoch)
  then err "dividend award is outside its claim window" else
  let? already_queued := queued_claims state license in
  let? unqueued_claimable := ok_or (Msg "queued dividend claims exceed account balance"%string)
    (checked_sub (dv_claimable_strikes account) already_queued) in
  if unqueued_claimable <? amount then err "dividend claim exceeds claimable balance after already-queued claims" else
  let candidate_height := ds_height state + 1 in
  let? (selected, total) := cover amount (treasury_candidates state candidate_height) [] 0 in
  if total <? amount then err "Treasury does not yet have enough spendable UTXO backing for this claim" else
  let? destination := decode32 (ls_payment_address_id license) in
  let? inputs := map_result (fun u => let? previous_txid := decode32 (us_txid u) in
                                      Ok (Outpoint previous_txid (us_output_index u))) selected in
  let change := total - amount in
  let outputs :=
    {| to_amount_strikes := amount; to_output_type := OUTPUT_PUBKEY_HASH; to_payload := destination |}
    :: (if 0 <? change
        then [{| to_amount_strikes := change; to_output_type := OUTPUT_TREASURY;
                 to_payload := treasury_id_for_network (ds_network_id state) |}] else []) in
  let core := {| tc_version := 1; tc_network_id := ds_network_id state; tc_valid_from_epoch := candidate_epoch;
                 tc_expiry_epoch := saturating_sub (dv_claim_deadline_epoch account) 1;
                 tc_inputs := inputs; tc_outputs := outputs |} in
  let? license_id := decode32 (ls_license_id license) in
  let claim signature :=
    {| dc_license_id := license_id; dc_expected_owner_sequence := ls_owner_key_sequence license;
       dc_amount_strikes := amount; dc_destination_address_id := destination;
       dc_payment_txid := TransactionCoreV1_txid core; dc_owner_signature := signature |} in
  let claim := claim (sk_sign sk (DividendClaimV1_signing_digest (claim (replicate 64 Byte.x00)))) in
  let operation := DividendClaimV1_operation claim in
  let tx := {| tx_core := core; tx_witnesses := map (fun _ => WitnessV1_protocol_auth (operation_id operation)) selected |} in
  let index := default 0 (try_from 8 (Z.of_nat license_index)) in
  let pending :=
    {| pd_txid := to_hex (TransactionV1_txid tx); pd_wtxid := to_hex (TransactionV1_wtxid tx);
       pd_valid_from_epoch := tc_valid_from_epoch core; pd_expiry_epoch := tc_expiry_epoch core;
       pd_inputs := map (fun u => {| si_previous_txid := us_txid u; si_previous_output_index := us_output_index u |}) selected;
       pd_outputs := map stored_output (tc_outputs core); pd_witnesses := map stored_witness (tx_witnesses tx);
       pd_fee_strikes := 0; pd_base_fee_strikes := 0; pd_from_license := index; pd_to_license := index;
       pd_amount_strikes := amount |} in
  let pending_op := {| pp_operation := hex_encode (ProtocolOperationV1_encode operation); pp_required_txid := pd_txid pending |} in
  let? _ := validate_and_apply_payment state (ds_utxos state) tx operation candidate_epoch candidate_height in
  Ok (pending, pending_op, claim).

Definition create_claim_bundle (state : DevnetState) (license_index : nat) (amount : Z)
    : node_result (PendingTxState * PendingProtocolOperationState * DividendClaimV1) :=
  let? sk := local_owner_key state license_index in
  create_claim_bundle_with_signer state license_index amount sk.

(** The claims that are queued, with the new one, stay within the award. *)
Lemma claim_bundle_within_award state license_index amount sk p op claim :
  create_claim_bundle_with_signer state license_index amount sk = Ok (p, op, claim) ->
  exists license account queued, ds_licenses state !! license_index = Some license /\
    account ∈ ds_dividend_accounts state /\ dv_license_id account = ls_license_id license /\
    queued_claims state license = Ok queued /\ queued + amount <= dv_claimable_strikes account /\
    dv_award_epoch account <= next_mineable_epoch state < dv_claim_deadline_epoch account.
Proof.
  unfold create_claim_bundle_with_signer. intros H. destruct (amount =? 0); [done|].
  destruct (ds_licenses state !! license_index) as [license|] eqn:El; cbn [ok_or] in H; [|done].
  destruct (decode32 (ls_owner_public_key license)); [|done]. destruct (negb _); [done|]. destruct (ls_status license =? _); [done|].
  destruct (List.find _ _) as [account|] eqn:Ea; cbn [ok_or] in H; [|done]. apply find_elem in Ea as [Ha1 Ha2].
  apply bool_decide_eq_true in Ha2. destruct (_ || _) eqn:Ew; [done|].
  destruct (queued_claims state license) as [queued|] eqn:Eq; [|done].
  destruct (checked_sub _ queued) as [rest|] eqn:Er; cbn [ok_or] in H; [|done]. apply checked_sub_Some in Er as [-> _].
  destruct (_ <? amount) eqn:Elt; [done|]. bool_to_prop. exists license, account, queued. repeat apply conj; try done; lia.
Qed.
End claims.
