(* ===== verification/Peers.v ===== *)
(** Crate [mutiny-node], the live peer manager of main.rs: which connections the
    node keeps.  The registry of live sessions, the permits of inbound
    handshakes, the slots for announcement workers and the budget of expensive
    requests.

    A session is a number; all clones of it share its flag [closed], which any
    thread can set at any time, so the closed sessions are part of the state.
    The mutex of the registry makes a registration one step, in which other
    threads can close sessions between its two looks at the flags.  No thread
    panics while it holds a mutex, so a mutex is never poisoned.  An address of
    the Internet is its octets, an instant a number of milliseconds. *)

From Stdlib Require Import Strings.Byte Strings.String.
From stdpp Require Import strings gmap.
From S2P Require Import Prelude Crypto P2p Collections NodeState Duplex.

Definition MAX_LIVE_DUPLEX_PEERS : nat := 64.
Definition MAX_INBOUND_DUPLEX_PEERS : nat := 48.
Definition MAX_INBOUND_DUPLEX_PEERS_PER_IP : nat := 8.
Definition MAX_INBOUND_HANDSHAKES : Z := 32.
Definition MAX_INBOUND_HANDSHAKES_PER_IP : Z := 4.
Definition MAX_ANNOUNCE_WORKERS : Z := 16.
Definition MAX_EXPENSIVE_REQUESTS_PER_WINDOW : Z := 16.
Definition EXPENSIVE_REQUEST_WINDOW : Z := 10 * 1000.

(** ** The registry of live sessions *)

Record LiveDuplexPeer := {
  lp_node_id_hex : string;
  lp_address : option string;
  lp_direction : ConnectionDirection;
  lp_source_ip : option bytes;
  lp_session : nat;
}.

(** The counters that a registration changes; the others only count events
    outside of it. *)
Record DuplexManagerCounters := {
  dm_authenticated_candidates : Z;
  dm_accepted_sessions : Z;
  dm_duplicate_drops : Z;
  dm_duplicate_replacements : Z;
  dm_live_peer_cap_drops : Z;
  dm_inbound_live_cap_drops : Z;
  dm_inbound_ip_cap_drops : Z;
}.

Record PeerManager := {
  pm_registry : gmap string LiveDuplexPeer;
  pm_closed : gset nat;
  pm_counters : DuplexManagerCounters;
}.

Definition with_address (address : option string) (p : LiveDuplexPeer) : LiveDuplexPeer :=
  {| lp_node_id_hex := lp_node_id_hex p; lp_address := address; lp_direction := lp_direction p;
     lp_source_ip := lp_source_ip p; lp_session := lp_session p |}.

Definition with_registry (registry : gmap string LiveDuplexPeer) (m : PeerManager) : PeerManager :=
  {| pm_registry := registry; pm_closed := pm_closed m; pm_counters := pm_counters m |}.

(** [session.close()], or the session ends by itself. *)
Definition close_sessions (sessions : gset nat) (m : PeerManager) : PeerManager :=
  {| pm_registry := pm_registry m; pm_closed := sessions ∪ pm_closed m; pm_counters := pm_counters m |}.

Definition counting (f : DuplexManagerCounters -> DuplexManagerCounters) (m : PeerManager) : PeerManager :=
  {| pm_registry := pm_registry m; pm_closed := pm_closed m; pm_counters := f (pm_counters m) |}.

Definition no_counts : DuplexManagerCounters := Build_DuplexManagerCounters 0 0 0 0 0 0 0.
Definition new_live_duplex_registry : PeerManager :=
  {| pm_registry := ∅; pm_closed := ∅; pm_counters := no_counts |}.

(** [counter = counter.saturating_add(1)] *)
Definition bump (z : Z) : Z := saturating_add 64 z 1.
Definition count_candidate (c : DuplexManagerCounters) : DuplexManagerCounters :=
  let '(Build_DuplexManagerCounters a b d e f g h) := c in Build_DuplexManagerCounters (bump a) b d e f g h.
Definition count_accepted (c : DuplexManagerCounters) : DuplexManagerCounters :=
  let '(Build_DuplexManagerCounters a b d e f g h) := c in Build_DuplexManagerCounters a (bump b) d e f g h.
Definition count_duplicate_drop (c : DuplexManagerCounters) : DuplexManagerCounters :=
  let '(Build_DuplexManagerCounters a b d e f g h) := c in Build_DuplexManagerCounters a b (bump d) e f g h.
Definition count_replacement (c : DuplexManagerCounters) : DuplexManagerCounters :=
  let '(Build_DuplexManagerCounters a b d e f g h) := c in Build_DuplexManagerCounters a (bump b) d (bump e) f g h.
Definition count_live_cap_drop (c : DuplexManagerCounters) : DuplexManagerCounters :=
  let '(Build_DuplexManagerCounters a b d e f g h) := c in Build_DuplexManagerCounters a b d e (bump f) g h.
Definition count_inbound_cap_drop (c : DuplexManagerCounters) : DuplexManagerCounters :=
  let '(Build_DuplexManagerCounters a b d e f g h) := c in Build_DuplexManagerCounters a b d e f (bump g) h.
Definition count_ip_cap_drop (c : DuplexManagerCounters) : DuplexManagerCounters :=
  let '(Build_DuplexManagerCounters a b d e f g h) := c in Build_DuplexManagerCounters a b d e f g (bump h).

(** [state.retain(|_, peer| !peer.session.is_closed())] *)
Definition retain_open (m : PeerManager) : PeerManager :=
  with_registry (filter (fun kp => lp_session kp.2 ∉ pm_closed m) (pm_registry m)) m.

Definition inbound_count (m : PeerManager) : nat :=
  size (filter (fun kp : string * LiveDuplexPeer => lp_direction kp.2 = Inbound) (pm_registry m)).

Definition inbound_from (ip : bytes) (m : PeerManager) : nat :=
  size (filter (fun kp : string * LiveDuplexPeer => lp_direction kp.2 = Inbound /\ lp_source_ip kp.2 = Some ip) (pm_registry m)).

(** The returned peers, in the arbitrary order of the map. *)
Definition live_duplex_snapshot (m : PeerManager) : PeerManager * list LiveDuplexPeer :=
  let m := retain_open m in (m, map snd (map_to_list (pm_registry m))).

Definition update_duplex_peer_address (node_id_hex address : string) (m : PeerManager) : PeerManager :=
  with_registry (alter (with_address (Some address)) node_id_hex (pm_registry m)) m.

(** The part of a registration for a node without a live session. *)
Definition register_new (peer : LiveDuplexPeer) (m : PeerManager) : PeerManager * bool :=
  let m := retain_open m in
  let drop_with count := (counting count (close_sessions {[lp_session peer]} m), false) in
  let inbound := bool_decide (lp_direction peer = Inbound) in
  if inbound && (MAX_INBOUND_DUPLEX_PEERS <=? inbound_count m)%nat then drop_with count_inbound_cap_drop
  else if inbound && match lp_source_ip peer with
                     | Some ip => (MAX_INBOUND_DUPLEX_PEERS_PER_IP <=? inbound_from ip m)%nat
                     | None => false
                     end then drop_with count_ip_cap_drop
  else if (MAX_LIVE_DUPLEX_PEERS <=? size (pm_registry m))%nat then drop_with count_live_cap_drop
  else (counting count_accepted (with_registry (<[lp_node_id_hex peer := peer]> (pm_registry m)) m), true).

(** [meanwhile] are the sessions that end after the look at the present session
    of the node and before [retain]. *)
Definition register_duplex_candidate (m : PeerManager) (local_node_id remote_node_id : bytes32)
    (address : option string) (source_ip : option bytes) (direction : ConnectionDirection) (session : nat)
    (meanwhile : gset nat) : PeerManager * node_result bool :=
  let remote_hex := hex_encode remote_node_id in
  let peer address := {| lp_node_id_hex := remote_hex; lp_address := address; lp_direction := direction;
                         lp_source_ip := source_ip; lp_session := session |} in
  if bytes_eqb remote_node_id local_node_id
  then (close_sessions {[session]} m, err "refusing self duplex session") else
  let m := counting count_candidate m in
  let new m := let '(m, accepted) := register_new (peer address) (close_sessions meanwhile m) in (m, Ok accepted) in
  match pm_registry m !! remote_hex with
  | Some current =>
      if bool_decide (lp_session current ∈ pm_closed m)
      then new (with_registry (delete remote_hex (pm_registry m)) m)
      else if candidate_should_replace local_node_id remote_node_id (lp_direction current) direction then
        let m := close_sessions {[lp_session current]} m in
        let address := match address with Some a => Some a | None => lp_address current end in
        (counting count_replacement (with_registry (<[remote_hex := peer address]> (pm_registry m)) m), Ok true)
      else
        let existing := match lp_address current with Some _ => current | None => with_address address current end in
        (counting count_duplicate_drop
           (close_sessions {[session]} (with_registry (<[remote_hex := existing]> (pm_registry m)) m)), Ok false)
  | None => new m
  end.

(** ** Permits for handshakes *)

Record InboundAdmissionState := {
  ia_total : Z;
  ia_by_ip : gmap bytes Z;
}.

(** [Some] is the state in which the caller holds a permit for [ip]. *)
Definition try_acquire_inbound_admission (a : InboundAdmissionState) (ip : bytes) : option InboundAdmissionState :=
  let per_ip := default 0 (ia_by_ip a !! ip) in
  if (MAX_INBOUND_HANDSHAKES <=? ia_total a) || (MAX_INBOUND_HANDSHAKES_PER_IP <=? per_ip) then None
  else Some {| ia_total := ia_total a + 1; ia_by_ip := <[ip := per_ip + 1]> (ia_by_ip a) |}.

(** [Drop] of a permit. *)
Definition release_inbound_admission (a : InboundAdmissionState) (ip : bytes) : InboundAdmissionState :=
  {| ia_total := saturating_sub (ia_total a) 1;
     ia_by_ip := match ia_by_ip a !! ip with
                 | Some count =>
                     let count := saturating_sub count 1 in
                     if count =? 0 then delete ip (ia_by_ip a) else <[ip := count]> (ia_by_ip a)
                 | None => ia_by_ip a
                 end |}.

(** ** Slots for announcement workers

    One round of the loop of [try_acquire_announce_work]: the load, and later
    the exchange, which fails when the counter has changed, and can fail
    without a reason. *)
Inductive Acquirer := Trying | Loaded (current : Z) | Refused | Acquired.

Definition acquire_load (workers : Z) : Acquirer :=
  if MAX_ANNOUNCE_WORKERS <=? workers then Refused else Loaded workers.

Definition acquire_exchange (workers current : Z) (spurious : bool) : Z * Acquirer :=
  if (workers =? current) && negb spurious then (current + 1, Acquired) else (workers, Trying).

(** ** The budget of expensive requests *)

Record ExpensiveRequestBudget := { eb_window_started : Z; eb_used : Z }.

Definition ExpensiveRequestBudget_new (now : Z) : ExpensiveRequestBudget := {| eb_window_started := now; eb_used := 0 |}.

Definition try_consume (b : ExpensiveRequestBudget) (now : Z) : ExpensiveRequestBudget * bool :=
  let b := if EXPENSIVE_REQUEST_WINDOW <=? now - eb_window_started b then ExpensiveRequestBudget_new now else b in
  if MAX_EXPENSIVE_REQUESTS_PER_WINDOW <=? eb_used b then (b, false)
  else ({| eb_window_started := eb_window_started b; eb_used := eb_used b + 1 |}, true).

Definition remaining_until_reset (b : ExpensiveRequestBudget) (now : Z) : Z :=
  Z.max 0 (EXPENSIVE_REQUEST_WINDOW - (now - eb_window_started b)).

Definition reset_and_consume (now : Z) : ExpensiveRequestBudget := {| eb_window_started := now; eb_used := 1 |}.

Definition is_expensive_peer_request (message_type : Z) : bool :=
  existsb (Z.eqb message_type) [MSG_GET_HEADERS; MSG_GET_BLOCK; MSG_GET_TX].

(** How the dispatcher paces a request that arrives at [now]: the budget and the
    time at which it is served, when the clock is read [late] after the refusal
    and the sleep lasts [over] longer than asked for. *)
Definition pace (b : ExpensiveRequestBudget) (message_type now late over : Z) : ExpensiveRequestBudget * Z :=
  if is_expensive_peer_request message_type then
    let '(b, granted) := try_consume b now in
    if granted then (b, now) else
    let now := now + late in
    let now := now + remaining_until_reset b now + over in
    (reset_and_consume now, now)
  else (b, now).

(** ** Histories of the registry *)

Inductive peer_event :=
| Registered (remote_node_id : bytes32) (address : option string) (source_ip : option bytes)
    (direction : ConnectionDirection) (session : nat) (meanwhile : gset nat)
| Ended (session : nat)
| Looked
| Renamed (node_id_hex address : string).

Definition peer_step (local_node_id : bytes32) (m : PeerManager) (ev : peer_event) : PeerManager :=
  match ev with
  | Registered remote address source_ip direction session meanwhile =>
      fst (register_duplex_candidate m local_node_id remote address source_ip direction session meanwhile)
  | Ended session => close_sessions {[session]} m
  | Looked => fst (live_duplex_snapshot m)
  | Renamed node_id_hex address => update_duplex_peer_address node_id_hex address m
  end.

Definition peer_run (local_node_id : bytes32) (events : list peer_event) : PeerManager :=
  fold_left (peer_step local_node_id) events new_live_duplex_registry.

(** The sessions of a history, which are all different. *)
Definition event_sessions (events : list peer_event) : list nat :=
  omap (fun ev => match ev with Registered _ _ _ _ session _ => Some session | _ => None end) events.

Record peers_inv (local_node_id : bytes32) (offered : list nat) (m : PeerManager) : Prop := {
  pi_size : (size (pm_registry m) <= MAX_LIVE_DUPLEX_PEERS)%nat;
  pi_keys : forall k p, pm_registry m !! k = Some p ->
    lp_session p ∈ offered /\ exists id, k = hex_encode id /\ id <> local_node_id /\ lp_node_id_hex p = k;
  pi_distinct : forall k k' p p', pm_registry m !! k = Some p -> pm_registry m !! k' = Some p' ->
    lp_session p = lp_session p' -> k = k';
  pi_offered : forall s, s ∈ offered ->
    s ∈ pm_closed m \/ exists k p, pm_registry m !! k = Some p /\ lp_session p = s;
}.

(** Dropping entries of closed sessions, and closing sessions, keep it. *)
Lemma peers_inv_drop local offered m m' :
  peers_inv local offered m -> pm_registry m' ⊆ pm_registry m -> pm_closed m ⊆ pm_closed m' ->
  (forall k p, pm_registry m !! k = Some p -> pm_registry m' !! k = Some p \/ lp_session p ∈ pm_closed m') ->
  peers_inv local offered m'.
Proof.
  intros [Hs Hk Hd Ho] Hsub Hcl Hdrop. split.
  - etrans; [|exact Hs]. by apply map_subseteq_size.
  - intros k p Hp. apply Hk. by eapply lookup_weaken.
  - intros k k' p p' Hp Hp'. apply Hd; by eapply lookup_weaken.
  - intros s Hin. destruct (Ho s Hin) as [Hc|(k & p & Hp & <-)]; [left; set_solver|].
    destruct (Hdrop k p Hp); [right; by exists k, p|by left].
Qed.

Lemma peers_inv_counting f local offered m : peers_inv local offered (counting f m) <-> peers_inv local offered m.
Proof. split; intros []; by split. Qed.

Lemma peers_inv_close sessions local offered m :
  peers_inv local offered m -> peers_inv local offered (close_sessions sessions m).
Proof. intros H. eapply peers_inv_drop; [exact H|done|set_solver|]. intros k p Hp. by left. Qed.

Lemma peers_inv_retain local offered m : peers_inv local offered m -> peers_inv local offered (retain_open m).
Proof.
  intros H. eapply peers_inv_drop; [exact H|apply map_filter_subseteq|done|]. cbn. intros k p Hp.
  destruct (decide (lp_session p ∈ pm_closed m)); [by right|left]. by apply map_lookup_filter_Some.
Qed.

(** A closed candidate leaves the registry as it was. *)
Lemma peers_inv_refuse session local offered m :
  peers_inv local offered m -> peers_inv local (session :: offered) (close_sessions {[session]} m).
Proof.
  intros [Hs Hk Hd Ho]. split; cbn; [done| |done|].
  - intros k p Hp. destruct (Hk k p Hp) as [H1 H2]. split; [by right|done].
  - intros s [->|Hin]%elem_of_cons; [left; set_solver|]. destruct (Ho s Hin); [left; set_solver|by right].
Qed.

(** A live candidate takes the place of nothing, or of a closed session. *)
Lemma peers_inv_accept id peer local offered m :
  peers_inv local offered m -> id <> local -> lp_node_id_hex peer = hex_encode id -> lp_session peer ∉ offered ->
  (forall p, pm_registry m !! hex_encode id = Some p -> lp_session p ∈ pm_closed m) ->
  (size (<[hex_encode id := peer]> (pm_registry m)) <= MAX_LIVE_DUPLEX_PEERS)%nat ->
  peers_inv local (lp_session peer :: offered) (with_registry (<[hex_encode id := peer]> (pm_registry m)) m).
Proof.
  intros [Hs Hk Hd Ho] Hid Hhex Hnew Hold Hsize. split; cbn; [done| | |].
  - intros k p [[<- <-]|[Hne Hp]]%lookup_insert_Some.
    + split; [by left|]. by exists id.
    + destruct (Hk k p Hp) as [H1 H2]. split; [by right|done].
  - intros k k' p p' [[<- <-]|[Hne Hp]]%lookup_insert_Some [[<- <-]|[Hne' Hp']]%lookup_insert_Some Heq; [done| | |by eapply Hd].
    + exfalso. apply Hnew. rewrite Heq. by apply (Hk _ _ Hp').
    + exfalso. apply Hnew. rewrite <- Heq. by apply (Hk _ _ Hp).
  - intros s [->|Hin]%elem_of_cons.
    { right. exists (hex_encode id), peer. by rewrite lookup_insert_eq. }
    destruct (Ho s Hin) as [|(k & p & Hp & <-)]; [by left|]. destruct (decide (k = hex_encode id)) as [->|Hne].
    + left. by apply Hold.
    + right. exists k, p. by rewrite lookup_insert_ne.
Qed.

Lemma register_new_inv id peer local offered m m' r :
  peers_inv local offered m -> id <> local -> lp_node_id_hex peer = hex_encode id -> lp_session peer ∉ offered ->
  (forall p, pm_registry m !! hex_encode id = Some p -> lp_session p ∈ pm_closed m) ->
  register_new peer m = (m', r) -> peers_inv local (lp_session peer :: offered) m'.
Proof.
  intros H Hid Hhex Hnew Hold. unfold register_new. apply peers_inv_retain in H.
  destruct (_ && _); [intros [= <- _]; by apply peers_inv_counting, peers_inv_refuse|].
  destruct (_ && _); [intros [= <- _]; by apply peers_inv_counting, peers_inv_refuse|].
  destruct (Nat.leb_spec MAX_LIVE_DUPLEX_PEERS (size (pm_registry (retain_open m)))) as [|Hlt];
    [intros [= <- _]; by apply peers_inv_counting, peers_inv_refuse|].
  intros [= <- _]. apply peers_inv_counting. rewrite Hhex. apply (peers_inv_accept id peer local offered (retain_open m)); try done.
  - intros p [Hp _]%map_lookup_filter_Some. by apply Hold.
  - rewrite map_size_insert. destruct (pm_registry (retain_open m) !! hex_encode id); cbn [Datatypes.id]; lia.
Qed.

Lemma register_inv m local remote address source_ip direction session meanwhile offered :
  peers_inv local offered m -> session ∉ offered ->
  peers_inv local (session :: offered)
    (fst (register_duplex_candidate m local remote address source_ip direction session meanwhile)).
Proof.
  intros H Hnew. unfold register_duplex_candidate.
  destruct (bytes_eqb remote local) eqn:Eself; [by apply peers_inv_refuse|]. apply bytes_eqb_neq in Eself.
  set (peer := fun address => Build_LiveDuplexPeer (hex_encode remote) address direction source_ip session).
  assert (peers_inv local offered (counting count_candidate m)) as Hm by by apply peers_inv_counting.
  assert (forall m1, peers_inv local offered m1 ->
    (forall p, pm_registry m1 !! hex_encode remote = Some p -> lp_session p ∈ pm_closed m1) ->
    peers_inv local (session :: offered)
      (fst (let '(m2, accepted) := register_new (peer address) (close_sessions meanwhile m1) in (m2, Ok accepted : node_result bool)))) as Hfresh.
  { intros m1 H1 Hold. destruct (register_new (peer address) (close_sessions meanwhile m1)) as [m2 r] eqn:E. cbn [fst].
    eapply (register_new_inv remote (peer address)); [by apply peers_inv_close|exact Eself|done|done| |exact E].
    cbn. intros p Hp. apply elem_of_union. right. by apply Hold. }
  destruct (pm_registry (counting count_candidate m) !! hex_encode remote) as [current|] eqn:Ec; cbv beta zeta.
  2: { apply Hfresh; [exact Hm|]. intros p Hp. by rewrite Ec in Hp. }
  destruct (bool_decide (lp_session current ∈ _)) eqn:Ed.
  { apply bool_decide_eq_true in Ed. apply Hfresh.
    - eapply peers_inv_drop; [exact Hm|apply delete_subseteq|done|]. cbn. intros k p Hp.
      destruct (decide (k = hex_encode remote)) as [->|]; [right|left; by rewrite lookup_delete_ne]. cbn in Ec. by simplify_eq.
    - cbn. intros p Hp. by rewrite lookup_delete_eq in Hp. }
  destruct (candidate_should_replace _ _ _ _); cbn [fst]; apply peers_inv_counting.
  - change (peers_inv local (lp_session (peer (match address with Some a => Some a | None => lp_address current end)) :: offered)
      (with_registry (<[hex_encode remote := peer (match address with Some a => Some a | None => lp_address current end)]>
        (pm_registry (close_sessions {[lp_session current]} (counting count_candidate m))))
        (close_sessions {[lp_session current]} (counting count_candidate m)))).
    apply peers_inv_accept; [by apply peers_inv_close|exact Eself|done|done| |].
    + cbn. cbn in Ec. intros p Hp. simplify_eq. set_solver.
    + cbn in Ec |- *. rewrite map_size_insert, Ec. cbn. apply (pi_size _ _ _ H).
  - apply peers_inv_refuse. cbn in Ec. destruct H as [Hs Hk Hd Ho].
    assert (forall a, lp_session (match lp_address current with Some _ => current | None => with_address a current end)
      = lp_session current /\ lp_node_id_hex (match lp_address current with Some _ => current | None => with_address a current end)
      = lp_node_id_hex current) as Hsame by (intros a; by destruct (lp_address current)).
    specialize (Hsame address). revert Hsame. generalize (match lp_address current with Some _ => current | None => with_address address current end).
    intros existing [E1 E2]. split; cbn.
    + rewrite map_size_insert, Ec. exact Hs.
    + intros k p [[<- <-]|[_ Hp]]%lookup_insert_Some; [rewrite E1, E2; by apply Hk|by apply Hk].
    + intros k k' p p' [[<- <-]|[_ Hp]]%lookup_insert_Some [[<- <-]|[_ Hp']]%lookup_insert_Some Heq; [done| | |by eapply Hd].
      * rewrite E1 in Heq. by eapply Hd.
      * rewrite E1 in Heq. by eapply Hd.
    + intros s Hin. destruct (Ho s Hin) as [|(k & p & Hp & <-)]; [by left|right].
      destruct (decide (k = hex_encode remote)) as [->|].
      * exists (hex_encode remote), existing. rewrite lookup_insert_eq. simplify_eq. done.
      * exists k, p. by rewrite lookup_insert_ne.
Qed.

Lemma peers_run_inv local events offered m :
  peers_inv local offered m -> NoDup (event_sessions events) -> (forall s, s ∈ event_sessions events -> s ∉ offered) ->
  exists offered', (forall s, s ∈ offered' <-> s ∈ offered \/ s ∈ event_sessions events) /\
    peers_inv local offered' (fold_left (peer_step local) events m).
Proof.
  revert offered m. induction events as [|ev events IH]; intros offered m Hm Hn Hfresh; cbn [fold_left].
  { exists offered. split; [|done]. intros s. cbn. set_solver. }
  destruct ev as [remote address source_ip direction session meanwhile|session| |node_id address]; cbn [peer_step].
  - change (event_sessions (Registered remote address source_ip direction session meanwhile :: events))
      with (session :: event_sessions events) in *. apply NoDup_cons in Hn as [Hs Hn].
    assert (session ∉ offered) as Hnew by (apply Hfresh; by left).
    destruct (IH (session :: offered) _ (register_inv m local remote address source_ip direction session meanwhile offered Hm Hnew) Hn)
      as (offered' & Ho & H).
    { intros s Hin [->|Hin']%elem_of_cons; [done|]. eapply Hfresh; [by right|done]. }
    exists offered'. split; [|done]. intros s. rewrite Ho, !elem_of_cons. tauto.
  - apply (IH offered); [by apply peers_inv_close|done|done].
  - apply (IH offered); [by apply peers_inv_retain|done|done].
  - apply (IH offered); [|done|done]. destruct Hm as [Hs Hk Hd Ho].
    assert (forall k p, pm_registry (update_duplex_peer_address node_id address m) !! k = Some p ->
      exists p0, pm_registry m !! k = Some p0 /\ lp_session p = lp_session p0 /\ lp_node_id_hex p = lp_node_id_hex p0) as Halter.
    { cbn. intros k p Hp. destruct (decide (k = node_id)) as [->|Hne].
      - rewrite lookup_alter_eq in Hp. destruct (pm_registry m !! node_id) as [p0|]; [|done]. cbn in Hp. simplify_eq. by exists p0.
      - rewrite lookup_alter_ne in Hp by done. by exists p. }
    split.
    + cbn. by rewrite <- (size_dom (D := gset string)), dom_alter_L, size_dom.
    + intros k p (p0 & Hp & E1 & E2)%Halter. rewrite E1, E2. by apply Hk.
    + intros k k' p p' (p0 & Hp & E1 & _)%Halter (p1 & Hp' & E2 & _)%Halter Heq. rewrite E1, E2 in Heq. by eapply Hd.
    + intros s Hin. destruct (Ho s Hin) as [|(k & p & Hp & <-)]; [by left|right]. cbn.
      destruct (decide (k = node_id)) as [->|Hne].
      * exists node_id, (with_address (Some address) p). by rewrite lookup_alter_eq, Hp.
      * exists k, p. by rewrite lookup_alter_ne.
Qed.

Lemma filter_insert_size (P : string * LiveDuplexPeer -> Prop) `{!forall x, Decision (P x)} k p (r : gmap string LiveDuplexPeer) :
  (size (filter P (<[k := p]> r)) <= S (size (filter P r)))%nat.
Proof.
  destruct (decide (P (k, p))) as [HP|HP].
  - rewrite map_filter_insert_True by done. rewrite map_size_insert. destruct (_ !! _); cbn; lia.
  - rewrite map_filter_insert_False by done. etrans; [apply map_subseteq_size, map_filter_subseteq_mono, delete_subseteq|lia].
Qed.

(** A fresh inbound session is accepted within the caps on inbound sessions. *)
Lemma register_new_caps peer m m' :
  lp_direction peer = Inbound -> register_new peer m = (m', true) ->
  (inbound_count m' <= MAX_INBOUND_DUPLEX_PEERS)%nat /\
  (forall ip, lp_source_ip peer = Some ip -> (inbound_from ip m' <= MAX_INBOUND_DUPLEX_PEERS_PER_IP)%nat).
Proof.
  intros Hd. unfold register_new. rewrite Hd. rewrite bool_decide_eq_true_2 by done. cbn [andb].
  destruct (Nat.leb_spec MAX_INBOUND_DUPLEX_PEERS (inbound_count (retain_open m))); [done|].
  destruct (match lp_source_ip peer with Some ip => _ | None => _ end) eqn:E; [done|].
  destruct (_ <=? _)%nat; [done|]. intros [= <-]. split.
  - unfold inbound_count in *. cbn [counting with_registry pm_registry].
    etrans; [apply filter_insert_size|exact H].
  - intros ip Hip. rewrite Hip in E. apply Nat.leb_gt in E. unfold inbound_from in *. cbn [counting with_registry pm_registry].
    etrans; [apply filter_insert_size|exact E].
Qed.

(** C22: the node keeps at most 64 live sessions, whatever happens when: every
    session that was offered to it is closed or is the one live session of its
    node, which is not the node itself, so that no accepted connection is lost
    open; and a fresh inbound session is accepted only within the caps on
    inbound sessions, which a session that replaces an outbound one is not
    held to. *)
Theorem live_sessions_bounded (local : bytes32) (events : list peer_event) :
  NoDup (event_sessions events) ->
  let m := peer_run local events in
  (size (pm_registry m) <= 64)%nat /\
  (length (filter (fun s => s ∉ pm_closed m) (event_sessions events)) <= 64)%nat /\
  (forall k p, pm_registry m !! k = Some p -> exists id, k = hex_encode id /\ id <> local) /\
  (forall s, s ∈ event_sessions events -> s ∉ pm_closed m ->
     exists! k, exists p, pm_registry m !! k = Some p /\ lp_session p = s) /\
  (forall remote address ip session meanwhile m',
     register_duplex_candidate m local remote address (Some ip) Inbound session meanwhile = (m', Ok true) ->
     (exists current, pm_registry m !! hex_encode remote = Some current /\ lp_direction current = Outbound) \/
     (inbound_count m' <= 48)%nat /\ (inbound_from ip m' <= 8)%nat).
Proof.
  intros Hn m. assert (peers_inv local [] new_live_duplex_registry) as H0.
  { split; cbn; [rewrite map_size_empty; unfold MAX_LIVE_DUPLEX_PEERS; lia| | |by intros s ?%not_elem_of_nil];
      intros k; intros; rewrite lookup_empty in *; done. }
  destruct (peers_run_inv local events [] _ H0 Hn) as (offered & Ho & [Hs Hk Hd Hof]); [by intros s _ ?%not_elem_of_nil|].
  change (fold_left (peer_step local) events new_live_duplex_registry) with m in *.
  repeat apply conj; [exact Hs| |intros k p Hp; destruct (Hk k p Hp) as [_ (id & H1 & H2 & _)]; by exists id| |].
  - etrans; [|exact Hs]. rewrite <- length_map_to_list, <- (length_map (fun kp => lp_session kp.2)).
    apply submseteq_length, NoDup_submseteq; [by apply NoDup_filter|].
    intros s [Hc Hin]%list_elem_of_filter. destruct (Hof s) as [|(k & p & Hp & <-)]; [apply Ho; by right|done|].
    apply list_elem_of_fmap. exists (k, p). split; [done|by apply elem_of_map_to_list].
  - intros s Hin Hc. destruct (Hof s) as [|(k & p & Hp & He)]; [apply Ho; by right|done|].
    exists k. split; [by exists p|]. intros k' (p' & Hp' & He'). eapply Hd; [done..|congruence].
  - intros remote address ip session meanwhile m' H. unfold register_duplex_candidate in H.
    destruct (bytes_eqb _ _); [done|]. cbn [pm_registry counting] in H.
    destruct (pm_registry m !! hex_encode remote) as [current|] eqn:Ec.
    + destruct (bool_decide _).
      * destruct (register_new _ _) as [m1 b] eqn:E. injection H as <- ->.
        right. apply register_new_caps in E as [H1 H2]; [|done]. split; [exact H1|by apply H2].
      * destruct (candidate_should_replace _ _ _ _) eqn:Er; [|done]. left. exists current. split; [done|].
        unfold candidate_should_replace in Er. by destruct (lp_direction current).
    + destruct (register_new _ _) as [m1 b] eqn:E. injection H as <- ->.
      right. apply register_new_caps in E as [H1 H2]; [|done]. split; [exact H1|by apply H2].
Qed.

(** The caps on inbound sessions do not bound them: 64 nodes that the node has
    dialled, and that dial it back from one address in the preferred direction,
    become 64 inbound sessions of that address. *)
Definition dialled (i : nat) : list peer_event :=
  let id := replicate 31 Byte.x00 ++ [byte_of_Z (Z.of_nat i)] in
  [Registered id None None Outbound (2 * i) ∅; Registered id None (Some [Byte.x0a]) Inbound (2 * i + 1) ∅].

Theorem inbound_caps_bypassed :
  let m := peer_run (replicate 32 Byte.xff) (concat (map dialled (seq 0 64))) in
  inbound_count m = 64%nat /\ inbound_from [Byte.x0a] m = 64%nat.
Proof. vm_compute. split; reflexivity. Qed.

(** ** Permits for handshakes *)

(** The states of the admission, with the addresses of the permits held. *)
Inductive admitted : list bytes -> InboundAdmissionState -> Prop :=
| admitted_none : admitted [] {| ia_total := 0; ia_by_ip := ∅ |}
| admitted_acquire held a ip a' :
    admitted held a -> try_acquire_inbound_admission a ip = Some a' -> admitted (ip :: held) a'
| admitted_release before ip after a :
    admitted (before ++ ip :: after) a -> admitted (before ++ after) (release_inbound_admission a ip).

Definition permits (held : list bytes) (ip : bytes) : Z := Z.of_nat (length (filter (eq ip) held)).

Lemma permits_cons ip' held ip : permits (ip' :: held) ip = permits held ip + (if decide (ip = ip') then 1 else 0).
Proof. unfold permits. rewrite filter_cons. destruct (decide (ip = ip')); cbn [length]; lia. Qed.

Lemma permits_middle before ip' after ip :
  permits (before ++ ip' :: after) ip = permits (before ++ after) ip + (if decide (ip = ip') then 1 else 0).
Proof.
  unfold permits. rewrite !filter_app, filter_cons, !length_app. destruct (decide (ip = ip')); cbn [length]; lia.
Qed.

(** At most 32 handshakes run, at most 4 of them with one address, and the
    counters are exactly the permits that are held: an address without a permit
    has no entry. *)
Lemma handshakes_bounded held a :
  admitted held a ->
  ia_total a = Z.of_nat (length held) /\ (length held <= 32)%nat /\
  (forall ip, default 0 (ia_by_ip a !! ip) = permits held ip /\ permits held ip <= 4) /\
  (forall ip, ia_by_ip a !! ip <> Some 0).
Proof.
  induction 1 as [|held a ip a' _ (Ht & Hl & Hp & Hz) Ha|before ip after a _ (Ht & Hl & Hp & Hz)].
  - split; [done|]. split; [cbn; lia|]. split; intros ip; cbn [ia_by_ip]; rewrite lookup_empty; done.
  - unfold try_acquire_inbound_admission in Ha. destruct (_ || _) eqn:E in Ha; [done|]. injection Ha as <-. bool_to_prop.
    unfold MAX_INBOUND_HANDSHAKES, MAX_INBOUND_HANDSHAKES_PER_IP in *. cbn [ia_total ia_by_ip length].
    split; [lia|]. split; [lia|]. split; intros ip'; destruct (decide (ip = ip')) as [<-|Hne].
    + rewrite lookup_insert_eq, permits_cons, decide_True by done. cbn. destruct (Hp ip). lia.
    + rewrite lookup_insert_ne, permits_cons, decide_False by done. destruct (Hp ip'). lia.
    + rewrite lookup_insert_eq. destruct (Hp ip). assert (0 <= permits held ip) by (unfold permits; lia). intros [= Hbad]. lia.
    + by rewrite lookup_insert_ne.
  - rewrite length_app in *. cbn [length] in *. unfold release_inbound_admission, saturating_sub. cbn [ia_total ia_by_ip].
    split; [lia|]. split; [lia|].
    destruct (Hp ip) as [Hip _]. rewrite permits_middle, decide_True in Hip by done.
    assert (0 <= permits (before ++ after) ip) by (unfold permits; lia).
    destruct (ia_by_ip a !! ip) as [n|] eqn:En; cbn in Hip; [|lia].
    cbv zeta. replace (Z.max (n - 1) 0) with (permits (before ++ after) ip) by lia.
    assert (forall ip', ip' <> ip -> default 0 (ia_by_ip a !! ip') = permits (before ++ after) ip' /\ permits (before ++ after) ip' <= 4) as Hrest.
    { intros ip' Hne. destruct (Hp ip') as [H1 H2]. rewrite permits_middle, decide_False in H1, H2 by done. lia. }
    destruct (Hp ip) as [_ Hmax]. rewrite permits_middle, decide_True in Hmax by done.
    destruct (Z.eqb_spec (permits (before ++ after) ip) 0) as [E0|E0]; split; intros ip'; destruct (decide (ip' = ip)) as [->|Hne].
    + rewrite lookup_delete_eq. cbn. lia.
    + rewrite lookup_delete_ne by done. by apply Hrest.
    + by rewrite lookup_delete_eq.
    + by rewrite lookup_delete_ne.
    + rewrite lookup_insert_eq. cbn. lia.
    + rewrite lookup_insert_ne by done. by apply Hrest.
    + rewrite lookup_insert_eq. congruence.
    + by rewrite lookup_insert_ne.
Qed.

(** ** Slots for announcement workers *)

(** The counter with the threads that want, or hold, a slot.  A thread that
    drops its permit subtracts one and may try again later. *)
Inductive slots_step : Z * list Acquirer -> Z * list Acquirer -> Prop :=
| slot_load n before after : slots_step (n, before ++ Trying :: after) (n, before ++ acquire_load n :: after)
| slot_exchange n current spurious before after :
    slots_step (n, before ++ Loaded current :: after)
      (let '(n', t) := acquire_exchange n current spurious in (n', before ++ t :: after))
| slot_release n before after : slots_step (n, before ++ Acquired :: after) (n - 1, before ++ Trying :: after)
| slot_retry n before after : slots_step (n, before ++ Refused :: after) (n, before ++ Trying :: after).

Definition holding (threads : list Acquirer) : Z :=
  Z.of_nat (length (List.filter (fun t => match t with Acquired => true | _ => false end) threads)).

(** Whatever the interleaving, the counter is the number of slots held, and at
    most 16 are. *)
Lemma announce_slots_bounded threads s :
  holding threads = 0 -> Forall (fun t => t = Trying) threads -> rtc slots_step (0, threads) s ->
  fst s = holding (snd s) /\ holding (snd s) <= MAX_ANNOUNCE_WORKERS.
Proof.
  intros H0 HF. set (inv := fun s : Z * list Acquirer => fst s = holding (snd s) /\ holding (snd s) <= MAX_ANNOUNCE_WORKERS /\
    Forall (fun t => match t with Loaded c => c < MAX_ANNOUNCE_WORKERS | _ => True end) (snd s)).
  assert (forall before t after, holding (before ++ t :: after)
    = holding (before ++ after) + match t with Acquired => 1 | _ => 0 end) as Hh.
  { intros before t after. unfold holding. rewrite !List.filter_app, !length_app. cbn [List.filter].
    destruct t; cbn [length]; lia. }
  assert (forall s s', slots_step s s' -> inv s -> inv s') as Hstep.
  { intros s1 s2 Hs (H1 & H2 & H3). unfold inv. destruct Hs as [n before after|n current spurious before after|n before after|n before after];
      cbn [fst snd] in *; rewrite Hh in H1, H2; apply Forall_app in H3 as [H3 H4]; apply Forall_cons in H4 as [H4 H5].
    - unfold acquire_load. destruct (Z.leb_spec MAX_ANNOUNCE_WORKERS n); rewrite Hh; repeat apply conj; try lia;
        apply Forall_app; split; [done| |done|]; by constructor.
    - unfold acquire_exchange. destruct (Z.eqb_spec n current) as [->|], spurious; cbn [negb andb fst snd]; rewrite Hh; repeat apply conj;
        try lia; apply Forall_app; split; try done; by constructor.
    - rewrite Hh. repeat apply conj; [lia|lia|]. apply Forall_app; split; [done|by constructor].
    - rewrite Hh. repeat apply conj; [lia|lia|]. apply Forall_app; split; [done|by constructor]. }
  intros Hr. assert (inv s) as (H1 & H2 & _); [|done].
  assert (inv (0, threads)) as Hi.
  { split; [done|]. split; [cbn; rewrite H0; done|]. cbn. eapply Forall_impl; [exact HF|]. by intros t ->. }
  clear -Hr Hi Hstep. induction Hr as [|x y z Hxy _ IH]; [done|]. apply IH. by eapply Hstep.
Qed.

(** ** Pacing of expensive requests *)

(** The times at which the dispatcher of one session serves its expensive
    requests: each arrives [gap] after the one before was served. *)
Fixpoint served_times (b : ExpensiveRequestBudget) (clock : Z) (arrivals : list (Z * Z * Z)) : list Z :=
  match arrivals with
  | [] => []
  | (gap, late, over) :: arrivals =>
      let '(b, t) := pace b MSG_GET_BLOCK (clock + gap) late over in t :: served_times b t arrivals
  end.

Definition budget_ok (b : ExpensiveRequestBudget) (clock : Z) : Prop :=
  eb_window_started b <= clock /\ 0 <= eb_used b <= MAX_EXPENSIVE_REQUESTS_PER_WINDOW.

Lemma pace_ok b clock gap late over b' t :
  budget_ok b clock -> 0 <= gap -> 0 <= late -> 0 <= over ->
  pace b MSG_GET_BLOCK (clock + gap) late over = (b', t) ->
  clock <= t /\ budget_ok b' t /\ t < eb_window_started b' + EXPENSIVE_REQUEST_WINDOW /\ 1 <= eb_used b' /\
  (eb_window_started b' = eb_window_started b /\ eb_used b' = eb_used b + 1 \/
   eb_window_started b + EXPENSIVE_REQUEST_WINDOW <= eb_window_started b' /\ eb_used b' = 1).
Proof.
  unfold budget_ok, pace. intros [Hw Hu] Hg Hl Ho. unfold try_consume, remaining_until_reset, reset_and_consume,
    MAX_EXPENSIVE_REQUESTS_PER_WINDOW, EXPENSIVE_REQUEST_WINDOW in *.
  change (is_expensive_peer_request MSG_GET_BLOCK) with true. cbv iota.
  destruct (Z.leb_spec (10 * 1000) (clock + gap - eb_window_started b)).
  - cbn. intros [= <- <-]. cbn. lia.
  - destruct (Z.leb_spec 16 (eb_used b)); intros [= <- <-]; cbn; lia.
Qed.

Lemma served_after b clock arrivals j t :
  budget_ok b clock -> Forall (fun a => 0 <= a.1.1 /\ 0 <= a.1.2 /\ 0 <= a.2) arrivals ->
  served_times b clock arrivals !! j = Some t ->
  eb_window_started b + EXPENSIVE_REQUEST_WINDOW * ((eb_used b + Z.of_nat j) / 16) <= t.
Proof.
  revert b clock j. induction arrivals as [|[[gap late] over] arrivals IH]; intros b clock j Hb HF Hj; [done|].
  apply Forall_cons in HF as [(H1 & H2 & H3) HF]. cbn in H1, H2, H3. cbn [served_times] in Hj.
  destruct (pace b MSG_GET_BLOCK (clock + gap) late over) as [b' t'] eqn:Ep.
  destruct (pace_ok _ _ _ _ _ _ _ Hb H1 H2 H3 Ep) as (Hc & Hb' & _ & _ & Hcase).
  unfold budget_ok, MAX_EXPENSIVE_REQUESTS_PER_WINDOW, EXPENSIVE_REQUEST_WINDOW in *.
  destruct j as [|j]; cbn in Hj.
  - simplify_eq. rewrite Z.add_0_r. destruct Hcase as [[E1 E2]|[E1 E2]].
    + rewrite Z.div_small by lia. lia.
    + assert (eb_used b / 16 <= 1) by (apply Z.div_le_upper_bound; lia). lia.
  - specialize (IH b' t' j Hb' HF Hj). destruct Hcase as [[E1 E2]|[E1 E2]]; rewrite E2 in IH.
    + replace (eb_used b + Z.of_nat (S j)) with (eb_used b + 1 + Z.of_nat j) by lia. lia.
    + assert ((eb_used b + Z.of_nat (S j)) / 16 <= (1 + Z.of_nat j) / 16 + 1).
      { rewrite <- Z.div_add by lia. apply Z.div_le_mono; lia. }
      lia.
Qed.

(** Of the expensive requests of one session, at most 32 are served within any
    10 seconds, however they arrive and whatever the scheduler adds. *)
Theorem expensive_requests_paced (start : Z) (arrivals : list (Z * Z * Z)) (i : nat) (t t' : Z) :
  Forall (fun a => 0 <= a.1.1 /\ 0 <= a.1.2 /\ 0 <= a.2) arrivals ->
  let times := served_times (ExpensiveRequestBudget_new start) start arrivals in
  times !! i = Some t -> times !! (i + 32)%nat = Some t' -> t + EXPENSIVE_REQUEST_WINDOW <= t'.
Proof.
  intros HF times. assert (budget_ok (ExpensiveRequestBudget_new start) start) as Hb.
  { unfold budget_ok, MAX_EXPENSIVE_REQUESTS_PER_WINDOW. cbn. lia. }
  subst times. revert Hb HF. generalize (ExpensiveRequestBudget_new start) as b. generalize start as clock.
  induction arrivals as [|[[gap late] over] arrivals IH] in i |- *; intros clock b Hb HF Hi Hj; [done|].
  apply Forall_cons in HF as [(H1 & H2 & H3) HF]. cbn in H1, H2, H3. cbn [served_times] in Hi, Hj.
  destruct (pace b MSG_GET_BLOCK (clock + gap) late over) as [b' t0] eqn:Ep.
  destruct (pace_ok _ _ _ _ _ _ _ Hb H1 H2 H3 Ep) as (Hc & Hb' & Hw & Hu & _).
  destruct i as [|i]; cbn in Hi, Hj; [|by eapply IH].
  simplify_eq. pose proof (served_after _ _ _ _ _ Hb' HF Hj) as Hs.
  assert (2 <= (eb_used b' + Z.of_nat 31) / 16) by (apply Z.div_le_lower_bound; lia).
  unfold EXPENSIVE_REQUEST_WINDOW in *. lia.
Qed.

(** Two nodes that dial and are dialled, one of which hangs up. *)
Lemma live_sessions_bounded_witness :
  exists events, NoDup (event_sessions events) /\ length (event_sessions events) = 4%nat /\
    (size (pm_registry (peer_run (replicate 32 Byte.xff) events)) <= 64)%nat.
Proof.
  set (events := dialled 1 ++ [Ended 2; Looked; Renamed "a"%string "b"%string] ++ dialled 2).
  assert (NoDup (event_sessions events)) as Hn by (apply (bool_decide_unpack _); vm_compute; exact I).
  exists events. split; [exact Hn|]. split; [reflexivity|].
  destruct (live_sessions_bounded (replicate 32 Byte.xff) events Hn) as [H _]. exact H.
Defined.

Lemma expensive_requests_paced_witness :
  let arrivals := replicate 40 (0, 0, 0) in
  let times := served_times (ExpensiveRequestBudget_new 0) 0 arrivals in
  times !! 0%nat = Some 0 /\ times !! (0 + 32)%nat = Some 20000 /\ 0 + EXPENSIVE_REQUEST_WINDOW <= 20000.
Proof.
  split; [vm_compute; reflexivity|]. split; [vm_compute; reflexivity|].
  apply (expensive_requests_paced 0 (replicate 40 (0, 0, 0)) 0 0 20000); [|vm_compute; reflexivity..].
  apply Forall_replicate. cbn. lia.
Defined.
