(* ===== verification/NodeSyncFacts.v ===== *)
(** What a synchronisation does ([mutiny-node/src/blocksync.rs]): whatever the
    peer sends, the node ends on a chain that it validated itself, which is its
    own or has strictly more work. *)

From Stdlib Require Import Strings.Byte Strings.String.
From stdpp Require Import strings pretty.
From S2P Require Import Prelude Crypto Consensus Codec State Transaction Protocol ProtocolRules P2p Collections NodeState Economy NodePresence NodePunishment NodeUtxo NodeDividends NodeBitcoin NodePurchase NodeRoots NodeBootstrap NodeEpoch NodeMempool NodeOperations NodeBlocks NodePayload NodeReorg NodeChain NodeCore NodeSync NodeReplay NodeAgreement.

(** ** Results of sessions *)

(** Whatever the other side sends, a result satisfies [Q]. *)
Definition ensures {E A} (Q : A -> Prop) (s : session E A) : Prop :=
  forall eof input a out rest, play eof s input = (Ok a, out, rest) -> Q a.

Lemma ensures_bind {E A B} (P : A -> Prop) (Q : B -> Prop) (s : session E A) (f : A -> session E B) :
  ensures P s -> (forall a, P a -> ensures Q (f a)) -> ensures Q (session_bind s f).
Proof.
  intros Hs Hf eof input b out rest (a & o1 & r1 & o2 & H1 & H2 & _)%run_bind_ok.
  eapply Hf; [|exact H2]. by eapply Hs.
Qed.

Lemma ensures_lift {E A} (Q : A -> Prop) (r : result E A) : (forall a, r = Ok a -> Q a) -> ensures Q (lift r).
Proof. intros H eof input a out rest (-> & _)%run_lift_ok. by apply H. Qed.

Lemma ensures_ok {E A} (Q : A -> Prop) (a : A) : Q a -> ensures Q (Done (E := E) (Ok a)).
Proof. intros H eof input b out rest. cbn. by intros [= <- _ _]. Qed.

Lemma ensures_err {E A} (Q : A -> Prop) (e : E) : ensures Q (Done (A := A) (Err e)).
Proof. by intros eof input b out rest. Qed.

Lemma ensures_any {E A} (s : session E A) : ensures (fun _ => True) s.
Proof. done. Qed.

Lemma ensures_weaken {E A} (P Q : A -> Prop) (s : session E A) : (forall a, P a -> Q a) -> ensures P s -> ensures Q s.
Proof. intros H Hs eof input a out rest Ha. by eapply H, Hs. Qed.

Definition map_fst_ok {E A} (p : result E A * bytes * bytes) : option (A * bytes * bytes) :=
  match p with (Ok a, out, rest) => Some (a, out, rest) | (Err _, _, _) => None end.

(** The error at the end of the stream does not matter to a success. *)
Lemma play_map_err {E F A} (f : E -> F) (e : E) (e' : F) (s : session E A) input a out rest :
  play e' (session_map_err f s) input = (Ok a, out, rest) <-> play e s input = (Ok a, out, rest).
Proof.
  assert (map_fst_ok (play e' (session_map_err f s) input) = map_fst_ok (play e s input)) as H.
  { revert input out. induction s as [[x|x]|bs k IH|n k IH]; intros input out; cbn [session_map_err play map_err].
    - done.
    - done.
    - specialize (IH input out). by destruct (play e' (session_map_err f k) input) as [[[b|] o] r],
        (play e k input) as [[[b'|] o'] r']; simplify_eq/=.
    - destruct (_ <? n)%nat; [done|]. by apply IH. }
  destruct (play e' (session_map_err f s) input) as [[[b|] o] r], (play e s input) as [[[b'|] o'] r'];
    split; intros ?; simplify_eq/=; done.
Qed.

Lemma ensures_peer {A} (Q : A -> Prop) (s : session P2pError A) :
  (forall input a out rest, run_session s input = (Ok a, out, rest) -> Q a) -> ensures Q (peer_call s).
Proof. intros H eof input a out rest Ha%(play_map_err _ Io). by eapply H. Qed.

(** Goes through a session from its start. *)
Ltac ensures_step :=
  match goal with
  | |- ensures _ (Done (Ok _)) => apply ensures_ok
  | |- ensures _ (Done (Err _)) => apply ensures_err
  | |- ensures _ (session_bind _ _) => eapply ensures_bind; [apply ensures_any|intros ? _]
  | |- ensures _ (if ?b then _ else _) => destruct b eqn:?
  | |- ensures _ (let '_ := ?p in _) => destruct p
  end.

Section sync.
Context {SHA : Sha2} {ED : Ed25519} {AR : Argon2}.
Context (fuel : nat) (saved : node_result DevnetState).

Lemma await_response_payload remaining id ty label :
  ensures (fun f => Z.of_nat (length (fr_payload f)) <= MAX_P2P_PAYLOAD) (await_response saved remaining id ty label).
Proof.
  induction remaining as [|remaining IH]; cbn [await_response].
  - eapply ensures_bind.
    { apply ensures_peer. intros input f out rest (Hf & _)%run_read_from. exact Hf. }
    intros f Hf. destruct (_ && _); [|apply ensures_err]. apply ensures_ok. apply Hf.
  - eapply ensures_bind.
    { apply ensures_peer. intros input f out rest (Hf & _)%run_read_from. exact Hf. }
    intros f Hf. destruct (_ && _); [apply ensures_ok, Hf|]. destruct (_ =? 0); [done|].
    eapply ensures_bind; [apply ensures_any|]. intros [] _; [done|apply ensures_err].
Qed.

(** A block that came over the connection. *)
Definition received_block (hash : bytes32) (block : bytes * list TransactionV1 * list ProtocolOperationV1) : Prop :=
  exists payload, Z.of_nat (length payload) <= MAX_P2P_PAYLOAD /\ decode_block_payload payload = Ok block /\
    block_hash block.1.1 = hash.

Lemma request_block_ensures hash : ensures (received_block hash) (request_block saved hash).
Proof.
  unfold request_block, read_expected_persistent_response. eapply ensures_bind; [apply ensures_any|]. intros _ _.
  eapply ensures_bind; [apply await_response_payload|]. intros f Hf.
  eapply (ensures_bind (fun b => decode_block_payload (fr_payload f) = Ok b)); [by apply ensures_lift|].
  intros block Hb. destruct (negb _) eqn:E; [apply ensures_err|]. apply ensures_ok. bool_to_prop.
  by exists (fr_payload f).
Qed.

(** *** Chain work *)

Lemma block_work_pos target : is32 target -> 0 < block_work target.
Proof.
  intros H. pose proof (be_val_range 32 target H). unfold block_work. change (256 ^ Z.of_nat 32) with (2 ^ 256) in *.
  assert (1 <= 2 ^ 256 / (be_val target + 1)); [|lia]. apply Z.div_le_lower_bound; lia.
Qed.

Definition add_work (total : Z) (block : BlockState) : node_result Z :=
  let? target := decode32 (bk_target block) in Ok (total + block_work target).

Lemma chainwork_snoc s s' b w target :
  ds_blocks s' = ds_blocks s ++ [b] -> chainwork s = Ok w -> decode32 (bk_target b) = Ok target ->
  chainwork s' = Ok (w + block_work target).
Proof. intros Hb Hw Ht. unfold chainwork in *. rewrite Hb, fold_result_snoc, Hw. by rewrite Ht. Qed.

Lemma chainwork_core s t : same_core s t -> chainwork t = chainwork s.
Proof. intros H. by rewrite (same_core_inv s t H). Qed.

Lemma accepted_target s header txs ops s' hash :
  length header = 272%nat -> validate_and_apply_block fuel s header txs ops = Ok (s', hash) ->
  exists b target, ds_blocks s' = ds_blocks s ++ [b] /\ decode32 (bk_target b) = Ok target.
Proof.
  intros Hl [[f hd t o E|next license weight e post h _ Hn _ _ _ _ Hb Hh Ht Ho _ ->] _]%validate_accepted.
  - unfold build_devnet_bootstrap_transition in E. pass_checks E.
    apply Ok_inj in E. apply pair_inj in E as [[[[<- _]%pair_inj _]%pair_inj _]%pair_inj _].
    eexists _, _. split; [fields; reflexivity|]. cbn [bk_target]. apply decode32_encode.
    match goal with E : map_err FromConsensus ?r = Ok ?t |- is32 ?t =>
      destruct r eqn:Er; [|discriminate E]; apply Ok_inj in E as <-; by eapply derive_target_length end.
  - exists (block_record e), (bh_target h). destruct (commit_fields e post) as (_ & _ & _ & _ & _ & _ & _ & F8 & _).
    pose proof (ba_fields _ _ _ _ _ _ _ _ Hb) as Hf.
    apply ba_post, post_operations_frame, ops_frame_chain in Hb as (_ & _ & Hb & _). fields.
    pose proof (sc_blocks _ _ (enter_epoch_same _ _ _ Hn)). split; [congruence|].
    unfold block_record. cbn [bk_target]. rewrite Hf. apply decode32_encode. subst h. unfold read_header_core. cbn [bh_target].
    by rewrite length_slice by (rewrite ?length_take; lia).
Qed.

Lemma step_work s s' w :
  node_step fuel s s' -> chainwork s = Ok w -> exists w', chainwork s' = Ok w' /\ w <= w'.
Proof.
  intros [payload header txs ops s0 s1 hash _ Hd H _|through s0 s1 H|x s0] Hw.
  - apply decode_payload_iff in Hd as [(Hl & _) _].
    destruct (accepted_target _ _ _ _ _ _ Hl H) as (b & target & Hb & Ht).
    exists (w + block_work target). split; [by eapply chainwork_snoc|].
    pose proof (block_work_pos target (decode32_length _ _ Ht)). lia.
  - exists w. split; [|lia]. unfold chainwork. by rewrite (sc_blocks _ _ (proj1 (advance_empty_epochs_same _ _ _ H))).
  - by exists w.
Qed.

Lemma run_work s s' w : rtc (node_step fuel) s s' -> chainwork s = Ok w -> exists w', chainwork s' = Ok w' /\ w <= w'.
Proof.
  intros Hrun. revert w. induction Hrun as [s|s t u Hst _ IH]; intros w Hw; [by exists w|].
  destruct (step_work _ _ _ Hst Hw) as (w1 & H1 & Hle). destruct (IH w1 H1) as (w2 & H2 & Hle2). exists w2. split; [done|lia].
Qed.

Lemma genesis_work g : genesis_state g -> chainwork g = Ok 0.
Proof. intros H. unfold chainwork. by rewrite (gs_blocks g H). Qed.

(** *** Blocks that arrive *)

(** Before the first block no epoch has passed. *)
Definition unstarted (s : DevnetState) : Prop := 0 <= ds_height s /\ (ds_height s = 0 -> ds_tip_epoch s <= 0).

Lemma unstarted_legacy s header txs ops r :
  unstarted s -> validate_and_apply_block fuel s header txs ops = Ok r -> legacy_start s header.
Proof.
  intros [_ Hu] H Hf Hh. specialize (Hu Hh). unfold validate_and_apply_block in H.
  destruct (runtime_for_state s) as [runtime|]; [|done]. destruct (_ && _); [done|]. cbv zeta in H.
  destruct (is_bootstrap_block s ops).
  - exfalso. unfold validate_and_apply_devnet_block1, build_devnet_bootstrap_transition, check_pristine in H.
    by destruct (Z.ltb_spec (ds_format_version s) 10); [|lia].
  - set (h := read_header_core _) in *. unfold check_position in H. destruct (_ || _) in H; [done|].
    rewrite Hh in H. change (0 <? 0) with false in H. rewrite andb_false_r in H. cbn [Z.eqb andb] in H.
    change ACTIVATION_DELAY_EPOCHS with 64 in H. destruct (Z.ltb_spec (bh_epoch h) 64); [done|lia].
Qed.

Lemma received_step s hash block s' r :
  received_block hash block -> unstarted s ->
  validate_and_apply_block fuel s block.1.1 block.1.2 block.2 = Ok (s', r) ->
  node_step fuel s s' /\ unstarted s' /\ exists b target, ds_blocks s' = ds_blocks s ++ [b] /\ decode32 (bk_target b) = Ok target.
Proof.
  intros (payload & Hl & Hd & _) Hu H. destruct block as [[header txs] ops]. cbn [fst snd] in H.
  pose proof (accepted_fields _ _ _ _ _ _ _ H) as [Hh _]. split_and!.
  - eapply step_received; [exact Hl|exact Hd|exact H|]. by eapply unstarted_legacy.
  - destruct Hu. split; lia.
  - apply decode_payload_iff in Hd as [(Hlen & _) _]. by eapply accepted_target.
Qed.

Lemma download_ensures mismatch headers candidate w :
  unstarted candidate -> chainwork candidate = Ok w ->
  ensures (fun s => rtc (node_step fuel) candidate s /\ exists w', chainwork s = Ok w' /\
             (headers <> [] -> w < w') /\ w <= w')
    (download_blocks fuel saved mismatch headers candidate).
Proof.
  revert candidate w; induction headers as [|header headers IH]; intros candidate w Hu Hw; cbn [download_blocks].
  { apply ensures_ok. split; [done|]. exists w. split_and!; [done|done|lia]. }
  eapply ensures_bind; [apply request_block_ensures|]. intros [[wire_header txs] ops] Hb.
  destruct (negb _) eqn:E; [apply ensures_err|]. bool_to_prop. subst wire_header.
  eapply (ensures_bind (fun p => validate_and_apply_block fuel candidate header txs ops = Ok p));
    [by apply ensures_lift|]. intros [next hash] H.
  pose proof (received_step _ _ _ _ _ Hb Hu H) as (Hstep & Hu' & b & target & Hbl & Ht).
  pose proof (chainwork_snoc _ _ _ _ _ Hbl Hw Ht) as Hw'.
  pose proof (block_work_pos target (decode32_length _ _ Ht)).
  eapply ensures_weaken; [|by apply IH]. intros s (Hrun & w' & Hw2 & _ & Hle). split; [by eapply rtc_l|].
  exists w'. split_and!; [done|lia|lia].
Qed.

(** *** What the node does with a validated branch *)

Lemma archive_core target source fork t : archive_branch target source fork = Ok t -> same_core target t.
Proof.
  unfold archive_branch. destruct (_ <=? _); [by intros <-%Ok_inj|]. destruct (_ <? _); [done|].
  destruct (is_empty _); [by intros <-%Ok_inj|]. destruct (existsb _ _); [by intros <-%Ok_inj|].
  destruct (chainwork_hex source) as [w|]; [|done]. by intros <-%Ok_inj.
Qed.

Lemma restore_transaction_core confirmed bound acc p :
  same_core acc.1.1 (restore_transaction confirmed bound acc p).1.1.
Proof.
  unfold restore_transaction. destruct acc as [[a seen] n]. destruct (bool_decide _); [done|]. destruct (bool_decide _); [done|].
  destruct (_ && _); [done|]. by destruct (validate_pending_candidate _ _ _).
Qed.

Lemma restore_operation_core txids acc p acc' : restore_operation txids acc p = Ok acc' -> same_core acc.1 acc'.1.
Proof.
  unfold restore_operation. destruct acc as [a seen]. destruct (_ && _); [by intros <-%Ok_inj|].
  destruct (PendingProtocolOperationState_operation p) as [op|]; [|done].
  destruct (operation_restorable a op) as [ready|]; [|done]. destruct (negb ready); [by intros <-%Ok_inj|].
  destruct (bool_decide _); by intros <-%Ok_inj.
Qed.

Lemma restore_core adopted old common s n : restore_reorg_mempool adopted old common = Ok (s, n) -> same_core adopted s.
Proof.
  unfold restore_reorg_mempool. destruct (fold_result (block_candidates _ _) _ _) as [[cs os]|]; [|done].
  destruct (fold_left _ _ _) as [[a seen] k] eqn:E1.
  assert (same_core adopted a) as H1.
  { change a with (a, seen, k).1.1. rewrite <- E1. clear E1.
    change adopted with (adopted, ∅ : gset string, 0).1.1 at 1. generalize (adopted, ∅ : gset string, 0).
    induction cs as [|c cs IH]; intros acc; cbn [fold_left]; [done|].
    etrans; [apply restore_transaction_core|apply IH]. }
  destruct (fold_result (restore_operation _) _ _) as [[a2 seen2]|] eqn:E2; [|done].
  intros [<- _]%Ok_inj%pair_inj. etrans; [exact H1|].
  assert (same_core a a2) as H2; [|etrans; [exact H2|done]].
  apply (fold_result_ind _ (fun acc => same_core a acc.1)) in E2; [done| |done].
  intros acc o acc' Hs Hacc. etrans; [exact Hacc|]. by eapply restore_operation_core.
Qed.

Lemma local_step s t : same_core s t -> node_step fuel s t.
Proof. intros H. rewrite (same_core_inv s t H). apply step_local. Qed.

(** A branch is only adopted when it has strictly more work. *)
Lemma reconcile_ok g s remote n s' r w :
  rtc (node_step fuel) g s -> rtc (node_step fuel) g remote -> chainwork s = Ok w ->
  reconcile_validated_remote s remote n = Ok (s', r) ->
  rtc (node_step fuel) g s' /\ exists w', chainwork s' = Ok w' /\ (same_core s s' \/ w < w').
Proof.
  intros Hs Hr Hw. unfold reconcile_validated_remote. rewrite Hw. destruct (chainwork remote) as [rw|] eqn:Erw; [|done].
  destruct (Z.leb_spec rw w).
  - destruct (archive_branch s remote _) as [t|] eqn:E; [|done]. intros [<- _]%Ok_inj%pair_inj.
    apply archive_core in E. split; [eapply rtc_r; [exact Hs|by apply local_step]|].
    exists w. split; [rewrite (chainwork_core _ _ E); exact Hw|by left].
  - destruct (archive_branch _ s _) as [t|] eqn:E; [|done]. apply archive_core in E.
    destruct (restore_reorg_mempool t s _) as [[u k]|] eqn:E2; [|done]. intros [<- _]%Ok_inj%pair_inj.
    apply restore_core in E2. assert (same_core remote u) as Hu by (etrans; [|exact E2]; etrans; [|exact E]; done).
    split; [eapply rtc_r; [exact Hr|by apply local_step]|]. exists rw. split; [rewrite (chainwork_core _ _ Hu); exact Erw|by right].
Qed.

(** *** Replay is a run *)

Lemma encoded_payload_length b payload :
  encode_block_payload b = Ok payload -> Z.of_nat (length payload) <= MAX_P2P_PAYLOAD.
Proof.
  unfold encode_block_payload. destruct (hex_bytes _) as [h|]; [|done]. destruct (negb _); [done|].
  destruct (map_result stored_transaction _) as [ts|]; [|done]. destruct (map_result stored_operation _) as [os|]; [|done].
  destruct (Z.ltb_spec MAX_P2P_PAYLOAD (Z.of_nat (length (write_varuint (write_varuint h (Z.of_nat (length (bk_transactions b)))
     ++ concat ts) (Z.of_nat (length (bk_protocol_operations b))) ++ concat os)))); [done|]. by intros <-%Ok_inj.
Qed.

Lemma replay_run blocks r r' :
  unstarted r -> fold_result (replay_block fuel) r blocks = Ok r' -> rtc (node_step fuel) r r' /\ unstarted r'.
Proof.
  revert r; induction blocks as [|b blocks IH]; intros r Hu; cbn [fold_result]; [by intros <-%Ok_inj|].
  destruct (replay_block fuel r b) as [r1|] eqn:E; [|done]. intros H. unfold replay_block in E.
  destruct (encode_block_payload b) as [payload|] eqn:Ep; [|done]. apply encoded_payload_length in Ep.
  destruct (decode_block_payload payload) as [[[header txs] ops]|] eqn:Ed; [|done].
  destruct (validate_and_apply_block fuel r header txs ops) as [[x hash]|] eqn:Ev; [|done]. apply Ok_inj in E as ->.
  assert (received_block (block_hash header) (header, txs, ops)) as Hrec by (by exists payload).
  destruct (received_step _ _ _ _ _ Hrec Hu Ev) as (Hstep & Hu1 & _).
  destruct (IH r1 Hu1 H) as [Hrun Hu']. split; [by eapply rtc_l|done].
Qed.

Lemma genesis_unstarted g : genesis_state g -> unstarted g.
Proof. intros H. split; [by rewrite (gs_height g H)|]. by rewrite (gs_tip_epoch g H). Qed.

Lemma rewind_run g s r :
  reset_for_replay g = Ok g -> rtc (node_step fuel) g s -> rewind_empty_epochs fuel s = Ok r ->
  rtc (node_step fuel) g r /\ unstarted r /\ ds_blocks r = ds_blocks s.
Proof.
  intros Hg Hrun. pose proof (reset_genesis _ _ Hg) as Hgs.
  pose proof (run_replayable fuel g s Hgs Hrun) as [(r0 & Hr & (a & Ha & Hc) & _) _].
  unfold rewind_empty_epochs, replay_canonical_blocks. rewrite (origin_run fuel g s Hg Hrun), Hr. intros <-%Ok_inj.
  destruct (replay_run _ _ _ (genesis_unstarted g Hgs) Hr) as [Hrun0 Hu]. split_and!.
  - eapply rtc_r; [exact Hrun0|]. by apply local_step.
  - exact Hu.
  - change (ds_blocks r0 = ds_blocks s). pose proof (advance_empty_epochs_same _ _ _ Ha) as [Hs _].
    rewrite <- (sc_blocks _ _ Hs). by rewrite (same_core_inv a s Hc).
Qed.

Lemma collect_ensures rounds :
  ensures (fun p => Z.of_nat (length p.2) = p.1) (collect_remote_headers saved rounds).
Proof.
  unfold collect_remote_headers. eapply ensures_bind; [apply ensures_any|]. intros [height first] _.
  destruct (Z.eqb_spec height 0) as [->|]; [by apply ensures_ok|].
  eapply ensures_bind; [apply ensures_any|]. intros headers _. destruct (negb _) eqn:E; [apply ensures_err|].
  apply ensures_ok. by bool_to_prop.
Qed.

Lemma unstarted_current g s :
  genesis_state g -> rtc (node_step fuel) g s -> (canonical_epoch s <? ds_tip_epoch s) = false -> unstarted s.
Proof.
  intros Hg Hrun He. destruct (run_replayable fuel g s Hg Hrun) as [_ Hh]. split; [lia|].
  intros H0. assert (ds_blocks s = []) as Hb by (destruct (ds_blocks s); [done|cbn in Hh; lia]).
  unfold canonical_epoch in He. rewrite Hb in He. cbn in He. lia.
Qed.

(** C2: synchronisation never gives up work.  Whatever bytes a peer sends, a
    synchronisation that returns leaves the node on a chain that follows from
    genesis by blocks that the node validated itself, and that chain is the one
    it had, or its total work is strictly larger. *)
Theorem sync_keeps_heaviest g s rounds :
  reset_for_replay g = Ok g -> rtc (node_step fuel) g s ->
  ensures (fun p => rtc (node_step fuel) g p.1 /\
             exists w w', chainwork s = Ok w /\ chainwork p.1 = Ok w' /\ (same_core s p.1 \/ w < w'))
    (sync_state_from_peer_persistent fuel saved rounds s).
Proof.
  intros Hg Hrun. pose proof (reset_genesis _ _ Hg) as Hgs.
  destruct (run_work _ _ 0 Hrun (genesis_work g Hgs)) as (w & Hw & _).
  assert (forall r, ensures (fun p : DevnetState * SyncReport => rtc (node_step fuel) g p.1 /\
             exists w w', chainwork s = Ok w /\ chainwork p.1 = Ok w' /\ (same_core s p.1 \/ w < w'))
            (Done (E := NodeError) (Ok (s, r)))) as Hkeep.
  { intros r. apply ensures_ok. split; [done|]. exists w, w. split_and!; [done..|by left]. }
  unfold sync_state_from_peer_persistent. eapply ensures_bind; [apply ensures_any|]. intros runtime _.
  destruct (negb _); [apply ensures_err|]. eapply ensures_bind; [apply collect_ensures|].
  intros [height headers] Hlen. cbn [fst snd] in Hlen. destruct (height =? 0); [apply Hkeep|].
  destruct (_ && same_tip s headers); [apply Hkeep|].
  destruct (_ && (ds_height s <? height)) eqn:Eext.
  - apply andb_true_iff in Eext as [_ Eext]. apply Z.ltb_lt in Eext.
    eapply (ensures_bind (fun c => rtc (node_step fuel) g c /\ unstarted c /\ ds_blocks c = ds_blocks s)).
    { apply ensures_lift. intros c. destruct (canonical_epoch s <? ds_tip_epoch s) eqn:E; [by apply rewind_run|].
      intros <-%Ok_inj. split_and!; [done|by eapply unstarted_current|done]. }
    intros c (Hc & Hu & Hb). assert (chainwork c = Ok w) as Hcw by (unfold chainwork; by rewrite Hb).
    eapply ensures_bind; [by apply download_ensures|]. intros c' (Hrun' & w' & Hw' & Hlt & _). apply ensures_ok.
    split; [by etrans|]. exists w, w'. split_and!; [done|done|]. right. apply Hlt. intros Hnil.
    apply (f_equal length) in Hnil. rewrite length_drop in Hnil. cbn in Hnil.
    destruct (run_replayable fuel g s Hgs Hrun) as [_ Hh]. lia.
  - clear Eext. destruct (_ && _); [apply Hkeep|]. eapply (ensures_bind (fun r => r = g)).
    { apply ensures_lift. intros r. rewrite (origin_run fuel g s Hg Hrun). by intros <-%Ok_inj. }
    intros r ->. eapply ensures_bind; [apply (download_ensures _ _ _ 0); [by apply genesis_unstarted|by apply genesis_work]|].
    intros remote (Hrem & _). apply ensures_lift. intros [s' rep] H.
    apply (reconcile_ok g s remote _ s' rep w) in H as (H1 & w' & Hw' & Hor); [|done..].
    split; [done|]. by exists w, w'.
Qed.
End sync.
