(* ===== verification/NodeBody.v ===== *)
(** What the hash of a block commits to, and what a node stores of the blocks
    it accepted ([mutiny-node/src/blocksync.rs]). *)

From Stdlib Require Import Strings.Byte Strings.String.
From stdpp Require Import strings pretty.
From S2P Require Import Prelude Crypto Consensus Codec State Merkle Transaction Protocol ProtocolRules P2p Collections NodeState Economy NodePresence NodePunishment NodeUtxo NodeDividends NodeBitcoin NodePurchase NodeRoots NodeBootstrap NodeEpoch NodeMempool NodeOperations NodeBlocks NodePayload NodeReorg NodeChain NodeCore NodeSync NodeReplay NodeAgreement.

Section body.
Context {SHA : Sha2} {ED : Ed25519} {AR : Argon2}.
Context (fuel : nat).

(** The header commits to the transactions, whose coinbase commits to the
    operations. *)
Definition body_commitment (header : bytes) (txs : list TransactionV1) (ops : list ProtocolOperationV1) : Prop :=
  merkle_root (map TransactionV1_leaf txs) = Some (bh_tx_root (read_header_core (take 208 header))) /\
  exists coinbase c, head txs = Some coinbase /\ tc_inputs (tx_core coinbase) = [Coinbase c] /\
    protocol_operations_root ops = Ok (cc_protocol_operations_root c).

(** Everything a node hashes of a block for its hash: the header, and the
    messages of the two roots. *)
Definition header_message (header : bytes) : bytes := domain_message domains.BLOCK_ID [header].

Definition block_messages (header : bytes) (txs : list TransactionV1) (ops : list ProtocolOperationV1) : list bytes :=
  header_message header :: merkle_root_messages txs ++ operations_root_messages ops.

Lemma commitment_binds header txs ops txs' ops' :
  Forall tx_wf txs -> Forall tx_wf txs' -> Forall operation_wf ops -> Forall operation_wf ops' ->
  body_commitment header txs ops -> body_commitment header txs' ops' ->
  (txs = txs' /\ ops = ops') \/ collides (block_messages header txs ops) (block_messages header txs' ops').
Proof.
  intros Ht Ht' Ho Ho' [Hm (cb & c & Hh & Hi & Hr)] [Hm' (cb' & c' & Hh' & Hi' & Hr')]. unfold block_messages.
  destruct (merkle_root_inj_or txs txs') as [<-|Hc];
    [by intros ->|by intros ->|done|done|by rewrite Hm, Hm'| |right; more_messages Hc].
  rewrite Hh in Hh'. injection Hh' as <-. rewrite Hi in Hi'. injection Hi' as <-.
  destruct (operations_root_inj_or ops ops' _ Ho Ho' Hr Hr') as [<-|Hc]; [by left|right; more_messages Hc].
Qed.

(** A block of the chain and what it came from. *)
Record block_facts (b : BlockState) (header : bytes) (txs : list TransactionV1) (ops : list ProtocolOperationV1)
    : Prop := {
  bf_stores : stores b header txs ops;
  bf_wf : payload_wf header txs ops;
  bf_size : Z.of_nat (length (payload_bytes header txs ops)) <= MAX_P2P_PAYLOAD;
  bf_hash : bk_block_hash b = hex_encode (block_hash header);
  bf_target : bk_target b = hex_encode (bh_target (read_header_core (take 208 header)));
  bf_commitment : body_commitment header txs ops;
}.

Lemma mined_commitment next license h txs ops weight e post header :
  body_accepted next license h txs ops weight e post -> check_body_root h txs ops = Ok weight ->
  h = read_header_core (take 208 header) -> body_commitment header txs ops.
Proof.
  intros Hb (_ & Hm & _)%check_body_root_ok ->. split; [exact Hm|].
  apply ba_run in Hb as (working & validated & _ & _ & _ & amount & coinbase & _ & Hh & Hc & _).
  apply check_coinbase_ok in Hc as (root & address & Hr & _ & ->). by eexists _, _.
Qed.

(** *** Block 1 *)

Lemma fixture_epoch_u64 state fixture : create_fixture fuel state = Ok fixture -> is_u64 (fx_bootstrap_issued_epoch fixture).
Proof.
  unfold create_fixture. intros H. pass_checks H. apply Ok_inj in H as <-. cbn [fx_bootstrap_issued_epoch]. bool_to_prop.
  match goal with E : ok_or _ (checked_add 64 ?e _) = Ok _, L : _ < _ |- is_u64 ?e =>
    destruct (checked_add 64 e ACTIVATION_DELAY_EPOCHS) as [n|] eqn:Ea; [|discriminate E];
    apply checked_add_Some in Ea as [_ Ea]; change ACTIVATION_DELAY_EPOCHS with 64 in Ea;
    split; [apply Z.div_pos; lia|lia] end.
Qed.

Lemma operations_root_length ops root : protocol_operations_root ops = Ok root -> is32 root.
Proof.
  destruct ops as [|op ops]; [intros <-%Ok_inj; apply sha256_domain_length|].
  intros H%operations_root_nonempty; [|done]. subst root.
  set (leaves := operation_leaves _). assert (Forall (fun b => is32 b) leaves) as Hl
    by (apply Forall_map, Forall_true; intros; apply sha256_domain_length).
  pose proof (merkle_loop_nonempty domains.PROTOCOL_OP_NODE (length leaves) leaves ltac:(done)) as Hne.
  apply (merkle_loop_is32 domains.PROTOCOL_OP_NODE (length leaves)) in Hl.
  destruct (merkle_loop _ _ leaves) as [|r rs]; [done|]. by apply Forall_cons in Hl as [? _].
Qed.

Lemma bootstrap_coinbase_wf epoch parent root :
  is_u64 epoch -> is32 parent -> is32 root -> tx_wf (bootstrap_coinbase epoch parent root).
Proof.
  intros He Hp Hr. unfold tx_wf, bootstrap_coinbase.
  cbn [tx_core tx_witnesses tc_version tc_network_id tc_valid_from_epoch tc_expiry_epoch tc_inputs tc_outputs length
       existsb is_coinbase orb].
  split_and!; try done; try lia. constructor; [|done]. by refine (conj He (conj _ (conj Hp Hr))).
Qed.

Lemma encodings_inj {A} (enc : A -> bytes) (wf : A -> Prop) l k :
  (forall a b, wf a -> wf b -> enc a = enc b -> a = b) ->
  Forall wf l -> Forall wf k -> map enc l = map enc k -> l = k.
Proof.
  intros Hinj Hl. revert k; induction Hl as [|a l Ha _ IH]; intros [|b k] Hk H; try done.
  apply Forall_cons in Hk as [Hb Hk]. cbn [map] in H. injection H as H1 H2. f_equal; [by apply Hinj|by apply IH].
Qed.

Lemma tx_encode_inj a b : tx_wf a -> tx_wf b -> TransactionV1_encode_full a = TransactionV1_encode_full b -> a = b.
Proof.
  intros Ha Hb Heq. pose proof (decode_from_app a [] Ha) as H1. rewrite Heq, (decode_from_app b [] Hb) in H1.
  by apply Ok_inj, pair_inj in H1 as [-> _].
Qed.

Lemma operation_payload_bound op header txs ops :
  op ∈ ops -> (length (po_payload op) <= length (ProtocolOperationV1_encode op))%nat /\
  (length (ProtocolOperationV1_encode op) <= length (payload_bytes header txs ops))%nat.
Proof.
  intros Hin. split; [rewrite operation_encode_eq, !length_app; lia|].
  unfold payload_bytes, encode_many. apply list_elem_of_split in Hin as (l & k & ->).
  rewrite (map_app ProtocolOperationV1_encode), concat_app. cbn [map concat]. rewrite !length_app. lia.
Qed.

(** Block 1 of the development network. *)
Record bootstrap_shape (s s' : DevnetState) (header : bytes) (txs : list TransactionV1) (ops : list ProtocolOperationV1)
    (epoch : Z) (parent root tx_root state_root target : bytes32) (payload : bytes) (b : BlockState) : Prop := {
  bs_blocks : ds_blocks s' = ds_blocks s ++ [b];
  bs_tip : ds_tip_hash s' = bk_block_hash b;
  bs_stores : stores b header txs ops;
  bs_hash : bk_block_hash b = hex_encode (block_hash header);
  bs_target : bk_target b = hex_encode target;
  bs_header : header = bootstrap_header_core epoch parent tx_root state_root target ++ replicate 64 Byte.x00;
  bs_txs : txs = [bootstrap_coinbase epoch parent root];
  bs_ops : ops = [{| po_op_type := OP_BOOTSTRAP_COMMITMENT; po_op_version := 1; po_payload := payload |}];
  bs_root : protocol_operations_root ops = Ok root;
  bs_tx_root : merkle_root (map TransactionV1_leaf txs) = Some tx_root;
  bs_lengths : is_u64 epoch /\ is32 parent /\ is32 state_root /\ is32 target;
}.

Lemma bootstrap_built s s' fixture header txs ops :
  build_devnet_bootstrap_transition fuel s = Ok (s', fixture, header, txs, ops) ->
  exists epoch parent root tx_root state_root target payload b,
    bootstrap_shape s s' header txs ops epoch parent root tx_root state_root target payload b.
Proof.
  unfold build_devnet_bootstrap_transition. intros H. pass_checks H.
  apply Ok_inj in H. apply pair_inj in H as [[[[<- _]%pair_inj <-]%pair_inj <-]%pair_inj <-].
  do 8 eexists. split.
  - fields. reflexivity.
  - fields. reflexivity.
  - unfold stores. cbn [bk_header bk_transactions bk_protocol_operations]. split_and!; reflexivity.
  - cbn [bk_block_hash]. reflexivity.
  - cbn [bk_target]. reflexivity.
  - reflexivity.
  - reflexivity.
  - reflexivity.
  - match goal with E : map_err FromProtocol (protocol_operations_root ?l) = Ok _ |- _ =>
      destruct (protocol_operations_root l) as [r|]; [|discriminate E]; apply Ok_inj in E as <- end. reflexivity.
  - match goal with E : ok_or _ (merkle_root ?l) = Ok _ |- _ =>
      transitivity (merkle_root l); [reflexivity|]; destruct (merkle_root l) as [r|]; [|discriminate E];
      apply Ok_inj in E as <-; reflexivity end.
  - match goal with E : create_fixture _ _ = Ok _ |- _ => apply fixture_epoch_u64 in E end.
    match goal with E : decode32 _ = Ok _ |- _ => apply decode32_length in E end.
    match goal with E : compute_state_root _ _ _ _ _ _ _ _ = Ok _ |- _ => apply compute_state_root_length in E end.
    match goal with E : map_err FromConsensus ?r = Ok _ |- _ =>
      destruct r eqn:Er; [|discriminate E]; apply Ok_inj in E as <-; apply derive_target_length in Er end.
    done.
Qed.

(** The core of its header is read back. *)
Lemma bootstrap_header_read epoch parent tx_root state_root target sig :
  is_u64 epoch -> is32 parent -> is32 tx_root -> is32 state_root -> is32 target ->
  let h := read_header_core (take 208 (bootstrap_header_core epoch parent tx_root state_root target ++ sig)) in
  bh_tx_root h = tx_root /\ bh_target h = target.
Proof.
  intros He Hp Ht Hs Hg. cbv zeta.
  pose (h := {| bh_version := 1; bh_network_id := DEVNET_NETWORK_ID; bh_epoch := epoch; bh_parent := parent;
                bh_tx_root := tx_root; bh_state_root := state_root; bh_target := target; bh_license_id := ZERO32;
                bh_ticket := 0; bh_proof := ZERO32 |}).
  assert (header_wf h) as Hw by (refine (conj _ (conj _ (conj He (conj Hp (conj Ht (conj Hs (conj Hg (conj _ (conj _ _)))))))));
    done).
  change (bootstrap_header_core epoch parent tx_root state_root target) with (header_core h).
  rewrite take_app_exact by (by rewrite header_core_length). by rewrite read_header_core_core.
Qed.

Lemma bootstrap_facts s s' fixture header txs txs' ops ops' :
  build_devnet_bootstrap_transition fuel s = Ok (s', fixture, header, txs', ops') ->
  map TransactionV1_encode_full txs = map TransactionV1_encode_full txs' ->
  map ProtocolOperationV1_encode ops = map ProtocolOperationV1_encode ops' ->
  payload_wf header txs ops -> Z.of_nat (length (payload_bytes header txs ops)) <= MAX_P2P_PAYLOAD ->
  exists b, ds_blocks s' = ds_blocks s ++ [b] /\ ds_tip_hash s' = bk_block_hash b /\ block_facts b header txs ops.
Proof.
  intros (epoch & parent & root & tx_root & state_root & target & payload & b & [])%bootstrap_built Ht Ho Hwf Hsz.
  pose proof Hwf as (Hl & _ & Htw & _ & How & _). destruct bs_lengths0 as (He & Hp & Hs & Hg).
  assert (txs = txs') as ->.
  { apply (encodings_inj TransactionV1_encode_full tx_wf); [exact tx_encode_inj|done| |done]. rewrite bs_txs0.
    constructor; [|done]. apply bootstrap_coinbase_wf; [done..|]. by eapply operations_root_length. }
  assert (ops = ops') as ->.
  { apply (encodings_inj ProtocolOperationV1_encode operation_wf); [exact operation_encode_inj|done| |done]. rewrite bs_ops0 in *.
    constructor; [|done]. destruct ops as [|op [|]]; try done. cbn [map] in Ho. injection Ho as Ho.
    destruct (operation_payload_bound op header txs' [op] ltac:(by left)) as [_ H2].
    destruct (operation_payload_bound {| po_op_type := OP_BOOTSTRAP_COMMITMENT; po_op_version := 1; po_payload := payload |}
      header txs' [_] ltac:(by left)) as [H1 _]. cbn [po_payload] in H1. rewrite <- Ho in H1.
    unfold operation_wf. cbn [po_op_type po_op_version po_payload]. change MAX_P2P_PAYLOAD with 1048576 in Hsz.
    split; [done|]. split; [done|lia]. }
  exists b. split; [done|]. split; [done|].
  destruct (bootstrap_header_read epoch parent tx_root state_root target (replicate 64 Byte.x00) He Hp
              (tx_root_length _ _ bs_tx_root0) Hs Hg) as [H1 H2].
  rewrite <- bs_header0 in H1, H2. split; [done..| |].
  - by rewrite H2.
  - split; [by rewrite H1|]. rewrite bs_txs0. by eexists _, _.
Qed.

(** Every block that a node accepted. *)
Lemma accepted_facts s header txs ops s' hash payload :
  Z.of_nat (length payload) <= MAX_P2P_PAYLOAD -> decode_block_payload payload = Ok (header, txs, ops) ->
  validate_and_apply_block fuel s header txs ops = Ok (s', hash) ->
  exists b, ds_blocks s' = ds_blocks s ++ [b] /\ hash = bk_block_hash b /\ block_facts b header txs ops.
Proof.
  intros Hl Hd H. apply decode_payload_iff in Hd as [Hwf ->]. destruct (is_bootstrap_block s ops) eqn:Eb.
  - unfold validate_and_apply_block in H. destruct (runtime_for_state s) as [runtime|]; [|done].
    destruct (_ && _); [done|]. cbv zeta in H. rewrite Eb in H. unfold validate_and_apply_devnet_block1 in H.
    destruct (build_devnet_bootstrap_transition _ _) as [[[[[n f] hd] t] o]|] eqn:E; [|done].
    destruct (negb _) eqn:E1; [done|]. destruct (negb (bool_decide (map TransactionV1_encode_full _ = _))) eqn:E2; [done|].
    destruct (negb _) eqn:E3 in H; [done|]. bool_to_prop. apply Ok_inj, pair_inj in H as [<- <-].
    apply bool_decide_eq_true in E2, E3. subst hd. by eapply bootstrap_facts.
  - destruct (accepted_stored _ _ _ _ _ _ _ H) as (b & Hb & Hst). exists b. split; [done|].
    unfold validate_and_apply_block in H. rewrite Eb in H. destruct (runtime_for_state s) as [runtime|]; [|done].
    destruct (_ && _); [done|]. cbv zeta in H. destruct (check_position _ _); [|done].
    destruct (enter_epoch _ _) as [next|] eqn:En; [|done]. destruct (mining_license _ _ _) as [license|]; [|done].
    destruct (prevalidate_block_operations _ _ _); [|done]. destruct (check_work _ _ _ _ _ _); [|done].
    destruct (check_body_root _ _ _) as [weight|] eqn:Ew; [|done]. destruct (apply_body _ _ _ _ _ _ _) as [n|] eqn:E; [|done].
    apply Ok_inj, pair_inj in H as [<- <-]. apply apply_body_ok in E as (e & post & Hba & -> & Hh & Ht & Ho & _).
    destruct (commit_fields e post) as (_ & _ & F3 & _ & _ & _ & _ & F8 & _).
    assert (b = block_record e) as ->.
    { pose proof Hba as Hb2. apply ba_post, post_operations_frame, ops_frame_chain in Hb2 as (_ & _ & Hb2 & _). fields.
      pose proof (sc_blocks _ _ (enter_epoch_same _ _ _ En)). rewrite F8 in Hb.
      apply app_inj_tail in Hb as [_ <-]. done. }
    pose proof (ba_fields _ _ _ _ _ _ _ _ Hba) as Hf. split; [by rewrite F3|]. split; try done.
    + unfold block_record. cbn [bk_block_hash]. by rewrite Hh.
    + unfold block_record. cbn [bk_target]. by rewrite Hf.
    + by eapply mined_commitment.
Qed.

Lemma block_hash_inj_or header header' :
  block_hash header = block_hash header' -> header = header' \/ collides [header_message header] [header_message header'].
Proof. intros [H|]%sha256_domain_inj_or; [left|by right]. cbn [concat] in H. by rewrite !app_nil_r in H. Qed.

(** The hash determines the block. *)
Lemma facts_bind b b' header header' txs txs' ops ops' :
  block_facts b header txs ops -> block_facts b' header' txs' ops' -> bk_block_hash b = bk_block_hash b' ->
  (header = header' /\ txs = txs' /\ ops = ops') \/
  collides (block_messages header txs ops) (block_messages header' txs' ops').
Proof.
  intros [] [] H. rewrite bf_hash0, bf_hash1 in H.
  apply hex_encode_inj, block_hash_inj_or in H as [<-|Hc]; [|right; unfold block_messages; more_messages Hc].
  destruct bf_wf0 as (_ & _ & T0 & _ & O0 & _), bf_wf1 as (_ & _ & T1 & _ & O1 & _).
  destruct (commitment_binds header txs ops txs' ops') as [[<- <-]|]; [done..|by left|by right].
Qed.

(** The blocks of a node. *)
Definition known_block (b : BlockState) : Prop := exists header txs ops, block_facts b header txs ops.

Lemma run_blocks g s : genesis_state g -> rtc (node_step fuel) g s -> Forall known_block (ds_blocks s).
Proof.
  intros Hg Hrun. assert (Forall known_block (ds_blocks g)) as H by (by rewrite (gs_blocks g Hg)). clear Hg.
  induction Hrun as [|s t u Hst _ IH]; [done|]. apply IH.
  destruct Hst as [payload header txs ops s s' hash Hl Hd Hv _|through s s' Ha|x s].
  - destruct (accepted_facts _ _ _ _ _ _ _ Hl Hd Hv) as (b & -> & _ & Hb). apply Forall_app. split; [done|].
    constructor; [by exists header, txs, ops|done].
  - by rewrite (sc_blocks _ _ (proj1 (advance_empty_epochs_same _ _ _ Ha))).
  - done.
Qed.

(** C5: the hash of a block commits to the whole block.  Two blocks that came
    from peers in payloads and were accepted, by one node or by two and in
    whatever states, and have the same hash, are the same header, the same
    transactions with their witnesses and the same protocol operations, and came
    in the same bytes, unless a message hashed for the first block (its header,
    an encoding of a transaction or operation, a leaf or node of one of its two
    trees) collides with a different one hashed for the second: the header
    commits to the transactions and the coinbase to the operations, so there is
    no second body under an accepted header. *)
Theorem accepted_block_unique s1 s2 s1' s2' hash1 hash2 payload1 payload2 header1 header2 txs1 txs2 ops1 ops2 :
  Z.of_nat (length payload1) <= MAX_P2P_PAYLOAD -> Z.of_nat (length payload2) <= MAX_P2P_PAYLOAD ->
  decode_block_payload payload1 = Ok (header1, txs1, ops1) ->
  decode_block_payload payload2 = Ok (header2, txs2, ops2) ->
  validate_and_apply_block fuel s1 header1 txs1 ops1 = Ok (s1', hash1) ->
  validate_and_apply_block fuel s2 header2 txs2 ops2 = Ok (s2', hash2) ->
  hash1 = hash2 ->
  (header1 = header2 /\ txs1 = txs2 /\ ops1 = ops2 /\ payload1 = payload2) \/
  collides (block_messages header1 txs1 ops1) (block_messages header2 txs2 ops2).
Proof.
  intros L1 L2 D1 D2 V1 V2 Hh.
  destruct (accepted_facts _ _ _ _ _ _ _ L1 D1 V1) as (b1 & _ & -> & F1).
  destruct (accepted_facts _ _ _ _ _ _ _ L2 D2 V2) as (b2 & _ & -> & F2).
  destruct (facts_bind _ _ _ _ _ _ _ _ F1 F2 Hh) as [(<- & <- & <-)|]; [left|by right].
  apply decode_payload_iff in D1 as [_ ->], D2 as [_ ->]. done.
Qed.
End body.
