(* ===== verification/NodeConverge.v ===== *)
(** A synchronisation with a peer that serves its own chain
    ([mutiny-node/src/blocksync.rs]): the requests are answered, the headers are
    collected in finitely many rounds, the blocks are accepted, and a node whose
    chain has less work ends on the peer's chain. *)

From Stdlib Require Import Strings.Byte Strings.String.
From stdpp Require Import strings pretty.
From S2P Require Import Prelude Crypto Consensus Codec State Transaction Protocol ProtocolRules P2p Collections NodeState Economy NodePresence NodePunishment NodeUtxo NodeDividends NodeBitcoin NodePurchase NodeRoots NodeBootstrap NodeEpoch NodeMempool NodeOperations NodeBlocks NodePayload NodeReorg NodeChain NodeCore NodeSync NodeReplay NodeAgreement NodeSyncFacts NodeBody.

(** ** Termination

    The loop over the headers reads a response in every round. *)

Section termination.
Context {SHA : Sha2} {ED : Ed25519} {AR : Argon2}.

Lemma play_rest {E A} (eof : E) (s : session E A) input r out rest :
  play eof s input = (r, out, rest) -> (length rest <= length input)%nat.
Proof.
  revert input out; induction s as [x|bs k IH|n k IH]; intros input out; cbn [play].
  - by intros [= _ _ <-].
  - destruct (play eof k input) as [[r' o] l] eqn:E'. intros [= <- _ <-]. by eapply IH.
  - destruct (_ <? n)%nat; [by intros [= _ _ <-]|]. intros H%IH. rewrite length_drop in H. lia.
Qed.

(** A session that reads at least one byte before it succeeds. *)
Definition consumes {E A} (s : session E A) : Prop :=
  forall eof input a out rest, play eof s input = (Ok a, out, rest) -> (length rest < length input)%nat.

Lemma consumes_left {E A B} (s : session E A) (f : A -> session E B) : consumes s -> consumes (session_bind s f).
Proof.
  intros Hs eof input b out rest (a & o1 & r1 & o2 & H1 & H2 & _)%run_bind_ok.
  apply Hs in H1. apply play_rest in H2. lia.
Qed.

Lemma consumes_right {E A B} (s : session E A) (f : A -> session E B) :
  (forall a, consumes (f a)) -> consumes (session_bind s f).
Proof.
  intros Hf eof input b out rest (a & o1 & r1 & o2 & H1 & H2 & _)%run_bind_ok.
  apply play_rest in H1. apply Hf in H2. lia.
Qed.

Lemma read_frame_consumes magic : consumes (peer_call (Frame_read_from magic)).
Proof.
  intros eof input f out rest H%(play_map_err _ Io). apply run_read_from in H as (_ & _ & _ & ->).
  rewrite !length_app, frame_bytes_length. lia.
Qed.

Lemma request_headers_consumes saved start : consumes (request_headers saved start).
Proof.
  apply consumes_right. intros _. apply consumes_left. unfold read_expected_persistent_response.
  generalize MAX_PERSISTENT_INTERLEAVED_FRAMES. intros n. destruct n; apply consumes_left, read_frame_consumes.
Qed.

Lemma play_bind_ext {E A B} (eof : E) (s : session E A) (f g : A -> session E B) input :
  (forall a out rest, play eof s input = (Ok a, out, rest) -> play eof (f a) rest = play eof (g a) rest) ->
  play eof (session_bind s f) input = play eof (session_bind s g) input.
Proof.
  intros H. rewrite !run_bind. destruct (play eof s input) as [[[a|e] out] rest]; [|done]. by rewrite (H a out rest).
Qed.

Lemma collect_round_ext saved eof k1 k2 height headers input :
  (forall more rest, (length rest < length input)%nat -> play eof (k1 more) rest = play eof (k2 more) rest) ->
  play eof (collect_round saved k1 height headers) input = play eof (collect_round saved k2 height headers) input.
Proof.
  intros H. unfold collect_round. destruct (_ <? height); [|done]. apply play_bind_ext.
  intros [observed more] out rest Hr%request_headers_consumes. destruct (_ <? height); [done|].
  destruct (is_empty more); [done|]. by apply H.
Qed.

Lemma collect_more_step saved rounds height headers :
  collect_more saved (S rounds) height headers = collect_round saved (collect_more saved rounds height) height headers.
Proof. reflexivity. Qed.

Lemma collect_more_stable saved eof rounds height headers input :
  (length input < rounds)%nat ->
  play eof (collect_more saved rounds height headers) input = play eof (collect_more saved (S rounds) height headers) input.
Proof.
  revert headers input; induction rounds as [|rounds IH]; intros headers input Hl; [lia|].
  rewrite (collect_more_step saved rounds), (collect_more_step saved (S rounds)). apply collect_round_ext.
  intros more rest Hr. apply IH. lia.
Qed.

Lemma collect_more_enough saved eof rounds height headers input :
  (length input < rounds)%nat ->
  play eof (collect_more saved rounds height headers) input
  = play eof (collect_more saved (S (length input)) height headers) input.
Proof.
  intros Hl. induction Hl as [|rounds Hl IH]; [done|]. by rewrite <- collect_more_stable.
Qed.

Lemma collect_remote_enough saved eof rounds input :
  (length input < rounds)%nat ->
  play eof (collect_remote_headers saved rounds) input
  = play eof (collect_remote_headers saved (S (length input))) input.
Proof.
  intros Hl. unfold collect_remote_headers. apply play_bind_ext. intros [height first] out rest Hr.
  apply play_rest in Hr. destruct (height =? 0); [done|]. rewrite !run_bind.
  rewrite (collect_more_enough _ _ rounds), (collect_more_enough _ _ (S (length input))) by lia. done.
Qed.

(** *** The rounds of a collection

    A collection without a bound on its rounds: [collects headers input k all out rest]
    if the loop, which has [headers] so far and [input] to read, ends with [all]
    after [k] more requests, having written [out] and left [rest].  It asks for
    more only below the announced height, from the number of headers it has, and
    goes on with a response only if that announces no lower height and brings at
    least one header; what exceeds the announced height is cut off. *)
Inductive collects (saved : node_result DevnetState) (eof : NodeError) (height : Z) :
    list bytes -> bytes -> nat -> list bytes -> bytes -> bytes -> Prop :=
| collects_end headers input :
    height <= Z.of_nat (length headers) -> collects saved eof height headers input 0 headers [] input
| collects_round headers input observed more out1 input1 k all out2 rest :
    Z.of_nat (length headers) < height ->
    play eof (request_headers saved (Z.of_nat (length headers))) input = (Ok (observed, more), out1, input1) ->
    height <= observed -> more <> [] ->
    collects saved eof height (headers ++ take (Z.to_nat (height - Z.of_nat (length headers))) more) input1 k all out2 rest ->
    collects saved eof height headers input (S k) all (out1 ++ out2) rest.

(** A round asks once and goes on with a longer list. *)
Lemma collect_round_grows saved eof k1 k2 height headers input :
  (forall more rest, Z.of_nat (length headers) < height -> more <> [] ->
     let next := headers ++ take (Z.to_nat (height - Z.of_nat (length headers))) more in
     play eof (k1 next) rest = play eof (k2 next) rest) ->
  play eof (collect_round saved k1 height headers) input = play eof (collect_round saved k2 height headers) input.
Proof.
  intros H. unfold collect_round. destruct (Z.ltb_spec (Z.of_nat (length headers)) height); [|done].
  apply play_bind_ext. intros [observed more] out rest _. destruct (_ <? height); [done|].
  destruct more as [|h more]; [done|]. by apply H.
Qed.

Lemma next_length (headers more : list bytes) height :
  Z.of_nat (length headers) < height -> more <> [] ->
  let next := headers ++ take (Z.to_nat (height - Z.of_nat (length headers))) more in
  (length headers < length next)%nat /\ Z.of_nat (length next) <= height.
Proof.
  intros Hl Hm. cbv zeta. rewrite length_app, length_take. destruct more as [|h more]; [done|]. cbn [length]. lia.
Qed.

Lemma collect_more_height saved eof rounds height headers input :
  (Z.to_nat (height - Z.of_nat (length headers)) < rounds)%nat ->
  play eof (collect_more saved rounds height headers) input
  = play eof (collect_more saved (S rounds) height headers) input.
Proof.
  revert headers input; induction rounds as [|rounds IH]; intros headers input Hl; [lia|].
  rewrite (collect_more_step saved rounds), (collect_more_step saved (S rounds)).
  apply collect_round_grows. intros more rest Hlt Hm. cbv zeta.
  destruct (next_length headers more height Hlt Hm). apply IH. lia.
Qed.

Lemma collect_more_collects saved eof rounds height headers input all out rest :
  play eof (collect_more saved rounds height headers) input = (Ok all, out, rest) ->
  exists k, collects saved eof height headers input k all out rest.
Proof.
  revert headers input out; induction rounds as [|rounds IH]; intros headers input out; [done|].
  rewrite collect_more_step. unfold collect_round.
  destruct (Z.ltb_spec (Z.of_nat (length headers)) height) as [Hl|Hl].
  - intros ([observed more] & o1 & r1 & o2 & H1 & H2 & ->)%run_bind_ok.
    destruct (Z.ltb_spec observed height) as [|Ho]; [done|]. destruct (is_empty more) eqn:Em; [done|].
    apply IH in H2 as (k & Hk). exists (S k). eapply collects_round; [done|exact H1|done|by intros ->|exact Hk].
  - intros [= <- <- <-]. exists 0%nat. by constructor.
Qed.

Lemma collects_collect_more saved eof rounds height headers input k all out rest :
  collects saved eof height headers input k all out rest ->
  (Z.to_nat (height - Z.of_nat (length headers)) < rounds)%nat ->
  play eof (collect_more saved rounds height headers) input = (Ok all, out, rest).
Proof.
  intros H. revert rounds. induction H as [headers input Hl|headers input observed more o1 r1 k all o2 rest Hl H1 Ho Hm _ IH];
    intros rounds Hr; (destruct rounds as [|rounds]; [lia|]); rewrite collect_more_step; unfold collect_round.
  - by destruct (Z.ltb_spec (Z.of_nat (length headers)) height); [lia|].
  - destruct (Z.ltb_spec (Z.of_nat (length headers)) height); [|lia].
    eapply run_seq; [exact H1| |reflexivity]. cbv beta match.
    destruct (Z.ltb_spec observed height); [lia|]. destruct (is_empty more) eqn:Em; [by destruct more|].
    apply IH. destruct (next_length headers more height Hl Hm). lia.
Qed.

Lemma collects_bound saved eof height headers input k all out rest :
  collects saved eof height headers input k all out rest ->
  (k <= Z.to_nat (height - Z.of_nat (length headers)))%nat /\ headers `prefix_of` all /\
  Z.of_nat (length all) = Z.max (Z.of_nat (length headers)) height.
Proof.
  induction 1 as [headers input Hl|headers input observed more o1 r1 k all o2 rest Hl H1 Ho Hm _ (IH1 & IH2 & IH3)].
  - split_and!; [lia|done|lia].
  - destruct (next_length headers more height Hl Hm). split_and!; [lia| |lia].
    etrans; [|exact IH2]. by apply prefix_app_r.
Qed.

(** C37: the collection of headers ends, and with it a synchronisation.  Let a
    peer have announced [height] and the node have some headers.  A bound of one
    round more than there are headers missing is never reached, whatever bytes
    the peer sends: the bounded loop satisfies the equation of the source's
    [while] loop, in which no bound occurs, and it succeeds exactly when the loop
    without a bound does.  Such a success takes at most as many requests as
    headers were missing, keeps the headers that were there, and has exactly the
    announced number of them; the loop asks for more only below the announced
    height, refuses a response that announces a lower height or is empty, and
    cuts off what exceeds the height.  And the whole synchronisation gives one
    result for all bounds above the number of bytes to read. *)
Theorem sync_terminates fuel saved eof height headers input rounds :
  (Z.to_nat (height - Z.of_nat (length headers)) < rounds)%nat ->
  play eof (collect_more saved rounds height headers) input
    = play eof (collect_round saved (collect_more saved rounds height) height headers) input /\
  (forall all out rest,
     play eof (collect_more saved rounds height headers) input = (Ok all, out, rest) <->
     exists k, collects saved eof height headers input k all out rest) /\
  (forall k all out rest, collects saved eof height headers input k all out rest ->
     (k <= Z.to_nat (height - Z.of_nat (length headers)))%nat /\ headers `prefix_of` all /\
     Z.of_nat (length all) = Z.max (Z.of_nat (length headers)) height) /\
  (forall state bound, (length input < bound)%nat ->
     play eof (sync_state_from_peer_persistent fuel saved bound state) input
     = play eof (sync_state_from_peer_persistent fuel saved (S (length input)) state) input).
Proof.
  intros Hl. split; [by apply collect_more_height|]. split; [|split].
  - intros all out rest. split; [apply collect_more_collects|]. intros [k Hk]. by eapply collects_collect_more.
  - intros k all out rest. apply collects_bound.
  - intros state bound Hb. unfold sync_state_from_peer_persistent. apply play_bind_ext.
    intros runtime out rest Hr. apply play_rest in Hr. destruct (negb _); [done|]. rewrite !run_bind.
    rewrite (collect_remote_enough _ _ bound), (collect_remote_enough _ _ (S (length input))) by lia. done.
Qed.
End termination.

(** ** A peer that answers *)

Section exchange.
Context {SHA : Sha2} {ED : Ed25519} {AR : Argon2}.
Context (saved : node_result DevnetState).

(** The bytes of requests, and the bytes with which a node in state [t] answers
    them while it waits for a response itself. *)
Inductive exchange (t : DevnetState) : bytes -> bytes -> Prop :=
| exchange_end : exchange t [] []
| exchange_request f reply requests replies :
    frame_wf f -> fr_magic f = P2P_MAGIC_DEVNET ->
    (forall eof rest, play eof (service_reverse_persistent_request (Ok t) f) rest = (Ok true, reply, rest)) ->
    exchange t requests replies -> exchange t (wire f ++ requests) (reply ++ replies).

Lemma exchange_app t o1 i1 o2 i2 : exchange t o1 i1 -> exchange t o2 i2 -> exchange t (o1 ++ o2) (i1 ++ i2).
Proof. intros E1 E2. induction E1; [done|]. rewrite <- !app_assoc. by apply exchange_request. Qed.

(** A session that returns [a] with this peer and leaves nothing unread. *)
Definition talks {A} (t : DevnetState) (s : session NodeError A) (a : A) : Prop :=
  exists requests replies, exchange t requests replies /\
    forall eof rest, play eof s (replies ++ rest) = (Ok a, requests, rest).

Lemma talks_done {A} t (a : A) : talks t (Done (Ok a)) a.
Proof. exists [], []. split; [constructor|done]. Qed.

Lemma talks_lift {A} t r (a : A) : r = Ok a -> talks t (lift r) a.
Proof. intros ->. apply talks_done. Qed.

Lemma talks_bind {A B} t (s : session NodeError A) (f : A -> session NodeError B) a b :
  talks t s a -> talks t (f a) b -> talks t (session_bind s f) b.
Proof.
  intros (o1 & i1 & E1 & H1) (o2 & i2 & E2 & H2). exists (o1 ++ o2), (i1 ++ i2). split; [by apply exchange_app|].
  intros eof rest. rewrite <- app_assoc. eapply run_seq; [apply H1|apply H2|done].
Qed.

Lemma talks_assoc {A B C} t (s : session NodeError A) (f : A -> session NodeError B) (k : B -> session NodeError C) c :
  talks t (session_bind (session_bind s f) k) c -> talks t (session_bind s (fun a => session_bind (f a) k)) c.
Proof.
  intros (requests & replies & E & H). exists requests, replies. split; [done|]. intros eof rest. rewrite <- (H eof rest), !run_bind.
  destruct (play eof s (replies ++ rest)) as [[[a|e] o1] r1]; [|done]. rewrite !run_bind.
  destruct (play eof (f a) r1) as [[[b|e] o2] r2]; [|done].
  destruct (play eof (k b) r2) as [[r o3] r3]. by rewrite app_assoc.
Qed.

Notation sent ty id payload := (message P2P_MAGIC_DEVNET ty id payload).

Lemma sent_new ty id payload :
  Z.of_nat (length payload) <= MAX_P2P_PAYLOAD -> Frame_new P2P_MAGIC_DEVNET ty id payload = Ok (sent ty id payload).
Proof. intros Hl. unfold Frame_new. destruct (Z.ltb_spec MAX_P2P_PAYLOAD (Z.of_nat (length payload))); [lia|done]. Qed.

Lemma send_frame_play eof ty id payload rest :
  Z.of_nat (length payload) <= MAX_P2P_PAYLOAD ->
  play eof (send_frame ty id payload) rest = (Ok tt, wire (sent ty id payload), rest).
Proof.
  intros Hl. unfold send_frame. rewrite sent_new by done. cbn [map_err lift session_bind].
  apply (play_map_err _ Io). apply run_write_to, frame_encode_eq. by split.
Qed.

Lemma read_sent eof ty id payload rest :
  is_u16 ty -> is_u64 id -> Z.of_nat (length payload) <= MAX_P2P_PAYLOAD ->
  play eof (peer_call (Frame_read_from P2P_MAGIC_DEVNET)) (wire (sent ty id payload) ++ rest)
  = (Ok (sent ty id payload), [], rest).
Proof.
  intros Hty Hid Hl. apply (play_map_err _ Io), run_read_from.
  split; [|done]. refine (conj _ (conj eq_refl (conj Hty (conj eq_refl (conj Hid Hl))))). done.
Qed.

(** One request and its response. *)
Lemma talks_request t ty id payload ty' payload' label :
  is_u16 ty -> is_u16 ty' -> is_u64 id -> Z.of_nat (length payload) <= MAX_P2P_PAYLOAD ->
  Z.of_nat (length payload') <= MAX_P2P_PAYLOAD ->
  (forall eof rest, play eof (service_reverse_persistent_request (Ok t) (sent ty id payload)) rest
     = (Ok true, wire (sent ty' id payload'), rest)) ->
  talks t (let! _ := send_frame ty id payload in read_expected_persistent_response saved id ty' label)
    (sent ty' id payload').
Proof.
  intros H1 H2 Hid Hl Hl' Hs. exists (wire (sent ty id payload)), (wire (sent ty' id payload')). split.
  - rewrite <- (app_nil_r (wire (sent ty id payload))), <- (app_nil_r (wire (sent ty' id payload'))).
    apply exchange_request; [|done|done|constructor].
    refine (conj _ (conj eq_refl (conj H1 (conj eq_refl (conj Hid Hl))))). done.
  - intros eof rest. eapply run_seq; [by apply send_frame_play| |symmetry; apply app_nil_r].
    unfold read_expected_persistent_response. generalize MAX_PERSISTENT_INTERLEAVED_FRAMES. intros n.
    destruct n; cbn [await_response]; (eapply run_seq; [by apply read_sent| |symmetry; apply app_nil_l]);
      cbn [message fr_request_id fr_message_type]; rewrite !Z.eqb_refl; done.
Qed.
End exchange.

(** ** What the peer serves *)

Section serving.
Context {SHA : Sha2} {ED : Ed25519} {AR : Argon2}.
Context (saved : node_result DevnetState).

Definition block_body : Type := bytes * list TransactionV1 * list ProtocolOperationV1.
Definition body_header (x : block_body) : bytes := x.1.1.
Definition body_of (b : BlockState) (x : block_body) : Prop := block_facts b x.1.1 x.1.2 x.2.

Lemma known_bodies blocks : Forall known_block blocks -> exists bodies, Forall2 body_of blocks bodies.
Proof.
  induction 1 as [|b blocks (h & txs & ops & Hb) _ (bodies & IH)]; [by exists []|].
  exists ((h, txs, ops) :: bodies). by constructor.
Qed.

Lemma body_header_stored b x : body_of b x -> hex_bytes (bk_header b) = Ok (body_header x) /\ stored_header b = Ok (body_header x).
Proof.
  intros [(Hs & _) (Hl & _) _ _ _ _]. unfold stored_header. rewrite Hs, hex_bytes_encode. split; [done|].
  unfold body_header. by rewrite Hl.
Qed.

(** The messages hashed for the blocks a node stores: those of the bodies it
    would serve. *)
Definition body_messages (x : block_body) : list bytes := block_messages x.1.1 x.1.2 x.2.

Definition stored_messages (b : BlockState) : list bytes :=
  match (let? payload := encode_block_payload b in decode_block_payload payload) with
  | Ok x => body_messages x
  | Err _ => []
  end.

Definition chain_messages (blocks : list BlockState) : list bytes := concat (map stored_messages blocks).

Lemma stored_messages_body b x : body_of b x -> stored_messages b = body_messages x.
Proof.
  intros Hx. unfold stored_messages.
  rewrite (encode_stored b x.1.1 x.1.2 x.2) by apply Hx.
  destruct x as [[h ts] os]. cbn [fst snd] in *.
  by rewrite (proj2 (decode_payload_iff _ h ts os)) by (split; [apply Hx|done]).
Qed.

Lemma chain_messages_member b x blocks :
  b ∈ blocks -> body_of b x -> body_messages x ⊆ chain_messages blocks.
Proof.
  intros Hb Hx m Hm. rewrite <- (stored_messages_body b x Hx) in Hm.
  apply list_elem_of_In, in_concat. exists (stored_messages b).
  split; [by apply in_map, list_elem_of_In|by apply list_elem_of_In].
Qed.

Lemma chain_messages_mono l k : l ⊆ k -> chain_messages l ⊆ chain_messages k.
Proof.
  intros Hs m Hm. apply list_elem_of_In, in_concat in Hm as (ms & Hms & Hm).
  apply in_map_iff in Hms as (b & <- & Hb). apply list_elem_of_In, in_concat. exists (stored_messages b).
  split; [apply in_map, list_elem_of_In, Hs, list_elem_of_In; done|done].
Qed.

(** Two blocks with one hash, one of each chain. *)
Lemma bodies_bind l k b c x y :
  b ∈ l -> c ∈ k -> body_of b x -> body_of c y -> bk_block_hash b = bk_block_hash c ->
  x = y \/ collides (chain_messages l) (chain_messages k).
Proof.
  intros Hb Hc Hx Hy H. pose proof (chain_messages_member b x l Hb Hx). pose proof (chain_messages_member c y k Hc Hy).
  destruct (facts_bind _ _ _ _ _ _ _ _ Hx Hy H) as [(E1 & E2 & E3)|Hcol].
  - left. destruct x as [[? ?] ?], y as [[? ?] ?]. cbn in E1, E2, E3. by subst.
  - right. revert Hcol. by apply collides_mono.
Qed.

Context (t : DevnetState) (bodies : list block_body).
Context (Hbodies : Forall2 body_of (ds_blocks t) bodies).
Context (Hheight : ds_height t = Z.of_nat (length (ds_blocks t))) (Hu64 : is_u64 (ds_height t)).

Notation headers := (map body_header bodies).

Lemma headers_length : Z.of_nat (length headers) = ds_height t.
Proof. by rewrite length_map, Hheight, (Forall2_length _ _ _ Hbodies). Qed.

Lemma window_bodies n start : Forall2 body_of (take n (drop start (ds_blocks t))) (take n (drop start bodies)).
Proof. by apply Forall2_take, Forall2_drop. Qed.

Lemma window_headers n start : take n (drop start headers) = map body_header (take n (drop start bodies)).
Proof. by rewrite skipn_map, firstn_map. Qed.

Lemma bodies_stored l k :
  Forall2 body_of l k -> Forall2 (fun b h => hex_bytes (bk_header b) = Ok h) l (map body_header k) /\
  Forall2 (fun b h => stored_header b = Ok h) l (map body_header k) /\
  length (concat (map body_header k)) = (272 * length l)%nat.
Proof.
  induction 1 as [|b x l k Hb _ (IH1 & IH2 & IH3)]; [done|]. destruct (body_header_stored b x Hb) as [H1 H2].
  split; [by constructor|]. split; [by constructor|]. cbn [map concat]. rewrite length_app, IH3. destruct (bf_wf _ _ _ _ Hb) as [Hl _].
  unfold body_header. cbn [length]. lia.
Qed.

(** The batch of headers from a height. *)
Lemma serve_headers start :
  is_u64 start ->
  exists payload, serve_get_headers t (be_bytes 8 start ++ be_bytes 2 MAX_HEADERS_PER_RESPONSE) = Ok payload /\
    Z.of_nat (length payload) <= MAX_P2P_PAYLOAD /\
    decode_headers_response payload = Ok (ds_height t, take 256 (drop (Z.to_nat start) headers)).
Proof.
  intros Hs. unfold serve_get_headers. rewrite length_app, !length_be_bytes. cbn [Nat.add Nat.eqb negb].
  slice_norm. rewrite slice_whole by len. rewrite !be_val_be_bytes by (done || (unfold MAX_HEADERS_PER_RESPONSE; lia)).
  rewrite window_headers. destruct (bodies_stored _ _ (window_bodies 256 (Z.to_nat start))) as (W1 & W2 & W3).
  set (hs := map body_header _) in *. pose proof (Forall2_length _ _ _ W2) as Hlen.
  assert (length hs <= 256)%nat as Hle by (rewrite <- Hlen, length_take; lia).
  assert (encode_headers_response t start MAX_HEADERS_PER_RESPONSE
    = Ok (write_varuint (be_bytes 8 (ds_height t)) (Z.of_nat (length hs)) ++ concat hs)) as He.
  { unfold encode_headers_response.
    change (Z.to_nat (Z.max 1 (Z.min MAX_HEADERS_PER_RESPONSE MAX_HEADERS_PER_RESPONSE))) with 256%nat.
    rewrite (proj2 (map_result_Forall2 _ _ _) W2). by rewrite Hlen. }
  rewrite He. eexists. split; [reflexivity|]. split.
  - norm_writes. rewrite !length_app, length_be_bytes, W3, Hlen. pose proof (encode_varuint_length (Z.of_nat (length hs))).
    change MAX_P2P_PAYLOAD with 1048576. lia.
  - destruct (headers_response_ok _ _ _ _ Hu64 He) as (hs' & Hd & _ & HF). rewrite Hd. do 2 f_equal.
    change (Z.to_nat (Z.max 1 (Z.min MAX_HEADERS_PER_RESPONSE MAX_HEADERS_PER_RESPONSE))) with 256%nat in HF.
    apply (proj2 (map_result_Forall2 _ _ _)) in W1, HF. congruence.
Qed.

Lemma frame_of_headers start payload reply :
  is_u64 start -> serve_get_headers t payload = Ok reply -> Z.of_nat (length reply) <= MAX_P2P_PAYLOAD ->
  forall eof rest, play eof (service_reverse_persistent_request (Ok t) (message P2P_MAGIC_DEVNET MSG_GET_HEADERS 0x4001 payload)) rest
    = (Ok true, wire (message P2P_MAGIC_DEVNET MSG_HEADERS 0x4001 reply), rest).
Proof.
  intros Hs Hp Hl eof rest. unfold service_reverse_persistent_request. cbn [message fr_message_type fr_payload fr_request_id].
  change (MSG_GET_HEADERS =? MSG_GET_HEADERS) with true. cbn [lift session_bind]. rewrite Hp. cbn [session_bind].
  eapply run_seq; [by apply send_frame_play|done|symmetry; apply app_nil_r].
Qed.

Lemma frame_of_block hash reply :
  serve_get_block t hash = Ok reply -> Z.of_nat (length reply) <= MAX_P2P_PAYLOAD ->
  forall eof rest, play eof (service_reverse_persistent_request (Ok t) (message P2P_MAGIC_DEVNET MSG_GET_BLOCK 0x4002 hash)) rest
    = (Ok true, wire (message P2P_MAGIC_DEVNET MSG_BLOCK 0x4002 reply), rest).
Proof.
  intros Hp Hl eof rest. unfold service_reverse_persistent_request. cbn [message fr_message_type fr_payload fr_request_id].
  change (MSG_GET_BLOCK =? MSG_GET_HEADERS) with false. change (MSG_GET_BLOCK =? MSG_GET_BLOCK) with true.
  cbn [lift session_bind]. rewrite Hp. cbn [session_bind].
  eapply run_seq; [by apply send_frame_play|done|symmetry; apply app_nil_r].
Qed.

Lemma talks_headers start :
  is_u64 start -> talks t (request_headers saved start) (ds_height t, take 256 (drop (Z.to_nat start) headers)).
Proof.
  intros Hs. destruct (serve_headers start Hs) as (reply & Hr & Hl & Hd).
  assert (talks t (let! _ := send_frame MSG_GET_HEADERS 0x4001 (be_bytes 8 start ++ be_bytes 2 MAX_HEADERS_PER_RESPONSE) in
                   read_expected_persistent_response saved 0x4001 MSG_HEADERS "HEADERS")
            (message P2P_MAGIC_DEVNET MSG_HEADERS 0x4001 reply)) as Hreq.
  { apply talks_request; try done. by apply (frame_of_headers start). }
  apply talks_assoc. eapply talks_bind; [exact Hreq|]. by apply talks_lift.
Qed.

Lemma collect_more_talks rounds k :
  (k <= length headers)%nat -> (length headers - k < rounds)%nat ->
  talks t (collect_more saved rounds (ds_height t) (take k headers)) headers.
Proof.
  pose proof headers_length as Hn. revert k; induction rounds as [|rounds IH]; intros k Hk Hr; [lia|].
  rewrite collect_more_step. unfold collect_round. rewrite length_take, Nat.min_l by lia.
  destruct (Z.ltb_spec (Z.of_nat k) (ds_height t)).
  - eapply talks_bind; [apply talks_headers; lia|]. cbv beta match. rewrite Z.ltb_irrefl, Nat2Z.id.
    destruct (is_empty (take 256 (drop k headers))) eqn:E.
    { exfalso. destruct (take 256 (drop k headers)) eqn:E2; [|done]. apply (f_equal length) in E2.
      rewrite length_take, length_drop in E2. cbn [length] in E2. lia. }
    rewrite take_take, take_take_drop. apply IH; lia.
  - rewrite take_ge by lia. apply talks_done.
Qed.

Lemma collect_talks rounds :
  0 < ds_height t -> (length headers < rounds)%nat -> talks t (collect_remote_headers saved rounds) (ds_height t, headers).
Proof.
  intros Hp Hr. pose proof headers_length as Hn. unfold collect_remote_headers.
  eapply talks_bind; [apply (talks_headers 0); lia|]. cbv beta match. destruct (Z.eqb_spec (ds_height t) 0); [lia|].
  change (drop (Z.to_nat 0) headers) with headers.
  assert (take 256 headers = take (Nat.min 256 (length headers)) headers) as ->.
  { destruct (Nat.le_gt_cases 256 (length headers)); [by rewrite Nat.min_l|]. rewrite Nat.min_r, !take_ge by lia. done. }
  eapply talks_bind; [apply collect_more_talks; lia|]. rewrite Hn, Z.eqb_refl. apply talks_done.
Qed.

(** The block of a hash. *)
Lemma serve_block b x :
  b ∈ ds_blocks t -> body_of b x ->
  serve_get_block t (block_hash (body_header x)) = Ok (payload_bytes x.1.1 x.1.2 x.2) \/
  collides (chain_messages (ds_blocks t)) (chain_messages (ds_blocks t)).
Proof.
  intros Hb Hx. unfold serve_get_block, block_hash. rewrite sha256_domain_length. fold (block_hash (body_header x)). cbn [Nat.eqb negb].
  destruct (List.find _ (ds_blocks t)) as [b'|] eqn:E.
  - apply find_elem in E as [Hin He]. pose proof Hin as Hin'. unfold stores_block in He. apply bool_decide_eq_true in He.
    apply list_elem_of_lookup in Hin as [i Hi]. destruct (Forall2_lookup_l _ _ _ _ _ Hbodies Hi) as (x' & _ & Hx').
    destruct (bodies_bind (ds_blocks t) (ds_blocks t) b' b x' x) as [<-|]; [done..|by rewrite (bf_hash _ _ _ _ Hx)| |by right].
    left. apply encode_stored; apply Hx'.
  - exfalso. eapply find_none in E; [|by apply list_elem_of_In]. unfold stores_block in E.
    apply bool_decide_eq_false in E. apply E. apply (bf_hash _ _ _ _ Hx).
Qed.

Lemma talks_block b x :
  b ∈ ds_blocks t -> body_of b x -> talks t (request_block saved (block_hash (body_header x))) x \/
  collides (chain_messages (ds_blocks t)) (chain_messages (ds_blocks t)).
Proof.
  intros Hb Hx. destruct (serve_block b x Hb Hx) as [Hs|]; [left|by right].
  pose proof (bf_size _ _ _ _ Hx) as Hl. set (hash := block_hash (body_header x)) in *.
  assert (talks t (let! _ := send_frame MSG_GET_BLOCK 0x4002 hash in
                   read_expected_persistent_response saved 0x4002 MSG_BLOCK "BLOCK")
            (message P2P_MAGIC_DEVNET MSG_BLOCK 0x4002 (payload_bytes x.1.1 x.1.2 x.2))) as Hreq.
  { apply talks_request; try done.
    - subst hash. unfold block_hash. by rewrite sha256_domain_length.
    - by apply frame_of_block. }
  apply talks_assoc. eapply talks_bind; [exact Hreq|]. cbn [message fr_payload].
  apply (talks_bind _ _ _ x).
  { apply talks_lift. clear - Hx. destruct x as [[h ts] os]. apply decode_payload_iff. split; [by destruct Hx|done]. }
  subst hash. unfold body_header. rewrite bytes_eqb_refl. apply talks_done.
Qed.

(** *** The blocks are accepted *)

Context (fuel : nat).

(** Before the first block nothing waits for one. *)
Definition nothing_waits (s : DevnetState) : Prop :=
  ds_height s = 0 -> ds_mempool s = [] /\ ds_pending_protocol_operations s = [].

(** A candidate accepts what the replay accepts. *)
Lemma candidate_follows r c header txs ops r' hash :
  0 <= ds_height r -> same_core r c -> nothing_waits c ->
  validate_and_apply_block fuel r header txs ops = Ok (r', hash) ->
  exists c', validate_and_apply_block fuel c header txs ops = Ok (c', hash) /\ same_core r' c' /\
    0 <= ds_height r' /\ nothing_waits c'.
Proof.
  intros Hr Hc Hw H. pose proof (accepted_fields _ _ _ _ _ _ _ H) as [Hh _].
  assert (exists c', validate_and_apply_block fuel c header txs ops = Ok (c', hash) /\ same_core r' c') as (c' & H1 & H2).
  { destruct (is_bootstrap_block r ops) eqn:E.
    - assert (ds_height r = 0) as H0.
      { destruct (Z.eq_dec (ds_height r) 0); [done|]. rewrite bootstrap_block_height in E by lia. done. }
      assert (ds_height c = 0) as H0c by (by rewrite (same_core_inv r c Hc)).
      destruct (Hw H0c) as [Hm Hp]. by eapply (bootstrap_accept_core fuel r c).
    - apply (sim_ok _ _ _ _ (validate_sim fuel r c header txs ops E Hc)) in H as ([c' hash'] & H & Hcc & Hee).
      cbn in Hcc, Hee. subst hash'. by exists c'. }
  exists c'. split; [done|]. split; [done|]. split; [lia|]. intros H0.
  assert (ds_height c' = ds_height r') by (by rewrite (same_core_inv r' c' H2)). lia.
Qed.

Lemma replay_body r b x :
  body_of b x ->
  replay_block fuel r b = (let? (next, _) := validate_and_apply_block fuel r x.1.1 x.1.2 x.2 in Ok next).
Proof.
  intros []. apply (replay_stored fuel r b x.1.1 x.1.2 x.2 (payload_bytes x.1.1 x.1.2 x.2)); [done| |done].
  by apply decode_payload_iff.
Qed.

Lemma talks_download mismatch blocks xs r c r' :
  Forall2 body_of blocks xs -> blocks ⊆ ds_blocks t -> 0 <= ds_height r -> same_core r c -> nothing_waits c ->
  fold_result (replay_block fuel) r blocks = Ok r' ->
  (exists c', talks t (download_blocks fuel saved mismatch (map body_header xs) c) c' /\ same_core r' c')
  \/ collides (chain_messages (ds_blocks t)) (chain_messages (ds_blocks t)).
Proof.
  intros HF. revert r c; induction HF as [|b x blocks xs Hx _ IH]; intros r c Hsub Hr Hc Hw; cbn [fold_result].
  { intros <-%Ok_inj. left. exists c. split; [apply talks_done|done]. }
  rewrite (replay_body r b x Hx). destruct (validate_and_apply_block fuel r _ _ _) as [[r1 hash]|] eqn:Ev; [|done].
  intros Hf. destruct (candidate_follows r c _ _ _ _ _ Hr Hc Hw Ev) as (c1 & Hv & Hc1 & Hr1 & Hw1).
  destruct (talks_block b x) as [Hblock|]; [apply Hsub; by left|done| |by right].
  destruct (IH r1 c1) as [(c' & Ht & Hc')|]; [set_solver|done..| |by right].
  left. exists c'. split; [|done]. cbn [map download_blocks]. eapply talks_bind; [exact Hblock|].
  unfold body_header. clear - Hv Ht. destruct x as [[h ts] os]. cbn [fst snd] in *. rewrite bytes_eqb_refl. cbn [negb].
  eapply talks_bind; [by apply talks_lift|]. exact Ht.
Qed.
End serving.

(** ** The node catches up *)

Section catch_up.
Context {SHA : Sha2} {ED : Ed25519} {AR : Argon2}.
Context (fuel : nat) (saved : node_result DevnetState).

(** What a block's body determines of its replay and its work. *)
Lemma bodies_replay l k xs r :
  Forall2 body_of l xs -> Forall2 body_of k xs ->
  fold_result (replay_block fuel) r l = fold_result (replay_block fuel) r k.
Proof.
  intros Hl. revert k r; induction Hl as [|b x l xs Hb _ IH]; intros k r Hk;
    [by apply Forall2_nil_inv_r in Hk as ->|]. apply Forall2_cons_inv_r in Hk as (c & k' & Hc & Hk & ->).
  cbn [fold_result]. rewrite (replay_body fuel r b x Hb), (replay_body fuel r c x Hc).
  destruct (validate_and_apply_block fuel r _ _ _) as [[r1 hash]|]; [|done]. by apply IH.
Qed.

Lemma bodies_work l k xs w :
  Forall2 body_of l xs -> Forall2 body_of k xs -> fold_result add_work w l = fold_result add_work w k.
Proof.
  intros Hl. revert k w; induction Hl as [|b x l xs Hb _ IH]; intros k w Hk;
    [by apply Forall2_nil_inv_r in Hk as ->|]. apply Forall2_cons_inv_r in Hk as (c & k' & Hc & Hk & ->).
  cbn [fold_result]. unfold add_work at 1 3. rewrite (bf_target _ _ _ _ Hb), (bf_target _ _ _ _ Hc).
  destruct (decode32 _) as [target|]; [|done]. by apply IH.
Qed.

Lemma work_app l k a w :
  fold_result add_work a (l ++ k) = Ok w -> exists w1, fold_result add_work a l = Ok w1 /\ w1 <= w.
Proof.
  rewrite fold_result_app. destruct (fold_result add_work a l) as [w1|]; [|done]. intros H. exists w1. split; [done|].
  revert w1 H; induction k as [|b k IH]; intros w1; cbn [fold_result]; [intros [= ->]; lia|].
  unfold add_work at 1. destruct (decode32 (bk_target b)) as [target|] eqn:E; [|done]. intros H%IH.
  pose proof (block_work_pos target (decode32_length _ _ E)). lia.
Qed.

(** *** The common prefix *)

Lemma common_prefix_left {A B} (same : A -> B -> bool) l k :
  common_prefix same l k = length l -> Forall2 (fun a b => same a b = true) l (take (length l) k).
Proof.
  revert k; induction l as [|a l IH]; intros [|b k]; cbn [common_prefix length take]; try done.
  destruct (same a b) eqn:E; [|done]. intros [= H]. constructor; [done|by apply IH].
Qed.

Lemma common_prefix_right {A B} (same : A -> B -> bool) l k :
  common_prefix same l k = length k -> Forall2 (fun a b => same a b = true) (take (length k) l) k.
Proof.
  revert k; induction l as [|a l IH]; intros [|b k]; cbn [common_prefix length take]; try done.
  destruct (same a b) eqn:E; [|done]. intros [= H]. constructor; [done|by apply IH].
Qed.

Lemma matched_bodies l0 k0 l xs k ys :
  l ⊆ l0 -> k ⊆ k0 -> Forall2 body_of l xs -> Forall2 body_of k ys ->
  Forall2 (fun b header => bool_decide (bk_block_hash b = hex_encode (block_hash header)) = true) l (map body_header ys) ->
  Forall2 body_of l ys \/ collides (chain_messages l0) (chain_messages k0).
Proof.
  intros Hl0 Hk0 Hl. revert Hl0 k Hk0 ys; induction Hl as [|b x l xs Hb _ IH]; intros Hl0 k Hk0 ys Hk H.
  - apply Forall2_nil_inv_l in H. apply map_eq_nil in H as ->. by left.
  - destruct ys as [|y ys]; [by apply Forall2_nil_inv_r in H|]. cbn [map] in H.
    apply Forall2_cons_1 in H as [H1 H2]. apply bool_decide_eq_true in H1.
    apply Forall2_cons_inv_r in Hk as (c & k' & Hc & Hk & ->).
    destruct (IH ltac:(set_solver) k' ltac:(set_solver) ys Hk H2) as [Hrest|]; [|by right].
    destruct (bodies_bind l0 k0 b c x y) as [<-|]; [apply Hl0; by left|apply Hk0; by left|done|done| |left; by constructor|by right].
    by rewrite (bf_hash _ _ _ _ Hc).
Qed.

(** *** The replay of a node's chain *)

Lemma accepted_epoch s header txs ops s' hash :
  validate_and_apply_block fuel s header txs ops = Ok (s', hash) -> canonical_epoch s' = ds_tip_epoch s'.
Proof.
  unfold canonical_epoch. intros [[f hd t o E|next license weight e post h _ Hn _ _ _ _ Hb Hh Ht Ho _ ->] _]%validate_accepted.
  - unfold build_devnet_bootstrap_transition in E. pass_checks E.
    apply Ok_inj in E. apply pair_inj in E as [[[[<- _]%pair_inj _]%pair_inj _]%pair_inj _].
    fields. by rewrite last_snoc.
  - destruct (commit_fields e post) as (_ & F2 & _ & _ & _ & _ & _ & F8 & _). by rewrite F2, F8, last_snoc.
Qed.

Lemma replayed_epoch g blocks r :
  genesis_state g -> fold_result (replay_block fuel) g blocks = Ok r -> canonical_epoch r = ds_tip_epoch r.
Proof.
  intros Hg. induction blocks as [|b blocks _] using rev_ind.
  - intros <-%Ok_inj. unfold canonical_epoch. by rewrite (gs_blocks g Hg), (gs_tip_epoch g Hg).
  - rewrite fold_result_snoc. destruct (fold_result _ g blocks) as [r1|]; [|done]. unfold replay_block.
    destruct (encode_block_payload b) as [payload|]; [|done].
    destruct (decode_block_payload payload) as [[[header txs] ops]|]; [|done].
    destruct (validate_and_apply_block fuel r1 header txs ops) as [[x hash]|] eqn:Ev; [|done].
    intros <-%Ok_inj. by eapply accepted_epoch.
Qed.

Lemma replay_state g s :
  reset_for_replay g = Ok g -> rtc (node_step fuel) g s ->
  exists r, fold_result (replay_block fuel) g (ds_blocks s) = Ok r /\ ds_blocks r = ds_blocks s /\ 0 <= ds_height r /\
    ((canonical_epoch s <? ds_tip_epoch s) = false -> same_core r s).
Proof.
  intros Hg Hrun. pose proof (reset_genesis _ _ Hg) as Hgs.
  pose proof (run_replayable fuel g s Hgs Hrun) as [(r & Hr & (a & Ha & Hc) & Ht) Hh].
  destruct (replay_run fuel _ _ _ (genesis_unstarted g Hgs) Hr) as [_ [Hrh _]].
  pose proof (advance_empty_epochs_same _ _ _ Ha) as [Hs _].
  assert (ds_blocks r = ds_blocks s) as Hb by (rewrite <- (sc_blocks _ _ Hs); by rewrite (same_core_inv a s Hc)).
  exists r. split_and!; [done|done|done|]. intros He. apply Z.ltb_ge in He.
  pose proof (replayed_epoch _ _ _ Hgs Hr) as Hcan. unfold canonical_epoch in He, Hcan. rewrite Hb in Hcan.
  replace (ds_tip_epoch s) with (ds_tip_epoch r) in Ha by lia. rewrite advance_here in Ha. apply Ok_inj in Ha as ->. done.
Qed.

(** *** Outcomes *)

(** Reorganisations can bring back what the old branch and the mempool hold. *)
Definition restorable (s : DevnetState) : Prop :=
  forall adopted fork, exists r, restore_reorg_mempool adopted s fork = Ok r.

Lemma genesis_restorable g : genesis_state g -> restorable g.
Proof.
  intros Hg adopted fork. unfold restore_reorg_mempool. rewrite (gs_blocks g Hg), (gs_mempool g Hg), (gs_pending g Hg), drop_nil.
  cbn [fold_result fold_left]. by eexists.
Qed.

Lemma reconcile_adopts s remote n w w' :
  ds_height s = Z.of_nat (length (ds_blocks s)) -> chainwork s = Ok w -> chainwork remote = Ok w' -> w < w' ->
  restorable s ->
  exists s' report, reconcile_validated_remote s remote n = Ok (s', report) /\ same_core remote s'.
Proof.
  intros Hh Hw Hw' Hlt Hres. unfold reconcile_validated_remote. rewrite Hw, Hw'. destruct (Z.leb_spec w' w); [lia|].
  set (fork := common_ancestor_height s remote).
  destruct (archive_branch (remote <| ds_side_branches := ds_side_branches s |>) s fork) as [a|] eqn:Ea.
  - apply archive_core in Ea. destruct (Hres a fork) as [[u k] Hu]. rewrite Hu.
    eexists _, _. split; [reflexivity|]. apply restore_core in Hu. etrans; [|exact Hu]. etrans; [|exact Ea]. done.
  - exfalso. unfold archive_branch in Ea. destruct (Z.leb_spec (ds_height s) fork); [done|].
    destruct (Z.ltb_spec (Z.of_nat (length (ds_blocks s))) fork); [lia|].
    destruct (is_empty _); [done|]. destruct (existsb _ _); [done|]. unfold chainwork_hex in Ea. by rewrite Hw in Ea.
Qed.

(** A chain that the node already has is not heavier. *)
Lemma covered_work s t xs ys w w' :
  Forall2 body_of (ds_blocks s) xs -> Forall2 body_of (ds_blocks t) ys ->
  common_prefix_with_headers s (map body_header ys) = Z.of_nat (length (ds_blocks t)) ->
  chainwork s = Ok w -> chainwork t = Ok w' -> w' <= w \/
  collides (chain_messages (ds_blocks s)) (chain_messages (ds_blocks t)).
Proof.
  intros Hx Hy Hc Hw Hw'. unfold common_prefix_with_headers in Hc. apply Nat2Z.inj in Hc.
  rewrite (Forall2_length _ _ _ Hy), <- (length_map body_header ys) in Hc. apply common_prefix_right in Hc.
  rewrite length_map in Hc.
  destruct (matched_bodies (ds_blocks s) (ds_blocks t) _ _ _ ys (subseteq_take _ _) ltac:(done)
              (Forall2_take _ _ _ (length ys) Hx) Hy Hc) as [Hm|]; [left|by right]. clear Hc.
  change (chainwork s) with (fold_result add_work 0 (ds_blocks s)) in Hw. change (chainwork t) with (fold_result add_work 0 (ds_blocks t)) in Hw'.
  rewrite <- (take_drop (length ys) (ds_blocks s)) in Hw. apply work_app in Hw as (w1 & Hw1 & Hle).
  rewrite (bodies_work _ _ _ 0 Hm Hy), Hw' in Hw1. apply Ok_inj in Hw1. lia.
Qed.

(** Two messages collide, one hashed for a block of either node and one for a
    block of the peer. *)
Definition chains_collide (s t : DevnetState) : Prop :=
  collides (chain_messages (ds_blocks s) ++ chain_messages (ds_blocks t)) (chain_messages (ds_blocks t)).

(** The session ends with a result in [Q]. *)
Definition achieves {A} (s t : DevnetState) (m : session NodeError A) (Q : A -> Prop) : Prop :=
  (exists a, talks t m a /\ Q a) \/ chains_collide s t.

Lemma collide_two s t : collides (chain_messages (ds_blocks s)) (chain_messages (ds_blocks t)) -> chains_collide s t.
Proof. intros H. unfold chains_collide. more_messages H. Qed.

Lemma collide_one s t : collides (chain_messages (ds_blocks t)) (chain_messages (ds_blocks t)) -> chains_collide s t.
Proof. intros H. unfold chains_collide. more_messages H. Qed.

Lemma achieves_bind {A B} s t (m : session NodeError A) (f : A -> session NodeError B) (P : A -> Prop) Q :
  achieves s t m P -> (forall a, P a -> achieves s t (f a) Q) -> achieves s t (session_bind m f) Q.
Proof.
  intros [(a & Ha & HP)|]; [|by right]. intros Hf. destruct (Hf a HP) as [(b & Hb & HQ)|]; [left|by right].
  exists b. split; [by eapply talks_bind|done].
Qed.

Lemma achieves_ok {A} s t (a : A) (Q : A -> Prop) : Q a -> achieves s t (Done (Ok a)) Q.
Proof. intros H. left. exists a. split; [apply talks_done|done]. Qed.

Lemma achieves_lift {A} s t (r : node_result A) (Q : A -> Prop) : (exists a, r = Ok a /\ Q a) -> achieves s t (lift r) Q.
Proof. intros (a & -> & H). by apply achieves_ok. Qed.

Section two_nodes.
Context (g s t : DevnetState) (ys : list block_body) (r : DevnetState).
Context (Hg : reset_for_replay g = Ok g) (Hs : rtc (node_step fuel) g s).
Context (Hys : Forall2 body_of (ds_blocks t) ys).
Context (Hr : fold_result (replay_block fuel) g (ds_blocks t) = Ok r).
Context (Hht : ds_height t = Z.of_nat (length (ds_blocks t))) (Hu64 : is_u64 (ds_height t)).

(** The candidate of an extension. *)
Lemma candidate_ok rs :
  fold_result (replay_block fuel) g (ds_blocks s) = Ok rs -> nothing_waits s ->
  ((canonical_epoch s <? ds_tip_epoch s) = false -> same_core rs s) ->
  exists c, (if canonical_epoch s <? ds_tip_epoch s then rewind_empty_epochs fuel s else Ok s) = Ok c /\
    same_core rs c /\ nothing_waits c.
Proof.
  intros Hrs Hw Hcur. pose proof (run_replayable fuel g s (reset_genesis _ _ Hg) Hs) as [(r0 & Hr0 & (a & Ha & Hc) & _) _].
  assert (r0 = rs) as -> by congruence. destruct (canonical_epoch s <? ds_tip_epoch s).
  - unfold rewind_empty_epochs, replay_canonical_blocks. rewrite (origin_run fuel g s Hg Hs), Hrs.
    eexists. split; [reflexivity|]. split; [done|]. intros H0. apply Hw.
    assert (ds_height s = ds_height rs) as ->; [|exact H0].
    rewrite (same_core_inv a s Hc). apply (sc_height _ _ (proj1 (advance_empty_epochs_same _ _ _ Ha))).
  - exists s. split; [done|]. split; [by apply Hcur|done].
Qed.

Lemma extension_talks mismatch xs rs c :
  Forall2 body_of (ds_blocks s) xs -> fold_result (replay_block fuel) g (ds_blocks s) = Ok rs -> 0 <= ds_height rs ->
  same_core rs c -> nothing_waits c ->
  common_prefix_with_headers s (map body_header ys) = Z.of_nat (length (ds_blocks s)) ->
  achieves s t (download_blocks fuel saved mismatch (drop (length (ds_blocks s)) (map body_header ys)) c) (same_core r).
Proof.
  intros Hx Hrs Hrs0 Hc Hw Hp. unfold common_prefix_with_headers in Hp. apply Nat2Z.inj, common_prefix_left in Hp.
  set (n := length (ds_blocks s)) in *. rewrite firstn_map in Hp. rewrite skipn_map.
  pose proof (Forall2_take _ _ _ n Hys) as Hy1. pose proof (Forall2_drop _ _ _ n Hys) as Hy2.
  destruct (matched_bodies (ds_blocks s) (ds_blocks t) _ _ _ _ ltac:(done) (subseteq_take _ _) Hx Hy1 Hp) as [Hm|];
    [|right; by apply collide_two].
  rewrite <- (take_drop n (ds_blocks t)), fold_result_app in Hr.
  rewrite <- (bodies_replay _ _ _ g Hm Hy1), Hrs in Hr.
  destruct (talks_download saved t ys Hys Hht Hu64 fuel mismatch _ _ rs c r Hy2) as [?|];
    [|done..|by left|right; by apply collide_one].
  intros b Hb. rewrite <- (take_drop n (ds_blocks t)). apply elem_of_app. by right.
Qed.

Lemma fork_talks mismatch :
  achieves s t (download_blocks fuel saved mismatch (map body_header ys) g) (same_core r).
Proof.
  pose proof (reset_genesis _ _ Hg) as [].
  destruct (talks_download saved t ys Hys Hht Hu64 fuel mismatch _ _ g g r Hys) as [?|];
    [done|lia|done|by intros _|done|by left|right; by apply collide_one].
Qed.
End two_nodes.

End catch_up.
