(* ===== verification/MainnetWitness.v ===== *)
(** The witness of the Mainnet bootstrap
    ([mutiny-node/src/mainnet_bootstrap.rs]): the file that holds the Bitcoin
    headers, the payment and its Merkle proof, its authentication by digest and
    its decoder. *)

From Stdlib Require Import Strings.Byte Strings.String.
From stdpp Require Import strings.
From S2P Require Import Prelude Crypto Codec Protocol Collections.

Definition MAINNET_BOOTSTRAP_WITNESS_LEN : Z := 161323.
Definition WITNESS_SHA256 : bytes32 :=
  hex "b115c11cc8a4085a5d950be608c0e6448d9d3823d3ab15fb439d1fd231aa6126".
Definition ANCHOR : bytes32 := hex "322d839f2a0d04631b7b40dda2a85a455b7f329a9d7601000000000000000000".
Definition COUNTS : list Z := [256; 256; 256; 256; 256; 256; 256; 211].
Definition LENGTHS : list Z := [20518; 20518; 20518; 20518; 20518; 20518; 20518; 16918].

Inductive BootstrapInputError :=
| Missing (path : string)
| Unreadable (path message : string)
| WrongLength (n : Z)
| WrongHash
| Decode (message : string).

Record DecodedMainnetBootstrapWitness := {
  wt_version : Z;
  wt_network_id : Z;
  wt_genesis_id : bytes32;
  wt_anchor_height : Z;
  wt_anchor_hash_internal : bytes32;
  wt_batches : list BitcoinHeadersV1;
  wt_raw_transaction : bytes;
  wt_payment_output_index : Z;
  wt_manifest_output_index : Z;
  wt_merkle_transaction_index : Z;
  wt_merkle_siblings : list bytes32;
  wt_containing_height : Z;
}.

(** ** The cursor *)

Record Cursor := { cu_b : bytes; cu_p : nat }.

Abbreviation reading A := (Cursor -> result BootstrapInputError (A * Cursor)).

Definition decode_err {A} (message : string) : result BootstrapInputError A := Err (Decode message).

Definition cursor_take (n : nat) : reading bytes := fun c =>
  let? e := ok_or (Decode "length overflow") (checked_add 64 (Z.of_nat (cu_p c)) (Z.of_nat n)) in
  if Z.of_nat (length (cu_b c)) <? e then decode_err "truncated witness"
  else Ok (slice (cu_p c) (Z.to_nat e) (cu_b c), {| cu_b := cu_b c; cu_p := Z.to_nat e |}).

Definition cursor_u16 : reading Z := fun c => let? (b, c) := cursor_take 2 c in Ok (be_val b, c).
Definition cursor_u32 : reading Z := fun c => let? (b, c) := cursor_take 4 c in Ok (be_val b, c).
Definition cursor_a32 : reading bytes32 := cursor_take 32.

(** The inner [loop]: at most ten bytes of a [u64]. *)
Fixpoint minimal_varuint (rounds : nat) (q : Z) (out : bytes) : bytes :=
  match rounds with
  | O => out
  | S rounds =>
      let y := Z.land q 127 in
      let q := Z.shiftr q 7 in
      let y := if negb (q =? 0) then Z.lor y 128 else y in
      let out := out ++ [byte_of_Z y] in
      if q =? 0 then out else minimal_varuint rounds q out
  end.

(** [for i in 0..10], of which [rounds] are left; [s] is where the number starts. *)
Fixpoint cursor_var_loop (rounds : nat) (s : nat) (i v : Z) : reading Z := fun c =>
  match rounds with
  | O => decode_err "unterminated VarUInt"
  | S rounds =>
      let? (x, c) := cursor_take 1 c in
      let x := Z_of_byte (default Byte.x00 (head x)) in
      let lo := Z.land x 127 in
      if (i =? 9) && (1 <? lo) then decode_err "VarUInt overflow"
      else
        let v := Z.lor v (Z.shiftl lo (i * 7) mod 2 ^ 64) in
        if Z.land x 128 =? 0 then
          if negb (bytes_eqb (slice s (cu_p c) (cu_b c)) (minimal_varuint 10 v []))
          then decode_err "non-minimal VarUInt"
          else
            let? v := ok_or (Decode "VarUInt usize overflow") (try_from 64 v) in Ok (v, c)
        else cursor_var_loop rounds s (i + 1) v c
  end.

Definition cursor_var : reading Z := fun c => cursor_var_loop 10 (cu_p c) 0 0 c.

(** ** The decoder *)

(** One of the eight batches. *)
Definition read_batch (len count : Z) : reading BitcoinHeadersV1 := fun c =>
  let? (n, c) := cursor_var c in
  if negb (n =? len) then decode_err "wrong batch length"
  else
    let? (payload, c) := cursor_take (Z.to_nat n) c in
    let? batch := map_err (fun _ => Decode "malformed batch") (BitcoinHeadersV1_decode_payload payload) in
    if negb (hd_network_id batch =? MAINNET_NETWORK_ID) || negb (bytes_eqb (hd_genesis_id batch) MAINNET_GENESIS_ID)
       || negb (Z.of_nat (length (hd_headers batch)) =? count)
    then decode_err "invalid batch"
    else
      let? reencoded := map_err (fun _ => Decode "batch reencode") (BitcoinHeadersV1_payload batch) in
      if negb (bytes_eqb reencoded payload) then decode_err "invalid batch" else Ok (batch, c).

Fixpoint read_batches (shapes : list (Z * Z)) : reading (list BitcoinHeadersV1) := fun c =>
  match shapes with
  | [] => Ok ([], c)
  | (len, count) :: shapes =>
      let? (batch, c) := read_batch len count c in
      let? (batches, c) := read_batches shapes c in
      Ok (batch :: batches, c)
  end.

Fixpoint read_siblings (n : nat) : reading (list bytes32) := fun c =>
  match n with
  | O => Ok ([], c)
  | S n =>
      let? (sibling, c) := cursor_a32 c in
      let? (siblings, c) := read_siblings n c in
      Ok (sibling :: siblings, c)
  end.

Definition decode (bs : bytes) : result BootstrapInputError DecodedMainnetBootstrapWitness :=
  if negb (Z.of_nat (length bs) =? MAINNET_BOOTSTRAP_WITNESS_LEN) then Err (WrongLength (Z.of_nat (length bs)))
  else
    let c := {| cu_b := bs; cu_p := 0 |} in
    let? (version, c) := cursor_u16 c in
    if negb (version =? 1) then decode_err "wrong version" else
    let? (network_id, c) := cursor_u32 c in
    if negb (network_id =? MAINNET_NETWORK_ID) then decode_err "wrong NetworkID" else
    let? (genesis_id, c) := cursor_a32 c in
    if negb (bytes_eqb genesis_id MAINNET_GENESIS_ID) then decode_err "wrong GenesisID" else
    let? (anchor_height, c) := cursor_u32 c in
    if negb (anchor_height =? 963648) then decode_err "wrong anchor height" else
    let? (anchor_hash, c) := cursor_a32 c in
    if negb (bytes_eqb anchor_hash ANCHOR) then decode_err "wrong anchor hash" else
    let? (batch_count, c) := cursor_var c in
    if negb (batch_count =? 8) then decode_err "wrong batch count" else
    let? (batches, c) := read_batches (combine LENGTHS COUNTS) c in
    let? (n, c) := cursor_var c in
    if negb (n =? 277) then decode_err "wrong transaction length" else
    let? (raw_transaction, c) := cursor_take (Z.to_nat n) c in
    let? (payment_output_index, c) := cursor_u32 c in
    if negb (payment_output_index =? 0) then decode_err "wrong payment index" else
    let? (manifest_output_index, c) := cursor_u32 c in
    if negb (manifest_output_index =? 1) then decode_err "wrong manifest index" else
    let? (merkle_transaction_index, c) := cursor_u32 c in
    if negb (merkle_transaction_index =? 181) then decode_err "wrong Merkle index" else
    let? (sibling_count, c) := cursor_var c in
    if negb (sibling_count =? 12) then decode_err "wrong sibling count" else
    let? (siblings, c) := read_siblings 12 c in
    let? (containing_height, c) := cursor_u32 c in
    if negb (containing_height =? 965646) then decode_err "wrong containing height"
    else if negb (cu_p c =? length bs)%nat then decode_err "trailing bytes"
    else Ok {| wt_version := version; wt_network_id := network_id; wt_genesis_id := genesis_id;
               wt_anchor_height := anchor_height; wt_anchor_hash_internal := anchor_hash;
               wt_batches := batches; wt_raw_transaction := raw_transaction;
               wt_payment_output_index := payment_output_index;
               wt_manifest_output_index := manifest_output_index;
               wt_merkle_transaction_index := merkle_transaction_index; wt_merkle_siblings := siblings;
               wt_containing_height := containing_height |}.

(** ** The provider *)

Section provider.
Context {SHA : Sha2}.

(** [MainnetBootstrapWitness::authenticate]: the bytes it wraps. *)
Definition authenticate (bs : bytes) : result BootstrapInputError bytes :=
  if negb (Z.of_nat (length bs) =? MAINNET_BOOTSTRAP_WITNESS_LEN) then Err (WrongLength (Z.of_nat (length bs)))
  else if negb (bytes_eqb (sha256 bs) WITNESS_SHA256) then Err WrongHash
  else Ok bs.

(** [BootstrapWitnessProvider::load]; [is_file] and [read] are what the file
    system answers. *)
Definition load (path : string) (is_file : bool) (read : result string bytes) : result BootstrapInputError bytes :=
  if negb is_file then Err (Missing path)
  else
    let? b := map_err (Unreadable path) read in
    authenticate b.
End provider.

(** ** The witness format *)

(** [read] accepts at the cursor exactly the encodings of values in [wf]. *)
Definition cursor_codec {A} (read : reading A) (enc : A -> bytes) (wf : A -> Prop) : Prop :=
  forall b p a c', Z.of_nat (length b) < 2 ^ 64 -> (p <= length b)%nat ->
    read {| cu_b := b; cu_p := p |} = Ok (a, c') <->
    wf a /\ (exists rest, drop p b = enc a ++ rest) /\ c' = {| cu_b := b; cu_p := (p + length (enc a))%nat |}.

Lemma cursor_next (b : bytes) p e rest :
  (p <= length b)%nat -> drop p b = e ++ rest ->
  (p + length e <= length b)%nat /\ drop (p + length e) b = rest /\ slice p (p + length e) b = e.
Proof.
  intros Hp H. assert (length b - p = length e + length rest)%nat as Hl
    by (rewrite <- length_drop, H, length_app; done).
  split; [lia|]. split; [by rewrite <- drop_drop, H, drop_app_length|].
  unfold slice. by rewrite H, Nat.add_comm, Nat.add_sub, take_app_length.
Qed.

Lemma cursor_take_codec n : cursor_codec (cursor_take n) (fun b => b) (fun b => length b = n).
Proof.
  intros b p a c' Hb Hp. unfold cursor_take. cbn [cu_b cu_p]. split.
  - destruct (checked_add 64 _ _) as [e|] eqn:E; cbn [ok_or]; [|done]. apply checked_add_Some in E as [-> _].
    destruct (Z.ltb_spec (Z.of_nat (length b)) (Z.of_nat p + Z.of_nat n)); [done|].
    rewrite <- Nat2Z.inj_add, Nat2Z.id. intros [<- <-]%Ok_inj%pair_inj.
    assert (length (slice p (p + n) b) = n) as Hl by (rewrite length_slice; lia).
    rewrite Hl. split; [done|]. split; [|done]. exists (drop (p + n) b).
    unfold slice. by rewrite Nat.add_comm, Nat.add_sub, Nat.add_comm, <- drop_drop, take_drop.
  - intros (<- & (rest & H) & ->). destruct (cursor_next b p a rest Hp H) as (H1 & _ & H2).
    unfold checked_add. destruct (Z.ltb_spec (Z.of_nat p + Z.of_nat (length a)) (2 ^ 64)); [|lia]. cbn [ok_or].
    destruct (Z.ltb_spec (Z.of_nat (length b)) (Z.of_nat p + Z.of_nat (length a))); [lia|].
    by rewrite <- Nat2Z.inj_add, Nat2Z.id, H2.
Qed.

(** A fixed-width integer. *)
Lemma cursor_uint_codec n :
  cursor_codec (fun c => let? (b, c) := cursor_take n c in Ok (be_val b, c)) (be_bytes n)
    (fun v => 0 <= v < 256 ^ Z.of_nat n).
Proof.
  intros b p a c' Hb Hp. split.
  - destruct (cursor_take n _) as [[x c1]|] eqn:E; [|done]. apply cursor_take_codec in E as (Hl & (rest & Hd) & ->); [|done..].
    intros [<- <-]%Ok_inj%pair_inj. rewrite be_bytes_be_val by done. split; [by apply be_val_range|]. split; [by exists rest|done].
  - intros (Ha & (rest & Hd) & ->).
    rewrite (proj2 (cursor_take_codec n b p (be_bytes n a) _ Hb Hp))
      by (split; [apply length_be_bytes|split; [by exists rest|done]]). by rewrite be_val_be_bytes.
Qed.

Lemma cursor_u16_codec : cursor_codec cursor_u16 (be_bytes 2) (fun v => is_u16 v).
Proof. apply (cursor_uint_codec 2). Qed.
Lemma cursor_u32_codec : cursor_codec cursor_u32 (be_bytes 4) (fun v => is_u32 v).
Proof. apply (cursor_uint_codec 4). Qed.
Lemma cursor_a32_codec : cursor_codec cursor_a32 (fun b => b) (fun b => is32 b).
Proof. apply cursor_take_codec. Qed.

(** *** The VarUInt of the witness is the canonical one *)

Lemma minimal_varuint_eq v : minimal_varuint 10 v [] = encode_varuint v.
Proof.
  unfold encode_varuint, write_varuint. generalize (@nil byte). generalize 10%nat. intros n.
  revert v; induction n as [|n IH]; intros v out; cbn [minimal_varuint write_varuint_loop]; [done|].
  destruct (Z.shiftr v 7 =? 0); [done|]. by rewrite IH.
Qed.

(** The loop runs in step with the reader of the codec. *)
Lemma cursor_var_loop_sim rounds i b s v w c' :
  (rounds + i = 10)%nat -> Z.of_nat (length b) < 2 ^ 64 -> (s + i <= length b)%nat ->
  cursor_var_loop rounds s (Z.of_nat i) v {| cu_b := b; cu_p := s + i |} = Ok (w, c') <->
  exists n, read_varuint_loop (S rounds) (drop s b) v (7 * Z.of_nat i) i = Ok (w, n) /\
    take n (drop s b) = encode_varuint w /\ w < 2 ^ 64 /\ c' = {| cu_b := b; cu_p := (s + n)%nat |}.
Proof.
  revert i v. induction rounds as [|rounds IH]; intros i v Hr Hb Hs.
  { cbn [cursor_var_loop read_varuint_loop]. destruct (Nat.leb_spec 10 i); [|lia]. split; [done|by intros (n & ? & _)]. }
  remember (S rounds) as fuel eqn:Hfuel. cbn [read_varuint_loop]. rewrite Hfuel at 1. cbn [cursor_var_loop].
  destruct (Nat.leb_spec 10 i); [lia|].
  destruct (drop s b !! i) as [x|] eqn:Ex; cbn [ok_or].
  - rewrite lookup_drop in Ex. pose proof (lookup_lt_Some _ _ _ Ex) as Hlt.
    rewrite (proj2 (cursor_take_codec 1 b (s + i)%nat [x] {| cu_b := b; cu_p := (s + S i)%nat |} Hb Hs)).
    2:{ split; [done|]. split; [exists (drop (S (s + i)) b); by apply drop_S|]. cbn [length]. f_equal; lia. }
    cbn [head default from_option id cu_p cu_b]. change (id x) with x. set (lo := Z.land (Z_of_byte x) 127).
    replace (Z.of_nat i =? 9) with (7 * Z.of_nat i =? 63) by (destruct (Z.eqb_spec (7 * Z.of_nat i) 63), (Z.eqb_spec (Z.of_nat i) 9); (done || lia)).
    destruct (_ && (1 <? lo)); [split; [done|by intros (n & ? & _)]|].
    destruct (Z.ltb_spec 63 (7 * Z.of_nat i)); [lia|]. cbn [andb]. unfold checked_shl.
    destruct (Z.ltb_spec (7 * Z.of_nat i) 64); [|lia]. cbn [ok_or]. rewrite (Z.mul_comm (Z.of_nat i) 7).
    set (v' := Z.lor v _). destruct (_ =? 0).
    + rewrite minimal_varuint_eq. unfold slice at 1. replace (s + S i - s)%nat with (S i) by lia.
      destruct (bytes_eqb (take (S i) (drop s b)) (encode_varuint v')) eqn:E; cbn [negb]; bool_to_prop.
      * unfold try_from. destruct (Z.ltb_spec v' (2 ^ 64)); cbn [ok_or]; split.
        -- intros [<- <-]%Ok_inj%pair_inj. by exists (S i).
        -- intros (n & [<- <-]%Ok_inj%pair_inj & _ & _ & ->). done.
        -- done.
        -- intros (n & [<- <-]%Ok_inj%pair_inj & _ & Hw & _). lia.
      * split; [done|]. intros (n & [<- <-]%Ok_inj%pair_inj & Ht & _). by rewrite Ht in E.
    + subst fuel. replace (7 * Z.of_nat i + 7) with (7 * Z.of_nat (S i)) by lia.
      replace (Z.of_nat i + 1) with (Z.of_nat (S i)) by lia. apply IH; lia.
  - split; [|by intros (n & ? & _)]. rewrite lookup_drop in Ex. apply lookup_ge_None in Ex.
    destruct (cursor_take 1 _) as [[y c1]|] eqn:E; [|done]. apply cursor_take_codec in E as (Hl & (rest & Hd) & _); [|done..].
    apply (f_equal length) in Hd. rewrite length_drop, length_app in Hd. lia.
Qed.

Lemma cursor_var_codec : cursor_codec cursor_var encode_varuint (fun v => is_u64 v).
Proof.
  intros b p v c' Hb Hp. unfold cursor_var. cbn [cu_p].
  pose proof (cursor_var_loop_sim 10 0 b p 0 v c' eq_refl Hb) as H. rewrite Nat.add_0_r in H.
  change (Z.of_nat 0) with 0 in H. change (7 * 0) with 0 in H. rewrite H by done. clear H. split.
  - intros (n & Hr & Ht & Hv & ->). assert (is_u64 v) as Hu by (eapply read_varuint_loop_range; [|exact Hr]; lia).
    pose proof (read_varuint_loop_consumed _ _ _ _ _ _ _ Hr) as Hn. rewrite length_drop in Hn.
    split; [done|]. split; [exists (drop n (drop p b)); by rewrite <- Ht, take_drop|].
    rewrite <- Ht, length_take, length_drop. f_equal; lia.
  - intros (Hv & (rest & Hd) & ->). pose proof (read_varuint_app v rest Hv) as Hr. unfold read_varuint in Hr. rewrite <- Hd in Hr.
    destruct (read_varuint_loop 11 (drop p b) 0 0 0) as [[w n]|] eqn:E; [|done].
    destruct (negb _) eqn:Eq; [done|]. bool_to_prop. apply Ok_inj, pair_inj in Hr as [-> Hr].
    exists n. split; [done|]. split; [by rewrite Eq|]. split; [lia|]. do 2 f_equal.
    rewrite Eq, length_take. apply read_varuint_loop_consumed in E. lia.
Qed.

(** *** Batches and siblings *)

Definition batch_payload (h : BitcoinHeadersV1) : bytes :=
  be_bytes 4 (hd_network_id h) ++ hd_genesis_id h ++ encode_varuint (Z.of_nat (length (hd_headers h)))
  ++ concat (hd_headers h).

Definition batch_bytes (h : BitcoinHeadersV1) : bytes :=
  encode_varuint (Z.of_nat (length (batch_payload h))) ++ batch_payload h.

(** A batch of the given payload length and number of headers. *)
Definition batch_wf (len count : Z) (h : BitcoinHeadersV1) : Prop :=
  hd_network_id h = MAINNET_NETWORK_ID /\ hd_genesis_id h = MAINNET_GENESIS_ID /\
  Forall (fun x => length x = 80%nat) (hd_headers h) /\ Z.of_nat (length (hd_headers h)) = count /\
  Z.of_nat (length (batch_payload h)) = len.

Lemma batch_wf_headers len count h : batch_wf len count h -> headers_wf h.
Proof. intros (H1 & H2 & H3 & _). unfold headers_wf. rewrite H1, H2. split_and!; done. Qed.

Lemma read_batch_codec len count :
  0 <= len < 2 ^ 64 -> 1 <= count <= 256 -> cursor_codec (read_batch len count) batch_bytes (batch_wf len count).
Proof.
  intros Hlen Hcount b p h c' Hb Hp. unfold read_batch, batch_bytes. split.
  - destruct (cursor_var _) as [[n c1]|] eqn:E1; [|done]. apply cursor_var_codec in E1 as (_ & (r1 & H1) & ->); [|done..].
    destruct (Z.eqb_spec n len) as [->|]; cbn [negb]; [|done].
    destruct (cursor_next b p _ _ Hp H1) as (Hp1 & Hd1 & _).
    destruct (cursor_take _ _) as [[payload c2]|] eqn:E2; [|done].
    apply cursor_take_codec in E2 as (Hl2 & (r2 & H2) & ->); [|done..].
    destruct (BitcoinHeadersV1_decode_payload payload) as [batch|] eqn:E3; cbn [map_err]; [|done].
    apply headers_decode_ok in E3 as [(_ & _ & H80) E3]. rewrite E3. cbn [map_err]. rewrite bytes_eqb_refl. cbn [negb].
    destruct (negb (_ =? MAINNET_NETWORK_ID) || _ || _) eqn:E4; [done|]. intros [<- <-]%Ok_inj%pair_inj. bool_to_prop.
    apply headers_payload_eq in E3 as [_ ->]. fold (batch_payload batch) in *.
    assert (Z.of_nat (length (batch_payload batch)) = len) as Hbl by lia. split_and!; try done.
    + exists r2. rewrite Hbl, <- app_assoc, <- H2, H1, Hd1. done.
    + rewrite Hbl, length_app. f_equal; lia.
  - intros (Hw & (rest & Hd) & ->). pose proof (batch_wf_headers _ _ _ Hw) as Hwf. destruct Hw as (Hn & Hg & H80 & Hc & Hl).
    rewrite <- app_assoc in Hd. rewrite Hl in Hd.
    rewrite (proj2 (cursor_var_codec b p len _ Hb Hp)) by (split; [lia|split; [by eexists|reflexivity]]).
    rewrite Z.eqb_refl. cbn [negb]. destruct (cursor_next b p _ _ Hp Hd) as (Hp1 & Hd1 & _).
    rewrite (proj2 (cursor_take_codec (Z.to_nat len) b _ (batch_payload h) _ Hb Hp1))
      by (split; [lia|split; [by eexists|reflexivity]]).
    assert (BitcoinHeadersV1_payload h = Ok (batch_payload h)) as Hpay by (apply headers_payload_eq; split; [lia|done]).
    rewrite (headers_decode_complete _ _ Hwf Hpay). cbn [map_err]. rewrite Hpay. cbn [map_err].
    rewrite Hn, Hg, Hc, !Z.eqb_refl, !bytes_eqb_refl. cbn [negb orb]. rewrite Hl, length_app. do 3 f_equal. lia.
Qed.

Definition shape_ok (s : Z * Z) : Prop := 0 <= s.1 < 2 ^ 64 /\ 1 <= s.2 <= 256.
Definition batch_of (s : Z * Z) (h : BitcoinHeadersV1) : Prop := batch_wf s.1 s.2 h.

Lemma read_batches_codec shapes :
  Forall shape_ok shapes ->
  cursor_codec (read_batches shapes) (encode_many batch_bytes) (Forall2 batch_of shapes).
Proof.
  induction 1 as [|[len count] shapes [H1 H2] _ IH]; intros b p hs c' Hb Hp; cbn [read_batches].
  - split.
    + intros [<- <-]%Ok_inj%pair_inj. split; [done|]. split; [by exists (drop p b)|]. by rewrite Nat.add_0_r.
    + intros (Hs & _ & ->). apply Forall2_nil_inv_l in Hs as ->. by rewrite Nat.add_0_r.
  - split.
    + destruct (read_batch len count _) as [[h c1]|] eqn:E1; [|done].
      apply read_batch_codec in E1 as (Hh & (r1 & Hd1) & ->); [|done..].
      destruct (cursor_next b p _ _ Hp Hd1) as (Hp1 & Hn1 & _).
      destruct (read_batches shapes _) as [[hs' c2]|] eqn:E2; [|done].
      apply IH in E2 as (Hhs & (r2 & Hd2) & ->); [|done..]. intros [<- <-]%Ok_inj%pair_inj.
      split; [by constructor|]. cbn [encode_many map concat]. fold (encode_many batch_bytes hs').
      split; [exists r2; by rewrite <- app_assoc, <- Hd2, Hn1|]. rewrite length_app. f_equal; lia.
    + intros (Hs & (rest & Hd) & ->). apply Forall2_cons_inv_l in Hs as (h & hs' & Hh & Hhs & ->).
      cbn [encode_many map concat] in Hd |- *. fold (encode_many batch_bytes hs') in Hd |- *. rewrite <- app_assoc in Hd.
      rewrite (proj2 (read_batch_codec len count H1 H2 b p h _ Hb Hp)) by (split; [done|split; [by eexists|reflexivity]]).
      destruct (cursor_next b p _ _ Hp Hd) as (Hp1 & Hn1 & _).
      rewrite (proj2 (IH b _ hs' _ Hb Hp1)) by (split; [done|split; [by eexists|reflexivity]]).
      rewrite length_app. do 3 f_equal. lia.
Qed.

Lemma read_siblings_codec n :
  cursor_codec (read_siblings n) (@concat byte) (fun l => length l = n /\ Forall (fun x => is32 x) l).
Proof.
  induction n as [|n IH]; intros b p hs c' Hb Hp; cbn [read_siblings].
  - split.
    + intros [<- <-]%Ok_inj%pair_inj. split; [done|]. split; [by exists (drop p b)|]. by rewrite Nat.add_0_r.
    + intros ([Hl _] & _ & ->). apply nil_length_inv in Hl as ->. by rewrite Nat.add_0_r.
  - split.
    + destruct (cursor_a32 _) as [[h c1]|] eqn:E1; [|done].
      apply cursor_a32_codec in E1 as (Hh & (r1 & Hd1) & ->); [|done..].
      destruct (cursor_next b p _ _ Hp Hd1) as (Hp1 & Hn1 & _).
      destruct (read_siblings n _) as [[hs' c2]|] eqn:E2; [|done].
      apply IH in E2 as ([Hl Hhs] & (r2 & Hd2) & ->); [|done..]. intros [<- <-]%Ok_inj%pair_inj.
      split; [split; [cbn; lia|by constructor]|]. cbn [concat].
      split; [exists r2; by rewrite <- app_assoc, <- Hd2, Hn1|]. rewrite length_app. f_equal; lia.
    + intros ([Hl Hs] & (rest & Hd) & ->). destruct hs as [|h hs']; [done|]. apply Forall_cons in Hs as [Hh Hhs].
      cbn [concat] in Hd |- *. rewrite <- app_assoc in Hd.
      rewrite (proj2 (cursor_a32_codec b p h _ Hb Hp)) by (split; [done|split; [by eexists|reflexivity]]).
      destruct (cursor_next b p _ _ Hp Hd) as (Hp1 & Hn1 & _).
      rewrite (proj2 (IH b _ hs' _ Hb Hp1)) by (split; [split; [by injection Hl|done]|split; [by eexists|reflexivity]]).
      rewrite length_app. do 3 f_equal. lia.
Qed.

(** *** The whole witness *)

Record witness_wf (w : DecodedMainnetBootstrapWitness) : Prop := {
  ww_version : wt_version w = 1;
  ww_network : wt_network_id w = MAINNET_NETWORK_ID;
  ww_genesis : wt_genesis_id w = MAINNET_GENESIS_ID;
  ww_anchor_height : wt_anchor_height w = 963648;
  ww_anchor : wt_anchor_hash_internal w = ANCHOR;
  ww_batches : Forall2 batch_of (combine LENGTHS COUNTS) (wt_batches w);
  ww_transaction : length (wt_raw_transaction w) = Z.to_nat 277;
  ww_payment : wt_payment_output_index w = 0;
  ww_manifest : wt_manifest_output_index w = 1;
  ww_index : wt_merkle_transaction_index w = 181;
  ww_siblings : length (wt_merkle_siblings w) = 12%nat /\ Forall (fun x => is32 x) (wt_merkle_siblings w);
  ww_containing : wt_containing_height w = 965646;
}.

Definition witness_bytes (w : DecodedMainnetBootstrapWitness) : bytes :=
  be_bytes 2 (wt_version w) ++ be_bytes 4 (wt_network_id w) ++ wt_genesis_id w ++ be_bytes 4 (wt_anchor_height w)
  ++ wt_anchor_hash_internal w ++ encode_varuint 8 ++ encode_many batch_bytes (wt_batches w)
  ++ encode_varuint 277 ++ wt_raw_transaction w ++ be_bytes 4 (wt_payment_output_index w)
  ++ be_bytes 4 (wt_manifest_output_index w) ++ be_bytes 4 (wt_merkle_transaction_index w)
  ++ encode_varuint 12 ++ concat (wt_merkle_siblings w) ++ be_bytes 4 (wt_containing_height w).

Lemma shapes_ok : Forall shape_ok (combine LENGTHS COUNTS).
Proof. repeat constructor; cbn; lia. Qed.

(** Its length is the one the node requires. *)
Lemma batches_length shapes hs :
  Forall2 batch_of shapes hs ->
  length (encode_many batch_bytes hs)
  = sum_list (map (fun s => length (encode_varuint s.1) + Z.to_nat s.1)%nat shapes).
Proof.
  induction 1 as [|s h shapes hs (_ & _ & _ & _ & Hl) _ IH]; [done|]. cbn [encode_many map concat sum_list].
  fold (encode_many batch_bytes hs). rewrite length_app, IH. unfold batch_bytes. rewrite length_app, Hl. f_equal. unfold id. lia.
Qed.

Lemma witness_bytes_length w : witness_wf w -> Z.of_nat (length (witness_bytes w)) = MAINNET_BOOTSTRAP_WITNESS_LEN.
Proof.
  intros []. unfold witness_bytes. rewrite !length_app, !length_be_bytes, (batches_length _ _ ww_batches0), ww_genesis0,
    ww_anchor0, ww_transaction0. destruct ww_siblings0 as [Hl Hs].
  rewrite (concat_length_size _ _ Hs), Hl. vm_compute. reflexivity.
Qed.

(** One read of a successful decoder: what was read is a prefix of the rest. *)
Ltac cursor_step H L :=
  let E := fresh "E" in let D := fresh "D" in
  match type of H with
  | match ?r with Ok _ => _ | Err _ => _ end = _ => destruct r as [[? ?]|] eqn:E; [|discriminate H]
  end;
  apply L in E; [|assumption|assumption]; destruct E as (? & (? & D) & ->);
  match goal with
  | Hp : (?p <= length ?b)%nat, D : drop ?p ?b = _ ++ _ |- _ =>
      let Q := fresh "Q" in pose proof (cursor_next b p _ _ Hp D) as Q; clear Hp; destruct Q as (? & ? & _)
  end;
  match goal with Hr : drop ?p ?b = ?r, D' : drop ?p ?b = _ ++ _ |- _ => rewrite Hr in D'; subst r | _ => idtac end;
  try match type of H with (if negb ?t then _ else _) = _ => destruct t eqn:?; cbn [negb] in H; [|discriminate H] end;
  bool_to_prop; subst.

Lemma decode_sound bs w : decode bs = Ok w -> witness_wf w /\ bs = witness_bytes w.
Proof.
  intros H. unfold decode in H. destruct (negb _) eqn:Hb; [done|]. bool_to_prop. cbv zeta in H.
  apply (f_equal (fun n => n <? 2 ^ 64)) in Hb. change (MAINNET_BOOTSTRAP_WITNESS_LEN <? 2 ^ 64) with true in Hb. apply Z.ltb_lt in Hb.
  assert (0 <= length bs)%nat as Hp by lia.
  cursor_step H cursor_u16_codec. cursor_step H cursor_u32_codec. cursor_step H cursor_a32_codec.
  cursor_step H cursor_u32_codec. cursor_step H cursor_a32_codec. cursor_step H cursor_var_codec.
  cursor_step H (read_batches_codec _ shapes_ok). cursor_step H cursor_var_codec.
  cursor_step H (cursor_take_codec (Z.to_nat 277)). cursor_step H cursor_u32_codec. cursor_step H cursor_u32_codec.
  cursor_step H cursor_u32_codec. cursor_step H cursor_var_codec. cursor_step H (read_siblings_codec 12).
  cursor_step H cursor_u32_codec. cbn [cu_p] in H.
  destruct (negb _) eqn:Eend; [done|]. bool_to_prop. apply Ok_inj in H as <-. split; [by split|].
  rewrite <- (drop_0 bs) at 1. unfold witness_bytes.
  cbn [wt_version wt_network_id wt_genesis_id wt_anchor_height wt_anchor_hash_internal wt_batches wt_raw_transaction
       wt_payment_output_index wt_manifest_output_index wt_merkle_transaction_index wt_merkle_siblings wt_containing_height].
  repeat match goal with D : drop ?p bs = _ ++ _ |- context [drop ?p bs] => rewrite D; clear D end.
  rewrite Eend, drop_all, app_nil_r. done.
Qed.

(** One read of a decoder whose input starts with [x]. *)
Ltac cursor_feed L x :=
  match goal with
  | Hb : Z.of_nat (length ?b) < 2 ^ 64, Hp : (?p <= length ?b)%nat, Hd : drop ?p ?b = _ ++ _ |- _ =>
      rewrite (proj2 (L b p x _ Hb Hp)) by (split; [first [done|lia]|split; [eexists; exact Hd|reflexivity]]);
      let Q := fresh "Q" in pose proof (cursor_next b p _ _ Hp Hd) as Q; clear Hp Hd; destruct Q as (? & ? & _)
  end;
  rewrite ?Z.eqb_refl, ?bytes_eqb_refl; cbn [negb].

Lemma decode_complete w : witness_wf w -> decode (witness_bytes w) = Ok w.
Proof.
  intros Hw. pose proof (witness_bytes_length w Hw) as Hl. unfold decode. rewrite Hl, Z.eqb_refl. cbn [negb]. cbv zeta.
  remember (witness_bytes w) as b eqn:Hd. rewrite <- (drop_0 b) in Hd.
  assert (Z.of_nat (length b) < 2 ^ 64) as Hb by (rewrite Hl; unfold MAINNET_BOOTSTRAP_WITNESS_LEN; lia). clear Hl.
  assert (0 <= length b)%nat as Hp by lia.
  destruct w as [v n g ah an bs raw pi mi ti sib ch], Hw as [H1 H2 H3 H4 H5 H6 H7 H8 H9 H10 H11 H12].
  unfold witness_bytes in Hd.
  cbn [wt_version wt_network_id wt_genesis_id wt_anchor_height wt_anchor_hash_internal wt_batches wt_raw_transaction
       wt_payment_output_index wt_manifest_output_index wt_merkle_transaction_index wt_merkle_siblings wt_containing_height] in *.
  subst v n g ah an pi mi ti ch.
  cursor_feed cursor_u16_codec 1. cursor_feed cursor_u32_codec MAINNET_NETWORK_ID.
  cursor_feed cursor_a32_codec MAINNET_GENESIS_ID. cursor_feed cursor_u32_codec 963648.
  cursor_feed cursor_a32_codec ANCHOR. cursor_feed cursor_var_codec 8.
  cursor_feed (read_batches_codec _ shapes_ok) bs. cursor_feed cursor_var_codec 277.
  cursor_feed (cursor_take_codec (Z.to_nat 277)) raw. cursor_feed cursor_u32_codec 0. cursor_feed cursor_u32_codec 1.
  cursor_feed cursor_u32_codec 181. cursor_feed cursor_var_codec 12. cursor_feed (read_siblings_codec 12) sib.
  match goal with D : drop _ b = be_bytes 4 965646 |- _ => rewrite <- (app_nil_r (be_bytes 4 965646)) in D end.
  cursor_feed cursor_u32_codec 965646. cbn [cu_p].
  match goal with D : drop ?p b = [] |- _ => apply (f_equal length) in D; rewrite length_drop in D; cbn [length] in D end.
  match goal with |- context [(?p =? length b)%nat] => replace p with (length b) by lia end.
  by rewrite Nat.eqb_refl.
Qed.

(** The witness of the Mainnet bootstrap is canonical.  The decoder succeeds
    with [w] exactly on the encoding of a well-formed [w], so it accepts one byte
    string per witness: the constants of the protocol, eight header batches of
    the prescribed sizes (2003 headers), a payment of 277 bytes and twelve
    siblings, with minimal VarUInts and nothing behind them; and every accepted
    string has exactly the length 161323 that is checked first. *)
Theorem witness_canonical bs w :
  (decode bs = Ok w <-> witness_wf w /\ bs = witness_bytes w) /\
  (witness_wf w -> Z.of_nat (length (witness_bytes w)) = MAINNET_BOOTSTRAP_WITNESS_LEN).
Proof.
  split; [|apply witness_bytes_length]. split; [by apply decode_sound|].
  intros [Hw ->]. by apply decode_complete.
Qed.
