(* ===== verification/MainnetBootstrap.v ===== *)
(** Block 1 of Mainnet ([mutiny-node/src/mainnet_bootstrap.rs]): from a witness
    the node builds the whole first block itself (the Bitcoin headers, the
    payment for the twelve bootstrap licenses, the authenticated state, the
    commitment and the header) and compares a received block with it.

    [fuel] bounds the walk from the Bitcoin tip to the anchor: every round goes
    to a stored header, so [length headers + 1] rounds visit a chain without
    repetition to its end. *)

From Stdlib Require Import Strings.Byte Strings.String.
From stdpp Require Import strings.
From S2P Require Import Prelude Crypto Consensus Codec Smt State Transaction Bitcoin Protocol ProtocolRules Collections NodeState Economy NodePresence NodeUtxo NodeBitcoin NodeRoots NodeBootstrap NodeBlocks MainnetWitness.

Definition BOOTSTRAP_MANIFEST_LEN : nat := 810.
Definition BOOTSTRAP_MANIFEST_HASH : bytes32 := hex "865fecb5c02562d25d262739809c3ebe51e5a14d9e40bc0ecb1ca8cf042ab4f9".
Definition BOOTSTRAP_PURCHASE_NONCE : bytes32 := hex "aac9bf3abbdeaf0b7aeb79c1256209a04cf993f0a7d731986854d8f10095b654".
Definition BOOTSTRAP_MANIFEST_HEX : string := "00014d555401aac9bf3abbdeaf0b7aeb79c1256209a04cf993f0a7d731986854d8f10095b6540000000cd3e529889d94de51330adf3a7968f28849dea885a79fc2e0a5a4a9dda55efcdefc91a3012dd25cf50331d3c3d77b3c255ea209095b07b117ad115d51352d8974345de656ddae79b89e97ec812b521e2866f2c0d4c1d84e617c7376d1470979367ea66fdd17e333ab03144704ae68b9968683fcc4f5b4f48531fefd0bb732b70d5b8d2ab42c0f17387ac9680608781bdeca6c0202464f1384bddb4a335a15f1ff2e15743e8f7bda9aa3cd1aa806809930ab201423dddbd1f5b4f7bc9b86057ada332ea153bd45d385c59a3d0491bb6025b7cf387182cacb6ea1009c03e48cb11a0dc06aec03b111cb1e3bd32cefa355c47698d6c696076a222b37723729eb91e6cf20bd30214cb5f513636bf8825c39f75835b61969aefad67ac91363f0626fc2a3f7876f117d4360f756a6f5e58a46d067f4aa9b09be2cf4dae4e0877af89cba11049c7c3024c8357dbf03ef0159e8f879eafb1c32c4660a5a2bd4c8f9587002e81be95e1c4f9f5538f32950622079a13d728fdaa1bcf44a8dbcd9335a7598052a348c7259c88090506745915312ff82028f71a93d68d8d9656538197907cdca8d389abfa7b88537aea61c8811a1afabdf1e7b6ac35e5bab41e386d447c008167d633b658dcc9fa883c60b323f3e6caf68aeede33f4f67a364b2019a469f4bbfe93b38921607ea098f93fdb94429a46997c6ed30c0486a9811c8961437d04f119dba0b18785fb2f4d1dac98348557a78c8a1a2e80d76dd2aa68d840ee95bb7c9936569808932d7657cd622a6fb26465ebad2c38da7ce82346c070a63f3ae476acba9552674e58c0a7c97adec1c21e32ae5518bb7ab92e284ae07951147cbbdffdd3942103d6375ec635f10c0252b872376215bae1d57826e1efe24148b67350019a4c1f3646ce9eb00a857552c62564dfd3fffadf932eb47d92ff6aeaf9864ab48d7b3518a7f54b72f423621c1b4623ff8a596bd70b8531b035e7c08551e47b40cc24da4ef86a39f403e4fb7459a7cb2e6f8bdbc695534db98f1148267e8fb6fc08cd4e59b64f44ba991e4671d2890781c41ce51eb29729d63c89a13ddf1080c".

(** [MainnetBootstrapTransitionError] *)
Module transition_error.
Inductive t :=
| BitcoinHeaderOperation (e : NodeError)
| TerminalHeight | TerminalHash | FinalMtp | ContainingBlock | BitcoinTransaction | BitcoinTxid
| BitcoinMerkleProof | PaymentOutput | PaymentAmount | TreasuryScript | ManifestOutput | ManifestValue
| ManifestScript | BootstrapManifest | BootstrapManifestHash | BootstrapManifestInvariant | BitcoinPaymentId
| AuthenticatedState | ExternalPaymentRoot | LicenseRoot | ProtocolStateRoot | MetaRoot | StateRoot | Commitment
| Operation | Transaction | Target | Block | ReceivedBlock1 | InternalInvariant.
End transition_error.
Import transition_error.

Abbreviation transition A := (result transition_error.t A).

(** [.map_err(|_| e)] *)
Definition as_error {E A} (e : transition_error.t) (r : result E A) : transition A := map_err (fun _ => e) r.

(** What has been checked before the state is built. *)
Record ValidatedMainnetBootstrapProof := {
  vb_accepted_header_count : Z;
  vb_terminal_height : Z;
  vb_terminal_hash_internal : bytes32;
  vb_final_mtp : Z;
  vb_containing_height : Z;
  vb_txid_internal : bytes32;
  vb_payment_output_index : Z;
  vb_payment_amount_sats : Z;
  vb_manifest_output_index : Z;
  vb_merkle_transaction_index : Z;
  vb_merkle_sibling_count : Z;
  vb_manifest_hash : bytes32;
  vb_license_count : Z;
  vb_issued_epoch : Z;
  vb_activation_epoch : Z;
  vb_bitcoin_payment_id : bytes32;
  vb_external_payment_root : bytes32;
  vb_license_root : bytes32;
  vb_protocol_state_root : bytes32;
  vb_meta_root : bytes32;
  vb_state_root : bytes32;
}.

(** The constructed block and the state after it; nothing is stored yet. *)
Record StagedMainnetBlock1Transition := {
  sg_state : DevnetState;
  sg_proof : ValidatedMainnetBootstrapProof;
  sg_header : bytes;
  sg_transactions : list TransactionV1;
  sg_operations : list ProtocolOperationV1;
}.

(** The fields of the header, each compared once more. *)
Definition header_slices : list (nat * nat) :=
  [(0, 2); (2, 6); (6, 14); (14, 46); (46, 78); (78, 110); (110, 142); (142, 174); (174, 176); (176, 208); (208, 272)]%nat.

Section bootstrap.
Context {SHA : Sha2}.
Context (fuel : nat).

Definition compare_received_mainnet_block1 (expected : StagedMainnetBlock1Transition) (received_header : bytes)
    (received_transactions : list TransactionV1) (received_operations : list ProtocolOperationV1) : transition unit :=
  if negb (bytes_eqb received_header (sg_header expected))
     || existsb (fun '(i, j) => negb (bytes_eqb (slice i j received_header) (slice i j (sg_header expected)))) header_slices
  then Err ReceivedBlock1
  else if negb (bool_decide (map TransactionV1_encode_full received_transactions
                             = map TransactionV1_encode_full (sg_transactions expected)))
          || negb (bool_decide (map ProtocolOperationV1_encode received_operations
                                = map ProtocolOperationV1_encode (sg_operations expected)))
  then Err ReceivedBlock1
  else Ok tt.

Definition canonical_mainnet_bootstrap_manifest : transition BootstrapManifestV1 :=
  let? bs := ok_or BootstrapManifest (hex_decode BOOTSTRAP_MANIFEST_HEX) in
  if negb (length bs =? BOOTSTRAP_MANIFEST_LEN)%nat then Err BootstrapManifestInvariant
  else
    let? manifest := as_error BootstrapManifest (BootstrapManifestV1_decode bs) in
    if negb (bytes_eqb (sm_purchase_nonce manifest) BOOTSTRAP_PURCHASE_NONCE)
       || negb (length (sm_licenses manifest) =? 12)%nat
    then Err BootstrapManifestInvariant
    else
      let? manifest_hash := as_error BootstrapManifest (BootstrapManifestV1_manifest_hash manifest) in
      if negb (bytes_eqb manifest_hash BOOTSTRAP_MANIFEST_HASH) then Err BootstrapManifestHash
      else Ok manifest.

(** ** The Bitcoin chain *)

(** One batch of the witness, as the operation it would be in a block. *)
Definition stage_batch (state : DevnetState) (batch : BitcoinHeadersV1) : transition DevnetState :=
  let? payload := map_err (fun e => BitcoinHeaderOperation (FromPackM e)) (BitcoinHeadersV1_payload batch) in
  let operation := {| po_op_type := OP_BITCOIN_HEADERS; po_op_version := 1; po_payload := payload |} in
  map_err BitcoinHeaderOperation (headers_apply_operation state operation 10).

Definition stage_mainnet_bitcoin_headers (state : DevnetState) (witness : DecodedMainnetBootstrapWitness)
    : transition DevnetState :=
  if negb (length (wt_batches witness) =? 8)%nat
     || negb (sum_list (map (fun batch => length (hd_headers batch)) (wt_batches witness)) =? 2003)%nat
  then Err (BitcoinHeaderOperation (Msg "locked bootstrap must contain exactly eight batches / 2003 headers"%string))
  else fold_result stage_batch state (wt_batches witness).

Definition hex_array (n : nat) (text : string) : transition bytes :=
  let? bs := ok_or InternalInvariant (hex_decode text) in
  if negb (length bs =? n)%nat then Err InternalInvariant else Ok bs.

Definition staged_terminal_chain (state : DevnetState) : transition (Z * bytes32) :=
  let? best := ok_or TerminalHeight (ds_bitcoin_best_chain state) in
  let? hash := hex_array 32 (bb_tip_hash_internal best) in
  Ok (bb_tip_height best, hash).

Definition index_staged (index : header_index) (stored : BitcoinHeaderStateStored) : transition header_index :=
  let? hash := hex_array 32 (hr_block_hash_internal stored) in
  let? raw := hex_array 80 (hr_raw_header stored) in
  if negb (bytes_eqb (hash_internal raw) hash) || bool_decide (is_Some (index !! hash))
  then Err InternalInvariant
  else Ok (<[hash := (hr_height stored, raw)]> index).

(** [while let Some(..) = index.get(&tip_hash)] *)
Fixpoint walk_from_tip (fuel : nat) (index : header_index) (tip_hash : bytes32) (reverse : list (Z * BitcoinHeader))
    : list (Z * BitcoinHeader) :=
  match fuel with
  | O => reverse
  | S fuel =>
      match index !! tip_hash with
      | Some (height, header) => walk_from_tip fuel index (previous_block_internal header) (reverse ++ [(height, header)])
      | None => reverse
      end
  end.

Definition staged_best_chain_headers (state : DevnetState) : transition (list (Z * BitcoinHeader)) :=
  let? (_, tip_hash) := staged_terminal_chain state in
  let? index := fold_result index_staged ∅ (ds_bitcoin_headers state) in
  let reverse := walk_from_tip fuel index tip_hash [] in
  if negb (length reverse =? 2003)%nat || negb (bool_decide (fst <$> head reverse = Some 965651))
  then Err TerminalHeight
  else
    let chain := rev reverse in
    if negb (bool_decide (fst <$> head chain = Some 963649)) then Err TerminalHeight else Ok chain.

Definition header_at (height : Z) (chain : list (Z * BitcoinHeader)) : option BitcoinHeader :=
  snd <$> List.find (fun row => fst row =? height) chain.

Definition staged_final_mtp_and_containing_merkle_root (state : DevnetState) : transition (Z * bytes32) :=
  let? chain := staged_best_chain_headers state in
  let terminal_headers := map snd (take 11 (rev chain)) in
  let? mtp := as_error FinalMtp (median_time_past_11 terminal_headers) in
  if negb (mtp =? 1788631036) then Err FinalMtp
  else
    let? containing := ok_or ContainingBlock (header_at 965646 chain) in
    Ok (mtp, merkle_root_internal containing).

(** ** The payment *)

Definition mainnet_treasury_script : transition bytes :=
  let? policy := ok_or TreasuryScript (resolve_tuple_policy MAINNET_NETWORK_ID MAINNET_GENESIS_ID) in
  ok_or TreasuryScript (tp_treasury_script_pubkey policy).

Definition validate_bootstrap_transaction_facts (witness : DecodedMainnetBootstrapWitness) : transition bytes32 :=
  if negb (length (wt_raw_transaction witness) =? 277)%nat then Err BitcoinTransaction
  else
    let? transaction := as_error BitcoinTransaction (parse_transaction (wt_raw_transaction witness)) in
    let? payment_output := ok_or PaymentOutput (pt_outputs transaction !! Z.to_nat (wt_payment_output_index witness)) in
    let? manifest_output := ok_or ManifestOutput (pt_outputs transaction !! Z.to_nat (wt_manifest_output_index witness)) in
    if negb (bool_decide (display_hex_from_internal (pt_txid_internal transaction)
         = "3f5994ddaa7adc586fcd980fbd3f6c816884312ab00588ed0c4f4f36a9a2b5d2"%string))
    then Err BitcoinTxid
    else if negb (wt_payment_output_index witness =? 0) then Err PaymentOutput
    else if negb (bo_value_sats payment_output =? 24576) then Err PaymentAmount
    else
      let? treasury_script := mainnet_treasury_script in
      if negb (bytes_eqb (bo_script_pubkey payment_output) treasury_script) then Err TreasuryScript
      else if negb (wt_manifest_output_index witness =? 1) then Err ManifestOutput
      else if negb (bo_value_sats manifest_output =? 0) then Err ManifestValue
      else
        let? manifest := canonical_mainnet_bootstrap_manifest in
        let? manifest_hash := as_error BootstrapManifestHash (BootstrapManifestV1_manifest_hash manifest) in
        if negb (bytes_eqb (bo_script_pubkey manifest_output) (canonical_manifest_script manifest_hash))
        then Err ManifestScript
        else
          let? expected := ok_or InternalInvariant
              (hex_decode "e7aa3d2f8459a0fd58683e1a7c3ea79c08403e1a82aec051db72fe0e3ddd8a89") in
          if negb (bytes_eqb (bitcoin_payment_id (pt_txid_internal transaction) (wt_payment_output_index witness)) expected)
          then Err BitcoinPaymentId
          else Ok (pt_txid_internal transaction).

Definition validate_bootstrap_merkle_proof (txid_internal : bytes32) (witness : DecodedMainnetBootstrapWitness)
    (containing_merkle_root : bytes32) : transition unit :=
  if negb (wt_merkle_transaction_index witness =? 181) || negb (length (wt_merkle_siblings witness) =? 12)%nat
  then Err BitcoinMerkleProof
  else if negb (bytes_eqb (merkle_root_from_branch txid_internal (wt_merkle_transaction_index witness)
                             (wt_merkle_siblings witness)) containing_merkle_root)
  then Err BitcoinMerkleProof
  else Ok tt.

(** The same payment, checked by the verifier of ordinary purchases. *)
Definition validate_bootstrap_payment_with_production_primitive (state : DevnetState)
    (witness : DecodedMainnetBootstrapWitness) : transition bytes32 :=
  let? manifest := canonical_mainnet_bootstrap_manifest in
  let? manifest_hash := as_error BootstrapManifestHash (BootstrapManifestV1_manifest_hash manifest) in
  let? treasury_script := mainnet_treasury_script in
  let? chain := staged_best_chain_headers state in
  let headers := map snd (List.filter (fun row => (wt_containing_height witness <=? fst row) && (fst row <=? 965651)) chain) in
  let proof := {| sp_raw_transaction := wt_raw_transaction witness;
                  sp_payment_output_index := wt_payment_output_index witness;
                  sp_manifest_output_index := wt_manifest_output_index witness;
                  sp_tx_index := wt_merkle_transaction_index witness;
                  sp_merkle_branch := wt_merkle_siblings witness; sp_headers := headers;
                  sp_containing_block_height := wt_containing_height witness |} in
  let? validated := as_error BitcoinMerkleProof (validate_payment proof manifest_hash treasury_script 24576) in
  if negb (vp_paid_sats validated =? 24576) || negb (vp_containing_block_height validated =? 965646)
     || negb (vp_sixth_confirmation_height validated =? 965651)
     || negb (vp_sixth_confirmation_timestamp validated =? 1788634382)
  then Err BitcoinMerkleProof
  else Ok (vp_txid_internal validated).

(** ** The state after block 1 *)

Definition mainnet_license_id (payment_id : bytes32) (i : nat) (entry : LicenseManifestEntryV1) : bytes32 :=
  derive_license_id MAINNET_NETWORK_ID PURCHASE_METHOD_BTC payment_id (Z.of_nat i) (me_owner_public_key entry).

Definition mainnet_license (payment_id : bytes32) (i : nat) (entry : LicenseManifestEntryV1) : LicenseState :=
  {| ls_index := Z.of_nat i; ls_license_id := to_hex (mainnet_license_id payment_id i entry);
     ls_purchase_id := to_hex payment_id; ls_owner_public_key := hex_encode (me_owner_public_key entry);
     ls_mining_public_key := hex_encode (me_mining_public_key entry);
     ls_payment_address_id := hex_encode (address_id (me_owner_public_key entry));
     ls_status := LICENSE_STATUS_PENDING; ls_purchase_method := PURCHASE_METHOD_BTC;
     ls_owner_key_sequence := 0; ls_mining_key_sequence := 0; ls_issued_epoch := 10; ls_activation_epoch := 74;
     ls_strike_weight := 0; ls_suspended_until_epoch := 0; ls_revocation_epoch := 0 |}.

Record AuthenticatedBootstrapState := {
  ab_state : DevnetState;
  ab_external_payment_root : bytes32;
  ab_license_root : bytes32;
  ab_protocol_state_root : bytes32;
  ab_meta_root : bytes32;
  ab_state_root : bytes32;
}.

Definition materialize_authenticated_mainnet_bootstrap_state (header_state : DevnetState)
    (witness : DecodedMainnetBootstrapWitness) : transition AuthenticatedBootstrapState :=
  let next := header_state in
  let? manifest := canonical_mainnet_bootstrap_manifest in
  let? payment := validate_bootstrap_payment_with_production_primitive next witness in
  let payment_id := bitcoin_payment_id payment (wt_payment_output_index witness) in
  if negb (length (ds_bitcoin_headers next) =? 2003)%nat
  then Err (BitcoinHeaderOperation (Msg "staged bootstrap did not retain exactly 2003 headers"%string))
  else if negb (bool_decide (is_Some (ds_bitcoin_best_chain next))) then Err TerminalHeight
  else if negb (is_empty (ds_licenses next)) || negb (is_empty (ds_consumed_bitcoin_payments next))
  then Err AuthenticatedState
  else
    let next := next <| ds_licenses := ds_licenses next ++ imap (mainnet_license payment_id) (sm_licenses manifest) |> in
    let? chain := staged_best_chain_headers next in
    let? containing := ok_or ContainingBlock (hash_internal <$> header_at (wt_containing_height witness) chain) in
    let? (_, tip) := staged_terminal_chain next in
    let next := next <| ds_consumed_bitcoin_payments := ds_consumed_bitcoin_payments next ++
      [{| bp_payment_id := to_hex payment_id; bp_txid_internal := hex_encode payment;
          bp_payment_output_index := wt_payment_output_index witness; bp_paid_sats := 24576;
          bp_containing_block_hash_internal := hex_encode containing;
          bp_containing_block_height := wt_containing_height witness;
          bp_sixth_confirmation_hash_internal := hex_encode tip; bp_sixth_confirmation_height := 965651;
          bp_sixth_confirmation_timestamp := 1788634382 |}] |> in
    let? external_payment_root := as_error ExternalPaymentRoot (compute_external_payment_root next) in
    let? license_root := as_error LicenseRoot (compute_license_root next) in
    let? protocol_state_root := as_error ProtocolStateRoot (compute_protocol_state_root next [] 0 0) in
    let meta_root := ConsensusMetaV1_root
      {| cm_block_height := 1; cm_eligible_license_count := 0; cm_total_licenses_issued := 12;
         cm_difficulty_correction_q32 := DIFFICULTY_Q32_ONE; cm_base_fee_rate_q32 := BASE_FEE_MIN_Q32;
         cm_total_issued_strikes := 0 |} in
    Ok {| ab_state := next; ab_external_payment_root := external_payment_root; ab_license_root := license_root;
          ab_protocol_state_root := protocol_state_root; ab_meta_root := meta_root;
          ab_state_root := state_root (sparse_root ∅) license_root external_payment_root protocol_state_root meta_root |}.

(** ** The block *)

Definition build_mainnet_bootstrap_commitment (state : DevnetState) (witness : DecodedMainnetBootstrapWitness)
    : transition (bytes * ProtocolOperationV1) :=
  let? manifest := canonical_mainnet_bootstrap_manifest in
  let? manifest_hash := as_error BootstrapManifestHash (BootstrapManifestV1_manifest_hash manifest) in
  let? txid := validate_bootstrap_transaction_facts witness in
  let payment_id := bitcoin_payment_id txid (wt_payment_output_index witness) in
  let? chain := staged_best_chain_headers state in
  let? containing_hash := ok_or ContainingBlock (hash_internal <$> header_at (wt_containing_height witness) chain) in
  let? (_, terminal_hash) := staged_terminal_chain state in
  let? (final_mtp, _) := staged_final_mtp_and_containing_merkle_root state in
  let commitment :=
    be_bytes 2 1 ++ MAINNET_GENESIS_ID ++ manifest_hash ++ payment_id
    ++ be_bytes 4 (wt_anchor_height witness) ++ wt_anchor_hash_internal witness
    ++ be_bytes 4 (wt_containing_height witness) ++ containing_hash ++ be_bytes 4 965651 ++ terminal_hash
    ++ be_bytes 4 final_mtp ++ be_bytes 8 10 ++ be_bytes 8 74
    ++ be_bytes 4 (Z.of_nat (length (sm_licenses manifest)))
    ++ concat (imap (mainnet_license_id payment_id) (sm_licenses manifest)) in
  if negb (length commitment =? 614)%nat then Err Commitment
  else Ok (commitment, {| po_op_type := OP_BOOTSTRAP_COMMITMENT; po_op_version := 1; po_payload := commitment |}).

Record MainnetBlock1Body := {
  mb_coinbase : TransactionV1;
  mb_transaction_root : bytes32;
  mb_target : bytes32;
  mb_header : bytes;
  mb_block_hash : bytes32;
}.

Definition mainnet_coinbase (operation_root : bytes32) : TransactionV1 :=
  {| tx_core :=
       {| tc_version := 1; tc_network_id := MAINNET_NETWORK_ID; tc_valid_from_epoch := 10; tc_expiry_epoch := 0;
          tc_inputs := [Coinbase {| cc_block_epoch := 10; cc_block_height := 1;
                                    cc_parent_block_hash := MAINNET_GENESIS_ID;
                                    cc_protocol_operations_root := operation_root |}];
          tc_outputs := [] |};
     tx_witnesses := [] |}.

(** [[0u8; 272]] with the ranges that are written: no license, no ticket, no
    proof and no signature. *)
Definition mainnet_header (transaction_root state_root target : bytes32) : bytes :=
  be_bytes 2 1 ++ be_bytes 4 MAINNET_NETWORK_ID ++ be_bytes 8 10 ++ MAINNET_GENESIS_ID ++ transaction_root
  ++ state_root ++ target ++ replicate 130 Byte.x00.

Definition build_canonical_mainnet_block1_body (state_root : bytes32) (operation : ProtocolOperationV1)
    : transition MainnetBlock1Body :=
  let? operation_root := as_error Operation (protocol_operations_root [operation]) in
  let coinbase := mainnet_coinbase operation_root in
  let? transaction_root := ok_or Transaction (merkle_root [TransactionV1_leaf coinbase]) in
  let? target := as_error Target (derive_target (authorized_capacity 12) DIFFICULTY_Q32_ONE) in
  let header := mainnet_header transaction_root state_root target in
  Ok {| mb_coinbase := coinbase; mb_transaction_root := transaction_root; mb_target := target; mb_header := header;
        mb_block_hash := block_hash header |}.

Definition mainnet_block1 (body : MainnetBlock1Body) (operation : ProtocolOperationV1) (block_weight : Z)
    (state_root : bytes32) : BlockState :=
  {| bk_height := 1; bk_epoch := 10; bk_header := hex_encode (mb_header body);
     bk_transactions := [hex_encode (TransactionV1_encode_full (mb_coinbase body))];
     bk_protocol_operations := [hex_encode (ProtocolOperationV1_encode operation)];
     bk_block_hash := hex_encode (mb_block_hash body); bk_parent_hash := hex_encode MAINNET_GENESIS_ID;
     bk_miner_license_id := hex_encode ZERO32; bk_ticket_index := 0; bk_argon2_proof := hex_encode ZERO32;
     bk_target := hex_encode (mb_target body); bk_reward_strikes := 0; bk_total_fees_strikes := 0;
     bk_treasury_fee_share_strikes := 0; bk_block_weight := block_weight;
     bk_transaction_root := hex_encode (mb_transaction_root body); bk_state_root := hex_encode state_root;
     bk_coinbase_txid := to_hex (TransactionV1_txid (mb_coinbase body)); bk_transaction_ids := [] |}.

(** The guards on the live state: Mainnet at its Genesis. *)
Definition mainnet_genesis_state (live_state : DevnetState) : bool :=
  (ds_network_id live_state =? MAINNET_NETWORK_ID)
  && bool_decide (ds_genesis_hash live_state = hex_encode MAINNET_GENESIS_ID)
  && (ds_height live_state =? 0) && is_empty (ds_blocks live_state) && is_empty (ds_licenses live_state)
  && is_empty (ds_consumed_bitcoin_payments live_state).

(** The checks of the Bitcoin side: the staged headers and what they show. *)
Definition check_bitcoin_side (headers_only : DevnetState) (witness : DecodedMainnetBootstrapWitness)
    : transition (Z * bytes32 * Z * bytes32) :=
  let? (terminal_height, terminal_hash) := staged_terminal_chain headers_only in
  let? expected := ok_or InternalInvariant
      (hex_decode "c1e818cefb8be645c4fcce2ddc2aaea94f62a4f8663500000000000000000000") in
  if negb (terminal_height =? 965651) || negb (bytes_eqb terminal_hash expected) then Err TerminalHash
  else
    let? (final_mtp, containing_merkle_root) := staged_final_mtp_and_containing_merkle_root headers_only in
    let? txid_internal := validate_bootstrap_transaction_facts witness in
    let? _ := validate_bootstrap_merkle_proof txid_internal witness containing_merkle_root in
    let? production_txid := validate_bootstrap_payment_with_production_primitive headers_only witness in
    if negb (bytes_eqb production_txid txid_internal) then Err BitcoinPaymentId
    else Ok (terminal_height, terminal_hash, final_mtp, txid_internal).

(** The state after block 1, from the authenticated state. *)
Definition commit_mainnet_block1 (staged : DevnetState) (block : BlockState) (block_hash_hex : string)
    (state_root : bytes32) : DevnetState :=
  staged <| ds_height := 1 |> <| ds_tip_hash := block_hash_hex |> <| ds_tip_epoch := 10 |>
    <| ds_anchor_epoch := 10 |> <| ds_anchor_license_id := hex_encode ZERO32 |> <| ds_anchor_ticket_index := 0 |>
    <| ds_anchor_argon2_proof := hex_encode ZERO32 |> <| ds_total_issued_strikes := 0 |>
    <| ds_difficulty_history_count := 0 |> <| ds_difficulty_history_bitmap := 0 |>
    <| ds_difficulty_correction_q32 := DIFFICULTY_Q32_ONE |> <| ds_base_fee_rate_q32 := BASE_FEE_MIN_Q32 |>
    <| ds_current_state_root := hex_encode state_root |> <| ds_blocks := ds_blocks staged ++ [block] |>.

Definition build_staged_mainnet_block1_transition (live_state : DevnetState) (witness : DecodedMainnetBootstrapWitness)
    : transition StagedMainnetBlock1Transition :=
  if negb (mainnet_genesis_state live_state) then Err AuthenticatedState
  else
    let? headers_only := stage_mainnet_bitcoin_headers live_state witness in
    let? (terminal_height, terminal_hash, final_mtp, txid_internal) := check_bitcoin_side headers_only witness in
    let? manifest := canonical_mainnet_bootstrap_manifest in
    let? manifest_hash := as_error BootstrapManifestHash (BootstrapManifestV1_manifest_hash manifest) in
    let payment_id := bitcoin_payment_id txid_internal (wt_payment_output_index witness) in
    let? authenticated := materialize_authenticated_mainnet_bootstrap_state headers_only witness in
    let? (_, operation) := build_mainnet_bootstrap_commitment headers_only witness in
    let? _ := as_error Operation (protocol_operations_root [operation]) in
    let root := ab_state_root authenticated in
    let? body := build_canonical_mainnet_block1_body root operation in
    let? block_weight := as_error Block (block_body_weight [mb_coinbase body] [operation]) in
    let block := mainnet_block1 body operation block_weight root in
    Ok {| sg_state := commit_mainnet_block1 (ab_state authenticated) block (hex_encode (mb_block_hash body)) root;
          sg_proof :=
            {| vb_accepted_header_count := 2003; vb_terminal_height := terminal_height;
               vb_terminal_hash_internal := terminal_hash; vb_final_mtp := final_mtp;
               vb_containing_height := wt_containing_height witness; vb_txid_internal := txid_internal;
               vb_payment_output_index := wt_payment_output_index witness; vb_payment_amount_sats := 24576;
               vb_manifest_output_index := wt_manifest_output_index witness;
               vb_merkle_transaction_index := wt_merkle_transaction_index witness;
               vb_merkle_sibling_count := Z.of_nat (length (wt_merkle_siblings witness));
               vb_manifest_hash := manifest_hash; vb_license_count := Z.of_nat (length (sm_licenses manifest));
               vb_issued_epoch := 10; vb_activation_epoch := 74; vb_bitcoin_payment_id := payment_id;
               vb_external_payment_root := ab_external_payment_root authenticated;
               vb_license_root := ab_license_root authenticated;
               vb_protocol_state_root := ab_protocol_state_root authenticated;
               vb_meta_root := ab_meta_root authenticated; vb_state_root := root |};
          sg_header := mb_header body; sg_transactions := [mb_coinbase body]; sg_operations := [operation] |}.
End bootstrap.
