(* ===== verification/MainnetChain.v ===== *)
(** What the first block of Mainnet leaves behind: the staged state satisfies the
    invariants of the chain, its root is the one the header carries, and the
    header commits to the body. *)

From Stdlib Require Import Strings.Byte Strings.String.
From stdpp Require Import strings.
From S2P Require Import Prelude Crypto Consensus Codec Smt State Merkle Transaction Bitcoin Protocol ProtocolRules P2p Collections NodeState Economy NodePresence NodeUtxo NodeDividends NodeBitcoin NodeRoots NodeBootstrap NodeEpoch NodeOperations NodeBlocks NodePayload NodeMining NodeReorg NodeChain NodeCore NodeSync NodeReplay NodeAgreement NodeSyncFacts NodeBody MainnetWitness MainnetBootstrap.

Import transition_error.

Section chain.
Context {SHA : Sha2} {ED : Ed25519} {AR : Argon2}.
Context (fuel : nat).

(** The Bitcoin headers change nothing else. *)
Lemma staged_headers_frame live w next : stage_mainnet_bitcoin_headers live w = Ok next -> ops_frame live next.
Proof.
  unfold stage_mainnet_bitcoin_headers. destruct (_ || _); [done|]. intros H.
  eapply (fold_result_ind stage_batch (ops_frame live)); [|reflexivity|exact H].
  intros s batch s' _ Hs E. unfold stage_batch in E. destruct (map_err _ _) as [payload|]; [|done].
  destruct (headers_apply_operation _ _ _) eqn:Eh in E; [|done]. apply Ok_inj in E as <-.
  apply headers_frame in Eh. exact (ops_frame_trans _ _ _ Hs Eh).
Qed.

(** The state with the licenses and the payment of the bootstrap. *)
Definition authenticated_state (next : DevnetState) (licenses : list LicenseState) (payment : BitcoinPaymentState)
    : DevnetState :=
  next <| ds_licenses := licenses |> <| ds_consumed_bitcoin_payments := [payment] |>.

Definition pending_license (purchase_id : string) (l : LicenseState) : Prop :=
  ls_status l = LICENSE_STATUS_PENDING /\ ls_issued_epoch l = 10 /\ ls_activation_epoch l = 74 /\
  ls_purchase_id l = purchase_id /\ ls_strike_weight l = 0.

Lemma manifest_licenses manifest :
  canonical_mainnet_bootstrap_manifest = Ok manifest -> length (sm_licenses manifest) = 12%nat.
Proof.
  unfold canonical_mainnet_bootstrap_manifest. destruct (ok_or _ _) as [bs|]; [|done].
  destruct (negb (length bs =? _)%nat); [done|]. destruct (as_error _ (BootstrapManifestV1_decode bs)) as [m|]; [|done].
  destruct (_ || negb (length _ =? 12)%nat) eqn:E; [done|]. destruct (as_error _ _) as [h|]; [|done].
  destruct (negb (bytes_eqb h _)); [done|]. intros <-%Ok_inj. apply orb_false_iff in E as [_ E].
  by apply negb_false_iff, Nat.eqb_eq in E.
Qed.

Lemma mainnet_licenses_pending payment_id entries :
  Forall (pending_license (to_hex payment_id)) (imap (mainnet_license payment_id) entries).
Proof.
  apply Forall_lookup. intros i l. rewrite list_lookup_imap. destruct (entries !! i); [|done]. cbn [fmap option_fmap option_map].
  intros <-%Some_inj. done.
Qed.

Definition bootstrap_meta : ConsensusMetaV1 :=
  {| cm_block_height := 1; cm_eligible_license_count := 0; cm_total_licenses_issued := 12;
     cm_difficulty_correction_q32 := DIFFICULTY_Q32_ONE; cm_base_fee_rate_q32 := BASE_FEE_MIN_Q32;
     cm_total_issued_strikes := 0 |}.

Record materialized (next : DevnetState) (a : AuthenticatedBootstrapState) : Prop := {
  mt_state : exists licenses payment,
    ab_state a = authenticated_state next licenses payment /\ length licenses = 12%nat /\
    Forall (pending_license (bp_payment_id payment)) licenses;
  mt_fresh : ds_licenses next = [] /\ ds_consumed_bitcoin_payments next = [];
  mt_headers : length (ds_bitcoin_headers next) = 2003%nat;
  mt_external : compute_external_payment_root (ab_state a) = Ok (ab_external_payment_root a);
  mt_license : compute_license_root (ab_state a) = Ok (ab_license_root a);
  mt_protocol : compute_protocol_state_root (ab_state a) [] 0 0 = Ok (ab_protocol_state_root a);
  mt_root : ab_state_root a = state_root (sparse_root ∅) (ab_license_root a) (ab_external_payment_root a)
                                (ab_protocol_state_root a) (ConsensusMetaV1_root bootstrap_meta);
}.

Lemma is_empty_nil {A} (l : list A) : is_empty l = true -> l = [].
Proof. by destruct l. Qed.

Lemma as_error_Ok {E A} e (r : result E A) a : as_error e r = Ok a -> r = Ok a.
Proof. by destruct r; [intros <-%Ok_inj|]. Qed.

Lemma materialize_ok next w a :
  materialize_authenticated_mainnet_bootstrap_state fuel next w = Ok a -> materialized next a.
Proof.
  unfold materialize_authenticated_mainnet_bootstrap_state. intros H. cbv zeta in H.
  destruct canonical_mainnet_bootstrap_manifest as [manifest|] eqn:Em; [|discriminate H].
  apply manifest_licenses in Em.
  destruct (validate_bootstrap_payment_with_production_primitive _ _ _) as [payment|]; [|discriminate H].
  destruct (negb (length _ =? _)%nat) eqn:Eh in H; [discriminate H|]. destruct (negb (bool_decide _)) in H; [discriminate H|].
  destruct (negb (is_empty _) || _) eqn:Ef in H; [discriminate H|].
  apply orb_false_iff in Ef as [Ef1 Ef2]. apply negb_false_iff, is_empty_nil in Ef1, Ef2.
  destruct (staged_best_chain_headers _ _) as [chain|] in H; [|discriminate H].
  destruct (ok_or _ _) as [containing|] in H; [|discriminate H].
  destruct (staged_terminal_chain _) as [[height tip]|] in H; [|discriminate H].
  destruct (as_error ExternalPaymentRoot _) as [external|] eqn:E1; [|discriminate H]. apply as_error_Ok in E1.
  destruct (as_error LicenseRoot _) as [license|] eqn:E2; [|discriminate H]. apply as_error_Ok in E2.
  destruct (as_error ProtocolStateRoot _) as [protocol|] eqn:E3; [|discriminate H]. apply as_error_Ok in E3.
  apply Ok_inj in H as <-. fields. split; try done.
  - cbn [ab_state]. eexists _, _. split.
    { rewrite Ef1, Ef2. unfold authenticated_state. cbn [app]. by destruct next. }
    split; [by rewrite length_imap|]. apply mainnet_licenses_pending.
  - by apply negb_false_iff, Nat.eqb_eq in Eh.
Qed.

(** ** The state root

    It is assembled by hand, and is the root of the state. *)

Lemma count_by_none {A} (p : A -> bool) l : Forall (fun x => p x = false) l -> count_by p l = 0.
Proof.
  unfold count_by. induction 1 as [|x l Hx _ IH]; [done|]. cbn [List.filter]. by rewrite Hx.
Qed.

Lemma pending_not_eligible payment_id licenses epoch :
  Forall (pending_license payment_id) licenses -> Forall (fun l => is_eligible l epoch = false) licenses.
Proof. intros H. eapply Forall_impl; [exact H|]. intros l [Hs _]. unfold is_eligible. by rewrite Hs. Qed.

Lemma pending_eligible_count s payment_id epoch :
  Forall (pending_license payment_id) (ds_licenses s) -> eligible_license_count s epoch = 0.
Proof.
  intros H. pose proof (pending_not_eligible _ _ epoch H) as He.
  unfold eligible_license_count, participation_eligible_count, base_eligible_count.
  destruct (negb _); apply count_by_none; [done|]. eapply Forall_impl; [exact He|]. by intros l ->.
Qed.

Lemma compute_state_root_parts s height issued c b d f license external protocol :
  compute_license_root s = Ok license -> compute_external_payment_root s = Ok external ->
  compute_protocol_state_root s [] c b = Ok protocol ->
  compute_state_root s [] height issued c b d f
  = Ok (state_root (sparse_root ∅) license external protocol
          (ConsensusMetaV1_root
             {| cm_block_height := height; cm_eligible_license_count := eligible_license_count s (ds_tip_epoch s);
                cm_total_licenses_issued := Z.of_nat (length (ds_licenses s));
                cm_difficulty_correction_q32 := d; cm_base_fee_rate_q32 := f; cm_total_issued_strikes := issued |})).
Proof. intros H1 H2 H3. unfold compute_state_root. by rewrite H1, H2, H3. Qed.

(** What the roots of a state read is not what the commit writes. *)
Lemma commit_roots staged block hash root :
  let s := commit_mainnet_block1 staged block hash root in
  compute_license_root s = compute_license_root staged /\
  compute_external_payment_root s = compute_external_payment_root staged /\
  compute_protocol_state_root s [] 0 0 = compute_protocol_state_root staged [] 0 0 /\
  ds_licenses s = ds_licenses staged.
Proof. by destruct staged. Qed.

Lemma committed_root next a block hash :
  materialized next a -> ds_utxos next = [] ->
  current_root (commit_mainnet_block1 (ab_state a) block hash (ab_state_root a)) = Ok (ab_state_root a).
Proof.
  intros [(licenses & payment & Ha & Hl & Hp) _ _ H1 H2 H3 Hr] Hu.
  destruct (commit_roots (ab_state a) block hash (ab_state_root a)) as (C1 & C2 & C3 & C4).
  unfold current_root. set (s := commit_mainnet_block1 _ _ _ _) in *.
  assert (ds_utxos s = []) as -> by (subst s; rewrite Ha; exact Hu).
  assert (ds_licenses s = licenses) as Hls by (rewrite C4, Ha; done).
  transitivity (compute_state_root s [] 1 0 0 0 DIFFICULTY_Q32_ONE BASE_FEE_MIN_Q32); [reflexivity|].
  rewrite (compute_state_root_parts s 1 0 0 0 _ _ _ _ _ (eq_trans C1 H2) (eq_trans C2 H1) (eq_trans C3 H3)).
  rewrite (pending_eligible_count s (bp_payment_id payment)) by (by rewrite Hls). by rewrite Hls, Hl, Hr.
Qed.

(** ** The block *)

(** Block 1 and the state after it. *)
Record first_block (s : DevnetState) (header : bytes) (txs : list TransactionV1) (ops : list ProtocolOperationV1)
    : Prop := {
  fb_chain : chain_ok s;
  fb_position : ds_height s = 1 /\ ds_tip_epoch s = 10;
  fb_supply : ds_total_issued_strikes s = 0 /\ ds_utxos s = [];
  fb_licenses : exists payment, ds_consumed_bitcoin_payments s = [payment] /\ length (ds_licenses s) = 12%nat /\
    Forall (pending_license (bp_payment_id payment)) (ds_licenses s);
  fb_headers : length (ds_bitcoin_headers s) = 2003%nat;
  fb_block : exists b, ds_blocks s = [b] /\ stores b header txs ops /\ ds_tip_hash s = bk_block_hash b;
  fb_hash : ds_tip_hash s = hex_encode (block_hash header);
  fb_fields : let h := read_header_core (take 208 header) in
    bh_network_id h = MAINNET_NETWORK_ID /\ bh_epoch h = 10 /\ bh_parent h = MAINNET_GENESIS_ID /\
    current_root s = Ok (bh_state_root h);
  fb_unsigned : length header = 272%nat /\ slice 142 272 header = replicate 130 Byte.x00;
  fb_commitment : body_commitment header txs ops;
}.

Lemma mainnet_header_read tx_root state_root target :
  is32 tx_root -> is32 state_root -> is32 target ->
  let h := read_header_core (take 208 (mainnet_header tx_root state_root target)) in
  bh_network_id h = MAINNET_NETWORK_ID /\ bh_epoch h = 10 /\ bh_parent h = MAINNET_GENESIS_ID /\
  bh_tx_root h = tx_root /\ bh_state_root h = state_root.
Proof.
  intros Ht Hs Hg. cbv zeta.
  pose (h := {| bh_version := 1; bh_network_id := MAINNET_NETWORK_ID; bh_epoch := 10; bh_parent := MAINNET_GENESIS_ID;
                bh_tx_root := tx_root; bh_state_root := state_root; bh_target := target; bh_license_id := ZERO32;
                bh_ticket := 0; bh_proof := ZERO32 |}).
  assert (header_wf h) as Hw by (refine (conj _ (conj _ (conj _ (conj _ (conj Ht (conj Hs (conj Hg (conj _ (conj _ _)))))))));
    done).
  assert (mainnet_header tx_root state_root target = header_core h ++ replicate 64 Byte.x00) as ->.
  { unfold mainnet_header, header_core. cbn [h bh_version bh_network_id bh_epoch bh_parent bh_tx_root bh_state_root
      bh_target bh_license_id bh_ticket bh_proof]. by rewrite <- !app_assoc. }
  rewrite take_app_exact by (by rewrite header_core_length). by rewrite read_header_core_core.
Qed.

(** No license, ticket, proof or signature. *)
Lemma mainnet_header_unsigned tx_root state_root target :
  is32 tx_root -> is32 state_root -> is32 target ->
  length (mainnet_header tx_root state_root target) = 272%nat /\
  slice 142 272 (mainnet_header tx_root state_root target) = replicate 130 Byte.x00.
Proof.
  intros Ht Hs Hg. unfold mainnet_header. split; [len|]. slice_norm. by apply slice_whole.
Qed.

Lemma mainnet_body_ok root operation body :
  is32 root -> build_canonical_mainnet_block1_body root operation = Ok body ->
  mb_block_hash body = block_hash (mb_header body) /\
  body_commitment (mb_header body) [mb_coinbase body] [operation] /\
  (length (mb_header body) = 272%nat /\ slice 142 272 (mb_header body) = replicate 130 Byte.x00) /\
  let h := read_header_core (take 208 (mb_header body)) in
  bh_network_id h = MAINNET_NETWORK_ID /\ bh_epoch h = 10 /\ bh_parent h = MAINNET_GENESIS_ID /\ bh_state_root h = root.
Proof.
  unfold build_canonical_mainnet_block1_body. intros Hr H.
  destruct (as_error Operation _) as [op_root|] eqn:E1; [|discriminate H]. apply as_error_Ok in E1.
  destruct (ok_or Transaction _) as [tx_root|] eqn:E2; [|discriminate H].
  destruct (as_error Target _) as [target|] eqn:E3; [|discriminate H]. apply as_error_Ok, derive_target_length in E3.
  apply Ok_inj in H as <-. cbn [mb_coinbase mb_block_hash mb_header].
  assert (merkle_root (map TransactionV1_leaf [mainnet_coinbase op_root]) = Some tx_root) as Hm.
  { change (map TransactionV1_leaf [mainnet_coinbase op_root]) with [TransactionV1_leaf (mainnet_coinbase op_root)].
    destruct (merkle_root _); [|discriminate E2]. by apply Ok_inj in E2 as ->. }
  destruct (mainnet_header_read tx_root root target (tx_root_length _ _ Hm) Hr E3) as (F1 & F2 & F3 & F4 & F5).
  split; [done|]. split; [split; [by rewrite F4|by eexists _, _]|].
  split; [apply mainnet_header_unsigned; [by eapply tx_root_length|done..]|by rewrite F5].
Qed.

(** The fields of the committed state. *)
Lemma commit_mainnet_fields next licenses payment block hash root :
  let s := commit_mainnet_block1 (authenticated_state next licenses payment) block hash root in
  ds_height s = 1 /\ ds_tip_epoch s = 10 /\ ds_tip_hash s = hash /\ ds_total_issued_strikes s = 0 /\
  ds_utxos s = ds_utxos next /\ ds_blocks s = ds_blocks next ++ [block] /\ ds_licenses s = licenses /\
  ds_consumed_bitcoin_payments s = [payment] /\ ds_bitcoin_headers s = ds_bitcoin_headers next /\
  ds_difficulty_history_count s = 0 /\ ds_difficulty_history_bitmap s = 0 /\
  ds_difficulty_correction_q32 s = DIFFICULTY_Q32_ONE /\ ds_base_fee_rate_q32 s = BASE_FEE_MIN_Q32 /\
  ds_current_state_root s = hex_encode root.
Proof. by destruct next. Qed.

Lemma committed_chain_ok next a block hash :
  materialized next a -> ds_utxos next = [] -> ds_blocks next = [] -> hash = bk_block_hash block ->
  chain_ok (commit_mainnet_block1 (ab_state a) block hash (ab_state_root a)).
Proof.
  intros Hm Hu Hb ->. pose proof (committed_root next a block (bk_block_hash block) Hm Hu) as Hroot.
  destruct Hm as [(licenses & payment & Ha & _) _ _ _ _ _ _]. rewrite Ha in *.
  destruct (commit_mainnet_fields next licenses payment block (bk_block_hash block) (ab_state_root a))
    as (F1 & F2 & F3 & F4 & F5 & F6 & _ & _ & _ & F7 & F8 & F9 & F10 & F11).
  set (s := commit_mainnet_block1 _ _ _ _) in *. rewrite Hu in F5. rewrite Hb in F6.
  split; rewrite ?F1, ?F2, ?F3, ?F4, ?F5, ?F6, ?F10, ?F11.
  - lia.
  - reflexivity.
  - split; [lia|]. apply (issuance_max (10 + 1)). lia.
  - done.
  - constructor.
  - reflexivity.
  - unfold expected_tip. by rewrite F6.
  - by split.
  - split; [exists []; rewrite F7, F8; split_and!; simpl; (done || lia)|]. rewrite F9. by split.
  - by exists (ab_state_root a).
Qed.

Lemma staged_first_block live w st :
  ds_utxos live = [] -> build_staged_mainnet_block1_transition fuel live w = Ok st ->
  first_block (sg_state st) (sg_header st) (sg_transactions st) (sg_operations st).
Proof.
  intros Hu H. unfold build_staged_mainnet_block1_transition in H.
  destruct (mainnet_genesis_state live) eqn:Eg; cbn [negb] in H; [|discriminate H].
  destruct (stage_mainnet_bitcoin_headers live w) as [next|] eqn:Es; [|discriminate H]. apply staged_headers_frame in Es.
  destruct (check_bitcoin_side _ _ _) as [[[[th tt'] mtp] txid]|]; [|discriminate H].
  destruct canonical_mainnet_bootstrap_manifest as [manifest|]; [|discriminate H].
  destruct (as_error BootstrapManifestHash _) as [mh|]; [|discriminate H]. cbv zeta in H.
  destruct (materialize_authenticated_mainnet_bootstrap_state _ _ _) as [a|] eqn:Ea; [|discriminate H].
  apply materialize_ok in Ea.
  destruct (build_mainnet_bootstrap_commitment _ _ _) as [[c operation]|]; [|discriminate H].
  destruct (as_error Operation _) as [r|]; [|discriminate H].
  destruct (build_canonical_mainnet_block1_body _ _) as [body|] eqn:Eb; [|discriminate H].
  destruct (as_error Block _) as [weight|]; [|discriminate H]. apply Ok_inj in H as <-.
  cbn [sg_state sg_header sg_transactions sg_operations].
  assert (is32 (ab_state_root a)) as Hr32 by (rewrite (mt_root _ _ Ea); apply sha256_domain_length).
  apply mainnet_body_ok in Eb as (Hh & Hc & Hun & Hn & He & Hp & Hs); [|exact Hr32].
  unfold mainnet_genesis_state in Eg. repeat (apply andb_true_iff in Eg as [Eg ?]).
  assert (ds_utxos next = []) as Hu' by (rewrite <- Es; exact Hu).
  assert (ds_blocks next = []) as Hb' by (rewrite <- Es; by apply is_empty_nil).
  set (block := mainnet_block1 _ _ _ _).
  pose proof (committed_chain_ok next a block _ Ea Hu' Hb' eq_refl) as Hok.
  pose proof (committed_root next a block (bk_block_hash block) Ea Hu') as Hroot.
  destruct Ea as [(licenses & payment & Ha & Hl & Hpend) _ Hhd _ _ _ _]. rewrite Ha in *.
  destruct (commit_mainnet_fields next licenses payment block (bk_block_hash block) (ab_state_root a))
    as (F1 & F2 & F3 & F4 & F5 & F6 & F7 & F8 & F9 & _).
  change (hex_encode (mb_block_hash body)) with (bk_block_hash block) in *.
  set (s := commit_mainnet_block1 _ _ _ _) in *. rewrite Hu' in F5. rewrite Hb' in F6. split.
  - exact Hok.
  - by split.
  - by split.
  - exists payment. by rewrite F7, F8.
  - by rewrite F9.
  - exists block. split; [exact F6|]. split; [|exact F3]. unfold stores, block. by cbn.
  - rewrite F3, <- Hh. reflexivity.
  - cbv zeta. rewrite Hn, He, Hp, Hs. by split_and!.
  - exact Hun.
  - exact Hc.
Qed.

(** What was staged is well formed, so that it is determined by its encoding. *)
Lemma mainnet_coinbase_wf root : is32 root -> tx_wf (mainnet_coinbase root).
Proof.
  intros Hr. unfold tx_wf, mainnet_coinbase.
  cbn [tx_core tx_witnesses tc_version tc_network_id tc_valid_from_epoch tc_expiry_epoch tc_inputs tc_outputs length
       existsb is_coinbase orb].
  split_and!; try done; try lia. constructor; [|done]. by refine (conj _ (conj _ (conj _ Hr))).
Qed.

Lemma staged_wf live w st :
  build_staged_mainnet_block1_transition fuel live w = Ok st ->
  Forall tx_wf (sg_transactions st) /\ Forall operation_wf (sg_operations st).
Proof.
  intros H. unfold build_staged_mainnet_block1_transition in H.
  destruct (mainnet_genesis_state live); cbn [negb] in H; [|discriminate H].
  destruct (stage_mainnet_bitcoin_headers live w) as [next|]; [|discriminate H].
  destruct (check_bitcoin_side _ _ _) as [[[[th tt'] mtp] txid]|]; [|discriminate H].
  destruct canonical_mainnet_bootstrap_manifest as [manifest|]; [|discriminate H].
  destruct (as_error BootstrapManifestHash _) as [mh|]; [|discriminate H]. cbv zeta in H.
  destruct (materialize_authenticated_mainnet_bootstrap_state _ _ _) as [a|]; [|discriminate H].
  destruct (build_mainnet_bootstrap_commitment _ _ _) as [[c operation]|] eqn:Ec; [|discriminate H].
  destruct (as_error Operation _) as [r|]; [|discriminate H].
  destruct (build_canonical_mainnet_block1_body _ _) as [body|] eqn:Eb; [|discriminate H].
  destruct (as_error Block _) as [weight|]; [|discriminate H]. apply Ok_inj in H as <-.
  cbn [sg_transactions sg_operations]. split; (constructor; [|done]).
  - unfold build_canonical_mainnet_block1_body in Eb.
    destruct (as_error Operation _) as [op_root|] eqn:E1 in Eb; [|discriminate Eb].
    apply as_error_Ok, operations_root_length in E1.
    destruct (ok_or Transaction _) as [tx_root|]; [|discriminate Eb].
    destruct (as_error Target _) as [target|]; [|discriminate Eb]. apply Ok_inj in Eb as <-. by apply mainnet_coinbase_wf.
  - unfold build_mainnet_bootstrap_commitment in Ec.
    destruct canonical_mainnet_bootstrap_manifest as [m'|]; [|discriminate Ec].
    destruct (as_error BootstrapManifestHash _) as [mh'|]; [|discriminate Ec].
    destruct (validate_bootstrap_transaction_facts w) as [tx|]; [|discriminate Ec].
    destruct (staged_best_chain_headers _ _) as [chain|]; [|discriminate Ec].
    destruct (ok_or ContainingBlock _) as [ch|]; [|discriminate Ec].
    destruct (staged_terminal_chain _) as [[hh th2]|]; [|discriminate Ec].
    destruct (staged_final_mtp_and_containing_merkle_root _ _) as [[fm mr]|]; [|discriminate Ec]. cbv zeta in Ec.
    match type of Ec with (if negb (?l =? _)%nat then _ else _) = _ => remember l as len eqn:Hlen end.
    destruct (Nat.eqb_spec len 614) as [El|]; cbn [negb] in Ec; [|discriminate Ec].
    apply Ok_inj, pair_inj in Ec as [_ <-]. unfold operation_wf. cbn [po_op_type po_op_version po_payload].
    assert (is_u64 (Z.of_nat len)) as Hu by (rewrite El; split; [lia|by apply Z.ltb_lt]).
    rewrite Hlen in Hu. clear - Hu. split; [split; [by apply Z.leb_le|by apply Z.ltb_lt]|].
    split; [split; [by apply Z.leb_le|by apply Z.ltb_lt]|exact Hu].
Qed.

Lemma compare_received_ok staged header txs ops :
  compare_received_mainnet_block1 staged header txs ops = Ok tt ->
  Forall tx_wf txs -> Forall operation_wf ops ->
  Forall tx_wf (sg_transactions staged) -> Forall operation_wf (sg_operations staged) ->
  header = sg_header staged /\ txs = sg_transactions staged /\ ops = sg_operations staged.
Proof.
  unfold compare_received_mainnet_block1. intros H Ht Ho Hst Hso. destruct (_ || _) eqn:E1; [discriminate H|].
  destruct (negb _ || negb _) eqn:E2 in H; [discriminate H|]. clear H.
  apply orb_false_iff in E1 as [E1 _], E2 as [E2 E3]. apply negb_false_iff in E1, E2, E3.
  apply bytes_eqb_eq in E1. apply bool_decide_eq_true in E2, E3. split; [done|]. split.
  - by apply (encodings_inj TransactionV1_encode_full tx_wf); [exact tx_encode_inj|..].
  - by apply (encodings_inj ProtocolOperationV1_encode operation_wf); [exact operation_encode_inj|..].
Qed.

(** Nothing else is refused. *)
Lemma compare_received_refl staged :
  compare_received_mainnet_block1 staged (sg_header staged) (sg_transactions staged) (sg_operations staged) = Ok tt.
Proof.
  unfold compare_received_mainnet_block1. rewrite bytes_eqb_refl, !bool_decide_eq_true_2 by done. cbn [negb orb].
  assert (existsb (fun '(i, j) => negb (bytes_eqb (slice i j (sg_header staged)) (slice i j (sg_header staged)))) header_slices
          = false) as ->; [|done].
  generalize header_slices. intros l. induction l as [|[i j] l IH]; [done|]. cbn [existsb]. by rewrite bytes_eqb_refl, IH.
Qed.

Lemma compare_received_error staged header txs ops e :
  compare_received_mainnet_block1 staged header txs ops = Err e -> e = ReceivedBlock1.
Proof.
  unfold compare_received_mainnet_block1. destruct (_ || _); [by intros [= <-]|].
  destruct (negb _ || negb _); [by intros [= <-]|done].
Qed.

(** ** Fuel

    A walk of fewer rounds than it may take has come to its end, so that more
    fuel changes nothing; the walk that is accepted has 2003 rounds. *)

Lemma walk_from_tip_length n index tip reverse :
  (length reverse <= length (walk_from_tip n index tip reverse))%nat.
Proof.
  revert tip reverse; induction n as [|n IH]; intros tip reverse; [done|]. cbn [walk_from_tip].
  destruct (index !! tip) as [[h header]|]; [|done]. etrans; [|apply IH]. rewrite length_app. cbn [length]. lia.
Qed.

Lemma walk_from_tip_stable n m index tip reverse :
  (length (walk_from_tip n index tip reverse) < length reverse + n)%nat -> (n <= m)%nat ->
  walk_from_tip m index tip reverse = walk_from_tip n index tip reverse.
Proof.
  revert m tip reverse; induction n as [|n IH]; intros m tip reverse Hl Hm; [cbn in Hl; lia|].
  destruct m as [|m]; [lia|]. cbn [walk_from_tip] in *.
  destruct (index !! tip) as [[h header]|]; [|done]. apply IH; [|lia]. rewrite length_app. cbn [length]. lia.
Qed.

Lemma staged_headers_fuel s chain more :
  (2003 < fuel)%nat -> (fuel <= more)%nat ->
  staged_best_chain_headers fuel s = Ok chain -> staged_best_chain_headers more s = Ok chain.
Proof.
  intros Hf Hm. unfold staged_best_chain_headers. destruct (staged_terminal_chain s) as [[height tip]|]; [|done].
  destruct (fold_result index_staged _ _) as [index|]; [|done].
  destruct (negb (length _ =? 2003)%nat || _) eqn:E; [done|]. apply orb_false_iff in E as [El E].
  apply negb_false_iff, Nat.eqb_eq in El.
  assert (walk_from_tip more index tip [] = walk_from_tip fuel index tip []) as ->
    by (apply walk_from_tip_stable; [rewrite El; cbn [length]; lia|done]).
  by rewrite El, E.
Qed.
End chain.
