(* ===== verification/NodeMainnet.v ===== *)
(** The node on the network it was started for ([mutiny-node/src/blocksync.rs],
    [main.rs]): a block is applied for a runtime, block 1 of Mainnet only against
    the block that the node builds from its own authenticated witness. *)

From Stdlib Require Import Strings.Byte Strings.String.
From stdpp Require Import strings pretty.
From S2P Require Import Prelude Crypto Consensus Codec Smt State Merkle Transaction Bitcoin Protocol ProtocolRules P2p Collections NodeState Economy NodePresence NodeUtxo NodeDividends NodeBitcoin NodePurchase NodeRoots NodeBootstrap NodeEpoch NodeMempool NodeOperations NodeBlocks NodePayload NodeMining NodeReorg NodeChain NodeCore NodeSync NodeReplay NodeAgreement NodeSyncFacts NodeBody MainnetWitness MainnetBootstrap MainnetChain.

(** [impl Display for BootstrapInputError] *)
Definition BootstrapInputError_display (e : BootstrapInputError) : string :=
  match e with
  | Missing p => "LOCAL_INPUT_FAILURE: missing witness " +:+ p
  | Unreadable p e => "LOCAL_INPUT_FAILURE: unreadable witness " +:+ p +:+ ": " +:+ e
  | WrongLength n => "LOCAL_INPUT_FAILURE: witness length " +:+ pretty n +:+ " != " +:+ pretty MAINNET_BOOTSTRAP_WITNESS_LEN
  | WrongHash => "LOCAL_INPUT_FAILURE: witness SHA-256 mismatch"
  | Decode e => "LOCAL_INPUT_FAILURE: witness decode: " +:+ e
  end.

(** The message of a refusal: the text of the node, or the error of the staged
    transition, which the code prints with [{:?}]. *)
Inductive apply_message := Said (e : NodeError) | Staged (e : transition_error.t).

Inductive RuntimeBlockApplyError :=
| LocalBootstrapInput (e : NodeError)
| ConsensusTransition (e : apply_message).

Abbreviation apply_result A := (result RuntimeBlockApplyError A).

Definition as_local {A} (r : node_result A) : apply_result A := map_err LocalBootstrapInput r.
Definition as_consensus {A} (r : node_result A) : apply_result A := map_err (fun e => ConsensusTransition (Said e)) r.
Definition as_staged {A} (r : transition A) : apply_result A := map_err (fun e => ConsensusTransition (Staged e)) r.
Definition as_input {A} (r : result BootstrapInputError A) : apply_result A :=
  map_err (fun e => LocalBootstrapInput (Msg (BootstrapInputError_display e))) r.

(** [BootstrapWitnessProvider]: the path, and what the file system answers for it. *)
Record BootstrapWitnessProvider := {
  wp_path : string;
  wp_is_file : bool;
  wp_read : result string bytes;
}.

Record RuntimeIngressContext := {
  ic_runtime : RuntimeNetwork;
  ic_bootstrap_witness : option BootstrapWitnessProvider;
}.

(** On Mainnet the node only works on the tip of its last block. *)
Definition require_mainnet_canonical_tip (state : DevnetState) : node_result unit :=
  if negb (ds_network_id state =? MAINNET_NETWORK_ID) then Ok tt
  else
    let? _ := validate_runtime_tuple state Mainnet in
    let valid :=
      if ds_height state =? 0
      then is_empty (ds_blocks state) && (ds_tip_epoch state =? 0)
           && bool_decide (ds_tip_hash state = ds_genesis_hash state)
      else match last (ds_blocks state) with
           | None => false
           | Some block =>
               (Z.of_nat (length (ds_blocks state)) =? ds_height state) && (bk_height block =? ds_height state)
               && (ds_tip_epoch state =? bk_epoch block) && bool_decide (ds_tip_hash state = bk_block_hash block)
               && bool_decide (ds_current_state_root state = bk_state_root block)
           end in
    if negb valid
    then err "LOCAL_BOOTSTRAP_INPUT: Mainnet snapshot is not at its committed canonical block tip; locally advanced snapshots require explicit witness-authenticated recovery before runtime use"
    else Ok tt.

Section runtime.
Context {SHA : Sha2} {ED : Ed25519} {AR : Argon2}.
Context (fuel : nat).

(** Block 1 of Mainnet: the received block is compared with the staged one,
    whose state is then taken. *)
Definition apply_mainnet_block1 (state : DevnetState) (header : bytes) (txs : list TransactionV1)
    (operations : list ProtocolOperationV1) (witness : option BootstrapWitnessProvider)
    : apply_result (DevnetState * string) :=
  let? provider := ok_or (LocalBootstrapInput
      (Msg "--bootstrap-witness is required for Mainnet Genesis -> Block1"%string)) witness in
  let? authenticated := as_input (load (wp_path provider) (wp_is_file provider) (wp_read provider)) in
  let? decoded := as_input (decode authenticated) in
  let? staged := as_staged (build_staged_mainnet_block1_transition fuel state decoded) in
  let? _ := as_staged (compare_received_mainnet_block1 staged header txs operations) in
  Ok (sg_state staged, ds_tip_hash (sg_state staged)).

Definition validate_and_apply_block_for_runtime (state : DevnetState) (header : bytes) (txs : list TransactionV1)
    (operations : list ProtocolOperationV1) (runtime : RuntimeNetwork) (witness : option BootstrapWitnessProvider)
    : apply_result (DevnetState * string) :=
  let? _ := as_consensus (validate_runtime_tuple state runtime) in
  match runtime with
  | Devnet => as_consensus (validate_and_apply_block fuel state header txs operations)
  | Mainnet =>
      if negb (ds_network_id state =? MAINNET_NETWORK_ID)
         || negb (bool_decide (ds_genesis_hash state = hex_encode MAINNET_GENESIS_ID))
      then as_consensus (err "selected Mainnet tuple does not match live state")
      else if negb (ds_height state =? 0) then as_consensus (validate_and_apply_block fuel state header txs operations)
      else apply_mainnet_block1 state header txs operations witness
  end.

(** A block that a peer announced.  On Devnet a block whose epoch the local clock
    has already passed is applied after the empty epochs are taken back. *)
Definition validate_and_apply_announced_block (state : DevnetState) (header : bytes) (txs : list TransactionV1)
    (operations : list ProtocolOperationV1) (ingress : RuntimeIngressContext) : apply_result (DevnetState * string) :=
  let? _ := as_consensus (validate_runtime_tuple state (ic_runtime ingress)) in
  if bool_decide (ic_runtime ingress = Mainnet) then
    let? _ := as_local (require_mainnet_canonical_tip state) in
    validate_and_apply_block_for_runtime state header txs operations (ic_runtime ingress) (ic_bootstrap_witness ingress)
  else
    let parent := slice 14 46 header in
    let epoch := be_val (slice 6 14 header) in
    let? tip := as_consensus (decode32 (ds_tip_hash state)) in
    as_consensus
      (if bytes_eqb parent tip && (canonical_epoch state <? epoch) && (epoch <=? ds_tip_epoch state)
       then let? rewound := rewind_empty_epochs fuel state in
            validate_and_apply_block fuel rewound header txs operations
       else validate_and_apply_block fuel state header txs operations).

(** ** Replay for a runtime *)

Definition replay_block_for_runtime (runtime : RuntimeNetwork) (witness : option BootstrapWitnessProvider)
    (replay : DevnetState) (block : BlockState) : apply_result DevnetState :=
  let? payload := as_consensus (encode_block_payload block) in
  let? (header, txs, operations) := as_consensus (decode_block_payload payload) in
  let? (next, _) := validate_and_apply_block_for_runtime replay header txs operations runtime witness in
  Ok next.

(** The serialised states are compared; every field is serialised. *)
Definition verify_full_replay_for_runtime (state : DevnetState) (runtime : RuntimeNetwork)
    (witness : option BootstrapWitnessProvider) : apply_result unit :=
  let? replay := as_consensus (reset_for_replay state) in
  let? replay := fold_result (replay_block_for_runtime runtime witness) replay (ds_blocks state) in
  let? replay := as_consensus (advance_empty_epochs replay (ds_tip_epoch state)) in
  if negb (bool_decide (replay = state))
  then as_consensus (err "full runtime replay does not reconstruct persisted state")
  else Ok tt.

Definition verify_replay_for_ingress (state : DevnetState) (ingress : RuntimeIngressContext) : apply_result unit :=
  let? _ := as_consensus (validate_runtime_tuple state (ic_runtime ingress)) in
  match ic_runtime ingress with
  | Devnet => as_consensus (verify_full_replay fuel state)
  | Mainnet =>
      let canonical := state <| ds_mempool := [] |> <| ds_pending_protocol_operations := [] |>
                             <| ds_side_branches := [] |> in
      verify_full_replay_for_runtime canonical (ic_runtime ingress) (ic_bootstrap_witness ingress)
  end.

(** ** A node of Mainnet *)

(** The state that a Mainnet node starts from. *)
Record mainnet_origin (s : DevnetState) : Prop := {
  mo_tuple : validate_runtime_tuple s Mainnet = Ok tt;
  mo_genesis : ds_genesis_hash s = hex_encode MAINNET_GENESIS_ID;
  mo_height : ds_height s = 0;
  mo_utxos : ds_utxos s = [];
  mo_chain : chain_ok s;
}.

(** A block as it comes from a peer, applied on Mainnet. *)
Inductive mainnet_step (witness : option BootstrapWitnessProvider) : DevnetState -> DevnetState -> Prop :=
| mainnet_block payload header txs ops s s' hash :
    decode_block_payload payload = Ok (header, txs, ops) ->
    validate_and_apply_block_for_runtime s header txs ops Mainnet witness = Ok (s', hash) ->
    mainnet_step witness s s'.

Lemma mainnet_network s : validate_runtime_tuple s Mainnet = Ok tt -> ds_network_id s = MAINNET_NETWORK_ID.
Proof.
  unfold validate_runtime_tuple. destruct (negb _) eqn:E; [discriminate|]. by apply negb_false_iff, Z.eqb_eq in E.
Qed.

(** The application of a block, by the height of the state. *)
Lemma apply_first s header txs ops witness r :
  ds_height s = 0 -> validate_and_apply_block_for_runtime s header txs ops Mainnet witness = Ok r ->
  apply_mainnet_block1 s header txs ops witness = Ok r.
Proof.
  intros Hh. unfold validate_and_apply_block_for_runtime. destruct (as_consensus _); [|done].
  destruct (_ || _); [done|]. by rewrite Hh.
Qed.

Lemma apply_later s header txs ops witness s' hash :
  ds_height s <> 0 -> validate_and_apply_block_for_runtime s header txs ops Mainnet witness = Ok (s', hash) ->
  validate_and_apply_block fuel s header txs ops = Ok (s', hash).
Proof.
  intros Hh. unfold validate_and_apply_block_for_runtime. destruct (as_consensus _); [|done].
  destruct (_ || _); [done|]. destruct (Z.eqb_spec (ds_height s) 0) as [|_]; [done|]. cbn [negb].
  by destruct (validate_and_apply_block _ _ _ _ _) as [r|]; [intros <-%Ok_inj|].
Qed.

(** A witness that the node can use: the file is there and holds the canonical
    bytes of [w], under the fixed digest. *)
Record authentic_witness (provider : BootstrapWitnessProvider) (w : DecodedMainnetBootstrapWitness) : Prop := {
  aw_file : wp_is_file provider = true;
  aw_read : wp_read provider = Ok (witness_bytes w);
  aw_wf : witness_wf w;
  aw_digest : sha256 (witness_bytes w) = WITNESS_SHA256;
}.

Definition load_witness (p : BootstrapWitnessProvider) : result BootstrapInputError DecodedMainnetBootstrapWitness :=
  let? bs := load (wp_path p) (wp_is_file p) (wp_read p) in decode bs.

Lemma load_witness_iff p w : load_witness p = Ok w <-> authentic_witness p w.
Proof.
  unfold load_witness, load, authenticate. split.
  - intros H. destruct (wp_is_file p) eqn:Ef; cbn [negb] in H; [|discriminate H].
    destruct (wp_read p) as [b|] eqn:Er; cbn [map_err] in H; [|discriminate H].
    destruct (negb (_ =? _)); [discriminate H|]. destruct (negb (bytes_eqb _ _)) eqn:E; [discriminate H|].
    apply decode_sound in H as [Hw ->]. by apply negb_false_iff, bytes_eqb_eq in E.
  - intros []. rewrite aw_file0, aw_read0. cbn [negb map_err].
    rewrite (witness_bytes_length w), Z.eqb_refl, aw_digest0, bytes_eqb_refl by done. by apply decode_complete.
Qed.

(** The application of block 1, once the witness is loaded. *)
Lemma apply_block1_loaded s header txs ops p :
  apply_mainnet_block1 s header txs ops (Some p) =
  let? w := as_input (load_witness p) in
  let? staged := as_staged (build_staged_mainnet_block1_transition fuel s w) in
  let? _ := as_staged (compare_received_mainnet_block1 staged header txs ops) in
  Ok (sg_state staged, ds_tip_hash (sg_state staged)).
Proof.
  unfold apply_mainnet_block1, load_witness. cbn [ok_or].
  destruct (load _ _ _) as [bs|]; cbn [as_input map_err]; [|done]. by destruct (decode bs).
Qed.

(** What an accepted block 1 is. *)
Lemma first_accepted s header txs ops witness s' hash :
  Forall tx_wf txs -> Forall operation_wf ops ->
  apply_mainnet_block1 s header txs ops witness = Ok (s', hash) <->
  exists provider w staged, witness = Some provider /\ authentic_witness provider w /\
    build_staged_mainnet_block1_transition fuel s w = Ok staged /\
    header = sg_header staged /\ txs = sg_transactions staged /\ ops = sg_operations staged /\
    s' = sg_state staged /\ hash = ds_tip_hash (sg_state staged).
Proof.
  intros Ht Ho. split.
  - destruct witness as [p|]; [|intros H; discriminate H]. rewrite apply_block1_loaded.
    destruct (load_witness p) as [w|] eqn:Ew; cbn [as_input map_err]; [|discriminate].
    destruct (build_staged_mainnet_block1_transition _ _ _) as [st|] eqn:Eb; cbn [as_staged map_err]; [|discriminate].
    destruct (compare_received_mainnet_block1 _ _ _ _) as [[]|] eqn:Ec; cbn [as_staged map_err]; [|discriminate].
    intros [<- <-]%Ok_inj%pair_inj. destruct (staged_wf _ _ _ _ Eb) as [Hst Hso].
    apply compare_received_ok in Ec as (-> & -> & ->); [|done..]. exists p, w, st. by apply load_witness_iff in Ew.
  - intros (p & w & st & -> & Hw%load_witness_iff & Hb & -> & -> & -> & -> & ->).
    rewrite apply_block1_loaded, Hw. cbn [as_input map_err]. rewrite Hb. cbn [as_staged map_err].
    by rewrite compare_received_refl.
Qed.

(** Any other block is refused. *)
Lemma other_refused s header txs ops p w st :
  Forall tx_wf txs -> Forall operation_wf ops -> authentic_witness p w ->
  build_staged_mainnet_block1_transition fuel s w = Ok st ->
  (header, txs, ops) <> (sg_header st, sg_transactions st, sg_operations st) ->
  apply_mainnet_block1 s header txs ops (Some p) = Err (ConsensusTransition (Staged transition_error.ReceivedBlock1)).
Proof.
  intros Ht Ho Hw%load_witness_iff Hb Hne. rewrite apply_block1_loaded, Hw. cbn [as_input map_err].
  rewrite Hb. cbn [as_staged map_err]. destruct (compare_received_mainnet_block1 _ _ _ _) as [[]|e] eqn:Ec.
  - destruct (staged_wf _ _ _ _ Hb) as [Hst Hso]. apply compare_received_ok in Ec as (-> & -> & ->); [done|done..].
  - by apply compare_received_error in Ec as ->.
Qed.

Lemma mainnet_step_ok witness s s' :
  mainnet_step witness s s' -> chain_ok s -> (ds_height s = 0 -> ds_utxos s = []) ->
  chain_ok s' /\ 0 < ds_height s'.
Proof.
  intros [payload header txs ops s0 s1 hash Hd Hv] Hs Hu. apply decode_payload_iff in Hd as [Hwf _].
  destruct Hwf as (_ & _ & Ht & _ & Ho & _). destruct (Z.eq_dec (ds_height s0) 0) as [H0|H0].
  - apply apply_first in Hv; [|done]. apply first_accepted in Hv as (p & w & st & _ & _ & Hb & _ & _ & _ & -> & _); [|done..].
    apply (staged_first_block _ _ _ _ (Hu H0)) in Hb as Hf. split; [apply Hf|]. rewrite (proj1 (fb_position _ _ _ _ Hf)). lia.
  - apply apply_later, validate_accepted in Hv as [Hv _]; [|done].
    apply accepted_chain_ok in Hv as (H1 & H2 & _); [|done]. split; [done|].
    pose proof (co_height _ Hs). lia.
Qed.

(** The state that a replay starts from satisfies the invariants, and is such an
    origin when it is Mainnet's. *)
Lemma reset_chain_ok template g : reset_for_replay template = Ok g -> chain_ok g.
Proof.
  unfold reset_for_replay. intros (root & Hr & ->)%refresh_root.
  assert (forall s, current_root s = Ok root -> exists r, current_root (with_root (hex_encode root) s) = Ok r /\
            ds_current_state_root (with_root (hex_encode root) s) = hex_encode r) as H.
  { intros s H. exists root. by rewrite current_root_with_root. }
  apply H in Hr. clear H. split; [..|exact Hr]; clear Hr; unfold with_root; fields.
  - lia.
  - reflexivity.
  - split; [lia|]. apply (issuance_max (0 + 1)). lia.
  - done.
  - constructor.
  - reflexivity.
  - reflexivity.
  - unfold fee_rate_ok. change BASE_FEE_MIN_Q32 with (2 ^ 32). by split.
  - split; [exists []; split_and!; simpl; (done || lia)|]. by split.
Qed.

Lemma reset_fields template g :
  reset_for_replay template = Ok g ->
  ds_network_id g = ds_network_id template /\ ds_genesis_hash g = ds_genesis_hash template /\
  ds_height g = 0 /\ ds_utxos g = [].
Proof. unfold reset_for_replay. intros (root & _ & ->)%refresh_root. unfold with_root. fields. done. Qed.

Lemma mainnet_tuple s :
  ds_network_id s = MAINNET_NETWORK_ID -> ds_genesis_hash s = hex_encode MAINNET_GENESIS_ID ->
  validate_runtime_tuple s Mainnet = Ok tt.
Proof. intros Hn Hg. unfold validate_runtime_tuple. rewrite Hn, Hg. vm_compute. reflexivity. Qed.

Lemma reset_origin template g :
  reset_for_replay template = Ok g -> ds_network_id template = MAINNET_NETWORK_ID ->
  ds_genesis_hash template = hex_encode MAINNET_GENESIS_ID -> mainnet_origin g.
Proof.
  intros Hr Hn Hg. destruct (reset_fields _ _ Hr) as (F1 & F2 & F3 & F4). rewrite Hn in F1. rewrite Hg in F2.
  split; [by apply mainnet_tuple|exact F2|exact F3|exact F4|by eapply reset_chain_ok].
Qed.

(** C8: the first block of Mainnet.  A Mainnet node that is at genesis takes no
    block without its own bootstrap witness: without a witness, or with one that
    cannot be read, has another length or digest, or does not decode, every
    block is refused with that error.  With an authentic witness the node takes
    exactly one block, the one it builds itself: a block that came in a payload
    is accepted if and only if its header with all 272 bytes, its transactions
    and its operations are those that the node stages from the witness, the new
    state is the staged one and the hash its tip; every other block is refused.
    That block is block 1 of epoch 10 on the Genesis ID, unsigned, its hash is
    the new tip, its root is the root of the new state, which has twelve pending
    licenses for one consumed Bitcoin payment, 2003 Bitcoin headers, no coins and
    no unspent outputs, and its header commits to its body.  And whatever blocks
    the node takes from then on, the invariants of the chain hold. *)
Theorem mainnet_first_block s witness :
  mainnet_origin s ->
  (forall header txs ops,
     match witness with
     | None => validate_and_apply_block_for_runtime s header txs ops Mainnet None
               = Err (LocalBootstrapInput (Msg "--bootstrap-witness is required for Mainnet Genesis -> Block1"%string))
     | Some p => forall e, (let? bs := load (wp_path p) (wp_is_file p) (wp_read p) in decode bs) = Err e ->
         validate_and_apply_block_for_runtime s header txs ops Mainnet (Some p)
         = Err (LocalBootstrapInput (Msg (BootstrapInputError_display e)))
     end) /\
  (forall payload header txs ops s' hash,
     decode_block_payload payload = Ok (header, txs, ops) ->
     validate_and_apply_block_for_runtime s header txs ops Mainnet witness = Ok (s', hash) <->
     exists provider w staged, witness = Some provider /\
       wp_is_file provider = true /\ wp_read provider = Ok (witness_bytes w) /\ witness_wf w /\
       sha256 (witness_bytes w) = WITNESS_SHA256 /\
       build_staged_mainnet_block1_transition fuel s w = Ok staged /\
       header = sg_header staged /\ txs = sg_transactions staged /\ ops = sg_operations staged /\
       s' = sg_state staged /\ hash = ds_tip_hash s') /\
  (forall provider w staged payload header txs ops,
     witness = Some provider -> authentic_witness provider w ->
     build_staged_mainnet_block1_transition fuel s w = Ok staged ->
     decode_block_payload payload = Ok (header, txs, ops) ->
     (header, txs, ops) <> (sg_header staged, sg_transactions staged, sg_operations staged) ->
     validate_and_apply_block_for_runtime s header txs ops Mainnet witness
     = Err (ConsensusTransition (Staged transition_error.ReceivedBlock1))) /\
  (forall payload header txs ops s' hash,
     decode_block_payload payload = Ok (header, txs, ops) ->
     validate_and_apply_block_for_runtime s header txs ops Mainnet witness = Ok (s', hash) ->
     first_block s' header txs ops /\ hash = ds_tip_hash s') /\
  (forall s', rtc (mainnet_step witness) s s' -> chain_ok s').
Proof.
  intros []. pose proof (mainnet_network _ mo_tuple0) as Hn.
  assert (forall header txs ops w, validate_and_apply_block_for_runtime s header txs ops Mainnet w
                    = apply_mainnet_block1 s header txs ops w) as E.
  { intros header txs ops w. unfold validate_and_apply_block_for_runtime. rewrite mo_tuple0, Hn, mo_height0, mo_genesis0.
    by rewrite bool_decide_eq_true_2. }
  split; [|split; [|split; [|split]]].
  - intros header txs ops. destruct witness as [p|]; [intros e He|]; rewrite E; [|done].
    rewrite apply_block1_loaded. unfold load_witness. by rewrite He.
  - intros payload header txs ops s' hash [(_ & _ & Ht & _ & Ho & _) _]%decode_payload_iff.
    rewrite E, first_accepted by done. split.
    + intros (p & w & st & Hp & [] & Hb & H1 & H2 & H3 & H4 & H5). exists p, w, st. by rewrite H4.
    + intros (p & w & st & Hp & F1 & F2 & F3 & F4 & Hb & H1 & H2 & H3 & H4 & H5). exists p, w, st.
      rewrite <- H4. by split_and!.
  - intros p w st payload header txs ops -> Hw Hb [(_ & _ & Ht & _ & Ho & _) _]%decode_payload_iff Hne.
    rewrite E. by eapply other_refused.
  - intros payload header txs ops s' hash [(_ & _ & Ht & _ & Ho & _) _]%decode_payload_iff.
    rewrite E, first_accepted by done.
    intros (p & w & st & _ & _ & Hb & -> & -> & -> & -> & ->). split; [|done]. by eapply staged_first_block.
  - intros s' Hrun. assert (ds_height s = 0 -> ds_utxos s = []) as Hu by done. clear E Hn mo_tuple0 mo_genesis0 mo_height0 mo_utxos0.
    induction Hrun as [|s s1 s2 Hst _ IH]; [done|].
    destruct (mainnet_step_ok _ _ _ Hst mo_chain0 Hu) as [H1 H2]. apply IH; [done|lia].
Qed.
End runtime.
