(* ===== verification/NodeCheck.v ===== *)
(** What [check_state] of [main.rs] demands of a state that is loaded, as
    propositions, and that accepted blocks and empty epochs keep it: a node
    never writes a state that it would refuse to read back. *)

From Stdlib Require Import Strings.Byte Strings.String.
From stdpp Require Import strings pretty.
From S2P Require Import Prelude Crypto Codec Consensus Smt State Transaction Bitcoin Protocol ProtocolRules Collections NodeState Economy NodePresence NodePunishment NodeUtxo NodeDividends NodeBitcoin NodePurchase NodeRoots NodeBootstrap NodeEpoch NodeMempool NodeOperations NodeBlocks NodeChain NodeAgreement.

(** ** Loops that collect distinct keys *)

Lemma insert_new_iff {K} `{Countable K} (e : NodeError) (x : K) s s' :
  insert_new e x s = Ok s' <-> x ∉ s /\ s' = {[x]} ∪ s.
Proof. unfold insert_new. case_bool_decide; split; [done|tauto|by intros <-%Ok_inj|by intros [_ ->]]. Qed.

(** A loop that checks each element and inserts its key in a set. *)
Lemma distinct_fold {A K} `{Countable K} (f : gset K -> A -> node_result (gset K)) (key : A -> K)
    (P : A -> Prop) l ids :
  (forall ids x ids', f ids x = Ok ids' <-> P x /\ key x ∉ ids /\ ids' = {[key x]} ∪ ids) ->
  (exists ids', fold_result f ids l = Ok ids') <->
  Forall P l /\ NoDup (map key l) /\ Forall (fun x => key x ∉ ids) l.
Proof.
  intros Hf. revert ids. induction l as [|x l IH]; intros ids; cbn [fold_result map].
  { split; [intros _; split_and!; constructor|by eexists]. }
  split.
  - destruct (f ids x) as [ids1|] eqn:E; [|by intros [? ?]]. apply Hf in E as (Hx & Hn & ->).
    intros (Hl & Hd & Hs)%IH. rewrite Forall_forall in Hs. split_and!; [by constructor| |].
    + constructor; [|done]. intros (y & Hy & Hin)%list_elem_of_fmap. specialize (Hs _ Hin). set_solver.
    + constructor; [done|]. apply Forall_forall. intros y Hy%Hs. set_solver.
  - intros (Hl & Hd & Hs). apply Forall_cons in Hl as [Hx Hl], Hs as [Hn Hs]. apply NoDup_cons in Hd as [Hnin Hd].
    assert (f ids x = Ok ({[key x]} ∪ ids)) as -> by by apply Hf.
    apply IH. split_and!; [done..|]. apply Forall_forall. intros y Hy.
    rewrite Forall_forall in Hs. specialize (Hs _ Hy). intros [Hk%elem_of_singleton|]%elem_of_union; [|done].
    apply Hnin. rewrite <- Hk. by apply list_elem_of_fmap_2.
Qed.

Lemma distinct_fold_empty {A K} `{Countable K} (f : gset K -> A -> node_result (gset K)) (key : A -> K)
    (P : A -> Prop) l :
  (forall ids x ids', f ids x = Ok ids' <-> P x /\ key x ∉ ids /\ ids' = {[key x]} ∪ ids) ->
  (exists ids', fold_result f ∅ l = Ok ids') <-> Forall P l /\ NoDup (map key l).
Proof.
  intros Hf. rewrite (distinct_fold f key P) by done.
  split; [tauto|]. intros [? ?]. split_and!; [done..|]. apply Forall_forall. set_solver.
Qed.

Section check.
Context {SHA : Sha2} {ED : Ed25519} {AR : Argon2}.

(** ** What the state root demands *)

Definition decodes (s : string) : Prop := exists id, decode32 s = Ok id.

Lemma insert_entry_ok (e : NodeError) (k leaf : bytes32) (m m' : entries) :
  insert_entry e k leaf m = Ok m' <-> m !! k = None /\ m' = <[k := leaf]> m.
Proof.
  unfold insert_entry. case_bool_decide as Hk; rewrite <- ?eq_None_not_Some in Hk.
  - split; [done|]. intros [Hn _]. rewrite Hn in Hk. by destruct Hk.
  - split; [by intros <-%Ok_inj|by intros [_ ->]].
Qed.

(** Objects that are inserted under keys derived from their stored names have
    distinct names. *)
Lemma entries_distinct {A} (f : entries -> A -> node_result entries) (name : A -> string)
    (key : bytes32 -> bytes32) l m m' :
  (forall m x m', f m x = Ok m' -> exists id leaf, decode32 (name x) = Ok id /\
     m !! key id = None /\ m' = <[key id := leaf]> m) ->
  fold_result f m l = Ok m' ->
  NoDup (map name l) /\ Forall (fun x => exists id, decode32 (name x) = Ok id /\ m !! key id = None) l.
Proof.
  intros Hf. revert m. induction l as [|x l IH]; intros m; cbn [fold_result map]; [by repeat constructor|].
  destruct (f m x) as [m1|] eqn:E; [|done]. apply Hf in E as (id & leaf & Hd & Hk & ->).
  intros [Hnd Hl]%IH. rewrite Forall_forall in Hl. split.
  - constructor; [|done]. intros (y & Hy & (id' & Hd' & Hk')%Hl)%list_elem_of_fmap.
    rewrite <- Hy, Hd in Hd'. apply Ok_inj in Hd' as <-. by rewrite lookup_insert_eq in Hk'.
  - constructor; [by exists id|]. apply Forall_forall. intros y (id' & Hd' & Hk')%Hl. exists id'.
    split; [done|]. by apply lookup_insert_None in Hk' as [? _].
Qed.

Lemma entries_names {A} (f : entries -> A -> node_result entries) (name : A -> string)
    (key : bytes32 -> bytes32) l m m' :
  (forall m x m', f m x = Ok m' -> exists id leaf, decode32 (name x) = Ok id /\
     m !! key id = None /\ m' = <[key id := leaf]> m) ->
  fold_result f m l = Ok m' -> NoDup (map name l) /\ Forall (fun x => decodes (name x)) l.
Proof.
  intros Hf [H1 H2]%(entries_distinct _ _ _ _ _ _ Hf). split; [done|].
  eapply Forall_impl; [exact H2|]. intros x (id & ? & _). by exists id.
Qed.

(** What each object of the roots must look like. *)
Record root_ok (s : DevnetState) : Prop := {
  ro_records : Forall (fun l => exists record, LicenseState_record l = Ok record /\
                 LicenseRecordV1_validate record = Ok tt) (ds_licenses s);
  ro_payments : NoDup (map bp_payment_id (ds_consumed_bitcoin_payments s)) /\
    Forall (fun p => decodes (bp_payment_id p) /\ decodes (bp_txid_internal p) /\
      decodes (bp_containing_block_hash_internal p) /\ decodes (bp_sixth_confirmation_hash_internal p))
      (ds_consumed_bitcoin_payments s);
  ro_accounts : NoDup (map dv_license_id (ds_dividend_accounts s)) /\
    Forall (fun a => decodes (dv_license_id a)) (ds_dividend_accounts s);
  ro_evidence : NoDup (ds_consumed_evidence s) /\ Forall decodes (ds_consumed_evidence s);
  ro_events : NoDup (map oe_evidence_id (ds_offense_events s)) /\
    Forall (fun e => decodes (oe_evidence_id e) /\ decodes (oe_license_id e)) (ds_offense_events s);
  ro_native : NoDup (ds_consumed_native_payments s) /\ Forall decodes (ds_consumed_native_payments s);
  ro_historical : NoDup (map hs_operation_id (ds_historical_license_keys s)) /\
    Forall (fun h => decodes (hs_operation_id h) /\ decodes (hs_license_id h) /\
      decodes (hs_owner_public_key h) /\ decodes (hs_mining_public_key h)) (ds_historical_license_keys s);
  ro_presence : NoDup (map pr_license_id (ds_mining_presence s)) /\
    Forall (fun p => decodes (pr_license_id p) /\ decodes (pr_last_presence_operation_id p))
      (ds_mining_presence s);
}.

(** The key and the leaf of an object that a loop inserted. *)
Ltac entry_ok :=
  intros; unfold payment_entry, account_entry, evidence_entry, event_entry, native_payment_entry,
    historical_entry, presence_entry, protocol_entry, DividendAccountState_account in *;
  inv_ok; match goal with H : insert_entry _ _ _ _ = Ok _ |- _ => apply insert_entry_ok in H as [? ->] end;
  cbn [da_license_id] in *; eauto.

Lemma payment_entries l m m' :
  fold_result payment_entry m l = Ok m' -> NoDup (map bp_payment_id l) /\
  Forall (fun p => decodes (bp_payment_id p) /\ decodes (bp_txid_internal p) /\
      decodes (bp_containing_block_hash_internal p) /\ decodes (bp_sixth_confirmation_hash_internal p)) l.
Proof.
  intros H. split.
  - eapply (entries_names payment_entry bp_payment_id (fun id => id)); [entry_ok|exact H].
  - eapply fold_result_Forall; [|exact H]. unfold payment_entry, BitcoinPaymentState_value_bytes.
    intros ? x ? Hx. inv_ok. split_and!; by eexists.
Qed.

Lemma account_entries l m m' :
  fold_result account_entry m l = Ok m' ->
  NoDup (map dv_license_id l) /\ Forall (fun a => decodes (dv_license_id a)) l.
Proof. apply (entries_names account_entry dv_license_id (protocol_state_key PS_DIVIDEND_ACCOUNT)). entry_ok. Qed.

Lemma evidence_entries l m m' :
  fold_result evidence_entry m l = Ok m' -> NoDup l /\ Forall decodes l.
Proof.
  intros H. rewrite <- (map_id l) at 1.
  apply (entries_names evidence_entry (fun x => x) (protocol_state_key PS_CONSUMED_EVIDENCE) l m m'); [entry_ok|done].
Qed.

Lemma event_entries l m m' :
  fold_result event_entry m l = Ok m' -> NoDup (map oe_evidence_id l) /\
  Forall (fun e => decodes (oe_evidence_id e) /\ decodes (oe_license_id e)) l.
Proof.
  intros H. split.
  - eapply (entries_names event_entry oe_evidence_id (protocol_state_key PS_OFFENSE_EVENT)); [entry_ok|exact H].
  - eapply fold_result_Forall; [|exact H]. unfold event_entry, OffenseEventState_value_bytes.
    intros ? x ? Hx. inv_ok. split; by eexists.
Qed.

Lemma native_payment_entries l m m' :
  fold_result native_payment_entry m l = Ok m' -> NoDup l /\ Forall decodes l.
Proof.
  intros H. rewrite <- (map_id l) at 1.
  apply (entries_names native_payment_entry (fun x => x) (protocol_state_key PS_CONSUMED_NATIVE_PAYMENT) l m m');
    [entry_ok|done].
Qed.

Lemma historical_entries l m m' :
  fold_result historical_entry m l = Ok m' -> NoDup (map hs_operation_id l) /\
  Forall (fun h => decodes (hs_operation_id h) /\ decodes (hs_license_id h) /\
      decodes (hs_owner_public_key h) /\ decodes (hs_mining_public_key h)) l.
Proof.
  intros H. split.
  - eapply (entries_names historical_entry hs_operation_id (protocol_state_key PS_HISTORICAL_LICENSE_KEY));
      [entry_ok|exact H].
  - eapply fold_result_Forall; [|exact H]. unfold historical_entry, HistoricalLicenseKeyState_value_bytes.
    intros ? x ? Hx. inv_ok. split_and!; by eexists.
Qed.

Lemma presence_entries l m m' :
  fold_result presence_entry m l = Ok m' -> NoDup (map pr_license_id l) /\
  Forall (fun p => decodes (pr_license_id p) /\ decodes (pr_last_presence_operation_id p)) l.
Proof.
  intros H. split.
  - eapply (entries_names presence_entry pr_license_id (protocol_state_key PS_MINING_PRESENCE_STATE));
      [entry_ok|exact H].
  - eapply fold_result_Forall; [|exact H]. unfold presence_entry, MiningPresenceState_value.
    intros ? x ? Hx. inv_ok. split; by eexists.
Qed.

Lemma license_entries l m m' :
  fold_result license_entry m l = Ok m' ->
  Forall (fun l => exists record, LicenseState_record l = Ok record /\
            LicenseRecordV1_validate record = Ok tt) l.
Proof.
  apply fold_result_Forall. unfold license_entry, license_leaf, LicenseRecordV1_encode. intros ? x ? Hx.
  destruct (decode32 _); [|done]. destruct (LicenseState_record x) as [r|]; [|done]. exists r. split; [done|].
  by destruct (LicenseRecordV1_validate r) as [[]|].
Qed.

Lemma protocol_root_ok s us c b root :
  compute_protocol_state_root s us c b = Ok root ->
  (exists t, treasury_state s us = Ok t) /\
  exists m1 m2 m3 m4 m5 m6 m7,
    fold_result account_entry m1 (ds_dividend_accounts s) = Ok m2 /\
    fold_result evidence_entry m2 (ds_consumed_evidence s) = Ok m3 /\
    fold_result event_entry m3 (ds_offense_events s) = Ok m4 /\
    fold_result native_payment_entry m4 (ds_consumed_native_payments s) = Ok m5 /\
    fold_result historical_entry m5 (ds_historical_license_keys s) = Ok m6 /\
    fold_result presence_entry m6 (ds_mining_presence s) = Ok m7.
Proof.
  unfold compute_protocol_state_root. destruct (treasury_state s us) as [t|]; [|done].
  intros H. split; [by exists t|]. revert H.
  set (m1 := <[_ := _]> _). exists m1. clearbody m1.
  destruct (fold_result account_entry _ _) as [m2|]; [|done]. exists m2.
  destruct (fold_result evidence_entry _ _) as [m3|]; [|done]. exists m3.
  destruct (fold_result event_entry _ _) as [m4|]; [|done]. exists m4.
  destruct (fold_result native_payment_entry _ _) as [m5|]; [|done]. exists m5.
  destruct (fold_result historical_entry _ _) as [m6|]; [|done]. exists m6.
  destruct (fold_result presence_entry _ _) as [m7|]; [|done]. by exists m7.
Qed.

Lemma compute_state_root_ok s us height issued c b d f root :
  compute_state_root s us height issued c b d f = Ok root ->
  root_ok s /\ exists t, treasury_state s us = Ok t.
Proof.
  unfold compute_state_root, compute_license_root, compute_external_payment_root.
  destruct (compute_utxo_root us); [|done].
  destruct (fold_result license_entry _ _) eqn:Hl; [|done].
  destruct (fold_result payment_entry _ _) eqn:Hp; [|done].
  destruct (compute_protocol_state_root s us c b) eqn:Hs; [|done]. intros _.
  apply protocol_root_ok in Hs as (Ht & m1 & m2 & m3 & m4 & m5 & m6 & m7 & E1 & E2 & E3 & E4 & E5 & E6).
  split; [|done]. split; eauto using license_entries, payment_entries, account_entries, evidence_entries,
    event_entries, native_payment_entries, historical_entries, presence_entries.
Qed.

(** ** The rest of the check *)

Definition license_ids (s : DevnetState) : list string := map ls_license_id (ds_licenses s).

Definition valid_tuple (s : DevnetState) : bool :=
  ((ds_network_id s =? DEVNET_NETWORK_ID)
   && ((ds_format_version s <? 10) || bool_decide (ds_genesis_hash s = DEVNET_GENESIS_ID_HEX)))
  || ((ds_network_id s =? MAINNET_NETWORK_ID)
      && bool_decide (ds_genesis_hash s = hex_encode MAINNET_GENESIS_ID)).

(** Payments to a license go to the address of its owner. *)
Definition address_ok (l : LicenseState) : Prop :=
  exists owner, decode32 (ls_owner_public_key l) = Ok owner /\
    decode32 (ls_payment_address_id l) = Ok (address_id owner).

Definition payment_ok (p : BitcoinPaymentState) : Prop :=
  (exists txid, decode32 (bp_txid_internal p) = Ok txid /\
     decode32 (bp_payment_id p) = Ok (bitcoin_payment_id txid (bp_payment_output_index p))) /\
  bp_paid_sats p <> 0 /\ bp_containing_block_height p + 5 < 2 ^ 32 /\
  bp_containing_block_height p + 5 <= bp_sixth_confirmation_height p.

(** The active offenses of a license, weighed. *)
Definition weight_of (id : string) (events : list OffenseEventState) : Z :=
  sum_of oe_weight (List.filter (fun e => bool_decide (oe_license_id e = id)) events).

Definition event_ok (consumed ids : list string) (e : OffenseEventState) : Prop :=
  oe_evidence_id e ∈ consumed /\ offense_weight (oe_offense_type e) = Ok (oe_weight e) /\
  checked_add 64 (oe_applied_epoch e) STRIKE_DECAY_EPOCHS = Some (oe_expiry_epoch e) /\
  oe_license_id e ∈ ids.

Definition discipline_ok (events : list OffenseEventState) (l : LicenseState) : Prop :=
  if ls_status l =? LICENSE_STATUS_REVOKED
  then ls_strike_weight l = REVOCATION_THRESHOLD /\ ls_revocation_epoch l <> 0
  else ls_strike_weight l = weight_of (ls_license_id l) events /\ ls_revocation_epoch l = 0.

Definition account_ok (ids : list string) (a : DividendAccountState) : Prop :=
  dv_award_epoch a <> 0 /\ dv_award_epoch a mod DIVIDEND_AWARD_INTERVAL = 0 /\
  checked_add 64 (dv_award_epoch a) DIVIDEND_CLAIM_WINDOW = Some (dv_claim_deadline_epoch a) /\
  dv_license_id a ∈ ids /\ 0 <= dv_claimable_strikes a.

Definition presence_ok (ids : list string) (p : MiningPresenceState) : Prop :=
  exists id, decode32 (pr_license_id p) = Ok id /\ hex_encode id ∈ ids.

Record consistent (s : DevnetState) : Prop := {
  cs_tuple : valid_tuple s = true /\ ds_motto s = MOTTO;
  cs_ids : NoDup (license_ids s);
  cs_addresses : Forall address_ok (ds_licenses s);
  cs_payments : Forall payment_ok (ds_consumed_bitcoin_payments s);
  cs_headers : headers_check_state s = Ok tt;
  cs_events : Forall (event_ok (ds_consumed_evidence s) (license_ids s)) (ds_offense_events s);
  cs_weights : forall id, weight_of id (ds_offense_events s) < 2 ^ 8;
  cs_discipline : Forall (discipline_ok (ds_offense_events s)) (ds_licenses s);
  cs_accounts : Forall (account_ok (license_ids s)) (ds_dividend_accounts s);
  cs_reserve : sum_of dv_claimable_strikes (ds_dividend_accounts s) = ds_treasury_reserved_dividend_strikes s;
  cs_presence : Forall (presence_ok (license_ids s)) (ds_mining_presence s);
}.

(** No active offense has expired at [epoch]. *)
Definition live (epoch : Z) (s : DevnetState) : Prop :=
  Forall (fun e => epoch < oe_expiry_epoch e) (ds_offense_events s).

(** What the types of the fields say: unsigned integers. *)
Record unsigned (s : DevnetState) : Prop := {
  un_amounts : nonneg_amounts (ds_utxos s);
  un_claims : Forall (fun a => 0 <= dv_claimable_strikes a) (ds_dividend_accounts s);
  un_rate : 0 <= ds_base_fee_rate_q32 s;
}.

Lemma existsb_name {A} (f : A -> string) k l :
  existsb (fun x => bool_decide (f x = k)) l = true <-> k ∈ map f l.
Proof.
  rewrite existsb_exists, list_elem_of_fmap. split.
  - intros (x & Hx & Hk%bool_decide_eq_true). exists x. split; [done|]. by apply list_elem_of_In.
  - intros (x & -> & Hx). exists x. split; [by apply list_elem_of_In|]. by apply bool_decide_eq_true.
Qed.

Lemma weight_of_cons id e events :
  weight_of id (e :: events) = (if bool_decide (oe_license_id e = id) then oe_weight e else 0) + weight_of id events.
Proof. unfold weight_of. cbn [List.filter]. by case_bool_decide. Qed.

Lemma weight_of_app id l k : weight_of id (l ++ k) = weight_of id l + weight_of id k.
Proof. unfold weight_of. by rewrite List.filter_app, sum_of_app. Qed.

Lemma sum_of_perm {A} (f : A -> Z) l k : l ≡ₚ k -> sum_of f l = sum_of f k.
Proof. unfold sum_of. induction 1; cbn in *; lia. Qed.

Lemma weight_of_perm id l k : l ≡ₚ k -> weight_of id l = weight_of id k.
Proof.
  unfold weight_of. induction 1; cbn [List.filter]; [done| | |congruence].
  - case_bool_decide; [|done]. rewrite !sum_of_cons. lia.
  - repeat case_bool_decide; rewrite ?sum_of_cons; lia.
Qed.

Lemma weight_of_nonneg id events :
  Forall (fun e => 0 <= oe_weight e) events -> 0 <= weight_of id events.
Proof.
  intros H. apply sum_of_nonneg. intros e He. rewrite Forall_forall in H. apply H.
  apply list_elem_of_In in He. apply filter_In in He as [He _]. by apply list_elem_of_In.
Qed.

(** ** The loops of the check *)

(** Splits the guards of one round of a check, in either direction. *)
Ltac guards :=
  repeat match goal with
  | |- context [match ?c with Ok _ => _ | Err _ => _ end] => destruct c eqn:?; cbn [map_err ok_or]
  | |- context [if ?b then _ else _] => destruct b eqn:?
  end.

Lemma check_license_iff ids l ids' :
  check_license ids l = Ok ids' <->
  ((exists record, LicenseState_record l = Ok record /\ LicenseRecordV1_validate record = Ok tt) /\ address_ok l) /\
  ls_license_id l ∉ ids /\ ids' = {[ls_license_id l]} ∪ ids.
Proof.
  unfold check_license, address_ok. split.
  - intros H. destruct (LicenseState_record l) as [r|]; [|done].
    destruct (LicenseRecordV1_validate r) as [[]|] eqn:Hv; [|done]. cbn [map_err] in H.
    destruct (insert_new _ _ _) as [i|] eqn:Hi; [|done]. apply insert_new_iff in Hi as [Hn ->].
    destruct (decode32 (ls_owner_public_key l)) as [owner|]; [|done].
    destruct (decode32 (ls_payment_address_id l)) as [a|]; [|done].
    destruct (negb _) eqn:Hb; [done|]. apply Ok_inj in H as <-. bool_to_prop. subst a.
    split_and!; try done; [by exists r|by exists owner].
  - intros (((r & -> & Hv) & owner & -> & ->) & Hn & ->). rewrite Hv. cbn [map_err].
    unfold insert_new. rewrite bool_decide_eq_false_2 by done. by rewrite bytes_eqb_refl.
Qed.

Lemma licenses_check_iff ls :
  (exists ids, fold_result check_license ∅ ls = Ok ids) <->
  Forall (fun l => (exists record, LicenseState_record l = Ok record /\
            LicenseRecordV1_validate record = Ok tt) /\ address_ok l) ls /\ NoDup (map ls_license_id ls).
Proof. apply distinct_fold_empty. apply check_license_iff. Qed.

Definition check_native (ids : gset string) (payment : string) : node_result (gset string) :=
  let? _ := decode32 payment in insert_new (Msg "duplicate consumed NativePaymentID"%string) payment ids.

Lemma native_check_iff l :
  (exists ids, fold_result check_native ∅ l = Ok ids) <-> Forall decodes l /\ NoDup l.
Proof.
  pose proof (distinct_fold_empty check_native (fun x => x) decodes l) as H. rewrite map_id in H. apply H.
  intros ids x ids'. unfold check_native, decodes.
  destruct (decode32 x) as [id|] eqn:E; [|split; [done|by intros [[? ?] _]]].
  rewrite insert_new_iff. split; [|tauto]. intros [? ->]. split_and!; [by exists id|done..].
Qed.

Definition check_payment (ids : gset string) (payment : BitcoinPaymentState) : node_result (gset string) :=
  let? payment_id := decode32 (bp_payment_id payment) in
  let? txid := decode32 (bp_txid_internal payment) in
  let? _ := decode32 (bp_containing_block_hash_internal payment) in
  let? _ := decode32 (bp_sixth_confirmation_hash_internal payment) in
  if negb (bytes_eqb (bitcoin_payment_id txid (bp_payment_output_index payment)) payment_id)
  then err "stored BitcoinPaymentID does not match Bitcoin txid/output index"
  else if bp_paid_sats payment =? 0 then err "stored Bitcoin payment amount must be nonzero"
  else
    let? minimum_sixth := ok_or (Msg "stored Bitcoin payment height overflow"%string)
        (checked_add 32 (bp_containing_block_height payment) 5) in
    if bp_sixth_confirmation_height payment <? minimum_sixth
    then err "stored Bitcoin payment has fewer than six confirmations"
    else insert_new (Msg "duplicate consumed BitcoinPaymentID"%string) (bp_payment_id payment) ids.

Lemma payments_check_iff s :
  purchase_check_state s = Ok tt <->
  Forall (fun p => payment_ok p /\ decodes (bp_containing_block_hash_internal p) /\
            decodes (bp_sixth_confirmation_hash_internal p)) (ds_consumed_bitcoin_payments s) /\
  NoDup (map bp_payment_id (ds_consumed_bitcoin_payments s)).
Proof.
  trans (exists ids, fold_result check_payment ∅ (ds_consumed_bitcoin_payments s) = Ok ids).
  { unfold purchase_check_state. fold check_payment.
    destruct (fold_result check_payment _ _) as [ids|]; split; try done; [by exists ids|by intros [? ?]]. }
  apply distinct_fold_empty. intros ids p ids'. unfold check_payment, payment_ok, decodes. split.
  - intros H. destruct (decode32 (bp_payment_id p)) as [id|]; [|done].
    destruct (decode32 (bp_txid_internal p)) as [txid|]; [|done].
    destruct (decode32 (bp_containing_block_hash_internal p)) as [c|]; [|done].
    destruct (decode32 (bp_sixth_confirmation_hash_internal p)) as [x|]; [|done].
    destruct (negb _) eqn:H1; [done|]. destruct (_ =? 0) eqn:H2; [done|].
    destruct (checked_add 32 _ 5) as [m|] eqn:H3; [|done]. cbn [ok_or] in H.
    destruct (_ <? m) eqn:H4; [done|]. apply insert_new_iff in H as [Hn ->].
    apply checked_add_Some in H3 as [-> H3]. bool_to_prop.
    split_and!; try done; try by eexists. exists txid. by split; [|f_equal].
  - intros ((((txid & -> & ->) & H2 & H3 & H4) & [? ->] & [? ->]) & Hn & ->).
    rewrite bytes_eqb_refl. cbn [negb]. apply Z.eqb_neq in H2 as ->.
    assert (checked_add 32 (bp_containing_block_height p) 5 = Some (bp_containing_block_height p + 5)) as ->
      by by apply checked_add_Some.
    cbn [ok_or]. apply Z.ltb_ge in H4 as ->. by apply insert_new_iff.
Qed.

(** *** Punishment *)

(** What one round checks of an event. *)
Definition event_checks (s : DevnetState) (consumed : gset string) (e : OffenseEventState) : Prop :=
  (decodes (oe_evidence_id e) /\ decodes (oe_license_id e)) /\ oe_evidence_id e ∈ consumed /\
  offense_weight (oe_offense_type e) = Ok (oe_weight e) /\
  checked_add 64 (oe_applied_epoch e) STRIKE_DECAY_EPOCHS = Some (oe_expiry_epoch e) /\
  ds_tip_epoch s < oe_expiry_epoch e /\ oe_license_id e ∈ license_ids s.

Lemma check_event_iff s consumed seen sums e acc' :
  punishment_check_event s consumed (seen, sums) e = Ok acc' <->
  event_checks s consumed e /\ oe_evidence_id e ∉ seen /\
  default 0 (sums !! oe_license_id e) + oe_weight e < 2 ^ 8 /\
  acc' = ({[oe_evidence_id e]} ∪ seen,
          <[oe_license_id e := default 0 (sums !! oe_license_id e) + oe_weight e]> sums).
Proof.
  unfold punishment_check_event, event_checks, decodes. split.
  - intros H. destruct (decode32 (oe_evidence_id e)) as [i|]; [|done].
    destruct (decode32 (oe_license_id e)) as [j|]; [|done].
    destruct (negb (bool_decide _)) eqn:H1; [done|].
    destruct (insert_new _ _ _) as [seen'|] eqn:H2; [|done]. apply insert_new_iff in H2 as [Hn ->].
    destruct (offense_weight _) as [w|] eqn:H3; [|done]. cbn [map_err] in H.
    destruct (negb (_ =? w)) eqn:H4; [done|].
    destruct (checked_add 64 _ _) as [x|] eqn:H5; [|done]. cbn [ok_or] in H.
    destruct (negb (_ =? x)) eqn:H6; [done|]. destruct (_ <=? _) eqn:H7; [done|].
    destruct (negb (existsb _ _)) eqn:H8; [done|].
    destruct (checked_add 8 _ _) as [y|] eqn:H9; [|done]. cbn [ok_or] in H. apply Ok_inj in H as <-.
    bool_to_prop. apply existsb_name in H8. apply checked_add_Some in H9 as [-> H9].
    apply bool_decide_eq_true in H1. subst w x. split_and!; try done; by eexists.
  - intros ((([i ->] & [j ->]) & H1 & H3 & H5 & H7 & H8) & Hn & H9 & ->).
    rewrite (bool_decide_eq_true_2 _ H1). cbn [negb].
    rewrite (proj2 (insert_new_iff _ _ _ _) (conj Hn eq_refl)), H3. cbn [map_err]. rewrite Z.eqb_refl, H5.
    cbn [negb ok_or]. rewrite Z.eqb_refl. cbn [negb]. apply Z.leb_gt in H7 as ->.
    rewrite (proj2 (existsb_name ls_license_id _ _) H8). cbn [negb].
    by rewrite (proj2 (checked_add_Some 8 _ _ _) (conj eq_refl H9)).
Qed.

Definition total_weights (sums : gmap string Z) (events : list OffenseEventState) : Prop :=
  forall id, default 0 (sums !! id) + weight_of id events < 2 ^ 8.

Lemma default_insert (sums : gmap string Z) k v id :
  default 0 (<[k := v]> sums !! id) = if bool_decide (k = id) then v else default 0 (sums !! id).
Proof. case_bool_decide; [subst; by rewrite lookup_insert_eq|by rewrite lookup_insert_ne]. Qed.

Lemma events_loop s consumed l seen sums acc' :
  fold_result (punishment_check_event s consumed) (seen, sums) l = Ok acc' ->
  Forall (event_checks s consumed) l /\ NoDup (map oe_evidence_id l) /\
  Forall (fun e => oe_evidence_id e ∉ seen) l /\
  (forall id, default 0 (snd acc' !! id) = default 0 (sums !! id) + weight_of id l) /\
  ((forall id, default 0 (sums !! id) < 2 ^ 8) -> total_weights sums l).
Proof.
  revert seen sums. induction l as [|e l IH]; intros seen sums; cbn [fold_result map].
  { intros <-%Ok_inj. unfold total_weights, weight_of. cbn. split_and!; try constructor; intros; try lia.
    specialize (H id). lia. }
  destruct (punishment_check_event s consumed (seen, sums) e) as [[seen1 sums1]|] eqn:E; [|done].
  apply check_event_iff in E as (He & Hn & Hw & [-> ->]%pair_inj). intros (H1 & H2 & H3 & H4 & H5)%IH.
  rewrite Forall_forall in H3. split_and!.
  - by constructor.
  - constructor; [|done]. intros (y & Hy & Hin)%list_elem_of_fmap. specialize (H3 _ Hin). set_solver.
  - constructor; [done|]. apply Forall_forall. intros y Hy%H3. set_solver.
  - intros id. rewrite H4, default_insert, weight_of_cons. repeat case_bool_decide; subst; try done; lia.
  - intros Hs id. rewrite weight_of_cons.
    assert (forall id, default 0 (<[oe_license_id e := default 0 (sums !! oe_license_id e) + oe_weight e]> sums !! id)
                       < 2 ^ 8) as Hs' by (intros i; rewrite default_insert; case_bool_decide; [done|apply Hs]).
    specialize (H5 Hs' id). rewrite default_insert in H5. repeat case_bool_decide; subst; try done; lia.
Qed.

Lemma events_loop_total s consumed l seen sums :
  Forall (event_checks s consumed) l -> NoDup (map oe_evidence_id l) ->
  Forall (fun e => oe_evidence_id e ∉ seen) l -> total_weights sums l ->
  exists acc', fold_result (punishment_check_event s consumed) (seen, sums) l = Ok acc'.
Proof.
  intros HP. assert (Forall (fun e => 0 <= oe_weight e) l) as Hw.
  { eapply Forall_impl; [exact HP|]. intros e (_ & _ & Hw%offense_weight_range & _). lia. }
  revert seen sums. induction l as [|e l IH]; intros seen sums; cbn [fold_result map]; [by eexists|].
  apply Forall_cons in HP as [He HP], Hw as [Hwe Hw]. intros [Hnin Hd]%NoDup_cons [Hn Hs]%Forall_cons Ht.
  pose proof (weight_of_nonneg (oe_license_id e) _ Hw) as Hnn.
  assert (default 0 (sums !! oe_license_id e) + oe_weight e < 2 ^ 8) as H8.
  { specialize (Ht (oe_license_id e)). rewrite weight_of_cons, bool_decide_eq_true_2 in Ht by done. lia. }
  rewrite (proj2 (check_event_iff s consumed seen sums e _) (conj He (conj Hn (conj H8 eq_refl)))).
  apply IH; try done.
  - apply Forall_forall. intros y Hy. rewrite Forall_forall in Hs. specialize (Hs _ Hy).
    intros [Hk%elem_of_singleton|]%elem_of_union; [|done]. apply Hnin. rewrite <- Hk. by apply list_elem_of_fmap_2.
  - intros id. specialize (Ht id). rewrite weight_of_cons in Ht. rewrite default_insert.
    repeat case_bool_decide; subst; try done; lia.
Qed.

Lemma check_discipline_iff sums l events :
  default 0 (sums !! ls_license_id l) = weight_of (ls_license_id l) events ->
  punishment_check_license sums l = Ok tt <-> discipline_ok events l.
Proof.
  intros Hs. unfold punishment_check_license, discipline_ok. rewrite Hs. split.
  - destruct (ls_status l =? _); intros H.
    + destruct (negb _ || _) eqn:E; [done|]. by bool_to_prop.
    + destruct (negb _) eqn:E1; [done|]. destruct (negb (ls_revocation_epoch l =? 0)) eqn:E2; [done|]. by bool_to_prop.
  - destruct (ls_status l =? _); intros [H1 H2].
    + rewrite H1. cbn. by apply Z.eqb_neq in H2 as ->.
    + by rewrite H1, H2, Z.eqb_refl.
Qed.

Lemma check_disciplines_iff sums ls events :
  (forall id, default 0 (sums !! id) = weight_of id events) ->
  (exists us, map_result (punishment_check_license sums) ls = Ok us) <-> Forall (discipline_ok events) ls.
Proof.
  intros Hs. induction ls as [|l ls IH]; cbn [map_result]; [split; [constructor|by eexists]|].
  rewrite Forall_cons, <- IH, <- (check_discipline_iff sums) by done. split.
  - destruct (punishment_check_license sums l) as [[]|]; [|by intros [? ?]].
    destruct (map_result _ _) as [us|]; [|by intros [? ?]]. intros _. by split; [|exists us].
  - intros [-> [us ->]]. by eexists.
Qed.

Definition check_evidence (consumed : gset string) (id : string) : node_result (gset string) :=
  let? _ := decode32 id in insert_new (Msg "duplicate consumed EvidenceID"%string) id consumed.

Lemma evidence_loop ids l ids' :
  fold_result check_evidence ids l = Ok ids' -> ids' = list_to_set l ∪ ids.
Proof.
  revert ids. induction l as [|x l IH]; intros ids; cbn [fold_result]; [intros <-%Ok_inj; set_solver|].
  destruct (check_evidence ids x) as [i|] eqn:E; [|done]. intros ->%IH.
  unfold check_evidence in E. destruct (decode32 x); [|done]. apply insert_new_iff in E as [_ ->]. set_solver.
Qed.

Lemma evidence_loop_iff l :
  (exists ids, fold_result check_evidence ∅ l = Ok ids) <-> Forall decodes l /\ NoDup l.
Proof.
  pose proof (distinct_fold_empty check_evidence (fun x => x) decodes l) as H. rewrite map_id in H. apply H.
  intros ids x ids'. unfold check_evidence, decodes.
  destruct (decode32 x) as [id|] eqn:E; [|split; [done|by intros [[? ?] _]]].
  rewrite insert_new_iff. split; [|tauto]. intros [? ->]. split_and!; [by exists id|done..].
Qed.

Definition punished_ok (s : DevnetState) : Prop :=
  (Forall decodes (ds_consumed_evidence s) /\ NoDup (ds_consumed_evidence s)) /\
  Forall (event_checks s (list_to_set (ds_consumed_evidence s))) (ds_offense_events s) /\
  NoDup (map oe_evidence_id (ds_offense_events s)) /\
  (forall id, weight_of id (ds_offense_events s) < 2 ^ 8) /\
  Forall (discipline_ok (ds_offense_events s)) (ds_licenses s).

Lemma punishment_check_iff s : punishment_check_state s = Ok tt <-> punished_ok s.
Proof.
  unfold punishment_check_state, punished_ok. fold check_evidence. split.
  - destruct (fold_result check_evidence _ _) as [consumed|] eqn:E1; [|done].
    pose proof (evidence_loop _ _ _ E1) as Hc. rewrite union_empty_r_L in Hc. subst consumed.
    destruct (fold_result (punishment_check_event s _) _ _) as [[seen sums]|] eqn:E2; [|done].
    apply events_loop in E2 as (H1 & H2 & _ & H4 & H5). cbn [snd] in H4.
    assert (forall id, default 0 ((∅ : gmap string Z) !! id) = 0) as H0 by (intros; by rewrite lookup_empty).
    destruct (map_result _ _) as [us|] eqn:E3; [|done]. intros _.
    split_and!; [by apply evidence_loop_iff; eexists|by apply evidence_loop_iff; eexists|done|done| |].
    + intros id. specialize (H5 ltac:(intros i; rewrite H0; lia) id). by rewrite H0 in H5.
    + apply (check_disciplines_iff sums); [intros id; by rewrite H4, H0|by eexists].
  - intros (Hev & H1 & H2 & H3 & H4).
    destruct (proj2 (evidence_loop_iff _) Hev) as [consumed E1]. rewrite E1.
    pose proof (evidence_loop _ _ _ E1) as Hc. rewrite union_empty_r_L in Hc. subst consumed.
    destruct (events_loop_total s _ _ ∅ ∅ H1 H2) as [[seen sums] E2].
    { apply Forall_forall. set_solver. } { intros id. rewrite lookup_empty. cbn. apply H3. }
    rewrite E2. apply events_loop in E2 as (_ & _ & _ & H5 & _). cbn [snd] in H5.
    apply (check_disciplines_iff sums) in H4 as [us ->]; [done|]. intros id. by rewrite H5, lookup_empty.
Qed.

(** *** Dividends *)

Definition account_checks (s : DevnetState) (a : DividendAccountState) : Prop :=
  decodes (dv_license_id a) /\ dv_award_epoch a <> 0 /\ dv_award_epoch a mod DIVIDEND_AWARD_INTERVAL = 0 /\
  checked_add 64 (dv_award_epoch a) DIVIDEND_CLAIM_WINDOW = Some (dv_claim_deadline_epoch a) /\
  dv_license_id a ∈ license_ids s.

Lemma check_account_iff s seen n a acc' :
  check_account s (seen, n) a = Ok acc' <->
  account_checks s a /\ dv_license_id a ∉ seen /\ n + dv_claimable_strikes a < 2 ^ 64 /\
  acc' = ({[dv_license_id a]} ∪ seen, n + dv_claimable_strikes a).
Proof.
  unfold check_account, account_checks, decodes. split.
  - intros H. destruct (decode32 _) as [i|]; [|done].
    destruct (insert_new _ _ _) as [seen'|] eqn:H1; [|done]. apply insert_new_iff in H1 as [Hn ->].
    destruct (_ || _) eqn:H2; [done|]. destruct (checked_add 64 (dv_award_epoch a) _) as [d|] eqn:H3; [|done].
    cbn [ok_or] in H. destruct (negb (_ =? d)) eqn:H4; [done|].
    destruct (negb (existsb _ _)) eqn:H5; [done|].
    destruct (checked_add 64 n _) as [m|] eqn:H6; [|done]. cbn [ok_or] in H. apply Ok_inj in H as <-.
    bool_to_prop. apply existsb_name in H5. apply checked_add_Some in H6 as [-> H6]. subst d.
    split_and!; try done. by eexists.
  - intros (([i ->] & H1 & H2 & H3 & H5) & Hn & H6 & ->).
    rewrite (proj2 (insert_new_iff _ _ _ _) (conj Hn eq_refl)). apply Z.eqb_neq in H1 as ->.
    rewrite H2, H3. cbn [Z.eqb negb orb ok_or]. rewrite Z.eqb_refl. cbn [negb].
    rewrite (proj2 (existsb_name ls_license_id _ _) H5). cbn [negb].
    by rewrite (proj2 (checked_add_Some 64 _ _ _) (conj eq_refl H6)).
Qed.

Lemma accounts_loop s l seen n acc' :
  fold_result (check_account s) (seen, n) l = Ok acc' ->
  Forall (account_checks s) l /\ snd acc' = n + sum_of dv_claimable_strikes l.
Proof.
  revert seen n. induction l as [|a l IH]; intros seen n; cbn [fold_result].
  { intros <-%Ok_inj. cbn. split; [constructor|lia]. }
  destruct (check_account s (seen, n) a) as [[seen1 n1]|] eqn:E; [|done].
  apply check_account_iff in E as (Ha & _ & _ & [-> ->]%pair_inj). intros [H1 H2]%IH.
  split; [by constructor|]. rewrite H2, sum_of_cons. lia.
Qed.

Lemma accounts_loop_total s l seen n :
  Forall (account_checks s) l -> NoDup (map dv_license_id l) -> Forall (fun a => dv_license_id a ∉ seen) l ->
  Forall (fun a => 0 <= dv_claimable_strikes a) l -> n + sum_of dv_claimable_strikes l < 2 ^ 64 ->
  exists seen', fold_result (check_account s) (seen, n) l = Ok (seen', n + sum_of dv_claimable_strikes l).
Proof.
  intros HP. revert seen n. induction HP as [|a l Ha HP IH]; intros seen n; cbn [fold_result map].
  { intros _ _ _ _. exists seen. by rewrite Z.add_0_r. }
  rewrite sum_of_cons. intros [Hnin Hd]%NoDup_cons [Hn Hs]%Forall_cons [H0 Hc]%Forall_cons Ht.
  assert (0 <= sum_of dv_claimable_strikes l) by (apply sum_of_nonneg; by apply Forall_forall).
  assert (n + dv_claimable_strikes a < 2 ^ 64) as H6 by lia.
  rewrite (proj2 (check_account_iff s seen n a _) (conj Ha (conj Hn (conj H6 eq_refl)))).
  rewrite Z.add_assoc. apply IH; try done; [|lia].
  apply Forall_forall. intros y Hy. rewrite Forall_forall in Hs. specialize (Hs _ Hy).
  intros [Hk%elem_of_singleton|]%elem_of_union; [|done]. apply Hnin. rewrite <- Hk. by apply list_elem_of_fmap_2.
Qed.

Lemma dividends_check_ok s :
  dividends_check_state s = Ok tt ->
  Forall (account_checks s) (ds_dividend_accounts s) /\
  sum_of dv_claimable_strikes (ds_dividend_accounts s) = ds_treasury_reserved_dividend_strikes s.
Proof.
  unfold dividends_check_state. destruct (treasury_total _) as [total|]; [|done]. destruct (total <? _); [done|].
  destruct (fold_result _ _ _) as [[seen n]|] eqn:E; [|done]. destruct (negb _) eqn:En; [done|].
  apply accounts_loop in E as [H1 H2]. cbn in H2. bool_to_prop. intros _. split; [done|]. lia.
Qed.

Lemma dividends_check_total s t :
  treasury_state s (ds_utxos s) = Ok t -> Forall (account_checks s) (ds_dividend_accounts s) ->
  NoDup (map dv_license_id (ds_dividend_accounts s)) -> unsigned s ->
  sum_of dv_claimable_strikes (ds_dividend_accounts s) = ds_treasury_reserved_dividend_strikes s ->
  dividends_check_state s = Ok tt.
Proof.
  unfold treasury_state, dividends_check_state. intros Ht HP Hd [_ Hc _] Hs.
  destruct (treasury_total _) as [total|] eqn:Etot; [|done].
  destruct (checked_sub _ _) as [v|] eqn:Ev; cbn [ok_or] in Ht; [|done]. apply checked_sub_Some in Ev as [_ Ev].
  destruct (Z.ltb_spec total (ds_treasury_reserved_dividend_strikes s)); [lia|].
  assert (total < 2 ^ 64).
  { unfold treasury_total in Etot. eapply try_sum_bound in Etot; [lia|lia]. }
  destruct (accounts_loop_total s (ds_dividend_accounts s) ∅ 0) as [seen ->]; try done;
    [apply Forall_forall; set_solver|lia|].
  by rewrite Z.add_0_l, Hs, Z.eqb_refl.
Qed.

(** *** Presence and historical keys *)

Definition presence_checks (s : DevnetState) (p : MiningPresenceState) : Prop :=
  presence_ok (license_ids s) p /\ decodes (pr_last_presence_operation_id p).

Lemma presence_check_iff s :
  presence_check_state s = Ok tt <->
  Forall (presence_checks s) (ds_mining_presence s) /\ NoDup (map pr_license_id (ds_mining_presence s)).
Proof.
  unfold presence_check_state.
  match goal with |- context [fold_result ?g] => set (f := g) end.
  trans (exists ids, fold_result f ∅ (ds_mining_presence s) = Ok ids).
  { destruct (fold_result f _ _) as [ids|]; split; try done; [by exists ids|by intros [? ?]]. }
  apply distinct_fold_empty. intros ids p ids'. subst f. cbn beta.
  unfold presence_checks, presence_ok, decodes, MiningPresenceState_value. split.
  - intros H. destruct (decode32 (pr_license_id p)) as [id|]; [|done].
    destruct (decode32 (pr_last_presence_operation_id p)) as [op|]; [|done]. cbn in H.
    destruct (insert_new _ _ _) as [ids1|] eqn:H1; [|done]. apply insert_new_iff in H1 as [Hn ->].
    destruct (negb (existsb _ _)) eqn:H2; [done|]. apply Ok_inj in H as <-. bool_to_prop.
    apply existsb_name in H2. split_and!; [by exists id|by exists op|done|done].
  - intros (((id & -> & Hin) & op & ->) & Hn & ->). cbn.
    rewrite (proj2 (insert_new_iff _ _ _ _) (conj Hn eq_refl)).
    assert (existsb (license_is id) (ds_licenses s) = true) as -> by by apply (existsb_name ls_license_id). done.
Qed.

Lemma historical_check_iff l :
  (exists ids, fold_result check_historical ∅ l = Ok ids) <->
  Forall (fun h => decodes (hs_operation_id h) /\ decodes (hs_license_id h) /\
      decodes (hs_owner_public_key h) /\ decodes (hs_mining_public_key h)) l /\ NoDup (map hs_operation_id l).
Proof.
  apply distinct_fold_empty. intros ids h ids'. unfold check_historical, decodes. split.
  - destruct (decode32 (hs_operation_id h)) as [a|]; [|done]. destruct (decode32 (hs_license_id h)) as [b|]; [|done].
    destruct (decode32 (hs_owner_public_key h)) as [c|]; [|done].
    destruct (decode32 (hs_mining_public_key h)) as [d|]; [|done].
    intros [Hn ->]%insert_new_iff. split_and!; try done; by eexists.
  - intros (([a ->] & [b ->] & [c ->] & [d ->]) & Hn & ->). by apply insert_new_iff.
Qed.

(** ** The whole check *)

(** What [check_state] says of the chain. *)
Definition chain_checks (s : DevnetState) : Prop :=
  ds_tip_hash s = expected_tip s /\ ds_height s = Z.of_nat (length (ds_blocks s)) /\
  try_sum 128 (Msg "UTXO supply overflow"%string) us_amount_strikes (ds_utxos s) = Ok (ds_total_issued_strikes s) /\
  exists root, current_root s = Ok root /\ ds_current_state_root s = hex_encode root.

Lemma check_state_complete s :
  consistent s -> live (ds_tip_epoch s) s -> unsigned s -> chain_checks s -> check_state s = Ok tt.
Proof.
  intros [Htup Hids Haddr Hpay Hhd Hev Hw Hdisc Hacc Hres Hpr] Hlive Hun (Htip & Hheight & Hsum & root & Hroot & Hst).
  pose proof Hroot as Hr. unfold current_root in Hr. apply compute_state_root_ok in Hr as [[] [t Ht]].
  unfold check_state. fold (valid_tuple s). destruct Htup as [-> ->]. rewrite bool_decide_eq_true_2 by done.
  fold (expected_tip s). rewrite <- Htip, bool_decide_eq_true_2 by done. rewrite Hheight, Z.eqb_refl. cbn [negb orb].
  destruct (proj2 (licenses_check_iff (ds_licenses s))) as [? ->].
  { split; [|done]. apply Forall_forall. intros l Hl. rewrite Forall_forall in ro_records0, Haddr. auto. }
  fold check_native. destruct (proj2 (native_check_iff (ds_consumed_native_payments s))) as [? ->]; [tauto|].
  rewrite (proj2 (payments_check_iff s)).
  2: { split; [|tauto]. apply Forall_forall. intros p Hp. destruct ro_payments0 as [_ H].
       rewrite Forall_forall in H, Hpay. specialize (H _ Hp). specialize (Hpay _ Hp). tauto. }
  rewrite Hhd, (proj2 (punishment_check_iff s)).
  2: { split_and!; try tauto. apply Forall_forall. intros e He. destruct ro_events0 as [_ H].
       unfold live in Hlive. rewrite Forall_forall in H, Hev, Hlive. specialize (H _ He). specialize (Hlive _ He).
       destruct (Hev _ He) as (H1 & H2 & H3 & H4). split_and!; try tauto. by apply elem_of_list_to_set. }
  rewrite (dividends_check_total s t); try tauto.
  2: { apply Forall_forall. intros a Ha. destruct ro_accounts0 as [_ H]. rewrite Forall_forall in H, Hacc.
       specialize (H _ Ha). destruct (Hacc _ Ha) as (? & ? & ? & ? & _). by split_and!. }
  rewrite (proj2 (presence_check_iff s)).
  2: { split; [|tauto]. apply Forall_forall. intros p Hp. destruct ro_presence0 as [_ H].
       rewrite Forall_forall in H, Hpr. specialize (H _ Hp). specialize (Hpr _ Hp). split; tauto. }
  destruct (proj2 (historical_check_iff (ds_historical_license_keys s))) as [? ->]; [tauto|].
  rewrite Hsum, Z.eqb_refl. cbn [negb]. rewrite Hroot, Hst. by rewrite bool_decide_eq_true_2.
Qed.

Lemma check_state_sound s :
  check_state s = Ok tt -> unsigned s -> consistent s /\ live (ds_tip_epoch s) s /\ chain_checks s.
Proof.
  intros H Hun. unfold check_state in H. fold (valid_tuple s) (expected_tip s) check_native in H.
  destruct (negb (valid_tuple s) || _) eqn:H1; [done|].
  destruct (negb (bool_decide (ds_tip_hash s = expected_tip s))) eqn:H2; [done|].
  destruct (negb (ds_height s =? _)) eqn:H3; [done|].
  destruct (fold_result check_license _ _) as [ids|] eqn:H4; [|done].
  destruct (fold_result check_native _ _) as [ns|]; [|done].
  destruct (purchase_check_state s) as [[]|] eqn:H6; [|done].
  destruct (headers_check_state s) as [[]|] eqn:H7; [|done].
  destruct (punishment_check_state s) as [[]|] eqn:H8; [|done].
  destruct (dividends_check_state s) as [[]|] eqn:H9; [|done].
  destruct (presence_check_state s) as [[]|] eqn:H10; [|done].
  destruct (fold_result check_historical _ _) as [hs|]; [|done].
  destruct (try_sum 128 _ _ _) as [total|] eqn:H12; [|done]. destruct (negb (total =? _)) eqn:H13; [done|].
  destruct (current_root s) as [root|] eqn:H14; [|done]. destruct (negb (bool_decide (hex_encode root = _))) eqn:H15; [done|]. clear H.
  apply negb_false_iff, bool_decide_eq_true in H15. rename H15 into Hst.
  bool_to_prop. subst total.
  repeat match goal with H : bool_decide _ = true |- _ => apply bool_decide_eq_true in H end.
  destruct (proj1 (licenses_check_iff _) (ex_intro _ ids H4)) as [Hl Hnd].
  apply payments_check_iff in H6 as [Hp _]. apply punishment_check_iff in H8 as (_ & He & _ & Hw & Hd).
  apply dividends_check_ok in H9 as [Ha Hr]. apply presence_check_iff in H10 as [Hpr _].
  split_and!.
  - split; try done.
    + eapply Forall_impl; [exact Hl|]. by intros l [_ ?].
    + eapply Forall_impl; [exact Hp|]. by intros p [? _].
    + eapply Forall_impl; [exact He|]. intros e (_ & Hc & ? & ? & _ & ?). split_and!; try done.
      by apply elem_of_list_to_set in Hc.
    + apply Forall_forall. intros a Hin. destruct Hun as [_ Hc _]. rewrite Forall_forall in Ha, Hc.
      destruct (Ha _ Hin) as (_ & ? & ? & ? & ?). split_and!; try done. by apply Hc.
    + eapply Forall_impl; [exact Hpr|]. by intros p [? _].
  - eapply Forall_impl; [exact He|]. by intros e (_ & _ & _ & _ & ? & _).
  - split_and!; try done. by exists root.
Qed.
End check.
