(* ===== verification/NodeInvariant.v ===== *)
(** Accepted blocks and empty epochs keep what [check_state] demands
    ([NodeCheck.v]): every step of an epoch boundary and every protocol
    operation of a block preserves the consistency of the state. *)

From Stdlib Require Import Strings.Byte Strings.String.
From stdpp Require Import strings pretty.
From S2P Require Import Prelude Crypto Codec Consensus Smt State Transaction Bitcoin Protocol ProtocolRules Collections NodeState Economy NodePresence NodePunishment NodeUtxo NodeDividends NodeBitcoin NodePurchase NodeRoots NodeBootstrap NodeEpoch NodeMempool NodeOperations NodeBlocks NodeChain NodeAgreement NodeCheck.

Section invariant.
Context {SHA : Sha2} {ED : Ed25519} {AR : Argon2}.

(** ** Frames *)

(** The state agrees on everything that consistency is about. *)
Record same_registry (s s' : DevnetState) : Prop := {
  sr_chain : ds_network_id s' = ds_network_id s /\ ds_genesis_hash s' = ds_genesis_hash s /\
             ds_format_version s' = ds_format_version s /\ ds_motto s' = ds_motto s;
  sr_licenses : ds_licenses s' = ds_licenses s;
  sr_payments : ds_consumed_bitcoin_payments s' = ds_consumed_bitcoin_payments s;
  sr_headers : ds_bitcoin_headers s' = ds_bitcoin_headers s /\ ds_bitcoin_best_chain s' = ds_bitcoin_best_chain s;
  sr_evidence : ds_consumed_evidence s' = ds_consumed_evidence s;
  sr_events : ds_offense_events s' = ds_offense_events s;
  sr_reserve : ds_treasury_reserved_dividend_strikes s' = ds_treasury_reserved_dividend_strikes s;
  sr_accounts : ds_dividend_accounts s' = ds_dividend_accounts s;
  sr_presence : ds_mining_presence s' = ds_mining_presence s;
}.

Lemma headers_check_same s s' :
  ds_network_id s' = ds_network_id s -> ds_genesis_hash s' = ds_genesis_hash s ->
  ds_bitcoin_headers s' = ds_bitcoin_headers s -> ds_bitcoin_best_chain s' = ds_bitcoin_best_chain s ->
  headers_check_state s' = headers_check_state s.
Proof. intros H1 H2 H3 H4. unfold headers_check_state. by rewrite H1, H2, H3, H4. Qed.

Lemma consistent_same s s' : same_registry s s' -> consistent s -> consistent s'.
Proof.
  intros [(H1 & H2 & H3 & H4) Hl Hp (Hh & Hb) He Hv Hr Ha Hm] [].
  split; unfold license_ids, valid_tuple in *;
    rewrite ?H1, ?H2, ?H3, ?H4, ?Hl, ?Hp, ?He, ?Hv, ?Hr, ?Ha, ?Hm; try done.
  by rewrite (headers_check_same s).
Qed.

(** ** Epoch boundaries *)

Lemma active_weights_loop active events active' :
  fold_result (fun (active : gmap string Z) event =>
      let? weight := ok_or (Msg "active strike weight overflow"%string)
          (checked_add 8 (default 0 (active !! oe_license_id event)) (oe_weight event)) in
      Ok (<[oe_license_id event := weight]> active)) active events = Ok active' ->
  forall id, default 0 (active' !! id) = default 0 (active !! id) + weight_of id events.
Proof.
  revert active. induction events as [|e events IH]; intros active; cbn [fold_result].
  { intros <-%Ok_inj id. unfold weight_of. cbn. lia. }
  destruct (checked_add 8 _ _) as [w|] eqn:E; cbn [ok_or]; [|done].
  apply checked_add_Some in E as [-> _]. intros H id.
  rewrite (IH _ H id), weight_of_cons, default_insert. repeat case_bool_decide; subst; try done; lia.
Qed.

Lemma active_weights_ok events active :
  active_weights events = Ok active -> forall id, default 0 (active !! id) = weight_of id events.
Proof. intros H id. rewrite (active_weights_loop ∅ events active H id). by rewrite lookup_empty. Qed.

Lemma weight_of_filter_le id p events :
  Forall (fun e => 0 <= oe_weight e) events -> weight_of id (List.filter p events) <= weight_of id events.
Proof.
  induction 1 as [|e events He _ IH]; [done|]. cbn [List.filter].
  destruct (p e); rewrite !weight_of_cons; case_bool_decide; lia.
Qed.

Lemma event_weights s : consistent s -> Forall (fun e => 0 <= oe_weight e) (ds_offense_events s).
Proof.
  intros []. eapply Forall_impl; [exact cs_events|]. intros e (_ & Hw%offense_weight_range & _). lia.
Qed.

Lemma expire_license_ok active events l l' :
  (forall id, default 0 (active !! id) = weight_of id events) ->
  expire_license active l = Ok l' ->
  ls_license_id l' = ls_license_id l /\ (address_ok l -> address_ok l') /\
  ((exists old, discipline_ok old l) -> discipline_ok events l').
Proof.
  intros Ha. unfold expire_license, discipline_ok. destruct (ls_status l =? LICENSE_STATUS_REVOKED) eqn:E.
  - destruct (negb _); [done|]. intros <-%Ok_inj. rewrite E. split_and!; [done|done|]. by intros [_ H].
  - destruct (_ <=? _); [done|]. intros <-%Ok_inj. fields. rewrite E, Ha. split_and!; [done|done|].
    by intros [_ [_ H]].
Qed.

Lemma expire_consistent s epoch s' :
  expire_events s epoch = Ok s' -> consistent s -> consistent s' /\ live epoch s'.
Proof.
  unfold expire_events. set (events := List.filter _ _).
  destruct (active_weights events) as [active|] eqn:E; [|done].
  pose proof (active_weights_ok _ _ E) as Hw. destruct (map_result _ _) as [ls|] eqn:El; [|done].
  intros <-%Ok_inj Hs. pose proof (event_weights _ Hs) as Hn. destruct Hs.
  assert (map ls_license_id ls = map ls_license_id (ds_licenses s)) as Hids.
  { eapply (map_result_map _ ls_license_id); [|exact El]. intros x y. apply expire_license_id. }
  assert (forall e, e ∈ events -> e ∈ ds_offense_events s /\ epoch < oe_expiry_epoch e) as Hev.
  { intros e He. apply list_elem_of_In, filter_In in He as [He ?]. bool_to_prop. split; [|done]. by apply list_elem_of_In. }
  assert (Forall (fun l => address_ok l /\ discipline_ok events l) ls) as Hls.
  { apply map_result_Forall2 in El. apply Forall_forall. intros l' Hl'.
    apply list_elem_of_lookup in Hl' as [i Hi]. destruct (Forall2_lookup_r _ _ _ _ _ El Hi) as (l & Hl & Hx).
    rewrite Forall_forall in cs_addresses, cs_discipline. apply list_elem_of_lookup_2 in Hl.
    destruct (expire_license_ok _ _ _ _ Hw Hx) as (_ & Ha & Hd). split; [by apply Ha, cs_addresses|].
    apply Hd. eexists. by apply cs_discipline. }
  split; [|apply Forall_forall; intros e He; by apply Hev].
  split; unfold license_ids; fields; try done; rewrite ?Hids; try done.
  - eapply Forall_impl; [exact Hls|]. by intros l [? _].
  - apply Forall_forall. intros e [He _]%Hev. rewrite Forall_forall in cs_events. by apply cs_events.
  - intros id. pose proof (weight_of_filter_le id (fun e => epoch <? oe_expiry_epoch e) _ Hn). specialize (cs_weights id).
    subst events. lia.
  - eapply Forall_impl; [exact Hls|]. by intros l [_ ?].
Qed.

Lemma activate_consistent s epoch :
  consistent s -> consistent (s <| ds_licenses := map (activate epoch) (ds_licenses s) |>).
Proof.
  intros []. split; unfold license_ids; fields; rewrite ?activate_ids; try done.
  - apply Forall_fmap. eapply Forall_impl; [exact cs_addresses|]. intros l. unfold compose, activate.
    by destruct (_ && _).
  - apply Forall_fmap. eapply Forall_impl; [exact cs_discipline|]. intros l. unfold compose, activate, discipline_ok.
    destruct (ls_status l =? LICENSE_STATUS_PENDING) eqn:E; cbn [andb]; [|done].
    bool_to_prop. rewrite E. destruct (_ <=? _); fields; rewrite ?E; done.
Qed.

(** *** Dividends at an epoch boundary *)

Lemma expire_accounts_loop epoch l returned retained r' k :
  fold_result (fun '(returned, retained) account =>
      if dv_claim_deadline_epoch account <=? epoch then
        let? returned := ok_or (Msg "expired dividend return overflow"%string)
            (checked_add 64 returned (dv_claimable_strikes account)) in
        Ok (returned, retained)
      else Ok (returned, retained ++ [account])) (returned, retained) l = Ok (r', k) ->
  exists kept dropped, l ≡ₚ kept ++ dropped /\ k = retained ++ kept /\
    r' = returned + sum_of dv_claimable_strikes dropped.
Proof.
  revert returned retained. induction l as [|a l IH]; intros returned retained; cbn [fold_result].
  { intros H%Ok_inj. apply pair_inj in H as [-> ->]. exists [], []. rewrite !app_nil_r. cbn. split_and!; [done|done|lia]. }
  destruct (_ <=? _).
  - destruct (checked_add 64 _ _) as [m|] eqn:E; cbn [ok_or]; [|done]. apply checked_add_Some in E as [-> _].
    intros (kept & dropped & Hp & -> & ->)%IH. exists kept, (a :: dropped). rewrite sum_of_cons.
    split_and!; [|done|lia]. by rewrite Hp, Permutation_middle.
  - intros (kept & dropped & Hp & -> & ->)%IH. exists (a :: kept), dropped.
    split_and!; [by rewrite Hp|by rewrite <- app_assoc|done].
Qed.

Lemma first_step_consistent s epoch s' r :
  first_step s epoch = Ok (s', r) -> consistent s -> consistent s'.
Proof.
  unfold first_step, expire_accounts. destruct (fold_result _ _ _) as [[returned retained]|] eqn:E; [|done].
  apply expire_accounts_loop in E as (kept & dropped & Hp & -> & ->). cbn [app]. rewrite Z.add_0_l. intros H [].
  rewrite Hp in cs_accounts. apply Forall_app in cs_accounts as [Hk Hd].
  assert (0 <= sum_of dv_claimable_strikes dropped) as H0.
  { apply sum_of_nonneg. intros a Ha. rewrite Forall_forall in Hd. apply (Hd a Ha). }
  rewrite (sum_of_perm _ _ _ Hp), sum_of_app in cs_reserve.
  destruct (Z.ltb_spec 0 (sum_of dv_claimable_strikes dropped)).
  - destruct (checked_sub _ _) as [v|] eqn:Ev; cbn [ok_or] in H; [|done].
    apply checked_sub_Some in Ev as [-> _]. apply Ok_inj, pair_inj in H as [<- _].
    split; unfold license_ids; fields; try done. fields. lia.
  - apply Ok_inj, pair_inj in H as [<- _]. split; unfold license_ids; fields; try done. lia.
Qed.

Lemma drop_stale_consistent s epoch : consistent s -> consistent (drop_stale_claims s epoch).
Proof. apply consistent_same. by split. Qed.

Lemma award_split available eligible calc :
  0 <= available -> 0 <= eligible -> calculate_dividend_award available eligible = Ok calc ->
  0 <= aw_per_license_strikes calc /\
  aw_total_reserved_strikes calc = aw_per_license_strikes calc * eligible.
Proof.
  intros Ha He. unfold calculate_dividend_award.
  destruct (checked_mul 64 available _) as [p|] eqn:Ep; cbn [ok_or]; [|done].
  destruct (checked_mul 64 _ eligible) as [t|] eqn:Et; cbn [ok_or]; [|done].
  destruct (checked_sub _ t) as [u|]; cbn [ok_or]; [|done]. intros <-%Ok_inj. cbn.
  apply checked_mul_Some in Ep as [-> _], Et as [-> _]. split; [|done].
  destruct (Z.eqb_spec eligible 0); [done|]. apply Z.div_pos; [|lia]. apply Z.div_pos; [|done].
  unfold DIVIDEND_FRACTION_NUMERATOR. lia.
Qed.

Lemma award_consistent s epoch s' n reserved :
  award s epoch = Ok (s', n, reserved) -> epoch <> 0 -> epoch mod DIVIDEND_AWARD_INTERVAL = 0 ->
  consistent s -> consistent s'.
Proof.
  unfold award. destruct (existsb _ _); [done|].
  destruct (treasury_state s _) as [t|] eqn:Et; [|done].
  destruct (calculate_dividend_award _ _) as [calc|] eqn:Ec; cbn [map_err]; [|done].
  destruct (_ =? 0); [by intros H%Ok_inj; apply pair_inj in H as [[<- _]%pair_inj _]|].
  destruct (checked_add 64 epoch _) as [deadline|] eqn:Ed; cbn [ok_or]; [|done].
  destruct (checked_add 64 (ds_treasury_reserved_dividend_strikes s) _) as [res|] eqn:Er; cbn [ok_or]; [|done]. apply checked_add_Some in Er as [-> _].
  intros H%Ok_inj He Hm []. apply pair_inj in H as [[<- _]%pair_inj _].
  assert (0 <= aw_per_license_strikes calc /\
          aw_total_reserved_strikes calc = aw_per_license_strikes calc * Z.of_nat (length (eligible_ids s epoch)))
    as [Hper Htot].
  { unfold treasury_state in Et. destruct (treasury_total _); [|done].
    destruct (checked_sub _ _) as [v|] eqn:Ev; cbn [ok_or] in Et; [|done]. apply checked_sub_Some in Ev as [-> Hv].
    apply Ok_inj in Et as <-. revert Ec. cbn [ts_available_strikes]. apply award_split; [|lia].
    apply Zle_minus_le_0. exact Hv. }
  match goal with |- context [map ?f (eligible_ids s epoch)] => set (mk := f) end.
  assert (Forall (account_ok (license_ids s)) (map mk (eligible_ids s epoch)) /\
          sum_of dv_claimable_strikes (map mk (eligible_ids s epoch)) = aw_total_reserved_strikes calc) as [Hnew Hsum].
  { rewrite Htot. split.
    - apply Forall_fmap, Forall_forall. intros id Hid. unfold compose, account_ok, mk. cbn. split_and!; try done.
      unfold eligible_ids, license_ids in *. apply list_elem_of_fmap in Hid as (l & -> & Hl).
      apply list_elem_of_fmap_2. apply list_elem_of_In, filter_In in Hl as [Hl _]. by apply list_elem_of_In.
    - clear. induction (eligible_ids s epoch) as [|id ids IH]; [cbn; lia|].
      cbn [map length]. rewrite sum_of_cons, IH. cbn. lia. }
  split; unfold license_ids; fields; try done; fields.
  - rewrite sort_by_perm. by apply Forall_app.
  - rewrite (sum_of_perm _ _ _ (sort_by_perm _ _)), sum_of_app. lia.
Qed.

Lemma process_epoch_consistent s epoch s' x :
  process_epoch s epoch = Ok (s', x) -> consistent s -> consistent s'.
Proof.
  unfold process_epoch. destruct (first_step s epoch) as [[s1 r]|] eqn:E; [|done]. intros H Hs.
  apply first_step_consistent in E; [|done]. apply (drop_stale_consistent _ epoch) in E.
  destruct (_ || _) eqn:Eb; [by apply Ok_inj, pair_inj in H as [<- _]|].
  destruct (award _ epoch) as [[[s2 n] v]|] eqn:Ea; [|done]. apply Ok_inj, pair_inj in H as [<- _].
  bool_to_prop. by eapply award_consistent.
Qed.

Lemma consistent_epoch_invariant : epoch_invariant consistent.
Proof.
  split.
  - intros s epoch s' H Hs. by destruct (expire_consistent _ _ _ H Hs).
  - intros. by apply activate_consistent.
  - intros. by eapply process_epoch_consistent.
  - unfold append_difficulty_result. intros s b s' H. inv_ok. apply consistent_same. by split.
  - intros s epoch. apply consistent_same. by split.
  - intros s root. apply consistent_same. by split.
Qed.

(** After a boundary, what has expired is gone. *)
Lemma transitions_live s epoch s' n :
  apply_scheduled_license_transitions s epoch = Ok (s', n) -> live epoch s'.
Proof.
  unfold apply_scheduled_license_transitions, expire_events.
  destruct (active_weights _) as [active|]; [|done]. destruct (map_result _ _) as [ls|]; [|done].
  destruct (process_epoch _ epoch) as [[s2 x]|] eqn:E; [|done]. intros H%Ok_inj. apply pair_inj in H as [<- _].
  apply process_epoch_same in E as (_ & _ & _ & He). unfold live. rewrite He. fields.
  apply Forall_forall. intros e Hin. apply list_elem_of_In, filter_In in Hin as [_ ?]. by bool_to_prop.
Qed.

Lemma pass_empty_epoch_live s s' : pass_empty_epoch s = Ok s' -> live (ds_tip_epoch s') s'.
Proof.
  intros H. pose proof (pass_empty_epoch_same _ _ H) as [_ Ht]. revert H. unfold pass_empty_epoch.
  destruct (apply_scheduled_license_transitions s (ds_tip_epoch s)) as [[s1 n]|] eqn:E; [|done].
  apply transitions_live in E. rewrite Ht. destruct (difficulty_observation_enabled _ _); [|by intros <-%Ok_inj].
  unfold append_difficulty_result. intros H. by inv_ok.
Qed.

Lemma empty_epochs_live fuel through s s' :
  empty_epochs_loop fuel through s = Ok s' -> live (ds_tip_epoch s) s -> live (ds_tip_epoch s') s'.
Proof.
  revert s. induction fuel as [|fuel IH]; intros s; cbn [empty_epochs_loop].
  { destruct (_ <? _); [done|by intros <-%Ok_inj]. }
  destruct (_ <? _); [|by intros <-%Ok_inj].
  destruct (pass_empty_epoch _) as [s1|] eqn:E; [|done]. intros H _. eapply IH; [exact H|]. by eapply pass_empty_epoch_live.
Qed.

Lemma advance_live s through s' :
  advance_empty_epochs s through = Ok s' -> live (ds_tip_epoch s) s -> live (ds_tip_epoch s') s'.
Proof.
  unfold advance_empty_epochs. destruct (_ <=? _); [by intros <-%Ok_inj|].
  destruct (empty_epochs_loop _ _ _) as [s1|] eqn:E; [|done]. intros H Hs.
  apply (empty_epochs_live _ _ _ _ E) in Hs. unfold refresh_current_state_root in H.
  destruct (current_root s1); [|done]. by apply Ok_inj in H as <-.
Qed.

Lemma enter_epoch_live s epoch next : enter_epoch s epoch = Ok next -> live epoch next.
Proof.
  unfold enter_epoch. intros H. inv_ok. by eapply transitions_live.
Qed.

(** ** Changes of the registry *)

Lemma event_ok_mono consumed ids consumed' ids' e :
  consumed ⊆ consumed' -> ids ⊆ ids' -> event_ok consumed ids e -> event_ok consumed' ids' e.
Proof. unfold event_ok. set_solver. Qed.

Lemma account_ok_mono ids ids' a : ids ⊆ ids' -> account_ok ids a -> account_ok ids' a.
Proof. unfold account_ok. set_solver. Qed.

Lemma presence_ok_mono ids ids' p : ids ⊆ ids' -> presence_ok ids p -> presence_ok ids' p.
Proof. intros H (id & ? & ?). exists id. set_solver. Qed.

Lemma weight_of_absent id events : (forall e, e ∈ events -> oe_license_id e <> id) -> weight_of id events = 0.
Proof.
  induction events as [|e events IH]; intros H; [done|]. rewrite weight_of_cons, IH by (intros; apply H; by right).
  rewrite bool_decide_eq_false_2; [done|]. apply H. by left.
Qed.

(** A license as it is issued. *)
Definition issued (l : LicenseState) : Prop :=
  address_ok l /\ ls_status l = LICENSE_STATUS_PENDING /\ ls_strike_weight l = 0 /\ ls_revocation_epoch l = 0.

Lemma consistent_append s new :
  Forall issued new -> NoDup (license_ids s ++ map ls_license_id new) -> consistent s ->
  consistent (s <| ds_licenses := ds_licenses s ++ new |>).
Proof.
  intros Hnew Hnd []. rewrite Forall_forall in cs_events. rewrite Forall_forall in cs_accounts. rewrite Forall_forall in cs_presence.
  apply NoDup_app in Hnd as Hnd'. destruct Hnd' as (_ & Hfresh & _).
  assert (license_ids s ⊆ map ls_license_id (ds_licenses s ++ new)) as Hsub by (rewrite map_app; set_solver).
  split; unfold license_ids; fields; rewrite ?map_app; try done.
  - apply Forall_app. split; [done|]. eapply Forall_impl; [exact Hnew|]. by intros l [? _].
  - apply Forall_forall. intros e He. rewrite <- map_app. by eapply event_ok_mono, cs_events.
  - apply Forall_app. split; [done|]. apply Forall_forall. intros l Hl. rewrite Forall_forall in Hnew.
    destruct (Hnew l Hl) as (_ & Hst & Hsw & Hre). unfold discipline_ok. rewrite Hst. cbn.
    split; [|done]. rewrite Hsw. symmetry. apply weight_of_absent. intros e He Heq.
    destruct (cs_events e He) as (_ & _ & _ & Hin). apply (Hfresh (oe_license_id e)); [done|].
    rewrite Heq. by apply list_elem_of_fmap_2.
  - apply Forall_forall. intros a Ha. rewrite <- map_app. by eapply account_ok_mono, cs_accounts.
  - apply Forall_forall. intros p Hp. rewrite <- map_app. by eapply presence_ok_mono, cs_presence.
Qed.

Lemma map_alter {A B} (g : A -> B) (f : A -> A) i l :
  (forall x, l !! i = Some x -> g (f x) = g x) -> map g (alter f i l) = map g l.
Proof.
  intros H. apply list_eq. intros j. rewrite !list_lookup_fmap, list_lookup_alter.
  destruct (decide (i = j)) as [<-|]; [|done]. destruct (l !! i) as [x|] eqn:E; [|done]. cbn. by rewrite H.
Qed.

(** A change of the keys of one license. *)
Lemma consistent_alter s i f :
  (forall l, ls_license_id (f l) = ls_license_id l) ->
  (forall l, ds_licenses s !! i = Some l -> address_ok l -> address_ok (f l)) ->
  (forall events l, discipline_ok events l -> discipline_ok events (f l)) ->
  consistent s -> consistent (s <| ds_licenses := alter f i (ds_licenses s) |>).
Proof.
  intros Hid Ha Hd [].
  split; unfold license_ids; fields; rewrite ?(map_alter ls_license_id) by (intros; apply Hid); try done.
  - apply Forall_alter; [done|]. intros l Hl. by apply Ha.
  - apply Forall_alter; [done|]. intros l _. apply Hd.
Qed.

Lemma copy_discipline_keys l l' :
  ls_license_id l' = ls_license_id l -> ls_status l' = ls_status l -> ls_strike_weight l' = ls_strike_weight l ->
  ls_revocation_epoch l' = ls_revocation_epoch l -> forall events, discipline_ok events l -> discipline_ok events l'.
Proof. unfold discipline_ok. by intros -> -> -> ->. Qed.

(** ** Operations *)

Lemma headers_consistent s op epoch s' :
  headers_apply_operation s op epoch = Ok s' -> consistent s -> consistent s'.
Proof.
  unfold headers_apply_operation. intros H []. destruct (_ <=? _); [done|].
  destruct (headers_check_state s) as [[]|]; [|done]. destruct (decode32 _) as [g|]; [|done].
  destruct (resolve_tuple_policy _ g) as [policy|]; cbn [ok_or] in H; [|done].
  destruct (BitcoinHeadersV1_from_operation op) as [batch|]; cbn [map_err] in H; [|done].
  destruct (negb (_ =? _)); [done|]. destruct (negb (bytes_eqb _ g)); [done|].
  destruct (build_header_index _) as [index|]; [|done].
  destruct (fold_result _ _ _) as [acc|]; [|done].
  match type of H with context [headers_check_state ?c] => destruct (headers_check_state c) as [[]|] eqn:E; [|done] end.
  apply Ok_inj in H as <-. split; unfold license_ids; fields; try done.
Qed.

Lemma presence_consistent s op s' :
  (forall p, decode_operation op = Ok p -> is32 (mi_license_id p) /\ hex_encode (mi_license_id p) ∈ license_ids s) ->
  apply_validated_operation s op = Ok s' -> consistent s -> consistent s'.
Proof.
  intros Hp H []. unfold apply_validated_operation in H. destruct (decode_operation op) as [p|]; [|done].
  destruct (Hp p eq_refl) as [H32 Hin]. set (v := {| pr_license_id := _ |}) in H.
  assert (presence_ok (license_ids s) v) as Hv.
  { exists (mi_license_id p). split; [|done]. by apply decode32_encode. }
  destruct (existsb _ _); apply Ok_inj in H as <-; split; unfold license_ids; fields; try done; fields.
  - clear - Hv cs_presence. induction cs_presence as [|x l Hx Hl IH]; cbn [replace_first]; [constructor|].
    destruct (bool_decide _); by constructor.
  - rewrite sort_by_perm. apply Forall_app. split; [done|]. by repeat constructor.
Qed.

Lemma sum_of_alter {A} (g : A -> Z) (f : A -> A) i l x :
  l !! i = Some x -> sum_of g (alter f i l) = sum_of g l - g x + g (f x).
Proof.
  intros H. rewrite <- (take_drop_middle l i x H) at 2. assert (alter f i l = <[i := f x]> l) as ->.
  { apply list_eq. intros j. rewrite list_lookup_alter. apply lookup_lt_Some in H as Hlen.
    destruct (decide (i = j)) as [<-|]; [|by rewrite list_lookup_insert_ne].
    rewrite H, list_lookup_insert_eq by done. done. }
  rewrite insert_take_drop by by eapply lookup_lt_Some. rewrite !sum_of_app, !sum_of_cons. lia.
Qed.

Lemma claim_consistent s txs op epoch s' :
  dividend_apply_operation s txs op epoch = Ok s' -> consistent s -> consistent s'.
Proof.
  unfold dividend_apply_operation. intros H []. destruct (decode_claim_operation op) as [claim|]; [|done].
  destruct (negb _); [done|]. destruct (find_license s _) as [l|]; cbn [ok_or] in H; [|done].
  destruct (position _ _) as [i|]; cbn [ok_or] in H; [|done].
  destruct (LicenseState_record l) as [record|]; [|done].
  destruct (ds_dividend_accounts s !! i) as [stored|] eqn:Hi; cbn [ok_or] in H; [|done].
  destruct (DividendAccountState_account stored) as [account|] eqn:Ea; [|done].
  unfold DividendAccountState_account in Ea. destruct (decode32 (dv_license_id stored)) as [id|]; [|done].
  apply Ok_inj in Ea as <-.
  match type of H with context [apply_dividend_claim record ?a ?t claim epoch] =>
    destruct (claim_cases record a t claim epoch) as [[Hok [[Hle E]|[_ E]]]|(e & _ & E & _)];
    rewrite E in H; [|done..] end.
  cbn [map_err] in H. apply Ok_inj in H as <-. destruct Hok as (_ & _ & _ & _ & _ & Hamt & _).
  cbn [da_claimable_strikes] in Hamt.
  split; unfold license_ids; fields; try done; fields.
  - apply Forall_alter; [done|]. intros a Ha (H1 & H2 & H3 & H4 & H5). rewrite Hi in Ha. apply Some_inj in Ha as <-.
    unfold account_ok, DividendAccountState_update_from. cbn. split_and!; try done. lia.
  - rewrite (sum_of_alter _ _ _ _ _ Hi), cs_reserve. cbn. lia.
Qed.

Lemma position_license_Some s id i l :
  position_license s id = Some i -> ds_licenses s !! i = Some l -> ls_license_id l = hex_encode id.
Proof.
  unfold position_license. intros H Hl. apply position_Some in H as (x & Hx & Hp).
  rewrite Hl in Hx. apply Some_inj in Hx as <-. by apply bool_decide_eq_true in Hp.
Qed.

Lemma Forall_alter_at {A} (P : A -> Prop) (f : A -> A) i l :
  (forall j x, l !! j = Some x -> j <> i -> P x) -> (forall x, l !! i = Some x -> P (f x)) ->
  Forall P (alter f i l).
Proof.
  intros H1 H2. apply Forall_lookup. intros j x. rewrite list_lookup_alter.
  destruct (decide (i = j)) as [<-|Hne]; [|intros Hx; eapply H1; [exact Hx|done]].
  destruct (l !! i) as [y|] eqn:E; cbn; [|done]. intros [= <-]. by apply H2.
Qed.

(** Names are distinct, so the license at another position has another one. *)
Lemma other_license s i j l l' :
  NoDup (license_ids s) -> ds_licenses s !! i = Some l -> ds_licenses s !! j = Some l' -> j <> i ->
  ls_license_id l' <> ls_license_id l.
Proof.
  intros Hnd Hi Hj Hne Heq. apply Hne. eapply NoDup_lookup; [exact Hnd| |].
  - unfold license_ids. by rewrite list_lookup_fmap, Hj.
  - unfold license_ids. rewrite list_lookup_fmap, Hi. cbn. by rewrite Heq.
Qed.

Lemma record_strikes l r :
  LicenseState_record l = Ok r -> lr_status r = ls_status l /\ lr_strike_weight r = ls_strike_weight l /\
  lr_revocation_epoch r = ls_revocation_epoch l.
Proof. unfold LicenseState_record. intros H. inv_ok. done. Qed.

Lemma punishment_discipline s i l r ty epoch w applied r' id event :
  consistent s -> epoch <> 0 -> ds_licenses s !! i = Some l -> ls_license_id l = id ->
  LicenseState_record l = Ok r -> ls_status l <> LICENSE_STATUS_REVOKED ->
  offense_weight ty = Ok w -> apply_offense r ty epoch = (r', Ok applied) ->
  oe_license_id event = id -> oe_weight event = w ->
  weight_of id (ds_offense_events s) + w < 2 ^ 8 /\
  oa_offense_expiry_epoch applied = epoch + STRIKE_DECAY_EPOCHS /\ epoch + STRIKE_DECAY_EPOCHS < 2 ^ 64 /\
  Forall (discipline_ok (ds_offense_events s ++ [event])) (alter (copy_discipline r') i (ds_licenses s)).
Proof.
  intros [] Hep Hi Hid Hr Hst Hw Hoff Hevid Hevw. destruct (record_strikes _ _ Hr) as (R1 & R2 & R3).
  rewrite Forall_forall in cs_discipline.
  pose proof (cs_discipline l ltac:(by eapply list_elem_of_lookup_2)) as Hl. unfold discipline_ok in Hl.
  destruct (Z.eqb_spec (ls_status l) LICENSE_STATUS_REVOKED) as [|_]; [done|]. destruct Hl as [Hl1 Hl2].
  assert (forall x, weight_of x (ds_offense_events s ++ [event])
            = weight_of x (ds_offense_events s) + if bool_decide (id = x) then w else 0) as Hsum.
  { intros x. rewrite weight_of_app. unfold weight_of at 2. cbn [List.filter]. rewrite Hevid.
    case_bool_decide; cbn; lia. }
  destruct (offense_cases r ty epoch) as [(w' & x & _ & Hw' & H8 & -> & Hx & Hc)|[e He]]; [|congruence].
  rewrite Hw in Hw'. apply Ok_inj in Hw' as <-. rewrite R2, Hl1, Hid in *.
  split; [done|]. assert (oa_offense_expiry_epoch applied = epoch + STRIKE_DECAY_EPOCHS) as ->.
  { destruct Hc as [[_ Hc]|(_ & u & _ & _ & Hc)]; rewrite Hoff in Hc; apply pair_inj in Hc as [_ Hc];
      by apply Ok_inj in Hc as ->. }
  split_and!; [done|done|]. apply Forall_alter_at.
  - intros j y Hj Hne. pose proof (other_license _ _ _ _ _ cs_ids Hi Hj Hne) as Hother.
    pose proof (cs_discipline y ltac:(by eapply list_elem_of_lookup_2)) as Hy. unfold discipline_ok in *.
    rewrite Hsum, bool_decide_eq_false_2, Z.add_0_r by congruence. done.
  - intros y Hy. rewrite Hi in Hy. apply Some_inj in Hy as <-. unfold discipline_ok, copy_discipline. fields.
    rewrite Hid, Hsum, bool_decide_eq_true_2 by done.
    destruct Hc as [[_ Hc]|(_ & u & _ & _ & Hc)]; rewrite Hoff in Hc; apply pair_inj in Hc as [-> _].
    + cbn. done.
    + cbn [set_strikes lr_status lr_strike_weight lr_revocation_epoch]. rewrite R1.
      destruct (Z.eqb_spec (ls_status l) LICENSE_STATUS_REVOKED); [done|]. split; [lia|congruence].
Qed.

Lemma punishment_consistent s op epoch s' :
  punishment_apply_operation s op epoch = Ok s' -> 0 < epoch -> consistent s -> live epoch s ->
  consistent s' /\ live epoch s'.
Proof.
  unfold punishment_apply_operation. intros H Hep Hs Hlive.
  destruct (decode_punishment_operation op) as [ev|]; [|done]. destruct (existsb _ _); [done|].
  destruct (validate_objective_evidence s ev) as [valid|]; [|done]. destruct (negb valid); [done|].
  destruct (position_license s _) as [i|] eqn:Hp; cbn [ok_or] in H; [|done].
  destruct (ds_licenses s !! i) as [l|] eqn:Hi; [|done].
  destruct (Z.eqb_spec (ls_status l) LICENSE_STATUS_REVOKED) as [|Hst]; [done|].
  destruct (offense_weight _) as [w|] eqn:Hw; cbn [map_err] in H; [|done].
  destruct (LicenseState_record l) as [r|] eqn:Hr; [|done].
  destruct (apply_offense r (pe_offense_type ev) epoch) as [r' [applied|]] eqn:Ho; cbn [map_err] in H; [|done].
  apply Ok_inj in H as <-. pose proof (position_license_Some _ _ _ _ Hp Hi) as Hid.
  set (event := {| oe_evidence_id := _ |}) in *.
  destruct (punishment_discipline s i l r _ epoch w applied r' _ event Hs ltac:(lia) Hi Hid Hr Hst Hw Ho eq_refl eq_refl)
    as (H8 & Hx & Hx64 & Hdisc). destruct Hs.
  assert (event_ok (ds_consumed_evidence s ++ [oe_evidence_id event]) (license_ids s) event) as Hev.
  { unfold event_ok. cbn. rewrite Hx. split_and!; [set_solver|done|by apply checked_add_Some|].
    rewrite <- Hid. apply list_elem_of_fmap_2. by eapply list_elem_of_lookup_2. }
  split.
  2: { unfold live. fields. rewrite sort_by_perm. apply Forall_app. split; [done|].
       repeat constructor. cbn. rewrite Hx. assert (0 < STRIKE_DECAY_EPOCHS) by done. lia. }
  assert (map ls_license_id (alter (copy_discipline r') i (ds_licenses s)) = map ls_license_id (ds_licenses s)) as Hids
    by by apply map_alter.
  split; unfold license_ids; fields; rewrite ?Hids; try done.
  - apply Forall_alter; [done|]. by intros x _.
  - apply Forall_forall. intros e He. rewrite Forall_forall in cs_events.
    assert (event_ok (ds_consumed_evidence s ++ [oe_evidence_id event]) (license_ids s) e) as H.
    { rewrite (sort_by_perm _ (ds_offense_events s ++ [event])) in He. apply elem_of_app in He as [He|He].
      - eapply event_ok_mono; [| |by apply cs_events]; set_solver.
      - apply list_elem_of_singleton in He as ->. done. }
    eapply event_ok_mono; [| |exact H]; [|done]. intros x. by rewrite sort_by_perm.
  - intros id. rewrite (weight_of_perm _ _ _ (sort_by_perm _ _)), weight_of_app.
    unfold weight_of at 2. cbn [List.filter]. case_bool_decide as Hd; cbn; [|specialize (cs_weights id); lia].
    subst id. cbn in H8 |- *. lia.
  - eapply Forall_impl; [exact Hdisc|]. intros x. unfold discipline_ok.
    by rewrite (weight_of_perm _ _ _ (sort_by_perm _ _)).
Qed.

(** *** Changes of authority *)

Lemma store_historical_consistent s op id hist s' :
  store_historical_keys s op id hist = Ok s' -> consistent s -> consistent s'.
Proof.
  unfold store_historical_keys. destruct (existsb _ _); [done|]. intros <-%Ok_inj. apply consistent_same. by split.
Qed.

Lemma transfer_consistent s i r t h :
  snd (apply_license_transfer r t) = Ok h -> is32 (lt_new_owner_public_key t) -> consistent s ->
  consistent (s <| ds_licenses := alter (copy_transfer (fst (apply_license_transfer r t))) i (ds_licenses s) |>).
Proof.
  intros Hok H32 Hs.
  destruct (transfer_cases r t) as [(_ & _ & _ & _ & [(_ & _ & E)|[(_ & E)|(_ & _ & E)]])|(e & _ & E & _)];
    rewrite E in *; cbn [snd] in Hok; try done.
  apply consistent_alter; try done. intros l _ _. exists (lt_new_owner_public_key t).
  unfold copy_transfer. fields. cbn. split; apply decode32_encode; [done|]. by apply sha256_domain_length.
Qed.

Lemma rotation_consistent s i r :
  consistent s ->
  consistent (s <| ds_licenses := alter (copy_rotation r) i (ds_licenses s) |>).
Proof. intros Hs. by apply consistent_alter. Qed.

(** *** New licenses *)

Lemma new_license_issued licenses method purchase id entry epoch l :
  new_license licenses method purchase id entry epoch = Ok l -> is32 (me_owner_public_key entry) ->
  issued l /\ ls_license_id l = hex_encode id.
Proof.
  unfold new_license. intros H H32. inv_ok. split; [|done]. unfold issued. split_and!; try done.
  exists (me_owner_public_key entry). cbn. split; apply decode32_encode; [done|]. by apply sha256_domain_length.
Qed.

Lemma insert_all_ids known ids known' (e : NodeError) :
  fold_result (fun (known : gset bytes32) id => insert_new e id known) known ids = Ok known' ->
  NoDup ids /\ (forall id, id ∈ ids -> id ∉ known) /\ known' = list_to_set ids ∪ known.
Proof.
  revert known. induction ids as [|id ids IH]; intros known; cbn [fold_result].
  { intros <-%Ok_inj. split_and!; [constructor|set_solver|set_solver]. }
  destruct (insert_new e id known) as [known1|] eqn:E; [|done]. apply insert_new_iff in E as [Hn ->].
  intros (H1 & H2 & ->)%IH. split_and!; [|set_solver|set_solver].
  constructor; [|done]. intros Hin%H2. set_solver.
Qed.

(** The loop over the licenses of a manifest. *)
Lemma issue_loop method purchase epoch licenses pairs licenses' :
  fold_result (fun licenses '(id, entry) =>
      let? license := new_license licenses method purchase id entry epoch in
      Ok (licenses ++ [license])) licenses pairs = Ok licenses' ->
  Forall (fun p => is32 (me_owner_public_key (snd p))) pairs ->
  exists new, licenses' = licenses ++ new /\ Forall issued new /\
    map ls_license_id new = map (fun p => hex_encode (fst p)) pairs.
Proof.
  revert licenses. induction pairs as [|[id entry] pairs IH]; intros licenses; cbn [fold_result].
  { intros <-%Ok_inj _. exists []. by rewrite app_nil_r. }
  destruct (new_license _ _ _ _ _ _) as [l|] eqn:E; [|done]. intros H [H32 Hrest]%Forall_cons.
  apply new_license_issued in E as [Hl Hid]; [|done].
  apply IH in H as (new & -> & Hnew & Hids); [|done]. exists (l :: new). rewrite <- app_assoc.
  split_and!; [done|by constructor|]. cbn [map fst]. by rewrite Hids, Hid.
Qed.

(** ** The operations of a block *)

(** What the loop over the operations maintains. *)
Record acc_ok (s0 : DevnetState) (epoch : Z) (acc : op_acc) : Prop := {
  ao_consistent : consistent (ac_state acc);
  ao_live : live epoch (ac_state acc);
  ao_known : forall x id, x ∈ license_ids (ac_state acc) -> decode32 x = Ok id -> id ∈ ac_known_licenses acc;
  ao_decodes : Forall decodes (license_ids (ac_state acc));
  ao_ids : license_ids s0 ⊆ license_ids (ac_state acc);
}.

(** Identifiers that are not known name no license. *)
Lemma fresh_ids s0 epoch acc ids :
  acc_ok s0 epoch acc -> NoDup ids -> Forall (fun id => is32 id) ids ->
  (forall id, id ∈ ids -> id ∉ ac_known_licenses acc) ->
  NoDup (license_ids (ac_state acc) ++ map hex_encode ids).
Proof.
  intros [[] _ Hk _ _] Hnd H32 Hfresh. apply NoDup_app. split_and!; [done| |].
  - intros x Hx (id & -> & Hid)%list_elem_of_fmap. apply (Hfresh id Hid). eapply Hk; [exact Hx|].
    apply decode32_encode. rewrite Forall_forall in H32. by apply H32.
  - apply NoDup_fmap; [|done]. intros a b. apply hex_encode_inj.
Qed.

(** Appending new licenses under fresh identifiers. *)
Lemma acc_append s0 epoch acc ids new acc' :
  acc_ok s0 epoch acc -> NoDup ids -> Forall (fun id => is32 id) ids ->
  (forall id, id ∈ ids -> id ∉ ac_known_licenses acc) -> Forall issued new ->
  map ls_license_id new = map hex_encode ids ->
  (consistent (ac_state acc <| ds_licenses := ds_licenses (ac_state acc) ++ new |>) -> consistent (ac_state acc')) ->
  ds_offense_events (ac_state acc') = ds_offense_events (ac_state acc) ->
  ds_licenses (ac_state acc') = ds_licenses (ac_state acc) ++ new ->
  ac_known_licenses acc' = list_to_set ids ∪ ac_known_licenses acc ->
  acc_ok s0 epoch acc'.
Proof.
  intros Hacc Hnd H32 Hfresh Hnew Hids Hc He Hl Hk. pose proof (fresh_ids _ _ _ _ Hacc Hnd H32 Hfresh) as Hnd'.
  destruct Hacc as [Hs Hlive Hkn Hd Hsub]. rewrite Forall_forall in H32.
  assert (license_ids (ac_state acc') = license_ids (ac_state acc) ++ map hex_encode ids) as Hlid
    by (unfold license_ids; by rewrite Hl, map_app, Hids).
  split.
  - apply Hc, consistent_append; [done| |done]. by rewrite Hids.
  - unfold live. by rewrite He.
  - intros x id. rewrite Hlid, Hk, elem_of_app. intros [Hx|(y & -> & Hy)%list_elem_of_fmap] Hdec.
    + apply elem_of_union_r. by eapply Hkn.
    + rewrite decode32_encode in Hdec by by apply H32. apply Ok_inj in Hdec as <-. set_solver.
  - rewrite Hlid. apply Forall_app. split; [done|]. apply Forall_fmap, Forall_forall. intros id Hid.
    exists id. apply decode32_encode. by apply H32.
  - rewrite Hlid. set_solver.
Qed.

(** Operations that leave the names of the licenses alone. *)
Lemma acc_same_ids s0 epoch acc acc' :
  acc_ok s0 epoch acc -> consistent (ac_state acc') -> live epoch (ac_state acc') ->
  license_ids (ac_state acc') = license_ids (ac_state acc) ->
  ac_known_licenses acc' = ac_known_licenses acc -> acc_ok s0 epoch acc'.
Proof. intros [] Hc Hl Hi Hk. by split; rewrite ?Hi, ?Hk. Qed.

Lemma manifest_ids_length network method payment entries :
  Forall (fun id => is32 id) (manifest_license_ids network method payment entries).
Proof.
  apply Forall_lookup. intros i x (entry & _ & ->)%manifest_license_ids_lookup. by apply sha256_domain_length.
Qed.

Lemma combine_prefix {A B} (l : list A) (k : list B) :
  map fst (combine l k) = take (length k) l.
Proof. revert k. induction l as [|x l IH]; intros [|y k]; cbn; try done. by rewrite IH. Qed.

(** *** Purchases *)

Lemma decode_purchase_wf op p :
  decode_purchase_operation op = Ok p ->
  Forall entry_wf (bm_licenses (pb_manifest p)) /\ (1 <= length (bm_licenses (pb_manifest p)))%nat.
Proof.
  unfold decode_purchase_operation. destruct (_ || _); [done|].
  destruct (LicensePurchaseBtcV1_decode_payload _) as [q|] eqn:E; cbn [map_err]; [|done].
  intros <-%Ok_inj. apply purchase_btc_decode_ok in E as [(Hm & _) Hp].
  apply purchase_btc_payload_eq in Hp as (bs & Hb & _). apply btc_manifest_encode_eq in Hb as (_ & Hl & _).
  split; [apply Hm|lia].
Qed.

Lemma price_positive n price : 0 <= n -> btc_price_sats_per_license n = Ok price -> 0 < price.
Proof.
  intros Hn. unfold btc_price_sats_per_license.
  destruct (checked_add 64 11 _) as [x|] eqn:E; cbn [ok_or]; [|done]. apply checked_add_Some in E as [-> _].
  destruct (try_from 32 _) as [y|] eqn:Ey; cbn [ok_or]; [|done]. apply try_from_Some in Ey as [-> _].
  unfold checked_shl. destruct (Z.ltb_spec (11 + n / Z.shiftl 1 18) 64); cbn [ok_or]; [|done]. intros <-%Ok_inj.
  assert (0 <= n / Z.shiftl 1 18) by (apply Z.div_pos; [done|reflexivity]).
  rewrite Z.shiftl_1_l, Z.mod_small; [apply Z.pow_pos_nonneg; lia|]. split; [lia|]. apply Z.pow_lt_mono_r; lia.
Qed.

Lemma required_positive s epoch count price total :
  required_sats s epoch count = Ok (price, total) -> 0 < count -> 0 < total.
Proof.
  unfold required_sats, historical_license_count. intros H Hc.
  destruct (try_from 64 _) as [n|] eqn:En; cbn [ok_or] in H; [|done]. apply try_from_Some in En as [-> _].
  destruct (btc_price_sats_per_license _) as [p|] eqn:Ep; [|done].
  destruct (try_from 64 count) as [c|] eqn:Ec; cbn [ok_or] in H; [|done]. apply try_from_Some in Ec as [-> _].
  destruct (checked_mul 64 p _) as [t|] eqn:Et; cbn [ok_or] in H; [|done]. apply checked_mul_Some in Et as [-> _].
  apply price_positive in Ep; [|unfold count_by; lia]. apply Ok_inj, pair_inj in H as [_ <-]. nia.
Qed.

Lemma parse_txid_length raw parsed : parse_transaction raw = Ok parsed -> is32 (pt_txid_internal parsed).
Proof.
  unfold parse_transaction. intros H. inv_ok; try by apply double_sha256_length.
Qed.

(** What validation of a Bitcoin purchase establishes. *)
Lemma context_facts s op epoch c :
  validate_purchase_context s op epoch = Ok c ->
  Forall entry_wf (bm_licenses (pb_manifest (vc_purchase c))) /\
  length (vc_ids c) = length (bm_licenses (pb_manifest (vc_purchase c))) /\
  Forall (fun id => is32 id) (vc_ids c) /\ is32 (vp_txid_internal (vc_validated c)) /\
  0 < vp_paid_sats (vc_validated c) /\
  vp_containing_block_height (vc_validated c) + 5 < 2 ^ 32 /\
  vp_sixth_confirmation_height (vc_validated c) = vp_containing_block_height (vc_validated c) + 5.
Proof.
  unfold validate_purchase_context. intros H.
  destruct (decode_purchase_operation op) as [p|] eqn:Ep; [|done]. apply decode_purchase_wf in Ep as [Hwf Hlen].
  destruct (decode32 _) as [g|]; [|done]. destruct (resolve_tuple_policy _ _) as [policy|]; cbn [ok_or] in H; [|done].
  destruct (negb _); [done|]. destruct (tp_treasury_script_pubkey policy) as [t|]; cbn [ok_or] in H; [|done].
  destruct (negb _); [done|]. destruct (negb _); [done|].
  destruct (validate_purchase_window _ _ _) as [window|]; [|done].
  destruct (payment_epoch_from_mtp _ _) as [pe|]; [|done].
  destruct (_ <? _); [done|]. destruct (_ <=? _); [done|]. destruct (_ <=? _); [done|].
  destruct (required_sats _ _ _) as [[price required]|] eqn:Er; [|done].
  apply required_positive in Er; [|lia].
  destruct (map_err _ _) as [mh|]; [|done].
  destruct (validate_payment_against_authenticated_window _ _ _ _ _) as [v|] eqn:Ev; [|done].
  destruct (existsb _ _); [done|].
  destruct (map_err FromProtocol (LicensePurchaseBtcV1_license_ids p)) as [ids|] eqn:Eids; [|done].
  destruct (negb (_ =? _)%nat) eqn:Hl; [done|]. destruct (existsb _ _); [done|].
  apply Ok_inj in H as <-. cbn. bool_to_prop.
  assert (Forall (fun id => is32 id) ids) as H32.
  { unfold LicensePurchaseBtcV1_license_ids in Eids. destruct (im _) as [q|]; cbn [map_err] in Eids; [|done].
    apply Ok_inj in Eids as <-. apply manifest_ids_length. }
  unfold validate_payment_against_authenticated_window in Ev.
  destruct (map_err FromBitcoin _) as [parsed|] eqn:Eparse; [|done].
  destruct (negb _); [done|]. destruct (ok_or _ _) as [payment|]; [|done].
  destruct (_ <? required) eqn:Hpaid; [done|]. destruct (negb _); [done|].
  destruct (ok_or _ _) as [man|]; [|done]. destruct (_ || _); [done|].
  destruct (checked_add 32 _ _) as [sixth|] eqn:Es; cbn [ok_or] in Ev; [|done]. apply checked_add_Some in Es as [-> Hs].
  apply Ok_inj in Ev as <-. cbn. bool_to_prop. change (Z.of_nat REQUIRED_CONFIRMATIONS - 1) with 5 in *.
  split_and!; try done; [|lia].
  destruct (parse_transaction _) as [q|] eqn:E; cbn [map_err] in Eparse; [|done]. apply Ok_inj in Eparse as <-.
  by apply parse_txid_length in E.
Qed.

Lemma payments_consistent s payment :
  payment_ok payment -> consistent s ->
  consistent (s <| ds_consumed_bitcoin_payments :=
     sort_by (fun a b => String.leb (bp_payment_id a) (bp_payment_id b))
       (ds_consumed_bitcoin_payments s ++ [payment]) |>).
Proof.
  intros Hp []. split; unfold license_ids; fields; try done. rewrite sort_by_perm. apply Forall_app.
  by rewrite Forall_singleton.
Qed.

Lemma combine_entries (ids : list bytes32) entries :
  length ids = length entries -> Forall entry_wf entries ->
  Forall (fun p => is32 (me_owner_public_key (snd p))) (combine ids entries) /\
  map (fun p : bytes32 * _ => hex_encode (fst p)) (combine ids entries) = map hex_encode ids.
Proof.
  intros Hl Hwf. split.
  - apply Forall_forall. intros [id e] Hin%list_elem_of_In%in_combine_r%list_elem_of_In.
    rewrite Forall_forall in Hwf. by apply Hwf.
  - rewrite <- (map_map fst hex_encode), combine_prefix, take_ge; [done|lia].
Qed.

Lemma btc_purchase_ok s0 epoch acc op acc' :
  run_btc_purchase acc op epoch = Ok acc' -> acc_ok s0 epoch acc -> acc_ok s0 epoch acc'.
Proof.
  unfold run_btc_purchase, purchase_apply_operation. intros H Hacc.
  destruct (validate_purchase_context _ op epoch) as [c|] eqn:Ec; [|done].
  apply context_facts in Ec as (Hwf & Hlen & H32 & Htx & Hpaid & Hh & Hsix).
  destruct (combine_entries _ _ Hlen Hwf) as [Hown Hids].
  destruct (fold_result _ _ (combine _ _)) as [ls|] eqn:El; [|done].
  apply issue_loop in El as (new & -> & Hnew & Hnids); [|done].
  destruct (fold_result _ (ac_known_licenses acc) _) as [known|] eqn:Ek; [|done].
  apply insert_all_ids in Ek as (Hnd & Hfresh & ->).
  destruct (checked_add _ _ _) as [created|]; cbn [ok_or] in H; [|done]. apply Ok_inj in H as <-.
  eapply acc_append; try done; [by rewrite Hnids, Hids|]. fields. intros Hc.
  match goal with |- context [?l ++ [?p]] => match type of p with BitcoinPaymentState =>
    apply (payments_consistent _ p) in Hc end end; [done|].
  unfold payment_ok. cbn. rewrite Hsix. split_and!; [|lia..].
  exists (vp_txid_internal (vc_validated c)). split; apply decode32_encode; [done|].
  by apply sha256_domain_length.
Qed.

Lemma mut_entries_wf count bs offset :
  (offset + 64 * count <= length bs)%nat ->
  Forall entry_wf (mut_entries count bs offset) /\ length (mut_entries count bs offset) = count.
Proof.
  revert offset. induction count as [|count IH]; intros offset Hl; cbn [mut_entries]; [by split|].
  destruct (IH (offset + 64)%nat) as [H1 H2]; [lia|]. split; [|cbn; by rewrite H2].
  constructor; [|done]. split; cbn; rewrite length_slice; lia.
Qed.

Lemma decode_native_wf op p :
  decode_native_purchase_operation op = Ok p -> Forall entry_wf (mm_licenses (pm_manifest p)).
Proof.
  unfold decode_native_purchase_operation. destruct (_ || _); [done|]. destruct (_ <? _)%nat; [done|].
  destruct (map_err FromCodec _) as [[n input]|]; [|done]. destruct (try_from _ _); cbn [ok_or]; [|done].
  destruct (negb _); [done|]. destruct (decode_mut_manifest input) as [m|] eqn:E; [|done]. intros <-%Ok_inj. cbn.
  revert E. unfold decode_mut_manifest. destruct (_ <? _)%nat; [done|]. destruct (_ || _) eqn:Hc; [done|].
  destruct (checked_mul _ _ _) as [body|] eqn:Eb; cbn [ok_or]; [|done]. apply checked_mul_Some in Eb as [-> _].
  destruct (checked_add _ _ _) as [total|] eqn:Et; cbn [ok_or]; [|done]. apply checked_add_Some in Et as [-> _].
  destruct (negb _) eqn:Hl; [done|]. destruct (map_err _ _); [|done]. intros <-%Ok_inj. cbn [mm_licenses].
  apply mut_entries_wf. bool_to_prop. lia.
Qed.

(** The loop of a native purchase checks the identifiers as it goes. *)
Lemma native_loop method purchase epoch (e : NodeError) known licenses created pairs known' licenses' created' :
  fold_result (fun '(known, licenses, created) '(id, entry) =>
      let? known := insert_new e id known in
      let? license := new_license licenses method purchase id entry epoch in
      Ok (known, licenses ++ [license], created + 1)) (known, licenses, created) pairs
    = Ok (known', licenses', created') ->
  fold_result (fun (known : gset bytes32) id => insert_new e id known) known (map fst pairs) = Ok known' /\
  fold_result (fun licenses '(id, entry) =>
      let? license := new_license licenses method purchase id entry epoch in
      Ok (licenses ++ [license])) licenses pairs = Ok licenses'.
Proof.
  revert known licenses created. induction pairs as [|[id entry] pairs IH]; intros known licenses created;
    cbn [fold_result map fst].
  { intros H%Ok_inj. by apply pair_inj in H as [[-> ->]%pair_inj _]. }
  destruct (insert_new e id known) as [known1|]; [|done].
  destruct (new_license _ _ _ _ _ _) as [l|]; [|done]. apply IH.
Qed.

Lemma native_purchase_ok s0 txs epoch acc op acc' :
  run_native_purchase txs acc op epoch = Ok acc' -> acc_ok s0 epoch acc -> acc_ok s0 epoch acc'.
Proof.
  unfold run_native_purchase. intros H Hacc.
  destruct (decode_native_purchase_operation op) as [p|] eqn:Ep; [|done]. apply decode_native_wf in Ep.
  destruct (negb _); [done|]. destruct (insert_new _ _ _) as [seen|]; [|done].
  destruct (native_payment_output _ _) as [output|]; [|done]. destruct (_ || _); [done|].
  destruct (map_err _ _) as [mh|]; [|done]. destruct (negb _); [done|].
  destruct (ok_or _ _) as [required|]; [|done]. destruct (_ <? _); [done|].
  unfold LicensePurchaseMutV1_license_ids in H. cbn [map_err] in H.
  set (ids := manifest_license_ids _ _ _ _) in H.
  assert (length ids = length (mm_licenses (pm_manifest p))) as Hlen by apply length_imap.
  destruct (combine_entries _ _ Hlen Ep) as [Hown Hids].
  destruct (fold_result _ _ _) as [[[known ls] created]|] eqn:El; [|done].
  apply native_loop in El as [Ek El].
  rewrite combine_prefix, take_ge in Ek by lia. apply insert_all_ids in Ek as (Hnd & Hfresh & ->).
  apply issue_loop in El as (new & -> & Hnew & Hnids); [|done]. apply Ok_inj in H as <-.
  eapply acc_append; try done; [apply manifest_ids_length|by rewrite Hnids, Hids|].
  apply consistent_same. by split.
Qed.

(** *** Transfers and rotations *)

Lemma transfer_decoded op t :
  decode_license_transfer_operation op = Ok t -> is32 (lt_new_owner_public_key t).
Proof.
  unfold decode_license_transfer_operation. destruct (_ || _); [done|]. destruct (negb _) eqn:E; [done|].
  intros <-%Ok_inj. bool_to_prop. cbn [lt_new_owner_public_key]. rewrite length_slice; lia.
Qed.

Lemma claim_authority_same txs acc id e1 e2 acc' i l :
  claim_authority txs acc id e1 e2 = Ok (acc', i, l) ->
  ac_state acc' = ac_state acc /\ ac_known_licenses acc' = ac_known_licenses acc.
Proof. unfold claim_authority. intros H. by inv_ok. Qed.

Lemma store_historical_same s op id hist s' :
  store_historical_keys s op id hist = Ok s' ->
  ds_licenses s' = ds_licenses s /\ ds_offense_events s' = ds_offense_events s.
Proof. unfold store_historical_keys. intros H. by inv_ok. Qed.

(** Both end by storing the changed license and the old keys. *)
Lemma authority_ok s0 epoch acc acc1 op id f i hist s' :
  acc_ok s0 epoch acc -> ac_state acc1 = ac_state acc -> ac_known_licenses acc1 = ac_known_licenses acc ->
  (forall l, ls_license_id (f l) = ls_license_id l) ->
  consistent (ac_state acc <| ds_licenses := alter f i (ds_licenses (ac_state acc)) |>) ->
  store_historical_keys (ac_state acc1 <| ds_licenses := alter f i (ds_licenses (ac_state acc1)) |>) op id hist
    = Ok s' ->
  acc_ok s0 epoch (acc1 <| ac_state := s' |>).
Proof.
  intros Hacc Hs Hk Hf Hc H. rewrite Hs in H. pose proof (store_historical_same _ _ _ _ _ H) as [Hl He].
  apply store_historical_consistent in H; [|done]. apply (acc_same_ids s0 epoch acc); try done.
  - change (live epoch s'). unfold live. rewrite He. fields. apply Hacc.
  - change (license_ids s' = license_ids (ac_state acc)). unfold license_ids. rewrite Hl. fields. apply map_alter. intros. apply Hf.
Qed.

Lemma transfer_ok s0 txs epoch acc op acc' :
  run_transfer txs acc op = Ok acc' -> acc_ok s0 epoch acc -> acc_ok s0 epoch acc'.
Proof.
  unfold run_transfer. intros H Hacc. destruct (decode_license_transfer_operation op) as [t|] eqn:Et; [|done].
  apply transfer_decoded in Et. destruct (claim_authority _ _ _ _ _) as [[[acc1 i] l]|] eqn:E; [|done].
  apply claim_authority_same in E as [Es Ek]. destruct (LicenseState_record l) as [r|]; [|done].
  destruct (apply_license_transfer r t) as [r' [h|]] eqn:Ea; cbn [map_err] in H; [|done].
  destruct (store_historical_keys _ _ _ _) as [s'|] eqn:Eh; [|done]. apply Ok_inj in H as <-.
  eapply authority_ok; [exact Hacc|done|done| | |exact Eh]; [done|].
  change r' with (fst (r', Ok (E := ProtocolError) h)). rewrite <- Ea. eapply transfer_consistent; [by rewrite Ea|done|apply Hacc].
Qed.

Lemma rotation_ok s0 txs epoch acc op acc' :
  run_rotation txs acc op = Ok acc' -> acc_ok s0 epoch acc -> acc_ok s0 epoch acc'.
Proof.
  unfold run_rotation. intros H Hacc. destruct (decode_mining_key_rotation_operation op) as [t|]; [|done].
  destruct (claim_authority _ _ _ _ _) as [[[acc1 i] l]|] eqn:E; [|done].
  apply claim_authority_same in E as [Es Ek]. destruct (LicenseState_record l) as [r|]; [|done].
  destruct (apply_mining_key_rotation r t) as [r' [h|]]; cbn [map_err] in H; [|done].
  destruct (store_historical_keys _ _ _ _) as [s'|] eqn:Eh; [|done]. apply Ok_inj in H as <-.
  eapply authority_ok; [exact Hacc|done|done| | |exact Eh]; [done|]. apply rotation_consistent, Hacc.
Qed.

(** *** One operation, all operations *)

(** What the block's own check says of its presence operations. *)
Definition presence_known (s0 : DevnetState) (op : ProtocolOperationV1) : Prop :=
  po_op_type op = OP_MINING_PRESENCE ->
  exists p, decode_operation op = Ok p /\ is32 (mi_license_id p) /\ hex_encode (mi_license_id p) ∈ license_ids s0.

Lemma decode_presence_length op p : decode_operation op = Ok p -> is32 (mi_license_id p).
Proof.
  unfold decode_operation, MiningPresenceV1_decode_operation, MINING_PRESENCE_FULL_LEN.
  destruct (_ || _) eqn:E; cbn [map_err]; [done|]. intros <-%Ok_inj. bool_to_prop.
  cbn [mi_license_id]. rewrite length_slice; lia.
Qed.

Lemma find_license_in s id l : find_license s id = Some l -> hex_encode id ∈ license_ids s.
Proof.
  unfold find_license. intros [Hin Hl]%List.find_some. apply bool_decide_eq_true in Hl as <-.
  apply list_elem_of_fmap_2. by apply list_elem_of_In.
Qed.

Lemma prevalidated s ops epoch :
  prevalidate_block_operations s ops epoch = Ok tt -> Forall (presence_known s) ops.
Proof.
  unfold prevalidate_block_operations. destruct (fold_result _ _ _) as [targets|]; [|done].
  destruct (fold_result _ _ _) as [seen|] eqn:E; [|done]. intros _.
  eapply (fold_result_Forall _ _ _ _ _ _ E). Unshelve. intros t op t' H Hty. revert H. cbn beta.
  rewrite Hty. cbn [negb Z.eqb]. unfold validate_operation_against_parent.
  destruct (decode_operation op) as [p|] eqn:Ep; [|done].
  destruct (find_license s (mi_license_id p)) as [l|] eqn:El; cbn [ok_or]; [|done]. intros _.
  exists p. split_and!; [done|by eapply decode_presence_length|by eapply find_license_in].
Qed.

Lemma run_operation_ok s0 txs epoch acc op acc' :
  0 < epoch -> presence_known s0 op -> run_operation txs epoch acc op = Ok acc' ->
  acc_ok s0 epoch acc -> acc_ok s0 epoch acc'.
Proof.
  intros He Hp H Hacc. pose proof Hacc as [Hc Hl _ _ Hsub]. unfold run_operation in H.
  destruct (negb _); [done|]. destruct (_ =? OP_BITCOIN_HEADERS).
  { destruct (headers_apply_operation _ _ _) as [s'|] eqn:E; [|done]. apply Ok_inj in H as <-.
    pose proof (headers_consistent _ _ _ _ E Hc) as Hc'. unfold headers_apply_operation in E.
    apply (acc_same_ids s0 epoch acc); try done; cbn; clear -E Hl; by inv_ok. }
  destruct (_ =? OP_LICENSE_PURCHASE_BTC); [by eapply btc_purchase_ok|].
  destruct (_ =? OP_LICENSE_PURCHASE_MUT); [by eapply native_purchase_ok|].
  destruct (_ =? OP_LICENSE_TRANSFER); [by eapply transfer_ok|].
  destruct (_ =? OP_LICENSE_MINING_KEY_ROTATE); [by eapply rotation_ok|].
  destruct (_ =? OP_PUNISHMENT_EVIDENCE).
  { destruct (punishment_apply_operation _ _ _) as [s'|] eqn:E; [|done]. apply Ok_inj in H as <-.
    pose proof (punishment_consistent _ _ _ _ E He Hc Hl) as [Hc' Hl'].
    apply (acc_same_ids s0 epoch acc); try done. cbn. unfold punishment_apply_operation in E.
    clear -E. inv_ok. unfold license_ids. fields. by apply map_alter. }
  destruct (_ =? OP_DIVIDEND_CLAIM).
  { destruct (dividend_apply_operation _ _ _ _) as [s'|] eqn:E; [|done]. apply Ok_inj in H as <-.
    pose proof (claim_consistent _ _ _ _ _ E Hc) as Hc'. unfold dividend_apply_operation in E.
    apply (acc_same_ids s0 epoch acc); try done; cbn; clear -E Hl; by inv_ok. }
  destruct (Z.eqb_spec (po_op_type op) OP_MINING_PRESENCE) as [Hty|]; [|done].
  destruct (apply_validated_operation _ _) as [s'|] eqn:E; [|done]. apply Ok_inj in H as <-.
  destruct (Hp Hty) as (p & Hdec & H32 & Hin).
  assert (consistent s') as Hc'.
  { eapply presence_consistent; [|exact E|done]. intros q Hq. rewrite Hdec in Hq. apply Ok_inj in Hq as <-.
    split; [done|]. by apply Hsub. }
  unfold apply_validated_operation in E. rewrite Hdec in E.
  apply (acc_same_ids s0 epoch acc); try done; cbn; destruct (existsb _ _); by apply Ok_inj in E as <-.
Qed.

Lemma operations_ok s0 txs epoch ops acc acc' :
  0 < epoch -> Forall (presence_known s0) ops -> fold_result (run_operation txs epoch) acc ops = Ok acc' ->
  acc_ok s0 epoch acc -> acc_ok s0 epoch acc'.
Proof.
  intros He Hops. revert acc. induction Hops as [|op ops Hop _ IH]; intros acc; cbn [fold_result].
  { by intros <-%Ok_inj. }
  destruct (run_operation txs epoch acc op) as [acc1|] eqn:E; [|done]. intros H Hacc.
  eapply IH; [exact H|]. by eapply run_operation_ok.
Qed.

Lemma apply_operations_consistent s txs ops epoch s' n :
  apply_protocol_operations s txs ops epoch = Ok (s', n) -> 0 < epoch -> consistent s -> live epoch s ->
  consistent s' /\ live epoch s'.
Proof.
  unfold apply_protocol_operations. intros H He Hs Hl.
  destruct (prevalidate_block_operations s ops epoch) as [[]|] eqn:Ep; [|done]. apply prevalidated in Ep.
  destruct (map_result decode32 _) as [seen|]; [|done].
  destruct (map_result _ (ds_licenses s)) as [known|] eqn:Ek; [|done]. apply map_result_Forall2 in Ek.
  destruct (fold_result _ _ ops) as [acc|] eqn:Ef; [|done]. apply (operations_ok s) in Ef; [|done|done|].
  - destruct (map_result _ (drop 1 txs)); [|done]. apply Ok_inj, pair_inj in H as [<- _].
    destruct Ef as [Hc Hlive _ _ _]. split; [|done]. revert Hc. apply consistent_same. by split.
  - split; cbn; try done.
    + intros x id (l & -> & Hin)%list_elem_of_fmap Hdec. apply elem_of_list_to_set.
      apply list_elem_of_lookup in Hin as [i Hi]. destruct (Forall2_lookup_l _ _ _ _ _ Ek Hi) as (y & Hy & Hd).
      rewrite Hdec in Hd. apply Ok_inj in Hd as <-. by eapply list_elem_of_lookup_2.
    + apply Forall_fmap. eapply Forall2_Forall_l; [exact Ek|]. apply Forall_true. intros y x H'. by exists y.
Qed.

(** ** Blocks *)

Lemma commit_registry e post : same_registry post (commit_block e post).
Proof.
  unfold commit_block, retain_unconfirmed. destruct (ef_history e) as [[c b] d], post. by split.
Qed.

Lemma commit_consistent e post : consistent post -> consistent (commit_block e post).
Proof. apply consistent_same, commit_registry. Qed.

Lemma commit_live e post epoch :
  bh_epoch (ef_fields e) = epoch -> live epoch post ->
  live (ds_tip_epoch (commit_block e post)) (commit_block e post).
Proof.
  intros He Hl. destruct (commit_fields e post) as (_ & -> & _). unfold live.
  by rewrite (sr_events _ _ (commit_registry e post)), He.
Qed.

(** Amounts of transactions are unsigned. *)
Definition tx_typed (tx : TransactionV1) : Prop :=
  Forall (fun o => 0 <= to_amount_strikes o) (tc_outputs (tx_core tx)).

Lemma pending_outputs state tx p : pending_from_transaction state tx = Ok p -> tx_typed tx -> pending_typed p.
Proof.
  unfold pending_from_transaction, pending_typed, tx_typed. intros H Ht. inv_ok.
  cbn [pd_outputs]. apply Forall_fmap. eapply Forall_impl; [exact Ht|]. done.
Qed.

Lemma ledger_run_nonneg network_id rate epoch height ops w txs w' :
  ledger_run network_id rate epoch height ops w txs w' -> Forall (fun t => tx_typed (fst t)) txs ->
  nonneg_amounts w -> nonneg_amounts w'.
Proof.
  induction 1 as [w|w tx fee w1 txs w' Hstep _ IH]; intros Ht Hw; [done|].
  apply Forall_cons in Ht as [Htx Ht]. apply IH; [done|]. clear IH Ht. unfold nonneg_amounts in *.
  destruct Hstep as [w us rest tx fee base Hp _ _ _ _ _ _|w us rest tx op claim _ _ _ Hp _ _ _ _];
    rewrite Hp in Hw; apply Forall_app in Hw as [_ Hr]; apply Forall_app;
    (split; [done|by apply created_nonneg]).
Qed.

Lemma run_transactions_nonneg next ordinary epoch height ops working validated :
  run_transactions next ordinary epoch height ops = Ok (working, validated) ->
  Forall tx_typed ordinary -> nonneg_amounts (ds_utxos next) -> nonneg_amounts working.
Proof.
  unfold run_transactions. destruct (map_result _ _) as [pending|] eqn:Ep; [|done]. intros H Ht Hn.
  assert (Forall pending_typed pending) as Hp.
  { clear H Hn. apply map_result_Forall2 in Ep. induction Ep as [|tx p txs ps E _ IH]; [constructor|].
    apply Forall_cons in Ht as [Htx Ht]. constructor; [by eapply pending_outputs|by apply IH]. }
  eapply mempool_loop_refines in H as (Hrun & new & -> & Hmap & HF); [|apply run_nil].
  eapply ledger_run_nonneg; [exact Hrun| |done]. cbn [app]. apply Forall_fmap.
  change (map vt_pending new = pending) in Hmap. rewrite <- Hmap in Hp. rewrite Forall_fmap in Hp. apply Forall_forall. intros v Hv.
  rewrite Forall_forall in HF. rewrite Forall_forall in Hp. destruct (HF v Hv) as (_ & Hto & _).
  eapply to_transaction_amounts; [by apply Hp|exact Hto].
Qed.

Lemma body_nonneg next license h txs ops weight e post :
  body_accepted next license h txs ops weight e post -> Forall tx_typed txs ->
  nonneg_amounts (ds_utxos next) -> nonneg_amounts (ef_utxos e).
Proof.
  intros [_ _ _ (working & validated & Hrun & _ & _ & amount & coinbase & _ & Hhead & _ & Hadd) _ _ _ _ _] Ht Hn.
  destruct txs as [|tx txs]; [done|]. apply Some_inj in Hhead as ->. apply Forall_cons in Ht as [Hc Ht].
  apply run_transactions_nonneg in Hrun; [|done..]. apply push_outputs_ok in Hadd as ->.
  apply Forall_app. split; [done|]. by apply (created_nonneg coinbase (bh_epoch h) (ef_height e) true).
Qed.

Lemma accepted_consistent next license h txs ops weight e post :
  body_accepted next license h txs ops weight e post -> 0 < bh_epoch h ->
  consistent next -> live (bh_epoch h) next ->
  consistent (commit_block e post) /\ live (ds_tip_epoch (commit_block e post)) (commit_block e post).
Proof.
  intros [Hf _ _ _ _ _ _ Hpost _] He Hc Hl. unfold post_operations in Hpost.
  destruct (apply_protocol_operations _ _ _ _) as [[p n]|] eqn:E; [|done]. apply Ok_inj in Hpost as <-.
  apply apply_operations_consistent in E as [Hc' Hl']; [|done| |done].
  - split; [by apply commit_consistent|apply (commit_live _ _ (bh_epoch h)); [by rewrite Hf|done]].
  - revert Hc. apply consistent_same. by split.
Qed.

(** ** Saved states *)

(** What the checks of a saved state and the invariants of the chain say, with
    the types of the fields. *)
Record saved_ok (s : DevnetState) : Prop := {
  so_chain : chain_ok s;
  so_consistent : consistent s;
  so_live : live (ds_tip_epoch s) s;
  so_nonneg : nonneg_amounts (ds_utxos s);
}.

Lemma saved_unsigned s : saved_ok s -> unsigned s.
Proof.
  intros [[] [] _ Hn]. split; [done| |].
  - eapply Forall_impl; [exact cs_accounts|]. by intros a (_ & _ & _ & _ & ?).
  - unfold fee_rate_ok in *. change BASE_FEE_MIN_Q32 with (2 ^ 32) in *. lia.
Qed.

Lemma try_sum_total {E A} w (e : E) (f : A -> Z) l :
  Forall (fun x => 0 <= f x) l -> sum_of f l < 2 ^ w -> try_sum w e f l = Ok (sum_of f l).
Proof.
  intros Hf Hs. unfold try_sum. rewrite checked_sum_loop; [f_equal; lia| |lia].
  intros x Hx. rewrite Forall_forall in Hf. by apply Hf.
Qed.

Lemma saved_chain_checks s : saved_ok s -> chain_checks s.
Proof.
  intros [[] _ _ Hn]. split_and!; try done.
  pose proof (issuance_max (ds_tip_epoch s + 1) ltac:(lia)) as Hm.
  assert (utxo_total (ds_utxos s) < 2 ^ 128) as Ht.
  { rewrite co_supply. assert (MAX_SUPPLY < 2 ^ 128) by done. lia. }
  unfold utxo_total in *. rewrite <- co_supply. by apply try_sum_total.
Qed.

Lemma saved_loads s : saved_ok s -> check_state s = Ok tt.
Proof.
  intros H. pose proof (saved_unsigned _ H). pose proof (saved_chain_checks _ H). destruct H.
  by apply check_state_complete.
Qed.

(** One transition of a node's chain once it has a block; the amounts of the
    received transactions are unsigned. *)
Inductive typed_step (fuel : nat) : DevnetState -> DevnetState -> Prop :=
| typed_block s header txs operations s' hash :
    Forall tx_typed txs -> validate_and_apply_block fuel s header txs operations = Ok (s', hash) ->
    typed_step fuel s s'
| typed_empty s through s' : advance_empty_epochs s through = Ok s' -> typed_step fuel s s'.

Lemma typed_chain_step fuel s s' : typed_step fuel s s' -> chain_step fuel s s'.
Proof. intros [? ? ? ? ? ? _ H|? ? ? H]; [by eapply step_block|by eapply step_empty]. Qed.

Lemma block_saved fuel s header txs operations s' hash :
  validate_and_apply_block fuel s header txs operations = Ok (s', hash) -> Forall tx_typed txs ->
  0 < ds_height s -> saved_ok s -> saved_ok s' /\ 0 < ds_height s'.
Proof.
  intros H Ht Hh Hs. apply validate_accepted in H as [Hacc _].
  destruct (accepted_chain_ok _ _ _ _ _ _ Hacc (so_chain _ Hs)) as (Hchain & Hh' & _). split; [|lia].
  destruct Hacc as [fixture hd' txs' ops' Hb|next license weight e post h Hpos Hnext _ _ _ _ Hba _ _ _ _ ->].
  { apply build_bootstrap_frame in Hb as [H0 _]. lia. }
  apply check_position_ok in Hpos as (_ & _ & Hep & _). pose proof (co_epoch _ (so_chain _ Hs)).
  destruct (accepted_consistent _ _ _ _ _ _ _ _ Hba ltac:(lia)) as [Hc Hl].
  - by eapply (enter_epoch_preserve consistent), Hs; [apply consistent_epoch_invariant|].
  - by apply enter_epoch_live in Hnext.
  - split; try done. destruct (commit_fields e post) as (_ & _ & _ & _ & _ & _ & -> & _).
    eapply body_nonneg; [exact Hba|done|]. destruct (enter_epoch_same _ _ _ Hnext) as []. rewrite sc_utxos. apply Hs.
Qed.

Lemma typed_step_saved fuel s s' :
  typed_step fuel s s' -> 0 < ds_height s -> saved_ok s -> saved_ok s' /\ 0 < ds_height s'.
Proof.
  intros [s0 header txs ops s1 hash Ht H|s0 through s1 H] Hh Hs; [by eapply block_saved|].
  pose proof (advance_empty_epochs_same _ _ _ H) as [[] _]. split; [|by rewrite sc_height]. split.
  - eapply advance_chain_ok; [exact H|apply Hs].
  - eapply advance_preserve; [apply consistent_epoch_invariant|exact H|apply Hs].
  - eapply advance_live; [exact H|apply Hs].
  - rewrite sc_utxos. apply Hs.
Qed.

(** C6: what a node saves, it can load.  A state that passes [check_state] and
    satisfies the invariants of the chain leads, through any sequence of
    accepted blocks and empty epochs, only to states that pass [check_state]:
    license names stay distinct and their addresses match their owners, strike
    weights stay the sums of the active offenses, reserved dividends stay the
    sum of the accounts, every reference to a license resolves, consumed
    payments stay unique and the stored Bitcoin headers stay a valid index. *)
Theorem saved_states_load fuel s s' :
  rtc (typed_step fuel) s s' -> 0 < ds_height s ->
  chain_ok s -> unsigned s -> check_state s = Ok tt -> check_state s' = Ok tt /\ unsigned s'.
Proof.
  intros Hrun Hh Hc Hu Hs. apply check_state_sound in Hs as (Hcons & Hlive & _); [|done].
  assert (saved_ok s') as H; [|split; [by apply saved_loads|by apply saved_unsigned]].
  assert (saved_ok s) as Hsaved by (split; [done..|apply Hu]). clear Hcons Hlive Hc Hu.
  induction Hrun as [s|s s1 s' Hstep _ IH]; [done|].
  apply typed_step_saved in Hstep as [H1 H2]; [|done..]. by apply IH.
Qed.
End invariant.
