(* ===== verification/Offline.v ===== *)
(** Crate [mutiny-node], air-gapped payments of main.rs: the online wallet
    writes a spend request, an offline machine that holds the owner's key signs
    it, and the online node submits the signatures.  The two files, their
    canonical formats, the checks of each of the three commands.

    A cursor [at] into the bytes is what is left from it to the checksum. *)

From Stdlib Require Import Strings.Byte Strings.String.
From stdpp Require Import strings.
From S2P Require Import Prelude Crypto Codec Consensus Smt State Transaction Protocol ProtocolRules Collections NodeState Economy NodePresence NodeUtxo NodeDividends NodeBootstrap NodeMempool NodeOperations NodeBlocks NodeMining NodeChain NodeReorg NodeAgreement NodeInvariant Wallet.

Definition OFFLINE_SPEND_REQUEST_MAGIC : bytes := ascii_bytes "MUTOSRQ1".
Definition OFFLINE_SPEND_SIGNATURE_MAGIC : bytes := ascii_bytes "MUTOSIG1".
Definition OFFLINE_SPEND_VERSION : Z := 1.
Definition OFFLINE_SPEND_MAX_SUBMIT_BLOCKS : Z := 144.

Record OfflineSpendPrevoutV1 := {
  op_previous_txid : bytes32;
  op_previous_output_index : Z;
  op_amount_strikes : Z;
  op_output_type : Z;
  op_payload : bytes;
}.

Definition OfflineSpendPrevoutV1_prevout (p : OfflineSpendPrevoutV1) : PrevoutCommitmentV1 :=
  {| pc_previous_txid := op_previous_txid p; pc_previous_output_index := op_previous_output_index p;
     pc_amount_strikes := op_amount_strikes p; pc_output_type := op_output_type p; pc_payload := op_payload p |}.

Record OfflineSpendRequestV1 := {
  or_network_id : Z;
  or_genesis_id : bytes32;
  or_from_license_id : bytes32;
  or_to_license_id : bytes32;
  or_owner_public_key : bytes32;
  or_created_height : Z;
  or_max_submit_height : Z;
  or_valid_from_epoch : Z;
  or_expiry_epoch : Z;
  or_amount_strikes : Z;
  or_fee_strikes : Z;
  or_prevouts : list OfflineSpendPrevoutV1;
  or_outputs : list TxOutput;
}.

Record OfflineSpendSignatureV1 := {
  os_network_id : Z;
  os_request_hash : bytes32;
  os_owner_public_key : bytes32;
  os_signatures : list bytes;
}.

Definition OfflineSpendRequestV1_core (r : OfflineSpendRequestV1) : TransactionCoreV1 :=
  {| tc_version := 1; tc_network_id := or_network_id r; tc_valid_from_epoch := or_valid_from_epoch r;
     tc_expiry_epoch := or_expiry_epoch r;
     tc_inputs := map (fun p => Outpoint (op_previous_txid p) (op_previous_output_index p)) (or_prevouts r);
     tc_outputs := or_outputs r |}.

(** The nested function [take] of both decoders. *)
Definition take_field (malformed : string) (n : nat) (input : bytes) : node_result (bytes * bytes) :=
  if (length input <? n)%nat then Err (Msg malformed) else Ok (take n input, drop n input).

Definition take_uint (malformed : string) (n : nat) (input : bytes) : node_result (Z * bytes) :=
  let? (b, input) := take_field malformed n input in Ok (be_val b, input).

Definition bad_request : string := "malformed MutinyOfflineSpendRequestV1".
Definition bad_signature : string := "malformed MutinyOfflineSpendSignatureV1".

Section offline.
Context {SHA : Sha2} {ED : Ed25519}.

(** ** The formats *)

Definition encode_offline_prevout (p : OfflineSpendPrevoutV1) : bytes :=
  op_previous_txid p ++ be_bytes 2 (op_previous_output_index p) ++ be_bytes 8 (op_amount_strikes p)
  ++ [byte_of_Z (op_output_type p)] ++ be_bytes 2 (Z.of_nat (length (op_payload p))) ++ op_payload p.

Definition encode_offline_output (o : TxOutput) : bytes :=
  be_bytes 8 (to_amount_strikes o) ++ [byte_of_Z (to_output_type o)]
  ++ be_bytes 2 (Z.of_nat (length (to_payload o))) ++ to_payload o.

Definition short_payload (b : bytes) : bool := (Z.of_nat (length b) <=? 65535).

(** The fields of fixed width. *)
Definition encode_offline_head (r : OfflineSpendRequestV1) : bytes :=
  OFFLINE_SPEND_REQUEST_MAGIC ++ be_bytes 2 OFFLINE_SPEND_VERSION ++ be_bytes 4 (or_network_id r)
  ++ or_genesis_id r ++ or_from_license_id r ++ or_to_license_id r ++ or_owner_public_key r
  ++ be_bytes 8 (or_created_height r) ++ be_bytes 8 (or_max_submit_height r) ++ be_bytes 8 (or_valid_from_epoch r)
  ++ be_bytes 8 (or_expiry_epoch r) ++ be_bytes 8 (or_amount_strikes r) ++ be_bytes 8 (or_fee_strikes r).

Definition OfflineSpendRequestV1_encode (r : OfflineSpendRequestV1) : node_result bytes :=
  if is_empty (or_prevouts r) || (1024 <? length (or_prevouts r))%nat
     || is_empty (or_outputs r) || (1024 <? length (or_outputs r))%nat
  then err "offline spend request input/output count outside 1..=1024"
  else if negb (forallb (fun p => short_payload (op_payload p)) (or_prevouts r))
  then err "offline spend prevout payload too large"
  else if negb (forallb (fun o => short_payload (to_payload o)) (or_outputs r))
  then err "offline spend output payload too large"
  else
    let out := encode_offline_head r ++ be_bytes 2 (Z.of_nat (length (or_prevouts r)))
      ++ encode_many encode_offline_prevout (or_prevouts r)
      ++ be_bytes 2 (Z.of_nat (length (or_outputs r))) ++ encode_many encode_offline_output (or_outputs r) in
    Ok (out ++ sha256 out).

Definition decode_offline_prevout (input : bytes) : node_result (OfflineSpendPrevoutV1 * bytes) :=
  let? (previous_txid, input) := take_field bad_request 32 input in
  let? (previous_output_index, input) := take_uint bad_request 2 input in
  let? (amount, input) := take_uint bad_request 8 input in
  let? (output_type, input) := take_uint bad_request 1 input in
  let? (payload_len, input) := take_uint bad_request 2 input in
  let? (payload, input) := take_field bad_request (Z.to_nat payload_len) input in
  Ok ({| op_previous_txid := previous_txid; op_previous_output_index := previous_output_index;
         op_amount_strikes := amount; op_output_type := output_type; op_payload := payload |}, input).

Definition decode_offline_output (input : bytes) : node_result (TxOutput * bytes) :=
  let? (amount, input) := take_uint bad_request 8 input in
  let? (output_type, input) := take_uint bad_request 1 input in
  let? (payload_len, input) := take_uint bad_request 2 input in
  let? (payload, input) := take_field bad_request (Z.to_nat payload_len) input in
  Ok ({| to_amount_strikes := amount; to_output_type := output_type; to_payload := payload |}, input).

(** The request of given contents, its lists still empty. *)
Definition decode_offline_head (input : bytes) : node_result (OfflineSpendRequestV1 * bytes) :=
  let? (magic, input) := take_field bad_request 8 input in
  if negb (bytes_eqb magic OFFLINE_SPEND_REQUEST_MAGIC) then err "invalid offline spend request magic" else
  let? (version, input) := take_uint bad_request 2 input in
  if negb (version =? OFFLINE_SPEND_VERSION) then err "unsupported offline spend request version" else
  let? (network_id, input) := take_uint bad_request 4 input in
  let? (genesis_id, input) := take_field bad_request 32 input in
  let? (from_license_id, input) := take_field bad_request 32 input in
  let? (to_license_id, input) := take_field bad_request 32 input in
  let? (owner_public_key, input) := take_field bad_request 32 input in
  let? (created_height, input) := take_uint bad_request 8 input in
  let? (max_submit_height, input) := take_uint bad_request 8 input in
  let? (valid_from_epoch, input) := take_uint bad_request 8 input in
  let? (expiry_epoch, input) := take_uint bad_request 8 input in
  let? (amount_strikes, input) := take_uint bad_request 8 input in
  let? (fee_strikes, input) := take_uint bad_request 8 input in
  Ok ({| or_network_id := network_id; or_genesis_id := genesis_id; or_from_license_id := from_license_id;
         or_to_license_id := to_license_id; or_owner_public_key := owner_public_key;
         or_created_height := created_height; or_max_submit_height := max_submit_height;
         or_valid_from_epoch := valid_from_epoch; or_expiry_epoch := expiry_epoch;
         or_amount_strikes := amount_strikes; or_fee_strikes := fee_strikes;
         or_prevouts := []; or_outputs := [] |}, input).

Definition with_lists (r : OfflineSpendRequestV1) (prevouts : list OfflineSpendPrevoutV1) (outputs : list TxOutput)
    : OfflineSpendRequestV1 :=
  {| or_network_id := or_network_id r; or_genesis_id := or_genesis_id r; or_from_license_id := or_from_license_id r;
     or_to_license_id := or_to_license_id r; or_owner_public_key := or_owner_public_key r;
     or_created_height := or_created_height r; or_max_submit_height := or_max_submit_height r;
     or_valid_from_epoch := or_valid_from_epoch r; or_expiry_epoch := or_expiry_epoch r;
     or_amount_strikes := or_amount_strikes r; or_fee_strikes := or_fee_strikes r;
     or_prevouts := prevouts; or_outputs := outputs |}.

(** ** What a request must say *)

Definition prevout_owned (owner_address : bytes32) (input_sum : Z) (p : OfflineSpendPrevoutV1) : node_result Z :=
  if negb (op_output_type p =? OUTPUT_PUBKEY_HASH) || negb (bytes_eqb (op_payload p) owner_address)
  then err "offline spend prevout is not controlled by the declared owner public key"
  else ok_or (Msg "offline spend input sum overflow"%string) (checked_add 64 input_sum (op_amount_strikes p)).

Definition validate_offline_request_static (r : OfflineSpendRequestV1) : node_result unit :=
  if negb (or_network_id r =? DEVNET_NETWORK_ID) then err "offline spend request NetworkID mismatch" else
  let? genesis := decode32 DEVNET_GENESIS_ID_HEX in
  if negb (bytes_eqb (or_genesis_id r) genesis) then err "offline spend request GenesisID mismatch" else
  if or_amount_strikes r =? 0 then err "offline spend amount must be greater than zero" else
  if (or_max_submit_height r <? or_created_height r)
     || (OFFLINE_SPEND_MAX_SUBMIT_BLOCKS <? or_max_submit_height r - or_created_height r)
  then err "offline spend submission horizon is invalid" else
  match or_outputs r with
  | destination :: rest =>
      if is_empty (or_prevouts r) || (1024 <? length (or_prevouts r))%nat || (1 <? length rest)%nat
      then err "offline spend request has invalid input/output shape" else
      let owner_address := address_id (or_owner_public_key r) in
      let? input_sum := fold_result (prevout_owned owner_address) 0 (or_prevouts r) in
      if negb (to_amount_strikes destination =? or_amount_strikes r)
         || negb (to_output_type destination =? OUTPUT_PUBKEY_HASH) || negb (length (to_payload destination) =? 32)%nat
      then err "offline spend destination output does not match declared amount/type" else
      let? _ :=
        match rest with
        | [change] =>
            if (to_amount_strikes change =? 0) || negb (to_output_type change =? OUTPUT_PUBKEY_HASH)
               || negb (bytes_eqb (to_payload change) owner_address)
            then err "offline spend change output is invalid" else Ok tt
        | _ => Ok tt
        end in
      let? output_sum := try_sum 64 (Msg "offline spend output sum overflow"%string) to_amount_strikes (or_outputs r) in
      let? actual_fee := ok_or (Msg "offline spend creates value"%string) (checked_sub input_sum output_sum) in
      if negb (actual_fee =? or_fee_strikes r)
      then err "offline spend declared fee does not match input/output value" else
      if negb (length (tc_inputs (OfflineSpendRequestV1_core r)) =? length (or_prevouts r))%nat
      then err "offline spend input/prevout count mismatch" else Ok tt
  | [] => err "offline spend request has invalid input/output shape"
  end.

Definition OfflineSpendRequestV1_decode (bs : bytes) : node_result OfflineSpendRequestV1 :=
  if (length bs <? 8 + 2 + 4 + 32 * 4 + 8 * 6 + 2 + 2 + 32)%nat then Err (Msg bad_request) else
  let checksum_at := (length bs - 32)%nat in
  let expected := sha256 (take checksum_at bs) in
  if negb (bytes_eqb expected (drop checksum_at bs)) then err "offline spend request checksum mismatch" else
  let? (head, input) := decode_offline_head (take checksum_at bs) in
  let? (input_count, input) := take_uint bad_request 2 input in
  if (input_count =? 0) || (1024 <? input_count) then err "offline spend request input count outside 1..=1024" else
  let? (prevouts, input) := read_many decode_offline_prevout (Z.to_nat input_count) input in
  let? (output_count, input) := take_uint bad_request 2 input in
  if (output_count =? 0) || (1024 <? output_count) then err "offline spend request output count outside 1..=1024" else
  let? (outputs, input) := read_many decode_offline_output (Z.to_nat output_count) input in
  if negb (is_empty input) then err "offline spend request has trailing bytes" else
  let request := with_lists head prevouts outputs in
  let? _ := validate_offline_request_static request in
  Ok request.

Definition OfflineSpendSignatureV1_encode (s : OfflineSpendSignatureV1) : node_result bytes :=
  if is_empty (os_signatures s) || (1024 <? length (os_signatures s))%nat
  then err "offline spend signature count outside 1..=1024" else
  let out := OFFLINE_SPEND_SIGNATURE_MAGIC ++ be_bytes 2 OFFLINE_SPEND_VERSION ++ be_bytes 4 (os_network_id s)
    ++ os_request_hash s ++ os_owner_public_key s ++ be_bytes 2 (Z.of_nat (length (os_signatures s)))
    ++ encode_many (fun signature => signature) (os_signatures s) in
  Ok (out ++ sha256 out).

Definition OfflineSpendSignatureV1_decode (bs : bytes) : node_result OfflineSpendSignatureV1 :=
  if (length bs <? 8 + 2 + 4 + 32 + 32 + 2 + 64 + 32)%nat then Err (Msg bad_signature) else
  let checksum_at := (length bs - 32)%nat in
  let expected := sha256 (take checksum_at bs) in
  if negb (bytes_eqb expected (drop checksum_at bs)) then err "offline spend signature checksum mismatch" else
  let? (magic, input) := take_field bad_signature 8 (take checksum_at bs) in
  if negb (bytes_eqb magic OFFLINE_SPEND_SIGNATURE_MAGIC) then err "invalid offline spend signature magic" else
  let? (version, input) := take_uint bad_signature 2 input in
  if negb (version =? OFFLINE_SPEND_VERSION) then err "unsupported offline spend signature version" else
  let? (network_id, input) := take_uint bad_signature 4 input in
  let? (request_hash, input) := take_field bad_signature 32 input in
  let? (owner_public_key, input) := take_field bad_signature 32 input in
  let? (count, input) := take_uint bad_signature 2 input in
  if (count =? 0) || (1024 <? count) || negb (Z.to_nat count * 64 =? length input)%nat
  then err "invalid offline spend signature count" else
  let? (signatures, input) := read_many (take_field bad_signature 64) (Z.to_nat count) input in
  if negb (is_empty input) then err "offline spend signature has trailing bytes" else
  Ok {| os_network_id := network_id; os_request_hash := request_hash; os_owner_public_key := owner_public_key;
        os_signatures := signatures |}.

Definition offline_request_hash (bs : bytes) : bytes32 := sha256 bs.

(** ** The online machine makes a request *)

Definition prevout_of_coin (u : UtxoState) : node_result OfflineSpendPrevoutV1 :=
  let? previous_txid := decode32 (us_txid u) in
  let? payload := hex_bytes (us_payload u) in
  Ok {| op_previous_txid := previous_txid; op_previous_output_index := us_output_index u;
        op_amount_strikes := us_amount_strikes u; op_output_type := us_output_type u; op_payload := payload |}.

Definition create_offline_send_request (state : DevnetState) (from to : nat) (amount : Z)
    : node_result OfflineSpendRequestV1 :=
  if amount =? 0 then err "amount must be greater than zero" else
  let? source := ok_or (Msg "license number out of range"%string) (ds_licenses state !! from) in
  let? destination := ok_or (Msg "license number out of range"%string) (ds_licenses state !! to) in
  if negb (bool_decide (ds_genesis_hash state = DEVNET_GENESIS_ID_HEX))
  then err "offline signing requires the locked Devnet GenesisID" else
  let candidate_epoch := next_mineable_epoch state in
  let? from_address := decode32 (ls_payment_address_id source) in
  let? to_address := decode32 (ls_payment_address_id destination) in
  let? owner_public_key := decode32 (ls_owner_public_key source) in
  if negb (bytes_eqb (address_id owner_public_key) from_address)
  then err "current owner public key does not match the license payment address" else
  let? (selected, fee, change) := choose_coins state (fun n => estimate_send_weight n 2) amount from_address in
  let outputs := payment_outputs amount OUTPUT_PUBKEY_HASH to_address change from_address in
  let? prevouts := map_result prevout_of_coin selected in
  let? genesis_id := decode32 (ds_genesis_hash state) in
  let? from_license_id := decode32 (ls_license_id source) in
  let? to_license_id := decode32 (ls_license_id destination) in
  let? max_submit_height := ok_or (Msg "offline spend submission height overflow"%string)
    (checked_add 64 (ds_height state) OFFLINE_SPEND_MAX_SUBMIT_BLOCKS) in
  let request :=
    {| or_network_id := DEVNET_NETWORK_ID; or_genesis_id := genesis_id; or_from_license_id := from_license_id;
       or_to_license_id := to_license_id; or_owner_public_key := owner_public_key;
       or_created_height := ds_height state; or_max_submit_height := max_submit_height;
       or_valid_from_epoch := candidate_epoch; or_expiry_epoch := 0; or_amount_strikes := amount;
       or_fee_strikes := fee; or_prevouts := prevouts; or_outputs := outputs |} in
  let? _ := validate_offline_request_static request in
  Ok request.

(** ** The offline machine signs

    The command [wallet-offline-sign] on the bytes of the request file, with
    what the operator expects of it. *)

Definition sign_prevout (txid : bytes32) (owner_key : bytes) (ip : nat * OfflineSpendPrevoutV1) : bytes :=
  let '(i, prevout) := ip in
  sk_sign owner_key (sighash_all txid (Z.of_nat i mod 2 ^ 16) (OfflineSpendPrevoutV1_prevout prevout)).

Definition offline_sign (bs : bytes) (expected_txid : string) (expected_destination : bytes32)
    (expected_amount max_fee_strikes : Z) (owner_key : bytes) : node_result OfflineSpendSignatureV1 :=
  let? request := OfflineSpendRequestV1_decode bs in
  let? _ := validate_offline_request_static request in
  let txid := TransactionCoreV1_txid (OfflineSpendRequestV1_core request) in
  if negb (bool_decide (to_hex txid = expected_txid)) then err "--expect-txid mismatch" else
  if negb (match or_outputs request with
           | destination :: _ => bytes_eqb (to_payload destination) expected_destination
           | [] => false
           end) then err "--expect-destination mismatch" else
  if negb (or_amount_strikes request =? expected_amount) then err "--expect-amount mismatch" else
  if max_fee_strikes <? or_fee_strikes request then err "offline request fee exceeds operator maximum" else
  if negb (bytes_eqb (sk_public owner_key) (or_owner_public_key request))
  then err "encrypted owner key does not match the request owner public key" else
  Ok {| os_network_id := or_network_id request; os_request_hash := offline_request_hash bs;
        os_owner_public_key := or_owner_public_key request;
        os_signatures := map (sign_prevout txid owner_key) (imap pair (or_prevouts request)) |}.

(** ** The online machine submits *)

Definition license_position (state : DevnetState) (license_id : bytes32) : option nat :=
  position (fun l => bool_decide (ls_license_id l = hex_encode license_id)) (ds_licenses state).

(** The coin of an input is still what the request said. *)
Definition check_prevout (state : DevnetState) (candidate_height : Z) (prevout : OfflineSpendPrevoutV1)
    : node_result unit :=
  let k := (hex_encode (op_previous_txid prevout), op_previous_output_index prevout) in
  if bool_decide (k ∈ mempool_reserved_inputs state)
  then err "offline spend request input is already reserved by the mempool" else
  let? current := ok_or (Msg "offline spend request input is no longer unspent"%string) (find_utxo (ds_utxos state) k) in
  if negb (spendable_at_height current candidate_height)
  then err "offline spend request input is not spendable at the next block height" else
  if negb (us_amount_strikes current =? op_amount_strikes prevout)
     || negb (us_output_type current =? op_output_type prevout)
  then err "offline spend request prevout commitment does not match current UTXO state" else
  let? payload := hex_bytes (us_payload current) in
  if negb (bytes_eqb payload (op_payload prevout))
  then err "offline spend request prevout commitment does not match current UTXO state" else Ok tt.

Definition submit_witness (request : OfflineSpendRequestV1) (from_address txid : bytes32)
    (ips : nat * (OfflineSpendPrevoutV1 * bytes)) : node_result WitnessV1 :=
  let '(i, (prevout, sig_bytes)) := ips in
  let witness := WitnessV1_pubkey_hash (or_owner_public_key request) sig_bytes in
  let digest := sighash_all txid (Z.of_nat i mod 2 ^ 16) (OfflineSpendPrevoutV1_prevout prevout) in
  let? _ := map_err FromTx (verify_pubkey_hash_witness from_address digest witness) in
  Ok witness.

Definition submit_offline_spend (state : DevnetState) (request_bytes : bytes) (request : OfflineSpendRequestV1)
    (signed : OfflineSpendSignatureV1) : node_result PendingTxState :=
  let? _ := validate_offline_request_static request in
  if negb (os_network_id signed =? or_network_id request)
     || negb (bytes_eqb (os_request_hash signed) (offline_request_hash request_bytes))
     || negb (bytes_eqb (os_owner_public_key signed) (or_owner_public_key request))
  then err "offline signed authorization does not match the spend request" else
  if negb (length (os_signatures signed) =? length (or_prevouts request))%nat
  then err "offline signed authorization signature count mismatch" else
  if negb (bool_decide (ds_genesis_hash state = hex_encode (or_genesis_id request)))
  then err "offline spend request does not belong to this GenesisID" else
  if or_max_submit_height request <? ds_height state
  then err "offline spend request has exceeded its 144-block submission horizon" else
  let candidate_epoch := next_mineable_epoch state in
  let candidate_height := ds_height state + 1 in
  if (candidate_epoch <? or_valid_from_epoch request)
     || (negb (or_expiry_epoch request =? 0) && (or_expiry_epoch request <? candidate_epoch))
  then err "offline spend transaction is outside its epoch validity window" else
  let? from := ok_or (Msg "offline spend source LicenseID is not present in current state"%string)
    (license_position state (or_from_license_id request)) in
  let? to := ok_or (Msg "offline spend destination LicenseID is not present in current state"%string)
    (license_position state (or_to_license_id request)) in
  let? source := ok_or (Msg "license number out of range"%string) (ds_licenses state !! from) in
  let? destination := ok_or (Msg "license number out of range"%string) (ds_licenses state !! to) in
  let? owner := decode32 (ls_owner_public_key source) in
  if negb (bytes_eqb owner (or_owner_public_key request)) then err "offline spend request owner authority is stale" else
  let? from_address := decode32 (ls_payment_address_id source) in
  let? to_address := decode32 (ls_payment_address_id destination) in
  if negb (match or_outputs request with o :: _ => bytes_eqb (to_payload o) to_address | [] => false end)
  then err "offline spend destination authority/payment address changed after request creation" else
  if match or_outputs request with [_; change] => negb (bytes_eqb (to_payload change) from_address) | _ => false end
  then err "offline spend change address does not match current source owner" else
  let? _ := fold_result (fun _ prevout => check_prevout state candidate_height prevout) tt (or_prevouts request) in
  let core := OfflineSpendRequestV1_core request in
  let? witnesses := map_result (submit_witness request from_address (TransactionCoreV1_txid core))
    (imap pair (combine (or_prevouts request) (os_signatures signed))) in
  let tx := {| tx_core := core; tx_witnesses := witnesses |} in
  let? input_sum := try_sum 64 (Msg "offline spend input sum overflow"%string) op_amount_strikes (or_prevouts request) in
  let? output_sum := try_sum 64 (Msg "offline spend output sum overflow"%string) to_amount_strikes (tc_outputs core) in
  let? actual_fee := ok_or (Msg "offline spend fee underflow"%string) (checked_sub input_sum output_sum) in
  if negb (actual_fee =? or_fee_strikes request) then err "offline spend fee changed from signed request" else
  let? actual_base := map_err FromTx (required_base_fee (ds_base_fee_rate_q32 state) (TransactionV1_serialized_len tx)) in
  if actual_fee <? actual_base then err "offline spend request became stale because Base Fee rose" else
  let? from_license := ok_or (Msg "offline spend local display index exceeds u8"%string) (try_from 8 (Z.of_nat from)) in
  let? to_license := ok_or (Msg "offline spend local display index exceeds u8"%string) (try_from 8 (Z.of_nat to)) in
  Ok {| pd_txid := to_hex (TransactionV1_txid tx); pd_wtxid := to_hex (TransactionV1_wtxid tx);
        pd_valid_from_epoch := tc_valid_from_epoch core; pd_expiry_epoch := tc_expiry_epoch core;
        pd_inputs := map (fun p => {| si_previous_txid := hex_encode (op_previous_txid p);
                                      si_previous_output_index := op_previous_output_index p |}) (or_prevouts request);
        pd_outputs := map stored_output (tc_outputs core); pd_witnesses := map stored_witness witnesses;
        pd_fee_strikes := actual_fee; pd_base_fee_strikes := actual_base; pd_from_license := from_license;
        pd_to_license := to_license; pd_amount_strikes := or_amount_strikes request |}.

(** The command [wallet-offline-submit] on the two files. *)
Definition offline_submit (state : DevnetState) (request_bytes signed_bytes : bytes) : node_result DevnetState :=
  let? request := OfflineSpendRequestV1_decode request_bytes in
  let? signed := OfflineSpendSignatureV1_decode signed_bytes in
  let? pending := submit_offline_spend state request_bytes request signed in
  let? _ := validate_pending_candidate state pending false in
  Ok (state <| ds_mempool := ds_mempool state ++ [pending] |>).
End offline.

(** ** The two files are canonical *)

Lemma take_field_codec m n : codec (take_field m n) (fun b => b) (fun b => length b = n).
Proof.
  intros input a rest. unfold take_field. destruct (Nat.ltb_spec (length input) n).
  - split; [done|]. intros [Hl ->]. rewrite length_app in *. lia.
  - split.
    + intros H'%Ok_inj. apply pair_inj in H' as [<- <-]. rewrite length_take, take_drop. split; [lia|done].
    + intros [Hl ->]. by rewrite take_app_exact, drop_app_exact.
Qed.

Lemma take_uint_codec m n : codec (take_uint m n) (be_bytes n) (fun v => 0 <= v < 256 ^ Z.of_nat n).
Proof.
  intros input v rest. unfold take_uint. split.
  - destruct (take_field m n input) as [[b r]|] eqn:E; [|done]. apply take_field_codec in E as [Hl ->].
    intros [= <- <-]%Ok_inj. rewrite be_bytes_be_val by done. split; [by apply be_val_range|done].
  - intros [Hv ->]. rewrite (proj2 (take_field_codec m n _ (be_bytes n v) rest)) by (split; [len|done]).
    by rewrite be_val_be_bytes.
Qed.

Lemma take_field_app m n a rest : length a = n -> take_field m n (a ++ rest) = Ok (a, rest).
Proof. intros H. by apply take_field_codec. Qed.

Lemma take_uint_app m n v rest : 0 <= v < 256 ^ Z.of_nat n -> take_uint m n (be_bytes n v ++ rest) = Ok (v, rest).
Proof. intros H. by apply take_uint_codec. Qed.

Lemma take_uint_byte m v rest : is_u8 v -> take_uint m 1 (byte_of_Z v :: rest) = Ok (v, rest).
Proof. intros H. rewrite <- (take_uint_app m 1 v rest) by done. by rewrite be_bytes_1. Qed.

Create Rewrite HintDb offline.
#[export] Hint Rewrite take_field_app take_uint_app take_uint_byte using (done || len) : offline.

(** Every successful field read gives back the bytes it consumed. *)
Ltac fields_inv :=
  repeat match goal with
  | H : take_field _ _ _ = Ok (_, _) |- _ => apply take_field_codec in H as [? ->]
  | H : take_uint _ _ _ = Ok (_, _) |- _ => apply take_uint_codec in H as [? ->]
  end.

Ltac payload_len :=
  match goal with E : length ?b = Z.to_nat ?n |- _ => rewrite E, Z2Nat.id by lia end.

Definition offline_prevout_wf (p : OfflineSpendPrevoutV1) : Prop :=
  is32 (op_previous_txid p) /\ is_u16 (op_previous_output_index p) /\ is_u64 (op_amount_strikes p) /\
  is_u8 (op_output_type p) /\ is_u16 (Z.of_nat (length (op_payload p))).

Definition offline_output_wf (o : TxOutput) : Prop :=
  is_u64 (to_amount_strikes o) /\ is_u8 (to_output_type o) /\ is_u16 (Z.of_nat (length (to_payload o))).

Definition offline_head_wf (r : OfflineSpendRequestV1) : Prop :=
  is_u32 (or_network_id r) /\ is32 (or_genesis_id r) /\ is32 (or_from_license_id r) /\ is32 (or_to_license_id r) /\
  is32 (or_owner_public_key r) /\ is_u64 (or_created_height r) /\ is_u64 (or_max_submit_height r) /\
  is_u64 (or_valid_from_epoch r) /\ is_u64 (or_expiry_epoch r) /\ is_u64 (or_amount_strikes r) /\ is_u64 (or_fee_strikes r).

Definition offline_request_wf (r : OfflineSpendRequestV1) : Prop :=
  offline_head_wf r /\ Forall offline_prevout_wf (or_prevouts r) /\ Forall offline_output_wf (or_outputs r).

Definition offline_signature_wf (s : OfflineSpendSignatureV1) : Prop :=
  is_u32 (os_network_id s) /\ is32 (os_request_hash s) /\ is32 (os_owner_public_key s) /\ Forall (fun signature => is64 signature) (os_signatures s).

Lemma offline_prevout_codec : codec decode_offline_prevout encode_offline_prevout offline_prevout_wf.
Proof.
  intros input p rest. unfold decode_offline_prevout, encode_offline_prevout, offline_prevout_wf. split.
  - intros H. inv_ok. fields_inv. cbn [op_previous_txid op_previous_output_index op_amount_strikes op_output_type op_payload].
    rewrite be_bytes_1, <- !app_assoc. payload_len. repeat (split; [done||lia|]). done.
  - intros ((H1 & H2 & H3 & H4 & H5) & ->). rewrite <- !app_assoc. cbn [app].
    autorewrite with offline. by destruct p.
Qed.

Lemma offline_output_codec : codec decode_offline_output encode_offline_output offline_output_wf.
Proof.
  intros input o rest. unfold decode_offline_output, encode_offline_output, offline_output_wf. split.
  - intros H. inv_ok. fields_inv. cbn [to_amount_strikes to_output_type to_payload].
    rewrite be_bytes_1, <- !app_assoc. payload_len. repeat (split; [done||lia|]). done.
  - intros ((H1 & H2 & H3) & ->). rewrite <- !app_assoc. cbn [app].
    autorewrite with offline. by destruct o.
Qed.

Lemma offline_head_codec :
  codec decode_offline_head encode_offline_head (fun r => offline_head_wf r /\ or_prevouts r = [] /\ or_outputs r = []).
Proof.
  intros input r rest. unfold decode_offline_head, encode_offline_head, offline_head_wf. split.
  - intros H. inv_ok. bool_to_prop. fields_inv. subst. rewrite <- !app_assoc.
    cbn [or_network_id or_genesis_id or_from_license_id or_to_license_id or_owner_public_key or_created_height
      or_max_submit_height or_valid_from_epoch or_expiry_epoch or_amount_strikes or_fee_strikes or_prevouts or_outputs].
    repeat (split; [done||lia|]). done.
  - intros (((H1 & H2 & H3 & H4 & H5 & H6 & H7 & H8 & H9 & H10 & H11) & Hp & Ho) & ->). rewrite <- !app_assoc.
    autorewrite with offline. rewrite (proj2 (bytes_eqb_eq _ _)) by done. autorewrite with offline.
    destruct r. cbn in *. by subst.
Qed.

Section formats.
Context {SHA : Sha2}.

(** A file is its contents and their hash. *)
Lemma checksum_split bs n :
  (n + 32 <= length bs)%nat -> sha256 (take (length bs - 32) bs) = drop (length bs - 32) bs ->
  exists out, bs = out ++ sha256 out /\ take (length bs - 32) bs = out /\ (n <= length out)%nat.
Proof.
  intros Hl Hc. exists (take (length bs - 32) bs). rewrite Hc, take_drop, length_take. repeat split. lia.
Qed.

Lemma checksum_of out :
  length (out ++ sha256 out) = (length out + 32)%nat /\
  take (length (out ++ sha256 out) - 32) (out ++ sha256 out) = out /\
  drop (length (out ++ sha256 out) - 32) (out ++ sha256 out) = sha256 out.
Proof.
  rewrite length_app, sha256_length, Nat.add_sub. by rewrite take_app_length, drop_app_length.
Qed.

Lemma short_payloads {A} (f : A -> bytes) l :
  forallb (fun x => short_payload (f x)) l = true <-> Forall (fun x => is_u16 (Z.of_nat (length (f x)))) l.
Proof.
  rewrite forallb_forall, Forall_forall. unfold short_payload.
  split; intros H x Hx; [apply list_elem_of_In, H, Z.leb_le in Hx; lia|].
  apply Z.leb_le. apply list_elem_of_In, H in Hx. lia.
Qed.
End formats.

Section requests.
Context {SHA : Sha2} {ED : Ed25519}.

Lemma is_empty_length {A} (l : list A) : is_empty l = (length l =? 0)%nat.
Proof. by destruct l. Qed.

Lemma offline_request_decodes r bs :
  offline_request_wf r -> validate_offline_request_static r = Ok tt ->
  OfflineSpendRequestV1_encode r = Ok bs -> OfflineSpendRequestV1_decode bs = Ok r.
Proof.
  intros (Hh & Hp & Ho) Hs He. unfold OfflineSpendRequestV1_encode in He. inv_ok. rewrite !is_empty_length in *. bool_to_prop.
  set (out := encode_offline_head r ++ _). destruct (checksum_of out) as (Hl & Ht & Hd).
  unfold OfflineSpendRequestV1_decode. rewrite Ht, Hd, (proj2 (bytes_eqb_eq _ _)) by done. cbn [negb].
  assert (226 <= length (out ++ sha256 out))%nat.
  { rewrite Hl. unfold out, encode_offline_head. destruct Hh as (_ & ? & ? & ? & ? & _). len. }
  destruct (Nat.ltb_spec (length (out ++ sha256 out)) (8 + 2 + 4 + 32 * 4 + 8 * 6 + 2 + 2 + 32)); [lia|]. unfold out.
  rewrite (proj2 (offline_head_codec _ (with_lists r [] []) _)) by (split; [by split|reflexivity]).
  rewrite take_uint_app by lia.
  destruct (Z.eqb_spec (Z.of_nat (length (or_prevouts r))) 0), (Z.ltb_spec 1024 (Z.of_nat (length (or_prevouts r)))); try lia.
  cbn [orb]. rewrite Nat2Z.id.
  rewrite (proj2 (read_many_codec _ _ _ _ offline_prevout_codec _ (or_prevouts r) _)) by done.
  rewrite take_uint_app by lia.
  destruct (Z.eqb_spec (Z.of_nat (length (or_outputs r))) 0), (Z.ltb_spec 1024 (Z.of_nat (length (or_outputs r)))); try lia.
  cbn [orb]. rewrite Nat2Z.id, <- (app_nil_r (encode_many encode_offline_output (or_outputs r))).
  rewrite (proj2 (read_many_codec _ _ _ _ offline_output_codec _ (or_outputs r) [])) by done. cbn [is_empty negb].
  assert (with_lists (with_lists r [] []) (or_prevouts r) (or_outputs r) = r) as -> by by destruct r.
  by rewrite Hs.
Qed.

Lemma offline_request_canonical bs r :
  OfflineSpendRequestV1_decode bs = Ok r ->
  offline_request_wf r /\ validate_offline_request_static r = Ok tt /\ OfflineSpendRequestV1_encode r = Ok bs.
Proof.
  unfold OfflineSpendRequestV1_decode. intros H.
  destruct (Nat.ltb_spec (length bs) (8 + 2 + 4 + 32 * 4 + 8 * 6 + 2 + 2 + 32)) as [|Hl]; [done|].
  destruct (bytes_eqb _ _) eqn:Ec; cbn [negb] in H; [|done]. apply bytes_eqb_eq in Ec.
  apply (checksum_split bs 194) in Ec as (out & Hbs & Ht & _); [|lia]. rewrite Ht in H.
  destruct (decode_offline_head out) as [[head i1]|] eqn:E1; [|done]. apply offline_head_codec in E1 as [(Hh & _ & _) ->].
  destruct (take_uint _ _ i1) as [[n i2]|] eqn:E2; [|done]. apply take_uint_codec in E2 as [Hn ->].
  destruct (_ || _) eqn:En; [done|]. bool_to_prop. destruct (read_many _ _ i2) as [[prevouts i3]|] eqn:E3; [|done].
  apply (read_many_codec _ _ _ _ offline_prevout_codec) in E3 as [[Hp1 Hp] ->].
  destruct (take_uint _ _ i3) as [[m i4]|] eqn:E4; [|done]. apply take_uint_codec in E4 as [Hm ->].
  destruct (_ || _) eqn:Em; [done|]. destruct (read_many _ _ i4) as [[outputs i5]|] eqn:E5; [|done].
  apply (read_many_codec _ _ _ _ offline_output_codec) in E5 as [[Ho1 Ho] ->].
  destruct i5; cbn [is_empty negb] in H; [|done]. rewrite app_nil_r in *.
  destruct (validate_offline_request_static _) as [[]|] eqn:Es; [|done]. apply Ok_inj in H as <-.
  split; [by split|]. split; [done|]. unfold OfflineSpendRequestV1_encode. cbn [with_lists or_prevouts or_outputs].
  rewrite !is_empty_length, Hp1, Ho1. bool_to_prop.
  assert (Z.of_nat (length prevouts) = n /\ Z.of_nat (length outputs) = m) as [En1 Em1] by (rewrite Hp1, Ho1, !Z2Nat.id by lia; done).
  rewrite (proj2 (Nat.eqb_neq _ _)), (proj2 (Nat.ltb_ge _ _)), (proj2 (Nat.eqb_neq _ _)), (proj2 (Nat.ltb_ge _ _)) by lia.
  cbn [orb]. rewrite (proj2 (short_payloads op_payload _)), (proj2 (short_payloads to_payload _)).
  - cbn [negb]. rewrite !Z2Nat.id by lia. by rewrite Hbs.
  - eapply Forall_impl; [exact Ho|]. by intros o (_ & _ & ?).
  - eapply Forall_impl; [exact Hp|]. by intros o (_ & _ & _ & _ & ?).
Qed.

Lemma offline_signature_decodes s bs :
  offline_signature_wf s -> OfflineSpendSignatureV1_encode s = Ok bs -> OfflineSpendSignatureV1_decode bs = Ok s.
Proof.
  intros (H1 & H2 & H3 & Hs) He. unfold OfflineSpendSignatureV1_encode in He. inv_ok. rewrite is_empty_length in *. bool_to_prop.
  assert (length (encode_many (fun signature : bytes => signature) (os_signatures s)) = (length (os_signatures s) * 64)%nat) as Hlen.
  { clear -Hs. induction Hs as [|x l Hx _ IH]; [done|]. unfold encode_many in *. cbn [map concat length]. rewrite length_app, IH, Hx. done. }
  set (out := OFFLINE_SPEND_SIGNATURE_MAGIC ++ _). destruct (checksum_of out) as (Hl & Ht & Hd).
  unfold OfflineSpendSignatureV1_decode. rewrite Ht, Hd, (proj2 (bytes_eqb_eq _ _)) by done. cbn [negb].
  assert (176 <= length (out ++ sha256 out))%nat.
  { rewrite Hl. unfold out. rewrite !length_app, Hlen. len. }
  destruct (Nat.ltb_spec (length (out ++ sha256 out)) (8 + 2 + 4 + 32 + 32 + 2 + 64 + 32)); [lia|]. unfold out.
  autorewrite with offline. rewrite (proj2 (bytes_eqb_eq _ _)) by done. autorewrite with offline.
  change (negb (OFFLINE_SPEND_VERSION =? OFFLINE_SPEND_VERSION)) with false. cbn [negb].
  rewrite Nat2Z.id, Hlen, Nat.eqb_refl.
  destruct (Z.eqb_spec (Z.of_nat (length (os_signatures s))) 0), (Z.ltb_spec 1024 (Z.of_nat (length (os_signatures s)))); try lia.
  cbn [orb negb]. rewrite <- (app_nil_r (encode_many _ _)).
  rewrite (proj2 (read_many_codec _ _ _ _ (take_field_codec bad_signature 64) _ (os_signatures s) [])) by done.
  by destruct s.
Qed.
End requests.

(** ** What the offline signer agrees to *)

Section signer.
Context {SHA : Sha2} {ED : Ed25519}.

Definition prevout_total (prevouts : list OfflineSpendPrevoutV1) : Z := sum_of op_amount_strikes prevouts.

(** Output [o] gives back to [address]. *)
Definition returns_to (address : bytes32) (o : TxOutput) : Prop :=
  to_amount_strikes o <> 0 /\ to_output_type o = OUTPUT_PUBKEY_HASH /\ to_payload o = address.

Definition owned_by (address : bytes32) (p : OfflineSpendPrevoutV1) : Prop :=
  op_output_type p = OUTPUT_PUBKEY_HASH /\ op_payload p = address.

(** What [validate_offline_request_static] establishes. *)
Record request_says (r : OfflineSpendRequestV1) (destination : TxOutput) (change : list TxOutput) : Prop := {
  rs_network : or_network_id r = DEVNET_NETWORK_ID;
  rs_outputs : or_outputs r = destination :: change;
  rs_destination : to_amount_strikes destination = or_amount_strikes r /\
    to_output_type destination = OUTPUT_PUBKEY_HASH /\ length (to_payload destination) = 32%nat;
  rs_amount : or_amount_strikes r <> 0;
  rs_change : (length change <= 1)%nat /\ Forall (returns_to (address_id (or_owner_public_key r))) change;
  rs_prevouts : (1 <= length (or_prevouts r) <= 1024)%nat /\
    Forall (owned_by (address_id (or_owner_public_key r))) (or_prevouts r);
  rs_sums : prevout_total (or_prevouts r) = output_total (or_outputs r) + or_fee_strikes r /\
    0 <= or_fee_strikes r /\ prevout_total (or_prevouts r) < 2 ^ 64;
}.

Lemma prevouts_owned_ok address l acc sum :
  fold_result (prevout_owned address) acc l = Ok sum -> acc < 2 ^ 64 ->
  Forall (owned_by address) l /\ sum = acc + prevout_total l /\ sum < 2 ^ 64.
Proof.
  revert acc. induction l as [|p l IH]; intros acc; cbn [fold_result].
  { intros <-%Ok_inj Ha. unfold prevout_total. simpl. split; [constructor|lia]. }
  unfold prevout_owned at 1. destruct (_ || _) eqn:E; [done|].
  destruct (checked_add 64 acc _) as [acc'|] eqn:Ea; cbn [ok_or]; [|done]. apply checked_add_Some in Ea as [-> Hlt].
  intros H _. apply IH in H as (HF & -> & Hs); [|done]. bool_to_prop. unfold prevout_total in *. rewrite sum_of_cons.
  split; [by constructor|lia].
Qed.

Lemma static_says r : validate_offline_request_static r = Ok tt -> exists destination change, request_says r destination change.
Proof.
  unfold validate_offline_request_static. intros H.
  destruct (negb (or_network_id r =? _)) eqn:E1; [done|]. destruct (decode32 DEVNET_GENESIS_ID_HEX); [|done].
  destruct (negb (bytes_eqb _ _)); [done|]. destruct (or_amount_strikes r =? 0) eqn:E2; [done|].
  destruct (_ || _) eqn:E3; [done|]. destruct (or_outputs r) as [|destination change] eqn:Eo; [done|].
  rewrite is_empty_length in H. bool_to_prop. destruct (_ || _) eqn:E4; [done|].
  destruct (fold_result _ 0 (or_prevouts r)) as [isum|] eqn:E5; [|done]. apply prevouts_owned_ok in E5 as (HF & -> & Hlt); [|lia].
  bool_to_prop. destruct (_ || _) eqn:E6; [done|].
  set (good := match change with [c] => _ | _ => _ end) in H. destruct good as [[]|] eqn:E7; [|done]. subst good.
  destruct (try_sum 64 _ _ _) as [osum|] eqn:E8; [|done]. apply try_sum_ok in E8 as ->.
  destruct (checked_sub _ _) as [fee|] eqn:E9; cbn [ok_or] in H; [|done]. apply checked_sub_Some in E9 as [-> Hle].
  destruct (negb (_ =? or_fee_strikes r)) eqn:E10; [done|]. bool_to_prop.
  exists destination, change. split; try done.
  - split; [done|]. destruct change as [|c [|? ?]]; [constructor| |cbn in *; lia].
    destruct (to_amount_strikes c =? 0) eqn:G1; [done|]. destruct (to_output_type c =? _) eqn:G2; [|done].
    destruct (bytes_eqb (to_payload c) _) eqn:G3; [|done]. bool_to_prop. repeat constructor; done.
  - split; [lia|done].
  - unfold output_total. rewrite Eo. split; lia.
Qed.

Lemma sign_lookup txid sk ps n i p s :
  ps !! i = Some p -> map (sign_prevout txid sk) (imap (fun j x => ((n + j)%nat, x)) ps) !! i = Some s ->
  s = sk_sign sk (sighash_all txid (Z.of_nat (n + i) mod 2 ^ 16) (OfflineSpendPrevoutV1_prevout p)).
Proof.
  intros Hp. rewrite list_lookup_fmap, list_lookup_imap, Hp. cbn. by intros [= <-].
Qed.

(** The coin of [p], locked to the key [sk], is signed for. *)
Lemma signature_verifies address txid sk n p :
  address = address_id (sk_public sk) ->
  verify_pubkey_hash_witness address (sighash_all txid (Z.of_nat n mod 2 ^ 16) (OfflineSpendPrevoutV1_prevout p))
    (WitnessV1_pubkey_hash (sk_public sk) (sign_prevout txid sk (n, p))) = Ok tt.
Proof.
  intros ->. unfold verify_pubkey_hash_witness, WitnessV1_pubkey_hash, sign_prevout. cbn [w_witness_type w_payload].
  rewrite length_app, sk_public_length, sk_sign_length, take_app_exact, drop_app_exact by (try done; apply sk_public_length).
  rewrite (proj2 (bytes_eqb_eq _ _)) by done. by rewrite sk_public_valid, sk_sign_verify.
Qed.

(** C19: an offline signer that agrees to a payment gives away no more than the
    operator agreed to: the request spends only coins of the signer's own
    address, pays the expected amount to the expected destination, returns all
    the rest but a fee within the limit to the signer, has the expected
    transaction id, and each signature verifies as the witness of its input. *)
Theorem offline_signer_bounds (bs : bytes) (txid : string) (destination : bytes32) (amount max_fee : Z) (sk : bytes) signed :
  offline_sign bs txid destination amount max_fee sk = Ok signed ->
  exists r change, OfflineSpendRequestV1_decode bs = Ok r /\ os_request_hash signed = sha256 bs /\
    to_hex (TransactionCoreV1_txid (OfflineSpendRequestV1_core r)) = txid /\
    tc_outputs (OfflineSpendRequestV1_core r)
      = {| to_amount_strikes := amount; to_output_type := OUTPUT_PUBKEY_HASH; to_payload := destination |} :: change /\
    Forall (returns_to (address_id (sk_public sk))) change /\
    Forall (owned_by (address_id (sk_public sk))) (or_prevouts r) /\
    prevout_total (or_prevouts r) - output_total change <= amount + max_fee /\
    length (os_signatures signed) = length (or_prevouts r) /\
    (forall i p s, or_prevouts r !! i = Some p -> os_signatures signed !! i = Some s ->
       verify_pubkey_hash_witness (op_payload p)
         (sighash_all (TransactionCoreV1_txid (OfflineSpendRequestV1_core r)) (Z.of_nat i) (OfflineSpendPrevoutV1_prevout p))
         (WitnessV1_pubkey_hash (sk_public sk) s) = Ok tt).
Proof.
  unfold offline_sign. destruct (OfflineSpendRequestV1_decode bs) as [r|] eqn:Ed; [|done].
  destruct (validate_offline_request_static r) as [[]|] eqn:Es; [|done].
  destruct (static_says r Es) as (target & change & []). rewrite rs_outputs0.
  destruct (negb (bool_decide _)) eqn:E1; [done|]. destruct (negb (bytes_eqb (to_payload target) destination)) eqn:E2; [done|]. destruct (negb (or_amount_strikes r =? _)) eqn:E3; [done|].
  destruct (max_fee <? _) eqn:E4; [done|]. destruct (negb (bytes_eqb _ (or_owner_public_key r))) eqn:E5; [done|].
  intros <-%Ok_inj. bool_to_prop. apply bool_decide_eq_true in E1.
  destruct rs_destination0 as (D1 & D2 & D3), rs_change0 as [C1 C2], rs_prevouts0 as [P1 P2], rs_sums0 as (S1 & S2 & _).
  exists r, change. cbn [os_request_hash os_signatures]. rewrite E5, length_map, length_imap.
  repeat apply conj; try done.
  - cbn [OfflineSpendRequestV1_core tc_outputs]. rewrite rs_outputs0. f_equal. destruct target. cbn in *. by subst.
  - rewrite rs_outputs0 in S1. unfold output_total in *. rewrite sum_of_cons in S1. lia.
  - intros i p s Hp Hs. rewrite <- E5 in *. pose proof (sign_lookup _ sk _ 0 i p s Hp Hs) as ->.
    rewrite Forall_forall in P2. destruct (P2 p) as [_ ->]; [by eapply list_elem_of_lookup_2|].
    apply lookup_lt_Some in Hp. cbn [Nat.add]. rewrite Z.mod_small by lia.
    pose proof (signature_verifies (address_id (sk_public sk)) (TransactionCoreV1_txid (OfflineSpendRequestV1_core r)) sk i p
      eq_refl) as V. unfold sign_prevout in V. rewrite Z.mod_small in V by lia. exact V.
Qed.
End signer.

(** ** The air gap changes nothing *)

Section airgap.
Context {SHA : Sha2} {ED : Ed25519}.

(** Coins and the prevouts that a request lists for them. *)
Definition listed (selected : list UtxoState) (prevouts : list OfflineSpendPrevoutV1) : Prop :=
  Forall2 (fun u p => prevout_of_coin u = Ok p) selected prevouts.

Lemma coin_prevout u p :
  prevout_of_coin u = Ok p ->
  UtxoState_prevout u = Ok (OfflineSpendPrevoutV1_prevout p) /\ decode32 (us_txid u) = Ok (op_previous_txid p) /\
  op_previous_output_index p = us_output_index u /\ op_amount_strikes p = us_amount_strikes u /\
  op_output_type p = us_output_type u /\ hex_bytes (us_payload u) = Ok (op_payload p).
Proof.
  unfold prevout_of_coin, UtxoState_prevout. destruct (decode32 _) as [id|]; [|done].
  destruct (hex_bytes _) as [b|]; [|done]. by intros <-%Ok_inj.
Qed.

Lemma payload_address u p address :
  prevout_of_coin u = Ok p -> decode32 (us_payload u) = Ok address -> op_payload p = address.
Proof.
  intros (_ & _ & _ & _ & _ & Hp)%coin_prevout. unfold decode32. unfold hex_bytes in Hp.
  destruct (hex_decode _) as [v|]; cbn [ok_or] in *; [|done]. apply Ok_inj in Hp as ->.
  destruct (_ =? _)%nat; [|done]. by intros <-%Ok_inj.
Qed.

Lemma listed_inputs selected prevouts :
  listed selected prevouts ->
  map_result (fun u => let? previous_txid := decode32 (us_txid u) in Ok (Outpoint previous_txid (us_output_index u))) selected
  = Ok (map (fun p => Outpoint (op_previous_txid p) (op_previous_output_index p)) prevouts).
Proof.
  intros H. apply map_result_Forall2. induction H as [|u p us ps (_ & H2 & H3 & _)%coin_prevout _ IH]; constructor; [|done].
  by rewrite H2, H3.
Qed.

Lemma listed_total selected prevouts : listed selected prevouts -> prevout_total prevouts = utxo_total selected.
Proof.
  unfold prevout_total, utxo_total. intros H.
  induction H as [|u p us ps (_ & _ & _ & H4 & _)%coin_prevout _ IH]; [done|]. rewrite !sum_of_cons. lia.
Qed.

(** The witnesses that the signatures of the signer become. *)
Definition offline_witnesses (txid : bytes32) (sk : bytes) (prevouts : list OfflineSpendPrevoutV1) : list WitnessV1 :=
  map (WitnessV1_pubkey_hash (sk_public sk)) (map (sign_prevout txid sk) (imap pair prevouts)).

Lemma listed_witnesses txid sk selected prevouts n :
  listed selected prevouts ->
  map_result (sign_input txid sk) (imap (fun i u => ((n + i)%nat, u)) selected)
  = Ok (map (WitnessV1_pubkey_hash (sk_public sk)) (map (sign_prevout txid sk) (imap (fun i p => ((n + i)%nat, p)) prevouts))).
Proof.
  intros H. revert n. induction H as [|u p us ps (H1 & _)%coin_prevout _ IH]; intros n; [done|].
  cbn [imap map_result map]. unfold sign_input at 1. rewrite H1.
  rewrite (imap_ext _ (fun i u => ((S n + i)%nat, u)) us) by (intros; cbn; f_equal; lia).
  rewrite (imap_ext _ (fun i p => ((S n + i)%nat, p)) ps) by (intros; cbn; f_equal; lia).
  unfold compose. by rewrite IH.
Qed.

Lemma self_verified tx sk selected prevouts n :
  listed selected prevouts ->
  Forall (fun u => decode32 (us_payload u) = Ok (address_id (sk_public sk))) selected ->
  fold_result (self_verify tx) tt (imap (fun i x => ((n + i)%nat, x)) (combine selected
    (map (WitnessV1_pubkey_hash (sk_public sk))
      (map (sign_prevout (TransactionV1_txid tx) sk) (imap (fun i p => ((n + i)%nat, p)) prevouts))))) = Ok tt.
Proof.
  intros H. revert n. induction H as [|u p us ps (H1 & _)%coin_prevout _ IH]; intros n HF; [done|].
  apply Forall_cons in HF as [Hu HF]. cbn [imap map combine fold_result]. unfold self_verify at 1. rewrite H1, Hu, Nat.add_0_r.
  rewrite signature_verifies by done. cbn [map_err].
  erewrite imap_ext; [erewrite (imap_ext _ (fun i p => ((S n + i)%nat, p)) ps); [by apply (IH (S n))|]|];
    intros; cbn; f_equal; lia.
Qed.

Lemma submitted_witnesses request address txid sk prevouts n :
  or_owner_public_key request = sk_public sk -> address = address_id (sk_public sk) ->
  map_result (submit_witness request address txid) (imap (fun i x => ((n + i)%nat, x)) (combine prevouts
    (map (sign_prevout txid sk) (imap (fun i p => ((n + i)%nat, p)) prevouts))))
  = Ok (map (WitnessV1_pubkey_hash (sk_public sk)) (map (sign_prevout txid sk) (imap (fun i p => ((n + i)%nat, p)) prevouts))).
Proof.
  intros Ho Ha. revert n. induction prevouts as [|p ps IH]; intros n; [done|].
  cbn [imap map combine map_result]. unfold submit_witness at 1. rewrite Ho, Nat.add_0_r, signature_verifies by done. cbn [map_err].
  rewrite (imap_ext _ (fun i p => ((S n + i)%nat, p)) ps) by (intros; cbn; f_equal; lia).
  erewrite imap_ext; [by rewrite (IH (S n))|]. intros; cbn; f_equal; lia.
Qed.
End airgap.

Section equivalence.
Context {SHA : Sha2} {ED : Ed25519}.

(** What the equivalence needs of the state: a wallet's state on the
    development network, amounts of their width, and licenses with distinct ids
    that are the hex text of 32 bytes. *)
Record offline_ready (s : DevnetState) : Prop := {
  of_wallet : wallet_ready s;
  of_network : ds_network_id s = DEVNET_NETWORK_ID;
  of_coins : Forall (fun u => is_u16 (us_output_index u) /\ is_u64 (us_amount_strikes u)) (ds_utxos s);
  of_u64 : is_u64 (ds_height s) /\ is_u64 (next_mineable_epoch s);
  of_ids : NoDup (map ls_license_id (ds_licenses s)) /\
    Forall (fun l => canonical_txid (ls_license_id l)) (ds_licenses s);
}.

(** A request that [create_offline_send_request] made. *)
Record made (s : DevnetState) (from to : nat) (amount : Z) (r : OfflineSpendRequestV1)
    (source target : LicenseState) (destination : bytes32) (selected : list UtxoState) (change : Z) : Prop := {
  md_licenses : ds_licenses s !! from = Some source /\ ds_licenses s !! to = Some target;
  md_amount : amount <> 0 /\ or_amount_strikes r = amount;
  md_owner : decode32 (ls_owner_public_key source) = Ok (or_owner_public_key r);
  md_addresses : decode32 (ls_payment_address_id source) = Ok (address_id (or_owner_public_key r)) /\
    decode32 (ls_payment_address_id target) = Ok destination;
  md_coins : choose_coins s (fun n => estimate_send_weight n 2) amount (address_id (or_owner_public_key r))
    = Ok (selected, or_fee_strikes r, change);
  md_listed : listed selected (or_prevouts r);
  md_outputs : or_outputs r = payment_outputs amount OUTPUT_PUBKEY_HASH destination change (address_id (or_owner_public_key r));
  md_genesis : ds_genesis_hash s = DEVNET_GENESIS_ID_HEX /\ decode32 DEVNET_GENESIS_ID_HEX = Ok (or_genesis_id r);
  md_ids : decode32 (ls_license_id source) = Ok (or_from_license_id r) /\ decode32 (ls_license_id target) = Ok (or_to_license_id r);
  md_window : or_created_height r = ds_height s /\ or_max_submit_height r = ds_height s + 144 /\ ds_height s + 144 < 2 ^ 64 /\
    or_valid_from_epoch r = next_mineable_epoch s /\ or_expiry_epoch r = 0 /\ or_network_id r = DEVNET_NETWORK_ID;
  md_static : validate_offline_request_static r = Ok tt;
}.

Lemma create_made s from to amount r :
  create_offline_send_request s from to amount = Ok r ->
  exists source target destination selected change, made s from to amount r source target destination selected change.
Proof.
  unfold create_offline_send_request. destruct (Z.eqb_spec amount 0); [done|].
  destruct (ds_licenses s !! from) as [source|] eqn:E1; cbn [ok_or]; [|done].
  destruct (ds_licenses s !! to) as [target|] eqn:E2; cbn [ok_or]; [|done].
  destruct (bool_decide (ds_genesis_hash s = _)) eqn:E3; cbn [negb]; [|done]. apply bool_decide_eq_true in E3.
  destruct (decode32 (ls_payment_address_id source)) as [address|] eqn:E4; [|done].
  destruct (decode32 (ls_payment_address_id target)) as [destination|] eqn:E5; [|done].
  destruct (decode32 (ls_owner_public_key source)) as [owner|] eqn:E6; [|done].
  destruct (bytes_eqb (address_id owner) address) eqn:E7; cbn [negb]; [|done]. apply bytes_eqb_eq in E7 as <-.
  destruct (choose_coins _ _ _ _) as [[[selected fee] change]|] eqn:E8; [|done].
  destruct (map_result _ _) as [prevouts|] eqn:E9; [|done]. rewrite E3.
  destruct (decode32 DEVNET_GENESIS_ID_HEX) as [genesis|] eqn:E10; [|done].
  destruct (decode32 (ls_license_id source)) as [id1|] eqn:E11; [|done].
  destruct (decode32 (ls_license_id target)) as [id2|] eqn:E12; [|done].
  destruct (checked_add _ _ _) as [limit|] eqn:E13; cbn [ok_or]; [|done]. apply checked_add_Some in E13 as [-> Hlt].
  destruct (validate_offline_request_static _) as [[]|] eqn:E14; [|done]. intros <-%Ok_inj.
  exists source, target, destination, selected, change. apply map_result_Forall2 in E9. split; try done.
Qed.

Lemma made_wf s from to amount r source target destination selected change :
  offline_ready s -> is_u64 amount -> made s from to amount r source target destination selected change -> offline_request_wf r.
Proof.
  intros [Hw _ Hc [Hh He] _] Ha []. destruct md_window0 as (W1 & W2 & Hm & W3 & W4 & Hn), md_amount0 as [_ Hra].
  destruct (static_says r md_static0) as (o & cs & []). apply choose_coins_ok in md_coins0 as (Hch & _ & _ & Hchange); [|apply Hw].
  assert (0 <= change < 2 ^ 64) by (rewrite Hchange; by apply Z.mod_pos_bound).
  destruct rs_prevouts0 as [Hlen Hown], rs_sums0 as (Hsum & Hf0 & Hlt). destruct md_genesis0 as [_ Hg], md_ids0 as [Hi1 Hi2].
  assert (0 <= output_total (or_outputs r)) as Ho.
  { rewrite md_outputs0. unfold payment_outputs, output_total. destruct (0 <? change); rewrite !sum_of_cons; simpl; lia. }
  assert (is32 destination) as Hd by (destruct md_addresses0; by eapply decode32_length).
  split; [|split].
  - unfold offline_head_wf. rewrite Hra, Hn, W1, W2, W3, W4. repeat (apply conj; [first [by eapply decode32_length|done|lia]|]). lia.
  - apply Forall_forall. intros p Hp. rewrite Forall_forall in Hown. destruct (Hown p Hp) as [Hty Hpay].
    apply list_elem_of_lookup_1 in Hp as [i Hp]. unfold listed in md_listed0.
    destruct (Forall2_lookup_r _ _ _ _ _ md_listed0 Hp) as (u & Hu & (_ & H2 & H3 & H4 & _)%coin_prevout).
    pose proof (ch_from _ _ _ Hch) as Hfrom. rewrite Forall_forall in Hfrom, Hc.
    destruct (Hfrom u) as [Hin _]; [by eapply list_elem_of_lookup_2|]. destruct (Hc u Hin) as [Hix Ham].
    unfold offline_prevout_wf. rewrite Hty, Hpay, H3, H4.
    assert (length (address_id (or_owner_public_key r)) = 32%nat) as -> by apply sha256_domain_length.
    repeat apply conj; try done; try apply Hix; try apply Ham. by eapply decode32_length.
  - rewrite md_outputs0. unfold payment_outputs.
    assert (length (address_id (or_owner_public_key r)) = 32%nat) as Hadr by apply sha256_domain_length.
    destruct (0 <? change); repeat constructor; cbn [to_amount_strikes to_output_type to_payload]; rewrite ?Hadr, ?Hd; try done; lia.
Qed.

(** The transaction that the request and the signatures make. *)
Definition offline_tx (r : OfflineSpendRequestV1) (sk : bytes) : TransactionV1 :=
  {| tx_core := OfflineSpendRequestV1_core r;
     tx_witnesses := offline_witnesses (TransactionCoreV1_txid (OfflineSpendRequestV1_core r)) sk (or_prevouts r) |}.

(** Both ways end by comparing the fee with the Base Fee. *)
Definition when_base_paid (s : DevnetState) (r : OfflineSpendRequestV1) (sk : bytes) (message : string)
    (pending : Z -> PendingTxState) : node_result PendingTxState :=
  let? base := map_err FromTx (required_base_fee (ds_base_fee_rate_q32 s) (TransactionV1_serialized_len (offline_tx r sk))) in
  if or_fee_strikes r <? base then Err (Msg message) else Ok (pending base).

Lemma genesis_hex g : decode32 DEVNET_GENESIS_ID_HEX = Ok g -> hex_encode g = DEVNET_GENESIS_ID_HEX.
Proof. destruct (decode32 DEVNET_GENESIS_ID_HEX) as [v|] eqn:E; [|done]. intros <-%Ok_inj. vm_compute in E. by apply Ok_inj in E as <-. Qed.

Lemma made_coins s from to amount r source target destination selected change :
  offline_ready s -> made s from to amount r source target destination selected change ->
  Forall (fun u => u ∈ ds_utxos s /\ canonical_txid (us_txid u) /\ is_u64 (us_amount_strikes u)) selected /\
  Forall (fun u => decode32 (us_payload u) = Ok (address_id (or_owner_public_key r))) selected.
Proof.
  intros [Hw _ Hc _ _] []. apply choose_coins_ok in md_coins0 as ([_ _ Hfrom _] & _); [|apply Hw].
  pose proof (wr_coins _ Hw) as Hcan. split.
  - eapply Forall_impl; [exact Hfrom|]. intros u (Hin & _). rewrite Forall_forall in Hc, Hcan. split; [done|].
    split; [apply Hcan|apply Hc]; done.
  - eapply Forall_impl; [exact Hfrom|]. by intros u (_ & _ & ? & _).
Qed.

Lemma made_sums s from to amount r source target destination selected change (e1 e2 : NodeError) :
  offline_ready s -> is_u64 amount -> made s from to amount r source target destination selected change ->
  try_sum 64 e1 us_amount_strikes selected = Ok (prevout_total (or_prevouts r)) /\
  try_sum 64 e1 op_amount_strikes (or_prevouts r) = Ok (prevout_total (or_prevouts r)) /\
  try_sum 64 e2 to_amount_strikes (or_outputs r) = Ok (output_total (or_outputs r)) /\
  checked_sub (prevout_total (or_prevouts r)) (output_total (or_outputs r)) = Some (or_fee_strikes r).
Proof.
  intros Hr Ha Hm. destruct (made_wf _ _ _ _ _ _ _ _ _ _ Hr Ha Hm) as (_ & Hp & Ho).
  destruct (made_coins _ _ _ _ _ _ _ _ _ _ Hr Hm) as [Hc _]. destruct Hm.
  destruct (static_says r md_static0) as (o & cs & []). destruct rs_sums0 as (S1 & S2 & S3).
  pose proof (listed_total _ _ md_listed0) as Ht. repeat apply conj.
  - rewrite Ht. apply try_sum_total; [|rewrite <- Ht at 1; unfold utxo_total in *; lia].
    eapply Forall_impl; [exact Hc|]. cbn. intros u (_ & _ & H & _). done.
  - apply try_sum_total; [|done]. eapply Forall_impl; [exact Hp|]. cbn. by intros p (_ & _ & [? _] & _).
  - apply try_sum_total; [|unfold output_total in *; lia]. eapply Forall_impl; [exact Ho|]. cbn. by intros x ([? _] & _).
  - apply checked_sub_Some. lia.
Qed.

Lemma online_form s from to amount r source target destination selected change sk :
  offline_ready s -> is_u64 amount -> made s from to amount r source target destination selected change ->
  sk_public sk = or_owner_public_key r ->
  create_send_transaction_with_signer s from to amount sk
  = when_base_paid s r sk "internal fee construction error"
      (fun base => stored_payment (offline_tx r sk) selected (or_fee_strikes r) base from to amount).
Proof.
  intros Hr Ha Hm Hk. destruct (made_coins _ _ _ _ _ _ _ _ _ _ Hr Hm) as [_ Hadr].
  pose proof (made_sums _ _ _ _ _ _ _ _ _ _ (Msg "input sum overflow"%string) (Msg "output sum overflow"%string) Hr Ha Hm)
    as (S1 & _ & S2 & S3).
  destruct Hm as [[L1 L2] [A1 A2] Ho [D1 D2] Hc Hl Hout _ _ (W1 & W2 & _ & W3 & W4 & W5) _].
  unfold create_send_transaction_with_signer. destruct (Z.eqb_spec amount 0); [done|].
  rewrite L1, L2. cbn [ok_or]. rewrite Ho, Hk, (proj2 (bytes_eqb_eq _ _)), D1, D2, Hc by done. cbn [negb].
  unfold sign_payment. rewrite (listed_inputs _ _ Hl), <- Hout.
  assert ({| tc_version := 1; tc_network_id := ds_network_id s; tc_valid_from_epoch := next_mineable_epoch s; tc_expiry_epoch := 0;
             tc_inputs := map (fun p => Outpoint (op_previous_txid p) (op_previous_output_index p)) (or_prevouts r);
             tc_outputs := or_outputs r |} = OfflineSpendRequestV1_core r) as ->.
  { unfold OfflineSpendRequestV1_core. by rewrite (of_network _ Hr), W3, W4, W5. }
  rewrite (listed_witnesses _ sk _ _ 0 Hl : map_result _ (imap pair selected) = _).
  change {| tx_core := _; tx_witnesses := _ |} with (offline_tx r sk).
  unfold check_payment, when_base_paid. cbn [offline_tx tx_core tx_witnesses OfflineSpendRequestV1_core tc_outputs].
  destruct (required_base_fee _ _) as [base|]; cbn [map_err]; [|done]. rewrite S1, S2, S3. cbn [ok_or].
  destruct (or_fee_strikes r <? base); [done|].
  match goal with |- context [fold_result ?f tt ?l] => assert (fold_result f tt l = Ok tt) as -> end; [|done].
  apply (self_verified (offline_tx r sk) sk _ _ 0 Hl). by rewrite Hk.
Qed.

Lemma license_position_ok s i l id :
  NoDup (map ls_license_id (ds_licenses s)) -> ds_licenses s !! i = Some l -> ls_license_id l = hex_encode id ->
  license_position s id = Some i.
Proof.
  unfold license_position. intros Hn Hl Hid. destruct (position _ _) as [j|] eqn:E.
  - apply position_Some in E as (l' & Hl' & Hb). apply bool_decide_eq_true in Hb. f_equal.
    eapply NoDup_lookup; [exact Hn| |]; rewrite list_lookup_fmap, ?Hl', ?Hl; cbn; [by rewrite Hb, <- Hid|done].
  - rewrite position_None in E. specialize (E l (list_elem_of_lookup_2 _ _ _ Hl)). by apply bool_decide_eq_false in E.
Qed.

Lemma checked_prevouts s selected prevouts :
  wallet_ready s -> listed selected prevouts ->
  Forall (fun u => u ∈ ds_utxos s /\ spendable_at_height u (ds_height s + 1) = true /\
    utxo_key_of u ∉ mempool_reserved_inputs s) selected ->
  fold_result (fun _ p => check_prevout s (ds_height s + 1) p) tt prevouts = Ok tt.
Proof.
  intros Hw Hl. induction Hl as [|u p us ps (H1 & H2 & H3 & H4 & H5 & H6)%coin_prevout _ IH]; intros HF; [done|].
  apply Forall_cons in HF as [(Hin & Hs & Hr) HF]. cbn [fold_result]. unfold check_prevout.
  pose proof (wr_coins _ Hw) as Hc. rewrite Forall_forall in Hc. destruct (Hc u Hin) as [Hcan _].
  rewrite (canonical_txid_encode _ _ Hcan H2), H3. change (us_txid u, us_output_index u) with (utxo_key_of u).
  rewrite bool_decide_eq_false_2 by done. rewrite (find_utxo_member _ _ (wr_keys _ Hw) Hin). cbn [ok_or].
  rewrite Hs, H4, H5, !Z.eqb_refl, H6, (proj2 (bytes_eqb_eq _ _)) by done. cbn [negb orb]. by apply IH.
Qed.

Lemma submit_form s from to amount r source target destination selected change sk bs :
  offline_ready s -> is_u64 amount -> (from < 256)%nat -> (to < 256)%nat ->
  made s from to amount r source target destination selected change -> sk_public sk = or_owner_public_key r ->
  submit_offline_spend s bs r
    {| os_network_id := or_network_id r; os_request_hash := offline_request_hash bs;
       os_owner_public_key := or_owner_public_key r;
       os_signatures := map (sign_prevout (TransactionCoreV1_txid (OfflineSpendRequestV1_core r)) sk) (imap pair (or_prevouts r)) |}
  = when_base_paid s r sk "offline spend request became stale because Base Fee rose"
      (fun base => stored_payment (offline_tx r sk) selected (or_fee_strikes r) base from to amount).
Proof.
  intros Hr Ha Hf Ht Hm Hk. destruct (made_coins _ _ _ _ _ _ _ _ _ _ Hr Hm) as [Hcoins _].
  pose proof (made_sums _ _ _ _ _ _ _ _ _ _ (Msg "offline spend input sum overflow"%string)
    (Msg "offline spend output sum overflow"%string) Hr Ha Hm) as (_ & S1 & S2 & S3).
  destruct Hm as [[L1 L2] [A1 A2] Ho [D1 D2] Hc Hl Hout [G1 G2] [I1 I2] (W1 & W2 & _ & W3 & W4 & W5) Hs].
  apply choose_coins_ok in Hc as ([_ _ Hfrom _] & _); [|apply Hr].
  unfold submit_offline_spend. cbn [os_network_id os_request_hash os_owner_public_key os_signatures].
  rewrite Hs, Z.eqb_refl, !(proj2 (bytes_eqb_eq _ _)), length_map, length_imap, Nat.eqb_refl by done. cbn [negb orb].
  rewrite bool_decide_eq_true_2 by (by rewrite (genesis_hex _ G2)). cbn [negb].
  rewrite W2, W3, W4, Z.ltb_irrefl. destruct (Z.ltb_spec (ds_height s + 144) (ds_height s)); [lia|]. cbn [negb andb orb Z.eqb].
  destruct (of_ids _ Hr) as [Hn Hcan]. rewrite Forall_forall in Hcan.
  rewrite (license_position_ok s from source (or_from_license_id r)) by
    (done || (symmetry; apply canonical_txid_encode; [by eapply Hcan, list_elem_of_lookup_2|done])).
  rewrite (license_position_ok s to target (or_to_license_id r)) by
    (done || (symmetry; apply canonical_txid_encode; [by eapply Hcan, list_elem_of_lookup_2|done])).
  cbn [ok_or]. rewrite L1, L2. cbn [ok_or]. rewrite Ho, (proj2 (bytes_eqb_eq _ _)), D1, D2 by done. cbn [negb].
  assert ((match or_outputs r with o :: _ => bytes_eqb (to_payload o) destination | [] => false end) = true) as ->.
  { rewrite Hout. by apply bytes_eqb_eq. }
  assert ((match or_outputs r with [_; c] => negb (bytes_eqb (to_payload c) (address_id (or_owner_public_key r))) | _ => false end)
    = false) as ->.
  { rewrite Hout. unfold payment_outputs. destruct (0 <? change); [|done]. cbn [to_payload]. by rewrite (proj2 (bytes_eqb_eq _ _)). }
  cbn [negb]. rewrite (checked_prevouts s selected); [|apply Hr|done|eapply Forall_impl; [exact Hfrom|]; by intros u (? & _ & _ & ? & ?)].
  match goal with |- context [map_result ?f ?l] => assert (map_result f l = Ok (tx_witnesses (offline_tx r sk))) as -> end.
  { apply (submitted_witnesses r _ _ sk (or_prevouts r) 0); [done|by rewrite Hk]. }
  cbn [tc_outputs OfflineSpendRequestV1_core]. rewrite S1, S2, S3. cbn [ok_or]. rewrite Z.eqb_refl. cbn [negb].
  unfold when_base_paid. change {| tx_core := _; tx_witnesses := tx_witnesses (offline_tx r sk) |} with (offline_tx r sk).
  destruct (required_base_fee _ _) as [base|]; cbn [map_err]; [|done]. destruct (or_fee_strikes r <? base); [done|].
  unfold try_from. destruct (Z.ltb_spec (Z.of_nat from) (2 ^ 8)), (Z.ltb_spec (Z.of_nat to) (2 ^ 8)); try lia. cbn [ok_or].
  unfold stored_payment. cbn [offline_tx tx_core tx_witnesses OfflineSpendRequestV1_core tc_valid_from_epoch tc_expiry_epoch tc_outputs].
  rewrite A2, W3, W4, !Z.mod_small by lia. do 2 f_equal.
  clear -Hl Hcoins. induction Hl as [|u p us ps (_ & H2 & H3 & _)%coin_prevout _ IH]; [done|].
  apply Forall_cons in Hcoins as [(_ & Hcan & _) Hcoins]. cbn [map]. by rewrite IH, (canonical_txid_encode _ _ Hcan H2), H3.
Qed.

(** C18: an air-gapped payment is the online payment: a request made, written,
    signed elsewhere, written and submitted in the same state adds to the
    mempool exactly the transaction that the wallet with the key at hand makes,
    and fails exactly when that fails or is not admitted. *)
Theorem offline_spend_equals_online (s : DevnetState) (from to : nat) (amount : Z) (sk : bytes) request bs
    (txid : string) (destination : bytes32) (expected max_fee : Z) signed signed_bs s' :
  offline_ready s -> is_u64 amount -> (from < 256)%nat -> (to < 256)%nat ->
  create_offline_send_request s from to amount = Ok request ->
  OfflineSpendRequestV1_encode request = Ok bs ->
  offline_sign bs txid destination expected max_fee sk = Ok signed ->
  OfflineSpendSignatureV1_encode signed = Ok signed_bs ->
  offline_submit s bs signed_bs = Ok s' <->
  exists p, create_send_transaction_with_signer s from to amount sk = Ok p /\
    validate_pending_candidate s p false = Ok tt /\ s' = s <| ds_mempool := ds_mempool s ++ [p] |>.
Proof.
  intros Hr Ha Hf Ht Hc He Hs Hse. apply create_made in Hc as (source & target & dest & selected & change & Hm).
  pose proof (made_wf _ _ _ _ _ _ _ _ _ _ Hr Ha Hm) as Hwf.
  pose proof (offline_request_decodes _ _ Hwf (md_static _ _ _ _ _ _ _ _ _ _ Hm) He) as Hd.
  unfold offline_sign in Hs. rewrite Hd, (md_static _ _ _ _ _ _ _ _ _ _ Hm) in Hs.
  destruct (negb (bool_decide _)); [done|]. destruct (negb (match or_outputs request with _ => _ end)); [done|].
  destruct (negb (or_amount_strikes request =? expected)); [done|]. destruct (max_fee <? _); [done|].
  destruct (bytes_eqb (sk_public sk) _) eqn:Hk; cbn [negb] in Hs; [|done]. apply bytes_eqb_eq in Hk. apply Ok_inj in Hs as <-.
  apply offline_signature_decodes in Hse.
  - unfold offline_submit. rewrite Hd, Hse.
    rewrite (submit_form s from to amount request source target dest selected change sk bs Hr Ha Hf Ht Hm Hk).
    rewrite (online_form s from to amount request source target dest selected change sk Hr Ha Hm Hk).
    unfold when_base_paid. destruct (required_base_fee _ _) as [base|]; cbn [map_err]; [|by split; [done|intros (? & ? & _)]].
    destruct (or_fee_strikes request <? base); [by split; [done|intros (? & ? & _)]|]. split.
    + intros H. destruct (validate_pending_candidate _ _ _) as [[]|] eqn:Ev; [|done]. apply Ok_inj in H as <-. by eexists.
    + intros (p & <-%Ok_inj & Hv & ->). by rewrite Hv.
  - destruct Hwf as [(H1 & _ & _ & _ & H5 & _) _]. split; [done|]. cbn [os_request_hash os_owner_public_key os_signatures].
    split; [apply sha256_length|]. split; [done|]. apply Forall_forall. intros x Hx.
    apply list_elem_of_fmap in Hx as ([i p] & -> & _). apply sk_sign_length.
Qed.
End equivalence.
