(* ===== verification/Rpc.v ===== *)
(** Crate [mutiny-node], rpc.rs: the authenticated local RPC server, one request
    per connection, and its client.

    JSON is a value; the parser and the printer of serde_json are parameters.
    The chain state that a request loads and the fate of a save are inputs, the
    state that was saved is an output.  The text of an error is the error
    value.  Sockets, threads and time limits are not modelled. *)

From Stdlib Require Import Strings.Byte Strings.String.
From stdpp Require Import strings pretty.
From S2P Require Import Prelude Crypto Codec Smt State Transaction Protocol ProtocolRules Text Collections Keystore NodeState Economy NodePresence NodeUtxo NodeDividends NodeBootstrap NodeMempool NodeReorg NodeSync WorkerService WorkerRuntime Wallet Offline.

(** ** JSON values

    A number is an unsigned 64-bit integer, or none; a map is the list of its
    entries. *)
Inductive Value :=
| Null
| Bool (b : bool)
| Number (n : option Z)
| Text (s : string)
| Array (items : list Value)
| Object (fields : list (string * Value)).

Definition as_object (v : Value) : option (list (string * Value)) := match v with Object fields => Some fields | _ => None end.
Definition as_u64 (v : Value) : option Z := match v with Number n => n | _ => None end.
Definition as_str (v : Value) : option string := match v with Text s => Some s | _ => None end.
Definition get (key : string) (fields : list (string * Value)) : option Value :=
  option_map snd (List.find (fun kv => bool_decide (fst kv = key)) fields).
Definition u64 (n : Z) : Value := Number (Some n).

Definition RPC_TOKEN_FILE_LEN : nat := 40.
Definition RPC_TOKEN_MAGIC : bytes := ascii_bytes "MUTRPCT1".
Definition RPC_TOKEN_LEN : nat := 32.
Definition RPC_MAX_LINE_BYTES : nat := 65536.
Definition RPC_PROTOCOL : string := "2.0".
Definition BUILD_NAME : string := "Mutiny Protocol V1.0 Build 7.0 Candidate 2".

Record RpcWireRequest := { rq_jsonrpc : string; rq_id : Z; rq_token : string; rq_method : string; rq_params : Value }.
Record RpcWireError := { re_code : Z; re_message : NodeError }.
Record RpcWireResponse := {
  rs_jsonrpc : string; rs_id : Z; rs_result : option Value; rs_error : option RpcWireError }.

Definition RpcWireResponse_ok (id : Z) (result : Value) : RpcWireResponse :=
  {| rs_jsonrpc := RPC_PROTOCOL; rs_id := id; rs_result := Some result; rs_error := None |}.
Definition RpcWireResponse_err (id code : Z) (message : NodeError) : RpcWireResponse :=
  {| rs_jsonrpc := RPC_PROTOCOL; rs_id := id; rs_result := None;
     rs_error := Some {| re_code := code; re_message := message |} |}.

(** ** Tokens *)

Definition encode_token_file (token : bytes) : bytes := RPC_TOKEN_MAGIC ++ token.

Definition decode_token_file (bs : bytes) : node_result bytes :=
  if negb (length bs =? RPC_TOKEN_FILE_LEN)%nat then err "MutinyRpcTokenV1 must be exactly 40 bytes" else
  if negb (bytes_eqb (take 8 bs) RPC_TOKEN_MAGIC) then err "MutinyRpcTokenV1 magic mismatch" else Ok (drop 8 bs).

Definition constant_time_eq (a b : bytes) : bool :=
  fold_left (fun diff '(x, y) => Z.lor diff (Z.lxor (Z_of_byte x) (Z_of_byte y))) (zip a b) 0 =? 0.

Definition parse_wire_token (value : string) : node_result bytes :=
  if negb (String.length value =? RPC_TOKEN_LEN * 2)%nat
     || negb (forallb (fun c => is_ascii_hexdigit (Z.of_N (Ascii.N_of_ascii c))) (list_ascii_of_string value))
  then err "RPC bearer token must be exactly 64 hexadecimal characters"
  else ok_or (Msg "invalid RPC bearer token hex"%string) (hex_decode value).

(** ** Secrets are not parameters *)

Definition forbidden_secret_key (key : string) : bool :=
  let k := string_of_list_ascii (map lower (list_ascii_of_string key)) in
  existsb (str_contains k)
    ["passphrase"; "password"; "secret"; "seed"; "private_key"; "private-key"; "mnemonic"]%string.

Definition forbidden_key_error (key : string) : NodeError :=
  Msg ("RPC parameter key '"%string +:+ key
       +:+ "' is forbidden; wallet secret material is not accepted by Build 5.9 RPC"%string).

Fixpoint reject_secret_params (value : Value) : node_result unit :=
  match value with
  | Object fields =>
      (fix entries (fields : list (string * Value)) : node_result unit :=
         match fields with
         | [] => Ok tt
         | (key, child) :: fields =>
             if forbidden_secret_key key then Err (forbidden_key_error key) else
             let? _ := reject_secret_params child in entries fields
         end) fields
  | Array items =>
      (fix elements (items : list Value) : node_result unit :=
         match items with
         | [] => Ok tt
         | child :: items => let? _ := reject_secret_params child in elements items
         end) items
  | _ => Ok tt
  end.

(** ** Reading a line

    [input] are the bytes that arrive, after which the connection ends or
    fails. *)
Fixpoint read_line (out input : bytes) (fails : bool) : node_result bytes :=
  if (RPC_MAX_LINE_BYTES <? length out)%nat then err "RPC request exceeds 65536 bytes" else
  match input with
  | [] => if fails then err "RPC read failed" else if is_empty out then err "empty RPC request" else Ok out
  | byte :: input =>
      if bool_decide (byte = Byte.x0a) then Ok out
      else if bool_decide (byte = Byte.x0d) then read_line out input fails
      else read_line (out ++ [byte]) input fails
  end.

Definition read_line_bounded : bytes -> bool -> node_result bytes := read_line [].

(** ** Parameters *)

Definition require_empty_params (params : Value) : node_result unit :=
  match params with
  | Null => Ok tt
  | Object [] => Ok tt
  | _ => err "this RPC method takes no parameters"
  end.

Definition optional_u64 (message : string) (fields : list (string * Value)) (key : string) (otherwise : Z) : node_result Z :=
  match get key fields with
  | None => Ok otherwise
  | Some v => ok_or (Msg message) (as_u64 v)
  end.

Definition parse_page_params (params : Value) (max_limit : Z) (extra_keys : list string) : node_result (nat * nat) :=
  let? map := ok_or (Msg "paged RPC params must be an object"%string) (as_object params) in
  let? _ := fold_result (fun _ kv =>
    if bool_decide (fst kv ∈ "offset"%string :: "limit"%string :: extra_keys) then Ok tt
    else Err (Msg ("unexpected RPC parameter '"%string +:+ fst kv +:+ "'"%string))) tt map in
  let? offset := optional_u64 "offset must be a non-negative integer" map "offset" 0 in
  let? limit := optional_u64 "limit must be a positive integer" map "limit" max_limit in
  if (limit =? 0) || (max_limit <? limit) then Err (Msg ("limit must be in 1..="%string +:+ pretty max_limit)) else
  Ok (Z.to_nat offset, Z.to_nat limit).

Definition page_of (items : list Value) (offset limit : nat) : list (string * Value) :=
  [("items"%string, Array (take limit (drop offset items))); ("offset"%string, u64 (Z.of_nat offset));
   ("limit"%string, u64 (Z.of_nat limit)); ("total"%string, u64 (Z.of_nat (length items)))].

Section rpc.
Context {SHA : Sha2} {ED : Ed25519}.

(** ** The methods that read the chain *)

Record balance_sums := { bl_total : Z; bl_spendable : Z; bl_immature : Z; bl_reserved : Z }.

Definition add_strikes (a b : Z) : node_result Z := ok_or (Msg "balance overflow"%string) (checked_add 64 a b).

Definition balance_round (address : bytes32) (reserved : gset outpoint) (candidate_height : Z) (b : balance_sums)
    (u : UtxoState) : node_result balance_sums :=
  let? mine := if negb (us_output_type u =? OUTPUT_PUBKEY_HASH) then Ok false
               else let? payload := decode32 (us_payload u) in Ok (bytes_eqb payload address) in
  if negb mine then Ok b else
  let amount := us_amount_strikes u in
  let? total := add_strikes (bl_total b) amount in
  if bool_decide (utxo_key_of u ∈ reserved) then
    let? r := add_strikes (bl_reserved b) amount in
    Ok {| bl_total := total; bl_spendable := bl_spendable b; bl_immature := bl_immature b; bl_reserved := r |}
  else if spendable_at_height u candidate_height then
    let? s := add_strikes (bl_spendable b) amount in
    Ok {| bl_total := total; bl_spendable := s; bl_immature := bl_immature b; bl_reserved := bl_reserved b |}
  else
    let? i := add_strikes (bl_immature b) amount in
    Ok {| bl_total := total; bl_spendable := bl_spendable b; bl_immature := i; bl_reserved := bl_reserved b |}.

Definition license_balance (state : DevnetState) (l : LicenseState) : node_result balance_sums :=
  let? address := decode32 (ls_payment_address_id l) in
  fold_result (balance_round address (mempool_reserved_inputs state) (ds_height state + 1))
    {| bl_total := 0; bl_spendable := 0; bl_immature := 0; bl_reserved := 0 |} (ds_utxos state).

Definition balance_row (l : LicenseState) (b : balance_sums) : Value :=
  Object [("license"%string, u64 (ls_index l + 1)); ("license_id"%string, Text (ls_license_id l));
          ("total_strikes"%string, u64 (bl_total b)); ("spendable_strikes"%string, u64 (bl_spendable b));
          ("immature_strikes"%string, u64 (bl_immature b)); ("reserved_strikes"%string, u64 (bl_reserved b))].

Definition rpc_balances (state : DevnetState) (params : Value) : node_result Value :=
  let? (offset, limit) := parse_page_params params 64 [] in
  let? rows := map_result (fun l => let? b := license_balance state l in Ok (balance_row l b)) (ds_licenses state) in
  let? total := treasury_total (ds_utxos state) in
  let? treasury := treasury_state state (ds_utxos state) in
  Ok (Object (page_of rows offset limit
    ++ [("treasury_total_strikes"%string, u64 total);
        ("treasury_available_strikes"%string, u64 (ts_available_strikes treasury));
        ("treasury_reserved_strikes"%string, u64 (ts_reserved_dividend_strikes treasury));
        ("issued_strikes"%string, u64 (ds_total_issued_strikes state))])).

Definition utxo_row (candidate_height : Z) (u : UtxoState) : Value :=
  Object [("txid"%string, Text (us_txid u)); ("output_index"%string, u64 (us_output_index u));
          ("amount_strikes"%string, u64 (us_amount_strikes u)); ("output_type"%string, u64 (us_output_type u));
          ("creation_height"%string, u64 (us_creation_height u)); ("creation_epoch"%string, u64 (us_creation_epoch u));
          ("coinbase"%string, Bool (us_coinbase u));
          ("spendable_next_height"%string, Bool (spendable_at_height u candidate_height))].

Definition utxo_rows (candidate_height : Z) (filter_address : option bytes32) (rows : list Value) (u : UtxoState)
    : node_result (list Value) :=
  let? shown :=
    match filter_address with
    | None => Ok true
    | Some addr => if negb (us_output_type u =? OUTPUT_PUBKEY_HASH) then Ok false
                   else let? payload := decode32 (us_payload u) in Ok (bytes_eqb payload addr)
    end in
  if shown then Ok (rows ++ [utxo_row candidate_height u]) else Ok rows.

Definition rpc_utxos (state : DevnetState) (params : Value) : node_result Value :=
  let? (offset, limit) := parse_page_params params 128 ["license"%string] in
  let? map := ok_or (Msg "wallet.utxos params must be an object"%string) (as_object params) in
  let? license :=
    match get "license" map with
    | None | Some Null => Ok None
    | Some v =>
        let? n := ok_or (Msg "wallet.utxos license must be an integer"%string) (as_u64 v) in
        if (n =? 0) || (Z.of_nat (length (ds_licenses state)) <? n)
        then err "wallet.utxos license number out of range" else Ok (Some (Z.to_nat (n - 1)))
    end in
  let? filter_address :=
    match license with
    | None => Ok None
    | Some i => let? l := ok_or (Msg "wallet.utxos license number out of range"%string) (ds_licenses state !! i) in
                let? address := decode32 (ls_payment_address_id l) in Ok (Some address)
    end in
  let? rows := fold_result (utxo_rows (ds_height state + 1) filter_address) [] (ds_utxos state) in
  Ok (Object (page_of rows offset limit)).

Definition license_row (l : LicenseState) : Value :=
  Object [("number"%string, u64 (ls_index l + 1)); ("license_id"%string, Text (ls_license_id l));
          ("status"%string, u64 (ls_status l)); ("purchase_method"%string, u64 (ls_purchase_method l));
          ("owner_public_key"%string, Text (ls_owner_public_key l)); ("mining_public_key"%string, Text (ls_mining_public_key l));
          ("owner_key_sequence"%string, u64 (ls_owner_key_sequence l));
          ("mining_key_sequence"%string, u64 (ls_mining_key_sequence l));
          ("activation_epoch"%string, u64 (ls_activation_epoch l)); ("strikes"%string, u64 (ls_strike_weight l));
          ("suspended_until_epoch"%string, u64 (ls_suspended_until_epoch l));
          ("revocation_epoch"%string, u64 (ls_revocation_epoch l))].

Definition rpc_licenses (state : DevnetState) (params : Value) : node_result Value :=
  let? (offset, limit) := parse_page_params params 64 [] in
  Ok (Object (page_of (map license_row (ds_licenses state)) offset limit)).

(** [from_license + 1] is a [u8]; it wraps in a release build. *)
Definition mempool_row (tx : PendingTxState) : Value :=
  Object [("txid"%string, Text (pd_txid tx)); ("wtxid"%string, Text (pd_wtxid tx));
          ("from_license"%string, u64 ((pd_from_license tx + 1) mod 2 ^ 8));
          ("to_license"%string, u64 ((pd_to_license tx + 1) mod 2 ^ 8));
          ("amount_strikes"%string, u64 (pd_amount_strikes tx)); ("fee_strikes"%string, u64 (pd_fee_strikes tx));
          ("base_fee_strikes"%string, u64 (pd_base_fee_strikes tx));
          ("inputs"%string, u64 (Z.of_nat (length (pd_inputs tx))))].

Definition rpc_mempool (state : DevnetState) (params : Value) : node_result Value :=
  let? (offset, limit) := parse_page_params params 128 [] in
  Ok (Object (page_of (map mempool_row (ds_mempool state)) offset limit
    ++ [("pending_protocol_operations"%string, u64 (Z.of_nat (length (ds_pending_protocol_operations state))))])).

Definition rpc_version (state : DevnetState) : Value :=
  Object [("build"%string, Text BUILD_NAME); ("motto"%string, Text MOTTO);
          ("network_id"%string, Text ("0x"%string +:+ hex_encode (be_bytes 4 DEVNET_NETWORK_ID)));
          ("genesis_id"%string, Text (ds_genesis_hash state)); ("rpc_transport"%string, Text "json-rpc-2.0-jsonl");
          ("loopback_only"%string, Bool true)].

Definition rpc_status (state : DevnetState) : node_result Value :=
  let canonical_state_root := match last (ds_blocks state) with
                              | Some b => bk_state_root b | None => ds_current_state_root state end in
  let next_epoch := next_mineable_epoch state in
  let? work := chainwork_hex state in
  Ok (Object [("height"%string, u64 (ds_height state)); ("tip_epoch"%string, u64 (ds_tip_epoch state));
              ("next_mineable_epoch"%string, u64 next_epoch);
              ("eligible_licenses"%string, u64 (eligible_license_count state next_epoch));
              ("licenses_total"%string, u64 (Z.of_nat (length (ds_licenses state)))); ("tip"%string, Text (ds_tip_hash state));
              ("canonical_state_root"%string, Text canonical_state_root);
              ("current_state_root"%string, Text (ds_current_state_root state)); ("chainwork"%string, Text work);
              ("mempool_count"%string, u64 (Z.of_nat (length (ds_mempool state))));
              ("pending_protocol_operations"%string, u64 (Z.of_nat (length (ds_pending_protocol_operations state))))]).

(** ** Submitting an air-gapped payment *)

Definition submitted_row (pending : PendingTxState) : Value :=
  Object [("txid"%string, Text (pd_txid pending)); ("wtxid"%string, Text (pd_wtxid pending));
          ("amount_strikes"%string, u64 (pd_amount_strikes pending)); ("fee_strikes"%string, u64 (pd_fee_strikes pending));
          ("base_fee_strikes"%string, u64 (pd_base_fee_strikes pending)); ("status"%string, Text "MEMPOOL");
          ("online_wallet_secret_loaded"%string, Bool false)].

(** The two files of [offline.submit]. *)
Definition offline_artifacts (params : Value) : node_result (bytes * bytes) :=
  let? map := ok_or (Msg "offline.submit params must be an object"%string) (as_object params) in
  if negb (length map =? 2)%nat || bool_decide (get "request_hex" map = None) || bool_decide (get "signed_hex" map = None)
  then err "offline.submit requires exactly request_hex and signed_hex" else
  let? request_hex := ok_or (Msg "request_hex must be a string"%string) (v ← get "request_hex" map; as_str v) in
  let? signed_hex := ok_or (Msg "signed_hex must be a string"%string) (v ← get "signed_hex" map; as_str v) in
  if (16384 <? String.length request_hex)%nat || (16384 <? String.length signed_hex)%nat
  then err "offline.submit artifact hex exceeds Build 5.9 RPC bounds" else
  let? request_bytes := ok_or (Msg "request_hex is invalid hex"%string) (hex_decode request_hex) in
  let? signed_bytes := ok_or (Msg "signed_hex is invalid hex"%string) (hex_decode signed_hex) in
  Ok (request_bytes, signed_bytes).

(** ** The server *)

(** What a request finds: the state that [load_state] gives, and whether a save
    succeeds. *)
Record RpcWorld := { rw_loaded : node_result DevnetState; rw_save : DevnetState -> node_result unit }.

(** The second component is the state that was saved, if any. *)
Definition rpc_offline_submit (w : RpcWorld) (params : Value) : node_result (Value * option DevnetState) :=
  let? (request_bytes, signed_bytes) := offline_artifacts params in
  let? request := OfflineSpendRequestV1_decode request_bytes in
  let? signed := OfflineSpendSignatureV1_decode signed_bytes in
  let? state := rw_loaded w in
  let? pending := submit_offline_spend state request_bytes request signed in
  let? _ := validate_pending_candidate state pending false in
  let state := state <| ds_mempool := ds_mempool state ++ [pending] |> in
  let? _ := rw_save w state in
  Ok (submitted_row pending, Some state).

Definition reading (r : node_result Value) : node_result (Value * option DevnetState) := let? v := r in Ok (v, None).

Definition dispatch (w : RpcWorld) (method : string) (params : Value) : node_result (Value * option DevnetState) :=
  if bool_decide (method = "system.version"%string) then
    reading (let? _ := require_empty_params params in let? state := rw_loaded w in Ok (rpc_version state))
  else if bool_decide (method = "chain.status"%string) then
    reading (let? _ := require_empty_params params in let? state := rw_loaded w in rpc_status state)
  else if bool_decide (method = "wallet.balances"%string) then
    reading (let? state := rw_loaded w in rpc_balances state params)
  else if bool_decide (method = "wallet.utxos"%string) then
    reading (let? state := rw_loaded w in rpc_utxos state params)
  else if bool_decide (method = "licenses.list"%string) then
    reading (let? state := rw_loaded w in rpc_licenses state params)
  else if bool_decide (method = "mempool.list"%string) then
    reading (let? state := rw_loaded w in rpc_mempool state params)
  else if bool_decide (method = "offline.submit"%string) then rpc_offline_submit w params
  else Err (Msg ("RPC method not found: "%string +:+ method)).

Definition handle_line (parse : bytes -> node_result RpcWireRequest) (w : RpcWorld) (expected_token line : bytes)
    : RpcWireResponse * option DevnetState :=
  match parse line with
  | Err e => (RpcWireResponse_err 0 (-32700) e, None)
  | Ok parsed =>
      let refuse code e := (RpcWireResponse_err (rq_id parsed) code e, None) in
      if negb (bool_decide (rq_jsonrpc parsed = RPC_PROTOCOL))
      then refuse (-32600) (Msg "jsonrpc must be exactly '2.0'"%string) else
      if bool_decide (rq_method parsed = ""%string) || (64 <? String.length (rq_method parsed))%nat
      then refuse (-32600) (Msg "invalid RPC method length"%string) else
      match parse_wire_token (rq_token parsed) with
      | Err e => refuse (-32001) e
      | Ok supplied =>
          if negb (constant_time_eq expected_token supplied)
          then refuse (-32001) (Msg "RPC authentication failed"%string) else
          match reject_secret_params (rq_params parsed) with
          | Err e => refuse (-32602) e
          | Ok _ =>
              match dispatch w (rq_method parsed) (rq_params parsed) with
              | Ok (result, saved) => (RpcWireResponse_ok (rq_id parsed) result, saved)
              | Err e => refuse (-32000) e
              end
          end
      end
  end.

(** One connection: the bytes that arrive, and the response. *)
Definition serve_connection (parse : bytes -> node_result RpcWireRequest) (w : RpcWorld) (token input : bytes)
    (fails : bool) : RpcWireResponse * option DevnetState :=
  match read_line_bounded input fails with
  | Ok line => handle_line parse w token line
  | Err e => (RpcWireResponse_err 0 (-32700) e, None)
  end.

(** The server has no lock: each connection has a thread of its own, and
    [rpc_offline_submit] first reads the state and later writes it.  [Loads i]
    is the first half of connection [i] and [Saves i] the second. *)
Inductive rpc_event := Loads (i : nat) | Saves (i : nat).

Record RpcServer := { rv_disk : DevnetState; rv_working : gmap nat (Value * DevnetState); rv_answered : gmap nat Value }.

Definition submit_loaded (disk : DevnetState) (params : Value) : node_result (Value * option DevnetState) :=
  rpc_offline_submit {| rw_loaded := Ok disk; rw_save := fun _ => Ok tt |} params.

Definition server_step (params : nat -> Value) (v : RpcServer) (e : rpc_event) : RpcServer :=
  match e with
  | Loads i =>
      match submit_loaded (rv_disk v) (params i) with
      | Ok (row, Some s) => {| rv_disk := rv_disk v; rv_working := <[i := (row, s)]> (rv_working v);
                               rv_answered := rv_answered v |}
      | _ => v
      end
  | Saves i =>
      match rv_working v !! i with
      | Some (row, s) => {| rv_disk := s; rv_working := delete i (rv_working v);
                            rv_answered := <[i := row]> (rv_answered v) |}
      | None => v
      end
  end.

Definition server_run (params : nat -> Value) (disk : DevnetState) (events : list rpc_event) : RpcServer :=
  fold_left (server_step params) events {| rv_disk := disk; rv_working := ∅; rv_answered := ∅ |}.

(** ** The client *)

Definition method_char (c : Ascii.ascii) : bool :=
  let n := Z.of_N (Ascii.N_of_ascii c) in
  ((48 <=? n) && (n <=? 57)) || ((65 <=? n) && (n <=? 90)) || ((97 <=? n) && (n <=? 122)) || (n =? 46) || (n =? 95).

(** The request that [call] writes. *)
Definition call_request (token_file : node_result bytes) (method : string) (params : node_result Value)
    : node_result RpcWireRequest :=
  if bool_decide (method = ""%string) || (64 <? String.length method)%nat
     || negb (forallb method_char (list_ascii_of_string method))
  then err "RPC method must be 1..64 ASCII alphanumeric/dot/underscore characters" else
  let? bs := token_file in
  let? token := decode_token_file bs in
  let? params := params in
  let? _ := reject_secret_params params in
  Ok {| rq_jsonrpc := RPC_PROTOCOL; rq_id := 1; rq_token := hex_encode token; rq_method := method; rq_params := params |}.

(** What [call] makes of the response it reads. *)
Definition call_result (parse : bytes -> node_result RpcWireResponse) (input : bytes) (fails : bool) : node_result Value :=
  let? line := read_line_bounded input fails in
  let? response := parse line in
  if negb (bool_decide (rs_jsonrpc response = RPC_PROTOCOL)) || negb (rs_id response =? 1)
  then err "RPC response protocol/id mismatch" else
  match rs_error response with
  | Some e => Err (re_message e)
  | None => ok_or (Msg "RPC response contained neither result nor error"%string) (rs_result response)
  end.
End rpc.

(** ** No secret at any depth *)

(** [key_of key v]: some object inside [v] has the key [key]. *)
Inductive key_of (key : string) : Value -> Prop :=
| key_here fields child : In (key, child) fields -> key_of key (Object fields)
| key_field fields k child : In (k, child) fields -> key_of key child -> key_of key (Object fields)
| key_item items child : In child items -> key_of key child -> key_of key (Array items).

(** Induction through the lists of a value. *)
Section value_induction.
Context (P : Value -> Prop) (PNull : P Null) (PBool : forall b, P (Bool b)) (PNumber : forall n, P (Number n))
  (PText : forall s, P (Text s)) (PArray : forall items, Forall P items -> P (Array items))
  (PObject : forall fields, Forall (fun kv => P (snd kv)) fields -> P (Object fields)).

Fixpoint Value_nested_ind (v : Value) : P v :=
  match v with
  | Null => PNull
  | Bool b => PBool b
  | Number n => PNumber n
  | Text s => PText s
  | Array items =>
      PArray items ((fix all (items : list Value) : Forall P items :=
        match items with
        | [] => Forall_nil_2 _
        | v :: items => Forall_cons_2 _ _ _ (Value_nested_ind v) (all items)
        end) items)
  | Object fields =>
      PObject fields ((fix all (fields : list (string * Value)) : Forall (fun kv => P (snd kv)) fields :=
        match fields with
        | [] => Forall_nil_2 _
        | kv :: fields => Forall_cons_2 _ _ _ (Value_nested_ind (snd kv)) (all fields)
        end) fields)
  end.
End value_induction.

Lemma reject_object fields :
  reject_secret_params (Object fields) = Ok tt <->
  Forall (fun kv => forbidden_secret_key (fst kv) = false /\ reject_secret_params (snd kv) = Ok tt) fields.
Proof.
  induction fields as [|[k v] fields IH]; [split; [constructor|reflexivity]|].
  rewrite Forall_cons, <- IH. cbn [fst snd].
  change (reject_secret_params (Object ((k, v) :: fields))) with
    (if forbidden_secret_key k then Err (forbidden_key_error k) else
     let? _ := reject_secret_params v in reject_secret_params (Object fields)).
  destruct (forbidden_secret_key k), (reject_secret_params v) as [[]|]; naive_solver.
Qed.

Lemma reject_array items :
  reject_secret_params (Array items) = Ok tt <-> Forall (fun v => reject_secret_params v = Ok tt) items.
Proof.
  induction items as [|v items IH]; [split; [constructor|reflexivity]|].
  rewrite Forall_cons, <- IH.
  change (reject_secret_params (Array (v :: items))) with
    (let? _ := reject_secret_params v in reject_secret_params (Array items)).
  destruct (reject_secret_params v) as [[]|]; naive_solver.
Qed.

(** The parameters pass exactly when no key at any depth is a secret's. *)
Lemma reject_secret_params_iff v :
  reject_secret_params v = Ok tt <-> forall key, key_of key v -> forbidden_secret_key key = false.
Proof.
  split.
  - intros H key Hk. induction Hk as [fields c Hc|fields k c Hc _ IH|items c Hc _ IH].
    + apply reject_object in H. rewrite List.Forall_forall in H. exact (proj1 (H _ Hc)).
    + apply reject_object in H. rewrite List.Forall_forall in H. exact (IH (proj2 (H _ Hc))).
    + apply reject_array in H. rewrite List.Forall_forall in H. exact (IH (H _ Hc)).
  - induction v as [| | | |items IH|fields IH] using Value_nested_ind; intros H; try reflexivity.
    + apply reject_array. rewrite List.Forall_forall in IH |- *. intros c Hc.
      apply (IH c Hc). intros key Hk. apply H. by eapply key_item.
    + apply reject_object. rewrite List.Forall_forall in IH |- *. intros [k c] Hc. split.
      * apply H. by eapply key_here.
      * apply (IH _ Hc). intros key Hk. apply H. by eapply key_field.
Qed.

(** ** Tokens *)

Lemma hex_decode_two a b s bs :
  hex_decode (String.String a (String.String b s)) = Some bs -> exists x r, bs = x :: r /\ hex_decode s = Some r.
Proof.
  cbn [hex_decode]. destruct (nibble a), (nibble b), (hex_decode s) as [r|]; try discriminate.
  intros <-%Some_inj. eauto.
Qed.

Lemma hex_decode_length s bs : hex_decode s = Some bs -> String.length s = (2 * length bs)%nat.
Proof.
  revert s. induction bs as [|x bs IH]; intros [|a [|b s]] H; try discriminate H; try reflexivity.
  - by apply hex_decode_two in H as (? & ? & [=] & _).
  - apply hex_decode_two in H as (? & r & [= -> ->] & H). cbn [String.length length]. rewrite (IH _ H). lia.
Qed.

Lemma constant_time_eq_spec a b : length a = length b -> constant_time_eq a b = true <-> a = b.
Proof.
  intros Hl. rewrite <- ct_equal_eq. unfold constant_time_eq, ct_equal. by rewrite Hl, Nat.eqb_refl.
Qed.

Lemma parse_wire_token_ok value token :
  parse_wire_token value = Ok token -> hex_decode value = Some token /\ length token = RPC_TOKEN_LEN.
Proof.
  unfold parse_wire_token. intros H. inv_ok. bool_to_prop. split; [done|].
  match goal with E : hex_decode _ = Some _ |- _ => apply hex_decode_length in E end.
  unfold RPC_TOKEN_LEN in *. lia.
Qed.

Lemma hex_char_digit n : 0 <= n < 16 -> is_ascii_hexdigit (Z.of_N (Ascii.N_of_ascii (hex_char n))) = true.
Proof.
  intros Hn.
  assert (forallb (fun i => is_ascii_hexdigit (Z.of_N (Ascii.N_of_ascii (hex_char (Z.of_nat i))))) (seq 0 16) = true)
    as H by reflexivity.
  rewrite forallb_forall in H. specialize (H (Z.to_nat n)). rewrite Z2Nat.id in H by lia. apply H, in_seq. lia.
Qed.

Lemma parse_wire_token_encode token :
  length token = RPC_TOKEN_LEN -> parse_wire_token (hex_encode token) = Ok token.
Proof.
  intros Hl. unfold parse_wire_token. rewrite hex_decode_encode.
  rewrite (hex_decode_length _ _ (hex_decode_encode token)), Hl.
  replace (forallb _ _) with true; [reflexivity|]. symmetry. clear Hl.
  induction token as [|x token IH]; [reflexivity|].
  cbn [hex_encode list_ascii_of_string forallb]. rewrite IH.
  pose proof (Z_of_byte_range x). pose proof (Z.mod_pos_bound (Z_of_byte x) 16 ltac:(lia)).
  rewrite !hex_char_digit; [done|lia|]. split; [apply Z.div_pos|apply Z.div_lt_upper_bound]; lia.
Qed.

Lemma token_file_roundtrip token :
  length token = RPC_TOKEN_LEN -> decode_token_file (encode_token_file token) = Ok token.
Proof.
  intros Hl. unfold decode_token_file, encode_token_file. rewrite length_app, Hl. cbn [length Nat.eqb negb].
  by rewrite take_app_length', drop_app_length'.
Qed.

Section rpc_facts.
Context {SHA : Sha2} {ED : Ed25519}.

(** ** Balances add up *)

Lemma license_balance_adds_up s l b :
  license_balance s l = Ok b -> bl_total b = bl_spendable b + bl_immature b + bl_reserved b.
Proof.
  unfold license_balance. intros H. destruct (decode32 _) as [address|]; [|discriminate H].
  revert H. apply (fold_result_ind _ (fun b => bl_total b = bl_spendable b + bl_immature b + bl_reserved b)); [|done].
  clear b. intros b u b' _ Hb H. unfold balance_round, add_strikes, checked_add in H.
  repeat (case_match; cbn in H; simplify_eq/=; try done); lia.
Qed.

(** ** What a request can do *)

(** The state that is written is the state that was read with the payment of
    the two files accepted into its mempool. *)
Lemma rpc_offline_submit_ok w params result saved :
  rpc_offline_submit w params = Ok (result, saved) ->
  exists s s' request_bytes signed_bytes,
    rw_loaded w = Ok s /\ offline_artifacts params = Ok (request_bytes, signed_bytes) /\
    offline_submit s request_bytes signed_bytes = Ok s' /\ rw_save w s' = Ok tt /\ saved = Some s'.
Proof.
  unfold rpc_offline_submit. intros H.
  destruct (offline_artifacts params) as [[rb sb]|] eqn:Ea; [|discriminate H].
  destruct (OfflineSpendRequestV1_decode rb) as [r|] eqn:Er; [|discriminate H].
  destruct (OfflineSpendSignatureV1_decode sb) as [g|] eqn:Eg; [|discriminate H].
  destruct (rw_loaded w) as [s|] eqn:El; [|discriminate H].
  destruct (submit_offline_spend s rb r g) as [p|] eqn:Ep; [|discriminate H].
  destruct (validate_pending_candidate s p false) as [[]|] eqn:Ev; [|discriminate H].
  destruct (rw_save w _) as [[]|] eqn:Es; [|discriminate H].
  apply Ok_inj, pair_inj in H as [_ <-]. exists s. eexists. exists rb, sb.
  repeat split; try eassumption. unfold offline_submit. by rewrite Er, Eg, Ep, Ev.
Qed.

Lemma reading_ok r result saved : reading r = Ok (result, saved) -> saved = None.
Proof. unfold reading. intros H. by inv_ok. Qed.

Lemma dispatch_saves w method params result s' :
  dispatch w method params = Ok (result, Some s') ->
  method = "offline.submit"%string /\ rpc_offline_submit w params = Ok (result, Some s').
Proof.
  unfold dispatch. intros H. do 6 (destruct (bool_decide _); [apply reading_ok in H; discriminate H|]).
  destruct (bool_decide _) eqn:Hm; [|discriminate H]. apply bool_decide_eq_true in Hm. by split.
Qed.

(** A request that is answered or writes has passed every guard. *)
Lemma handle_line_passed parse w token line response saved :
  handle_line parse w token line = (response, saved) -> rs_result response <> None \/ saved <> None ->
  exists rq result, parse line = Ok rq /\ rq_jsonrpc rq = RPC_PROTOCOL /\
    (exists supplied, parse_wire_token (rq_token rq) = Ok supplied /\ constant_time_eq token supplied = true) /\
    reject_secret_params (rq_params rq) = Ok tt /\
    dispatch w (rq_method rq) (rq_params rq) = Ok (result, saved) /\ response = RpcWireResponse_ok (rq_id rq) result.
Proof.
  unfold handle_line. intros H Hsome.
  assert (forall id code e, (RpcWireResponse_err id code e, None) = (response, saved) -> False) as Herr.
  { intros ? ? ? [= <- <-]. by destruct Hsome as [Hs|Hs]; apply Hs. }
  destruct (parse line) as [rq|]; [|by apply Herr in H]. cbv zeta in H.
  destruct (negb (bool_decide (rq_jsonrpc rq = RPC_PROTOCOL))) eqn:Ej; [by apply Herr in H|].
  destruct (bool_decide (rq_method rq = ""%string) || _) eqn:Em; [by apply Herr in H|].
  destruct (parse_wire_token (rq_token rq)) as [t|] eqn:Et; [|by apply Herr in H].
  destruct (negb (constant_time_eq token t)) eqn:Ec; [by apply Herr in H|].
  destruct (reject_secret_params (rq_params rq)) as [[]|] eqn:Es; [|by apply Herr in H].
  destruct (dispatch w _ _) as [[result saved']|] eqn:Ed; [|by apply Herr in H].
  apply pair_inj in H as [<- <-]. apply negb_false_iff, bool_decide_eq_true in Ej. apply negb_false_iff in Ec.
  exists rq, result. split_and!; eauto.
Qed.

(** C20: the RPC server gives a result or writes a state only to a version 2.0 request that carries
    exactly the token of the server and has no key of a wallet secret at any depth of its
    parameters; the state that is written is that of an accepted air-gapped payment submitted by
    [offline.submit] on the state that was loaded; and the answer to a request with another token
    does not depend on the state of the node. *)
Theorem rpc_requests_guarded (parse : bytes -> node_result RpcWireRequest) (w : RpcWorld) (token line : bytes) :
  length token = RPC_TOKEN_LEN ->
  (forall response saved, handle_line parse w token line = (response, saved) ->
     rs_result response <> None \/ saved <> None ->
     exists rq, parse line = Ok rq /\ rq_jsonrpc rq = RPC_PROTOCOL /\ hex_decode (rq_token rq) = Some token /\
       (forall key, key_of key (rq_params rq) -> forbidden_secret_key key = false) /\
       rs_error response = None /\ rs_id response = rq_id rq /\
       forall s', saved = Some s' ->
         rq_method rq = "offline.submit"%string /\
         exists s request_bytes signed_bytes, rw_loaded w = Ok s /\
           offline_artifacts (rq_params rq) = Ok (request_bytes, signed_bytes) /\
           offline_submit s request_bytes signed_bytes = Ok s' /\ rw_save w s' = Ok tt) /\
  (forall rq w', parse line = Ok rq -> hex_decode (rq_token rq) <> Some token ->
     handle_line parse w' token line = handle_line parse w token line).
Proof.
  intros Hl. split.
  - intros response saved H Hsome.
    destruct (handle_line_passed _ _ _ _ _ _ H Hsome) as (rq & result & Hp & Hj & (t & Ht & Hc) & Hs & Hd & ->).
    apply parse_wire_token_ok in Ht as [Ht Hlt]. apply constant_time_eq_spec in Hc as ->; [|congruence].
    exists rq. split_and!; try done; [by apply reject_secret_params_iff|].
    intros s' ->. apply dispatch_saves in Hd as [Hm Ho]. split; [done|].
    apply rpc_offline_submit_ok in Ho as (s & s'' & rb & sb & ? & ? & ? & ? & [= ->]). eauto 10.
  - intros rq w' Hp Ht. unfold handle_line. rewrite Hp. cbv zeta.
    destruct (negb (bool_decide (rq_jsonrpc rq = RPC_PROTOCOL))); [done|].
    destruct (bool_decide (rq_method rq = ""%string) || _); [done|].
    destruct (parse_wire_token (rq_token rq)) as [t|] eqn:Et; [|done].
    apply parse_wire_token_ok in Et as [Et Hlt].
    destruct (constant_time_eq token t) eqn:Ec; [|done].
    apply constant_time_eq_spec in Ec as ->; [done|congruence].
Qed.

(** The client's requests get to the method they name. *)
Lemma call_is_dispatched parse w token line method params rq :
  length token = RPC_TOKEN_LEN -> parse line = Ok rq ->
  call_request (Ok (encode_token_file token)) method (Ok params) = Ok rq ->
  handle_line parse w token line =
    match dispatch w method params with
    | Ok (result, saved) => (RpcWireResponse_ok 1 result, saved)
    | Err e => (RpcWireResponse_err 1 (-32000) e, None)
    end.
Proof.
  intros Hl Hp H. unfold call_request in H. rewrite token_file_roundtrip in H by done.
  destruct (bool_decide (method = ""%string) || _ || _) eqn:Em; [discriminate H|].
  destruct (reject_secret_params params) as [[]|] eqn:Es; [|discriminate H]. apply Ok_inj in H as <-.
  apply orb_false_iff in Em as [Em _]. unfold handle_line. rewrite Hp.
  cbn [rq_jsonrpc rq_id rq_token rq_method rq_params]. rewrite bool_decide_eq_true_2 by done. cbn [negb].
  rewrite Em, parse_wire_token_encode by done.
  rewrite (proj2 (constant_time_eq_spec token token eq_refl) eq_refl). cbn [negb]. by rewrite Es.
Qed.

(** Without a lock a payment can be acknowledged and lost: two connections that
    both read before they write are both answered, and only the second payment is
    in the mempool. *)
Lemma concurrent_submissions_lost params disk row0 s0 row1 s1 :
  submit_loaded disk (params 0%nat) = Ok (row0, Some s0) -> submit_loaded disk (params 1%nat) = Ok (row1, Some s1) ->
  let v := server_run params disk [Loads 0; Loads 1; Saves 0; Saves 1]%nat in
  rv_answered v !! 0%nat = Some row0 /\ rv_answered v !! 1%nat = Some row1 /\ rv_disk v = s1 /\
  length (ds_mempool (rv_disk v)) = S (length (ds_mempool disk)).
Proof.
  intros H0 H1. assert (length (ds_mempool s1) = S (length (ds_mempool disk))) as Hlen.
  { apply rpc_offline_submit_ok in H1 as (s & s' & rb & sb & [= <-] & _ & Hs & _ & [= <-]).
    unfold offline_submit in Hs. inv_ok. cbn. rewrite length_app. cbn. lia. }
  unfold server_run. cbn [fold_left server_step rv_disk rv_working rv_answered]. rewrite H0.
  cbn [server_step rv_disk rv_working rv_answered]. rewrite H1. cbn [server_step rv_disk rv_working rv_answered].
  rewrite lookup_insert_ne by done. rewrite lookup_insert_eq. cbn [server_step rv_disk rv_working rv_answered].
  rewrite lookup_delete_ne by done. rewrite lookup_insert_eq. cbn [rv_disk rv_answered].
  split_and!; [|by rewrite lookup_insert_eq|done|exact Hlen].
  rewrite lookup_insert_ne by done. by rewrite lookup_insert_eq.
Qed.
End rpc_facts.
