(* ===== verification/WalletFiles.v ===== *)
(** Crate [mutiny-node], the key files of the wallet in main.rs: their names,
    loading a key, and the commands that collect the keys into one backup,
    verify it and restore it into another data directory.

    The directory [secrets] is a disk of [Files] whose paths are file names, in
    bytes; what is not a file is not in it.  The order in which the directory is
    listed and the random suffixes of temporary files are arguments.  A label is
    the bytes of the string.  The texts of errors are shortened. *)

From Stdlib Require Import Strings.Byte Strings.String.
From stdpp Require Import strings.
From S2P Require Import Prelude Crypto Codec Smt State Protocol Collections Files Keystore NodeState.

Section wallet_files.
Context {SHA : Sha2} {ED : Ed25519} {AR : Argon2}.

Local Abbreviation wio := (io bytes).

(** ** Names *)

Definition validate_key_label (label : bytes) : result string unit :=
  if (length label =? 0)%nat || (64 <? length label)%nat then Err "key label must contain 1..64 characters"%string else
  if negb (forallb label_byte_valid label)
  then Err "key label may contain only ASCII letters, digits, '-' and '_'"%string else Ok tt.

Definition msk : bytes := ascii_bytes ".msk".
Definition role_prefix (role : KeyRole) : bytes := ascii_bytes (KeyRole_name role) ++ ascii_bytes "-".
Definition wallet_key_name (role : KeyRole) (label : bytes) : bytes := role_prefix role ++ label ++ msk.

Definition wallet_key_path (role : KeyRole) (label : bytes) : result string bytes :=
  let? _ := validate_key_label label in Ok (wallet_key_name role label).

Definition strip_prefix (prefix s : bytes) : option bytes :=
  if bytes_eqb (take (length prefix) s) prefix then Some (drop (length prefix) s) else None.
Definition strip_suffix (suffix s : bytes) : option bytes :=
  let n := (length s - length suffix)%nat in
  if bytes_eqb (drop n s) suffix then Some (take n s) else None.

Definition name_of_role (name : bytes) (role : KeyRole) : option (KeyRole * bytes) :=
  v ← strip_prefix (role_prefix role) name;
  rest ← strip_suffix msk v;
  if is_ok (validate_key_label rest) then Some (role, rest) else None.

Definition wallet_file_role_and_label (name : bytes) : option (KeyRole * bytes) :=
  match name_of_role name LicenseOwner with
  | Some found => Some found
  | None => name_of_role name LicenseMining
  end.

Definition parse_wallet_key_role (value : string) : result string KeyRole :=
  if bool_decide (value = "owner"%string) then Ok LicenseOwner else
  if bool_decide (value = "mining"%string) then Ok LicenseMining else
  if bool_decide (value = "node"%string) then Err "use node-key-init/node-key-info for the node identity role"%string else
  Err "--role must be owner or mining"%string.

(** ** Passphrases and keys *)

Definition ends_in (b : byte) (bs : bytes) : bool := bool_decide (last bs = Some b).

Definition strip_one_line_ending (bs : bytes) : bytes :=
  if ends_in Byte.x0a bs then
    let bs := removelast bs in
    if ends_in Byte.x0d bs then removelast bs else bs
  else bs.

(** [None]: the file cannot be read. *)
Definition read_passphrase_path (file : option bytes) : result string bytes :=
  let? bs := ok_or "read passphrase file"%string file in
  let bs := strip_one_line_ending bs in
  if (length bs <? 12)%nat
  then Err "passphrase file must contain at least 12 bytes after one trailing line ending is removed"%string else Ok bs.

(** The signing key, which is its seed, from the files [d]. *)
Definition load_wallet_key_for_network (d : disk bytes) (role : KeyRole) (label passphrase : bytes) (network_id : Z)
    : result string bytes32 :=
  let? path := wallet_key_path role label in
  if negb (exists_file d path) then Err "encrypted key label does not exist"%string else
  map_err (fun _ => "load key"%string) (load_file (d !! path) role network_id passphrase).

Definition load_wallet_key (d : disk bytes) (role : KeyRole) (label passphrase : bytes) : result string bytes32 :=
  load_wallet_key_for_network d role label passphrase DEVNET_NETWORK_ID.

Definition load_wallet_public_key (d : disk bytes) (role : KeyRole) (label passphrase : bytes) : result string bytes32 :=
  let? key := load_wallet_key d role label passphrase in Ok (sk_public key).

Definition msg_error (r : result string bytes32) : node_result bytes32 := map_err Msg r.

Definition load_owner_key_for_license (d : disk bytes) (state : DevnetState) (license_index : nat)
    (label passphrase : bytes) : node_result bytes32 :=
  let? license := ok_or (Msg "license number out of range"%string) (ds_licenses state !! license_index) in
  let? key := msg_error (load_wallet_key_for_network d LicenseOwner label passphrase (ds_network_id state)) in
  let? expected := decode32 (ls_owner_public_key license) in
  if negb (bytes_eqb (sk_public key) expected)
  then err "encrypted owner key label does not match the current on-chain owner authority" else Ok key.

Definition load_mining_key_for_license (d : disk bytes) (state : DevnetState) (license_index : nat)
    (label passphrase : bytes) : node_result bytes32 :=
  let? license := ok_or (Msg "license number out of range"%string) (ds_licenses state !! license_index) in
  let? key := msg_error (load_wallet_key_for_network d LicenseMining label passphrase (ds_network_id state)) in
  let? expected := decode32 (ls_mining_public_key license) in
  if negb (bytes_eqb (sk_public key) expected)
  then err "encrypted mining key label does not match the current on-chain mining authority" else Ok key.

(** The licenses, counted from 0, of which the entry is the authority. *)
Definition watch_wallet_matches (state : DevnetState) (entry : WatchWalletEntry) : list nat :=
  let key_hex := hex_encode (ww_public_key entry) in
  map fst (List.filter (fun '(_, license) =>
    match ww_role entry with
    | LicenseOwner => bool_decide (ls_owner_public_key license = key_hex)
    | LicenseMining => bool_decide (ls_mining_public_key license = key_hex)
    | NodeIdentity => false
    end) (imap pair (ds_licenses state))).

(** ** Collecting *)

Definition collected_entry (passphrase : bytes) (role : KeyRole) (label secret_file : bytes)
    : result string WalletBackupEntry :=
  let? metadata := map_err (fun _ => "inspect wallet key"%string) (inspect secret_file) in
  if negb (bool_decide (pm_role metadata = role)) || negb (pm_network_id metadata =? DEVNET_NETWORK_ID)
  then Err "wallet key filename/metadata mismatch"%string else
  let? key := map_err (fun _ => "verify wallet key"%string) (open secret_file role DEVNET_NETWORK_ID passphrase) in
  let public_key := sk_public key in
  if negb (bytes_eqb public_key (pm_public_key metadata)) then Err "wallet key public metadata mismatch"%string else
  Ok {| wb_role := role; wb_label := label; wb_public_key := public_key; wb_secret_file := secret_file |}.

(** The loop over the names of the directory; [touch] is the inspection of the
    directory entry. *)
Fixpoint collect_loop (passphrase : bytes) (names : list bytes) (entries : list WalletBackupEntry)
    : wio (list WalletBackupEntry) :=
  match names with
  | [] => io_ret entries
  | name :: names =>
      let! _ := touch in
      match wallet_file_role_and_label name with
      | None => collect_loop passphrase names entries
      | Some (role, label) =>
          let! secret_file := read_file name in
          let! entry := io_of (collected_entry passphrase role label secret_file) in
          collect_loop passphrase names (entries ++ [entry])
      end
  end.

Definition entry_leb (a b : WalletBackupEntry) : bool :=
  key_leb (entry_key wb_role wb_label a) (entry_key wb_role wb_label b).

(** [listing]: the names of the directory, if there is one. *)
Definition collect_wallet_backup_entries (listing : option (list bytes)) (passphrase : bytes)
    : wio (list WalletBackupEntry) :=
  match listing with
  | None => io_ret []
  | Some names =>
      let! _ := touch in
      let! entries := collect_loop passphrase names [] in
      io_ret (sort_by entry_leb entries)
  end.

(** The command [wallet-backup-create], up to the writing of its output. *)
Definition wallet_backup_create (listing : option (list bytes)) (passphrase : bytes) : wio bytes :=
  let! entries := collect_wallet_backup_entries listing passphrase in
  if (length entries =? 0)%nat then io_fail "wallet backup requires at least one encrypted owner/mining key" else
  io_of (map_err (fun _ => "encode wallet backup"%string) (encode_wallet_backup DEVNET_NETWORK_ID entries)).

(** ** Restoring *)

Definition verify_entry (passphrase : bytes) (_ : unit) (entry : WalletBackupEntry) : result string unit :=
  let? key := map_err (fun _ => "verify backup key"%string)
                (open (wb_secret_file entry) (wb_role entry) DEVNET_NETWORK_ID passphrase) in
  if negb (bytes_eqb (sk_public key) (wb_public_key entry)) then Err "backup key public-key mismatch"%string else Ok tt.

Definition verify_wallet_backup_bytes (bs passphrase : bytes) : result string (list WalletBackupEntry) :=
  let? (network_id, entries) := map_err (fun _ => "decode wallet backup"%string) (decode_wallet_backup bs) in
  if negb (network_id =? DEVNET_NETWORK_ID) then Err "wallet backup NetworkID mismatch"%string else
  if (length entries =? 0)%nat then Err "wallet backup contains no owner/mining keys"%string else
  let? _ := fold_result (verify_entry passphrase) tt entries in Ok entries.

Fixpoint restore_targets (entries : list WalletBackupEntry) : wio (list (WalletBackupEntry * bytes)) :=
  match entries with
  | [] => io_ret []
  | entry :: entries =>
      let! path := io_of (wallet_key_path (wb_role entry) (wb_label entry)) in
      io_look (fun d => if exists_file d path then io_fail "restore would overwrite existing encrypted key" else
      let! targets := restore_targets entries in
      io_ret ((entry, path) :: targets))
  end.

(** The name of the temporary file of [write_new_file]. *)
Definition temp_name (path suffix : bytes) : bytes :=
  ascii_bytes "." ++ path ++ ascii_bytes "." ++ ascii_bytes (hex_encode suffix) ++ ascii_bytes ".tmp".

Fixpoint remove_created (created : list bytes) : wio unit :=
  match created with
  | [] => io_ret tt
  | path :: created => let! _ := io_try (remove_file path) in remove_created created
  end.

Definition rolled_back : string := "restore write failed; restored files from this attempt were rolled back".

(** [created] is the list of written paths, the last one first. *)
Fixpoint restore_writes (suffixes : nat -> bytes) (targets : list (WalletBackupEntry * bytes)) (created : list bytes)
    : wio unit :=
  match targets with
  | [] => io_ret tt
  | (entry, path) :: targets =>
      let! written := io_try (Keystore.write_new_file path (temp_name path (suffixes (length created)))
                                (wb_secret_file entry)) in
      match written with
      | Ok _ => restore_writes suffixes targets (path :: created)
      | Err _ => let! _ := remove_created created in io_fail rolled_back
      end
  end.

Definition restore_wallet_backup_bytes (suffixes : nat -> bytes) (bs passphrase : bytes)
    : wio (list WalletBackupEntry) :=
  let! entries := io_of (verify_wallet_backup_bytes bs passphrase) in
  let! targets := restore_targets entries in
  let! _ := restore_writes suffixes targets [] in
  io_ret entries.
End wallet_files.

(** ** Names are read back *)

Lemma validate_key_label_ok label : validate_key_label label = Ok tt <-> wallet_label_valid label = true.
Proof.
  unfold validate_key_label, wallet_label_valid.
  destruct (Nat.eqb_spec (length label) 0), (Nat.ltb_spec 64 (length label)), (Nat.leb_spec (length label) 64),
    (forallb label_byte_valid label); cbn; split; (done || lia).
Qed.

Lemma strip_prefix_app p s : strip_prefix p (p ++ s) = Some s.
Proof. unfold strip_prefix. by rewrite take_app_length, bytes_eqb_refl, drop_app_length. Qed.

Lemma strip_prefix_ok p s v : strip_prefix p s = Some v -> s = p ++ v.
Proof.
  unfold strip_prefix. destruct (bytes_eqb _ _) eqn:E; [|done]. apply bytes_eqb_eq in E.
  intros <-%Some_inj. rewrite <- E at 1. by rewrite take_drop.
Qed.

Lemma strip_suffix_app q s : strip_suffix q (s ++ q) = Some s.
Proof.
  unfold strip_suffix. rewrite length_app, Nat.add_sub, drop_app_length, bytes_eqb_refl. by rewrite take_app_length.
Qed.

Lemma strip_suffix_ok q s v : strip_suffix q s = Some v -> s = v ++ q.
Proof.
  unfold strip_suffix. destruct (bytes_eqb _ _) eqn:E; [|done]. apply bytes_eqb_eq in E.
  intros <-%Some_inj. rewrite <- E at 2. by rewrite take_drop.
Qed.

Lemma name_of_role_ok name role r l :
  name_of_role name role = Some (r, l) -> r = role /\ name = wallet_key_name role l /\ wallet_label_valid l = true.
Proof.
  unfold name_of_role, mbind, option_bind.
  destruct (strip_prefix _ name) as [v|] eqn:Ep; [|done]. apply strip_prefix_ok in Ep as ->.
  destruct (strip_suffix msk v) as [rest|] eqn:Es; [|done]. apply strip_suffix_ok in Es as ->.
  destruct (validate_key_label rest) as [[]|] eqn:Ev; [|done]. intros [= <- <-].
  split_and!; [done|done|by apply validate_key_label_ok].
Qed.

Lemma wallet_file_ok name r l :
  wallet_file_role_and_label name = Some (r, l) ->
  name = wallet_key_name r l /\ wallet_role_allowed r = true /\ wallet_label_valid l = true.
Proof.
  unfold wallet_file_role_and_label. destruct (name_of_role name LicenseOwner) as [[r' l']|] eqn:E; intros H.
  - injection H as -> ->. by apply name_of_role_ok in E as (-> & -> & ?).
  - by apply name_of_role_ok in H as (-> & -> & ?).
Qed.

Lemma name_of_role_name role l : wallet_label_valid l = true -> name_of_role (wallet_key_name role l) role = Some (role, l).
Proof.
  intros Hv. unfold name_of_role, wallet_key_name, mbind, option_bind. rewrite strip_prefix_app, strip_suffix_app.
  by rewrite (proj2 (validate_key_label_ok l) Hv).
Qed.

Lemma wallet_file_name r l :
  wallet_role_allowed r = true -> wallet_label_valid l = true ->
  wallet_file_role_and_label (wallet_key_name r l) = Some (r, l).
Proof.
  intros Hr Hv. unfold wallet_file_role_and_label. destruct r; [done|by rewrite name_of_role_name|].
  destruct (name_of_role _ LicenseOwner) as [[r' l']|] eqn:E; [|by apply name_of_role_name].
  apply name_of_role_ok in E as (_ & E & _). discriminate E.
Qed.

Lemma wallet_key_name_inj r l r' l' :
  wallet_role_allowed r = true -> wallet_label_valid l = true -> wallet_role_allowed r' = true ->
  wallet_label_valid l' = true -> wallet_key_name r l = wallet_key_name r' l' -> r = r' /\ l = l'.
Proof.
  intros Hr Hl Hr' Hl' H. pose proof (wallet_file_name r l Hr Hl) as E. rewrite H, wallet_file_name in E by done.
  by injection E as -> ->.
Qed.

(** Temporary files are hidden, key files are not. *)
Definition hidden (name : bytes) : bool := bool_decide (head name = Some Byte.x2e).

Lemma temp_hidden path suffix : hidden (temp_name path suffix) = true.
Proof. reflexivity. Qed.

Lemma key_not_hidden r l : hidden (wallet_key_name r l) = false.
Proof. by destruct r. Qed.

(** ** Writing one key *)

(** [write_new_file] touches its temporary file and the new file only; the new
    file is there with all its bytes or not at all, and a file that was there
    stays. *)
Definition wrote (path temp bs : bytes) (d d' : disk bytes) : Prop :=
  (forall p, p <> path -> p <> temp -> d' !! p = d !! p) /\
  (d' !! path = d !! path \/ d !! path = None /\ d' !! path = Some bs).

Lemma write_new_file_wrote (path temp bs : bytes) (d : disk bytes) :
  path <> temp ->
  wp (Keystore.write_new_file path temp bs)
    (fun e d' => wrote path temp bs d d' /\ (e = Returns (Ok tt) -> d !! path = None /\ d' !! path = Some bs)) d.
Proof.
  intros Hne. set (Q := fun (e : ending unit) d' => _).
  assert (forall c d', (forall p, p <> temp -> d' !! p = d !! p) -> forall e, stopped e -> Q e (put temp c d')) as Hu.
  { intros c d' Hd' e He. split; [split|intros ->; destruct He].
    - intros p _ Hp. rewrite put_lookup_ne by done. by apply Hd'.
    - left. rewrite put_lookup_ne by done. by apply Hd'. }
  assert (forall c d', d !! path = None -> (forall p, p <> temp -> d' !! p = d !! p) ->
    forall e, Q e (put temp c (<[path := bs]> d'))) as Hw.
  { intros c d' Hn Hd' e. assert (put temp c (<[path := bs]> d') !! path = Some bs) as Hb
      by (rewrite put_lookup_ne by done; apply lookup_insert_eq).
    split; [split|by intros _].
    - intros p Hp Ht. rewrite put_lookup_ne, lookup_insert_ne by done. by apply Hd'.
    - by right. }
  assert (forall d', d' = put temp (d' !! temp) d') as Hid.
  { intros d'. apply map_eq. intros p. unfold put. destruct (d' !! temp) eqn:E; destruct (decide (temp = p)) as [<-|];
      rewrite ?lookup_insert_eq, ?lookup_delete_eq, ?lookup_insert_ne, ?lookup_delete_ne by done; done. }
  assert (forall d', (forall p, p <> temp -> d' !! p = d !! p) -> forall e, stopped e -> Q e d') as Hu0
    by (intros d' ? e ?; rewrite (Hid d'); by apply Hu).
  apply wp_look. unfold exists_file at 1. case_bool_decide as Hx; [by apply wp_fail, Hu0|]. apply eq_None_not_Some in Hx.
  apply wp_bind, wp_touch. intros [[[]|e]|]; cbn [and_then]; [|by apply Hu0..].
  apply wp_bind, wp_look. destruct (exists_file d temp); [by apply wp_fail, Hu0|].
  apply wp_write; [|intros c; apply and_then_stopped; intros e He; by apply (Hu c d)].
  set (d1 := <[temp := bs]> d).
  assert (forall p, p <> temp -> d1 !! p = d !! p) as H1 by (intros p Hp; unfold d1; by rewrite lookup_insert_ne).
  cbn [and_then]. apply wp_bind, wp_try. eapply wp_link; [apply lookup_insert_eq|..].
  - intros [[[]|e]|]; cbn [stopped and_then]; [done|intros _|intros _; by apply Hu0].
    apply wp_bind, wp_try, wp_remove.
    + intros [[[]|e']|]; cbn [stopped and_then]; [done|intros _|intros _; by apply Hu0].
      apply wp_look. destruct (exists_file d1 path); apply wp_fail; by apply Hu0.
    + intros [[[]|e']|]; cbn [and_then]; [| |by apply (Hu None)];
        (apply wp_look; destruct (exists_file (delete temp d1) path); apply wp_fail; by apply (Hu None)).
  - intros _. assert (forall e, Q e (<[path := bs]> d1)) as Hl by (intros e; rewrite (Hid (<[path := bs]> d1)); by apply Hw).
    assert (forall e, Q e (delete temp (<[path := bs]> d1))) as Hr by (by apply (Hw None)).
    intros [[[]|e]|]; cbn [and_then]; [| |by apply Hl].
    + apply wp_remove; intros; [apply Hl|apply Hr].
    + apply wp_bind, wp_try, wp_remove.
      * intros [[[]|e']|]; cbn [stopped and_then]; [done|intros _|intros _; by apply Hl].
        apply wp_look. destruct (exists_file _ path); apply wp_fail; by apply Hl.
      * intros [[[]|e']|]; cbn [and_then]; [| |by apply Hr];
          (apply wp_look; destruct (exists_file _ path); apply wp_fail; by apply Hr).
Qed.

Lemma write_new_file_runs (path temp bs : bytes) (d : disk bytes) (Q : unit -> disk bytes -> Prop) :
  path <> temp -> d !! path = None -> d !! temp = None -> Q tt (<[path := bs]> d) ->
  runs (Keystore.write_new_file path temp bs) Q d.
Proof.
  intros Hne Hp Ht Hq. apply runs_look. unfold exists_file. rewrite Hp, bool_decide_eq_false_2 by (by intros []).
  apply runs_bind, runs_touch, runs_bind, runs_look. unfold exists_file.
  rewrite Ht, bool_decide_eq_false_2 by (by intros []).
  apply runs_write, runs_bind, runs_try, (runs_link _ _ bs); [apply lookup_insert_eq|by rewrite lookup_insert_ne|].
  apply runs_remove; [rewrite lookup_insert_ne by done; rewrite lookup_insert_eq; eauto|].
  rewrite delete_insert_ne by done. rewrite delete_insert_id; done.
Qed.

(** ** The entries of a backup *)

Definition entry_name (e : WalletBackupEntry) : bytes := wallet_key_name (wb_role e) (wb_label e).
Definition named (e : WalletBackupEntry) : Prop :=
  wallet_role_allowed (wb_role e) = true /\ wallet_label_valid (wb_label e) = true.

Lemma entry_not_hidden e : hidden (entry_name e) = false.
Proof. apply key_not_hidden. Qed.

Lemma chain_above (es : list WalletBackupEntry) k :
  key_chain wb_role wb_label (Some k) es -> Forall (fun e => key_ltb k (entry_key wb_role wb_label e) = true) es.
Proof.
  revert k. induction es as [|e es IH]; intros k; [constructor|]. intros [Hk Hc]. constructor; [done|].
  eapply Forall_impl; [by apply IH|]. intros x Hx. by eapply key_ltb_trans.
Qed.

Lemma chain_distinct (es : list WalletBackupEntry) prev :
  key_chain wb_role wb_label prev es -> NoDup (map (entry_key wb_role wb_label) es).
Proof.
  revert prev. induction es as [|e es IH]; intros prev; [constructor|]. intros [_ Hc]. cbn [map]. constructor; [|by eapply IH].
  intros (x & Hx & Hin)%list_elem_of_fmap. apply chain_above in Hc. rewrite Forall_forall in Hc.
  specialize (Hc x Hin). by rewrite <- Hx, key_ltb_irrefl in Hc.
Qed.

Lemma names_distinct es : Forall named es -> NoDup (map (entry_key wb_role wb_label) es) -> NoDup (map entry_name es).
Proof.
  intros Ho. induction Ho as [|e es He Hes IH]; cbn [map]; [constructor|]. rewrite !NoDup_cons. intros [Hn Hd].
  split; [|by apply IH]. intros (x & Hx & Hin)%list_elem_of_fmap. apply Hn, list_elem_of_fmap. exists x. split; [|done].
  rewrite Forall_forall in Hes. destruct (Hes x Hin), He. apply wallet_key_name_inj in Hx as [Hr Hl]; [|done..].
  unfold entry_key, wallet_sort_key. by rewrite Hr, Hl.
Qed.

Section entries.
Context {SHA : Sha2} {ED : Ed25519} {AR : Argon2}.

Lemma backup_entries bs n es : decode_wallet_backup bs = Ok (n, es) -> Forall named es /\ NoDup (map entry_name es).
Proof.
  intros H. assert (encode_wallet_backup n es = Ok bs /\ is_u32 n /\ key_chain wb_role wb_label None es /\
    Forall (fun e => is32 (wb_public_key e)) es) as (He & _ & Hc & _).
  { revert H. by apply wallet_canonical. }
  unfold encode_wallet_backup in He. apply encode_wallet_iff in He as (_ & Ho & _ & _); [|done..].
  rewrite (proj1 (chain_sorted _ _ _ _ Hc)) in Ho.
  assert (Forall named es) as Hn by (eapply Forall_impl; [exact Ho|]; by intros e (? & ? & _)).
  split; [done|]. apply names_distinct; [done|]. by eapply chain_distinct.
Qed.

Lemma verified_entries bs passphrase es :
  verify_wallet_backup_bytes bs passphrase = Ok es -> Forall named es /\ NoDup (map entry_name es) /\ es <> [].
Proof.
  unfold verify_wallet_backup_bytes. intros H.
  destruct (decode_wallet_backup bs) as [[n es']|] eqn:Ed; [|discriminate H]. cbn [map_err] in H.
  destruct (negb (n =? DEVNET_NETWORK_ID)); [discriminate H|]. destruct (Nat.eqb_spec (length es') 0); [discriminate H|].
  destruct (fold_result _ tt es'); [|discriminate H]. apply Ok_inj in H as <-.
  destruct (backup_entries _ _ _ Ed). split_and!; [done|done|]. by intros ->.
Qed.

(** ** Restoring, whatever happens *)

(** The files [d] as a restore of [es] may leave them, from the files [d0]:
    every visible file is as it was, or is the key of an entry under a name that
    was free. *)
Definition restored (es : list WalletBackupEntry) (d0 d : disk bytes) : Prop :=
  forall p, hidden p = false -> d !! p = d0 !! p \/
    d0 !! p = None /\ exists e, e ∈ es /\ entry_name e = p /\ d !! p = Some (wb_secret_file e).

Lemma restored_refl es d : restored es d d.
Proof. intros p _. by left. Qed.

Lemma remove_created_wp es d0 created d :
  (forall p, p ∈ created -> d0 !! p = None) -> restored es d0 d ->
  wp (remove_created created) (fun _ d' => restored es d0 d') d.
Proof.
  revert d. induction created as [|p created IH]; intros d Hc Hd; cbn [remove_created]; [by apply wp_ret|].
  assert (forall q, q ∈ created -> d0 !! q = None) as Hc' by (intros q ?; apply Hc; by right).
  assert (restored es d0 (delete p d)) as Hd'.
  { intros q Hq. destruct (decide (q = p)) as [->|]; [|rewrite lookup_delete_ne by done; by apply Hd].
    left. rewrite lookup_delete_eq. symmetry. apply Hc. by left. }
  apply wp_bind, wp_try, wp_remove; intros [[?|?]|]; cbn [and_then stopped]; intros; try done; by apply IH.
Qed.

Lemma restore_writes_wp suffixes es d0 targets created d :
  (forall e p, (e, p) ∈ targets -> e ∈ es /\ p = entry_name e /\ d !! p = None /\ d0 !! p = None) ->
  NoDup (map snd targets) -> (forall p, p ∈ created -> d0 !! p = None) -> restored es d0 d ->
  wp (restore_writes suffixes targets created)
    (fun end_ d' => restored es d0 d' /\ (end_ = Returns (Ok tt) ->
       (forall e p, (e, p) ∈ targets -> d' !! p = Some (wb_secret_file e)) /\
       (forall p, hidden p = false -> p ∉ map snd targets -> d' !! p = d !! p))) d.
Proof.
  revert created d. induction targets as [|[e path] targets IH]; intros created d Ht Hd Hc Hr; cbn [restore_writes].
  { apply wp_ret. split; [done|]. intros _. split; [by intros ? ? ?%not_elem_of_nil|done]. }
  destruct (Ht e path) as (He & Hpath & Hfree & Hfree0); [by left|]. cbn [map] in Hd. apply NoDup_cons in Hd as [Hnew Hd].
  set (temp := temp_name path (suffixes (length created))).
  assert (hidden path = false) as Hh by (rewrite Hpath; apply key_not_hidden).
  assert (path <> temp) as Hne by (intros E; rewrite E in Hh; discriminate Hh).
  apply wp_bind, wp_try. eapply wp_mono; [by apply write_new_file_wrote|].
  intros end_ d1 [[Hframe Hnew1] Hok].
  assert (forall p, hidden p = false -> p <> path -> d1 !! p = d !! p) as Hsame.
  { intros p Hp Hpp. apply Hframe; [done|]. intros E. rewrite E in Hp. discriminate Hp. }
  assert (restored es d0 d1) as Hr1.
  { intros p Hp. destruct (decide (p = path)) as [->|Hpp]; [|rewrite Hsame by done; by apply Hr].
    destruct Hnew1 as [->|[_ ->]]; [by apply Hr|]. right. eauto 10. }
  destruct end_ as [[[]|err]|]; cbn [and_then]; [| |by split].
  - destruct (Hok eq_refl) as [_ Hwritten].
    eapply wp_mono; [apply IH; [|done| |done]|].
    + intros e' p Hin. destruct (Ht e' p) as (? & ? & ? & ?); [by right|]. split_and!; try done.
      rewrite Hsame; [done|subst p; apply key_not_hidden|].
      intros ->. apply Hnew, list_elem_of_fmap. by exists (e', path).
    + intros p [->|?]%elem_of_cons; auto.
    + intros end_ d2 [Hr2 H2]. split; [done|]. intros E. destruct (H2 E) as [Hin Hout]. split.
      * intros e' p [[= -> ->]|?]%elem_of_cons; [|by apply Hin]. by rewrite Hout.
      * intros p Hp [Hpp ?]%not_elem_of_cons. by rewrite Hout, Hsame.
  - apply wp_bind. eapply wp_mono; [by apply (remove_created_wp es d0)|]. intros [[[]|]|] d2 Hr2; cbn [and_then];
      [apply wp_fail|..]; by split.
Qed.

Lemma restore_targets_wp es d :
  Forall named es ->
  wp (restore_targets es) (fun end_ d' => d' = d /\ forall targets, end_ = Returns (Ok targets) ->
    targets = map (fun e => (e, entry_name e)) es /\ Forall (fun e => d !! entry_name e = None) es) d.
Proof.
  intros Hn. induction Hn as [|e es [_ Hl] _ IH]; cbn [restore_targets].
  { apply wp_ret. split; [done|]. intros ? [= <-]. by split. }
  apply wp_bind, wp_of. unfold wallet_key_path. rewrite (proj2 (validate_key_label_ok _) Hl). cbn [and_then].
  apply wp_look. unfold exists_file. case_bool_decide as Hx; [by apply wp_fail|]. apply eq_None_not_Some in Hx.
  apply wp_bind. eapply wp_mono; [exact IH|]. intros [[targets|err]|] d' [-> Hok]; cbn [and_then]; [|by split..].
  destruct (Hok targets eq_refl) as [-> Hf]. apply wp_ret. split; [done|]. intros ? [= <-]. split; [done|]. by constructor.
Qed.

(** However the calls fare: visible files stay as they were, new ones are whole
    keys of the backup, and when the restore succeeds all of them are there. *)
Lemma restore_wp suffixes bs passphrase d0 :
  wp (restore_wallet_backup_bytes suffixes bs passphrase)
    (fun end_ d => exists all, restored all d0 d /\
       (all = [] \/ verify_wallet_backup_bytes bs passphrase = Ok all) /\
       forall es, end_ = Returns (Ok es) -> es = all /\ es <> [] /\
         (forall e, e ∈ es -> d0 !! entry_name e = None /\ d !! entry_name e = Some (wb_secret_file e)) /\
         (forall p, hidden p = false -> p ∉ map entry_name es -> d !! p = d0 !! p)) d0.
Proof.
  apply wp_bind, wp_of. destruct (verify_wallet_backup_bytes bs passphrase) as [es|err] eqn:Ev; cbn [and_then].
  2: { exists []. split_and!; [apply restored_refl|by left|done]. }
  destruct (verified_entries _ _ _ Ev) as (Hn & Hd & Hne).
  apply wp_bind. eapply wp_mono; [by apply restore_targets_wp|].
  intros [[targets|err]|] d [-> Hok]; cbn [and_then].
  2, 3: exists es; split_and!; [apply restored_refl|by right|done].
  destruct (Hok targets eq_refl) as [-> Hfree]. rewrite Forall_forall in Hfree.
  apply wp_bind. eapply wp_mono; [apply (restore_writes_wp suffixes es d0)|].
  - intros e p (x & [= -> ->] & Hin)%list_elem_of_fmap. split_and!; auto.
  - rewrite map_map. cbn [snd]. exact Hd.
  - by intros p ?%not_elem_of_nil.
  - apply restored_refl.
  - intros end_ d1 [Hr Hall]. rewrite map_map in Hall. cbn [snd] in Hall.
    destruct end_ as [[[]|err]|]; cbn [and_then]; [apply wp_ret|..]; exists es; split_and!; try done; try (by right).
    intros es' [= <-]. destruct (Hall eq_refl) as [Hin Hout]. split_and!; try done.
    intros e He. split; [by apply Hfree|]. apply (Hin e). apply list_elem_of_fmap. by exists e.
Qed.
End entries.

Section backup.
Context {SHA : Sha2} {ED : Ed25519} {AR : Argon2}.

(** ** Collecting *)

(** An entry that was read from the files [d] and opens with the passphrase. *)
Definition backed_up (d : disk bytes) (passphrase : bytes) (e : WalletBackupEntry) : Prop :=
  named e /\ d !! entry_name e = Some (wb_secret_file e) /\
  exists seed, open (wb_secret_file e) (wb_role e) DEVNET_NETWORK_ID passphrase = Ok seed /\ wb_public_key e = sk_public seed.

Lemma collected_entry_ok passphrase r l file e :
  collected_entry passphrase r l file = Ok e ->
  wb_role e = r /\ wb_label e = l /\ wb_secret_file e = file /\
  exists seed, open file r DEVNET_NETWORK_ID passphrase = Ok seed /\ wb_public_key e = sk_public seed.
Proof.
  unfold collected_entry. intros H. inv_ok. cbn. split_and!; try done. eauto.
Qed.

(** The entries of the names: each is in [d], and no key is left out. *)
Definition collected (d : disk bytes) (passphrase : bytes) (names : list bytes) (es : list WalletBackupEntry) : Prop :=
  Forall (backed_up d passphrase) es /\
  forall name, name ∈ names -> is_Some (wallet_file_role_and_label name) -> exists e, e ∈ es /\ entry_name e = name.

Lemma collect_loop_wp passphrase names acc d :
  wp (collect_loop passphrase names acc)
    (fun end_ d' => d' = d /\ forall es, end_ = Returns (Ok es) ->
       exists new, es = acc ++ new /\ collected d passphrase names new) d.
Proof.
  revert acc. induction names as [|name names IH]; intros acc; cbn [collect_loop].
  { apply wp_ret. split; [done|]. intros es [= <-]. exists []. split; [by rewrite app_nil_r|]. split; [constructor|].
    by intros ? ?%not_elem_of_nil. }
  apply wp_bind, wp_touch. intros [[[]|e]|]; cbn [and_then]; [|by split..].
  destruct (wallet_file_role_and_label name) as [[r l]|] eqn:Ew.
  2: { eapply wp_mono; [apply IH|]. intros e d' [-> Hok]. split; [done|]. intros es He.
       destruct (Hok es He) as (new & -> & Hn & Hall). exists new. split; [done|]. split; [done|].
       intros x [->|Hx]%elem_of_cons Hs; [rewrite Ew in Hs; by destruct Hs|by apply Hall]. }
  apply wallet_file_ok in Ew as (Hname & Hr & Hl).
  apply wp_bind, wp_read; [intros [[?|?]|] He; cbn [and_then]; by try split|]. intros file Hfile.
  apply wp_bind, wp_of. destruct (collected_entry passphrase r l file) as [e|err] eqn:Ec; cbn [and_then]; [|by split].
  apply collected_entry_ok in Ec as (Her & Hel & Hef & seed & Ho & Hp).
  assert (entry_name e = name) as Hen by (unfold entry_name; by rewrite Her, Hel).
  eapply wp_mono; [apply IH|]. intros end_ d' [-> Hok]. split; [done|]. intros es He.
  destruct (Hok es He) as (new & -> & Hn & Hall). exists (e :: new). rewrite <- app_assoc. split; [done|]. split.
  - constructor; [|done]. split; [by split; rewrite ?Her, ?Hel|]. rewrite Hen, Hef. split; [done|].
    exists seed. by rewrite Her.
  - intros x [->|Hx]%elem_of_cons Hs; [exists e; split; [by left|done]|].
    destruct (Hall x Hx Hs) as (e' & ? & ?). exists e'. split; [by right|done].
Qed.

Lemma collected_perm d passphrase names es es' :
  es ≡ₚ es' -> collected d passphrase names es -> collected d passphrase names es'.
Proof.
  intros Hp [Hb Hall]. split; [by rewrite <- Hp|]. intros name Hn Hs.
  destruct (Hall name Hn Hs) as (e & He & ?). exists e. by rewrite <- Hp.
Qed.

(** The bundle of a backup decodes to the keys of the directory. *)
Lemma backup_create_wp names passphrase d :
  wp (wallet_backup_create (Some names) passphrase)
    (fun end_ d' => d' = d /\ forall bundle, end_ = Returns (Ok bundle) ->
       exists es, decode_wallet_backup bundle = Ok (DEVNET_NETWORK_ID, es) /\ es <> [] /\ collected d passphrase names es) d.
Proof.
  apply wp_bind, wp_bind, wp_touch. intros [[[]|e]|]; cbn [and_then]; [|by split..].
  apply wp_bind. eapply wp_mono; [apply (collect_loop_wp passphrase names [])|].
  intros [[es|err]|] d' [-> Hok]; cbn [and_then]; [|by split..].
  destruct (Hok es eq_refl) as (new & -> & Hcol). cbn [app]. apply wp_ret. cbn [and_then].
  set (sorted := sort_by entry_leb new). assert (new ≡ₚ sorted) as Hp by (symmetry; apply sort_by_perm).
  destruct (Nat.eqb_spec (length sorted) 0) as [|Hne]; [by apply wp_fail|]. apply wp_of. split; [done|].
  intros bundle E. destruct (encode_wallet_backup DEVNET_NETWORK_ID sorted) as [bs|] eqn:Eb; [|discriminate E].
  cbn in E. injection E as ->. apply (proj1 wallet_exports_canonical) in Eb; [|done|].
  - eexists. split; [exact Eb|]. split; [intros E; apply Hne; transitivity (length (sort_by entry_leb sorted)); [by rewrite sort_by_perm|exact (f_equal length E)]|].
    eapply collected_perm; [|exact Hcol]. by rewrite sort_by_perm.
  - destruct (collected_perm _ _ _ _ _ Hp Hcol) as [Hb _]. eapply Forall_impl; [exact Hb|].
    intros e (_ & _ & seed & _ & ->). apply sk_public_length.
Qed.

(** ** Restoring without faults *)

Lemma verify_collected d passphrase bundle es :
  decode_wallet_backup bundle = Ok (DEVNET_NETWORK_ID, es) -> es <> [] -> Forall (backed_up d passphrase) es ->
  verify_wallet_backup_bytes bundle passphrase = Ok es.
Proof.
  intros Hd Hne Hb. unfold verify_wallet_backup_bytes. rewrite Hd. cbn [map_err]. rewrite Z.eqb_refl. cbn [negb].
  destruct (Nat.eqb_spec (length es) 0) as [E|E]; [by apply nil_length_inv in E|].
  assert (fold_result (verify_entry passphrase) tt es = Ok tt) as ->; [|done]. clear Hd Hne E.
  induction Hb as [|e es (_ & _ & seed & Ho & Hp) _ IH]; [done|]. cbn [fold_result].
  assert (verify_entry passphrase tt e = Ok tt) as ->; [|exact IH]. unfold verify_entry. rewrite Ho. cbn [map_err].
  by rewrite Hp, bytes_eqb_refl.
Qed.

Lemma restore_targets_runs (es : list WalletBackupEntry) (d : disk bytes) :
  Forall named es -> Forall (fun e => d !! entry_name e = None) es ->
  runs (restore_targets es) (fun targets d' => d' = d /\ targets = map (fun e => (e, entry_name e)) es) d.
Proof.
  intros Hn Hf. revert Hn. induction Hf as [|e es He _ IH]; intros Hn; cbn [restore_targets]; [by apply runs_ret|].
  apply Forall_cons in Hn as [[_ Hl] Hn]. eapply runs_bind, runs_of.
  { unfold wallet_key_path. by rewrite (proj2 (validate_key_label_ok _) Hl). }
  apply runs_look. unfold exists_file. unfold entry_name in He. rewrite He, bool_decide_eq_false_2 by (by intros []).
  apply runs_bind. eapply runs_mono; [by apply IH|]. intros targets d' [-> ->]. by apply runs_ret.
Qed.

Lemma restore_writes_runs (suffixes : nat -> bytes) (es : list WalletBackupEntry) (created : list bytes) (d : disk bytes) :
  NoDup (map entry_name es) -> Forall (fun e => d !! entry_name e = None) es ->
  (forall p, hidden p = true -> d !! p = None) ->
  runs (restore_writes suffixes (map (fun e => (e, entry_name e)) es) created) (fun _ _ => True) d.
Proof.
  revert created d. induction es as [|e es IH]; intros created d Hd Hf Hh; cbn [restore_writes map]; [by apply runs_ret|].
  apply Forall_cons in Hf as [He Hf]. cbn [map] in Hd. apply NoDup_cons in Hd as [Hnew Hd].
  set (temp := temp_name (entry_name e) (suffixes (length created))).
  assert (forall p, hidden p = true -> p <> entry_name e) as Hne by (intros p Hp ->; by rewrite entry_not_hidden in Hp).
  apply runs_bind, runs_try, write_new_file_runs; [intros E; by apply (Hne temp)|done|by apply Hh|].
  apply IH; [done| |].
  - rewrite Forall_forall in Hf |- *. intros x Hx. rewrite lookup_insert_ne; [by apply Hf|].
    intros E. apply Hnew. rewrite E. apply list_elem_of_fmap. by exists x.
  - intros p Hp. rewrite lookup_insert_ne; [by apply Hh|]. intros E. by apply (Hne p).
Qed.

Lemma restore_runs (suffixes : nat -> bytes) (bundle passphrase : bytes) (es : list WalletBackupEntry) (d : disk bytes) :
  verify_wallet_backup_bytes bundle passphrase = Ok es -> Forall (fun e => d !! entry_name e = None) es ->
  (forall p, hidden p = true -> d !! p = None) ->
  runs (restore_wallet_backup_bytes suffixes bundle passphrase) (fun es' _ => es' = es) d.
Proof.
  intros Hv Hf Hh. destruct (verified_entries _ _ _ Hv) as (Hn & Hd & _).
  eapply runs_bind, runs_of; [exact Hv|]. apply runs_bind. eapply runs_mono; [by apply restore_targets_runs|].
  intros targets d' [-> ->]. apply runs_bind. eapply runs_mono; [by apply restore_writes_runs|]. intros _ d1 _. by apply runs_ret.
Qed.

Lemma load_backed_up (d r : disk bytes) (passphrase : bytes) (e : WalletBackupEntry) :
  backed_up d passphrase e -> r !! entry_name e = Some (wb_secret_file e) ->
  exists seed, load_wallet_key r (wb_role e) (wb_label e) passphrase = Ok seed /\
    open (wb_secret_file e) (wb_role e) DEVNET_NETWORK_ID passphrase = Ok seed.
Proof.
  intros ([_ Hl] & _ & seed & Ho & _) Hr. exists seed. split; [|done].
  unfold load_wallet_key, load_wallet_key_for_network, wallet_key_path. rewrite (proj2 (validate_key_label_ok _) Hl).
  unfold entry_name in Hr. unfold exists_file. rewrite Hr, bool_decide_eq_true_2 by eauto. cbn [negb load_file ok_or].
  unfold load_file. cbn [ok_or]. by rewrite Ho.
Qed.

(** C21: a backup of the wallet brings its keys back: the bundle made from one data directory,
    restored into another that has none of these keys, puts every key file there byte for byte,
    leaves every other file as it was, and the keys load with the passphrase as before; and however
    the calls of a restore fail or are cut off, files that were there keep their contents, what it
    adds are whole key files of the verified backup under free names, and when it succeeds all of
    them are there. *)
Theorem wallet_backup_restores :
  (forall listing passphrase d fs d1 fs1 bundle d0 suffixes,
     (forall name, name ∈ listing <-> is_Some (d !! name)) ->
     wallet_backup_create (Some listing) passphrase d fs = (d1, fs1, Returns (Ok bundle)) ->
     (forall name, is_Some (d !! name) -> is_Some (wallet_file_role_and_label name) -> d0 !! name = None) ->
     (forall name, hidden name = true -> d0 !! name = None) ->
     exists r es, restore_wallet_backup_bytes suffixes bundle passphrase d0 [] = (r, [], Returns (Ok es)) /\ d1 = d /\
       (forall name, hidden name = false ->
          r !! name = if bool_decide (is_Some (wallet_file_role_and_label name) /\ is_Some (d !! name))
                      then d !! name else d0 !! name) /\
       (forall role label, wallet_role_allowed role = true -> wallet_label_valid label = true ->
          is_Some (d !! wallet_key_name role label) ->
          exists seed, load_wallet_key r role label passphrase = Ok seed /\ load_wallet_key d role label passphrase = Ok seed)) /\
  (forall suffixes bundle passphrase d0 fs,
     let '(d, _, end_) := restore_wallet_backup_bytes suffixes bundle passphrase d0 fs in
     exists all, (all = [] \/ verify_wallet_backup_bytes bundle passphrase = Ok all) /\
       (forall name, hidden name = false -> d !! name = d0 !! name \/
          d0 !! name = None /\ exists e, e ∈ all /\ entry_name e = name /\ d !! name = Some (wb_secret_file e)) /\
       forall es, end_ = Returns (Ok es) -> es = all /\
         forall e, e ∈ es -> d0 !! entry_name e = None /\ d !! entry_name e = Some (wb_secret_file e)).
Proof.
  split.
  - intros listing passphrase d fs d1 fs1 bundle d0 suffixes Hlist Hcreate Hfree Hh.
    pose proof (backup_create_wp listing passphrase d fs) as Hw. rewrite Hcreate in Hw. cbn [fst snd] in Hw.
    destruct Hw as [-> Hok]. destruct (Hok bundle eq_refl) as (es & Hdec & Hne & Hb & Hall).
    pose proof (verify_collected _ _ _ _ Hdec Hne Hb) as Hv. rewrite Forall_forall in Hb.
    assert (Forall (fun e => d0 !! entry_name e = None) es) as Hnone.
    { apply Forall_forall. intros e He. destruct (Hb e He) as ([Hr Hl] & Hd & _).
      apply Hfree; [by rewrite Hd|unfold entry_name; by rewrite wallet_file_name]. }
    destruct (restore_runs suffixes bundle passphrase es d0 Hv Hnone Hh) as (r & es' & Hrun & ->).
    pose proof (restore_wp suffixes bundle passphrase d0 []) as Hsafe. rewrite Hrun in Hsafe. cbn [fst snd] in Hsafe.
    destruct Hsafe as (all & _ & _ & Hsafe). destruct (Hsafe es eq_refl) as (_ & _ & Hin & Hout).
    exists r, es. split_and!; [done|done| |].
    + intros name Hname. case_bool_decide as Hk.
      * destruct Hk as [Hs Hd]. destruct (Hall name) as (e & He & <-); [by apply Hlist|done|].
        rewrite (proj2 (Hin e He)). by destruct (Hb e He) as (_ & -> & _).
      * apply Hout; [done|]. intros (e & -> & He)%list_elem_of_fmap. apply Hk.
        destruct (Hb e He) as ([Hr Hl] & Hd & _). unfold entry_name in *. rewrite wallet_file_name, Hd by done. eauto.
    + intros role label Hr Hl Hd. pose proof (wallet_file_name role label Hr Hl) as Hs.
      destruct (Hall (wallet_key_name role label)) as (e & He & Hname); [by apply Hlist|by rewrite Hs|].
      pose proof (Hb e He) as He'. destruct (load_backed_up d r passphrase e He' (proj2 (Hin e He))) as (seed & H1 & H2).
      destruct (load_backed_up d d passphrase e He' (proj1 (proj2 He'))) as (seed' & H3 & H4).
      destruct He' as ([Hr' Hl'] & _). apply wallet_key_name_inj in Hname as [<- <-]; [|done..].
      exists seed. split; [done|]. congruence.
  - intros suffixes bundle passphrase d0 fs. pose proof (restore_wp suffixes bundle passphrase d0 fs) as Hw.
    destruct (restore_wallet_backup_bytes _ _ _ _ _) as [[d fs'] end_]. cbn [fst snd] in Hw.
    destruct Hw as (all & Hr & Hall & Hok). exists all. split; [done|]. split; [exact Hr|].
    intros es He. destruct (Hok es He) as (-> & _ & Hin & _). by split.
Qed.

(** The rollback does not cover the key that failed: when the temporary file of
    a written key cannot be removed, the restore fails with its message, the key
    stays, and the next attempt is refused because of it. *)
Lemma write_new_file_fails (path temp bs : bytes) (d : disk bytes) :
  path <> temp -> d !! path = None -> d !! temp = None ->
  Keystore.write_new_file path temp bs d [Fine; Fine; Fine; IoFails None]
  = (<[path := bs]> (<[temp := bs]> d), [], Returns (Err io_error)).
Proof.
  intros Hne Hp Ht. unfold Keystore.write_new_file, Files.write_new_file, io_look, exists_file.
  rewrite Hp, bool_decide_eq_false_2 by (by intros []).
  unfold touch, io_bind, io_atomic, io_try. cbn [next_fault]. unfold io_look, exists_file.
  rewrite Ht, bool_decide_eq_false_2 by (by intros []). unfold write_file, link_file, remove_file, io_atomic, exists_file.
  cbn [next_fault]. rewrite lookup_insert_eq, lookup_insert_ne, Hp, bool_decide_eq_false_2 by (done || by intros []). done.
Qed.

Lemma restore_one (suffixes : nat -> bytes) (bundle passphrase : bytes) (e : WalletBackupEntry) (d : disk bytes) fs :
  verify_wallet_backup_bytes bundle passphrase = Ok [e] -> wallet_label_valid (wb_label e) = true ->
  restore_wallet_backup_bytes suffixes bundle passphrase d fs =
  if exists_file d (entry_name e)
  then (d, fs, Returns (Err "restore would overwrite existing encrypted key"%string))
  else io_bind (restore_writes suffixes [(e, entry_name e)] []) (fun _ => io_ret [e]) d fs.
Proof.
  intros Hv Hl. unfold restore_wallet_backup_bytes, io_bind at 1. rewrite Hv. cbn [io_of io_ret]. unfold io_ret at 1.
  cbn [restore_targets]. unfold wallet_key_path. rewrite (proj2 (validate_key_label_ok _) Hl).
  unfold io_bind, io_of, io_ret, io_look. fold (entry_name e). by destruct (exists_file d (entry_name e)).
Qed.

Lemma failed_restore_leaves_key (suffixes : nat -> bytes) (bundle passphrase : bytes) (e : WalletBackupEntry)
    (d : disk bytes) :
  verify_wallet_backup_bytes bundle passphrase = Ok [e] -> wallet_label_valid (wb_label e) = true ->
  d !! entry_name e = None -> (forall name, hidden name = true -> d !! name = None) ->
  let '(d', _, end_) := restore_wallet_backup_bytes suffixes bundle passphrase d [Fine; Fine; Fine; IoFails None] in
  end_ = Returns (Err rolled_back) /\ d' !! entry_name e = Some (wb_secret_file e) /\
  (restore_wallet_backup_bytes suffixes bundle passphrase d' []).2
  = Returns (Err "restore would overwrite existing encrypted key"%string).
Proof.
  intros Hv Hl Hn Hh. set (temp := temp_name (entry_name e) (suffixes 0%nat)).
  assert (entry_name e <> temp) as Hne
    by (intros E; pose proof (entry_not_hidden e) as Hk; rewrite E in Hk; discriminate Hk).
  assert (d !! temp = None) as Ht by (by apply Hh).
  rewrite (restore_one _ _ _ e) by done. unfold exists_file. rewrite Hn, bool_decide_eq_false_2 by (by intros []).
  unfold io_bind at 1. cbn [restore_writes length]. fold temp. unfold io_bind at 1, io_try at 1.
  rewrite write_new_file_fails by done. unfold io_bind, io_fail, io_ret. cbn [remove_created]. unfold io_ret.
  split; [done|]. split; [apply lookup_insert_eq|].
  rewrite (restore_one _ _ _ e) by done. unfold exists_file. by rewrite lookup_insert_eq, bool_decide_eq_true_2 by eauto.
Qed.
End backup.
