(* ===== verification/NodeDemo.v ===== *)
(** Concrete inputs for the node: a development chain with one license, two
    unspent outputs and a signed transaction in its mempool, over evaluable
    stand-ins for the hash, signature and Argon2 libraries.  The theorems about
    the node are applied to it. *)

From Stdlib Require Import Strings.Byte Strings.String.
From stdpp Require Import strings pretty.
From S2P Require Import Prelude Crypto Codec Consensus Smt State Transaction Protocol ProtocolRules Collections NodeState Economy NodePresence NodeUtxo NodeDividends NodeRoots NodeBootstrap NodeEpoch NodeMempool NodeOperations NodeBlocks NodePayload NodeMining NodeSync.

(** An Argon2 whose hashes are zero: every ticket wins. *)
Definition argon2_demo : Argon2.
Proof.
  refine {| argon2_params_valid _ _ _ _ := true;
            argon2id_hash _ _ _ n _ _ := Some (replicate n Byte.x00) |}.
  intros m t p n pwd salt h [= <-]. apply length_replicate.
Defined.

Module node_demo.
#[local] Existing Instance sha2_checksum.
#[local] Existing Instance ed25519_demo.
#[local] Existing Instance argon2_demo.

Definition key : bytes32 := sk_public (dev_seed 0).
Definition address : bytes32 := address_id key.
Definition id_a : bytes32 := replicate 32 Byte.x0a.

Definition license : LicenseState :=
  {| ls_index := 0; ls_license_id := hex_encode id_a; ls_purchase_id := hex_encode ZERO32;
     ls_owner_public_key := hex_encode key; ls_mining_public_key := hex_encode key;
     ls_payment_address_id := hex_encode address; ls_status := LICENSE_STATUS_ACTIVE;
     ls_purchase_method := PURCHASE_METHOD_BTC; ls_owner_key_sequence := 0; ls_mining_key_sequence := 0;
     ls_issued_epoch := 0; ls_activation_epoch := 64; ls_strike_weight := 0; ls_suspended_until_epoch := 0;
     ls_revocation_epoch := 0 |}.

Definition utxo (txid : byte) (amount ty : Z) (payload : bytes) : UtxoState :=
  {| us_txid := hex_encode (replicate 32 txid); us_output_index := 0; us_amount_strikes := amount;
     us_output_type := ty; us_payload := hex_encode payload; us_creation_epoch := 64;
     us_creation_height := 1; us_coinbase := false |}.

Definition utxos : list UtxoState :=
  [utxo Byte.xa1 500000000 OUTPUT_PUBKEY_HASH address;
   utxo Byte.xa2 300000000 OUTPUT_TREASURY (treasury_id_for_network DEVNET_NETWORK_ID)].

Definition block1 : BlockState :=
  {| bk_height := 1; bk_epoch := 70; bk_header := ""; bk_transactions := []; bk_protocol_operations := [];
     bk_block_hash := hex_encode id_a; bk_parent_hash := DEVNET_GENESIS_ID_HEX;
     bk_miner_license_id := hex_encode id_a; bk_ticket_index := 0; bk_argon2_proof := hex_encode ZERO32;
     bk_target := hex_encode ZERO32; bk_reward_strikes := 800000000; bk_total_fees_strikes := 0;
     bk_treasury_fee_share_strikes := 0; bk_block_weight := 0; bk_transaction_root := hex_encode ZERO32;
     bk_state_root := hex_encode ZERO32; bk_coinbase_txid := hex_encode ZERO32; bk_transaction_ids := [] |}.

Definition chain_of_network (network_id : Z) (genesis : string) (format : Z) (mempool : list PendingTxState) : DevnetState :=
  {| ds_format_version := format; ds_network_id := network_id; ds_motto := MOTTO;
     ds_genesis_time_ms := DEVNET_FIXED_GENESIS_TIME_MS; ds_genesis_hash := genesis;
     ds_epoch_ms := 60000; ds_height := 1; ds_tip_hash := hex_encode id_a; ds_tip_epoch := 70;
     ds_anchor_epoch := 70; ds_anchor_license_id := hex_encode id_a; ds_anchor_ticket_index := 0;
     ds_anchor_argon2_proof := hex_encode ZERO32; ds_total_issued_strikes := 800000000;
     ds_difficulty_history_count := 0; ds_difficulty_history_bitmap := 0;
     ds_difficulty_correction_q32 := DIFFICULTY_Q32_ONE; ds_base_fee_rate_q32 := BASE_FEE_MIN_Q32;
     ds_current_state_root := ""; ds_licenses := [license]; ds_consumed_native_payments := [];
     ds_consumed_bitcoin_payments := []; ds_consumed_evidence := []; ds_offense_events := [];
     ds_treasury_reserved_dividend_strikes := 0; ds_dividend_accounts := [];
     ds_historical_license_keys := []; ds_mining_presence := []; ds_bitcoin_headers := [];
     ds_bitcoin_best_chain := None; ds_utxos := utxos; ds_mempool := mempool;
     ds_pending_protocol_operations := []; ds_confirmed_transactions := []; ds_blocks := [block1];
     ds_side_branches := [] |}.

Definition chain_of_format : Z -> list PendingTxState -> DevnetState :=
  chain_of_network DEVNET_NETWORK_ID DEVNET_GENESIS_ID_HEX.
Definition chain : list PendingTxState -> DevnetState := chain_of_format 10.

(** A payment of 4 coins out of 5 to another address, with change and a fee. *)
Definition payment_core (expiry : Z) : TransactionCoreV1 :=
  {| tc_version := 1; tc_network_id := DEVNET_NETWORK_ID; tc_valid_from_epoch := 70; tc_expiry_epoch := expiry;
     tc_inputs := [Outpoint (replicate 32 Byte.xa1) 0];
     tc_outputs := [{| to_amount_strikes := 400000000; to_output_type := OUTPUT_PUBKEY_HASH; to_payload := id_a |};
                    {| to_amount_strikes := 99000000; to_output_type := OUTPUT_PUBKEY_HASH;
                       to_payload := address |}] |}.

Definition payment (expiry : Z) : TransactionV1 :=
  let digest := match UtxoState_prevout (utxo Byte.xa1 500000000 OUTPUT_PUBKEY_HASH address) with
                | Ok prevout => sighash_all (TransactionCoreV1_txid (payment_core expiry)) 0 prevout
                | Err _ => []
                end in
  {| tx_core := payment_core expiry; tx_witnesses := [WitnessV1_pubkey_hash key (sk_sign (dev_seed 0) digest)] |}.

Definition payment_pending (expiry : Z) : list PendingTxState :=
  match pending_from_transaction (chain []) (payment expiry) with Ok p => [p] | Err _ => [] end.

(** The chain with its state root and the payment in its mempool. *)
Definition start : DevnetState :=
  let mempool := payment_pending 0 in
  with_root (match current_root (chain mempool) with Ok root => hex_encode root | Err _ => ""%string end)
    (chain mempool).

(** Mining at epoch 72, which skips epoch 71. *)
Definition mined : node_result DevnetState := mine_epoch_with_signer start 72 None.

(** The last block of a chain, as its record keeps it. *)
Definition last_block (s : DevnetState) : node_result (bytes * list TransactionV1) :=
  let? b := ok_or (Msg "no block"%string) (last (ds_blocks s)) in
  let? header := hex_bytes (bk_header b) in
  let? raw := map_result hex_bytes (bk_transactions b) in
  let? txs := map_result (fun t => map_err FromTx (TransactionV1_decode_full t)) raw in
  Ok (header, txs).

Definition is_ok {A} (P : A -> bool) (r : node_result A) : bool :=
  match r with Ok a => P a | Err _ => false end.

Definition typed_txs (txs : list TransactionV1) : bool :=
  forallb (fun tx => forallb (fun o => 0 <=? to_amount_strikes o) (tc_outputs (tx_core tx))) txs.

(** The validator takes the block that a chain ends with as its second. *)
Definition revalidates (chain : node_result DevnetState) : bool :=
  is_ok (fun s => is_ok (fun block =>
           typed_txs (snd block)
           && is_ok (fun r => ds_height (fst r) =? 2) (validate_and_apply_block 0 start (fst block) (snd block) []))
         (last_block s)) chain.

(** A chain of the older format, which starts with licenses, and its first
    block as a peer sends it. *)
Definition legacy : DevnetState := chain_of_format 9 [].

Definition first_payload : node_result bytes :=
  let? origin := reset_for_replay legacy in
  let? mined := mine_epoch_with_signer origin 70 None in
  let? block := ok_or (Msg "no block"%string) (last (ds_blocks mined)) in
  encode_block_payload block.

Definition accepts_first (origin : node_result DevnetState) (payload : node_result bytes) : bool :=
  is_ok (fun origin => is_ok (fun payload =>
    is_ok (fun runtime => bool_decide (runtime = Devnet)) (runtime_for_state origin) && (Z.of_nat (length payload) <=? 2 ^ 20)
    && is_ok (fun block => let '(header, txs, ops) := block in
         is_ok (fun r => ds_height (fst r) =? 1) (validate_and_apply_block 0 origin header txs ops))
      (decode_block_payload payload)) payload) origin.

(** The parameters of Mainnet. *)
Definition mainnet : DevnetState := chain_of_network MAINNET_NETWORK_ID (hex_encode MAINNET_GENESIS_ID) 10 [].
End node_demo.
