(* ===== verification/NodeWitness.v ===== *)
(** The theorems about the node, applied to the chain of [NodeDemo.v]. *)

From Stdlib Require Import Strings.Byte Strings.String.
From stdpp Require Import strings pretty.
From S2P Require Import Prelude Crypto Codec Consensus Smt State Transaction Protocol ProtocolRules P2p Collections NodeState Economy NodePresence NodeUtxo NodeDividends NodeRoots NodeBootstrap NodeEpoch NodeMempool NodeOperations NodeBlocks NodeMining NodeReorg NodeChain NodeAgreement NodePayload NodeCore NodeSync NodeReplay NodeSyncFacts NodeBody NodeConverge MainnetWitness MainnetBootstrap MainnetChain NodeMainnet NodeCheck NodeInvariant NodeDemo.

#[local] Existing Instance sha2_checksum.
#[local] Existing Instance ed25519_demo.
#[local] Existing Instance argon2_demo.

Lemma demo_typed : typed_state node_demo.start.
Proof.
  split.
  - change (nonneg_amounts node_demo.utxos). constructor; [|constructor; [|constructor]]; cbn; lia.
  - vm_compute. done.
  - vm_compute. discriminate.
  - assert (forallb (fun p => forallb (fun o => 0 <=? so_amount_strikes o) (pd_outputs p))
              (ds_mempool node_demo.start) = true) as H by (vm_compute; reflexivity).
    revert H. generalize (ds_mempool node_demo.start). intros m H.
    apply Forall_forall. intros p Hp. rewrite forallb_forall in H.
    apply list_elem_of_In, H in Hp. rewrite forallb_forall in Hp.
    apply Forall_forall. intros o Ho. apply list_elem_of_In, Hp in Ho. by apply Z.leb_le.
Defined.

Lemma demo_ids : license_ids_ok node_demo.start.
Proof.
  split; [apply NoDup_singleton|]. constructor; [|constructor]. by exists node_demo.id_a.
Defined.

Lemma demo_mined : node_demo.is_ok (fun s => ds_height s =? 2) node_demo.mined = true.
Proof. vm_compute. reflexivity. Defined.

(** The demo chain mines a block with a payment in it at epoch 72, and the
    validator takes it. *)
Lemma miner_validator_agree_witness :
  exists s1 header txs operations s2,
    node_demo.mined = Ok s1 /\
    validate_and_apply_block 0 node_demo.start header txs operations = Ok (s2, ds_tip_hash s1) /\ agree s1 s2.
Proof.
  pose proof demo_mined as Hm. unfold node_demo.mined in *.
  destruct (mine_epoch_with_signer node_demo.start 72 None) as [s1|] eqn:E; [|discriminate Hm].
  cbn [node_demo.is_ok] in Hm. apply Z.eqb_eq in Hm.
  destruct (miner_validator_agree 0 node_demo.start 72 None s1) as (header & txs & ops & s2 & block & H);
    [reflexivity|discriminate|split; [discriminate|reflexivity]|exact demo_typed|exact demo_ids|intros li a H; discriminate H|
     exact E|exact Hm|].
  exists s1, header, txs, ops, s2. split; [reflexivity|]. apply H.
Defined.

Lemma mine_skip_equivalent_witness :
  exists s, mine_skip node_demo.start 73 = Ok s /\ advance_empty_epochs node_demo.start 72 = Ok s.
Proof.
  assert (node_demo.is_ok (fun s => ds_tip_epoch s =? 72) (mine_skip node_demo.start 73) = true) as H
    by (vm_compute; reflexivity).
  destruct (mine_skip node_demo.start 73) as [s|] eqn:E; [|discriminate H]. exists s. split; [reflexivity|].
  apply (mine_skip_equivalent 73 node_demo.start s); [discriminate|discriminate|exact E].
Defined.

Lemma mempool_refines_ledger_witness :
  exists w validated,
    validate_and_apply_mempool node_demo.start node_demo.utxos 72 2 [] = Ok (w, validated) /\
    ledger_run DEVNET_NETWORK_ID BASE_FEE_MIN_Q32 72 2 [] node_demo.utxos (map tx_fee validated) w /\
    utxo_total w + sum_of vt_fee validated = 800000000.
Proof.
  assert (node_demo.is_ok (fun r => (length (snd r) =? 1)%nat)
            (validate_and_apply_mempool node_demo.start node_demo.utxos 72 2 []) = true) as H
    by (vm_compute; reflexivity).
  destruct (validate_and_apply_mempool node_demo.start node_demo.utxos 72 2 []) as [[w validated]|] eqn:E; [|discriminate H].
  exists w, validated. split; [reflexivity|].
  destruct (mempool_refines_ledger node_demo.start node_demo.utxos 72 2 [] w validated E) as (H1 & _ & H2 & _).
  split; [exact H1|]. rewrite <- H2. reflexivity.
Defined.

(** ** A block of the demo chain *)

Lemma demo_rate : fee_rate_ok (ds_base_fee_rate_q32 node_demo.start).
Proof. unfold fee_rate_ok. vm_compute. split; discriminate. Defined.

Lemma demo_chain_ok : chain_ok node_demo.start.
Proof.
  assert (node_demo.is_ok (fun root => String.eqb (ds_current_state_root node_demo.start) (hex_encode root))
            (current_root node_demo.start) = true) as Hroot by (vm_compute; reflexivity).
  split; [discriminate|reflexivity|split; [discriminate|vm_compute; discriminate]|discriminate| |reflexivity|reflexivity|exact demo_rate| |].
  - change (map utxo_key_of (ds_utxos node_demo.start)) with (map utxo_key_of node_demo.utxos).
    constructor; [|apply NoDup_singleton]. intros H%list_elem_of_singleton. discriminate H.
  - split; [exists []|split; discriminate]. split; [apply le_0_n|split; reflexivity].
  - destruct (current_root node_demo.start) as [root|] eqn:E; [|discriminate Hroot].
    exists root. split; [reflexivity|]. by apply String.eqb_eq.
Defined.

Lemma demo_validated : node_demo.revalidates node_demo.mined = true.
Proof. vm_compute. reflexivity. Defined.

Lemma typed_txs_ok txs : node_demo.typed_txs txs = true -> Forall tx_typed txs.
Proof.
  unfold node_demo.typed_txs, tx_typed. rewrite forallb_forall. intros H. apply Forall_forall.
  intros tx Htx%list_elem_of_In%H. rewrite forallb_forall in Htx. apply Forall_forall.
  intros o Ho%list_elem_of_In%Htx. by apply Z.leb_le.
Defined.

(** The validator extends the demo chain by a block. *)
Lemma demo_block : exists header txs s hash, Forall tx_typed txs /\
  validate_and_apply_block 0 node_demo.start header txs [] = Ok (s, hash) /\ ds_height s = 2.
Proof.
  pose proof demo_validated as H. revert H. generalize node_demo.mined. intros [m|] H; [|discriminate H].
  unfold node_demo.revalidates in H. cbn [node_demo.is_ok] in H.
  destruct (node_demo.last_block m) as [[header txs]|]; [|discriminate H]. cbn [node_demo.is_ok fst snd] in H.
  apply andb_true_iff in H as [Ht H].
  destruct (validate_and_apply_block 0 node_demo.start header txs []) as [[s hash]|] eqn:E; [|discriminate H].
  exists header, txs, s, hash. split; [by apply typed_txs_ok|]. split; [exact E|]. by apply Z.eqb_eq.
Defined.

Lemma chain_invariant_witness :
  exists s, ds_height s = 2 /\ chain_ok s /\ exists blocks, ds_blocks s = ds_blocks node_demo.start ++ blocks.
Proof.
  destruct demo_block as (header & txs & s & hash & _ & H & Hh). exists s. split; [exact Hh|].
  destruct (chain_invariant 0 node_demo.start s) as (H1 & _ & H2);
    [eapply rtc_once, step_block, H|exact demo_chain_ok|]. split; [exact H1|exact H2].
Defined.

Lemma accepted_block_effect_witness :
  exists s header, ds_height s = 2 /\
    ds_total_issued_strikes s = 800000000 + subsidy (bh_epoch (read_header_core (take 208 header))).
Proof.
  destruct demo_block as (header & txs & s & hash & _ & H & Hh). exists s, header. split; [exact Hh|].
  apply (accepted_block_effect 0 node_demo.start header txs [] s hash); [reflexivity|discriminate|exact H].
Defined.

Lemma saved_states_load_witness :
  exists s, ds_height s = 2 /\ check_state s = Ok tt.
Proof.
  destruct demo_block as (header & txs & s & hash & Ht & H & Hh). exists s. split; [exact Hh|].
  apply (saved_states_load 0 node_demo.start s).
  - eapply rtc_once, typed_block; [exact Ht|exact H].
  - reflexivity.
  - exact demo_chain_ok.
  - split; [exact (ty_amounts _ demo_typed)|constructor|discriminate].
  - vm_compute. reflexivity.
Defined.

(** ** The mempool *)

(** The one pending payment of the demo state is restored on another branch: it
    applied there. *)
Lemma reorg_restores_consistent_mempool_witness :
  exists s p, restore_reorg_mempool (node_demo.chain []) node_demo.start 1 = Ok (s, 1) /\
    p ∈ ds_mempool node_demo.start /\ is_confirmed (node_demo.chain []) (pd_txid p) = false /\
    admitted_after (node_demo.chain []) [] p.
Proof.
  assert (node_demo.is_ok (fun r => snd r =? 1) (restore_reorg_mempool (node_demo.chain []) node_demo.start 1) = true) as H
    by (vm_compute; reflexivity).
  destruct (restore_reorg_mempool (node_demo.chain []) node_demo.start 1) as [[s n]|] eqn:E; [|discriminate H].
  cbn [node_demo.is_ok snd] in H. apply Z.eqb_eq in H. subst n. exists s.
  destruct (reorg_restores_consistent_mempool (node_demo.chain []) node_demo.start 1 s 1 E eq_refl eq_refl)
    as (c & o & restored & seen & Hc & _ & (_ & Hn & Hsub & Ha & _ & _ & _ & _ & Hf) & _).
  apply Ok_inj, pair_inj in Hc as [<- _]. destruct restored as [|p [|q restored]]; [discriminate Hn| |cbn [length] in Hn; lia].
  exists p. split; [reflexivity|]. split; [apply Hsub; left|]. apply Forall_inv in Hf as [Hf _]. split; [exact Hf|].
  exact (Ha [] p [] eq_refl).
Defined.

(** The payment that was valid through epoch 70 waits at tip epoch 70. *)
Lemma expired_transaction_blocks_mempool_witness :
  exists p, node_demo.payment_pending 70 = [p] /\
    forall q, exists e, validate_received_pending (node_demo.chain [p]) q = Err e.
Proof.
  assert (match node_demo.payment_pending 70 with
          | [p] => node_demo.is_ok (fun tx => tc_expiry_epoch (tx_core tx) =? 70)
                     (to_transaction_for_network p DEVNET_NETWORK_ID)
          | _ => false end = true) as H by (vm_compute; reflexivity).
  destruct (node_demo.payment_pending 70) as [|p [|]]; [discriminate H| |discriminate H]. exists p. split; [reflexivity|].
  intros q. apply (expired_transaction_blocks_mempool (node_demo.chain [p]) p [] 71 2 [] q); [left| |reflexivity].
  destruct (to_transaction_for_network p DEVNET_NETWORK_ID) as [tx|] eqn:E; [|discriminate H].
  apply Z.eqb_eq in H. exists tx. split; [exact E|]. rewrite H. split; [discriminate|reflexivity].
Defined.

(** ** Replay and synchronisation *)

Lemma demo_first : node_demo.accepts_first (reset_for_replay node_demo.legacy) node_demo.first_payload = true.
Proof. vm_compute. reflexivity. Qed.

(** A node [s] that accepted one block, from [payload], in the state [g]. *)
Record follower (g s : DevnetState) (payload header : bytes) (txs : list TransactionV1) (ops : list ProtocolOperationV1)
    (hash : string) : Prop := {
  fo_reset : reset_for_replay g = Ok g;
  fo_runtime : runtime_for_state g = Ok Devnet;
  fo_size : Z.of_nat (length payload) <= MAX_P2P_PAYLOAD;
  fo_decode : decode_block_payload payload = Ok (header, txs, ops);
  fo_accept : validate_and_apply_block 0 g header txs ops = Ok (s, hash);
  fo_height : ds_height s = 1;
}.

Lemma accepts_first_follower t p :
  node_demo.accepts_first (reset_for_replay t) p = true ->
  exists g s payload header txs ops hash, follower g s payload header txs ops hash.
Proof.
  unfold node_demo.accepts_first. destruct (reset_for_replay t) as [g|] eqn:Eg; [|done]. cbn [node_demo.is_ok].
  destruct p as [payload|]; [|done]. cbn [node_demo.is_ok]. intros [[Hrt Hl]%andb_true_iff H]%andb_true_iff.
  destruct (runtime_for_state g) as [runtime|] eqn:Er; [|done]. cbn [node_demo.is_ok] in Hrt.
  apply bool_decide_eq_true in Hrt. apply Z.leb_le in Hl.
  destruct (decode_block_payload payload) as [[[header txs] ops]|] eqn:Ed; [|done]. cbn [node_demo.is_ok] in H.
  destruct (validate_and_apply_block 0 g header txs ops) as [[s hash]|] eqn:Ev; [|done]. cbn [node_demo.is_ok fst] in H.
  apply Z.eqb_eq in H. exists g, s, payload, header, txs, ops, hash.
  split; [exact (reset_idempotent _ _ Eg)|by rewrite Er, Hrt|exact Hl|exact Ed|exact Ev|exact H].
Qed.

Lemma follower_run g s payload header txs ops hash :
  follower g s payload header txs ops hash ->
  node_step 0 g s /\ exists w, chainwork s = Ok w /\ 0 < w.
Proof.
  intros []. pose proof (reset_genesis _ _ fo_reset0) as Hg.
  assert (received_block (block_hash header) (header, txs, ops)) as Hrec by (by exists payload).
  destruct (received_step 0 g _ _ s hash Hrec (genesis_unstarted g Hg) fo_accept0) as (Hstep & _ & b & target & Hb & Ht).
  split; [exact Hstep|]. exists (0 + block_work target). split; [exact (chainwork_snoc _ _ _ _ _ Hb (genesis_work g Hg) Ht)|].
  pose proof (block_work_pos target (decode32_length _ _ Ht)). lia.
Qed.

(** A node that accepted one block from a peer. *)
Lemma demo_accepted : exists g s payload header txs ops hash, follower g s payload header txs ops hash.
Proof. exact (accepts_first_follower node_demo.legacy node_demo.first_payload demo_first). Qed.

Lemma demo_follower : exists g s,
  reset_for_replay g = Ok g /\ ds_height s = 1 /\ rtc (node_step 0) g s.
Proof.
  destruct demo_accepted as (g & s & payload & header & txs & ops & hash & H).
  exists g, s. split; [exact (fo_reset _ _ _ _ _ _ _ H)|]. split; [exact (fo_height _ _ _ _ _ _ _ H)|].
  apply rtc_once. exact (proj1 (follower_run _ _ _ _ _ _ _ H)).
Qed.

Lemma chain_replays_witness : exists s, ds_height s = 1 /\ verify_full_replay 0 s = Ok tt.
Proof.
  destruct demo_follower as (g & s & Hg & Hh & Hrun). exists s. split; [exact Hh|].
  apply (chain_replays 0 g s Hg Hrun).
Defined.

Lemma sync_keeps_heaviest_witness : exists g s,
  ds_height s = 1 /\
  ensures (fun p => rtc (node_step 0) g p.1) (sync_state_from_peer_persistent 0 (Ok s) 100 s).
Proof.
  destruct demo_follower as (g & s & Hg & Hh & Hrun). exists g, s. split; [exact Hh|].
  intros eof input a out rest Ha. apply (sync_keeps_heaviest 0 (Ok s) g s 100 Hg Hrun eof input a out rest Ha).
Defined.

(** A peer announces three headers and sends them in two responses, one of them
    with a header too many. *)
Definition demo_headers_response (n : nat) : bytes :=
  wire (message P2P_MAGIC_DEVNET MSG_HEADERS 0x4001
    (be_bytes 8 3 ++ encode_varuint (Z.of_nat n) ++ concat (replicate n (replicate 272 Byte.x4d)))).

Definition demo_collection : result NodeError (list bytes) * bytes * bytes :=
  play (FromP2p Io) (collect_more (Ok node_demo.start) 4 3 []) (demo_headers_response 2 ++ demo_headers_response 2).

Lemma demo_collection_ok :
  match demo_collection with
  | (Ok all, _, rest) => bool_decide (all = replicate 3 (replicate 272 Byte.x4d)) && bool_decide (rest = [])
  | _ => false
  end = true.
Proof. vm_compute. reflexivity. Qed.

Lemma sync_terminates_witness :
  exists k all out, collects (Ok node_demo.start) (FromP2p Io) 3 [] (demo_headers_response 2 ++ demo_headers_response 2)
      k all out [] /\
    all = replicate 3 (replicate 272 Byte.x4d) /\ (k <= 3)%nat.
Proof.
  pose proof demo_collection_ok as Hok. destruct demo_collection as [[[all|e] out] rest] eqn:E; [|discriminate Hok].
  apply andb_true_iff in Hok as [Ha%bool_decide_eq_true Hr%bool_decide_eq_true]. subst rest. unfold demo_collection in E.
  destruct (sync_terminates 0 (Ok node_demo.start) (FromP2p Io) 3 []
    (demo_headers_response 2 ++ demo_headers_response 2) 4 ltac:(cbn; lia)) as (_ & H2 & H3 & _).
  destruct (proj1 (H2 all out []) E) as [k Hk]. exists k, all, out.
  destruct (H3 k all out [] Hk) as (Hb & _). split; [exact Hk|]. split; [exact Ha|exact Hb].
Defined.

Lemma accepted_block_unique_witness : exists payload header txs ops : _,
  decode_block_payload payload = Ok (header, txs, ops) /\
  ((header = header /\ txs = txs /\ ops = ops /\ payload = payload) \/
   collides (block_messages header txs ops) (block_messages header txs ops)).
Proof.
  destruct demo_accepted as (g & s & payload & header & txs & ops & hash & [Hg Hr Hl Hd Ha Hh]).
  exists payload, header, txs, ops. split; [exact Hd|].
  exact (accepted_block_unique 0 g g s s hash hash payload payload header header txs txs ops ops Hl Hl Hd Hd Ha Ha eq_refl).
Defined.


(** ** Mainnet *)

Lemma mainnet_start template :
  node_demo.is_ok (fun _ => true) (reset_for_replay template) = true ->
  ds_network_id template = MAINNET_NETWORK_ID -> ds_genesis_hash template = hex_encode MAINNET_GENESIS_ID ->
  exists s, mainnet_origin s.
Proof.
  intros H Hn Hg. destruct (reset_for_replay template) as [s|] eqn:E; [|discriminate H]. exists s.
  by eapply reset_origin.
Defined.

Lemma demo_origin : exists s, mainnet_origin s.
Proof. apply (mainnet_start node_demo.mainnet); [vm_compute; reflexivity|reflexivity|reflexivity]. Defined.

(** A file that is not the witness. *)
Definition demo_provider : BootstrapWitnessProvider :=
  {| wp_path := "witness.bin"; wp_is_file := true; wp_read := Ok [Byte.x4d] |}.

Lemma mainnet_first_block_witness :
  exists s, mainnet_origin s /\
    (forall header txs ops,
       validate_and_apply_block_for_runtime 0 s header txs ops Mainnet None
       = Err (LocalBootstrapInput (Msg "--bootstrap-witness is required for Mainnet Genesis -> Block1"%string))) /\
    (forall header txs ops,
       validate_and_apply_block_for_runtime 0 s header txs ops Mainnet (Some demo_provider)
       = Err (LocalBootstrapInput (Msg "LOCAL_INPUT_FAILURE: witness length 1 != 161323"%string))).
Proof.
  destruct demo_origin as [s Hs]. exists s. split; [exact Hs|]. split.
  - exact (proj1 (mainnet_first_block 0 s None Hs)).
  - intros header txs ops.
    exact (proj1 (mainnet_first_block 0 s (Some demo_provider) Hs) header txs ops (WrongLength 1) ltac:(vm_compute; reflexivity)).
Defined.
