(* ===== verification/SignerDemo.v ===== *)
(** The durable signer of [MiningSigner] on a concrete Mainnet state: a history
    with a signature, a crash, a refused second header and a retry; the
    theorems about the signer are applied to it. *)

From stdpp Require Import strings.
From S2P Require Import Prelude Crypto Smt Protocol ProtocolRules Files NodeState NodePunishment NodeBootstrap NodeBlocks NodeDemo MiningSigner.

#[local] Existing Instance sha2_checksum.
#[local] Existing Instance ed25519_demo.

(** A header on the tip of the demo chain, with a given transaction root. *)
Definition demo_core (tx_root : byte) : bytes :=
  header_core {| bh_version := 1; bh_network_id := ds_network_id node_demo.mainnet; bh_epoch := 72;
                 bh_parent := node_demo.id_a; bh_tx_root := replicate 32 tx_root; bh_state_root := ZERO32;
                 bh_target := replicate 32 Byte.xff; bh_license_id := node_demo.id_a; bh_ticket := 3;
                 bh_proof := ZERO32 |}.

Definition start : world := {| sw_disk := ∅; sw_running := None; sw_released := [] |}.

Definition do_open (initialize : bool) (fs : list fault) (w : world) : world :=
  after_open w (MiningSigner_open node_demo.mainnet 0 (dev_seed 0) true initialize
                  (bool_decide (is_Some (sw_running w))) (sw_disk w) fs).

Definition do_sign (core : bytes) (fs : list fault) (w : world) : world :=
  match sw_running w with
  | Some s => after_sign w s 2 core (sign_candidate s node_demo.mainnet 2 core (sw_disk w) fs)
  | None => w
  end.

(** One signature; the machine stops in the next call; after the restart the
    other header is refused and the first one is signed again. *)
Definition signed : world := do_sign (demo_core Byte.x01) [] (do_open true [] start).
Definition crashed : world := do_sign (demo_core Byte.x01) [Fine; Crash false None] signed.
Definition retried : world :=
  do_sign (demo_core Byte.x01) [] (do_sign (demo_core Byte.x02) [] (do_open false [] crashed)).

Example the_other_header_is_refused :
  map rl_core (sw_released retried) = [demo_core Byte.x01; demo_core Byte.x01] /\
  is_Some (sw_running retried).
Proof. vm_compute. split; [done|by eexists]. Qed.

Lemma history_open d w b fs : history d w -> history d (do_open b fs w).
Proof. intros H. eapply history_step; [exact H|]. apply step_open. Qed.

Lemma history_sign d w core fs : length core = 208%nat -> history d w -> history d (do_sign core fs w).
Proof.
  intros Hc H. unfold do_sign. destruct (sw_running w) as [s|] eqn:E; [|done].
  eapply history_step; [exact H|]. by apply step_sign.
Qed.

Lemma demo_core_length b : length (demo_core b) = 208%nat.
Proof. by destruct b. Qed.

Lemma history_signed : history ∅ signed.
Proof.
  exact (history_sign ∅ (do_open true [] start) (demo_core Byte.x01) [] (demo_core_length _)
           (history_open ∅ start true [] (history_start ∅))).
Qed.

Lemma history_crashed : history ∅ crashed.
Proof. exact (history_sign ∅ signed (demo_core Byte.x01) _ (demo_core_length _) history_signed). Qed.

Lemma history_retried : history ∅ retried.
Proof.
  exact (history_sign ∅ _ (demo_core Byte.x01) [] (demo_core_length _)
           (history_sign ∅ _ (demo_core Byte.x02) [] (demo_core_length _)
              (history_open ∅ crashed false [] history_crashed))).
Qed.

Lemma retried_released : exists r1 r2, sw_released retried = [r1; r2] /\
  rl_core r1 = demo_core Byte.x01 /\ rl_core r2 = demo_core Byte.x01.
Proof. vm_compute. do 2 eexists. done. Qed.

Lemma never_two_headers_for_a_ticket_witness : exists w r1 r2,
  history ∅ w /\ r1 ∈ sw_released w /\ r2 ∈ sw_released w /\ same_ticket (rl_core r1) (rl_core r2) /\
  rl_core r1 = rl_core r2 /\ rl_height r1 = rl_height r2.
Proof.
  destruct retried_released as (r1 & r2 & E & E1 & E2). exists retried, r1, r2.
  assert (r1 ∈ sw_released retried) as H1 by (rewrite E; left).
  assert (r2 ∈ sw_released retried) as H2 by (rewrite E; right; left).
  assert (same_ticket (rl_core r1) (rl_core r2)) as Ht by (rewrite E1, E2; split; reflexivity).
  split; [apply history_retried|]. split; [exact H1|]. split; [exact H2|]. split; [exact Ht|].
  exact (never_two_headers_for_a_ticket ∅ retried r1 r2 history_retried H1 H2 Ht).
Defined.

Lemma signer_is_never_convicted_witness : exists w r1 r2 evidence,
  history ∅ w /\ r1 ∈ sw_released w /\ r2 ∈ sw_released w /\
  pe_offense_type evidence = OFFENSE_SAME_TICKET_EQUIVOCATION /\
  validate_objective_evidence node_demo.mainnet evidence <> Ok true.
Proof.
  destruct retried_released as (r1 & r2 & E & E1 & E2).
  set (evidence := {| pe_offense_type := OFFENSE_SAME_TICKET_EQUIVOCATION;
    pe_accused_license_id := node_demo.id_a;
    pe_evidence := be_bytes 4 0 ++ (rl_core r1 ++ rl_signature r1) ++ (rl_core r2 ++ rl_signature r2) |}).
  exists retried, r1, r2, evidence.
  assert (r1 ∈ sw_released retried) as H1 by (rewrite E; left).
  assert (r2 ∈ sw_released retried) as H2 by (rewrite E; right; left).
  split; [apply history_retried|]. split; [exact H1|]. split; [exact H2|]. split; [reflexivity|].
  exact (signer_is_never_convicted ∅ retried r1 r2 node_demo.mainnet evidence 0 history_retried H1 H2
           eq_refl eq_refl).
Defined.
