(* ===== verification/KeystoreDemo.v ===== *)
(** The secret files of [Keystore] and the wallet directory of [WalletFiles] on
    a concrete seed, over the stand-ins for the third-party primitives of
    [NodeDemo]. *)

From Stdlib Require Import Strings.Byte.
From stdpp Require Import strings.
From S2P Require Import Prelude Crypto Smt Protocol Files Keystore WalletFiles NodeDemo.

#[local] Existing Instance sha2_checksum.
#[local] Existing Instance ed25519_demo.
#[local] Existing Instance argon2_demo.

Definition demo_seed : bytes32 := replicate 32 Byte.x42.
Definition demo_passphrase : bytes := ascii_bytes "correct horse battery staple".
Definition demo_salt : bytes := replicate 16 Byte.x01.
Definition demo_nonce : bytes := replicate 12 Byte.x02.
Definition demo_network : Z := 0x4d555403.

Definition demo_file : result KeystoreError bytes :=
  seal_seed demo_seed LicenseMining demo_network demo_passphrase demo_salt demo_nonce.

Definition demo_bytes : bytes := match demo_file with Ok bs => bs | Err _ => [] end.

Lemma demo_file_made : demo_file = Ok demo_bytes.
Proof. vm_compute. reflexivity. Qed.

Lemma demo_file_opens : open demo_bytes LicenseMining demo_network demo_passphrase = Ok demo_seed.
Proof. vm_compute. reflexivity. Qed.

Example weak_passphrase_refused :
  seal_seed demo_seed LicenseMining demo_network (ascii_bytes "hunter2") demo_salt demo_nonce = Err WeakPassphrase.
Proof. vm_compute. reflexivity. Qed.

Lemma sealed_seed_opens_witness : exists bs, demo_file = Ok bs /\
  length bs = FILE_LEN /\ (12 <= length demo_passphrase)%nat /\
  inspect bs = Ok {| pm_role := LicenseMining; pm_network_id := demo_network; pm_params := PRODUCTION;
                     pm_public_key := sk_public demo_seed |} /\
  open bs LicenseMining demo_network demo_passphrase = Ok demo_seed /\
  (forall role' net', role' <> LicenseMining -> open bs role' net' demo_passphrase = Err RoleMismatch) /\
  (forall net', net' <> demo_network -> open bs LicenseMining net' demo_passphrase = Err NetworkMismatch).
Proof.
  exists demo_bytes. split; [exact demo_file_made|].
  apply (sealed_seed_opens demo_seed LicenseMining demo_network demo_passphrase PRODUCTION demo_salt demo_nonce demo_bytes);
    [reflexivity|reflexivity|reflexivity|split; vm_compute; congruence| |exact demo_file_made].
  unfold params_wf. vm_compute. split; [|split]; split; congruence.
Defined.

Lemma opened_file_is_authenticated_witness : exists bs seed,
  open bs LicenseMining demo_network demo_passphrase = Ok seed /\
  exists meta keys, parse_metadata bs = Ok meta /\ pm_role meta = LicenseMining /\
    pm_network_id meta = demo_network /\
    derive_keys demo_passphrase (slice 28 44 bs) (pm_params meta) = Ok keys /\
    bs = take 120 bs ++ hmac_sha256 (drop 32 keys) (take 120 bs) /\
    sk_public seed = pm_public_key meta /\
    seed = chacha20_xor (take 32 keys) (slice 44 56 bs) (slice 88 120 bs).
Proof.
  exists demo_bytes, demo_seed. split; [exact demo_file_opens|].
  exact (opened_file_is_authenticated demo_bytes LicenseMining demo_network demo_passphrase demo_seed demo_file_opens).
Defined.

(** A backup of that file. *)
Definition demo_entry (bs : bytes) : WalletBackupEntry :=
  {| wb_role := LicenseMining; wb_label := ascii_bytes "mine-1"; wb_public_key := sk_public demo_seed;
     wb_secret_file := bs |}.

Example demo_backup_roundtrip :
  match demo_file with
  | Ok bs =>
      match encode_wallet_backup demo_network [demo_entry bs] with
      | Ok out => decode_wallet_backup out = Ok (demo_network, [demo_entry bs])
      | Err _ => False
      end
  | Err _ => False
  end.
Proof. vm_compute. reflexivity. Qed.

(** A data directory with one key of the wallet beside another file, and one
    without keys. *)
Definition demo_key_name : bytes := wallet_key_name LicenseMining (ascii_bytes "mine-1").
Definition other_name : bytes := ascii_bytes "node-identity.msk".
Definition demo_names : list bytes := [other_name; demo_key_name].
Definition demo_secret : bytes :=
  match seal_seed demo_seed LicenseMining DEVNET_NETWORK_ID demo_passphrase demo_salt demo_nonce with
  | Ok bs => bs | Err _ => [] end.
Definition demo_dir : disk bytes := <[demo_key_name := demo_secret]> (<[other_name := [Byte.x01]]> ∅).
Definition other_dir : disk bytes := <[other_name := [Byte.x02]]> ∅.
Definition demo_backup := wallet_backup_create (Some demo_names) demo_passphrase demo_dir [].

Lemma demo_dir_files name : is_Some (demo_dir !! name) -> name = demo_key_name \/ name = other_name.
Proof.
  unfold demo_dir. intros [c H]. apply lookup_insert_Some in H as [[<- _]|[_ H]]; [by left|].
  apply lookup_insert_Some in H as [[<- _]|[_ H]]; [by right|]. by rewrite lookup_empty in H.
Defined.

Lemma wallet_backup_restores_witness : exists bundle r es, demo_backup = (demo_dir, [], Returns (Ok bundle)) /\
  restore_wallet_backup_bytes (fun _ => demo_salt) bundle demo_passphrase other_dir [] = (r, [], Returns (Ok es)) /\
  r !! demo_key_name = Some demo_secret /\ r !! other_name = Some [Byte.x02] /\
  exists seed, load_wallet_key r LicenseMining (ascii_bytes "mine-1") demo_passphrase = Ok seed.
Proof.
  assert (match demo_backup with (_, [], Returns (Ok _)) => true | _ => false end = true) as Hc by (vm_compute; reflexivity).
  destruct demo_backup as [[d1 [|]] [[bundle|]|]] eqn:E; try discriminate Hc. unfold demo_backup in E.
  assert (forall name, name ∈ demo_names <-> is_Some (demo_dir !! name)) as Hn.
  { intros name. split.
    - intros [->|[->|Hin%not_elem_of_nil]%elem_of_cons]%elem_of_cons; [..|destruct Hin]; vm_compute; eexists; reflexivity.
    - intros [->| ->]%demo_dir_files; [by right; left|by left]. }
  assert (forall name, is_Some (demo_dir !! name) -> is_Some (wallet_file_role_and_label name) -> other_dir !! name = None) as Hf.
  { intros name [->| ->]%demo_dir_files Hs; [vm_compute; reflexivity|]. destruct Hs as [x Hs]. vm_compute in Hs. discriminate Hs. }
  assert (forall name, hidden name = true -> other_dir !! name = None) as Hh.
  { intros name Hx. unfold other_dir. rewrite lookup_insert_ne; [apply lookup_empty|]. intros <-. vm_compute in Hx. discriminate Hx. }
  destruct (proj1 wallet_backup_restores demo_names demo_passphrase demo_dir [] d1 [] bundle other_dir
    (fun _ => demo_salt) Hn E Hf Hh) as (r & es & Hr & -> & Hfiles & Hload).
  assert (is_Some (demo_dir !! demo_key_name)) as Hd by (vm_compute; eexists; reflexivity).
  exists bundle, r, es. split; [reflexivity|]. split; [exact Hr|]. split; [|split].
  - rewrite (Hfiles demo_key_name) by reflexivity. vm_compute. reflexivity.
  - rewrite (Hfiles other_name) by reflexivity. vm_compute. reflexivity.
  - destruct (Hload LicenseMining (ascii_bytes "mine-1") eq_refl eq_refl Hd) as (seed & H & _). exists seed. exact H.
Defined.
