(* ===== verification/WorkerDemo.v ===== *)
(** Concrete inputs for the worker pipeline: a node on the development chain of
    NodeDemo, the data directory of its worker service, and one worker whose
    bytes are those of the reference worker.  The theorems about workers are
    applied to it. *)

From Stdlib Require Import Strings.Byte Strings.String.
From stdpp Require Import strings gmap.
From S2P Require Import Prelude Crypto Codec Consensus Smt State Transaction Protocol ProtocolRules Worker Ledger Text P2p WorkerEndpoint WorkerService WorkerScheduler Collections NodeState Economy NodePresence NodePunishment NodeUtxo NodeDividends NodeBitcoin NodePurchase NodeRoots NodeBootstrap NodeEpoch NodeMempool NodeOperations NodeBlocks NodePayload NodeMining NodeReorg NodeChain NodeCore NodeSync NodeReplay NodeAgreement WorkerMining WorkerRuntime NodeDemo NodeWitness.

Module worker_demo.
#[local] Existing Instance sha2_checksum.
#[local] Existing Instance ed25519_demo.
#[local] Existing Instance argon2_demo.

Definition node_key : bytes := replicate 32 Byte.xc7.
Definition worker_key : bytes := replicate 32 Byte.xb6.
Definition mining_key : bytes := dev_seed 0.
Definition node_nonce : bytes := replicate 32 Byte.x31.
Definition net : Z := DEVNET_NETWORK_ID.
Definition magic : Z := WORKER_MAGIC_DEVNET.
Definition the_worker : bytes32 := worker_id net (sk_public worker_key).

(** The handshake, as the worker sees it. *)
Definition hello : WorkerHelloV1 := hello_of net worker_key (replicate 32 Byte.x32) 1 1.
Definition challenge : NodeChallengeV1 := challenge_of node_key node_nonce DEFAULT_NODE_CAPABILITIES hello.
Definition worker_signature : bytes := sign_worker_auth worker_key hello challenge.
Definition handshake : bytes :=
  wire (message magic MSG_WORKER_HELLO 9 (WorkerHelloV1_encode hello))
  ++ wire (message magic MSG_WORKER_AUTH 9 worker_signature).
Definition session : AuthenticatedWorkerSession :=
  session_of 9 hello challenge worker_signature (sign_node_accept node_key hello challenge worker_signature).

(** The ticket of the license at epoch 72, and the worker's result. *)
Definition prepared : node_result (DevnetState * CanonicalTicketPlanV1) :=
  prepare_canonical_ticket node_demo.start 72 0 0 mining_key.
Definition plan : CanonicalTicketPlanV1 :=
  match prepared with Ok (_, plan) => plan | Err _ => plan_of_assignment
    {| ac_network_id := 0; ac_session_id := []; ac_assignment_sequence := 0; ac_worker_id := [];
       ac_node_id := []; ac_parent_block_hash := []; ac_parent_height := 0; ac_target_epoch := 0;
       ac_license_id := []; ac_ticket_index := 0; ac_work_units_for_epoch := 0; ac_eligible_license_count := 0;
       ac_anchor_entropy := []; ac_target := []; ac_expires_epoch := 0; ac_algorithm_id := 0;
       ac_algorithm_version := 0 |} end.
Definition core : WorkAssignmentCoreV1 :=
  match assignment_core (tp_authority plan) session 1 net with
  | Ok core => core
  | Err _ => {| ac_network_id := 0; ac_session_id := []; ac_assignment_sequence := 0; ac_worker_id := [];
       ac_node_id := []; ac_parent_block_hash := []; ac_parent_height := 0; ac_target_epoch := 0;
       ac_license_id := []; ac_ticket_index := 0; ac_work_units_for_epoch := 0; ac_eligible_license_count := 0;
       ac_anchor_entropy := []; ac_target := []; ac_expires_epoch := 0; ac_algorithm_id := 0;
       ac_algorithm_version := 0 |} end.
Definition proof : bytes32 := match assignment_proof core with Ok p => p | Err _ => [] end.
Definition assignment : WorkAssignmentV1 := signed_assignment core node_key.
Definition result : WorkResultV1 := true_result assignment worker_key proof.

(** The data directory. *)
Definition allowlist : text := hex_text the_worker ++ [LF].
Definition authorizations : text := hex_text the_worker ++ [32] ++ hex_text node_demo.id_a ++ [LF].
Definition file (t : text) : option (Z * option text) := Some (Z.of_nat (length t), Some t).
Definition inputs : RuntimeInputs :=
  {| ri_allowlist := file allowlist; ri_worker_dir := Some []; ri_authorizations := file authorizations;
     ri_bind_fails := false; ri_nonce := node_nonce; ri_accept_write_fails := false |}.
Definition idle : WorkerServiceState :=
  {| ws_network_id := net; ws_worker_magic := magic; ws_allowed_workers := ∅; ws_active_workers := ∅;
     ws_ledger := {| wl_network_id := net; wl_generation := 0; wl_records := [] |} |}.
Definition machine_with (input : bytes) : machine :=
  {| mc_chain := Ok node_demo.start; mc_saves := []; mc_saved := []; mc_draws := [0; 9; 17];
     mc_world := {| wd_state := idle; wd_disk := {| d_cur := None; d_next := None; d_prev := None |};
                    wd_faults := []; wd_input := input; wd_sent := [] |} |}.

Definition before : machine := machine_with (handshake ++ result_frame magic 17 result).
Definition served : machine * answer WorkerRuntimeOutcomeV1 :=
  serve_one_mining_ticket inputs 72 0 node_key mining_key before.

(** The service with its empty ledger, and a worker's result that waits. *)
Definition ledger0 : disk * WorkerBudgetLedgerV1 :=
  match open_or_create net (wd_disk (mc_world before)) [] with
  | (d, _, Returns (Ok l)) => (d, l)
  | (d, _, _) => (d, ws_ledger idle)
  end.
Definition ready : world :=
  {| wd_state := {| ws_network_id := net; ws_worker_magic := magic; ws_allowed_workers := {[the_worker]};
                    ws_active_workers := {[the_worker]}; ws_ledger := snd ledger0 |};
     wd_disk := fst ledger0; wd_faults := []; wd_input := result_frame magic 17 result; wd_sent := [] |}.
Definition dispatched : world * reply WorkerServiceError AssignmentDispatchOutcomeV1 :=
  dispatch_one_prepared_ticket session node_key (tp_authority plan) 1 17 ready.
Definition outcome : AssignmentDispatchOutcomeV1 :=
  {| ad_assignment := assignment; ad_result := result; ad_new_unique_ticket := true |}.
Definition ready_state : DevnetState := match prepared with Ok (s, _) => s | Err _ => node_demo.start end.

(** The handshake, as the node sees it. *)
Definition accepted : Prelude.result EndpointError (ActiveWorkerRegistry * Prelude.result EndpointError AuthenticatedWorkerSession) * bytes * bytes :=
  play (EpFrame Io)
    (accept_worker_handshake magic net node_key node_nonce DEFAULT_NODE_CAPABILITIES {[the_worker]} ∅ false) handshake.
End worker_demo.


Section witnesses.
#[local] Existing Instance sha2_checksum.
#[local] Existing Instance ed25519_demo.
#[local] Existing Instance argon2_demo.
Import worker_demo.

Lemma demo_synced : synced (ws_network_id (wd_state ready)) ready.
Proof. vm_compute. reflexivity. Qed.

Lemma demo_sequence : is_u64 1.
Proof. split; [discriminate|reflexivity]. Qed.

Lemma demo_authority : authority_wf (tp_authority plan).
Proof. vm_compute. repeat split; discriminate. Qed.

Lemma demo_session : session_wf session.
Proof. vm_compute. split; reflexivity. Qed.

Lemma demo_dispatched : exists w, dispatched = (w, Replies (Ok outcome)) /\ synced net w.
Proof.
  exists (fst dispatched). split; [|vm_compute; reflexivity].
  assert (snd dispatched = Replies (Ok outcome)) as <- by (vm_compute; reflexivity). by destruct dispatched.
Qed.

Lemma demo_session_accepted : match accepted with (Ok (_, Ok _), _, []) => true | _ => false end = true.
Proof. vm_compute. reflexivity. Qed.

Lemma worker_sessions_authentic_witness :
  exists active s out, accepted = (Ok (active, Ok s), out, []) /\
    as_worker_id s ∈ ({[the_worker]} : gset bytes) /\ active = {[as_worker_id s]} ∪ ∅.
Proof.
  pose proof demo_session_accepted as Hok. destruct accepted as [[[[active [s|e]]|e] out] rest] eqn:E; try discriminate Hok.
  destruct rest; [|discriminate Hok].
  unfold accepted in E.
  assert (is32 node_nonce) as Hn by reflexivity.
  assert (is_u64 DEFAULT_NODE_CAPABILITIES) as Hc by (split; [discriminate|reflexivity]).
  pose proof (worker_sessions_authentic _ _ _ _ _ _ _ _ _ _ _ _ Hn Hc E) as [_ H].
  destruct (H active s eq_refl) as (_ & Hin & _ & Ha & _).
  exists active, s, out. split; [reflexivity|]. split; [exact Hin|exact Ha].
Defined.

Lemma dispatch_reserves_first_witness :
  exists w, dispatched = (w, Replies (Ok outcome)) /\ wd_sent w <> [].
Proof.
  destruct demo_dispatched as (w & E & _). exists w. split; [exact E|].
  unfold dispatched in E.
  destruct (dispatch_reserves_first _ _ _ _ _ _ _ _ demo_synced demo_authority demo_session demo_sequence E)
    as (sent & Hs & _ & [(_ & (e & He) & _)|(core & _ & _ & Hsent & _)]); [discriminate He|].
  rewrite Hs. exact Hsent.
Defined.

Lemma demo_workable : workable net session node_key worker_key (tp_authority plan) 1 17 core ready.
Proof.
  assert (assignment_core (tp_authority plan) session 1 net = Ok core) as Hc by (vm_compute; reflexivity).
  split; [exact demo_synced|reflexivity|by split|reflexivity| |exact Hc| | | |by vm_compute|by vm_compute|..];
    try (vm_compute; reflexivity).
  - split; [by split|]. split; [discriminate|]. vm_compute. discriminate.
  - vm_compute. repeat split; discriminate.
  - apply (reservation_wf _ _ _ _ _ demo_authority demo_session demo_sequence Hc).
Qed.

Lemma ticket_is_worked_witness :
  exists from_node from_worker w' o,
    play (RwFrame Io) (process_one_assignment (ws_worker_magic (wd_state ready)) session (sk_public node_key) worker_key)
      from_node = (Ok (ad_result o), from_worker, []) /\
    dispatch_one_prepared_ticket session node_key (tp_authority plan) 1 17 (with_input from_worker ready)
      = (w', Replies (Ok o)).
Proof.
  assert (assignment_proof core = Ok proof) as Hp by (vm_compute; reflexivity).
  destruct (ticket_is_worked _ _ _ _ _ _ _ _ _ _ demo_workable Hp) as (fn & fw & w' & d & s & H1 & H2 & _).
  eexists fn, fw, w', _. split; [|exact H2]. exact H1.
Defined.

Lemma scheduler_keeps_budget_witness :
  exists p, next_unique_plan_for_session {[the_worker := {[node_demo.id_a]}]} (wd_state ready) plan session = Ok (Some p) /\
    plan_ticket_seen (wd_state ready) plan (pa_ticket_index (tp_authority p)) = false.
Proof.
  pose proof (scheduler_keeps_budget {[the_worker := {[node_demo.id_a]}]} plan session node_key 1 17 ready
    demo_synced demo_authority demo_session demo_sequence) as (_ & H & _).
  destruct (next_unique_plan_for_session _ (wd_state ready) plan session) as [[p|]|e] eqn:E;
    [|exfalso; revert E; vm_compute; discriminate..].
  exists p. split; [reflexivity|]. destruct (H p eq_refl) as (_ & _ & _ & Hs & _). exact Hs.
Defined.

Lemma worker_results_judged_witness :
  exists w s1, dispatched = (w, Replies (Ok outcome)) /\
    finalize_worker_result ready_state session mining_key plan outcome w = (w, Replies (Ok (s1, AcceptedBlock))) /\
    genuine plan outcome.
Proof.
  destruct demo_dispatched as (w & E & Hs).
  assert (w = fst dispatched) as Hw by (by rewrite E).
  destruct (finalize_worker_result ready_state session mining_key plan outcome w) as [w' r] eqn:Ef.
  assert (ws_network_id (wd_state w) = net) as Hn by (rewrite Hw; vm_compute; reflexivity).
  assert (match r with Replies (Ok (_, AcceptedBlock)) => true | _ => false end = true) as Hr.
  { assert (r = snd (finalize_worker_result ready_state session mining_key plan outcome (fst dispatched))) as ->
      by (by rewrite <- Hw, Ef). vm_compute. reflexivity. }
  destruct r as [[[s1 []]|e]|]; try discriminate Hr.
  rewrite <- Hn in Hs.
  destruct (worker_results_judged ready_state session mining_key plan outcome w w' _ Hs Ef) as (-> & Hg & _).
  exists w, s1. split; [reflexivity || exact E|]. split; [exact Ef|exact Hg].
Defined.

Lemma served_ticket_is_valid_witness :
  exists m o s1 header txs operations s2, served = (m, Answers (Ok o)) /\ mc_chain m = Ok s1 /\
    ro_canonical_height o = 2 /\
    validate_and_apply_block 0 node_demo.start header txs operations = Ok (s2, ds_tip_hash s1) /\ agree s1 s2.
Proof.
  destruct served as [m r] eqn:E.
  assert (match r with Answers (Ok o) => ro_block_accepted o && (ro_canonical_height o =? 2) | _ => false end = true) as Hr.
  { assert (r = snd served) as -> by (by rewrite E). vm_compute. reflexivity. }
  destruct r as [[o|e]| |]; try discriminate Hr. apply andb_true_iff in Hr as [Hacc Hh]. apply Z.eqb_eq in Hh.
  assert (is_u64 72) as Hu by (split; [discriminate|reflexivity]).
  assert (0 < ds_height node_demo.start) as H0 by reflexivity.
  assert (0 <= ds_tip_epoch node_demo.start) as Ht by discriminate.
  assert (mc_chain before = Ok node_demo.start) as Hm by reflexivity.
  unfold served in E.
  destruct (served_ticket_is_valid 0 _ _ _ _ _ _ _ _ _ Hm H0 Ht Hu demo_typed demo_ids E)
    as (_ & prepared & s1 & sent & _ & Hc & _ & _ & _ & H).
  rewrite Hacc in H. destruct H as (header & txs & operations & s2 & block & _ & _ & _ & _ & _ & _ & Hv & Ha).
  exists m, o, s1, header, txs, operations, s2. split; [reflexivity || exact E|]. split; [exact Hc|]. split; [exact Hh|].
  split; [exact Hv|exact Ha].
Defined.
End witnesses.
