(* ===== verification/WalletDemo.v ===== *)
(** Concrete inputs for the wallet: the development chain of NodeDemo with two
    more coins and a payment already in the mempool. *)

From Stdlib Require Import Strings.Byte Strings.String.
From stdpp Require Import strings.
From S2P Require Import Prelude Crypto Codec Smt State Transaction Protocol Collections NodeState Economy NodePresence NodeUtxo NodeBootstrap NodeMempool NodeOperations NodeBlocks NodeMining NodeChain NodeReorg NodeAgreement NodeDemo NodeWitness Wallet Offline Rpc.

Module wallet_demo.
#[local] Existing Instance sha2_checksum.
#[local] Existing Instance ed25519_demo.

Definition coins : list UtxoState :=
  node_demo.utxos ++ [node_demo.utxo Byte.xa3 30000 OUTPUT_PUBKEY_HASH node_demo.address;
                      node_demo.utxo Byte.xa4 700000000 OUTPUT_PUBKEY_HASH node_demo.address].

Definition purse : DevnetState := node_demo.chain (node_demo.payment_pending 0) <| ds_utxos := coins |>.

(** A payment that needs both free coins, and leaves change. *)
Definition amount : Z := 650000000.
Definition sent : node_result PendingTxState := create_send_transaction_with_signer purse 0 0 amount (dev_seed 0).
Definition accepted : node_result (list UtxoState * list ValidatedTx) :=
  validate_and_apply_mempool purse (ds_utxos purse) 72 (ds_height purse + 1) [].

(** The same payment over the air gap: the request, its file, the signatures
    and their file. *)
Definition request : node_result OfflineSpendRequestV1 := create_offline_send_request purse 0 0 amount.
Definition request_file : node_result bytes := let? r := request in OfflineSpendRequestV1_encode r.
Definition expected_txid : string :=
  match request with Ok r => to_hex (TransactionCoreV1_txid (OfflineSpendRequestV1_core r)) | Err _ => "" end.
Definition agreed : node_result OfflineSpendSignatureV1 :=
  let? bs := request_file in offline_sign bs expected_txid node_demo.address amount 100000 (dev_seed 0).
Definition signed_file : node_result bytes := let? signed := agreed in OfflineSpendSignatureV1_encode signed.
Definition submitted : node_result DevnetState :=
  let? bs := request_file in let? signed_bs := signed_file in offline_submit purse bs signed_bs.

(** The same files, handed to the local server, and a second payment beside
    them. *)
Definition token : bytes := replicate 32 Byte.x5a.
Definition files (amount : Z) : node_result Value :=
  let? r := create_offline_send_request purse 0 0 amount in
  let? bs := OfflineSpendRequestV1_encode r in
  let? signed := offline_sign bs (to_hex (TransactionCoreV1_txid (OfflineSpendRequestV1_core r)))
                   node_demo.address amount 100000 (dev_seed 0) in
  let? signed_bs := OfflineSpendSignatureV1_encode signed in
  Ok (Object [("request_hex"%string, Text (hex_encode bs)); ("signed_hex"%string, Text (hex_encode signed_bs))]).
Definition submit_request : node_result RpcWireRequest :=
  call_request (Ok (encode_token_file token)) "offline.submit" (files amount).
Definition world : RpcWorld := {| rw_loaded := Ok purse; rw_save := fun _ => Ok tt |}.
Definition served : RpcWireResponse * option DevnetState := handle_line (fun _ => submit_request) world token [].
Definition submissions (i : nat) : Value :=
  match files (if (i =? 0)%nat then amount else 20000) with Ok v => v | Err _ => Null end.
End wallet_demo.
Import wallet_demo.

Section witness.
#[local] Existing Instance sha2_checksum.
#[local] Existing Instance ed25519_demo.

Lemma utxo_canonical t a ty p : canonical_txid (us_txid (node_demo.utxo t a ty p)).
Proof. exists (replicate 32 t). done. Defined.

Lemma purse_ready : wallet_ready purse.
Proof.
  split.
  - change (ds_utxos purse) with coins. apply NoDup_ListNoDup. vm_compute.
    repeat constructor; intros H; repeat (destruct H as [H|H]; [discriminate H|]); destruct H.
  - change (ds_utxos purse) with coins. unfold coins, node_demo.utxos. cbn [app].
    repeat (apply Forall_cons; split; [split; [apply utxo_canonical|discriminate]|]). constructor.
  - change (ds_mempool purse) with (node_demo.payment_pending 0). unfold canonical_inputs.
    assert (map (fun p => map si_previous_txid (pd_inputs p)) (node_demo.payment_pending 0)
            = [[hex_encode (replicate 32 Byte.xa1)]]) as H by (vm_compute; reflexivity).
    revert H. generalize (node_demo.payment_pending 0). intros l H.
    destruct l as [|p [|? ?]]; try discriminate H. injection H as H. constructor; [|constructor].
    destruct (pd_inputs p) as [|i [|? ?]]; try discriminate H. injection H as H.
    constructor; [|constructor]. rewrite H. exists (replicate 32 Byte.xa1). done.
  - discriminate.
Defined.

Lemma wallet_send_mineable_witness :
  exists p w out s', sent = Ok p /\ accepted = Ok (w, out) /\ length out = 1%nat /\
    wallet_send purse 0 0 amount (dev_seed 0) = Ok s' /\ length (ds_mempool s') = 2%nat /\ length (pd_inputs p) = 2%nat.
Proof.
  assert (match sent with Ok p => (length (pd_inputs p) =? 2)%nat | Err _ => false end = true) as H1 by (vm_compute; reflexivity).
  assert (match accepted with Ok (_, out) => (length out =? 1)%nat | Err _ => false end = true) as H2 by (vm_compute; reflexivity).
  assert (next_mineable_epoch purse <= 72) as He by (vm_compute; discriminate).
  assert (0 <= amount) as Ha by discriminate.
  assert (length (ds_mempool purse) = 1%nat) as Hm by (vm_compute; reflexivity).
  destruct sent as [p|] eqn:Es; [|discriminate H1]. destruct accepted as [[w out]|] eqn:Ea; [|discriminate H2].
  unfold sent in Es. unfold accepted in Ea.
  destruct (wallet_send_mineable purse 0 0 amount (dev_seed 0) p 72 w out purse_ready Ha Es He Ea) as [Hs _].
  exists p, w, out. eexists. split; [reflexivity|]. split; [reflexivity|]. split; [by apply Nat.eqb_eq|].
  split; [exact Hs|]. split; [|by apply Nat.eqb_eq].
  change (length (ds_mempool purse ++ [p]) = 2%nat). rewrite length_app, Hm. reflexivity.
Defined.

Lemma purse_offline_ready : offline_ready purse.
Proof.
  split; [exact purse_ready|reflexivity| | |].
  - change (ds_utxos purse) with coins. unfold coins, node_demo.utxos. cbn [app].
    repeat (apply Forall_cons; split; [split; split; [discriminate|reflexivity|discriminate|reflexivity]|]). constructor.
  - split; vm_compute; (split; [discriminate|reflexivity]).
  - split; [apply NoDup_singleton|]. constructor; [|constructor]. exists node_demo.id_a. split; reflexivity.
Defined.

(** The files of the air-gapped payment exist and hold each other's contents. *)
Lemma offline_files : exists r bs signed signed_bs, request = Ok r /\ OfflineSpendRequestV1_encode r = Ok bs /\
  offline_sign bs expected_txid node_demo.address amount 100000 (dev_seed 0) = Ok signed /\
  OfflineSpendSignatureV1_encode signed = Ok signed_bs /\ submitted = offline_submit purse bs signed_bs.
Proof.
  assert (match submitted with Ok _ => true | Err _ => false end = true) as H by (vm_compute; reflexivity).
  unfold submitted, signed_file, agreed, request_file in *.
  destruct request as [r|]; [|discriminate H]. destruct (OfflineSpendRequestV1_encode r) as [bs|] eqn:E1; [|discriminate H].
  destruct (offline_sign bs _ _ _ _ _) as [signed|] eqn:E2; [|discriminate H].
  destruct (OfflineSpendSignatureV1_encode signed) as [signed_bs|] eqn:E3; [|discriminate H].
  exists r, bs, signed, signed_bs. repeat split; assumption.
Defined.

Lemma offline_spend_equals_online_witness :
  exists s' p, submitted = Ok s' /\ create_send_transaction_with_signer purse 0 0 amount (dev_seed 0) = Ok p /\
    s' = purse <| ds_mempool := ds_mempool purse ++ [p] |>.
Proof.
  assert (match submitted with Ok _ => true | Err _ => false end = true) as H by (vm_compute; reflexivity).
  destruct offline_files as (r & bs & signed & signed_bs & E0 & E1 & E2 & E3 & E4). rewrite E4 in H |- *.
  assert (is_u64 amount) as Ha by (split; [discriminate|reflexivity]).
  assert (0 < 256)%nat as H0 by apply Nat.lt_0_succ. unfold request in E0.
  destruct (offline_submit purse bs signed_bs) as [s'|] eqn:Es; [|discriminate H].
  destruct (offline_spend_equals_online purse 0 0 amount (dev_seed 0) r bs _ _ _ _ signed signed_bs s'
    purse_offline_ready Ha H0 H0 E0 E1 E2 E3) as [Hto _].
  destruct (Hto Es) as (p & Hp & _ & Hs'). exists s', p. split; [reflexivity|]. split; [exact Hp|exact Hs'].
Defined.

Lemma offline_signer_bounds_witness :
  exists bs signed r change, request_file = Ok bs /\
    offline_sign bs expected_txid node_demo.address amount 100000 (dev_seed 0) = Ok signed /\
    OfflineSpendRequestV1_decode bs = Ok r /\ prevout_total (or_prevouts r) - output_total change <= amount + 100000.
Proof.
  destruct offline_files as (r0 & bs & signed & signed_bs & E0 & E1 & E2 & _).
  destruct (offline_signer_bounds bs _ _ _ _ _ signed E2) as (r & change & Hd & _ & _ & _ & _ & _ & Hb & _).
  exists bs, signed, r, change. split; [unfold request_file; rewrite E0; exact E1|]. split; [exact E2|]. split; [exact Hd|exact Hb].
Defined.

Lemma rpc_requests_guarded_witness :
  exists response rq s' request_bytes signed_bytes, served = (response, Some s') /\ submit_request = Ok rq /\
    hex_decode (rq_token rq) = Some token /\ offline_submit purse request_bytes signed_bytes = Ok s'.
Proof.
  assert (match served with (_, Some _) => true | _ => false end = true) as H by (vm_compute; reflexivity).
  destruct served as [response [s'|]] eqn:E; [|discriminate H]. unfold served in E.
  assert (length token = RPC_TOKEN_LEN) as Hl by reflexivity.
  assert (Some s' <> None) as Hs by discriminate.
  destruct (rpc_requests_guarded (fun _ => submit_request) world token [] Hl) as [Hok _].
  destruct (Hok response (Some s') E (or_intror Hs)) as (rq & Hp & _ & Ht & _ & _ & _ & Hsaved).
  destruct (Hsaved s' eq_refl) as [_ (s & rb & sb & Hw & _ & Ho & _)]. injection Hw as <-.
  exists response, rq, s', rb, sb. split; [reflexivity|]. split; [exact Hp|]. split; [exact Ht|exact Ho].
Defined.

Lemma written_some (r : node_result (Value * option DevnetState)) :
  match r with Ok (_, Some _) => true | _ => false end = true -> exists row s, r = Ok (row, Some s).
Proof. destruct r as [[row [s|]]|]; try discriminate. eauto. Defined.

(** Two payments submitted at the same time: both are acknowledged, one is
    kept. *)
Lemma two_submissions_one_kept :
  let v := server_run submissions purse [Loads 0; Loads 1; Saves 0; Saves 1]%nat in
  is_Some (rv_answered v !! 0%nat) /\ is_Some (rv_answered v !! 1%nat) /\
  length (ds_mempool (rv_disk v)) = S (length (ds_mempool purse)).
Proof.
  assert (exists row s, submit_loaded purse (submissions 0) = Ok (row, Some s)) as (r0 & s0 & E0)
    by (apply written_some; vm_compute; reflexivity).
  assert (exists row s, submit_loaded purse (submissions 1) = Ok (row, Some s)) as (r1 & s1 & E1)
    by (apply written_some; vm_compute; reflexivity).
  destruct (concurrent_submissions_lost submissions purse r0 s0 r1 s1 E0 E1) as (H0 & H1 & _ & Hn).
  split; [exists r0; exact H0|]. split; [exists r1; exact H1|exact Hn].
Qed.
End witness.
